(* ===== verification/_CoqProject ===== *)
-Q . S2P
Prelude.v
Bytes.v
Varint.v
Frames.v
Ack.v
Framewalk.v
PktNum.v
Header.v
HeaderSafe.v
Packets.v
RecvPn.v
AckGen.v
Rtt.v
SentTable.v
Recover.v
Congestion.v
Reassembly.v
ConnTable.v
Streams.v
Pmtu.v
Lifecycle.v
Paths.v
PeerCid.v
Fips180.v
Sha2.v
Rfc8439.v
Gf2.v
Aes.v
Ghash.v
Gcm.v
Chacha.v
Protect.v
Suites.v
Unprotect.v
PktProt.v
InitPkt.v
Srvboot.v
Hello.v
Tokens.v
KeySched.v
QpackHuff.v
QpackStr.v
QpackTable.v
QpackDyn.v
QpackEnc.v
QpackSync.v
QpackRx.v
