(* ===== verification/Prelude.v ===== *)
(** * wired: a verification library for a QUIC server

    wired (src/) is a freestanding C library: QUIC transport, TLS 1.3, HTTP/3
    with QPACK, WebTransport and MoQT on top of its own cryptography. This
    development models the transport core, the symmetric cryptography it
    stands on, the TLS key schedule, the QPACK component and the first step of
    the server's handshake, as shallow embeddings of the C functions, and proves what makes
    them correct. File and function names below are those of src/src/.

    ** How the parts interact

    A datagram is split into packets (Packets), each packet's header is parsed
    (Header), its protection removed (Unprotect over Protect, Suites, Gcm,
    Chacha), its payload walked frame by frame (Framewalk over Frames, Ack).
    Received packet numbers feed acknowledgements (RecvPn, AckGen); CRYPTO and
    STREAM frames feed reassembly (Reassembly), which TLS and the streams
    (Streams) read; acknowledgements empty the sent records (SentTable,
    Recover), give RTT samples (Rtt) and move the congestion window
    (Congestion). Around a connection stand its table entry (ConnTable),
    lifecycle (Lifecycle), network paths (Paths), the peer's ids (PeerCid),
    address tokens and resets (Tokens) and its path MTU (Pmtu). The server's
    cold start (Srvboot) composes most of this for the first datagrams of a
    connection, and Hello proves the composition end to end. QPACK's encoder
    and decoder (QpackHuff, QpackStr, QpackTable, QpackDyn, QpackEnc, QpackRx)
    are joined in QpackSync.

    ** Conventions

    - An integer of the C types u8 ... u64 is a [Z]; every result that can wrap
      goes through [u8], [u16], [u32] or [u64]. A span is the list of its bytes;
      an out buffer [obuf] is the whole array and the length written. [usz] is
      64 bits.
    - A function whose every access is in bounds returns its result; one that
      could leave an array returns an [option], where [None] is an access out
      of bounds, and every theorem with a [Some] on the right shows that there
      is none. A parser that can also refuse returns [res]: [Ok], [Fail] (the
      C function's 0 or -1) or [Oob].
    - Loops whose exit depends on data are Fixpoints on fuel; the fuel is a
      bound of the code (an array's capacity, the bytes left), running out is
      [None] or [Oob], and the theorems show it is not reached: each step of a
      walk consumes a byte, each probe of the hash index a bucket, each step of
      the Poly1305 and GHASH loops a block.
    - State changed in place is passed and returned. A packet opened in place is
      returned next to the view the function gives back. Where two names reach
      one object (CRYPTO buffer and its marks, the QPACK ring and its mirror,
      the packet under an opening) the model keeps one list and offsets.
    - What a C array on the stack holds before it is written is an argument of
      the model, so a theorem covers every previous content; where the code
      reads only what it has just written, the note at the definition says so.
    - [span_max] (2^62) bounds lengths of objects in memory. Packets handed to
      packet protection are at most 1500 bytes, which is also what the code's
      receive arrays hold and what the Poly1305 scratch needs.
    - The comment before a definition names the C function it translates.

    The x86 instructions AESENC, AESENCLAST and PCLMULQDQ are not code under
    src/: they are the parameter [cpu] of Ghash and Gcm, with the documented
    behaviour as the hypothesis [cpu_ok]; [model_cpu] satisfies it and is what
    the witnesses run on. [cached] is the processor feature word the code reads
    once: the theorems hold for each value. The kernel, the wire and the peer
    are represented by arbitrary inputs.

    ** Files

    - Bytes: common/bytes (spans, cursors, big-endian stores, compares) and the
      combinators [wspec], [reads] and [rsafe] by which codecs are specified.
      Varint: common/bytes/varint.
    - Frames, Ack: transport/packet/frame/frame, a Module per codec file.
      Framewalk: framewalk.c, dispatch.c, permit.c, the DATAGRAM codec and
      pktbuild. Theorems: layouts and round trips, safety of every decoder on
      any bytes, and that a payload built from frames is walked as those frames.
    - PktNum, Header, HeaderSafe, Packets: transport/packet/header (pnum.c,
      pnlen.c, header.c, lhdr_build.c, lhdr_parse.c, coalesce.c, short.c,
      vneg.c, retry.c) and version/v2types.c. Theorems: round trips, the split
      of a datagram, the refusal of version 2 Retry packets.
    - RecvPn, AckGen: conn/pnspace, recovery/detect/ackgen, the ACK path of the
      server loop. The window refines the history of received numbers; the ACK
      frame the peer decodes acknowledges only what was received.
    - Rtt, SentTable, Recover, Congestion: recovery/detect, recovery/rtx,
      srvrun_recover.c, recovery/congestion. Bounds of the estimator, exactness
      of acknowledgement and loss passes, the window's range under NewReno,
      CUBIC and BBR, BBR's phases.
    - Reassembly: stream/flow, pnspace/crypto_stream, conn/loop/crecv, against
      the abstract set of received segments.
    - ConnTable, Streams, Pmtu, Lifecycle, Paths, PeerCid, Tokens:
      conn/lifecycle, stream/data, conn/cid. The table refines a list of slots;
      the path MTU search ends; the phase machine follows its table; no path
      is sent more than three times what it sent before it is validated; the
      peer's ids are held or owed a retirement, and once each and not both in
      the 64 numbers around Retire Prior To the code remembers (two examples
      show what happens outside); tokens verify exactly when they were made.
    - Fips180: FIPS 180-4 from its constants on, without any definition of the
      code. Sha2: crypto/symmetric/hash and kdf/hkdf against Fips180, RFC 2104
      and RFC 5869. Gf2, Aes, Ghash, Gcm: aead/aes, gcm, gcmx86 against FIPS 197
      and SP 800-38D, the portable and the AES-NI path. Rfc8439: the ChaCha20
      block and stream of RFC 8439, again without the code's. Chacha:
      aead/chacha against it and against the polynomial of Poly1305.
    - Protect: transport/packet/protect (nonces, masks, AEAD per suite, the two
      pipelines). Suites: the interface [Suite] packet protection needs of a
      cipher suite, with an instance for each of the three. Unprotect: build/vpn
      and hspkt/unprotect.c: on any bytes, a payload is delivered exactly when
      the bytes are its RFC 9001 5 protection. PktProt: txpacket.c, rxpacket.c,
      build/hspkt: what is built is opened.
    - InitPkt: v2keys.c, tls/initial.c, build/initpkt: the Initial keys of both
      versions, and the client's Initial packet from builder to opening.
    - KeySched: the key schedule of tls/handshake/core/tls and
      tls/keys/schedule_drive (secrets, keys of each level, exporter, Finished
      and binder MACs, transcript), against RFC 8446 7.1: driven in any order it
      hands out the secrets and keys of the stage reached.
    - Srvboot: http3/server/srvboot, rxloop.c, srvrun_wt.c: feeding any datagram
      to a connection that is not up is safe. Hello: the specification
      [spec_feed] of such a connection, and that the code implements it for
      whatever the client's builder made of a ClientHello, in any order.
    - QpackHuff, QpackStr, QpackTable, QpackDyn, QpackEnc, QpackRx, QpackSync:
      app/qpack. Codecs and their safety, the dynamic table against its entries,
      each stream's instructions, and the theorem that both ends stay in step.

    ** Specifications

    Refinement theorems relate a component to a small abstract state: a history
    of packet numbers, a set of segments, a list of slots, a list of table
    entries, the boot specification of Hello. Equivalences relate an optimised
    routine to its standard, which is defined without the code's own functions:
    from the mathematics (field arithmetic, polynomials, primes), the block
    functions of the standards and the thresholds of RFC 9002 6.1. Safety theorems quantify over all bytes.

    ** Not modelled

    The TLS 1.3 handshake beyond the delivery of the ClientHello (messages,
    extensions, certificates, tickets, key updates), public-key cryptography and X.509, HTTP/3 frames
    and requests, MoQT, WebTransport, the run loops and sockets: they are built
    on the parts above and are larger than them. Pure input and output (system
    calls, io_uring, AF_XDP) has no definition to translate. Of the cold start,
    accepting the ClientHello, sealing the flight and the Version Negotiation
    answer belong to the TLS driver. Timing (constant-time compares) and the
    wiping of stack copies of secrets are outside a functional model; the wipe
    and the discard of the key schedule are in it. *)

From stdpp Require Import base numbers list option.
From Stdlib Require Import ZArith Lia.

#[global] Open Scope Z_scope.

Declare Scope wired_scope.
#[global] Open Scope wired_scope.

(** ** Machine integers

    The C code uses the LP64 unsigned types of src/src/common/arch/types.h.
    A value of a w-bit type is a [Z]; the wrap-around of an arithmetic result
    is written out with the conversions below. *)

(* src/src/common/arch/types.h : u8 *)
Definition u8 (x : Z) : Z := x mod 256.
(* src/src/common/arch/types.h : u16 *)
Definition u16 (x : Z) : Z := x mod 65536.
(* src/src/common/arch/types.h : u32 *)
Definition u32 (x : Z) : Z := x mod 4294967296.
(* src/src/common/arch/types.h : u64 *)
Definition u64 (x : Z) : Z := x mod 18446744073709551616.

Definition is_u8 (x : Z) : Prop := 0 <= x < 256.
Definition is_u32 (x : Z) : Prop := 0 <= x < 4294967296.
Definition is_u64 (x : Z) : Prop := 0 <= x < 18446744073709551616.

Create HintDb wired.
#[global] Create Rewrite HintDb width.
#[global] Create Rewrite HintDb zlen.

Lemma u8_small x : 0 <= x < 256 -> u8 x = x.
Proof. intros; unfold u8; by rewrite Z.mod_small. Qed.
Lemma u32_small x : 0 <= x < 4294967296 -> u32 x = x.
Proof. intros; unfold u32; by rewrite Z.mod_small. Qed.
Lemma u64_small x : 0 <= x < 18446744073709551616 -> u64 x = x.
Proof. intros; unfold u64; by rewrite Z.mod_small. Qed.
Lemma u8_range x : 0 <= u8 x < 256.
Proof. unfold u8; by apply Z.mod_pos_bound. Qed.
Lemma u32_range x : 0 <= u32 x < 4294967296.
Proof. unfold u32; by apply Z.mod_pos_bound. Qed.
Lemma u64_range x : 0 <= u64 x < 18446744073709551616.
Proof. unfold u64; by apply Z.mod_pos_bound. Qed.

(** 64-bit arithmetic is exact modulo 2^64: an inner wrap can be dropped. *)
Lemma u64_add_l a b : u64 (u64 a + b) = u64 (a + b).
Proof. unfold u64; by rewrite Z.add_mod_idemp_l. Qed.
Lemma u64_sub_l a b : u64 (u64 a - b) = u64 (a - b).
Proof. unfold u64; by rewrite Zminus_mod_idemp_l. Qed.
Lemma u64_idemp a : u64 (u64 a) = u64 a.
Proof. unfold u64; by rewrite Z.mod_mod. Qed.

#[export] Hint Rewrite u64_small u32_small u8_small using lia : width.
#[export] Hint Resolve u8_range u32_range u64_range : wired.

(** Remove the wraps that [lia] shows to be the identity. *)
Ltac nowrap := repeat first [rewrite u64_small by lia | rewrite u32_small by lia | rewrite u8_small by lia].
Tactic Notation "nowrap" "in" hyp(H) :=
  repeat first [rewrite u64_small in H by lia | rewrite u32_small in H by lia | rewrite u8_small in H by lia].

(** Case analysis on the boolean conditions of the code, keeping them in a
    form [lia] reads. *)
Ltac bcase :=
  match goal with
  | |- context [if ?b then _ else _] =>
      lazymatch b with context [if _ then _ else _] => fail | _ => destruct b eqn:? end
  end.
Ltac bcases := repeat (bcase; simpl; try lia).
Tactic Notation "bcase" "in" hyp(H) :=
  match type of H with
  | context [if ?b then _ else _] =>
      lazymatch b with context [if _ then _ else _] => fail | _ => destruct b eqn:? end
  end.

(** Close the branches whose conditions contradict each other. *)
Ltac bx :=
  change (Z.of_nat 0) with 0 in *; rewrite ?Nat2Z.inj_succ in *; unfold Z.succ in *;
  repeat (bcase; try done; try (exfalso; lia)).

(** Unfold the binds of the fault monad only. *)
Ltac osimpl := cbn [mbind option_bind].

(** ** Memory

    A C object is the list of its cells.  An access outside the list is an
    out-of-bounds access: [load] and [store] return [None] there, and [None]
    propagates to the result of the function that made it. *)

Definition zlen {A} (l : list A) : Z := Z.of_nat (length l).

Definition load {A} (l : list A) (i : Z) : option A :=
  if 0 <=? i then l !! Z.to_nat i else None.

Definition store {A} (l : list A) (i : Z) (v : A) : option (list A) :=
  if (0 <=? i) && (i <? zlen l) then Some (<[Z.to_nat i := v]> l) else None.

(** [dst[d + i] = src[s + i]] for [i = 0 .. n-1], in increasing order of [i]:
    the byte-copy loop of the code. *)
Fixpoint copy {A} (dst : list A) (d : Z) (src : list A) (s : Z) (n : nat) : option (list A) :=
  match n with
  | O => Some dst
  | S n' =>
      v ← load src s;
      dst' ← store dst d v;
      copy dst' (d + 1) src (s + 1) n'
  end.

(** [dst[d + i] = v] for [i = 0 .. n-1]. *)
Fixpoint fill {A} (dst : list A) (d : Z) (v : A) (n : nat) : option (list A) :=
  match n with
  | O => Some dst
  | S n' => dst' ← store dst d v; fill dst' (d + 1) v n'
  end.

(** [l] with [bs] laid over it from index [at_]. *)
Definition splice {A} (l : list A) (at_ : Z) (bs : list A) : list A :=
  take (Z.to_nat at_) l ++ bs ++ drop (Z.to_nat at_ + length bs) l.

Definition bytes_ok (l : list Z) : Prop := Forall is_u8 l.

Section lists.
Context {A : Type}.
Implicit Types l bs : list A.

Lemma zlen_nonneg l : 0 <= zlen l.
Proof. unfold zlen; lia. Qed.
Lemma zlen_nil : zlen (@nil A) = 0.
Proof. done. Qed.
Lemma zlen_cons (x : A) l : zlen (x :: l) = 1 + zlen l.
Proof. unfold zlen; simpl; lia. Qed.
Lemma zlen_app l l' : zlen (l ++ l') = zlen l + zlen l'.
Proof. unfold zlen; rewrite length_app; lia. Qed.
Lemma zlen_insert l i (v : A) : zlen (<[i:=v]> l) = zlen l.
Proof. unfold zlen; by rewrite length_insert. Qed.
Lemma zlen_take l n : 0 <= n <= zlen l -> zlen (take (Z.to_nat n) l) = n.
Proof. unfold zlen; rewrite length_take; lia. Qed.
Lemma zlen_drop l n : 0 <= n <= zlen l -> zlen (drop (Z.to_nat n) l) = zlen l - n.
Proof. unfold zlen; rewrite length_drop; lia. Qed.
Lemma zlen_splice l i bs :
  0 <= i -> i + zlen bs <= zlen l -> zlen (splice l i bs) = zlen l.
Proof. unfold splice, zlen; rewrite !length_app, length_take, length_drop; lia. Qed.

Lemma load_Some l i (v : A) : load l i = Some v -> 0 <= i < zlen l.
Proof.
  unfold load, zlen; intros H; bcase in H; [|done].
  apply lookup_lt_Some in H; lia.
Qed.
Lemma load_is_Some l i : 0 <= i < zlen l -> exists v : A, load l i = Some v.
Proof.
  unfold load, zlen; intros H; bcases.
  apply lookup_lt_is_Some; lia.
Qed.
Lemma load_app_l l l' i : i < zlen l -> load (l ++ l') i = load l i.
Proof. unfold load, zlen; intros; bcases; [by rewrite lookup_app_l by lia|done]. Qed.
Lemma load_app_r l l' i : zlen l <= i -> load (l ++ l') i = load l' (i - zlen l).
Proof.
  unfold load, zlen; intros; bcases; try done.
  rewrite lookup_app_r by lia; f_equal; lia.
Qed.
Lemma load_nil i : load (@nil A) i = None.
Proof. unfold load; by destruct (0 <=? i). Qed.
Lemma load_cons_0 (x : A) l : load (x :: l) 0 = Some x.
Proof. done. Qed.
Lemma load_cons_pos (x : A) l i : 0 < i -> load (x :: l) i = load l (i - 1).
Proof.
  intros; unfold load; bcases.
  replace (Z.to_nat i) with (S (Z.to_nat (i - 1))) by lia; done.
Qed.

Lemma load_drop l i (x : A) rest : drop i l = x :: rest -> load l (Z.of_nat i) = Some x.
Proof.
  intros Hd. unfold load. pose proof (Nat2Z.is_nonneg i).
  replace (0 <=? Z.of_nat i) with true by lia. rewrite Nat2Z.id.
  by rewrite <- (Nat.add_0_r i), <- lookup_drop, Hd.
Qed.

Lemma load_at l (x : A) m l' : load (l ++ (x :: m) ++ l') (zlen l) = Some x.
Proof. rewrite load_app_r, Z.sub_diag by lia. done. Qed.

Lemma store_in l i (v : A) :
  0 <= i < zlen l -> store l i v = Some (<[Z.to_nat i := v]> l).
Proof. intros; unfold store; bcases; done. Qed.
Lemma store_out l i (v : A) : ~ (0 <= i < zlen l) -> store l i v = None.
Proof. intros; unfold store; bcases; done. Qed.
Lemma store_length l i (v : A) l' : store l i v = Some l' -> zlen l' = zlen l.
Proof. unfold store; intros H; bcase in H; simplify_eq; apply zlen_insert. Qed.

Lemma load_insert l i j (v : A) :
  0 <= i < zlen l -> load (<[Z.to_nat i := v]> l) j = if j =? i then Some v else load l j.
Proof.
  intros Hi. unfold load, zlen in *. destruct (j =? i) eqn:E.
  - replace j with i by lia. replace (0 <=? i) with true by lia. apply list_lookup_insert_eq. lia.
  - destruct (0 <=? j) eqn:Ej; [|done]. apply list_lookup_insert_ne. lia.
Qed.
Lemma load_out l i : ~ (0 <= i < zlen l) -> @load A l i = None.
Proof. intros H. destruct (load l i) eqn:E; [apply load_Some in E; lia|done]. Qed.
Lemma load_skip l n j : 0 <= n -> 0 <= j -> load (drop (Z.to_nat n) l) j = @load A l (n + j).
Proof.
  intros. unfold load. replace (0 <=? j) with true by lia. replace (0 <=? n + j) with true by lia.
  rewrite lookup_drop. f_equal. lia.
Qed.
Lemma load_take l n j : j < n -> load (take (Z.to_nat n) l) j = @load A l j.
Proof.
  intros. unfold load. destruct (0 <=? j) eqn:E; [|done]. apply lookup_take_lt. lia.
Qed.
(** Two arrays with the same length and cells are the same. *)
Lemma load_ext l l' :
  zlen l = zlen l' -> (forall j, 0 <= j < zlen l -> load l j = load l' j) -> l = l'.
Proof.
  intros Hz H. apply list_eq. intros i. destruct (decide (i < length l)%nat) as [Hi|Hi].
  - specialize (H (Z.of_nat i)). unfold load, zlen in *.
    replace (0 <=? Z.of_nat i) with true in H by lia. rewrite Nat2Z.id in H. apply H. lia.
  - rewrite !lookup_ge_None_2; [done| |]; unfold zlen in Hz; lia.
Qed.

Lemma splice_nil l i : splice l i [] = l.
Proof. unfold splice; simpl; by rewrite Nat.add_0_r, take_drop. Qed.

Lemma splice_cons_store l i (x : A) bs :
  0 <= i -> i < zlen l ->
  splice (<[Z.to_nat i := x]> l) (i + 1) bs = splice l i (x :: bs).
Proof.
  intros Hi Hl; unfold splice; simpl.
  replace (Z.to_nat (i + 1)) with (S (Z.to_nat i)) by lia.
  erewrite take_S_r by (apply list_lookup_insert_eq; unfold zlen in Hl; lia).
  rewrite take_insert_ge by lia. rewrite <- app_assoc; simpl.
  rewrite drop_insert_lt by lia. do 3 f_equal. f_equal; lia.
Qed.

Lemma splice_snoc_store l i (x : A) bs :
  0 <= i -> i + zlen bs < zlen l ->
  splice (<[Z.to_nat (i + zlen bs) := x]> l) i bs = splice l i (bs ++ [x]).
Proof.
  unfold zlen, splice; intros Hi Hl.
  rewrite take_insert_ge by lia. f_equal. rewrite <- app_assoc. f_equal.
  rewrite length_app; simpl.
  replace (Z.to_nat (i + Z.of_nat (length bs))) with (Z.to_nat i + length bs)%nat by lia.
  assert (exists y, l !! (Z.to_nat i + length bs)%nat = Some y) as [y Hy]
    by (apply lookup_lt_is_Some; lia).
  erewrite drop_S by (apply list_lookup_insert_eq; lia).
  simpl. rewrite drop_insert_lt by lia. do 2 f_equal. lia.
Qed.

Lemma load_splice_0 l i (x : A) bs :
  0 <= i -> i < zlen l -> load (splice l i (x :: bs)) i = Some x.
Proof.
  unfold zlen, splice, load; intros; bcases.
  rewrite lookup_app_r by (rewrite length_take; lia).
  rewrite length_take_le by lia. by rewrite Nat.sub_diag.
Qed.

Lemma insert_splice_0 l i (x y : A) bs :
  0 <= i -> i < zlen l -> <[Z.to_nat i := y]> (splice l i (x :: bs)) = splice l i (y :: bs).
Proof.
  unfold zlen, splice; intros.
  rewrite insert_app_r_alt by (rewrite length_take; lia).
  rewrite length_take_le by lia. by rewrite Nat.sub_diag.
Qed.

Lemma splice_app l i b1 b2 :
  0 <= i -> i + zlen b1 <= zlen l ->
  splice (splice l i b1) (i + zlen b1) b2 = splice l i (b1 ++ b2).
Proof.
  unfold zlen, splice; intros Hi Hl.
  rewrite take_app_ge by (rewrite length_take; lia).
  rewrite length_take_le by lia.
  replace (Z.to_nat (i + Z.of_nat (length b1)) - Z.to_nat i)%nat with (length b1) by lia.
  rewrite take_app_length. rewrite <- !app_assoc. do 3 f_equal.
  rewrite drop_app_ge by (rewrite length_take; lia).
  rewrite length_take_le by lia.
  rewrite drop_app_ge by lia. rewrite drop_drop, length_app. f_equal; lia.
Qed.

Lemma splice_take l i bs :
  0 <= i -> i + zlen bs <= zlen l ->
  take (Z.to_nat (i + zlen bs)) (splice l i bs) = take (Z.to_nat i) l ++ bs.
Proof.
  unfold zlen, splice; intros.
  replace (Z.to_nat (i + Z.of_nat (length bs)))
    with (length (take (Z.to_nat i) l ++ bs)) by (rewrite length_app, length_take; lia).
  by rewrite app_assoc, take_app_length.
Qed.

(** A copy inside both objects succeeds and lays the source bytes over the
    destination. *)
Lemma copy_spec n : forall (dst : list A) d src s,
  0 <= d -> d + Z.of_nat n <= zlen dst ->
  0 <= s -> s + Z.of_nat n <= zlen src ->
  copy dst d src s n = Some (splice dst d (take n (drop (Z.to_nat s) src))).
Proof.
  induction n as [|n IH]; intros dst d src s Hd Hdn Hs Hsn; simpl.
  { by rewrite take_0, splice_nil. }
  destruct (load_is_Some src s) as [v Hv]; [lia|].
  rewrite Hv; simpl. rewrite store_in by lia; simpl.
  rewrite IH by (rewrite ?zlen_insert; lia).
  rewrite splice_cons_store by lia. do 2 f_equal.
  unfold load in Hv; bcase in Hv; [|done].
  rewrite (drop_S _ _ _ Hv); simpl. do 3 f_equal. lia.
Qed.

Lemma fill_spec n : forall (dst : list A) d v,
  0 <= d -> d + Z.of_nat n <= zlen dst ->
  fill dst d v n = Some (splice dst d (replicate n v)).
Proof.
  induction n as [|n IH]; intros dst d v Hd Hdn; simpl.
  { by rewrite splice_nil. }
  rewrite store_in by lia; simpl.
  rewrite IH by (rewrite ?zlen_insert; lia). by rewrite splice_cons_store by lia.
Qed.
End lists.

#[export] Hint Rewrite @zlen_app @zlen_cons @zlen_nil @zlen_insert : zlen.
Ltac zlen_simpl := autorewrite with zlen in *.
#[export] Hint Resolve zlen_nonneg : wired.

(** Linear arithmetic over list lengths. *)
Ltac zl :=
  autorewrite with zlen;
  repeat match goal with |- context [zlen (@nil ?T)] => change (zlen (@nil T)) with 0 end;
  lia.
