(* ===== verification/Bytes.v ===== *)
(** * Byte views and cursors (src/src/common/bytes/span, src/src/common/bytes/util)

    The views [wired_span] and [wired_obuf], the cursor helpers of bytes.h, the
    big-endian stores of be.h, the scalar helpers of num.h, the constant-time
    compares of ct.h and the bitmap of bits.h; and the two specification
    combinators the codec components are proved with: [wspec] relates a
    writer to the bytes it appends, [reads] and [rsafe] relate a cursor reader
    to the bytes it consumes. *)

From stdpp Require Import base numbers list option.
From Stdlib Require Import ZArith Lia.
From S2P Require Import Prelude.

(** ** span.h

    A [wired_span] over [n] bytes is the list of those [n] bytes.  A
    [wired_obuf] is its storage, whose length is the capacity, and the number
    of bytes written so far. *)

(* src/src/common/bytes/span/span.h : wired_obuf *)
Record obuf := mk_obuf { op : list Z; olen : Z }.

Definition ocap (o : obuf) : Z := zlen (op o).

(* src/src/common/bytes/span/span.h : obuf_of *)
Definition obuf_of (p : list Z) : obuf := mk_obuf p 0.

(** A row of a table of constants, written as one number: its [n] words of [w]
    bits, the first one the most significant. *)
Definition words_of (w : Z) (n : nat) (row : Z) : list Z :=
  map (fun i => (row / 2 ^ (w * (Z.of_nat n - 1 - Z.of_nat i))) mod 2 ^ w) (seq 0 n).

(** An access to a fixed-size array. *)
Definition at_ (l : list Z) (i : nat) : Z := nth i l 0.

(** The further words of a schedule, each from the words before it. *)
Fixpoint extend_words (step : list Z -> nat -> Z) (n : nat) (w : list Z) : list Z :=
  match n with O => w | S n' => extend_words step n' (w ++ [step w (length w)]) end.

(** The bound on the size of a C object the proofs use: no object has 2^62
    bytes, so a length field below 2^62 added to an offset cannot wrap. *)
Definition span_max : Z := 4611686018427387904.

Definition obuf_ok (o : obuf) : Prop := 0 <= olen o <= ocap o /\ ocap o < span_max.

Definition obuf_app (o : obuf) (bs : list Z) : obuf :=
  mk_obuf (splice (op o) (olen o) bs) (olen o + zlen bs).

Definition ofits (o : obuf) (bs : list Z) : Prop := olen o + zlen bs <= ocap o.

(** The bytes a buffer holds. *)
Definition owritten (o : obuf) : list Z := take (Z.to_nat (olen o)) (op o).

(** ** Writers

    A writer returns C's 1/0 and the buffer; [None] is an out-of-bounds
    access. *)

Definition W : Type := obuf -> option (bool * obuf).

(** [if (!f(o)) return 0; return g(o);] *)
Definition wseq (f g : W) : W := fun o =>
  match f o with
  | Some (true, o') => g o'
  | r => r
  end.
Notation "f ';&' g" := (wseq f g) (at level 63, right associativity) : wired_scope.

(** [ok = f(o); if (!g(o)) ok = 0;] : both run, in order. *)
Definition wboth (f g : W) : W := fun o =>
  match f o with
  | Some (b, o') =>
      match g o' with
      | Some (b', o'') => Some (b && b', o'')
      | None => None
      end
  | None => None
  end.

Definition wtrue : W := fun o => Some (true, o).
Definition wfalse : W := fun o => Some (false, o).

(** [wspec w (Some bs)]: [w] appends [bs] when it fits and otherwise returns
    0; [wspec w None]: [w] always returns 0.  In every case [w] stays inside
    the buffer and keeps its capacity. *)
Definition wspec (w : W) (ob : option (list Z)) : Prop :=
  forall o, obuf_ok o ->
  (exists bs, ob = Some bs /\ ofits o bs /\ w o = Some (true, obuf_app o bs)) \/
  ((forall bs, ob = Some bs -> ~ ofits o bs) /\
   exists o', w o = Some (false, o') /\ obuf_ok o' /\ ocap o' = ocap o).

Definition oapp (a b : option (list Z)) : option (list Z) :=
  match a, b with Some x, Some y => Some (x ++ y) | _, _ => None end.

(** A function [usz f(u8* buf, usz cap, ..)] that starts an obuf over [buf],
    returns 0 when [w] fails and otherwise what [k] computes. *)
Definition wthen (w : W) (k : obuf -> option (Z * list Z)) (buf : list Z)
    : option (Z * list Z) :=
  match w (obuf_of buf) with
  | Some (true, o) => k o
  | Some (false, o) => Some (0, op o)
  | None => None
  end.

(** .. and returns the length written. *)
Definition wrun (w : W) (buf : list Z) : option (Z * list Z) :=
  wthen w (fun o => Some (olen o, op o)) buf.

(** ** Readers

    A cursor reader: [Ok (a, off')] is C's 1 with the cursor advanced, [Fail]
    is C's 0, [Oob] an access outside the [n] bytes of the view.  The outputs
    C leaves half-written on failure are dropped. *)

Inductive res (A : Type) := Ok (a : A) | Fail | Oob.
Arguments Ok {A} a.
Arguments Fail {A}.
Arguments Oob {A}.

Definition R (A : Type) : Type := list Z -> Z -> res (A * Z).

Definition rret {A} (a : A) : R A := fun _ off => Ok (a, off).
Definition rfail {A} : R A := fun _ _ => Fail.
Definition rbind {A B} (m : R A) (k : A -> R B) : R B := fun inp off =>
  match m inp off with
  | Ok (a, off') => k a inp off'
  | Fail => Fail
  | Oob => Oob
  end.
Notation "x <- m ;; k" := (rbind m (fun x => k))
  (at level 64, m at next level, right associativity) : wired_scope.

(** [if (!b) return 0; ...] *)
Definition rguard (b : bool) : R unit := fun _ off => if b then Ok (tt, off) else Fail.

(** The byte [in.p[i]]. *)
Definition rbyte (i : Z) : R Z := fun inp off =>
  match load inp i with Some b => Ok (b, off) | None => Oob end.

(** The byte at the cursor, advancing it. *)
Definition rnext : R Z := fun inp off =>
  match load inp off with Some b => Ok (b, off + 1) | None => Oob end.

Definition rpos : R Z := fun _ off => Ok (off, off).

Definition span_ok (l : list Z) : Prop := bytes_ok l /\ zlen l < span_max.

(** [reads F r bs Q]: on a view that has [bs] at the cursor, after bytes that
    satisfy [F], [r] succeeds, advances past [bs] and returns a value in [Q]. *)
Definition reads {A} (F : list Z -> Prop) (r : R A) (bs : list Z) (Q : A -> Prop) : Prop :=
  forall pre post, F pre -> zlen (pre ++ bs ++ post) < span_max ->
  exists a, r (pre ++ bs ++ post) (zlen pre) = Ok (a, zlen pre + zlen bs) /\ Q a.

(** A fact about the bytes before the cursor that stays true as it advances. *)
Class prefix_stable (F : list Z -> Prop) : Prop :=
  prefix_stable_app : forall l l', F l -> F (l ++ l').

(** The first byte of the view is [t]. *)
Definition first_is (t : Z) (pre : list Z) : Prop := load pre 0 = Some t.
Definition anywhere (pre : list Z) : Prop := True.

(** [rsafe r P]: on any view and any cursor inside it, [r] stays inside the
    view, never moves the cursor back, and its results satisfy [P]. *)
Definition rsafe {A} (r : R A) (P : A -> Prop) : Prop :=
  forall inp off, span_ok inp -> 0 < zlen inp -> 0 <= off <= zlen inp ->
  match r inp off with
  | Ok (a, off') => off <= off' <= zlen inp /\ P a
  | Fail => True
  | Oob => False
  end.


(** ** bytes.h *)

(* src/src/common/bytes/util/bytes.h : bytes_put *)
Definition bytes_put (src : list Z) (n : Z) : W := fun o =>
  if ocap o <? u64 (olen o + n) then Some (false, o)
  else
    p ← copy (op o) (olen o) src 0 (Z.to_nat n);
    Some (true, mk_obuf p (u64 (olen o + n))).

(* src/src/common/bytes/util/bytes.h : bytes_take *)
Definition bytes_take (dst : list Z) (n : Z) : R (list Z) := fun inp off =>
  if zlen inp <? u64 (off + n) then Fail
  else
    match copy dst 0 inp off (Z.to_nat n) with
    | Some dst' => Ok (dst', u64 (off + n))
    | None => Oob
    end.

(* src/src/common/bytes/util/bytes.h : bytes_memcpy *)
Definition bytes_memcpy (dst src : list Z) (n : Z) : option (list Z) :=
  copy dst 0 src 0 (Z.to_nat n).

(* src/src/common/bytes/util/bytes.h : bytes_memset *)
Definition bytes_memset (dst : list Z) (at_ c n : Z) : option (list Z) :=
  fill dst at_ (u8 c) (Z.to_nat n).

(* src/src/common/bytes/util/bytes.h : ascii_lower *)
Definition ascii_lower (c : Z) : Z :=
  if (65 <=? c) && (c <=? 90) then u8 (Z.lor c 32) else c.

(** [out->p[out->len++] = b] under the caller's [len < cap] check. *)
Definition put_byte (b : Z) : W := fun o =>
  if ocap o <=? olen o then Some (false, o)
  else p ← store (op o) (olen o) b; Some (true, mk_obuf p (olen o + 1)).

(** ** num.h *)

(* src/src/common/bytes/util/num.h : u64_min *)
Definition u64_min (a b : Z) : Z := if a <? b then a else b.
(* src/src/common/bytes/util/num.h : u64_max *)
Definition u64_max (a b : Z) : Z := if b <? a then a else b.
(* src/src/common/bytes/util/num.h : u64_absdiff *)
Definition u64_absdiff (a b : Z) : Z := if b <? a then u64 (a - b) else u64 (b - a).
(* src/src/common/bytes/util/num.h : u64_add_ok *)
Definition u64_add_ok (a b : Z) : option Z :=
  if u64 (u64 (-1) - a) <? b then None else Some (u64 (a + b)).

Lemma u64_min_spec a b : u64_min a b = Z.min a b.
Proof. unfold u64_min; bcases. Qed.
Lemma u64_max_spec a b : u64_max a b = Z.max a b.
Proof. unfold u64_max; bcases. Qed.
Lemma u64_absdiff_spec a b : is_u64 a -> is_u64 b -> u64_absdiff a b = Z.abs (a - b).
Proof. unfold is_u64, u64_absdiff; intros; bcase; nowrap; lia. Qed.

(** ** ct.h *)

(** [for (i = 0; i < n; i++) d |= a[i] ^ b[i]] *)
Fixpoint ct_loop (d : Z) (a b : list Z) (i : Z) (n : nat) : option Z :=
  match n with
  | O => Some d
  | S n' =>
      x ← load a i; y ← load b i;
      ct_loop (u8 (Z.lor d (Z.lxor x y))) a b (i + 1) n'
  end.

(* src/src/common/bytes/util/ct.h : ct_diffn *)
Definition ct_diffn (a b : list Z) (n : Z) : option Z := ct_loop 0 a b 0 (Z.to_nat n).
(* src/src/common/bytes/util/ct.h : ct_diff8 *)
Definition ct_diff8 (a b : list Z) : option Z := ct_loop 0 a b 0 8.
(* src/src/common/bytes/util/ct.h : ct_diff16 *)
Definition ct_diff16 (a b : list Z) : option Z := ct_loop 0 a b 0 16.
(* src/src/common/bytes/util/ct.h : ct_diff32 *)
Definition ct_diff32 (a b : list Z) : option Z := ct_loop 0 a b 0 32.

(** [ct_diff(a, b) == 0], on arrays that hold the bytes compared. *)
Definition ct_same (d : option Z) : bool := match d with Some d => d =? 0 | None => false end.

(** ** Laws of writers *)

Lemma obuf_app_ok o bs : obuf_ok o -> ofits o bs -> obuf_ok (obuf_app o bs).
Proof.
  unfold obuf_ok, ofits, obuf_app, ocap; simpl; intros [? ?] ?.
  pose proof (zlen_nonneg bs). rewrite zlen_splice; lia.
Qed.
Lemma obuf_app_cap o bs : obuf_ok o -> ofits o bs -> ocap (obuf_app o bs) = ocap o.
Proof.
  unfold obuf_ok, ofits, obuf_app, ocap; simpl; intros [? ?] ?.
  by rewrite zlen_splice by lia.
Qed.
Lemma obuf_app_nil o : obuf_app o [] = o.
Proof. destruct o; unfold obuf_app; simpl. rewrite splice_nil, zlen_nil, Z.add_0_r. done. Qed.
Lemma obuf_app_app o a b :
  obuf_ok o -> ofits o a -> obuf_app (obuf_app o a) b = obuf_app o (a ++ b).
Proof.
  unfold obuf_ok, ofits, ocap, obuf_app; simpl; intros [? ?] ?.
  rewrite splice_app by lia. rewrite zlen_app. f_equal; lia.
Qed.
Lemma ofits_app o a b :
  obuf_ok o -> (ofits o (a ++ b) <-> ofits o a /\ ofits (obuf_app o a) b).
Proof.
  intros Hok; unfold ofits. pose proof (zlen_nonneg b).
  rewrite zlen_app. split.
  - intros. split; [lia|]. rewrite obuf_app_cap by (unfold ofits; auto; lia).
    simpl. lia.
  - intros [? Hb]. rewrite obuf_app_cap in Hb by (unfold ofits; auto). simpl in Hb. lia.
Qed.

Lemma wspec_true : wspec wtrue (Some []).
Proof.
  intros o Ho; left; exists []. rewrite obuf_app_nil.
  unfold ofits; rewrite zlen_nil; destruct Ho; split_and!; [done|lia|done].
Qed.

Lemma wspec_false : wspec wfalse None.
Proof. intros o Ho; right; split; [done|]. by exists o. Qed.

Lemma wspec_seq f g a b : wspec f a -> wspec g b -> wspec (f ;& g) (oapp a b).
Proof.
  intros Hf Hg o Ho. unfold wseq.
  destruct (Hf o Ho) as [(ba & -> & Hfit & ->)|(Hno & o' & -> & Hok & Hcap)].
  - pose proof (obuf_app_ok o ba Ho Hfit) as Ho1.
    destruct (Hg _ Ho1) as [(bb & -> & Hfit' & ->)|(Hno & o' & -> & Hok & Hcap)].
    + left. exists (ba ++ bb). rewrite obuf_app_app by done.
      split_and!; [done| |done]. by apply ofits_app.
    + right. split.
      * intros bs Hbs. destruct b as [bb|]; simplify_eq/=.
        rewrite ofits_app by done. intros [_ H]. by eapply Hno.
      * exists o'. rewrite Hcap, obuf_app_cap by done. done.
  - right. split; [|by exists o'].
    intros bs Hbs. destruct a as [ba|], b as [bb|]; simplify_eq/=.
    rewrite ofits_app by done. intros [H _]. by eapply Hno.
Qed.

(** Running both writers whatever the first returned has the same outcome. *)
Lemma wspec_both f g a b : wspec f a -> wspec g b -> wspec (wboth f g) (oapp a b).
Proof.
  intros Hf Hg o Ho. unfold wboth.
  destruct (Hf o Ho) as [(ba & -> & Hfit & ->)|(Hno & o' & -> & Hok & Hcap)].
  - pose proof (obuf_app_ok o ba Ho Hfit) as Ho1.
    destruct (Hg _ Ho1) as [(bb & -> & Hfit' & ->)|(Hno & o' & -> & Hok & Hcap)].
    + left. exists (ba ++ bb). rewrite obuf_app_app by done.
      split_and!; [done| |done]. by apply ofits_app.
    + right. split.
      * intros bs Hbs. destruct b as [bb|]; simplify_eq/=.
        rewrite ofits_app by done. intros [_ H]. by eapply Hno.
      * exists o'. rewrite Hcap, obuf_app_cap by done. done.
  - right. split.
    + intros bs Hbs. destruct a as [ba|], b as [bb|]; simplify_eq/=.
      rewrite ofits_app by done. intros [H _]. by eapply Hno.
    + destruct (Hg o' Hok) as [(bb & -> & Hfit' & ->)|(_ & o2 & -> & Hok2 & Hcap2)];
        simpl; eexists; split_and!; try done;
        [by apply obuf_app_ok|by rewrite obuf_app_cap|by rewrite Hcap2].
Qed.

Lemma wspec_eq w a b : wspec w a -> a = b -> wspec w b.
Proof. by intros ? <-. Qed.

Lemma wspec_ext w w' a : (forall o, w o = w' o) -> wspec w a -> wspec w' a.
Proof. intros E H o Ho. rewrite <- E. by apply H. Qed.

Lemma wspec_if (c : bool) f g a b :
  (c = true -> wspec f a) -> (c = false -> wspec g b) ->
  wspec (if c then f else g) (if c then a else b).
Proof. destruct c; auto. Qed.

Lemma oapp_nil_l a : oapp (Some []) a = a.
Proof. by destruct a. Qed.
Lemma oapp_nil_r a : oapp a (Some []) = a.
Proof. destruct a; simpl; [by rewrite app_nil_r|done]. Qed.
Lemma oapp_assoc a b c : oapp a (oapp b c) = oapp (oapp a b) c.
Proof. destruct a, b, c; simpl; try done. by rewrite app_assoc. Qed.

(** What a caller of a [wspec] encoder over a fresh buffer gets: the whole
    frame at the front of the buffer and its length, or 0, and never an access
    outside the buffer. *)
Lemma wrun_spec w ob buf :
  wspec w ob -> zlen buf < span_max ->
  (exists bs, ob = Some bs /\ zlen bs <= zlen buf /\
     wrun w buf = Some (zlen bs, splice buf 0 bs)) \/
  ((forall bs, ob = Some bs -> zlen buf < zlen bs) /\
     exists buf', wrun w buf = Some (0, buf') /\ zlen buf' = zlen buf).
Proof.
  intros Hw Hb. pose proof (zlen_nonneg buf).
  destruct (Hw (obuf_of buf)) as [(bs & -> & Hfit & E)|(Hno & o' & E & Hok & Hcap)].
  { unfold obuf_ok, ocap; simpl; lia. }
  - left; exists bs. unfold wrun, wthen; rewrite E; simpl. unfold ofits, ocap in Hfit; simpl in Hfit.
    by split_and!.
  - right. unfold wrun, wthen; rewrite E. split; [|eauto].
    intros bs Hbs. specialize (Hno bs Hbs). unfold ofits, ocap in Hno; simpl in Hno. lia.
Qed.

(** Bytes at the front of a buffer a frame of known wire bytes was put in. *)
Lemma splice_0_take (buf bs : list Z) :
  zlen bs <= zlen buf -> take (Z.to_nat (zlen bs)) (splice buf 0 bs) = bs.
Proof.
  intros. pose proof (splice_take buf 0 bs) as H0. rewrite Z.add_0_l in H0.
  by rewrite H0 by lia.
Qed.

Lemma bytes_put_wspec src n :
  0 <= n <= zlen src -> n < span_max ->
  wspec (bytes_put src n) (Some (take (Z.to_nat n) src)).
Proof.
  intros Hn Hm o Ho. unfold bytes_put, span_max in *.
  destruct Ho as [? ?]; unfold ocap, span_max in *.
  assert (zlen (take (Z.to_nat n) src) = n) as Hl by (apply zlen_take; lia).
  nowrap. destruct (zlen (op o) <? olen o + n) eqn:E.
  - right. split; [|exists o; unfold obuf_ok, ocap, span_max; auto].
    intros bs [= <-]. unfold ofits, ocap. lia.
  - left. eexists; split; [done|]. unfold ofits, ocap. split; [lia|].
    rewrite copy_spec by (unfold zlen in *; lia). simpl. unfold obuf_app.
    by rewrite drop_0, Hl.
Qed.

Lemma put_byte_wspec b : wspec (put_byte b) (Some [b]).
Proof.
  intros o Ho. unfold put_byte. destruct Ho as [? ?]; unfold ocap in *.
  destruct (zlen (op o) <=? olen o) eqn:E.
  - right. split; [|by exists o].
    intros bs [= <-]. unfold ofits, ocap. rewrite zlen_cons, zlen_nil. lia.
  - left. eexists; split; [done|]. unfold ofits, ocap.
    rewrite zlen_cons, zlen_nil. split; [lia|].
    rewrite store_in by lia. simpl. unfold obuf_app.
    rewrite <- splice_cons_store, splice_nil by lia. done.
Qed.

Create HintDb codec.
#[export] Hint Extern 5 (is_u64 _) => (split; vm_compute; congruence) : codec.
#[export] Hint Resolve wspec_true wspec_false wspec_seq wspec_both put_byte_wspec : codec.

(** ** Laws of readers *)

#[export] Instance anywhere_stable : prefix_stable anywhere.
Proof. done. Qed.
#[export] Instance first_is_stable t : prefix_stable (first_is t).
Proof.
  unfold first_is; intros l l' H. rewrite load_app_l; [done|].
  apply load_Some in H; lia.
Qed.

Section reads.
Context {A B : Type} (F : list Z -> Prop) `{!prefix_stable F}.

Lemma reads_ret (a : A) (Q : A -> Prop) : Q a -> reads F (rret a) [] Q.
Proof. intros HQ pre post _ _. exists a. unfold rret. by rewrite zlen_nil, Z.add_0_r. Qed.

Lemma reads_bind (m : R A) (k : A -> R B) b1 b2 Q1 Q2 :
  reads F m b1 Q1 -> (forall a, Q1 a -> reads F (k a) b2 Q2) ->
  reads F (rbind m k) (b1 ++ b2) Q2.
Proof using All.
  intros Hm Hk pre post HF Hl. unfold rbind.
  rewrite <- (app_assoc b1 b2 post) in *.
  destruct (Hm pre (b2 ++ post) HF Hl) as (a & -> & Ha).
  destruct (Hk a Ha (pre ++ b1) post) as (c & E & HQ).
  { by apply prefix_stable_app. }
  { by rewrite <- app_assoc. }
  exists c. rewrite <- app_assoc, (zlen_app pre b1) in E.
  by rewrite E, zlen_app, Z.add_assoc.
Qed.

(** A last step, or a step that consumes nothing. *)
Lemma reads_bind_end (m : R A) (k : A -> R B) bs Q1 Q2 :
  reads F m bs Q1 -> (forall a, Q1 a -> reads F (k a) [] Q2) -> reads F (rbind m k) bs Q2.
Proof using All. intros Hm Hk. rewrite <- (app_nil_r bs). by eapply reads_bind. Qed.
Lemma reads_bind_nil (m : R A) (k : A -> R B) bs Q1 Q2 :
  reads F m [] Q1 -> (forall a, Q1 a -> reads F (k a) bs Q2) -> reads F (rbind m k) bs Q2.
Proof using All. intros Hm Hk. apply (reads_bind m k [] bs Q1 Q2 Hm Hk). Qed.

Lemma reads_guard b (Q : unit -> Prop) : b = true -> Q tt -> reads F (rguard b) [] Q.
Proof. intros -> HQ pre post _ _. exists tt. unfold rguard. by rewrite zlen_nil, Z.add_0_r. Qed.

Lemma reads_next b : reads F rnext [b] (eq b).
Proof.
  intros pre post _ _. exists b. unfold rnext. rewrite load_at.
  by rewrite zlen_cons, zlen_nil.
Qed.

Lemma reads_bytes_take dst bs n :
  n = zlen bs -> n <= zlen dst -> reads F (bytes_take dst n) bs (eq (splice dst 0 bs)).
Proof.
  intros -> Hd pre post _ Hl. eexists; split; [|reflexivity].
  unfold bytes_take. zlen_simpl. unfold span_max in *.
  pose proof (zlen_nonneg pre); pose proof (zlen_nonneg bs); pose proof (zlen_nonneg post).
  nowrap. bcases.
  rewrite copy_spec by (zlen_simpl; unfold zlen in *; lia).
  rewrite drop_app_length' by (unfold zlen; lia).
  by rewrite take_app_length' by (unfold zlen; lia).
Qed.

Lemma reads_eq (r : R A) b1 b2 Q : reads F r b1 Q -> b1 = b2 -> reads F r b2 Q.
Proof. by intros ? <-. Qed.
Lemma reads_weaken (r : R A) bs (Q Q' : A -> Prop) :
  reads F r bs Q -> (forall a, Q a -> Q' a) -> reads F r bs Q'.
Proof.
  intros Hr HQ pre post HF Hl. destruct (Hr pre post HF Hl) as (a & E & Ha). eauto.
Qed.
End reads.

Lemma reads_first t : reads (first_is t) (rbyte 0) [] (eq t).
Proof.
  intros pre post HF _. exists t. unfold rbyte, first_is in *.
  rewrite load_app_l by (apply load_Some in HF; lia). rewrite HF.
  by rewrite zlen_nil, Z.add_0_r.
Qed.

(** A view of [len] bytes at the cursor: the pointer [in.p + off] is kept and
    the cursor moves past the bytes, or C's 0 when they run past [in.n]. *)
Definition view_at (len : Z) : R (list Z) := fun inp off =>
  if zlen inp <? u64 (off + len) then Fail
  else Ok (drop (Z.to_nat off) inp, u64 (off + len)).

Lemma reads_view F bs len :
  len = zlen bs -> reads F (view_at len) bs (fun d => take (Z.to_nat len) d = bs).
Proof.
  intros -> pre post _ Hl. unfold view_at. zlen_simpl. unfold span_max in *.
  pose proof (zlen_nonneg pre); pose proof (zlen_nonneg bs); pose proof (zlen_nonneg post).
  nowrap. bcases. eexists; split; [reflexivity|].
  rewrite drop_app_length' by (unfold zlen; lia).
  by rewrite take_app_length' by (unfold zlen; lia).
Qed.

Lemma rsafe_ret {A} (a : A) (P : A -> Prop) : P a -> rsafe (rret a) P.
Proof. intros Ha inp off _ _ ?. unfold rret. auto with lia. Qed.
Lemma rsafe_fail {A} (P : A -> Prop) : rsafe rfail P.
Proof. intros inp off _ _ ?. done. Qed.

Lemma rsafe_bind {A B} (m : R A) (k : A -> R B) P Q :
  rsafe m P -> (forall a, P a -> rsafe (k a) Q) -> rsafe (rbind m k) Q.
Proof.
  intros Hm Hk inp off Hi Hz Ho. unfold rbind. specialize (Hm inp off Hi Hz Ho).
  destruct (m inp off) as [[a off']| |]; [|done|done].
  destruct Hm as [Hoff HP]. specialize (Hk a HP inp off' Hi Hz ltac:(lia)).
  destruct (k a inp off') as [[b o2]| |]; intuition lia.
Qed.

Lemma rsafe_guard b : rsafe (rguard b) (fun _ => b = true).
Proof. intros inp off _ _ ?. unfold rguard. destruct b; auto with lia. Qed.

Lemma rsafe_weaken {A} (m : R A) (P Q : A -> Prop) :
  rsafe m P -> (forall a, P a -> Q a) -> rsafe m Q.
Proof.
  intros Hm HPQ inp off Hi Hz Ho. specialize (Hm inp off Hi Hz Ho).
  destruct (m inp off) as [[a o]| |]; intuition.
Qed.

Lemma rsafe_if {A} (c : bool) (m1 m2 : R A) P :
  (c = true -> rsafe m1 P) -> (c = false -> rsafe m2 P) -> rsafe (if c then m1 else m2) P.
Proof. destruct c; auto. Qed.

Lemma bytes_ok_lookup l i b : bytes_ok l -> load l i = Some b -> is_u8 b.
Proof.
  unfold load; intros Hl H; bcase in H; [|done].
  eapply Forall_lookup_1; eauto.
Qed.

(** ** Constant-time comparison *)

Lemma land_255 v : Z.land v 255 = v mod 256.
Proof. change 255 with (Z.ones 8). by rewrite Z.land_ones. Qed.
Lemma shiftr_8 v : Z.shiftr v 8 = v / 256.
Proof. by rewrite Z.shiftr_div_pow2. Qed.

Lemma lor_lxor_zero d x y : is_u8 d -> is_u8 x -> is_u8 y -> u8 (Z.lor d (Z.lxor x y)) = 0 <-> d = 0 /\ x = y.
Proof.
  intros Hd Hx Hy. unfold u8. rewrite <- land_255. unfold is_u8 in *.
  assert (forall v, 0 <= v < 256 -> Z.land v 255 = v) as Hl by (intros; rewrite land_255, Z.mod_small; lia).
  rewrite Z.land_lor_distr_l, Hl by lia.
  assert (Z.land (Z.lxor x y) 255 = Z.lxor x y) as ->.
  { apply Z.bits_inj'. intros n Hn. rewrite Z.land_spec, !Z.lxor_spec.
    destruct (decide (n < 8)).
    - change 255 with (Z.ones 8). rewrite Z.ones_spec_low by lia. by rewrite andb_true_r.
    - assert (forall v, 0 <= v < 256 -> Z.testbit v n = false) as Hh.
      { intros v Hv. destruct (decide (v = 0)) as [->|]; [apply Z.bits_0|]. apply Z.bits_above_log2; [lia|].
        apply Z.log2_lt_pow2; [lia|]. apply (Z.lt_le_trans _ (2 ^ 8)); [lia|]. apply Z.pow_le_mono_r; lia. }
      by rewrite !Hh by lia. }
  rewrite Z.lor_eq_0_iff, Z.lxor_eq_0_iff. done.
Qed.

Lemma ct_loop_spec a b n : forall d i,
  bytes_ok a -> bytes_ok b -> is_u8 d -> 0 <= i -> i + Z.of_nat n <= zlen a -> i + Z.of_nat n <= zlen b ->
  exists r, ct_loop d a b i n = Some r /\
    (r = 0 <-> d = 0 /\ forall j, i <= j < i + Z.of_nat n -> load a j = load b j).
Proof.
  induction n as [|n IH]; intros d i Ha Hb Hd Hi Hza Hzb; cbn [ct_loop].
  { exists d. split; [done|]. split; [intros ->; split; [done|intros; lia]|tauto]. }
  destruct (load_is_Some a i) as [x Hx]; [lia|]. destruct (load_is_Some b i) as [y Hy]; [lia|].
  rewrite Hx, Hy. osimpl. pose proof (bytes_ok_lookup _ _ _ Ha Hx). pose proof (bytes_ok_lookup _ _ _ Hb Hy).
  destruct (IH (u8 (Z.lor d (Z.lxor x y))) (i + 1)) as (r & -> & Hr); try done; try lia; try apply u8_range.
  exists r. split; [done|]. rewrite Hr, lor_lxor_zero by done. split.
  - intros ((-> & ->) & H1). split; [done|]. intros j Hj. destruct (decide (j = i)) as [->|]; [congruence|apply H1; lia].
  - intros (-> & H1). split; [split; [done|]|intros; apply H1; lia]. specialize (H1 i). rewrite Hx, Hy in H1.
    injection H1; [done|lia].
Qed.

Lemma ct_loop_eq a b n : bytes_ok a -> bytes_ok b -> length a = n -> length b = n ->
  ct_same (ct_loop 0 a b 0 n) = bool_decide (a = b).
Proof.
  intros Ha Hb Hla Hlb.
  destruct (ct_loop_spec a b n 0 0) as (r & -> & Hr); try done; unfold zlen; try lia.
  cbn [ct_same]. apply eq_bool_prop_intro. rewrite bool_decide_spec, Is_true_true, Z.eqb_eq, Hr. split.
  - intros [_ H]. apply load_ext; [unfold zlen; lia|]. intros j Hj. apply H. unfold zlen in Hj. lia.
  - intros ->. done.
Qed.

Lemma ct16_spec a b : bytes_ok a -> bytes_ok b -> length a = 16%nat -> length b = 16%nat ->
  exists d, ct_diff16 a b = Some d /\ (d =? 0) = bool_decide (a = b).
Proof.
  intros Ha Hb Hla Hlb. unfold ct_diff16. pose proof (ct_loop_eq a b 16 Ha Hb Hla Hlb) as H. destruct (ct_loop 0 a b 0 16) as [d|] eqn:E.
  - exists d. split; [done | exact H].
  - exfalso. destruct (ct_loop_spec a b 16 0 0) as (r & E' & _); try done; try (unfold zlen; lia). congruence.
Qed.

Lemma bytes_ok_app l l' : bytes_ok (l ++ l') <-> bytes_ok l /\ bytes_ok l'.
Proof. apply Forall_app. Qed.
Lemma bytes_ok_cons b l : bytes_ok (b :: l) <-> is_u8 b /\ bytes_ok l.
Proof. split; [by inversion 1|intros [? ?]; by constructor]. Qed.
Lemma bytes_ok_take l n : bytes_ok l -> bytes_ok (take n l).
Proof. apply Forall_take. Qed.
Lemma bytes_ok_drop l n : bytes_ok l -> bytes_ok (drop n l).
Proof. apply Forall_drop. Qed.
Lemma bytes_ok_splice l i bs : bytes_ok l -> bytes_ok bs -> bytes_ok (splice l i bs).
Proof.
  intros. unfold splice. rewrite !bytes_ok_app.
  auto using bytes_ok_take, bytes_ok_drop.
Qed.

Lemma rsafe_bytes_take dst n :
  0 <= n <= zlen dst -> n < span_max -> bytes_ok dst ->
  rsafe (bytes_take dst n) (fun d => zlen d = zlen dst /\ bytes_ok d).
Proof.
  intros Hn Hm Hd inp off [Hi Hl] Hz Ho. unfold bytes_take, span_max in *. nowrap.
  bcases.
  rewrite copy_spec by (unfold zlen in *; lia).
  split; [lia|].
  assert (zlen (take (Z.to_nat n) (drop (Z.to_nat off) inp)) = n) as Hz1.
  { apply zlen_take. rewrite zlen_drop; lia. }
  split; [apply zlen_splice; lia|].
  apply bytes_ok_splice; auto using bytes_ok_take, bytes_ok_drop.
Qed.

Lemma rsafe_first : rsafe (rbyte 0) is_u8.
Proof.
  intros inp off [Hi Hl] Hz Ho. unfold rbyte.
  destruct (load_is_Some inp 0) as [b Hb]; [lia|]. rewrite Hb.
  split; [lia|]. by eapply bytes_ok_lookup.
Qed.

Lemma rsafe_view len :
  0 <= len < span_max -> rsafe (view_at len) (fun d => len <= zlen d).
Proof.
  intros Hlen inp off [Hi Hl] Hz Ho. unfold view_at, span_max in *. nowrap.
  bcases. split; [lia|]. rewrite zlen_drop; lia.
Qed.

Lemma rsafe_pos : rsafe rpos (fun _ => True).
Proof. intros inp off _ _ ?. unfold rpos. auto with lia. Qed.

#[export] Hint Resolve reads_next reads_first : codec.
#[export] Hint Resolve rsafe_ret rsafe_fail rsafe_guard : codec.

(** ** Encoder and decoder together

    If the encoder's output starts with the type byte [t] and the decoder
    reads what follows, decoding the encoded frame, with anything after it,
    gives the frame back and consumes exactly its bytes. *)
Lemma codec_roundtrip {A} w (r : R A) ob t (Q : A -> Prop) buf n buf' post :
  wspec w ob ->
  (forall l, ob = Some l -> exists bs, l = t :: bs /\ reads (first_is t) r bs Q) ->
  zlen buf < span_max -> wrun w buf = Some (n, buf') -> n <> 0 ->
  zlen (take (Z.to_nat n) buf' ++ post) < span_max ->
  exists a, r (take (Z.to_nat n) buf' ++ post) 1 = Ok (a, n) /\ Q a.
Proof.
  intros Hw Hr Hb E Hn Hl.
  destruct (wrun_spec w ob buf Hw Hb) as [(l & -> & Hfit & E')|(_ & b' & E' & _)];
    rewrite E' in E; simplify_eq.
  destruct (Hr l eq_refl) as (bs & -> & Hrd).
  rewrite splice_0_take in * by done.
  destruct (Hrd [t] post) as (a & Ea & HQ); [done|done|].
  exists a. split; [|done]. by rewrite zlen_cons.
Qed.

(** *** The contract of a frame codec

    [wire] is the frame's layout, [None] where the encoder must refuse.  When
    the layout fits the buffer the encoder writes it at the front and returns
    its length, otherwise it returns 0; it never leaves the buffer; and the
    decoder, given the layout with anything after it, returns the frame and
    exactly the length of the layout. *)
Definition codec_contract {A} (enc : list Z -> A -> option (Z * list Z))
    (dec : list Z -> res (A * Z)) (ok : A -> Prop) (wire : A -> option (list Z))
    (same : A -> A -> Prop) : Prop :=
  forall f buf, ok f -> zlen buf < span_max ->
  (exists l, wire f = Some l /\ 0 < zlen l <= zlen buf /\ enc buf f = Some (zlen l, splice buf 0 l) /\
     forall post, zlen (l ++ post) < span_max ->
     exists g, dec (l ++ post) = Ok (g, zlen l) /\ same f g) \/
  ((forall l, wire f = Some l -> zlen buf < zlen l) /\
     exists buf', enc buf f = Some (0, buf') /\ zlen buf' = zlen buf).

Lemma contract_intro {A} enc dec ok wire same (w : A -> W) (r : R A) :
  (forall f buf, ok f -> wire f <> None -> enc buf f = wrun (w f) buf) ->
  (forall f buf, ok f -> wire f = None ->
     (exists buf', enc buf f = Some (0, buf') /\ zlen buf' = zlen buf) \/ enc buf f = wrun (w f) buf) ->
  (forall buf, 0 < zlen buf -> dec buf = r buf 1) ->
  (forall f, ok f -> wspec (w f) (wire f)) ->
  (forall f l, ok f -> wire f = Some l ->
     exists t bs, l = t :: bs /\ reads (first_is t) r bs (same f)) ->
  codec_contract enc dec ok wire same.
Proof.
  intros He Hn Hd Hw Hr f buf Hok Hb.
  assert (wire f = None \/ wire f <> None) as [E|E] by (destruct (wire f); auto).
  - right. split; [by rewrite E|]. destruct (Hn f buf Hok E) as [?|Eq]; [eauto|].
    rewrite Eq. destruct (wrun_spec (w f) (wire f) buf (Hw f Hok) Hb) as [(l & El & _)|(_ & ?)];
      [congruence|done].
  - rewrite (He f buf Hok E).
    destruct (wrun_spec (w f) (wire f) buf (Hw f Hok) Hb) as [(l & El & Hl & ->)|?]; [left|by right].
    exists l. destruct (Hr f l Hok El) as (t & bs & -> & Hrd).
    split_and!; try done.
    intros post Hp. destruct (Hrd [t] post) as (g & Eg & HQ); [done|done|].
    exists g. rewrite Hd by (cbn [app]; rewrite zlen_cons; pose proof (zlen_nonneg (bs ++ post)); lia).
    split; [|done]. by rewrite zlen_cons.
Qed.

(** [enc] is a plain run of the writer on every frame. *)
Lemma contract_run {A} enc dec ok wire same (w : A -> W) (r : R A) :
  (forall f buf, enc buf f = wrun (w f) buf) ->
  (forall buf, 0 < zlen buf -> dec buf = r buf 1) ->
  (forall f, ok f -> wspec (w f) (wire f)) ->
  (forall f l, ok f -> wire f = Some l ->
     exists t bs, l = t :: bs /\ reads (first_is t) r bs (same f)) ->
  codec_contract enc dec ok wire same.
Proof. intros He Hd Hw Hr. apply (contract_intro _ _ _ _ _ w r); eauto. Qed.

(** *** The safety of a frame decoder

    On any non-empty input the decoder stays inside it, and a frame it returns
    consumed at least the type byte and at most the input. *)
Definition decoder_safe {A} (dec : list Z -> res (A * Z)) (P : A -> Prop) : Prop :=
  forall buf, span_ok buf -> 0 < zlen buf ->
  match dec buf with
  | Ok (f, n) => 1 <= n <= zlen buf /\ P f
  | Fail => True
  | Oob => False
  end.

Lemma decoder_safe_intro {A} dec (r : R A) P :
  (forall buf, 0 < zlen buf -> dec buf = r buf 1) -> rsafe r P -> decoder_safe dec P.
Proof.
  intros Hd Hr buf Hok Hz. rewrite Hd by done. apply (Hr buf 1 Hok Hz). lia.
Qed.

(** A writer whose specification is [None] returns 0. *)
Lemma wrun_refuses w buf n buf' :
  wspec w None -> zlen buf < span_max -> wrun w buf = Some (n, buf') -> n = 0.
Proof.
  intros Hw Hb E.
  destruct (wrun_spec w None buf Hw Hb) as [(l & ? & _)|(_ & b' & E' & _)]; [done|].
  by simplify_eq.
Qed.

(** ** Big-endian integers

    [be_bytes n v] is the [n]-byte big-endian form of [v]; [be_val] is the
    value of a byte string.  They are the reference the put/get loops of the
    codecs are proved against. *)

Fixpoint be_bytes (n : nat) (v : Z) : list Z :=
  match n with
  | O => []
  | S n' => be_bytes n' (v / 256) ++ [v mod 256]
  end.

Definition be_val (bs : list Z) : Z := fold_left (fun a b => a * 256 + b) bs 0.

Lemma length_be_bytes n v : length (be_bytes n v) = n.
Proof. revert v; induction n; intros v; simpl; [done|]. rewrite length_app, IHn; simpl; lia. Qed.
Lemma zlen_be_bytes n v : zlen (be_bytes n v) = Z.of_nat n.
Proof. unfold zlen; by rewrite length_be_bytes. Qed.
#[export] Hint Rewrite zlen_be_bytes : zlen.

Lemma be_bytes_ok n v : bytes_ok (be_bytes n v).
Proof.
  revert v; induction n; intros v; simpl; [constructor|].
  apply bytes_ok_app; split; [apply IHn|].
  constructor; [|constructor]. unfold is_u8. by apply Z.mod_pos_bound.
Qed.

Lemma be_val_snoc bs b : be_val (bs ++ [b]) = be_val bs * 256 + b.
Proof. unfold be_val; by rewrite fold_left_app. Qed.

Lemma be_val_bytes n v : 0 <= v -> be_val (be_bytes n v) = v mod 256 ^ Z.of_nat n.
Proof.
  revert v; induction n; intros v Hv.
  { simpl. by rewrite Z.mod_1_r. }
  cbn [be_bytes]. rewrite be_val_snoc, IHn by (apply Z.div_pos; lia).
  replace (256 ^ Z.of_nat (S n)) with (256 * 256 ^ Z.of_nat n)
    by (rewrite <- Z.pow_succ_r by lia; f_equal; lia).
  rewrite Z.rem_mul_r by lia. lia.
Qed.

Lemma be_val_bound bs : bytes_ok bs -> 0 <= be_val bs < 256 ^ zlen bs.
Proof.
  induction bs as [|b bs IH] using rev_ind; intros Hok; [done|].
  apply bytes_ok_app in Hok as [Hok Hb]. apply bytes_ok_cons in Hb as [Hb _].
  specialize (IH Hok). unfold is_u8 in Hb.
  rewrite be_val_snoc, zlen_app, Z.pow_add_r by apply zlen_nonneg.
  change (256 ^ zlen [b]) with 256. lia.
Qed.

Lemma be_bytes_add n v k : be_bytes n (v + k * 256 ^ Z.of_nat n) = be_bytes n v.
Proof.
  revert v; induction n; intros v; [done|]. cbn [be_bytes].
  replace (k * 256 ^ Z.of_nat (S n)) with (k * 256 ^ Z.of_nat n * 256)
    by (rewrite Nat2Z.inj_succ, Z.pow_succ_r by lia; lia).
  rewrite Z.div_add, Z.mod_add by lia. by rewrite IHn.
Qed.

Lemma be_bytes_cons n v :
  be_bytes (S n) v = (v / 256 ^ Z.of_nat n) mod 256 :: be_bytes n v.
Proof.
  revert v; induction n; intros v.
  { simpl. by rewrite Z.div_1_r. }
  change (be_bytes (S (S n)) v) with (be_bytes (S n) (v / 256) ++ [v mod 256]).
  rewrite IHn. simpl. f_equal.
  rewrite Zdiv.Zdiv_Zdiv by (try apply Z.pow_nonneg; lia).
  do 2 f_equal. rewrite <- Z.pow_succ_r by lia. f_equal. lia.
Qed.

Lemma load_splice (l bs : list Z) at_ i :
  0 <= at_ -> at_ + zlen bs <= zlen l -> load (splice l at_ bs) i = if (at_ <=? i) && (i <? at_ + zlen bs) then load bs (i - at_) else load l i.
Proof.
  intros Ha Hb. destruct (decide (0 <= i)) as [Hi|Hi].
  2: { rewrite !load_out by lia. by replace (_ && _) with false by lia. }
  unfold splice. assert (zlen (take (Z.to_nat at_) l) = at_) as Ht by (apply zlen_take; pose proof (zlen_nonneg bs); lia).
  destruct ((at_ <=? i) && (i <? at_ + zlen bs)) eqn:E.
  - rewrite load_app_r, load_app_l by lia. by rewrite Ht.
  - destruct (decide (i < at_)); [rewrite load_app_l by lia; apply load_take; lia|].
    rewrite load_app_r, load_app_r by lia. rewrite Ht. pose proof (zlen_nonneg bs).
    replace (Z.to_nat at_ + length bs)%nat with (Z.to_nat (at_ + zlen bs)) by (unfold zlen; lia). rewrite load_skip by lia. f_equal. lia.
Qed.

Lemma lor_u64 a b : is_u64 a -> is_u64 b -> is_u64 (Z.lor a b).
Proof.
  unfold is_u64. intros Ha Hb. assert (0 <= Z.lor a b) by (apply Z.lor_nonneg; lia).
  split; [done|]. change 18446744073709551616 with (2 ^ 64).
  destruct (Z.eq_dec (Z.lor a b) 0) as [->|]; [lia|].
  apply Z.log2_lt_pow2; [lia|]. rewrite Z.log2_lor by lia.
  destruct (Z.eq_dec a 0) as [->|], (Z.eq_dec b 0) as [->|];
    apply Z.max_lub_lt; first [apply Z.log2_lt_pow2; lia|cbn; lia].
Qed.

(** The bit [k] of [v], as the code tests it. *)
Lemma land_bit v k : 0 <= k -> (Z.land v (2 ^ k) =? 0) = negb (Z.testbit v k).
Proof.
  intros Hk. destruct (Z.testbit v k) eqn:E; cbn [negb].
  - apply Z.eqb_neq. intros H. apply (f_equal (fun x => Z.testbit x k)) in H.
    rewrite Z.land_spec, E, Z.pow2_bits_true, Z.bits_0 in H by done. done.
  - apply Z.eqb_eq. apply Z.bits_inj'. intros n Hn. rewrite Z.land_spec, Z.bits_0.
    destruct (decide (n = k)) as [->|]; [by rewrite E|]. rewrite Z.pow2_bits_false by done. apply andb_false_r.
Qed.

Lemma testbit_high v i n : 0 <= v < 2 ^ n -> n <= i -> Z.testbit v i = false.
Proof.
  intros Hv Hi. destruct (decide (n < 0)); [rewrite Z.pow_neg_r in Hv by done; lia|].
  destruct (decide (v = 0)) as [->|]; [apply Z.bits_0|]. apply Z.bits_above_log2; [lia|].
  assert (Z.log2 v < n) by (apply Z.log2_lt_pow2; lia). lia.
Qed.

Lemma land_1 v : Z.land v 1 = v mod 2.
Proof. change 1 with (Z.ones 1). by rewrite Z.land_ones. Qed.

(** [(v << k) | b] with [b] below [2^k]: no carry. *)
Lemma lor_shiftl v k b :
  0 <= k -> 0 <= b < 2 ^ k -> Z.lor (Z.shiftl v k) b = v * 2 ^ k + b.
Proof.
  intros Hk Hb. rewrite <- Z.shiftl_mul_pow2 by done.
  symmetry. apply Z.add_nocarry_lor. apply Z.bits_inj'. intros i Hi.
  rewrite Z.land_spec, Z.bits_0. destruct (Z.lt_ge_cases i k).
  - by rewrite Z.shiftl_spec_low.
  - replace b with (b mod 2 ^ k) by (by apply Z.mod_small).
    rewrite (Z.mod_pow2_bits_high b k i) by lia. apply andb_false_r.
Qed.

Lemma lor_shiftl_8 v b : 0 <= b < 256 -> Z.lor (Z.shiftl v 8) b = v * 256 + b.
Proof. intros. by rewrite lor_shiftl. Qed.

Lemma shift_or_u32 x y k : 0 <= k <= 32 -> 0 <= x < 2 ^ k -> Z.lor x (u32 (Z.shiftl y k)) = x + (y * 2 ^ k) mod 2 ^ 32.
Proof.
  intros Hk Hx. unfold u32. change 4294967296 with (2 ^ 32). rewrite Z.shiftl_mul_pow2 by lia.
  replace 32 with ((32 - k) + k) by lia. rewrite Z.pow_add_r, Z.mul_mod_distr_r by lia.
  rewrite <- Z.shiftl_mul_pow2, Z.lor_comm, lor_shiftl, Z.shiftl_mul_pow2 by lia. lia.
Qed.

Lemma shift_or x y k : 0 <= k <= 32 -> 0 <= x < 2 ^ k -> 0 <= y * 2 ^ k < 2 ^ 32 -> Z.lor x (u32 (Z.shiftl y k)) = x + y * 2 ^ k.
Proof. intros. rewrite shift_or_u32 by done. by rewrite Z.mod_small. Qed.

Lemma land_low_bits v k : 0 <= k -> Z.land v (2 ^ k - 1) = v mod 2 ^ k.
Proof. intros. replace (2 ^ k - 1) with (Z.ones k) by (rewrite Z.ones_equiv; lia). by apply Z.land_ones. Qed.

(** Numbers in base 2^w, the lowest digit first. *)
Definition dval (w : Z) (l : list Z) : Z := foldr (fun x v => x + 2 ^ w * v) 0 l.
Notation le_val := (dval 8).
Definition le_bytes (n : nat) (v : Z) : list Z := map (fun i => (v / 2 ^ (8 * Z.of_nat i)) mod 256) (seq 0 n).

Lemma dval_bound w l : 0 <= w -> Forall (fun x => 0 <= x < 2 ^ w) l -> 0 <= dval w l < 2 ^ (w * zlen l).
Proof.
  intros Hw. induction 1 as [|x l Hx _ IH]; [change (zlen (@nil Z)) with 0; rewrite Z.mul_0_r; cbn; lia|]. cbn [dval foldr]. fold (dval w l).
  replace (w * zlen (x :: l)) with (w + w * zlen l) by (rewrite zlen_cons; lia). rewrite Z.pow_add_r by (pose proof (zlen_nonneg l); nia). nia.
Qed.

Lemma dval_app w a b : 0 <= w -> dval w (a ++ b) = dval w a + 2 ^ (w * zlen a) * dval w b.
Proof.
  intros Hw. induction a as [|x a IH]; [change (zlen (@nil Z)) with 0; rewrite Z.mul_0_r; cbn [app]; change (dval w []) with 0; lia|]. cbn [dval foldr app]. fold (dval w (a ++ b)) (dval w a).
  replace (w * zlen (x :: a)) with (w + w * zlen a) by (rewrite zlen_cons; lia). rewrite IH, Z.pow_add_r by (pose proof (zlen_nonneg a); nia). lia.
Qed.

Lemma dval_zeros w n : dval w (replicate n 0) = 0.
Proof. induction n; cbn [replicate dval foldr] in *; [done|]. fold (dval w (replicate n 0)). rewrite IHn. lia. Qed.

Lemma le_bytes_length n v : length (le_bytes n v) = n.
Proof. unfold le_bytes. by rewrite length_map, length_seq. Qed.

Lemma le_bytes_S n v : le_bytes (S n) v = v mod 256 :: le_bytes n (v / 256).
Proof.
  unfold le_bytes. cbn [seq map]. f_equal; [by rewrite Z.div_1_r|]. rewrite <- seq_shift, map_map. apply map_ext. intros i.
  rewrite Nat2Z.inj_succ. replace (8 * Z.succ (Z.of_nat i)) with (8 + 8 * Z.of_nat i) by lia. rewrite Z.pow_add_r by lia. by rewrite <- Z.div_div by lia.
Qed.

Lemma le_bytes_mod n v : le_bytes n (v mod 2 ^ (8 * Z.of_nat n)) = le_bytes n v.
Proof.
  unfold le_bytes. apply map_ext_in. intros i Hi%in_seq. change 256 with (2 ^ 8).
  apply Z.bits_inj'. intros k Hk. destruct (decide (k < 8)).
  - rewrite !Z.mod_pow2_bits_low, !Z.div_pow2_bits, Z.mod_pow2_bits_low by lia. done.
  - rewrite !Z.mod_pow2_bits_high by lia. done.
Qed.

Lemma le_bytes_ok n v : bytes_ok (le_bytes n v).
Proof. apply List.Forall_forall. intros x (i & <- & _)%in_map_iff. unfold is_u8. apply Z.mod_pos_bound. lia. Qed.

Lemma le_bytes_val l : bytes_ok l -> le_bytes (length l) (le_val l) = l.
Proof.
  induction l as [|b l IH]; intros Hl; [done|]. apply bytes_ok_cons in Hl as [Hb Hl]. unfold is_u8 in Hb. cbn [length dval foldr]. fold (dval 8 l). change (2 ^ 8) with 256.
  rewrite le_bytes_S. rewrite (Z.mul_comm 256), Z.mod_add, Z.div_add, (Z.mod_small b), (Z.div_small b), Z.add_0_l by lia. by rewrite IH.
Qed.

Lemma le_val_bytes n v : 0 <= v -> le_val (le_bytes n v) = v mod 2 ^ (8 * Z.of_nat n).
Proof.
  revert v. induction n as [|n IH]; intros v Hv; [by rewrite Z.mod_1_r|]. rewrite le_bytes_S. cbn [dval foldr]. fold (dval 8 (le_bytes n (v / 256))). rewrite IH by (apply Z.div_pos; lia).
  replace (8 * Z.of_nat (S n)) with (8 + 8 * Z.of_nat n) by lia. rewrite Z.pow_add_r by lia. change (2 ^ 8) with 256. rewrite Z.rem_mul_r by lia. lia.
Qed.

Lemma lxor_u8 x y : is_u8 x -> is_u8 y -> is_u8 (Z.lxor x y).
Proof.
  unfold is_u8. intros Hx Hy. assert (E : Z.lxor x y = Z.lxor x y mod 2 ^ 8).
  { rewrite <- Z.land_ones by lia. apply Z.bits_inj'. intros n Hn. rewrite Z.land_spec, Z.lxor_spec, Z.testbit_ones_nonneg by lia.
    destruct (Z.ltb_spec n 8); [by rewrite andb_true_r|]. rewrite !(testbit_high _ n 8) by (try lia; done). done. }
  rewrite E. apply Z.mod_pos_bound. lia.
Qed.
Lemma zip_lxor_ok a : forall b, bytes_ok a -> bytes_ok b -> bytes_ok (zip_with Z.lxor a b).
Proof. induction a as [|x a IH]; intros [|y b] Ha Hb; try constructor; inversion Ha; inversion Hb; subst; [by apply lxor_u8 | by apply IH]. Qed.

Lemma be_val_cons x l : be_val (x :: l) = x * 256 ^ zlen l + be_val l.
Proof.
  induction l as [|y l IH] using rev_ind; [change (be_val [x]) with (0 * 256 + x); change (zlen (@nil Z)) with 0; change (be_val []) with 0; lia|]. change (x :: l ++ [y]) with ((x :: l) ++ [y]). rewrite !be_val_snoc, IH, zlen_app. change (zlen [y]) with 1.
  rewrite Z.pow_add_r by (pose proof (zlen_nonneg l); lia). lia.
Qed.

Lemma be_val_app a b : be_val (a ++ b) = be_val a * 256 ^ zlen b + be_val b.
Proof.
  induction a as [|x a IH]; [change (be_val []) with 0; cbn [app]; lia|]. cbn [app]. rewrite !be_val_cons, IH, zlen_app, Z.pow_add_r by apply zlen_nonneg. lia.
Qed.

Lemma le_val_rev l : le_val (rev l) = be_val l.
Proof.
  induction l as [|x l IH]; [done|]. cbn [rev]. rewrite dval_app, IH, be_val_cons by lia. cbn [dval foldr]. unfold zlen. rewrite length_rev. rewrite Z.pow_mul_r by lia. change (2 ^ 8) with 256. lia.
Qed.

Lemma le_bytes_be n v : le_bytes n v = rev (be_bytes n v).
Proof. revert v. induction n as [|n IH]; intros v; [done|]. rewrite le_bytes_S, IH. cbn [be_bytes]. by rewrite rev_app_distr. Qed.

Lemma be_bytes_val l : bytes_ok l -> be_bytes (length l) (be_val l) = l.
Proof.
  intros Hl. rewrite <- (rev_involutive (be_bytes _ _)), <- le_bytes_be, <- le_val_rev, <- (length_rev l), le_bytes_val; [apply rev_involutive|].
  apply List.Forall_rev. exact Hl.
Qed.

(** [while (i-- > 0) { buf[base + i] = v & 0xFF; v >>= 8; }] *)
Fixpoint put_be_loop (buf : list Z) (base : Z) (i : nat) (v : Z) : option (list Z) :=
  match i with
  | O => Some buf
  | S i' =>
      buf' ← store buf (base + Z.of_nat i') (Z.land v 0xFF);
      put_be_loop buf' base i' (Z.shiftr v 8)
  end.

Lemma put_be_loop_spec i : forall buf base v,
  0 <= base -> base + Z.of_nat i <= zlen buf ->
  put_be_loop buf base i v = Some (splice buf base (be_bytes i v)).
Proof.
  induction i as [|i IH]; intros buf base v Hb Hl; simpl.
  { by rewrite splice_nil. }
  rewrite store_in by lia; simpl.
  rewrite IH by (rewrite ?zlen_insert; lia). rewrite land_255, shiftr_8.
  replace (base + Z.of_nat i) with (base + zlen (be_bytes i (v / 256)))
    by (rewrite zlen_be_bytes; done).
  rewrite splice_snoc_store by (rewrite ?zlen_be_bytes; lia). done.
Qed.

(** [for (i = s; i < s + n; i++) v = (v << 8) | buf[i]] *)
Fixpoint get_be_loop (buf : list Z) (s : Z) (n : nat) (v : Z) : option Z :=
  match n with
  | O => Some v
  | S n' =>
      b ← load buf s;
      get_be_loop buf (s + 1) n' (u64 (Z.lor (u64 (Z.shiftl v 8)) b))
  end.

Lemma fold_be_bound bs v :
  bytes_ok bs -> 0 <= v ->
  0 <= fold_left (fun a b => a * 256 + b) bs v < (v + 1) * 256 ^ zlen bs.
Proof.
  revert v; induction bs as [|b bs IH]; intros v Hok Hv; simpl.
  { change (256 ^ zlen (@nil Z)) with 1; lia. }
  apply bytes_ok_cons in Hok as [Hb Hok]. unfold is_u8 in Hb.
  rewrite zlen_cons, Z.pow_add_r by (pose proof (zlen_nonneg bs); lia).
  specialize (IH (v * 256 + b) Hok ltac:(lia)).
  assert (0 < 256 ^ zlen bs) by (apply Z.pow_pos_nonneg; [lia|apply zlen_nonneg]).
  nia.
Qed.

Lemma get_be_loop_spec bs : forall buf s v,
  take (length bs) (drop (Z.to_nat s) buf) = bs -> 0 <= s ->
  bytes_ok bs -> 0 <= v -> (v + 1) * 256 ^ zlen bs <= 18446744073709551616 ->
  get_be_loop buf s (length bs) v = Some (fold_left (fun a b => a * 256 + b) bs v).
Proof.
  induction bs as [|b bs IH]; intros buf s v Ht Hs Hok Hv Hbd; [done|].
  apply bytes_ok_cons in Hok as [Hb Hok]. unfold is_u8 in Hb.
  rewrite zlen_cons, Z.pow_add_r in Hbd by (pose proof (zlen_nonneg bs); lia).
  assert (1 <= 256 ^ zlen bs).
  { pose proof (Z.pow_pos_nonneg 256 (zlen bs)); pose proof (zlen_nonneg bs); lia. }
  simpl in Ht. destruct (drop (Z.to_nat s) buf) as [|b' rest] eqn:E; [done|].
  simpl in Ht |- *. injection Ht as -> Ht.
  assert (load buf s = Some b) as ->.
  { unfold load. bcases. rewrite <- (Nat.add_0_r (Z.to_nat s)), <- lookup_drop, E. done. }
  simpl. rewrite (u64_small (Z.shiftl v 8)) by (rewrite Z.shiftl_mul_pow2 by done; change (2 ^ 8) with 256; nia).
  rewrite lor_shiftl_8 by done. rewrite u64_small by nia.
  apply IH; [|lia|done|lia|nia].
  replace (Z.to_nat (s + 1)) with (Z.to_nat s + 1)%nat by lia.
  rewrite <- drop_drop, E. simpl. by rewrite drop_0.
Qed.

(** A decidable fact of every byte is checked by running it on all 256. *)
Lemma u8_check (P : Z -> bool) b :
  forallb P (map Z.of_nat (seq 0 256)) = true -> is_u8 b -> P b = true.
Proof.
  unfold is_u8. intros H Hb. rewrite forallb_forall in H. apply H.
  apply in_map_iff. exists (Z.to_nat b). split; [lia|]. apply in_seq. lia.
Qed.
