(* ===== verification/Varint.v ===== *)
(** * Variable-length integers (src/src/common/bytes/varint)

    RFC 9000 section 16: the two high bits of the first byte select a length of
    1, 2, 4 or 8 bytes.  [varint_wire] is that format; the encoder and the
    cursor helpers are proved against it. *)

From stdpp Require Import base numbers list option.
From Stdlib Require Import ZArith Lia.
From S2P Require Import Prelude Bytes.

(* src/src/common/bytes/varint/varint.h : VARINT_MAX *)
Definition VARINT_MAX : Z := 0x3FFFFFFFFFFFFFFF.

(** [while (i < 4 && v > max[i]) i++;] *)
Fixpoint varint_class (max : list Z) (v : Z) : nat :=
  match max with
  | m :: rest => if m <? v then S (varint_class rest v) else O
  | [] => O
  end.

(* src/src/common/bytes/varint/varint.c : varint_len *)
Definition varint_len (v : Z) : Z :=
  nth (varint_class [0x3F; 0x3FFF; 0x3FFFFFFF; VARINT_MAX] v) [1; 2; 4; 8; 0] 0.

(* src/src/common/bytes/varint/varint.c : put_be *)
Definition put_be (buf : list Z) (base v : Z) (n : Z) (prefix : Z) : option (list Z) :=
  buf' ← put_be_loop buf base (Z.to_nat n) v;
  b0 ← load buf' base;
  store buf' base (Z.lor b0 prefix).

(* src/src/common/bytes/varint/varint.c : varint_encode *)
Definition varint_encode (buf : list Z) (base v : Z) : option (Z * list Z) :=
  let n := varint_len v in
  prefix ← [0; 0x00; 0x40; 0; 0x80; 0; 0; 0; 0xC0] !! Z.to_nat n;
  if n =? 0 then Some (0, buf)
  else buf' ← put_be buf base v n prefix; Some (n, buf').

(* src/src/common/bytes/varint/varint.c : get_be *)
Definition get_be (buf : list Z) (base n : Z) : option Z :=
  b0 ← load buf base;
  get_be_loop buf (base + 1) (Z.to_nat (n - 1)) (Z.land b0 0x3F).

(** [base] is the position of the C pointer inside the view: the function is
    called with [buf + base] and the [n] bytes left there. *)
(* src/src/common/bytes/varint/varint.c : varint_decode *)
Definition varint_decode (buf : list Z) (base n : Z) : res (Z * Z) :=
  if n =? 0 then Fail
  else
    match load buf base with
    | None => Oob
    | Some b0 =>
        match [1; 2; 4; 8] !! Z.to_nat (Z.shiftr b0 6) with
        | None => Oob
        | Some need =>
            if n <? need then Fail
            else
              match get_be buf base need with
              | None => Oob
              | Some v => Ok (v, need)
              end
        end
    end.

(* src/src/common/bytes/varint/varint.c : varint_take *)
Definition varint_take : R Z := fun inp off =>
  if zlen inp <=? off then Fail
  else
    match varint_decode inp off (zlen inp - off) with
    | Oob => Oob
    | Fail => Fail
    | Ok (v, used) => if used =? 0 then Fail else Ok (v, u64 (off + used))
    end.

(* src/src/common/bytes/varint/varint.c : varint_put *)
Definition varint_put (v : Z) : W := fun o =>
  let need := varint_len v in
  if (need =? 0) || (ocap o <? u64 (olen o + need)) then Some (false, o)
  else
    '(n, p) ← varint_encode (op o) (olen o) v;
    Some (true, mk_obuf p (u64 (olen o + n))).

(** ** The wire format *)

(** RFC 9000 16: [v] in [8n - 2] bits below the 2-bit length class. *)
Definition varint_bytes (v : Z) : list Z :=
  if v <=? 0x3F then be_bytes 1 v
  else if v <=? 0x3FFF then be_bytes 2 (0x4000 + v)
  else if v <=? 0x3FFFFFFF then be_bytes 4 (0x80000000 + v)
  else be_bytes 8 (0xC000000000000000 + v).

Definition varint_wire (v : Z) : option (list Z) :=
  if v <=? VARINT_MAX then Some (varint_bytes v) else None.

Lemma varint_len_spec v :
  varint_len v = if v <=? 0x3F then 1 else if v <=? 0x3FFF then 2
    else if v <=? 0x3FFFFFFF then 4 else if v <=? VARINT_MAX then 8 else 0.
Proof.
  unfold varint_len, varint_class, VARINT_MAX.
  repeat (bcase; simpl; try lia).
Qed.

Lemma zlen_varint_bytes v : v <= VARINT_MAX -> zlen (varint_bytes v) = varint_len v.
Proof.
  intros. rewrite varint_len_spec. unfold varint_bytes.
  repeat bcase; zlen_simpl; lia.
Qed.

Lemma varint_bytes_ok v : bytes_ok (varint_bytes v).
Proof. unfold varint_bytes. repeat bcase; apply be_bytes_ok. Qed.

Lemma varint_bytes_pos v : 1 <= zlen (varint_bytes v) <= 8.
Proof. unfold varint_bytes. repeat bcase; zlen_simpl; lia. Qed.

(** ** The encoder writes the wire format *)

Lemma lor_prefix h p : 0 <= h < 64 -> p = 0 \/ p = 0x40 \/ p = 0x80 \/ p = 0xC0 ->
  Z.lor h p = p + h.
Proof.
  intros Hh Hp. rewrite Z.lor_comm.
  assert (exists k, p = Z.shiftl k 6) as [k ->]
    by (destruct Hp as [->|[->|[->| ->]]]; [exists 0|exists 1|exists 2|exists 3]; done).
  by rewrite lor_shiftl, Z.shiftl_mul_pow2 by lia.
Qed.

Lemma put_be_spec buf base v n p :
  0 <= base -> base + Z.of_nat (S n) <= zlen buf -> 0 <= v < 64 * 256 ^ Z.of_nat n ->
  p = 0 \/ p = 0x40 \/ p = 0x80 \/ p = 0xC0 ->
  put_be buf base v (Z.of_nat (S n)) p =
    Some (splice buf base (be_bytes (S n) (p * 256 ^ Z.of_nat n + v))).
Proof.
  intros Hb Hl Hv Hp. unfold put_be. rewrite Nat2Z.id.
  rewrite put_be_loop_spec by done. osimpl.
  assert (0 < 256 ^ Z.of_nat n) by (apply Z.pow_pos_nonneg; lia).
  assert (0 <= v / 256 ^ Z.of_nat n < 64) as Hh
    by (split; [apply Z.div_pos; lia|apply Z.div_lt_upper_bound; lia]).
  rewrite !be_bytes_cons. rewrite load_splice_0 by lia. osimpl.
  rewrite store_in by (rewrite zlen_splice by (rewrite ?zlen_cons, ?zlen_be_bytes; lia); lia).
  rewrite insert_splice_0 by lia. rewrite Z.mod_small by lia.
  rewrite lor_prefix by done.
  rewrite (Z.add_comm (p * _)), be_bytes_add, Z.div_add by lia.
  rewrite (Z.mod_small (_ + p)) by lia. do 3 f_equal. lia.
Qed.

Lemma varint_encode_spec buf base v :
  0 <= v -> 0 <= base -> base + varint_len v <= zlen buf ->
  varint_encode buf base v =
    Some (varint_len v, if v <=? VARINT_MAX then splice buf base (varint_bytes v) else buf).
Proof.
  intros Hv Hb Hl. unfold varint_encode, varint_bytes. rewrite varint_len_spec in *.
  unfold VARINT_MAX in *.
  repeat (bcase; simpl in Hl |- *; try lia); try done;
    match goal with |- context [put_be _ _ _ ?n _] =>
      let m := eval cbv in (Z.to_nat (n - 1)) in change n with (Z.of_nat (S m)) end;
    rewrite put_be_spec by (simpl; lia); done.
Qed.

(** Writing one varint at the cursor appends its wire form, or fails without
    a write when it is over 2^62 - 1 or does not fit. *)
Lemma varint_put_wspec v : is_u64 v -> wspec (varint_put v) (varint_wire v).
Proof.
  unfold is_u64; intros Hv o [Ho Hc]. unfold varint_put, varint_wire.
  assert (0 <= varint_len v <= 8) by (rewrite varint_len_spec; repeat bcase; lia).
  unfold span_max in *. nowrap.
  destruct ((varint_len v =? 0) || (ocap o <? olen o + varint_len v)) eqn:E.
  - right. split; [|by exists o; unfold obuf_ok, span_max].
    intros bs Hbs. bcase in Hbs; simplify_eq. unfold ofits.
    rewrite zlen_varint_bytes by lia. rewrite varint_len_spec in *. unfold VARINT_MAX in *.
    revert E. repeat bcase; lia.
  - left. assert (v <= VARINT_MAX) by (rewrite varint_len_spec in E; unfold VARINT_MAX in *; revert E; repeat bcase; lia).
    bcases. eexists; split; [done|]. unfold ofits. rewrite zlen_varint_bytes by done.
    split; [lia|]. rewrite varint_encode_spec by (unfold ocap in *; lia). simpl.
    bcases. nowrap. unfold obuf_app. by rewrite zlen_varint_bytes.
Qed.
#[export] Hint Resolve varint_put_wspec : codec.

(** ** The decoder inverts the wire format *)

Lemma land_63 b : Z.land b 0x3F = b mod 64.
Proof. change 0x3F with (Z.ones 6). by rewrite Z.land_ones. Qed.

Lemma get_be_spec b0 rest pre post :
  bytes_ok (b0 :: rest) -> zlen rest <= 7 ->
  get_be (pre ++ (b0 :: rest) ++ post) (zlen pre) (1 + zlen rest) =
    Some (fold_left (fun a b => a * 256 + b) rest (b0 mod 64)).
Proof.
  intros Hok Hl. apply bytes_ok_cons in Hok as [Hb Hok]. unfold get_be.
  rewrite load_at. osimpl. rewrite land_63.
  pose proof (zlen_nonneg pre).
  replace (Z.to_nat (1 + zlen rest - 1)) with (length rest) by (unfold zlen; lia).
  apply get_be_loop_spec; [|lia|done| |].
  - replace (Z.to_nat (zlen pre + 1)) with (length pre + 1)%nat by (unfold zlen; lia).
    rewrite <- drop_drop, drop_app_length. simpl. by rewrite drop_0, take_app_length.
  - by apply Z.mod_pos_bound.
  - pose proof (Z.mod_pos_bound b0 64 eq_refl).
    pose proof (Z.pow_le_mono_r 256 (zlen rest) 7 eq_refl Hl). simpl in *. nia.
Qed.

Lemma varint_decode_spec b0 rest pre post n :
  bytes_ok (b0 :: rest) ->
  [1; 2; 4; 8] !! Z.to_nat (b0 / 64) = Some (1 + zlen rest) -> 1 + zlen rest <= n ->
  varint_decode (pre ++ (b0 :: rest) ++ post) (zlen pre) n =
    Ok (fold_left (fun a b => a * 256 + b) rest (b0 mod 64), 1 + zlen rest).
Proof.
  intros Hok Hc Hn. unfold varint_decode. pose proof (zlen_nonneg rest).
  assert (zlen rest <= 7) by (destruct (Z.to_nat (b0 / 64)) as [|[|[|[|]]]]; simplify_eq/=; lia).
  bcase; [lia|]. rewrite load_at.
  rewrite Z.shiftr_div_pow2 by done. change (2 ^ 6) with 64.
  rewrite Hc.
  bcase; [lia|]. by rewrite get_be_spec.
Qed.

(** The length class and value bits of the first byte, per size. *)
Lemma varint_first n c v :
  0 <= c < 4 -> 0 <= v < 64 * 256 ^ Z.of_nat n ->
  be_bytes (S n) (c * 64 * 256 ^ Z.of_nat n + v) =
    (c * 64 + v / 256 ^ Z.of_nat n) :: be_bytes n v.
Proof.
  intros Hc Hv. rewrite be_bytes_cons, Z.add_comm, be_bytes_add.
  assert (0 < 256 ^ Z.of_nat n) by (apply Z.pow_pos_nonneg; lia).
  assert (0 <= v / 256 ^ Z.of_nat n < 64)
    by (split; [apply Z.div_pos; lia|apply Z.div_lt_upper_bound; lia]).
  rewrite Z.div_add by lia. rewrite Z.mod_small by lia. f_equal. lia.
Qed.

Lemma fold_be_bytes n v a :
  0 <= v -> fold_left (fun a b => a * 256 + b) (be_bytes n v) a
            = a * 256 ^ Z.of_nat n + v mod 256 ^ Z.of_nat n.
Proof.
  revert v; induction n; intros v Hv.
  { simpl. rewrite Z.mod_1_r. lia. }
  cbn [be_bytes]. rewrite fold_left_app. cbn [fold_left].
  rewrite IHn by (apply Z.div_pos; lia).
  rewrite Nat2Z.inj_succ, Z.pow_succ_r by lia. rewrite Z.rem_mul_r by lia. lia.
Qed.

Lemma varint_take_class n c v pre post :
  0 <= c < 4 -> 0 <= v < 64 * 256 ^ Z.of_nat n ->
  [1; 2; 4; 8] !! Z.to_nat c = Some (Z.of_nat (S n)) ->
  let bs := be_bytes (S n) (c * 64 * 256 ^ Z.of_nat n + v) in
  zlen (pre ++ bs ++ post) < span_max ->
  varint_take (pre ++ bs ++ post) (zlen pre) = Ok (v, zlen pre + Z.of_nat (S n)).
Proof.
  intros Hc Hv Hcl bs. subst bs. rewrite varint_first by done.
  assert (0 < 256 ^ Z.of_nat n) by (apply Z.pow_pos_nonneg; lia).
  assert (0 <= v / 256 ^ Z.of_nat n < 64) as Hh
    by (split; [apply Z.div_pos; lia|apply Z.div_lt_upper_bound; lia]).
  pose proof (zlen_nonneg pre); pose proof (zlen_nonneg post).
  zlen_simpl. unfold span_max. intros Hl. unfold varint_take. zlen_simpl.
  bcase; [lia|].
  rewrite varint_decode_spec.
  - rewrite zlen_be_bytes, fold_be_bytes by lia. bcase; [lia|].
    rewrite u64_small by lia.
    replace ((c * 64 + v / 256 ^ Z.of_nat n) mod 64) with (v / 256 ^ Z.of_nat n)
      by (rewrite Z.add_comm, Z.mod_add, Z.mod_small; lia).
    rewrite (Z.mul_comm (v / _)), <- Z.div_mod by lia. do 2 f_equal. lia.
  - apply bytes_ok_cons; split; [unfold is_u8; lia|apply be_bytes_ok].
  - replace ((c * 64 + v / 256 ^ Z.of_nat n) / 64) with c
      by (rewrite Z.add_comm, Z.div_add, Z.div_small; lia).
    rewrite Hcl, zlen_be_bytes. f_equal; lia.
  - rewrite zlen_be_bytes. lia.
Qed.

Lemma varint_take_spec v pre post :
  0 <= v <= VARINT_MAX -> zlen (pre ++ varint_bytes v ++ post) < span_max ->
  varint_take (pre ++ varint_bytes v ++ post) (zlen pre) = Ok (v, zlen pre + zlen (varint_bytes v)).
Proof.
  unfold VARINT_MAX; intros Hv. unfold varint_bytes.
  repeat bcase; intros Hl; rewrite zlen_be_bytes.
  - apply (varint_take_class 0 0 v); [lia|simpl; lia|done|done].
  - apply (varint_take_class 1 1 v); [lia|simpl; lia|done|done].
  - apply (varint_take_class 3 2 v); [lia|simpl; lia|done|done].
  - apply (varint_take_class 7 3 v); [lia|simpl; lia|done|done].
Qed.

Lemma reads_varint F v :
  0 <= v <= VARINT_MAX -> reads F varint_take (varint_bytes v) (eq v).
Proof. intros Hv pre post _ Hl. exists v. by rewrite varint_take_spec. Qed.
#[export] Hint Resolve reads_varint : codec.

(** ** Safety of the decoder on arbitrary input *)

Lemma varint_table b0 : is_u8 b0 ->
  exists need, [1; 2; 4; 8] !! Z.to_nat (Z.shiftr b0 6) = Some need /\ 1 <= need <= 8.
Proof.
  unfold is_u8; intros Hb. rewrite Z.shiftr_div_pow2 by done. change (2 ^ 6) with 64.
  assert (b0 / 64 = 0 \/ b0 / 64 = 1 \/ b0 / 64 = 2 \/ b0 / 64 = 3) as H
    by (pose proof (Z.div_pos b0 64); pose proof (Z.div_lt_upper_bound b0 64 4); lia).
  destruct H as [->|[->|[->| ->]]]; eexists; (split; [reflexivity|lia]).
Qed.

Lemma varint_take_safe inp off :
  span_ok inp -> 0 <= off <= zlen inp ->
  match varint_take inp off with
  | Ok (v, off') => off < off' <= zlen inp /\ 0 <= v <= VARINT_MAX
  | Fail => True
  | Oob => False
  end.
Proof.
  intros [Hok Hl] Ho. unfold varint_take, span_max in *.
  bcase; [done|]. unfold varint_decode. bcase; [done|].
  destruct (load_is_Some inp off) as [b0 Hb0]; [lia|]. rewrite Hb0.
  destruct (varint_table b0) as (need & Hn & Hnb); [by eapply bytes_ok_lookup|].
  rewrite Hn. bcase; [done|]. unfold get_be. rewrite Hb0. osimpl.
  set (rest := take (Z.to_nat (need - 1)) (drop (Z.to_nat (off + 1)) inp)).
  assert (zlen rest = need - 1) as Hr.
  { unfold rest. rewrite zlen_take; [done|]. rewrite zlen_drop; lia. }
  replace (Z.to_nat (need - 1)) with (length rest) by (unfold zlen in Hr; lia).
  assert (bytes_ok rest) by (by apply bytes_ok_take, bytes_ok_drop).
  pose proof (Z.mod_pos_bound b0 64 eq_refl). rewrite land_63.
  pose proof (Z.pow_le_mono_r 256 (zlen rest) 7 eq_refl ltac:(lia)).
  rewrite (get_be_loop_spec rest); [| |lia|done|lia|simpl in *; nia].
  2: { unfold rest. f_equal. unfold zlen in Hr. fold rest. lia. }
  pose proof (fold_be_bound rest (b0 mod 64) ltac:(done) ltac:(lia)).
  bcase; [lia|]. rewrite u64_small by lia.
  split; [lia|]. unfold VARINT_MAX. simpl in *. nia.
Qed.

Lemma rsafe_varint : rsafe varint_take (fun v => 0 <= v <= VARINT_MAX).
Proof.
  intros inp off Hi _ Ho. pose proof (varint_take_safe inp off Hi Ho) as H.
  destruct (varint_take inp off) as [[v o]| |]; [|done|done].
  destruct H as [? ?]. split; [lia|done].
Qed.
#[export] Hint Resolve rsafe_varint : codec.

(** The length [varint_len] picks is the shortest of the four sizes whose
    value bits hold [v]. *)
Lemma varint_len_minimal v n :
  0 <= v -> n = 1 \/ n = 2 \/ n = 4 \/ n = 8 -> v < 64 * 256 ^ (n - 1) ->
  1 <= varint_len v <= n.
Proof.
  intros Hv Hn. rewrite varint_len_spec. unfold VARINT_MAX.
  destruct Hn as [->|[->|[->| ->]]]; simpl; repeat bcase; lia.
Qed.
