(* ===== verification/Frames.v ===== *)
(** * QUIC frame codecs (src/src/transport/packet/frame/frame)

    One Module per codec source file.  Encoders are writers over a
    [wired_obuf]; decoders are cursor readers that start after the type byte
    at index 0.  Every encoder is proved to write the frame layout of RFC 9000
    section 19, stated as a [.._wire] function, and every decoder to read it
    back. *)

From stdpp Require Import base numbers list option.
From Stdlib Require Import ZArith Lia.
From S2P Require Import Prelude Bytes Varint.

(** The concatenation of optional field encodings. *)
Definition ocat (l : list (option (list Z))) : option (list Z) :=
  foldr oapp (Some []) l.

Ltac ocat_norm :=
  unfold ocat; cbn [foldr]; rewrite ?oapp_nil_r, <- ?oapp_assoc; reflexivity.

(** Prove that a sequence of field writers writes a sequence of fields. *)
Ltac wsolve := eapply wspec_eq; [eauto 20 with codec|try ocat_norm].

(** From a frame layout that exists, every field is in range. *)
Ltac ocat_inv H :=
  unfold ocat, varint_wire in H; cbn [foldr] in H;
  repeat (match type of H with
          | context [if ?b then Some _ else None] => destruct b eqn:?
          end; cbn [oapp] in H; try discriminate H);
  apply (inj Some) in H as <-; rewrite ?app_nil_r.

(** Read the next varint field of a layout. *)
Ltac rvarint :=
  eapply reads_bind; [typeclasses eauto|apply reads_varint; lia|intros ? <-].

(** ** stream_bounds.c, crypto_offset.c *)

(* src/src/transport/packet/frame/frame/stream_bounds.c : stream_bounds_ok *)
Definition stream_bounds_ok (offset length : Z) : bool :=
  let limit := u64 (Z.shiftl 1 62 - 1) in
  if limit <? offset then false else length <=? u64 (limit - offset).

(* src/src/transport/packet/frame/frame/crypto_offset.c : crypto_offset_ok *)
Definition crypto_offset_ok (offset len max_offset : Z) : bool :=
  if u64 (offset + len) <? offset then false else u64 (offset + len) <=? max_offset.

(* src/src/transport/packet/frame/frame/crypto_offset.c : crypto_contiguous *)
Definition crypto_contiguous (received_upto new_offset : Z) : bool :=
  new_offset <=? received_upto.

(** ** frame.c, frame_take.c *)

Module Frame.

Definition FRAME_PADDING : Z := 0x00.
Definition FRAME_PING : Z := 0x01.
Definition FRAME_CRYPTO : Z := 0x06.
Definition FRAME_STREAM_BASE : Z := 0x08.
Definition FRAME_CONN_CLOSE_TPT : Z := 0x1c.
Definition FRAME_CONN_CLOSE_APP : Z := 0x1d.
Definition STREAM_FIN : Z := 0x01.
Definition STREAM_LEN : Z := 0x02.
Definition STREAM_OFF : Z := 0x04.

(** A data pointer is the list of the bytes readable at it. *)
(* src/src/transport/packet/frame/frame/frame.h : crypto_frame *)
Record crypto_frame := mk_crypto { cf_offset : Z; cf_length : Z; cf_data : list Z }.

(* src/src/transport/packet/frame/frame/frame.h : stream_frame *)
Record stream_frame := mk_stream {
  sf_stream_id : Z; sf_offset : Z; sf_length : Z; sf_data : list Z; sf_fin : Z }.

(* src/src/transport/packet/frame/frame/frame.h : conn_close_frame *)
Record conn_close_frame := mk_cc {
  cc_is_app : Z; cc_error_code : Z; cc_frame_type : Z; cc_reason_len : Z; cc_reason : list Z }.

(* src/src/transport/packet/frame/frame/frame.c : frame_write_bytes *)
Definition frame_write_bytes (src : list Z) (len : Z) (out : obuf) : option (Z * list Z) :=
  if ocap out <? u64 (olen out + len) then Some (0, op out)
  else
    p ← copy (op out) (olen out) src 0 (Z.to_nat len);
    Some (u64 (olen out + len), p).

(** [f->data = buf + off; return frame_view_end(in, off, len);] *)
(* src/src/transport/packet/frame/frame/frame.c : frame_view_end *)
Definition frame_view_end (len : Z) : R (list Z) := fun inp off =>
  if zlen inp <? u64 (off + len) then Fail
  else Ok (drop (Z.to_nat off) inp, u64 (off + len)).

(* src/src/transport/packet/frame/frame/frame.c : frame_put_simple *)
Definition frame_put_simple (buf : list Z) (type : Z) : option (Z * list Z) :=
  if zlen buf =? 0 then Some (0, buf)
  else buf' ← store buf 0 type; Some (1, buf').

(* src/src/transport/packet/frame/frame/frame.c : put_crypto_hdr *)
Definition put_crypto_hdr (f : crypto_frame) : W :=
  varint_put FRAME_CRYPTO ;& varint_put (cf_offset f) ;& varint_put (cf_length f).

(* src/src/transport/packet/frame/frame/frame.c : frame_put_crypto *)
Definition frame_put_crypto (buf : list Z) (f : crypto_frame) : option (Z * list Z) :=
  wthen (put_crypto_hdr f) (frame_write_bytes (cf_data f) (cf_length f)) buf.

(* src/src/transport/packet/frame/frame/frame.c : take_crypto_hdr *)
Definition take_crypto_hdr : R (Z * Z) :=
  offset <- varint_take ;;
  length <- varint_take ;;
  rret (offset, length).

(* src/src/transport/packet/frame/frame/frame.c : frame_get_crypto *)
Definition frame_get_crypto (buf : list Z) : res (crypto_frame * Z) :=
  (h <- take_crypto_hdr ;;
   data <- frame_view_end h.2 ;;
   rret (mk_crypto h.1 h.2 data)) buf 1.

(* src/src/transport/packet/frame/frame/frame.c : stream_type *)
Definition stream_type (f : stream_frame) : Z :=
  let t := Z.lor FRAME_STREAM_BASE STREAM_LEN in
  let t := if negb (sf_offset f =? 0) then Z.lor t STREAM_OFF else t in
  if negb (sf_fin f =? 0) then Z.lor t STREAM_FIN else t.

(* src/src/transport/packet/frame/frame/frame.c : put_opt_offset *)
Definition put_opt_offset (offset : Z) : W :=
  if offset =? 0 then wtrue else varint_put offset.

(* src/src/transport/packet/frame/frame/frame.c : put_stream_prefix *)
Definition put_stream_prefix (f : stream_frame) : W :=
  varint_put (stream_type f) ;& varint_put (sf_stream_id f).

(* src/src/transport/packet/frame/frame/frame.c : put_stream_hdr *)
Definition put_stream_hdr (f : stream_frame) : W :=
  put_stream_prefix f ;& put_opt_offset (sf_offset f) ;& varint_put (sf_length f).

(* src/src/transport/packet/frame/frame/frame.c : frame_put_stream *)
Definition frame_put_stream (buf : list Z) (f : stream_frame) : option (Z * list Z) :=
  wthen (put_stream_hdr f) (frame_write_bytes (sf_data f) (sf_length f)) buf.

(* src/src/transport/packet/frame/frame/frame_take.c : take_opt_offset *)
Definition take_opt_offset : R Z :=
  t <- rbyte 0 ;;
  if Z.land t STREAM_OFF =? 0 then rret 0 else varint_take.

(* src/src/transport/packet/frame/frame/frame_take.c : take_opt_length *)
Definition take_opt_length : R Z :=
  t <- rbyte 0 ;;
  if Z.land t STREAM_LEN =? 0
  then fun inp off => Ok (u64 (zlen inp - off), off)
  else varint_take.

(* src/src/transport/packet/frame/frame/frame_take.c : take_stream_hdr *)
Definition take_stream_hdr : R (Z * Z * Z) :=
  id <- varint_take ;;
  offset <- take_opt_offset ;;
  length <- take_opt_length ;;
  rret (id, offset, length).

(* src/src/transport/packet/frame/frame/frame_take.c : take_stream_hdr_bounded *)
Definition take_stream_hdr_bounded : R (Z * Z * Z) :=
  h <- take_stream_hdr ;;
  _ <- rguard (stream_bounds_ok h.1.2 h.2) ;;
  rret h.

(* src/src/transport/packet/frame/frame/frame_take.c : frame_get_stream *)
Definition frame_get_stream (buf : list Z) : res (stream_frame * Z) :=
  (t <- rbyte 0 ;;
   h <- take_stream_hdr_bounded ;;
   data <- frame_view_end h.2 ;;
   rret (mk_stream h.1.1 h.1.2 h.2 data
           (if negb (Z.land t STREAM_FIN =? 0) then 1 else 0))) buf 1.

(* src/src/transport/packet/frame/frame/frame_take.c : put_opt_frame_type *)
Definition put_opt_frame_type (f : conn_close_frame) : W :=
  if negb (cc_is_app f =? 0) then wtrue else varint_put (cc_frame_type f).

(* src/src/transport/packet/frame/frame/frame_take.c : put_cc_prefix *)
Definition put_cc_prefix (f : conn_close_frame) : W :=
  varint_put (if negb (cc_is_app f =? 0) then FRAME_CONN_CLOSE_APP else FRAME_CONN_CLOSE_TPT)
  ;& varint_put (cc_error_code f).

(* src/src/transport/packet/frame/frame/frame_take.c : put_cc_hdr *)
Definition put_cc_hdr (f : conn_close_frame) : W :=
  put_cc_prefix f ;& put_opt_frame_type f ;& varint_put (cc_reason_len f).

(* src/src/transport/packet/frame/frame/frame_take.c : frame_put_conn_close *)
Definition frame_put_conn_close (buf : list Z) (f : conn_close_frame) : option (Z * list Z) :=
  wthen (put_cc_hdr f) (frame_write_bytes (cc_reason f) (cc_reason_len f)) buf.

(* src/src/transport/packet/frame/frame/frame_take.c : take_opt_frame_type *)
Definition take_opt_frame_type (is_app : Z) : R Z :=
  if negb (is_app =? 0) then rret 0 else varint_take.

(* src/src/transport/packet/frame/frame/frame_take.c : take_cc_hdr *)
Definition take_cc_hdr (is_app : Z) : R (Z * Z * Z) :=
  error_code <- varint_take ;;
  frame_type <- take_opt_frame_type is_app ;;
  reason_len <- varint_take ;;
  rret (error_code, frame_type, reason_len).

(* src/src/transport/packet/frame/frame/frame_take.c : frame_get_conn_close *)
Definition frame_get_conn_close (buf : list Z) : res (conn_close_frame * Z) :=
  (t <- rbyte 0 ;;
   let is_app := if t =? FRAME_CONN_CLOSE_APP then 1 else 0 in
   h <- take_cc_hdr is_app ;;
   reason <- frame_view_end h.2 ;;
   rret (mk_cc is_app h.1.1 h.1.2 h.2 reason)) buf 1.

(** *** The frame layouts (RFC 9000 19.6, 19.8, 19.19) *)

Definition crypto_wire (f : crypto_frame) : option (list Z) :=
  ocat [varint_wire 0x06; varint_wire (cf_offset f); varint_wire (cf_length f);
        Some (take (Z.to_nat (cf_length f)) (cf_data f))].

Definition stream_wire (f : stream_frame) : option (list Z) :=
  ocat [varint_wire (0x0a + (if sf_offset f =? 0 then 0 else 4) + (if sf_fin f =? 0 then 0 else 1));
        varint_wire (sf_stream_id f);
        (if sf_offset f =? 0 then Some [] else varint_wire (sf_offset f));
        varint_wire (sf_length f);
        Some (take (Z.to_nat (sf_length f)) (sf_data f))].

Definition conn_close_wire (f : conn_close_frame) : option (list Z) :=
  ocat [varint_wire (if cc_is_app f =? 0 then 0x1c else 0x1d);
        varint_wire (cc_error_code f);
        (if cc_is_app f =? 0 then varint_wire (cc_frame_type f) else Some []);
        varint_wire (cc_reason_len f);
        Some (take (Z.to_nat (cc_reason_len f)) (cc_reason f))].
End Frame.

(** ** flowctl.c *)

Module FlowCtl.

Definition FRAME_MAX_DATA : Z := 0x10.
Definition FRAME_MAX_STREAM_DATA : Z := 0x11.
Definition FRAME_MAX_STREAMS_BIDI : Z := 0x12.
Definition FRAME_DATA_BLOCKED : Z := 0x14.
Definition FRAME_STREAM_DATA_BLOCKED : Z := 0x15.
Definition FRAME_STREAMS_BLOCKED_BIDI : Z := 0x16.

(* src/src/transport/packet/frame/frame/flowctl.h : data_frame *)
Record data_frame := mk_data { df_value : Z }.
(* src/src/transport/packet/frame/frame/flowctl.h : stream_data_frame *)
Record stream_data_frame := mk_sdata { sd_stream_id : Z; sd_value : Z }.
(* src/src/transport/packet/frame/frame/flowctl.h : streams_frame *)
Record streams_frame := mk_streams { st_max_streams : Z; st_uni : Z }.

(* src/src/transport/packet/frame/frame/flowctl.c : put_at *)
Definition put_at (v : Z) : W := varint_put v.

(* src/src/transport/packet/frame/frame/flowctl.c : put_one_varint_frame *)
Definition put_one_varint_frame (type value : Z) : W := put_at type ;& put_at value.

(* src/src/transport/packet/frame/frame/flowctl.c : get_one_varint_frame *)
Definition get_one_varint_frame : R Z := varint_take.

(* src/src/transport/packet/frame/frame/flowctl.c : put_two_varint_frame *)
Definition put_two_varint_frame (type : Z) (f : stream_data_frame) : W :=
  put_one_varint_frame type (sd_stream_id f) ;& put_at (sd_value f).

(* src/src/transport/packet/frame/frame/flowctl.c : get_two_varint_frame *)
Definition get_two_varint_frame : R stream_data_frame :=
  id <- get_one_varint_frame ;;
  value <- varint_take ;;
  rret (mk_sdata id value).

(* src/src/transport/packet/frame/frame/flowctl.c : max_data_encode *)
Definition max_data_encode (buf : list Z) (f : data_frame) : option (Z * list Z) :=
  wrun (put_one_varint_frame FRAME_MAX_DATA (df_value f)) buf.
(* src/src/transport/packet/frame/frame/flowctl.c : max_data_decode *)
Definition max_data_decode (buf : list Z) : res (data_frame * Z) :=
  (v <- get_one_varint_frame ;; rret (mk_data v)) buf 1.

(* src/src/transport/packet/frame/frame/flowctl.c : data_blocked_encode *)
Definition data_blocked_encode (buf : list Z) (f : data_frame) : option (Z * list Z) :=
  wrun (put_one_varint_frame FRAME_DATA_BLOCKED (df_value f)) buf.
(* src/src/transport/packet/frame/frame/flowctl.c : data_blocked_decode *)
Definition data_blocked_decode (buf : list Z) : res (data_frame * Z) :=
  (v <- get_one_varint_frame ;; rret (mk_data v)) buf 1.

(* src/src/transport/packet/frame/frame/flowctl.c : max_stream_data_encode *)
Definition max_stream_data_encode (buf : list Z) (f : stream_data_frame) : option (Z * list Z) :=
  wrun (put_two_varint_frame FRAME_MAX_STREAM_DATA f) buf.
(* src/src/transport/packet/frame/frame/flowctl.c : max_stream_data_decode *)
Definition max_stream_data_decode (buf : list Z) : res (stream_data_frame * Z) :=
  get_two_varint_frame buf 1.

(* src/src/transport/packet/frame/frame/flowctl.c : stream_data_blocked_encode *)
Definition stream_data_blocked_encode (buf : list Z) (f : stream_data_frame)
    : option (Z * list Z) :=
  wrun (put_two_varint_frame FRAME_STREAM_DATA_BLOCKED f) buf.
(* src/src/transport/packet/frame/frame/flowctl.c : stream_data_blocked_decode *)
Definition stream_data_blocked_decode (buf : list Z) : res (stream_data_frame * Z) :=
  get_two_varint_frame buf 1.

(* src/src/transport/packet/frame/frame/flowctl.c : streams_type *)
Definition streams_type (bidi_type uni : Z) : Z :=
  u64 (bidi_type + (if negb (uni =? 0) then 1 else 0)).

(* src/src/transport/packet/frame/frame/flowctl.c : max_streams_encode *)
Definition max_streams_encode (buf : list Z) (f : streams_frame) : option (Z * list Z) :=
  wrun (put_one_varint_frame (streams_type FRAME_MAX_STREAMS_BIDI (st_uni f)) (st_max_streams f)) buf.
(* src/src/transport/packet/frame/frame/flowctl.c : max_streams_decode *)
Definition max_streams_decode (buf : list Z) : res (streams_frame * Z) :=
  (t <- rbyte 0 ;; v <- get_one_varint_frame ;; rret (mk_streams v (Z.land t 1))) buf 1.

(* src/src/transport/packet/frame/frame/flowctl.c : streams_blocked_encode *)
Definition streams_blocked_encode (buf : list Z) (f : streams_frame) : option (Z * list Z) :=
  wrun (put_one_varint_frame (streams_type FRAME_STREAMS_BLOCKED_BIDI (st_uni f)) (st_max_streams f)) buf.
(* src/src/transport/packet/frame/frame/flowctl.c : streams_blocked_decode *)
Definition streams_blocked_decode (buf : list Z) : res (streams_frame * Z) :=
  (t <- rbyte 0 ;; v <- get_one_varint_frame ;; rret (mk_streams v (Z.land t 1))) buf 1.

(** RFC 9000 19.9 to 19.14: a type and one or two varints. *)
Definition one_varint_wire (type value : Z) : option (list Z) :=
  ocat [varint_wire type; varint_wire value].
Definition two_varint_wire (type : Z) (f : stream_data_frame) : option (list Z) :=
  ocat [varint_wire type; varint_wire (sd_stream_id f); varint_wire (sd_value f)].
End FlowCtl.

(** ** stream_ctl.c *)

Module StreamCtl.

Definition FRAME_RESET_STREAM : Z := 0x04.
Definition FRAME_STOP_SENDING : Z := 0x05.
Definition FRAME_RESET_STREAM_AT : Z := 0x24.

(* src/src/transport/packet/frame/frame/stream_ctl.h : reset_stream_frame *)
Record reset_stream_frame := mk_rs { rs_stream_id : Z; rs_error_code : Z; rs_final_size : Z }.
(* src/src/transport/packet/frame/frame/stream_ctl.h : stop_sending_frame *)
Record stop_sending_frame := mk_ss { ss_stream_id : Z; ss_error_code : Z }.
(* src/src/transport/packet/frame/frame/stream_ctl.h : reset_stream_at_frame *)
Record reset_stream_at_frame := mk_rsat {
  rsat_stream_id : Z; rsat_error_code : Z; rsat_final_size : Z; rsat_reliable_size : Z }.

(* src/src/transport/packet/frame/frame/stream_ctl.c : put_rs_head *)
Definition put_rs_head (f : reset_stream_frame) : W :=
  varint_put FRAME_RESET_STREAM ;& varint_put (rs_stream_id f).
(* src/src/transport/packet/frame/frame/stream_ctl.c : put_rs_tail *)
Definition put_rs_tail (f : reset_stream_frame) : W :=
  varint_put (rs_error_code f) ;& varint_put (rs_final_size f).
(* src/src/transport/packet/frame/frame/stream_ctl.c : reset_stream_encode *)
Definition reset_stream_encode (buf : list Z) (f : reset_stream_frame) : option (Z * list Z) :=
  wrun (put_rs_head f ;& put_rs_tail f) buf.

(* src/src/transport/packet/frame/frame/stream_ctl.c : take_rs_head *)
Definition take_rs_head : R (Z * Z) :=
  id <- varint_take ;; ec <- varint_take ;; rret (id, ec).
(* src/src/transport/packet/frame/frame/stream_ctl.c : reset_stream_decode *)
Definition reset_stream_decode (buf : list Z) : res (reset_stream_frame * Z) :=
  (h <- take_rs_head ;; fs <- varint_take ;; rret (mk_rs h.1 h.2 fs)) buf 1.

(* src/src/transport/packet/frame/frame/stream_ctl.c : put_ss_head *)
Definition put_ss_head (f : stop_sending_frame) : W :=
  varint_put FRAME_STOP_SENDING ;& varint_put (ss_stream_id f).
(* src/src/transport/packet/frame/frame/stream_ctl.c : stop_sending_encode *)
Definition stop_sending_encode (buf : list Z) (f : stop_sending_frame) : option (Z * list Z) :=
  wrun (put_ss_head f ;& varint_put (ss_error_code f)) buf.
(* src/src/transport/packet/frame/frame/stream_ctl.c : stop_sending_decode *)
Definition stop_sending_decode (buf : list Z) : res (stop_sending_frame * Z) :=
  (id <- varint_take ;; ec <- varint_take ;; rret (mk_ss id ec)) buf 1.

(* src/src/transport/packet/frame/frame/stream_ctl.c : rs_at_size_ok *)
Definition rs_at_size_ok (f : reset_stream_at_frame) : bool :=
  rsat_reliable_size f <=? rsat_final_size f.
(* src/src/transport/packet/frame/frame/stream_ctl.c : put_rsat_head *)
Definition put_rsat_head (f : reset_stream_at_frame) : W :=
  varint_put FRAME_RESET_STREAM_AT ;& varint_put (rsat_stream_id f)
  ;& varint_put (rsat_error_code f).
(* src/src/transport/packet/frame/frame/stream_ctl.c : put_rsat_tail *)
Definition put_rsat_tail (f : reset_stream_at_frame) : W :=
  varint_put (rsat_final_size f) ;& varint_put (rsat_reliable_size f).
(* src/src/transport/packet/frame/frame/stream_ctl.c : put_rsat_body *)
Definition put_rsat_body (f : reset_stream_at_frame) : W := put_rsat_head f ;& put_rsat_tail f.
(* src/src/transport/packet/frame/frame/stream_ctl.c : reset_stream_at_encode *)
Definition reset_stream_at_encode (buf : list Z) (f : reset_stream_at_frame)
    : option (Z * list Z) :=
  if negb (rs_at_size_ok f) then Some (0, buf) else wrun (put_rsat_body f) buf.

(* src/src/transport/packet/frame/frame/stream_ctl.c : take_rsat_head *)
Definition take_rsat_head : R (Z * Z) :=
  id <- varint_take ;; ec <- varint_take ;; rret (id, ec).
(* src/src/transport/packet/frame/frame/stream_ctl.c : take_rsat_tail *)
Definition take_rsat_tail : R (Z * Z) :=
  fs <- varint_take ;; rel <- varint_take ;; rret (fs, rel).
(* src/src/transport/packet/frame/frame/stream_ctl.c : take_rsat_body *)
Definition take_rsat_body : R reset_stream_at_frame :=
  h <- take_rsat_head ;; t <- take_rsat_tail ;; rret (mk_rsat h.1 h.2 t.1 t.2).
(* src/src/transport/packet/frame/frame/stream_ctl.c : reset_stream_at_decode *)
Definition reset_stream_at_decode (buf : list Z) : res (reset_stream_at_frame * Z) :=
  (f <- take_rsat_body ;; _ <- rguard (rs_at_size_ok f) ;; rret f) buf 1.

(** RFC 9000 19.4, 19.5; draft-ietf-quic-reliable-stream-reset. *)
Definition reset_stream_wire (f : reset_stream_frame) : option (list Z) :=
  ocat [varint_wire 0x04; varint_wire (rs_stream_id f); varint_wire (rs_error_code f);
        varint_wire (rs_final_size f)].
Definition stop_sending_wire (f : stop_sending_frame) : option (list Z) :=
  ocat [varint_wire 0x05; varint_wire (ss_stream_id f); varint_wire (ss_error_code f)].
Definition reset_stream_at_wire (f : reset_stream_at_frame) : option (list Z) :=
  if rs_at_size_ok f then
    ocat [varint_wire 0x24; varint_wire (rsat_stream_id f); varint_wire (rsat_error_code f);
          varint_wire (rsat_final_size f); varint_wire (rsat_reliable_size f)]
  else None.
End StreamCtl.

(** ** connctl.c *)

Module ConnCtl.

Definition FRAME_NEW_TOKEN : Z := 0x07.
Definition FRAME_RETIRE_CID : Z := 0x19.
Definition FRAME_PATH_CHALLENGE : Z := 0x1a.
Definition FRAME_PATH_RESPONSE : Z := 0x1b.
Definition FRAME_HANDSHAKE_DONE : Z := 0x1e.
Definition PATH_DATA : Z := 8.

(* src/src/transport/packet/frame/frame/connctl.h : new_token_frame *)
Record new_token_frame := mk_nt { nt_length : Z; nt_token : list Z }.

(* src/src/transport/packet/frame/frame/connctl.c : put_new_token_head *)
Definition put_new_token_head (length : Z) : W :=
  varint_put FRAME_NEW_TOKEN ;& varint_put length.
(* src/src/transport/packet/frame/frame/connctl.c : new_token_encode *)
Definition new_token_encode (buf : list Z) (f : new_token_frame) : option (Z * list Z) :=
  wrun (put_new_token_head (nt_length f) ;& bytes_put (nt_token f) (nt_length f)) buf.

(* src/src/transport/packet/frame/frame/connctl.c : take_token_view *)
Definition take_token_view (length : Z) : R (list Z) := fun inp off =>
  if zlen inp <? u64 (off + length) then Fail
  else Ok (drop (Z.to_nat off) inp, u64 (off + length)).
(* src/src/transport/packet/frame/frame/connctl.c : new_token_decode *)
Definition new_token_decode (buf : list Z) : res (new_token_frame * Z) :=
  (len <- varint_take ;; tok <- take_token_view len ;; rret (mk_nt len tok)) buf 1.

(* src/src/transport/packet/frame/frame/connctl.c : retire_cid_encode *)
Definition retire_cid_encode (buf : list Z) (seq : Z) : option (Z * list Z) :=
  wrun (varint_put FRAME_RETIRE_CID ;& varint_put seq) buf.
(* src/src/transport/packet/frame/frame/connctl.c : retire_cid_decode *)
Definition retire_cid_decode (buf : list Z) : res (Z * Z) := varint_take buf 1.

(* src/src/transport/packet/frame/frame/connctl.c : path_encode *)
Definition path_encode (buf : list Z) (type : Z) (data : list Z) : option (Z * list Z) :=
  if zlen buf =? 0 then Some (0, buf)
  else
    buf' ← store buf 0 type;
    match bytes_put data PATH_DATA (mk_obuf buf' 1) with
    | Some (true, o) => Some (olen o, op o)
    | Some (false, o) => Some (0, op o)
    | None => None
    end.

(* src/src/transport/packet/frame/frame/connctl.c : type_is *)
Definition type_is (buf : list Z) (type : Z) : res bool :=
  if zlen buf =? 0 then Ok false
  else match load buf 0 with Some b => Ok (b =? type) | None => Oob end.

(* src/src/transport/packet/frame/frame/connctl.c : path_decode *)
Definition path_decode (buf : list Z) (type : Z) : res (list Z * Z) :=
  match type_is buf type with
  | Ok true => bytes_take (replicate 8 0) PATH_DATA buf 1
  | Ok false => Fail
  | Fail => Fail
  | Oob => Oob
  end.

(* src/src/transport/packet/frame/frame/connctl.c : handshake_done_encode *)
Definition handshake_done_encode (buf : list Z) : option (Z * list Z) :=
  if zlen buf =? 0 then Some (0, buf)
  else buf' ← store buf 0 FRAME_HANDSHAKE_DONE; Some (1, buf').
(* src/src/transport/packet/frame/frame/connctl.c : handshake_done_decode *)
Definition handshake_done_decode (buf : list Z) : res Z :=
  if zlen buf =? 0 then Fail
  else
    match load buf 0 with
    | Some b => if negb (b =? FRAME_HANDSHAKE_DONE) then Fail else Ok 1
    | None => Oob
    end.

(** RFC 9000 19.7, 19.16, 19.17. *)
Definition new_token_wire (f : new_token_frame) : option (list Z) :=
  ocat [varint_wire 0x07; varint_wire (nt_length f);
        Some (take (Z.to_nat (nt_length f)) (nt_token f))].
Definition retire_cid_wire (seq : Z) : option (list Z) :=
  ocat [varint_wire 0x19; varint_wire seq].
Definition path_wire (type : Z) (data : list Z) : list Z := type :: take 8 data.
End ConnCtl.

(** ** ncid.c, ncid_check.c, ncid_worker.c *)

Module Ncid.

Definition FRAME_NEW_CID : Z := 0x18.
Definition NCID_TOKEN : Z := 16.
Definition NCID_MAX_LEN : Z := 20.

(** [cid] is the 20-byte array of the C struct. *)
(* src/src/transport/packet/frame/frame/ncid.h : ncid_frame *)
Record ncid_frame := mk_ncid {
  nc_seq : Z; nc_retire_prior_to : Z; nc_cid_len : Z; nc_cid : list Z; nc_token : list Z }.

(* src/src/transport/packet/frame/frame/ncid.c : ncid_valid *)
Definition ncid_valid (f : ncid_frame) : bool :=
  (nc_cid_len f <=? NCID_MAX_LEN) && (nc_retire_prior_to f <=? nc_seq f).

(* src/src/transport/packet/frame/frame/ncid.c : put_ncid_head *)
Definition put_ncid_head (f : ncid_frame) : W :=
  varint_put FRAME_NEW_CID ;& varint_put (nc_seq f) ;& varint_put (nc_retire_prior_to f).
(* src/src/transport/packet/frame/frame/ncid.c : put_ncid_body *)
Definition put_ncid_body (f : ncid_frame) : W :=
  put_byte (nc_cid_len f) ;& bytes_put (nc_cid f) (nc_cid_len f)
  ;& bytes_put (nc_token f) NCID_TOKEN.
(* src/src/transport/packet/frame/frame/ncid.c : put_ncid *)
Definition put_ncid (f : ncid_frame) : W := put_ncid_head f ;& put_ncid_body f.
(* src/src/transport/packet/frame/frame/ncid.c : ncid_encode *)
Definition ncid_encode (buf : list Z) (f : ncid_frame) : option (Z * list Z) :=
  if negb (ncid_valid f) then Some (0, buf) else wrun (put_ncid f) buf.

(* src/src/transport/packet/frame/frame/ncid.c : take_ncid_head *)
Definition take_ncid_head : R (Z * Z) :=
  seq <- varint_take ;; rpt <- varint_take ;; rret (seq, rpt).
(* src/src/transport/packet/frame/frame/ncid.c : cid_len_ok *)
Definition cid_len_ok : R bool := fun inp off =>
  if negb (off <? zlen inp) then Ok (false, off)
  else
    match load inp off with
    | Some b => Ok (u8 (b - 1) <? NCID_MAX_LEN, off)
    | None => Oob
    end.
(* src/src/transport/packet/frame/frame/ncid.c : take_ncid_body *)
Definition take_ncid_body (cid token : list Z) : R (Z * list Z * list Z) :=
  ok <- cid_len_ok ;;
  _ <- rguard ok ;;
  len <- rnext ;;
  cid' <- bytes_take cid len ;;
  token' <- bytes_take token NCID_TOKEN ;;
  rret (len, cid', token').
(** [cid] and [token] are the arrays of the frame struct before the call. *)
(* src/src/transport/packet/frame/frame/ncid.c : ncid_decode *)
Definition ncid_decode (cid token : list Z) (buf : list Z) : res (ncid_frame * Z) :=
  (h <- take_ncid_head ;;
   b <- take_ncid_body cid token ;;
   rret (mk_ncid h.1 h.2 b.1.1 b.1.2 b.2)) buf 1.

(* src/src/transport/packet/frame/frame/ncid_check.c : ncid_check_cid_len_ok *)
Definition ncid_check_cid_len_ok (cid_len : Z) : bool := (1 <=? cid_len) && (cid_len <=? 20).
(* src/src/transport/packet/frame/frame/ncid_check.c : ncid_check *)
Definition ncid_check (seq retire_prior_to cid_len : Z) : bool :=
  (retire_prior_to <=? seq) && ncid_check_cid_len_ok cid_len.

(** RFC 9000 19.15. *)
Definition ncid_wire (f : ncid_frame) : option (list Z) :=
  if ncid_valid f then
    ocat [varint_wire 0x18; varint_wire (nc_seq f); varint_wire (nc_retire_prior_to f);
          Some [nc_cid_len f]; Some (take (Z.to_nat (nc_cid_len f)) (nc_cid f));
          Some (take 16 (nc_token f))]
  else None.
End Ncid.

(** ** Encoders write the layouts *)

Section encoders.
Import Frame FlowCtl StreamCtl ConnCtl Ncid.

Lemma wthen_write_bytes w src len buf :
  wthen w (frame_write_bytes src len) buf = wrun (w ;& bytes_put src len) buf.
Proof.
  unfold wrun, wthen, wseq, frame_write_bytes, bytes_put.
  destruct (w (obuf_of buf)) as [[[] o]|]; [|done|done].
  bcase; [done|]. by destruct (copy _ _ _ _ _).
Qed.

Definition crypto_ok (f : crypto_frame) : Prop :=
  is_u64 (cf_offset f) /\ 0 <= cf_length f <= zlen (cf_data f) /\ cf_length f < span_max.
Definition stream_ok (f : stream_frame) : Prop :=
  is_u64 (sf_stream_id f) /\ is_u64 (sf_offset f) /\ is_u8 (sf_fin f) /\
  0 <= sf_length f <= zlen (sf_data f) /\ sf_length f < span_max.
Definition conn_close_ok (f : conn_close_frame) : Prop :=
  is_u8 (cc_is_app f) /\ is_u64 (cc_error_code f) /\ is_u64 (cc_frame_type f) /\
  0 <= cc_reason_len f <= zlen (cc_reason f) /\ cc_reason_len f < span_max.
Definition new_token_ok (f : new_token_frame) : Prop :=
  0 <= nt_length f <= zlen (nt_token f) /\ nt_length f < span_max.
Definition ncid_ok (f : ncid_frame) : Prop :=
  is_u64 (nc_seq f) /\ is_u64 (nc_retire_prior_to f) /\ is_u8 (nc_cid_len f) /\
  zlen (nc_cid f) = NCID_MAX_LEN /\ zlen (nc_token f) = NCID_TOKEN.
Definition stream_data_ok (f : stream_data_frame) : Prop :=
  is_u64 (sd_stream_id f) /\ is_u64 (sd_value f).
Definition reset_stream_ok (f : reset_stream_frame) : Prop :=
  is_u64 (rs_stream_id f) /\ is_u64 (rs_error_code f) /\ is_u64 (rs_final_size f).
Definition stop_sending_ok (f : stop_sending_frame) : Prop :=
  is_u64 (ss_stream_id f) /\ is_u64 (ss_error_code f).
Definition reset_stream_at_ok (f : reset_stream_at_frame) : Prop :=
  is_u64 (rsat_stream_id f) /\ is_u64 (rsat_error_code f) /\ is_u64 (rsat_final_size f) /\
  is_u64 (rsat_reliable_size f).

Lemma is_u64_small x : 0 <= x < span_max -> is_u64 x.
Proof. unfold is_u64, span_max; lia. Qed.

Lemma put_crypto_wspec f :
  crypto_ok f -> wspec (put_crypto_hdr f ;& bytes_put (cf_data f) (cf_length f)) (crypto_wire f).
Proof.
  intros (H1 & H2 & H3). assert (is_u64 (cf_length f)) by (apply is_u64_small; lia).
  pose proof (bytes_put_wspec (cf_data f) (cf_length f) H2 H3).
  unfold put_crypto_hdr, crypto_wire. wsolve.
Qed.

Lemma stream_type_spec f :
  stream_type f = 0x0a + (if sf_offset f =? 0 then 0 else 4) + (if sf_fin f =? 0 then 0 else 1).
Proof. unfold stream_type. destruct (sf_offset f =? 0), (sf_fin f =? 0); done. Qed.

Lemma put_stream_wspec f :
  stream_ok f -> wspec (put_stream_hdr f ;& bytes_put (sf_data f) (sf_length f)) (stream_wire f).
Proof.
  intros (H1 & H2 & _ & H3 & H4). assert (is_u64 (sf_length f)) by (apply is_u64_small; lia).
  pose proof (bytes_put_wspec (sf_data f) (sf_length f) H3 H4).
  assert (is_u64 (stream_type f)).
  { rewrite stream_type_spec. unfold is_u64. repeat bcase; lia. }
  assert (wspec (put_opt_offset (sf_offset f))
            (if sf_offset f =? 0 then Some [] else varint_wire (sf_offset f)))
    by (apply wspec_if; auto with codec).
  unfold put_stream_hdr, put_stream_prefix, stream_wire. rewrite <- stream_type_spec. wsolve.
Qed.

Lemma put_conn_close_wspec f :
  conn_close_ok f ->
  wspec (put_cc_hdr f ;& bytes_put (cc_reason f) (cc_reason_len f)) (conn_close_wire f).
Proof.
  intros (H0 & H1 & H2 & H3 & H4). assert (is_u64 (cc_reason_len f)) by (apply is_u64_small; lia).
  pose proof (bytes_put_wspec (cc_reason f) (cc_reason_len f) H3 H4).
  unfold put_cc_hdr, put_cc_prefix, put_opt_frame_type, conn_close_wire.
  destruct (cc_is_app f =? 0); cbn [negb]; wsolve.
Qed.

Lemma put_one_varint_wspec type v :
  is_u64 type -> is_u64 v -> wspec (put_one_varint_frame type v) (one_varint_wire type v).
Proof. intros. unfold put_one_varint_frame, put_at, one_varint_wire. wsolve. Qed.
Lemma put_two_varint_wspec type f :
  is_u64 type -> stream_data_ok f -> wspec (put_two_varint_frame type f) (two_varint_wire type f).
Proof.
  intros ? [? ?]. unfold put_two_varint_frame, put_one_varint_frame, put_at, two_varint_wire. wsolve.
Qed.
Lemma put_reset_stream_wspec f :
  reset_stream_ok f -> wspec (put_rs_head f ;& put_rs_tail f) (reset_stream_wire f).
Proof. intros (? & ? & ?). unfold put_rs_head, put_rs_tail, reset_stream_wire. wsolve. Qed.
Lemma put_stop_sending_wspec f :
  stop_sending_ok f -> wspec (put_ss_head f ;& varint_put (ss_error_code f)) (stop_sending_wire f).
Proof. intros (? & ?). unfold put_ss_head, stop_sending_wire. wsolve. Qed.
Lemma put_reset_stream_at_wspec f :
  reset_stream_at_ok f -> rs_at_size_ok f = true ->
  wspec (put_rsat_body f) (reset_stream_at_wire f).
Proof.
  intros (? & ? & ? & ?) E. unfold put_rsat_body, put_rsat_head, put_rsat_tail,
    reset_stream_at_wire. rewrite E. wsolve.
Qed.
Lemma put_new_token_wspec f :
  new_token_ok f ->
  wspec (put_new_token_head (nt_length f) ;& bytes_put (nt_token f) (nt_length f)) (new_token_wire f).
Proof.
  intros (H1 & H2). assert (is_u64 (nt_length f)) by (apply is_u64_small; lia).
  pose proof (bytes_put_wspec (nt_token f) (nt_length f) H1 H2).
  unfold put_new_token_head, new_token_wire. wsolve.
Qed.
Lemma put_retire_cid_wspec seq :
  is_u64 seq -> wspec (varint_put FRAME_RETIRE_CID ;& varint_put seq) (retire_cid_wire seq).
Proof. intros. unfold retire_cid_wire. wsolve. Qed.
Lemma put_ncid_wspec f :
  ncid_ok f -> ncid_valid f = true -> wspec (put_ncid f) (ncid_wire f).
Proof.
  intros (? & ? & Hl & Hc & Ht) E. unfold ncid_wire. rewrite E.
  unfold ncid_valid, NCID_MAX_LEN, is_u8, NCID_TOKEN in *.
  pose proof (bytes_put_wspec (nc_cid f) (nc_cid_len f) ltac:(lia) ltac:(unfold span_max; lia)).
  pose proof (bytes_put_wspec (nc_token f) 16 ltac:(lia) ltac:(done)).
  unfold put_ncid, put_ncid_head, put_ncid_body. wsolve.
Qed.
End encoders.

(** ** Decoders read the layouts *)

Section decoders.
Import Frame FlowCtl StreamCtl ConnCtl Ncid.

(** Two frames agree on their fields and on the [length] bytes of data. *)
Definition crypto_same (f g : crypto_frame) : Prop :=
  cf_offset g = cf_offset f /\ cf_length g = cf_length f /\
  take (Z.to_nat (cf_length f)) (cf_data g) = take (Z.to_nat (cf_length f)) (cf_data f).
Definition stream_same (f g : stream_frame) : Prop :=
  sf_stream_id g = sf_stream_id f /\ sf_offset g = sf_offset f /\ sf_length g = sf_length f /\
  (sf_fin g = if sf_fin f =? 0 then 0 else 1) /\
  take (Z.to_nat (sf_length f)) (sf_data g) = take (Z.to_nat (sf_length f)) (sf_data f).
Definition conn_close_same (f g : conn_close_frame) : Prop :=
  (cc_is_app g = if cc_is_app f =? 0 then 0 else 1) /\ cc_error_code g = cc_error_code f /\
  (cc_frame_type g = if cc_is_app f =? 0 then cc_frame_type f else 0) /\
  cc_reason_len g = cc_reason_len f /\
  take (Z.to_nat (cc_reason_len f)) (cc_reason g) = take (Z.to_nat (cc_reason_len f)) (cc_reason f).
Definition new_token_same (f g : new_token_frame) : Prop :=
  nt_length g = nt_length f /\
  take (Z.to_nat (nt_length f)) (nt_token g) = take (Z.to_nat (nt_length f)) (nt_token f).
Definition ncid_same (f g : ncid_frame) : Prop :=
  nc_seq g = nc_seq f /\ nc_retire_prior_to g = nc_retire_prior_to f /\
  nc_cid_len g = nc_cid_len f /\
  take (Z.to_nat (nc_cid_len f)) (nc_cid g) = take (Z.to_nat (nc_cid_len f)) (nc_cid f) /\
  nc_token g = nc_token f.

Lemma varint_type t : 0 <= t <= 0x3F -> varint_bytes t = [t].
Proof. intros. unfold varint_bytes. bcases. by rewrite Z.mod_small by lia. Qed.

Definition get_crypto : R crypto_frame :=
  h <- take_crypto_hdr ;; data <- frame_view_end h.2 ;; rret (mk_crypto h.1 h.2 data).
Definition get_stream : R stream_frame :=
  t <- rbyte 0 ;;
  h <- take_stream_hdr_bounded ;;
  data <- frame_view_end h.2 ;;
  rret (mk_stream h.1.1 h.1.2 h.2 data (if negb (Z.land t STREAM_FIN =? 0) then 1 else 0)).
Definition get_conn_close : R conn_close_frame :=
  t <- rbyte 0 ;;
  let is_app := if t =? FRAME_CONN_CLOSE_APP then 1 else 0 in
  h <- take_cc_hdr is_app ;;
  reason <- frame_view_end h.2 ;;
  rret (mk_cc is_app h.1.1 h.1.2 h.2 reason).
Definition get_new_token : R new_token_frame :=
  len <- varint_take ;; tok <- take_token_view len ;; rret (mk_nt len tok).
Definition get_ncid (cid token : list Z) : R ncid_frame :=
  h <- take_ncid_head ;; b <- take_ncid_body cid token ;;
  rret (mk_ncid h.1 h.2 b.1.1 b.1.2 b.2).

Lemma zlen_data len d : 0 <= len <= zlen d -> len = zlen (take (Z.to_nat len) d : list Z).
Proof. intros. by rewrite zlen_take. Qed.

Lemma crypto_reads f l :
  crypto_ok f -> crypto_wire f = Some l ->
  exists bs, l = 0x06 :: bs /\ reads (first_is 0x06) get_crypto bs (crypto_same f).
Proof.
  intros ((? & _) & H2 & H3) Hl. unfold crypto_wire in Hl. ocat_inv Hl.
  rewrite (varint_type 6) by lia. eexists; split; [reflexivity|].
  unfold get_crypto, take_crypto_hdr. rewrite app_assoc.
  eapply reads_bind with (Q1 := eq (cf_offset f, cf_length f)); [typeclasses eauto| |].
  { rvarint. rewrite <- (app_nil_r (varint_bytes (cf_length f))). rvarint. by apply reads_ret. }
  intros ? <-. cbn [fst snd].
  eapply reads_bind_end; [typeclasses eauto|apply reads_view, zlen_data; lia|].
  intros d Hd. by apply reads_ret.
Qed.

Lemma stream_flags f :
  let t := 0x0a + (if sf_offset f =? 0 then 0 else 4) + (if sf_fin f =? 0 then 0 else 1) in
  0 <= t <= 0x3F /\ (Z.land t STREAM_OFF =? 0) = (sf_offset f =? 0) /\
  (Z.land t STREAM_LEN =? 0) = false /\ (Z.land t STREAM_FIN =? 0) = (sf_fin f =? 0).
Proof. destruct (sf_offset f =? 0), (sf_fin f =? 0); simpl; lia. Qed.

Lemma stream_bounds_ok_spec o l :
  0 <= o -> 0 <= l -> stream_bounds_ok o l = (o + l <=? 4611686018427387903).
Proof.
  intros. unfold stream_bounds_ok. change (u64 (Z.shiftl 1 62 - 1)) with 4611686018427387903.
  bcase; [lia|]. nowrap. lia.
Qed.

Lemma stream_hdr_reads t id offset len :
  (Z.land t STREAM_OFF =? 0) = (offset =? 0) -> (Z.land t STREAM_LEN =? 0) = false ->
  0 <= id <= VARINT_MAX -> 0 <= offset -> 0 <= len -> offset + len <= VARINT_MAX ->
  reads (first_is t) take_stream_hdr_bounded
    (varint_bytes id ++ (if offset =? 0 then [] else varint_bytes offset) ++ varint_bytes len)
    (eq (id, offset, len)).
Proof.
  intros Eoff Elen Hid Ho Hl Hb. unfold VARINT_MAX in Hb. unfold take_stream_hdr_bounded.
  eapply reads_bind_end with (Q1 := eq (id, offset, len)); [typeclasses eauto| |].
  2: { intros a <-. eapply reads_bind_end with (Q1 := fun _ => True); [typeclasses eauto| |].
       - apply reads_guard; [|done]. cbn. rewrite stream_bounds_ok_spec by lia. lia.
       - intros _ _. by apply reads_ret. }
  unfold take_stream_hdr. rvarint.
  eapply reads_bind with (Q1 := eq offset); [typeclasses eauto| |].
  - unfold take_opt_offset.
    eapply reads_bind_nil; [typeclasses eauto|apply reads_first|intros ? <-].
    rewrite Eoff. destruct (offset =? 0) eqn:E0; [apply reads_ret; lia|].
    apply reads_varint; unfold VARINT_MAX; lia.
  - intros ? <-. eapply reads_bind_end with (Q1 := eq len); [typeclasses eauto| |].
    + unfold take_opt_length.
      eapply reads_bind_nil; [typeclasses eauto|apply reads_first|intros ? <-].
      rewrite Elen. apply reads_varint; unfold VARINT_MAX; lia.
    + intros ? <-. by apply reads_ret.
Qed.

Lemma get_stream_reads f t :
  stream_ok f -> sf_stream_id f <= VARINT_MAX -> sf_offset f + sf_length f <= VARINT_MAX ->
  (Z.land t STREAM_OFF =? 0) = (sf_offset f =? 0) -> (Z.land t STREAM_LEN =? 0) = false ->
  (Z.land t STREAM_FIN =? 0) = (sf_fin f =? 0) ->
  reads (first_is t) get_stream
    (varint_bytes (sf_stream_id f) ++
     (if sf_offset f =? 0 then [] else varint_bytes (sf_offset f)) ++
     varint_bytes (sf_length f) ++ take (Z.to_nat (sf_length f)) (sf_data f)) (stream_same f).
Proof.
  intros ((? & _) & (? & _) & _ & H2 & H3) ? ? ? ? Efin. unfold get_stream.
  eapply reads_bind_nil; [typeclasses eauto|apply reads_first|intros ? <-].
  rewrite Efin, !app_assoc, <- (app_assoc (varint_bytes (sf_stream_id f))).
  eapply reads_bind; [typeclasses eauto|apply stream_hdr_reads; auto; lia|].
  intros ? <-. cbn [fst snd].
  eapply reads_bind_end; [typeclasses eauto|apply reads_view, zlen_data; lia|].
  intros d Hd. apply reads_ret. unfold stream_same. cbn. by destruct (sf_fin f =? 0).
Qed.

Lemma stream_reads f l :
  stream_ok f -> sf_offset f + sf_length f <= VARINT_MAX -> stream_wire f = Some l ->
  exists t bs, l = t :: bs /\ 0x0a <= t <= 0x0f /\
    reads (first_is t) get_stream bs (stream_same f).
Proof.
  intros Hok Hb Hl. pose proof Hok as (_ & (? & _) & _ & ? & _).
  destruct (stream_flags f) as (Ht & Eoff & Elen & Efin).
  exists (0x0a + (if sf_offset f =? 0 then 0 else 4) + (if sf_fin f =? 0 then 0 else 1)).
  assert ((if sf_offset f =? 0 then Some [] else varint_wire (sf_offset f)) =
          Some (if sf_offset f =? 0 then [] else varint_bytes (sf_offset f))) as Eob.
  { unfold varint_wire, VARINT_MAX in *. repeat bcase; lia || done. }
  unfold stream_wire in Hl. rewrite Eob in Hl. ocat_inv Hl.
  rewrite varint_type by done. eexists. split; [reflexivity|].
  split; [repeat bcase; lia|]. apply get_stream_reads; auto; lia.
Qed.

Lemma cc_hdr_reads F `{!prefix_stable F} is_app ec ft rl :
  0 <= ec <= VARINT_MAX -> (is_app = 0 -> 0 <= ft <= VARINT_MAX) -> 0 <= rl <= VARINT_MAX ->
  reads F (take_cc_hdr is_app)
    (varint_bytes ec ++ (if is_app =? 0 then varint_bytes ft else []) ++ varint_bytes rl)
    (eq (ec, (if is_app =? 0 then ft else 0), rl)).
Proof.
  intros ? Hft ?. unfold take_cc_hdr. rvarint.
  eapply reads_bind with (Q1 := eq (if is_app =? 0 then ft else 0)); [done| |].
  - unfold take_opt_frame_type. destruct (is_app =? 0) eqn:E; cbn [negb];
      [apply reads_varint, Hft; lia|by apply reads_ret].
  - intros ? <-. rewrite <- (app_nil_r (varint_bytes rl)). rvarint. by apply reads_ret.
Qed.

Lemma conn_close_reads f l :
  conn_close_ok f -> conn_close_wire f = Some l ->
  exists t bs, l = t :: bs /\ (t = if cc_is_app f =? 0 then 0x1c else 0x1d) /\
    reads (first_is t) get_conn_close bs (conn_close_same f).
Proof.
  intros (_ & (? & _) & (? & _) & H2 & H3) Hl.
  assert ((cc_is_app f =? 0) = true -> cc_frame_type f <= VARINT_MAX) as Hft.
  { intros E. revert Hl. unfold conn_close_wire, varint_wire, VARINT_MAX. rewrite E.
    destruct (cc_frame_type f <=? _) eqn:E2; [lia|]. repeat bcase; done. }
  assert ((if cc_is_app f =? 0 then varint_wire (cc_frame_type f) else Some []) =
     Some (if cc_is_app f =? 0 then varint_bytes (cc_frame_type f) else [])) as Eft.
  { destruct (cc_is_app f =? 0); [|done]. unfold varint_wire. specialize (Hft eq_refl). bcases. done. }
  unfold conn_close_wire in Hl. rewrite Eft in Hl. ocat_inv Hl.
  exists (if cc_is_app f =? 0 then 0x1c else 0x1d).
  rewrite varint_type by (bcase; lia). eexists. split; [reflexivity|]. split; [done|].
  unfold get_conn_close.
  eapply reads_bind_nil; [typeclasses eauto|apply reads_first|intros ? <-]. cbv zeta.
  set (a := if (if cc_is_app f =? 0 then 28 else 29) =? FRAME_CONN_CLOSE_APP then 1 else 0).
  assert ((a =? 0) = (cc_is_app f =? 0)) as Ea by (subst a; by destruct (cc_is_app f =? 0)).
  rewrite !app_assoc, <- (app_assoc (varint_bytes (cc_error_code f))), <- Ea.
  eapply reads_bind; [typeclasses eauto|apply cc_hdr_reads; try lia|].
  { typeclasses eauto. }
  intros ? <-. cbn [fst snd].
  eapply reads_bind_end; [typeclasses eauto|apply reads_view, zlen_data; lia|].
  intros d Hd. apply reads_ret. unfold conn_close_same. cbn. rewrite Ea. subst a.
  by destruct (cc_is_app f =? 0).
Qed.

Lemma one_varint_reads F v :
  0 <= v <= VARINT_MAX -> reads F get_one_varint_frame (varint_bytes v) (eq v).
Proof. intros. by apply reads_varint. Qed.

Lemma two_varint_reads F `{!prefix_stable F} f :
  0 <= sd_stream_id f <= VARINT_MAX -> 0 <= sd_value f <= VARINT_MAX ->
  reads F get_two_varint_frame (varint_bytes (sd_stream_id f) ++ varint_bytes (sd_value f)) (eq f).
Proof.
  intros. unfold get_two_varint_frame. rvarint.
  rewrite <- (app_nil_r (varint_bytes _)). rvarint. apply reads_ret. by destruct f.
Qed.

Lemma new_token_reads f l :
  new_token_ok f -> new_token_wire f = Some l ->
  exists bs, l = 0x07 :: bs /\ reads (first_is 0x07) get_new_token bs (new_token_same f).
Proof.
  intros (H1 & H2) Hl. unfold new_token_wire in Hl. ocat_inv Hl.
  rewrite varint_type by lia. eexists. split; [reflexivity|].
  unfold get_new_token. rvarint.
  eapply reads_bind_end; [typeclasses eauto|apply reads_view, zlen_data; lia|].
  intros d Hd. by apply reads_ret.
Qed.

Lemma reads_cid_len F b bs rest (k : bool -> R rest) Q :
  (1 <= b <= 20) -> reads F (k true) (b :: bs) Q ->
  reads F (rbind cid_len_ok k) (b :: bs) Q.
Proof.
  intros Hb Hk pre post HF Hl. destruct (Hk pre post HF Hl) as (a & E & HQ).
  exists a. split; [|done]. unfold rbind, cid_len_ok.
  pose proof (zlen_nonneg post). pose proof (zlen_nonneg bs).
  rewrite load_at. zlen_simpl. bcase; [lia|].
  rewrite u8_small by lia. unfold NCID_MAX_LEN.
  replace (b - 1 <? 20) with true by lia. done.
Qed.

Lemma ncid_reads f l cid token :
  ncid_ok f -> 1 <= nc_cid_len f -> zlen cid = NCID_MAX_LEN -> zlen token = NCID_TOKEN ->
  ncid_wire f = Some l ->
  exists bs, l = 0x18 :: bs /\ reads (first_is 0x18) (get_ncid cid token) bs (ncid_same f).
Proof.
  intros ((? & _) & (? & _) & Hu & Hc & Ht) Hn Hcid Htok Hl. unfold ncid_wire in Hl.
  destruct (ncid_valid f) eqn:Hv; [|done]. unfold ncid_valid, NCID_MAX_LEN, NCID_TOKEN in *.
  ocat_inv Hl. rewrite varint_type by lia. eexists. split; [reflexivity|].
  unfold get_ncid, take_ncid_head. rewrite app_assoc.
  eapply reads_bind with (Q1 := eq (nc_seq f, nc_retire_prior_to f)); [typeclasses eauto| |].
  { rvarint. rewrite <- (app_nil_r (varint_bytes (nc_retire_prior_to f))). rvarint. by apply reads_ret. }
  intros ? <-. cbn [fst snd]. cbn [app].
  assert (zlen (take (Z.to_nat (nc_cid_len f)) (nc_cid f)) = nc_cid_len f) as Hlc
    by (apply zlen_take; lia).
  assert (take 16 (nc_token f) = nc_token f) as Htk by (apply take_ge; unfold zlen in Ht; lia).
  rewrite Htk.
  eapply reads_bind_end with (Q1 := eq (nc_cid_len f,
    splice cid 0 (take (Z.to_nat (nc_cid_len f)) (nc_cid f)), splice token 0 (nc_token f)));
    [typeclasses eauto| |].
  - unfold take_ncid_body. apply reads_cid_len; [lia|].
    eapply reads_bind_nil with (Q1 := fun _ => True);
      [typeclasses eauto|by apply reads_guard|intros _ _].
    eapply (reads_bind _ _ _ [_]); [apply reads_next|intros ? <-].
    eapply reads_bind; [typeclasses eauto|apply reads_bytes_take; lia|intros ? <-].
    eapply reads_bind_end;
      [typeclasses eauto|apply reads_bytes_take; unfold NCID_TOKEN; lia|intros ? <-].
    by apply reads_ret.
  - intros ? <-. apply reads_ret. unfold ncid_same. cbn [fst snd nc_seq nc_retire_prior_to
      nc_cid_len nc_cid nc_token]. split_and!; try done.
    + pose proof (splice_0_take cid (take (Z.to_nat (nc_cid_len f)) (nc_cid f))) as E.
      rewrite Hlc in E. apply E. lia.
    + unfold splice. rewrite drop_ge by (unfold zlen in *; lia).
      rewrite app_nil_r. done.
Qed.
End decoders.

(** ** The codec contracts

    One contract per frame; [same] is equality where the frame has no data
    pointer. *)

Section contracts.
Import Frame FlowCtl StreamCtl ConnCtl Ncid.

Ltac rsteps := repeat (rewrite <- ?app_assoc; rvarint).

Lemma crypto_contract :
  codec_contract frame_put_crypto frame_get_crypto crypto_ok crypto_wire crypto_same.
Proof.
  apply contract_run with
    (w := fun f => put_crypto_hdr f ;& bytes_put (cf_data f) (cf_length f)) (r := get_crypto).
  - intros. apply wthen_write_bytes.
  - done.
  - apply put_crypto_wspec.
  - intros f l Hok Hl. destruct (crypto_reads f l Hok Hl) as (bs & ? & ?). eauto.
Qed.

(** A STREAM frame whose last byte is at an offset the receiver accepts. *)
Definition stream_sendable (f : stream_frame) : Prop :=
  stream_ok f /\ sf_offset f + sf_length f <= VARINT_MAX.

Lemma stream_contract :
  codec_contract frame_put_stream frame_get_stream stream_sendable stream_wire stream_same.
Proof.
  apply contract_run with
    (w := fun f => put_stream_hdr f ;& bytes_put (sf_data f) (sf_length f)) (r := get_stream).
  - intros. apply wthen_write_bytes.
  - done.
  - intros f [Hok _]. by apply put_stream_wspec.
  - intros f l [Hok Hb] Hl. destruct (stream_reads f l Hok Hb Hl) as (t & bs & ? & _ & ?). eauto.
Qed.

Lemma conn_close_contract :
  codec_contract frame_put_conn_close frame_get_conn_close conn_close_ok conn_close_wire
    conn_close_same.
Proof.
  apply contract_run with
    (w := fun f => put_cc_hdr f ;& bytes_put (cc_reason f) (cc_reason_len f)) (r := get_conn_close).
  - intros. apply wthen_write_bytes.
  - done.
  - apply put_conn_close_wspec.
  - intros f l Hok Hl. destruct (conn_close_reads f l Hok Hl) as (t & bs & ? & _ & ?). eauto.
Qed.

Lemma new_token_contract :
  codec_contract new_token_encode new_token_decode new_token_ok new_token_wire new_token_same.
Proof.
  apply contract_run with
    (w := fun f => put_new_token_head (nt_length f) ;& bytes_put (nt_token f) (nt_length f))
    (r := get_new_token).
  - done.
  - done.
  - apply put_new_token_wspec.
  - intros f l Hok Hl. destruct (new_token_reads f l Hok Hl) as (bs & ? & ?). eauto.
Qed.

(** The frames of one varint: [mk] builds the frame, [v] reads its field. *)
Lemma one_varint_contract {A} (mk : Z -> A) (v : A -> Z) type :
  0 <= type <= 0x3F -> (forall f, mk (v f) = f) ->
  codec_contract (fun buf f => wrun (put_one_varint_frame type (v f)) buf)
    (fun buf => (x <- get_one_varint_frame ;; rret (mk x)) buf 1)
    (fun f => is_u64 (v f)) (fun f => one_varint_wire type (v f)) eq.
Proof.
  intros Ht Hmk. apply contract_run with (w := fun f => put_one_varint_frame type (v f))
    (r := x <- get_one_varint_frame ;; rret (mk x)); [done|done| |].
  - intros f Hf. apply put_one_varint_wspec; [unfold is_u64; lia|done].
  - intros f l [? _] Hl. unfold one_varint_wire in Hl. ocat_inv Hl.
    rewrite varint_type by done. do 2 eexists. split; [reflexivity|].
    unfold get_one_varint_frame. rewrite <- (app_nil_r (varint_bytes _)). rvarint.
    apply reads_ret. by rewrite Hmk.
Qed.

Lemma two_varint_contract type :
  0 <= type <= 0x3F ->
  codec_contract (fun buf f => wrun (put_two_varint_frame type f) buf)
    (fun buf => get_two_varint_frame buf 1) stream_data_ok (two_varint_wire type) eq.
Proof.
  intros Ht. apply contract_run with (w := put_two_varint_frame type) (r := get_two_varint_frame);
    [done|done| |].
  - intros f Hf. apply put_two_varint_wspec; [unfold is_u64; lia|done].
  - intros f l [[? _] [? _]] Hl. unfold two_varint_wire in Hl. ocat_inv Hl.
    rewrite varint_type by done. do 2 eexists. split; [reflexivity|].
    apply two_varint_reads; [typeclasses eauto|lia|lia].
Qed.

(** The direction of a MAX_STREAMS or STREAMS_BLOCKED frame. *)
Definition streams_ok (f : streams_frame) : Prop :=
  is_u64 (st_max_streams f) /\ (st_uni f = 0 \/ st_uni f = 1).

Lemma streams_contract type :
  0 <= type < 0x3F -> Z.land type 1 = 0 ->
  codec_contract
    (fun buf f => wrun (put_one_varint_frame (streams_type type (st_uni f)) (st_max_streams f)) buf)
    (fun buf => (t <- rbyte 0 ;; v <- get_one_varint_frame ;; rret (mk_streams v (Z.land t 1))) buf 1)
    streams_ok (fun f => one_varint_wire (type + st_uni f) (st_max_streams f)) eq.
Proof.
  intros Ht Hev.
  assert (forall f, streams_ok f -> streams_type type (st_uni f) = type + st_uni f) as Hty.
  { intros f [_ Hu]. unfold streams_type. destruct Hu as [->| ->]; simpl; nowrap; lia. }
  apply contract_run with
    (w := fun f => put_one_varint_frame (streams_type type (st_uni f)) (st_max_streams f))
    (r := t <- rbyte 0 ;; v <- get_one_varint_frame ;; rret (mk_streams v (Z.land t 1)));
    [done|done| |].
  - intros f Hf. rewrite Hty by done. destruct Hf as [? Hu].
    apply put_one_varint_wspec; [unfold is_u64; lia|done].
  - intros f l [[? _] Hu] Hl. unfold one_varint_wire in Hl. ocat_inv Hl.
    rewrite varint_type by lia. do 2 eexists. split; [reflexivity|].
    eapply reads_bind_nil; [typeclasses eauto|apply reads_first|intros ? <-].
    unfold get_one_varint_frame. rewrite <- (app_nil_r (varint_bytes _)). rvarint.
    apply reads_ret. destruct f as [m u]; simpl in *. f_equal.
    rewrite land_1 in *. destruct Hu as [->| ->]; rewrite Z.add_mod, Hev by lia; done.
Qed.

Lemma reset_stream_contract :
  codec_contract reset_stream_encode reset_stream_decode reset_stream_ok reset_stream_wire eq.
Proof.
  apply contract_run with (w := fun f => put_rs_head f ;& put_rs_tail f)
    (r := h <- take_rs_head ;; fs <- varint_take ;; rret (mk_rs h.1 h.2 fs)); [done|done| |].
  - apply put_reset_stream_wspec.
  - intros f l ((? & _) & (? & _) & (? & _)) Hl. unfold reset_stream_wire in Hl. ocat_inv Hl.
    rewrite varint_type by lia. do 2 eexists. split; [reflexivity|].
    rewrite app_assoc. eapply reads_bind with (Q1 := eq (rs_stream_id f, rs_error_code f));
      [typeclasses eauto| |].
    { unfold take_rs_head. rewrite <- (app_nil_r (_ ++ _)). rsteps. by apply reads_ret. }
    intros ? <-. rewrite <- (app_nil_r (varint_bytes _)). rsteps. apply reads_ret. by destruct f.
Qed.

Lemma stop_sending_contract :
  codec_contract stop_sending_encode stop_sending_decode stop_sending_ok stop_sending_wire eq.
Proof.
  apply contract_run with (w := fun f => put_ss_head f ;& varint_put (ss_error_code f))
    (r := id <- varint_take ;; ec <- varint_take ;; rret (mk_ss id ec)); [done|done| |].
  - apply put_stop_sending_wspec.
  - intros f l ((? & _) & (? & _)) Hl. unfold stop_sending_wire in Hl. ocat_inv Hl.
    rewrite varint_type by lia. do 2 eexists. split; [reflexivity|].
    rewrite <- (app_nil_r (_ ++ _)). rsteps. apply reads_ret. by destruct f.
Qed.

Lemma reset_stream_at_contract :
  codec_contract reset_stream_at_encode reset_stream_at_decode reset_stream_at_ok
    reset_stream_at_wire eq.
Proof.
  apply contract_intro with
    (w := fun f => if rs_at_size_ok f then put_rsat_body f else wfalse)
    (r := f <- take_rsat_body ;; _ <- rguard (rs_at_size_ok f) ;; rret f).
  - intros f buf _. unfold reset_stream_at_wire, reset_stream_at_encode.
    by destruct (rs_at_size_ok f).
  - intros f buf _ _. unfold reset_stream_at_encode.
    destruct (rs_at_size_ok f); [by right|left; by exists buf].
  - done.
  - intros f Hf. destruct (rs_at_size_ok f) eqn:E; [by apply put_reset_stream_at_wspec|].
    unfold reset_stream_at_wire. rewrite E. apply wspec_false.
  - intros f l ((? & _) & (? & _) & (? & _) & (? & _)) Hl. unfold reset_stream_at_wire in Hl.
    destruct (rs_at_size_ok f) eqn:E; [|done]. ocat_inv Hl.
    rewrite varint_type by lia. do 2 eexists. split; [reflexivity|].
    eapply reads_bind_end with (Q1 := eq f); [typeclasses eauto| |].
    + unfold take_rsat_body. rewrite app_assoc.
      eapply reads_bind with (Q1 := eq (rsat_stream_id f, rsat_error_code f)); [typeclasses eauto| |].
      { unfold take_rsat_head. rewrite <- (app_nil_r (_ ++ _)). rsteps. by apply reads_ret. }
      intros ? <-. eapply reads_bind_end with (Q1 := eq (rsat_final_size f, rsat_reliable_size f));
        [typeclasses eauto| |].
      { unfold take_rsat_tail. rewrite <- (app_nil_r (_ ++ _)). rsteps. by apply reads_ret. }
      intros ? <-. apply reads_ret. by destruct f.
    + intros ? <-. eapply reads_bind_nil with (Q1 := fun _ => True);
        [typeclasses eauto|by apply reads_guard|intros _ _]. by apply reads_ret.
Qed.

Lemma retire_cid_contract :
  codec_contract retire_cid_encode retire_cid_decode is_u64 retire_cid_wire eq.
Proof.
  apply contract_run with (w := fun seq => varint_put FRAME_RETIRE_CID ;& varint_put seq)
    (r := varint_take); [done|done| |].
  - apply put_retire_cid_wspec.
  - intros f l (? & _) Hl. unfold retire_cid_wire in Hl. ocat_inv Hl.
    rewrite varint_type by lia. do 2 eexists. split; [reflexivity|]. apply reads_varint; lia.
Qed.

(** A NEW_CONNECTION_ID frame a peer can accept: 1 to 20 id bytes. *)
Definition ncid_sendable (f : ncid_frame) : Prop := ncid_ok f /\ 1 <= nc_cid_len f.

Lemma ncid_contract cid token :
  zlen cid = NCID_MAX_LEN -> zlen token = NCID_TOKEN ->
  codec_contract ncid_encode (ncid_decode cid token) ncid_sendable ncid_wire ncid_same.
Proof.
  intros Hc Ht. apply contract_intro with
    (w := fun f => if ncid_valid f then put_ncid f else wfalse) (r := get_ncid cid token).
  - intros f buf _. unfold ncid_wire, ncid_encode. by destruct (ncid_valid f).
  - intros f buf _ _. unfold ncid_encode.
    destruct (ncid_valid f); [by right|left; by exists buf].
  - done.
  - intros f [Hf _]. destruct (ncid_valid f) eqn:E; [by apply put_ncid_wspec|].
    unfold ncid_wire. rewrite E. apply wspec_false.
  - intros f l [Hf Hn] Hl. destruct (ncid_reads f l cid token Hf Hn Hc Ht Hl) as (bs & ? & ?). eauto.
Qed.

Definition path_reader (type : Z) : R (list Z) :=
  t <- rbyte 0 ;; _ <- rguard (t =? type) ;; bytes_take (replicate 8 0) PATH_DATA.

Lemma path_decode_reader type buf :
  0 < zlen buf -> path_decode buf type = path_reader type buf 1.
Proof.
  intros Hz. unfold path_decode, path_reader, type_is, rbind, rbyte, rguard. bcase; [lia|].
  destruct (load buf 0) as [b|]; [|done]. by destruct (b =? type).
Qed.

Lemma path_put_wspec type data :
  zlen data = 8 -> wspec (put_byte type ;& bytes_put data PATH_DATA) (Some (path_wire type data)).
Proof.
  intros Hd. pose proof (bytes_put_wspec data 8 ltac:(lia) ltac:(done)).
  eapply wspec_eq; [eauto with codec|done].
Qed.

Lemma path_contract type :
  is_u8 type ->
  codec_contract (fun buf data => path_encode buf type data) (fun buf => path_decode buf type)
    (fun data => zlen data = 8) (fun data => Some (path_wire type data)) eq.
Proof.
  intros Ht. apply contract_run with (w := fun data => put_byte type ;& bytes_put data PATH_DATA)
    (r := path_reader type).
  - intros f buf. unfold path_encode, wrun, wthen, wseq, put_byte, ocap. cbn [obuf_of op olen].
    pose proof (zlen_nonneg buf).
    bcase; [by replace (zlen buf <=? 0) with true by lia|].
    replace (zlen buf <=? 0) with false by lia.
    rewrite store_in by lia. osimpl. by destruct (bytes_put _ _ _) as [[[]]|].
  - intros. by apply path_decode_reader.
  - intros f Hf. by apply path_put_wspec.
  - intros f l Hf [= <-]. do 2 eexists. split; [reflexivity|]. unfold path_reader.
    eapply reads_bind_nil; [typeclasses eauto|apply reads_first|intros ? <-].
    eapply reads_bind_nil with (Q1 := fun _ => True);
      [typeclasses eauto|apply reads_guard; [lia|done]|intros _ _].
    assert (take 8 f = f) as -> by (apply take_ge; unfold zlen in Hf; lia).
    eapply reads_weaken; [apply (reads_bytes_take _ (replicate 8 0) f 8); [done|vm_compute; congruence]|].
    intros a <-. unfold splice. rewrite drop_ge by (unfold zlen in Hf; rewrite length_replicate; lia).
    by rewrite app_nil_r.
Qed.
End contracts.

(** ** Safety of the decoders on arbitrary input *)

Section safety.
Import Frame FlowCtl StreamCtl ConnCtl Ncid.

(** Split a reader into its steps; varints are in range. *)
Ltac rsafe_step :=
  match goal with
  | |- rsafe (rbind varint_take _) _ => eapply rsafe_bind; [apply rsafe_varint|let H := fresh in intros ? H; cbv beta in H]
  | |- rsafe (rbind (rbyte 0) _) _ => eapply rsafe_bind; [apply rsafe_first|intros ? ?]
  | |- rsafe (rbind (rguard _) _) _ => eapply rsafe_bind; [apply rsafe_guard|intros [] ?]
  | |- rsafe (rret _) _ => apply rsafe_ret
  | |- rsafe varint_take _ => apply rsafe_varint
  end.

Lemma rsafe_data_view len :
  0 <= len <= VARINT_MAX -> rsafe (frame_view_end len) (fun d => len <= zlen d).
Proof. intros. apply (rsafe_view len). unfold VARINT_MAX, span_max in *; lia. Qed.

Lemma crypto_safe :
  decoder_safe frame_get_crypto (fun f => 0 <= cf_offset f <= VARINT_MAX /\
    0 <= cf_length f <= zlen (cf_data f)).
Proof.
  apply decoder_safe_intro with (r := get_crypto); [done|]. unfold get_crypto, take_crypto_hdr.
  eapply rsafe_bind with (P := fun h => 0 <= h.1 <= VARINT_MAX /\ 0 <= h.2 <= VARINT_MAX).
  { repeat rsafe_step. done. }
  intros h [? ?]. eapply rsafe_bind; [by apply rsafe_data_view|intros d Hd].
  cbv beta in Hd. rsafe_step. cbn. lia.
Qed.

Lemma take_stream_hdr_safe :
  rsafe take_stream_hdr_bounded (fun h => 0 <= h.1.1 <= VARINT_MAX /\ 0 <= h.1.2 /\ 0 <= h.2 /\
    h.1.2 + h.2 <= VARINT_MAX).
Proof.
  unfold take_stream_hdr_bounded.
  eapply rsafe_bind with (P := fun h => 0 <= h.1.1 <= VARINT_MAX /\ 0 <= h.1.2 <= VARINT_MAX /\ 0 <= h.2).
  - unfold take_stream_hdr. rsafe_step.
    eapply rsafe_bind with (P := fun o => 0 <= o <= VARINT_MAX).
    { unfold take_opt_offset. rsafe_step. apply rsafe_if; intros _; rsafe_step.
      unfold VARINT_MAX; lia. }
    intros o Ho; cbv beta in Ho. eapply rsafe_bind with (P := fun n => 0 <= n).
    { unfold take_opt_length. rsafe_step. apply rsafe_if; intros _.
      - intros inp off [_ ?] _ ?. unfold span_max in *. nowrap. lia.
      - eapply rsafe_weaken; [apply rsafe_varint|]. cbn; lia. }
    intros n Hn; cbv beta in Hn. rsafe_step. cbn. lia.
  - intros h (? & ? & ?). eapply rsafe_bind; [apply rsafe_guard|intros [] Hg].
    rewrite stream_bounds_ok_spec in Hg by lia. rsafe_step. unfold VARINT_MAX in *. lia.
Qed.

(** What a decoded STREAM frame satisfies: its bytes are inside the packet
    and its last offset is below 2^62. *)
Lemma stream_safe :
  decoder_safe frame_get_stream (fun f => 0 <= sf_stream_id f <= VARINT_MAX /\
    0 <= sf_offset f /\ 0 <= sf_length f <= zlen (sf_data f) /\
    sf_offset f + sf_length f <= VARINT_MAX /\ (sf_fin f = 0 \/ sf_fin f = 1)).
Proof.
  apply decoder_safe_intro with (r := get_stream); [done|]. unfold get_stream. rsafe_step.
  eapply rsafe_bind; [apply take_stream_hdr_safe|intros h (? & ? & ? & ?)].
  eapply rsafe_bind; [apply rsafe_data_view; lia|intros d Hd; cbv beta in Hd].
  rsafe_step. cbn. split_and!; try lia. bcases.
Qed.

Lemma conn_close_safe :
  decoder_safe frame_get_conn_close (fun f => (cc_is_app f = 0 \/ cc_is_app f = 1) /\
    0 <= cc_error_code f <= VARINT_MAX /\ 0 <= cc_reason_len f <= zlen (cc_reason f)).
Proof.
  apply decoder_safe_intro with (r := get_conn_close); [done|]. unfold get_conn_close. rsafe_step.
  cbv zeta.
  eapply rsafe_bind with (P := fun h => 0 <= h.1.1 <= VARINT_MAX /\ 0 <= h.2 <= VARINT_MAX).
  { unfold take_cc_hdr. rsafe_step. eapply rsafe_bind with (P := fun _ => True).
    - unfold take_opt_frame_type. apply rsafe_if; intros _; [by rsafe_step|].
      eapply rsafe_weaken; [apply rsafe_varint|done].
    - intros ? _. repeat rsafe_step. done. }
  intros h [? ?]. eapply rsafe_bind; [apply rsafe_data_view; lia|intros d Hd; cbv beta in Hd].
  rsafe_step. cbn. split_and!; try lia. bcases.
Qed.

Lemma new_token_safe :
  decoder_safe new_token_decode (fun f => 0 <= nt_length f <= zlen (nt_token f)).
Proof.
  apply decoder_safe_intro with (r := get_new_token); [done|]. unfold get_new_token. rsafe_step.
  eapply rsafe_bind; [by apply rsafe_data_view|intros d Hd; cbv beta in Hd]. rsafe_step. cbn. lia.
Qed.

Lemma take_ncid_body_safe cid token :
  zlen cid = NCID_MAX_LEN -> zlen token = NCID_TOKEN -> bytes_ok cid -> bytes_ok token ->
  rsafe (take_ncid_body cid token)
    (fun b => 1 <= b.1.1 <= NCID_MAX_LEN /\ zlen b.1.2 = NCID_MAX_LEN /\ zlen b.2 = NCID_TOKEN).
Proof.
  unfold NCID_MAX_LEN, NCID_TOKEN. intros Hc Ht Hbc Hbt inp off Hi Hz Ho.
  unfold take_ncid_body, rbind at 1, cid_len_ok. bcase.
  { unfold rbind, rguard. done. }
  destruct (load_is_Some inp off) as [b Hb]; [lia|]. rewrite Hb.
  destruct Hi as [Hok Hl]. pose proof (bytes_ok_lookup _ _ _ Hok Hb) as Hu. unfold is_u8 in Hu.
  unfold NCID_MAX_LEN. destruct (u8 (b - 1) <? 20) eqn:E; [|done].
  assert (1 <= b <= 20) as Hr.
  { unfold u8 in E. destruct (Z.eq_dec b 0) as [->|]; [done|].
    rewrite Z.mod_small in E by lia. lia. }
  unfold rbind at 1, rguard. unfold rbind at 1, rnext. rewrite Hb.
  assert (rsafe (cid' <- bytes_take cid b ;; token' <- bytes_take token NCID_TOKEN ;;
     rret (b, cid', token')) (fun x => 1 <= x.1.1 <= 20 /\ zlen x.1.2 = 20 /\ zlen x.2 = 16)) as Hs.
  { eapply rsafe_bind; [apply rsafe_bytes_take; unfold span_max; try done; lia|intros c [? ?]].
    eapply rsafe_bind; [apply rsafe_bytes_take; unfold span_max, NCID_TOKEN; try done; lia|intros t [? ?]].
    rsafe_step. cbn. lia. }
  specialize (Hs inp (off + 1) ltac:(by split) Hz ltac:(lia)).
  destruct (rbind _ _ _ _) as [[x o]| |]; intuition lia.
Qed.

Lemma ncid_safe cid token :
  zlen cid = NCID_MAX_LEN -> zlen token = NCID_TOKEN -> bytes_ok cid -> bytes_ok token ->
  decoder_safe (ncid_decode cid token) (fun f => 1 <= nc_cid_len f <= NCID_MAX_LEN /\
    zlen (nc_cid f) = NCID_MAX_LEN /\ zlen (nc_token f) = NCID_TOKEN).
Proof.
  intros. apply decoder_safe_intro with (r := get_ncid cid token); [done|].
  unfold get_ncid. eapply rsafe_bind with (P := fun _ => True).
  { unfold take_ncid_head. repeat rsafe_step. done. }
  intros h _. eapply rsafe_bind; [by apply take_ncid_body_safe|intros b ?].
  rsafe_step. cbn. done.
Qed.

Lemma one_varint_safe {A} (mk : Z -> A) :
  decoder_safe (fun buf => (x <- get_one_varint_frame ;; rret (mk x)) buf 1)
    (fun f => exists v, f = mk v /\ 0 <= v <= VARINT_MAX).
Proof.
  apply decoder_safe_intro with (r := x <- get_one_varint_frame ;; rret (mk x)); [done|].
  unfold get_one_varint_frame. repeat rsafe_step. eauto.
Qed.

Lemma two_varint_safe :
  decoder_safe (fun buf => get_two_varint_frame buf 1)
    (fun f => 0 <= sd_stream_id f <= VARINT_MAX /\ 0 <= sd_value f <= VARINT_MAX).
Proof.
  apply decoder_safe_intro with (r := get_two_varint_frame); [done|].
  unfold get_two_varint_frame, get_one_varint_frame. repeat rsafe_step. done.
Qed.

Lemma streams_safe :
  decoder_safe max_streams_decode
    (fun f => 0 <= st_max_streams f <= VARINT_MAX /\ (st_uni f = 0 \/ st_uni f = 1)).
Proof.
  apply decoder_safe_intro with
    (r := t <- rbyte 0 ;; v <- get_one_varint_frame ;; rret (mk_streams v (Z.land t 1))); [done|].
  unfold get_one_varint_frame. repeat rsafe_step. cbn. split; [done|].
  rewrite land_1. match goal with |- context [?a mod _] => pose proof (Z.mod_pos_bound a 2 eq_refl) end.
  lia.
Qed.

Lemma reset_stream_safe :
  decoder_safe reset_stream_decode (fun f => 0 <= rs_final_size f <= VARINT_MAX).
Proof.
  apply decoder_safe_intro with
    (r := h <- take_rs_head ;; fs <- varint_take ;; rret (mk_rs h.1 h.2 fs)); [done|].
  eapply rsafe_bind with (P := fun _ => True).
  { unfold take_rs_head. repeat rsafe_step. done. }
  intros h _. repeat rsafe_step. done.
Qed.

Lemma stop_sending_safe :
  decoder_safe stop_sending_decode (fun f => 0 <= ss_stream_id f <= VARINT_MAX).
Proof.
  apply decoder_safe_intro with
    (r := id <- varint_take ;; ec <- varint_take ;; rret (mk_ss id ec)); [done|].
  repeat rsafe_step. done.
Qed.

Lemma reset_stream_at_safe :
  decoder_safe reset_stream_at_decode (fun f => rsat_reliable_size f <= rsat_final_size f <= VARINT_MAX).
Proof.
  apply decoder_safe_intro with
    (r := f <- take_rsat_body ;; _ <- rguard (rs_at_size_ok f) ;; rret f); [done|].
  eapply rsafe_bind with (P := fun f => rsat_final_size f <= VARINT_MAX).
  { unfold take_rsat_body, take_rsat_head, take_rsat_tail.
    eapply rsafe_bind with (P := fun _ => True); [repeat rsafe_step; done|intros h _].
    eapply rsafe_bind with (P := fun t => t.1 <= VARINT_MAX); [repeat rsafe_step; cbn; lia|intros t ?].
    by rsafe_step. }
  intros f Hf; cbv beta in Hf. eapply rsafe_bind; [apply rsafe_guard|intros [] Hg; cbv beta in Hg].
  rsafe_step. unfold rs_at_size_ok in *. lia.
Qed.

Lemma retire_cid_safe : decoder_safe retire_cid_decode (fun seq => 0 <= seq <= VARINT_MAX).
Proof. apply decoder_safe_intro with (r := varint_take); [done|apply rsafe_varint]. Qed.

Lemma path_safe type : decoder_safe (fun buf => path_decode buf type) (fun d => zlen d = 8).
Proof.
  apply decoder_safe_intro with (r := path_reader type); [intros; by apply path_decode_reader|].
  unfold path_reader. repeat rsafe_step.
  eapply rsafe_weaken; [apply rsafe_bytes_take; unfold PATH_DATA, span_max; vm_compute; try done|].
  - repeat constructor; vm_compute; congruence.
  - cbn. intros d [? _]. done.
Qed.
End safety.

(** ** Properties of the frame codecs *)

Import Frame FlowCtl StreamCtl ConnCtl Ncid.

(** C29: STREAM frames.  For every frame whose fields are in range,
    [frame_put_stream] writes exactly the RFC 9000 19.8 layout when it fits the
    buffer and otherwise returns 0, never leaving the buffer; and
    [frame_get_stream], on that layout followed by any bytes, returns a frame
    with the same stream id, offset, FIN bit and data, and consumes exactly
    the layout. *)
Theorem stream_frame_codec :
  codec_contract frame_put_stream frame_get_stream stream_sendable stream_wire stream_same.
Proof. exact stream_contract. Qed.

Lemma stream_frame_codec_witness :
  let f := mk_stream 4 70 3 [1; 2; 3] 1 in
  frame_put_stream (replicate 9 0) f = Some (8, [15; 4; 64; 70; 3; 1; 2; 3; 0]) /\
  exists g, frame_get_stream [15; 4; 64; 70; 3; 1; 2; 3; 9; 9] = Ok (g, 8) /\ stream_same f g.
Proof.
  intros f.
  destruct (stream_frame_codec f (replicate 9 0)) as [(l & Hl & _ & He & Hd)|(_ & b & E & _)].
  - split; [|vm_compute; congruence].
    repeat split; vm_compute; congruence.
  - reflexivity.
  - vm_compute in Hl. apply (inj Some) in Hl as <-. split; [exact He|].
    apply (Hd [9; 9]). reflexivity.
  - vm_compute in E. discriminate E.
Defined.

(** The other frames that carry bytes.  CRYPTO, CONNECTION_CLOSE (both
    types), NEW_TOKEN, NEW_CONNECTION_ID and PATH_CHALLENGE/PATH_RESPONSE meet
    the codec contract: the encoder writes the layout or returns 0, and the
    decoder returns the frame and its exact length whatever follows it. *)
Theorem data_frame_codecs cid token type :
  zlen cid = NCID_MAX_LEN -> zlen token = NCID_TOKEN -> is_u8 type ->
  codec_contract frame_put_crypto frame_get_crypto crypto_ok crypto_wire crypto_same /\
  codec_contract frame_put_conn_close frame_get_conn_close conn_close_ok conn_close_wire
    conn_close_same /\
  codec_contract new_token_encode new_token_decode new_token_ok new_token_wire new_token_same /\
  codec_contract ncid_encode (ncid_decode cid token) ncid_sendable ncid_wire ncid_same /\
  codec_contract (fun buf d => path_encode buf type d) (fun buf => path_decode buf type)
    (fun d => zlen d = 8) (fun d => Some (path_wire type d)) eq.
Proof.
  intros. split_and!; auto using crypto_contract, conn_close_contract, new_token_contract,
    ncid_contract, path_contract.
Qed.

Lemma data_frame_codecs_witness :
  let f := mk_ncid 1 0 1 (7 :: replicate 19 0) (replicate 16 5) in
  let l := [24; 1; 0; 1; 7] ++ replicate 16 5 in
  ncid_encode (replicate 24 0) f = Some (21, l ++ [0; 0; 0]) /\
  exists g, ncid_decode (replicate 20 0) (replicate 16 0) (l ++ [9]) = Ok (g, 21) /\ ncid_same f g.
Proof.
  intros f l0.
  destruct (data_frame_codecs (replicate 20 0) (replicate 16 0) 0x1a) as (_ & _ & _ & H & _);
    [reflexivity|reflexivity|split; vm_compute; congruence|].
  destruct (H f (replicate 24 0)) as [(l & Hl & _ & He & Hd)|(_ & b & E & _)].
  - split; [|vm_compute; congruence]. repeat split; vm_compute; congruence.
  - reflexivity.
  - vm_compute in Hl. apply (inj Some) in Hl as <-. split; [exact He|].
    apply (Hd [9]). reflexivity.
  - vm_compute in E. discriminate E.
Defined.

(** The control frames.  MAX_DATA, DATA_BLOCKED, MAX_STREAM_DATA,
    STREAM_DATA_BLOCKED, MAX_STREAMS, STREAMS_BLOCKED, RESET_STREAM,
    STOP_SENDING, RESET_STREAM_AT and RETIRE_CONNECTION_ID meet the codec
    contract with equality of frames: decoding what was encoded gives the very
    frame back, and a RESET_STREAM_AT whose reliable size exceeds its final
    size is refused. *)
Theorem control_frame_codecs :
  codec_contract max_data_encode max_data_decode (fun f => is_u64 (df_value f))
    (fun f => one_varint_wire 0x10 (df_value f)) eq /\
  codec_contract data_blocked_encode data_blocked_decode (fun f => is_u64 (df_value f))
    (fun f => one_varint_wire 0x14 (df_value f)) eq /\
  codec_contract max_stream_data_encode max_stream_data_decode stream_data_ok
    (two_varint_wire 0x11) eq /\
  codec_contract stream_data_blocked_encode stream_data_blocked_decode stream_data_ok
    (two_varint_wire 0x15) eq /\
  codec_contract max_streams_encode max_streams_decode streams_ok
    (fun f => one_varint_wire (0x12 + st_uni f) (st_max_streams f)) eq /\
  codec_contract streams_blocked_encode streams_blocked_decode streams_ok
    (fun f => one_varint_wire (0x16 + st_uni f) (st_max_streams f)) eq /\
  codec_contract reset_stream_encode reset_stream_decode reset_stream_ok reset_stream_wire eq /\
  codec_contract stop_sending_encode stop_sending_decode stop_sending_ok stop_sending_wire eq /\
  codec_contract reset_stream_at_encode reset_stream_at_decode reset_stream_at_ok
    reset_stream_at_wire eq /\
  codec_contract retire_cid_encode retire_cid_decode is_u64 retire_cid_wire eq.
Proof.
  split_and!.
  - apply (one_varint_contract mk_data df_value 0x10); [lia|by intros []].
  - apply (one_varint_contract mk_data df_value 0x14); [lia|by intros []].
  - apply (two_varint_contract 0x11). lia.
  - apply (two_varint_contract 0x15). lia.
  - apply (streams_contract 0x12); [lia|done].
  - apply (streams_contract 0x16); [lia|done].
  - apply reset_stream_contract.
  - apply stop_sending_contract.
  - apply reset_stream_at_contract.
  - apply retire_cid_contract.
Qed.

Lemma control_frame_codecs_witness :
  reset_stream_at_encode (replicate 6 0) (mk_rsat 4 1 9 10) = Some (0, replicate 6 0) /\
  reset_stream_at_decode [0x24; 4; 1; 10; 9; 0] = Ok (mk_rsat 4 1 10 9, 5).
Proof.
  destruct control_frame_codecs as (_ & _ & _ & _ & _ & _ & _ & _ & H & _).
  destruct (H (mk_rsat 4 1 10 9) (replicate 6 0)) as [(l & Hl & _ & He & Hd)|(_ & b & E & _)].
  - repeat split; vm_compute; congruence.
  - reflexivity.
  - split; [reflexivity|]. vm_compute in Hl. apply (inj Some) in Hl as <-.
    destruct (Hd [0]) as (g & Eg & <-); [reflexivity|exact Eg].
  - vm_compute in E. discriminate E.
Defined.
