(* ===== verification/Ack.v ===== *)
(** * The ACK frame (src/src/transport/packet/frame/frame/ack.c, ack_take.c)

    RFC 9000 19.3.  An ACK frame is a descending walk over packet numbers:
    the largest one, the length of the first range, then (gap, length) pairs.
    The encoder is proved against that layout, the decoder is proved to invert
    it, and on arbitrary bytes to return only descending, disjoint,
    non-adjacent ranges. *)

From stdpp Require Import base numbers list option.
From Stdlib Require Import ZArith Lia.
From S2P Require Import Prelude Bytes Varint Frames.

Definition FRAME_ACK : Z := 0x02.
Definition FRAME_ACK_ECN : Z := 0x03.
(* src/src/transport/packet/frame/frame/ack.h : ACK_MAX_RANGES *)
Definition ACK_MAX_RANGES : Z := 32.

(* src/src/transport/packet/frame/frame/ack.h : ack_range *)
Record ack_range := mk_range { r_hi : Z; r_lo : Z }.

(** [af_ranges] is the array of [ACK_MAX_RANGES] slots, of which the first
    [af_n_ranges] are in use. *)
(* src/src/transport/packet/frame/frame/ack.h : ack_frame *)
Record ack_frame := mk_ack {
  af_ack_delay : Z; af_n_ranges : Z; af_ranges : list ack_range;
  af_has_ecn : Z; af_ect0 : Z; af_ect1 : Z; af_ce : Z }.

#[export] Instance ack_range_eq_dec : EqDecision ack_range.
Proof. solve_decision. Defined.

(** ** ack.c: the encoder *)

(* src/src/transport/packet/frame/frame/ack.c : put_pair *)
Definition put_pair (prev cur : ack_range) : W :=
  varint_put (u64 (r_lo prev - r_hi cur - 2)) ;& varint_put (u64 (r_hi cur - r_lo cur)).

(* src/src/transport/packet/frame/frame/ack.c : ack_type *)
Definition ack_type (f : ack_frame) : Z :=
  if negb (af_has_ecn f =? 0) then FRAME_ACK_ECN else FRAME_ACK.

(** A step that reads slot [i] of the array. *)
Definition with_range (f : ack_frame) (i : Z) (k : ack_range -> W) : W := fun o =>
  match load (af_ranges f) i with Some r => k r o | None => None end.

(* src/src/transport/packet/frame/frame/ack.c : put_ack_meta *)
Definition put_ack_meta (f : ack_frame) : W :=
  varint_put (ack_type f)
  ;& with_range f 0 (fun r0 => varint_put (r_hi r0))
  ;& varint_put (af_ack_delay f).

(* src/src/transport/packet/frame/frame/ack.c : put_two *)
Definition put_two (a b : Z) : W := varint_put a ;& varint_put b.

(* src/src/transport/packet/frame/frame/ack.c : put_ack_ecn *)
Definition put_ack_ecn (f : ack_frame) : W :=
  if af_has_ecn f =? 0 then wtrue
  else put_two (af_ect0 f) (af_ect1 f) ;& varint_put (af_ce f).

(* src/src/transport/packet/frame/frame/ack.c : put_ack_head *)
Definition put_ack_head (f : ack_frame) : W :=
  put_ack_meta f
  ;& with_range f 0 (fun r0 => put_two (u64 (af_n_ranges f - 1)) (u64 (r_hi r0 - r_lo r0))).

(** [for (i = 1; i < n; i++) if (!put_pair(..)) ok = 0;] with [k] rounds left
    from index [i]. *)
Fixpoint put_ack_pairs_loop (f : ack_frame) (i : Z) (k : nat) : W :=
  match k with
  | O => wtrue
  | S k' =>
      wboth (with_range f (i - 1) (fun p => with_range f i (fun c => put_pair p c)))
            (put_ack_pairs_loop f (i + 1) k')
  end.

(* src/src/transport/packet/frame/frame/ack.c : put_ack_pairs *)
Definition put_ack_pairs (f : ack_frame) : W :=
  put_ack_pairs_loop f 1 (Z.to_nat (af_n_ranges f - 1)).

(* src/src/transport/packet/frame/frame/ack.c : ranges_ok *)
Definition ranges_ok (n : Z) : bool := negb (n =? 0) && (n <=? ACK_MAX_RANGES).

(* src/src/transport/packet/frame/frame/ack.c : put_ack_pairs_ecn *)
Definition put_ack_pairs_ecn (f : ack_frame) : W := put_ack_pairs f ;& put_ack_ecn f.

(* src/src/transport/packet/frame/frame/ack.c : put_ack_body *)
Definition put_ack_body (f : ack_frame) : W := put_ack_head f ;& put_ack_pairs_ecn f.

(* src/src/transport/packet/frame/frame/ack.c : ack_encode *)
Definition ack_encode (buf : list Z) (f : ack_frame) : option (Z * list Z) :=
  if negb (ranges_ok (af_n_ranges f)) then Some (0, buf) else wrun (put_ack_body f) buf.

(** ** ack.c, ack_take.c: the decoder *)

(* src/src/transport/packet/frame/frame/ack_impl.h : ackdec *)
Record ackdec := mk_ackdec { d_largest : Z; d_ack_delay : Z; d_count : Z; d_first : Z }.

(* src/src/transport/packet/frame/frame/ack.c : take_ack_meta *)
Definition take_ack_meta : R (Z * Z * Z) :=
  largest <- varint_take ;; delay <- varint_take ;; count <- varint_take ;;
  rret (largest, delay, count).

(* src/src/transport/packet/frame/frame/ack.c : take_first *)
Definition take_first (largest : Z) : R Z :=
  first <- varint_take ;; _ <- rguard (first <=? largest) ;; rret first.

(** The prologue; [ranges] is the array of the frame struct before the call. *)
(* src/src/transport/packet/frame/frame/ack.c : ack_take_ack_head *)
Definition ack_take_ack_head (ranges : list ack_range) : R (ackdec * list ack_range) :=
  m <- take_ack_meta ;;
  first <- take_first m.1.1 ;;
  fun inp off =>
    match store ranges 0 (mk_range m.1.1 (u64 (m.1.1 - first))) with
    | Some ranges' => Ok ((mk_ackdec m.1.1 m.1.2 m.2 first, ranges'), off)
    | None => Oob
    end.

(* src/src/transport/packet/frame/frame/ack_take.c : pair_fits *)
Definition pair_fits (prev_lo gap len : Z) : bool :=
  (u64 (gap + 2) <=? prev_lo) && (len <=? u64 (prev_lo - gap - 2)).

(* src/src/transport/packet/frame/frame/ack_take.c : take_two *)
Definition take_two : R (Z * Z) :=
  a <- varint_take ;; b <- varint_take ;; rret (a, b).

(* src/src/transport/packet/frame/frame/ack_take.c : pair_slot *)
Definition pair_slot (i : Z) : option Z := if i <? ACK_MAX_RANGES then Some i else None.

(* src/src/transport/packet/frame/frame/ack_take.c : pair_store *)
Definition pair_store (ranges : list ack_range) (cur : option Z) (hi lo : Z)
    : option (list ack_range) :=
  match cur with
  | None => Some ranges
  | Some i => store ranges i (mk_range hi lo)
  end.

(* src/src/transport/packet/frame/frame/ack_take.c : take_pair *)
Definition take_pair (ranges : list ack_range) (prev_lo : Z) (cur : option Z)
    : R (Z * list ack_range) :=
  gl <- take_two ;;
  _ <- rguard (pair_fits prev_lo gl.1 gl.2) ;;
  let hi := u64 (prev_lo - gl.1 - 2) in
  fun inp off =>
    match pair_store ranges cur hi (u64 (hi - gl.2)) with
    | Some ranges' => Ok ((u64 (hi - gl.2), ranges'), off)
    | None => Oob
    end.

(** [for (i = 1; i <= count; i++)]: every round that goes on consumed two
    bytes, so [fuel] above the length of the input is never used up; running
    out is [Oob], which the safety theorem excludes. *)
Fixpoint take_ack_pairs_loop (fuel : nat) (i count prev_lo : Z) (ranges : list ack_range)
    : R (list ack_range) :=
  if count <? i then rret ranges
  else
    match fuel with
    | O => fun _ _ => Oob
    | S fuel' =>
        p <- take_pair ranges prev_lo (pair_slot i) ;;
        take_ack_pairs_loop fuel' (i + 1) count p.1 p.2
    end.

(* src/src/transport/packet/frame/frame/ack_take.c : take_ack_pairs *)
Definition take_ack_pairs (count : Z) (ranges : list ack_range) : R (list ack_range) :=
  fun inp off =>
    match load ranges 0 with
    | Some r0 => take_ack_pairs_loop (length inp) 1 count (r_lo r0) ranges inp off
    | None => Oob
    end.

(* src/src/transport/packet/frame/frame/ack_take.c : ranges_kept *)
Definition ranges_kept (count : Z) : Z :=
  if u64 (count + 1) <=? ACK_MAX_RANGES then u64 (count + 1) else ACK_MAX_RANGES.

(* src/src/transport/packet/frame/frame/ack_take.c : take_ack_ecn *)
Definition take_ack_ecn (has_ecn : Z) : R (Z * Z * Z) :=
  if has_ecn =? 0 then rret (0, 0, 0)
  else e <- take_two ;; ce <- varint_take ;; rret (e.1, e.2, ce).

(* src/src/transport/packet/frame/frame/ack_take.c : take_ack_rest *)
Definition take_ack_rest (has_ecn count : Z) (ranges : list ack_range)
    : R (list ack_range * (Z * Z * Z)) :=
  rs <- take_ack_pairs count ranges ;; e <- take_ack_ecn has_ecn ;; rret (rs, e).

Definition get_ack (ranges : list ack_range) : R ack_frame :=
  t <- rbyte 0 ;;
  let has_ecn := if t =? FRAME_ACK_ECN then 1 else 0 in
  h <- ack_take_ack_head ranges ;;
  r <- take_ack_rest has_ecn (d_count h.1) h.2 ;;
  rret (mk_ack (d_ack_delay h.1) (ranges_kept (d_count h.1)) r.1 has_ecn r.2.1.1 r.2.1.2 r.2.2).

(* src/src/transport/packet/frame/frame/ack_take.c : ack_decode *)
Definition ack_decode (ranges : list ack_range) (buf : list Z) : res (ack_frame * Z) :=
  get_ack ranges buf 1.

(** ** The layout (RFC 9000 19.3, 19.3.1, 19.3.2) *)

Definition ack_used (f : ack_frame) : list ack_range := take (Z.to_nat (af_n_ranges f)) (af_ranges f).

Definition range_ok (r : ack_range) : bool :=
  (0 <=? r_lo r) && (r_lo r <=? r_hi r) && (r_hi r <=? VARINT_MAX).

(** The (gap, length) pairs below a range that ends at [prev_lo]; [None] when
    the ranges are not descending with a gap between them. *)
Fixpoint pairs_wire (prev_lo : Z) (rs : list ack_range) : option (list Z) :=
  match rs with
  | [] => Some []
  | r :: rs' =>
      if (r_hi r + 2 <=? prev_lo) && (r_lo r <=? r_hi r) then
        ocat [varint_wire (prev_lo - r_hi r - 2); varint_wire (r_hi r - r_lo r);
              pairs_wire (r_lo r) rs']
      else None
  end.

Definition ecn_wire (f : ack_frame) : option (list Z) :=
  if af_has_ecn f =? 0 then Some []
  else ocat [varint_wire (af_ect0 f); varint_wire (af_ect1 f); varint_wire (af_ce f)].

Definition ack_wire (f : ack_frame) : option (list Z) :=
  match ack_used f with
  | [] => None
  | r0 :: rs =>
      if r_lo r0 <=? r_hi r0 then
        ocat [varint_wire (if af_has_ecn f =? 0 then 0x02 else 0x03);
              varint_wire (r_hi r0); varint_wire (af_ack_delay f);
              varint_wire (zlen rs); varint_wire (r_hi r0 - r_lo r0);
              pairs_wire (r_lo r0) rs; ecn_wire f]
      else None
  end.

(** What a well-formed list of acknowledged ranges is: each a non-empty range
    of packet numbers, in descending order with at least one packet missing
    between neighbours. *)
Definition ranges_wf (rs : list ack_range) : Prop :=
  Forall (fun r => range_ok r = true) rs /\
  forall i a b, rs !! i = Some a -> rs !! S i = Some b -> r_hi b + 2 <= r_lo a.

(** The packet numbers an ACK frame acknowledges. *)
Definition acks (rs : list ack_range) (pn : Z) : Prop :=
  exists r, r ∈ rs /\ r_lo r <= pn <= r_hi r.

(** A frame as the sender builds it: the ranges array has its 32 slots, the
    counters are 64-bit, packet numbers are below 2^62. *)
Definition ack_ok (f : ack_frame) : Prop :=
  is_u64 (af_ack_delay f) /\ zlen (af_ranges f) = ACK_MAX_RANGES /\
  0 <= af_n_ranges f <= ACK_MAX_RANGES /\
  Forall (fun r => 0 <= r_lo r <= VARINT_MAX /\ 0 <= r_hi r <= VARINT_MAX) (ack_used f) /\
  is_u64 (af_ect0 f) /\ is_u64 (af_ect1 f) /\ is_u64 (af_ce f).

Definition ack_same (f g : ack_frame) : Prop :=
  af_ack_delay g = af_ack_delay f /\ ack_used g = ack_used f /\
  (af_has_ecn g = if af_has_ecn f =? 0 then 0 else 1) /\
  (af_has_ecn f <> 0 -> af_ect0 g = af_ect0 f /\ af_ect1 g = af_ect1 f /\ af_ce g = af_ce f).

(** ** The encoder writes the layout *)

Lemma with_range_wspec f i k r ob :
  load (af_ranges f) i = Some r -> wspec (k r) ob -> wspec (with_range f i k) ob.
Proof. intros Hr Hk o Ho. unfold with_range. rewrite Hr. by apply Hk. Qed.

(** A difference of packet numbers that would be negative wraps to a value no
    varint holds. *)
Lemma varint_wire_u64 x :
  -0x4000000000000002 <= x <= VARINT_MAX ->
  varint_wire (u64 x) = if 0 <=? x then varint_wire x else None.
Proof.
  unfold VARINT_MAX. intros Hx. bcase; [by nowrap|].
  assert (u64 x = x + 18446744073709551616) as ->.
  { unfold u64. rewrite <- (Z.mod_add _ 1) by lia. apply Z.mod_small. lia. }
  unfold varint_wire, VARINT_MAX. by replace (x + 18446744073709551616 <=? 0x3FFFFFFFFFFFFFFF) with false by lia.
Qed.

Definition in_pn_space (r : ack_range) : Prop :=
  0 <= r_lo r <= VARINT_MAX /\ 0 <= r_hi r <= VARINT_MAX.

Lemma put_pair_wspec p c :
  in_pn_space p -> in_pn_space c ->
  wspec (put_pair p c)
    (if (r_hi c + 2 <=? r_lo p) && (r_lo c <=? r_hi c) then
       ocat [varint_wire (r_lo p - r_hi c - 2); varint_wire (r_hi c - r_lo c)] else None).
Proof.
  unfold in_pn_space. intros [? ?] [? ?]. unfold put_pair.
  eapply wspec_eq.
  - apply wspec_seq; apply varint_put_wspec; unfold is_u64; apply u64_range.
  - rewrite !varint_wire_u64 by (unfold VARINT_MAX in *; lia).
    destruct (r_hi c + 2 <=? r_lo p) eqn:E1, (r_lo c <=? r_hi c) eqn:E2; cbn [andb];
      (replace (0 <=? r_lo p - r_hi c - 2) with (r_hi c + 2 <=? r_lo p) by lia);
      (replace (0 <=? r_hi c - r_lo c) with (r_lo c <=? r_hi c) by lia); rewrite E1, E2;
      [ocat_norm| |done|done].
    by destruct (varint_wire _).
Qed.

Lemma pairs_wire_cons prev r rs :
  pairs_wire prev (r :: rs) =
    oapp (if (r_hi r + 2 <=? prev) && (r_lo r <=? r_hi r) then
       ocat [varint_wire (prev - r_hi r - 2); varint_wire (r_hi r - r_lo r)] else None)
      (pairs_wire (r_lo r) rs).
Proof.
  cbn [pairs_wire]. bcase; [|done]. unfold ocat. cbn [foldr].
  rewrite !oapp_nil_r, oapp_assoc. done.
Qed.

Lemma put_ack_pairs_loop_wspec f k : forall i p rest,
  drop i (af_ranges f) = p :: rest -> (k <= length rest)%nat ->
  in_pn_space p -> Forall in_pn_space (take k rest) ->
  wspec (put_ack_pairs_loop f (Z.of_nat i + 1) k) (pairs_wire (r_lo p) (take k rest)).
Proof.
  induction k as [|k IH]; intros i p rest Hd Hk Hp Hr; [apply wspec_true|].
  destruct rest as [|c rest]; [simpl in Hk; lia|]. cbn [take] in *.
  apply Forall_cons_1 in Hr as [Hc Hr]. rewrite pairs_wire_cons. cbn [put_ack_pairs_loop].
  assert (drop (S i) (af_ranges f) = c :: rest) as Hd'.
  { replace (S i) with (i + 1)%nat by lia. by rewrite <- drop_drop, Hd. }
  apply wspec_both.
  - apply (with_range_wspec f _ _ p); [|apply (with_range_wspec f _ _ c); [|by apply put_pair_wspec]].
    + replace (Z.of_nat i + 1 - 1) with (Z.of_nat i) by lia. by eapply load_drop.
    + replace (Z.of_nat i + 1) with (Z.of_nat (S i)) by lia. by eapply load_drop.
  - replace (Z.of_nat i + 1 + 1) with (Z.of_nat (S i) + 1) by lia.
    apply IH; [done|simpl in Hk; lia|done|done].
Qed.

Lemma put_ack_ecn_wspec f :
  is_u64 (af_ect0 f) -> is_u64 (af_ect1 f) -> is_u64 (af_ce f) ->
  wspec (put_ack_ecn f) (ecn_wire f).
Proof. intros. unfold put_ack_ecn, ecn_wire, put_two. bcase; wsolve. Qed.

Lemma ack_used_cons f r0 rs :
  ack_ok f -> ack_used f = r0 :: rs ->
  load (af_ranges f) 0 = Some r0 /\ exists rest, drop 0 (af_ranges f) = r0 :: rest /\
    rs = take (Z.to_nat (af_n_ranges f - 1)) rest /\ (Z.to_nat (af_n_ranges f - 1) <= length rest)%nat /\
    zlen rs = af_n_ranges f - 1.
Proof.
  intros (_ & Hl & Hn & _) Hu. unfold ack_used, ACK_MAX_RANGES in *.
  destruct (af_ranges f) as [|x rest] eqn:E; [by rewrite take_nil in Hu|].
  destruct (Z.to_nat (af_n_ranges f)) as [|m] eqn:Em; [done|]. cbn [take] in Hu. simplify_eq.
  assert (Z.to_nat (af_n_ranges f - 1) = m) as -> by lia.
  split; [done|]. exists rest. split_and!; [done|done| |].
  - rewrite zlen_cons in Hl. unfold zlen in Hl. lia.
  - rewrite zlen_cons in Hl. unfold zlen in *. rewrite length_take. lia.
Qed.

Lemma ack_type_spec f : ack_type f = if af_has_ecn f =? 0 then 0x02 else 0x03.
Proof. unfold ack_type. by destruct (af_has_ecn f =? 0). Qed.

Lemma put_ack_wspec f :
  ack_ok f -> af_n_ranges f <> 0 -> wspec (put_ack_body f) (ack_wire f).
Proof.
  intros Hok Hn0. destruct (ack_used f) as [|r0 rs] eqn:Eu.
  { exfalso. destruct Hok as (_ & Hl & Hn & _). unfold ack_used, ACK_MAX_RANGES, zlen in *.
    apply (f_equal length) in Eu. rewrite length_take in Eu. simpl in Eu. lia. }
  destruct (ack_used_cons f r0 rs Hok Eu) as (Hr0 & rest & Hd & Hrs & Hlen & Hz).
  destruct Hok as (Hdl & _ & Hn & Hall & ? & ? & ?). rewrite Eu in Hall.
  apply Forall_cons_1 in Hall as [Hp Hall]. pose proof Hp as [? ?].
  assert (wspec (put_ack_pairs f) (pairs_wire (r_lo r0) rs)) as Hpairs.
  { unfold put_ack_pairs. rewrite Hrs. apply (put_ack_pairs_loop_wspec f _ 0 r0 rest); try done.
    by rewrite <- Hrs. }
  pose proof (put_ack_ecn_wspec f ltac:(done) ltac:(done) ltac:(done)) as Hecn.
  assert (wspec (with_range f 0 (fun r0 => varint_put (r_hi r0))) (varint_wire (r_hi r0))) as Hhi.
  { eapply with_range_wspec; [done|]. apply varint_put_wspec. unfold is_u64, VARINT_MAX in *. lia. }
  assert (wspec (with_range f 0 (fun r0 => put_two (u64 (af_n_ranges f - 1)) (u64 (r_hi r0 - r_lo r0))))
    (oapp (varint_wire (zlen rs)) (if r_lo r0 <=? r_hi r0 then varint_wire (r_hi r0 - r_lo r0) else None))) as Htwo.
  { eapply with_range_wspec; [done|]. unfold put_two, ACK_MAX_RANGES in *.
    eapply wspec_eq; [apply wspec_seq; apply varint_put_wspec; unfold is_u64; apply u64_range|].
    rewrite !varint_wire_u64 by (unfold VARINT_MAX in *; lia). rewrite Hz.
    replace (0 <=? af_n_ranges f - 1) with true by lia.
    by replace (0 <=? r_hi r0 - r_lo r0) with (r_lo r0 <=? r_hi r0) by lia. }
  assert (is_u64 (ack_type f)) by (rewrite ack_type_spec; unfold is_u64; bcase; lia).
  unfold put_ack_body, put_ack_head, put_ack_meta, put_ack_pairs_ecn, ack_wire. rewrite Eu.
  eapply wspec_eq; [eauto 20 with codec|]. rewrite ack_type_spec.
  destruct (r_lo r0 <=? r_hi r0); [ocat_norm|].
  destruct (varint_wire _), (varint_wire _), (varint_wire _), (varint_wire _); done.
Qed.

(** ** The decoder reads the layout *)

Lemma pair_fits_spec prev gap len :
  0 <= prev <= VARINT_MAX -> 0 <= gap <= VARINT_MAX -> 0 <= len ->
  pair_fits prev gap len = (gap + 2 + len <=? prev).
Proof.
  unfold VARINT_MAX, pair_fits. intros. rewrite (u64_small (gap + 2)) by lia.
  destruct (gap + 2 <=? prev) eqn:E; cbn [andb]; nowrap; lia.
Qed.

Definition pairs_bytes (prev_lo : Z) (rs : list ack_range) : list Z :=
  default [] (pairs_wire prev_lo rs).

Lemma oapp_Some a b l : oapp a b = Some l -> exists x y, a = Some x /\ b = Some y /\ l = x ++ y.
Proof. destruct a, b; simpl; intros; simplify_eq; eauto. Qed.

Lemma varint_wire_Some v l : varint_wire v = Some l -> v <= VARINT_MAX /\ l = varint_bytes v.
Proof. unfold varint_wire. bcases; intros; simplify_eq. split; [lia|done]. Qed.

Lemma pairs_wire_inv prev r rs l :
  pairs_wire prev (r :: rs) = Some l ->
  r_hi r + 2 <= prev /\ r_lo r <= r_hi r /\ exists l', pairs_wire (r_lo r) rs = Some l' /\
    l = varint_bytes (prev - r_hi r - 2) ++ varint_bytes (r_hi r - r_lo r) ++ l'.
Proof.
  rewrite pairs_wire_cons. intros (x & y & Hx & Hy & ->)%oapp_Some. revert Hx. bcase; [|done].
  unfold ocat. cbn [foldr]. intros (a & b & Ha & Hb & ->)%oapp_Some.
  rewrite oapp_nil_r in Hb. apply varint_wire_Some in Ha as [_ ->], Hb as [_ ->].
  split_and!; [lia|lia|]. exists y. by rewrite app_assoc.
Qed.

(** Each pair takes at least two bytes. *)
Lemma pairs_wire_length rs : forall prev l, pairs_wire prev rs = Some l -> 2 * zlen rs <= zlen l.
Proof.
  induction rs as [|r rs IH]; intros prev l Hl; [simplify_eq/=; done|].
  apply pairs_wire_inv in Hl as (_ & _ & l' & Hl' & ->). zlen_simpl.
  specialize (IH _ _ Hl'). pose proof (varint_bytes_pos (prev - r_hi r - 2)).
  pose proof (varint_bytes_pos (r_hi r - r_lo r)). lia.
Qed.

Lemma take_pair_reads F `{!prefix_stable F} ranges prev i r :
  0 <= prev <= VARINT_MAX -> 0 <= r_lo r <= r_hi r -> r_hi r + 2 <= prev ->
  1 <= i < ACK_MAX_RANGES -> zlen ranges = ACK_MAX_RANGES ->
  reads F (take_pair ranges prev (pair_slot i))
    (varint_bytes (prev - r_hi r - 2) ++ varint_bytes (r_hi r - r_lo r))
    (eq (r_lo r, <[Z.to_nat i := r]> ranges)).
Proof.
  unfold VARINT_MAX. intros Hp Hr Hg Hi Hl. unfold take_pair.
  eapply reads_bind_end with (Q1 := eq (prev - r_hi r - 2, r_hi r - r_lo r)); [done| |].
  { unfold take_two. rewrite <- (app_nil_r (_ ++ _)), <- app_assoc.
    eapply reads_bind; [done|apply reads_varint; unfold VARINT_MAX; lia|intros ? <-].
    eapply reads_bind; [done|apply reads_varint; unfold VARINT_MAX; lia|intros ? <-].
    by apply reads_ret. }
  intros ? <-. cbn [fst snd].
  eapply reads_bind_nil with (Q1 := fun _ => True); [done| |intros _ _].
  { apply reads_guard; [|done]. rewrite pair_fits_spec by (unfold VARINT_MAX; lia). lia. }
  intros pre post _ _. eexists. split; [|reflexivity]. cbv zeta.
  rewrite (u64_small (prev - _ - 2)) by lia.
  replace (prev - (prev - r_hi r - 2) - 2) with (r_hi r) by lia.
  replace (r_hi r - (r_hi r - r_lo r)) with (r_lo r) by lia. rewrite u64_small by lia.
  unfold pair_store, pair_slot. replace (i <? ACK_MAX_RANGES) with true by lia.
  rewrite store_in by lia. rewrite zlen_nil, Z.add_0_r. by destruct r.
Qed.

Lemma take_ack_pairs_loop_reads F `{!prefix_stable F} rs : forall l fuel i prev ranges count,
  pairs_wire prev rs = Some l -> 0 <= prev <= VARINT_MAX ->
  Forall (fun r => 0 <= r_lo r) rs ->
  1 <= i -> i + zlen rs <= ACK_MAX_RANGES -> zlen ranges = ACK_MAX_RANGES ->
  count = i + zlen rs - 1 -> (length rs <= fuel)%nat ->
  reads F (take_ack_pairs_loop fuel i count prev ranges) l (eq (splice ranges i rs)).
Proof.
  induction rs as [|r rs IH]; intros l fuel i prev ranges count Hl Hp Hlo Hi Hm Hz -> Hf.
  { cbn in Hl. simplify_eq. destruct fuel; cbn [take_ack_pairs_loop]; rewrite zlen_nil;
      (bcase; [|lia]); apply reads_ret; by rewrite splice_nil. }
  apply pairs_wire_inv in Hl as (Hg & Hr & l' & Hl' & ->).
  apply Forall_cons_1 in Hlo as [Hlo0 Hlo]. rewrite zlen_cons in Hm |- *.
  pose proof (zlen_nonneg rs). destruct fuel as [|fuel]; [simpl in Hf; lia|].
  cbn [take_ack_pairs_loop]. bcase; [lia|]. rewrite app_assoc.
  eapply reads_bind; [done|apply take_pair_reads; try done; lia|intros ? <-]. cbn [fst snd].
  eapply reads_weaken.
  - apply (IH l' fuel (i + 1) (r_lo r)); try done; try lia.
    + by rewrite zlen_insert.
    + simpl in Hf; lia.
  - intros a <-. symmetry. apply splice_cons_store; lia.
Qed.

Lemma ack_head_reads F `{!prefix_stable F} ranges hi delay count first :
  0 <= hi <= VARINT_MAX -> 0 <= delay <= VARINT_MAX -> 0 <= count <= VARINT_MAX ->
  0 <= first <= hi -> zlen ranges = ACK_MAX_RANGES ->
  reads F (ack_take_ack_head ranges)
    (varint_bytes hi ++ varint_bytes delay ++ varint_bytes count ++ varint_bytes first)
    (eq (mk_ackdec hi delay count first, <[0%nat := mk_range hi (hi - first)]> ranges)).
Proof.
  unfold VARINT_MAX. intros Hh Hd Hc Hf Hz. unfold ack_take_ack_head.
  rewrite (app_assoc (varint_bytes delay)), (app_assoc (varint_bytes hi)).
  eapply reads_bind with (Q1 := eq (hi, delay, count)); [done| |].
  { unfold take_ack_meta. rewrite <- (app_nil_r (_ ++ _)), <- !app_assoc.
    do 3 (eapply reads_bind; [done|apply reads_varint; unfold VARINT_MAX; lia|intros ? <-]).
    by apply reads_ret. }
  intros ? <-. cbn [fst snd].
  eapply reads_bind_end with (Q1 := eq first); [done| |].
  { unfold take_first. eapply reads_bind_end; [done|apply reads_varint; unfold VARINT_MAX; lia|intros ? <-].
    eapply reads_bind_nil with (Q1 := fun _ => True); [done|apply reads_guard; [lia|done]|intros _ _].
    by apply reads_ret. }
  intros ? <- pre post _ _. unfold ACK_MAX_RANGES in Hz.
  rewrite store_in by lia. rewrite (u64_small (hi - first)) by lia.
  eexists. split; [|reflexivity]. rewrite (zlen_nil (A := Z)), Z.add_0_r. done.
Qed.

Lemma ecn_reads F `{!prefix_stable F} f l has :
  ecn_wire f = Some l -> 0 <= af_ect0 f -> 0 <= af_ect1 f -> 0 <= af_ce f ->
  (has =? 0) = (af_has_ecn f =? 0) ->
  reads F (take_ack_ecn has) l
    (eq (if af_has_ecn f =? 0 then (0, 0, 0) else (af_ect0 f, af_ect1 f, af_ce f))).
Proof.
  intros Hl ? ? ? Hh. unfold take_ack_ecn, ecn_wire in *. rewrite Hh.
  destruct (af_has_ecn f =? 0); [simplify_eq; by apply reads_ret|].
  ocat_inv Hl. rewrite app_assoc.
  eapply reads_bind with (Q1 := eq (af_ect0 f, af_ect1 f)); [done| |].
  { unfold take_two. rewrite <- (app_nil_r (_ ++ _)), <- !app_assoc.
    do 2 (eapply reads_bind; [done|apply reads_varint; lia|intros ? <-]). by apply reads_ret. }
  intros ? <-. eapply reads_bind_end; [done|apply reads_varint; lia|intros ? <-].
  by apply reads_ret.
Qed.

Lemma take_ack_pairs_reads F `{!prefix_stable F} ranges r0 rs l :
  pairs_wire (r_lo r0) rs = Some l -> 0 <= r_lo r0 <= VARINT_MAX ->
  Forall (fun r => 0 <= r_lo r) rs -> 1 + zlen rs <= ACK_MAX_RANGES ->
  zlen ranges = ACK_MAX_RANGES -> load ranges 0 = Some r0 ->
  reads F (take_ack_pairs (zlen rs) ranges) l (eq (splice ranges 1 rs)).
Proof.
  intros Hl H0 Hlo Hm Hz Hr0 pre post HF Hs. unfold take_ack_pairs. rewrite Hr0.
  pose proof (pairs_wire_length _ _ _ Hl) as Hlen.
  eapply (take_ack_pairs_loop_reads F rs l _ 1); try done; try lia.
  rewrite !length_app. unfold zlen in Hlen. lia.
Qed.

Lemma splice_used (ranges : list ack_range) r0 rs :
  zlen ranges = ACK_MAX_RANGES -> 1 + zlen rs <= ACK_MAX_RANGES ->
  take (Z.to_nat (1 + zlen rs)) (splice (<[0%nat := r0]> ranges) 1 rs) = r0 :: rs.
Proof.
  unfold ACK_MAX_RANGES. intros Hz Hm. pose proof (zlen_nonneg rs).
  rewrite splice_take by (rewrite ?zlen_insert; lia).
  destruct ranges; [done|]. cbn. done.
Qed.

Definition ack_bytes (f : ack_frame) (r0 : ack_range) (rs : list ack_range) (lp le : list Z) : list Z :=
  varint_bytes (r_hi r0) ++ varint_bytes (af_ack_delay f) ++ varint_bytes (zlen rs) ++
  varint_bytes (r_hi r0 - r_lo r0) ++ lp ++ le.

Lemma ack_wire_inv f l r0 rs :
  ack_used f = r0 :: rs -> ack_wire f = Some l ->
  exists lp le, pairs_wire (r_lo r0) rs = Some lp /\ ecn_wire f = Some le /\
    r_lo r0 <= r_hi r0 /\ r_hi r0 <= VARINT_MAX /\ af_ack_delay f <= VARINT_MAX /\
    l = (if af_has_ecn f =? 0 then 0x02 else 0x03) :: ack_bytes f r0 rs lp le.
Proof.
  intros Hu Hl. unfold ack_wire in Hl. rewrite Hu in Hl.
  destruct (r_lo r0 <=? r_hi r0) eqn:E; [|done]. unfold ocat in Hl. cbn [foldr] in Hl.
  rewrite oapp_nil_r in Hl.
  repeat match goal with
  | H : oapp _ _ = Some _ |- _ => apply oapp_Some in H as (? & ? & ? & ? & ->)
  | H : varint_wire _ = Some _ |- _ => apply varint_wire_Some in H as [? ->]
  end.
  do 2 eexists. split_and!; try done; try lia. unfold ack_bytes.
  rewrite varint_type by (bcase; lia). done.
Qed.

Lemma get_ack_reads ranges f r0 rs lp le t :
  ack_ok f -> ack_used f = r0 :: rs -> zlen ranges = ACK_MAX_RANGES ->
  pairs_wire (r_lo r0) rs = Some lp -> ecn_wire f = Some le ->
  r_lo r0 <= r_hi r0 -> r_hi r0 <= VARINT_MAX -> af_ack_delay f <= VARINT_MAX ->
  ((if t =? FRAME_ACK_ECN then 1 else 0) =? 0) = (af_has_ecn f =? 0) ->
  reads (first_is t) (get_ack ranges) (ack_bytes f r0 rs lp le) (ack_same f).
Proof.
  intros Hok Hu Hz Hlp Hle Hr Hhi Hdl Ht.
  destruct (ack_used_cons f r0 rs Hok Hu) as (_ & _ & _ & _ & _ & Hn).
  destruct Hok as ((? & _) & _ & Hm & Hall & (? & _) & (? & _) & (? & _)). rewrite Hu in Hall.
  apply Forall_cons_1 in Hall as [[? ?] Hall]. unfold get_ack, ack_bytes.
  pose proof (zlen_nonneg rs). unfold ACK_MAX_RANGES in Hm.
  eapply reads_bind_nil; [typeclasses eauto|apply reads_first|intros ? <-]. cbv zeta.
  rewrite (app_assoc (varint_bytes (zlen rs))), (app_assoc (varint_bytes (af_ack_delay f))),
    (app_assoc (varint_bytes (r_hi r0))).
  eapply reads_bind; [typeclasses eauto| |].
  { apply ack_head_reads; [typeclasses eauto|unfold VARINT_MAX in *; lia..|done]. }
  intros ? <-. cbn [fst snd d_count d_ack_delay].
  replace (r_hi r0 - (r_hi r0 - r_lo r0)) with (r_lo r0) by lia.
  eapply reads_bind_end with (Q1 := eq (splice (<[0%nat := mk_range (r_hi r0) (r_lo r0)]> ranges) 1 rs,
    if af_has_ecn f =? 0 then (0, 0, 0) else (af_ect0 f, af_ect1 f, af_ce f))); [typeclasses eauto| |].
  - unfold take_ack_rest. eapply reads_bind; [typeclasses eauto| |].
    { apply (take_ack_pairs_reads _ _ (mk_range (r_hi r0) (r_lo r0))); try done; try lia.
      - eapply Forall_impl; [|exact Hall]. intros r [[? _] _]. done.
      - unfold ACK_MAX_RANGES; lia.
      - by rewrite zlen_insert.
      - unfold load. apply list_lookup_insert_eq. unfold ACK_MAX_RANGES, zlen in Hz. lia. }
    intros ? <-. eapply reads_bind_end; [typeclasses eauto|apply ecn_reads; try done; typeclasses eauto|intros ? <-].
    by apply reads_ret.
  - intros ? <-. apply reads_ret. unfold ack_same, ack_used. cbn.
    unfold ranges_kept. rewrite (u64_small (zlen rs + 1)) by lia. unfold ACK_MAX_RANGES.
    replace (zlen rs + 1 <=? 32) with true by lia. rewrite (Z.add_comm (zlen rs) 1).
    rewrite splice_used by (unfold ACK_MAX_RANGES in *; lia). fold (ack_used f). rewrite Hu.
    split_and!; [done|by destruct r0| |].
    + destruct (af_has_ecn f =? 0), (t =? FRAME_ACK_ECN); done.
    + intros Hne. replace (af_has_ecn f =? 0) with false by lia. done.
Qed.

Lemma ack_contract ranges :
  zlen ranges = ACK_MAX_RANGES ->
  codec_contract ack_encode (ack_decode ranges) ack_ok ack_wire ack_same.
Proof.
  intros Hz. apply contract_intro with
    (w := fun f => if ranges_ok (af_n_ranges f) then put_ack_body f else wfalse)
    (r := get_ack ranges).
  - intros f buf Hok Hw. unfold ack_encode. destruct (ranges_ok _) eqn:E; [done|].
    exfalso. apply Hw. destruct Hok as (_ & _ & Hm & _). unfold ranges_ok, ack_wire, ack_used in *.
    by assert (af_n_ranges f = 0) as -> by lia.
  - intros f buf _ _. unfold ack_encode. destruct (ranges_ok _); [by right|left; by exists buf].
  - done.
  - intros f Hok. destruct (ranges_ok _) eqn:E; [apply put_ack_wspec; [done|unfold ranges_ok in E; lia]|].
    destruct Hok as (_ & _ & Hm & _). unfold ranges_ok, ack_wire, ack_used in *.
    assert (af_n_ranges f = 0) as -> by lia. apply wspec_false.
  - intros f l Hok Hl. destruct (ack_used f) as [|r0 rs] eqn:Hu.
    { unfold ack_wire in Hl. by rewrite Hu in Hl. }
    destruct (ack_wire_inv f l r0 rs Hu Hl) as (lp & le & Hlp & Hle & ? & ? & ? & ->).
    do 2 eexists. split; [reflexivity|]. eapply get_ack_reads; try done.
    by destruct (af_has_ecn f =? 0).
Qed.

(** ** The decoder on arbitrary input *)

Lemma ranges_wf_snoc rs r :
  ranges_wf rs -> range_ok r = true ->
  (forall a, rs !! (length rs - 1)%nat = Some a -> r_hi r + 2 <= r_lo a) -> ranges_wf (rs ++ [r]).
Proof.
  intros [Hf Hg] Hr Hlast. split; [apply Forall_app; auto|].
  intros i a b Ha Hb. destruct (decide (S i < length rs)%nat).
  - rewrite lookup_app_l in Ha, Hb by lia. eauto.
  - destruct (decide (S i = length rs)) as [E|].
    + rewrite lookup_app_l in Ha by lia. rewrite lookup_app_r in Hb by lia.
      replace (S i - length rs)%nat with O in Hb by lia. simpl in Hb. simplify_eq.
      apply Hlast. by replace (length rs - 1)%nat with i by lia.
    + apply lookup_lt_Some in Hb. rewrite length_app in Hb. simpl in Hb. lia.
Qed.

(** One step of the pair loop: two varints, a new low end further down. *)
Lemma take_two_safe inp off :
  span_ok inp -> 0 <= off <= zlen inp ->
  match take_two inp off with
  | Ok (gl, off') => off + 2 <= off' <= zlen inp /\
      0 <= gl.1 <= VARINT_MAX /\ 0 <= gl.2 <= VARINT_MAX
  | Fail => True
  | Oob => False
  end.
Proof.
  intros Hi Ho. unfold take_two, rbind. pose proof (varint_take_safe inp off Hi Ho) as H1.
  destruct (varint_take inp off) as [[a o1]| |]; [|done|done]. destruct H1 as [Ho1 Ha].
  pose proof (varint_take_safe inp o1 Hi ltac:(lia)) as H2.
  destruct (varint_take inp o1) as [[b o2]| |]; [|done|done]. destruct H2 as [Ho2 Hb].
  unfold rret. cbn. lia.
Qed.

(** The loop invariant: the slots filled so far hold a well-formed list whose
    last range, while slots remain, ends at [prev_lo]. *)
Definition pairs_inv (i prev_lo : Z) (ranges : list ack_range) : Prop :=
  zlen ranges = ACK_MAX_RANGES /\ 1 <= i /\ 0 <= prev_lo <= VARINT_MAX /\
  ranges_wf (take (Z.to_nat (Z.min i ACK_MAX_RANGES)) ranges) /\
  (i <= ACK_MAX_RANGES -> exists r, load ranges (i - 1) = Some r /\ r_lo r = prev_lo).

Lemma pairs_inv_step i prev_lo ranges gap len :
  pairs_inv i prev_lo ranges -> 0 <= gap <= VARINT_MAX -> 0 <= len ->
  pair_fits prev_lo gap len = true ->
  let hi := u64 (prev_lo - gap - 2) in
  exists ranges', pair_store ranges (pair_slot i) hi (u64 (hi - len)) = Some ranges' /\
    pairs_inv (i + 1) (u64 (hi - len)) ranges'.
Proof.
  intros (Hz & Hi & Hp & Hwf & Hlast) Hg Hl Hfit hi.
  rewrite pair_fits_spec in Hfit by done. unfold VARINT_MAX in *.
  assert (hi = prev_lo - gap - 2) as Ehi by (subst hi; nowrap; lia). clearbody hi. subst hi.
  rewrite u64_small by lia. unfold pair_store, pair_slot.
  destruct (i <? ACK_MAX_RANGES) eqn:E; unfold ACK_MAX_RANGES in *.
  - rewrite store_in by lia. eexists. split; [done|]. unfold pairs_inv, ACK_MAX_RANGES, VARINT_MAX.
    split_and!; rewrite ?zlen_insert; try lia.
    + rewrite Z.min_l in * by lia. replace (Z.to_nat (i + 1)) with (S (Z.to_nat i)) by lia.
      unfold zlen in Hz.
      erewrite take_S_r by (apply list_lookup_insert_eq; lia). rewrite take_insert_ge by lia.
      apply ranges_wf_snoc; [done|unfold range_ok, VARINT_MAX; cbn; lia|].
      intros a Ha. destruct (Hlast ltac:(lia)) as (r & Hr & Er). cbn.
      rewrite length_take, lookup_take_lt in Ha by lia.
      unfold load in Hr. destruct (0 <=? i - 1) eqn:E1; [|lia].
      replace (Init.Nat.min (Z.to_nat i) (length ranges) - 1)%nat with (Z.to_nat (i - 1)) in Ha by lia.
      rewrite Ha in Hr. simplify_eq. lia.
    + intros _. exists (mk_range (prev_lo - gap - 2) (prev_lo - gap - 2 - len)). split; [|done].
      unfold load. replace (0 <=? i + 1 - 1) with true by lia.
      replace (i + 1 - 1) with i by lia. apply list_lookup_insert_eq. unfold zlen in Hz. lia.
  - eexists. split; [done|]. unfold pairs_inv, ACK_MAX_RANGES, VARINT_MAX.
    rewrite Z.min_r in * by lia. split_and!; try lia; done.
Qed.

Lemma take_ack_pairs_loop_safe fuel : forall i count prev_lo ranges inp off,
  span_ok inp -> 0 <= off <= zlen inp -> zlen inp - off < 2 * Z.of_nat fuel ->
  i <= count + 1 -> count <= VARINT_MAX -> pairs_inv i prev_lo ranges ->
  match take_ack_pairs_loop fuel i count prev_lo ranges inp off with
  | Ok (rs, off') => off <= off' <= zlen inp /\ exists prev', pairs_inv (count + 1) prev' rs
  | Fail => True
  | Oob => False
  end.
Proof.
  induction fuel as [|fuel IH]; intros i count prev_lo ranges inp off Hs Ho Hf Hi Hc Hinv; [lia|].
  cbn [take_ack_pairs_loop]. bcase.
  { assert (i = count + 1) as -> by lia. split; [lia|eauto]. }
  unfold rbind at 1, take_pair, rbind at 1.
  pose proof (take_two_safe inp off Hs Ho) as H2.
  destruct (take_two inp off) as [[[gap len] o1]| |]; [|done|done]. destruct H2 as (Ho1 & Hg & Hl).
  cbn [fst snd] in *. unfold rbind, rguard. destruct (pair_fits prev_lo gap len) eqn:Ef; [|done].
  destruct (pairs_inv_step i prev_lo ranges gap len Hinv Hg ltac:(lia) Ef) as (ranges' & Est & Hinv').
  cbv zeta in Est. cbv zeta. rewrite Est. cbn [fst snd].
  specialize (IH (i + 1) count _ ranges' inp o1 Hs ltac:(lia) ltac:(lia) ltac:(lia) Hc Hinv').
  destruct (take_ack_pairs_loop _ _ _ _ _ _ _) as [[rs o2]| |]; [|done|done].
  destruct IH as [? ?]. split; [lia|done].
Qed.

Lemma ack_head_safe ranges :
  zlen ranges = ACK_MAX_RANGES ->
  rsafe (ack_take_ack_head ranges) (fun h => 0 <= d_count h.1 <= VARINT_MAX /\
    exists r0, load h.2 0 = Some r0 /\ pairs_inv 1 (r_lo r0) h.2).
Proof.
  intros Hz. unfold ack_take_ack_head.
  eapply rsafe_bind with (P := fun m => 0 <= m.1.1 <= VARINT_MAX /\ 0 <= m.2 <= VARINT_MAX).
  { unfold take_ack_meta. do 3 (eapply rsafe_bind; [apply rsafe_varint|intros ? ?]).
    by apply rsafe_ret. }
  intros [[largest delay] count] [Hm Hc]. cbn [fst snd] in *.
  eapply rsafe_bind with (P := fun x => 0 <= x <= largest).
  { unfold take_first. eapply rsafe_bind; [apply rsafe_varint|intros x Hx; cbv beta in Hx].
    eapply rsafe_bind; [apply rsafe_guard|intros [] Hg; cbv beta in Hg]. apply rsafe_ret. lia. }
  intros x Hx inp off _ _ Ho; cbv beta in Hx. unfold VARINT_MAX in *.
  unfold ACK_MAX_RANGES in Hz. rewrite store_in by lia. rewrite u64_small by lia. cbn.
  split; [lia|]. split; [lia|]. exists (mk_range largest (largest - x)).
  destruct ranges as [|y ys]; [done|]. split; [done|].
  unfold pairs_inv, VARINT_MAX, ACK_MAX_RANGES. cbn. split_and!; try lia; [done| |].
  - split; [|intros [] a b Ha Hb; done].
    constructor; [|constructor]. unfold range_ok, VARINT_MAX. cbn. lia.
  - intros _. by eexists.
Qed.

Lemma rsafe_take_two : rsafe take_two (fun _ => True).
Proof.
  intros inp off Hs _ Ho. pose proof (take_two_safe inp off Hs Ho) as H.
  destruct (take_two inp off) as [[gl o]| |]; [|done|done]. destruct H as [? _]. split; [lia|done].
Qed.

Lemma ack_rest_safe has_ecn count ranges r0 inp off :
  span_ok inp -> 0 < off <= zlen inp -> 0 <= count <= VARINT_MAX ->
  load ranges 0 = Some r0 -> pairs_inv 1 (r_lo r0) ranges ->
  match take_ack_rest has_ecn count ranges inp off with
  | Ok (r, off') => off <= off' <= zlen inp /\ exists prev', pairs_inv (count + 1) prev' r.1
  | Fail => True
  | Oob => False
  end.
Proof.
  intros Hs Ho Hc Hr0 Hinv. unfold take_ack_rest, rbind at 1, take_ack_pairs. rewrite Hr0.
  assert (Z.of_nat (length inp) = zlen inp) as El by done.
  pose proof (take_ack_pairs_loop_safe (length inp) 1 count (r_lo r0) ranges inp off Hs
    ltac:(lia) ltac:(lia) ltac:(lia) ltac:(lia) Hinv) as Hp.
  destruct (take_ack_pairs_loop _ _ _ _ _ _ _) as [[rs o1]| |]; [|done|done]. destruct Hp as [Ho1 Hp].
  assert (rsafe (e <- take_ack_ecn has_ecn ;; rret (rs, e)) (fun r => r.1 = rs)) as He.
  { eapply rsafe_bind with (P := fun _ => True); [|intros; by apply rsafe_ret].
    unfold take_ack_ecn. apply rsafe_if; intros _; [by apply rsafe_ret|].
    eapply rsafe_bind; [apply rsafe_take_two|intros e _].
    eapply rsafe_bind; [apply rsafe_varint|intros ce _]. by apply rsafe_ret. }
  specialize (He inp o1 Hs ltac:(lia) ltac:(lia)).
  destruct (rbind (take_ack_ecn has_ecn) _ _ _) as [[r o2]| |]; [|done|done].
  destruct He as [? ->]. split; [lia|done].
Qed.

(** What every frame [ack_decode] accepts satisfies: 1 to 32 ranges, each a
    range of packet numbers below 2^62, descending, with a gap between
    neighbours. *)
Definition ack_frame_wf (f : ack_frame) : Prop :=
  1 <= af_n_ranges f <= ACK_MAX_RANGES /\ zlen (af_ranges f) = ACK_MAX_RANGES /\
  ranges_wf (ack_used f).

Lemma ranges_kept_spec count :
  0 <= count <= VARINT_MAX -> ranges_kept count = Z.min (count + 1) ACK_MAX_RANGES.
Proof.
  unfold VARINT_MAX, ranges_kept, ACK_MAX_RANGES. intros. nowrap. bcase; lia.
Qed.

Lemma ack_decode_safe ranges :
  zlen ranges = ACK_MAX_RANGES -> decoder_safe (ack_decode ranges) ack_frame_wf.
Proof.
  intros Hz inp Hs Hn. unfold ack_decode, get_ack.
  pose proof (rsafe_first inp 1 Hs Hn ltac:(lia)) as Ht. unfold rbind at 1.
  destruct (rbyte 0 inp 1) as [[t o0]| |] eqn:Et; [|done|done]. destruct Ht as [Ho0 _]. cbv zeta.
  pose proof (ack_head_safe ranges Hz inp o0 Hs Hn ltac:(lia)) as Hh. unfold rbind at 1.
  destruct (ack_take_ack_head ranges inp o0) as [[h o1]| |]; [|done|done].
  destruct Hh as (Ho1 & Hc & r0 & Hr0 & Hinv).
  set (has_ecn := if t =? FRAME_ACK_ECN then 1 else 0). unfold rbind.
  pose proof (ack_rest_safe has_ecn (d_count h.1) h.2 r0 inp o1 Hs ltac:(lia) Hc Hr0 Hinv) as Hr.
  destruct (take_ack_rest _ _ _ _ _) as [[r o2]| |]; [|done|done].
  destruct Hr as (Ho2 & prev' & Hz' & _ & _ & Hwf & _). unfold rret.
  split; [lia|]. unfold ack_frame_wf, ack_used. cbn [af_n_ranges af_ranges].
  rewrite ranges_kept_spec by done. unfold ACK_MAX_RANGES in *. split_and!; [lia|lia|done|done].
Qed.

(** ** Properties of the ACK codec *)

(** For every frame whose 32-slot array is in place and whose packet
    numbers are below 2^62, [ack_encode] writes the RFC 9000 19.3 layout when
    it fits and returns 0 when it does not fit, when there are no ranges, or
    when the ranges are not descending with a gap between neighbours (the
    negative differences wrap to values no varint holds); [ack_decode] of that
    layout followed by anything returns the same ranges, delay and ECN counts
    and consumes exactly the layout. *)
Theorem ack_frame_codec ranges :
  zlen ranges = ACK_MAX_RANGES ->
  codec_contract ack_encode (ack_decode ranges) ack_ok ack_wire ack_same.
Proof. apply ack_contract. Qed.

Lemma ack_frame_codec_witness :
  let rs := [mk_range 9 7; mk_range 4 4] ++ replicate 30 (mk_range 0 0) in
  let f := mk_ack 5 2 rs 0 0 0 0 in
  ack_encode (replicate 8 0) f = Some (7, [2; 9; 5; 1; 2; 1; 0; 0]) /\
  exists g, ack_decode (replicate 32 (mk_range 0 0)) [2; 9; 5; 1; 2; 1; 0; 77] = Ok (g, 7) /\
    ack_same f g.
Proof.
  intros rs f.
  destruct (ack_frame_codec (replicate 32 (mk_range 0 0)) eq_refl f (replicate 8 0))
    as [(l & Hl & _ & He & Hd)|(_ & b & E & _)].
  - unfold ack_ok, is_u64, ACK_MAX_RANGES, f, rs. cbn. split; [lia|]. split; [reflexivity|]. split; [lia|].
    split; [|lia]. unfold ack_used. cbn. unfold VARINT_MAX. repeat constructor; cbn; lia.
  - reflexivity.
  - vm_compute in Hl. apply (inj Some) in Hl as <-. split; [exact He|].
    apply (Hd [77]). reflexivity.
  - vm_compute in E. discriminate E.
Defined.

(** On any non-empty input [ack_decode] stays inside the input and its
    fixed 32-slot array whatever range count the peer claims, its loop ends,
    and an accepted frame has 1 to 32 ranges that are non-empty, below 2^62,
    descending and separated by at least one packet number. *)
Theorem ack_decode_wf ranges :
  zlen ranges = ACK_MAX_RANGES -> decoder_safe (ack_decode ranges) ack_frame_wf.
Proof. apply ack_decode_safe. Qed.

Lemma ack_decode_wf_witness :
  match ack_decode (replicate 32 (mk_range 0 0)) [2; 9; 5; 0xFF; 0xFF; 0xFF; 0xFF; 0xFF; 0xFF; 0xFF; 0xFF; 2; 1; 0] with
  | Ok (f, n) => 1 <= n <= 14 /\ ack_frame_wf f
  | Fail => True
  | Oob => False
  end.
Proof.
  apply (ack_decode_wf (replicate 32 (mk_range 0 0)) eq_refl); [|reflexivity].
  split; [|reflexivity]. repeat constructor; vm_compute; congruence.
Defined.
