(* ===== verification/Framewalk.v ===== *)
(** * Frame classification and the frame walk

    src/src/transport/packet/frame/frame/dispatch.c and permit.c, the DATAGRAM
    codec src/src/app/datagram/datagram/datagram.c, the walker
    src/src/transport/packet/frame/pipeline/framewalk.c and the payload
    assembly of src/src/transport/packet/build/pktbuild.  The walk is proved
    to end on every payload, and to yield exactly the frames of a payload that
    the encoders built; every frame decoder is proved safe on any bytes. *)

From stdpp Require Import base numbers list option.
From Stdlib Require Import ZArith Lia.
From S2P Require Import Prelude Bytes Varint Frames Ack.
Import Frame FlowCtl StreamCtl ConnCtl Ncid.

(** ** dispatch.c *)

(* src/src/transport/packet/frame/frame/dispatch.h : frame_kind *)
Inductive frame_kind :=
  | FK_UNKNOWN | FK_PADDING | FK_PING | FK_ACK | FK_RESET_STREAM | FK_STOP_SENDING | FK_CRYPTO
  | FK_NEW_TOKEN | FK_STREAM | FK_MAX_DATA | FK_MAX_STREAM_DATA | FK_MAX_STREAMS
  | FK_DATA_BLOCKED | FK_STREAM_DATA_BLOCKED | FK_STREAMS_BLOCKED | FK_NEW_CONNECTION_ID
  | FK_RETIRE_CONNECTION_ID | FK_PATH_CHALLENGE | FK_PATH_RESPONSE | FK_CONNECTION_CLOSE
  | FK_HANDSHAKE_DONE | FK_DATAGRAM | FK_RESET_STREAM_AT.

#[export] Instance frame_kind_eq_dec : EqDecision frame_kind.
Proof. solve_decision. Defined.

(* src/src/transport/packet/frame/frame/dispatch.c : TABLE *)
Definition KIND_TABLE : list (Z * frame_kind) :=
  [(0x00, FK_PADDING); (0x01, FK_PING); (0x02, FK_ACK); (0x03, FK_ACK);
   (0x04, FK_RESET_STREAM); (0x05, FK_STOP_SENDING); (0x06, FK_CRYPTO); (0x07, FK_NEW_TOKEN);
   (0x08, FK_STREAM); (0x09, FK_STREAM); (0x0a, FK_STREAM); (0x0b, FK_STREAM);
   (0x0c, FK_STREAM); (0x0d, FK_STREAM); (0x0e, FK_STREAM); (0x0f, FK_STREAM);
   (0x10, FK_MAX_DATA); (0x11, FK_MAX_STREAM_DATA); (0x12, FK_MAX_STREAMS);
   (0x13, FK_MAX_STREAMS); (0x14, FK_DATA_BLOCKED); (0x15, FK_STREAM_DATA_BLOCKED);
   (0x16, FK_STREAMS_BLOCKED); (0x17, FK_STREAMS_BLOCKED); (0x18, FK_NEW_CONNECTION_ID);
   (0x19, FK_RETIRE_CONNECTION_ID); (0x1a, FK_PATH_CHALLENGE); (0x1b, FK_PATH_RESPONSE);
   (0x1c, FK_CONNECTION_CLOSE); (0x1d, FK_CONNECTION_CLOSE); (0x1e, FK_HANDSHAKE_DONE);
   (0x30, FK_DATAGRAM); (0x31, FK_DATAGRAM); (0x24, FK_RESET_STREAM_AT)].

(** The loop over the table: the first row whose type matches. *)
Fixpoint classify_rows (rows : list (Z * frame_kind)) (type : Z) : frame_kind :=
  match rows with
  | [] => FK_UNKNOWN
  | (t, k) :: rest => if t =? type then k else classify_rows rest type
  end.

(* src/src/transport/packet/frame/frame/dispatch.c : frame_classify *)
Definition frame_classify (type : Z) : frame_kind := classify_rows KIND_TABLE type.

(* src/src/transport/packet/frame/frame/dispatch.c : non_eliciting *)
Definition non_eliciting (k : frame_kind) : bool :=
  bool_decide (k = FK_PADDING) || bool_decide (k = FK_ACK) || bool_decide (k = FK_CONNECTION_CLOSE).

(* src/src/transport/packet/frame/frame/dispatch.c : frame_ack_eliciting *)
Definition frame_ack_eliciting (kind : frame_kind) : bool :=
  if bool_decide (kind = FK_UNKNOWN) then false else negb (non_eliciting kind).

(** ** permit.c *)

(* src/src/transport/packet/frame/frame/permit.h : packet_type *)
Inductive packet_type := PKT_INITIAL | PKT_HANDSHAKE | PKT_0RTT | PKT_1RTT.

Definition pkt_index (p : packet_type) : Z :=
  match p with PKT_INITIAL => 0 | PKT_HANDSHAKE => 1 | PKT_0RTT => 2 | PKT_1RTT => 3 end.

Definition PI : Z := 0x1.
Definition PH : Z := 0x2.
Definition PZ : Z := 0x4.
Definition PO : Z := 0x8.
Definition PALL : Z := Z.lor (Z.lor (Z.lor PI PH) PZ) PO.

(* src/src/transport/packet/frame/frame/permit.c : allowed *)
Definition allowed (k : frame_kind) : Z :=
  match k with
  | FK_UNKNOWN => 0
  | FK_PADDING | FK_PING => PALL
  | FK_ACK => Z.lor (Z.lor PI PH) PO
  | FK_RESET_STREAM | FK_STOP_SENDING => Z.lor PZ PO
  | FK_CRYPTO => Z.lor (Z.lor PI PH) PO
  | FK_NEW_TOKEN => PO
  | FK_STREAM | FK_MAX_DATA | FK_MAX_STREAM_DATA | FK_MAX_STREAMS | FK_DATA_BLOCKED
  | FK_STREAM_DATA_BLOCKED | FK_STREAMS_BLOCKED | FK_NEW_CONNECTION_ID
  | FK_RETIRE_CONNECTION_ID | FK_PATH_CHALLENGE => Z.lor PZ PO
  | FK_PATH_RESPONSE => PO
  | FK_CONNECTION_CLOSE => Z.lor (Z.lor (Z.lor PI PH) PZ) PO
  | FK_HANDSHAKE_DONE => PO
  | FK_DATAGRAM | FK_RESET_STREAM_AT => Z.lor PZ PO
  end.

(* src/src/transport/packet/frame/frame/permit.c : frame_permitted *)
Definition frame_permitted (kind : frame_kind) (pkt : packet_type) : bool :=
  negb (Z.land (Z.shiftr (allowed kind) (pkt_index pkt)) 1 =? 0).

(* src/src/transport/packet/frame/frame/permit.c : frame_server_recv_forbidden *)
Definition frame_server_recv_forbidden (kind : frame_kind) : bool :=
  bool_decide (kind = FK_NEW_TOKEN) || bool_decide (kind = FK_HANDSHAKE_DONE).

(* src/src/transport/packet/frame/frame/permit.c : frame_is_grease *)
Definition frame_is_grease (type : Z) : bool :=
  if type <? 0x21 then false else (type - 0x21) mod 0x1f =? 0.

(** ** pktbuild: eliciting.c, framepack.c *)

(* src/src/transport/packet/build/pktbuild/eliciting.c : eliciting_non_kinds *)
Definition eliciting_non_kinds : list Z :=
  [FRAME_PADDING; 0x02; 0x03; FRAME_CONN_CLOSE_TPT; FRAME_CONN_CLOSE_APP].

(* src/src/transport/packet/build/pktbuild/eliciting.c : is_non_eliciting *)
Definition is_non_eliciting (t : Z) : bool := existsb (fun x => x =? t) eliciting_non_kinds.

(* src/src/transport/packet/build/pktbuild/eliciting.c : pktbuild_is_eliciting *)
Definition pktbuild_is_eliciting (frame_types : list Z) : bool :=
  existsb (fun t => negb (is_non_eliciting t)) frame_types.

(* src/src/transport/packet/build/pktbuild/framepack.c : pktbuild_framepack *)
Fixpoint pktbuild_framepack (frames : list (list Z)) : W :=
  match frames with
  | [] => wtrue
  | fr :: rest => bytes_put fr (zlen fr) ;& pktbuild_framepack rest
  end.

(** ** datagram.c *)

Definition FRAME_DATAGRAM : Z := 0x30.
Definition FRAME_DATAGRAM_LEN : Z := 0x31.

(* src/src/app/datagram/datagram/datagram.h : datagram_frame *)
Record datagram_frame := mk_dgram { dg_length : Z; dg_data : list Z }.

(* src/src/app/datagram/datagram/datagram.c : datagram_type *)
Definition datagram_type (with_len : bool) : Z :=
  if with_len then FRAME_DATAGRAM_LEN else FRAME_DATAGRAM.

(* src/src/app/datagram/datagram/datagram.c : put_datagram_head *)
Definition put_datagram_head (f : datagram_frame) (with_len : bool) : W :=
  varint_put (datagram_type with_len)
  ;& (if negb with_len then wtrue else varint_put (dg_length f)).

(* src/src/app/datagram/datagram/datagram.c : datagram_encode *)
Definition datagram_encode (buf : list Z) (f : datagram_frame) (with_len : bool)
    : option (Z * list Z) :=
  wrun (put_datagram_head f with_len ;& bytes_put (dg_data f) (dg_length f)) buf.

(* src/src/app/datagram/datagram/datagram.c : decode_no_len *)
Definition decode_no_len (buf : list Z) : res (datagram_frame * Z) :=
  Ok (mk_dgram (u64 (zlen buf - 1)) (drop 1 buf), zlen buf).

(* src/src/app/datagram/datagram/datagram.c : decode_with_len *)
Definition decode_with_len (buf : list Z) : res (datagram_frame * Z) :=
  (len <- varint_take ;; data <- view_at len ;; rret (mk_dgram len data)) buf 1.

(* src/src/app/datagram/datagram/datagram.c : datagram_decode *)
Definition datagram_decode (buf : list Z) : res (datagram_frame * Z) :=
  if zlen buf =? 0 then Fail
  else
    match load buf 0 with
    | None => Oob
    | Some b => if b =? FRAME_DATAGRAM then decode_no_len buf else decode_with_len buf
    end.

(* src/src/app/datagram/datagram/datagram.c : datagram_allowed *)
Definition datagram_allowed (max_datagram_frame_size frame_len : Z) : bool :=
  if max_datagram_frame_size =? 0 then false else frame_len <=? max_datagram_frame_size.

(** ** framewalk.c *)

(** [cur] is the bytes readable from the cursor on; the decoders are given
    the first [remaining] of them. *)
(* src/src/transport/packet/frame/pipeline/framewalk.h : framewalk *)
Record framewalk := mk_fw { fw_cur : list Z; fw_remaining : Z }.

(* src/src/transport/packet/frame/pipeline/framewalk.h : framewalk_item *)
Record framewalk_item := mk_item { it_type : Z; it_start : list Z; it_remaining : Z }.

(* src/src/transport/packet/frame/pipeline/framewalk.c : framewalk_init *)
Definition framewalk_init (frames : list Z) (len : Z) : framewalk := mk_fw frames len.

(** The bytes a decoder reports: [Fail] is its return value 0. *)
Definition consumed {A} (r : res (A * Z)) : res Z :=
  match r with Ok (_, n) => Ok n | Fail => Fail | Oob => Oob end.

Definition no_ranges : list ack_range := replicate 32 (mk_range 0 0).

(* src/src/transport/packet/frame/pipeline/framewalk.c : ack_len *)
Definition ack_len (buf : list Z) : res Z := consumed (ack_decode no_ranges buf).
(* src/src/transport/packet/frame/pipeline/framewalk.c : crypto_len *)
Definition crypto_len (buf : list Z) : res Z := consumed (frame_get_crypto buf).
(* src/src/transport/packet/frame/pipeline/framewalk.c : stream_len *)
Definition stream_len (buf : list Z) : res Z := consumed (frame_get_stream buf).
(* src/src/transport/packet/frame/pipeline/framewalk.c : conn_close_len *)
Definition conn_close_len (buf : list Z) : res Z := consumed (frame_get_conn_close buf).
(* src/src/transport/packet/frame/pipeline/framewalk.c : datagram_len *)
Definition datagram_len (buf : list Z) : res Z := consumed (datagram_decode buf).
(* src/src/transport/packet/frame/pipeline/framewalk.c : reset_stream_len *)
Definition reset_stream_len (buf : list Z) : res Z := consumed (reset_stream_decode buf).
(* src/src/transport/packet/frame/pipeline/framewalk.c : stop_sending_len *)
Definition stop_sending_len (buf : list Z) : res Z := consumed (stop_sending_decode buf).
(* src/src/transport/packet/frame/pipeline/framewalk.c : reset_stream_at_len *)
Definition reset_stream_at_len (buf : list Z) : res Z := consumed (reset_stream_at_decode buf).
(* src/src/transport/packet/frame/pipeline/framewalk.c : max_data_len *)
Definition max_data_len (buf : list Z) : res Z := consumed (max_data_decode buf).
(* src/src/transport/packet/frame/pipeline/framewalk.c : data_blocked_len *)
Definition data_blocked_len (buf : list Z) : res Z := consumed (data_blocked_decode buf).
(* src/src/transport/packet/frame/pipeline/framewalk.c : max_stream_data_len *)
Definition max_stream_data_len (buf : list Z) : res Z := consumed (max_stream_data_decode buf).
(* src/src/transport/packet/frame/pipeline/framewalk.c : stream_data_blocked_len *)
Definition stream_data_blocked_len (buf : list Z) : res Z := consumed (stream_data_blocked_decode buf).
(* src/src/transport/packet/frame/pipeline/framewalk.c : max_streams_len *)
Definition max_streams_len (buf : list Z) : res Z := consumed (max_streams_decode buf).
(* src/src/transport/packet/frame/pipeline/framewalk.c : streams_blocked_len *)
Definition streams_blocked_len (buf : list Z) : res Z := consumed (streams_blocked_decode buf).
(* src/src/transport/packet/frame/pipeline/framewalk.c : new_token_len *)
Definition new_token_len (buf : list Z) : res Z := consumed (new_token_decode buf).
(* src/src/transport/packet/frame/pipeline/framewalk.c : ncid_len *)
Definition ncid_len (buf : list Z) : res Z :=
  consumed (ncid_decode (replicate 20 0) (replicate 16 0) buf).
(* src/src/transport/packet/frame/pipeline/framewalk.c : retire_cid_len *)
Definition retire_cid_len (buf : list Z) : res Z := consumed (retire_cid_decode buf).
(* src/src/transport/packet/frame/pipeline/framewalk.c : path_challenge_len *)
Definition path_challenge_len (buf : list Z) : res Z := consumed (path_decode buf FRAME_PATH_CHALLENGE).
(* src/src/transport/packet/frame/pipeline/framewalk.c : path_response_len *)
Definition path_response_len (buf : list Z) : res Z := consumed (path_decode buf FRAME_PATH_RESPONSE).

(* src/src/transport/packet/frame/pipeline/framewalk.c : LEN_TABLE *)
Definition LEN_TABLE : list (frame_kind * (list Z -> res Z)) :=
  [(FK_ACK, ack_len); (FK_CRYPTO, crypto_len); (FK_STREAM, stream_len);
   (FK_CONNECTION_CLOSE, conn_close_len); (FK_DATAGRAM, datagram_len);
   (FK_RESET_STREAM, reset_stream_len); (FK_STOP_SENDING, stop_sending_len);
   (FK_RESET_STREAM_AT, reset_stream_at_len); (FK_MAX_DATA, max_data_len);
   (FK_DATA_BLOCKED, data_blocked_len); (FK_MAX_STREAM_DATA, max_stream_data_len);
   (FK_STREAM_DATA_BLOCKED, stream_data_blocked_len); (FK_MAX_STREAMS, max_streams_len);
   (FK_STREAMS_BLOCKED, streams_blocked_len); (FK_NEW_TOKEN, new_token_len);
   (FK_NEW_CONNECTION_ID, ncid_len); (FK_RETIRE_CONNECTION_ID, retire_cid_len);
   (FK_PATH_CHALLENGE, path_challenge_len); (FK_PATH_RESPONSE, path_response_len)].

Fixpoint len_rows (rows : list (frame_kind * (list Z -> res Z))) (kind : frame_kind)
    (buf : list Z) : res Z :=
  match rows with
  | [] => Fail
  | (k, fn) :: rest => if bool_decide (k = kind) then fn buf else len_rows rest kind buf
  end.

(* src/src/transport/packet/frame/pipeline/framewalk.c : decoded_len *)
Definition decoded_len (kind : frame_kind) (buf : list Z) : res Z := len_rows LEN_TABLE kind buf.

(* src/src/transport/packet/frame/pipeline/framewalk.c : single_byte *)
Definition single_byte (kind : frame_kind) : bool :=
  bool_decide (kind = FK_PADDING) || bool_decide (kind = FK_PING)
  || bool_decide (kind = FK_HANDSHAKE_DONE).

(* src/src/transport/packet/frame/pipeline/framewalk.c : frame_len *)
Definition frame_len (type : Z) (buf : list Z) : res Z :=
  let kind := frame_classify type in
  if single_byte kind then Ok 1 else decoded_len kind buf.

(** The bytes the walk hands to a decoder. *)
Definition fw_view (it : framewalk) : list Z := take (Z.to_nat (fw_remaining it)) (fw_cur it).

(* src/src/transport/packet/frame/pipeline/framewalk.c : measure *)
Definition measure (it : framewalk) : res (Z * Z) :=
  match varint_decode (fw_view it) 0 (fw_remaining it) with
  | Oob => Oob
  | Fail => Fail
  | Ok (type, used) =>
      if used =? 0 then Fail
      else
        match frame_len type (fw_view it) with
        | Oob => Oob
        | Fail => Fail
        | Ok len => if fw_remaining it <? len then Fail else Ok (type, len)
        end
  end.

(* src/src/transport/packet/frame/pipeline/framewalk.c : framewalk_next *)
Definition framewalk_next (it : framewalk) : res (framewalk_item * framewalk) :=
  if fw_remaining it =? 0 then Fail
  else
    match measure it with
    | Oob => Oob
    | Fail => Fail
    | Ok (type, len) =>
        if len =? 0 then Fail
        else Ok (mk_item type (fw_cur it) (fw_remaining it),
                 mk_fw (drop (Z.to_nat len) (fw_cur it)) (u64 (fw_remaining it - len)))
    end.

(** [while (framewalk_next(&it, &fr)) acc = body(acc, fr);] *)
Fixpoint framewalk_loop {A} (fuel : nat) (body : A -> framewalk_item -> A) (acc : A)
    (it : framewalk) : res A :=
  match framewalk_next it with
  | Oob => Oob
  | Fail => Ok acc
  | Ok (fr, it') =>
      match fuel with
      | O => Oob
      | S fuel' => framewalk_loop fuel' body (body acc fr) it'
      end
  end.

(* src/src/transport/packet/frame/pipeline/framewalk.c : framewalk_ack_eliciting *)
Definition framewalk_ack_eliciting (pl : list Z) : res bool :=
  framewalk_loop (length pl)
    (fun eliciting fr => eliciting || frame_ack_eliciting (frame_classify (it_type fr)))
    false (framewalk_init pl (zlen pl)).

(* src/src/transport/packet/frame/pipeline/framewalk.c : FRAMEWALK_PROBING *)
Definition FRAMEWALK_PROBING (k : frame_kind) : bool :=
  match k with
  | FK_PADDING | FK_NEW_CONNECTION_ID | FK_PATH_CHALLENGE | FK_PATH_RESPONSE => true
  | _ => false
  end.

(* src/src/transport/packet/frame/pipeline/framewalk.c : framewalk_non_probing *)
Definition framewalk_non_probing (pl : list Z) : res bool :=
  framewalk_loop (length pl)
    (fun np fr => np || negb (FRAMEWALK_PROBING (frame_classify (it_type fr))))
    false (framewalk_init pl (zlen pl)).

(** The frames of a payload, as (type, offset) pairs: what a caller of the
    walk sees. *)
Definition framewalk_types (pl : list Z) : res (list (Z * Z)) :=
  framewalk_loop (length pl)
    (fun acc fr => acc ++ [(it_type fr, zlen pl - it_remaining fr)]) [] (framewalk_init pl (zlen pl)).

(** ** Safety of the walk *)

(** A frame length function stays inside the view and measures at least the
    type byte. *)
Definition len_safe (fn : list Z -> res Z) : Prop :=
  forall buf, span_ok buf -> 0 < zlen buf ->
  match fn buf with
  | Ok n => 1 <= n <= zlen buf
  | Fail => True
  | Oob => False
  end.

Lemma consumed_safe {A} (dec : list Z -> res (A * Z)) P :
  decoder_safe dec P -> len_safe (fun buf => consumed (dec buf)).
Proof.
  intros H buf Hs Hz. specialize (H buf Hs Hz). unfold consumed.
  destruct (dec buf) as [[f n]| |]; intuition.
Qed.

Lemma datagram_safe :
  decoder_safe datagram_decode (fun f => 0 <= dg_length f <= zlen (dg_data f)).
Proof.
  intros buf Hs Hz. unfold datagram_decode. bcase; [lia|].
  destruct (load_is_Some buf 0) as [b ->]; [lia|]. bcase.
  - unfold decode_no_len. cbn. destruct Hs as [_ Hs]. unfold span_max in Hs.
    rewrite u64_small by lia. change 1%nat with (Z.to_nat 1). rewrite zlen_drop; lia.
  - apply (decoder_safe_intro decode_with_len
      (len <- varint_take ;; data <- view_at len ;; rret (mk_dgram len data))); [done| |done|done].
    eapply rsafe_bind; [apply rsafe_varint|intros len Hl; cbv beta in Hl].
    eapply rsafe_bind; [apply rsafe_view; unfold VARINT_MAX, span_max in *; lia|].
    intros d Hd; cbv beta in Hd. apply rsafe_ret. cbn. lia.
Qed.

Lemma bytes_ok_zeros n : bytes_ok (replicate n 0).
Proof. apply Forall_replicate. unfold is_u8; lia. Qed.

Lemma LEN_TABLE_safe : Forall (fun row => len_safe row.2) LEN_TABLE.
Proof.
  unfold LEN_TABLE. repeat apply Forall_cons_2; try apply Forall_nil; cbn [snd].
  - by eapply consumed_safe, ack_decode_safe.
  - eapply consumed_safe, crypto_safe.
  - eapply consumed_safe, stream_safe.
  - eapply consumed_safe, conn_close_safe.
  - eapply consumed_safe, datagram_safe.
  - eapply consumed_safe, reset_stream_safe.
  - eapply consumed_safe, stop_sending_safe.
  - eapply consumed_safe, reset_stream_at_safe.
  - eapply consumed_safe, one_varint_safe.
  - eapply consumed_safe, one_varint_safe.
  - eapply consumed_safe, two_varint_safe.
  - eapply consumed_safe, two_varint_safe.
  - eapply consumed_safe, streams_safe.
  - eapply consumed_safe, streams_safe.
  - eapply consumed_safe, new_token_safe.
  - eapply consumed_safe, ncid_safe; auto using bytes_ok_zeros.
  - eapply consumed_safe, retire_cid_safe.
  - eapply consumed_safe, path_safe.
  - eapply consumed_safe, path_safe.
Qed.

Lemma len_rows_safe rows kind :
  Forall (fun row => len_safe row.2) rows -> len_safe (len_rows rows kind).
Proof.
  induction rows as [|[k fn] rows IH]; intros Hr buf Hs Hz; cbn [len_rows]; [done|].
  apply Forall_cons_1 in Hr as [Hf Hr]. bcase; [by apply Hf|by apply IH].
Qed.

Lemma frame_len_safe type : len_safe (frame_len type).
Proof.
  intros buf Hs Hz. unfold frame_len. cbv zeta. bcase; [lia|].
  by apply len_rows_safe; [apply LEN_TABLE_safe| |].
Qed.

(** The cursor is inside its payload. *)
Definition fw_ok (it : framewalk) : Prop :=
  span_ok (fw_cur it) /\ 0 <= fw_remaining it <= zlen (fw_cur it).

Lemma fw_view_ok it : fw_ok it -> span_ok (fw_view it) /\ zlen (fw_view it) = fw_remaining it.
Proof.
  intros [[Hb Hl] Hr]. unfold fw_view. rewrite zlen_take by done.
  split; [split; [by apply bytes_ok_take|]|done]. rewrite zlen_take; lia.
Qed.

Lemma varint_decode_take inp :
  0 < zlen inp -> zlen inp < span_max -> forall v used,
  varint_decode inp 0 (zlen inp) = Ok (v, used) -> used <> 0 -> varint_take inp 0 = Ok (v, u64 used).
Proof.
  intros Hz _ v used E Hu. unfold varint_take. bcase; [lia|]. rewrite Z.sub_0_r, E.
  bcase; [lia|]. by rewrite Z.add_0_l.
Qed.

Lemma varint_decode_safe inp :
  span_ok inp -> 0 < zlen inp -> varint_decode inp 0 (zlen inp) <> Oob.
Proof.
  intros Hs Hz E. pose proof (varint_take_safe inp 0 Hs ltac:(lia)) as H.
  unfold varint_take in H. bcase in H; [lia|]. by rewrite Z.sub_0_r, E in H.
Qed.

Lemma framewalk_next_safe it :
  fw_ok it ->
  match framewalk_next it with
  | Ok (fr, it') =>
      it_start fr = fw_cur it /\ it_remaining fr = fw_remaining it /\ fw_ok it' /\
      exists len, 1 <= len <= fw_remaining it /\
        fw_cur it' = drop (Z.to_nat len) (fw_cur it) /\ fw_remaining it' = fw_remaining it - len
  | Fail => True
  | Oob => False
  end.
Proof.
  intros Hok. pose proof (fw_view_ok it Hok) as [Hs Hz]. destruct Hok as [[Hb Hl] Hr].
  unfold framewalk_next. bcase; [done|]. unfold measure. rewrite <- Hz.
  pose proof (varint_decode_safe (fw_view it) Hs ltac:(lia)) as Hv.
  destruct (varint_decode _ _ _) as [[type used]| |]; [|done|done]. bcase; [done|].
  pose proof (frame_len_safe type (fw_view it) Hs ltac:(lia)) as Hf.
  destruct (frame_len type (fw_view it)) as [len| |]; [|done|done].
  bcase; [lia|]. bcase; [lia|]. unfold span_max in Hl. rewrite u64_small by lia.
  split; [done|]. split; [cbn; lia|]. split; [|exists len; cbn; split_and!; try done; lia].
  split; [split; [by apply bytes_ok_drop|]|]; cbn; rewrite zlen_drop; unfold span_max; lia.
Qed.

Lemma framewalk_loop_total {A} (body : A -> framewalk_item -> A) fuel : forall acc it,
  fw_ok it -> fw_remaining it <= Z.of_nat fuel ->
  exists r, framewalk_loop fuel body acc it = Ok r.
Proof.
  induction fuel as [|fuel IH]; intros acc it Hok Hf; cbn [framewalk_loop];
    pose proof (framewalk_next_safe it Hok) as H;
    destruct (framewalk_next it) as [[fr it']| |]; try done; try (by eexists);
    destruct H as (_ & _ & Hok' & len & Hl & _ & Hr).
  - lia.
  - apply IH; [done|lia].
Qed.

(** ** The walk over a payload the encoders built *)

(** The bytes [l] are one frame of type [t] that the walker measures, alone
    or followed by more frames. *)
Definition walkable (t : Z) (l : list Z) : Prop :=
  0 <= t <= 0x3F /\ load l 0 = Some t /\
  forall post, zlen (l ++ post) < span_max -> frame_len t (l ++ post) = Ok (zlen l).

Lemma measure_walkable t l post :
  walkable t l -> zlen (l ++ post) < span_max ->
  measure (mk_fw (l ++ post) (zlen (l ++ post))) = Ok (t, zlen l).
Proof.
  intros (Ht & H0 & Hlen) Hs. unfold measure, fw_view. cbn [fw_cur fw_remaining].
  rewrite take_ge by (unfold zlen; lia). pose proof (load_Some _ _ _ H0).
  pose proof (zlen_nonneg post).
  destruct l as [|b bs]; [done|]. rewrite load_cons_0 in H0. simplify_eq.
  assert (varint_decode (t :: bs ++ post) 0 (zlen (t :: bs ++ post)) = Ok (t, 1)) as Ev.
  { pose proof (varint_decode_spec t [] [] (bs ++ post) (zlen (t :: bs ++ post))) as E.
    cbn [app fold_left] in E. change (zlen (@nil Z)) with 0 in E.
    rewrite E; [|apply bytes_ok_cons; split; [unfold is_u8; lia|constructor]| |].
    - rewrite Z.mod_small by lia. done.
    - rewrite Z.div_small by lia. done.
    - change (zlen (t :: bs ++ post)) with (zlen ((t :: bs) ++ post)). rewrite zlen_app. lia. }
  cbn [app] in *. rewrite Ev. cbn. rewrite (Hlen post) by done.
  change (t :: bs ++ post) with ((t :: bs) ++ post). rewrite zlen_app. bcase; [lia|done].
Qed.

Lemma framewalk_next_walkable t l post :
  walkable t l -> zlen (l ++ post) < span_max ->
  framewalk_next (mk_fw (l ++ post) (zlen (l ++ post))) =
    Ok (mk_item t (l ++ post) (zlen (l ++ post)), mk_fw post (zlen post)).
Proof.
  intros Hw Hs. unfold framewalk_next. rewrite (measure_walkable t) by done. cbn [fw_cur fw_remaining].
  destruct Hw as (_ & H0 & _). pose proof (load_Some _ _ _ H0). pose proof (zlen_nonneg post).
  rewrite zlen_app in *. unfold span_max in Hs. bcase; [lia|]. bcase; [lia|].
  rewrite u64_small by lia. replace (zlen l + zlen post - zlen l) with (zlen post) by lia.
  rewrite drop_app_length' by (unfold zlen; lia). done.
Qed.

(** What the walk's body sees: the frames in order, each with the bytes from
    it to the end of the payload. *)
Fixpoint walk_items (frames : list (Z * list Z)) : list framewalk_item :=
  match frames with
  | [] => []
  | (t, l) :: rest =>
      let pl := concat (map snd frames) in
      mk_item t pl (zlen pl) :: walk_items rest
  end.

Lemma framewalk_loop_walkable {A} (body : A -> framewalk_item -> A) frames : forall fuel acc,
  Forall (fun f => walkable f.1 f.2) frames -> zlen (concat (map snd frames)) < span_max ->
  (length frames <= fuel)%nat ->
  framewalk_loop fuel body acc (mk_fw (concat (map snd frames)) (zlen (concat (map snd frames)))) =
    Ok (fold_left body (walk_items frames) acc).
Proof.
  induction frames as [|[t l] frames IH]; intros fuel acc Hf Hs Hfuel.
  { by destruct fuel. }
  apply Forall_cons_1 in Hf as [Hw Hf]. cbn [map snd concat] in *.
  destruct fuel as [|fuel]; [simpl in Hfuel; lia|]. cbn [framewalk_loop].
  rewrite (framewalk_next_walkable t) by done. rewrite IH; [done|done| |simpl in Hfuel; lia].
  rewrite zlen_app in Hs. pose proof (zlen_nonneg l). lia.
Qed.

Lemma walkable_pos t l : walkable t l -> 1 <= zlen l.
Proof. intros (_ & H & _). apply load_Some in H. lia. Qed.

Lemma frames_length frames :
  Forall (fun f => walkable f.1 f.2) frames ->
  (length frames <= length (concat (map snd frames)))%nat.
Proof.
  induction 1 as [|[t l] frames Hw _ IH]; [done|]. cbn.
  apply walkable_pos in Hw. cbn in Hw. rewrite length_app. unfold zlen in Hw. lia.
Qed.

Lemma fold_orb {A} (f : A -> bool) l acc :
  fold_left (fun b x => b || f x) l acc = acc || existsb f l.
Proof.
  revert acc; induction l as [|x l IH]; intros acc; cbn; [by rewrite orb_false_r|].
  by rewrite IH, orb_assoc.
Qed.

Lemma walk_items_types frames : map it_type (walk_items frames) = map fst frames.
Proof. induction frames as [|[t l] frames IH]; [done|]. cbn. by f_equal. Qed.

Lemma existsb_map_fst {A B} (g : A -> B) (p : B -> bool) l :
  existsb (fun x => p (g x)) l = existsb p (map g l).
Proof. induction l as [|x l IH]; [done|]. cbn. by rewrite IH. Qed.

(** *** DATAGRAM with an explicit length (RFC 9221 4) *)

Definition datagram_wire (f : datagram_frame) : option (list Z) :=
  ocat [varint_wire 0x31; varint_wire (dg_length f); Some (take (Z.to_nat (dg_length f)) (dg_data f))].
Definition datagram_ok (f : datagram_frame) : Prop :=
  0 <= dg_length f <= zlen (dg_data f) /\ dg_length f < span_max.
Definition datagram_same (f g : datagram_frame) : Prop :=
  dg_length g = dg_length f /\
  take (Z.to_nat (dg_length f)) (dg_data g) = take (Z.to_nat (dg_length f)) (dg_data f).

Definition get_datagram : R datagram_frame :=
  t <- rbyte 0 ;;
  if t =? FRAME_DATAGRAM then fun inp _ => Ok (mk_dgram (u64 (zlen inp - 1)) (drop 1 inp), zlen inp)
  else (len <- varint_take ;; data <- view_at len ;; rret (mk_dgram len data)).

Lemma datagram_contract :
  codec_contract (fun buf f => datagram_encode buf f true) datagram_decode datagram_ok
    datagram_wire datagram_same.
Proof.
  apply contract_run with
    (w := fun f => put_datagram_head f true ;& bytes_put (dg_data f) (dg_length f)) (r := get_datagram).
  - done.
  - intros buf Hz. unfold datagram_decode, get_datagram, rbind at 1, rbyte. bcase; [lia|].
    destruct (load buf 0); [|done]. by bcase.
  - intros f (H1 & H2). assert (is_u64 (dg_length f)) by (apply is_u64_small; lia).
    pose proof (bytes_put_wspec (dg_data f) (dg_length f) H1 H2).
    unfold put_datagram_head, datagram_type, datagram_wire. cbn [negb]. wsolve.
  - intros f l (H1 & H2) Hl. unfold datagram_wire in Hl. ocat_inv Hl.
    rewrite varint_type by lia. do 2 eexists. split; [reflexivity|]. unfold get_datagram.
    eapply reads_bind_nil; [typeclasses eauto|apply reads_first|intros ? <-]. cbn [Z.eqb].
    change (0x31 =? FRAME_DATAGRAM) with false. cbv iota. rvarint.
    eapply reads_bind_end; [typeclasses eauto|apply reads_view, zlen_data; lia|].
    intros d Hd. by apply reads_ret.
Qed.

(** *** Every frame the code can send is walkable *)

(** The frames of the send side, with the encoder of each. *)
Inductive tx_frame :=
  | TxPadding | TxPing | TxHandshakeDone
  | TxAck (f : ack_frame) | TxCrypto (f : crypto_frame) | TxStream (f : stream_frame)
  | TxClose (f : conn_close_frame) | TxDatagram (f : datagram_frame)
  | TxResetStream (f : reset_stream_frame) | TxStopSending (f : stop_sending_frame)
  | TxResetStreamAt (f : reset_stream_at_frame)
  | TxMaxData (f : data_frame) | TxDataBlocked (f : data_frame)
  | TxMaxStreamData (f : stream_data_frame) | TxStreamDataBlocked (f : stream_data_frame)
  | TxMaxStreams (f : streams_frame) | TxStreamsBlocked (f : streams_frame)
  | TxNewToken (f : new_token_frame) | TxNewCid (f : ncid_frame) | TxRetireCid (seq : Z)
  | TxPathChallenge (data : list Z) | TxPathResponse (data : list Z).

Definition tx_encode (buf : list Z) (x : tx_frame) : option (Z * list Z) :=
  match x with
  | TxPadding => frame_put_simple buf FRAME_PADDING
  | TxPing => frame_put_simple buf FRAME_PING
  | TxHandshakeDone => handshake_done_encode buf
  | TxAck f => ack_encode buf f
  | TxCrypto f => frame_put_crypto buf f
  | TxStream f => frame_put_stream buf f
  | TxClose f => frame_put_conn_close buf f
  | TxDatagram f => datagram_encode buf f true
  | TxResetStream f => reset_stream_encode buf f
  | TxStopSending f => stop_sending_encode buf f
  | TxResetStreamAt f => reset_stream_at_encode buf f
  | TxMaxData f => max_data_encode buf f
  | TxDataBlocked f => data_blocked_encode buf f
  | TxMaxStreamData f => max_stream_data_encode buf f
  | TxStreamDataBlocked f => stream_data_blocked_encode buf f
  | TxMaxStreams f => max_streams_encode buf f
  | TxStreamsBlocked f => streams_blocked_encode buf f
  | TxNewToken f => new_token_encode buf f
  | TxNewCid f => ncid_encode buf f
  | TxRetireCid seq => retire_cid_encode buf seq
  | TxPathChallenge d => path_encode buf FRAME_PATH_CHALLENGE d
  | TxPathResponse d => path_encode buf FRAME_PATH_RESPONSE d
  end.

(** The fields of the frame struct are in the range of their C types. *)
Definition tx_ok (x : tx_frame) : Prop :=
  match x with
  | TxPadding | TxPing | TxHandshakeDone => True
  | TxAck f => ack_ok f
  | TxCrypto f => crypto_ok f
  | TxStream f => stream_sendable f
  | TxClose f => conn_close_ok f
  | TxDatagram f => datagram_ok f
  | TxResetStream f => reset_stream_ok f
  | TxStopSending f => stop_sending_ok f
  | TxResetStreamAt f => reset_stream_at_ok f
  | TxMaxData f | TxDataBlocked f => is_u64 (df_value f)
  | TxMaxStreamData f | TxStreamDataBlocked f => stream_data_ok f
  | TxMaxStreams f | TxStreamsBlocked f => streams_ok f
  | TxNewToken f => new_token_ok f
  | TxNewCid f => ncid_sendable f
  | TxRetireCid seq => is_u64 seq
  | TxPathChallenge d | TxPathResponse d => zlen d = 8
  end.

Definition tx_kind (x : tx_frame) : frame_kind :=
  match x with
  | TxPadding => FK_PADDING | TxPing => FK_PING | TxHandshakeDone => FK_HANDSHAKE_DONE
  | TxAck _ => FK_ACK | TxCrypto _ => FK_CRYPTO | TxStream _ => FK_STREAM
  | TxClose _ => FK_CONNECTION_CLOSE | TxDatagram _ => FK_DATAGRAM
  | TxResetStream _ => FK_RESET_STREAM | TxStopSending _ => FK_STOP_SENDING
  | TxResetStreamAt _ => FK_RESET_STREAM_AT
  | TxMaxData _ => FK_MAX_DATA | TxDataBlocked _ => FK_DATA_BLOCKED
  | TxMaxStreamData _ => FK_MAX_STREAM_DATA | TxStreamDataBlocked _ => FK_STREAM_DATA_BLOCKED
  | TxMaxStreams _ => FK_MAX_STREAMS | TxStreamsBlocked _ => FK_STREAMS_BLOCKED
  | TxNewToken _ => FK_NEW_TOKEN | TxNewCid _ => FK_NEW_CONNECTION_ID
  | TxRetireCid _ => FK_RETIRE_CONNECTION_ID
  | TxPathChallenge _ => FK_PATH_CHALLENGE | TxPathResponse _ => FK_PATH_RESPONSE
  end.

Lemma ocat_first t rest l :
  0 <= t <= 0x3F -> ocat (varint_wire t :: rest) = Some l -> load l 0 = Some t.
Proof.
  intros Ht. unfold ocat. cbn [foldr]. intros (x & y & Hx & _ & ->)%oapp_Some.
  apply varint_wire_Some in Hx as [_ ->]. by rewrite varint_type.
Qed.

(** What the encoder produced is what the walker measures: from the contract
    of the codec and the row of the length table. *)
Lemma walkable_of_contract {A} enc dec ok wire (same : A -> A -> Prop) f t :
  codec_contract enc dec ok wire same -> ok f -> 0 <= t <= 0x3F ->
  (forall l, wire f = Some l -> load l 0 = Some t) ->
  (forall b, frame_len t b = consumed (dec b)) ->
  forall buf n buf', zlen buf < span_max -> enc buf f = Some (n, buf') -> n <> 0 ->
  walkable t (take (Z.to_nat n) buf') /\ zlen (take (Z.to_nat n) buf') = n.
Proof.
  intros Hc Hok Ht Hw Hl buf n buf' Hb He Hn.
  destruct (Hc f buf Hok Hb) as [(l & Hwl & Hz & E & Hd)|(_ & b & E & _)]; rewrite E in He; simplify_eq.
  rewrite splice_0_take by lia. split; [|done]. split; [done|]. split; [by apply Hw|].
  intros post Hs. destruct (Hd post Hs) as (g & Eg & _). by rewrite Hl, Eg.
Qed.

Lemma walkable_single t buf n buf' :
  t = 0 \/ t = 1 \/ t = 0x1e ->
  (if zlen buf =? 0 then Some (0, buf) else b ← store buf 0 t; Some (1, b)) = Some (n, buf') -> n <> 0 ->
  walkable t (take (Z.to_nat n) buf') /\ zlen (take (Z.to_nat n) buf') = n.
Proof.
  intros Ht He Hn. destruct buf as [|x xs]; [by simplify_eq/=|].
  rewrite zlen_cons in He. pose proof (zlen_nonneg xs). bcase in He; [lia|].
  rewrite store_in in He by (rewrite zlen_cons; lia). cbn in He. simplify_eq. cbn.
  split; [|done]. split; [lia|]. split; [done|]. intros post _.
  by destruct Ht as [->|[->| ->]].
Qed.

Lemma stream_wire_first f l :
  stream_wire f = Some l -> exists t, 0x0a <= t <= 0x0f /\ load l 0 = Some t /\
    t = 0x0a + (if sf_offset f =? 0 then 0 else 4) + (if sf_fin f =? 0 then 0 else 1).
Proof.
  unfold stream_wire. intros Hl. eexists. split; [|split; [|reflexivity]]; [repeat bcase; lia|].
  eapply ocat_first; [|exact Hl]. repeat bcase; lia.
Qed.

Ltac tx_first := intros ? ?; unfold crypto_wire, conn_close_wire, datagram_wire, reset_stream_wire,
  stop_sending_wire, one_varint_wire, two_varint_wire, new_token_wire, retire_cid_wire in *; eapply ocat_first; [|eassumption]; lia.

Lemma classify_stream t : 0x0a <= t <= 0x0f -> frame_classify t = FK_STREAM /\
  forall b, frame_len t b = consumed (frame_get_stream b).
Proof.
  intros Ht. assert (t = 10 \/ t = 11 \/ t = 12 \/ t = 13 \/ t = 14 \/ t = 15) as H by lia.
  by destruct H as [->|[->|[->|[->|[->| ->]]]]].
Qed.

Lemma tx_walkable x buf n buf' :
  tx_ok x -> zlen buf < span_max -> tx_encode buf x = Some (n, buf') -> n <> 0 ->
  exists t, frame_classify t = tx_kind x /\ walkable t (take (Z.to_nat n) buf') /\
    zlen (take (Z.to_nat n) buf') = n.
Proof.
  intros Hok Hb He Hn. destruct x; cbn [tx_ok tx_encode tx_kind] in *.
  - exists 0. split; [done|]. eapply walkable_single; eauto.
  - exists 1. split; [done|]. eapply walkable_single; eauto.
  - exists 0x1e. split; [done|]. eapply walkable_single; eauto.
  - exists (if af_has_ecn f =? 0 then 0x02 else 0x03). split; [by bcase|].
    eapply (walkable_of_contract _ _ _ _ _ _ _ (ack_contract no_ranges eq_refl)); eauto.
    + bcase; lia.
    + intros l Hl. unfold ack_wire in Hl. destruct (ack_used f); [done|]. bcase in Hl; [|done].
      eapply ocat_first; [|exact Hl]. bcase; lia.
    + by bcase.
  - exists 0x06. split; [done|].
    eapply (walkable_of_contract _ _ _ _ _ _ _ crypto_contract); eauto; [lia|tx_first].
  - set (t := 0x0a + (if sf_offset f =? 0 then 0 else 4) + (if sf_fin f =? 0 then 0 else 1)).
    assert (0x0a <= t <= 0x0f) as Ht by (subst t; repeat bcase; lia).
    destruct (classify_stream t Ht) as [Hk Hfl]. exists t. split; [done|].
    eapply (walkable_of_contract _ _ _ _ _ _ _ stream_contract); eauto; [lia|].
    intros l Hl. by destruct (stream_wire_first f l Hl) as (? & _ & ? & ->).
  - exists (if cc_is_app f =? 0 then 0x1c else 0x1d). split; [by bcase|].
    eapply (walkable_of_contract _ _ _ _ _ _ _ conn_close_contract); eauto; [bcase; lia| |by bcase].
    unfold conn_close_wire. intros l Hl. eapply ocat_first; [|exact Hl]. bcase; lia.
  - exists 0x31. split; [done|].
    eapply (walkable_of_contract _ _ _ _ _ _ _ datagram_contract); eauto; [lia|tx_first].
  - exists 0x04. split; [done|].
    eapply (walkable_of_contract _ _ _ _ _ _ _ reset_stream_contract); eauto; [lia|tx_first].
  - exists 0x05. split; [done|].
    eapply (walkable_of_contract _ _ _ _ _ _ _ stop_sending_contract); eauto; [lia|tx_first].
  - exists 0x24. split; [done|].
    eapply (walkable_of_contract _ _ _ _ _ _ _ reset_stream_at_contract); eauto; [lia|].
    intros l Hl. unfold reset_stream_at_wire in Hl. bcase in Hl; [|done].
    eapply ocat_first; [|exact Hl]; lia.
  - exists 0x10. split; [done|].
    eapply (walkable_of_contract _ _ _ _ _ _ _ (one_varint_contract mk_data df_value 0x10 _ _)); eauto;
      [lia|tx_first].
  - exists 0x14. split; [done|].
    eapply (walkable_of_contract _ _ _ _ _ _ _ (one_varint_contract mk_data df_value 0x14 _ _)); eauto;
      [lia|tx_first].
  - exists 0x11. split; [done|].
    eapply (walkable_of_contract _ _ _ _ _ _ _ (two_varint_contract 0x11 _)); eauto; [lia|tx_first].
  - exists 0x15. split; [done|].
    eapply (walkable_of_contract _ _ _ _ _ _ _ (two_varint_contract 0x15 _)); eauto; [lia|tx_first].
  - exists (0x12 + st_uni f). destruct Hok as [? Hu].
    split; [by destruct Hu as [->| ->]|].
    eapply (walkable_of_contract _ _ _ _ _ _ _ (streams_contract 0x12 _ eq_refl));
      [done|lia|tx_first|by destruct Hu as [->| ->]|eauto..].
  - exists (0x16 + st_uni f). destruct Hok as [? Hu].
    split; [by destruct Hu as [->| ->]|].
    eapply (walkable_of_contract _ _ _ _ _ _ _ (streams_contract 0x16 _ eq_refl));
      [done|lia|tx_first|by destruct Hu as [->| ->]|eauto..].
  - exists 0x07. split; [done|].
    eapply (walkable_of_contract _ _ _ _ _ _ _ new_token_contract); eauto; [lia|tx_first].
  - exists 0x18. split; [done|].
    eapply (walkable_of_contract _ _ _ _ _ _ _ (ncid_contract (replicate 20 0) (replicate 16 0) eq_refl eq_refl));
      eauto; [lia|].
    intros l Hl. unfold ncid_wire in Hl. bcase in Hl; [|done]. eapply ocat_first; [|exact Hl]; lia.
  - exists 0x19. split; [done|].
    eapply (walkable_of_contract _ _ _ _ _ _ _ retire_cid_contract); eauto; [lia|tx_first].
  - exists 0x1a. split; [done|].
    eapply (walkable_of_contract _ _ _ _ _ _ _ (path_contract 0x1a _)); eauto; [lia|].
    by intros l [= <-].
  - exists 0x1b. split; [done|].
    eapply (walkable_of_contract _ _ _ _ _ _ _ (path_contract 0x1b _)); eauto; [lia|].
    by intros l [= <-].
  Unshelve. all: try (by intros []); try lia; try (unfold is_u8; lia).
Qed.

(** ** Packing and walking *)

Lemma framepack_wspec ls :
  Forall (fun l => zlen l < span_max) ls -> wspec (pktbuild_framepack ls) (Some (concat ls)).
Proof.
  induction 1 as [|l ls Hl _ IH]; [apply wspec_true|]. cbn [pktbuild_framepack concat].
  eapply wspec_eq; [apply wspec_seq; [apply bytes_put_wspec|exact IH]|].
  - pose proof (zlen_nonneg l). lia.
  - done.
  - cbn. rewrite take_ge by (unfold zlen; lia). done.
Qed.

(** [l] is the output of the encoder of [x] on some buffer. *)
Definition encoded (x : tx_frame) (l : list Z) : Prop :=
  tx_ok x /\ exists buf n buf', zlen buf < span_max /\ tx_encode buf x = Some (n, buf') /\
    n <> 0 /\ l = take (Z.to_nat n) buf'.

Lemma encoded_walkable xs ls :
  Forall2 encoded xs ls ->
  exists ts, map frame_classify ts = map tx_kind xs /\ length ts = length ls /\
    Forall (fun f => walkable f.1 f.2) (zip ts ls).
Proof.
  induction 1 as [|x l xs ls Hx _ IH]; [by exists []|].
  destruct IH as (ts & Hk & Hl & Hw).
  destruct Hx as (Hok & buf & n & buf' & Hb & He & Hn & ->).
  destruct (tx_walkable x buf n buf' Hok Hb He Hn) as (t & Ht & Hwt & _).
  exists (t :: ts). cbn [map length zip zip_with]. split_and!; [by rewrite Ht, Hk|by rewrite Hl|by constructor].
Qed.

(** The offset of each frame in the payload. *)
Fixpoint frame_offsets (off : Z) (ls : list (list Z)) : list Z :=
  match ls with
  | [] => []
  | l :: rest => off :: frame_offsets (off + zlen l) rest
  end.

Lemma fold_types total ts ls : forall acc,
  length ts = length ls ->
  fold_left (fun acc fr => acc ++ [(it_type fr, total - it_remaining fr)]) (walk_items (zip ts ls)) acc =
    acc ++ zip ts (frame_offsets (total - zlen (concat ls)) ls).
Proof.
  revert ts. induction ls as [|l ls IH]; intros [|t ts] acc Hl; try done.
  { cbn. by rewrite app_nil_r. }
  simpl in Hl. cbn [zip zip_with walk_items fold_left frame_offsets].
  rewrite IH by congruence. cbn [map snd concat it_type it_remaining].
  replace (map snd (zip_with pair ts ls)) with ls.
  - rewrite <- app_assoc. cbn. rewrite zlen_app. do 4 f_equal. lia.
  - symmetry. clear IH. revert ts Hl. induction ls as [|a ls IH]; intros [|b ts] Hl; try done.
    simpl in *. f_equal. apply IH. congruence.
Qed.

Lemma map_snd_zip_eq (ts : list Z) (ls : list (list Z)) :
  length ts = length ls -> map snd (zip ts ls) = ls /\ map fst (zip ts ls) = ts.
Proof.
  revert ts. induction ls as [|l ls IH]; intros [|t ts] Hl; try done.
  cbn in *. destruct (IH ts ltac:(congruence)) as [E1 E2]. unfold zip in *. by rewrite E1, E2.
Qed.

Lemma framewalk_loop_encoded {A} (body : A -> framewalk_item -> A) ts ls acc :
  Forall (fun f => walkable f.1 f.2) (zip ts ls) -> length ts = length ls ->
  zlen (concat ls) < span_max ->
  framewalk_loop (length (concat ls)) body acc (framewalk_init (concat ls) (zlen (concat ls))) =
    Ok (fold_left body (walk_items (zip ts ls)) acc).
Proof.
  intros Hw Hl Hs. destruct (map_snd_zip_eq ts ls Hl) as [E _].
  pose proof (framewalk_loop_walkable body (zip ts ls) (length (concat ls)) acc Hw) as H.
  pose proof (frames_length _ Hw) as Hfl. rewrite E in H, Hfl. by apply H.
Qed.

Lemma walk_existsb ts ls (p : frame_kind -> bool) xs :
  map frame_classify ts = map tx_kind xs -> length ts = length ls ->
  existsb (fun fr => p (frame_classify (it_type fr))) (walk_items (zip ts ls)) =
    existsb (fun x => p (tx_kind x)) xs.
Proof.
  intros Hk Hl. rewrite (existsb_map_fst it_type (fun t => p (frame_classify t))), walk_items_types.
  rewrite (proj2 (map_snd_zip_eq ts ls Hl)), (existsb_map_fst frame_classify p), Hk.
  symmetry. apply existsb_map_fst.
Qed.

(** C14: packing then walking.  If frames produced by the encoders are packed by
    [pktbuild_framepack] into one payload, the walk over that payload yields
    exactly those frames: one item per frame, in order, of the frame's kind
    and at the frame's offset; and the payload counts as ack-eliciting
    (non-probing) exactly when one of its frames is. *)
Theorem walk_of_packed_frames xs ls buf o :
  Forall2 encoded xs ls -> zlen buf < span_max -> Forall (fun l => zlen l < span_max) ls ->
  pktbuild_framepack ls (obuf_of buf) = Some (true, o) ->
  (exists ts, map frame_classify ts = map tx_kind xs /\
     framewalk_types (owritten o) = Ok (zip ts (frame_offsets 0 ls))) /\
  framewalk_ack_eliciting (owritten o) = Ok (existsb (fun x => frame_ack_eliciting (tx_kind x)) xs) /\
  framewalk_non_probing (owritten o) = Ok (existsb (fun x => negb (FRAMEWALK_PROBING (tx_kind x))) xs).
Proof.
  intros He Hb Hls Hp.
  destruct (framepack_wspec ls Hls (obuf_of buf)) as [(bs & [= <-] & Hfit & E)|(_ & o' & E & _)];
    [|rewrite E in Hp; simplify_eq/=; unfold ofits, ocap in *; simpl in *|congruence].
  { unfold obuf_ok, ocap. simpl. pose proof (zlen_nonneg buf). lia. }
  assert (owritten (obuf_app (obuf_of buf) (concat ls)) = concat ls) as Hw.
  { unfold owritten. cbn. apply splice_0_take. lia. }
  rewrite Hw. destruct (encoded_walkable xs ls He) as (ts & Hk & Hl & Hwk).
  assert (zlen (concat ls) < span_max) by lia.
  split_and!.
  - exists ts. split; [done|]. unfold framewalk_types.
    rewrite (framewalk_loop_encoded _ ts ls) by done. rewrite fold_types by done.
    by rewrite Z.sub_diag.
  - unfold framewalk_ack_eliciting. rewrite (framewalk_loop_encoded _ ts ls) by done.
    rewrite fold_orb. cbn. by rewrite <- (walk_existsb ts ls frame_ack_eliciting xs).
  - unfold framewalk_non_probing. rewrite (framewalk_loop_encoded _ ts ls) by done.
    rewrite fold_orb. cbn.
    by rewrite <- (walk_existsb ts ls (fun k => negb (FRAMEWALK_PROBING k)) xs).
Qed.

Lemma walk_of_packed_frames_witness :
  framewalk_types [2; 9; 0; 0; 2; 1; 10; 4; 2; 7; 8] = Ok [(2, 0); (1, 5); (10, 6)] /\
  exists ts, map frame_classify ts = [FK_ACK; FK_PING; FK_STREAM] /\
    framewalk_types [2; 9; 0; 0; 2; 1; 10; 4; 2; 7; 8] = Ok (zip ts [0; 5; 6]).
Proof.
  split; [reflexivity|].
  pose (f := mk_ack 0 1 (mk_range 9 7 :: replicate 31 (mk_range 0 0)) 0 0 0 0).
  pose (s := mk_stream 4 0 2 [7; 8] 0).
  destruct (walk_of_packed_frames [TxAck f; TxPing; TxStream s]
    [[2; 9; 0; 0; 2]; [1]; [10; 4; 2; 7; 8]] (replicate 11 0)
    (mk_obuf [2; 9; 0; 0; 2; 1; 10; 4; 2; 7; 8] 11)) as [H _].
  - repeat apply Forall2_cons_2; [| | |apply Forall2_nil_2].
    + split.
      * unfold tx_ok, ack_ok, is_u64, ACK_MAX_RANGES, f. cbn. split; [lia|]. split; [reflexivity|].
        split; [lia|]. split; [|lia]. unfold ack_used. cbn. unfold VARINT_MAX.
        repeat constructor; cbn; lia.
      * exists (replicate 8 0), 5, [2; 9; 0; 0; 2; 0; 0; 0]. split_and!; [reflexivity..|lia|reflexivity].
    + split; [exact I|]. exists [0], 1, [1]. split_and!; [reflexivity..|lia|reflexivity].
    + split.
      * unfold tx_ok, stream_sendable, stream_ok, is_u64, is_u8, VARINT_MAX, span_max, s, zlen. cbn. lia.
      * exists (replicate 5 0), 5, [10; 4; 2; 7; 8]. split_and!; [reflexivity..|lia|reflexivity].
  - reflexivity.
  - repeat constructor.
  - reflexivity.
  - exact H.
Defined.

(** C32: the walk ends on every payload.  Whatever bytes a peer sends, each
    successful [framewalk_next] starts at the cursor, stays inside the payload
    and consumes at least one byte, and the loop over a payload of n bytes ends
    within n rounds with a verdict. *)
Theorem framewalk_terminates pl :
  span_ok pl ->
  (forall it, fw_ok it ->
     match framewalk_next it with
     | Ok (fr, it') =>
         it_start fr = fw_cur it /\ fw_ok it' /\ fw_remaining it' < fw_remaining it /\
         exists len, fw_cur it' = drop (Z.to_nat len) (fw_cur it) /\
           fw_remaining it' = fw_remaining it - len
     | Fail => True
     | Oob => False
     end) /\
  (exists items, framewalk_types pl = Ok items) /\
  (exists b, framewalk_ack_eliciting pl = Ok b) /\ (exists b, framewalk_non_probing pl = Ok b).
Proof.
  intros Hs. split.
  - intros it Hok. pose proof (framewalk_next_safe it Hok) as H.
    destruct (framewalk_next it) as [[fr it']| |]; [|done|done].
    destruct H as (? & ? & ? & len & ? & ? & ?). split_and!; eauto. lia.
  - pose proof (zlen_nonneg pl).
    assert (fw_ok (framewalk_init pl (zlen pl))) by (split; [done|cbn; lia]).
    split_and!; apply framewalk_loop_total; cbn; unfold zlen; (done || lia).
Qed.

Lemma framewalk_terminates_witness :
  (exists items, framewalk_types [0x40; 1; 0x0a; 4; 0xff] = Ok items) /\
  framewalk_types [0x40; 1; 0x0a; 4; 0xff] = Ok [(1, 0); (1, 1)].
Proof.
  split; [|reflexivity].
  destruct (framewalk_terminates [0x40; 1; 0x0a; 4; 0xff]) as (_ & H & _); [|exact H].
  split; [|reflexivity]. repeat constructor; vm_compute; congruence.
Defined.

(** Classification agrees across the code and with RFC 9000 12.4.  A type is
    STREAM exactly in 0x08..0x0f; the two ack-eliciting tests agree on every
    known type; a reserved (0x1f * N + 0x21) type is never a known one; a frame
    is allowed in Initial and Handshake packets exactly when it is PADDING,
    PING, ACK, CRYPTO or CONNECTION_CLOSE; only ACK, CRYPTO, NEW_TOKEN,
    PATH_RESPONSE and HANDSHAKE_DONE are kept out of 0-RTT; and every known
    frame is allowed in 1-RTT. *)
Theorem frame_classification type kind :
  (frame_classify type = FK_STREAM <-> 0x08 <= type <= 0x0f) /\
  (frame_classify type <> FK_UNKNOWN ->
     frame_ack_eliciting (frame_classify type) = negb (is_non_eliciting type) /\
     frame_is_grease type = false) /\
  (frame_permitted kind PKT_INITIAL = frame_permitted kind PKT_HANDSHAKE) /\
  (frame_permitted kind PKT_INITIAL = true <->
     kind ∈ [FK_PADDING; FK_PING; FK_ACK; FK_CRYPTO; FK_CONNECTION_CLOSE]) /\
  (frame_permitted kind PKT_0RTT = false <->
     kind ∈ [FK_UNKNOWN; FK_ACK; FK_CRYPTO; FK_NEW_TOKEN; FK_PATH_RESPONSE; FK_HANDSHAKE_DONE]) /\
  (frame_permitted kind PKT_1RTT = true <-> kind <> FK_UNKNOWN).
Proof.
  assert (forall k, frame_classify type = k -> k <> FK_UNKNOWN -> (type, k) ∈ KIND_TABLE) as Hin.
  { unfold frame_classify. induction KIND_TABLE as [|[t k0] rows IH]; intros k Hk Hn; cbn in Hk;
      [congruence|]. bcase in Hk; [|by right; apply IH].
    assert (type = t) as -> by lia. subst. by left. }
  split_and!.
  - split; [|intros; assert (type = 8 \/ type = 9 \/ 10 <= type <= 15) as [->|[->|?]] by lia;
      [done|done|by apply classify_stream]].
    intros Hk. specialize (Hin _ Hk ltac:(done)). unfold KIND_TABLE in Hin.
    rewrite !elem_of_cons, elem_of_nil in Hin.
    repeat (destruct Hin as [Hin|Hin]; [congruence || (injection Hin as ->; lia)|]). done.
  - intros Hn. specialize (Hin _ eq_refl Hn). revert Hn.
    generalize (frame_classify type) Hin. intros k Hk _. unfold KIND_TABLE in Hk.
    rewrite !elem_of_cons, elem_of_nil in Hk.
    repeat (destruct Hk as [Hk|Hk]; [injection Hk as -> ->; done|]). done.
  - by destruct kind.
  - rewrite !elem_of_cons, elem_of_nil. destruct kind; vm_compute; intuition congruence.
  - rewrite !elem_of_cons, elem_of_nil. destruct kind; vm_compute; intuition congruence.
  - destruct kind; vm_compute; split; intros; congruence.
Qed.

Lemma frame_classification_witness :
  frame_classify 0x31 = FK_DATAGRAM /\ frame_is_grease 0x40 = true /\
  frame_ack_eliciting (frame_classify 0x31) = negb (is_non_eliciting 0x31).
Proof.
  split_and!; [reflexivity..|].
  apply (frame_classification 0x31 FK_PING). vm_compute. congruence.
Defined.

(** C33: decoder safety. On any non-empty byte string below 2^62 bytes, each of the
    nineteen frame decoders (ACK, CRYPTO, STREAM, CONNECTION_CLOSE, NEW_TOKEN,
    NEW_CONNECTION_ID, the six flow-control frames, RESET_STREAM, STOP_SENDING,
    RESET_STREAM_AT, RETIRE_CONNECTION_ID, the path frames, DATAGRAM and
    HANDSHAKE_DONE) stays inside the string, and a frame it accepts consumed at least
    one and at most all of the bytes and satisfies its bounds: data views lie inside
    the packet, STREAM data ends below 2^62, ACK ranges descend and do not touch,
    connection ids have 1 to 20 bytes, a reliable size is at most the final size. *)
Theorem frame_decoders_safe cid token type ranges :
  zlen cid = NCID_MAX_LEN -> zlen token = NCID_TOKEN -> bytes_ok cid -> bytes_ok token -> zlen ranges = ACK_MAX_RANGES ->
  decoder_safe frame_get_crypto (fun f => 0 <= cf_offset f <= VARINT_MAX /\
    0 <= cf_length f <= zlen (cf_data f)) /\
  decoder_safe frame_get_stream (fun f => 0 <= sf_stream_id f <= VARINT_MAX /\
    0 <= sf_offset f /\ 0 <= sf_length f <= zlen (sf_data f) /\
    sf_offset f + sf_length f <= VARINT_MAX /\ (sf_fin f = 0 \/ sf_fin f = 1)) /\
  decoder_safe frame_get_conn_close (fun f => (cc_is_app f = 0 \/ cc_is_app f = 1) /\
    0 <= cc_error_code f <= VARINT_MAX /\ 0 <= cc_reason_len f <= zlen (cc_reason f)) /\
  decoder_safe new_token_decode (fun f => 0 <= nt_length f <= zlen (nt_token f)) /\
  decoder_safe (ncid_decode cid token) (fun f => 1 <= nc_cid_len f <= NCID_MAX_LEN /\
    zlen (nc_cid f) = NCID_MAX_LEN /\ zlen (nc_token f) = NCID_TOKEN) /\
  decoder_safe max_data_decode (fun f => exists v, f = mk_data v /\ 0 <= v <= VARINT_MAX) /\
  decoder_safe max_stream_data_decode
    (fun f => 0 <= sd_stream_id f <= VARINT_MAX /\ 0 <= sd_value f <= VARINT_MAX) /\
  decoder_safe max_streams_decode
    (fun f => 0 <= st_max_streams f <= VARINT_MAX /\ (st_uni f = 0 \/ st_uni f = 1)) /\
  decoder_safe reset_stream_decode (fun f => 0 <= rs_final_size f <= VARINT_MAX) /\
  decoder_safe stop_sending_decode (fun f => 0 <= ss_stream_id f <= VARINT_MAX) /\
  decoder_safe reset_stream_at_decode
    (fun f => rsat_reliable_size f <= rsat_final_size f <= VARINT_MAX) /\
  decoder_safe retire_cid_decode (fun seq => 0 <= seq <= VARINT_MAX) /\
  decoder_safe (fun buf => path_decode buf type) (fun d => zlen d = 8) /\
  decoder_safe (ack_decode ranges) ack_frame_wf /\
  decoder_safe data_blocked_decode (fun f => exists v, f = mk_data v /\ 0 <= v <= VARINT_MAX) /\
  decoder_safe stream_data_blocked_decode
    (fun f => 0 <= sd_stream_id f <= VARINT_MAX /\ 0 <= sd_value f <= VARINT_MAX) /\
  decoder_safe streams_blocked_decode
    (fun f => 0 <= st_max_streams f <= VARINT_MAX /\ (st_uni f = 0 \/ st_uni f = 1)) /\
  decoder_safe datagram_decode (fun f => 0 <= dg_length f <= zlen (dg_data f)) /\
  (forall buf, handshake_done_decode buf = if decide (head buf = Some 0x1e) then Ok 1 else Fail).
Proof.
  intros. split_and!; auto using crypto_safe, stream_safe, conn_close_safe, new_token_safe,
    ncid_safe, two_varint_safe, streams_safe, reset_stream_safe, stop_sending_safe,
    reset_stream_at_safe, retire_cid_safe, path_safe, ack_decode_safe, datagram_safe.
  1, 2: apply one_varint_safe.
  intros [|b buf]; [done|]. unfold handshake_done_decode. rewrite zlen_cons. pose proof (zlen_nonneg buf).
  destruct (Z.eqb_spec (1 + zlen buf) 0); [lia|]. rewrite load_cons_0. cbn [head]. destruct (Z.eqb_spec b FRAME_HANDSHAKE_DONE) as [->|Hn]; cbn [negb].
  - by rewrite decide_True.
  - rewrite decide_False by (intros [= ->]; by apply Hn). done.
Qed.

Lemma frame_decoders_safe_witness :
  frame_get_stream [0x0e; 4; 0xFF; 0xFF; 0xFF; 0xFF; 0xFF; 0xFF; 0xFF; 0xFF; 2; 1; 1] = Fail /\
  match frame_get_stream [0x0a; 4; 2; 1; 1] with
  | Ok (f, n) => 1 <= n <= 5 /\ sf_offset f + sf_length f <= VARINT_MAX
  | Fail => True
  | Oob => False
  end.
Proof.
  split; [reflexivity|].
  destruct (frame_decoders_safe (replicate 20 0) (replicate 16 0) 0x1a no_ranges) as (_ & H & _);
    [reflexivity|reflexivity| | |reflexivity|].
  1, 2: repeat constructor; vm_compute; congruence.
  specialize (H [0x0a; 4; 2; 1; 1]).
  destruct (frame_get_stream [0x0a; 4; 2; 1; 1]) as [[f n]| |].
  - destruct H as (H1 & _ & _ & _ & H2 & _); [|reflexivity|split; assumption].
    split; [repeat constructor; vm_compute; congruence|reflexivity].
  - exact I.
  - apply H; [split; [repeat constructor; vm_compute; congruence|reflexivity]|reflexivity].
Defined.
