(* ===== verification/PktNum.v ===== *)
(** * Packet number truncation (src/src/transport/packet/header/packet/pnum.c, pnlen.c)

    RFC 9000 appendix A: the sender writes the low 1 to 4 bytes of a packet
    number, the receiver picks the number nearest to the one it expects. *)

From stdpp Require Import base numbers list option.
From Stdlib Require Import ZArith Lia.
From S2P Require Import Prelude Bytes Varint.

(** [while (b < 4 && need >= (1 << 8b)) b++;] from [b], [fuel] rounds at most;
    [b] starts at 1, so 3 rounds reach 4. *)
Fixpoint pnum_len_loop (fuel : nat) (need b : Z) : Z :=
  match fuel with
  | O => b
  | S fuel' =>
      if (b <? 4) && (u64 (Z.shiftl 1 (8 * b)) <=? need) then pnum_len_loop fuel' need (b + 1)
      else b
  end.

(* src/src/transport/packet/header/packet/pnum.c : pnum_len *)
Definition pnum_len (full_pn largest_acked : Z) : Z :=
  pnum_len_loop 4 (u64 (u64 (full_pn - largest_acked) * 2)) 1.

(* src/src/transport/packet/header/packet/pnum.c : pnum_encode *)
Definition pnum_encode (buf : list Z) (base full_pn nbytes : Z) : option (Z * list Z) :=
  buf' ← put_be_loop buf base (Z.to_nat nbytes) full_pn; Some (nbytes, buf').

(* src/src/transport/packet/header/packet/pnum.c : read_be *)
Definition read_be (buf : list Z) (nbytes : Z) : option Z := get_be_loop buf 0 (Z.to_nat nbytes) 0.

(* src/src/transport/packet/header/packet/pnum.c : below_window *)
Definition below_window (candidate expected win : Z) : bool :=
  (u64 (candidate + win / 2) <=? expected) && (candidate <? u64 (candidate + win)).

(* src/src/transport/packet/header/packet/pnum.c : above_window *)
Definition above_window (candidate expected win : Z) : bool :=
  (u64 (expected + win / 2) <? candidate) && (win <=? candidate).

(* src/src/transport/packet/header/packet/pnum.c : nearest *)
Definition nearest (candidate expected win : Z) : Z :=
  if below_window candidate expected win then u64 (candidate + win)
  else if above_window candidate expected win then u64 (candidate - win)
  else candidate.

(* src/src/transport/packet/header/packet/pnum.c : pnum_decode *)
Definition pnum_decode (buf : list Z) (nbytes largest_pn : Z) : option Z :=
  truncated ← read_be buf nbytes;
  let bits := nbytes * 8 in
  let win := u64 (Z.shiftl 1 bits) in
  let expected := u64 (largest_pn + 1) in
  let candidate := Z.lor (Z.ldiff expected (u64 (win - 1))) truncated in
  Some (nearest candidate expected win).

(** [while (b < 4 && (num_unacked >> (8b - 1)) != 0) b++;] *)
Fixpoint pnlen_loop (fuel : nat) (num_unacked b : Z) : Z :=
  match fuel with
  | O => b
  | S fuel' =>
      if (b <? 4) && negb (Z.shiftr num_unacked (8 * b - 1) =? 0) then pnlen_loop fuel' num_unacked (b + 1)
      else b
  end.

(* src/src/transport/packet/header/packet/pnlen.c : pnlen_needed *)
Definition pnlen_needed (pn largest_acked : Z) : Z :=
  pnlen_loop 4 (u64 (pn - largest_acked)) 1.

(** ** The two length functions *)

Lemma shiftr_eq_0 n k : 0 <= n -> 0 <= k -> (Z.shiftr n k =? 0) = (n <? 2 ^ k).
Proof.
  intros Hn Hk. rewrite Z.shiftr_div_pow2 by done.
  assert (0 < 2 ^ k) by (apply Z.pow_pos_nonneg; lia).
  destruct (n <? 2 ^ k) eqn:E.
  - rewrite Z.div_small by lia. done.
  - assert (1 <= n / 2 ^ k) by (apply Z.div_le_lower_bound; lia). lia.
Qed.

Lemma pnlen_spec n :
  0 <= n ->
  pnlen_loop 4 n 1 =
    if n <? 0x80 then 1 else if n <? 0x8000 then 2 else if n <? 0x800000 then 3 else 4.
Proof.
  intros Hn. cbn [pnlen_loop]. rewrite !shiftr_eq_0 by lia. simpl. repeat (bcase; try lia).
Qed.

Lemma pnum_len_spec n :
  0 <= n < 9223372036854775808 ->
  pnum_len_loop 4 (u64 (n * 2)) 1 =
    if n <? 0x80 then 1 else if n <? 0x8000 then 2 else if n <? 0x800000 then 3 else 4.
Proof.
  intros Hn. rewrite u64_small by lia. cbn [pnum_len_loop].
  change (u64 (Z.shiftl 1 (8 * 1))) with 0x100. change (u64 (Z.shiftl 1 (8 * (1 + 1)))) with 0x10000.
  change (u64 (Z.shiftl 1 (8 * (1 + 1 + 1)))) with 0x1000000. simpl.
  repeat (bcase; try lia).
Qed.

(** ** Decoding *)

Lemma win_value n : 1 <= n <= 4 -> u64 (Z.shiftl 1 (n * 8)) = 256 ^ n /\ 256 ^ n <= 4294967296.
Proof.
  intros Hn. assert (n = 1 \/ n = 2 \/ n = 3 \/ n = 4) as [->|[->|[->| ->]]] by lia; done.
Qed.

Lemma mask_lor e t n :
  0 <= n -> 0 <= e -> 0 <= t < 2 ^ n ->
  Z.lor (Z.ldiff e (2 ^ n - 1)) t = e - e mod 2 ^ n + t.
Proof.
  intros Hn He Ht. replace (2 ^ n - 1) with (Z.ones n) by (rewrite Z.ones_equiv; lia).
  rewrite Z.ldiff_ones_r by lia. rewrite lor_shiftl by lia. rewrite Z.shiftr_div_pow2 by lia.
  assert (0 < 2 ^ n) as Hp by (apply Z.pow_pos_nonneg; lia).
  assert (2 ^ n <> 0) as Hz by (intros E; rewrite E in Hp; done).
  pose proof (Z.div_mod e (2 ^ n) Hz) as Hd. set (w := 2 ^ n) in *. lia.
Qed.

(** A window of [win] numbers around [expected] holds one number per residue:
    the code's three cases pick it. *)
Lemma nearest_spec e pn win :
  0 < win <= 4294967296 -> win mod 2 = 0 -> 0 <= e < span_max -> 0 <= pn < span_max ->
  e - win / 2 < pn <= e + win / 2 ->
  nearest (e - e mod win + pn mod win) e win = pn.
Proof.
  unfold span_max. intros Hw Hev He Hp Hr.
  pose proof (Z.mod_pos_bound e win ltac:(lia)). pose proof (Z.mod_pos_bound pn win ltac:(lia)).
  pose proof (Z.div_mod e win ltac:(lia)) as De. pose proof (Z.div_mod pn win ltac:(lia)) as Dp.
  pose proof (Z.div_mod win 2 ltac:(lia)) as Dw.
  pose proof (Z.mod_le e win ltac:(lia) ltac:(lia)).
  set (h := win / 2) in *. set (qe := e / win) in *. set (qp := pn / win) in *.
  set (c := e - e mod win + pn mod win).
  assert (c = pn + (qe - qp) * win) as Hc by (subst c; nia).
  assert (qe - qp = -1 \/ qe - qp = 0 \/ qe - qp = 1) as Hq by nia.
  unfold nearest, below_window, above_window. rewrite !(u64_small (_ + _)) by (subst c; lia).
  fold h. destruct Hq as [Hq|[Hq|Hq]]; rewrite Hq in Hc.
  - replace ((c + h <=? e) && (c <? c + win)) with true by lia. lia.
  - replace ((c + h <=? e) && (c <? c + win)) with false by lia.
    replace ((e + h <? c) && (win <=? c)) with false by lia. lia.
  - replace ((c + h <=? e) && (c <? c + win)) with false by lia.
    replace ((e + h <? c) && (win <=? c)) with true by lia. rewrite u64_small by lia. lia.
Qed.

Lemma read_be_spec n v post :
  1 <= n <= 4 -> 0 <= v ->
  read_be (be_bytes (Z.to_nat n) v ++ post) n = Some (v mod 256 ^ n).
Proof.
  intros Hn Hv. unfold read_be.
  rewrite <- (length_be_bytes (Z.to_nat n) v) at 2. rewrite (get_be_loop_spec (be_bytes (Z.to_nat n) v)).
  - rewrite fold_be_bytes by done. by rewrite Z.mul_0_l, Z.add_0_l, Z2Nat.id by lia.
  - cbn. by rewrite drop_0, take_app_length.
  - lia.
  - apply be_bytes_ok.
  - lia.
  - rewrite zlen_be_bytes, Z2Nat.id by lia. pose proof (win_value n Hn). lia.
Qed.

Lemma pnum_decode_nearest n pn largest post :
  1 <= n <= 4 -> 0 <= pn < span_max -> is_u64 largest -> u64 (largest + 1) < span_max ->
  u64 (largest + 1) - 256 ^ n / 2 < pn <= u64 (largest + 1) + 256 ^ n / 2 ->
  pnum_decode (be_bytes (Z.to_nat n) pn ++ post) n largest = Some pn.
Proof.
  intros Hn Hp Hl He Hr. unfold pnum_decode. rewrite read_be_spec by lia. osimpl.
  destruct (win_value n Hn) as [Ew Hw]. cbv zeta. rewrite Ew.
  pose proof (u64_range (largest + 1)). set (e := u64 (largest + 1)) in *.
  assert (256 ^ n = 2 ^ (8 * n)) as E2 by (change 256 with (2 ^ 8); by rewrite <- Z.pow_mul_r by lia).
  assert (0 < 256 ^ n) by (apply Z.pow_pos_nonneg; lia).
  rewrite u64_small by lia. pose proof (Z.mod_pos_bound pn (256 ^ n) ltac:(lia)).
  rewrite E2 in *. rewrite mask_lor by lia. rewrite <- E2 in *.
  f_equal. apply nearest_spec; try lia.
  assert (n = 1 \/ n = 2 \/ n = 3 \/ n = 4) as [->|[->|[->| ->]]] by lia; done.
Qed.

(** ** Properties of packet number truncation *)

(** The unacknowledged distance fits the window of the length chosen. *)
Lemma pnlen_window n :
  0 <= n <= 2147483648 ->
  let b := pnlen_loop 4 n 1 in 1 <= b <= 4 /\ n <= 256 ^ b / 2.
Proof.
  intros Hn. cbv zeta. rewrite pnlen_spec by lia.
  repeat bcase; (split; [lia|]); change (256 ^ 1 / 2) with 128; change (256 ^ 2 / 2) with 32768;
    change (256 ^ 3 / 2) with 8388608; change (256 ^ 4 / 2) with 2147483648; lia.
Qed.

Lemma u64_of_pred x : -1 <= x < span_max -> u64 (u64 x + 1) = x + 1.
Proof.
  unfold span_max. intros Hx. destruct (Z.eq_dec x (-1)) as [->|]; [reflexivity|].
  rewrite (u64_small x) by lia. apply u64_small. lia.
Qed.

Lemma u64_distance pn la :
  0 <= pn < span_max -> -1 <= la < pn -> u64 (pn - u64 la) = pn - la.
Proof.
  unfold span_max. intros Hp Hla. destruct (Z.eq_dec la (-1)) as [->|]; [|rewrite (u64_small la) by lia; apply u64_small; lia].
  change (u64 (-1)) with 18446744073709551615. unfold u64.
  rewrite <- (Z.mod_add _ 1) by lia. rewrite Z.mod_small by lia. lia.
Qed.

(** Packet number recovery (RFC 9000 A.2, A.3).  The sender encodes [pn] in
    [pnlen_needed pn la] bytes, [la] the largest number acknowledged (-1, i.e.
    ~0, when none).  A receiver that has everything acknowledged ([la <= L], [L]
    its largest number) and is not half a window ahead of [pn] recovers exactly
    [pn], as long as at most 2^31 packets are unacknowledged. *)
Theorem pnum_roundtrip pn la L buf :
  0 <= pn < span_max -> -1 <= la < pn -> pn - la <= 2147483648 -> la <= L < span_max - 1 ->
  let n := pnlen_needed pn (u64 la) in
  L + 1 - pn < 256 ^ n / 2 -> n <= zlen buf ->
  exists buf', pnum_encode buf 0 pn n = Some (n, buf') /\ zlen buf' = zlen buf /\
    pnum_decode buf' n (u64 L) = Some pn.
Proof.
  intros Hp Hla Hd HL n Hr Hb. subst n. unfold pnlen_needed in *. rewrite u64_distance in * by done.
  destruct (pnlen_window (pn - la) ltac:(lia)) as [Hn Hw].
  set (n := pnlen_loop 4 (pn - la) 1) in *. unfold pnum_encode.
  rewrite put_be_loop_spec by lia. osimpl. eexists. split; [done|].
  assert (zlen (be_bytes (Z.to_nat n) pn) = n) as Hz by (rewrite zlen_be_bytes; lia).
  split; [apply zlen_splice; lia|]. unfold splice. cbn [take app]. change (Z.to_nat 0) with O.
  rewrite take_0. cbn [app].
  apply pnum_decode_nearest; rewrite ?u64_of_pred by lia; unfold is_u64; try lia.
  apply u64_range.
Qed.

Lemma pnum_roundtrip_witness :
  pnum_encode [0; 0; 0] 0 0xac5c02 2 = Some (2, [0x5c; 0x02; 0]) /\
  exists buf', pnum_encode [0; 0; 0] 0 0xac5c02 2 = Some (2, buf') /\ zlen buf' = 3 /\
    pnum_decode buf' 2 0xac5c01 = Some 0xac5c02.
Proof.
  split; [reflexivity|].
  apply (pnum_roundtrip 0xac5c02 0xabe8b3 0xac5c01 [0; 0; 0]);
    vm_compute; (congruence || (split; congruence)).
Defined.

(** The two length routines [pnlen_needed] and [pnum_len] agree whenever the
    unacknowledged distance is below 2^63, and both return the least b of 1 to
    4 with 2 * distance < 2^(8b), or 4. *)
Theorem pn_length_routines_agree pn la :
  u64 (pn - la) < 9223372036854775808 ->
  pnlen_needed pn la = pnum_len pn la /\ 1 <= pnlen_needed pn la <= 4 /\
  (forall b, 1 <= b < 4 -> (b < pnlen_needed pn la <-> 2 ^ (8 * b) <= 2 * u64 (pn - la))).
Proof.
  pose proof (u64_range (pn - la)) as Hr. intros H. unfold pnlen_needed, pnum_len.
  rewrite pnlen_spec, pnum_len_spec by lia. split; [done|]. split; [repeat bcase; lia|].
  intros b Hb. assert (b = 1 \/ b = 2 \/ b = 3) as [->|[->| ->]] by lia;
    [change (2 ^ (8 * 1)) with 256|change (2 ^ (8 * 2)) with 65536|change (2 ^ (8 * 3)) with 16777216];
    repeat bcase; lia.
Qed.

Lemma pn_length_routines_agree_witness :
  pnlen_needed 0xac5c02 0xabe8b3 = 2 /\ pnlen_needed 0xac5c02 0xabe8b3 = pnum_len 0xac5c02 0xabe8b3.
Proof.
  split; [reflexivity|]. apply (pn_length_routines_agree 0xac5c02 0xabe8b3). reflexivity.
Defined.
