(* ===== verification/Header.v ===== *)
(** * Packet headers (src/src/transport/packet/header)

    Long and short headers, the Initial token, the full long header of
    lhdr_build.c / lhdr_parse.c, the packet type bits of both QUIC versions
    (src/src/transport/version/version/v2types.c), and the split of a datagram
    into coalesced packets (coalesce.c).  The builders are proved against the
    layouts of RFC 9000 17.2, the parsers to invert them, and the split to
    yield exactly the packets that were put together. *)

From stdpp Require Import base numbers list option.
From Stdlib Require Import ZArith Lia.
From S2P Require Import Prelude Bytes Varint Frames PktNum.

(** ** be.h *)

(* src/src/common/bytes/util/be.h : be_put_be16 *)
Definition be_put_be16 (p : list Z) (base v : Z) : option (list Z) :=
  p ← store p base (u8 (Z.shiftr v 8)); store p (base + 1) (u8 v).

(* src/src/common/bytes/util/be.h : be_put_be32 *)
Definition be_put_be32 (p : list Z) (base v : Z) : option (list Z) :=
  p ← store p base (u8 (Z.shiftr v 24));
  p ← store p (base + 1) (u8 (Z.shiftr v 16));
  p ← store p (base + 2) (u8 (Z.shiftr v 8));
  store p (base + 3) (u8 v).

(* src/src/common/bytes/util/be.h : be_get_be16 *)
Definition be_get_be16 (p : list Z) (base : Z) : option Z :=
  b0 ← load p base; b1 ← load p (base + 1);
  Some (u16 (Z.lor (Z.shiftl b0 8) b1)).

(* src/src/common/bytes/util/be.h : be_get_be32 *)
Definition be_get_be32 (p : list Z) (base : Z) : option Z :=
  b0 ← load p base; b1 ← load p (base + 1); b2 ← load p (base + 2); b3 ← load p (base + 3);
  Some (Z.lor (Z.lor (Z.lor (u32 (Z.shiftl b0 24)) (u32 (Z.shiftl b1 16))) (u32 (Z.shiftl b2 8))) b3).

(* src/src/common/bytes/util/be.h : be_put_be64 *)
Definition be_put_be64 (p : list Z) (base v : Z) : option (list Z) :=
  p ← be_put_be32 p base (u32 (Z.shiftr v 32)); be_put_be32 p (base + 4) (u32 v).

(* src/src/common/bytes/util/be.h : be_get_be64 *)
Definition be_get_be64 (p : list Z) (base : Z) : option Z :=
  hi ← be_get_be32 p base; lo ← be_get_be32 p (base + 4);
  Some (Z.lor (u64 (Z.shiftl hi 32)) lo).

(** ** v2types.c, ptype.c *)

(* src/src/transport/version/version/v2types.h : logical_type *)
Inductive logical_type := LT_INITIAL | LT_0RTT | LT_HANDSHAKE | LT_RETRY | LT_INVALID.

#[export] Instance logical_type_eq_dec : EqDecision logical_type.
Proof. solve_decision. Defined.

Definition VERSION_1 : Z := 0x00000001.
Definition VERSION_2 : Z := 0x6b3343cf.

(** The integer of the enum. *)
Definition lt_value (lt : logical_type) : Z :=
  match lt with LT_INITIAL => 0 | LT_0RTT => 1 | LT_HANDSHAKE => 2 | LT_RETRY => 3 | LT_INVALID => -1 end.
Definition lt_of (v : Z) : logical_type :=
  nth (Z.to_nat v) [LT_INITIAL; LT_0RTT; LT_HANDSHAKE; LT_RETRY] LT_INVALID.

(* src/src/transport/version/version/v2types.c : V2_WIRE@4-5 *)
Definition V2_WIRE : list Z := [1; 2; 3; 0].

(* src/src/transport/version/version/v2types.c : in_range *)
Definition in_range (v : Z) : bool := (0 <=? v) && (v <? 4).

(* src/src/transport/version/version/v2types.c : v1_packet_type *)
Definition v1_packet_type (lt : logical_type) : Z :=
  if in_range (lt_value lt) then lt_value lt else -1.

(* src/src/transport/version/version/v2types.c : v2_packet_type *)
Definition v2_packet_type (lt : logical_type) : Z :=
  if in_range (lt_value lt) then nth (Z.to_nat (lt_value lt)) V2_WIRE 0 else -1.

(* src/src/transport/version/version/v2types.c : v1_logical_type *)
Definition v1_logical_type (wire : Z) : logical_type :=
  if in_range wire then lt_of wire else LT_INVALID.

(** [for (lt = 0; lt < 4; lt++) if (V2_WIRE[lt] == wire) return lt;] *)
Fixpoint v2_scan (row : list Z) (lt wire : Z) : logical_type :=
  match row with
  | [] => LT_INVALID
  | w :: rest => if w =? wire then lt_of lt else v2_scan rest (lt + 1) wire
  end.

(* src/src/transport/version/version/v2types.c : v2_logical_type *)
Definition v2_logical_type (wire : Z) : logical_type := v2_scan V2_WIRE 0 wire.

(* src/src/transport/packet/header/packet/ptype.c : packet_is_long *)
Definition packet_is_long (byte0 : Z) : bool := negb (Z.land byte0 0x80 =? 0).

(* src/src/transport/packet/header/packet/ptype.c : wire_bits *)
Definition wire_bits (byte0 : Z) : Z := Z.land (Z.shiftr byte0 4) 0x3.

(* src/src/transport/packet/header/packet/ptype.c : logical_for *)
Definition logical_for (wire version : Z) : logical_type :=
  if version =? VERSION_1 then v1_logical_type wire
  else if version =? VERSION_2 then v2_logical_type wire
  else LT_INVALID.

(** [PT_NONE] is [LT_INVALID] here: the function returns the logical type or
    no type. *)
(* src/src/transport/packet/header/packet/ptype.c : packet_long_type *)
Definition packet_long_type (byte0 version : Z) : logical_type :=
  if negb (packet_is_long byte0) then LT_INVALID else logical_for (wire_bits byte0) version.

(* src/src/transport/packet/header/packet/coalorder.c : coalesce_short_must_be_last *)
Definition coalesce_short_must_be_last (byte0 : Z) (is_last : bool) : bool :=
  if negb (Z.land byte0 0x80 =? 0) then true else is_last.

Definition RESBITS_LONG : Z := 0x0C.
Definition RESBITS_SHORT : Z := 0x18.

(* src/src/transport/packet/header/packet/resbits.c : resbits_ok *)
Definition resbits_ok (byte0 : Z) (is_long : bool) : bool :=
  Z.land byte0 (if is_long then RESBITS_LONG else RESBITS_SHORT) =? 0.

(** ** header.c *)

(* src/src/transport/packet/header/packet/header.h : WIRED_MAX_CID_LEN *)
Definition WIRED_MAX_CID_LEN : Z := 20.
Definition WIRED_FORM_LONG : Z := 1.
Definition WIRED_FORM_SHORT : Z := 0.

(** [h_dcid] and [h_scid] are the 20-byte arrays. *)
(* src/src/transport/packet/header/packet/header.h : wired_header *)
Record wired_header := mk_header {
  h_form : Z; h_long_type : Z; h_version : Z;
  h_dcid_len : Z; h_dcid : list Z; h_scid_len : Z; h_scid : list Z }.

(* src/src/transport/packet/header/packet/header.c : copy_cid *)
Definition copy_cid (dst src : list Z) (s len : Z) : option (list Z) :=
  copy dst 0 src s (Z.to_nat len).

(* src/src/transport/packet/header/packet/header.c : cid_fits *)
Definition cid_fits (len off n : Z) : bool :=
  (len <=? WIRED_MAX_CID_LEN) && (u64 (off + 1 + len) <=? n).

(* src/src/transport/packet/header/packet/header.c : read_cid *)
Definition read_cid (dst : list Z) : R (Z * list Z) := fun inp off =>
  if zlen inp <=? off then Fail
  else
    match load inp off with
    | None => Oob
    | Some len =>
        if negb (cid_fits len off (zlen inp)) then Fail
        else
          match copy_cid dst inp (off + 1) len with
          | None => Oob
          | Some dst' => Ok ((len, dst'), u64 (off + (1 + len)))
          end
    end.

(* src/src/transport/packet/header/packet/header.c : read_cids *)
Definition read_cids (h : wired_header) : R ((Z * list Z) * (Z * list Z)) :=
  d <- read_cid (h_dcid h) ;; s <- read_cid (h_scid h) ;; rret (d, s).

(* src/src/transport/packet/header/packet/header.c : header_parse_long *)
Definition header_parse_long (h : wired_header) (buf : list Z) : res (wired_header * Z) :=
  if zlen buf <? 5 then Fail
  else
    match load buf 0, be_get_be32 buf 1 with
    | Some b0, Some version =>
        (c <- read_cids h ;;
         rret (mk_header WIRED_FORM_LONG (Z.land (Z.shiftr b0 4) 0x3) version
                 c.1.1 c.1.2 c.2.1 c.2.2)) buf 5
    | _, _ => Oob
    end.

(* src/src/transport/packet/header/packet/header.c : header_parse_short *)
Definition header_parse_short (h : wired_header) (buf : list Z) : res (wired_header * Z) :=
  if negb (cid_fits (h_dcid_len h) 0 (zlen buf)) then Fail
  else
    match copy_cid (h_dcid h) buf 1 (h_dcid_len h) with
    | None => Oob
    | Some d =>
        Ok (mk_header WIRED_FORM_SHORT (h_long_type h) (h_version h) (h_dcid_len h) d 0 (h_scid h),
            1 + h_dcid_len h)
    end.

(* src/src/transport/packet/header/packet/header.c : wired_header_parse *)
Definition wired_header_parse (h : wired_header) (buf : list Z) : res (wired_header * Z) :=
  if zlen buf =? 0 then Fail
  else
    match load buf 0 with
    | None => Oob
    | Some b0 => if negb (Z.land b0 0x80 =? 0) then header_parse_long h buf else header_parse_short h buf
    end.

(** A cid view: its bytes and its length. *)
(* src/src/transport/packet/header/packet/header.c : write_cid *)
Definition write_cid (cid : list Z) (n : Z) : W := fun out =>
  if ocap out <? u64 (olen out + 1 + n) then Some (false, out)
  else
    p ← store (op out) (olen out) (u8 n);
    p ← copy p (olen out + 1) cid 0 (Z.to_nat n);
    Some (true, mk_obuf p (u64 (olen out + (1 + n)))).

(* src/src/transport/packet/header/packet/header.c : put_long_prefix *)
Definition put_long_prefix (buf : list Z) (h : wired_header) : option (Z * list Z) :=
  if zlen buf <? 5 then Some (0, buf)
  else
    p ← store buf 0 (u8 (Z.lor 0xC0 (u8 (Z.shiftl (h_long_type h) 4))));
    p ← store p 1 (u8 (Z.shiftr (h_version h) 24));
    p ← store p 2 (u8 (Z.shiftr (h_version h) 16));
    p ← store p 3 (u8 (Z.shiftr (h_version h) 8));
    p ← store p 4 (u8 (h_version h));
    Some (5, p).

(** The loop body [if (!write_cid(out, cid)) out->len = 0;] *)
Definition write_cid_or_zero (cid : list Z) (n : Z) (out : obuf) : option obuf :=
  match write_cid cid n out with
  | Some (true, o) => Some o
  | Some (false, o) => Some (mk_obuf (op o) 0)
  | None => None
  end.

(* src/src/transport/packet/header/packet/header.c : write_cids *)
Definition write_cids (h : wired_header) (out : obuf) : option obuf :=
  out ← write_cid_or_zero (h_dcid h) (h_dcid_len h) out;
  write_cid_or_zero (h_scid h) (h_scid_len h) out.

(* src/src/transport/packet/header/packet/header.c : wired_header_build_long *)
Definition wired_header_build_long (buf : list Z) (h : wired_header) : option (Z * list Z) :=
  '(n, p) ← put_long_prefix buf h;
  if n =? 0 then Some (0, p)
  else out ← write_cids h (mk_obuf p n); Some (olen out, op out).

(** ** inittoken.c *)

(* src/src/transport/packet/header/packet/inittoken.c : inittoken_put *)
Definition inittoken_put (token : list Z) : W :=
  varint_put (zlen token) ;& bytes_put token (zlen token).

(* src/src/transport/packet/header/packet/inittoken.c : take_tlen *)
Definition take_tlen : R Z :=
  tlen <- varint_take ;;
  fun inp off => if tlen <=? u64 (zlen inp - off) then Ok (tlen, off) else Fail.

(** The token is the [tlen] bytes at the cursor (a null view when empty). *)
(* src/src/transport/packet/header/packet/inittoken.c : inittoken_get *)
Definition inittoken_get : R (list Z) :=
  tlen <- take_tlen ;;
  fun inp off => Ok (take (Z.to_nat tlen) (drop (Z.to_nat off) inp), u64 (off + tlen)).

(** ** lhdr_build.c *)

(* src/src/transport/packet/header/lhdr/lhdr_build.h : lhdr_desc *)
Record lhdr_desc := mk_ld {
  ld_byte0 : Z; ld_version : Z; ld_dcid : list Z; ld_scid : list Z; ld_is_initial : bool;
  ld_token : list Z; ld_payload_len : Z; ld_pn : Z; ld_pn_len : Z }.

(* src/src/transport/packet/header/lhdr/lhdr_build.c : lhdr_byte0_pnlen *)
Definition lhdr_byte0_pnlen (byte0 pn_len : Z) : Z :=
  u8 (Z.lor (Z.land byte0 0xFC) (Z.land (pn_len - 1) 0x3)).

(* src/src/transport/packet/header/lhdr/lhdr_build.c : set_cid *)
Definition set_cid (dst src : list Z) (len : Z) : option (list Z) := copy dst 0 src 0 (Z.to_nat len).

(* src/src/transport/packet/header/lhdr/lhdr_build.c : cids_ok *)
Definition cids_ok (d : lhdr_desc) : bool :=
  (zlen (ld_dcid d) <=? WIRED_MAX_CID_LEN) && (zlen (ld_scid d) <=? WIRED_MAX_CID_LEN).

(* src/src/transport/packet/header/lhdr/lhdr_build.c : lhdr_put_prefix *)
Definition lhdr_put_prefix (d : lhdr_desc) (buf : list Z) : option (Z * list Z) :=
  if negb (cids_ok d) then Some (0, buf)
  else
    dc ← set_cid (replicate 20 0) (ld_dcid d) (zlen (ld_dcid d));
    sc ← set_cid (replicate 20 0) (ld_scid d) (zlen (ld_scid d));
    let h := mk_header 0 0 (ld_version d) (u8 (zlen (ld_dcid d))) dc (u8 (zlen (ld_scid d))) sc in
    '(w, p) ← wired_header_build_long buf h;
    if negb (w =? 5 + 1 + zlen (ld_dcid d) + 1 + zlen (ld_scid d)) then Some (0, p)
    else p ← store p 0 (lhdr_byte0_pnlen (ld_byte0 d) (ld_pn_len d)); Some (w, p).

(** [inittoken_put] runs over the rest of the buffer, from [out->len]: a
    fresh cursor over [p + len] of [cap - len] bytes. *)
Definition at_tail (w : W) : W := fun out =>
  match w (obuf_of (drop (Z.to_nat (olen out)) (op out))) with
  | None => None
  | Some (true, o) => Some (true, mk_obuf (take (Z.to_nat (olen out)) (op out) ++ op o) (u64 (olen out + olen o)))
  | Some (false, o) => Some (false, mk_obuf (take (Z.to_nat (olen out)) (op out) ++ op o) (olen out))
  end.

(* src/src/transport/packet/header/lhdr/lhdr_build.c : put_token *)
Definition put_token (d : lhdr_desc) : W :=
  if negb (ld_is_initial d) then wtrue else at_tail (inittoken_put (ld_token d)).

(** [if (out->len + pn_len > out->cap) return 0; out->len += pnum_encode(..)] *)
Definition put_pn_field (pn pn_len : Z) : W := fun out =>
  if ocap out <? u64 (olen out + pn_len) then Some (false, out)
  else '(n, p) ← pnum_encode (op out) (olen out) pn pn_len; Some (true, mk_obuf p (u64 (olen out + n))).

(* src/src/transport/packet/header/lhdr/lhdr_build.c : put_len_pn *)
Definition put_len_pn (d : lhdr_desc) : W :=
  varint_put (u64 (ld_pn_len d + ld_payload_len d + 16)) ;& put_pn_field (ld_pn d) (ld_pn_len d).

(* src/src/transport/packet/header/lhdr/lhdr_build.c : put_body *)
Definition put_body (d : lhdr_desc) : W := put_token d ;& put_len_pn d.

(** Returns the header length (or 0) and the buffer. *)
(* src/src/transport/packet/header/lhdr/lhdr_build.c : lhdr_build *)
Definition lhdr_build (d : lhdr_desc) (buf : list Z) : option (Z * list Z) :=
  '(w, p) ← lhdr_put_prefix d buf;
  if w =? 0 then Some (0, p)
  else
    match put_body d (mk_obuf p w) with
    | None => None
    | Some (true, o) => Some (olen o, op o)
    | Some (false, o) => Some (0, op o)
    end.

(** ** lhdr_parse.c *)

(* src/src/transport/packet/header/lhdr/lhdr_parse.h : lhdr *)
Record lhdr := mk_lhdr {
  l_dcid : list Z; l_scid : list Z; l_token : list Z; l_length : Z; l_pn_off : Z }.

(* src/src/transport/packet/header/lhdr/lhdr_parse.c : is_long_header *)
Definition is_long_header (pkt : list Z) : option bool :=
  if zlen pkt =? 0 then Some false
  else b ← load pkt 0; Some (negb (Z.land b 0x80 =? 0)).

(** The view of [len] bytes at [off]. *)
Definition sub_span (pkt : list Z) (off len : Z) : list Z :=
  take (Z.to_nat len) (drop (Z.to_nat off) pkt).

(* src/src/transport/packet/header/lhdr/lhdr_parse.c : locate_cids *)
Definition locate_cids (pkt : list Z) (h : wired_header) : list Z * list Z :=
  (sub_span pkt 6 (h_dcid_len h), sub_span pkt (7 + h_dcid_len h) (h_scid_len h)).

(* src/src/transport/packet/header/lhdr/lhdr_parse.c : read_token *)
Definition read_token (is_initial : bool) : R (list Z) :=
  if negb is_initial then rret [] else inittoken_get.

(* src/src/transport/packet/header/lhdr/lhdr_parse.c : take_length *)
Definition take_length : R (Z * Z) :=
  length <- varint_take ;; pn_off <- rpos ;; rret (length, pn_off).

(** The stack struct the header is parsed into. *)
Definition header0 : wired_header := mk_header 0 0 0 0 (replicate 20 0) 0 (replicate 20 0).

(* src/src/transport/packet/header/lhdr/lhdr_parse.c : lhdr_take_prefix *)
Definition lhdr_take_prefix (pkt : list Z) : res ((list Z * list Z) * Z) :=
  match is_long_header pkt with
  | None => Oob
  | Some false => Fail
  | Some true =>
      match wired_header_parse header0 pkt with
      | Oob => Oob
      | Fail => Fail
      | Ok (h, off) => if off =? 0 then Fail else Ok (locate_cids pkt h, off)
      end
  end.

(* src/src/transport/packet/header/lhdr/lhdr_parse.c : lhdr_pn_len *)
Definition lhdr_pn_len (byte0_unprotected : Z) : Z := Z.land byte0_unprotected 0x03 + 1.

(* src/src/transport/packet/header/lhdr/lhdr_parse.c : lhdr_parse *)
Definition lhdr_parse (pkt : list Z) (is_initial : bool) : res lhdr :=
  match lhdr_take_prefix pkt with
  | Oob => Oob
  | Fail => Fail
  | Ok (cids, off) =>
      match (token <- read_token is_initial ;; l <- take_length ;; rret (token, l)) pkt off with
      | Oob => Oob
      | Fail => Fail
      | Ok (r, _) => Ok (mk_lhdr cids.1 cids.2 r.1 r.2.1 r.2.2)
      end
  end.

(** ** Stores and loads *)

Lemma store_splice_snoc {A} (l : list A) i bs x k :
  0 <= i -> k = i + zlen bs -> k < zlen l ->
  store (splice l i bs) k x = Some (splice l i (bs ++ [x])).
Proof.
  intros Hi -> Hl. pose proof (zlen_nonneg bs).
  rewrite store_in by (rewrite zlen_splice; lia). f_equal.
  rewrite <- splice_app by lia.
  rewrite <- (splice_cons_store (splice l i bs) (i + zlen bs) x []) by (rewrite ?zlen_splice; lia).
  by rewrite splice_nil.
Qed.

Lemma store_splice {A} (l : list A) i x :
  0 <= i < zlen l -> store l i x = Some (splice l i [x]).
Proof.
  intros Hi. rewrite store_in by lia. by rewrite <- splice_cons_store, splice_nil by lia.
Qed.

Lemma u8_shiftr v k : 0 <= k -> u8 (Z.shiftr v k) = (v / 2 ^ k) mod 256.
Proof. intros. unfold u8. by rewrite Z.shiftr_div_pow2. Qed.

Lemma be_bytes_4 v :
  be_bytes 4 v = [u8 (Z.shiftr v 24); u8 (Z.shiftr v 16); u8 (Z.shiftr v 8); u8 v].
Proof.
  rewrite !u8_shiftr by lia. rewrite !be_bytes_cons. cbn [be_bytes].
  change (256 ^ Z.of_nat 3) with (2 ^ 24). change (256 ^ Z.of_nat 2) with (2 ^ 16).
  change (256 ^ Z.of_nat 1) with (2 ^ 8). change (256 ^ Z.of_nat 0) with 1.
  by rewrite Z.div_1_r.
Qed.

Lemma be_put_be32_spec p base v :
  0 <= base -> base + 4 <= zlen p -> be_put_be32 p base v = Some (splice p base (be_bytes 4 v)).
Proof.
  intros Hb Hl. unfold be_put_be32. rewrite be_bytes_4. rewrite store_splice by lia. osimpl.
  do 3 (rewrite store_splice_snoc by zl; osimpl).
  done.
Qed.

Lemma load_splice_at {A} (pre post : list A) bs i x :
  bs !! i = Some x -> load (pre ++ bs ++ post) (zlen pre + Z.of_nat i) = Some x.
Proof.
  intros Hx. pose proof (lookup_lt_Some _ _ _ Hx). rewrite load_app_r by lia.
  replace (zlen pre + Z.of_nat i - zlen pre) with (Z.of_nat i) by lia.
  rewrite load_app_l by (unfold zlen; lia). unfold load. rewrite Nat2Z.id.
  pose proof (Nat2Z.is_nonneg i). by replace (0 <=? Z.of_nat i) with true by lia.
Qed.

Lemma be32_value b0 b1 b2 b3 :
  is_u8 b0 -> is_u8 b1 -> is_u8 b2 -> is_u8 b3 ->
  Z.lor (Z.lor (Z.lor (u32 (Z.shiftl b0 24)) (u32 (Z.shiftl b1 16))) (u32 (Z.shiftl b2 8))) b3 =
    ((b0 * 256 + b1) * 256 + b2) * 256 + b3.
Proof.
  unfold is_u8. intros.
  rewrite !u32_small by (rewrite Z.shiftl_mul_pow2 by lia; lia).
  rewrite (Z.shiftl_mul_pow2 b1), (Z.shiftl_mul_pow2 b2) by lia.
  rewrite (lor_shiftl b0 24) by lia.
  replace (b0 * 2 ^ 24 + b1 * 2 ^ 16) with (Z.shiftl (b0 * 256 + b1) 16)
    by (rewrite Z.shiftl_mul_pow2 by lia; lia).
  rewrite lor_shiftl by lia.
  replace ((b0 * 256 + b1) * 2 ^ 16 + b2 * 2 ^ 8) with (Z.shiftl ((b0 * 256 + b1) * 256 + b2) 8)
    by (rewrite Z.shiftl_mul_pow2 by lia; lia).
  by rewrite lor_shiftl by lia.
Qed.

Lemma be_get_be32_spec pre v post :
  is_u32 v -> be_get_be32 (pre ++ be_bytes 4 v ++ post) (zlen pre) = Some v.
Proof.
  intros Hv. unfold be_get_be32. pose proof (be_bytes_ok 4 v) as Hok.
  pose proof (fold_be_bytes 4 v 0 ltac:(unfold is_u32 in Hv; lia)) as Hf.
  rewrite be_bytes_4 in *. cbn [fold_left] in Hf.
  do 4 (apply bytes_ok_cons in Hok as [? Hok]).
  rewrite <- (Z.add_0_r (zlen pre)) at 1.
  rewrite (load_splice_at pre post _ 0 (u8 (Z.shiftr v 24))) by done. osimpl.
  rewrite (load_splice_at pre post _ 1 (u8 (Z.shiftr v 16))) by done. osimpl.
  rewrite (load_splice_at pre post _ 2 (u8 (Z.shiftr v 8))) by done. osimpl.
  rewrite (load_splice_at pre post _ 3 (u8 v)) by done. osimpl.
  rewrite be32_value by done. f_equal. rewrite Z.mul_0_l, Z.add_0_l in Hf. cbn [Z.add] in Hf. rewrite Hf.
  change (256 ^ Z.of_nat 4) with 4294967296. rewrite Z.mod_small; [done|]. exact Hv.
Qed.

(** A sequence of loads that stays inside the buffer succeeds. *)
Lemma be_get_be32_total p base :
  bytes_ok p -> 0 <= base -> base + 4 <= zlen p ->
  exists v, be_get_be32 p base = Some v /\ is_u32 v.
Proof.
  intros Hok Hb Hl. unfold be_get_be32.
  destruct (load_is_Some p base) as [b0 E0]; [lia|]. destruct (load_is_Some p (base + 1)) as [b1 E1]; [lia|].
  destruct (load_is_Some p (base + 2)) as [b2 E2]; [lia|]. destruct (load_is_Some p (base + 3)) as [b3 E3]; [lia|].
  rewrite E0, E1, E2, E3. osimpl. eexists. split; [done|].
  pose proof (bytes_ok_lookup _ _ _ Hok E0). pose proof (bytes_ok_lookup _ _ _ Hok E1).
  pose proof (bytes_ok_lookup _ _ _ Hok E2). pose proof (bytes_ok_lookup _ _ _ Hok E3).
  rewrite be32_value by done. unfold is_u8, is_u32 in *. lia.
Qed.

(** ** The invariant header *)

(** RFC 9000 17.2: first byte, version, length-prefixed connection ids. *)
Definition long_prefix_wire (byte0 version : Z) (dcid scid : list Z) : list Z :=
  [byte0] ++ be_bytes 4 version ++ (zlen dcid :: dcid) ++ (zlen scid :: scid).

Lemma write_cid_wspec cid n :
  0 <= n <= zlen cid -> n < 256 -> wspec (write_cid cid n) (Some (n :: take (Z.to_nat n) cid)).
Proof.
  intros Hn Hm o [Ho Hc]. unfold span_max in *. unfold write_cid. unfold ocap in *.
  rewrite !u64_small by lia.
  assert (zlen (n :: take (Z.to_nat n) cid) = 1 + n) as Hz by (rewrite zlen_cons, zlen_take; lia).
  destruct (zlen (op o) <? olen o + 1 + n) eqn:E.
  - right. split; [|exists o; unfold obuf_ok, ocap, span_max; auto].
    intros bs [= <-]. unfold ofits, ocap. lia.
  - left. eexists. split; [done|]. unfold ofits, ocap. split; [lia|].
    rewrite store_splice by lia. osimpl.
    assert (zlen (splice (op o) (olen o) [u8 n]) = zlen (op o)) as Hsp
      by (apply zlen_splice; zl).
    rewrite copy_spec by lia. osimpl.
    unfold obuf_app. rewrite Hz. rewrite drop_0.
    pose proof (splice_app (op o) (olen o) [u8 n] (take (Z.to_nat n) cid) ltac:(lia)) as Es.
    rewrite zlen_cons, zlen_nil, Z.add_0_r in Es. rewrite Es by lia.
    by rewrite u8_small by lia.
Qed.

Lemma put_long_prefix_spec buf h :
  5 <= zlen buf ->
  put_long_prefix buf h = Some (5, splice buf 0
    ((u8 (Z.lor 0xC0 (u8 (Z.shiftl (h_long_type h) 4)))) :: be_bytes 4 (h_version h))).
Proof.
  intros Hl. unfold put_long_prefix. bcase; [lia|]. rewrite be_bytes_4.
  rewrite store_splice by lia. osimpl.
  do 4 (rewrite store_splice_snoc by zl; osimpl).
  done.
Qed.

(** The header of [build_long]: the connection ids fit their arrays. *)
Definition header_ok (h : wired_header) : Prop :=
  is_u32 (h_version h) /\ 0 <= h_long_type h < 4 /\
  zlen (h_dcid h) = WIRED_MAX_CID_LEN /\ zlen (h_scid h) = WIRED_MAX_CID_LEN /\
  0 <= h_dcid_len h <= WIRED_MAX_CID_LEN /\ 0 <= h_scid_len h <= WIRED_MAX_CID_LEN.

Definition header_dcid (h : wired_header) : list Z := take (Z.to_nat (h_dcid_len h)) (h_dcid h).
Definition header_scid (h : wired_header) : list Z := take (Z.to_nat (h_scid_len h)) (h_scid h).

Lemma zlen_header_cids h :
  header_ok h -> zlen (header_dcid h) = h_dcid_len h /\ zlen (header_scid h) = h_scid_len h.
Proof.
  intros (_ & _ & Hd & Hs & ? & ?). unfold header_dcid, header_scid, WIRED_MAX_CID_LEN in *.
  rewrite !zlen_take by lia. done.
Qed.

Lemma build_long_byte0 t : 0 <= t < 4 -> u8 (Z.lor 0xC0 (u8 (Z.shiftl t 4))) = 0xC0 + 16 * t.
Proof. intros Ht. assert (t = 0 \/ t = 1 \/ t = 2 \/ t = 3) as [->|[->|[->| ->]]] by lia; done. Qed.

Lemma long_prefix_split b v d s :
  long_prefix_wire b v d s = (b :: be_bytes 4 v) ++ (zlen d :: d) ++ (zlen s :: s).
Proof. done. Qed.

(** What [wired_header_build_long] does: the layout when it fits; otherwise a
    length that is never the layout's: 0, or the length of the source id field
    alone when only the destination id did not fit. *)
Lemma build_long_spec buf h :
  header_ok h -> zlen buf < span_max ->
  let l := long_prefix_wire (0xC0 + 16 * h_long_type h) (h_version h) (header_dcid h) (header_scid h) in
  (zlen l <= zlen buf /\ wired_header_build_long buf h = Some (zlen l, splice buf 0 l)) \/
  (zlen buf < zlen l /\ exists w p, wired_header_build_long buf h = Some (w, p) /\
     zlen p = zlen buf /\ (w = 0 \/ w = 1 + h_scid_len h)).
Proof.
  intros Hok Hb l. destruct (zlen_header_cids h Hok) as [Hzd Hzs].
  pose proof Hok as (Hv & Ht & Hd & Hs & Hdl & Hsl). unfold WIRED_MAX_CID_LEN in *.
  assert (zlen l = 7 + h_dcid_len h + h_scid_len h) as Hzl.
  { subst l. rewrite long_prefix_split. rewrite !zlen_app, !zlen_cons, zlen_be_bytes. lia. }
  unfold wired_header_build_long.
  destruct (Z.lt_ge_cases (zlen buf) 5).
  { right. split; [lia|]. unfold put_long_prefix. bcase; [|lia]. osimpl. do 2 eexists. eauto. }
  rewrite put_long_prefix_spec by lia. osimpl. rewrite build_long_byte0 by lia.
  change (5 =? 0) with false. cbv iota.
  set (pre := 0xC0 + 16 * h_long_type h :: be_bytes 4 (h_version h)).
  assert (zlen pre = 5) as Hpre by (subst pre; rewrite zlen_cons, zlen_be_bytes; lia).
  set (o := mk_obuf (splice buf 0 pre) 5).
  assert (ocap o = zlen buf) as Hcap by (unfold ocap; cbn; rewrite zlen_splice; lia).
  assert (obuf_ok o) as Hoo by (unfold obuf_ok; rewrite Hcap; cbn; lia).
  unfold write_cids, write_cid_or_zero.
  pose proof (write_cid_wspec (h_dcid h) (h_dcid_len h) ltac:(lia) ltac:(lia)) as Wd.
  pose proof (write_cid_wspec (h_scid h) (h_scid_len h) ltac:(lia) ltac:(lia)) as Ws.
  fold (header_dcid h) in Wd. fold (header_scid h) in Ws.
  destruct (Wd o Hoo) as [(b1 & [= <-] & Hf1 & ->)|(Hno & o1 & -> & Hok1 & Hc1)]; osimpl.
  - pose proof (obuf_app_ok _ _ Hoo Hf1) as Ho1.
    destruct (Ws _ Ho1) as [(b2 & [= <-] & Hf2 & ->)|(Hno & o2 & -> & Hok2 & Hc2)]; osimpl.
    + left. unfold ofits in *. rewrite obuf_app_cap in Hf2 by (unfold ofits; auto).
      rewrite Hcap in *. cbn [olen obuf_app] in *. rewrite !zlen_cons, Hzd, Hzs in *. cbn [olen o] in *.
      split; [lia|].
      assert (o = obuf_app (obuf_of buf) pre) as -> by (unfold obuf_app, o; cbn; by rewrite Hpre).
      assert (obuf_ok (obuf_of buf)) as Hof by (unfold obuf_ok, obuf_of, ocap; cbn [op olen]; lia).
      rewrite (obuf_app_app _ pre); [|done|unfold ofits, ocap; cbn [op olen obuf_of]; lia].
      rewrite obuf_app_app; [|done|unfold ofits, ocap; cbn [op olen obuf_of]; rewrite zlen_app, zlen_cons; lia].
      subst l. rewrite long_prefix_split. fold pre. rewrite Hzd, Hzs.
      unfold obuf_app. cbn [olen op obuf_of]. rewrite <- app_assoc. do 2 f_equal.
      rewrite !zlen_app, !zlen_cons. lia.
    + right. specialize (Hno _ eq_refl). unfold ofits in *. rewrite obuf_app_cap in Hno, Hc2 by done.
      rewrite Hcap in *. cbn [olen obuf_app o] in *. rewrite !zlen_cons, Hzd, Hzs in *.
      split; [lia|]. do 2 eexists. split; [done|]. unfold ocap in Hc2. split; [done|by left].
  - specialize (Hno _ eq_refl). unfold ofits in Hno. rewrite Hcap in *. cbn [olen o] in Hno.
    rewrite zlen_cons, Hzd in Hno. right. split; [lia|].
    assert (obuf_ok (mk_obuf (op o1) 0)) as Ho1.
    { destruct Hok1 as [_ ?]. unfold obuf_ok, ocap in *. cbn. pose proof (zlen_nonneg (op o1)). lia. }
    destruct (Ws _ Ho1) as [(b2 & [= <-] & Hf2 & ->)|(Hno2 & o2 & -> & Hok2 & Hc2)]; osimpl;
      do 2 eexists; (split; [done|]).
    + unfold obuf_app. cbn [olen op]. rewrite zlen_cons, Hzs. unfold ofits, ocap in *.
      cbn [olen op] in *. rewrite zlen_cons, Hzs in Hf2.
      split; [|right; lia]. rewrite zlen_splice; rewrite ?zlen_cons, ?Hzs; lia.
    + unfold ocap in *. cbn [op] in *. split; [lia|by left].
Qed.

(** ** The full long header *)

Lemma drop_splice_0 {A} (l bs : list A) : zlen bs <= zlen l -> splice l 0 bs = bs ++ drop (length bs) l.
Proof. intros. unfold splice. change (Z.to_nat 0) with O. by rewrite take_0, Nat.add_0_l. Qed.

Lemma at_tail_wspec w ob : wspec w ob -> wspec (at_tail w) ob.
Proof.
  intros Hw o [Ho Hc]. unfold at_tail. unfold span_max in Hc. unfold ocap in *.
  assert (zlen (drop (Z.to_nat (olen o)) (op o)) = zlen (op o) - olen o) as Hd by (apply zlen_drop; lia).
  destruct (Hw (obuf_of (drop (Z.to_nat (olen o)) (op o)))) as [(bs & -> & Hf & ->)|(Hno & o' & -> & Hok & Hcap)].
  { unfold obuf_ok, ocap, obuf_of, span_max. cbn [op olen]. lia. }
  - left. exists bs. unfold ofits, ocap in *. cbn [op olen obuf_of] in *. rewrite Hd in Hf.
    pose proof (zlen_nonneg bs). split_and!; [done|lia|]. unfold obuf_app. cbn [op olen obuf_of].
    rewrite Z.add_0_l, u64_small by lia. do 3 f_equal.
    rewrite drop_splice_0 by lia. unfold splice. rewrite drop_drop. done.
  - right. split.
    + intros bs Hbs Hf. apply (Hno bs Hbs). unfold ofits, ocap in *. cbn [op olen obuf_of]. lia.
    + eexists. split; [done|]. unfold obuf_ok, ocap in *. cbn [op olen obuf_of] in *.
      assert (zlen (take (Z.to_nat (olen o)) (op o) ++ op o') = zlen (op o)) as ->
        by (rewrite zlen_app, zlen_take by lia; lia).
      unfold span_max. lia.
Qed.

Lemma put_pn_field_wspec pn n :
  1 <= n <= 4 -> wspec (put_pn_field pn n) (Some (be_bytes (Z.to_nat n) pn)).
Proof.
  intros Hn o [Ho Hc]. unfold put_pn_field. unfold span_max in Hc. unfold ocap in *.
  rewrite u64_small by lia.
  assert (zlen (be_bytes (Z.to_nat n) pn) = n) as Hz by (rewrite zlen_be_bytes; lia).
  bcase.
  - right. split; [|exists o; unfold obuf_ok, ocap, span_max; auto].
    intros bs [= <-]. unfold ofits, ocap. lia.
  - left. eexists. split; [done|]. unfold ofits, ocap. split; [lia|].
    unfold pnum_encode. rewrite put_be_loop_spec by lia. osimpl.
    rewrite u64_small by lia. unfold obuf_app. by rewrite Hz.
Qed.

(** The fields of the descriptor are in the range of their C types; a packet
    is below 2^60 bytes. *)
Definition ld_ok (d : lhdr_desc) : Prop :=
  is_u8 (ld_byte0 d) /\ is_u32 (ld_version d) /\ zlen (ld_token d) < span_max /\
  1 <= ld_pn_len d <= 4 /\ 0 <= ld_payload_len d < 1152921504606846976 /\
  bytes_ok (ld_dcid d) /\ bytes_ok (ld_scid d) /\ bytes_ok (ld_token d).

Definition ld_length (d : lhdr_desc) : Z := ld_pn_len d + ld_payload_len d + 16.

(** RFC 9000 17.2.2, 17.2.4. *)
Definition lhdr_prefix (d : lhdr_desc) : list Z :=
  long_prefix_wire (lhdr_byte0_pnlen (ld_byte0 d) (ld_pn_len d)) (ld_version d) (ld_dcid d) (ld_scid d).
Definition lhdr_body (d : lhdr_desc) : list Z :=
  (if ld_is_initial d then varint_bytes (zlen (ld_token d)) ++ ld_token d else []) ++
  varint_bytes (ld_length d) ++ be_bytes (Z.to_nat (ld_pn_len d)) (ld_pn d).
Definition lhdr_wire (d : lhdr_desc) : option (list Z) :=
  if cids_ok d then Some (lhdr_prefix d ++ lhdr_body d) else None.

Lemma varint_wire_in v : v <= VARINT_MAX -> varint_wire v = Some (varint_bytes v).
Proof. intros. unfold varint_wire. bcases. done. Qed.

Lemma put_body_wspec d : ld_ok d -> wspec (put_body d) (Some (lhdr_body d)).
Proof.
  intros (_ & _ & Ht & Hn & Hp & _). pose proof (zlen_nonneg (ld_token d)).
  unfold put_body, lhdr_body. unfold span_max in Ht.
  assert (wspec (put_token d)
    (Some (if ld_is_initial d then varint_bytes (zlen (ld_token d)) ++ ld_token d else []))) as Htok.
  { unfold put_token. destruct (ld_is_initial d); cbn [negb]; [|apply wspec_true].
    apply at_tail_wspec. unfold inittoken_put.
    eapply wspec_eq; [apply wspec_seq;
      [apply varint_put_wspec; unfold is_u64; lia|apply bytes_put_wspec; unfold span_max; lia]|].
    rewrite varint_wire_in by (unfold VARINT_MAX; lia). cbn [oapp].
    rewrite take_ge by (unfold zlen; lia). done. }
  eapply wspec_eq; [apply wspec_seq; [exact Htok|]|].
  - unfold put_len_pn. apply wspec_seq; [apply varint_put_wspec; unfold is_u64; apply u64_range|].
    apply put_pn_field_wspec. lia.
  - rewrite u64_small by lia. fold (ld_length d).
    rewrite varint_wire_in by (unfold ld_length, VARINT_MAX; lia). done.
Qed.

Lemma set_cid_spec cid :
  zlen cid <= 20 -> set_cid (replicate 20 0) cid (zlen cid) = Some (splice (replicate 20 0) 0 cid).
Proof.
  intros H. unfold set_cid. pose proof (zlen_nonneg cid).
  rewrite copy_spec; try (unfold zlen in *; rewrite ?length_replicate; lia).
  change (Z.to_nat 0) with O. rewrite drop_0, take_ge by (unfold zlen; lia). done.
Qed.

Lemma lhdr_put_prefix_spec d buf :
  ld_ok d -> zlen buf < span_max ->
  (cids_ok d = true /\ zlen (lhdr_prefix d) <= zlen buf /\
     lhdr_put_prefix d buf = Some (zlen (lhdr_prefix d), splice buf 0 (lhdr_prefix d))) \/
  ((cids_ok d = false \/ zlen buf < zlen (lhdr_prefix d)) /\
     exists p, lhdr_put_prefix d buf = Some (0, p) /\ zlen p = zlen buf).
Proof.
  intros (_ & Hv & _) Hb. unfold lhdr_put_prefix.
  destruct (cids_ok d) eqn:Ec; cbn [negb]; [|right; eauto].
  unfold cids_ok, WIRED_MAX_CID_LEN in Ec. pose proof (zlen_nonneg (ld_dcid d)).
  pose proof (zlen_nonneg (ld_scid d)). rewrite !set_cid_spec by lia. osimpl.
  rewrite !u8_small by lia. cbv zeta.
  set (h := mk_header 0 0 (ld_version d) (zlen (ld_dcid d)) (splice (replicate 20 0) 0 (ld_dcid d))
    (zlen (ld_scid d)) (splice (replicate 20 0) 0 (ld_scid d))).
  assert (header_ok h) as Hh.
  { unfold header_ok, WIRED_MAX_CID_LEN. cbn [h h_version h_long_type h_dcid h_scid h_dcid_len h_scid_len].
    rewrite !zlen_splice by (unfold zlen; rewrite ?length_replicate; unfold zlen in *; lia).
    split_and!; try lia; try done. }
  assert (header_dcid h = ld_dcid d /\ header_scid h = ld_scid d) as [Ed Es].
  { unfold header_dcid, header_scid. cbn [h h_dcid h_scid h_dcid_len h_scid_len].
    rewrite !splice_0_take by (unfold zlen; rewrite ?length_replicate; unfold zlen in *; lia). done. }
  pose proof (build_long_spec buf h Hh Hb) as Hbl. cbv zeta in Hbl. rewrite Ed, Es in Hbl.
  cbn [h h_long_type h_version h_scid_len] in Hbl. change (192 + 16 * 0) with 0xC0 in Hbl.
  assert (forall b0, zlen (long_prefix_wire b0 (ld_version d) (ld_dcid d) (ld_scid d)) =
    7 + zlen (ld_dcid d) + zlen (ld_scid d)) as Hz.
  { intros b0. rewrite long_prefix_split, !zlen_app, !zlen_cons, zlen_be_bytes. lia. }
  unfold lhdr_prefix. rewrite Hz in *.
  destruct Hbl as [[Hl ->]|(Hl & w & p & -> & Hzp & Hw)]; osimpl.
  - left. split; [done|]. split; [lia|].
    replace (7 + zlen (ld_dcid d) + zlen (ld_scid d) =? 5 + 1 + zlen (ld_dcid d) + 1 + zlen (ld_scid d))
      with true by lia. cbn [negb].
    rewrite store_in by (rewrite zlen_splice by (rewrite ?Hz; lia); lia). osimpl.
    rewrite !long_prefix_split. cbn [app]. by rewrite (insert_splice_0 buf 0) by lia.
  - right. split; [by right|]. exists p.
    replace (w =? 5 + 1 + zlen (ld_dcid d) + 1 + zlen (ld_scid d)) with false by lia. done.
Qed.

(** [lhdr_build] writes the whole header or returns 0. *)
Lemma lhdr_build_spec d buf :
  ld_ok d -> zlen buf < span_max ->
  (exists l, lhdr_wire d = Some l /\ zlen l <= zlen buf /\
     lhdr_build d buf = Some (zlen l, splice buf 0 l)) \/
  ((forall l, lhdr_wire d = Some l -> zlen buf < zlen l) /\
     exists p, lhdr_build d buf = Some (0, p) /\ zlen p = zlen buf).
Proof.
  intros Hok Hb. unfold lhdr_build, lhdr_wire. pose proof (zlen_nonneg (lhdr_body d)).
  destruct (lhdr_put_prefix_spec d buf Hok Hb) as [(Ec & Hl & ->)|([Ec|Hl] & p & -> & Hp)]; osimpl.
  - rewrite Ec. assert (0 < zlen (lhdr_prefix d)).
    { unfold lhdr_prefix. rewrite long_prefix_split, zlen_app, zlen_cons.
      pose proof (zlen_nonneg (be_bytes 4 (ld_version d))).
      match goal with |- context [zlen (?a ++ ?b)] => pose proof (zlen_nonneg (a ++ b)) end. lia. }
    bcase; [lia|].
    assert (mk_obuf (splice buf 0 (lhdr_prefix d)) (zlen (lhdr_prefix d)) =
            obuf_app (obuf_of buf) (lhdr_prefix d)) as -> by done.
    assert (obuf_ok (obuf_of buf)) as Ho by (unfold obuf_ok, ocap; cbn [op olen obuf_of]; pose proof (zlen_nonneg buf); lia).
    assert (ofits (obuf_of buf) (lhdr_prefix d)) as Hf by (unfold ofits, ocap; cbn [op olen obuf_of]; lia).
    destruct (put_body_wspec d Hok _ (obuf_app_ok _ _ Ho Hf)) as [(bs & [= <-] & Hf2 & ->)|(Hno & o' & -> & _ & Hcap)].
    + left. eexists. split; [done|]. rewrite obuf_app_app by done. unfold ofits in Hf2.
      rewrite obuf_app_cap in Hf2 by done. unfold ocap in Hf2. cbn [op olen obuf_of obuf_app] in *.
      rewrite zlen_app. split; [lia|]. unfold obuf_app. cbn [op olen obuf_of]. by rewrite Z.add_0_l.
    + right. split; [|exists (op o'); split; [done|rewrite obuf_app_cap in Hcap by done; exact Hcap]].
      intros l Hl'. apply (inj Some) in Hl' as <-. specialize (Hno _ eq_refl). unfold ofits in Hno.
      rewrite obuf_app_cap in Hno by done.
      unfold ocap in Hno. cbn [op olen obuf_of obuf_app] in Hno. rewrite zlen_app. lia.
  - right. rewrite Ec. split; [done|]. exists p. change (0 =? 0) with true. done.
  - right. split; [|exists p; change (0 =? 0) with true; done].
    intros l. bcase; [|done]. intros Hl'. apply (inj Some) in Hl' as <-. rewrite zlen_app. lia.
Qed.

(** ** Parsing what was built *)

Lemma lhdr_byte0_facts b n :
  is_u8 b -> 1 <= n <= 4 ->
  let b' := lhdr_byte0_pnlen b n in
  is_u8 b' /\ packet_is_long b' = packet_is_long b /\ wire_bits b' = wire_bits b /\ lhdr_pn_len b' = n.
Proof.
  intros Hb Hn. assert (n = 1 \/ n = 2 \/ n = 3 \/ n = 4) as Hc by lia.
  pose (P := fun n b => let b' := lhdr_byte0_pnlen b n in
    (0 <=? b') && (b' <? 256) && Bool.eqb (packet_is_long b') (packet_is_long b) &&
    (wire_bits b' =? wire_bits b) && (lhdr_pn_len b' =? n)).
  assert (P n b = true) as HP.
  { destruct Hc as [->|[->|[->| ->]]]; apply (u8_check (P _)); done || (vm_compute; reflexivity). }
  unfold P in HP. cbv zeta in *. rewrite !andb_true_iff in HP. destruct HP as [[[[? ?] H3] ?] ?].
  apply Bool.eqb_prop in H3. unfold is_u8. split_and!; try done; lia.
Qed.

Lemma read_cid_reads F dst cid :
  zlen cid <= WIRED_MAX_CID_LEN -> zlen dst = WIRED_MAX_CID_LEN ->
  reads F (read_cid dst) (zlen cid :: cid)
    (fun r => r.1 = zlen cid /\ take (Z.to_nat (zlen cid)) r.2 = cid /\ zlen r.2 = WIRED_MAX_CID_LEN).
Proof.
  unfold WIRED_MAX_CID_LEN. intros Hc Hd pre post _ Hl. unfold read_cid. rewrite load_at.
  pose proof (zlen_nonneg pre). pose proof (zlen_nonneg cid). pose proof (zlen_nonneg post).
  rewrite !zlen_app, zlen_cons in *. unfold span_max in Hl. bcase; [lia|].
  unfold cid_fits, WIRED_MAX_CID_LEN. rewrite u64_small by lia.
  replace ((zlen cid <=? 20) && (zlen pre + 1 + zlen cid <=? zlen pre + (1 + zlen cid + zlen post)))
    with true by lia. cbn [negb]. unfold copy_cid.
  rewrite copy_spec by (rewrite ?zlen_app, ?zlen_cons; unfold zlen in *; lia).
  rewrite u64_small by lia. eexists. split; [done|]. cbn [fst snd].
  replace (take (Z.to_nat (zlen cid)) (drop (Z.to_nat (zlen pre + 1)) (pre ++ (zlen cid :: cid) ++ post)))
    with cid.
  - split_and!; [done|apply splice_0_take; lia|rewrite zlen_splice; lia].
  - replace (pre ++ (zlen cid :: cid) ++ post) with ((pre ++ [zlen cid]) ++ cid ++ post)
      by (by rewrite <- app_assoc).
    rewrite drop_app_length' by (rewrite length_app; simpl; unfold zlen; lia).
    by rewrite take_app_length' by (unfold zlen; lia).
Qed.

Lemma parse_long_spec h b0 v d s post :
  zlen d <= WIRED_MAX_CID_LEN -> zlen s <= WIRED_MAX_CID_LEN ->
  zlen (h_dcid h) = WIRED_MAX_CID_LEN -> zlen (h_scid h) = WIRED_MAX_CID_LEN ->
  is_u32 v -> packet_is_long b0 = true ->
  zlen (long_prefix_wire b0 v d s ++ post) < span_max ->
  exists g, wired_header_parse h (long_prefix_wire b0 v d s ++ post) =
      Ok (g, zlen (long_prefix_wire b0 v d s)) /\
    h_form g = WIRED_FORM_LONG /\ h_long_type g = wire_bits b0 /\ h_version g = v /\
    h_dcid_len g = zlen d /\ header_dcid g = d /\ h_scid_len g = zlen s /\ header_scid g = s.
Proof.
  intros Hd Hs Hhd Hhs Hv Hlong Hl. unfold wired_header_parse.
  set (pkt := long_prefix_wire b0 v d s ++ post) in *.
  assert (pkt = [b0] ++ be_bytes 4 v ++ ((zlen d :: d) ++ (zlen s :: s) ++ post)) as Ep
    by (subst pkt; unfold long_prefix_wire; by rewrite <- !app_assoc).
  assert (pkt = (b0 :: be_bytes 4 v) ++ ((zlen d :: d) ++ (zlen s :: s)) ++ post) as Ep2
    by (subst pkt; rewrite long_prefix_split; by rewrite <- !app_assoc).
  assert (zlen (b0 :: be_bytes 4 v) = 5) as H5 by (rewrite zlen_cons, zlen_be_bytes; lia).
  assert (5 <= zlen pkt) as H5p.
  { rewrite Ep2, zlen_app, H5. pose proof (zlen_nonneg (((zlen d :: d) ++ zlen s :: s) ++ post)). lia. }
  bcase; [lia|]. assert (load pkt 0 = Some b0) as Hl0 by (by rewrite Ep). rewrite Hl0.
  unfold packet_is_long in Hlong. rewrite Hlong. unfold header_parse_long. bcase; [lia|].
  rewrite Hl0. assert (be_get_be32 pkt 1 = Some v) as ->.
  { rewrite Ep. change 1 with (zlen [b0]). by apply be_get_be32_spec. }
  assert (reads anywhere (c <- read_cids h ;; rret (mk_header WIRED_FORM_LONG (Z.land (Z.shiftr b0 4) 0x3) v
      c.1.1 c.1.2 c.2.1 c.2.2)) ((zlen d :: d) ++ (zlen s :: s))
    (fun g => h_form g = WIRED_FORM_LONG /\ h_long_type g = wire_bits b0 /\ h_version g = v /\
      h_dcid_len g = zlen d /\ header_dcid g = d /\ h_scid_len g = zlen s /\ header_scid g = s)) as Hr.
  { eapply reads_bind_end with (Q1 := fun c : (Z * list Z) * (Z * list Z) =>
      c.1.1 = zlen d /\ take (Z.to_nat (zlen d)) c.1.2 = d /\
      c.2.1 = zlen s /\ take (Z.to_nat (zlen s)) c.2.2 = s); [typeclasses eauto| |].
    - unfold read_cids. eapply reads_bind; [typeclasses eauto|by apply read_cid_reads|].
      intros [l1 d1] (? & ? & _). eapply reads_bind_end; [typeclasses eauto|by apply read_cid_reads|].
      intros [l2 d2] (? & ? & _). apply reads_ret. done.
    - intros [[l1 d1] [l2 d2]] (E1 & E2 & E3 & E4). cbn [fst snd] in *. apply reads_ret.
      unfold header_dcid, header_scid. cbn. subst. done. }
  destruct (Hr (b0 :: be_bytes 4 v) post) as (g & Eg & HQ); [done|by rewrite <- Ep2|].
  rewrite <- Ep2, H5 in Eg. rewrite Eg. exists g. split; [|exact HQ].
  do 2 f_equal. rewrite long_prefix_split, (zlen_app (b0 :: be_bytes 4 v)), H5. done.
Qed.

Lemma locate_cids_spec b0 v d s post g :
  h_dcid_len g = zlen d -> h_scid_len g = zlen s ->
  locate_cids (long_prefix_wire b0 v d s ++ post) g = (d, s).
Proof.
  intros Ed Es. unfold locate_cids, sub_span. rewrite Ed, Es. unfold long_prefix_wire.
  pose proof (zlen_nonneg d). pose proof (zlen_nonneg s). f_equal.
  - replace (([b0] ++ be_bytes 4 v ++ (zlen d :: d) ++ zlen s :: s) ++ post)
      with (([b0] ++ be_bytes 4 v ++ [zlen d]) ++ d ++ ((zlen s :: s) ++ post))
      by (by rewrite <- !app_assoc).
    rewrite drop_app_length' by (rewrite !length_app, length_be_bytes; done).
    by rewrite take_app_length' by (unfold zlen; lia).
  - replace (([b0] ++ be_bytes 4 v ++ (zlen d :: d) ++ zlen s :: s) ++ post)
      with (([b0] ++ be_bytes 4 v ++ (zlen d :: d) ++ [zlen s]) ++ s ++ post)
      by (by rewrite <- !app_assoc).
    rewrite drop_app_length' by (rewrite !length_app, length_be_bytes; simpl; unfold zlen in *; lia).
    by rewrite take_app_length' by (unfold zlen; lia).
Qed.

Lemma inittoken_reads F `{!prefix_stable F} token :
  zlen token < span_max -> reads F inittoken_get (varint_bytes (zlen token) ++ token) (eq token).
Proof.
  intros Ht. unfold inittoken_get, take_tlen. pose proof (zlen_nonneg token). unfold span_max in Ht.
  intros pre post HF Hl. pose proof Hl as Hl2. unfold span_max in Hl2. rewrite !zlen_app in Hl2.
  pose proof (zlen_nonneg pre). pose proof (zlen_nonneg post). pose proof (varint_bytes_pos (zlen token)).
  unfold rbind. rewrite <- (app_assoc (varint_bytes (zlen token))) in Hl |- *.
  rewrite varint_take_spec; [|unfold VARINT_MAX; lia|exact Hl].
  rewrite !zlen_app. rewrite !u64_small by lia.
  replace (zlen token <=? zlen pre + (zlen (varint_bytes (zlen token)) + (zlen token + zlen post)) -
    (zlen pre + zlen (varint_bytes (zlen token)))) with true by lia.
  exists token. split; [|done]. rewrite app_assoc, drop_app_length' by (rewrite length_app; unfold zlen; lia).
  rewrite take_app_length' by (unfold zlen; lia). rewrite u64_small by lia. do 2 f_equal. lia.
Qed.

Lemma lhdr_parse_wire d l rest :
  ld_ok d -> packet_is_long (ld_byte0 d) = true -> lhdr_wire d = Some l ->
  zlen (l ++ rest) < span_max ->
  lhdr_parse (l ++ rest) (ld_is_initial d) =
    Ok (mk_lhdr (ld_dcid d) (ld_scid d) (if ld_is_initial d then ld_token d else [])
          (ld_length d) (zlen l - ld_pn_len d)).
Proof.
  intros Hok Hlong Hl Hs. pose proof Hok as (Hb & Hv & Ht & Hn & Hp & _).
  unfold lhdr_wire in Hl. destruct (cids_ok d) eqn:Ec; [|done]. apply (inj Some) in Hl as <-.
  unfold cids_ok in Ec. destruct (lhdr_byte0_facts (ld_byte0 d) (ld_pn_len d) Hb Hn) as (_ & Hlong' & _ & _).
  cbv zeta in Hlong'. rewrite Hlong in Hlong'. unfold lhdr_parse, lhdr_take_prefix.
  rewrite <- (app_assoc (lhdr_prefix d)) in *.
  destruct (parse_long_spec header0 _ (ld_version d) (ld_dcid d) (ld_scid d) (lhdr_body d ++ rest)
    ltac:(lia) ltac:(lia) eq_refl eq_refl Hv Hlong' Hs) as (g & Eg & _ & _ & _ & Edl & _ & Esl & _).
  fold (lhdr_prefix d) in Eg. rewrite Eg.
  assert (is_long_header (lhdr_prefix d ++ lhdr_body d ++ rest) = Some true) as ->.
  { unfold is_long_header, lhdr_prefix, long_prefix_wire. cbn [app]. rewrite zlen_cons.
    match goal with |- context [1 + zlen ?x] => pose proof (zlen_nonneg x) end. bcase; [lia|].
    rewrite load_cons_0. osimpl. unfold packet_is_long in Hlong'. by rewrite Hlong'. }
  assert (0 < zlen (lhdr_prefix d)).
  { unfold lhdr_prefix, long_prefix_wire. cbn [app]. rewrite zlen_cons.
    match goal with |- context [1 + zlen ?x] => pose proof (zlen_nonneg x) end. lia. }
  bcase; [lia|].
  pose proof (locate_cids_spec (lhdr_byte0_pnlen (ld_byte0 d) (ld_pn_len d)) (ld_version d) (ld_dcid d)
    (ld_scid d) (lhdr_body d ++ rest) g Edl Esl) as El. fold (lhdr_prefix d) in El. rewrite El. clear El.
  assert (reads anywhere (token <- read_token (ld_is_initial d) ;; l <- take_length ;; rret (token, l))
    ((if ld_is_initial d then varint_bytes (zlen (ld_token d)) ++ ld_token d else []) ++ varint_bytes (ld_length d))
    (fun r => r.1 = (if ld_is_initial d then ld_token d else []) /\ r.2.1 = ld_length d)) as Hr.
  { eapply reads_bind with (Q1 := eq (if ld_is_initial d then ld_token d else [])); [typeclasses eauto| |].
    - unfold read_token. destruct (ld_is_initial d); cbn [negb]; [|by apply reads_ret].
      apply inittoken_reads; [typeclasses eauto|done].
    - intros ? <-. eapply reads_bind_end with (Q1 := fun x => x.1 = ld_length d); [typeclasses eauto| |].
      + unfold take_length. eapply reads_bind_end; [typeclasses eauto|apply reads_varint|].
        { unfold ld_length, VARINT_MAX. lia. }
        intros ? <- pre post _ _. exists (ld_length d, zlen pre). split; [|done].
        unfold rbind, rpos, rret. by rewrite (zlen_nil (A := Z)), Z.add_0_r.
      + intros [x y] Hx. apply reads_ret. done. }
  set (pnb := be_bytes (Z.to_nat (ld_pn_len d)) (ld_pn d)).
  set (mid := (if ld_is_initial d then varint_bytes (zlen (ld_token d)) ++ ld_token d else []) ++ varint_bytes (ld_length d)) in *.
  assert (lhdr_body d = mid ++ pnb) as Eb by (unfold lhdr_body, mid, pnb; by rewrite <- app_assoc).
  rewrite Eb in *. rewrite <- (app_assoc mid) in *.
  destruct (Hr (lhdr_prefix d) (pnb ++ rest)) as ([tok [len off]] & Er & HQ1 & HQ2); [done|done|].
  rewrite Er. cbn [fst snd] in *. subst.
  assert (off = zlen (lhdr_prefix d) + zlen mid) as ->.
  { clear -Er. unfold rbind at 1 in Er. destruct (read_token _ _ _) as [[a o]| |]; try done.
    unfold rbind, take_length, rbind in Er. destruct (varint_take _ _) as [[a' o']| |]; try done.
    unfold rpos, rret in Er. by simplify_eq. }
  f_equal. f_equal. rewrite !zlen_app. subst pnb. rewrite zlen_be_bytes. lia.
Qed.
