(* ===== verification/HeaderSafe.v ===== *)
(** * Parsing headers of untrusted packets

    Safety of the parsers of src/src/transport/packet/header (header.c,
    lhdr_parse.c) on any bytes, and locality: what lhdr_parse finds depends on
    the bytes before the packet number only, so a packet parses alike before
    and after it is opened in place. *)
From stdpp Require Import base numbers list option.
From Stdlib Require Import ZArith Lia.
From S2P Require Import Prelude Bytes Varint Header.
Open Scope Z_scope.

(** ** Readers that depend on what they pass over only *)

(** Two buffers alike on the bytes from 1 to [e]. *)
Definition agree (e : Z) (p q : list Z) : Prop := zlen p = zlen q /\ forall i, 1 <= i < e -> load p i = load q i.

Lemma agree_le e e' p q : e' <= e -> agree e p q -> agree e' p q.
Proof. intros He [H1 H2]. split; [exact H1|]. intros i Hi. apply H2. lia. Qed.

Lemma agree_sub e p q s n : agree e p q -> 1 <= s -> s + n <= e -> 0 <= n -> e <= zlen p -> take (Z.to_nat n) (drop (Z.to_nat s) p) = take (Z.to_nat n) (drop (Z.to_nat s) q).
Proof.
  intros [Hz H] Hs He Hn Hl. apply load_ext; [rewrite !zlen_take by (rewrite zlen_drop; lia); reflexivity|].
  rewrite zlen_take by (rewrite zlen_drop; lia). intros j Hj. rewrite !load_take by lia. rewrite !load_skip by lia. apply H. lia.
Qed.

Definition rlocal {A} (r : R A) : Prop :=
  forall p off a off', span_ok p -> 0 < zlen p -> 1 <= off <= zlen p -> r p off = Ok (a, off') ->
  off <= off' <= zlen p /\ forall q, agree off' p q -> r q off = Ok (a, off').

Lemma rlocal_ret {A} (a : A) : rlocal (rret a).
Proof. intros p off a' off' _ _ H [= <- <-]. split; [lia | reflexivity]. Qed.
Lemma rlocal_pos : rlocal rpos.
Proof. intros p off a off' _ _ H [= <- <-]. split; [lia | reflexivity]. Qed.

Lemma rlocal_bind {A B} (m : R A) (k : A -> R B) : rlocal m -> (forall a, rlocal (k a)) -> rlocal (rbind m k).
Proof.
  intros Hm Hk p off b off' Hp Hz Ho. unfold rbind. destruct (m p off) as [[a o1]| |] eqn:E1; try discriminate. intros E2.
  destruct (Hm p off a o1 Hp Hz Ho E1) as [H1 L1]. destruct (Hk a p o1 b off' Hp Hz ltac:(lia) E2) as [H2 L2]. split; [lia|].
  intros q Hq. rewrite (L1 q) by (apply (agree_le off'); [lia | exact Hq]). by apply L2.
Qed.

Lemma get_be_local n : forall p q s v, (forall i, s <= i < s + Z.of_nat n -> load p i = load q i) -> get_be_loop p s n v = get_be_loop q s n v.
Proof.
  induction n as [|n IH]; intros p q s v H; [reflexivity|]. cbn [get_be_loop]. rewrite (H s) by lia. destruct (load q s); [|reflexivity]. osimpl. apply IH. intros i Hi. apply H. lia.
Qed.

Lemma rlocal_varint : rlocal varint_take.
Proof.
  intros p off v off' Hp Hz Ho E. pose proof (varint_take_safe p off Hp ltac:(lia)) as H. rewrite E in H. split; [lia|]. intros q [Hq H1].
  unfold varint_take, varint_decode in *. rewrite <- Hq. destruct (Z.leb_spec (zlen p) off); [discriminate|].
  destruct (Z.eqb_spec (zlen p - off) 0); [discriminate|]. rewrite <- (H1 off) by lia. destruct (load p off) as [b0|] eqn:E0; [|discriminate].
  destruct (varint_table b0) as (need & Hn & Hnb); [eapply bytes_ok_lookup; [apply Hp | exact E0]|]. rewrite Hn in E |- *.
  destruct (Z.ltb_spec (zlen p - off) need); [discriminate|]. unfold get_be in *. rewrite <- (H1 off), E0 by lia. rewrite E0 in E. osimpl.
  cbn [mbind option_bind] in E. assert (Hoff : off' = off + need).
  { destruct (get_be_loop p (off + 1) _ _); [|discriminate]. destruct (need =? 0); [discriminate|]. destruct Hp as [_ Hl]. unfold span_max in Hl. rewrite u64_small in E by lia. congruence. }
  rewrite <- (get_be_local _ p q); [exact E|]. intros i Hi. apply H1. lia.
Qed.

Lemma rlocal_inittoken : rlocal inittoken_get.
Proof.
  intros p off a off' Hp Hz Ho. unfold inittoken_get, take_tlen, rbind. destruct (varint_take p off) as [[n o1]| |] eqn:E1; try discriminate.
  pose proof (varint_take_safe p off Hp ltac:(lia)) as H. rewrite E1 in H. destruct H as [H1 Hn]. destruct (rlocal_varint p off n o1 Hp Hz Ho E1) as [_ L1].
  destruct Hp as [_ Hl]. unfold span_max, VARINT_MAX in *. rewrite (u64_small (zlen p - o1)) by lia. destruct (Z.leb_spec n (zlen p - o1)); [|discriminate].
  rewrite u64_small by lia. intros [= <- <-]. split; [lia|]. intros q Hq. rewrite (L1 q) by (apply (agree_le (o1 + n)); [lia | exact Hq]).
  rewrite <- (proj1 Hq), u64_small by lia. destruct (Z.leb_spec n (zlen p - o1)); [|lia]. rewrite u64_small by lia. do 2 f_equal.
  symmetry. apply (agree_sub (o1 + n)); [exact Hq | lia..].
Qed.

Lemma rlocal_take_length : rlocal take_length.
Proof. apply rlocal_bind; [apply rlocal_varint|]. intros n. apply rlocal_bind; [apply rlocal_pos | intros o; apply rlocal_ret]. Qed.

Lemma read_cid_safe dst p off : zlen dst = WIRED_MAX_CID_LEN -> span_ok p -> 0 <= off <= zlen p ->
  match read_cid dst p off with
  | Ok ((len, d), off') => off < off' <= zlen p /\ 0 <= len <= WIRED_MAX_CID_LEN /\ zlen d = WIRED_MAX_CID_LEN /\ load p off = Some len /\ off' = off + 1 + len /\
      d = splice dst 0 (take (Z.to_nat len) (drop (Z.to_nat (off + 1)) p))
  | Fail => True
  | Oob => False
  end.
Proof.
  unfold WIRED_MAX_CID_LEN. intros Hd [Hb Hl] Ho. unfold span_max in Hl. unfold read_cid. destruct (Z.leb_spec (zlen p) off); [exact I|].
  destruct (load_is_Some p off) as [len E]; [lia|]. rewrite E. pose proof (bytes_ok_lookup p off len Hb E) as Hlen. unfold is_u8 in Hlen.
  unfold cid_fits, WIRED_MAX_CID_LEN. rewrite u64_small by lia. destruct (Z.leb_spec len 20); [|exact I]. destruct (Z.leb_spec (off + 1 + len) (zlen p)); [|exact I]. cbn [andb negb].
  unfold copy_cid. rewrite copy_spec by lia. rewrite u64_small by lia. split_and!; try lia; [|reflexivity..].
  rewrite zlen_splice; [exact Hd | lia|]. rewrite zlen_take by (rewrite zlen_drop; lia). lia.
Qed.

Lemma rlocal_cid dst : zlen dst = WIRED_MAX_CID_LEN -> rlocal (read_cid dst).
Proof.
  intros Hd p off [len d] off' Hp Hz Ho E. pose proof (read_cid_safe dst p off Hd Hp ltac:(lia)) as H. rewrite E in H. destruct H as (Ho' & Hlen & _ & El & Eo & Ed).
  split; [lia|]. intros q [Hq H1]. unfold read_cid in *. rewrite <- Hq, <- (H1 off), El by lia. rewrite El in E.
  destruct (Z.leb_spec (zlen p) off); [discriminate|]. destruct (cid_fits len off (zlen p)) eqn:Ef; [|discriminate]. cbn [negb] in *.
  unfold copy_cid in *. unfold WIRED_MAX_CID_LEN in *. unfold cid_fits in Ef. destruct Hp as [_ Hl]. unfold span_max in Hl. rewrite u64_small in Ef |- * by lia.
  rewrite copy_spec by lia. rewrite <- (agree_sub off' p q (off + 1) len) by (lia || split; assumption). rewrite <- Ed. do 2 f_equal. lia.
Qed.

(** ** Headers *)

(** The two arrays and lengths of a parsed header. *)
Definition header_ok (h : wired_header) : Prop :=
  0 <= h_dcid_len h <= WIRED_MAX_CID_LEN /\ zlen (h_dcid h) = WIRED_MAX_CID_LEN /\ 0 <= h_scid_len h <= WIRED_MAX_CID_LEN /\ zlen (h_scid h) = WIRED_MAX_CID_LEN.

Definition arrays_ok (h : wired_header) : Prop := zlen (h_dcid h) = WIRED_MAX_CID_LEN /\ zlen (h_scid h) = WIRED_MAX_CID_LEN.

Lemma header_long_safe h p b : arrays_ok h -> span_ok p -> load p 0 = Some b -> packet_is_long b = true ->
  match wired_header_parse h p with
  | Ok (g, off) => header_ok g /\ 7 <= off <= zlen p /\
      forall q b', agree off p q -> load q 0 = Some b' -> packet_is_long b' = true -> exists g', wired_header_parse h q = Ok (g', off) /\ h_dcid_len g' = h_dcid_len g /\ h_scid_len g' = h_scid_len g
  | Fail => True
  | Oob => False
  end.
Proof.
  intros [Hd Hs] Hp E0 Hlong. unfold wired_header_parse. unfold packet_is_long in *. pose proof (load_Some _ _ _ E0) as H0.
  destruct (Z.eqb_spec (zlen p) 0); [exact I|]. rewrite E0, Hlong. unfold header_parse_long. destruct (Z.ltb_spec (zlen p) 5); [exact I|]. rewrite E0.
  assert (Hbe : forall q, zlen q = zlen p -> exists v, be_get_be32 q 1 = Some v).
  { intros q Hq. unfold be_get_be32. destruct (load_is_Some q 1) as [? ->]; [lia|]. destruct (load_is_Some q (1 + 1)) as [? ->]; [lia|].
    destruct (load_is_Some q (1 + 2)) as [? ->]; [lia|]. destruct (load_is_Some q (1 + 3)) as [? ->]; [lia|]. osimpl. by eexists. }
  destruct (Hbe p eq_refl) as [v Ev]. rewrite Ev. unfold read_cids, rbind.
  pose proof (read_cid_safe (h_dcid h) p 5 Hd Hp ltac:(lia)) as H1. destruct (read_cid (h_dcid h) p 5) as [[[n1 d1] o1]| |] eqn:E1; [|exact I | exact H1]. destruct H1 as (Ho1 & Hn1 & Hd1 & _ & Eo1 & _).
  pose proof (read_cid_safe (h_scid h) p o1 Hs Hp ltac:(lia)) as H2. destruct (read_cid (h_scid h) p o1) as [[[n2 d2] o2]| |] eqn:E2; [|exact I | exact H2]. destruct H2 as (Ho2 & Hn2 & Hd2 & _ & Eo2 & _).
  cbn [rret fst snd]. split; [split_and!; cbn [h_dcid_len h_dcid h_scid_len h_scid]; lia|]. split; [lia|]. intros q b' Hq Eb' Hl'.
  destruct (rlocal_cid _ Hd p 5 _ _ Hp ltac:(lia) ltac:(lia) E1) as [_ L1]. destruct (rlocal_cid _ Hs p o1 _ _ Hp ltac:(lia) ltac:(lia) E2) as [_ L2].
  pose proof (proj1 Hq) as Hzq. rewrite <- Hzq. destruct (Z.eqb_spec (zlen p) 0); [lia|]. rewrite Eb', Hl'. destruct (Z.ltb_spec (zlen p) 5); [lia|].
  destruct (Hbe q ltac:(lia)) as [v' ->]. rewrite (L1 q) by (apply (agree_le o2); [lia | exact Hq]). rewrite (L2 q Hq). eexists. split; [reflexivity|]. split; reflexivity.
Qed.

(** Parsing an Initial: inside the packet, and as before on a buffer with the
    same bytes between the first one and the number. *)
Lemma lhdr_parse_safe p : span_ok p ->
  match lhdr_parse p true with
  | Ok x => 7 <= l_pn_off x <= zlen p /\ 0 <= l_length x <= VARINT_MAX /\
      forall q b', agree (l_pn_off x) p q -> load q 0 = Some b' -> packet_is_long b' = true -> exists x', lhdr_parse q true = Ok x' /\ l_pn_off x' = l_pn_off x
  | Fail => True
  | Oob => False
  end.
Proof.
  intros Hp. unfold lhdr_parse, lhdr_take_prefix, is_long_header. destruct (Z.eqb_spec (zlen p) 0) as [|Hz]; [exact I|]. pose proof (zlen_nonneg p).
  destruct (load_is_Some p 0) as [b E0]; [lia|]. rewrite E0. osimpl. destruct (negb (Z.land b 0x80 =? 0)) eqn:Hlong; [|exact I].
  pose proof (header_long_safe header0 p b ltac:(split; reflexivity) Hp E0 Hlong) as Hh. destruct (wired_header_parse header0 p) as [[g off]| |] eqn:Eg; [|exact I | exact Hh].
  destruct Hh as (_ & Ho & Hloc). destruct (Z.eqb_spec off 0); [lia|].
  assert (HR : rlocal (token <- read_token true ;; l <- take_length ;; rret (token, l))).
  { apply rlocal_bind; [apply rlocal_inittoken|]. intros t. apply rlocal_bind; [apply rlocal_take_length | intros l; apply rlocal_ret]. }
  assert (HS : match (token <- read_token true ;; l <- take_length ;; rret (token, l)) p off with
    Ok (r, off') => off' = r.2.2 /\ 0 <= r.2.1 <= VARINT_MAX | Fail => True | Oob => False end).
  { unfold read_token, inittoken_get, take_tlen, take_length, rbind. cbn [negb]. pose proof (varint_take_safe p off Hp ltac:(lia)) as H1.
    destruct (varint_take p off) as [[k o1]| |]; [|exact I | exact H1]. destruct H1 as [H1 Hn]. pose proof Hp as [_ Hl]. unfold span_max, VARINT_MAX in *.
    rewrite (u64_small (zlen p - o1)) by lia. destruct (Z.leb_spec k (zlen p - o1)); [|exact I]. rewrite u64_small by lia.
    pose proof (varint_take_safe p (o1 + k) Hp ltac:(lia)) as H2. destruct (varint_take p (o1 + k)) as [[m o2]| |]; [|exact I | exact H2].
    cbn [rpos rret fst snd]. split; [reflexivity | apply H2]. }
  destruct ((token <- read_token true ;; l <- take_length ;; rret (token, l)) p off) as [[r off']| |] eqn:Er; [|exact I | exact HS].
  destruct HS as [Eo Hlen]. destruct (HR p off r off' Hp ltac:(lia) ltac:(lia) Er) as [Hoff L]. cbn [l_pn_off l_length]. rewrite <- Eo. split; [lia|]. split; [exact Hlen|].
  intros q b' Hq Eb' Hl'. pose proof (proj1 Hq) as Hzq. rewrite <- Hzq. destruct (Z.eqb_spec (zlen p) 0); [lia|]. rewrite Eb'. osimpl. unfold packet_is_long in Hl'. rewrite Hl'.
  destruct (Hloc q b' ltac:(apply (agree_le off'); [lia | exact Hq]) Eb' Hl') as (g' & -> & _). destruct (Z.eqb_spec off 0); [lia|]. rewrite (L q Hq). eexists. split; [reflexivity|]. cbn [l_pn_off]. by symmetry.
Qed.
