(* ===== verification/Packets.v ===== *)
(** * Datagrams and packets

    The split of a datagram into coalesced packets
    (src/src/transport/packet/header/packet/coalesce.c), the short header
    builders (short.c, shorthdr.c), Version Negotiation (vneg.c), Retry
    (retry.c), the destination id lookup (dcidresolve.c) and the padding of
    Initial datagrams (pad.c, initpad.c). *)

From stdpp Require Import base numbers list option.
From Stdlib Require Import ZArith Lia.
From S2P Require Import Prelude Bytes Varint Frames PktNum Header.

(** ** coalesce.c *)

(* src/src/transport/packet/header/packet/coalesce.h : coalesced *)
Record coalesced := mk_coalesced { co_data : list Z; co_len : Z }.
(* src/src/transport/packet/header/packet/coalesce.h : coalesce_iter *)
Record coalesce_iter := mk_ci { ci_dgram : list Z; ci_total : Z; ci_off : Z }.

(* src/src/transport/packet/header/packet/coalesce.c : coalesce_begin *)
Definition coalesce_begin (dgram : list Z) (total : Z) : coalesce_iter := mk_ci dgram total 0.

(* src/src/transport/packet/header/packet/coalesce.c : skip_cid *)
Definition skip_cid : R unit := fun inp p =>
  if zlen inp <=? p then Fail
  else
    match load inp p with
    | None => Oob
    | Some b => let p' := u64 (p + (1 + b)) in if p' <=? zlen inp then Ok (tt, p') else Fail
    end.

(* src/src/transport/packet/header/packet/coalesce.c : has_token *)
Definition has_token (buf : list Z) (start : Z) : option bool :=
  version ← be_get_be32 buf (start + 1);
  b0 ← load buf start;
  Some (bool_decide (packet_long_type b0 version = LT_INITIAL)).

(* src/src/transport/packet/header/packet/coalesce.c : skip_token *)
Definition skip_token : R unit :=
  tlen <- varint_take ;;
  fun inp p => let p' := u64 (p + tlen) in if p' <=? zlen inp then Ok (tt, p') else Fail.

(** The cursor moves over byte 0 and the version first, then is checked. *)
(* src/src/transport/packet/header/packet/coalesce.c : skip_long_prefix *)
Definition skip_long_prefix : R unit := fun inp p =>
  let p' := u64 (p + 5) in
  if zlen inp <? p' then Fail else (_ <- skip_cid ;; skip_cid) inp p'.

(* src/src/transport/packet/header/packet/coalesce.c : has_prefix_room *)
Definition has_prefix_room (buf : list Z) (p : Z) : bool := 5 <=? u64 (zlen buf - p).

(* src/src/transport/packet/header/packet/coalesce.c : skip_optional_token *)
Definition skip_optional_token (start : Z) : R unit := fun inp p =>
  match has_token inp start with
  | None => Oob
  | Some false => Ok (tt, p)
  | Some true => skip_token inp p
  end.

(* src/src/transport/packet/header/packet/coalesce.c : skip_to_length *)
Definition skip_to_length : R unit := fun inp p =>
  if negb (has_prefix_room inp p) then Fail
  else (_ <- skip_long_prefix ;; skip_optional_token p) inp p.

(* src/src/transport/packet/header/packet/coalesce.c : take_length_bound *)
Definition take_length_bound (off : Z) : R Z :=
  length <- varint_take ;;
  fun inp p =>
    if zlen inp <? u64 (p + length) then Fail else Ok (u64 (p - off + length), p).

(** 0 in C is [Fail]. *)
(* src/src/transport/packet/header/packet/coalesce.c : long_packet_len *)
Definition long_packet_len (buf : list Z) (off : Z) : res Z :=
  match (_ <- skip_to_length ;; take_length_bound off) buf off with
  | Ok (len, _) => Ok len
  | Fail => Fail
  | Oob => Oob
  end.

(* src/src/transport/packet/header/packet/coalesce.c : coalesce_emit *)
Definition coalesce_emit (it : coalesce_iter) (len : Z) : res (coalesced * coalesce_iter) :=
  if len =? 0 then Fail
  else Ok (mk_coalesced (drop (Z.to_nat (ci_off it)) (ci_dgram it)) len,
           mk_ci (ci_dgram it) (ci_total it) (u64 (ci_off it + len))).

(** The bytes of the datagram the iterator may read. *)
Definition ci_view (it : coalesce_iter) : list Z := take (Z.to_nat (ci_total it)) (ci_dgram it).

(* src/src/transport/packet/header/packet/coalesce.c : coalesce_next *)
Definition coalesce_next (it : coalesce_iter) : res (coalesced * coalesce_iter) :=
  let rest := u64 (ci_total it - ci_off it) in
  if ci_total it <=? ci_off it then Fail
  else
    match load (ci_view it) (ci_off it) with
    | None => Oob
    | Some b =>
        if Z.land b 0x80 =? 0 then coalesce_emit it rest
        else
          match long_packet_len (ci_view it) (ci_off it) with
          | Ok len => coalesce_emit it len
          | Fail => Fail
          | Oob => Oob
          end
    end.

(** A caller's loop [while (coalesce_next(&it, &pkt)) ..]: the packets of a
    datagram, each as its bytes. *)
Fixpoint coalesce_all (fuel : nat) (it : coalesce_iter) : res (list (list Z)) :=
  match coalesce_next it with
  | Oob => Oob
  | Fail => Ok []
  | Ok (c, it') =>
      match fuel with
      | O => Oob
      | S fuel' =>
          match coalesce_all fuel' it' with
          | Ok rest => Ok (take (Z.to_nat (co_len c)) (co_data c) :: rest)
          | r => r
          end
      end
  end.

Definition coalesce_split (dgram : list Z) : res (list (list Z)) :=
  coalesce_all (length dgram) (coalesce_begin dgram (zlen dgram)).

(** ** short.c, shorthdr.c *)

(* src/src/transport/packet/header/packet/short.h : short_desc *)
Record short_desc := mk_short {
  sh_dcid : list Z; sh_spin : Z; sh_key_phase : Z; sh_pn : Z; sh_pn_len : Z }.

(* src/src/transport/packet/header/packet/short.c : short_ok *)
Definition short_ok (cap : Z) (d : short_desc) : bool :=
  if (sh_pn_len d <? 1) || (4 <? sh_pn_len d) then false
  else u64 (1 + zlen (sh_dcid d) + sh_pn_len d) <=? cap.

(* src/src/transport/packet/header/packet/short.c : short_byte0 *)
Definition short_byte0 (spin key_phase pn_len : Z) : Z :=
  u8 (Z.lor (Z.lor (Z.lor 0x40 (u8 (Z.shiftl (Z.land spin 1) 5)))
        (u8 (Z.shiftl (Z.land key_phase 1) 2))) (u8 (pn_len - 1))).

(** [dst[i] = (u8)(pn >> ((pn_len - 1 - i) * 8))] for [i] from [i] up, [k]
    rounds. *)
Fixpoint put_pn_loop (dst : list Z) (base pn pn_len i : Z) (k : nat) : option (list Z) :=
  match k with
  | O => Some dst
  | S k' =>
      dst ← store dst (base + i) (u8 (Z.shiftr pn ((pn_len - 1 - i) * 8)));
      put_pn_loop dst base pn pn_len (i + 1) k'
  end.

(* src/src/transport/packet/header/packet/short.c : put_pn *)
Definition put_pn (dst : list Z) (base pn pn_len : Z) : option (list Z) :=
  put_pn_loop dst base pn pn_len 0 (Z.to_nat pn_len).

(** The result of [bytes_put] is dropped: the room was checked. *)
(* src/src/transport/packet/header/packet/short.c : short_build *)
Definition short_build (buf : list Z) (d : short_desc) : option (Z * list Z) :=
  if negb (short_ok (zlen buf) d) then Some (0, buf)
  else
    p ← store buf 0 (short_byte0 (sh_spin d) (sh_key_phase d) (sh_pn_len d));
    '(_, o) ← bytes_put (sh_dcid d) (zlen (sh_dcid d)) (mk_obuf p 1);
    p ← put_pn (op o) (olen o) (sh_pn d) (sh_pn_len d);
    Some (u64 (olen o + sh_pn_len d), p).

(* src/src/transport/packet/header/shorthdr/shorthdr.c : shorthdr_byte0 *)
Definition shorthdr_byte0 (spin key_phase pn_len : Z) : Z :=
  u8 (Z.lor (Z.lor (Z.lor 0x40 (Z.shiftl (Z.land spin 1) 5))
        (Z.shiftl (Z.land key_phase 1) 2)) (u8 (pn_len - 1))).

(* src/src/transport/packet/header/shorthdr/shorthdr.c : shorthdr_ok *)
Definition shorthdr_ok (cap : Z) (d : short_desc) : bool :=
  if (sh_pn_len d <? 1) || (4 <? sh_pn_len d) then false
  else u64 (1 + zlen (sh_dcid d) + sh_pn_len d) <=? cap.

(* src/src/transport/packet/header/shorthdr/shorthdr.c : shdr_put_pn *)
Definition shdr_put_pn (dst : list Z) (base pn pn_len : Z) : option (list Z) :=
  put_pn_loop dst base pn pn_len 0 (Z.to_nat pn_len).

(* src/src/transport/packet/header/shorthdr/shorthdr.c : shorthdr_build *)
Definition shorthdr_build (d : short_desc) (out : obuf) : option (bool * obuf) :=
  if negb (shorthdr_ok (ocap out) d) then Some (false, out)
  else
    p ← store (op out) 0 (shorthdr_byte0 (sh_spin d) (sh_key_phase d) (sh_pn_len d));
    '(_, o) ← bytes_put (sh_dcid d) (zlen (sh_dcid d)) (mk_obuf p 1);
    p ← shdr_put_pn (op o) (olen o) (sh_pn d) (sh_pn_len d);
    Some (true, mk_obuf p (u64 (olen o + sh_pn_len d))).

(** ** pad.c, initpad.c *)

Definition MIN_INITIAL_DATAGRAM : Z := 1200.

(* src/src/transport/packet/header/packet/pad.c : pad_needed *)
Definition pad_needed (cur_len : Z) : Z :=
  if MIN_INITIAL_DATAGRAM <=? cur_len then 0 else MIN_INITIAL_DATAGRAM - cur_len.

(* src/src/transport/packet/build/pktbuild/initpad.c : pad_fits *)
Definition pad_fits (current_len need cap : Z) : bool :=
  negb (need =? 0) && (u64 (current_len + need) <=? cap).

(* src/src/transport/packet/build/pktbuild/initpad.c : pktbuild_init_pad *)
Definition pktbuild_init_pad (datagram : list Z) (current_len cap : Z) : option (Z * list Z) :=
  let need := pad_needed current_len in
  if negb (pad_fits current_len need cap) then Some (current_len, datagram)
  else d ← fill datagram current_len Frame.FRAME_PADDING (Z.to_nat need); Some (u64 (current_len + need), d).

(* src/src/transport/packet/build/pktbuild/paddingelicit.c : pktbuild_padding_elicit_due *)
Definition pktbuild_padding_elicit_due (last_eliciting_at now pto : Z) : bool :=
  pto <=? u64 (now - last_eliciting_at).

(** ** dcidresolve.c *)

(* src/src/transport/packet/header/dcidresolve/dcidresolve.c : dcidresolve_is_long *)
Definition dcidresolve_is_long (dg : list Z) : option bool :=
  if 1 <=? zlen dg then b ← load dg 0; Some (negb (Z.land b 0x80 =? 0)) else Some false.

(* src/src/transport/packet/header/dcidresolve/dcidresolve.c : dcidresolve_short_len *)
Definition dcidresolve_short_len (dg : list Z) (short_hdr_len : Z) : Z :=
  if 1 <=? zlen dg then short_hdr_len else -1.

(* src/src/transport/packet/header/dcidresolve/dcidresolve.c : dcidresolve_long_len *)
Definition dcidresolve_long_len (dg : list Z) : option Z :=
  if 6 <=? zlen dg then load dg 5 else Some (-1).

(* src/src/transport/packet/header/dcidresolve/dcidresolve.c : dcidresolve_len *)
Definition dcidresolve_len (dg : list Z) (short_hdr_len : Z) : option Z :=
  l ← dcidresolve_is_long dg;
  if l : bool then dcidresolve_long_len dg else Some (dcidresolve_short_len dg short_hdr_len).

(* src/src/transport/packet/header/dcidresolve/dcidresolve.c : dcidresolve_offset *)
Definition dcidresolve_offset (dg : list Z) : option Z :=
  l ← dcidresolve_is_long dg; Some (if l : bool then 6 else 1).

(** The empty view is [[]]. *)
(* src/src/transport/packet/header/dcidresolve/dcidresolve.c : dcidresolve_dcid *)
Definition dcidresolve_dcid (dg : list Z) (dcid_len : Z) : option (list Z) :=
  off ← dcidresolve_offset dg;
  if (dcid_len <? 0) || (zlen dg <? u64 (off + u64 dcid_len)) then Some []
  else Some (sub_span dg off dcid_len).

(** ** vneg.c

    The connection id fields of [vneg.c] and [retry.c] are written and read the
    same way; each file has its own copy of the helper. *)

(* src/src/transport/packet/header/packet/vneg.c : vneg_put_cid *)
Definition vneg_put_cid (cid : list Z) : W := fun out =>
  if ocap out <? u64 (olen out + 1 + zlen cid) then Some (false, out)
  else
    p ← store (op out) (olen out) (u8 (zlen cid));
    bytes_put cid (zlen cid) (mk_obuf p (olen out + 1)).

(* src/src/transport/packet/header/packet/vneg.h : vneg_desc *)
Record vneg_desc := mk_vneg { vd_dcid : list Z; vd_scid : list Z; vd_versions : list Z }.

(* src/src/transport/packet/header/packet/vneg.c : vneg_fits *)
Definition vneg_fits (cap : Z) (d : vneg_desc) : bool :=
  let need := u64 (5 + 1 + zlen (vd_dcid d) + 1 + zlen (vd_scid d) + zlen (vd_versions d) * 4) in
  negb (zlen (vd_versions d) =? 0) && (need <=? cap).

(* src/src/transport/packet/header/packet/vneg.c : put_versions *)
Fixpoint put_versions (versions : list Z) (out : obuf) : option obuf :=
  match versions with
  | [] => Some out
  | v :: rest =>
      p ← be_put_be32 (op out) (olen out) v;
      put_versions rest (mk_obuf p (u64 (olen out + 4)))
  end.

(* src/src/transport/packet/header/packet/vneg.c : vneg_build *)
Definition vneg_build (buf : list Z) (d : vneg_desc) : option (Z * list Z) :=
  if negb (vneg_fits (zlen buf) d) then Some (0, buf)
  else
    p ← store buf 0 0xc0;
    p ← be_put_be32 p 1 0;
    '(_, o) ← vneg_put_cid (vd_dcid d) (mk_obuf p 5);
    '(_, o) ← vneg_put_cid (vd_scid d) o;
    o ← put_versions (vd_versions d) o;
    Some (olen o, op o).

(* src/src/transport/packet/header/packet/vneg.c : vneg_take_cid *)
Definition vneg_take_cid (dst : list Z) : R (Z * list Z) := fun inp off =>
  if zlen inp <=? off then Fail
  else
    match load inp off with
    | None => Oob
    | Some len =>
        if WIRED_MAX_CID_LEN <? len then Fail
        else (d <- bytes_take dst len ;; rret (len, d)) inp (off + 1)
    end.

(* src/src/transport/packet/header/packet/vneg.h : vneg_packet *)
Record vneg_packet := mk_vnp {
  vp_dcid_len : Z; vp_dcid : list Z; vp_scid_len : Z; vp_scid : list Z;
  vp_versions : list Z; vp_count : Z }.

(* src/src/transport/packet/header/packet/vneg.c : version_zero *)
Definition version_zero (buf : list Z) : option bool :=
  ver ← be_get_be32 buf 1; Some (ver =? 0).

(* src/src/transport/packet/header/packet/vneg.c : vneg_head_ok *)
Definition vneg_head_ok (buf : list Z) : option bool :=
  if zlen buf <? 7 then Some false
  else
    b0 ← load buf 0;
    if Z.land b0 0x80 =? 0 then Some false else version_zero buf.

(* src/src/transport/packet/header/packet/vneg.c : vneg_take_cids *)
Definition vneg_take_cids (dcid scid : list Z) : R ((Z * list Z) * (Z * list Z)) :=
  d <- vneg_take_cid dcid ;; s <- vneg_take_cid scid ;; rret (d, s).

(* src/src/transport/packet/header/packet/vneg.c : versions_whole *)
Definition versions_whole (rest : Z) : bool := if rest =? 0 then false else rest mod 4 =? 0.

(* src/src/transport/packet/header/packet/vneg.c : vneg_parse_after_head *)
Definition vneg_parse_after_head (dcid scid buf : list Z) : res vneg_packet :=
  match vneg_take_cids dcid scid buf 5 with
  | Oob => Oob
  | Fail => Fail
  | Ok (c, off) =>
      let rest := u64 (zlen buf - off) in
      if negb (versions_whole rest) then Fail
      else Ok (mk_vnp c.1.1 c.1.2 c.2.1 c.2.2 (drop (Z.to_nat off) buf) (rest / 4))
  end.

(** [dcid], [scid]: the 20-byte arrays of the result struct before the call. *)
(* src/src/transport/packet/header/packet/vneg.c : vneg_parse *)
Definition vneg_parse (dcid scid buf : list Z) : res (vneg_packet * Z) :=
  match vneg_head_ok buf with
  | None => Oob
  | Some false => Fail
  | Some true =>
      match vneg_parse_after_head dcid scid buf with
      | Oob => Oob
      | Fail => Fail
      | Ok v => Ok (v, zlen buf)
      end
  end.

(* src/src/transport/packet/header/packet/vneg.c : vneg_respond *)
Definition vneg_respond (buf : list Z) (recv : vneg_desc) : option (Z * list Z) :=
  vneg_build buf (mk_vneg (vd_scid recv) (vd_dcid recv) (vd_versions recv)).

(** ** retry.c *)

Definition RETRY_TAG_LEN : Z := 16.

(* src/src/transport/packet/header/packet/retry.h : retry_desc *)
Record retry_desc := mk_rd {
  rd_version : Z; rd_dcid : list Z; rd_scid : list Z; rd_token : list Z; rd_tag : list Z }.
(* src/src/transport/packet/header/packet/retry.h : retry_packet *)
Record retry_packet := mk_rp {
  rp_version : Z; rp_dcid_len : Z; rp_dcid : list Z; rp_scid_len : Z; rp_scid : list Z;
  rp_token : list Z; rp_token_len : Z; rp_tag : list Z }.

(* src/src/transport/packet/header/packet/retry.c : retry_put_cid *)
Definition retry_put_cid (cid : list Z) : W := fun out =>
  if ocap out <? u64 (olen out + 1 + zlen cid) then Some (false, out)
  else
    p ← store (op out) (olen out) (u8 (zlen cid));
    bytes_put cid (zlen cid) (mk_obuf p (olen out + 1)).

(* src/src/transport/packet/header/packet/retry.c : retry_fits *)
Definition retry_fits (cap : Z) (d : retry_desc) : bool :=
  u64 (5 + 1 + zlen (rd_dcid d) + 1 + zlen (rd_scid d) + zlen (rd_token d) + RETRY_TAG_LEN) <=? cap.

(* src/src/transport/packet/header/packet/retry.c : retry_byte0 *)
Definition retry_byte0 (version : Z) : Z :=
  let wire := if version =? VERSION_2 then v2_packet_type LT_RETRY else v1_packet_type LT_RETRY in
  u8 (Z.lor 0xC0 (Z.shiftl wire 4)).

(* src/src/transport/packet/header/packet/retry.c : retry_build *)
Definition retry_build (buf : list Z) (d : retry_desc) : option (Z * list Z) :=
  if negb (retry_fits (zlen buf) d) then Some (0, buf)
  else
    p ← store buf 0 (retry_byte0 (rd_version d));
    p ← be_put_be32 p 1 (rd_version d);
    '(_, o) ← retry_put_cid (rd_dcid d) (mk_obuf p 5);
    '(_, o) ← retry_put_cid (rd_scid d) o;
    '(_, o) ← bytes_put (rd_token d) (zlen (rd_token d)) o;
    '(_, o) ← bytes_put (rd_tag d) RETRY_TAG_LEN o;
    Some (olen o, op o).

(* src/src/transport/packet/header/packet/retry.c : retry_take_cid *)
Definition retry_take_cid (dst : list Z) : R (Z * list Z) := fun inp off =>
  if zlen inp <=? off then Fail
  else
    match load inp off with
    | None => Oob
    | Some len =>
        if WIRED_MAX_CID_LEN <? len then Fail
        else (d <- bytes_take dst len ;; rret (len, d)) inp (off + 1)
    end.

(* src/src/transport/packet/header/packet/retry.c : retry_head_ok *)
Definition retry_head_ok (buf : list Z) : option bool :=
  if zlen buf <? 5 + 1 + 1 + RETRY_TAG_LEN then Some false
  else b0 ← load buf 0; Some (Z.land b0 0xF0 =? 0xF0).

(* src/src/transport/packet/header/packet/retry.c : retry_take_cids *)
Definition retry_take_cids (dcid scid : list Z) : R ((Z * list Z) * (Z * list Z)) :=
  d <- retry_take_cid dcid ;; s <- retry_take_cid scid ;; rret (d, s).

(** The token view and its length, and the tag copied into [tag]. *)
(* src/src/transport/packet/header/packet/retry.c : take_token_tag *)
Definition take_token_tag (tag buf : list Z) (off : Z) : res (list Z * Z * list Z) :=
  let tag_off := u64 (zlen buf - RETRY_TAG_LEN) in
  if tag_off <? off then Fail
  else
    match bytes_take tag RETRY_TAG_LEN buf tag_off with
    | Ok (t, _) => Ok (drop (Z.to_nat off) buf, u64 (tag_off - off), t)
    | Fail => Fail
    | Oob => Oob
    end.

(* src/src/transport/packet/header/packet/retry.c : retry_parse_after_head *)
Definition retry_parse_after_head (dcid scid tag buf : list Z) : res retry_packet :=
  match be_get_be32 buf 1 with
  | None => Oob
  | Some version =>
      match retry_take_cids dcid scid buf 5 with
      | Oob => Oob
      | Fail => Fail
      | Ok (c, off) =>
          match take_token_tag tag buf off with
          | Oob => Oob
          | Fail => Fail
          | Ok (tok, tlen, t) => Ok (mk_rp version c.1.1 c.1.2 c.2.1 c.2.2 tok tlen t)
          end
      end
  end.

(* src/src/transport/packet/header/packet/retry.c : retry_parse *)
Definition retry_parse (dcid scid tag buf : list Z) : res (retry_packet * Z) :=
  match retry_head_ok buf with
  | None => Oob
  | Some false => Fail
  | Some true =>
      match retry_parse_after_head dcid scid tag buf with
      | Oob => Oob
      | Fail => Fail
      | Ok r => Ok (r, zlen buf)
      end
  end.

(** ** Safety of the split *)

Lemma rsafe_skip_cid : rsafe skip_cid (fun _ => True).
Proof.
  intros inp off [Hok Hl] Hz Ho. unfold skip_cid, span_max in *. bcase; [done|].
  destruct (load_is_Some inp off) as [b Hb]; [lia|]. rewrite Hb.
  pose proof (bytes_ok_lookup _ _ _ Hok Hb) as Hu. unfold is_u8 in Hu. cbv zeta.
  rewrite u64_small by lia. bcase; [lia|done].
Qed.

Lemma rsafe_skip_token : rsafe skip_token (fun _ => True).
Proof.
  unfold skip_token. eapply rsafe_bind; [apply rsafe_varint|intros tlen Ht; cbv beta in Ht].
  intros inp off [_ Hl] _ Ho. unfold VARINT_MAX, span_max in *. cbv zeta.
  rewrite u64_small by lia. bcase; [lia|done].
Qed.

Lemma has_token_total inp start :
  bytes_ok inp -> 0 <= start -> start + 5 <= zlen inp -> exists b, has_token inp start = Some b.
Proof.
  intros Hok Hs Hl. unfold has_token.
  destruct (be_get_be32_total inp (start + 1) Hok ltac:(lia) ltac:(lia)) as (v & -> & _). osimpl.
  destruct (load_is_Some inp start) as [b ->]; [lia|]. osimpl. eauto.
Qed.

Lemma skip_to_length_safe inp off :
  span_ok inp -> 0 <= off < zlen inp ->
  match skip_to_length inp off with
  | Ok (_, p) => off + 5 <= p <= zlen inp
  | Fail => True
  | Oob => False
  end.
Proof.
  intros Hs Ho. pose proof Hs as [Hok Hl]. unfold span_max in Hl. unfold skip_to_length, has_prefix_room.
  rewrite u64_small by lia. bcase; [done|]. unfold rbind at 1, skip_long_prefix. cbv zeta.
  rewrite u64_small by lia. bcase; [done|].
  assert (rsafe (_ <- skip_cid ;; skip_cid) (fun _ => True)) as Hc
    by (eapply rsafe_bind; [apply rsafe_skip_cid|intros _ _; apply rsafe_skip_cid]).
  specialize (Hc inp (off + 5) Hs ltac:(lia) ltac:(lia)).
  destruct (rbind skip_cid _ inp (off + 5)) as [[[] p]| |]; [|done|done]. destruct Hc as [Hp _].
  unfold skip_optional_token.
  destruct (has_token_total inp off Hok ltac:(lia) ltac:(lia)) as ([] & ->); [|lia].
  pose proof (rsafe_skip_token inp p Hs ltac:(lia) ltac:(lia)) as Ht.
  destruct (skip_token inp p) as [[[] p']| |]; [|done|done]. lia.
Qed.

Lemma long_packet_len_safe inp off :
  span_ok inp -> 0 <= off < zlen inp ->
  match long_packet_len inp off with
  | Ok len => 1 <= len <= zlen inp - off
  | Fail => True
  | Oob => False
  end.
Proof.
  intros Hs Ho. unfold long_packet_len, rbind at 1.
  pose proof (skip_to_length_safe inp off Hs Ho) as H1.
  destruct (skip_to_length inp off) as [[[] p]| |]; [|done|done]. unfold take_length_bound, rbind.
  pose proof (varint_take_safe inp p Hs ltac:(lia)) as H2.
  destruct (varint_take inp p) as [[len p']| |]; [|done|done]. destruct H2 as [Hp Hlen].
  destruct Hs as [_ Hl]. unfold span_max, VARINT_MAX in *. rewrite (u64_small (p' + len)) by lia.
  bcase; [done|]. rewrite u64_small by lia. lia.
Qed.

Definition ci_ok (it : coalesce_iter) : Prop :=
  span_ok (ci_dgram it) /\ ci_total it = zlen (ci_dgram it) /\ 0 <= ci_off it <= ci_total it.

Lemma coalesce_next_safe it :
  ci_ok it ->
  match coalesce_next it with
  | Ok (c, it') => 1 <= co_len c <= ci_total it - ci_off it /\
      co_data c = drop (Z.to_nat (ci_off it)) (ci_dgram it) /\ ci_ok it' /\
      ci_dgram it' = ci_dgram it /\ ci_off it' = ci_off it + co_len c
  | Fail => True
  | Oob => False
  end.
Proof.
  intros (Hs & Ht & Ho). unfold coalesce_next. cbv zeta. bcase; [done|].
  assert (ci_view it = ci_dgram it) as -> by (unfold ci_view; apply take_ge; unfold zlen in Ht; lia).
  destruct (load_is_Some (ci_dgram it) (ci_off it)) as [b ->]; [lia|].
  pose proof Hs as [_ Hl]. unfold span_max in Hl.
  assert (forall len, 1 <= len <= ci_total it - ci_off it ->
    match coalesce_emit it len with
    | Ok (c, it') => 1 <= co_len c <= ci_total it - ci_off it /\
        co_data c = drop (Z.to_nat (ci_off it)) (ci_dgram it) /\ ci_ok it' /\
        ci_dgram it' = ci_dgram it /\ ci_off it' = ci_off it + co_len c
    | Fail => True
    | Oob => False
    end) as He.
  { intros len Hlen. unfold coalesce_emit. bcase; [done|]. cbn. rewrite u64_small by lia.
    split_and!; try done; try lia. unfold ci_ok. cbn. split_and!; try done; lia. }
  bcase.
  - apply He. rewrite u64_small by lia. lia.
  - pose proof (long_packet_len_safe (ci_dgram it) (ci_off it) Hs ltac:(lia)) as Hlp.
    destruct (long_packet_len _ _) as [len| |]; [|done|done]. apply He. lia.
Qed.

Lemma coalesce_all_total fuel : forall it,
  ci_ok it -> ci_total it - ci_off it <= Z.of_nat fuel -> exists ps, coalesce_all fuel it = Ok ps.
Proof.
  induction fuel as [|fuel IH]; intros it Hok Hf; cbn [coalesce_all];
    pose proof (coalesce_next_safe it Hok) as H;
    destruct (coalesce_next it) as [[c it']| |]; try done; try (by eexists);
    destruct H as (Hl & _ & Hok' & Hd & Hoff).
  - lia.
  - destruct (IH it' Hok') as [ps ->]; [|by eexists].
    destruct Hok as (_ & Ht & _), Hok' as (_ & Ht' & _). rewrite Hd in Ht'. lia.
Qed.

(** ** The split of a datagram that was put together *)

Lemma skip_cid_reads F cid : zlen cid < 256 -> reads F skip_cid (zlen cid :: cid) (fun _ => True).
Proof.
  intros Hc pre post _ Hl. unfold skip_cid. rewrite load_at.
  pose proof (zlen_nonneg pre). pose proof (zlen_nonneg cid). pose proof (zlen_nonneg post).
  rewrite !zlen_app, zlen_cons in *. unfold span_max in Hl. bcase; [lia|]. cbv zeta.
  rewrite u64_small by lia. bcase; [|lia]. by exists tt.
Qed.

Lemma skip_token_reads F `{!prefix_stable F} token :
  zlen token < span_max ->
  reads F skip_token (varint_bytes (zlen token) ++ token) (fun _ => True).
Proof.
  intros Ht. unfold skip_token. pose proof (zlen_nonneg token). unfold span_max in Ht.
  eapply reads_bind; [done|apply reads_varint; unfold VARINT_MAX; lia|intros ? <-].
  intros pre post _ Hl. unfold span_max in Hl. rewrite !zlen_app in *.
  pose proof (zlen_nonneg pre). pose proof (zlen_nonneg post). cbv zeta.
  rewrite u64_small by lia. bcase; [|lia]. by exists tt.
Qed.

(** A long-header packet as the sender lays it out: the header of [lhdr_build]
    and the protected payload with its 16-byte tag; the Initial type bits of
    its version say whether there is a token. *)
Definition long_packet (d : lhdr_desc) (payload pkt : list Z) : Prop :=
  ld_ok d /\ packet_is_long (ld_byte0 d) = true /\
  bool_decide (packet_long_type (ld_byte0 d) (ld_version d) = LT_INITIAL) = ld_is_initial d /\
  zlen payload = ld_payload_len d + 16 /\
  exists l, lhdr_wire d = Some l /\ pkt = l ++ payload.

Lemma long_type_pnlen b n v :
  is_u8 b -> 1 <= n <= 4 -> packet_long_type (lhdr_byte0_pnlen b n) v = packet_long_type b v.
Proof.
  intros Hb Hn. destruct (lhdr_byte0_facts b n Hb Hn) as (_ & E1 & E2 & _). cbv zeta in *.
  unfold packet_long_type. by rewrite E1, E2.
Qed.

Lemma has_token_wire pre d rest :
  is_u8 (ld_byte0 d) -> 1 <= ld_pn_len d <= 4 -> is_u32 (ld_version d) ->
  has_token (pre ++ lhdr_prefix d ++ rest) (zlen pre) =
    Some (bool_decide (packet_long_type (ld_byte0 d) (ld_version d) = LT_INITIAL)).
Proof.
  intros Hb Hn Hv. unfold has_token.
  set (b0 := lhdr_byte0_pnlen (ld_byte0 d) (ld_pn_len d)).
  set (tl := (zlen (ld_dcid d) :: ld_dcid d) ++ (zlen (ld_scid d) :: ld_scid d)).
  assert (pre ++ lhdr_prefix d ++ rest = (pre ++ [b0]) ++ be_bytes 4 (ld_version d) ++ (tl ++ rest)) as E.
  { unfold lhdr_prefix, long_prefix_wire. fold b0. fold tl. by rewrite <- !app_assoc. }
  rewrite E. replace (zlen pre + 1) with (zlen (pre ++ [b0])) by zl.
  rewrite be_get_be32_spec by done. osimpl.
  rewrite <- app_assoc, load_at. osimpl. subst b0. by rewrite long_type_pnlen.
Qed.

Lemma skip_to_length_wire pre d rest :
  ld_ok d -> cids_ok d = true ->
  bool_decide (packet_long_type (ld_byte0 d) (ld_version d) = LT_INITIAL) = ld_is_initial d ->
  let tok := if ld_is_initial d then varint_bytes (zlen (ld_token d)) ++ ld_token d else [] in
  zlen (pre ++ lhdr_prefix d ++ tok ++ rest) < span_max ->
  skip_to_length (pre ++ lhdr_prefix d ++ tok ++ rest) (zlen pre) =
    Ok (tt, zlen pre + zlen (lhdr_prefix d) + zlen tok).
Proof.
  intros (Hb & Hv & Ht & Hn & _) Hc Hini tok Hs.
  set (b0 := lhdr_byte0_pnlen (ld_byte0 d) (ld_pn_len d)).
  set (cids := (zlen (ld_dcid d) :: ld_dcid d) ++ (zlen (ld_scid d) :: ld_scid d)).
  set (h5 := b0 :: be_bytes 4 (ld_version d)).
  assert (zlen h5 = 5) as H5 by (subst h5; rewrite zlen_cons, zlen_be_bytes; lia).
  assert (lhdr_prefix d = h5 ++ cids) as Epre by (unfold lhdr_prefix; by rewrite long_prefix_split).
  unfold cids_ok, WIRED_MAX_CID_LEN in Hc.
  pose proof (zlen_nonneg pre). pose proof (zlen_nonneg tok). pose proof (zlen_nonneg rest).
  pose proof (zlen_nonneg cids). unfold skip_to_length, has_prefix_room.
  set (pkt := pre ++ lhdr_prefix d ++ tok ++ rest) in *.
  assert (zlen pkt = zlen pre + 5 + zlen cids + zlen tok + zlen rest) as Hz
    by (subst pkt; rewrite Epre, !zlen_app, H5; lia).
  unfold span_max in Hs. rewrite u64_small by lia.
  replace (5 <=? zlen pkt - zlen pre) with true by lia. cbn [negb].
  unfold rbind at 1, skip_long_prefix. cbv zeta. rewrite u64_small by lia. bcase; [lia|].
  assert (reads anywhere (_ <- skip_cid ;; skip_cid) cids (fun _ => True)) as Hr.
  { unfold cids. eapply reads_bind; [typeclasses eauto|apply skip_cid_reads; lia|].
    intros _ _. apply skip_cid_reads; lia. }
  assert (pkt = (pre ++ h5) ++ cids ++ (tok ++ rest)) as Ep
    by (subst pkt; rewrite Epre; by rewrite <- !app_assoc).
  destruct (Hr (pre ++ h5) (tok ++ rest)) as ([] & Er & _); [done|rewrite <- Ep; unfold span_max; lia|].
  rewrite <- Ep, zlen_app, H5 in Er. rewrite Er. unfold skip_optional_token.
  assert (has_token pkt (zlen pre) = Some (ld_is_initial d)) as ->.
  { subst pkt. rewrite has_token_wire by done. by rewrite Hini. }
  rewrite Epre, zlen_app, H5.
  assert (pkt = ((pre ++ h5) ++ cids) ++ tok ++ rest) as Ep2 by (rewrite Ep; by rewrite <- !app_assoc).
  subst tok. destruct (ld_is_initial d); [|do 2 f_equal; zl].
  destruct (skip_token_reads anywhere (ld_token d) Ht ((pre ++ h5) ++ cids) rest) as ([] & Et & _);
    [done|rewrite <- Ep2; unfold span_max; lia|].
  rewrite <- Ep2 in Et. rewrite !zlen_app, H5 in Et. rewrite !zlen_app.
  replace (zlen pre + 5 + zlen cids) with (zlen pre + 5 + zlen cids) in Et by lia. rewrite Et.
  do 2 f_equal. lia.
Qed.

Lemma long_packet_len_wire pre d payload pkt rest :
  long_packet d payload pkt -> zlen (pre ++ pkt ++ rest) < span_max ->
  long_packet_len (pre ++ pkt ++ rest) (zlen pre) = Ok (zlen pkt).
Proof.
  intros (Hok & Hlong & Hini & Hpay & l & Hl & ->) Hs. pose proof Hok as (_ & _ & _ & Hn & Hp & _).
  unfold lhdr_wire in Hl. destruct (cids_ok d) eqn:Ec; [|done]. apply (inj Some) in Hl as <-.
  set (tok := if ld_is_initial d then varint_bytes (zlen (ld_token d)) ++ ld_token d else []).
  set (pnb := be_bytes (Z.to_nat (ld_pn_len d)) (ld_pn d)).
  assert (zlen pnb = ld_pn_len d) as Hpn by (subst pnb; rewrite zlen_be_bytes; lia).
  assert (pre ++ ((lhdr_prefix d ++ lhdr_body d) ++ payload) ++ rest =
    pre ++ lhdr_prefix d ++ tok ++ (varint_bytes (ld_length d) ++ pnb ++ payload ++ rest)) as E.
  { unfold lhdr_body. fold tok. fold pnb. by rewrite <- !app_assoc. }
  assert (zlen ((lhdr_prefix d ++ lhdr_body d) ++ payload) =
    zlen (lhdr_prefix d) + zlen tok + zlen (varint_bytes (ld_length d)) + ld_length d) as Hz.
  { unfold lhdr_body. fold tok. fold pnb. rewrite !zlen_app, Hpn, Hpay. unfold ld_length. lia. }
  rewrite Hz, E in *. unfold long_packet_len, rbind at 1.
  rewrite skip_to_length_wire by done. fold tok. unfold take_length_bound, rbind.
  assert (0 <= ld_length d <= VARINT_MAX) as Hlen by (unfold ld_length, VARINT_MAX; lia).
  set (front := pre ++ lhdr_prefix d ++ tok).
  assert (pre ++ lhdr_prefix d ++ tok ++ varint_bytes (ld_length d) ++ pnb ++ payload ++ rest =
    front ++ varint_bytes (ld_length d) ++ (pnb ++ payload ++ rest)) as E2
    by (subst front; by rewrite <- !app_assoc).
  assert (zlen pre + zlen (lhdr_prefix d) + zlen tok = zlen front) as Ef by (subst front; zl).
  rewrite E2 in *. rewrite Ef. rewrite varint_take_spec by done.
  unfold span_max in Hs. rewrite !zlen_app in *. rewrite Hpn, Hpay in *.
  pose proof (varint_bytes_pos (ld_length d)). pose proof (zlen_nonneg rest). pose proof (zlen_nonneg pre).
  pose proof (zlen_nonneg tok). pose proof (zlen_nonneg (lhdr_prefix d)). unfold ld_length in *.
  rewrite u64_small by lia. bcase; [lia|]. f_equal. rewrite u64_small by lia. lia.
Qed.

Lemma lhdr_prefix_first d rest :
  load (lhdr_prefix d ++ rest) 0 = Some (lhdr_byte0_pnlen (ld_byte0 d) (ld_pn_len d)).
Proof. done. Qed.

Lemma long_packet_first d payload pkt :
  long_packet d payload pkt ->
  1 <= zlen pkt /\ exists b rest, pkt = b :: rest /\ (Z.land b 0x80 =? 0) = false.
Proof.
  intros (Hok & Hlong & _ & _ & l & Hl & ->). pose proof Hok as (Hb & _ & _ & Hn & _).
  unfold lhdr_wire in Hl. destruct (cids_ok d); [|done]. apply (inj Some) in Hl as <-.
  destruct (lhdr_byte0_facts (ld_byte0 d) (ld_pn_len d) Hb Hn) as (_ & Hlong' & _). cbv zeta in Hlong'.
  rewrite Hlong in Hlong'. unfold packet_is_long in Hlong'.
  unfold lhdr_prefix, long_prefix_wire. cbn [app]. split.
  - rewrite zlen_cons. match goal with |- context [1 + zlen ?x] => pose proof (zlen_nonneg x) end. lia.
  - do 2 eexists. split; [reflexivity|]. by apply negb_true_iff.
Qed.

Lemma coalesce_next_long pre d payload pkt rest :
  long_packet d payload pkt -> zlen (pre ++ pkt ++ rest) < span_max ->
  coalesce_next (mk_ci (pre ++ pkt ++ rest) (zlen (pre ++ pkt ++ rest)) (zlen pre)) =
    Ok (mk_coalesced (pkt ++ rest) (zlen pkt),
        mk_ci (pre ++ pkt ++ rest) (zlen (pre ++ pkt ++ rest)) (zlen pre + zlen pkt)).
Proof.
  intros Hp Hs. destruct (long_packet_first d payload pkt Hp) as (H1 & b & tl & Eb & Hlong).
  pose proof (zlen_nonneg pre). pose proof (zlen_nonneg rest).
  unfold coalesce_next, ci_view. cbn [ci_total ci_off ci_dgram]. cbv zeta.
  assert (zlen (pre ++ pkt ++ rest) = zlen pre + zlen pkt + zlen rest) as Hz by zl.
  unfold span_max in Hs. bcase; [lia|]. rewrite take_ge by (unfold zlen; lia).
  assert (load (pre ++ pkt ++ rest) (zlen pre) = Some b) as -> by (rewrite Eb; apply load_at).
  rewrite Hlong. rewrite (long_packet_len_wire pre d payload pkt rest) by (done || unfold span_max; lia).
  unfold coalesce_emit. bcase; [lia|]. cbn [ci_off ci_dgram ci_total]. rewrite u64_small by lia.
  rewrite drop_app_length' by (unfold zlen; lia). done.
Qed.

(** The tail of a datagram: nothing, or one short-header packet. *)
Definition short_tail (tl : list Z) : Prop :=
  tl = [] \/ exists b rest, tl = b :: rest /\ Z.land b 0x80 = 0.

Lemma coalesce_all_wire tl ps : forall fuel pre,
  short_tail tl ->
  Forall (fun p => exists d payload, long_packet d payload p) ps ->
  zlen (pre ++ concat ps ++ tl) < span_max -> (length ps + length tl <= fuel)%nat ->
  coalesce_all fuel (mk_ci (pre ++ concat ps ++ tl) (zlen (pre ++ concat ps ++ tl)) (zlen pre)) =
    Ok (ps ++ match tl with [] => [] | _ => [tl] end).
Proof.
  induction ps as [|p ps IH]; intros fuel pre Ht Hps Hs Hf; cbn [concat app] in *.
  - pose proof (zlen_nonneg pre). unfold span_max in Hs.
    destruct Ht as [->|(b & rest & -> & Hb)].
    { rewrite app_nil_r in *. destruct fuel; cbn [coalesce_all]; unfold coalesce_next;
        cbn [ci_total ci_off ci_dgram]; (bcase; [done|lia]). }
    destruct fuel as [|fuel]; [simpl in Hf; lia|]. cbn [coalesce_all].
    unfold coalesce_next, ci_view. cbn [ci_total ci_off ci_dgram]. cbv zeta.
    assert (zlen (pre ++ b :: rest) = zlen pre + 1 + zlen rest) as Hz by (rewrite zlen_app, zlen_cons; lia).
    pose proof (zlen_nonneg rest). bcase; [lia|]. rewrite take_ge by (unfold zlen; lia).
    assert (load (pre ++ b :: rest) (zlen pre) = Some b) as ->.
    { rewrite load_app_r, Z.sub_diag by lia. done. }
    rewrite Hb. cbn [Z.eqb]. unfold coalesce_emit. rewrite u64_small by lia. bcase; [lia|].
    cbn [ci_off ci_dgram ci_total co_len co_data]. rewrite u64_small by lia.
    rewrite drop_app_length' by (unfold zlen; lia).
    rewrite (take_ge (b :: rest)) by (unfold zlen in *; simpl; lia).
    destruct fuel; cbn [coalesce_all]; unfold coalesce_next; cbn [ci_total ci_off ci_dgram];
      (bcase; [done|lia]).
  - apply Forall_cons_1 in Hps as [(d & payload & Hp) Hps].
    destruct fuel as [|fuel]; [simpl in Hf; lia|]. cbn [coalesce_all].
    rewrite <- (app_assoc p) in *. rewrite (coalesce_next_long pre d payload p) by done.
    cbn [co_len co_data]. rewrite app_assoc in Hs |- *.
    rewrite <- (zlen_app pre p). rewrite IH; [|done|done|done|simpl in Hf; lia].
    by rewrite take_app_length' by (unfold zlen; lia).
Qed.

(** ** Short headers *)

(** RFC 9000 17.3.1. *)
Definition short_wire (d : short_desc) : list Z :=
  short_byte0 (sh_spin d) (sh_key_phase d) (sh_pn_len d) :: sh_dcid d ++
  be_bytes (Z.to_nat (sh_pn_len d)) (sh_pn d).

Lemma put_pn_loop_spec pn n k : forall dst base i,
  0 <= pn -> 0 <= base -> 0 <= i -> i + Z.of_nat k = n -> base + n <= zlen dst ->
  put_pn_loop dst base pn n i k = Some (splice dst (base + i) (be_bytes k pn)).
Proof.
  induction k as [|k IH]; intros dst base i Hp Hb Hi Hn Hl; cbn [put_pn_loop].
  { cbn [be_bytes]. by rewrite splice_nil. }
  rewrite store_in by lia. osimpl. rewrite IH by (rewrite ?zlen_insert; lia).
  rewrite be_bytes_cons. rewrite Z.add_assoc, splice_cons_store by lia.
  do 3 f_equal. rewrite u8_shiftr by lia. do 2 f_equal.
  replace ((n - 1 - i) * 8) with (8 * Z.of_nat k) by lia. by rewrite Z.pow_mul_r by lia.
Qed.

Lemma short_build_spec buf d :
  is_u64 (sh_pn d) -> zlen (sh_dcid d) < span_max -> zlen buf < span_max ->
  short_build buf d =
    if (1 <=? sh_pn_len d) && (sh_pn_len d <=? 4) && (zlen (short_wire d) <=? zlen buf)
    then Some (zlen (short_wire d), splice buf 0 (short_wire d)) else Some (0, buf).
Proof.
  unfold is_u64, span_max. intros Hp Hd Hb. unfold short_build, short_ok.
  pose proof (zlen_nonneg (sh_dcid d)).
  destruct ((sh_pn_len d <? 1) || (4 <? sh_pn_len d)) eqn:E; cbn [negb].
  { by replace ((1 <=? sh_pn_len d) && (sh_pn_len d <=? 4)) with false by lia. }
  replace ((1 <=? sh_pn_len d) && (sh_pn_len d <=? 4)) with true by lia. cbn [andb].
  assert (zlen (be_bytes (Z.to_nat (sh_pn_len d)) (sh_pn d)) = sh_pn_len d) as Hpn
    by (rewrite zlen_be_bytes; lia).
  assert (zlen (short_wire d) = 1 + zlen (sh_dcid d) + sh_pn_len d) as Hz
    by (unfold short_wire; rewrite zlen_cons, zlen_app, Hpn; lia).
  rewrite Hz. rewrite u64_small by lia.
  destruct (1 + zlen (sh_dcid d) + sh_pn_len d <=? zlen buf) eqn:Efit; cbn [negb]; [|done].
  rewrite store_splice by lia. osimpl. unfold bytes_put. unfold ocap. cbn [op olen].
  set (b0 := short_byte0 _ _ _).
  assert (zlen (splice buf 0 [b0]) = zlen buf) as Hs1 by (apply zlen_splice; zl).
  rewrite Hs1. rewrite !u64_small by lia. bcase; [lia|].
  rewrite copy_spec by (unfold zlen in *; lia). osimpl. cbn [op olen].
  rewrite drop_0, take_ge by (unfold zlen; lia).
  pose proof (splice_app buf 0 [b0] (sh_dcid d) ltac:(lia)) as Es. change (0 + zlen [b0]) with 1 in Es.
  rewrite Es by zl. unfold put_pn.
  rewrite put_pn_loop_spec; [|lia|lia|lia|lia|rewrite zlen_splice; zl]. osimpl. rewrite u64_small by lia.
  pose proof (splice_app buf 0 ([b0] ++ sh_dcid d) (be_bytes (Z.to_nat (sh_pn_len d)) (sh_pn d))) as Es2.
  replace (0 + zlen ([b0] ++ sh_dcid d)) with (1 + zlen (sh_dcid d) + 0) in Es2 by zl.
  rewrite Es2 by lia. unfold short_wire. fold b0. by rewrite <- app_assoc.
Qed.

(** ** Version Negotiation and Retry *)

Lemma vneg_put_cid_wspec cid :
  zlen cid < 256 -> wspec (vneg_put_cid cid) (Some (zlen cid :: cid)).
Proof.
  intros Hm o [Ho Hc]. pose proof (zlen_nonneg cid). unfold span_max in *. unfold vneg_put_cid, ocap in *.
  rewrite !u64_small by lia.
  destruct (zlen (op o) <? olen o + 1 + zlen cid) eqn:E.
  - right. split; [|exists o; unfold obuf_ok, ocap, span_max; auto].
    intros bs [= <-]. unfold ofits, ocap. rewrite zlen_cons. lia.
  - left. eexists. split; [done|]. unfold ofits, ocap. rewrite zlen_cons. split; [lia|].
    rewrite store_splice by lia. osimpl. unfold bytes_put, ocap. cbn [op olen].
    assert (zlen (splice (op o) (olen o) [u8 (zlen cid)]) = zlen (op o)) as Hs by (apply zlen_splice; zl).
    rewrite Hs, !u64_small by lia. bcase; [lia|].
    rewrite copy_spec by (unfold zlen in *; lia). osimpl.
    rewrite drop_0, take_ge by (unfold zlen; lia). unfold obuf_app. rewrite zlen_cons.
    pose proof (splice_app (op o) (olen o) [u8 (zlen cid)] cid ltac:(lia)) as Es.
    replace (olen o + zlen [u8 (zlen cid)]) with (olen o + 1) in Es by zl.
    rewrite Es by lia. rewrite u8_small by lia. cbn [app]. do 3 f_equal. lia.
Qed.

(** A step whose result is dropped because the room was checked before. *)
Lemma wspec_room w bs o :
  wspec w (Some bs) -> obuf_ok o -> ofits o bs -> w o = Some (true, obuf_app o bs).
Proof.
  intros Hw Ho Hf. destruct (Hw o Ho) as [(b & [= <-] & _ & E)|(Hno & _)]; [done|].
  by destruct (Hno bs eq_refl Hf).
Qed.

Definition versions_wire (vs : list Z) : list Z := concat (map (be_bytes 4) vs).

Lemma zlen_versions vs : zlen (versions_wire vs) = 4 * zlen vs.
Proof.
  induction vs as [|v vs IH]; [done|]. unfold versions_wire in *. cbn [map concat].
  rewrite zlen_app, zlen_be_bytes, IH, zlen_cons. lia.
Qed.

Lemma put_versions_spec vs : forall o,
  obuf_ok o -> ofits o (versions_wire vs) -> put_versions vs o = Some (obuf_app o (versions_wire vs)).
Proof.
  induction vs as [|v vs IH]; intros o Ho Hf; cbn [put_versions].
  { by rewrite obuf_app_nil. }
  change (versions_wire (v :: vs)) with (be_bytes 4 v ++ versions_wire vs) in *.
  apply ofits_app in Hf as [Hf1 Hf2]; [|done]. pose proof Ho as [Ho1 Hc].
  pose proof Hf1 as Hf1'. unfold ofits, ocap, span_max in *. rewrite zlen_be_bytes in Hf1'.
  rewrite be_put_be32_spec by lia. osimpl. rewrite u64_small by lia.
  assert (mk_obuf (splice (op o) (olen o) (be_bytes 4 v)) (olen o + 4) = obuf_app o (be_bytes 4 v)) as ->
    by (unfold obuf_app; by rewrite zlen_be_bytes).
  rewrite IH; [|by apply obuf_app_ok|done]. by rewrite obuf_app_app.
Qed.

(** RFC 9000 17.2.1. *)
Definition vneg_wire (d : vneg_desc) : list Z :=
  long_prefix_wire 0xc0 0 (vd_dcid d) (vd_scid d) ++ versions_wire (vd_versions d).

Definition vneg_ok (d : vneg_desc) : Prop :=
  zlen (vd_dcid d) <= WIRED_MAX_CID_LEN /\ zlen (vd_scid d) <= WIRED_MAX_CID_LEN /\
  0 < zlen (vd_versions d) < 1152921504606846976 /\ Forall is_u32 (vd_versions d).

Lemma zlen_long_prefix b v d s : zlen (long_prefix_wire b v d s) = 7 + zlen d + zlen s.
Proof. rewrite long_prefix_split, !zlen_app, !zlen_cons, zlen_be_bytes. lia. Qed.

(** The five fixed bytes and the two ids, as [vneg_build] and [retry_build]
    write them: first byte, version, then the id fields. *)
Lemma long_prefix_steps (put : list Z -> W) buf b0 v d s :
  (forall cid, zlen cid < 256 -> wspec (put cid) (Some (zlen cid :: cid))) ->
  zlen d <= WIRED_MAX_CID_LEN -> zlen s <= WIRED_MAX_CID_LEN ->
  zlen (long_prefix_wire b0 v d s) <= zlen buf -> zlen buf < span_max ->
  (p ← store buf 0 b0; p ← be_put_be32 p 1 v; '(_, o) ← put d (mk_obuf p 5); '(_, o) ← put s o; Some o) =
    Some (obuf_app (obuf_of buf) (long_prefix_wire b0 v d s)).
Proof.
  unfold WIRED_MAX_CID_LEN. intros Hput Hd Hs Hl Hb. rewrite zlen_long_prefix in Hl.
  pose proof (zlen_nonneg d). pose proof (zlen_nonneg s).
  rewrite store_splice by lia. osimpl.
  assert (zlen (splice buf 0 [b0]) = zlen buf) as Hs1 by (apply zlen_splice; zl).
  rewrite be_put_be32_spec by lia. osimpl.
  pose proof (splice_app buf 0 [b0] (be_bytes 4 v) ltac:(lia)) as Es. change (0 + zlen [b0]) with 1 in Es.
  rewrite Es by zl. cbn [app].
  assert (mk_obuf (splice buf 0 (b0 :: be_bytes 4 v)) 5 = obuf_app (obuf_of buf) (b0 :: be_bytes 4 v)) as ->
    by (unfold obuf_app; cbn [op olen obuf_of]; by rewrite zlen_cons, zlen_be_bytes).
  assert (obuf_ok (obuf_of buf)) as Ho by (unfold obuf_ok, ocap; cbn [op olen obuf_of]; lia).
  assert (forall bs, zlen bs <= zlen buf -> ofits (obuf_of buf) bs) as Hfit
    by (intros; unfold ofits, ocap; cbn [op olen obuf_of]; lia).
  assert (ofits (obuf_of buf) ((b0 :: be_bytes 4 v) ++ (zlen d :: d) ++ (zlen s :: s))) as Hf.
  { apply Hfit. rewrite <- long_prefix_split, zlen_long_prefix. lia. }
  apply ofits_app in Hf as [Hf1 Hf2]; [|done].
  apply ofits_app in Hf2 as [Hf2 Hf3]; [|by apply obuf_app_ok].
  rewrite (wspec_room (put d) (zlen d :: d)); [|apply Hput; lia|by apply obuf_app_ok|done]. osimpl.
  rewrite (wspec_room (put s) (zlen s :: s)); [|apply Hput; lia|by apply obuf_app_ok, Hf2; apply obuf_app_ok|done].
  osimpl. rewrite (obuf_app_app _ (b0 :: be_bytes 4 v)) by done.
  rewrite obuf_app_app; [|done|by apply ofits_app].
  by rewrite long_prefix_split, <- app_assoc.
Qed.

(** Two monadic sequences that share their first four steps. *)
Lemma long_prefix_bind {A} (put : list Z -> W) buf b0 v d s (k : obuf -> option A) o :
  (p ← store buf 0 b0; p ← be_put_be32 p 1 v; '(_, o) ← put d (mk_obuf p 5); '(_, o) ← put s o; Some o) = Some o ->
  (p ← store buf 0 b0; p ← be_put_be32 p 1 v; '(_, o) ← put d (mk_obuf p 5); '(_, o) ← put s o; k o) = k o.
Proof.
  destruct (store buf 0 b0) as [p1|]; osimpl; [|done].
  destruct (be_put_be32 p1 1 v) as [p2|]; osimpl; [|done].
  destruct (put d (mk_obuf p2 5)) as [[? o1]|]; osimpl; [|done].
  destruct (put s o1) as [[? o2]|]; osimpl; [|done]. by intros [= ->].
Qed.

Lemma vneg_build_spec buf d :
  vneg_ok d -> zlen buf < span_max ->
  vneg_build buf d = if zlen (vneg_wire d) <=? zlen buf
    then Some (zlen (vneg_wire d), splice buf 0 (vneg_wire d)) else Some (0, buf).
Proof.
  intros (Hd & Hs & Hv & _) Hb. unfold vneg_build, vneg_fits. cbv zeta. unfold WIRED_MAX_CID_LEN in *.
  pose proof (zlen_nonneg (vd_dcid d)). pose proof (zlen_nonneg (vd_scid d)).
  assert (zlen (vneg_wire d) = 7 + zlen (vd_dcid d) + zlen (vd_scid d) + 4 * zlen (vd_versions d)) as Hz
    by (unfold vneg_wire; rewrite zlen_app, zlen_long_prefix, zlen_versions; lia).
  rewrite Hz, u64_small by lia.
  replace (zlen (vd_versions d) =? 0) with false by lia. cbn [negb andb].
  replace (5 + 1 + zlen (vd_dcid d) + 1 + zlen (vd_scid d) + zlen (vd_versions d) * 4 <=? zlen buf)
    with (7 + zlen (vd_dcid d) + zlen (vd_scid d) + 4 * zlen (vd_versions d) <=? zlen buf) by lia.
  destruct (_ <=? zlen buf) eqn:E; cbn [negb]; [|done].
  rewrite (long_prefix_bind vneg_put_cid buf 0xc0 0 (vd_dcid d) (vd_scid d) _ _
    (long_prefix_steps vneg_put_cid buf 0xc0 0 (vd_dcid d) (vd_scid d) vneg_put_cid_wspec
       ltac:(unfold WIRED_MAX_CID_LEN; lia) ltac:(unfold WIRED_MAX_CID_LEN; lia)
       ltac:(rewrite zlen_long_prefix; lia) Hb)).
  assert (obuf_ok (obuf_of buf)) as Ho by (unfold obuf_ok, ocap; cbn [op olen obuf_of]; pose proof (zlen_nonneg buf); lia).
  assert (ofits (obuf_of buf) (vneg_wire d)) as Hf by (unfold ofits, ocap; cbn [op olen obuf_of]; lia).
  unfold vneg_wire in Hf. apply ofits_app in Hf as [Hf1 Hf2]; [|done].
  rewrite put_versions_spec by (done || by apply obuf_app_ok). osimpl.
  rewrite obuf_app_app by done. unfold obuf_app. cbn [op olen obuf_of].
  change (long_prefix_wire 192 0 (vd_dcid d) (vd_scid d) ++ versions_wire (vd_versions d)) with (vneg_wire d).
  by rewrite Hz, Z.add_0_l.
Qed.

Lemma take_cid_reads F `{!prefix_stable F} dst cid :
  zlen cid <= WIRED_MAX_CID_LEN -> zlen dst = WIRED_MAX_CID_LEN ->
  reads F (vneg_take_cid dst) (zlen cid :: cid)
    (fun r => r.1 = zlen cid /\ take (Z.to_nat (zlen cid)) r.2 = cid).
Proof.
  unfold WIRED_MAX_CID_LEN. intros Hc Hd pre post HF Hl. unfold vneg_take_cid. rewrite load_at.
  pose proof (zlen_nonneg pre). pose proof (zlen_nonneg cid). pose proof (zlen_nonneg post).
  pose proof Hl as Hl2. rewrite !zlen_app, zlen_cons in Hl2. rewrite !zlen_app, zlen_cons.
  bcase; [lia|]. unfold WIRED_MAX_CID_LEN. bcase; [lia|].
  assert (pre ++ (zlen cid :: cid) ++ post = (pre ++ [zlen cid]) ++ cid ++ post) as E
    by (by rewrite <- app_assoc). rewrite E in *.
  destruct (reads_bytes_take F dst cid (zlen cid) eq_refl ltac:(lia) (pre ++ [zlen cid]) post)
    as (a & Ea & <-); [by apply prefix_stable_app|done|].
  replace (zlen (pre ++ [zlen cid])) with (zlen pre + 1) in Ea by zl.
  exists (zlen cid, splice dst 0 cid). unfold rbind, rret. rewrite Ea.
  split; [do 2 f_equal; lia|]. cbn [fst snd]. split; [done|]. apply splice_0_take. lia.
Qed.

Lemma take_cids_reads F `{!prefix_stable F} dd ds d s :
  zlen d <= WIRED_MAX_CID_LEN -> zlen s <= WIRED_MAX_CID_LEN ->
  zlen dd = WIRED_MAX_CID_LEN -> zlen ds = WIRED_MAX_CID_LEN ->
  reads F (vneg_take_cids dd ds) ((zlen d :: d) ++ (zlen s :: s))
    (fun c => c.1.1 = zlen d /\ take (Z.to_nat (zlen d)) c.1.2 = d /\
              c.2.1 = zlen s /\ take (Z.to_nat (zlen s)) c.2.2 = s).
Proof.
  intros. unfold vneg_take_cids.
  eapply reads_bind; [done|by apply take_cid_reads|intros [l1 d1] [? ?]].
  eapply reads_bind_end; [done|by apply take_cid_reads|intros [l2 d2] [? ?]]. by apply reads_ret.
Qed.

(** The prologue both parsers read: byte 0, version and the two id fields at
    the front of the packet. *)
Lemma long_prologue b0 v d s rest :
  is_u32 v -> zlen d <= WIRED_MAX_CID_LEN -> zlen s <= WIRED_MAX_CID_LEN ->
  zlen (long_prefix_wire b0 v d s ++ rest) < span_max ->
  let pkt := long_prefix_wire b0 v d s ++ rest in
  load pkt 0 = Some b0 /\ be_get_be32 pkt 1 = Some v /\
  forall dd ds, zlen dd = WIRED_MAX_CID_LEN -> zlen ds = WIRED_MAX_CID_LEN ->
  exists c, vneg_take_cids dd ds pkt 5 = Ok (c, zlen (long_prefix_wire b0 v d s)) /\
    c.1.1 = zlen d /\ take (Z.to_nat (zlen d)) c.1.2 = d /\
    c.2.1 = zlen s /\ take (Z.to_nat (zlen s)) c.2.2 = s.
Proof.
  intros Hv Hd Hs Hl pkt.
  assert (pkt = [b0] ++ be_bytes 4 v ++ ((zlen d :: d) ++ (zlen s :: s) ++ rest)) as Ep
    by (subst pkt; unfold long_prefix_wire; by rewrite <- !app_assoc).
  assert (pkt = (b0 :: be_bytes 4 v) ++ ((zlen d :: d) ++ (zlen s :: s)) ++ rest) as Ep2
    by (subst pkt; rewrite long_prefix_split; by rewrite <- !app_assoc).
  split_and!; [by rewrite Ep|rewrite Ep; change 1 with (zlen [b0]); by apply be_get_be32_spec|].
  intros dd ds Hdd Hds.
  destruct (take_cids_reads anywhere dd ds d s Hd Hs Hdd Hds (b0 :: be_bytes 4 v) rest) as (c & Ec & HQ);
    [done|by rewrite <- Ep2|].
  rewrite <- Ep2 in Ec. exists c. split; [|done].
  rewrite zlen_long_prefix. replace (zlen (b0 :: be_bytes 4 v)) with 5 in Ec by (rewrite zlen_cons, zlen_be_bytes; lia).
  rewrite Ec. do 2 f_equal. rewrite zlen_app, !zlen_cons. lia.
Qed.

Lemma vneg_parse_wire d dd ds :
  vneg_ok d -> zlen dd = WIRED_MAX_CID_LEN -> zlen ds = WIRED_MAX_CID_LEN ->
  zlen (vneg_wire d) < span_max ->
  exists v, vneg_parse dd ds (vneg_wire d) = Ok (v, zlen (vneg_wire d)) /\
    vp_dcid_len v = zlen (vd_dcid d) /\ take (Z.to_nat (zlen (vd_dcid d))) (vp_dcid v) = vd_dcid d /\
    vp_scid_len v = zlen (vd_scid d) /\ take (Z.to_nat (zlen (vd_scid d))) (vp_scid v) = vd_scid d /\
    vp_versions v = versions_wire (vd_versions d) /\ vp_count v = zlen (vd_versions d).
Proof.
  intros (Hd & Hs & Hv & _) Hdd Hds Hl. unfold vneg_parse, vneg_head_ok.
  destruct (long_prologue 0xc0 0 (vd_dcid d) (vd_scid d) (versions_wire (vd_versions d)))
    as (H0 & Hver & Hc); [done|done|done|exact Hl|].
  fold (vneg_wire d) in *.
  assert (zlen (vneg_wire d) = 7 + zlen (vd_dcid d) + zlen (vd_scid d) + 4 * zlen (vd_versions d)) as Hz
    by (unfold vneg_wire; rewrite zlen_app, zlen_long_prefix, zlen_versions; lia).
  pose proof (zlen_nonneg (vd_dcid d)). pose proof (zlen_nonneg (vd_scid d)).
  bcase; [lia|]. rewrite H0. osimpl. change (Z.land 192 128 =? 0) with false. cbv iota.
  unfold version_zero. rewrite Hver. osimpl. change (0 =? 0) with true. cbv iota.
  unfold vneg_parse_after_head. destruct (Hc dd ds Hdd Hds) as (c & -> & Q1 & Q2 & Q3 & Q4).
  rewrite zlen_long_prefix, Hz. unfold span_max in Hl. rewrite u64_small by lia. cbv zeta.
  replace (7 + zlen (vd_dcid d) + zlen (vd_scid d) + 4 * zlen (vd_versions d) -
    (7 + zlen (vd_dcid d) + zlen (vd_scid d))) with (zlen (vd_versions d) * 4) by lia.
  unfold versions_whole. rewrite Z.mod_mul, Z.div_mul by lia.
  replace (zlen (vd_versions d) * 4 =? 0) with false by lia. cbn [negb Z.eqb].
  eexists. split; [done|]. cbn [vp_dcid_len vp_dcid vp_scid_len vp_scid vp_versions vp_count].
  split_and!; try done. unfold vneg_wire.
  rewrite drop_app_length'; [done|]. rewrite <- (zlen_long_prefix 192 0 (vd_dcid d) (vd_scid d)). unfold zlen. lia.
Qed.

(** RFC 9000 17.2.5; the type bits are those of the version. *)
Definition retry_wire (d : retry_desc) : list Z :=
  long_prefix_wire (retry_byte0 (rd_version d)) (rd_version d) (rd_dcid d) (rd_scid d) ++
  rd_token d ++ rd_tag d.

Definition retry_ok (d : retry_desc) : Prop :=
  is_u32 (rd_version d) /\ zlen (rd_dcid d) <= WIRED_MAX_CID_LEN /\
  zlen (rd_scid d) <= WIRED_MAX_CID_LEN /\ zlen (rd_token d) < 1152921504606846976 /\
  zlen (rd_tag d) = RETRY_TAG_LEN.

Lemma retry_build_spec buf d :
  retry_ok d -> zlen buf < span_max ->
  retry_build buf d = if zlen (retry_wire d) <=? zlen buf
    then Some (zlen (retry_wire d), splice buf 0 (retry_wire d)) else Some (0, buf).
Proof.
  intros (_ & Hd & Hs & Ht & Htag) Hb. unfold retry_build, retry_fits. unfold WIRED_MAX_CID_LEN, RETRY_TAG_LEN in *.
  pose proof (zlen_nonneg (rd_dcid d)). pose proof (zlen_nonneg (rd_scid d)). pose proof (zlen_nonneg (rd_token d)).
  assert (zlen (retry_wire d) = 7 + zlen (rd_dcid d) + zlen (rd_scid d) + zlen (rd_token d) + 16) as Hz
    by (unfold retry_wire; rewrite !zlen_app, zlen_long_prefix; lia).
  rewrite Hz, u64_small by lia.
  replace (5 + 1 + zlen (rd_dcid d) + 1 + zlen (rd_scid d) + zlen (rd_token d) + 16 <=? zlen buf)
    with (7 + zlen (rd_dcid d) + zlen (rd_scid d) + zlen (rd_token d) + 16 <=? zlen buf) by lia.
  destruct (_ <=? zlen buf) eqn:E; cbn [negb]; [|done].
  rewrite (long_prefix_bind retry_put_cid buf _ _ (rd_dcid d) (rd_scid d) _ _
    (long_prefix_steps retry_put_cid buf _ _ (rd_dcid d) (rd_scid d) vneg_put_cid_wspec
       ltac:(unfold WIRED_MAX_CID_LEN; lia) ltac:(unfold WIRED_MAX_CID_LEN; lia)
       ltac:(rewrite zlen_long_prefix; lia) Hb)).
  assert (obuf_ok (obuf_of buf)) as Ho by (unfold obuf_ok, ocap; cbn [op olen obuf_of]; pose proof (zlen_nonneg buf); lia).
  assert (ofits (obuf_of buf) (retry_wire d)) as Hf by (unfold ofits, ocap; cbn [op olen obuf_of]; lia).
  unfold retry_wire in Hf. apply ofits_app in Hf as [Hf1 Hf2]; [|done].
  pose proof (obuf_app_ok _ _ Ho Hf1) as Ho1. apply ofits_app in Hf2 as [Hf2 Hf3]; [|done].
  rewrite (wspec_room _ (rd_token d) _); [|eapply wspec_eq; [apply bytes_put_wspec; unfold span_max; lia|
    by rewrite take_ge by (unfold zlen; lia)]|done|done]. osimpl.
  rewrite (wspec_room _ (rd_tag d) _); [|eapply wspec_eq; [apply bytes_put_wspec; unfold span_max; lia|
    by rewrite take_ge by (unfold zlen in *; lia)]|by apply obuf_app_ok|done]. osimpl.
  rewrite (obuf_app_app (obuf_of buf)) by done. rewrite obuf_app_app; [|done|by apply ofits_app].
  rewrite <- app_assoc. change (long_prefix_wire (retry_byte0 (rd_version d)) (rd_version d) (rd_dcid d) (rd_scid d) ++
    rd_token d ++ rd_tag d) with (retry_wire d).
  unfold obuf_app. cbn [op olen obuf_of]. by rewrite Hz, Z.add_0_l.
Qed.

Lemma retry_byte0_v1 v : v <> VERSION_2 -> retry_byte0 v = 0xF0.
Proof. intros H. unfold retry_byte0. by replace (v =? VERSION_2) with false by lia. Qed.

Lemma retry_parse_wire d dd ds dt :
  retry_ok d -> rd_version d <> VERSION_2 ->
  zlen dd = WIRED_MAX_CID_LEN -> zlen ds = WIRED_MAX_CID_LEN -> zlen dt = RETRY_TAG_LEN ->
  zlen (retry_wire d) < span_max ->
  exists r, retry_parse dd ds dt (retry_wire d) = Ok (r, zlen (retry_wire d)) /\
    rp_version r = rd_version d /\
    rp_dcid_len r = zlen (rd_dcid d) /\ take (Z.to_nat (zlen (rd_dcid d))) (rp_dcid r) = rd_dcid d /\
    rp_scid_len r = zlen (rd_scid d) /\ take (Z.to_nat (zlen (rd_scid d))) (rp_scid r) = rd_scid d /\
    rp_token_len r = zlen (rd_token d) /\
    take (Z.to_nat (zlen (rd_token d))) (rp_token r) = rd_token d /\ rp_tag r = rd_tag d.
Proof.
  intros (Hv & Hd & Hs & Ht & Htag) Hne Hdd Hds Hdt Hl. unfold retry_parse, retry_head_ok.
  destruct (long_prologue (retry_byte0 (rd_version d)) (rd_version d) (rd_dcid d) (rd_scid d)
    (rd_token d ++ rd_tag d)) as (H0 & Hver & Hc); [done|done|done|exact Hl|].
  fold (retry_wire d) in *. unfold RETRY_TAG_LEN in *.
  assert (zlen (retry_wire d) = 7 + zlen (rd_dcid d) + zlen (rd_scid d) + zlen (rd_token d) + 16) as Hz
    by (unfold retry_wire; rewrite !zlen_app, zlen_long_prefix; lia).
  pose proof (zlen_nonneg (rd_dcid d)). pose proof (zlen_nonneg (rd_scid d)). pose proof (zlen_nonneg (rd_token d)).
  bcase; [lia|]. rewrite H0. osimpl. rewrite retry_byte0_v1 by done.
  change (Z.land 0xF0 0xF0 =? 0xF0) with true. cbv iota. unfold retry_parse_after_head. rewrite Hver.
  change (retry_take_cids dd ds) with (vneg_take_cids dd ds).
  destruct (Hc dd ds Hdd Hds) as (c & -> & Q1 & Q2 & Q3 & Q4).
  unfold take_token_tag, RETRY_TAG_LEN. cbv zeta. unfold span_max in Hl. rewrite zlen_long_prefix.
  rewrite (u64_small (zlen (retry_wire d) - 16)) by lia. bcase; [lia|].
  set (pre := long_prefix_wire (retry_byte0 (rd_version d)) (rd_version d) (rd_dcid d) (rd_scid d)).
  assert (zlen pre = 7 + zlen (rd_dcid d) + zlen (rd_scid d)) as Hp by apply zlen_long_prefix.
  assert (retry_wire d = (pre ++ rd_token d) ++ rd_tag d ++ []) as Ew
    by (unfold retry_wire; fold pre; by rewrite app_nil_r, <- app_assoc).
  destruct (reads_bytes_take anywhere dt (rd_tag d) 16 ltac:(lia) ltac:(lia) (pre ++ rd_token d) [])
    as (a & Ea & <-); [done|rewrite <- Ew; unfold span_max; lia|].
  rewrite <- Ew in Ea. replace (zlen (pre ++ rd_token d)) with (zlen (retry_wire d) - 16) in Ea by (rewrite zlen_app; lia).
  rewrite Ea. eexists. split; [done|].
  cbn [rp_version rp_dcid_len rp_dcid rp_scid_len rp_scid rp_token rp_token_len rp_tag].
  rewrite u64_small by lia. split_and!; try done; try lia.
  - unfold retry_wire. fold pre. rewrite drop_app_length' by (unfold zlen in *; lia).
    by rewrite take_app_length' by (unfold zlen; lia).
  - unfold splice. rewrite drop_ge by (unfold zlen in *; lia). by rewrite app_nil_r.
Qed.

Lemma retry_parse_v2 d dd ds dt :
  retry_ok d -> rd_version d = VERSION_2 -> zlen (retry_wire d) < span_max ->
  retry_parse dd ds dt (retry_wire d) = Fail.
Proof.
  intros (Hv & Hd & Hs & Ht & Htag) E Hl. unfold retry_parse, retry_head_ok.
  destruct (long_prologue (retry_byte0 (rd_version d)) (rd_version d) (rd_dcid d) (rd_scid d)
    (rd_token d ++ rd_tag d)) as (H0 & _ & _); [done|done|done|exact Hl|].
  fold (retry_wire d) in *. bcase; [done|]. rewrite H0. osimpl. rewrite E. done.
Qed.

(** ** Properties of headers and packets *)

(** Long headers.  [lhdr_build] writes the header of RFC 9000 17.2.2/17.2.4
    (byte 0 with the packet number length, version, both ids, the token of an
    Initial, Length, packet number) exactly when the ids are at most 20 bytes
    and it fits, and returns 0 otherwise; and [lhdr_parse] of that header
    followed by any bytes returns the same ids and token, the Length
    pn_len + payload + 16, and the offset of the packet number. *)
Theorem lhdr_roundtrip d buf rest :
  ld_ok d -> packet_is_long (ld_byte0 d) = true -> zlen buf < span_max ->
  (exists l, lhdr_wire d = Some l /\ lhdr_build d buf = Some (zlen l, splice buf 0 l) /\
     (zlen (l ++ rest) < span_max ->
      lhdr_parse (l ++ rest) (ld_is_initial d) =
        Ok (mk_lhdr (ld_dcid d) (ld_scid d) (if ld_is_initial d then ld_token d else [])
              (ld_length d) (zlen l - ld_pn_len d)) /\
      exists b0, load (l ++ rest) 0 = Some b0 /\ lhdr_pn_len b0 = ld_pn_len d)) \/
  ((forall l, lhdr_wire d = Some l -> zlen buf < zlen l) /\
     exists p, lhdr_build d buf = Some (0, p) /\ zlen p = zlen buf).
Proof.
  intros Hok Hlong Hb. destruct (lhdr_build_spec d buf Hok Hb) as [(l & Hl & _ & E)|?]; [left|by right].
  exists l. split_and!; [done|done|]. intros Hs. split; [by apply lhdr_parse_wire|].
  pose proof Hok as (Hu & _ & _ & Hn & _). exists (lhdr_byte0_pnlen (ld_byte0 d) (ld_pn_len d)).
  split; [|by apply (lhdr_byte0_facts (ld_byte0 d) (ld_pn_len d))].
  unfold lhdr_wire in Hl. destruct (cids_ok d); [|done]. apply (inj Some) in Hl as <-. done.
Qed.

Lemma lhdr_roundtrip_witness :
  let d := mk_ld 0xC0 1 [1; 2] [3] true [9] 4 5 1 in
  let l := [0xC0; 0; 0; 0; 1; 2; 1; 2; 1; 3; 1; 9; 21; 5] in
  lhdr_build d (replicate 15 0) = Some (14, l ++ [0]) /\
  lhdr_parse (l ++ [7]) true = Ok (mk_lhdr [1; 2] [3] [9] 21 13).
Proof.
  intros d l0. destruct (lhdr_roundtrip d (replicate 15 0) [7]) as [(l & Hl & E & Hp)|(_ & p & E & _)].
  - unfold ld_ok, is_u8, is_u32, span_max, zlen, d. cbn.
    split_and!; try lia; repeat constructor; vm_compute; congruence.
  - reflexivity.
  - reflexivity.
  - vm_compute in Hl. apply (inj Some) in Hl as <-. split; [exact E|].
    apply Hp. reflexivity.
  - vm_compute in E. discriminate E.
Defined.

(** C31: splitting a datagram.  A datagram made of long-header packets (each the
    header [lhdr_build] writes, its payload and 16-byte tag), followed by at
    most one short-header packet, is split by [coalesce_next] into exactly
    those packets, in order. *)
Theorem coalesce_split_exact ps tl :
  Forall (fun p => exists d payload, long_packet d payload p) ps -> short_tail tl ->
  zlen (concat ps ++ tl) < span_max ->
  coalesce_split (concat ps ++ tl) = Ok (ps ++ match tl with [] => [] | _ => [tl] end).
Proof.
  intros Hps Ht Hs. unfold coalesce_split, coalesce_begin.
  apply (coalesce_all_wire tl ps _ []); try done.
  rewrite length_app. apply Nat.add_le_mono_r. clear -Hps.
  induction Hps as [|p ps (d & payload & Hp) _ IH]; [done|]. cbn [concat length].
  destruct (long_packet_first d payload p Hp) as [H _]. rewrite length_app. unfold zlen in H. lia.
Qed.

Lemma coalesce_split_exact_witness :
  let p := [0xE0; 0; 0; 0; 1; 1; 2; 0; 18; 5; 77] ++ replicate 16 0 in
  coalesce_split ((p ++ p) ++ [0x41; 2; 3]) = Ok [p; p; [0x41; 2; 3]].
Proof.
  intros p. pose (d := mk_ld 0xE0 1 [2] [] false [] 1 5 1).
  assert (long_packet d (77 :: replicate 16 0) p) as Hp.
  { split_and!; try reflexivity.
    - unfold ld_ok, is_u8, is_u32, span_max, zlen, d. cbn.
      split_and!; try lia; repeat constructor; vm_compute; congruence.
    - exists [0xE0; 0; 0; 0; 1; 1; 2; 0; 18; 5]. split; reflexivity. }
  apply (coalesce_split_exact [p; p] [0x41; 2; 3]).
  - repeat constructor; eauto.
  - right. exists 0x41, [2; 3]. split; reflexivity.
  - reflexivity.
Defined.

(** Splitting hostile datagrams.  On any datagram the iterator never reads
    outside it, each packet it yields lies inside the datagram and is at least
    one byte long, and the loop over n bytes ends within n rounds. *)
Theorem coalesce_safe dgram :
  span_ok dgram ->
  (forall it, ci_ok it ->
     match coalesce_next it with
     | Ok (c, it') => 1 <= co_len c <= ci_total it - ci_off it /\
         co_data c = drop (Z.to_nat (ci_off it)) (ci_dgram it) /\ ci_ok it' /\
         ci_off it' = ci_off it + co_len c
     | Fail => True
     | Oob => False
     end) /\
  exists ps, coalesce_split dgram = Ok ps.
Proof.
  intros Hs. split.
  - intros it Hok. pose proof (coalesce_next_safe it Hok) as H.
    destruct (coalesce_next it) as [[c it']| |]; [|done|done].
    destruct H as (? & ? & ? & ? & ?). split_and!; try done; lia.
  - pose proof (zlen_nonneg dgram). apply coalesce_all_total.
    + unfold ci_ok, coalesce_begin. cbn. split_and!; [apply Hs..|done|lia|lia].
    + cbn. unfold zlen. lia.
Qed.

Lemma coalesce_safe_witness :
  exists ps, coalesce_split [0xC0; 0; 0; 0; 1; 0; 0; 0xFF; 0xFF] = Ok ps.
Proof.
  apply (coalesce_safe [0xC0; 0; 0; 0; 1; 0; 0; 0xFF; 0xFF]).
  split; [|reflexivity]. repeat constructor; vm_compute; congruence.
Defined.

Lemma shorthdr_byte0_eq spin key pn_len : shorthdr_byte0 spin key pn_len = short_byte0 spin key pn_len.
Proof.
  unfold shorthdr_byte0, short_byte0. do 2 f_equal.
  rewrite !(u8_small (Z.shiftl _ _)); [done|..]; rewrite land_1, Z.shiftl_mul_pow2 by lia.
  - pose proof (Z.mod_pos_bound key 2 eq_refl). lia.
  - pose proof (Z.mod_pos_bound spin 2 eq_refl). lia.
Qed.

Lemma short_byte0_form spin key pn_len :
  1 <= pn_len <= 4 -> Z.land (short_byte0 spin key pn_len) 0x80 = 0.
Proof.
  intros Hn. unfold short_byte0. rewrite !land_1.
  pose proof (Z.mod_pos_bound key 2 eq_refl). pose proof (Z.mod_pos_bound spin 2 eq_refl).
  assert (pn_len = 1 \/ pn_len = 2 \/ pn_len = 3 \/ pn_len = 4) as Hc by lia.
  assert (key mod 2 = 0 \/ key mod 2 = 1) as [->| ->] by lia;
    assert (spin mod 2 = 0 \/ spin mod 2 = 1) as [->| ->] by lia;
    destruct Hc as [->|[->|[->| ->]]]; reflexivity.
Qed.

Lemma parse_short_spec h b0 d rest :
  Z.land b0 0x80 = 0 -> zlen d <= WIRED_MAX_CID_LEN -> h_dcid_len h = zlen d ->
  zlen (h_dcid h) = WIRED_MAX_CID_LEN -> zlen (b0 :: d ++ rest) < span_max ->
  exists g, wired_header_parse h (b0 :: d ++ rest) = Ok (g, 1 + zlen d) /\
    h_form g = WIRED_FORM_SHORT /\ header_dcid g = d.
Proof.
  unfold WIRED_MAX_CID_LEN, span_max. intros Hb Hd Hhl Hh Hr. unfold wired_header_parse.
  rewrite zlen_cons, zlen_app in *. pose proof (zlen_nonneg d). pose proof (zlen_nonneg rest).
  bcase; [lia|]. rewrite load_cons_0, Hb. change (0 =? 0) with true. cbn [negb].
  unfold header_parse_short, cid_fits, WIRED_MAX_CID_LEN. rewrite Hhl.
  rewrite zlen_cons, zlen_app, u64_small by lia.
  replace ((zlen d <=? 20) && (0 + 1 + zlen d <=? 1 + (zlen d + zlen rest))) with true by lia.
  cbn [negb]. unfold copy_cid.
  rewrite copy_spec by (rewrite ?zlen_cons, ?zlen_app; unfold zlen in *; lia).
  eexists. split; [done|]. unfold header_dcid. cbn [h_form h_dcid_len h_dcid]. split; [done|].
  change (Z.to_nat 1) with 1%nat. cbn [drop].
  rewrite drop_0, (take_app_length' d) by (unfold zlen; lia). apply splice_0_take. lia.
Qed.

(** [shorthdr_build] over a fresh buffer is [short_build]. *)
Lemma shorthdr_build_eq buf d :
  shorthdr_build d (obuf_of buf) =
    match short_build buf d with
    | Some (n, p) => Some (if short_ok (zlen buf) d then (true, mk_obuf p n) else (false, obuf_of buf))
    | None => None
    end.
Proof.
  unfold shorthdr_build, short_build. rewrite shorthdr_byte0_eq.
  change (shorthdr_ok (ocap (obuf_of buf)) d) with (short_ok (zlen buf) d).
  change (op (obuf_of buf)) with buf. change shdr_put_pn with put_pn.
  destruct (short_ok (zlen buf) d); cbn [negb]; [|done]. unfold mbind, option_bind.
  destruct (store buf 0 _) as [p|]; [|done]. destruct (bytes_put _ _ _) as [[? o]|]; [|done].
  by destruct (put_pn _ _ _ _).
Qed.

(** Short headers.  [short_build] and [shorthdr_build] write the same bytes:
    the RFC 9000 17.3.1 header, when the packet number length is 1 to 4 and it
    fits; and [wired_header_parse] with the connection's id length returns the
    id that was written. *)
Theorem short_header_build d buf rest h :
  is_u64 (sh_pn d) -> zlen (sh_dcid d) <= WIRED_MAX_CID_LEN -> zlen buf < span_max ->
  1 <= sh_pn_len d <= 4 -> zlen (short_wire d) <= zlen buf ->
  zlen (short_wire d ++ rest) < span_max ->
  h_dcid_len h = zlen (sh_dcid d) -> zlen (h_dcid h) = WIRED_MAX_CID_LEN ->
  short_build buf d = Some (zlen (short_wire d), splice buf 0 (short_wire d)) /\
  shorthdr_build d (obuf_of buf) = Some (true, mk_obuf (splice buf 0 (short_wire d)) (zlen (short_wire d))) /\
  exists g, wired_header_parse h (short_wire d ++ rest) = Ok (g, 1 + zlen (sh_dcid d)) /\
    h_form g = WIRED_FORM_SHORT /\ header_dcid g = sh_dcid d.
Proof.
  intros Hp Hd Hb Hn Hf Hr Hhl Hh. pose proof Hd as Hd'. unfold WIRED_MAX_CID_LEN in Hd'.
  assert (short_build buf d = Some (zlen (short_wire d), splice buf 0 (short_wire d))) as Eb.
  { rewrite short_build_spec by (done || unfold span_max; lia).
    replace (1 <=? sh_pn_len d) with true by lia. replace (sh_pn_len d <=? 4) with true by lia.
    by replace (zlen (short_wire d) <=? zlen buf) with true by lia. }
  split_and!; [done| |].
  - rewrite shorthdr_build_eq, Eb. assert (short_ok (zlen buf) d = true) as ->; [|done].
    unfold short_ok. pose proof (zlen_nonneg (sh_dcid d)).
    unfold short_wire in Hf. rewrite zlen_cons, zlen_app, zlen_be_bytes in Hf.
    rewrite u64_small by lia. bcase; lia.
  - unfold short_wire in *. cbn [app] in *. rewrite <- app_assoc in *.
    apply parse_short_spec; try done. by apply short_byte0_form.
Qed.

Lemma short_header_build_witness :
  let d := mk_short [7; 8] 1 1 0x1234 2 in
  short_build (replicate 6 0) d = Some (5, [0x65; 7; 8; 0x12; 0x34; 0]) /\
  exists g, wired_header_parse (mk_header 0 0 0 2 (replicate 20 0) 0 (replicate 20 0))
      [0x65; 7; 8; 0x12; 0x34; 9] = Ok (g, 3) /\ h_form g = WIRED_FORM_SHORT /\ header_dcid g = [7; 8].
Proof.
  intros d.
  destruct (short_header_build d (replicate 6 0) [9]
    (mk_header 0 0 0 2 (replicate 20 0) 0 (replicate 20 0))) as (E & _ & H);
    try reflexivity; try (vm_compute; (congruence || (split; congruence))).
  split; [exact E|exact H].
Defined.

(** Version Negotiation and Retry.  [vneg_build] and [retry_build] write the
    RFC 9000 17.2.1 / 17.2.5 packet exactly when it fits, and [vneg_parse] and,
    for every version but QUIC v2, [retry_parse] return what was put in: ids,
    version list, token and integrity tag. *)
Theorem vneg_retry_roundtrip v r buf dd ds dt :
  vneg_ok v -> retry_ok r -> rd_version r <> VERSION_2 -> zlen buf < span_max ->
  zlen (vneg_wire v) <= zlen buf -> zlen (retry_wire r) <= zlen buf ->
  zlen dd = WIRED_MAX_CID_LEN -> zlen ds = WIRED_MAX_CID_LEN -> zlen dt = RETRY_TAG_LEN ->
  (vneg_build buf v = Some (zlen (vneg_wire v), splice buf 0 (vneg_wire v)) /\
   exists p, vneg_parse dd ds (vneg_wire v) = Ok (p, zlen (vneg_wire v)) /\
     take (Z.to_nat (vp_dcid_len p)) (vp_dcid p) = vd_dcid v /\
     take (Z.to_nat (vp_scid_len p)) (vp_scid p) = vd_scid v /\
     vp_versions p = versions_wire (vd_versions v) /\ vp_count p = zlen (vd_versions v)) /\
  (retry_build buf r = Some (zlen (retry_wire r), splice buf 0 (retry_wire r)) /\
   exists p, retry_parse dd ds dt (retry_wire r) = Ok (p, zlen (retry_wire r)) /\
     rp_version p = rd_version r /\
     take (Z.to_nat (rp_dcid_len p)) (rp_dcid p) = rd_dcid r /\
     take (Z.to_nat (rp_scid_len p)) (rp_scid p) = rd_scid r /\
     take (Z.to_nat (rp_token_len p)) (rp_token p) = rd_token r /\ rp_tag p = rd_tag r).
Proof.
  intros Hv Hr Hne Hb Hfv Hfr Hdd Hds Hdt.
  rewrite vneg_build_spec, retry_build_spec by done.
  replace (zlen (vneg_wire v) <=? zlen buf) with true by lia.
  replace (zlen (retry_wire r) <=? zlen buf) with true by lia.
  destruct (vneg_parse_wire v dd ds Hv Hdd Hds ltac:(lia)) as (p & E & E1 & E2 & E3 & E4 & E5 & E6).
  destruct (retry_parse_wire r dd ds dt Hr Hne Hdd Hds Hdt ltac:(lia))
    as (q & F & F1 & F2 & F3 & F4 & F5 & F6 & F7 & F8).
  split; (split; [done|]); eexists; (split; [eassumption|]).
  - rewrite E1, E3. done.
  - rewrite F2, F4, F6. done.
Qed.

Lemma vneg_retry_roundtrip_witness :
  exists p, vneg_parse (replicate 20 0) (replicate 20 0) [0xc0; 0; 0; 0; 0; 1; 5; 0; 0; 0; 0; 1] = Ok (p, 12) /\
    take (Z.to_nat (vp_dcid_len p)) (vp_dcid p) = [5] /\ vp_count p = 1.
Proof.
  destruct (vneg_retry_roundtrip (mk_vneg [5] [] [1]) (mk_rd 1 [5] [] [8] (replicate 16 3)) (replicate 40 0)
    (replicate 20 0) (replicate 20 0) (replicate 16 0)) as ((_ & p & E & Ed & _ & _ & Ec) & _).
  - unfold vneg_ok, WIRED_MAX_CID_LEN, zlen. cbn. split_and!; try lia.
    repeat constructor; vm_compute; congruence.
  - unfold retry_ok, is_u32, WIRED_MAX_CID_LEN, RETRY_TAG_LEN, zlen. cbn. lia.
  - vm_compute; congruence.
  - reflexivity.
  - vm_compute; congruence.
  - vm_compute; congruence.
  - reflexivity.
  - reflexivity.
  - reflexivity.
  - exists p. split; [exact E|]. split; [exact Ed|exact Ec].
Defined.

(** A v2 Retry is not read back.  Every QUIC v2 Retry packet [retry_build]
    writes (byte 0 with the v2 type bits 00) is refused by [retry_parse], which
    tests byte 0 for the v1 type bits 11 only. *)
Theorem retry_v2_refused r buf dd ds dt :
  retry_ok r -> rd_version r = VERSION_2 -> zlen buf < span_max -> zlen (retry_wire r) <= zlen buf ->
  retry_build buf r = Some (zlen (retry_wire r), splice buf 0 (retry_wire r)) /\
  retry_parse dd ds dt (retry_wire r) = Fail.
Proof.
  intros Hr E Hb Hf. rewrite retry_build_spec by done.
  replace (zlen (retry_wire r) <=? zlen buf) with true by lia.
  split; [done|]. apply retry_parse_v2; [done|done|lia].
Qed.

Lemma retry_v2_refused_witness :
  retry_parse (replicate 20 0) (replicate 20 0) (replicate 16 0)
    ([0xC0; 0x6b; 0x33; 0x43; 0xcf; 1; 5; 0; 8] ++ replicate 16 3) = Fail.
Proof.
  destruct (retry_v2_refused (mk_rd VERSION_2 [5] [] [8] (replicate 16 3)) (replicate 40 0)
    (replicate 20 0) (replicate 20 0) (replicate 16 0)) as [_ E].
  - unfold retry_ok, is_u32, VERSION_2, WIRED_MAX_CID_LEN, RETRY_TAG_LEN, zlen. cbn. lia.
  - reflexivity.
  - reflexivity.
  - vm_compute; congruence.
  - exact E.
Defined.

(** [wired_header_build_long] and short buffers.  It writes the whole
    invariant header exactly when it fits; when it does not fit the value
    returned is 0, or 1 + scid_len when the destination id alone was too long
    and the source id was then written at offset 0, so a caller must compare
    the result with the full length, not with 0. *)
Theorem header_build_long_result buf h :
  header_ok h -> zlen buf < span_max ->
  let l := long_prefix_wire (0xC0 + 16 * h_long_type h) (h_version h) (header_dcid h) (header_scid h) in
  exists w p, wired_header_build_long buf h = Some (w, p) /\ zlen p = zlen buf /\
    (w = zlen l <-> zlen l <= zlen buf) /\
    (w = zlen l -> p = splice buf 0 l) /\ (w <> zlen l -> w = 0 \/ w = 1 + h_scid_len h).
Proof.
  intros Hok Hb l. destruct (zlen_header_cids h Hok) as [Hd Hs].
  assert (zlen l = 7 + h_dcid_len h + h_scid_len h) as Hz by (subst l; rewrite zlen_long_prefix; lia).
  pose proof Hok as (_ & _ & _ & _ & ? & ?).
  destruct (build_long_spec buf h Hok Hb) as [[Hl E]|(Hl & w & p & E & Hp & Hw)]; cbv zeta in *; fold l in Hl, E;
    do 2 eexists; (split; [exact E|]); (split; [|split; [|split]]); try done; try lia.
  rewrite zlen_splice; lia.
Qed.

Lemma header_build_long_result_witness :
  let h := mk_header 1 0 1 8 (replicate 20 7) 0 (replicate 20 0) in
  (exists p, wired_header_build_long (replicate 10 0) h = Some (1, p)) /\
  exists w p, wired_header_build_long (replicate 10 0) h = Some (w, p) /\ zlen p = 10.
Proof.
  intros h. split; [eexists; vm_compute; reflexivity|].
  destruct (header_build_long_result (replicate 10 0) h) as (w & p & E & Hp & _).
  - unfold header_ok, is_u32. split_and!; vm_compute; congruence.
  - reflexivity.
  - exists w, p. split; [exact E|exact Hp].
Defined.
