(* ===== verification/RecvPn.v ===== *)
(** * Received packet numbers (src/src/transport/conn/pnspace)

    [recvpn] is the receive window of one packet number space: the largest
    number seen and a 64-bit bitmap of the numbers just below it.  The
    abstract state is the list of every packet number recorded so far;
    [recv_inv] is the refinement relation between the two, kept by
    [recvpn_record], and the queries are proved against it.  [pnspace] is the
    send side: the next number of each of the three spaces. *)

From stdpp Require Import base numbers list option.
From Stdlib Require Import ZArith Lia.
From S2P Require Import Prelude Bytes.

(* src/src/transport/conn/pnspace/recvpn/recvpn.h : RECVPN_WINDOW *)
Definition RECVPN_WINDOW : Z := 64.

(* src/src/transport/conn/pnspace/recvpn/recvpn.h : recvpn *)
Record recvpn := mk_recvpn { rp_largest : Z; rp_bitmap : Z; rp_any : Z }.

(* src/src/transport/conn/pnspace/recvpn/recvpn.c : recvpn_init *)
Definition recvpn_init : recvpn := mk_recvpn 0 0 0.

(* src/src/transport/conn/pnspace/recvpn/recvpn.c : below_seen *)
Definition below_seen (r : recvpn) (pn : Z) : Z :=
  let delta := u64 (rp_largest r - pn) in
  if RECVPN_WINDOW <? delta then 0
  else Z.land (Z.shiftr (rp_bitmap r) (u64 (delta - 1))) 1.

(* src/src/transport/conn/pnspace/recvpn/recvpn.c : seen_at_or_above *)
Definition seen_at_or_above (r : recvpn) (pn : Z) : Z :=
  if pn =? rp_largest r then 1
  else if rp_largest r <? pn then 0 else below_seen r pn.

(* src/src/transport/conn/pnspace/recvpn/recvpn.c : recvpn_seen *)
Definition recvpn_seen (r : recvpn) (pn : Z) : Z :=
  if rp_any r =? 0 then 0 else seen_at_or_above r pn.

(* src/src/transport/conn/pnspace/recvpn/recvpn.c : recvpn_advance *)
Definition recvpn_advance (r : recvpn) (pn : Z) : recvpn :=
  let step := u64 (pn - rp_largest r) in
  let shifted := if 64 <=? step then 0 else u64 (Z.shiftl (rp_bitmap r) step) in
  let old_bit := if step <=? 64 then u64 (Z.shiftl 1 (u64 (step - 1))) else 0 in
  mk_recvpn pn (Z.lor shifted old_bit) (rp_any r).

(* src/src/transport/conn/pnspace/recvpn/recvpn.c : mark_below *)
Definition mark_below (r : recvpn) (pn : Z) : recvpn :=
  let delta := u64 (rp_largest r - pn) in
  if (delta =? 0) || (RECVPN_WINDOW <? delta) then r
  else mk_recvpn (rp_largest r)
         (Z.lor (rp_bitmap r) (u64 (Z.shiftl 1 (u64 (delta - 1))))) (rp_any r).

(* src/src/transport/conn/pnspace/recvpn/recvpn.c : recvpn_record *)
Definition recvpn_record (r : recvpn) (pn : Z) : recvpn :=
  if rp_any r =? 0 then mk_recvpn pn (rp_bitmap r) 1
  else if rp_largest r <? pn then recvpn_advance r pn
  else mark_below r pn.

(* src/src/transport/conn/pnspace/recvpn/recvpn.c : run_continues *)
Definition run_continues (r : recvpn) (i : Z) : bool :=
  (i <? RECVPN_WINDOW) && negb (Z.land (Z.shiftr (rp_bitmap r) i) 1 =? 0).

(** [while (run_continues(r, count)) count++]; [None] is a loop that has not
    ended after [fuel] rounds. *)
Fixpoint first_range_loop (fuel : nat) (r : recvpn) (count : Z) : option Z :=
  match fuel with
  | O => None
  | S fuel' =>
      if run_continues r count then first_range_loop fuel' r (u64 (count + 1)) else Some count
  end.

(* src/src/transport/conn/pnspace/recvpn/recvpn.c : recvpn_first_range *)
Definition recvpn_first_range (r : recvpn) : option Z :=
  if rp_any r =? 0 then Some 0 else first_range_loop 65 r 0.

(** ** The abstract state: every number recorded so far *)

(** [h] is the history of recorded packet numbers. *)
Record recv_inv (h : list Z) (r : recvpn) : Prop := {
  ri_largest : is_u64 (rp_largest r);
  ri_bitmap : is_u64 (rp_bitmap r);
  ri_fresh : rp_any r = 0 -> h = [] /\ rp_bitmap r = 0;
  ri_top : rp_any r <> 0 -> rp_largest r ∈ h;
  ri_max : forall pn, pn ∈ h -> 0 <= pn <= rp_largest r;
  ri_bits : rp_any r <> 0 -> forall i, 0 <= i < 64 ->
      Z.testbit (rp_bitmap r) i = true <-> rp_largest r - 1 - i ∈ h }.

Lemma u64_pow x : u64 x = x mod 2 ^ 64.
Proof. done. Qed.

Lemma testbit_u64 x i : 0 <= i < 64 -> Z.testbit (u64 x) i = Z.testbit x i.
Proof. intros. rewrite u64_pow. apply Z.mod_pow2_bits_low. lia. Qed.

Lemma bit_at x i : 0 <= i -> Z.land (Z.shiftr x i) 1 = Z.b2z (Z.testbit x i).
Proof.
  intros. rewrite land_1, <- Z.bit0_mod, Z.shiftr_spec by lia. done.
Qed.

Lemma testbit_one_shl k i : 0 <= k < 64 -> 0 <= i < 64 -> Z.testbit (u64 (Z.shiftl 1 k)) i = (i =? k).
Proof.
  intros. rewrite testbit_u64 by done. rewrite Z.shiftl_1_l.
  rewrite Z.pow2_bits_eqb by lia. lia.
Qed.

Lemma recv_inv_init : recv_inv [] recvpn_init.
Proof. split; cbn; unfold is_u64; try lia; try done. by intros pn ?%elem_of_nil. Qed.

(** [recvpn_record] implements appending to the history. *)
Lemma recv_inv_record h r pn : recv_inv h r -> is_u64 pn -> recv_inv (pn :: h) (recvpn_record r pn).
Proof.
  intros [Hl Hb Hf Ht Hm Hbits] Hpn. unfold is_u64 in Hl, Hpn. unfold recvpn_record.
  destruct (rp_any r =? 0) eqn:Ea.
  { destruct (Hf ltac:(lia)) as [-> Hb0]. split; cbn; try done.
    - intros _. by apply list_elem_of_singleton.
    - intros q ->%list_elem_of_singleton. lia.
    - intros _ i Hi. rewrite Hb0, Z.bits_0, list_elem_of_singleton. split; [done|lia]. }
  specialize (Ht ltac:(lia)). specialize (Hbits ltac:(lia)).
  destruct (rp_largest r <? pn) eqn:El.
  - unfold recvpn_advance. nowrap. set (step := pn - rp_largest r).
    assert (1 <= step) by lia.
    split; cbn; try done; try lia.
    + apply lor_u64; bcase; try apply u64_range; unfold is_u64; lia.
    + intros _. apply elem_of_cons. auto.
    + intros q [->|Hq]%elem_of_cons; [lia|]. specialize (Hm q Hq). lia.
    + intros _ i Hi. rewrite Z.lor_spec, orb_true_iff, elem_of_cons.
      assert (Z.testbit (if 64 <=? step then 0 else u64 (Z.shiftl (rp_bitmap r) step)) i = true
              <-> step <= i /\ rp_largest r - 1 - (i - step) ∈ h) as ->.
      { bcase; [rewrite Z.bits_0; split; [done|lia]|]. rewrite testbit_u64, Z.shiftl_spec by lia.
        destruct (Z_lt_ge_dec i step).
        - rewrite Z.testbit_neg_r by lia. split; [done|lia].
        - rewrite Hbits by lia. split; [|tauto]. intros; split; [lia|done]. }
      assert (Z.testbit (if step <=? 64 then u64 (Z.shiftl 1 (u64 (step - 1))) else 0) i = true
              <-> i = step - 1) as ->.
      { bcase; [rewrite (u64_small (step - 1)), testbit_one_shl by lia; apply Z.eqb_eq|rewrite Z.bits_0; split; [done|lia]]. }
      unfold step. replace (rp_largest r - 1 - (i - (pn - rp_largest r))) with (pn - 1 - i) by lia.
      split.
      * intros [[? ?]| ->]; [by right|right]. by replace (pn - 1 - (pn - rp_largest r - 1)) with (rp_largest r) by lia.
      * intros [?|Hin]; [lia|]. specialize (Hm _ Hin).
        destruct (Z.eq_dec i (pn - rp_largest r - 1)); [by right|left; split; [lia|done]].
  - unfold mark_below, RECVPN_WINDOW. nowrap. set (delta := rp_largest r - pn).
    destruct ((delta =? 0) || (64 <? delta)) eqn:Ed.
    + split; try done; try lia.
      * intros _. apply elem_of_cons. auto.
      * intros q [->|Hq]%elem_of_cons; [lia|auto].
      * intros _ i Hi. rewrite Hbits by done. rewrite elem_of_cons. split; [by right|].
        intros [?|?]; [lia|done].
    + rewrite (u64_small (delta - 1)) by lia. split; cbn; try done; try lia.
      * apply lor_u64; [done|apply u64_range].
      * intros _. apply elem_of_cons. auto.
      * intros q [->|Hq]%elem_of_cons; [lia|auto].
      * intros _ i Hi. rewrite Z.lor_spec, orb_true_iff, Hbits, testbit_one_shl, elem_of_cons by lia.
        unfold delta. split; [intros [?|?]; [by right|left; lia]|intros [?|?]; [right; lia|by left]].
Qed.

Definition record_all (h : list Z) : recvpn := foldr (fun pn r => recvpn_record r pn) recvpn_init h.

Lemma recv_inv_all h : Forall is_u64 h -> recv_inv h (record_all h).
Proof.
  induction h as [|pn h IH]; intros Hh; cbn; [apply recv_inv_init|].
  apply Forall_cons_1 in Hh as [? ?]. apply recv_inv_record; auto.
Qed.

Lemma recvpn_seen_spec h r pn :
  recv_inv h r -> is_u64 pn ->
  (recvpn_seen r pn = 1 /\ pn ∈ h /\ rp_largest r - RECVPN_WINDOW <= pn) \/
  (recvpn_seen r pn = 0 /\ ~ (pn ∈ h /\ rp_largest r - RECVPN_WINDOW <= pn)).
Proof.
  intros [Hl Hb Hf Ht Hm Hbits] Hpn. unfold is_u64 in Hl, Hpn.
  unfold recvpn_seen, seen_at_or_above, below_seen, RECVPN_WINDOW.
  destruct (rp_any r =? 0) eqn:Ea.
  { destruct (Hf ltac:(lia)) as [-> _]. right. split; [done|]. by intros [?%elem_of_nil _]. }
  specialize (Ht ltac:(lia)). specialize (Hbits ltac:(lia)).
  destruct (pn =? rp_largest r) eqn:E1.
  { assert (pn = rp_largest r) as -> by lia. left. split_and!; [done|done|lia]. }
  destruct (rp_largest r <? pn) eqn:E2.
  { right. split; [done|]. intros [Hin _]. specialize (Hm _ Hin). lia. }
  nowrap. destruct (64 <? rp_largest r - pn) eqn:E3.
  { right. split; [done|lia]. }
  nowrap. rewrite bit_at by lia.
  specialize (Hbits (rp_largest r - pn - 1) ltac:(lia)).
  replace (rp_largest r - 1 - (rp_largest r - pn - 1)) with pn in Hbits by lia.
  destruct (Z.testbit _ _) eqn:Et; cbn.
  - left. split_and!; [done| |lia]. by apply Hbits.
  - right. split; [done|]. intros [Hin _]. apply Hbits in Hin. congruence.
Qed.

Lemma first_range_loop_spec h r fuel : forall count,
  recv_inv h r -> rp_any r <> 0 -> 0 <= count <= 64 -> 64 - count < Z.of_nat fuel ->
  (forall j, 0 <= j < count -> rp_largest r - 1 - j ∈ h) ->
  exists k, first_range_loop fuel r count = Some k /\ 0 <= k <= 64 /\
    (forall j, 0 <= j < k -> rp_largest r - 1 - j ∈ h) /\
    (k < 64 -> rp_largest r - 1 - k ∉ h).
Proof.
  induction fuel as [|fuel IH]; intros count Hinv Ha Hc Hfu Hrun; [lia|].
  cbn [first_range_loop]. unfold run_continues, RECVPN_WINDOW.
  destruct (count <? 64) eqn:E; cbn [andb].
  - rewrite bit_at by lia. pose proof (ri_bits _ _ Hinv Ha count ltac:(lia)) as Hb.
    destruct (Z.testbit _ _); cbn.
    + nowrap. apply IH; try done; try lia. intros j Hj.
      destruct (Z.eq_dec j count) as [->|]; [by apply Hb|apply Hrun; lia].
    + exists count. split_and!; try done; try lia. intros _ Hin. apply Hb in Hin. done.
  - exists count. split_and!; try done; lia.
Qed.

Lemma recvpn_first_range_spec h r :
  recv_inv h r -> rp_any r <> 0 ->
  exists k, recvpn_first_range r = Some k /\ 0 <= k <= RECVPN_WINDOW /\
    (forall j, 0 <= j < k -> rp_largest r - 1 - j ∈ h) /\
    (k < RECVPN_WINDOW -> rp_largest r - 1 - k ∉ h).
Proof.
  intros Hinv Ha. unfold recvpn_first_range. replace (rp_any r =? 0) with false by lia.
  apply first_range_loop_spec; try done; lia.
Qed.

(** ** The send side: packet numbers of the three spaces *)

(* src/src/transport/conn/lifecycle/conn/pnspace.h : pns_space *)
Inductive pns_space := PNS_INITIAL | PNS_HANDSHAKE | PNS_APP.
Definition PNS_COUNT : nat := 3.

#[export] Instance pns_space_eq_dec : EqDecision pns_space.
Proof. solve_decision. Defined.

Definition pns_idx (sp : pns_space) : Z :=
  match sp with PNS_INITIAL => 0 | PNS_HANDSHAKE => 1 | PNS_APP => 2 end.

(* src/src/transport/conn/lifecycle/conn/pnspace.h : PN_LIMIT *)
Definition PN_LIMIT : Z := Z.shiftl 1 62 - 1.

(** [next] is the array of [PNS_COUNT] counters. *)
(* src/src/transport/conn/lifecycle/conn/pnspace.h : pnspace *)
Record pnspace := mk_pnspace { pns_next : list Z }.

(* src/src/transport/conn/lifecycle/conn/pnspace.c : pnspace_init *)
Definition pnspace_init : pnspace := mk_pnspace (replicate PNS_COUNT 0).

(* src/src/transport/conn/lifecycle/conn/pnspace.c : pnspace_next *)
Definition pnspace_next (s : pnspace) (space : pns_space) : option (Z * pnspace) :=
  pn ← load (pns_next s) (pns_idx space);
  nxt ← store (pns_next s) (pns_idx space) (u64 (pn + 1));
  Some (pn, mk_pnspace nxt).

(* src/src/transport/conn/lifecycle/conn/pnspace.c : pnspace_exhausted *)
Definition pnspace_exhausted (s : pnspace) (space : pns_space) : option Z :=
  nxt ← load (pns_next s) (pns_idx space);
  Some (if PN_LIMIT <? nxt then 1 else 0).

(** Issue one number in each space of [sps], in order. *)
Fixpoint issue_all (s : pnspace) (sps : list pns_space) : option (list (pns_space * Z) * pnspace) :=
  match sps with
  | [] => Some ([], s)
  | sp :: rest =>
      '(pn, s1) ← pnspace_next s sp;
      '(out, s2) ← issue_all s1 rest;
      Some ((sp, pn) :: out, s2)
  end.

Definition issued_in (sp : pns_space) (out : list (pns_space * Z)) : list Z :=
  (filter (fun p => p.1 = sp) out).*2.

(** The state in which space [sp] has issued [f sp] numbers. *)
Definition pns_state (f : pns_space -> Z) : pnspace :=
  mk_pnspace [f PNS_INITIAL; f PNS_HANDSHAKE; f PNS_APP].

Definition bump (f : pns_space -> Z) (sp : pns_space) : pns_space -> Z :=
  fun q => if decide (q = sp) then f q + 1 else f q.

Lemma pnspace_next_state f sp :
  0 <= f sp -> f sp + 1 < 18446744073709551616 ->
  pnspace_next (pns_state f) sp = Some (f sp, pns_state (bump f sp)).
Proof.
  intros. unfold pnspace_next, pns_state, bump.
  assert (forall q, load [f PNS_INITIAL; f PNS_HANDSHAKE; f PNS_APP] (pns_idx q) = Some (f q)) as -> by (by intros []).
  osimpl. rewrite u64_small by lia. by destruct sp.
Qed.

Definition count_in (sp : pns_space) (sps : list pns_space) : Z :=
  zlen (filter (fun q => q = sp) sps).

Lemma count_in_cons sp q sps :
  count_in sp (q :: sps) = (if decide (q = sp) then 1 else 0) + count_in sp sps.
Proof. unfold count_in. rewrite filter_cons. case_decide; [rewrite zlen_cons|]; lia. Qed.

Lemma issue_all_spec sps : forall f,
  (forall sp, 0 <= f sp /\ f sp + zlen sps < 18446744073709551616) ->
  exists out, issue_all (pns_state f) sps =
    Some (out, pns_state (fun sp => f sp + count_in sp sps)) /\ out.*1 = sps /\
    forall sp, issued_in sp out = seqZ (f sp) (count_in sp sps).
Proof.
  induction sps as [|q sps IH]; intros f Hf.
  - exists []. unfold count_in. cbn. unfold pns_state. rewrite !Z.add_0_r. done.
  - cbn [issue_all]. pose proof (Hf q) as Hq. rewrite zlen_cons in Hq. pose proof (zlen_nonneg sps).
    rewrite pnspace_next_state by lia. osimpl.
    destruct (IH (bump f q)) as (out & -> & Hfst & Hout).
    { intros sp. specialize (Hf sp). rewrite zlen_cons in Hf. unfold bump. case_decide; lia. }
    osimpl. exists ((q, f q) :: out). split_and!.
    + unfold pns_state. rewrite !count_in_cons. unfold bump.
      by destruct q; cbn [decide]; rewrite ?Z.add_0_l, ?Z.add_assoc.
    + by cbn; rewrite Hfst.
    + intros sp. rewrite count_in_cons. unfold issued_in in *. rewrite filter_cons. cbn [fst].
      specialize (Hout sp). unfold bump in Hout.
      destruct (decide (q = sp)) as [->|E].
      * rewrite decide_True in Hout by done. cbn [fmap list_fmap snd]. rewrite Hout.
        rewrite (seqZ_cons _ (1 + _)) by (unfold count_in; pose proof (zlen_nonneg (filter (fun q => q = sp) sps)); lia).
        f_equal. f_equal; lia.
      * rewrite decide_False in Hout by congruence. rewrite Hout. f_equal; lia.
Qed.

(** ** Properties *)

(** C18: the receive window of a packet number space refines the set of
    recorded numbers: after recording any sequence of 64-bit numbers in any
    order, [recvpn_seen] is 1 exactly for the recorded numbers that are at
    most 64 below the largest one (so a recorded number further below is no
    longer reported), and [recvpn_first_range] ends and counts the maximal run
    of recorded numbers immediately below the largest, capped at 64. *)
Theorem recvpn_refines_history (h : list Z) (top : Z) :
  Forall is_u64 h -> top ∈ h -> (forall q, q ∈ h -> q <= top) ->
  (forall pn, is_u64 pn ->
     recvpn_seen (record_all h) pn = (if decide (pn ∈ h /\ top - 64 <= pn) then 1 else 0)) /\
  exists k, recvpn_first_range (record_all h) = Some k /\ 0 <= k <= 64 /\
    (forall j, 0 <= j < k -> top - 1 - j ∈ h) /\ (k < 64 -> top - 1 - k ∉ h).
Proof.
  intros Hh Htop Hmax. pose proof (recv_inv_all h Hh) as Hinv. set (r := record_all h) in *.
  assert (rp_any r <> 0) as Ha.
  { intros Ha. destruct (ri_fresh _ _ Hinv Ha) as [-> _]. by apply elem_of_nil in Htop. }
  assert (rp_largest r = top) as <-.
  { pose proof (ri_max _ _ Hinv _ Htop). pose proof (Hmax _ (ri_top _ _ Hinv Ha)). lia. }
  split; [|exact (recvpn_first_range_spec h r Hinv Ha)].
  intros pn Hpn. change 64 with RECVPN_WINDOW.
  destruct (recvpn_seen_spec h r pn Hinv Hpn) as [(-> & ? & ?)|(-> & ?)]; case_decide; tauto.
Qed.

Lemma recvpn_refines_history_witness :
  let h := [105; 3; 104; 100; 102] in
  Forall is_u64 h /\ recvpn_seen (record_all h) 104 = 1 /\ recvpn_seen (record_all h) 3 = 0 /\
  recvpn_first_range (record_all h) = Some 1.
Proof.
  intros h.
  assert (Forall is_u64 h) as Hh by (unfold h, is_u64; repeat constructor; lia).
  assert (forall q, q ∈ h -> q <= 105) as Hmax.
  { intros q Hq. unfold h in Hq. repeat (apply elem_of_cons in Hq as [->|Hq]; [lia|]). by apply elem_of_nil in Hq. }
  destruct (recvpn_refines_history h 105 Hh ltac:(apply elem_of_cons; by left) Hmax) as [Hs _].
  split; [exact Hh|].
  split; [rewrite Hs by (unfold is_u64; lia); vm_compute; reflexivity|].
  split; [rewrite Hs by (unfold is_u64; lia); vm_compute; reflexivity|vm_compute; reflexivity].
Defined.

(** Packet numbers are issued in each space from 0 upwards without a gap
    or a repetition, whatever the interleaving with the other spaces, and a
    space reports exhaustion exactly when it has issued 2^62 - 1. *)
Theorem pnspace_issues_in_order (sps : list pns_space) :
  zlen sps < 18446744073709551616 ->
  exists out s, issue_all pnspace_init sps = Some (out, s) /\ out.*1 = sps /\
    forall sp, issued_in sp out = seqZ 0 (count_in sp sps) /\
      pnspace_exhausted s sp = Some (if decide (2 ^ 62 - 1 ∈ issued_in sp out) then 1 else 0).
Proof.
  intros Hl. change pnspace_init with (pns_state (fun _ => 0)).
  destruct (issue_all_spec sps (fun _ => 0)) as (out & -> & Hfst & Hout); [intros; lia|].
  do 2 eexists. split; [reflexivity|]. split; [done|]. intros sp. split; [apply Hout|].
  rewrite Hout. unfold pnspace_exhausted.
  assert (load (pns_next (pns_state (fun sp => 0 + count_in sp sps))) (pns_idx sp) = Some (count_in sp sps)) as ->
    by (by destruct sp).
  osimpl. f_equal. change PN_LIMIT with (2 ^ 62 - 1).
  case_decide as E; rewrite elem_of_seqZ in E; bcases.
Qed.

Lemma pnspace_issues_in_order_witness :
  exists out s, issue_all pnspace_init [PNS_APP; PNS_INITIAL; PNS_APP] = Some (out, s) /\
    issued_in PNS_APP out = [0; 1] /\ pnspace_exhausted s PNS_APP = Some 0.
Proof.
  destruct (pnspace_issues_in_order [PNS_APP; PNS_INITIAL; PNS_APP] ltac:(vm_compute; reflexivity))
    as (out & s & E & _ & H).
  exists out, s. split; [exact E|]. destruct (H PNS_APP) as [-> _]. split; [vm_compute; reflexivity|].
  vm_compute in E. injection E as <- <-. vm_compute. reflexivity.
Defined.
