(* ===== verification/AckGen.v ===== *)
(** * Building ACK frames (src/src/transport/recovery/detect/ackgen,
    conn/pnspace/pnspaces/recv_spaces.c, recovery/ackpolicy.c and the 1-RTT
    ACK path of app/http3/server/srvloop/respond_app.c)

    From the receive window of a packet number space to the bytes of an ACK
    frame: the received numbers are collected, grouped into gap-encoded
    ranges, converted to the [hi, lo] array of [ack_frame], pruned of what the
    peer already knows, and encoded.  [runs] is the reference grouping; the
    end-to-end theorem decodes the bytes with the peer's [ack_decode] and
    compares the acknowledged set with the history of received packets. *)

From stdpp Require Import base numbers list option.
From Stdlib Require Import ZArith Lia.
From S2P Require Import Prelude Bytes Varint Frames Ack Framewalk RecvPn.

(** ** ackrange.c: the gap-encoded ranges *)

(* src/src/transport/recovery/detect/ackgen/ackrange.h : u64obuf *)
Record u64obuf := mk_u64obuf { uo_p : list Z; uo_cap : Z; uo_len : Z }.

(* src/src/transport/recovery/detect/ackgen/ackrange.c : gap_of *)
Definition gap_of (prev_lo hi : Z) : Z := u64 (prev_lo - hi - 2).

(* src/src/transport/recovery/detect/ackgen/ackrange.c : push *)
Definition push (out : u64obuf) (v : Z) : option (bool * u64obuf) :=
  if uo_cap out <=? uo_len out then Some (false, out)
  else p ← store (uo_p out) (uo_len out) v;
       Some (true, mk_u64obuf p (uo_cap out) (u64 (uo_len out + 1))).

(* src/src/transport/recovery/detect/ackgen/ackrange.c : build_st *)
Record build_st := mk_build_st { bs_hi : Z; bs_prev_lo : Z; bs_first : Z; bs_out : u64obuf }.

Definition set_out (s : build_st) (o : u64obuf) : build_st :=
  mk_build_st (bs_hi s) (bs_prev_lo s) (bs_first s) o.

(* src/src/transport/recovery/detect/ackgen/ackrange.c : ackrange_emit *)
Definition ackrange_emit (s : build_st) (lo : Z) : option (bool * build_st) :=
  '(ok, o) ← (if bs_first s =? 0 then push (bs_out s) (gap_of (bs_prev_lo s) (bs_hi s))
              else Some (true, bs_out s));
  if negb ok then Some (false, set_out s o)
  else '(ok2, o2) ← push o (u64 (bs_hi s - lo)); Some (ok2, set_out s o2).

(* src/src/transport/recovery/detect/ackgen/ackrange.c : close_block *)
Definition close_block (s : build_st) (lo next_hi : Z) : option (bool * build_st) :=
  '(ok, s1) ← ackrange_emit s lo;
  if negb ok then Some (false, s1)
  else Some (true, mk_build_st next_hi lo 0 (bs_out s1)).

(* src/src/transport/recovery/detect/ackgen/ackrange.c : step *)
Definition ackrange_step (s : build_st) (pns : list Z) (i : Z) : option (bool * build_st) :=
  a ← load pns i; b ← load pns (i - 1);
  if u64 (a - b) =? 1 then Some (true, s) else close_block s a b.

(** [for (i = n - 1; i > 0; i--)] from index [i], then the last block. *)
(* src/src/transport/recovery/detect/ackgen/ackrange.c : descend *)
Fixpoint descend (s : build_st) (pns : list Z) (i : nat) : option (bool * build_st) :=
  match i with
  | O => p0 ← load pns 0; ackrange_emit s p0
  | S i' =>
      '(ok, s1) ← ackrange_step s pns (Z.of_nat i);
      if negb ok then Some (false, s1) else descend s1 pns i'
  end.

(** The result is the return value, [*largest] (unchanged when the list is
    empty) and [*ranges].  The elements are written through [ranges->p] even
    when the build fails; [ranges->len] is set only on success. *)
(* src/src/transport/recovery/detect/ackgen/ackrange.c : ackgen_build_ranges *)
Definition ackgen_build_ranges (pns : list Z) (largest0 : Z) (ranges : u64obuf)
    : option (Z * Z * u64obuf) :=
  if zlen pns =? 0 then Some (0, largest0, ranges)
  else
    largest ← load pns (zlen pns - 1);
    let s := mk_build_st largest 0 1 (mk_u64obuf (uo_p ranges) (uo_cap ranges) 0) in
    '(ok, s1) ← descend s pns (length pns - 1);
    if negb ok then Some (0, largest, mk_u64obuf (uo_p (bs_out s1)) (uo_cap ranges) (uo_len ranges))
    else Some (1, largest, mk_u64obuf (uo_p (bs_out s1)) (uo_cap ranges) (uo_len (bs_out s1))).

(** ** ackrangeconv.c: to the [hi, lo] array *)

(* src/src/transport/recovery/detect/ackgen/ackrangeconv.c : raw_layout_ok *)
Definition raw_layout_ok (n : Z) : bool := (1 <=? n) && (n mod 2 =? 1).

(* src/src/transport/recovery/detect/ackgen/ackrangeconv.c : range_count_ok *)
Definition range_count_ok (n : Z) : bool := (n - 1) / 2 + 1 <=? ACK_MAX_RANGES.

(* src/src/transport/recovery/detect/ackgen/ackrangeconv.c : raw_ok *)
Definition raw_ok (n : Z) : bool := raw_layout_ok n && range_count_ok n.

(* src/src/transport/recovery/detect/ackgen/ackrangeconv.c : conv_first *)
Definition conv_first (largest first_len : Z) (rs : list ack_range) : option (list ack_range) :=
  store rs 0 (mk_range largest (u64 (largest - first_len))).

(* src/src/transport/recovery/detect/ackgen/ackrangeconv.c : conv_pair *)
Definition conv_pair (raw : list Z) (i : Z) (prev : ack_range) : option ack_range :=
  gap ← load raw (2 * i - 1);
  len ← load raw (2 * i);
  let hi := u64 (r_lo prev - gap - 2) in
  Some (mk_range hi (u64 (hi - len))).

(** [for (i = ..; i <= (n - 1) / 2; i++)] with [k] rounds left from [i]. *)
(* src/src/transport/recovery/detect/ackgen/ackrangeconv.c : conv_all_pairs *)
Fixpoint conv_all_pairs (raw : list Z) (i : Z) (k : nat) (rs : list ack_range)
    : option (list ack_range) :=
  match k with
  | O => Some rs
  | S k' =>
      prev ← load rs (i - 1);
      cur ← conv_pair raw i prev;
      rs' ← store rs i cur;
      conv_all_pairs raw (i + 1) k' rs'
  end.

Definition set_ranges (f : ack_frame) (n : Z) (rs : list ack_range) : ack_frame :=
  mk_ack (af_ack_delay f) n rs (af_has_ecn f) (af_ect0 f) (af_ect1 f) (af_ce f).

(* src/src/transport/recovery/detect/ackgen/ackrangeconv.c : ackrangeconv_to_frame *)
Definition ackrangeconv_to_frame (largest : Z) (raw : list Z) (n : Z) (f : ack_frame)
    : option (Z * ack_frame) :=
  if negb (raw_ok n) then Some (0, f)
  else
    first_len ← load raw 0;
    rs ← conv_first largest first_len (af_ranges f);
    rs' ← conv_all_pairs raw 1 (Z.to_nat ((n - 1) / 2)) rs;
    Some (1, set_ranges f ((n - 1) / 2 + 1) rs').

(** ** recv_spaces.c: one receive window per packet number space *)

(* src/src/transport/conn/pnspace/pnspaces/recv_spaces.h : PNSPACES_ACK_CAP *)
Definition PNSPACES_ACK_CAP : Z := RECVPN_WINDOW + 1.

(* src/src/transport/conn/pnspace/pnspaces/recv_spaces.h : pnspaces_recv *)
Record pnspaces_recv := mk_recv { pr_r : list recvpn }.

(* src/src/transport/conn/pnspace/pnspaces/recv_spaces.c : pnspaces_recv_init *)
Definition pnspaces_recv_init : pnspaces_recv := mk_recv (replicate PNS_COUNT recvpn_init).

(* src/src/transport/conn/pnspace/pnspaces/recv_spaces.c : pnspaces_on_recv *)
Definition pnspaces_on_recv (s : pnspaces_recv) (space : pns_space) (pn : Z) : option pnspaces_recv :=
  r ← load (pr_r s) (pns_idx space);
  rs ← store (pr_r s) (pns_idx space) (recvpn_record r pn);
  Some (mk_recv rs).

(** [for (d = 64; d >= 1; d--)] with [d] rounds left; [n] cells of [out] are in use. *)
Fixpoint collect_loop (r : recvpn) (d : nat) (out : list Z) (n : Z) : option (list Z * Z) :=
  match d with
  | O => Some (out, n)
  | S d' =>
      let pn := u64 (rp_largest r - Z.of_nat d) in
      if negb (recvpn_seen r pn =? 0)
      then out' ← store out n pn; collect_loop r d' out' (n + 1)
      else collect_loop r d' out n
  end.

(* src/src/transport/conn/pnspace/pnspaces/recv_spaces.c : collect_pns *)
Definition collect_pns (r : recvpn) (out : list Z) : option (list Z * Z) :=
  '(out1, n) ← collect_loop r (Z.to_nat RECVPN_WINDOW) out 0;
  out2 ← store out1 n (rp_largest r);
  Some (out2, n + 1).

(* src/src/transport/conn/pnspace/pnspaces/recv_spaces.c : pnspaces_ack_ranges *)
Definition pnspaces_ack_ranges (s : pnspaces_recv) (space : pns_space) (largest0 : Z) (ranges : u64obuf)
    : option (Z * Z * u64obuf) :=
  r ← load (pr_r s) (pns_idx space);
  if rp_any r =? 0 then Some (0, largest0, ranges)
  else
    '(pns, n) ← collect_pns r (replicate (Z.to_nat PNSPACES_ACK_CAP) 0);
    ackgen_build_ranges (take (Z.to_nat n) pns) largest0 ranges.

(** ** ackpolicy.c, ackgen.c, ackfreq.c: when to acknowledge *)

(* src/src/transport/recovery/detect/recovery/ackpolicy.h : ackpolicy *)
Record ackpolicy := mk_ackpolicy { ap_pending : Z; ap_since_tick : Z; ap_immediate : Z }.

(* src/src/transport/recovery/detect/recovery/ackpolicy.c : ackpolicy_init *)
Definition ackpolicy_init : ackpolicy := mk_ackpolicy 0 0 0.

(* src/src/transport/recovery/detect/recovery/ackpolicy.c : ackpolicy_on_eliciting *)
Definition ackpolicy_on_eliciting (p : ackpolicy) (tick : Z) : ackpolicy :=
  mk_ackpolicy (u64 (ap_pending p + 1))
    (if ap_pending p =? 0 then tick else ap_since_tick p) (ap_immediate p).

(* src/src/transport/recovery/detect/recovery/ackpolicy.c : ackpolicy_on_urgent *)
Definition ackpolicy_on_urgent (p : ackpolicy) : ackpolicy :=
  mk_ackpolicy (ap_pending p) (ap_since_tick p) 1.

(* src/src/transport/recovery/detect/recovery/ackpolicy.c : ack_at_once *)
Definition ack_at_once (p : ackpolicy) : bool :=
  (2 <=? ap_pending p) || negb (ap_immediate p =? 0).

(* src/src/transport/recovery/detect/recovery/ackpolicy.c : delay_elapsed *)
Definition delay_elapsed (p : ackpolicy) (now max_ack_delay : Z) : bool :=
  max_ack_delay <=? u64 (now - ap_since_tick p).

(* src/src/transport/recovery/detect/recovery/ackpolicy.c : ackpolicy_should_ack *)
Definition ackpolicy_should_ack (p : ackpolicy) (now max_ack_delay : Z) : bool :=
  if ap_pending p =? 0 then false
  else if ack_at_once p then true
  else delay_elapsed p now max_ack_delay.

(* src/src/transport/recovery/detect/recovery/ackpolicy.c : ackpolicy_on_ack_sent *)
Definition ackpolicy_on_ack_sent (p : ackpolicy) : ackpolicy := mk_ackpolicy 0 (ap_since_tick p) 0.

(* src/src/transport/recovery/detect/ackgen/ackgen.h : ackgen_state *)
Record ackgen_state := mk_ackgen {
  ag_eliciting_received : Z; ag_already_pending : Z; ag_since_last_ack : Z }.

(* src/src/transport/recovery/detect/ackgen/ackgen.c : delay_due *)
Definition delay_due (since_last_ack max_ack_delay : Z) : bool := max_ack_delay <=? since_last_ack.

(* src/src/transport/recovery/detect/ackgen/ackgen.c : second_eliciting *)
Definition second_eliciting (received pending : Z) : bool :=
  negb (received =? 0) && negb (pending =? 0).

(* src/src/transport/recovery/detect/ackgen/ackgen.c : has_outstanding *)
Definition has_outstanding (received pending : Z) : bool :=
  negb (received =? 0) || negb (pending =? 0).

(* src/src/transport/recovery/detect/ackgen/ackgen.c : ackgen_should_ack *)
Definition ackgen_should_ack (s : ackgen_state) (max_ack_delay : Z) : bool :=
  if negb (has_outstanding (ag_eliciting_received s) (ag_already_pending s)) then false
  else if second_eliciting (ag_eliciting_received s) (ag_already_pending s) then true
  else delay_due (ag_since_last_ack s) max_ack_delay.

(* src/src/transport/recovery/detect/ackgen/ackfreq.c : ackgen_due *)
Definition ackgen_due (unacked_eliciting elapsed max_ack_delay : Z) : bool :=
  if unacked_eliciting =? 0 then false
  else if 2 <=? unacked_eliciting then true
  else max_ack_delay <=? elapsed.

(** ** ackdelay.c *)

(* src/src/transport/recovery/detect/recovery/ackdelay.h : ACK_DELAY_EXPONENT_DEFAULT *)
Definition ACK_DELAY_EXPONENT_DEFAULT : Z := 3.

(* src/src/transport/recovery/detect/recovery/ackdelay.c : ack_delay_encode *)
Definition ack_delay_encode (micros exponent : Z) : Z := Z.shiftr micros exponent.

(* src/src/transport/recovery/detect/recovery/ackdelay.c : ack_delay_decode *)
Definition ack_delay_decode (value exponent : Z) : Z := u64 (Z.shiftl value exponent).

(** ** respond_app.c: the ACK of the 1-RTT space *)

(** The fields of [wired_srvloop] the ACK path reads and writes. *)
Record srvloop_acks := mk_srvloop_acks {
  sl_ack_recv : pnspaces_recv; sl_policy : ackpolicy; sl_now_ms : Z; sl_floor1 : Z;
  sl_ack_defer : Z; sl_ecn_ect0 : Z; sl_ecn_ect1 : Z; sl_ecn_ce : Z }.

(* src/src/app/http3/server/srvloop/srvloop_wt.h : WIRED_SRVLOOP_MAX_ACK_DELAY_MS *)
Definition WIRED_SRVLOOP_MAX_ACK_DELAY_MS : Z := 25.

(* src/src/app/http3/server/srvloop/respond_app.c : app_ack_due *)
Definition app_ack_due (l : srvloop_acks) : bool :=
  ackpolicy_should_ack (sl_policy l) (sl_now_ms l) WIRED_SRVLOOP_MAX_ACK_DELAY_MS.

(* src/src/app/http3/server/srvloop/respond_app.c : app_ack_ecn_any_seen *)
Definition app_ack_ecn_any_seen (l : srvloop_acks) : bool :=
  negb (sl_ecn_ect0 l =? 0) || negb (sl_ecn_ect1 l =? 0) || negb (sl_ecn_ce l =? 0).

(* src/src/app/http3/server/srvloop/respond_app.c : app_ack_set_ecn *)
Definition app_ack_set_ecn (l : srvloop_acks) (f : ack_frame) : ack_frame :=
  if negb (app_ack_ecn_any_seen l) then f
  else mk_ack (af_ack_delay f) (af_n_ranges f) (af_ranges f) 1
         (sl_ecn_ect0 l) (sl_ecn_ect1 l) (sl_ecn_ce l).

(** [while (n < f->n_ranges && f->ranges[n].hi >= floor1) n++] *)
Fixpoint app_ack_kept_loop (fuel : nat) (f : ack_frame) (floor1 n : Z) : option Z :=
  match fuel with
  | O => None
  | S fuel' =>
      if n <? af_n_ranges f then
        r ← load (af_ranges f) n;
        if floor1 <=? r_hi r then app_ack_kept_loop fuel' f floor1 (u64 (n + 1)) else Some n
      else Some n
  end.

(* src/src/app/http3/server/srvloop/respond_app.c : app_ack_kept *)
Definition app_ack_kept (f : ack_frame) (floor1 : Z) : option Z :=
  app_ack_kept_loop (Z.to_nat (af_n_ranges f)) f floor1 1.

(* src/src/app/http3/server/srvloop/respond_app.c : app_ack_prune *)
Definition app_ack_prune (f : ack_frame) (floor1 : Z) : option ack_frame :=
  n ← app_ack_kept f floor1;
  last ← load (af_ranges f) (u64 (n - 1));
  if (r_lo last <? floor1) && (floor1 <=? r_hi last)
  then rs ← store (af_ranges f) (u64 (n - 1)) (mk_range (r_hi last) floor1);
       Some (set_ranges f n rs)
  else Some (set_ranges f n (af_ranges f)).

Definition set_delay (f : ack_frame) (d : Z) : ack_frame :=
  mk_ack d (af_n_ranges f) (af_ranges f) (af_has_ecn f) (af_ect0 f) (af_ect1 f) (af_ce f).

(** [ack_frame f = {0}] *)
Definition ack_zero : ack_frame :=
  mk_ack 0 0 (replicate (Z.to_nat ACK_MAX_RANGES) (mk_range 0 0)) 0 0 0 0.

(** The frame [app_ack_encode_ranges] builds; [Some None] is the early return
    0.  [raw0] and [largest0] are the uninitialised locals. *)
(* src/src/app/http3/server/srvloop/respond_app.c : app_ack_encode_ranges@71-92 *)
Definition app_ack_frame (l : srvloop_acks) (raw0 : list Z) (largest0 : Z) : option (option ack_frame) :=
  '(ok, largest, ranges) ←
     pnspaces_ack_ranges (sl_ack_recv l) PNS_APP largest0 (mk_u64obuf raw0 (2 * ACK_MAX_RANGES + 1) 0);
  if ok =? 0 then Some None
  else
    '(ok2, f) ← ackrangeconv_to_frame largest (uo_p ranges)
                  (u64_min (uo_len ranges) (2 * ACK_MAX_RANGES - 1)) ack_zero;
    if ok2 =? 0 then Some None
    else
      f1 ← app_ack_prune f (sl_floor1 l);
      let f2 := set_delay f1 (ack_delay_encode (u64 (u64 (sl_now_ms l - ap_since_tick (sl_policy l)) * 1000))
                                ACK_DELAY_EXPONENT_DEFAULT) in
      Some (Some (app_ack_set_ecn l f2)).

(* src/src/app/http3/server/srvloop/respond_app.c : app_ack_encode_ranges *)
Definition app_ack_encode_ranges (l : srvloop_acks) (raw0 : list Z) (largest0 : Z) (buf : list Z)
    : option (Z * list Z) :=
  f ← app_ack_frame l raw0 largest0;
  match f with
  | None => Some (0, buf)
  | Some f => ack_encode buf f
  end.

Definition set_policy (l : srvloop_acks) (p : ackpolicy) : srvloop_acks :=
  mk_srvloop_acks (sl_ack_recv l) p (sl_now_ms l) (sl_floor1 l) (sl_ack_defer l)
    (sl_ecn_ect0 l) (sl_ecn_ect1 l) (sl_ecn_ce l).

(* src/src/app/http3/server/srvloop/respond_app.c : srvloop_app_ack_append *)
Definition srvloop_app_ack_append (l : srvloop_acks) (raw0 : list Z) (largest0 : Z) (buf : list Z)
    : option (Z * list Z * srvloop_acks) :=
  '(n, buf') ← app_ack_encode_ranges l raw0 largest0 buf;
  Some (n, buf', if n =? 0 then l else set_policy l (ackpolicy_on_ack_sent (sl_policy l))).

(* src/src/app/http3/server/srvloop/respond_app.c : srvloop_app_ack_append_if_due *)
Definition srvloop_app_ack_append_if_due (l : srvloop_acks) (raw0 : list Z) (largest0 : Z) (buf : list Z)
    : option (Z * list Z * srvloop_acks) :=
  if negb (sl_ack_defer l =? 0) then Some (0, buf, l)
  else if negb (app_ack_due l) then Some (0, buf, l)
  else srvloop_app_ack_append l raw0 largest0 buf.

(* src/src/app/http3/server/srvloop/respond_app.c : wired_srvloop_ack_peek *)
Definition wired_srvloop_ack_peek (l : srvloop_acks) (raw0 : list Z) (largest0 : Z) (buf : list Z)
    : option (Z * list Z) :=
  if ap_pending (sl_policy l) =? 0 then Some (0, buf) else app_ack_encode_ranges l raw0 largest0 buf.

(* src/src/app/http3/server/srvloop/respond_app.c : wired_srvloop_ack_mark_sent *)
Definition wired_srvloop_ack_mark_sent (l : srvloop_acks) : srvloop_acks :=
  set_policy l (ackpolicy_on_ack_sent (sl_policy l)).

(* src/src/app/http3/server/srvloop/srvloop_step.c : srvloop_app_reordered *)
Definition srvloop_app_reordered (l : srvloop_acks) (app_rx_pn : Z) : option bool :=
  r ← load (pr_r (sl_ack_recv l)) (pns_idx PNS_APP);
  Some (negb (rp_any r =? 0) && (app_rx_pn <? rp_largest r)).

(* src/src/app/http3/server/srvloop/srvloop_step.c : srvloop_app_ack_urgent *)
Definition srvloop_app_ack_urgent (l : srvloop_acks) (rx_gap rx_ce app_rx_pn : Z) : option bool :=
  b ← srvloop_app_reordered l app_rx_pn;
  Some (negb (rx_gap =? 0) || negb (rx_ce =? 0) || b).

(** The receive path: an ack-eliciting payload records its packet number and
    starts or advances the delayed-ACK policy; any other payload changes nothing. *)
(* src/src/app/http3/server/srvloop/srvloop_close.c : srvloop_note_ack_owed *)
Definition srvloop_note_ack_owed (recv : pnspaces_recv) (space : pns_space) (policy : ackpolicy)
    (pl : list Z) (pn now_ms : Z) (urgent : bool) : option (pnspaces_recv * ackpolicy) :=
  match framewalk_ack_eliciting pl with
  | Ok false => Some (recv, policy)
  | Ok true =>
      recv' ← pnspaces_on_recv recv space pn;
      let policy' := ackpolicy_on_eliciting policy now_ms in
      Some (recv', if urgent then ackpolicy_on_urgent policy' else policy')
  | _ => None
  end.

(** ** The reference grouping *)

(** The maximal runs of a descending list: [hi .. cur] is the run being
    scanned, [below] the numbers still to come. *)
Fixpoint runs (hi cur : Z) (below : list Z) : list ack_range :=
  match below with
  | [] => [mk_range hi cur]
  | x :: rest => if cur - x =? 1 then runs hi x rest else mk_range hi cur :: runs x x rest
  end.

(** The gap encoding of descending ranges below a range that ends at [prev]. *)
Fixpoint raw_from (prev : option Z) (rs : list ack_range) : list Z :=
  match rs with
  | [] => []
  | r :: rs' =>
      match prev with None => [] | Some p => [p - r_hi r - 2] end
      ++ [r_hi r - r_lo r] ++ raw_from (Some (r_lo r)) rs'
  end.

(** [l] is strictly descending below [hi]. *)
Fixpoint desc (hi : Z) (l : list Z) : Prop :=
  match l with [] => True | x :: l' => 0 <= x < hi /\ desc x l' end.

Lemma desc_in hi l x : desc hi l -> x ∈ l -> 0 <= x < hi.
Proof.
  revert hi; induction l as [|y l IH]; intros hi Hd Hx; [by apply elem_of_nil in Hx|].
  destruct Hd as [? Hd]. apply elem_of_cons in Hx as [->|Hx]; [lia|].
  specialize (IH _ Hd Hx). lia.
Qed.

Lemma desc_snoc hi l x : desc hi l -> 0 <= x < hi -> (forall y, y ∈ l -> x < y) -> desc hi (l ++ [x]).
Proof.
  revert hi; induction l as [|y l IH]; intros hi Hd Hx Hl; cbn; [lia|].
  destruct Hd as [? Hd]. split; [lia|]. apply IH; [done| |].
  - specialize (Hl y ltac:(apply elem_of_cons; by left)). lia.
  - intros z Hz. apply Hl. apply elem_of_cons; by right.
Qed.

Lemma runs_head hi cur below : exists lo rest, runs hi cur below = mk_range hi lo :: rest.
Proof.
  revert hi cur; induction below as [|x rest IH]; intros hi cur; cbn; [eauto|]. bcase; eauto.
Qed.

Lemma acks_cons r rs pn : acks (r :: rs) pn <-> r_lo r <= pn <= r_hi r \/ acks rs pn.
Proof.
  unfold acks. split.
  - intros (q & [->|Hq]%elem_of_cons & ?); [by left|right; eauto].
  - intros [?|(q & ? & ?)]; [exists r|exists q]; rewrite elem_of_cons; auto.
Qed.

Lemma acks_nil pn : ~ acks [] pn.
Proof. intros (q & Hq & _). by apply elem_of_nil in Hq. Qed.

(** The runs cover exactly the numbers of the list. *)
Lemma runs_acks hi cur below pn :
  cur <= hi -> desc cur below ->
  acks (runs hi cur below) pn <-> cur <= pn <= hi \/ pn ∈ below.
Proof.
  revert hi cur; induction below as [|x rest IH]; intros hi cur Hc Hd; cbn.
  { rewrite acks_cons. pose proof (acks_nil pn). rewrite elem_of_nil. cbn. tauto. }
  destruct Hd as [Hx Hd]. rewrite elem_of_cons. bcase.
  - rewrite IH by (done || lia). assert (cur = x + 1) as -> by lia. split; [|].
    + intros [?|?]; [destruct (Z.eq_dec pn x); [right; by left|left; lia]|right; by right].
    + intros [?|[->|?]]; [left; lia|left; lia|by right].
  - rewrite acks_cons, IH by (done || lia). cbn.
    split; [intros [?|[?|?]]|intros [?|[->|?]]]; auto; [right; left; lia|right; left; lia].
Qed.

Lemma ranges_wf_cons r rs :
  ranges_wf (r :: rs) <-> range_ok r = true /\ ranges_wf rs /\
    (forall b, head rs = Some b -> r_hi b + 2 <= r_lo r).
Proof.
  unfold ranges_wf. rewrite List.Forall_cons_iff. split.
  - intros [[? ?] Hg]. split_and!; try done; [intros i a b Ha Hb; exact (Hg (S i) a b Ha Hb)|].
    intros b Hb. apply (Hg O r b); [done|]. by destruct rs.
  - intros (? & [? Hg] & Hh). split; [done|]. intros [|i] a b Ha Hb; cbn in *.
    + apply (inj Some) in Ha as <-. apply Hh. by destruct rs.
    + eauto.
Qed.

Lemma runs_wf hi cur below :
  0 <= cur <= hi -> hi <= VARINT_MAX -> desc cur below -> ranges_wf (runs hi cur below).
Proof.
  assert (ranges_wf []) as Hnil by (split; [constructor|by intros]).
  revert hi cur; induction below as [|x rest IH]; intros hi cur Hc Hm Hd; cbn.
  { apply ranges_wf_cons. split_and!; [unfold range_ok; cbn; lia|done|done]. }
  destruct Hd as [Hx Hd]. bcase; [apply IH; (done || lia)|].
  apply ranges_wf_cons. split_and!; [unfold range_ok; cbn; lia|apply IH; (done || lia)|].
  intros b Hb. destruct (runs_head x x rest) as (lo & tl & E). rewrite E in Hb. simplify_eq/=. lia.
Qed.

(** Each run after the first lies at least two below the one before it. *)
Lemma runs_length hi cur below b :
  b <= cur -> desc cur below -> (forall x, x ∈ below -> b <= x) ->
  2 * (zlen (runs hi cur below) - 1) <= cur - b.
Proof.
  revert hi cur; induction below as [|x rest IH]; intros hi cur Hb Hd Hl; cbn [runs].
  { rewrite zlen_cons. change (zlen []) with 0. lia. }
  destruct Hd as [Hx Hd].
  assert (b <= x) by (apply Hl, elem_of_cons; by left).
  assert (forall y, y ∈ rest -> b <= y) by (intros; apply Hl, elem_of_cons; by right).
  destruct (cur - x =? 1) eqn:E.
  - specialize (IH hi x ltac:(lia) Hd ltac:(done)). lia.
  - rewrite zlen_cons. specialize (IH x x ltac:(lia) Hd ltac:(done)). lia.
Qed.

Lemma zlen_raw_from prev rs :
  zlen (raw_from prev rs) = 2 * zlen rs - match prev, rs with None, _ :: _ => 1 | _, _ => 0 end.
Proof.
  revert prev; induction rs as [|r rs IH]; intros prev; [by destruct prev|].
  cbn [raw_from]. rewrite !zlen_app, IH. destruct prev; zl.
Qed.

Lemma raw_from_snoc prev l r rest :
  raw_from prev (l ++ r :: rest) = raw_from prev (l ++ [r]) ++ raw_from (Some (r_lo r)) rest.
Proof.
  revert prev; induction l as [|q l IH]; intros prev; cbn.
  - by rewrite <- !app_assoc.
  - by rewrite IH, <- !app_assoc.
Qed.

(** ** ackgen_build_ranges writes the gap encoding of the runs *)

Lemma splice_one {A} (l : list A) i (v : A) :
  0 <= i < zlen l -> <[Z.to_nat i := v]> l = splice l i [v].
Proof. intros. by rewrite <- splice_cons_store, splice_nil by lia. Qed.

Definition uobuf_ok (o : u64obuf) : Prop :=
  0 <= uo_len o /\ uo_cap o <= zlen (uo_p o) /\ uo_cap o < 18446744073709551616.

Definition uo_app (o : u64obuf) (vs : list Z) : u64obuf :=
  mk_u64obuf (splice (uo_p o) (uo_len o) vs) (uo_cap o) (uo_len o + zlen vs).

Definition uo_fits (o : u64obuf) (vs : list Z) : bool := uo_len o + zlen vs <=? uo_cap o.

Lemma uo_app_ok o vs : uobuf_ok o -> uo_fits o vs = true -> uobuf_ok (uo_app o vs).
Proof.
  unfold uobuf_ok, uo_app, uo_fits. intros ? Hf. pose proof (zlen_nonneg vs). cbn.
  rewrite zlen_splice by lia. lia.
Qed.

Lemma uo_app_app o v w :
  uobuf_ok o -> uo_fits o v = true -> uo_app (uo_app o v) w = uo_app o (v ++ w).
Proof.
  unfold uobuf_ok, uo_app, uo_fits. intros ? Hf. pose proof (zlen_nonneg v). cbn.
  rewrite splice_app by lia. rewrite zlen_app, Z.add_assoc. done.
Qed.

Lemma uo_fits_app o v w : uo_fits (uo_app o v) w = uo_fits o (v ++ w).
Proof. unfold uo_fits, uo_app. cbn. by rewrite zlen_app, Z.add_assoc. Qed.

Lemma uo_fits_prefix o v w : uo_fits o (v ++ w) = true -> uo_fits o v = true.
Proof. unfold uo_fits. rewrite zlen_app. pose proof (zlen_nonneg w). lia. Qed.

Lemma push_spec o v :
  uobuf_ok o ->
  push o v = if uo_fits o [v] then Some (true, uo_app o [v]) else Some (false, o).
Proof.
  unfold uobuf_ok, push, uo_fits, uo_app. intros Ho. rewrite zlen_cons. change (zlen []) with 0.
  destruct (uo_cap o <=? uo_len o) eqn:E; bcases; [done|].
  rewrite store_in by lia. osimpl. nowrap. do 3 f_equal. apply splice_one. lia.
Qed.

Definition st_prev (s : build_st) : option Z :=
  if bs_first s =? 0 then Some (bs_prev_lo s) else None.

(** What a step of the builder does with the values it must append: all of
    them, or, when they do not fit, a report of failure. *)
Definition emits (m : option (bool * build_st)) (s : build_st) (vs : list Z) : Prop :=
  if uo_fits (bs_out s) vs
  then exists s', m = Some (true, s') /\ bs_out s' = uo_app (bs_out s) vs
  else exists s', m = Some (false, s').

Lemma emit_spec s lo :
  uobuf_ok (bs_out s) -> 0 <= lo <= bs_hi s -> bs_hi s < 18446744073709551616 ->
  (bs_first s = 0 -> bs_hi s + 2 <= bs_prev_lo s < 18446744073709551616) ->
  let vs := raw_from (st_prev s) [mk_range (bs_hi s) lo] in
  if uo_fits (bs_out s) vs
  then ackrange_emit s lo = Some (true, set_out s (uo_app (bs_out s) vs))
  else exists s', ackrange_emit s lo = Some (false, s').
Proof.
  intros Ho Hlo Hhi Hp vs. unfold ackrange_emit, st_prev in *. cbn [raw_from r_hi r_lo app] in vs. subst vs.
  destruct (bs_first s =? 0) eqn:E.
  - rewrite push_spec by done. unfold gap_of. nowrap.
    set (g := bs_prev_lo s - bs_hi s - 2). set (n := bs_hi s - lo).
    rewrite <- (uo_fits_app _ [g] [n]).
    destruct (uo_fits (bs_out s) [g]) eqn:E1; osimpl; cbn [negb].
    + rewrite push_spec by (by apply uo_app_ok).
      destruct (uo_fits (uo_app _ _) _) eqn:E2; osimpl; [|eauto]. by rewrite uo_app_app.
    + destruct (uo_fits (uo_app _ _) _) eqn:E2; [|eauto].
      rewrite uo_fits_app in E2. apply uo_fits_prefix in E2. congruence.
  - osimpl. cbn [negb app]. rewrite push_spec by done. nowrap.
    destruct (uo_fits _ _); osimpl; eauto.
Qed.

Lemma raw_from_cons prev r rs :
  raw_from prev (r :: rs) = raw_from prev [r] ++ raw_from (Some (r_lo r)) rs.
Proof. cbn [raw_from]. by rewrite <- !app_assoc. Qed.

Lemma descend_spec i : forall s cur below above,
  i = length below -> uobuf_ok (bs_out s) ->
  0 <= cur <= bs_hi s -> bs_hi s < 18446744073709551616 -> desc cur below ->
  (bs_first s = 0 -> bs_hi s + 2 <= bs_prev_lo s < 18446744073709551616) ->
  emits (descend s (rev below ++ cur :: above) i) s
    (raw_from (st_prev s) (runs (bs_hi s) cur below)).
Proof.
  induction i as [|i IH]; intros s cur below above Hi Ho Hc Hhi Hd Hp; destruct below as [|x below]; try done.
  - cbn [descend rev app runs]. rewrite load_cons_0. osimpl. unfold emits.
    pose proof (emit_spec s cur Ho Hc Hhi Hp) as He. cbv zeta in He. bcase; eauto.
  - cbn in Hi. assert (i = length below) as Hl by lia. clear Hi.
    destruct Hd as [Hx Hd].
    assert (load (rev (x :: below) ++ cur :: above) (Z.of_nat (S i)) = Some cur) as E1.
    { rewrite load_app_r by (unfold zlen; rewrite length_rev; cbn; lia).
      unfold zlen. rewrite length_rev. cbn [length]. rewrite Hl, Z.sub_diag. done. }
    assert (rev (x :: below) ++ cur :: above = rev below ++ x :: (cur :: above)) as Er
      by (cbn [rev]; by rewrite <- app_assoc).
    assert (load (rev (x :: below) ++ cur :: above) (Z.of_nat (S i) - 1) = Some x) as E2.
    { rewrite Er. rewrite load_app_r by (unfold zlen; rewrite length_rev; cbn; lia).
      unfold zlen. rewrite length_rev, Hl. by replace (_ - 1 - _) with 0 by lia. }
    cbn [descend]. unfold ackrange_step. rewrite E1, E2, Er. osimpl. nowrap. cbn [runs].
    destruct (cur - x =? 1) eqn:Ex; osimpl; cbn [negb].
    + apply IH; done || lia.
    + unfold close_block. rewrite raw_from_cons. cbn [r_lo].
      pose proof (emit_spec s cur Ho Hc Hhi Hp) as He. cbv zeta in He.
      set (v := raw_from (st_prev s) [mk_range (bs_hi s) cur]) in *. unfold emits.
      destruct (uo_fits (bs_out s) v) eqn:Ev.
      * rewrite He. osimpl. cbn [negb bs_out set_out].
        set (s1 := mk_build_st x cur 0 (uo_app (bs_out s) v)).
        specialize (IH s1 x below (cur :: above) Hl (uo_app_ok _ _ Ho Ev)).
        cbn [s1 bs_hi bs_prev_lo bs_first] in IH.
        specialize (IH ltac:(lia) ltac:(lia) Hd ltac:(lia)). unfold emits in IH.
        change (st_prev s1) with (Some cur) in IH. cbn [s1 bs_out] in IH.
        rewrite uo_fits_app in IH. bcase; [|done].
        destruct IH as (s' & E & Es'). exists s'. split; [done|]. by rewrite Es', uo_app_app.
      * destruct (uo_fits _ (v ++ _)) eqn:E3; [apply uo_fits_prefix in E3; congruence|].
        destruct He as [s' ->]. osimpl. eauto.
Qed.

(** The raw ranges of a non-empty ascending list, or 0 when they do not fit. *)
Lemma build_ranges_spec top below largest0 o :
  0 <= top < 18446744073709551616 -> desc top below ->
  0 <= uo_cap o < 18446744073709551616 -> uo_cap o <= zlen (uo_p o) ->
  let raw := raw_from None (runs top top below) in
  (zlen raw <= uo_cap o /\
   ackgen_build_ranges (rev (top :: below)) largest0 o =
     Some (1, top, mk_u64obuf (splice (uo_p o) 0 raw) (uo_cap o) (zlen raw))) \/
  (uo_cap o < zlen raw /\
   exists p', ackgen_build_ranges (rev (top :: below)) largest0 o =
     Some (0, top, mk_u64obuf p' (uo_cap o) (uo_len o))).
Proof.
  intros Ht Hd Hc Hp raw. unfold ackgen_build_ranges.
  assert (zlen (rev (top :: below)) = zlen below + 1) as Hz
    by (unfold zlen; rewrite length_rev; cbn; lia).
  rewrite Hz. pose proof (zlen_nonneg below).
  replace (zlen below + 1 =? 0) with false by lia.
  assert (load (rev (top :: below)) (zlen below + 1 - 1) = Some top) as ->.
  { cbn [rev]. rewrite load_app_r by (unfold zlen; rewrite length_rev; lia).
    unfold zlen. rewrite length_rev. by replace (_ + 1 - 1 - _) with 0 by lia. }
  osimpl. set (s := mk_build_st top 0 1 (mk_u64obuf (uo_p o) (uo_cap o) 0)).
  replace (length (rev (top :: below)) - 1)%nat with (length below) by (rewrite length_rev; cbn; lia).
  pose proof (descend_spec (length below) s top below [] eq_refl) as H1.
  cbn [s bs_out bs_hi bs_first] in H1.
  specialize (H1 ltac:(unfold uobuf_ok; cbn; lia) ltac:(lia) ltac:(lia) Hd ltac:(lia)).
  change (st_prev s) with (@None Z) in H1. unfold emits, uo_fits in H1.
  cbn [bs_out uo_len uo_cap s] in H1. change (rev (top :: below)) with (rev below ++ [top]).
  fold s in H1. fold raw in H1. destruct (0 + zlen raw <=? uo_cap o) eqn:E.
  - left. destruct H1 as (s' & -> & Hs'). osimpl. cbn [negb]. split; [lia|].
    rewrite Hs'. unfold uo_app. cbn [uo_p uo_len s bs_out]. done.
  - right. destruct H1 as (s' & ->). osimpl. cbn [negb]. split; [lia|]. eauto.
Qed.

(** ** ackrangeconv_to_frame inverts the gap encoding *)

Lemma splice_0 {A} (l bs : list A) : splice l 0 bs = bs ++ drop (length bs) l.
Proof. done. Qed.

Lemma length_raw_snoc l r : length (raw_from None (l ++ [r])) = (2 * length l + 1)%nat.
Proof.
  pose proof (zlen_raw_from None (l ++ [r])) as Hl. unfold zlen in Hl. rewrite length_app in Hl.
  destruct (l ++ [r]) eqn:E; [by destruct l|]. cbn [length] in Hl. lia.
Qed.

Lemma conv_all_pairs_spec raw ranges todo : forall done prev k,
  (forall i v, (raw_from None (done ++ prev :: todo)) !! i = Some v -> raw !! i = Some v) ->
  ranges_wf (done ++ prev :: todo) -> (k <= length todo)%nat ->
  zlen done + 1 + Z.of_nat k <= zlen ranges ->
  conv_all_pairs raw (zlen done + 1) k (splice ranges 0 (done ++ [prev])) =
    Some (splice ranges 0 (done ++ prev :: take k todo)).
Proof.
  induction todo as [|cur todo IH]; intros done prev k Hraw Hwf Hk Hr.
  { cbn in Hk. by replace k with O by lia. }
  destruct k as [|k]; [done|]. cbn [conv_all_pairs take]. pose proof (zlen_nonneg done).
  assert (zlen (splice ranges 0 (done ++ [prev])) = zlen ranges) as Hz by (apply zlen_splice; zl).
  assert (load (splice ranges 0 (done ++ [prev])) (zlen done + 1 - 1) = Some prev) as ->.
  { rewrite splice_0, <- app_assoc. replace (zlen done + 1 - 1) with (zlen done) by lia. apply load_at. }
  osimpl. unfold conv_pair.
  assert (forall j v, (raw_from (Some (r_lo prev)) (cur :: todo)) !! j = Some v ->
            load raw (2 * zlen done + 1 + Z.of_nat j) = Some v) as Hload.
  { intros j v Hv. pose proof (Nat2Z.is_nonneg j). unfold load. replace (0 <=? _) with true by lia.
    apply Hraw. rewrite raw_from_snoc, lookup_app_r; rewrite length_raw_snoc; unfold zlen; [|lia].
    rewrite <- Hv. f_equal. lia. }
  destruct Hwf as [Hok Hgap].
  assert (range_ok prev = true /\ range_ok cur = true) as [Hp Hcu].
  { rewrite !Forall_app, !List.Forall_cons_iff in Hok. tauto. }
  assert (r_hi cur + 2 <= r_lo prev) as Hg.
  { apply (Hgap (length done)).
    - by rewrite lookup_app_r, Nat.sub_diag by lia.
    - rewrite lookup_app_r by lia. by replace (S (length done) - length done)%nat with 1%nat by lia. }
  unfold range_ok, VARINT_MAX in Hp, Hcu.
  replace (2 * (zlen done + 1) - 1) with (2 * zlen done + 1 + Z.of_nat 0) by lia.
  rewrite (Hload O (r_lo prev - r_hi cur - 2)) by done. osimpl.
  replace (2 * (zlen done + 1)) with (2 * zlen done + 1 + Z.of_nat 1) by lia.
  rewrite (Hload 1%nat (r_hi cur - r_lo cur)) by done. osimpl.
  replace (r_lo prev - (r_lo prev - r_hi cur - 2) - 2) with (r_hi cur) by lia. nowrap.
  replace (r_hi cur - (r_hi cur - r_lo cur)) with (r_lo cur) by lia. nowrap.
  rewrite store_in by lia. osimpl.
  replace (mk_range (r_hi cur) (r_lo cur)) with cur by (by destruct cur).
  assert (<[Z.to_nat (zlen done + 1):=cur]> (splice ranges 0 (done ++ [prev]))
          = splice ranges 0 ((done ++ [prev]) ++ [cur])) as ->.
  { assert (0 + zlen (done ++ [prev]) = zlen done + 1) as Ez by zl.
    rewrite <- (splice_app _ _ (done ++ [prev])), Ez by lia. apply splice_one. lia. }
  replace (zlen done + 1 + 1) with (zlen (done ++ [prev]) + 1) by zl.
  rewrite (IH (done ++ [prev]) cur k).
  - by rewrite <- app_assoc.
  - intros i v. rewrite <- app_assoc. apply Hraw.
  - rewrite <- app_assoc. done.
  - cbn in Hk. lia.
  - rewrite zlen_app. change (zlen [prev]) with 1. lia.
Qed.

Lemma conv_spec r0 rs raw k f :
  (forall i v, (raw_from None (r0 :: rs)) !! i = Some v -> raw !! i = Some v) ->
  ranges_wf (r0 :: rs) -> 1 <= k <= ACK_MAX_RANGES -> k <= zlen (r0 :: rs) ->
  zlen (af_ranges f) = ACK_MAX_RANGES ->
  ackrangeconv_to_frame (r_hi r0) raw (2 * k - 1) f =
    Some (1, set_ranges f k (splice (af_ranges f) 0 (take (Z.to_nat k) (r0 :: rs)))).
Proof.
  intros Hraw Hwf Hk Hkl Hz. unfold ackrangeconv_to_frame, raw_ok, raw_layout_ok, range_count_ok.
  assert ((2 * k - 1 - 1) / 2 = k - 1) as -> by (replace (2 * k - 1 - 1) with ((k - 1) * 2) by lia; apply Z.div_mul; lia).
  assert ((2 * k - 1) mod 2 = 1) as ->.
  { replace (2 * k - 1) with (1 + (k - 1) * 2) by lia. by rewrite Z.mod_add. }
  unfold ACK_MAX_RANGES in *.
  replace (1 <=? 2 * k - 1) with true by lia. replace (k - 1 + 1 <=? 32) with true by lia. cbn [negb andb Z.eqb Pos.eqb].
  assert (load raw 0 = Some (r_hi r0 - r_lo r0)) as -> by (by apply (Hraw O)). osimpl.
  unfold conv_first. pose proof Hwf as [Hok _]. apply List.Forall_cons_iff in Hok as [Hr0 _].
  unfold range_ok, VARINT_MAX in Hr0. replace (r_hi r0 - (r_hi r0 - r_lo r0)) with (r_lo r0) by lia.
  nowrap. rewrite store_in by lia. osimpl.
  replace (mk_range (r_hi r0) (r_lo r0)) with r0 by (by destruct r0).
  rewrite (splice_one (af_ranges f) 0 r0) by lia. change [r0] with ([] ++ [r0]) at 1.
  pose proof (zlen_cons r0 rs). rewrite (conv_all_pairs_spec raw (af_ranges f) rs [] r0).
  - osimpl. cbn [app]. replace (k - 1 + 1) with k by lia. do 4 f_equal.
    by replace (Z.to_nat k) with (S (Z.to_nat (k - 1))) by lia.
  - done.
  - done.
  - unfold zlen in *. lia.
  - change (zlen []) with 0. lia.
Qed.

(** ** collect_pns lists the window in ascending order *)

Fixpoint asc_window (r : recvpn) (d : nat) : list Z :=
  match d with
  | O => []
  | S d' =>
      let pn := u64 (rp_largest r - Z.of_nat d) in
      (if negb (recvpn_seen r pn =? 0) then [pn] else []) ++ asc_window r d'
  end.

Lemma collect_loop_spec r d : forall out n,
  0 <= n -> n + Z.of_nat d <= zlen out ->
  collect_loop r d out n = Some (splice out n (asc_window r d), n + zlen (asc_window r d)) /\
  zlen (asc_window r d) <= Z.of_nat d.
Proof.
  induction d as [|d IH]; intros out n Hn Ho; cbn [collect_loop asc_window].
  { rewrite splice_nil. split; [do 2 f_equal|]; zl. }
  destruct (negb _); cbn [app].
  - rewrite store_in by lia. osimpl.
    destruct (IH (<[Z.to_nat n := u64 (rp_largest r - Z.of_nat (S d))]> out) (n + 1)) as [-> ?];
      [lia|rewrite zlen_insert; lia|].
    rewrite splice_cons_store, zlen_cons by lia. split; [do 2 f_equal|]; lia.
  - destruct (IH out n) as [-> ?]; [lia|lia|]. split; [done|lia].
Qed.

Lemma asc_window_spec h r d :
  recv_inv h r -> (d <= 64)%nat ->
  desc (rp_largest r) (rev (asc_window r d)) /\
  forall pn, pn ∈ rev (asc_window r d) <-> pn ∈ h /\ rp_largest r - Z.of_nat d <= pn < rp_largest r.
Proof.
  intros Hinv. induction d as [|d IH]; intros Hd; cbn [asc_window].
  { split; [done|]. intros pn. cbn. rewrite elem_of_nil. split; [done|lia]. }
  destruct (IH ltac:(lia)) as [Hdesc Hin]. clear IH. set (L := rp_largest r) in *.
  pose proof (ri_largest _ _ Hinv) as HL. fold L in HL. unfold is_u64 in HL.
  set (pn := u64 (L - Z.of_nat (S d))).
  assert (is_u64 pn) as Hpn by apply u64_range.
  rewrite rev_app_distr.
  destruct (recvpn_seen_spec h r pn Hinv Hpn) as [(-> & Hh & Hw)|(-> & Hno)];
    cbn [Z.eqb negb rev app].
  - pose proof (ri_max _ _ Hinv _ Hh) as Hm. fold L in Hm.
    assert (pn = L - Z.of_nat (S d)) as Epn.
    { unfold pn, u64 in *. destruct (Z_lt_ge_dec L (Z.of_nat (S d))); [|apply Z.mod_small; lia].
      exfalso. unfold is_u64 in *. assert (L - Z.of_nat (S d) + 1 * 18446744073709551616 <= L).
      { rewrite <- (Z.mod_small (_ + 1 * _) 18446744073709551616), Z.mod_add by lia. lia. }
      lia. }
    split.
    + apply desc_snoc; [done|lia|]. intros y Hy. apply Hin in Hy. lia.
    + intros q. rewrite elem_of_app, Hin, list_elem_of_singleton. split.
      * intros [[? ?]| ->]; [split; [done|lia]|split; [done|lia]].
      * intros [? ?]. destruct (Z.eq_dec q pn); [by right|left; split; [done|lia]].
  - rewrite app_nil_r. split; [done|]. intros q. rewrite Hin. split; [intros [? ?]; split; [done|lia]|].
    intros [Hq ?]. split; [done|]. destruct (Z.eq_dec q (L - Z.of_nat (S d))) as [->|]; [|lia].
    exfalso. apply Hno. pose proof (ri_max _ _ Hinv _ Hq). unfold pn. nowrap. split; [done|].
    unfold RECVPN_WINDOW. fold L. lia.
Qed.

(** The descending list of the received numbers below the largest that are
    still in the window. *)
Definition window_below (r : recvpn) : list Z := rev (asc_window r 64).

Lemma collect_pns_spec r out :
  zlen out = PNSPACES_ACK_CAP ->
  exists out' n, collect_pns r out = Some (out', n) /\
    take (Z.to_nat n) out' = rev (rp_largest r :: window_below r).
Proof.
  intros Ho. unfold collect_pns. change PNSPACES_ACK_CAP with 65 in Ho.
  change (Z.to_nat RECVPN_WINDOW) with 64%nat.
  destruct (collect_loop_spec r 64 out 0) as [-> Hl]; [lia|lia|]. osimpl.
  set (w := asc_window r 64) in *. pose proof (zlen_nonneg w).
  assert (zlen (splice out 0 w) = 65) by (rewrite zlen_splice; lia).
  rewrite store_in by lia. osimpl. do 2 eexists. split; [reflexivity|].
  rewrite splice_one, splice_app by lia.
  replace (0 + zlen w + 1) with (0 + zlen (w ++ [rp_largest r])) by zl.
  rewrite splice_take by (lia || zl). unfold window_below. cbn [rev]. by rewrite rev_involutive.
Qed.

(** ** app_ack_prune *)

Lemma ranges_wf_ok rs i r : ranges_wf rs -> rs !! i = Some r -> range_ok r = true.
Proof. intros [Hf _] Hi. rewrite Forall_lookup in Hf. by apply (Hf i). Qed.

Lemma ranges_wf_order rs i a : forall k b,
  ranges_wf rs -> rs !! i = Some a -> rs !! (i + k)%nat = Some b ->
  r_hi b + 2 * Z.of_nat k <= r_hi a /\ (k <> O -> r_hi b + 2 <= r_lo a).
Proof.
  intros k. induction k as [|k IH]; intros b Hwf Ha Hb.
  { rewrite Nat.add_0_r in Hb. simplify_eq. lia. }
  destruct (lookup_lt_is_Some_2 rs (i + k)) as [c Hc].
  { apply lookup_lt_Some in Hb. lia. }
  destruct (IH c Hwf Ha Hc) as [H1 H2]. replace (i + S k)%nat with (S (i + k)) in Hb by lia.
  pose proof (proj2 Hwf _ _ _ Hc Hb). pose proof (ranges_wf_ok _ _ _ Hwf Hc) as Hok. unfold range_ok in Hok.
  split; [lia|]. intros _. destruct k as [|k]; [|specialize (H2 ltac:(done)); lia].
  rewrite Nat.add_0_r in Hc. simplify_eq. lia.
Qed.

Lemma ranges_wf_take n rs : ranges_wf rs -> ranges_wf (take n rs).
Proof.
  intros [Hf Hg]. split; [by apply Forall_take|].
  intros i a b Ha Hb. apply lookup_take_Some in Ha as [Ha _], Hb as [Hb _]. eauto.
Qed.

Lemma acks_lookup rs pn : acks rs pn <-> exists i r, rs !! i = Some r /\ r_lo r <= pn <= r_hi r.
Proof.
  unfold acks. split.
  - intros (r & [i Hi]%list_elem_of_lookup & ?). eauto.
  - intros (i & r & Hi & ?). exists r. split; [|done]. apply list_elem_of_lookup. eauto.
Qed.

Lemma used_load f i r :
  ack_used f !! Z.to_nat i = Some r -> 0 <= i -> load (af_ranges f) i = Some r /\ i < af_n_ranges f.
Proof.
  unfold ack_used, load. intros [Hr ?]%lookup_take_Some Hi. bcases. split; [done|lia].
Qed.

Lemma kept_loop_spec f floor1 fuel : forall n,
  1 <= n <= af_n_ranges f -> af_n_ranges f - n < Z.of_nat fuel ->
  zlen (ack_used f) = af_n_ranges f -> af_n_ranges f <= ACK_MAX_RANGES ->
  (forall j r, (1 <= j < Z.to_nat n)%nat -> ack_used f !! j = Some r -> floor1 <= r_hi r) ->
  exists k, app_ack_kept_loop fuel f floor1 n = Some k /\ 1 <= k <= af_n_ranges f /\
    (forall j r, (1 <= j < Z.to_nat k)%nat -> ack_used f !! j = Some r -> floor1 <= r_hi r) /\
    (forall r, ack_used f !! Z.to_nat k = Some r -> r_hi r < floor1).
Proof.
  induction fuel as [|fuel IH]; intros n Hn Hfu Hz Hmax Hlow; [lia|].
  unfold ACK_MAX_RANGES in Hmax. cbn [app_ack_kept_loop]. destruct (n <? af_n_ranges f) eqn:E.
  - destruct (lookup_lt_is_Some_2 (ack_used f) (Z.to_nat n)) as [r Hr]; [unfold zlen in Hz; lia|].
    destruct (used_load f n r Hr) as [-> _]; [lia|]. osimpl.
    destruct (floor1 <=? r_hi r) eqn:E2.
    + nowrap. apply IH; [lia|lia|done|done|]. intros j q Hj Hq.
      destruct (decide (j = Z.to_nat n)) as [->|]; [simplify_eq; lia|]. apply (Hlow j); [lia|done].
    + exists n. split_and!; try done; try lia. intros q Hq. simplify_eq. lia.
  - exists n. split_and!; try done; try lia. intros q Hq. apply lookup_lt_Some in Hq. unfold zlen in Hz. lia.
Qed.

Record prune_ok (floor1 : Z) (f f' : ack_frame) : Prop := {
  po_wf : ranges_wf (ack_used f');
  po_n : 1 <= af_n_ranges f' <= af_n_ranges f;
  po_len : zlen (af_ranges f') = zlen (af_ranges f);
  po_head : r_hi <$> head (ack_used f') = r_hi <$> head (ack_used f);
  po_sound : forall pn, acks (ack_used f') pn -> acks (ack_used f) pn;
  po_complete : forall pn, floor1 <= pn -> acks (ack_used f) pn -> acks (ack_used f') pn;
  po_rest : af_has_ecn f' = af_has_ecn f /\ af_ect0 f' = af_ect0 f /\ af_ect1 f' = af_ect1 f /\
            af_ce f' = af_ce f }.

(** Keeping the first [k] ranges, the last one clipped at the floor. *)
Lemma prune_used floor1 u k last :
  ranges_wf u -> u !! k = Some last ->
  (forall j r, (1 <= j <= k)%nat -> u !! j = Some r -> floor1 <= r_hi r) ->
  (forall r, u !! S k = Some r -> r_hi r < floor1) ->
  let lo := if (r_lo last <? floor1) && (floor1 <=? r_hi last) then floor1 else r_lo last in
  let u' := take k u ++ [mk_range (r_hi last) lo] in
  ranges_wf u' /\ r_hi <$> head u' = r_hi <$> head u /\
  (forall pn, acks u' pn -> acks u pn) /\ (forall pn, floor1 <= pn -> acks u pn -> acks u' pn).
Proof.
  intros Hwf Hk Hkept Hcut lo u'.
  pose proof (ranges_wf_ok _ _ _ Hwf Hk) as Hok. unfold range_ok in Hok.
  assert (r_lo last <= lo <= r_hi last) as Hlo by (unfold lo; bcase; lia).
  pose proof (lookup_lt_Some _ _ _ Hk) as Hlt.
  split_and!.
  - apply ranges_wf_snoc; [by apply ranges_wf_take|unfold range_ok; cbn; lia|].
    rewrite length_take_le by lia. intros a Ha. cbn.
    destruct k as [|k]; [done|]. replace (S k - 1)%nat with k in Ha by lia.
    apply lookup_take_Some in Ha as [Ha _]. exact (proj2 Hwf _ _ _ Ha Hk).
  - unfold u'. destruct k as [|k], u as [|r u0]; try done. cbn in *. by simplify_eq.
  - intros pn (i & r & Hi & Hr)%acks_lookup. apply acks_lookup. unfold u' in Hi.
    apply lookup_app_Some in Hi as [[Hi _]%lookup_take_Some|[Hge Hi]]; [eauto|].
    rewrite list_lookup_singleton in Hi. destruct (i - _)%nat; [|done]. simplify_eq/=.
    exists k, last. split; [done|]. lia.
  - intros pn Hpn (i & r & Hi & Hr)%acks_lookup. apply acks_lookup. unfold u'.
    destruct (decide (i < k)%nat).
    { exists i, r. split; [|done]. rewrite lookup_app_l by (rewrite length_take; lia).
      by rewrite lookup_take_lt by lia. }
    destruct (decide (i = k)) as [->|].
    { exists k. simplify_eq. eexists. rewrite lookup_app_r by (rewrite length_take; lia).
      rewrite length_take_le, Nat.sub_diag by lia. split; [done|]. cbn. unfold lo. bcase; lia. }
    exfalso. destruct (lookup_lt_is_Some_2 u (S k)) as [c Hc]; [apply lookup_lt_Some in Hi; lia|].
    specialize (Hcut c Hc).
    destruct (ranges_wf_order u (S k) c (i - S k) r Hwf Hc) as [? _];
      [by replace (S k + (i - S k))%nat with i by lia|]. lia.
Qed.

Lemma prune_spec floor1 f :
  ranges_wf (ack_used f) -> 1 <= af_n_ranges f <= ACK_MAX_RANGES -> zlen (af_ranges f) = ACK_MAX_RANGES ->
  exists f', app_ack_prune f floor1 = Some f' /\ prune_ok floor1 f f'.
Proof.
  intros Hwf Hn Hz.
  assert (zlen (ack_used f) = af_n_ranges f) as Hu by (unfold ack_used; apply zlen_take; lia).
  unfold app_ack_prune, app_ack_kept.
  destruct (kept_loop_spec f floor1 (Z.to_nat (af_n_ranges f)) 1) as (k & -> & Hk & Hkept & Hcut);
    [lia|lia|done|lia|intros; lia|].
  osimpl. unfold ACK_MAX_RANGES in *. nowrap.
  destruct (lookup_lt_is_Some_2 (ack_used f) (Z.to_nat (k - 1))) as [last Hl]; [unfold zlen in Hu; lia|].
  destruct (used_load f (k - 1) last Hl) as [-> _]; [lia|]. osimpl.
  destruct (prune_used floor1 (ack_used f) (Z.to_nat (k - 1)) last) as (W1 & W2 & W3 & W4); try done.
  { intros j r Hj. apply Hkept. lia. }
  { by replace (S (Z.to_nat (k - 1))) with (Z.to_nat k) by lia. }
  set (b := (r_lo last <? floor1) && (floor1 <=? r_hi last)) in *.
  set (lo := if b then floor1 else r_lo last) in *.
  assert (exists rs', (if b then rs ← store (af_ranges f) (k - 1) (mk_range (r_hi last) floor1);
              Some (set_ranges f k rs) else Some (set_ranges f k (af_ranges f))) = Some (set_ranges f k rs') /\
            zlen rs' = zlen (af_ranges f) /\
            take (Z.to_nat k) rs' = take (Z.to_nat (k - 1)) (ack_used f) ++ [mk_range (r_hi last) lo])
    as (rs' & -> & Hz' & Ht).
  { unfold lo. unfold ack_used in Hl |- *. apply lookup_take_Some in Hl as [Hl _].
    rewrite take_take, Nat.min_l by lia. replace (Z.to_nat k) with (S (Z.to_nat (k - 1))) by lia.
    destruct b.
    - rewrite store_in by lia. osimpl. eexists. split; [done|]. rewrite zlen_insert. split; [done|].
      erewrite take_S_r by (apply list_lookup_insert_eq; unfold zlen in Hz; lia).
      by rewrite take_insert_ge by lia.
    - eexists. split; [done|]. split; [done|]. rewrite (take_S_r _ _ _ Hl). by destruct last. }
  exists (set_ranges f k rs'). split; [done|].
  assert (ack_used (set_ranges f k rs') = take (Z.to_nat (k - 1)) (ack_used f) ++ [mk_range (r_hi last) lo]) as Hu'
    by (unfold ack_used at 1; exact Ht).
  split; rewrite ?Hu'; try done.
Qed.

(** ** The frame of the 1-RTT space *)

(** Every number the window still covers, from 63 below the largest up, is in
    one of the first 32 runs. *)
Lemma first_32_runs top below pn :
  0 <= top <= VARINT_MAX -> desc top below ->
  acks (runs top top below) pn -> top - 63 <= pn -> acks (take 32 (runs top top below)) pn.
Proof.
  intros Ht Hd (i & r & Hi & Hr)%acks_lookup Hpn. apply acks_lookup. exists i, r. split; [|done].
  pose proof (runs_wf top top below ltac:(lia) ltac:(lia) Hd) as Hwf.
  destruct (runs_head top top below) as (lo & rest & E). rewrite E in *.
  destruct (ranges_wf_order _ O (mk_range top lo) i r Hwf eq_refl Hi) as [Ho _]. cbn in Ho.
  rewrite lookup_take_lt by lia. done.
Qed.

Lemma window_runs h r :
  recv_inv h r -> rp_largest r <= VARINT_MAX ->
  let rs := runs (rp_largest r) (rp_largest r) (window_below r) in
  desc (rp_largest r) (window_below r) /\ ranges_wf rs /\ 1 <= zlen rs <= 33 /\
  (rp_any r <> 0 -> forall pn, acks rs pn <-> pn ∈ h /\ rp_largest r - 64 <= pn).
Proof.
  intros Hinv Hmax rs. destruct (asc_window_spec h r 64 Hinv ltac:(lia)) as [Hd Hin].
  fold (window_below r) in Hd, Hin. pose proof (ri_largest _ _ Hinv) as HL. unfold is_u64 in HL.
  split_and!; [done|apply runs_wf; (done || lia)| | |].
  - unfold rs. destruct (runs_head (rp_largest r) (rp_largest r) (window_below r)) as (lo & tl & ->).
    rewrite zlen_cons. pose proof (zlen_nonneg tl). lia.
  - pose proof (runs_length (rp_largest r) (rp_largest r) (window_below r) (rp_largest r - 64)
      ltac:(lia) Hd ltac:(intros x Hx; apply Hin in Hx; lia)) as Hl. fold rs in Hl. lia.
  - intros Ha pn. unfold rs. rewrite runs_acks by (done || lia). rewrite Hin. split.
    + intros [?|[? ?]]; [|split; [done|lia]].
      assert (pn = rp_largest r) as -> by lia. split; [by apply (ri_top _ _ Hinv)|lia].
    + intros [Hp ?]. pose proof (ri_max _ _ Hinv _ Hp).
      destruct (Z.eq_dec pn (rp_largest r)); [left; lia|right; split; [done|lia]].
Qed.

(** What the builder and the converter make of the receive window. *)
Lemma window_frame s sp r h largest0 raw0 f :
  load (pr_r s) (pns_idx sp) = Some r -> recv_inv h r -> rp_any r <> 0 -> rp_largest r <= VARINT_MAX ->
  zlen raw0 = 2 * ACK_MAX_RANGES + 1 -> zlen (af_ranges f) = ACK_MAX_RANGES ->
  exists o f', pnspaces_ack_ranges s sp largest0 (mk_u64obuf raw0 (2 * ACK_MAX_RANGES + 1) 0)
      = Some (1, rp_largest r, o) /\
    ackrangeconv_to_frame (rp_largest r) (uo_p o) (u64_min (uo_len o) (2 * ACK_MAX_RANGES - 1)) f
      = Some (1, f') /\
    ack_used f' = take 32 (runs (rp_largest r) (rp_largest r) (window_below r)) /\
    1 <= af_n_ranges f' <= ACK_MAX_RANGES /\ zlen (af_ranges f') = ACK_MAX_RANGES /\
    f' = set_ranges f (af_n_ranges f') (af_ranges f').
Proof.
  intros Hr Hinv Ha Hmax Hraw Hz. unfold pnspaces_ack_ranges. rewrite Hr. osimpl.
  replace (rp_any r =? 0) with false by lia.
  destruct (collect_pns_spec r (replicate (Z.to_nat PNSPACES_ACK_CAP) 0)) as (out & n & -> & Ht);
    [reflexivity|]. osimpl. rewrite Ht.
  destruct (window_runs h r Hinv Hmax) as (Hd & Hwf & Hlen & _).
  set (rs := runs (rp_largest r) (rp_largest r) (window_below r)) in *.
  pose proof (ri_largest _ _ Hinv) as HL. unfold is_u64, ACK_MAX_RANGES in *. change (2 * 32 + 1) with 65 in *.
  assert (zlen (raw_from None rs) = 2 * zlen rs - 1) as Hrl.
  { rewrite zlen_raw_from. destruct rs; [change (zlen []) with 0 in Hlen; lia|done]. }
  destruct (build_ranges_spec (rp_largest r) (window_below r) largest0 (mk_u64obuf raw0 65 0))
    as [[Hfit ->]|[Hno _]]; cbn [uo_cap uo_p] in *; try done; try lia;
    [|fold rs in Hno; lia].
  destruct (runs_head (rp_largest r) (rp_largest r) (window_below r)) as (lo & tl & E).
  fold rs in E, Hfit |- *. clearbody rs. subst rs. set (r0 := mk_range (rp_largest r) lo) in *.
  set (k := Z.min (zlen (r0 :: tl)) 32).
  do 2 eexists. split; [reflexivity|]. cbn [uo_p uo_len]. rewrite u64_min_spec.
  replace (Z.min (zlen (raw_from None (r0 :: tl))) (2 * 32 - 1)) with (2 * k - 1) by lia.
  change (rp_largest r) with (r_hi r0).
  rewrite (conv_spec r0 tl) ; try done; unfold ACK_MAX_RANGES; try lia.
  - split; [reflexivity|]. unfold ack_used. cbn [set_ranges af_n_ranges af_ranges].
    split_and!; try lia.
    + rewrite splice_0, take_app_le by (rewrite length_take; unfold k, zlen; lia).
      rewrite take_take, Nat.min_id. unfold k, zlen.
      destruct (decide (length (r0 :: tl) <= 32)%nat).
      * rewrite !take_ge by lia. done.
      * f_equal. lia.
    + rewrite zlen_splice; [done|lia|]. unfold zlen at 1. rewrite length_take. unfold k, zlen in *. lia.
    + done.
  - intros i v Hv. by rewrite splice_0, lookup_app_l by (by eapply lookup_lt_Some).
Qed.

(** The varints of a well-formed frame all fit, and take at most 8 bytes each. *)
Lemma pairs_wire_total rs : forall prev,
  ranges_wf rs -> prev <= VARINT_MAX -> (forall b, head rs = Some b -> r_hi b + 2 <= prev) ->
  exists l, pairs_wire prev rs = Some l /\ zlen l <= 16 * zlen rs.
Proof.
  induction rs as [|r rs IH]; intros prev Hwf Hp Hh.
  { exists []. split; [done|zl]. }
  apply ranges_wf_cons in Hwf as (Hr & Hwf & Hb). unfold range_ok in Hr.
  specialize (Hh r eq_refl). destruct (IH (r_lo r) Hwf ltac:(lia) Hb) as (l & E & Hl).
  cbn [pairs_wire]. replace (r_hi r + 2 <=? prev) with true by lia.
  replace (r_lo r <=? r_hi r) with true by lia. cbn [andb]. rewrite E. unfold ocat, varint_wire.
  replace (prev - r_hi r - 2 <=? VARINT_MAX) with true by lia.
  replace (r_hi r - r_lo r <=? VARINT_MAX) with true by lia. cbn [foldr oapp].
  eexists. split; [reflexivity|]. rewrite zlen_cons, !zlen_app. change (zlen []) with 0.
  pose proof (varint_bytes_pos (prev - r_hi r - 2)). pose proof (varint_bytes_pos (r_hi r - r_lo r)). lia.
Qed.

Lemma ecn_wire_total f :
  af_ect0 f <= VARINT_MAX -> af_ect1 f <= VARINT_MAX -> af_ce f <= VARINT_MAX ->
  exists l, ecn_wire f = Some l /\ zlen l <= 24.
Proof.
  intros H0 H1 H2. unfold ecn_wire, ocat, varint_wire. bcase; [exists []; split; [done|zl]|].
  replace (af_ect0 f <=? _) with true by lia. replace (af_ect1 f <=? _) with true by lia.
  replace (af_ce f <=? _) with true by lia. cbn [foldr oapp]. eexists. split; [reflexivity|].
  rewrite !zlen_app. change (zlen []) with 0.
  pose proof (varint_bytes_pos (af_ect0 f)). pose proof (varint_bytes_pos (af_ect1 f)).
  pose proof (varint_bytes_pos (af_ce f)). lia.
Qed.

Lemma ack_wire_total f :
  ranges_wf (ack_used f) -> 1 <= zlen (ack_used f) <= ACK_MAX_RANGES -> af_ack_delay f <= VARINT_MAX ->
  af_ect0 f <= VARINT_MAX -> af_ect1 f <= VARINT_MAX -> af_ce f <= VARINT_MAX ->
  exists l, ack_wire f = Some l /\ zlen l <= 576.
Proof.
  unfold ack_wire, ACK_MAX_RANGES. intros Hwf Hl Hd H0 H1 H2.
  destruct (ack_used f) as [|r0 rs]; [change (zlen []) with 0 in Hl; lia|].
  apply ranges_wf_cons in Hwf as (Hr & Hwf & Hb). unfold range_ok in Hr.
  destruct (pairs_wire_total rs (r_lo r0) Hwf ltac:(lia) Hb) as (lp & Ep & Hlp).
  destruct (ecn_wire_total f H0 H1 H2) as (le & Ee & Hle). rewrite zlen_cons in Hl.
  replace (r_lo r0 <=? r_hi r0) with true by lia. rewrite Ep, Ee.
  set (t := if af_has_ecn f =? 0 then 2 else 3).
  assert (t <= VARINT_MAX) by (unfold t, VARINT_MAX; bcase; lia).
  assert (zlen rs <= VARINT_MAX) by (unfold VARINT_MAX; lia).
  unfold ocat, varint_wire. replace (t <=? _) with true by lia. replace (r_hi r0 <=? _) with true by lia.
  replace (af_ack_delay f <=? _) with true by lia. replace (zlen rs <=? _) with true by lia.
  replace (r_hi r0 - r_lo r0 <=? _) with true by lia. cbn [foldr oapp]. eexists. split; [reflexivity|].
  rewrite !zlen_app. change (zlen []) with 0.
  pose proof (varint_bytes_pos t). pose proof (varint_bytes_pos (r_hi r0)).
  pose proof (varint_bytes_pos (af_ack_delay f)). pose proof (varint_bytes_pos (zlen rs)).
  pose proof (varint_bytes_pos (r_hi r0 - r_lo r0)). lia.
Qed.

Lemma set_ecn_used l f : ack_used (app_ack_set_ecn l f) = ack_used f.
Proof. unfold app_ack_set_ecn. by bcase. Qed.

Lemma set_ecn_counts l f :
  is_u64 (sl_ecn_ect0 l) /\ is_u64 (sl_ecn_ect1 l) /\ is_u64 (sl_ecn_ce l) ->
  af_ect0 f = 0 -> af_ect1 f = 0 -> af_ce f = 0 ->
  let g := app_ack_set_ecn l f in
  af_ect0 g = sl_ecn_ect0 l /\ af_ect1 g = sl_ecn_ect1 l /\ af_ce g = sl_ecn_ce l /\
  af_ack_delay g = af_ack_delay f /\ af_n_ranges g = af_n_ranges f /\ af_ranges g = af_ranges f.
Proof.
  unfold is_u64, app_ack_set_ecn, app_ack_ecn_any_seen. intros Hc E0 E1 E2. destruct (negb _) eqn:E; cbn.
  - split_and!; try done; lia.
  - done.
Qed.

(** The acknowledged set a frame should carry for history [h]. *)
Definition reports (h : list Z) (top floor1 : Z) (rs : list ack_range) : Prop :=
  ranges_wf rs /\ r_hi <$> head rs = Some top /\
  (forall pn, acks rs pn -> pn ∈ h) /\
  (forall pn, pn ∈ h -> top - 63 <= pn -> floor1 <= pn -> acks rs pn).

Lemma app_frame_spec l h top raw0 largest0 :
  load (pr_r (sl_ack_recv l)) (pns_idx PNS_APP) = Some (record_all h) ->
  Forall (fun pn => 0 <= pn <= VARINT_MAX) h -> top ∈ h -> (forall q, q ∈ h -> q <= top) ->
  zlen raw0 = 2 * ACK_MAX_RANGES + 1 ->
  is_u64 (sl_ecn_ect0 l) /\ is_u64 (sl_ecn_ect1 l) /\ is_u64 (sl_ecn_ce l) ->
  exists f, app_ack_frame l raw0 largest0 = Some (Some f) /\ ack_ok f /\
    reports h top (sl_floor1 l) (ack_used f) /\ 1 <= zlen (ack_used f) <= ACK_MAX_RANGES /\
    af_ack_delay f <= VARINT_MAX /\ af_ect0 f = sl_ecn_ect0 l /\ af_ect1 f = sl_ecn_ect1 l /\
    af_ce f = sl_ecn_ce l.
Proof.
  intros Hr Hh Htop Hmax Hraw Hecn. set (r := record_all h) in *.
  assert (recv_inv h r) as Hinv.
  { apply recv_inv_all. eapply Forall_impl; [|exact Hh]. unfold is_u64, VARINT_MAX. intros; lia. }
  assert (rp_any r <> 0) as Ha.
  { intros Ha. destruct (ri_fresh _ _ Hinv Ha) as [-> _]. by apply elem_of_nil in Htop. }
  assert (rp_largest r = top) as Et.
  { pose proof (ri_max _ _ Hinv _ Htop). pose proof (Hmax _ (ri_top _ _ Hinv Ha)). lia. }
  assert (0 <= top <= VARINT_MAX) as Htm by (apply list_elem_of_lookup in Htop as [i Hi]; exact (Forall_lookup_1 _ _ _ _ Hh Hi)).
  destruct (window_frame (sl_ack_recv l) PNS_APP r h largest0 raw0 ack_zero Hr Hinv Ha)
    as (o & f1 & E1 & E2 & Hused & Hn & Hz & Ef1); [lia|done|reflexivity|].
  destruct (window_runs h r Hinv) as (Hd & Hwf & Hlen & Hacks); [lia|]. specialize (Hacks Ha).
  rewrite Et in *. set (rs := runs top top (window_below r)) in *.
  destruct (prune_spec (sl_floor1 l) f1) as (f2 & E3 & Hpr); [rewrite Hused; by apply ranges_wf_take|done|done|].
  unfold app_ack_frame. rewrite E1. osimpl. cbn [Z.eqb]. rewrite E2. osimpl. cbn [Z.eqb]. rewrite E3. osimpl.
  destruct Hpr as [P1 P2 P3 P4 P5 P6 (P7 & P8 & P9 & P10)].
  eexists. split; [reflexivity|]. set (d := ack_delay_encode _ _). rewrite !set_ecn_used.
  assert (0 <= d <= VARINT_MAX) as Hdl.
  { unfold d, ack_delay_encode, ACK_DELAY_EXPONENT_DEFAULT. rewrite Z.shiftr_div_pow2 by lia.
    pose proof (u64_range (u64 (sl_now_ms l - ap_since_tick (sl_policy l)) * 1000)). unfold VARINT_MAX.
    change (2 ^ 3) with 8. split; [apply Z.div_pos; lia|]. apply Z.lt_succ_r, Z.div_lt_upper_bound; lia. }
  destruct (set_ecn_counts l (set_delay f2 d) Hecn) as (G0 & G1 & G2 & G3 & G4 & G5);
    [cbn; rewrite ?P8, ?P9, ?P10, Ef1; done..|].
  change (ack_used (set_delay f2 d)) with (ack_used f2).
  assert (zlen (ack_used f2) = af_n_ranges f2) as Hu2 by (unfold ack_used; apply zlen_take; lia).
  unfold reports. split_and!; try done; try lia.
  - unfold ack_ok. rewrite G0, G1, G2, G3, G4, G5, set_ecn_used. cbn [set_delay af_ranges af_n_ranges af_ack_delay].
    unfold is_u64. split_and!; try lia; try (apply Hecn). { unfold VARINT_MAX in Hdl; lia. }
    change (ack_used (set_delay f2 d)) with (ack_used f2).
    eapply Forall_impl; [|exact (proj1 P1)]. unfold range_ok. intros; cbn in *; lia.
  - rewrite P4, Hused. unfold rs. destruct (runs_head top top (window_below r)) as (lo & tl & ->). done.
  - intros pn Hpn. apply P5 in Hpn. rewrite Hused in Hpn.
    assert (acks rs pn) as Hrs.
    { apply acks_lookup in Hpn as (i & q & [Hi _]%lookup_take_Some & ?). apply acks_lookup. eauto. }
    by apply Hacks in Hrs as [? _].
  - intros pn Hin Hw Hfl. apply P6; [done|]. rewrite Hused. apply first_32_runs; [lia|done| |lia].
    apply Hacks. split; [done|lia].
  - rewrite G3. cbn. lia.
Qed.

(** The policy as a machine over its events. *)
Inductive ack_event := EvElicit (tick : Z) | EvUrgent | EvAckSent.

Definition ack_event_step (p : ackpolicy) (e : ack_event) : ackpolicy :=
  match e with
  | EvElicit t => ackpolicy_on_eliciting p t
  | EvUrgent => ackpolicy_on_urgent p
  | EvAckSent => ackpolicy_on_ack_sent p
  end.

(** The events after the last [EvAckSent], oldest first. *)
Fixpoint since_ack (acc : list ack_event) (es : list ack_event) : list ack_event :=
  match es with
  | [] => acc
  | EvAckSent :: rest => since_ack [] rest
  | e :: rest => since_ack (acc ++ [e]) rest
  end.

Definition elicit_ticks (es : list ack_event) : list Z :=
  omap (fun e => match e with EvElicit t => Some t | _ => None end) es.

Definition has_urgent (es : list ack_event) : bool :=
  existsb (fun e => match e with EvUrgent => true | _ => false end) es.

(** RFC 9000 13.2.1, 13.2.2: acknowledge when there are two unacknowledged
    ack-eliciting packets, one after an urgent mark, or one that is
    [max_ack_delay] old. *)
Definition ack_owed (es : list ack_event) (now max_ack_delay : Z) : bool :=
  match elicit_ticks es with
  | [] => false
  | [t] => has_urgent es || (max_ack_delay <=? u64 (now - t))
  | _ => true
  end.

Definition policy_of (es : list ack_event) (p : ackpolicy) : Prop :=
  ap_pending p = zlen (elicit_ticks es) /\ (ap_immediate p = if has_urgent es then 1 else 0) /\
  (forall t ts, elicit_ticks es = t :: ts -> ap_since_tick p = t).

Lemma policy_of_step es p e :
  policy_of es p -> zlen (elicit_ticks es) + 1 < 18446744073709551616 -> e <> EvAckSent ->
  policy_of (es ++ [e]) (ack_event_step p e).
Proof.
  intros (Hp & Hi & Ht) Hz He. unfold policy_of, elicit_ticks, has_urgent.
  rewrite omap_app, existsb_app. fold (elicit_ticks es). fold (has_urgent es).
  destruct e as [t| |]; cbn; [| |done].
  - pose proof (zlen_nonneg (elicit_ticks es)). rewrite Hp, Hi, orb_false_r. nowrap.
    split_and!; [zl|done|]. intros t' ts. destruct (elicit_ticks es) as [|t0 ts0] eqn:E.
    + cbn. intros [= <- <-]. done.
    + cbn [app]. rewrite zlen_cons in *. pose proof (zlen_nonneg ts0). intros [= <- _].
      replace (1 + zlen ts0 =? 0) with false by lia. eapply Ht. done.
  - rewrite app_nil_r. rewrite orb_true_r. done.
Qed.

Lemma zlen_elicit_snoc es e : zlen (elicit_ticks (es ++ [e])) <= zlen (elicit_ticks es) + 1.
Proof.
  unfold elicit_ticks. rewrite omap_app, zlen_app. destruct e; cbn; zl.
Qed.

Lemma policy_run es : forall acc p,
  policy_of acc p -> zlen (elicit_ticks acc) + zlen es < 18446744073709551616 ->
  policy_of (since_ack acc es) (foldl ack_event_step p es).
Proof.
  induction es as [|e es IH]; intros acc p Hp Hz; [done|]. rewrite zlen_cons in Hz.
  pose proof (zlen_nonneg es). pose proof (zlen_nonneg (elicit_ticks acc)).
  pose proof (zlen_elicit_snoc acc e).
  destruct e; cbn [since_ack foldl]; apply IH; try (apply policy_of_step; (done || lia)); try lia.
  - split_and!; try done.
  - cbn. change (zlen []) with 0. lia.
Qed.

Lemma policy_should_ack es p now d :
  policy_of es p -> ackpolicy_should_ack p now d = ack_owed es now d.
Proof.
  intros (Hp & Hi & Ht). unfold ackpolicy_should_ack, ack_owed, ack_at_once, delay_elapsed.
  rewrite Hp, Hi. destruct (elicit_ticks es) as [|t [|t2 ts]].
  - done.
  - rewrite (Ht t []) by done. change (zlen [t]) with 1. cbn.
    destruct (has_urgent es); done.
  - rewrite !zlen_cons. pose proof (zlen_nonneg ts). bcases.
Qed.

(** ** Properties *)

(** C8: the ACK frame of the 1-RTT space tells the peer the truth.  For any
    history of received packet numbers below 2^62, in any order and with
    repetitions, [app_ack_encode_ranges] collects, groups, prunes and encodes
    without leaving its buffers; if it writes a frame, the peer's [ack_decode]
    of the bytes accepts it in full and obtains descending, disjoint ranges
    whose first ends at the largest received number, that acknowledge only
    received packets, and that acknowledge every received packet at most 63
    below the largest and not below [floor1] (what the peer is known to
    know).  576 bytes are always enough for a frame when the ECN counts are
    below 2^62.  [srvloop_app_ack_append_if_due] writes that frame exactly when
    an ACK is due and not deferred, and then no ACK is due until the next
    ack-eliciting packet. *)
Theorem app_ack_reports_received l h top raw0 largest0 buf ranges0 :
  load (pr_r (sl_ack_recv l)) (pns_idx PNS_APP) = Some (record_all h) ->
  Forall (fun pn => 0 <= pn <= VARINT_MAX) h -> top ∈ h -> (forall q, q ∈ h -> q <= top) ->
  zlen raw0 = 2 * ACK_MAX_RANGES + 1 -> zlen ranges0 = ACK_MAX_RANGES -> zlen buf < span_max ->
  is_u64 (sl_ecn_ect0 l) /\ is_u64 (sl_ecn_ect1 l) /\ is_u64 (sl_ecn_ce l) ->
  exists n buf', app_ack_encode_ranges l raw0 largest0 buf = Some (n, buf') /\ zlen buf' = zlen buf /\
    0 <= n <= zlen buf /\
    (n <> 0 -> exists g, ack_decode ranges0 (take (Z.to_nat n) buf') = Ok (g, n) /\
       reports h top (sl_floor1 l) (ack_used g)) /\
    (576 <= zlen buf -> sl_ecn_ect0 l <= VARINT_MAX -> sl_ecn_ect1 l <= VARINT_MAX ->
     sl_ecn_ce l <= VARINT_MAX -> n <> 0) /\
    srvloop_app_ack_append_if_due l raw0 largest0 buf =
      Some (if (sl_ack_defer l =? 0) && app_ack_due l
            then (n, buf', if n =? 0 then l else wired_srvloop_ack_mark_sent l) else (0, buf, l)) /\
    app_ack_due (wired_srvloop_ack_mark_sent l) = false.
Proof.
  intros Hr Hh Htop Hmax Hraw Hz Hb Hecn.
  destruct (app_frame_spec l h top raw0 largest0) as (f & E & Hok & Hrep & Hl & Hd & E0 & E1 & E2); try done.
  assert (forall n b, app_ack_encode_ranges l raw0 largest0 buf = Some (n, b) ->
    srvloop_app_ack_append_if_due l raw0 largest0 buf =
      Some (if (sl_ack_defer l =? 0) && app_ack_due l
            then (n, b, if n =? 0 then l else wired_srvloop_ack_mark_sent l) else (0, buf, l))) as Hdue.
  { intros n b En. unfold srvloop_app_ack_append_if_due, srvloop_app_ack_append. rewrite En. osimpl.
    by destruct (sl_ack_defer l =? 0), (app_ack_due l). }
  revert Hdue. unfold app_ack_encode_ranges. rewrite E. osimpl. intros Hdue.
  destruct (ack_contract ranges0 Hz f buf Hok Hb) as [(w & Ew & Hw & Een & Hdec)|(Hno & b' & Een & Hb')];
    specialize (Hdue _ _ Een); rewrite Een.
  - do 2 eexists. split; [reflexivity|]. split; [apply zlen_splice; lia|]. split; [lia|].
    split; [|split; [lia|split; [exact Hdue|done]]].
    intros _. change (zlen w) with (0 + zlen w). rewrite splice_take by lia. cbn [app take Z.to_nat].
    destruct (Hdec []) as (g & Eg & Hs); [rewrite app_nil_r; lia|]. rewrite app_nil_r in Eg.
    exists g. split; [done|]. destruct Hs as (_ & -> & _). done.
  - pose proof (zlen_nonneg buf). do 2 eexists. split; [reflexivity|]. split; [done|]. split; [lia|]. split; [done|].
    split; [|split; [exact Hdue|done]]. intros Hbig ? ? ? _. destruct (ack_wire_total f) as (w & Ew & Hw); try lia; [apply Hrep|].
    specialize (Hno w Ew). lia.
Qed.

Definition ack_demo (h : list Z) (floor1 : Z) : srvloop_acks :=
  mk_srvloop_acks (mk_recv [recvpn_init; recvpn_init; record_all h]) (mk_ackpolicy 1 10 0) 34 floor1 0 0 0 0.

Lemma app_ack_reports_received_witness :
  let l := ack_demo [9; 3; 7; 8; 7; 1] 3 in
  exists n buf' g, app_ack_encode_ranges l (replicate 65 0) 0 (replicate 600 0) = Some (n, buf') /\ n <> 0 /\
    ack_decode (replicate 32 (mk_range 0 0)) (take (Z.to_nat n) buf') = Ok (g, n) /\
    reports [9; 3; 7; 8; 7; 1] 9 3 (ack_used g) /\
    ack_used g = [mk_range 9 7; mk_range 3 3].
Proof.
  intros l.
  destruct (app_ack_reports_received l [9; 3; 7; 8; 7; 1] 9 (replicate 65 0) 0 (replicate 600 0)
    (replicate 32 (mk_range 0 0))) as (n & b & E & _ & _ & Hd & Hbig & _).
  - reflexivity.
  - unfold VARINT_MAX. repeat constructor; lia.
  - apply elem_of_cons. by left.
  - intros q Hq. repeat (apply elem_of_cons in Hq as [->|Hq]; [lia|]). by apply elem_of_nil in Hq.
  - reflexivity.
  - reflexivity.
  - vm_compute. reflexivity.
  - unfold is_u64. cbn. lia.
  - assert (n <> 0) as Hn by (apply Hbig; vm_compute; congruence).
    destruct (Hd Hn) as (g & Eg & Hg). exists n, b, g. split; [exact E|]. split; [exact Hn|].
    split; [exact Eg|]. split; [exact Hg|].
    vm_compute in E. injection E as <- <-. vm_compute in Eg. injection Eg as <-. reflexivity.
Defined.

(** The delayed-ACK policy acknowledges exactly when RFC 9000 13.2 wants
    it to: over any sequence of ack-eliciting arrivals, urgent marks and sent
    ACKs, [ackpolicy_should_ack] is true iff, since the last ACK was sent, at
    least two ack-eliciting packets arrived, or one did and an urgent mark was
    made, or one did at least [max_ack_delay] ago; without urgent marks the
    other two formulations, [ackgen_due] and [ackgen_should_ack], give the
    same verdict. *)
Theorem ackpolicy_refines_rfc (es : list ack_event) (now d : Z) :
  zlen es < 18446744073709551616 ->
  let p := foldl ack_event_step ackpolicy_init es in
  ackpolicy_should_ack p now d = ack_owed (since_ack [] es) now d /\
  (ap_immediate p = 0 -> ap_pending p < 4294967296 ->
   ackpolicy_should_ack p now d = ackgen_due (ap_pending p) (u64 (now - ap_since_tick p)) d /\
   ackpolicy_should_ack p now d =
     ackgen_should_ack (mk_ackgen (if 1 <=? ap_pending p then 1 else 0) (if 2 <=? ap_pending p then 1 else 0)
                          (u64 (now - ap_since_tick p))) d).
Proof.
  intros Hz p. assert (policy_of (since_ack [] es) p) as Hp.
  { apply policy_run; [by split_and!|]. cbn. change (zlen []) with 0. lia. }
  split; [by apply policy_should_ack|]. intros Hi Hn.
  assert (0 <= ap_pending p) by (destruct Hp as (-> & _); apply zlen_nonneg).
  unfold ackpolicy_should_ack, ack_at_once, delay_elapsed, ackgen_due, ackgen_should_ack,
    has_outstanding, second_eliciting, delay_due. rewrite Hi. cbn [ag_eliciting_received ag_already_pending ag_since_last_ack].
  destruct (ap_pending p =? 0) eqn:E0.
  { assert (ap_pending p = 0) as -> by lia. done. }
  replace (1 <=? ap_pending p) with true by lia. destruct (2 <=? ap_pending p) eqn:E2; done.
Qed.

Lemma ackpolicy_refines_rfc_witness :
  let p := foldl ack_event_step ackpolicy_init [EvElicit 5; EvAckSent; EvElicit 10; EvUrgent] in
  ackpolicy_should_ack p 11 25 = true /\
  ackpolicy_should_ack (foldl ack_event_step ackpolicy_init [EvElicit 10]) 34 25 = false.
Proof.
  split.
  - exact (proj1 (ackpolicy_refines_rfc [EvElicit 5; EvAckSent; EvElicit 10; EvUrgent] 11 25 eq_refl)).
  - exact (proj1 (ackpolicy_refines_rfc [EvElicit 10] 34 25 eq_refl)).
Defined.
