(* ===== verification/Rtt.v ===== *)
(** * RTT estimation and the recovery timers (src/src/transport/recovery/detect)

    rtt.c, rttsample.c, rttinit.c, rttvalid.c, pto.c, ptoreset.c, probe.c,
    losstimer.c, lossdetect.c, lossdelay.c, losstime.c, largestacked.c and
    inflight.c.  Times are 64-bit microsecond counts; every sum and product is
    wrapped, and the theorems give the ranges in which nothing wraps. *)

From stdpp Require Import base numbers list option.
From Stdlib Require Import ZArith Lia.
From S2P Require Import Prelude Bytes.

(** ** rtt.c *)

(* src/src/transport/recovery/detect/recovery/rtt.h : RTT_INITIAL_US *)
Definition RTT_INITIAL_US : Z := 333000.
(* src/src/transport/recovery/detect/recovery/rtt.h : RTT_GRANULARITY *)
Definition RTT_GRANULARITY : Z := 1000.

(* src/src/transport/recovery/detect/recovery/rtt.h : rtt *)
Record rtt := mk_rtt { rt_min : Z; rt_smoothed : Z; rt_var : Z; rt_have : Z }.

(* src/src/transport/recovery/detect/recovery/rtt.c : rtt_init *)
Definition rtt_init : rtt := mk_rtt 0 RTT_INITIAL_US (RTT_INITIAL_US / 2) 0.

(* src/src/transport/recovery/detect/recovery/rtt.c : first_sample *)
Definition first_sample (latest : Z) : rtt := mk_rtt latest latest (latest / 2) 1.

(* src/src/transport/recovery/detect/recovery/rtt.c : adjust *)
Definition adjust (r : rtt) (latest ack_delay : Z) : Z :=
  if u64 (rt_min r + ack_delay) <=? latest then u64 (latest - ack_delay) else latest.

(* src/src/transport/recovery/detect/recovery/rtt.c : clamp_ack_delay *)
Definition clamp_ack_delay (ack_delay max_ack_delay handshake_confirmed : Z) : Z :=
  if negb (handshake_confirmed =? 0) then u64_min ack_delay max_ack_delay else ack_delay.

(* src/src/transport/recovery/detect/recovery/rtt.c : next_sample *)
Definition next_sample (r : rtt) (latest ack_delay : Z) : rtt :=
  let adjusted := adjust r latest ack_delay in
  let var_sample := u64_absdiff (rt_smoothed r) adjusted in
  mk_rtt (u64_min (rt_min r) latest)
    (u64 (u64 (7 * rt_smoothed r) + adjusted) / 8)
    (u64 (u64 (3 * rt_var r) + var_sample) / 4)
    (rt_have r).

(* src/src/transport/recovery/detect/recovery/rtt.c : rtt_sample *)
Definition rtt_sample (r : rtt) (latest_rtt ack_delay max_ack_delay handshake_confirmed : Z) : rtt :=
  let clamped := clamp_ack_delay ack_delay max_ack_delay handshake_confirmed in
  if rt_have r =? 0 then first_sample latest_rtt else next_sample r latest_rtt clamped.

(* src/src/transport/recovery/detect/recovery/rtt.c : rtt_pto *)
Definition rtt_pto (r : rtt) (max_ack_delay : Z) : Z :=
  let var := u64_max (u64 (4 * rt_var r)) RTT_GRANULARITY in
  u64 (u64 (rt_smoothed r + var) + max_ack_delay).

(* src/src/transport/recovery/detect/recovery/rtt.c : rtt_on_persistent *)
Definition rtt_on_persistent (r : rtt) (latest_rtt : Z) : rtt :=
  mk_rtt latest_rtt (rt_smoothed r) (rt_var r) (rt_have r).

(** ** The stand-alone estimator steps *)

(* src/src/transport/recovery/detect/recovery/rttsample.c : rtt_min_update *)
Definition rtt_min_update (min_rtt latest_rtt : Z) : Z := u64_min min_rtt latest_rtt.

(* src/src/transport/recovery/detect/recovery/rttsample.c : rtt_adjusted *)
Definition rtt_adjusted (latest_rtt min_rtt ack_delay : Z) : Z :=
  if u64 (min_rtt + ack_delay) <=? latest_rtt then u64 (latest_rtt - ack_delay) else latest_rtt.

(* src/src/transport/recovery/detect/recovery/rttinit.c : rtt_is_first *)
Definition rtt_is_first (have_sample : Z) : bool := have_sample =? 0.
(* src/src/transport/recovery/detect/recovery/rttinit.c : rtt_first_srtt *)
Definition rtt_first_srtt (latest_rtt : Z) : Z := latest_rtt.
(* src/src/transport/recovery/detect/recovery/rttinit.c : rtt_first_rttvar *)
Definition rtt_first_rttvar (latest_rtt : Z) : Z := latest_rtt / 2.

(* src/src/transport/recovery/detect/recovery/rttvalid.c : rtt_sample_valid *)
Definition rtt_sample_valid (largest_newly_acked was_ack_eliciting : Z) : Z :=
  if negb (largest_newly_acked =? 0) && negb (was_ack_eliciting =? 0) then 1 else 0.

(* src/src/transport/recovery/detect/recovery/rttvalid.c : rtt_sample_time *)
Definition rtt_sample_time (now sent_time : Z) : Z :=
  if sent_time <=? now then u64 (now - sent_time) else 0.

(** ** pto.c, ptoreset.c, probe.c *)

(* src/src/transport/recovery/detect/recovery/pto.h : PTO_GRANULARITY *)
Definition PTO_GRANULARITY : Z := 1000.
(* src/src/transport/recovery/detect/recovery/pto.h : PTO_BACKOFF_MAX *)
Definition PTO_BACKOFF_MAX : Z := 16.

(* src/src/transport/recovery/detect/recovery/pto.c : pto_backoff *)
Definition pto_backoff (count : Z) : Z :=
  let shift := if count <? PTO_BACKOFF_MAX then count else PTO_BACKOFF_MAX in
  u64 (Z.shiftl 1 shift).

(* src/src/transport/recovery/detect/recovery/pto.c : base_pto *)
Definition base_pto (srtt rttvar max_ack_delay : Z) : Z :=
  let var := u64_max (u64 (4 * rttvar)) PTO_GRANULARITY in
  u64 (u64 (srtt + var) + max_ack_delay).

(* src/src/transport/recovery/detect/recovery/pto.h : pto_rtt *)
Record pto_rtt := mk_pto_rtt { pt_srtt : Z; pt_rttvar : Z }.

(* src/src/transport/recovery/detect/recovery/pto.c : pto_duration *)
Definition pto_duration (r : pto_rtt) (max_ack_delay backoff_count : Z) : Z :=
  u64 (base_pto (pt_srtt r) (pt_rttvar r) max_ack_delay * pto_backoff backoff_count).

(* src/src/transport/recovery/detect/recovery/ptoreset.c : pto_should_reset *)
Definition pto_should_reset (ack_received ack_eliciting_in_flight : Z) : bool :=
  negb (ack_received =? 0) && (ack_eliciting_in_flight =? 0).

(* src/src/transport/recovery/detect/recovery/probe.c : probe_count *)
Definition probe_count (pto_fired : Z) : Z := if negb (pto_fired =? 0) then 2 else 0.

(* src/src/transport/recovery/detect/recovery/probe.c : probe_should_send *)
Definition probe_should_send (bytes_in_flight pto_expired : Z) : bool := negb (pto_expired =? 0).

(** ** losstimer.c, lossdetect.c, lossdelay.c, losstime.c *)

(* src/src/transport/recovery/detect/recovery/losstimer.c : losstimer_next *)
Definition losstimer_next (loss_time pto_time has_loss_time : Z) : Z :=
  if negb (has_loss_time =? 0) && (loss_time <? pto_time) then loss_time else pto_time.

(* src/src/transport/recovery/detect/recovery/losstimer.c : losstimer_set *)
Definition losstimer_set (ack_eliciting_in_flight : Z) : bool := negb (ack_eliciting_in_flight =? 0).

(* src/src/transport/recovery/detect/recovery/lossdetect.h : LOSS_PACKET_THRESHOLD *)
Definition LOSS_PACKET_THRESHOLD : Z := 3.
(* src/src/transport/recovery/detect/recovery/lossdetect.h : LOSS_TIME_NUM *)
Definition LOSS_TIME_NUM : Z := 9.
(* src/src/transport/recovery/detect/recovery/lossdetect.h : LOSS_TIME_DEN *)
Definition LOSS_TIME_DEN : Z := 8.

(* src/src/transport/recovery/detect/recovery/lossdetect.c : loss_by_packet *)
Definition loss_by_packet (largest_acked pn : Z) : bool :=
  u64 (pn + LOSS_PACKET_THRESHOLD) <=? largest_acked.

(* src/src/transport/recovery/detect/lossdrive/lossdelay.c : lossdrive_loss_delay *)
Definition lossdrive_loss_delay (smoothed_rtt latest_rtt granularity : Z) : Z :=
  let rtt := u64_max smoothed_rtt latest_rtt in
  let threshold := u64 (rtt * LOSS_TIME_NUM) / LOSS_TIME_DEN in
  u64_max threshold granularity.

(* src/src/transport/recovery/detect/losstime/losstime.c : losstime_threshold *)
Definition losstime_threshold (srtt latest_rtt granularity : Z) : Z :=
  lossdrive_loss_delay srtt latest_rtt granularity.

(* src/src/transport/recovery/detect/losstime/losstime.c : losstime_is_lost *)
Definition losstime_is_lost (time_sent now loss_delay : Z) : bool :=
  u64 (time_sent + loss_delay) <=? now.

(** ** largestacked.c, inflight.c *)

(* src/src/transport/recovery/detect/recovery/largestacked.c : largest_acked_update *)
Definition largest_acked_update (current new_largest : Z) : Z := u64_max current new_largest.
(* src/src/transport/recovery/detect/recovery/largestacked.c : newly_acked *)
Definition newly_acked (prev_largest pn : Z) : Z := if prev_largest <? pn then 1 else 0.

(* src/src/transport/recovery/detect/recovery/inflight.c : pkt_ack_eliciting *)
Definition pkt_ack_eliciting (has_non_ack_frame : Z) : Z := if negb (has_non_ack_frame =? 0) then 1 else 0.
(* src/src/transport/recovery/detect/recovery/inflight.c : pkt_in_flight *)
Definition pkt_in_flight (ack_eliciting has_padding : Z) : Z :=
  if negb (ack_eliciting =? 0) || negb (has_padding =? 0) then 1 else 0.
(* src/src/transport/recovery/detect/recovery/inflight.c : pkt_counts_bytes *)
Definition pkt_counts_bytes (in_flight size : Z) : Z := if negb (in_flight =? 0) then size else 0.

(** ** The estimator keeps its state between the extreme samples *)

(** One sample: latest RTT, reported ACK delay, peer's maximum, confirmed flag. *)
Record sample := mk_sample { sa_latest : Z; sa_delay : Z; sa_max : Z; sa_conf : Z }.

Definition sample_step (r : rtt) (x : sample) : rtt :=
  rtt_sample r (sa_latest x) (sa_delay x) (sa_max x) (sa_conf x).

(** The samples lie in [lo, hi], and the delay that is subtracted is one that
    a 63-bit sum holds. *)
Definition sample_in (lo hi : Z) (x : sample) : Prop :=
  lo <= sa_latest x <= hi /\
  0 <= clamp_ack_delay (sa_delay x) (sa_max x) (sa_conf x) < 9223372036854775808.

Definition rtt_inv (lo hi : Z) (r : rtt) : Prop :=
  rt_have r <> 0 -> lo <= rt_min r <= rt_smoothed r /\ rt_smoothed r <= hi /\ 0 <= rt_var r <= hi.

Lemma adjust_range lo hi r latest d :
  0 <= lo <= rt_min r -> rt_min r <= hi -> lo <= latest <= hi -> hi < 2305843009213693952 -> 0 <= d < 9223372036854775808 ->
  Z.min (rt_min r) latest <= adjust r latest d <= latest /\
  adjust r latest d = (if rt_min r + d <=? latest then latest - d else latest).
Proof. intros. unfold adjust. nowrap. bcase; nowrap; lia. Qed.

Lemma rtt_inv_sample lo hi r x :
  0 <= lo <= hi -> hi < 2305843009213693952 -> sample_in lo hi x -> rtt_inv lo hi r ->
  rtt_inv lo hi (sample_step r x) /\ rt_have (sample_step r x) <> 0.
Proof.
  intros Hlh Hhi [Hl Hd] Hr. unfold sample_step, rtt_sample. set (d := clamp_ack_delay _ _ _) in *.
  destruct (rt_have r =? 0) eqn:E.
  - cbn. split; [|lia]. intros _. cbn. pose proof (Z.div_le_upper_bound (sa_latest x) 2 hi ltac:(lia)).
    split_and!; try lia. apply Z.div_pos; lia.
  - destruct (Hr ltac:(lia)) as (H1 & H2 & H3). split; [|cbn; lia]. intros _. unfold next_sample. cbn.
    destruct (adjust_range lo hi r (sa_latest x) d) as [Ha _]; try lia.
    set (a := adjust r (sa_latest x) d) in *. rewrite u64_min_spec.
    assert (0 <= u64_absdiff (rt_smoothed r) a <= hi) as Hv.
    { unfold u64_absdiff. bcase; nowrap; lia. }
    rewrite (u64_small (7 * _)), (u64_small (3 * _)) by lia. rewrite !u64_small by lia.
    split_and!.
    + lia.
    + apply Z.div_le_lower_bound; lia.
    + apply Z.div_le_upper_bound; lia.
    + apply Z.div_pos; lia.
    + apply Z.div_le_upper_bound; lia.
Qed.

Lemma rtt_inv_run lo hi xs : forall r,
  0 <= lo <= hi -> hi < 2305843009213693952 -> Forall (sample_in lo hi) xs -> rtt_inv lo hi r ->
  rtt_inv lo hi (foldl sample_step r xs).
Proof.
  induction xs as [|x xs IH]; intros r Hlh Hhi Hx Hr; [done|]. apply Forall_cons_1 in Hx as [? ?].
  cbn. apply IH; try done. by apply rtt_inv_sample.
Qed.

(** ** Properties *)



(** The probe timeout.  For estimates whose sum stays below 2^47
    microseconds, [pto_duration] is (smoothed_rtt + max(4 rttvar, 1 ms) +
    max_ack_delay) times 2^count without overflow, at least 1 ms, doubling
    with each expiry until the sixteenth and constant from then on; without
    backoff it is [rtt_pto] of the estimator. *)
Theorem pto_doubles_without_overflow srtt rttvar mad count :
  0 <= srtt -> 0 <= rttvar -> 0 <= mad -> 0 <= count < 4294967296 ->
  srtt + 4 * rttvar + 1000 + mad < 140737488355328 ->
  let p := pto_duration (mk_pto_rtt srtt rttvar) mad in
  p count = (srtt + Z.max (4 * rttvar) 1000 + mad) * 2 ^ Z.min count 16 /\
  1000 <= p count /\
  p (count + 1) = (if count <? 16 then 2 * p count else p count) /\
  p 0 = rtt_pto (mk_rtt 0 srtt rttvar 1) mad.
Proof.
  intros Hs Hv Hm Hc Hsum p.
  assert (forall c, 0 <= c -> p c = (srtt + Z.max (4 * rttvar) 1000 + mad) * 2 ^ Z.min c 16) as Hp.
  { intros c Hc0. unfold p, pto_duration, base_pto, pto_backoff, PTO_BACKOFF_MAX, PTO_GRANULARITY. cbn [pt_srtt pt_rttvar].
    rewrite u64_max_spec. rewrite (u64_small (4 * rttvar)) by lia.
    rewrite (u64_small (srtt + _)), (u64_small (_ + mad)) by lia.
    assert ((if c <? 16 then c else 16) = Z.min c 16) as -> by (bcase; lia).
    rewrite Z.shiftl_1_l.
    assert (1 <= 2 ^ Z.min c 16 <= 2 ^ 16) as Hpw.
    { split; [apply (Z.pow_le_mono_r 2 0); lia|apply Z.pow_le_mono_r; lia]. }
    change (2 ^ 16) with 65536 in Hpw. rewrite (u64_small (2 ^ _)) by lia.
    apply u64_small. nia. }
  rewrite !Hp by lia. split_and!; [done| | |].
  - assert (1 <= 2 ^ Z.min count 16) by (apply (Z.pow_le_mono_r 2 0); lia). nia.
  - bcase.
    + replace (Z.min (count + 1) 16) with (Z.succ (Z.min count 16)) by lia. rewrite Z.pow_succ_r by lia. lia.
    + by replace (Z.min (count + 1) 16) with (Z.min count 16) by lia.
  - unfold rtt_pto, RTT_GRANULARITY. cbn [rt_var rt_smoothed]. rewrite u64_max_spec.
    rewrite (u64_small (4 * rttvar)) by lia. rewrite (u64_small (srtt + _)), (u64_small (_ + mad)) by lia. change (2 ^ Z.min 0 16) with 1. lia.
Qed.

Lemma pto_doubles_without_overflow_witness :
  pto_duration (mk_pto_rtt 100000 20000) 25000 3 = 1640000 /\
  pto_duration (mk_pto_rtt 100000 20000) 25000 16 = pto_duration (mk_pto_rtt 100000 20000) 25000 40.
Proof.
  split.
  - rewrite (proj1 (pto_doubles_without_overflow 100000 20000 25000 3 ltac:(lia) ltac:(lia) ltac:(lia) ltac:(lia) ltac:(lia))).
    reflexivity.
  - vm_compute. reflexivity.
Defined.
