(* ===== verification/SentTable.v ===== *)
(** * Sent-packet tables (src/src/transport/recovery/detect/recovery/sent.c,
    rtx/sentpkt, detect/ackrange, conn/pnspace/pnspaces/sent_spaces.c)

    Two fixed-capacity tables of sent packets: [sent] with its running
    bytes-in-flight and packet-threshold loss detection, and [sentpkt], which
    acknowledgements empty, driven by gap-encoded ranges ([ack_process]) or by
    the bytes of an ACK frame ([ackrange_process]). *)

From stdpp Require Import base numbers list option.
From Stdlib Require Import ZArith Lia.
From S2P Require Import Prelude Bytes Varint Frames Ack RecvPn AckGen.

(** ** Arrays of slots *)

(** [i = 0; while (i < CAP && cond(slot i)) i++]: the index of the first slot
    where [cond] fails, or the capacity. *)
Fixpoint scan_while {A} (cond : A -> bool) (l : list A) : Z :=
  match l with
  | [] => 0
  | x :: l' => if cond x then 1 + scan_while cond l' else 0
  end.

Fixpoint sumZ {A} (f : A -> Z) (l : list A) : Z :=
  match l with [] => 0 | x :: l' => f x + sumZ f l' end.

Section slots.
Context {A : Type}.
Implicit Types l : list A.

Lemma scan_while_spec cond l :
  0 <= scan_while cond l <= zlen l /\
  (forall j x, l !! j = Some x -> Z.of_nat j < scan_while cond l -> cond x = true) /\
  (scan_while cond l < zlen l -> exists x, load l (scan_while cond l) = Some x /\ cond x = false).
Proof.
  induction l as [|y l (IH1 & IH2 & IH3)]; cbn [scan_while].
  { change (zlen []) with 0. split_and!; try lia. }
  rewrite zlen_cons. destruct (cond y) eqn:E.
  - split_and!; try lia.
    + intros [|j] x Hx Hj; cbn in Hx; [by simplify_eq|]. eapply IH2; [done|lia].
    + intros Hlt. destruct IH3 as (x & Hx & Hc); [lia|]. exists x. split; [|done].
      rewrite load_cons_pos by lia. by replace (1 + scan_while cond l - 1) with (scan_while cond l) by lia.
  - pose proof (zlen_nonneg l). split_and!; try lia. intros _. exists y. done.
Qed.

Lemma sumZ_app f l l' : sumZ f (l ++ l') = sumZ f l + sumZ f l'.
Proof. induction l; cbn; lia. Qed.

Lemma sumZ_insert f l i x y :
  l !! i = Some x -> sumZ f (<[i := y]> l) = sumZ f l - f x + f y.
Proof.
  revert i; induction l as [|z l IH]; intros [|i] Hi; simpl in *; try done.
  - simplify_eq. lia.
  - rewrite (IH i Hi). lia.
Qed.

Lemma sumZ_ext f g l : (forall x, x ∈ l -> f x = g x) -> sumZ f l = sumZ g l.
Proof.
  induction l as [|x l IH]; intros H; cbn; [done|].
  rewrite (H x), IH; [done| |by apply elem_of_cons; left].
  intros y Hy. apply H, elem_of_cons. by right.
Qed.

Lemma sumZ_nonneg f l : (forall x, x ∈ l -> 0 <= f x) -> 0 <= sumZ f l.
Proof.
  induction l as [|x l IH]; intros H; cbn; [lia|].
  assert (0 <= f x) by (apply H, elem_of_cons; by left).
  assert (0 <= sumZ f l) by (apply IH; intros y Hy; apply H, elem_of_cons; by right). lia.
Qed.

Lemma load_lookup l i x : load l i = Some x <-> 0 <= i /\ l !! Z.to_nat i = Some x.
Proof. unfold load. bcase; split; intros H; try done; [by split; [lia|]|tauto|lia]. Qed.

Lemma load_insert_eq l i x y : load l i = Some x -> load (<[Z.to_nat i := y]> l) i = Some y.
Proof.
  rewrite !load_lookup. intros [? Hx]. split; [done|].
  apply list_lookup_insert_eq. by eapply lookup_lt_Some.
Qed.
End slots.

(** ** sent.c *)

(* src/src/transport/recovery/detect/recovery/sent.h : SENT_CAP *)
Definition SENT_CAP : Z := 256.
(* src/src/transport/recovery/detect/recovery/sent.h : PACKET_THRESHOLD *)
Definition PACKET_THRESHOLD : Z := 3.

Definition PKT_INFLIGHT : Z := 0.
Definition PKT_ACKED : Z := 1.
Definition PKT_LOST : Z := 2.

(* src/src/transport/recovery/detect/recovery/sent.h : sent_pkt *)
Record sent_pkt := mk_sent_pkt { sp_pn : Z; sp_size : Z; sp_time_sent : Z; sp_state : Z; sp_used : Z }.

(* src/src/transport/recovery/detect/recovery/sent.h : sent *)
Record sent := mk_sent {
  se_pkts : list sent_pkt; se_bytes_in_flight : Z; se_largest_acked : Z; se_have_acked : Z }.

(* src/src/transport/recovery/detect/recovery/sent.h : sent_out *)
Record sent_out := mk_sent_out { so_pn : Z; so_size : Z; so_time_sent : Z }.

Definition clear_used (p : sent_pkt) : sent_pkt :=
  mk_sent_pkt (sp_pn p) (sp_size p) (sp_time_sent p) (sp_state p) 0.

(* src/src/transport/recovery/detect/recovery/sent.c : sent_init *)
Definition sent_init (s : sent) : sent := mk_sent (clear_used <$> se_pkts s) 0 0 0.

(* src/src/transport/recovery/detect/recovery/sent.c : free_slot *)
Definition free_slot (s : sent) : Z := scan_while (fun p => negb (sp_used p =? 0)) (se_pkts s).

(* src/src/transport/recovery/detect/recovery/sent.c : sent_on_send *)
Definition sent_on_send (s : sent) (pkt : sent_out) : option (Z * sent) :=
  let i := free_slot s in
  if i =? SENT_CAP then Some (0, s)
  else
    pkts ← store (se_pkts s) i (mk_sent_pkt (so_pn pkt) (so_size pkt) (so_time_sent pkt) PKT_INFLIGHT 1);
    Some (1, mk_sent pkts (u64 (se_bytes_in_flight s + so_size pkt)) (se_largest_acked s) (se_have_acked s)).

(* src/src/transport/recovery/detect/recovery/sent.c : slot_has_pn *)
Definition slot_has_pn (pn : Z) (p : sent_pkt) : bool := negb (sp_used p =? 0) && (sp_pn p =? pn).

(* src/src/transport/recovery/detect/recovery/sent.c : find_pn *)
Definition find_pn (s : sent) (pn : Z) : Z := scan_while (fun p => negb (slot_has_pn pn p)) (se_pkts s).

(* src/src/transport/recovery/detect/recovery/sent.c : note_acked *)
Definition note_acked (s : sent) (pn : Z) : sent :=
  mk_sent (se_pkts s) (se_bytes_in_flight s)
    (if (se_have_acked s =? 0) || (se_largest_acked s <? pn) then pn else se_largest_acked s) 1.

Definition set_state (p : sent_pkt) (st : Z) : sent_pkt :=
  mk_sent_pkt (sp_pn p) (sp_size p) (sp_time_sent p) st (sp_used p).

(* src/src/transport/recovery/detect/recovery/sent.c : sent_on_ack *)
Definition sent_on_ack (s0 : sent) (pn : Z) : option (Z * sent) :=
  let i := find_pn s0 pn in
  let s := note_acked s0 pn in
  if i =? SENT_CAP then Some (0, s)
  else
    p ← load (se_pkts s) i;
    if negb (sp_state p =? PKT_INFLIGHT) then Some (0, s)
    else
      pkts ← store (se_pkts s) i (set_state p PKT_ACKED);
      Some (1, mk_sent pkts (u64 (se_bytes_in_flight s - sp_size p)) (se_largest_acked s) (se_have_acked s)).

(* src/src/transport/recovery/detect/recovery/sent.c : is_lost *)
Definition is_lost (largest_acked : Z) (p : sent_pkt) : bool :=
  negb (sp_used p =? 0) && (sp_state p =? PKT_INFLIGHT)
  && (u64 (sp_pn p + PACKET_THRESHOLD) <=? largest_acked).

(** [lose_one] on the slot of the sweep: the bytes left, the new slot. *)
(* src/src/transport/recovery/detect/recovery/sent.c : lose_one *)
Definition lose_one (bytes : Z) (p : sent_pkt) : Z * sent_pkt :=
  (u64 (bytes - sp_size p), set_state p PKT_LOST).

(** The sweep visits the slots in order; it returns the slots, the bytes left
    in flight and the number of packets lost. *)
Fixpoint sweep_loop (largest_acked : Z) (l : list sent_pkt) (bytes lost : Z) : list sent_pkt * Z * Z :=
  match l with
  | [] => ([], bytes, lost)
  | p :: l' =>
      if is_lost largest_acked p then
        let '(bytes', p') := lose_one bytes p in
        let '(r, b, n) := sweep_loop largest_acked l' bytes' (lost + 1) in (p' :: r, b, n)
      else
        let '(r, b, n) := sweep_loop largest_acked l' bytes lost in (p :: r, b, n)
  end.

(* src/src/transport/recovery/detect/recovery/sent.c : sweep_losses *)
Definition sweep_losses (s : sent) : Z * sent :=
  let '(r, b, n) := sweep_loop (se_largest_acked s) (se_pkts s) (se_bytes_in_flight s) 0 in
  (n, mk_sent r b (se_largest_acked s) (se_have_acked s)).

(* src/src/transport/recovery/detect/recovery/sent.c : sent_detect_loss *)
Definition sent_detect_loss (s : sent) : Z * sent :=
  if se_have_acked s =? 0 then (0, s) else sweep_losses s.

(** stats.c: the external view of the table. *)
(* src/src/transport/recovery/stats/stats.c : is_lost_slot *)
Definition is_lost_slot (p : sent_pkt) : bool := negb (sp_used p =? 0) && (sp_state p =? PKT_LOST).

(* src/src/transport/recovery/stats/stats.c : count_lost *)
Definition count_lost (s : sent) : Z := sumZ (fun p => if is_lost_slot p then 1 else 0) (se_pkts s).

(* src/src/transport/recovery/stats/stats.h : stats_sent *)
Record stats_sent := mk_stats_sent { ss_bytes_in_flight : Z; ss_lost : Z }.

(* src/src/transport/recovery/stats/stats.c : stats_sent_get *)
Definition stats_sent_get (s : sent) : stats_sent := mk_stats_sent (se_bytes_in_flight s) (count_lost s).

(** *** The accounting invariant *)

Definition inflight (p : sent_pkt) : bool := negb (sp_used p =? 0) && (sp_state p =? PKT_INFLIGHT).
Definition inflight_bytes (l : list sent_pkt) : Z := sumZ (fun p => if inflight p then sp_size p else 0) l.

Record sent_inv (s : sent) : Prop := {
  si_cap : zlen (se_pkts s) = SENT_CAP;
  si_bytes : se_bytes_in_flight s = u64 (inflight_bytes (se_pkts s)) }.

Lemma sent_inv_init s : zlen (se_pkts s) = SENT_CAP -> sent_inv (sent_init s).
Proof.
  intros Hc. split; cbn.
  - unfold zlen in *. by rewrite length_fmap.
  - unfold inflight_bytes. rewrite (sumZ_ext _ (fun _ => 0)).
    + by induction (clear_used <$> se_pkts s).
    + intros x Hx. apply list_elem_of_fmap in Hx as (y & -> & _). done.
Qed.

(** [sent_on_send] fills the first free slot, or refuses when there is none. *)
Lemma sent_on_send_spec s pkt :
  sent_inv s ->
  (Forall (fun p => sp_used p <> 0) (se_pkts s) /\ sent_on_send s pkt = Some (0, s)) \/
  (exists i old s', se_pkts s !! i = Some old /\ sp_used old = 0 /\ sent_on_send s pkt = Some (1, s') /\
     sent_inv s' /\ se_largest_acked s' = se_largest_acked s /\ se_have_acked s' = se_have_acked s /\
     se_pkts s' = <[i := mk_sent_pkt (so_pn pkt) (so_size pkt) (so_time_sent pkt) PKT_INFLIGHT 1]> (se_pkts s)).
Proof.
  intros [Hc Hb]. unfold sent_on_send, free_slot.
  destruct (scan_while_spec (fun p => negb (sp_used p =? 0)) (se_pkts s)) as (H1 & H2 & H3).
  set (i := scan_while _ _) in *. destruct (i =? SENT_CAP) eqn:E.
  - left. split; [|done]. apply Forall_lookup. intros j x Hx. pose proof (lookup_lt_Some _ _ _ Hx).
    specialize (H2 j x Hx). unfold zlen in *. specialize (H2 ltac:(lia)). lia.
  - right. destruct H3 as (old & Hl & Hu); [lia|]. apply load_lookup in Hl as [? Hl].
    rewrite store_in by lia. osimpl. exists (Z.to_nat i), old. eexists.
    split_and!; try done; try lia. split; cbn.
    + by rewrite zlen_insert.
    + unfold inflight_bytes. rewrite (sumZ_insert _ _ _ old) by done. rewrite Hb, u64_add_l.
      f_equal. unfold inflight_bytes, inflight. cbn. replace (sp_used old =? 0) with true by lia. cbn. lia.
Qed.

Lemma note_acked_inv s pn : sent_inv s -> sent_inv (note_acked s pn).
Proof. by intros []. Qed.

(** [sent_on_ack] moves the slot holding [pn] from in flight to acknowledged,
    once. *)
Lemma sent_on_ack_spec s pn :
  sent_inv s ->
  (exists i p s', se_pkts s !! i = Some p /\ slot_has_pn pn p = true /\ inflight p = true /\
     sent_on_ack s pn = Some (1, s') /\ sent_inv s' /\
     se_pkts s' = <[i := set_state p PKT_ACKED]> (se_pkts s) /\
     (forall j q, se_pkts s !! j = Some q -> (j < i)%nat -> slot_has_pn pn q = false)) \/
  (sent_on_ack s pn = Some (0, note_acked s pn) /\
   forall i p, se_pkts s !! i = Some p -> slot_has_pn pn p = true -> inflight p = true ->
     exists j q, (j < i)%nat /\ se_pkts s !! j = Some q /\ slot_has_pn pn q = true /\ inflight q = false).
Proof.
  intros Hinv. pose proof Hinv as [Hc Hb]. unfold sent_on_ack, find_pn.
  destruct (scan_while_spec (fun p => negb (slot_has_pn pn p)) (se_pkts s)) as (H1 & H2 & H3).
  set (i := scan_while _ _) in *. destruct (i =? SENT_CAP) eqn:E.
  - right. split; [done|]. intros j p Hj Hp. pose proof (lookup_lt_Some _ _ _ Hj).
    specialize (H2 j p Hj). unfold zlen in *. specialize (H2 ltac:(lia)). rewrite Hp in H2. done.
  - destruct H3 as (p & Hl & Hu); [lia|]. cbn [note_acked se_pkts]. rewrite Hl. osimpl.
    apply load_lookup in Hl as [? Hl]. apply negb_false_iff in Hu.
    assert (sp_used p <> 0) by (unfold slot_has_pn in Hu; lia).
    destruct (negb (sp_state p =? PKT_INFLIGHT)) eqn:Es.
    + right. split; [done|]. intros j q Hj Hq Hf. exists (Z.to_nat i), p.
      assert (j <> Z.to_nat i).
      { intros ->. simplify_eq. unfold inflight in Hf. lia. }
      assert (~ (Z.of_nat j < i)).
      { intros Hlt. specialize (H2 j q Hj Hlt). rewrite Hq in H2. done. }
      split_and!; try done; try lia. unfold inflight. lia.
    + left. rewrite store_in by lia. osimpl. exists (Z.to_nat i), p. eexists.
      split_and!; try done.
      * unfold inflight. lia.
      * split; cbn; [by rewrite zlen_insert|].
        unfold inflight_bytes. rewrite (sumZ_insert _ _ _ p) by done. rewrite Hb, u64_sub_l. f_equal.
        unfold inflight_bytes, inflight. cbn. replace (sp_used p =? 0) with false by lia.
        replace (sp_state p =? PKT_INFLIGHT) with true by lia. cbn. lia.
      * intros j q Hj Hlt. specialize (H2 j q Hj ltac:(lia)). by apply negb_true_iff in H2.
Qed.

Definition lose (la : Z) (p : sent_pkt) : sent_pkt := if is_lost la p then set_state p PKT_LOST else p.

Lemma inflight_bytes_cons p l :
  inflight_bytes (p :: l) = (if inflight p then sp_size p else 0) + inflight_bytes l.
Proof. done. Qed.

Lemma sweep_loop_spec la l : forall rest lost,
  sweep_loop la l (u64 (rest + inflight_bytes l)) lost =
    (lose la <$> l, u64 (rest + inflight_bytes (lose la <$> l)),
     lost + sumZ (fun p => if is_lost la p then 1 else 0) l).
Proof.
  induction l as [|p l IH]; intros rest lost; cbn [sweep_loop].
  { rewrite !Z.add_0_r. done. }
  rewrite fmap_cons, !inflight_bytes_cons. cbn [sumZ].
  assert (lose la p = if is_lost la p then set_state p PKT_LOST else p) as -> by done.
  destruct (is_lost la p) eqn:E.
  - assert (inflight p = true) as -> by (unfold inflight, is_lost in *; lia). unfold lose_one.
    rewrite u64_sub_l. replace (rest + (sp_size p + inflight_bytes l) - sp_size p) with (rest + inflight_bytes l) by lia.
    rewrite IH. assert (inflight (set_state p PKT_LOST) = false) as -> by (unfold inflight; cbn; lia).
    by rewrite Z.add_0_l, Z.add_assoc.
  - set (v := if inflight p then sp_size p else 0).
    rewrite !Z.add_assoc. rewrite IH. by rewrite Z.add_0_r.
Qed.

Lemma sent_detect_loss_spec s :
  sent_inv s -> se_have_acked s <> 0 ->
  let la := se_largest_acked s in
  sent_detect_loss s = (sumZ (fun p => if is_lost la p then 1 else 0) (se_pkts s),
    mk_sent (lose la <$> se_pkts s) (u64 (inflight_bytes (lose la <$> se_pkts s))) la (se_have_acked s)).
Proof.
  intros [Hc Hb] Ha la. unfold sent_detect_loss, sweep_losses. replace (se_have_acked s =? 0) with false by lia.
  fold la. rewrite Hb.
  rewrite <- (Z.add_0_l (inflight_bytes (se_pkts s))), (sweep_loop_spec la (se_pkts s) 0 0). done.
Qed.

Inductive sent_op := OpSend (o : sent_out) | OpAck (pn : Z) | OpDetect.

Definition sent_step (s : sent) (op : sent_op) : option (Z * sent) :=
  match op with
  | OpSend o => sent_on_send s o
  | OpAck pn => sent_on_ack s pn
  | OpDetect => Some (sent_detect_loss s)
  end.

Fixpoint sent_run (s : sent) (ops : list sent_op) : option sent :=
  match ops with
  | [] => Some s
  | op :: rest => '(_, s') ← sent_step s op; sent_run s' rest
  end.

Lemma sent_detect_inv s : sent_inv s -> sent_inv (sent_detect_loss s).2.
Proof.
  intros Hinv. destruct (Z.eq_dec (se_have_acked s) 0) as [E|E].
  - unfold sent_detect_loss. replace (se_have_acked s =? 0) with true by lia. done.
  - rewrite sent_detect_loss_spec by done. pose proof Hinv as [Hc _]. split; cbn [snd se_pkts se_bytes_in_flight].
    + unfold zlen in *. by rewrite length_fmap.
    + done.
Qed.

Lemma sent_step_inv s op : sent_inv s -> exists r s', sent_step s op = Some (r, s') /\ sent_inv s'.
Proof.
  intros Hinv. destruct op as [o|pn|]; cbn.
  - destruct (sent_on_send_spec s o Hinv) as [[_ ->]|(i & old & s' & _ & _ & -> & ? & _)]; eauto.
  - destruct (sent_on_ack_spec s pn Hinv) as [(i & p & s' & _ & _ & _ & -> & ? & _)|[-> _]];
      eauto using note_acked_inv.
  - pose proof (sent_detect_inv s Hinv). destruct (sent_detect_loss s) as [r s']. eauto.
Qed.

Lemma sent_run_inv ops : forall s, sent_inv s -> exists s', sent_run s ops = Some s' /\ sent_inv s'.
Proof.
  induction ops as [|op ops IH]; intros s Hs; [by exists s|]. cbn.
  destruct (sent_step_inv s op Hs) as (r & s' & -> & Hs'). osimpl. apply IH, Hs'.
Qed.

(** A packet that was acknowledged is not acknowledged again. *)
Lemma sent_on_ack_twice s pn r s1 :
  sent_inv s -> sent_on_ack s pn = Some (r, s1) -> sent_on_ack s1 pn = Some (0, note_acked s1 pn).
Proof.
  intros Hinv E.
  destruct (sent_on_ack_spec s pn Hinv) as [(i & p & s' & Hi & Hp & _ & E' & Hinv' & Hpk & Hfirst)|[E' Hno]];
    rewrite E' in E; injection E as <- <-.
  - destruct (sent_on_ack_spec s' pn Hinv') as [(j & q & s2 & Hj & Hq & Hf & _ & _ & _ & Hfirst2)|[E2 _]]; [|done].
    exfalso. rewrite Hpk in Hj, Hfirst2. pose proof (lookup_lt_Some _ _ _ Hi) as Hlt.
    destruct (decide (j = i)) as [->|Hne].
    + rewrite list_lookup_insert_eq in Hj by done. simplify_eq. unfold inflight in Hf. cbn in Hf. lia.
    + rewrite list_lookup_insert_ne in Hj by done. destruct (decide (j < i)%nat).
      * rewrite (Hfirst j q) in Hq; done.
      * assert (slot_has_pn pn (set_state p PKT_ACKED) = true) as Hp' by done.
        rewrite (Hfirst2 i (set_state p PKT_ACKED)) in Hp'; [done|by rewrite list_lookup_insert_eq|lia].
  - destruct (sent_on_ack_spec _ pn (note_acked_inv s pn Hinv)) as [(j & q & s2 & Hj & Hq & Hf & _ & _ & _ & Hfirst2)|[E2 _]]; [|done].
    cbn in Hj. destruct (Hno j q Hj Hq Hf) as (k & w & Hk & Hw & Hwp & _).
    rewrite (Hfirst2 k w) in Hwp; done.
Qed.

Lemma lose_idem la p : is_lost la (lose la p) = false.
Proof. unfold lose. destruct (is_lost la p) eqn:E; [|done]. unfold is_lost. cbn. lia. Qed.

Lemma lose_fmap_idem la (l : list sent_pkt) : lose la <$> (lose la <$> l) = lose la <$> l.
Proof.
  rewrite <- list_fmap_compose. apply list_fmap_ext. intros i p _. cbn.
  unfold lose at 1. by rewrite lose_idem.
Qed.

Lemma sum_zero {A} (f : A -> Z) l : (forall x, x ∈ l -> f x = 0) -> sumZ f l = 0.
Proof.
  intros H. rewrite (sumZ_ext f (fun _ => 0)) by done. clear H. by induction l.
Qed.

(** The sent-packet table of sent.c accounts for every byte: after any
    sequence of sends, acknowledgements and loss sweeps, no access leaves the
    256-slot array and bytes_in_flight is (modulo 2^64) the sum of the sizes
    of the packets still in flight.  From any such state a send is refused
    exactly when every slot is used; acknowledging a number a second time
    changes nothing and returns 0; a loss sweep leaves no in-flight packet at
    or beyond the packet threshold, reports as many packets as it newly
    counts lost, and a second sweep finds none. *)
Theorem sent_table_accounting (mem : sent) (ops : list sent_op) :
  zlen (se_pkts mem) = SENT_CAP ->
  exists s, sent_run (sent_init mem) ops = Some s /\
    se_bytes_in_flight s = u64 (sumZ (fun p => if inflight p then sp_size p else 0) (se_pkts s)) /\
    (forall pkt, (exists s', sent_on_send s pkt = Some (0, s')) <-> Forall (fun p => sp_used p <> 0) (se_pkts s)) /\
    (forall pn, exists r s1, sent_on_ack s pn = Some (r, s1) /\ sent_on_ack s1 pn = Some (0, note_acked s1 pn) /\
       se_pkts (note_acked s1 pn) = se_pkts s1 /\ se_bytes_in_flight (note_acked s1 pn) = se_bytes_in_flight s1) /\
    (se_have_acked s <> 0 ->
       let '(n, s1) := sent_detect_loss s in
       Forall (fun p => is_lost (se_largest_acked s1) p = false) (se_pkts s1) /\
       ss_lost (stats_sent_get s1) = ss_lost (stats_sent_get s) + n /\
       sent_detect_loss s1 = (0, s1)).
Proof.
  intros Hz. destruct (sent_run_inv ops _ (sent_inv_init mem Hz)) as (s & -> & Hinv).
  exists s. split; [done|]. split; [apply Hinv|]. split_and!.
  - intros pkt. destruct (sent_on_send_spec s pkt Hinv) as [[Hall ->]|(i & old & s' & Hi & Hu & -> & _)].
    + split; [done|eauto].
    + split; [intros (s2 & E2); by injection E2|]. intros Hall. by pose proof (Forall_lookup_1 _ _ _ _ Hall Hi).
  - intros pn. destruct (sent_step_inv s (OpAck pn) Hinv) as (r & s1 & E & _). cbn in E.
    exists r, s1. split_and!; try done. by eapply sent_on_ack_twice.
  - intros Ha. rewrite sent_detect_loss_spec by done. cbn [se_pkts se_largest_acked].
    set (la := se_largest_acked s). split_and!.
    + apply Forall_lookup. intros i p Hp. rewrite list_lookup_fmap in Hp.
      destruct (se_pkts s !! i); [|done]. simplify_eq/=. apply lose_idem.
    + unfold stats_sent_get, count_lost. cbn. induction (se_pkts s) as [|p l IH]; [done|]. cbn.
      unfold lose at 1. destruct (is_lost la p) eqn:E; [|lia].
      unfold is_lost in E. unfold is_lost_slot at 1 3. cbn.
      replace (sp_used p =? 0) with false by lia. replace (sp_state p =? PKT_LOST) with false by (unfold PKT_LOST, PKT_INFLIGHT in *; lia).
      cbn. lia.
    + rewrite sent_detect_loss_spec; cbn [se_pkts se_largest_acked se_have_acked]; [|split; cbn; [|done]|done].
      * fold la. rewrite sum_zero.
        -- by rewrite lose_fmap_idem.
        -- intros x Hx. apply list_elem_of_fmap in Hx as (y & -> & _). by rewrite lose_idem.
      * unfold zlen in *. rewrite length_fmap. apply Hinv.
Qed.

Definition sent_demo : sent := mk_sent (replicate 256 (mk_sent_pkt 0 0 0 0 1)) 9 9 9.

Lemma sent_table_accounting_witness :
  exists s, sent_run (sent_init sent_demo)
      [OpSend (mk_sent_out 0 1200 1); OpSend (mk_sent_out 1 1200 2); OpSend (mk_sent_out 5 40 3); OpAck 5; OpAck 5]
      = Some s /\ se_bytes_in_flight s = 2400 /\ (sent_detect_loss s).1 = 2 /\
    sent_detect_loss (sent_detect_loss s).2 = (0, (sent_detect_loss s).2).
Proof.
  destruct (sent_table_accounting sent_demo
    [OpSend (mk_sent_out 0 1200 1); OpSend (mk_sent_out 1 1200 2); OpSend (mk_sent_out 5 40 3); OpAck 5; OpAck 5]
    eq_refl) as (s & E & Hb & _ & _ & Hd).
  exists s. split; [exact E|]. vm_compute in E. apply (inj Some) in E as <-.
  split; [reflexivity|]. split; [reflexivity|]. specialize (Hd ltac:(vm_compute; congruence)).
  destruct (sent_detect_loss _) as [n s1]. apply Hd.
Defined.

(** ** sentpkt.c *)

(* src/src/transport/recovery/rtx/sentpkt/sentpkt.h : SENTPKT_CAP *)
Definition SENTPKT_CAP : Z := 256.
Definition SP_INFLIGHT : Z := 0.
Definition SP_ACKED : Z := 1.

(* src/src/transport/recovery/rtx/sentpkt/sentpkt.h : sentpkt_entry *)
Record sentpkt_entry := mk_sp_entry {
  spe_pn : Z; spe_time_sent : Z; spe_size : Z; spe_ack_eliciting : Z; spe_state : Z; spe_used : Z }.

(* src/src/transport/recovery/rtx/sentpkt/sentpkt.h : sentpkt *)
Record sentpkt := mk_sentpkt { spk_e : list sentpkt_entry }.

(* src/src/transport/recovery/rtx/sentpkt/sentpkt.h : sentpkt_out *)
Record sentpkt_out := mk_sp_out { spo_pn : Z; spo_time : Z; spo_ack_eliciting : Z; spo_size : Z }.

Definition spe_release (e : sentpkt_entry) (st : Z) : sentpkt_entry :=
  mk_sp_entry (spe_pn e) (spe_time_sent e) (spe_size e) (spe_ack_eliciting e) st 0.

(* src/src/transport/recovery/rtx/sentpkt/sentpkt.c : sentpkt_init *)
Definition sentpkt_init (t : sentpkt) : sentpkt :=
  mk_sentpkt ((fun e => spe_release e (spe_state e)) <$> spk_e t).

(* src/src/transport/recovery/rtx/sentpkt/sentpkt.c : sentpkt_free_slot *)
Definition sentpkt_free_slot (t : sentpkt) : Z := scan_while (fun e => negb (spe_used e =? 0)) (spk_e t).

(* src/src/transport/recovery/rtx/sentpkt/sentpkt.c : sentpkt_on_send *)
Definition sentpkt_on_send (t : sentpkt) (pkt : sentpkt_out) : option (Z * sentpkt) :=
  let i := sentpkt_free_slot t in
  if i =? SENTPKT_CAP then Some (0, t)
  else
    e ← store (spk_e t) i
          (mk_sp_entry (spo_pn pkt) (spo_time pkt) (spo_size pkt)
             (if negb (spo_ack_eliciting pkt =? 0) then 1 else 0) SP_INFLIGHT 1);
    Some (1, mk_sentpkt e).

(* src/src/transport/recovery/rtx/sentpkt/sentpkt.c : sentpkt_count *)
Definition sentpkt_count (t : sentpkt) : Z := u64 (sumZ spe_used (spk_e t)).

(** ** ack_process.c, ackrange_process.c *)

(* src/src/transport/recovery/rtx/sentpkt/ack_process.c : pn_within *)
Definition pn_within (pn lo hi : Z) : bool := (lo <=? pn) && (pn <=? hi).

(* src/src/transport/recovery/rtx/sentpkt/ack_process.c : slot_in_range *)
Definition slot_in_range (lo hi : Z) (e : sentpkt_entry) : bool :=
  negb (spe_used e =? 0) && (spe_state e =? SP_INFLIGHT) && pn_within (spe_pn e) lo hi.

(** The table, the output array and the count [*out.n]. *)
Definition ack_out : Type := sentpkt * list Z * Z.

(** [for (i = 0; i < CAP; i++) if (hit) { mark, free, append }] with [k]
    rounds left from slot [i]. *)
Fixpoint ack_range_loop (hit : sentpkt_entry -> bool) (k : nat) (i : Z) (st : ack_out) : option ack_out :=
  match k with
  | O => Some st
  | S k' =>
      let '(t, out, n) := st in
      e ← load (spk_e t) i;
      if negb (hit e) then ack_range_loop hit k' (i + 1) st
      else
        es ← store (spk_e t) i (spe_release e SP_ACKED);
        out' ← store out n (spe_pn e);
        ack_range_loop hit k' (i + 1) (mk_sentpkt es, out', u64 (n + 1))
  end.

(* src/src/transport/recovery/rtx/sentpkt/ack_process.c : ap_ack_range *)
Definition ap_ack_range (lo hi : Z) (st : ack_out) : option ack_out :=
  ack_range_loop (slot_in_range lo hi) (Z.to_nat SENTPKT_CAP) 0 st.

(* src/src/transport/recovery/rtx/sentpkt/ack_process.h : ackset *)
Record ackset := mk_ackset { as_largest : Z; as_ranges : list Z; as_n_ranges : Z }.

(** [for (i = ..; i + 1 < n_ranges; i += 2)] below a range that ends at [lo],
    each range handed to [ack_range]. *)
Fixpoint ack_pairs_loop (ack_range : Z -> Z -> ack_out -> option ack_out) (fuel : nat) (a : ackset) (i lo : Z) (st : ack_out) : option ack_out :=
  match fuel with
  | O => None
  | S fuel' =>
      if u64 (i + 1) <? as_n_ranges a then
        gap ← load (as_ranges a) i;
        len ← load (as_ranges a) (u64 (i + 1));
        let hi := u64 (lo - gap - 2) in
        let lo' := u64 (hi - len) in
        st' ← ack_range lo' hi st;
        ack_pairs_loop ack_range fuel' a (u64 (i + 2)) lo' st'
      else Some st
  end.

(** The body of [ack_process] over the routine that acknowledges one range. *)
(* src/src/transport/recovery/rtx/sentpkt/ack_process.c : ack_process *)
Definition ack_process_with (ack_range : Z -> Z -> ack_out -> option ack_out)
    (t : sentpkt) (a : ackset) (out : list Z) : option ack_out :=
  if as_n_ranges a =? 0 then Some (t, out, 0)
  else
    first ← load (as_ranges a) 0;
    let hi := as_largest a in
    let lo := u64 (hi - first) in
    st ← ack_range lo hi (t, out, 0);
    ack_pairs_loop ack_range (S (Z.to_nat (as_n_ranges a))) a 1 lo st.

(* src/src/transport/recovery/rtx/sentpkt/ack_process.c : ack_process *)
Definition ack_process : sentpkt -> ackset -> list Z -> option ack_out := ack_process_with ap_ack_range.

(* src/src/transport/recovery/detect/ackrange/ackrange_process.c : akr_pn_within *)
Definition akr_pn_within (pn lo hi : Z) : bool := (lo <=? pn) && (pn <=? hi).

(* src/src/transport/recovery/detect/ackrange/ackrange_process.c : akr_slot_in_range *)
Definition akr_slot_in_range (lo hi : Z) (e : sentpkt_entry) : bool :=
  negb (spe_used e =? 0) && (spe_state e =? SP_INFLIGHT) && akr_pn_within (spe_pn e) lo hi.

(* src/src/transport/recovery/detect/ackrange/ackrange_process.c : akr_ack_range *)
Definition akr_ack_range (lo hi : Z) (st : ack_out) : option ack_out :=
  ack_range_loop (akr_slot_in_range lo hi) (Z.to_nat SENTPKT_CAP) 0 st.

Fixpoint akr_loop (ack_range : Z -> Z -> ack_out -> option ack_out) (f : ack_frame) (k : nat) (i : Z) (st : ack_out) : option ack_out :=
  match k with
  | O => Some st
  | S k' =>
      r ← load (af_ranges f) i;
      st' ← ack_range (r_lo r) (r_hi r) st;
      akr_loop ack_range f k' (i + 1) st'
  end.

(** [ranges0] is the array of the uninitialised local frame. *)
(* src/src/transport/recovery/detect/ackrange/ackrange_process.c : ackrange_process *)
Definition ackrange_process (ranges0 : list ack_range) (t : sentpkt) (acks : list Z) (out : list Z)
    : option (Z * ack_out) :=
  match ack_decode ranges0 acks with
  | Oob => None
  | Fail => Some (0, (t, out, 0))
  | Ok (f, _) =>
      st ← akr_loop akr_ack_range f (Z.to_nat (af_n_ranges f)) 0 (t, out, 0);
      Some (1, st)
  end.

(** ** sent_spaces.c: one table per packet number space *)

(* src/src/transport/conn/pnspace/pnspaces/sent_spaces.h : pnspaces_sent *)
Record pnspaces_sent := mk_pns_sent { pss_t : list sentpkt }.

(* src/src/transport/conn/pnspace/pnspaces/sent_spaces.c : pnspaces_sent_init *)
Definition pnspaces_sent_init (s : pnspaces_sent) : pnspaces_sent := mk_pns_sent (sentpkt_init <$> pss_t s).

(* src/src/transport/conn/pnspace/pnspaces/sent_spaces.c : pnspaces_on_send *)
Definition pnspaces_on_send (s : pnspaces_sent) (space : pns_space) (pkt : sentpkt_out)
    : option (Z * pnspaces_sent) :=
  t ← load (pss_t s) (pns_idx space);
  '(r, t') ← sentpkt_on_send t pkt;
  ts ← store (pss_t s) (pns_idx space) t';
  Some (r, mk_pns_sent ts).

(* src/src/transport/conn/pnspace/pnspaces/sent_spaces.c : pnspaces_on_ack *)
Definition pnspaces_on_ack (s : pnspaces_sent) (space : pns_space) (a : ackset) (out : list Z)
    : option (pnspaces_sent * list Z * Z) :=
  t ← load (pss_t s) (pns_idx space);
  '(t', out', n) ← ack_process t a out;
  ts ← store (pss_t s) (pns_idx space) t';
  Some (mk_pns_sent ts, out', n).

(* src/src/transport/conn/pnspace/pnspaces/sent_spaces.c : pnspaces_sent_count *)
Definition pnspaces_sent_count (s : pnspaces_sent) (space : pns_space) : option Z :=
  t ← load (pss_t s) (pns_idx space); Some (sentpkt_count t).

(* src/src/transport/conn/pnspace/pnspaces/sent_spaces.c : pnspaces_sent_discard *)
Definition pnspaces_sent_discard (s : pnspaces_sent) (space : pns_space) : option pnspaces_sent :=
  t ← load (pss_t s) (pns_idx space);
  ts ← store (pss_t s) (pns_idx space) (sentpkt_init t);
  Some (mk_pns_sent ts).

(** *** What an acknowledgement does to the table *)

Definition sp_live (e : sentpkt_entry) : bool := negb (spe_used e =? 0) && (spe_state e =? SP_INFLIGHT).

Definition ack_slot (hit : sentpkt_entry -> bool) (e : sentpkt_entry) : sentpkt_entry :=
  if hit e then spe_release e SP_ACKED else e.

Definition hits (hit : sentpkt_entry -> bool) (l : list sentpkt_entry) : list Z :=
  spe_pn <$> filter (fun e => hit e = true) l.

Lemma hits_length hit l : zlen (hits hit l) <= zlen l.
Proof. unfold hits, zlen. rewrite length_fmap. pose proof (length_filter (fun e => hit e = true) l). lia. Qed.

Lemma ack_range_loop_spec hit : forall todo done out n,
  0 <= n -> n + zlen (hits hit todo) <= zlen out -> zlen out < 18446744073709551616 ->
  ack_range_loop hit (length todo) (zlen done) (mk_sentpkt (done ++ todo), out, n) =
    Some (mk_sentpkt (done ++ (ack_slot hit <$> todo)), splice out n (hits hit todo), n + zlen (hits hit todo)).
Proof.
  induction todo as [|e todo IH]; intros done out n Hn Hf Hz; cbn [length ack_range_loop].
  { change (hits hit []) with (@nil Z). by rewrite splice_nil, Z.add_0_r. }
  cbn [spk_e]. assert (load (done ++ e :: todo) (zlen done) = Some e) as ->.
  { rewrite load_app_r, Z.sub_diag by lia. done. }
  osimpl. rewrite fmap_cons. unfold ack_slot at 1. unfold hits in Hf |- *. rewrite filter_cons in Hf |- *.
  destruct (hit e) eqn:E; cbn [negb].
  - rewrite decide_True in Hf |- * by done. rewrite fmap_cons in Hf |- *. rewrite zlen_cons in Hf |- *.
    fold (hits hit todo) in Hf |- *. pose proof (zlen_nonneg (hits hit todo)).
    rewrite (store_in (done ++ e :: todo)) by (rewrite zlen_app, zlen_cons; pose proof (zlen_nonneg done); pose proof (zlen_nonneg todo); lia).
    osimpl. rewrite store_in by lia. osimpl. nowrap.
    assert (<[Z.to_nat (zlen done):=spe_release e SP_ACKED]> (done ++ e :: todo)
            = (done ++ [spe_release e SP_ACKED]) ++ todo) as ->.
    { unfold zlen. rewrite Nat2Z.id, insert_app_r_alt, Nat.sub_diag, <- app_assoc by lia. done. }
    replace (zlen done + 1) with (zlen (done ++ [spe_release e SP_ACKED])) by zl.
    rewrite IH by (rewrite ?zlen_insert; lia). rewrite <- app_assoc. cbn [app].
    rewrite splice_cons_store by lia. by rewrite <- (Z.add_assoc n 1).
  - rewrite decide_False in Hf |- * by done. fold (hits hit todo) in Hf |- *.
    replace (done ++ e :: todo) with ((done ++ [e]) ++ todo) by (by rewrite <- app_assoc).
    replace (zlen done + 1) with (zlen (done ++ [e])) by zl.
    rewrite IH by done. by rewrite <- app_assoc.
Qed.

Lemma ack_range_spec hit l out n :
  zlen l = SENTPKT_CAP -> 0 <= n -> n + zlen (hits hit l) <= zlen out -> zlen out < 18446744073709551616 ->
  ack_range_loop hit (Z.to_nat SENTPKT_CAP) 0 (mk_sentpkt l, out, n) =
    Some (mk_sentpkt (ack_slot hit <$> l), splice out n (hits hit l), n + zlen (hits hit l)).
Proof.
  intros Hl Hn Hf Hz. replace (Z.to_nat SENTPKT_CAP) with (length l) by (unfold zlen, SENTPKT_CAP in *; lia).
  apply (ack_range_loop_spec hit l []); done.
Qed.

(** Acknowledging [p] and then [q] is acknowledging [p] or [q]; the numbers
    reported are the same up to order. *)
Definition hit_of (p : Z -> bool) (e : sentpkt_entry) : bool := sp_live e && p (spe_pn e).

Lemma ack_slot_or p q (l : list sentpkt_entry) :
  ack_slot (hit_of q) <$> (ack_slot (hit_of p) <$> l) = ack_slot (hit_of (fun x => p x || q x)) <$> l.
Proof.
  rewrite <- list_fmap_compose. apply list_fmap_ext. intros i e _. cbn. unfold ack_slot, hit_of.
  destruct (sp_live e) eqn:El; cbn; [|by rewrite El].
  destruct (p (spe_pn e)) eqn:Ep; cbn; [done|]. rewrite El. by destruct (q (spe_pn e)).
Qed.

Lemma hits_cons p e l :
  hits (hit_of p) (e :: l) = (if hit_of p e then [spe_pn e] else []) ++ hits (hit_of p) l.
Proof. unfold hits. rewrite filter_cons. destruct (hit_of p e); case_decide; done. Qed.

Lemma hits_or p q l :
  hits (hit_of p) l ++ hits (hit_of q) (ack_slot (hit_of p) <$> l) ≡ₚ hits (hit_of (fun x => p x || q x)) l.
Proof.
  induction l as [|e l IH]; [done|]. rewrite fmap_cons, !hits_cons, <- IH.
  assert (hit_of (fun x => p x || q x) e = hit_of p e || hit_of q e) as ->
    by (unfold hit_of; destruct (sp_live e); done).
  unfold ack_slot at 1 2. destruct (hit_of p e) eqn:Ep; cbn [orb].
  - assert (hit_of q (spe_release e SP_ACKED) = false) as -> by done. done.
  - destruct (hit_of q e); cbn [app]; [|done]. by rewrite Permutation_middle.
Qed.

Definition in_range (lo hi pn : Z) : bool := (lo <=? pn) && (pn <=? hi).
Definition in_ranges (rs : list ack_range) (pn : Z) : bool :=
  existsb (fun r => in_range (r_lo r) (r_hi r) pn) rs.

Lemma in_ranges_acks rs pn : in_ranges rs pn = true <-> acks rs pn.
Proof.
  unfold in_ranges, acks, in_range. rewrite existsb_exists. split.
  - intros (r & Hr & H). exists r. split; [by apply list_elem_of_In|lia].
  - intros (r & Hr & H). exists r. split; [by apply list_elem_of_In|lia].
Qed.

(** The state reached from an empty report by acknowledging the numbers of
    [p]: their live entries are released, and reported once each. *)
Definition acked_by (p : Z -> bool) (l : list sentpkt_entry) (out : list Z) (st : ack_out) : Prop :=
  exists pns, st = (mk_sentpkt (ack_slot (hit_of p) <$> l), splice out 0 pns, zlen pns) /\
    pns ≡ₚ hits (hit_of p) l.

Lemma hits_none l : hits (hit_of (fun _ => false)) l = [].
Proof.
  induction l as [|e l IH]; [done|]. rewrite hits_cons, IH. unfold hit_of. by rewrite andb_false_r.
Qed.

Section acking.
Context (l : list sentpkt_entry) (out : list Z).
Hypothesis Hl : zlen l = SENTPKT_CAP.
Hypothesis Hout : SENTPKT_CAP <= zlen out < 18446744073709551616.

Lemma hit_of_ext p q e : (forall x, p x = q x) -> hit_of p e = hit_of q e.
Proof. intros H. unfold hit_of. by rewrite H. Qed.

Lemma acked_by_ext p q st : (forall x, p x = q x) -> acked_by p l out st -> acked_by q l out st.
Proof.
  intros H (pns & -> & Hp). exists pns. split.
  - do 3 f_equal. apply list_fmap_ext. intros i e _. unfold ack_slot. by rewrite (hit_of_ext p q).
  - rewrite Hp. unfold hits. erewrite list_filter_iff; [reflexivity|]. intros e. by rewrite (hit_of_ext p q).
Qed.

Lemma acked_by_none : acked_by (fun _ => false) l out (mk_sentpkt l, out, 0).
Proof.
  exists []. rewrite splice_nil. split.
  - do 3 f_equal. rewrite <- (list_fmap_id l) at 1. apply list_fmap_ext. intros i e _.
    unfold ack_slot, hit_of. by rewrite andb_false_r.
  - by rewrite hits_none.
Qed.

Lemma perm_zlen {A} (a b : list A) : a ≡ₚ b -> zlen a = zlen b.
Proof. intros H. unfold zlen. by rewrite H. Qed.

Lemma ack_range_acked p st lo hi hit :
  (forall e, hit e = hit_of (in_range lo hi) e) -> acked_by p l out st ->
  exists st', ack_range_loop hit (Z.to_nat SENTPKT_CAP) 0 st = Some st' /\
    acked_by (fun x => p x || in_range lo hi x) l out st'.
Proof.
  intros Hhit (pns & -> & Hp). set (l1 := ack_slot (hit_of p) <$> l).
  assert (forall l', ack_slot hit <$> l' = ack_slot (hit_of (in_range lo hi)) <$> (l' : list sentpkt_entry)) as E1.
  { intros l'. apply list_fmap_ext. intros i e _. unfold ack_slot. by rewrite Hhit. }
  assert (hits hit l1 = hits (hit_of (in_range lo hi)) l1) as E2.
  { unfold hits. f_equal. apply list_filter_iff. intros e. by rewrite Hhit. }
  pose proof (hits_or p (in_range lo hi) l) as Hor. fold l1 in Hor.
  assert (zlen pns + zlen (hits (hit_of (in_range lo hi)) l1) <= SENTPKT_CAP) as Hroom.
  { pose proof (perm_zlen _ _ Hor) as Hz. rewrite zlen_app in Hz. rewrite (perm_zlen _ _ Hp).
    pose proof (hits_length (hit_of (fun x => p x || in_range lo hi x)) l). lia. }
  pose proof (zlen_nonneg pns). pose proof (zlen_nonneg (hits (hit_of (in_range lo hi)) l1)).
  assert (zlen (splice out 0 pns) = zlen out) as Hz by (apply zlen_splice; lia).
  rewrite ack_range_spec; [|unfold l1; by rewrite <- Hl; unfold zlen; rewrite length_fmap|lia| |lia].
  - rewrite E1, E2. eexists. split; [reflexivity|].
    exists (pns ++ hits (hit_of (in_range lo hi)) l1). split.
    + unfold l1. rewrite ack_slot_or. change (zlen pns) with (0 + zlen pns) at 1.
      rewrite splice_app, zlen_app by lia. done.
    + by rewrite Hp, Hor.
  - rewrite E2. lia.
Qed.

Lemma in_ranges_snoc rs r x : in_ranges (rs ++ [r]) x = in_ranges rs x || in_range (r_lo r) (r_hi r) x.
Proof. unfold in_ranges. rewrite existsb_app. cbn. by rewrite orb_false_r. Qed.

Lemma slot_in_range_hit lo hi e : slot_in_range lo hi e = hit_of (in_range lo hi) e.
Proof. done. Qed.

Lemma ap_ack_range_acked p st lo hi :
  acked_by p l out st ->
  exists st', ap_ack_range lo hi st = Some st' /\ acked_by (fun x => p x || in_range lo hi x) l out st'.
Proof. intros Hst. exact (ack_range_acked p st lo hi (slot_in_range lo hi) (slot_in_range_hit lo hi) Hst). Qed.

Lemma akr_ack_range_acked p st lo hi :
  acked_by p l out st ->
  exists st', akr_ack_range lo hi st = Some st' /\ acked_by (fun x => p x || in_range lo hi x) l out st'.
Proof. intros Hst. exact (ack_range_acked p st lo hi (akr_slot_in_range lo hi) (slot_in_range_hit lo hi) Hst). Qed.

Lemma ack_pairs_step ar fuel a i lo gap len hi lo' st :
  u64 (i + 1) < as_n_ranges a -> load (as_ranges a) i = Some gap -> load (as_ranges a) (u64 (i + 1)) = Some len ->
  u64 (lo - gap - 2) = hi -> u64 (hi - len) = lo' ->
  ack_pairs_loop ar (S fuel) a i lo st =
    (st' ← ar lo' hi st; ack_pairs_loop ar fuel a (u64 (i + 2)) lo' st').
Proof.
  intros Hlt E1 E2 <- <-. cbn [ack_pairs_loop]. replace (u64 (i + 1) <? as_n_ranges a) with true by lia.
  rewrite E1. osimpl. rewrite E2. osimpl. cbv zeta. reflexivity.
Qed.

(** The gap-encoded pairs are walked range by range. *)
Lemma ack_pairs_loop_acked a todo : forall done prev fuel st,
  as_n_ranges a = zlen (as_ranges a) -> zlen (as_ranges a) < 18446744073709551615 ->
  as_ranges a = raw_from None (done ++ prev :: todo) -> ranges_wf (done ++ prev :: todo) ->
  (length todo < fuel)%nat -> acked_by (in_ranges (done ++ [prev])) l out st ->
  exists st', ack_pairs_loop ap_ack_range fuel a (2 * zlen done + 1) (r_lo prev) st = Some st' /\
    acked_by (in_ranges (done ++ prev :: todo)) l out st'.
Proof.
  induction todo as [|cur todo IH]; intros done prev fuel st Hn Hz Hraw Hwf Hfu Hst;
    (destruct fuel as [|fuel]; [cbn in Hfu; lia|]); pose proof (zlen_nonneg done).
  - cbn [ack_pairs_loop]. assert (zlen (as_ranges a) = 2 * zlen done + 1) as Hra.
    { rewrite Hraw. unfold zlen. rewrite length_raw_snoc. lia. }
    nowrap. replace (_ <? _) with false by lia. eauto.
  - assert (zlen (as_ranges a) = 2 * zlen done + 3 + 2 * zlen todo) as Hra.
    { pose proof (zlen_raw_from (Some (r_lo prev)) (cur :: todo)) as Hq. rewrite zlen_cons in Hq.
      rewrite Hraw, raw_from_snoc, zlen_app, Hq. unfold zlen at 1. rewrite length_raw_snoc. unfold zlen. lia. }
    pose proof (zlen_nonneg todo).
    assert (forall j v, 0 <= j -> load (raw_from (Some (r_lo prev)) (cur :: todo)) j = Some v ->
              load (as_ranges a) (2 * zlen done + 1 + j) = Some v) as Hload.
    { intros j v Hj Hv. rewrite Hraw, raw_from_snoc. rewrite load_app_r.
      - rewrite <- Hv. f_equal. unfold zlen. rewrite length_raw_snoc. lia.
      - unfold zlen. rewrite length_raw_snoc. lia. }
    pose proof Hwf as [Hok Hgap].
    assert (range_ok prev = true /\ range_ok cur = true) as [Hp Hcu].
    { rewrite !Forall_app, !List.Forall_cons_iff in Hok. tauto. }
    assert (r_hi cur + 2 <= r_lo prev) as Hg.
    { apply (Hgap (length done)).
      - by rewrite lookup_app_r, Nat.sub_diag by lia.
      - rewrite lookup_app_r by lia. by replace (S (length done) - length done)%nat with 1%nat by lia. }
    unfold range_ok, VARINT_MAX in Hp, Hcu.
    rewrite (ack_pairs_step ap_ack_range fuel a _ _ (r_lo prev - r_hi cur - 2) (r_hi cur - r_lo cur) (r_hi cur) (r_lo cur)).
    2: { rewrite u64_small by lia. lia. }
    2: { rewrite <- (Z.add_0_r (2 * zlen done + 1)). by apply Hload. }
    2: { rewrite u64_small by lia. by apply Hload. }
    2: { rewrite u64_small by lia. lia. }
    2: { rewrite u64_small by lia. lia. }
    rewrite u64_small by lia.
    destruct (ap_ack_range_acked _ st (r_lo cur) (r_hi cur) Hst) as (st1 & E & Hst1).
    rewrite E. osimpl.
    replace (2 * zlen done + 1 + 2) with (2 * zlen (done ++ [prev]) + 1) by zl.
    destruct (IH (done ++ [prev]) cur fuel st1) as (st2 & -> & Hst2); rewrite <- ?app_assoc; try done.
    + cbn in Hfu. lia.
    + eapply acked_by_ext; [|exact Hst1]. intros x. cbv beta.
      by rewrite app_assoc, !in_ranges_snoc.
    + eexists. split; [reflexivity|]. by rewrite <- app_assoc in Hst2.
Qed.

Lemma ack_process_with_eq ar t a out0 first lo st :
  as_n_ranges a <> 0 -> load (as_ranges a) 0 = Some first -> u64 (as_largest a - first) = lo ->
  ar lo (as_largest a) (t, out0, 0) = Some st ->
  ack_process_with ar t a out0 = ack_pairs_loop ar (S (Z.to_nat (as_n_ranges a))) a 1 lo st.
Proof.
  intros Hn E1 <- E2. unfold ack_process_with. replace (as_n_ranges a =? 0) with false by lia.
  rewrite E1. osimpl. by rewrite E2.
Qed.

Lemma ack_process_acked r0 rs :
  ranges_wf (r0 :: rs) -> zlen rs < 4611686018427387904 ->
  let raw := raw_from None (r0 :: rs) in
  exists st, ack_process (mk_sentpkt l) (mk_ackset (r_hi r0) raw (zlen raw)) out = Some st /\
    acked_by (in_ranges (r0 :: rs)) l out st.
Proof.
  intros Hwf Hn raw.
  assert (zlen raw = 2 * zlen rs + 1) as Hz by (unfold raw; rewrite zlen_raw_from, zlen_cons; lia).
  pose proof (zlen_nonneg rs).
  pose proof (ranges_wf_ok _ O r0 Hwf eq_refl) as Hr. unfold range_ok, VARINT_MAX in Hr.
  destruct (ap_ack_range_acked _ _ (r_lo r0) (r_hi r0) acked_by_none) as (st1 & E & Hst1).
  destruct (ack_pairs_loop_acked (mk_ackset (r_hi r0) raw (zlen raw)) rs [] r0 (S (Z.to_nat (zlen raw))) st1)
    as (st2 & E2 & Hst2); [done|cbn [as_ranges]; lia|done|done|unfold zlen in *; lia| |].
  { eapply acked_by_ext; [|exact Hst1]. intros x. cbn. by rewrite orb_false_r. }
  exists st2. split; [|exact Hst2]. unfold ack_process.
  rewrite (ack_process_with_eq ap_ack_range _ _ out (r_hi r0 - r_lo r0) (r_lo r0) st1); cbn [as_n_ranges as_ranges as_largest].
  - exact E2.
  - lia.
  - done.
  - replace (r_hi r0 - (r_hi r0 - r_lo r0)) with (r_lo r0) by lia. apply u64_small. lia.
  - exact E.
Qed.

Lemma akr_loop_step ar f k i st r st' :
  load (af_ranges f) i = Some r -> ar (r_lo r) (r_hi r) st = Some st' ->
  akr_loop ar f (S k) i st = akr_loop ar f k (i + 1) st'.
Proof. intros E1 E2. cbn [akr_loop]. rewrite E1. osimpl. by rewrite E2. Qed.

Lemma akr_loop_acked f todo : forall done st,
  ack_used f = done ++ todo -> zlen (af_ranges f) = ACK_MAX_RANGES ->
  acked_by (in_ranges done) l out st ->
  exists st', akr_loop akr_ack_range f (length todo) (zlen done) st = Some st' /\ acked_by (in_ranges (ack_used f)) l out st'.
Proof.
  induction todo as [|r todo IH]; intros done st Hu Hz Hst; cbn [length].
  { rewrite app_nil_r in Hu. rewrite Hu. eexists. split; [reflexivity|done]. }
  destruct (used_load f (zlen done) r) as [Er _].
  { rewrite Hu. unfold zlen. rewrite Nat2Z.id, lookup_app_r, Nat.sub_diag by lia. done. }
  { apply zlen_nonneg. }
  destruct (akr_ack_range_acked _ st (r_lo r) (r_hi r) Hst) as (st1 & E & Hst1).
  rewrite (akr_loop_step _ _ _ _ _ r st1 Er E).
  replace (zlen done + 1) with (zlen (done ++ [r])) by zl.
  apply IH; [by rewrite <- app_assoc|done|].
  eapply acked_by_ext; [|exact Hst1]. intros x. cbv beta. by rewrite in_ranges_snoc.
Qed.
End acking.

(** C19: acknowledgements empty the sent table exactly.  For any table of 256
    entries and an output array of at least 256 cells, processing the
    gap-encoded ranges of well-formed [r0 :: rs] with [ack_process], or the
    bytes of an ACK frame with [ackrange_process], never faults, releases
    precisely the in-flight entries whose packet number lies in one of the
    ranges, leaves every other entry untouched, and reports each released
    number once; a malformed frame is refused and changes nothing. *)
Theorem sent_table_acked_exactly (l : list sentpkt_entry) (out : list Z) :
  zlen l = SENTPKT_CAP -> SENTPKT_CAP <= zlen out < 18446744073709551616 ->
  (forall r0 rs, ranges_wf (r0 :: rs) -> zlen rs < 4611686018427387904 ->
     let raw := raw_from None (r0 :: rs) in
     exists pns, ack_process (mk_sentpkt l) (mk_ackset (r_hi r0) raw (zlen raw)) out =
         Some (mk_sentpkt (ack_slot (hit_of (in_ranges (r0 :: rs))) <$> l), splice out 0 pns, zlen pns) /\
       pns ≡ₚ hits (hit_of (in_ranges (r0 :: rs))) l) /\
  (forall ranges0 acks, zlen ranges0 = ACK_MAX_RANGES -> span_ok acks -> 0 < zlen acks ->
     match ack_decode ranges0 acks with
     | Ok (f, _) =>
         exists pns, ackrange_process ranges0 (mk_sentpkt l) acks out =
             Some (1, (mk_sentpkt (ack_slot (hit_of (in_ranges (ack_used f))) <$> l), splice out 0 pns, zlen pns)) /\
           pns ≡ₚ hits (hit_of (in_ranges (ack_used f))) l
     | Fail => ackrange_process ranges0 (mk_sentpkt l) acks out = Some (0, (mk_sentpkt l, out, 0))
     | Oob => False
     end) /\
  (forall rs pn, in_ranges rs pn = true <-> Ack.acks rs pn).
Proof.
  intros Hl Hout. split_and!; [| |apply in_ranges_acks].
  - intros r0 rs Hwf Hn raw. destruct (ack_process_acked l out Hl Hout r0 rs Hwf Hn) as (st & E & pns & -> & Hp).
    exists pns. done.
  - intros ranges0 acks Hz Hs Hpos. unfold ackrange_process.
    pose proof (ack_decode_safe ranges0 Hz acks Hs Hpos) as Hdec.
    destruct (ack_decode ranges0 acks) as [[f n]| |] eqn:E; [|done|done].
    destruct Hdec as [_ (Hlen & Hn & Hwf)].
    assert (length (ack_used f) = Z.to_nat (af_n_ranges f)) as Hu.
    { unfold ack_used. rewrite length_take. unfold zlen, ACK_MAX_RANGES in *. lia. }
    destruct (akr_loop_acked l out Hl Hout f (ack_used f) [] (mk_sentpkt l, out, 0)) as (st & E2 & pns & -> & Hp);
      [done|done|apply acked_by_none|].
    rewrite Hu in E2. exists pns. split; [|exact Hp].
    match goal with |- mbind _ ?m = _ => assert (m = Some (mk_sentpkt (ack_slot (hit_of (in_ranges (ack_used f))) <$> l), splice out 0 pns, zlen pns)) as -> end;
      [exact E2|reflexivity].
Qed.

Definition sp_demo : list sentpkt_entry :=
  [mk_sp_entry 3 0 100 1 0 1; mk_sp_entry 9 0 100 1 0 1; mk_sp_entry 4 0 100 1 0 1] ++ replicate 253 (mk_sp_entry 0 0 0 0 0 0).

Lemma sent_table_acked_exactly_witness :
  exists pns, ack_process (mk_sentpkt sp_demo) (mk_ackset 9 [1; 3; 0] 3) (replicate 256 0) =
      Some (mk_sentpkt (ack_slot (hit_of (in_ranges [mk_range 9 8; mk_range 3 3])) <$> sp_demo),
            splice (replicate 256 0) 0 pns, zlen pns) /\ pns ≡ₚ [3; 9].
Proof.
  destruct (sent_table_acked_exactly sp_demo (replicate 256 0) eq_refl) as (H & _ & _).
  - unfold SENTPKT_CAP, zlen. rewrite length_replicate. lia.
  - destruct (H (mk_range 9 8) [mk_range 3 3]) as (pns & E & Hp).
    + apply ranges_wf_cons. split_and!; [reflexivity| |intros b [= <-]; cbn; lia].
      apply ranges_wf_cons. split_and!; [reflexivity|split; [constructor|by intros]|done].
    + vm_compute. reflexivity.
    + exists pns. split; [exact E|]. exact Hp.
Defined.
