(* ===== verification/Recover.v ===== *)
(** * The server's sent-packet record (src/src/transport/recovery/rtx/sentmeta
    and app/http3/server/srvrun/srvrun_recover.c)

    The record of 1-RTT packets the running server keeps, and the RFC 9002
    A.7/A.10 passes over it: newly acknowledged packets leave the record, one
    RTT sample is taken per step, lost packets are removed and the loss timer
    is armed for the rest. *)

From stdpp Require Import base numbers list option.
From Stdlib Require Import ZArith Lia.
From S2P Require Import Prelude Bytes Rtt RecvPn AckGen SentTable.

(** ** record.c *)

(* src/src/transport/recovery/rtx/sentmeta/record.h : SENTMETA_CAP *)
Definition SENTMETA_CAP : Z := 256.

(* src/src/transport/recovery/rtx/sentmeta/record.h : sentmeta_pkt *)
Record sentmeta_pkt := mk_meta_pkt {
  mp_pn : Z; mp_time_sent : Z; mp_sent_bytes : Z; mp_ack_eliciting : Z; mp_in_flight : Z; mp_used : Z }.

(* src/src/transport/recovery/rtx/sentmeta/record.h : sentmeta *)
Record sentmeta := mk_sentmeta { sm_pkts : list sentmeta_pkt; sm_count : Z; sm_total_in_flight : Z }.

(* src/src/transport/recovery/rtx/sentmeta/record.h : sentmeta_out *)
Record sentmeta_out := mk_meta_out {
  mo_pn : Z; mo_time_sent : Z; mo_ack_eliciting : Z; mo_in_flight : Z; mo_sent_bytes : Z }.

Definition mp_free (p : sentmeta_pkt) : sentmeta_pkt :=
  mk_meta_pkt (mp_pn p) (mp_time_sent p) (mp_sent_bytes p) (mp_ack_eliciting p) (mp_in_flight p) 0.

(* src/src/transport/recovery/rtx/sentmeta/record.c : sentmeta_init *)
Definition sentmeta_init (m : sentmeta) : sentmeta := mk_sentmeta (mp_free <$> sm_pkts m) 0 0.

(* src/src/transport/recovery/rtx/sentmeta/record.c : sentmeta_free_slot *)
Definition sentmeta_free_slot (m : sentmeta) : Z := scan_while (fun p => negb (mp_used p =? 0)) (sm_pkts m).

(* src/src/transport/recovery/rtx/sentmeta/record.c : sentmeta_store *)
Definition sentmeta_store (pkt : sentmeta_out) : sentmeta_pkt :=
  mk_meta_pkt (mo_pn pkt) (mo_time_sent pkt) (mo_sent_bytes pkt)
    (if negb (mo_ack_eliciting pkt =? 0) then 1 else 0) (if negb (mo_in_flight pkt =? 0) then 1 else 0) 1.

(* src/src/transport/recovery/rtx/sentmeta/record.c : sentmeta_on_sent *)
Definition sentmeta_on_sent (m : sentmeta) (pkt : sentmeta_out) : option (Z * sentmeta) :=
  let i := sentmeta_free_slot m in
  if i =? SENTMETA_CAP then Some (0, m)
  else
    pkts ← store (sm_pkts m) i (sentmeta_store pkt);
    Some (1, mk_sentmeta pkts (u64 (sm_count m + 1))
               (if negb (mo_in_flight pkt =? 0) then u64 (sm_total_in_flight m + mo_sent_bytes pkt)
                else sm_total_in_flight m)).

(* src/src/transport/recovery/rtx/sentmeta/record.c : sentmeta_reclaim *)
Definition sentmeta_reclaim (m : sentmeta) (i : Z) : option sentmeta :=
  p ← load (sm_pkts m) i;
  pkts ← store (sm_pkts m) i (mp_free p);
  Some (mk_sentmeta pkts (u64 (sm_count m - 1))
          (if negb (mp_in_flight p =? 0) then u64 (sm_total_in_flight m - mp_sent_bytes p)
           else sm_total_in_flight m)).

(* src/src/transport/recovery/rtx/sentmeta/record.c : sentmeta_holds *)
Definition sentmeta_holds (pn : Z) (p : sentmeta_pkt) : bool := negb (mp_used p =? 0) && (mp_pn p =? pn).

(* src/src/transport/recovery/rtx/sentmeta/record.c : sentmeta_find *)
Definition sentmeta_find (m : sentmeta) (pn : Z) : Z :=
  scan_while (fun p => negb (sentmeta_holds pn p)) (sm_pkts m).

Definition mp_shrink (p : sentmeta_pkt) (n : Z) : sentmeta_pkt :=
  mk_meta_pkt (mp_pn p) (mp_time_sent p) (u64 (mp_sent_bytes p - n)) (mp_ack_eliciting p) (mp_in_flight p) (mp_used p).

(* src/src/transport/recovery/rtx/sentmeta/record.c : sentmeta_uncount *)
Definition sentmeta_uncount (m : sentmeta) (pn n : Z) : option sentmeta :=
  let i := sentmeta_find m pn in
  if i =? SENTMETA_CAP then Some m
  else
    p ← load (sm_pkts m) i;
    if mp_in_flight p =? 0 then Some m
    else
      let n := u64_min n (mp_sent_bytes p) in
      pkts ← store (sm_pkts m) i (mp_shrink p n);
      Some (mk_sentmeta pkts (sm_count m) (u64 (sm_total_in_flight m - n))).

(** ** srvrun_recover.c *)

(** The fields of [srvrun_conn] (with its [wired_srvloop]) that recovery
    reads and writes; [rc_acks] is [ack_lo]/[ack_hi] up to [ack_n]. *)
Record srvrun_rec := mk_srvrun_rec {
  rc_sent : sentmeta; rc_rtt : rtt; rc_latest_rtt_ms : Z; rc_srtt_ms : Z; rc_rtt_from_pn : Z;
  rc_tx_pn : Z; rc_largest_acked : Z; rc_loss_time_us : Z; rc_pto_count : Z; rc_cc_from_pn : Z;
  rc_acks : list (Z * Z); rc_delay_raw : Z; rc_peer_mad_p1 : Z; rc_peer_exp_p1 : Z; rc_confirmed : Z }.

(* src/src/app/http3/server/srvrun/srvrun_recover.c : srvrun_rec_acked *)
Record srvrun_rec_acked := mk_rec_acked {
  ra_largest : Z; ra_largest_hit : Z; ra_largest_sent : Z; ra_eliciting : Z; ra_any : Z }.

(* src/src/app/http3/server/srvrun/srvrun_recover.c : srvrun_loss_delay_us *)
Definition srvrun_loss_delay_us (c : srvrun_rec) : Z :=
  if (rt_have (rc_rtt c) =? 0) && (rt_smoothed (rc_rtt c) =? 0) then 0
  else lossdrive_loss_delay (rt_smoothed (rc_rtt c)) (u64 (rc_latest_rtt_ms c * 1000)) RTT_GRANULARITY.

(* src/src/app/http3/server/srvrun/srvrun_recover.c : srvrun_peer_max_ack_delay_us *)
Definition srvrun_peer_max_ack_delay_us (c : srvrun_rec) : Z :=
  let p1 := rc_peer_mad_p1 c in u64 ((if negb (p1 =? 0) then u64 (p1 - 1) else 25) * 1000).

(* src/src/app/http3/server/srvrun/srvrun_recover.c : srvrun_rec_ack_delay_us *)
Definition srvrun_rec_ack_delay_us (c : srvrun_rec) : Z :=
  let p1 := rc_peer_exp_p1 c in u64 (Z.shiftl (rc_delay_raw c) (if negb (p1 =? 0) then p1 - 1 else 3)).

(* src/src/app/http3/server/srvrun/srvrun_recover.c : srvrun_rec_in *)
Definition srvrun_rec_in (lo hi : Z) (p : sentmeta_pkt) : bool :=
  negb (mp_used p =? 0) && (lo <=? mp_pn p) && (mp_pn p <=? hi).

(** What taking slot [p] adds to the step's outcome. *)
Definition rec_take_note (a : srvrun_rec_acked) (p : sentmeta_pkt) : srvrun_rec_acked :=
  let hit := mp_pn p =? ra_largest a in
  mk_rec_acked (ra_largest a) (if hit then 1 else ra_largest_hit a)
    (if hit then mp_time_sent p else ra_largest_sent a)
    (Z.lor (ra_eliciting a) (mp_ack_eliciting p)) 1.

(* src/src/app/http3/server/srvrun/srvrun_recover.c : srvrun_rec_take *)
Definition srvrun_rec_take (m : sentmeta) (i : Z) (a : srvrun_rec_acked) : option (sentmeta * srvrun_rec_acked) :=
  p ← load (sm_pkts m) i;
  m' ← sentmeta_reclaim m i;
  Some (m', rec_take_note a p).

(** [for (i = ..; i < CAP; i++)] with [k] rounds left. *)
Fixpoint rec_ack_loop (lo hi : Z) (k : nat) (i : Z) (m : sentmeta) (a : srvrun_rec_acked)
    : option (sentmeta * srvrun_rec_acked) :=
  match k with
  | O => Some (m, a)
  | S k' =>
      p ← load (sm_pkts m) i;
      if srvrun_rec_in lo hi p
      then '(m', a') ← srvrun_rec_take m i a; rec_ack_loop lo hi k' (i + 1) m' a'
      else rec_ack_loop lo hi k' (i + 1) m a
  end.

(* src/src/app/http3/server/srvrun/srvrun_recover.c : srvrun_rec_ack_range *)
Definition srvrun_rec_ack_range (lo hi : Z) (ma : sentmeta * srvrun_rec_acked)
    : option (sentmeta * srvrun_rec_acked) :=
  rec_ack_loop lo hi (Z.to_nat SENTMETA_CAP) 0 ma.1 ma.2.

(* src/src/app/http3/server/srvrun/srvrun_recover.c : srvrun_rec_samples *)
Definition srvrun_rec_samples (c : srvrun_rec) (a : srvrun_rec_acked) : bool :=
  negb (ra_largest_hit a =? 0) && negb (ra_eliciting a =? 0) && (rc_cc_from_pn c <=? ra_largest a).

(* src/src/app/http3/server/srvrun/srvrun_recover.c : srvrun_rec_largest *)
Definition srvrun_rec_largest (acks : list (Z * Z)) : Z :=
  foldl (fun largest r => u64_max largest r.2) 0 acks.

(* src/src/app/http3/server/srvrun/srvrun_qlog.c : srvrun_rtt_update *)
Definition srvrun_rtt_update (c : srvrun_rec) (sample_ms ack_delay_us : Z) : srvrun_rec :=
  mk_srvrun_rec (rc_sent c)
    (rtt_sample (rc_rtt c) (u64 (sample_ms * 1000)) ack_delay_us (srvrun_peer_max_ack_delay_us c) (rc_confirmed c))
    sample_ms
    (if negb (rc_srtt_ms c =? 0) then u64 (u64 (7 * rc_srtt_ms c) + sample_ms) / 8 else sample_ms)
    (if rt_have (rc_rtt c) =? 0 then rc_tx_pn c else rc_rtt_from_pn c)
    (rc_tx_pn c) (rc_largest_acked c) (rc_loss_time_us c) (rc_pto_count c) (rc_cc_from_pn c)
    (rc_acks c) (rc_delay_raw c) (rc_peer_mad_p1 c) (rc_peer_exp_p1 c) (rc_confirmed c).

Definition set_sent (c : srvrun_rec) (m : sentmeta) : srvrun_rec :=
  mk_srvrun_rec m (rc_rtt c) (rc_latest_rtt_ms c) (rc_srtt_ms c) (rc_rtt_from_pn c)
    (rc_tx_pn c) (rc_largest_acked c) (rc_loss_time_us c) (rc_pto_count c) (rc_cc_from_pn c)
    (rc_acks c) (rc_delay_raw c) (rc_peer_mad_p1 c) (rc_peer_exp_p1 c) (rc_confirmed c).
Definition set_pto_count (c : srvrun_rec) (n : Z) : srvrun_rec :=
  mk_srvrun_rec (rc_sent c) (rc_rtt c) (rc_latest_rtt_ms c) (rc_srtt_ms c) (rc_rtt_from_pn c)
    (rc_tx_pn c) (rc_largest_acked c) (rc_loss_time_us c) n (rc_cc_from_pn c)
    (rc_acks c) (rc_delay_raw c) (rc_peer_mad_p1 c) (rc_peer_exp_p1 c) (rc_confirmed c).
Definition set_loss_time (c : srvrun_rec) (t : Z) : srvrun_rec :=
  mk_srvrun_rec (rc_sent c) (rc_rtt c) (rc_latest_rtt_ms c) (rc_srtt_ms c) (rc_rtt_from_pn c)
    (rc_tx_pn c) (rc_largest_acked c) t (rc_pto_count c) (rc_cc_from_pn c)
    (rc_acks c) (rc_delay_raw c) (rc_peer_mad_p1 c) (rc_peer_exp_p1 c) (rc_confirmed c).

(* src/src/app/http3/server/srvrun/srvrun_recover.c : srvrun_rec_note *)
Definition srvrun_rec_note (c : srvrun_rec) (a : srvrun_rec_acked) (now_ms : Z) : srvrun_rec :=
  let c1 := if negb (ra_any a =? 0) then set_pto_count c 0 else c in
  if srvrun_rec_samples c1 a
  then srvrun_rtt_update c1 (u64 (now_ms - ra_largest_sent a)) (srvrun_rec_ack_delay_us c1)
  else c1.

(** The loop over the step's ACK ranges. *)
Fixpoint rec_ranges_loop (ack_range : Z -> Z -> sentmeta * srvrun_rec_acked -> option (sentmeta * srvrun_rec_acked))
    (rs : list (Z * Z)) (ma : sentmeta * srvrun_rec_acked) : option (sentmeta * srvrun_rec_acked) :=
  match rs with
  | [] => Some ma
  | r :: rs' => ma' ← ack_range r.1 r.2 ma; rec_ranges_loop ack_range rs' ma'
  end.

(* src/src/app/http3/server/srvrun/srvrun_recover.c : srvrun_rec_on_acks *)
Definition srvrun_rec_on_acks (c : srvrun_rec) (now_ms : Z) : option srvrun_rec :=
  let a := mk_rec_acked (srvrun_rec_largest (rc_acks c)) 0 0 0 0 in
  ma ← rec_ranges_loop srvrun_rec_ack_range (rc_acks c) (rc_sent c, a);
  Some (srvrun_rec_note (set_sent c ma.1) ma.2 now_ms).

(* src/src/app/http3/server/srvrun/srvrun_recover.c : srvrun_rec_eligible *)
Definition srvrun_rec_eligible (largest_acked : Z) (p : sentmeta_pkt) : bool :=
  negb (mp_used p =? 0) && (mp_pn p <? largest_acked).

(* src/src/app/http3/server/srvrun/srvrun_recover.c : srvrun_rec_lost *)
Definition srvrun_rec_lost (p : sentmeta_pkt) (largest_acked now_us delay_us : Z) : bool :=
  loss_by_packet largest_acked (mp_pn p)
  || (negb (delay_us =? 0) && (u64 (u64 (mp_time_sent p * 1000) + delay_us) <=? now_us)).

(* src/src/app/http3/server/srvrun/srvrun_recover.c : srvrun_rec_arm *)
Definition srvrun_rec_arm (c : srvrun_rec) (at_us : Z) : srvrun_rec :=
  if (rc_loss_time_us c =? 0) || (at_us <? rc_loss_time_us c) then set_loss_time c at_us else c.

(* src/src/app/http3/server/srvrun/srvrun_recover.c : srvrun_rec_check *)
Definition srvrun_rec_check (c : srvrun_rec) (i now_us delay_us : Z) : option srvrun_rec :=
  p ← load (sm_pkts (rc_sent c)) i;
  if srvrun_rec_lost p (rc_largest_acked c) now_us delay_us
  then m ← sentmeta_reclaim (rc_sent c) i; Some (set_sent c m)
  else Some (srvrun_rec_arm c (u64 (u64 (mp_time_sent p * 1000) + delay_us))).

Fixpoint rec_detect_loop (now_us delay_us : Z) (k : nat) (i : Z) (c : srvrun_rec) : option srvrun_rec :=
  match k with
  | O => Some c
  | S k' =>
      p ← load (sm_pkts (rc_sent c)) i;
      if srvrun_rec_eligible (rc_largest_acked c) p
      then c' ← srvrun_rec_check c i now_us delay_us; rec_detect_loop now_us delay_us k' (i + 1) c'
      else rec_detect_loop now_us delay_us k' (i + 1) c
  end.

(* src/src/app/http3/server/srvrun/srvrun_recover.c : srvrun_rec_detect *)
Definition srvrun_rec_detect (c : srvrun_rec) (now_ms : Z) : option srvrun_rec :=
  let delay_us := srvrun_loss_delay_us c in
  rec_detect_loop (u64 (now_ms * 1000)) delay_us (Z.to_nat SENTMETA_CAP) 0 (set_loss_time c 0).

(** ** The accounting invariant of the record *)

Definition mp_live (p : sentmeta_pkt) : bool := negb (mp_used p =? 0).
Definition live_count (l : list sentmeta_pkt) : Z := sumZ (fun p => if mp_live p then 1 else 0) l.
Definition live_bytes (l : list sentmeta_pkt) : Z :=
  sumZ (fun p => if mp_live p && negb (mp_in_flight p =? 0) then mp_sent_bytes p else 0) l.

Record meta_inv (m : sentmeta) : Prop := {
  mi_cap : zlen (sm_pkts m) = SENTMETA_CAP;
  mi_count : sm_count m = u64 (live_count (sm_pkts m));
  mi_bytes : sm_total_in_flight m = u64 (live_bytes (sm_pkts m));
  mi_sizes : Forall (fun p => mp_live p = true -> is_u64 (mp_sent_bytes p)) (sm_pkts m) }.

Lemma mp_free_dead p : mp_live (mp_free p) = false.
Proof. done. Qed.

Lemma meta_inv_init m : zlen (sm_pkts m) = SENTMETA_CAP -> meta_inv (sentmeta_init m).
Proof.
  intros Hc. split; cbn.
  - unfold zlen in *. by rewrite length_fmap.
  - unfold live_count. rewrite sum_zero; [done|]. intros x Hx. by apply list_elem_of_fmap in Hx as (y & -> & _).
  - unfold live_bytes. rewrite sum_zero; [done|]. intros x Hx. by apply list_elem_of_fmap in Hx as (y & -> & _).
  - apply Forall_fmap, Forall_forall. done.
Qed.

Lemma reclaim_spec m i p :
  meta_inv m -> load (sm_pkts m) i = Some p -> mp_live p = true ->
  exists m', sentmeta_reclaim m i = Some m' /\ meta_inv m' /\
    sm_pkts m' = <[Z.to_nat i := mp_free p]> (sm_pkts m).
Proof.
  intros [Hc Hn Hb Hs] Hp Hl. unfold sentmeta_reclaim. rewrite Hp. osimpl.
  pose proof (load_Some _ _ _ Hp). apply load_lookup in Hp as [_ Hp].
  rewrite store_in by lia. osimpl. eexists. split; [reflexivity|]. split; [|done]. split; cbn [sm_pkts sm_count sm_total_in_flight].
  - by rewrite zlen_insert.
  - unfold live_count. rewrite (sumZ_insert _ _ _ p) by done. rewrite Hn, u64_sub_l, Hl. f_equal.
    unfold live_count. rewrite mp_free_dead. lia.
  - unfold live_bytes. rewrite (sumZ_insert _ _ _ p) by done. rewrite Hb, Hl, mp_free_dead. cbn [andb].
    destruct (negb (mp_in_flight p =? 0)); [rewrite u64_sub_l|]; f_equal; unfold live_bytes; lia.
  - apply Forall_insert; [done|]. by rewrite mp_free_dead.
Qed.

Lemma on_sent_spec m pkt :
  meta_inv m -> is_u64 (mo_sent_bytes pkt) ->
  exists r m', sentmeta_on_sent m pkt = Some (r, m') /\ meta_inv m' /\
    ((r = 0 /\ m' = m /\ Forall (fun p => mp_live p = true) (sm_pkts m)) \/
     (exists i old, r = 1 /\ sm_pkts m !! i = Some old /\ mp_live old = false /\
        sm_pkts m' = <[i := sentmeta_store pkt]> (sm_pkts m))).
Proof.
  intros Hinv Hz. pose proof Hinv as [Hc Hn Hb Hs]. unfold sentmeta_on_sent, sentmeta_free_slot.
  destruct (scan_while_spec (fun p => negb (mp_used p =? 0)) (sm_pkts m)) as (H1 & H2 & H3).
  set (i := scan_while _ _) in *. destruct (i =? SENTMETA_CAP) eqn:E.
  - do 2 eexists. split; [reflexivity|]. split; [done|]. left. split_and!; try done.
    apply Forall_lookup. intros j x Hx. pose proof (lookup_lt_Some _ _ _ Hx).
    apply (H2 j x Hx). unfold zlen in *. lia.
  - destruct H3 as (old & Hl & Hu); [lia|]. apply load_lookup in Hl as [? Hl].
    assert (mp_live old = false) as Hd by done.
    rewrite store_in by lia. osimpl. do 2 eexists. split; [reflexivity|]. split; [split; cbn [sm_pkts sm_count sm_total_in_flight]|].
    + by rewrite zlen_insert.
    + unfold live_count. rewrite (sumZ_insert _ _ _ old) by done. rewrite Hn, u64_add_l, Hd. f_equal.
      unfold live_count, mp_live. cbn. lia.
    + unfold live_bytes. rewrite (sumZ_insert _ _ _ old) by done. rewrite Hb, Hd. cbn [andb].
      unfold mp_live. cbn. destruct (mo_in_flight pkt =? 0); cbn; [|rewrite u64_add_l]; f_equal; unfold live_bytes, mp_live; lia.
    + apply Forall_insert; [done|]. done.
    + right. exists (Z.to_nat i), old. done.
Qed.

Lemma uncount_spec m pn n :
  meta_inv m -> 0 <= n -> exists m', sentmeta_uncount m pn n = Some m' /\ meta_inv m' /\ sm_count m' = sm_count m.
Proof.
  intros Hinv Hn0. pose proof Hinv as [Hc Hn Hb Hs]. unfold sentmeta_uncount, sentmeta_find.
  destruct (scan_while_spec (fun p => negb (sentmeta_holds pn p)) (sm_pkts m)) as (H1 & H2 & H3).
  set (i := scan_while _ _) in *. destruct (i =? SENTMETA_CAP) eqn:E; [eauto|].
  destruct H3 as (p & Hl & Hu); [lia|]. rewrite Hl. osimpl. apply load_lookup in Hl as [? Hl].
  apply negb_false_iff in Hu. assert (mp_live p = true) as Hlive by (unfold sentmeta_holds, mp_live in *; lia).
  destruct (mp_in_flight p =? 0) eqn:Ef; [eauto|].
  pose proof (Forall_lookup_1 _ _ _ _ Hs Hl Hlive) as Hz. unfold is_u64 in Hz.
  set (k := u64_min n (mp_sent_bytes p)).
  assert (0 <= k <= mp_sent_bytes p) as Hk by (unfold k; rewrite u64_min_spec; lia).
  rewrite store_in by lia. osimpl. eexists. split; [reflexivity|]. split; [|done].
  split; cbn [sm_pkts sm_count sm_total_in_flight].
  - by rewrite zlen_insert.
  - unfold live_count. rewrite (sumZ_insert _ _ _ p) by done. rewrite Hn. f_equal. unfold live_count, mp_live. cbn. lia.
  - unfold live_bytes. rewrite (sumZ_insert _ _ _ p) by done. rewrite Hb, u64_sub_l, Hlive.
    f_equal. unfold live_bytes. change (mp_live (mp_shrink p k)) with (mp_live p). rewrite Hlive. cbn [mp_shrink mp_in_flight mp_sent_bytes].
    rewrite Ef. cbn [andb negb]. rewrite u64_small by lia. lia.
  - apply Forall_insert; [done|]. intros _. cbn. apply u64_range.
Qed.

(** ** The pass over the acknowledged ranges *)

Definition take_slot (q : sentmeta_pkt -> bool) (p : sentmeta_pkt) : sentmeta_pkt := if q p then mp_free p else p.

Lemma rec_ack_loop_spec lo hi : forall todo done m a,
  meta_inv m -> sm_pkts m = done ++ todo ->
  exists m', rec_ack_loop lo hi (length todo) (zlen done) m a =
      Some (m', foldl rec_take_note a (filter (fun p => srvrun_rec_in lo hi p = true) todo)) /\
    meta_inv m' /\ sm_pkts m' = done ++ (take_slot (srvrun_rec_in lo hi) <$> todo).
Proof.
  induction todo as [|p todo IH]; intros done m a Hinv Hm; cbn [length rec_ack_loop]; [by exists m|].
  assert (load (sm_pkts m) (zlen done) = Some p) as Hp.
  { rewrite Hm, load_app_r, Z.sub_diag by lia. done. }
  rewrite Hp. osimpl. rewrite filter_cons, fmap_cons. unfold take_slot at 1.
  replace (zlen done + 1) with (zlen (done ++ [take_slot (srvrun_rec_in lo hi) p])) by zl.
  destruct (srvrun_rec_in lo hi p) eqn:E.
  - rewrite decide_True by done. unfold srvrun_rec_take. rewrite Hp. osimpl.
    destruct (reclaim_spec m (zlen done) p Hinv Hp) as (m1 & -> & Hinv1 & Hp1).
    { unfold srvrun_rec_in, mp_live in *. lia. }
    osimpl. destruct (IH (done ++ [take_slot (srvrun_rec_in lo hi) p]) m1 (rec_take_note a p)) as (m' & -> & Hm' & Hp').
    { done. }
    { rewrite Hp1, Hm. unfold zlen. rewrite Nat2Z.id, insert_app_r_alt, Nat.sub_diag, <- app_assoc by lia.
      unfold take_slot. by rewrite E. }
    exists m'. split_and!; try done. rewrite Hp', <- app_assoc. unfold take_slot at 1. by rewrite E.
  - rewrite decide_False by done.
    destruct (IH (done ++ [take_slot (srvrun_rec_in lo hi) p]) m a) as (m' & -> & Hm' & Hp').
    { done. }
    { rewrite Hm, <- app_assoc. unfold take_slot. by rewrite E. }
    exists m'. split_and!; try done. rewrite Hp', <- app_assoc. unfold take_slot at 1. by rewrite E.
Qed.

Lemma rec_ack_range_spec lo hi m a :
  meta_inv m ->
  exists m', srvrun_rec_ack_range lo hi (m, a) =
      Some (m', foldl rec_take_note a (filter (fun p => srvrun_rec_in lo hi p = true) (sm_pkts m))) /\
    meta_inv m' /\ sm_pkts m' = take_slot (srvrun_rec_in lo hi) <$> sm_pkts m.
Proof.
  intros Hinv. destruct (rec_ack_loop_spec lo hi (sm_pkts m) [] m a Hinv eq_refl) as (m' & E & H1 & H2).
  exists m'. split; [|done]. rewrite <- E. unfold srvrun_rec_ack_range. f_equal.
  pose proof (mi_cap _ Hinv) as Hc. unfold zlen, SENTMETA_CAP in *. lia.
Qed.

Definition in_acks (acks : list (Z * Z)) (pn : Z) : bool := existsb (fun r => in_range r.1 r.2 pn) acks.

(** The live slots the ranges cover. *)
Definition rec_hit (acks : list (Z * Z)) (p : sentmeta_pkt) : bool := mp_live p && in_acks acks (mp_pn p).

(** The step's outcome in terms of the packets taken. *)
Record rec_outcome (largest : Z) (taken : list sentmeta_pkt) (a : srvrun_rec_acked) : Prop := {
  ro_largest : ra_largest a = largest;
  ro_any : ra_any a = if decide (taken = []) then 0 else 1;
  ro_eliciting : ra_eliciting a <> 0 <-> exists p, p ∈ taken /\ mp_ack_eliciting p <> 0;
  ro_hit : ra_largest_hit a <> 0 <-> exists p, p ∈ taken /\ mp_pn p = largest;
  ro_sent : ra_largest_hit a <> 0 -> exists p, p ∈ taken /\ mp_pn p = largest /\ ra_largest_sent a = mp_time_sent p }.

Lemma rec_outcome_take largest taken a p :
  rec_outcome largest taken a -> rec_outcome largest (taken ++ [p]) (rec_take_note a p).
Proof.
  intros [H1 H2 H3 H4 H5]. unfold rec_take_note. rewrite H1. split; cbn.
  - done.
  - rewrite decide_False; [done|]. by destruct taken.
  - rewrite Z.lor_eq_0_iff. setoid_rewrite elem_of_app. setoid_rewrite list_elem_of_singleton. split.
    + intros Hn. destruct (Z.eq_dec (mp_ack_eliciting p) 0).
      * destruct (proj1 H3) as (q & Hq & ?); [lia|]. exists q. auto.
      * exists p. auto.
    + intros (q & [Hq| ->] & Hne) [H0 H0']; [|done]. apply H3; [|done]. eauto.
  - setoid_rewrite elem_of_app. setoid_rewrite list_elem_of_singleton.
    destruct (mp_pn p =? largest) eqn:E.
    + split; [intros _; exists p; split; [by right|lia]|lia].
    + rewrite H4. split; [intros (q & ? & ?); exists q; auto|].
      intros (q & [Hq| ->] & Hpn); [eauto|lia].
  - setoid_rewrite elem_of_app. setoid_rewrite list_elem_of_singleton.
    destruct (mp_pn p =? largest) eqn:E.
    + intros _. exists p. split_and!; [by right|lia|done].
    + intros Hh. destruct (H5 Hh) as (q & ? & ? & ?). exists q. auto.
Qed.

Lemma rec_outcome_takes largest ps : forall taken a,
  rec_outcome largest taken a -> rec_outcome largest (taken ++ ps) (foldl rec_take_note a ps).
Proof.
  induction ps as [|p ps IH]; intros taken a Ha; cbn; [by rewrite app_nil_r|].
  replace (taken ++ p :: ps) with ((taken ++ [p]) ++ ps) by (by rewrite <- app_assoc).
  apply IH, rec_outcome_take, Ha.
Qed.

Lemma take_slot_or acks lo hi (l : list sentmeta_pkt) :
  take_slot (srvrun_rec_in lo hi) <$> (take_slot (rec_hit acks) <$> l)
    = take_slot (rec_hit (acks ++ [(lo, hi)])) <$> l.
Proof.
  rewrite <- list_fmap_compose. apply list_fmap_ext. intros i p _. cbn. unfold take_slot, rec_hit, in_acks.
  rewrite existsb_app. cbn. rewrite orb_false_r. unfold srvrun_rec_in, in_range, mp_live.
  destruct (mp_used p =? 0) eqn:E; cbn [negb andb]; [by rewrite E|].
  destruct (existsb _ acks) eqn:E2; cbn [orb]; [done|]. rewrite E. done.
Qed.

(** The packets a further range takes are those it covers that were not taken
    before. *)
Lemma taken_more acks lo hi (l : list sentmeta_pkt) p :
  p ∈ filter (fun p => srvrun_rec_in lo hi p = true) (take_slot (rec_hit acks) <$> l) <->
  p ∈ l /\ rec_hit acks p = false /\ mp_live p = true /\ in_range lo hi (mp_pn p) = true.
Proof.
  rewrite list_elem_of_filter, list_elem_of_fmap. unfold srvrun_rec_in, in_range.
  split.
  - intros (Hin & q & -> & Hq). unfold take_slot in *. destruct (rec_hit acks q) eqn:E.
    + cbn in Hin. done.
    + split_and!; try done; [unfold mp_live; lia|lia].
  - intros (Hl & Hh & Hlive & Hr). split; [unfold mp_live in Hlive; lia|].
    exists p. split; [|done]. unfold take_slot. by rewrite Hh.
Qed.

(** After the ranges [done] of the step: the record without the packets they
    cover, and the outcome of exactly those packets. *)
Definition ranges_state (l : list sentmeta_pkt) (largest : Z) (acks : list (Z * Z))
    (ma : sentmeta * srvrun_rec_acked) : Prop :=
  meta_inv ma.1 /\ sm_pkts ma.1 = take_slot (rec_hit acks) <$> l /\
  exists taken, rec_outcome largest taken ma.2 /\ forall p, p ∈ taken <-> p ∈ l /\ rec_hit acks p = true.

Lemma ranges_state_step l largest acks r ma :
  ranges_state l largest acks ma ->
  exists ma', srvrun_rec_ack_range r.1 r.2 ma = Some ma' /\ ranges_state l largest (acks ++ [r]) ma'.
Proof.
  destruct r as [lo hi]. intros (Hinv & Hl & taken & Hout & Htk).
  destruct (rec_ack_range_spec lo hi ma.1 ma.2 Hinv) as (m' & E & Hinv' & Hl').
  exists (m', foldl rec_take_note ma.2 (filter (fun p => srvrun_rec_in lo hi p = true) (sm_pkts ma.1))).
  split; [by destruct ma|]. split_and!; [done| |].
  - cbn. rewrite Hl', Hl. apply take_slot_or.
  - exists (taken ++ filter (fun p => srvrun_rec_in lo hi p = true) (sm_pkts ma.1)). split.
    + by apply rec_outcome_takes.
    + intros p. rewrite elem_of_app, Hl, taken_more, Htk. unfold rec_hit, in_acks.
      rewrite existsb_app. cbn. rewrite orb_false_r.
      destruct (mp_live p), (existsb _ acks), (in_range lo hi (mp_pn p)); cbn; intuition congruence.
Qed.

Lemma ranges_state_all l largest todo : forall acks ma,
  ranges_state l largest acks ma ->
  exists ma', rec_ranges_loop srvrun_rec_ack_range todo ma = Some ma' /\ ranges_state l largest (acks ++ todo) ma'.
Proof.
  induction todo as [|r todo IH]; intros acks ma Hs; cbn [rec_ranges_loop].
  { rewrite app_nil_r. eauto. }
  destruct (ranges_state_step _ _ _ r ma Hs) as (ma1 & E & Hs1). rewrite E. cbn [mbind option_bind].
  destruct (IH _ ma1 Hs1) as (ma2 & E2 & Hs2). exists ma2. split; [done|]. by rewrite <- app_assoc in Hs2.
Qed.

(** ** The loss pass *)

Definition lost_slot (la now d : Z) (p : sentmeta_pkt) : bool :=
  srvrun_rec_eligible la p && srvrun_rec_lost p la now d.
Definition waiting (la now d : Z) (p : sentmeta_pkt) : bool :=
  srvrun_rec_eligible la p && negb (srvrun_rec_lost p la now d).
Definition loss_at (d : Z) (p : sentmeta_pkt) : Z := u64 (u64 (mp_time_sent p * 1000) + d).

Definition arm_time (d : Z) (lt : Z) (p : sentmeta_pkt) : Z :=
  if (lt =? 0) || (loss_at d p <? lt) then loss_at d p else lt.

Lemma rec_detect_loop_spec now d : forall todo done c,
  meta_inv (rc_sent c) -> sm_pkts (rc_sent c) = done ++ todo ->
  let la := rc_largest_acked c in
  exists m', rec_detect_loop now d (length todo) (zlen done) c =
      Some (set_loss_time (set_sent c m')
              (foldl (arm_time d) (rc_loss_time_us c) (filter (fun p => waiting la now d p = true) todo))) /\
    meta_inv m' /\ sm_pkts m' = done ++ (take_slot (lost_slot la now d) <$> todo).
Proof.
  induction todo as [|p todo IH]; intros done c Hinv Hm la; cbn [length rec_detect_loop].
  { exists (rc_sent c). split; [by destruct c|done]. }
  assert (load (sm_pkts (rc_sent c)) (zlen done) = Some p) as Hp.
  { rewrite Hm, load_app_r, Z.sub_diag by lia. done. }
  rewrite Hp. osimpl. rewrite filter_cons, fmap_cons.
  replace (zlen done + 1) with (zlen (done ++ [take_slot (lost_slot la now d) p])) by zl.
  fold la. destruct (srvrun_rec_eligible la p) eqn:El.
  - unfold srvrun_rec_check. rewrite Hp. osimpl. fold la.
    destruct (srvrun_rec_lost p la now d) eqn:E.
    + rewrite decide_False by (unfold waiting; by rewrite El, E).
      destruct (reclaim_spec (rc_sent c) (zlen done) p Hinv Hp) as (m1 & -> & Hinv1 & Hp1).
      { unfold srvrun_rec_eligible, mp_live in *. lia. }
      osimpl. destruct (IH (done ++ [take_slot (lost_slot la now d) p]) (set_sent c m1)) as (m' & -> & Hm' & Hp').
      { done. }
      { cbn. rewrite Hp1, Hm. unfold zlen. rewrite Nat2Z.id, insert_app_r_alt, Nat.sub_diag, <- app_assoc by lia.
        unfold take_slot, lost_slot. by rewrite El, E. }
      exists m'. split_and!; try done. by rewrite Hp', <- app_assoc.
    + rewrite decide_True by (unfold waiting; by rewrite El, E). osimpl.
      assert (srvrun_rec_arm c (u64 (u64 (mp_time_sent p * 1000) + d)) = set_loss_time c (arm_time d (rc_loss_time_us c) p)) as ->.
      { unfold srvrun_rec_arm, arm_time. fold (loss_at d p). bcase; [done|by destruct c]. }
      destruct (IH (done ++ [take_slot (lost_slot la now d) p]) (set_loss_time c (arm_time d (rc_loss_time_us c) p)))
        as (m' & -> & Hm' & Hp').
      { done. }
      { cbn. rewrite Hm, <- app_assoc. unfold take_slot, lost_slot. by rewrite El, E. }
      exists m'. split_and!; try done. by rewrite Hp', <- app_assoc.
  - rewrite decide_False by (unfold waiting; by rewrite El).
    destruct (IH (done ++ [take_slot (lost_slot la now d) p]) c) as (m' & -> & Hm' & Hp').
    { done. }
    { rewrite Hm, <- app_assoc. unfold take_slot, lost_slot. by rewrite El. }
    exists m'. split_and!; try done. by rewrite Hp', <- app_assoc.
Qed.

Lemma arm_time_spec d ps : forall lt,
  (forall p, p ∈ ps -> 0 < loss_at d p) -> 0 <= lt ->
  let r := foldl (arm_time d) lt ps in
  0 <= r /\ (r = 0 <-> lt = 0 /\ ps = []) /\ (lt <> 0 -> r <= lt) /\
  (forall p, p ∈ ps -> r <= loss_at d p) /\
  (r = lt \/ exists p, p ∈ ps /\ r = loss_at d p).
Proof.
  induction ps as [|p ps IH]; intros lt Hpos Hlt; cbn.
  { split_and!; try done; [tauto| |by left]. by intros q ?%elem_of_nil. }
  assert (0 < loss_at d p) as Hp by (apply Hpos, elem_of_cons; by left).
  assert (0 < arm_time d lt p /\ arm_time d lt p <= loss_at d p /\ (lt <> 0 -> arm_time d lt p <= lt) /\
          (arm_time d lt p = lt \/ arm_time d lt p = loss_at d p)) as (A1 & A2 & A3 & A4).
  { unfold arm_time. bcase; lia. }
  destruct (IH (arm_time d lt p)) as (I1 & I2 & I3 & I4 & I5).
  { intros q Hq. apply Hpos, elem_of_cons. by right. }
  { lia. }
  specialize (I3 ltac:(lia)). split_and!; try lia.
  - split; [intros Hr; apply I2 in Hr; lia|by intros [_ ?]].
  - intros q [->|Hq]%elem_of_cons; [lia|auto].
  - destruct I5 as [->|(q & Hq & ->)]; [|right; exists q; split; [apply elem_of_cons; by right|done]].
    destruct A4 as [->| ->]; [by left|right; exists p; split; [apply elem_of_cons; by left|done]].
Qed.

(** ** Properties *)

Inductive meta_op := MSent (o : sentmeta_out) | MUncount (pn n : Z) | MAcks (lo hi : Z) | MReclaim (i : Z).

(** The operations the server performs on the record; [MReclaim] of a free
    slot is not one of them. *)
Definition meta_step (m : sentmeta) (op : meta_op) : option sentmeta :=
  match op with
  | MSent o => '(_, m') ← sentmeta_on_sent m o; Some m'
  | MUncount pn n => sentmeta_uncount m pn n
  | MAcks lo hi => '(m', _) ← srvrun_rec_ack_range lo hi (m, mk_rec_acked 0 0 0 0 0); Some m'
  | MReclaim i =>
      match load (sm_pkts m) i with
      | Some p => if mp_live p then sentmeta_reclaim m i else Some m
      | None => Some m
      end
  end.

Definition meta_op_ok (op : meta_op) : Prop :=
  match op with MSent o => is_u64 (mo_sent_bytes o) | MUncount _ n => 0 <= n | _ => True end.

Lemma meta_step_inv m op : meta_inv m -> meta_op_ok op -> exists m', meta_step m op = Some m' /\ meta_inv m'.
Proof.
  intros Hinv Hok. destruct op as [o|pn n|lo hi|i]; cbn [meta_step meta_op_ok] in *.
  - destruct (on_sent_spec m o Hinv Hok) as (r & m' & -> & ? & _). osimpl. eauto.
  - destruct (uncount_spec m pn n Hinv Hok) as (m' & -> & ? & _). eauto.
  - destruct (rec_ack_range_spec lo hi m (mk_rec_acked 0 0 0 0 0) Hinv) as (m' & E & ? & _). rewrite E. cbn [mbind option_bind]. eauto.
  - destruct (load (sm_pkts m) i) as [p|] eqn:Ep; [|eauto]. destruct (mp_live p) eqn:El; [|eauto].
    destruct (reclaim_spec m i p Hinv Ep El) as (m' & -> & ? & _). eauto.
Qed.

Fixpoint meta_run (m : sentmeta) (ops : list meta_op) : option sentmeta :=
  match ops with [] => Some m | op :: rest => m' ← meta_step m op; meta_run m' rest end.

Lemma meta_run_inv ops : forall m, meta_inv m -> Forall meta_op_ok ops -> exists m', meta_run m ops = Some m' /\ meta_inv m'.
Proof.
  induction ops as [|op ops IH]; intros m Hinv Hok; cbn [meta_run]; [eauto|].
  apply Forall_cons_1 in Hok as [Hop Hok].
  destruct (meta_step_inv m op Hinv Hop) as (m1 & E & Hinv1). rewrite E. cbn [mbind option_bind]. auto.
Qed.

(** The server's sent-packet record accounts for every in-flight byte:
    after any sequence of sends, partial uncounts, acknowledged ranges and
    removals, no access leaves the 256-slot array, [count] is the number of
    tracked packets and [total_in_flight] is (modulo 2^64) the sum of the
    bytes of the tracked in-flight packets. *)
Theorem sent_record_accounting (mem : sentmeta) (ops : list meta_op) :
  zlen (sm_pkts mem) = SENTMETA_CAP -> Forall meta_op_ok ops ->
  exists m, meta_run (sentmeta_init mem) ops = Some m /\
    sm_count m = sumZ (fun p => if mp_live p then 1 else 0) (sm_pkts m) /\
    sm_total_in_flight m = u64 (live_bytes (sm_pkts m)).
Proof.
  intros Hz Hok. destruct (meta_run_inv ops _ (meta_inv_init mem Hz) Hok) as (m & -> & Hinv).
  exists m. split; [done|]. split; [|apply Hinv]. rewrite (mi_count _ Hinv). apply u64_small.
  pose proof (mi_cap _ Hinv) as Hc. unfold live_count.
  assert (forall l, 0 <= sumZ (fun p => if mp_live p then 1 else 0) l <= zlen l) as Hb.
  { induction l as [|p l IH]; cbn [sumZ]; [change (zlen []) with 0; lia|]. rewrite zlen_cons. bcase; lia. }
  specialize (Hb (sm_pkts m)). unfold SENTMETA_CAP in Hc. lia.
Qed.

Definition meta_demo : sentmeta := mk_sentmeta (replicate 256 (mk_meta_pkt 0 0 0 0 0 1)) 7 7.

Lemma sent_record_accounting_witness :
  exists m, meta_run (sentmeta_init meta_demo)
      [MSent (mk_meta_out 0 10 1 1 1200); MSent (mk_meta_out 1 11 0 0 30); MSent (mk_meta_out 2 12 1 1 500);
       MUncount 2 200; MAcks 0 1] = Some m /\
    sm_count m = 1 /\ sm_total_in_flight m = 300.
Proof.
  destruct (sent_record_accounting meta_demo
      [MSent (mk_meta_out 0 10 1 1 1200); MSent (mk_meta_out 1 11 0 0 30); MSent (mk_meta_out 2 12 1 1 500);
       MUncount 2 200; MAcks 0 1] eq_refl) as (m & E & _ & _).
  - repeat constructor; vm_compute; congruence.
  - exists m. split; [exact E|]. vm_compute in E. apply (inj Some) in E as <-. split; reflexivity.
Defined.


Definition rec_demo : srvrun_rec :=
  let m := mk_sentmeta ([mk_meta_pkt 4 100 1200 1 1 1; mk_meta_pkt 5 110 1200 1 1 1; mk_meta_pkt 6 120 40 0 0 1]
                        ++ replicate 253 (mk_meta_pkt 0 0 0 0 0 0)) 3 2400 in
  mk_srvrun_rec m rtt_init 0 0 0 9 6 0 2 0 [(6, 6); (4, 4)] 100 0 0 1.

Lemma rec_demo_inv : meta_inv (rc_sent rec_demo).
Proof. split; [reflexivity|reflexivity|reflexivity|]. repeat constructor; vm_compute; congruence. Qed.


(** RFC 9002 6.1: kPacketThreshold 3, kTimeThreshold 9/8, kGranularity 1 ms; a
    packet in flight below the largest acknowledged is lost when one of the two
    thresholds is passed. Times in microseconds. *)
Definition rfc_loss_delay (smoothed latest : Z) : Z := Z.max (9 * Z.max smoothed latest / 8) 1000.
Definition rfc_candidate (la : Z) (p : sentmeta_pkt) : Prop := mp_used p <> 0 /\ mp_pn p < la.
Definition rfc_lost (la now d : Z) (p : sentmeta_pkt) : Prop :=
  rfc_candidate la p /\ (mp_pn p + 3 <= la \/ mp_time_sent p * 1000 + d <= now).
#[global] Instance rfc_lost_dec la now d p : Decision (rfc_lost la now d p).
Proof. unfold rfc_lost, rfc_candidate. apply _. Defined.

Lemma eligible_spec la p : srvrun_rec_eligible la p = true <-> rfc_candidate la p.
Proof. unfold srvrun_rec_eligible, rfc_candidate. rewrite andb_true_iff, negb_true_iff, Z.eqb_neq, Z.ltb_lt. done. Qed.

Lemma loss_delay_spec c : rt_have (rc_rtt c) <> 0 \/ rt_smoothed (rc_rtt c) <> 0 ->
  0 <= rt_smoothed (rc_rtt c) -> rt_smoothed (rc_rtt c) * 9 < 2 ^ 64 -> 0 <= rc_latest_rtt_ms c -> rc_latest_rtt_ms c * 9000 < 2 ^ 64 ->
  srvrun_loss_delay_us c = rfc_loss_delay (rt_smoothed (rc_rtt c)) (rc_latest_rtt_ms c * 1000).
Proof.
  intros Hest H1 H2 H3 H4. unfold srvrun_loss_delay_us. replace (_ && _) with false by lia.
  unfold lossdrive_loss_delay, rfc_loss_delay, LOSS_TIME_NUM, LOSS_TIME_DEN, RTT_GRANULARITY. rewrite !u64_max_spec, (u64_small (rc_latest_rtt_ms c * 1000)) by lia.
  rewrite u64_small by lia. by rewrite (Z.mul_comm 9).
Qed.

Lemma lost_spec la now d p : 0 <= mp_pn p < 2 ^ 62 -> 0 <= mp_time_sent p -> mp_time_sent p * 1000 + d < 2 ^ 64 -> 0 < d ->
  srvrun_rec_eligible la p = true -> srvrun_rec_lost p la now d = true <-> rfc_lost la now d p.
Proof.
  intros Hpn Ht Htd Hd He. unfold srvrun_rec_lost, loss_by_packet, LOSS_PACKET_THRESHOLD, rfc_lost. rewrite eligible_spec in He.
  rewrite (u64_small (mp_pn p + 3)), (u64_small (mp_time_sent p * 1000)), u64_small by lia.
  rewrite orb_true_iff, andb_true_iff, negb_true_iff, Z.eqb_neq, !Z.leb_le. split; [intros H; split; [done|lia] | intros [_ H]; lia].
Qed.

(** C16: RFC 9002 6.1 and A.10 over the record, with the loss delay
    max(9/8 * max(smoothed_rtt, latest_rtt), 1 ms). With an initialised estimator
    and times and packet numbers that do not overflow, [srvrun_rec_detect] always
    completes; it frees exactly the packets in flight below the largest
    acknowledged that are three or more below it or were sent a loss delay ago or
    earlier, touches no other packet, and arms the loss timer at the earliest time
    at which a remaining packet below the largest acknowledged passes the time
    threshold, disarming it (0) when there is none. *)
Theorem rec_detect_exact (c : srvrun_rec) (now_ms : Z) :
  meta_inv (rc_sent c) ->
  rt_have (rc_rtt c) <> 0 \/ rt_smoothed (rc_rtt c) <> 0 ->
  0 <= rt_smoothed (rc_rtt c) -> rt_smoothed (rc_rtt c) * 9 < 2 ^ 64 -> 0 <= rc_latest_rtt_ms c -> rc_latest_rtt_ms c * 9000 < 2 ^ 64 ->
  0 <= now_ms -> now_ms * 1000 < 2 ^ 64 ->
  let d := rfc_loss_delay (rt_smoothed (rc_rtt c)) (rc_latest_rtt_ms c * 1000) in
  let la := rc_largest_acked c in
  let now := now_ms * 1000 in
  let l := sm_pkts (rc_sent c) in
  (forall p, p ∈ l -> 0 <= mp_pn p < 2 ^ 62 /\ 0 <= mp_time_sent p /\ mp_time_sent p * 1000 + d < 2 ^ 64) ->
  let wait p := p ∈ l /\ rfc_candidate la p /\ ~ rfc_lost la now d p in
  exists c', srvrun_rec_detect c now_ms = Some c' /\ meta_inv (rc_sent c') /\
    sm_pkts (rc_sent c') = (fun p => if decide (rfc_lost la now d p) then mp_free p else p) <$> l /\
    (rc_loss_time_us c' = 0 <-> ~ exists p, wait p) /\
    (forall p, wait p -> rc_loss_time_us c' <= mp_time_sent p * 1000 + d) /\
    ((exists p, wait p) -> exists p, wait p /\ rc_loss_time_us c' = mp_time_sent p * 1000 + d) /\
    rc_rtt c' = rc_rtt c /\ rc_pto_count c' = rc_pto_count c.
Proof.
  intros Hinv Hest S1 S2 L1 L2 N1 N2 d la now l Hts wait.
  assert (1000 <= d) as Hd by (unfold d, rfc_loss_delay; lia).
  pose proof (loss_delay_spec c Hest S1 S2 L1 L2) as Ed. fold d in Ed.
  assert (forall p, p ∈ l -> loss_at d p = mp_time_sent p * 1000 + d) as Hat.
  { intros p Hp. destruct (Hts p Hp) as (_ & ? & ?). unfold loss_at. rewrite (u64_small (mp_time_sent p * 1000)), u64_small by lia. done. }
  assert (forall p, p ∈ l -> srvrun_rec_eligible la p = true -> srvrun_rec_lost p la now d = true <-> rfc_lost la now d p) as Hlost.
  { intros p Hp He. destruct (Hts p Hp) as (? & ? & ?). apply lost_spec; try done; lia. }
  destruct (rec_detect_loop_spec now d l [] (set_loss_time c 0) Hinv eq_refl) as (m' & E & Hinv' & Hl').
  eexists. split.
  { unfold srvrun_rec_detect. rewrite Ed, (u64_small (now_ms * 1000)) by lia. fold now. rewrite <- E. f_equal.
    pose proof (mi_cap _ Hinv) as Hc. unfold zlen, SENTMETA_CAP in Hc. unfold l, SENTMETA_CAP. lia. }
  cbn [rc_sent set_loss_time set_sent rc_loss_time_us rc_rtt rc_pto_count].
  change (rc_largest_acked (set_loss_time c 0)) with la in *. set (ws := filter _ l).
  assert (forall p, p ∈ ws <-> wait p) as Hws.
  { intros p. unfold ws. rewrite list_elem_of_filter. unfold waiting, wait. rewrite andb_true_iff, negb_true_iff, <- eligible_spec. split.
    - intros [[He Hn] Hp]. rewrite <- Hlost by done. rewrite Hn. split_and!; done.
    - intros (Hp & He & Hn). rewrite <- Hlost in Hn by done. apply not_true_is_false in Hn. done. }
  destruct (arm_time_spec d ws 0) as (A1 & A2 & A3 & A4 & A5).
  { intros p Hp. apply Hws in Hp as [Hp _]. rewrite Hat by done. destruct (Hts p Hp). lia. }
  { lia. }
  set (lt := foldl (arm_time d) 0 ws) in *.
  split; [done|]. split; [|split; [|split; [|split; [|done]]]].
  - rewrite Hl'. cbn [app]. apply list_fmap_ext. intros i p Hp. apply list_elem_of_lookup_2 in Hp. unfold take_slot, lost_slot.
    destruct (srvrun_rec_eligible la p) eqn:El; cbn [andb].
    + pose proof (Hlost p Hp El) as H. destruct (srvrun_rec_lost p la now d); case_decide; tauto || congruence || intuition congruence.
    + rewrite decide_False; [done|]. intros [Hc _]. apply eligible_spec in Hc. congruence.
  - rewrite A2. split.
    + intros [_ Hnil] (p & Hp). apply Hws in Hp. rewrite Hnil in Hp. by apply elem_of_nil in Hp.
    + intros Hno. split; [done|]. destruct ws as [|p ws']; [done|]. exfalso. apply Hno. exists p.
      apply Hws, elem_of_cons. by left.
  - intros p Hp. rewrite <- Hat by (by destruct Hp). apply A4, Hws, Hp.
  - intros (p & Hp). destruct A5 as [A5|(q & Hq & A5)].
    + apply A2 in A5 as [_ Hnil]. apply Hws in Hp. rewrite Hnil in Hp. by apply elem_of_nil in Hp.
    + exists q. apply Hws in Hq. split; [done|]. rewrite A5. apply Hat. by destruct Hq.
Qed.

Lemma rec_detect_exact_witness :
  exists c', srvrun_rec_detect rec_demo 300 = Some c' /\
    mp_used <$> take 3 (sm_pkts (rc_sent c')) = [1; 1; 1] /\ rc_loss_time_us c' = 474625.
Proof.
  destruct (rec_detect_exact rec_demo 300 rec_demo_inv) as (c' & E & _ & _ & _ & _ & _);
    [right; vm_compute; congruence | vm_compute; congruence | vm_compute; congruence | vm_compute; congruence | vm_compute; congruence | vm_compute; congruence | vm_compute; congruence | | ].
  - intros p Hp. unfold rec_demo in Hp. cbn [rc_sent sm_pkts] in Hp. apply elem_of_app in Hp as [Hp|Hp].
    + repeat (apply elem_of_cons in Hp as [->|Hp]; [vm_compute; repeat split; congruence|]). by apply elem_of_nil in Hp.
    + apply elem_of_replicate in Hp as [-> _]. vm_compute. repeat split; congruence.
  - exists c'. split; [exact E|]. vm_compute in E. apply (inj Some) in E as <-. split; reflexivity.
Defined.
