(* ===== verification/Congestion.v ===== *)
(** * Congestion control (src/src/transport/recovery/congestion)

    cc.c (NewReno, CUBIC and BBR behind one state), cubic.c, ccloss.c,
    ccphase.c, persistent.c, pacing.c, cwndcheck.c, cwndctl.c, ecn.c, bbr.c and
    hystart.c.  Sizes are 64-bit byte counts and every sum and product is
    wrapped.  Division by the window is safe because the window never falls
    below two datagrams, which is one of the theorems. *)

From stdpp Require Import base numbers list option.
From Stdlib Require Import ZArith Lia Psatz.
From S2P Require Import Prelude Bytes.

(** ** cubic.c *)

(** One round of the loop of [icbrt]: [s] runs over 63, 60, .., 0. *)
Definition icbrt_step (s : Z) (xy : Z * Z) : Z * Z :=
  let y := u64 (2 * xy.2) in
  let b := u64 (u64 (u64 (3 * y) * u64 (y + 1)) + 1) in
  if b <=? Z.shiftr xy.1 s then (u64 (xy.1 - u64 (Z.shiftl b s)), u64 (y + 1)) else (xy.1, y).

Fixpoint icbrt_loop (k : nat) (xy : Z * Z) : Z * Z :=
  match k with
  | O => xy
  | S k' => icbrt_loop k' (icbrt_step (3 * Z.of_nat k') xy)
  end.

(* src/src/transport/recovery/congestion/cc/cubic.c : icbrt *)
Definition icbrt (x : Z) : Z := (icbrt_loop 22 (x, 0)).2.

(* src/src/transport/recovery/congestion/cc/cubic.c : cubic_k_ms *)
Definition cubic_k_ms (w_max_seg : Z) : Z := icbrt (u64 (w_max_seg * 750000000)).

(* src/src/transport/recovery/congestion/cc/cubic.c : CUBIC_D_CAP *)
Definition CUBIC_D_CAP : Z := 100000.

(* src/src/transport/recovery/congestion/cc/cubic.c : cubic_mag *)
Definition cubic_mag (m0 : Z) : Z :=
  let m := if CUBIC_D_CAP <? m0 then CUBIC_D_CAP else m0 in
  u64 (u64 (u64 (m * m) * m) + 1250000000) / 2500000000.

(** Conversion of a 64-bit value to the signed type. *)
Definition s64 (x : Z) : Z := (x + 9223372036854775808) mod 18446744073709551616 - 9223372036854775808.

(* src/src/transport/recovery/congestion/cc/cubic.c : cubic_term *)
Definition cubic_term (d : Z) : Z :=
  let t := cubic_mag (u64 (if d <? 0 then - d else d)) in
  if d <? 0 then - s64 t else s64 t.

(* src/src/transport/recovery/congestion/cc/cubic.c : cubic_w *)
Definition cubic_w (t_ms k_ms w_max_seg : Z) : Z :=
  let w := s64 w_max_seg + cubic_term (s64 t_ms - s64 k_ms) in
  if 0 <? w then u64 w else 0.

(* src/src/transport/recovery/congestion/cc/cubic.c : cubic_wmax_fastconv *)
Definition cubic_wmax_fastconv (w_seg prev_wmax_seg : Z) : Z :=
  if w_seg <? prev_wmax_seg then u64 (w_seg * 17) / 20 else w_seg.

(** ** bbr.c *)

Definition BBR_STARTUP : Z := 0.
Definition BBR_DRAIN : Z := 1.
Definition BBR_PROBE_BW : Z := 2.
Definition BBR_PROBE_RTT : Z := 3.
(* src/src/transport/recovery/congestion/cc/bbr.h : BBR_BW_WIN *)
Definition BBR_BW_WIN : Z := 10.
(* src/src/transport/recovery/congestion/cc/bbr.h : BBR_RTPROP_WIN_MS *)
Definition BBR_RTPROP_WIN_MS : Z := 10000.
(* src/src/transport/recovery/congestion/cc/bbr.h : BBR_PROBE_RTT_MS *)
Definition BBR_PROBE_RTT_MS : Z := 200.

(* src/src/transport/recovery/congestion/cc/bbr.h : bbr *)
Record bbr := mk_bbr {
  bb_phase : Z; bb_bw_win : list Z; bb_bw_idx : Z; bb_btl_bw : Z; bb_full_bw : Z; bb_full_bw_cnt : Z;
  bb_filled : Z; bb_cycle_idx : Z; bb_rtprop_ms : Z; bb_rtprop_at : Z; bb_have_rtprop : Z; bb_probe_rtt_end : Z }.

(* src/src/transport/recovery/congestion/cc/bbr.c : bbr_init *)
Definition bbr_init : bbr := mk_bbr BBR_STARTUP (replicate 10 0) 0 0 0 0 0 0 0 0 0 0.

Definition bb_set_phase (b : bbr) (ph : Z) : bbr :=
  mk_bbr ph (bb_bw_win b) (bb_bw_idx b) (bb_btl_bw b) (bb_full_bw b) (bb_full_bw_cnt b) (bb_filled b)
    (bb_cycle_idx b) (bb_rtprop_ms b) (bb_rtprop_at b) (bb_have_rtprop b) (bb_probe_rtt_end b).

(* src/src/transport/recovery/congestion/cc/bbr.c : bbr_win_max *)
Definition bbr_win_max (b : bbr) : Z :=
  foldl (fun m v => if m <? v then v else m) 0 (bb_bw_win b).

(** The verdict and the state with the new baseline. *)
(* src/src/transport/recovery/congestion/cc/bbr.c : bbr_grew *)
Definition bbr_grew (b : bbr) (bw : Z) : bool * bbr :=
  if u64 (bw * 4) <? u64 (bb_full_bw b * 5) then (false, b)
  else (true, mk_bbr (bb_phase b) (bb_bw_win b) (bb_bw_idx b) (bb_btl_bw b) bw 0 (bb_filled b)
                (bb_cycle_idx b) (bb_rtprop_ms b) (bb_rtprop_at b) (bb_have_rtprop b) (bb_probe_rtt_end b)).

(* src/src/transport/recovery/congestion/cc/bbr.c : bbr_count_flat *)
Definition bbr_count_flat (b : bbr) : bbr :=
  let n := bb_full_bw_cnt b + 1 in
  mk_bbr (bb_phase b) (bb_bw_win b) (bb_bw_idx b) (bb_btl_bw b) (bb_full_bw b) n
    (if 3 <=? n then 1 else bb_filled b)
    (bb_cycle_idx b) (bb_rtprop_ms b) (bb_rtprop_at b) (bb_have_rtprop b) (bb_probe_rtt_end b).

(* src/src/transport/recovery/congestion/cc/bbr.c : bbr_full_pipe_check *)
Definition bbr_full_pipe_check (b : bbr) (bw : Z) : bbr :=
  if negb (bb_filled b =? 0) then b
  else let '(g, b') := bbr_grew b bw in if g then b' else bbr_count_flat b'.

(* src/src/transport/recovery/congestion/cc/bbr.c : bbr_maybe_drain *)
Definition bbr_maybe_drain (b : bbr) : bbr :=
  if (bb_phase b =? BBR_STARTUP) && negb (bb_filled b =? 0) then bb_set_phase b BBR_DRAIN else b.

(* src/src/transport/recovery/congestion/cc/bbr.c : bbr_on_round *)
Definition bbr_on_round (b : bbr) (bw_sample : Z) : option bbr :=
  win ← store (bb_bw_win b) (bb_bw_idx b) bw_sample;
  let b1 := mk_bbr (bb_phase b) win ((bb_bw_idx b + 1) mod BBR_BW_WIN) (bb_btl_bw b) (bb_full_bw b)
              (bb_full_bw_cnt b) (bb_filled b) (bb_cycle_idx b) (bb_rtprop_ms b) (bb_rtprop_at b)
              (bb_have_rtprop b) (bb_probe_rtt_end b) in
  let b2 := mk_bbr (bb_phase b1) win (bb_bw_idx b1) (bbr_win_max b1) (bb_full_bw b1)
              (bb_full_bw_cnt b1) (bb_filled b1) (bb_cycle_idx b1) (bb_rtprop_ms b1) (bb_rtprop_at b1)
              (bb_have_rtprop b1) (bb_probe_rtt_end b1) in
  Some (bbr_maybe_drain (bbr_full_pipe_check b2 (bb_btl_bw b2))).

(* src/src/transport/recovery/congestion/cc/bbr.c : bbr_rtprop_take *)
Definition bbr_rtprop_take (b : bbr) (rtt_ms now_ms : Z) : bool :=
  (bb_have_rtprop b =? 0) || (rtt_ms <=? bb_rtprop_ms b)
  || (BBR_RTPROP_WIN_MS <? u64 (now_ms - bb_rtprop_at b)).

(* src/src/transport/recovery/congestion/cc/bbr.c : bbr_on_rtt *)
Definition bbr_on_rtt (b : bbr) (rtt_ms now_ms : Z) : bbr :=
  if negb (bbr_rtprop_take b rtt_ms now_ms) then b
  else mk_bbr (bb_phase b) (bb_bw_win b) (bb_bw_idx b) (bb_btl_bw b) (bb_full_bw b) (bb_full_bw_cnt b)
         (bb_filled b) (bb_cycle_idx b) rtt_ms now_ms 1 (bb_probe_rtt_end b).

(* src/src/transport/recovery/congestion/cc/bbr.c : bbr_drained *)
Definition bbr_drained (b : bbr) (inflight_at_bdp : bool) : bbr :=
  if (bb_phase b =? BBR_DRAIN) && inflight_at_bdp then bb_set_phase b BBR_PROBE_BW else b.

(* src/src/transport/recovery/congestion/cc/bbr.c : bbr_cycle_tick *)
Definition bbr_cycle_tick (b : bbr) : bbr :=
  if negb (bb_phase b =? BBR_PROBE_BW) then b
  else mk_bbr (bb_phase b) (bb_bw_win b) (bb_bw_idx b) (bb_btl_bw b) (bb_full_bw b) (bb_full_bw_cnt b)
         (bb_filled b) ((bb_cycle_idx b + 1) mod 8) (bb_rtprop_ms b) (bb_rtprop_at b) (bb_have_rtprop b) (bb_probe_rtt_end b).

(* src/src/transport/recovery/congestion/cc/bbr.c : bbr_probe_rtt_due *)
Definition bbr_probe_rtt_due (b : bbr) (now_ms : Z) : bool :=
  negb (bb_phase b =? BBR_PROBE_RTT) && negb (bb_have_rtprop b =? 0)
  && (BBR_RTPROP_WIN_MS <? u64 (now_ms - bb_rtprop_at b)).

(* src/src/transport/recovery/congestion/cc/bbr.c : bbr_check_probe_rtt *)
Definition bbr_check_probe_rtt (b : bbr) (now_ms : Z) : Z * bbr :=
  if negb (bbr_probe_rtt_due b now_ms) then (0, b)
  else (1, mk_bbr BBR_PROBE_RTT (bb_bw_win b) (bb_bw_idx b) (bb_btl_bw b) (bb_full_bw b) (bb_full_bw_cnt b)
             (bb_filled b) (bb_cycle_idx b) (bb_rtprop_ms b) (bb_rtprop_at b) (bb_have_rtprop b)
             (u64 (now_ms + BBR_PROBE_RTT_MS))).

(* src/src/transport/recovery/congestion/cc/bbr.c : bbr_exit_phase *)
Definition bbr_exit_phase (b : bbr) : Z := if negb (bb_filled b =? 0) then BBR_PROBE_BW else BBR_STARTUP.

(* src/src/transport/recovery/congestion/cc/bbr.c : bbr_probe_rtt_exit *)
Definition bbr_probe_rtt_exit (b : bbr) (now_ms : Z) : bbr :=
  if negb (bb_phase b =? BBR_PROBE_RTT) || (now_ms <? bb_probe_rtt_end b) then b
  else mk_bbr (bbr_exit_phase b) (bb_bw_win b) (bb_bw_idx b) (bb_btl_bw b) (bb_full_bw b) (bb_full_bw_cnt b)
         (bb_filled b) (bb_cycle_idx b) (bb_rtprop_ms b) now_ms (bb_have_rtprop b) (bb_probe_rtt_end b).

(* src/src/transport/recovery/congestion/cc/bbr.c : bbr_cycle_pct *)
Definition bbr_cycle_pct : list Z := [125; 75; 100; 100; 100; 100; 100; 100].

(* src/src/transport/recovery/congestion/cc/bbr.c : bbr_pacing_gain_pct *)
Definition bbr_pacing_gain_pct (b : bbr) : option Z :=
  if bb_phase b =? BBR_PROBE_BW then load bbr_cycle_pct (bb_cycle_idx b)
  else load [289; 35; 0; 100] (bb_phase b).

(* src/src/transport/recovery/congestion/cc/bbr.c : bbr_cwnd_gain_pct *)
Definition bbr_cwnd_gain_pct (b : bbr) : option Z := load [289; 289; 200; 100] (bb_phase b).

(** ** ccloss.c, ccphase.c, persistent.c, pacing.c, cwndcheck.c, cwndctl.c *)

(* src/src/transport/recovery/congestion/cc/cc.h : MAX_DATAGRAM *)
Definition MAX_DATAGRAM : Z := 1200.
(* src/src/transport/recovery/congestion/cc/cc.h : CC_MIN_WINDOW *)
Definition CC_MIN_WINDOW : Z := 2 * MAX_DATAGRAM.
(* src/src/transport/recovery/congestion/cc/cc.h : CC_INIT_WINDOW *)
Definition CC_INIT_WINDOW : Z := 10 * MAX_DATAGRAM.
Definition CC_ALGO_NEWRENO : Z := 0.
Definition CC_ALGO_CUBIC : Z := 1.
Definition CC_ALGO_BBR : Z := 2.

(* src/src/transport/recovery/congestion/cc/ccloss.c : cc_on_loss_ssthresh *)
Definition cc_on_loss_ssthresh (cwnd : Z) : Z := cwnd / 2.
(* src/src/transport/recovery/congestion/cc/ccloss.c : cc_on_loss_cwnd *)
Definition cc_on_loss_cwnd (cwnd max_datagram : Z) : Z := u64_max (cwnd / 2) (u64 (2 * max_datagram)).
(* src/src/transport/recovery/congestion/cc/ccloss.c : cc_in_recovery *)
Definition cc_in_recovery (sent_time recovery_start : Z) : bool := sent_time <=? recovery_start.

(* src/src/transport/recovery/congestion/cc/ccphase.c : cc_in_slow_start *)
Definition cc_in_slow_start (cwnd ssthresh : Z) : bool := cwnd <? ssthresh.
(* src/src/transport/recovery/congestion/cc/ccphase.c : cc_slow_start_inc *)
Definition cc_slow_start_inc (acked : Z) : Z := acked.
(* src/src/transport/recovery/congestion/cc/ccphase.c : cc_avoid_inc *)
Definition cc_avoid_inc (max_datagram acked cwnd : Z) : Z := u64 (max_datagram * acked) / cwnd.

(* src/src/transport/recovery/congestion/cc/persistent.c : cc_persistent *)
Definition cc_persistent (loss_period pto : Z) : bool := u64 (3 * pto) <? loss_period.
(* src/src/transport/recovery/congestion/cc/persistent.c : cc_persistent_cwnd *)
Definition cc_persistent_cwnd (max_datagram : Z) : Z := u64 (2 * max_datagram).

(* src/src/transport/recovery/congestion/cc/pacing.c : pacing_interval *)
Definition pacing_interval (srtt cwnd packet_size : Z) : Z :=
  if cwnd =? 0 then 0 else u64 (u64 (5 * packet_size) * srtt) / u64 (4 * cwnd).

(* src/src/transport/recovery/congestion/cc/cwndcheck.c : cwnd_can_send *)
Definition cwnd_can_send (in_flight cwnd size : Z) : bool := u64 (in_flight + size) <=? cwnd.
(* src/src/transport/recovery/congestion/cc/cwndcheck.c : cwnd_app_limited *)
Definition cwnd_app_limited (in_flight cwnd : Z) : bool := in_flight <? cwnd.
(* src/src/transport/recovery/congestion/cwndctl/cwndctl.c : cwndctl_can_send *)
Definition cwndctl_can_send (bytes_in_flight cwnd next_packet_size : Z) : bool :=
  cwnd_can_send bytes_in_flight cwnd next_packet_size.
(* src/src/transport/recovery/congestion/cwndctl/cwndctl.c : cwndctl_pacing_interval *)
Definition cwndctl_pacing_interval (smoothed_rtt cwnd mtu : Z) : Z := pacing_interval smoothed_rtt cwnd mtu.

(** ** cc.c *)

(* src/src/transport/recovery/congestion/cc/cc.h : cc *)
Record cc := mk_cc {
  c_cwnd : Z; c_ssthresh : Z; c_in_recovery : Z; c_recovery_start : Z; c_algo : Z;
  c_w_max_seg : Z; c_k_ms : Z; c_epoch_ms : Z; c_bbr : bbr; c_round_bytes : Z; c_round_start_ms : Z;
  c_app_limited : Z }.

(* src/src/transport/recovery/congestion/cc/cc.c : cc_init_algo *)
Definition cc_init_algo (algo : Z) : cc :=
  mk_cc CC_INIT_WINDOW 18446744073709551615 0 0 algo 0 0 0 bbr_init 0 0 0.

(* src/src/transport/recovery/congestion/cc/cc.c : cc_init *)
Definition cc_init : cc := cc_init_algo CC_ALGO_NEWRENO.

Definition set_cwnd (c : cc) (w : Z) : cc :=
  mk_cc w (c_ssthresh c) (c_in_recovery c) (c_recovery_start c) (c_algo c) (c_w_max_seg c) (c_k_ms c)
    (c_epoch_ms c) (c_bbr c) (c_round_bytes c) (c_round_start_ms c) (c_app_limited c).
Definition set_in_recovery (c : cc) (v : Z) : cc :=
  mk_cc (c_cwnd c) (c_ssthresh c) v (c_recovery_start c) (c_algo c) (c_w_max_seg c) (c_k_ms c)
    (c_epoch_ms c) (c_bbr c) (c_round_bytes c) (c_round_start_ms c) (c_app_limited c).
Definition set_cubic (c : cc) (w_max k epoch : Z) : cc :=
  mk_cc (c_cwnd c) (c_ssthresh c) (c_in_recovery c) (c_recovery_start c) (c_algo c) w_max k
    epoch (c_bbr c) (c_round_bytes c) (c_round_start_ms c) (c_app_limited c).
Definition set_bbr (c : cc) (b : bbr) (round_bytes round_start : Z) : cc :=
  mk_cc (c_cwnd c) (c_ssthresh c) (c_in_recovery c) (c_recovery_start c) (c_algo c) (c_w_max_seg c) (c_k_ms c)
    (c_epoch_ms c) b round_bytes round_start (c_app_limited c).
Definition set_app_limited (c : cc) (v : Z) : cc :=
  mk_cc (c_cwnd c) (c_ssthresh c) (c_in_recovery c) (c_recovery_start c) (c_algo c) (c_w_max_seg c) (c_k_ms c)
    (c_epoch_ms c) (c_bbr c) (c_round_bytes c) (c_round_start_ms c) v.

(* src/src/transport/recovery/congestion/cc/cc.c : grow *)
Definition grow (c : cc) (acked : Z) : cc :=
  let inc := if c_cwnd c <? c_ssthresh c then acked else u64 (MAX_DATAGRAM * acked) / c_cwnd c in
  set_cwnd c (u64 (c_cwnd c + inc)).

(* src/src/transport/recovery/congestion/cc/cc.c : maybe_exit_recovery *)
Definition maybe_exit_recovery (c : cc) (sent_time : Z) : cc :=
  if negb (c_in_recovery c =? 0) && (c_recovery_start c <? sent_time) then set_in_recovery c 0 else c.

(* src/src/transport/recovery/congestion/cc/cc.c : grow_cubic *)
Definition grow_cubic (c : cc) (acked now : Z) : cc :=
  if c_w_max_seg c =? 0 then grow c acked
  else
    let target := u64 (cubic_w (u64 (now - c_epoch_ms c)) (c_k_ms c) (c_w_max_seg c) * MAX_DATAGRAM) in
    if c_cwnd c <? target then set_cwnd c target else c.

(* src/src/transport/recovery/congestion/cc/cc.c : feed_bbr *)
Definition feed_bbr (c : cc) (acked sent_time now : Z) : cc :=
  set_bbr c (bbr_on_rtt (c_bbr c) (u64 (now - sent_time)) now) (u64 (c_round_bytes c + acked)) (c_round_start_ms c).

(* src/src/transport/recovery/congestion/cc/cc.c : grow_algo *)
Definition grow_algo (c : cc) (acked now : Z) : cc :=
  if c_algo c =? CC_ALGO_CUBIC then grow_cubic c acked now else grow c acked.

(* src/src/transport/recovery/congestion/cc/cc.c : cc_may_grow *)
Definition cc_may_grow (c : cc) : bool := (c_in_recovery c =? 0) && (c_app_limited c =? 0).

(* src/src/transport/recovery/congestion/cc/cc.c : cc_on_ack *)
Definition cc_on_ack (c : cc) (acked sent_time now : Z) : cc :=
  if c_algo c =? CC_ALGO_BBR then feed_bbr c acked sent_time now
  else
    let c1 := maybe_exit_recovery c sent_time in
    if cc_may_grow c1 then grow_algo c1 acked now else c1.

(** The new window and the state with the re-anchored epoch. *)
(* src/src/transport/recovery/congestion/cc/cc.c : loss_window_cubic *)
Definition loss_window_cubic (c : cc) (now : Z) : Z * cc :=
  let w_seg := c_cwnd c / MAX_DATAGRAM in
  let w_max := cubic_wmax_fastconv w_seg (c_w_max_seg c) in
  (u64_max (u64 (c_cwnd c * 7) / 10) CC_MIN_WINDOW, set_cubic c w_max (cubic_k_ms w_max) now).

(* src/src/transport/recovery/congestion/cc/cc.c : loss_window *)
Definition loss_window (c : cc) (now : Z) : Z * cc :=
  if c_algo c =? CC_ALGO_CUBIC then loss_window_cubic c now
  else (u64_max (c_cwnd c / 2) CC_MIN_WINDOW, c).

(* src/src/transport/recovery/congestion/cc/cc.c : cc_in_period *)
Definition cc_in_period (c : cc) (sent_time : Z) : bool :=
  negb (c_recovery_start c =? 0) && cc_in_recovery sent_time (c_recovery_start c).

(* src/src/transport/recovery/congestion/cc/cc.c : cc_on_loss *)
Definition cc_on_loss (c : cc) (sent_time now : Z) : cc :=
  if negb (c_in_recovery c =? 0) || cc_in_period c sent_time then c
  else
    let '(w, c1) := loss_window c now in
    mk_cc w w 1 now (c_algo c1) (c_w_max_seg c1) (c_k_ms c1) (c_epoch_ms c1) (c_bbr c1)
      (c_round_bytes c1) (c_round_start_ms c1) (c_app_limited c1).

(* src/src/transport/recovery/congestion/cc/ccloss.c : cc_on_persistent *)
Definition cc_on_persistent (c : cc) : cc :=
  if c_algo c =? CC_ALGO_BBR then c
  else mk_cc CC_MIN_WINDOW (c_ssthresh c) 0 0 (c_algo c) (c_w_max_seg c) (c_k_ms c) (c_epoch_ms c) (c_bbr c)
         (c_round_bytes c) (c_round_start_ms c) (c_app_limited c).

(* src/src/transport/recovery/congestion/cc/cc.c : bbr_bdp *)
Definition bbr_bdp (c : cc) : Z := u64 (bb_btl_bw (c_bbr c) * bb_rtprop_ms (c_bbr c)).

(* src/src/transport/recovery/congestion/cc/cc.c : bbr_round_counts *)
Definition bbr_round_counts (c : cc) (rate : Z) : bool :=
  let starved := u64 (c_round_bytes c + MAX_DATAGRAM) <? c_cwnd c in
  negb starved || (bb_btl_bw (c_bbr c) <? rate).

(* src/src/transport/recovery/congestion/cc/cc.c : bbr_round_feed *)
Definition bbr_round_feed (c : cc) (now_ms rate : Z) : option cc :=
  b ← (if bbr_round_counts c rate then bbr_on_round (c_bbr c) rate else Some (c_bbr c));
  Some (set_bbr c (bbr_cycle_tick b) 0 now_ms).

(* src/src/transport/recovery/congestion/cc/cc.c : bbr_round_close *)
Definition bbr_round_close (c : cc) (now_ms : Z) : option cc :=
  let span := u64 (now_ms - c_round_start_ms c) in
  let need := u64_max (bb_rtprop_ms (c_bbr c)) 1 in
  if (span <? need) || (c_round_bytes c =? 0) then Some c
  else bbr_round_feed c now_ms (c_round_bytes c / span).

(* src/src/transport/recovery/congestion/cc/cc.c : CC_BBR_MIN_CWND *)
Definition CC_BBR_MIN_CWND : Z := 4 * MAX_DATAGRAM.

(* src/src/transport/recovery/congestion/cc/cc.c : bbr_set_cwnd *)
Definition bbr_set_cwnd (c : cc) : option cc :=
  let bdp := bbr_bdp c in
  if bdp =? 0 then Some c
  else g ← bbr_cwnd_gain_pct (c_bbr c);
       Some (set_cwnd c (u64_max (u64 (g * bdp) / 100) CC_BBR_MIN_CWND)).

Definition on_bbr (c : cc) (b : bbr) : cc := set_bbr c b (c_round_bytes c) (c_round_start_ms c).

(* src/src/transport/recovery/congestion/cc/cc.c : cc_bbr_tick *)
Definition cc_bbr_tick (c : cc) (inflight_bytes now_ms : Z) : option cc :=
  if negb (c_algo c =? CC_ALGO_BBR) then Some c
  else
    c1 ← bbr_round_close c now_ms;
    let c2 := on_bbr c1 (bbr_drained (c_bbr c1) (inflight_bytes <=? bbr_bdp c1)) in
    let '(entered, b3) := bbr_check_probe_rtt (c_bbr c2) now_ms in
    let c3 := on_bbr c2 (if entered =? 0 then bbr_probe_rtt_exit b3 now_ms else b3) in
    bbr_set_cwnd c3.

(* src/src/transport/recovery/congestion/cc/cc.c : bbr_pacing_ms *)
Definition bbr_pacing_ms (c : cc) (mtu : Z) : option Z :=
  g ← bbr_pacing_gain_pct (c_bbr c);
  let rate := u64 (g * bb_btl_bw (c_bbr c)) / 100 in
  Some (if rate =? 0 then 0 else u64_max (mtu / rate) 1).

(* src/src/transport/recovery/congestion/cc/cc.c : newreno_pacing_ms *)
Definition newreno_pacing_ms (c : cc) (srtt_ms mtu : Z) : Z :=
  let ms := pacing_interval srtt_ms (c_cwnd c) mtu in
  if negb (srtt_ms =? 0) then u64_max ms 1 else ms.

(* src/src/transport/recovery/congestion/cc/cc.c : cc_pacing_ms *)
Definition cc_pacing_ms (c : cc) (srtt_ms mtu : Z) : option Z :=
  if c_algo c =? CC_ALGO_BBR then bbr_pacing_ms c mtu else Some (newreno_pacing_ms c srtt_ms mtu).

(** ** ecn.c *)

(* src/src/transport/recovery/congestion/cc/ecn.h : ecn_counts *)
Record ecn_counts := mk_ecn_counts { e_ce : Z; e_ect0 : Z }.

(* src/src/transport/recovery/congestion/cc/ecn.h : ecn_track *)
Record ecn_track := mk_ecn_track { et_enabled : Z; et_prev : ecn_counts; et_fail_count : Z }.

(* src/src/transport/recovery/congestion/cc/ecn.h : ecn_report *)
Record ecn_report := mk_ecn_report { er_next : ecn_counts; er_ect1 : Z; er_sent_ect : Z; er_newly_acked : Z }.

(* src/src/transport/recovery/congestion/cc/ecn.c : ecn_ce_increased *)
Definition ecn_ce_increased (prev_ce new_ce : Z) : bool := prev_ce <? new_ce.

(* src/src/transport/recovery/congestion/cc/ecn.c : ecn_counts_valid *)
Definition ecn_counts_valid (prev next : ecn_counts) : bool :=
  (e_ce prev <=? e_ce next) && (e_ect0 prev <=? e_ect0 next).

(* src/src/transport/recovery/congestion/cc/ecn.c : ecn_on_ce_increase *)
Definition ecn_on_ce_increase (c : cc) (prev_ce new_ce sent_time now : Z) : cc :=
  if negb (ecn_ce_increased prev_ce new_ce) then c else cc_on_loss c sent_time now.

(* src/src/transport/recovery/congestion/cc/ecn.c : ecn_track_init *)
Definition ecn_track_init : ecn_track := mk_ecn_track 1 (mk_ecn_counts 0 0) 0.

(* src/src/transport/recovery/congestion/cc/ecn.c : ecn_track_fail *)
Definition ecn_track_fail (t : ecn_track) : ecn_track := mk_ecn_track 0 (et_prev t) (u64 (et_fail_count t + 1)).

(* src/src/transport/recovery/congestion/cc/ecn.c : ecn_report_bounded *)
Definition ecn_report_bounded (prev next : ecn_counts) (sent_ect newly_acked : Z) : bool :=
  (u64 (e_ect0 next + e_ce next) <=? sent_ect)
  && (newly_acked <=? u64 (u64 (e_ect0 next - e_ect0 prev) + u64 (e_ce next - e_ce prev))).

(* src/src/transport/recovery/congestion/cc/ecn.c : ecn_report_ok *)
Definition ecn_report_ok (t : ecn_track) (r : ecn_report) : bool :=
  ecn_counts_valid (et_prev t) (er_next r) && (er_ect1 r =? 0)
  && ecn_report_bounded (et_prev t) (er_next r) (er_sent_ect r) (er_newly_acked r).

(* src/src/transport/recovery/congestion/cc/ecn.c : ecn_track_on_counts *)
Definition ecn_track_on_counts (t : ecn_track) (c : cc) (r : ecn_report) (sent_time now : Z) : ecn_track * cc :=
  if et_enabled t =? 0 then (t, c)
  else if negb (ecn_report_ok t r) then (ecn_track_fail t, c)
  else (mk_ecn_track (et_enabled t) (er_next r) (et_fail_count t),
        ecn_on_ce_increase c (e_ce (et_prev t)) (e_ce (er_next r)) sent_time now).

(* src/src/transport/recovery/congestion/cc/ecn.c : ecn_track_on_missing *)
Definition ecn_track_on_missing (t : ecn_track) (sent_ect : Z) : ecn_track :=
  if negb (et_enabled t =? 0) && (0 <? sent_ect) then ecn_track_fail t else t.

(** ** hystart.c *)

Definition HYSTART_NONE : Z := 18446744073709551615.
(* src/src/transport/recovery/congestion/cc/hystart.c : HYSTART_N_SAMPLES *)
Definition HYSTART_N_SAMPLES : Z := 8.
(* src/src/transport/recovery/congestion/cc/hystart.c : HYSTART_MIN_ETA *)
Definition HYSTART_MIN_ETA : Z := 4.
(* src/src/transport/recovery/congestion/cc/hystart.c : HYSTART_MAX_ETA *)
Definition HYSTART_MAX_ETA : Z := 16.
(* src/src/transport/recovery/congestion/cc/hystart.c : HYSTART_CSS_GROWTH_DIVISOR *)
Definition HYSTART_CSS_GROWTH_DIVISOR : Z := 4.
(* src/src/transport/recovery/congestion/cc/hystart.c : HYSTART_CSS_ROUNDS *)
Definition HYSTART_CSS_ROUNDS : Z := 5.

(* src/src/transport/recovery/congestion/cc/hystart.h : hystart *)
Record hystart := mk_hystart {
  hs_last_round_min : Z; hs_curr_round_min : Z; hs_samples : Z; hs_round_end_pn : Z; hs_have_boundary : Z;
  hs_css : Z; hs_css_baseline : Z; hs_css_rounds : Z }.

(* src/src/transport/recovery/congestion/cc/hystart.c : hystart_init *)
Definition hystart_init : hystart := mk_hystart HYSTART_NONE HYSTART_NONE 0 0 0 0 HYSTART_NONE 0.

(* src/src/transport/recovery/congestion/cc/hystart.c : hystart_eta *)
Definition hystart_eta (last_min : Z) : Z :=
  let eta := last_min / 8 in
  if eta <? HYSTART_MIN_ETA then HYSTART_MIN_ETA
  else if HYSTART_MAX_ETA <? eta then HYSTART_MAX_ETA else eta.

(* src/src/transport/recovery/congestion/cc/hystart.c : hystart_roll *)
Definition hystart_roll (h : hystart) (next_pn : Z) : hystart :=
  mk_hystart (hs_curr_round_min h) HYSTART_NONE 0 next_pn (hs_have_boundary h) (hs_css h) (hs_css_baseline h)
    (u64 (hs_css_rounds h + hs_css h)).

(* src/src/transport/recovery/congestion/cc/hystart.c : hystart_maybe_roll *)
Definition hystart_maybe_roll (h : hystart) (acked_pn next_pn : Z) : hystart :=
  if hs_have_boundary h =? 0 then
    mk_hystart (hs_last_round_min h) (hs_curr_round_min h) (hs_samples h) next_pn 1 (hs_css h)
      (hs_css_baseline h) (hs_css_rounds h)
  else if hs_round_end_pn h <=? acked_pn then hystart_roll h next_pn else h.

(* src/src/transport/recovery/congestion/cc/hystart.c : hystart_due *)
Definition hystart_due (h : hystart) : bool :=
  (HYSTART_N_SAMPLES <=? hs_samples h) && negb (hs_last_round_min h =? HYSTART_NONE)
  && (u64 (hs_last_round_min h + hystart_eta (hs_last_round_min h)) <=? hs_curr_round_min h).

(* src/src/transport/recovery/congestion/cc/hystart.c : hystart_ss_step *)
Definition hystart_ss_step (h : hystart) : Z * hystart :=
  if negb (hystart_due h) then (0, h)
  else (0, mk_hystart (hs_last_round_min h) (hs_curr_round_min h) (hs_samples h) (hs_round_end_pn h)
             (hs_have_boundary h) 1 (hs_curr_round_min h) 0).

(* src/src/transport/recovery/congestion/cc/hystart.c : hystart_css_spurious *)
Definition hystart_css_spurious (h : hystart) : bool :=
  (HYSTART_N_SAMPLES <=? hs_samples h) && (hs_curr_round_min h <? hs_css_baseline h).

(* src/src/transport/recovery/congestion/cc/hystart.c : hystart_css_step *)
Definition hystart_css_step (h : hystart) : Z * hystart :=
  if hystart_css_spurious h then
    (0, mk_hystart (hs_last_round_min h) (hs_curr_round_min h) (hs_samples h) (hs_round_end_pn h)
          (hs_have_boundary h) 0 (hs_css_baseline h) (hs_css_rounds h))
  else (if HYSTART_CSS_ROUNDS <=? hs_css_rounds h then 1 else 0, h).

(* src/src/transport/recovery/congestion/cc/hystart.c : hystart_acked *)
Definition hystart_acked (h : hystart) (acked : Z) : Z :=
  if negb (hs_css h =? 0) then acked / HYSTART_CSS_GROWTH_DIVISOR else acked.

(* src/src/transport/recovery/congestion/cc/hystart.c : hystart_sample *)
Definition hystart_sample (h : hystart) (rtt_ms acked_pn next_pn : Z) : Z * hystart :=
  let h1 := hystart_maybe_roll h acked_pn next_pn in
  let h2 := mk_hystart (hs_last_round_min h1)
              (if rtt_ms <? hs_curr_round_min h1 then rtt_ms else hs_curr_round_min h1)
              (u64 (hs_samples h1 + 1)) (hs_round_end_pn h1) (hs_have_boundary h1) (hs_css h1)
              (hs_css_baseline h1) (hs_css_rounds h1) in
  if negb (hs_css h2 =? 0) then hystart_css_step h2 else hystart_ss_step h2.

(** ** The integer cube root *)

(** After the rounds down to weight [8^k], [y] is the cube root of the digits
    read so far and [x] what is left of the number. *)
Definition icbrt_inv (x0 : Z) (k : nat) (xy : Z * Z) : Prop :=
  let '(x, y) := xy in
  0 <= y < 2 ^ (22 - Z.of_nat k) /\ 0 <= x /\ x0 = x + y * y * y * 8 ^ Z.of_nat k /\
  x < (3 * y * (y + 1) + 1) * 8 ^ Z.of_nat k.

Lemma icbrt_step_inv x0 k xy :
  (k < 22)%nat -> is_u64 x0 -> icbrt_inv x0 (S k) xy -> icbrt_inv x0 k (icbrt_step (3 * Z.of_nat k) xy).
Proof.
  destruct xy as [x y]. unfold is_u64. intros Hk Hx0 (Hy & Hx & He & Hlt).
  rewrite Nat2Z.inj_succ, Z.pow_succ_r in He, Hlt by lia.
  set (w := 8 ^ Z.of_nat k) in *. assert (1 <= w) as Hw by (unfold w; apply (Z.pow_le_mono_r 8 0); lia).
  assert (2 ^ (22 - Z.of_nat k) = 2 * 2 ^ (22 - Z.of_nat (S k))) as Hp.
  { rewrite <- Z.pow_succ_r by lia. f_equal. lia. }
  assert (2 ^ (22 - Z.of_nat (S k)) <= 2 ^ 21) as Hp21 by (apply Z.pow_le_mono_r; lia).
  change (2 ^ 21) with 2097152 in Hp21.
  unfold icbrt_step, icbrt_inv. cbn [fst snd].
  rewrite (u64_small (2 * y)) by lia. set (z := 2 * y) in *.
  rewrite (u64_small (3 * z)), (u64_small (z + 1)) by lia.
  rewrite (u64_small (3 * z * (z + 1))) by nia.
  rewrite (u64_small (_ + 1)) by nia. set (b := 3 * z * (z + 1) + 1).
  rewrite Z.shiftr_div_pow2, Z.shiftl_mul_pow2 by lia.
  assert (2 ^ (3 * Z.of_nat k) = w) as Hpw by (unfold w; rewrite Z.pow_mul_r by lia; done).
  rewrite Hpw. assert (x <= x0) by nia. assert (0 < b) by (unfold b; nia).
  destruct (b <=? x / w) eqn:Eb.
  - assert (b * w <= x) by (apply Z.leb_le in Eb; pose proof (Z.mul_div_le x w ltac:(lia)); nia).
    rewrite (u64_small (b * w)) by nia. rewrite (u64_small (x - b * w)) by lia.
    split_and!; try lia; unfold b, z in *; nia.
  - assert (x < b * w) by (apply Z.leb_gt in Eb; pose proof (Z.mul_succ_div_gt x w ltac:(lia)); nia).
    split_and!; try lia; unfold b, z in *; nia.
Qed.

Lemma icbrt_loop_inv x0 k : forall xy,
  (k <= 22)%nat -> is_u64 x0 -> icbrt_inv x0 k xy -> icbrt_inv x0 0 (icbrt_loop k xy).
Proof.
  induction k as [|k IH]; intros xy Hk Hx Hi; cbn [icbrt_loop]; [done|].
  apply IH; [lia|done|]. apply icbrt_step_inv; done || lia.
Qed.

(** [icbrt] is the integer cube root of every 64-bit value. *)
Lemma icbrt_spec x : is_u64 x -> 0 <= icbrt x < 2 ^ 22 /\ icbrt x ^ 3 <= x < (icbrt x + 1) ^ 3.
Proof.
  intros Hx. unfold icbrt. pose proof (icbrt_loop_inv x 22 (x, 0) (le_n _) Hx) as H.
  unfold icbrt_inv in H at 1. change (Z.of_nat 22) with 22 in H. unfold is_u64 in Hx.
  specialize (H ltac:(change (8 ^ 22) with 73786976294838206464; lia)).
  destruct (icbrt_loop 22 (x, 0)) as [r y]. cbn [snd]. unfold icbrt_inv in H.
  change (Z.of_nat 0) with 0 in H. rewrite Z.pow_0_r, Z.sub_0_r in H.
  destruct H as (Hy & Hr & He & Hlt). split; [done|].
  replace (y ^ 3) with (y * y * y) by ring. replace ((y + 1) ^ 3) with ((y + 1) * (y + 1) * (y + 1)) by ring. nia.
Qed.

(** ** The CUBIC curve *)

Definition mag (m : Z) : Z := (Z.min m CUBIC_D_CAP ^ 3 + 1250000000) / 2500000000.

Lemma cubic_mag_eq m : 0 <= m -> cubic_mag m = mag m /\ 0 <= mag m <= 400000.
Proof.
  intros Hm. unfold cubic_mag, mag, CUBIC_D_CAP.
  assert ((if 100000 <? m then 100000 else m) = Z.min m 100000) as -> by (bcase; lia).
  set (k := Z.min m 100000). assert (0 <= k <= 100000) as Hk by lia.
  assert (0 <= k * k <= 10000000000) by nia. assert (0 <= k * k * k <= 1000000000000000) by nia.
  rewrite (u64_small (k * k)) by lia. rewrite (u64_small (k * k * k)) by lia. rewrite u64_small by lia.
  replace (k ^ 3) with (k * k * k) by ring. split; [done|].
  split; [apply Z.div_pos; lia|apply Z.lt_succ_r, Z.div_lt_upper_bound; lia].
Qed.

Lemma mag_mono a b : 0 <= a <= b -> mag a <= mag b.
Proof.
  intros. unfold mag. apply Z.div_le_mono; [lia|]. apply Z.add_le_mono_r, Z.pow_le_mono_l.
  unfold CUBIC_D_CAP. lia.
Qed.

Lemma s64_small x : -9223372036854775808 <= x < 9223372036854775808 -> s64 x = x.
Proof. intros. unfold s64. rewrite Z.mod_small by lia. lia. Qed.

Definition term (d : Z) : Z := if d <? 0 then - mag (- d) else mag d.

Lemma cubic_term_eq d : -4611686018427387904 < d < 4611686018427387904 -> cubic_term d = term d.
Proof.
  intros Hd. unfold cubic_term, term. destruct (d <? 0) eqn:E.
  - rewrite u64_small by lia. destruct (cubic_mag_eq (- d)) as [-> ?]; [lia|]. rewrite s64_small by lia. done.
  - rewrite u64_small by lia. destruct (cubic_mag_eq d) as [-> ?]; [lia|]. rewrite s64_small by lia. done.
Qed.

Lemma term_mono a b : a <= b -> term a <= term b.
Proof.
  intros. unfold term. destruct (a <? 0) eqn:Ea, (b <? 0) eqn:Eb; try lia.
  - pose proof (mag_mono (- b) (- a)). lia.
  - destruct (cubic_mag_eq (- a)) as [_ ?]; [lia|]. destruct (cubic_mag_eq b) as [_ ?]; lia.
  - apply mag_mono. lia.
Qed.

Lemma term_bound d : -400000 <= term d <= 400000.
Proof.
  unfold term. bcase; [destruct (cubic_mag_eq (- d)) as [_ ?]; lia|destruct (cubic_mag_eq d) as [_ ?]; lia].
Qed.

Lemma cubic_w_eq t k w :
  0 <= t < 4611686018427387904 -> 0 <= k < 4611686018427387904 -> 0 <= w <= 9223372036000000000 ->
  cubic_w t k w = Z.max 0 (w + term (t - k)).
Proof.
  intros Ht Hk Hw. unfold cubic_w. rewrite !s64_small by lia. rewrite cubic_term_eq by lia.
  pose proof (term_bound (t - k)). bcase; [rewrite u64_small by lia|]; lia.
Qed.

Lemma cubic_k_spec w :
  0 <= w <= 1000000 ->
  cubic_k_ms w ^ 3 <= w * 750000000 < (cubic_k_ms w + 1) ^ 3 /\ 0 <= cubic_k_ms w < 4194304.
Proof.
  intros Hw. unfold cubic_k_ms. rewrite u64_small by lia.
  destruct (icbrt_spec (w * 750000000)) as [H1 H2]; [unfold is_u64; lia|]. split; [exact H2|exact H1].
Qed.

Lemma term_0 : term 0 = 0.
Proof. reflexivity. Qed.

Lemma term_neg k : 0 <= k -> term (0 - k) = - mag k.
Proof.
  intros. destruct (Z.eq_dec k 0) as [->|]; [reflexivity|].
  unfold term. replace (0 - k <? 0) with true by lia. do 2 f_equal. lia.
Qed.

(** The cube of a truncated root is close to the number. *)
Lemma cubic_start_error w k :
  0 <= w <= 1000 -> 0 <= k -> k ^ 3 <= w * 750000000 < (k + 1) ^ 3 ->
  k <= 9100 /\ w * 750000000 - 248520000 <= k ^ 3.
Proof.
  intros Hw Hk. replace (k ^ 3) with (k * k * k) by ring.
  replace ((k + 1) ^ 3) with ((k + 1) * (k + 1) * (k + 1)) by ring. intros H.
  assert (k <= 9100) by nia. split; [done|]. nia.
Qed.

Lemma mag_start w k :
  0 <= w <= 1000 -> 0 <= k -> k ^ 3 <= w * 750000000 < (k + 1) ^ 3 ->
  3 * w - 10 <= 10 * mag k <= 3 * w + 10.
Proof.
  intros Hw Hk H. destruct (cubic_start_error w k Hw Hk H) as [Hb He].
  unfold mag, CUBIC_D_CAP. rewrite Z.min_l by lia. set (c := k ^ 3) in *.
  pose proof (Z.mul_div_le (c + 1250000000) 2500000000 ltac:(lia)) as D1.
  pose proof (Z.mul_succ_div_gt (c + 1250000000) 2500000000 ltac:(lia)) as D2.
  set (q := (c + 1250000000) / 2500000000) in *. lia.
Qed.

(** The integer CUBIC curve (RFC 9438).  For up to 10^6 segments, K is the
    exact integer cube root of 0.75e9 W_max (which does not overflow); the
    curve never decreases with time, is exactly W_max at t = K, and for windows
    up to 1000 segments starts within one segment of 0.7 W_max. *)
Theorem cubic_curve (w : Z) :
  0 <= w <= 1000000 ->
  let k := cubic_k_ms w in
  k ^ 3 <= w * 750000000 < (k + 1) ^ 3 /\
  cubic_w k k w = w /\
  (forall t1 t2, 0 <= t1 <= t2 -> t2 < 4611686018427387904 -> cubic_w t1 k w <= cubic_w t2 k w) /\
  (w <= 1000 -> 7 * w - 10 <= 10 * cubic_w 0 k w <= 7 * w + 10).
Proof.
  intros Hw. cbv zeta. destruct (cubic_k_spec w Hw) as [Hk Hkb].
  generalize dependent (cubic_k_ms w). intros k Hk Hkb. split; [exact Hk|]. split_and!.
  - rewrite cubic_w_eq by lia. rewrite Z.sub_diag, term_0. lia.
  - intros t1 t2 Ht Ht2. rewrite !cubic_w_eq by lia. pose proof (term_mono (t1 - k) (t2 - k)). lia.
  - intros Hw2. rewrite cubic_w_eq by lia. rewrite term_neg by lia.
    pose proof (mag_start w k ltac:(lia) ltac:(lia) Hk). lia.
Qed.

Lemma cubic_curve_witness :
  let k := cubic_k_ms 100 in k = 4217 /\ cubic_w 0 k 100 = 70 /\ cubic_w k k 100 = 100.
Proof.
  destruct (cubic_curve 100 ltac:(lia)) as (_ & H & _ & _).
  split; [vm_compute; reflexivity|]. split; [vm_compute; reflexivity|exact H].
Defined.

(** ** The window stays in range, whatever the algorithm *)

Inductive cc_event :=
  | CcAck (acked sent_time now : Z)
  | CcLoss (sent_time now : Z)
  | CcEcn (r : ecn_report) (sent_time now : Z)
  | CcPersistent
  | CcAppLimited (v : Z)
  | CcTick (inflight now : Z).

Definition cc_step (s : cc * ecn_track) (e : cc_event) : option (cc * ecn_track) :=
  let '(c, t) := s in
  match e with
  | CcAck acked sent now => Some (cc_on_ack c acked sent now, t)
  | CcLoss sent now => Some (cc_on_loss c sent now, t)
  | CcEcn r sent now => let '(t', c') := ecn_track_on_counts t c r sent now in Some (c', t')
  | CcPersistent => Some (cc_on_persistent c, t)
  | CcAppLimited v => Some (set_app_limited c v, t)
  | CcTick inflight now => c' ← cc_bbr_tick c inflight now; Some (c', t)
  end.

Fixpoint cc_run (s : cc * ecn_track) (es : list cc_event) : option (cc * ecn_track) :=
  match es with [] => Some s | e :: rest => s' ← cc_step s e; cc_run s' rest end.

(** How far one event can raise the window under the algorithm [A]: an
    acknowledgement by the bytes it acknowledges; a congestion event of CUBIC starts
    a curve that rises at most 400000 segments above the window it reduced. *)
Definition cc_credit (A : Z) (e : cc_event) : Z :=
  match e with
  | CcAck acked _ _ => acked
  | CcLoss _ _ | CcEcn _ _ _ => if A =? CC_ALGO_CUBIC then 480000000 else 0
  | _ => 0
  end.

Definition credits (A : Z) (es : list cc_event) : Z := foldr (fun e n => cc_credit A e + n) 0 es.

Definition cc_event_ok (e : cc_event) : Prop := match e with CcAck acked _ _ => 0 <= acked | _ => True end.

Definition bbr_wf (b : bbr) : Prop :=
  zlen (bb_bw_win b) = BBR_BW_WIN /\ 0 <= bb_bw_idx b < BBR_BW_WIN /\ 0 <= bb_phase b <= 3 /\
  0 <= bb_cycle_idx b < 8.

(** The window is at least two datagrams; away from BBR it is at most [B], and
    under CUBIC so is all of the curve's rise above its plateau. *)
Record cc_inv (A B : Z) (c : cc) : Prop := {
  ci_algo : c_algo c = A;
  ci_floor : CC_MIN_WINDOW <= c_cwnd c;
  ci_ceil : A <> CC_ALGO_BBR -> c_cwnd c <= B;
  ci_wmax : A = CC_ALGO_CUBIC -> 0 <= c_w_max_seg c /\ (c_w_max_seg c <> 0 -> c_w_max_seg c * MAX_DATAGRAM + 480000000 <= B);
  ci_bbr : bbr_wf (c_bbr c) }.

Definition CC_BOUND : Z := 2305843009213693952.

Lemma cubic_w_bound t k w : 0 <= w < CC_BOUND -> 0 <= cubic_w t k w <= w + 400000.
Proof.
  unfold CC_BOUND. intros Hw. unfold cubic_w. rewrite (s64_small w) by lia.
  assert (-400000 <= cubic_term (s64 t - s64 k) <= 400000) as Ht.
  { unfold cubic_term. set (d := s64 t - s64 k). set (m := u64 (if d <? 0 then - d else d)).
    destruct (cubic_mag_eq m) as [-> ?]; [apply u64_range|]. rewrite s64_small by lia. bcase; lia. }
  bcase; [rewrite u64_small by lia|]; lia.
Qed.

Lemma grow_spec c acked : CC_MIN_WINDOW <= c_cwnd c -> 0 <= acked -> c_cwnd c + acked < 18446744073709551616 -> 1200 * acked < 18446744073709551616 ->
  grow c acked = set_cwnd c (c_cwnd c + (if c_cwnd c <? c_ssthresh c then acked else 1200 * acked / c_cwnd c)).
Proof.
  unfold CC_BOUND, CC_MIN_WINDOW, MAX_DATAGRAM. intros Hf Hk HB Ha. unfold grow, MAX_DATAGRAM. rewrite (u64_small (1200 * acked)) by lia.
  set (inc := if c_cwnd c <? c_ssthresh c then acked else 1200 * acked / c_cwnd c). assert (0 <= inc <= acked) as Hi.
  { unfold inc. bcase; [lia|]. split; [apply Z.div_pos; lia|]. apply Z.div_le_upper_bound; nia. }
  by rewrite u64_small by lia.
Qed.

Lemma grow_inv A B c acked :
  cc_inv A B c -> A <> CC_ALGO_BBR -> 0 <= acked -> B + acked < CC_BOUND -> cc_inv A (B + acked) (grow c acked).
Proof.
  unfold CC_BOUND. intros [Hl Hf Hc Hw Hb] Ha Hk HB. specialize (Hc Ha).
  unfold CC_MIN_WINDOW, MAX_DATAGRAM in *.
  set (inc := if c_cwnd c <? c_ssthresh c then acked else u64 (1200 * acked) / c_cwnd c).
  assert (0 <= inc <= acked) as Hi.
  { unfold inc. bcase; [lia|]. unfold u64. set (m := (1200 * acked) mod 18446744073709551616).
    assert (0 <= m <= 1200 * acked) as Hm.
    { unfold m. split; [apply Z.mod_pos_bound; lia|apply Z.mod_le; lia]. }
    split; [apply Z.div_pos; lia|]. apply Z.div_le_upper_bound; nia. }
  assert (grow c acked = set_cwnd c (u64 (c_cwnd c + inc))) as -> by done. rewrite u64_small by lia.
  split; cbn; unfold CC_MIN_WINDOW, MAX_DATAGRAM; try done; lia.
Qed.

Lemma cc_inv_mono A B B' c : B <= B' -> cc_inv A B c -> cc_inv A B' c.
Proof. intros HB [H0 H1 H2 H3 H4]. split; try done; intros Hn; [specialize (H2 Hn)|specialize (H3 Hn)]; lia. Qed.

Lemma grow_algo_inv A B c acked now :
  cc_inv A B c -> A <> CC_ALGO_BBR -> 0 <= acked -> B + acked < CC_BOUND -> cc_inv A (B + acked) (grow_algo c acked now).
Proof.
  intros Hinv Ha Hk HB. pose proof (grow_inv A B c acked Hinv Ha Hk HB) as Hgrow.
  unfold grow_algo, grow_cubic. destruct (c_algo c =? CC_ALGO_CUBIC) eqn:Ec; [|done]. destruct (c_w_max_seg c =? 0) eqn:Ew; [done|].
  destruct Hinv as [Hl Hf Hc Hw Hb]. specialize (Hc Ha). specialize (Hw ltac:(lia)). unfold CC_MIN_WINDOW, MAX_DATAGRAM, CC_BOUND in *.
  set (t := u64 (now - c_epoch_ms c)).
  pose proof (cubic_w_bound t (c_k_ms c) (c_w_max_seg c) ltac:(unfold CC_BOUND; lia)) as Hcw.
  fold t. set (cw := cubic_w t (c_k_ms c) (c_w_max_seg c)) in *. clearbody cw.
  rewrite (u64_small (cw * 1200)) by lia.
  destruct (c_cwnd c <? cw * 1200) eqn:E; split; cbn [set_cwnd c_cwnd c_algo c_w_max_seg c_bbr];
    unfold CC_MIN_WINDOW, MAX_DATAGRAM; try done; intros; lia.
Qed.

Lemma cc_on_ack_inv A B c acked sent now :
  cc_inv A B c -> 0 <= acked -> B + acked < CC_BOUND -> cc_inv A (B + acked) (cc_on_ack c acked sent now).
Proof.
  intros Hinv Hk HB. apply (cc_inv_mono A B (B + acked)) in Hinv as Hinv'; [|lia].
  unfold cc_on_ack. destruct (c_algo c =? CC_ALGO_BBR) eqn:Ea.
  { destruct Hinv' as [H0 H1 H2 H3 H4]. split; cbn; try done. unfold bbr_on_rtt. by bcase. }
  assert (cc_inv A B (maybe_exit_recovery c sent)) as Hex by (unfold maybe_exit_recovery; bcase; [by destruct Hinv|done]).
  assert (A <> CC_ALGO_BBR) as Hal by (pose proof (ci_algo _ _ _ Hinv); lia).
  bcase; [by apply grow_algo_inv|]. apply (cc_inv_mono A B); [lia|done].
Qed.

Lemma cc_on_loss_inv A B c sent now : cc_inv A B c -> 12000 <= B -> B + cc_credit A (CcLoss sent now) < CC_BOUND ->
  cc_inv A (B + cc_credit A (CcLoss sent now)) (cc_on_loss c sent now).
Proof.
  intros Hinv HB HB2. cbn [cc_credit] in *. assert (cc_inv A (B + (if A =? CC_ALGO_CUBIC then 480000000 else 0)) c) as Hmono by (apply (cc_inv_mono A B); [bcase; lia | done]).
  unfold cc_on_loss. destruct (negb (c_in_recovery c =? 0) || cc_in_period c sent); [done|]. unfold loss_window.
  destruct Hinv as [Hl Hf Hc Hw Hb]. unfold CC_BOUND, CC_MIN_WINDOW, MAX_DATAGRAM in *. rewrite Hl. destruct (A =? CC_ALGO_CUBIC) eqn:Ea.
  - assert (A <> CC_ALGO_BBR) as Hn by (unfold CC_ALGO_BBR, CC_ALGO_CUBIC in *; lia).
    specialize (Hc Hn). specialize (Hw ltac:(lia)). unfold loss_window_cubic. rewrite u64_max_spec.
    set (wm := cubic_wmax_fastconv (c_cwnd c / MAX_DATAGRAM) (c_w_max_seg c)).
    assert (0 <= wm /\ wm * 1200 <= B) as Hwm.
    { unfold wm, MAX_DATAGRAM. set (s := c_cwnd c / 1200). assert (0 <= s /\ s * 1200 <= c_cwnd c) as [Hs1 Hs2].
      { unfold s. split; [apply Z.div_pos; lia|]. pose proof (Z.mul_div_le (c_cwnd c) 1200). lia. }
      unfold cubic_wmax_fastconv. bcase; [|lia]. rewrite u64_small by lia.
      assert (0 <= s * 17 / 20 <= s) by (split; [apply Z.div_pos; lia|apply Z.div_le_upper_bound; lia]). lia. }
    clearbody wm. rewrite u64_small by lia.
    pose proof (Z.div_le_upper_bound (c_cwnd c * 7) 10 (c_cwnd c) ltac:(lia) ltac:(lia)).
    split; cbn [c_cwnd c_algo c_w_max_seg c_bbr set_cubic]; unfold CC_MIN_WINDOW, MAX_DATAGRAM; try done; lia.
  - rewrite u64_max_spec.
    pose proof (Z.div_le_upper_bound (c_cwnd c) 2 (c_cwnd c) ltac:(lia) ltac:(lia)).
    split; cbn [c_cwnd c_algo c_w_max_seg c_bbr]; unfold CC_MIN_WINDOW, MAX_DATAGRAM; try done; lia.
Qed.

Lemma bbr_on_round_wf b v : bbr_wf b -> exists b', bbr_on_round b v = Some b' /\ bbr_wf b'.
Proof.
  intros (Hl & Hi & Hp & Hc). unfold bbr_on_round. rewrite store_in by (rewrite Hl; done). osimpl.
  eexists. split; [reflexivity|]. set (b2 := mk_bbr _ _ _ _ _ _ _ _ _ _ _ _).
  assert (bbr_wf b2) as H2.
  { unfold bbr_wf, b2. cbn. rewrite zlen_insert. split_and!; try lia; apply Z.mod_pos_bound; unfold BBR_BW_WIN; lia. }
  assert (bbr_wf (bbr_full_pipe_check b2 (bb_btl_bw b2))) as H3.
  { unfold bbr_full_pipe_check, bbr_grew. bcase; [done|]. bcase; done. }
  unfold bbr_maybe_drain. bcase; [|done]. destruct H3 as (? & ? & ? & ?). unfold bbr_wf. cbn. done.
Qed.

Lemma gain_some b : bbr_wf b -> exists g, bbr_cwnd_gain_pct b = Some g.
Proof. intros (_ & _ & Hp & _). unfold bbr_cwnd_gain_pct. apply load_is_Some. cbn. unfold zlen. cbn. lia. Qed.

Lemma bbr_drained_wf b v : bbr_wf b -> bbr_wf (bbr_drained b v).
Proof. intros (? & ? & ? & ?). unfold bbr_drained. bcase; done. Qed.

Lemma bbr_cycle_tick_wf b : bbr_wf b -> bbr_wf (bbr_cycle_tick b).
Proof.
  intros (? & ? & ? & ?). unfold bbr_cycle_tick. bcase; [done|]. unfold bbr_wf. cbn. split_and!; try lia;
    apply Z.mod_pos_bound; lia.
Qed.

Lemma bbr_probe_wf b now :
  bbr_wf b -> bbr_wf (bbr_check_probe_rtt b now).2 /\ bbr_wf (bbr_probe_rtt_exit b now).
Proof.
  intros (? & ? & ? & ?). unfold bbr_check_probe_rtt, bbr_probe_rtt_exit, bbr_exit_phase, BBR_PROBE_BW, BBR_STARTUP.
  split; bcase; unfold bbr_wf; cbn; try done. split_and!; try lia; bcase; lia.
Qed.

Lemma cc_bbr_tick_inv A B c inflight now :
  cc_inv A B c -> exists c', cc_bbr_tick c inflight now = Some c' /\ cc_inv A B c' /\
    (c_algo c = CC_ALGO_BBR -> bbr_bdp c' <> 0 -> CC_BBR_MIN_CWND <= c_cwnd c').
Proof.
  intros Hinv. unfold cc_bbr_tick. destruct (c_algo c =? CC_ALGO_BBR) eqn:Ea; cbn [negb].
  2: { exists c. split_and!; [done|done|lia]. }
  assert (forall b, bbr_wf b -> forall rb rs, cc_inv A B (set_bbr c b rb rs)) as Hset.
  { intros b Hb rb rs. destruct Hinv. split; cbn; done. }
  assert (exists b rb rs, bbr_round_close c now = Some (set_bbr c b rb rs) /\ bbr_wf b) as (b1 & rb & rs & -> & Hb1).
  { unfold bbr_round_close, bbr_round_feed. bcase.
    - exists (c_bbr c), (c_round_bytes c), (c_round_start_ms c). split; [by destruct c|apply Hinv].
    - bcase; osimpl.
      + destruct (bbr_on_round_wf (c_bbr c) (c_round_bytes c / u64 (now - c_round_start_ms c)) (ci_bbr _ _ _ Hinv)) as (b & E & Hb).
        rewrite E. osimpl. do 3 eexists. split; [reflexivity|]. by apply bbr_cycle_tick_wf.
      + do 3 eexists. split; [reflexivity|]. apply bbr_cycle_tick_wf, Hinv. }
  osimpl. set (b2 := bbr_drained _ _). cbn [c_bbr set_bbr on_bbr].
  assert (bbr_wf b2) as Hb2 by (by apply bbr_drained_wf). destruct (bbr_probe_wf b2 now Hb2) as [H3 _].
  destruct (bbr_check_probe_rtt b2 now) as [en b3]. cbn [snd] in H3.
  assert (bbr_wf (if en =? 0 then bbr_probe_rtt_exit b3 now else b3)) as H4
    by (bcase; [apply (bbr_probe_wf b3 now H3)|done]).
  set (b4 := if en =? 0 then _ else _) in *. unfold bbr_set_cwnd.
  set (c4 := on_bbr (on_bbr (set_bbr c b1 rb rs) b2) b4).
  assert (cc_inv A B c4) as Hc4 by (apply (Hset b4 H4)).
  destruct (bbr_bdp c4 =? 0) eqn:Eb.
  - exists c4. split_and!; [done|done|lia].
  - destruct (gain_some b4 H4) as [g Eg]. change (c_bbr c4) with b4. rewrite Eg. osimpl.
    eexists. split; [reflexivity|]. split.
    + destruct Hc4 as [H0 H1 H2 H3' H5]. split; cbn; try done; [|intros Hn; pose proof (ci_algo _ _ _ Hinv); lia].
      rewrite u64_max_spec. unfold CC_MIN_WINDOW, CC_BBR_MIN_CWND, MAX_DATAGRAM. lia.
    + intros _ _. cbn. rewrite u64_max_spec. lia.
Qed.

Lemma cc_step_inv A B s e :
  cc_inv A B s.1 -> cc_event_ok e -> 12000 <= B -> B + cc_credit A e < CC_BOUND ->
  exists s', cc_step s e = Some s' /\ cc_inv A (B + cc_credit A e) s'.1.
Proof.
  destruct s as [c t]. intros Hinv Hok HB Hc. cbn [fst] in Hinv.
  assert (0 <= cc_credit A e) as H0 by (destruct e; cbn in *; try bcase; lia).
  assert (cc_inv A (B + cc_credit A e) c) as Hmono by (apply (cc_inv_mono A B); [lia | done]).
  destruct e as [acked sent now|sent now|r sent now| |v|inflight now]; cbn [cc_step cc_event_ok] in *.
  - eexists. split; [reflexivity|]. apply cc_on_ack_inv; done.
  - eexists. split; [reflexivity|]. by apply cc_on_loss_inv.
  - unfold ecn_track_on_counts, ecn_on_ce_increase. bcase; [eauto|]. bcase; [eauto|].
    eexists. split; [reflexivity|]. cbn [fst]. bcase; [done|]. by apply (cc_on_loss_inv A B c sent now).
  - eexists. split; [reflexivity|]. cbn [fst]. unfold cc_on_persistent. bcase; [done|].
    destruct Hmono as [Hl H1 H2 H3 H4]. split; cbn [c_cwnd c_algo c_w_max_seg c_bbr]; try done;
      unfold CC_MIN_WINDOW, MAX_DATAGRAM; intros; lia.
  - eexists. split; [reflexivity|]. by destruct Hmono.
  - destruct (cc_bbr_tick_inv _ _ c inflight now Hmono) as (c' & -> & H & _). osimpl. eauto.
Qed.

Lemma credits_nonneg A es : Forall cc_event_ok es -> 0 <= credits A es.
Proof.
  induction 1 as [|e es He _ IH]; [done|]. change (credits A (e :: es)) with (cc_credit A e + credits A es).
  destruct e; cbn [cc_credit cc_event_ok] in *; try bcase; lia.
Qed.

Lemma cc_run_inv A es : forall B s,
  cc_inv A B s.1 -> Forall cc_event_ok es -> 12000 <= B -> B + credits A es < CC_BOUND ->
  exists s', cc_run s es = Some s' /\ cc_inv A (B + credits A es) s'.1.
Proof.
  induction es as [|e es IH]; intros B s Hinv Hok HB Hc.
  { exists s. split; [done|]. cbn. by rewrite Z.add_0_r. }
  apply Forall_cons_1 in Hok as [He Hok]. pose proof (credits_nonneg A es Hok).
  change (credits A (e :: es)) with (cc_credit A e + credits A es) in *. cbn [cc_run].
  assert (0 <= cc_credit A e) by (destruct e; cbn in *; try bcase; lia).
  destruct (cc_step_inv A B s e Hinv He HB ltac:(lia)) as (s1 & -> & H1). osimpl.
  rewrite Z.add_assoc. apply IH; try done; lia.
Qed.

Lemma cc_init_inv algo : cc_inv algo 12000 (cc_init_algo algo).
Proof.
  split; cbn; unfold CC_MIN_WINDOW, CC_INIT_WINDOW, MAX_DATAGRAM; try done; try lia; vm_compute; split_and!; congruence.
Qed.

Definition in_recovery_of (c : cc) (sent : Z) : Prop := c_in_recovery c <> 0 \/ (c_recovery_start c <> 0 /\ sent <= c_recovery_start c).

Lemma loss_exact c sent now : c_cwnd c < CC_BOUND -> 0 <= c_cwnd c ->
  (in_recovery_of c sent -> cc_on_loss c sent now = c) /\
  (~ in_recovery_of c sent -> let c' := cc_on_loss c sent now in
     c_cwnd c' = Z.max (if c_algo c =? CC_ALGO_CUBIC then 7 * c_cwnd c / 10 else c_cwnd c / 2) 2400 /\ c_ssthresh c' = c_cwnd c' /\
     c_in_recovery c' = 1 /\ c_recovery_start c' = now).
Proof.
  intros Hw H0. unfold CC_BOUND, in_recovery_of, cc_on_loss, cc_in_period, cc_in_recovery in *. split; intros H.
  - destruct (negb (c_in_recovery c =? 0) || _) eqn:E; [done | lia].
  - destruct (negb (c_in_recovery c =? 0) || _) eqn:E; [lia|]. unfold loss_window, loss_window_cubic.
    destruct (c_algo c =? CC_ALGO_CUBIC); cbn [c_cwnd c_ssthresh c_in_recovery c_recovery_start]; rewrite !u64_max_spec; unfold CC_MIN_WINDOW, MAX_DATAGRAM; [|done].
    rewrite u64_small by lia. by rewrite (Z.mul_comm 7).
Qed.

Lemma reno_ack_exact c acked sent now : c_algo c = CC_ALGO_NEWRENO -> CC_MIN_WINDOW <= c_cwnd c -> 0 <= acked -> c_cwnd c + acked < 18446744073709551616 -> 1200 * acked < 18446744073709551616 ->
  c_cwnd (cc_on_ack c acked sent now) =
    if decide ((c_in_recovery c <> 0 /\ sent <= c_recovery_start c) \/ c_app_limited c <> 0) then c_cwnd c
    else c_cwnd c + (if decide (c_cwnd c < c_ssthresh c) then acked else 1200 * acked / c_cwnd c).
Proof.
  intros Ha Hf Hk HB H2. unfold cc_on_ack. rewrite Ha. cbn [Z.eqb CC_ALGO_NEWRENO CC_ALGO_BBR].
  assert (Hg : forall d, d = c \/ d = set_in_recovery c 0 -> c_cwnd (grow_algo d acked now) = c_cwnd c + (if decide (c_cwnd c < c_ssthresh c) then acked else 1200 * acked / c_cwnd c)).
  { intros d Hd. unfold grow_algo. replace (c_algo d) with CC_ALGO_NEWRENO by (destruct Hd as [-> | ->]; cbn; done). cbn [Z.eqb CC_ALGO_NEWRENO CC_ALGO_CUBIC].
    rewrite grow_spec by (destruct Hd as [-> | ->]; done). destruct Hd as [-> | ->]; cbn [c_cwnd set_cwnd c_ssthresh set_in_recovery]; case_decide; bcase; lia. }
  unfold maybe_exit_recovery, cc_may_grow. destruct (negb (c_in_recovery c =? 0) && (c_recovery_start c <? sent)) eqn:E.
  - cbn [c_in_recovery c_app_limited set_in_recovery Z.eqb andb]. destruct (c_app_limited c =? 0) eqn:El.
    + rewrite Hg by (by right). destruct (decide (_ \/ c_app_limited c <> 0)) as [Hd|Hd]; [exfalso; lia | done].
    + destruct (decide (_ \/ c_app_limited c <> 0)) as [Hd|Hd]; [done | exfalso; lia].
  - destruct (c_in_recovery c =? 0) eqn:Er; cbn [andb].
    + destruct (c_app_limited c =? 0) eqn:El; [rewrite Hg by (by left); destruct (decide (_ \/ c_app_limited c <> 0)) as [Hd|Hd]; [exfalso; lia | done] | destruct (decide (_ \/ c_app_limited c <> 0)) as [Hd|Hd]; [done | exfalso; lia]].
    + destruct (decide (_ \/ c_app_limited c <> 0)) as [Hd|Hd]; [done | exfalso; lia].
Qed.

(** C30: the congestion controller, from its start through any acknowledgements,
    losses, ECN reports, persistent-congestion events, application-limited marks and
    BBR ticks. No array access of the BBR estimators fails and the window is never
    below two datagrams, so no division by it faults; under NewReno it is at most
    the initial window plus the bytes acknowledged, under CUBIC plus 400000 segments
    per congestion event, the cap of the curve. The next loss of a packet changes
    nothing in recovery or when the packet was sent before the last recovery began,
    and else starts a recovery with window and threshold at half (CUBIC: seven
    tenths) of the window; the next acknowledgement grows NewReno's window by the
    bytes acknowledged in slow start and by 1200 bytes per window above the
    threshold, and not at all in recovery or when application-limited; and a BBR
    tick with a bandwidth-delay estimate leaves at least four datagrams. *)
Theorem cc_window_in_range (algo : Z) (es : list cc_event) :
  Forall cc_event_ok es -> 12000 + credits algo es < CC_BOUND ->
  exists c t, cc_run (cc_init_algo algo, ecn_track_init) es = Some (c, t) /\
    c_algo c = algo /\ 2400 <= c_cwnd c /\ (algo <> CC_ALGO_BBR -> c_cwnd c <= 12000 + credits algo es) /\
    (algo <> CC_ALGO_BBR -> forall sent now, let c' := cc_on_loss c sent now in
      (in_recovery_of c sent -> c' = c) /\
      (~ in_recovery_of c sent ->
        c_cwnd c' = Z.max (if algo =? CC_ALGO_CUBIC then 7 * c_cwnd c / 10 else c_cwnd c / 2) 2400 /\
        c_ssthresh c' = c_cwnd c' /\ c_in_recovery c' = 1 /\ c_recovery_start c' = now)) /\
    (algo = CC_ALGO_NEWRENO -> forall acked sent now, 0 <= acked < 2 ^ 53 ->
      c_cwnd (cc_on_ack c acked sent now) =
        if decide ((c_in_recovery c <> 0 /\ sent <= c_recovery_start c) \/ c_app_limited c <> 0) then c_cwnd c
        else c_cwnd c + (if decide (c_cwnd c < c_ssthresh c) then acked else 1200 * acked / c_cwnd c)) /\
    forall inflight now, exists c', cc_bbr_tick c inflight now = Some c' /\
      (algo = CC_ALGO_BBR -> bbr_bdp c' <> 0 -> 4800 <= c_cwnd c').
Proof.
  intros Hok Hb. destruct (cc_run_inv algo es 12000 (cc_init_algo algo, ecn_track_init) (cc_init_inv algo) Hok ltac:(lia) Hb)
    as ([c t] & E & Hinv).
  exists c, t. split; [done|]. cbn [fst] in Hinv. pose proof (ci_algo _ _ _ Hinv) as Ha. pose proof (ci_floor _ _ _ Hinv) as Hf.
  split; [done|]. split; [done|]. split; [apply Hinv|]. split; [|split].
  - intros Hn sent now. pose proof (ci_ceil _ _ _ Hinv Hn). rewrite <- Ha. unfold CC_MIN_WINDOW, MAX_DATAGRAM in Hf. apply loss_exact; lia.
  - intros -> acked sent now Hk. pose proof (ci_ceil _ _ _ Hinv ltac:(done)). apply reno_ack_exact; try done; try lia.
    unfold CC_BOUND in *. lia.
  - intros inflight now. destruct (cc_bbr_tick_inv _ _ c inflight now Hinv) as (c' & E' & _ & H). exists c'. split; [done|]. rewrite <- Ha. done.
Qed.

Lemma cc_window_in_range_witness :
  exists c t, cc_run (cc_init_algo CC_ALGO_CUBIC, ecn_track_init)
      [CcAck 12000 5 50; CcLoss 60 70; CcAck 1200 80 4000; CcEcn (mk_ecn_report (mk_ecn_counts 1 4) 0 9 2) 4100 4200] = Some (c, t) /\
    2400 <= c_cwnd c /\ c_cwnd c = 17640.
Proof.
  destruct (cc_window_in_range CC_ALGO_CUBIC
      [CcAck 12000 5 50; CcLoss 60 70; CcAck 1200 80 4000; CcEcn (mk_ecn_report (mk_ecn_counts 1 4) 0 9 2) 4100 4200])
    as (c & t & E & _ & H & _).
  - repeat constructor; cbn; lia.
  - vm_compute. reflexivity.
  - exists c, t. split; [exact E|]. split; [exact H|]. vm_compute in E. apply (inj Some) in E.
    injection E as <- _. vm_compute. reflexivity.
Defined.

(** One window reduction per recovery period (RFC 9002 7.3.2).  A loss
    outside recovery sets cwnd and ssthresh to half the window (NewReno) or 0.7
    of it (CUBIC), never below two datagrams; from then on, whatever further
    losses and acknowledgements of packets sent up to that moment arrive, the
    state does not change at all, and even after recovery has ended a loss of
    such a packet is ignored. *)
Theorem cc_one_reduction_per_period (c : cc) (sent now : Z) (es : list cc_event) (c2 : cc) :
  c_in_recovery c = 0 -> cc_in_period c sent = false -> c_algo c <> CC_ALGO_BBR -> 0 <= c_cwnd c < CC_BOUND ->
  now <> 0 ->
  Forall (fun e => match e with CcLoss _ _ => True | CcAck _ s _ => s <= now | _ => False end) es ->
  let c1 := cc_on_loss c sent now in
  c_cwnd c1 = Z.max (if c_algo c =? CC_ALGO_CUBIC then c_cwnd c * 7 / 10 else c_cwnd c / 2) 2400 /\
  c_ssthresh c1 = c_cwnd c1 /\
  (forall t, cc_run (c1, t) es = Some (c1, t)) /\
  (c_recovery_start c2 = now -> forall s n, s <= now -> cc_on_loss c2 s n = c2).
Proof.
  intros Hr Hp Ha Hw Hnow Hes c1. unfold CC_BOUND in Hw.
  assert (c_algo c1 = c_algo c /\ c_in_recovery c1 = 1 /\ c_recovery_start c1 = now /\ c_ssthresh c1 = c_cwnd c1 /\
    c_cwnd c1 = Z.max (if c_algo c =? CC_ALGO_CUBIC then c_cwnd c * 7 / 10 else c_cwnd c / 2) 2400) as (A1 & A2 & A3 & A4 & A5).
  { unfold c1, cc_on_loss. rewrite Hr, Hp. cbn [Z.eqb negb orb]. unfold loss_window, loss_window_cubic.
    destruct (c_algo c =? CC_ALGO_CUBIC) eqn:E; cbn [c_cwnd c_algo c_in_recovery c_recovery_start c_ssthresh set_cubic];
      rewrite !u64_max_spec; unfold CC_MIN_WINDOW, MAX_DATAGRAM; [rewrite u64_small by lia|]; done. }
  clearbody c1. split_and!; [done|done| |].
  - intros t. induction es as [|e es IH]; [done|]. apply Forall_cons_1 in Hes as [He Hes]. cbn [cc_run].
    assert (cc_step (c1, t) e = Some (c1, t)) as ->.
    { destruct e as [acked s n|s n|r s n| |v|i n]; try done; cbn [cc_step]; do 2 f_equal.
      - unfold cc_on_ack. rewrite A1. replace (c_algo c =? CC_ALGO_BBR) with false by lia.
        unfold maybe_exit_recovery. rewrite A2, A3. replace (now <? s) with false by lia. cbn [Z.eqb negb andb].
        unfold cc_may_grow. by rewrite A2.
      - unfold cc_on_loss. by rewrite A2. }
    osimpl. by apply IH.
  - intros Hs s n Hle. unfold cc_on_loss, cc_in_period, cc_in_recovery. rewrite Hs.
    replace (now =? 0) with false by lia. replace (s <=? now) with true by lia. by rewrite orb_true_r.
Qed.

Lemma cc_one_reduction_per_period_witness :
  let c1 := cc_on_loss cc_init 10 20 in
  c_cwnd c1 = 6000 /\ cc_run (c1, ecn_track_init) [CcLoss 12 25; CcAck 1200 20 30] = Some (c1, ecn_track_init).
Proof.
  destruct (cc_one_reduction_per_period cc_init 10 20 [CcLoss 12 25; CcAck 1200 20 30] cc_init) as (H1 & _ & H2 & _).
  - reflexivity.
  - reflexivity.
  - vm_compute. congruence.
  - vm_compute. split; [congruence|reflexivity].
  - lia.
  - repeat constructor; lia.
  - split; [exact H1|]. apply H2.
Defined.

(** ** The BBR phase machine *)

Inductive bbr_op := BRound (sample : Z) | BRtt (rtt now : Z) | BDrained (at_bdp : bool) | BTick
  | BCheck (now : Z) | BExit (now : Z).

Definition bbr_step (b : bbr) (op : bbr_op) : option bbr :=
  match op with
  | BRound v => bbr_on_round b v
  | BRtt r n => Some (bbr_on_rtt b r n)
  | BDrained v => Some (bbr_drained b v)
  | BTick => Some (bbr_cycle_tick b)
  | BCheck n => Some (bbr_check_probe_rtt b n).2
  | BExit n => Some (bbr_probe_rtt_exit b n)
  end.

Fixpoint bbr_run (b : bbr) (ops : list bbr_op) : option bbr :=
  match ops with [] => Some b | op :: rest => b' ← bbr_step b op; bbr_run b' rest end.

(** The samples of a run, newest first. *)
Definition add_sample (l : list Z) (op : bbr_op) : list Z := match op with BRound v => v :: l | _ => l end.

(** The phase changes the draft allows, with the full-pipe latch after the step. *)
Definition phase_edge (filled a b : Z) : Prop :=
  a = b \/ (a = BBR_STARTUP /\ b = BBR_DRAIN /\ filled <> 0) \/ (a = BBR_DRAIN /\ b = BBR_PROBE_BW) \/
  b = BBR_PROBE_RTT \/ (a = BBR_PROBE_RTT /\ b = if filled =? 0 then BBR_STARTUP else BBR_PROBE_BW).

(** The ring read from the oldest sample to the newest. *)
Definition ring (b : bbr) : list Z :=
  drop (Z.to_nat (bb_bw_idx b)) (bb_bw_win b) ++ take (Z.to_nat (bb_bw_idx b)) (bb_bw_win b).

Definition lmax (l : list Z) : Z := foldr Z.max 0 l.

Lemma lmax_cons x l : lmax (x :: l) = Z.max x (lmax l).
Proof. done. Qed.

Lemma lmax_nonneg l : 0 <= lmax l.
Proof. induction l as [|x l IH]; [done|]. rewrite lmax_cons. lia. Qed.

Lemma lmax_app a b : lmax (a ++ b) = Z.max (lmax a) (lmax b).
Proof.
  pose proof (lmax_nonneg b). induction a as [|x a IH]; cbn [app]; [change (lmax []) with 0; lia|].
  rewrite !lmax_cons. lia.
Qed.

Lemma lmax_rev l : lmax (rev l) = lmax l.
Proof.
  induction l as [|x l IH]; [done|]. cbn [rev]. rewrite lmax_app, IH, !lmax_cons. change (lmax []) with 0.
  pose proof (lmax_nonneg l). lia.
Qed.

Lemma win_max_lmax l : forall m, 0 <= m -> foldl (fun m v => if m <? v then v else m) m l = Z.max m (lmax l).
Proof.
  induction l as [|x l IH]; intros m Hm; cbn [foldl].
  - cbn. lia.
  - change (lmax (x :: l)) with (Z.max x (lmax l)). destruct (m <? x) eqn:E; rewrite IH by lia; lia.
Qed.

Lemma win_max_ring b : 0 <= bb_bw_idx b <= zlen (bb_bw_win b) -> bbr_win_max b = lmax (ring b).
Proof.
  intros Hi. unfold bbr_win_max. rewrite win_max_lmax by lia. unfold ring. rewrite lmax_app.
  rewrite <- (take_drop (Z.to_nat (bb_bw_idx b)) (bb_bw_win b)) at 1. rewrite lmax_app.
  pose proof (lmax_nonneg (take (Z.to_nat (bb_bw_idx b)) (bb_bw_win b))). lia.
Qed.

(** Writing at the index and advancing it drops the oldest sample. *)
Lemma ring_push (win : list Z) i v x rest :
  length win = 10%nat -> (i < 10)%nat -> drop i win ++ take i win = x :: rest ->
  drop ((i + 1) mod 10) (<[i := v]> win) ++ take ((i + 1) mod 10) (<[i := v]> win) = rest ++ [v].
Proof.
  intros Hl Hi E. destruct (decide (i = 9%nat)) as [->|].
  - change ((9 + 1) mod 10)%nat with 0%nat. rewrite take_0, app_nil_r, drop_0.
    do 10 (destruct win as [|? win]; [done|]). destruct win; [|done]. cbn in *. by simplify_eq.
  - rewrite Nat.mod_small by lia. rewrite Nat.add_1_r.
    do 10 (destruct win as [|? win]; [done|]). destruct win; [|done].
    do 9 (destruct i as [|i]; [cbn in *; by simplify_eq|]). lia.
Qed.

Definition last_ten (samples : list Z) : list Z := take 10 (samples ++ replicate 10 0).

Lemma last_ten_cons v samples x rest :
  rev (last_ten samples) = x :: rest -> rest ++ [v] = rev (last_ten (v :: samples)).
Proof.
  unfold last_ten. intros E. change (take 10 ((v :: samples) ++ replicate 10 0)) with (v :: take 9 (samples ++ replicate 10 0)).
  cbn [rev]. f_equal. set (L := samples ++ replicate 10 0) in *.
  assert (10 <= length L)%nat as HL by (unfold L; rewrite length_app; cbn; lia).
  destruct (lookup_lt_is_Some_2 L 9) as [y Hy]; [lia|].
  rewrite (take_S_r L 9 y Hy) in E. rewrite rev_app_distr in E. cbn in E. by simplify_eq.
Qed.

Lemma lmax_last_ten samples : lmax (last_ten samples) = lmax (take 10 samples).
Proof.
  unfold last_ten. rewrite take_app, take_replicate, lmax_app.
  assert (forall n, lmax (replicate n 0) = 0) as -> by (induction n as [|n IH]; [done|]; cbn [replicate]; rewrite lmax_cons; lia).
  pose proof (lmax_nonneg (take 10 samples)). lia.
Qed.

Record bbr_inv (samples : list Z) (b : bbr) : Prop := {
  bi_wf : bbr_wf b;
  bi_ring : ring b = rev (last_ten samples);
  bi_bw : bb_btl_bw b = lmax (take 10 samples) }.

Lemma ring_index i : 0 <= i < 10 -> Z.to_nat ((i + 1) mod 10) = ((Z.to_nat i + 1) mod 10)%nat.
Proof.
  intros Hi. destruct (Z.eq_dec i 9) as [->|]; [done|]. rewrite Z.mod_small, Nat.mod_small by lia. lia.
Qed.

Lemma bbr_round_inv samples b v :
  bbr_inv samples b ->
  exists b', bbr_on_round b v = Some b' /\ bbr_inv (v :: samples) b' /\
    (bb_filled b <> 0 -> bb_filled b' <> 0) /\ phase_edge (bb_filled b') (bb_phase b) (bb_phase b').
Proof.
  intros [Hwf Hring Hbw]. pose proof Hwf as (Hl & Hi & Hp & Hc). unfold BBR_BW_WIN in *.
  destruct (bbr_on_round_wf b v Hwf) as (b' & E & Hwf'). exists b'. split; [done|].
  unfold bbr_on_round in E. rewrite store_in in E by lia. cbn [mbind option_bind] in E.
  match type of E with context [bbr_full_pipe_check ?x] => set (b2 := x) in E end.
  set (b3 := bbr_full_pipe_check b2 (bb_btl_bw b2)) in E. apply (inj Some) in E.
  assert (bb_bw_win b3 = bb_bw_win b2 /\ bb_bw_idx b3 = bb_bw_idx b2 /\ bb_btl_bw b3 = bb_btl_bw b2 /\
          bb_phase b3 = bb_phase b /\ (bb_filled b <> 0 -> bb_filled b3 <> 0)) as (F1 & F2 & F3 & F4 & F5).
  { unfold b3, bbr_full_pipe_check, bbr_grew, bbr_count_flat.
    destruct (negb (bb_filled b2 =? 0)) eqn:E1; [done|]. destruct (_ <? _); cbn; split_and!; try done.
    all: intros Hf; exfalso; cbn in E1; lia. }
  assert (bb_bw_win b' = bb_bw_win b3 /\ bb_bw_idx b' = bb_bw_idx b3 /\ bb_btl_bw b' = bb_btl_bw b3 /\
          bb_filled b' = bb_filled b3) as (G1 & G2 & G3 & G4).
  { rewrite <- E. unfold bbr_maybe_drain. by bcase. }
  assert (ring b' = rev (last_ten (v :: samples))) as Hring'.
  { unfold ring. rewrite G1, G2, F1, F2. cbn [b2 bb_bw_win bb_bw_idx].
    change BBR_BW_WIN with 10. rewrite (ring_index (bb_bw_idx b)) by lia.
    destruct (rev (last_ten samples)) as [|x rest] eqn:El.
    { apply (f_equal length) in El. rewrite length_rev in El. unfold last_ten in El.
      rewrite length_take, length_app in El. rewrite length_replicate in El. cbn [length] in El. lia. }
    rewrite <- (last_ten_cons v samples x rest El). apply (ring_push _ _ _ x); [unfold zlen in Hl; lia|lia|].
    by rewrite <- Hring. }
  split_and!; [split; [done|done|]|by rewrite G4|].
  - rewrite G3, F3. cbn [b2 bb_btl_bw].
    match goal with |- bbr_win_max ?x = _ => assert (ring x = ring b') as Hr by (unfold ring; rewrite G1, G2, F1, F2; done) end.
    rewrite win_max_ring, Hr, Hring', lmax_rev; [apply lmax_last_ten|].
    cbn [bb_bw_win bb_bw_idx]. rewrite zlen_insert, Hl.
    pose proof (Z.mod_pos_bound (bb_bw_idx b + 1) 10 ltac:(lia)). unfold BBR_BW_WIN. lia.
  - rewrite G4, <- E. unfold bbr_maybe_drain, phase_edge. rewrite <- F4.
    destruct (bb_phase b3 =? BBR_STARTUP) eqn:E1, (bb_filled b3 =? 0) eqn:E2; cbn; try (by left).
    right. left. split_and!; [lia|done|lia].
Qed.

Lemma bbr_step_inv samples b op :
  bbr_inv samples b ->
  exists b', bbr_step b op = Some b' /\ bbr_inv (add_sample samples op) b' /\
    (bb_filled b <> 0 -> bb_filled b' <> 0) /\ phase_edge (bb_filled b') (bb_phase b) (bb_phase b').
Proof.
  intros Hinv. pose proof Hinv as [Hwf Hring Hbw]. pose proof Hwf as (H1 & H2 & H3 & H4).
  destruct op as [v|r n|v| |n|n]; cbn [bbr_step add_sample]; [by apply bbr_round_inv| | | | |];
    (eexists; split; [reflexivity|]).
  - unfold bbr_on_rtt. bcase; (split; [by split|split; [done|by left]]).
  - unfold bbr_drained. destruct (bb_phase b =? BBR_DRAIN) eqn:E, v; cbn [andb];
      (split; [by split|split; [done|]]); try (by left). right. right. left. split; [lia|done].
  - unfold bbr_cycle_tick. bcase; (split; [split; try done|split; [done|by left]]).
    by apply (bbr_cycle_tick_wf b) in Hwf; unfold bbr_cycle_tick in Hwf; rewrite Heqb0 in Hwf.
  - unfold bbr_check_probe_rtt. bcase; cbn [snd]; (split; [by split|split; [done|]]); [by left|].
    right. right. right. by left.
  - unfold bbr_probe_rtt_exit. destruct (_ || _) eqn:E; (split; [split; try done|split; [done|]]).
    + by left.
    + unfold bbr_wf, bbr_exit_phase, BBR_PROBE_BW, BBR_STARTUP. cbn. split_and!; try lia; bcase; lia.
    + right. right. right. right. cbn. unfold bbr_exit_phase. split; [lia|]. by destruct (bb_filled b =? 0).
Qed.

Lemma bbr_run_inv ops : forall samples b,
  bbr_inv samples b -> exists b', bbr_run b ops = Some b' /\ bbr_inv (foldl add_sample samples ops) b'.
Proof.
  induction ops as [|op ops IH]; intros samples b Hb; cbn [bbr_run foldl]; [eauto|].
  destruct (bbr_step_inv samples b op Hb) as (b1 & -> & Hb1 & _). osimpl. auto.
Qed.

(** C34: BBR's estimator and phase machine.  After any sequence of operations
    no ring or gain-table access fails, and the bottleneck bandwidth is the
    maximum of the last ten round samples (older ones have aged out); every
    further operation keeps the full-pipe latch and takes only the transitions
    STARTUP to DRAIN (pipe full), DRAIN to PROBE_BW, any phase to PROBE_RTT and
    PROBE_RTT back to PROBE_BW or STARTUP according to the latch. *)
Theorem bbr_phase_machine (ops : list bbr_op) (op : bbr_op) :
  exists b b', bbr_run bbr_init ops = Some b /\ bbr_step b op = Some b' /\
    bb_btl_bw b = foldr Z.max 0 (take 10 (foldl add_sample [] ops)) /\
    (exists g h, bbr_pacing_gain_pct b = Some g /\ bbr_cwnd_gain_pct b = Some h) /\
    (bb_filled b <> 0 -> bb_filled b' <> 0) /\ phase_edge (bb_filled b') (bb_phase b) (bb_phase b').
Proof.
  destruct (bbr_run_inv ops [] bbr_init) as (b & E & Hb).
  { split; [vm_compute; split_and!; congruence|reflexivity|reflexivity]. }
  destruct (bbr_step_inv _ b op Hb) as (b' & E' & _ & Hf & He). exists b, b'. split; [done|]. split; [done|].
  split; [apply Hb|]. split; [|done]. pose proof (bi_wf _ _ Hb) as Hwf.
  destruct (gain_some b Hwf) as [h Eh]. destruct Hwf as (_ & _ & Hp & Hc).
  assert (exists g, bbr_pacing_gain_pct b = Some g) as [g Eg].
  { unfold bbr_pacing_gain_pct. bcase; apply load_is_Some; unfold zlen; cbn; lia. }
  eauto.
Qed.
