(* ===== verification/Reassembly.v ===== *)
(** * Reassembly of byte streams from frames

    src/src/transport/stream/flow/flow/reassemble.c and stream_read.c,
    src/src/transport/conn/pnspace/crypto_stream/crypto_rx.c and crypto_tx.c,
    src/src/transport/conn/loop/crecv/collect.c and message.c.  STREAM and
    CRYPTO data arrives in any order, with gaps, duplicates and overlaps; the
    application and TLS see the contiguous prefix.  Both buffers are proved to
    refine the set of received segments, and the CRYPTO frames the sender cuts
    a handshake flight into are proved to come back as the flight. *)

From stdpp Require Import base numbers list option.
From Stdlib Require Import ZArith Lia.
From S2P Require Import Prelude Bytes Varint Frames Ack Framewalk.
Import Frame.

(** ** The loops both buffers share *)

(** [for (i = 0; i < n; i++) { buf[at + i] = data[i]; have[hat + i] = 1; }]
    with the two arrays apart. *)
Fixpoint mark_loop (buf have : list Z) (off : Z) (data : list Z) (i : Z) (n : nat)
    : option (list Z * list Z) :=
  match n with
  | O => Some (buf, have)
  | S n' =>
      v ← load data i;
      buf' ← store buf (u64 (off + i)) v;
      have' ← store have (u64 (off + i)) 1;
      mark_loop buf' have' off data (i + 1) n'
  end.

(** The same loop with both arrays in one object, [have] starting at [cap]. *)
Fixpoint place_loop (mem : list Z) (cap off : Z) (data : list Z) (i : Z) (n : nat) : option (list Z) :=
  match n with
  | O => Some mem
  | S n' =>
      v ← load data i;
      mem1 ← store mem (u64 (off + i)) v;
      mem2 ← store mem1 (u64 (u64 (cap + off) + i)) 1;
      place_loop mem2 cap off data (i + 1) n'
  end.

(** [while (d < cap && have[base + d]) d++;] *)
Fixpoint skip_filled (have : list Z) (base cap d : Z) (fuel : nat) : option Z :=
  if d <? cap then
    v ← load have (u64 (base + d));
    if v =? 0 then Some d
    else match fuel with O => None | S fuel' => skip_filled have base cap (d + 1) fuel' end
  else Some d.

(** ** reassemble.c *)

(* src/src/transport/stream/flow/flow/reassemble.h : REASM_CAP *)
Definition REASM_CAP : Z := 4096.

(* src/src/transport/stream/flow/flow/reassemble.h : reasm *)
Record reasm := mk_reasm {
  ra_buf : list Z; ra_have : list Z; ra_delivered : Z; ra_final_size : Z; ra_have_final : Z }.

(* src/src/transport/stream/flow/flow/reassemble.c : reasm_init *)
Definition reasm_init (r : reasm) : option reasm :=
  have ← fill (ra_have r) 0 0 (Z.to_nat REASM_CAP);
  Some (mk_reasm (ra_buf r) have 0 0 0).

(* src/src/transport/stream/flow/flow/reassemble.c : insert_fits *)
Definition insert_fits (r : reasm) (offset len : Z) : bool :=
  if REASM_CAP <? u64 (offset + len) then false
  else (ra_have_final r =? 0) || (u64 (offset + len) <=? ra_final_size r).

(* src/src/transport/stream/flow/flow/reassemble.c : reasm_insert *)
Definition reasm_insert (r : reasm) (offset : Z) (data : list Z) : option (Z * reasm) :=
  if negb (insert_fits r offset (zlen data)) then Some (0, r)
  else
    '(buf, have) ← mark_loop (ra_buf r) (ra_have r) offset data 0 (length data);
    Some (1, mk_reasm buf have (ra_delivered r) (ra_final_size r) (ra_have_final r)).

(* src/src/transport/stream/flow/flow/reassemble.c : reasm_set_final *)
Definition reasm_set_final (r : reasm) (final_size : Z) : Z * reasm :=
  if REASM_CAP <? final_size then (0, r)
  else (1, mk_reasm (ra_buf r) (ra_have r) (ra_delivered r) final_size 1).

(* src/src/transport/stream/flow/flow/reassemble.c : reasm_deliver *)
Definition reasm_deliver (r : reasm) : option (Z * reasm) :=
  d ← skip_filled (ra_have r) 0 REASM_CAP (ra_delivered r) (Z.to_nat (REASM_CAP - ra_delivered r));
  Some (d, mk_reasm (ra_buf r) (ra_have r) d (ra_final_size r) (ra_have_final r)).

(** ** stream_read.c *)

(* src/src/transport/stream/flow/flow/stream_read.h : stream_read *)
Record stream_read := mk_sread { sr_r : reasm; sr_read_off : Z }.

(* src/src/transport/stream/flow/flow/stream_read.c : stream_read_init *)
Definition stream_read_init (s : stream_read) : option stream_read :=
  r ← reasm_init (sr_r s); Some (mk_sread r 0).

(* src/src/transport/stream/flow/flow/stream_read.c : stream_read_push *)
Definition stream_read_push (s : stream_read) (offset : Z) (data : list Z) : option (Z * stream_read) :=
  '(ok, r) ← reasm_insert (sr_r s) offset data; Some (ok, mk_sread r (sr_read_off s)).

(* src/src/transport/stream/flow/flow/stream_read.c : readable *)
Definition readable (s : stream_read) (cap : Z) : option (Z * stream_read) :=
  '(d, r) ← reasm_deliver (sr_r s);
  let avail := u64 (d - sr_read_off s) in
  Some (if avail <? cap then avail else cap, mk_sread r (sr_read_off s)).

(* src/src/transport/stream/flow/flow/stream_read.c : stream_read_pull *)
Definition stream_read_pull (s : stream_read) (out : obuf) : option (stream_read * obuf) :=
  '(n, s) ← readable s (ocap out);
  p ← copy (op out) 0 (ra_buf (sr_r s)) (sr_read_off s) (Z.to_nat n);
  Some (mk_sread (sr_r s) (u64 (sr_read_off s + n)), mk_obuf p n).

(** ** crypto_rx.c *)

(* src/src/transport/conn/pnspace/crypto_stream/crypto_rx.h : crypto_rx *)
Record crypto_rx := mk_crx { cx_reasm : reasm; cx_read_upto : Z }.

(* src/src/transport/conn/pnspace/crypto_stream/crypto_rx.c : crypto_stream_rx_init *)
Definition crypto_stream_rx_init (r : crypto_rx) : option crypto_rx :=
  x ← reasm_init (cx_reasm r); Some (mk_crx x 0).

(* src/src/transport/conn/pnspace/crypto_stream/crypto_rx.c : crypto_stream_recv *)
Definition crypto_stream_recv (r : crypto_rx) (offset : Z) (data : list Z) : option (Z * crypto_rx) :=
  '(ok, x) ← reasm_insert (cx_reasm r) offset data; Some (ok, mk_crx x (cx_read_upto r)).

Definition EC_CRYPTO_BUFFER_EXCEEDED : Z := 0x0d.

(** [*error_code] is written only on failure. *)
(* src/src/transport/conn/pnspace/crypto_stream/crypto_rx.c : crypto_stream_recv_ec *)
Definition crypto_stream_recv_ec (r : crypto_rx) (offset : Z) (data : list Z) (error_code : Z)
    : option (Z * crypto_rx * Z) :=
  '(ok, r') ← crypto_stream_recv r offset data;
  Some (if negb (ok =? 0) then (1, r', error_code) else (0, r', EC_CRYPTO_BUFFER_EXCEEDED)).

(* src/src/transport/conn/pnspace/crypto_stream/crypto_rx.c : crypto_stream_read *)
Definition crypto_stream_read (r : crypto_rx) (out : obuf) : option (Z * crypto_rx * obuf) :=
  '(d, x) ← reasm_deliver (cx_reasm r);
  let avail := u64 (d - cx_read_upto r) in
  if ocap out <? avail then Some (0, mk_crx x (cx_read_upto r), out)
  else
    p ← copy (op out) 0 (ra_buf x) (cx_read_upto r) (Z.to_nat avail);
    Some (1, mk_crx x (u64 (cx_read_upto r + avail)), mk_obuf p avail).

(** ** crypto_tx.c *)

(* src/src/transport/conn/pnspace/crypto_stream/crypto_tx.c : crypto_tx_min_usz *)
Definition crypto_tx_min_usz (a b : Z) : Z := if a <? b then a else b.

(* src/src/transport/conn/pnspace/crypto_stream/crypto_tx.c : emit_chunk *)
Record emit_chunk := mk_chunk { ec_base_offset : Z; ec_chunk : Z }.

(* src/src/transport/conn/pnspace/crypto_stream/crypto_tx.c : emit_progress *)
Record emit_progress := mk_progress { ep_pos : Z; ep_out : obuf }.

(* src/src/transport/conn/pnspace/crypto_stream/crypto_tx.c : emit_one *)
Definition emit_one (tls_bytes : list Z) (c : emit_chunk) (p : emit_progress)
    : option (bool * emit_progress) :=
  let f := mk_crypto (u64 (ec_base_offset c + ep_pos p)) (ec_chunk c) (drop (Z.to_nat (ep_pos p)) tls_bytes) in
  let out := ep_out p in
  let pre := take (Z.to_nat (olen out)) (op out) in
  '(n, rest) ← frame_put_crypto (drop (Z.to_nat (olen out)) (op out)) f;
  if n =? 0 then Some (false, mk_progress (ep_pos p) (mk_obuf (pre ++ rest) (olen out)))
  else Some (true, mk_progress (u64 (ep_pos p + ec_chunk c)) (mk_obuf (pre ++ rest) (u64 (olen out + n)))).

(* src/src/transport/conn/pnspace/crypto_stream/crypto_tx.h : crypto_stream_emit_in *)
Record crypto_stream_emit_in := mk_emit_in { ei_base_offset : Z; ei_max_frame : Z }.

Fixpoint emit_loop (tls_bytes : list Z) (inp : crypto_stream_emit_in) (ok : bool) (p : emit_progress)
    (fuel : nat) : option (bool * emit_progress) :=
  if ok && (ep_pos p <? zlen tls_bytes) then
    match fuel with
    | O => None
    | S fuel' =>
        '(ok', p') ← emit_one tls_bytes
           (mk_chunk (ei_base_offset inp)
              (crypto_tx_min_usz (u64 (zlen tls_bytes - ep_pos p)) (ei_max_frame inp))) p;
        emit_loop tls_bytes inp ok' p' fuel'
    end
  else Some (ok, p).

(** Every frame carries at least one byte, so there are at most as many
    iterations as bytes. *)
(* src/src/transport/conn/pnspace/crypto_stream/crypto_tx.c : crypto_stream_emit *)
Definition crypto_stream_emit (tls_bytes : list Z) (inp : crypto_stream_emit_in) (out : obuf)
    : option (bool * obuf) :=
  '(ok, p) ← emit_loop tls_bytes inp (negb (ei_max_frame inp =? 0)) (mk_progress 0 (mk_obuf (op out) 0))
                (length tls_bytes);
  Some (ok, ep_out p).

(** ** crecv: collect.c, message.c *)

(* src/src/transport/conn/loop/crecv/collect.h : CRECV_BUF *)
Definition CRECV_BUF : Z := 12288.
(* src/src/transport/conn/loop/crecv/collect.h : CRECV_INITIAL_BUF *)
Definition CRECV_INITIAL_BUF : Z := 4096.

(* src/src/transport/conn/loop/crecv/collect.h : crecv *)
Record crecv := mk_crecv { cr_cap : Z; cr_received_to : Z; cr_overflow : Z }.

(* src/src/transport/conn/loop/crecv/collect.c : crecv_init *)
Definition crecv_init (mem : list Z) (cap : Z) : option (crecv * list Z) :=
  mem' ← bytes_memset mem cap 0 cap; Some (mk_crecv cap 0 0, mem').

(* src/src/transport/conn/loop/crecv/collect.c : place *)
Definition place (s : crecv) (mem : list Z) (f : crypto_frame) : option (bool * crecv * list Z) :=
  let end_ := u64 (cf_offset f + cf_length f) in
  if cr_cap s <? end_ then Some (false, mk_crecv (cr_cap s) (cr_received_to s) 1, mem)
  else
    mem' ← place_loop mem (cr_cap s) (cf_offset f) (cf_data f) 0 (Z.to_nat (cf_length f));
    Some (true, s, mem').

(* src/src/transport/conn/loop/crecv/collect.c : advance_prefix *)
Definition advance_prefix (s : crecv) (mem : list Z) : option crecv :=
  d ← skip_filled mem (cr_cap s) (cr_cap s) (cr_received_to s) (Z.to_nat (cr_cap s - cr_received_to s));
  Some (mk_crecv (cr_cap s) d (cr_overflow s)).

(* src/src/transport/conn/loop/crecv/collect.c : take_crypto *)
Definition take_crypto (s : crecv) (mem body : list Z) : option (bool * crecv * list Z) :=
  match frame_get_crypto body with
  | Oob => None
  | Fail => Some (false, s, mem)
  | Ok (f, _) => place s mem f
  end.

(* src/src/transport/conn/loop/crecv/collect.c : on_frame *)
Definition on_frame (s : crecv) (mem : list Z) (type : Z) (body : list Z)
    : option (bool * crecv * list Z) :=
  if negb (type =? FRAME_CRYPTO) then Some (true, s, mem) else take_crypto s mem body.

Fixpoint collect_loop (fuel : nat) (s : crecv) (mem : list Z) (it : framewalk)
    : option (bool * crecv * list Z) :=
  match framewalk_next it with
  | Oob => None
  | Fail => Some (true, s, mem)
  | Ok (fr, it') =>
      '(ok, s', mem') ← on_frame s mem (it_type fr) (take (Z.to_nat (it_remaining fr)) (it_start fr));
      if negb ok then Some (false, s', mem')
      else match fuel with O => None | S fuel' => collect_loop fuel' s' mem' it' end
  end.

(* src/src/transport/conn/loop/crecv/collect.c : crecv_collect *)
Definition crecv_collect (s : crecv) (mem frames : list Z) : option (Z * crecv * list Z) :=
  '(ok, s', mem') ← collect_loop (length frames) s mem (framewalk_init frames (zlen frames));
  if negb ok then Some (0, s', mem')
  else s'' ← advance_prefix s' mem'; Some (1, s'', mem').

(** The view [*msg, *len]: [len] bytes of [mem] from [off]. *)
(* src/src/transport/conn/loop/crecv/message.c : crecv_message_at *)
Definition crecv_message_at (s : crecv) (mem : list Z) (off : Z) : list Z :=
  let len := if off <? cr_received_to s then u64 (cr_received_to s - off) else 0 in
  take (Z.to_nat len) (drop (Z.to_nat off) mem).

(* src/src/transport/conn/loop/crecv/message.c : crecv_message *)
Definition crecv_message (s : crecv) (mem : list Z) : list Z := crecv_message_at s mem 0.

(* src/src/transport/conn/loop/crecv/message.c : msg_total *)
Definition msg_total (mem : list Z) (off : Z) : option Z :=
  b1 ← load mem (off + 1);
  b2 ← load mem (off + 2);
  b3 ← load mem (off + 3);
  Some (u64 (4 + Z.lor (Z.lor (Z.shiftl b1 16) (Z.shiftl b2 8)) b3)).

(* src/src/transport/conn/loop/crecv/message.c : crecv_complete_message_at *)
Definition crecv_complete_message_at (s : crecv) (mem : list Z) (off : Z) : option bool :=
  if cr_received_to s <? u64 (off + 4) then Some false
  else t ← msg_total mem off; Some (u64 (off + t) <=? cr_received_to s).

(* src/src/transport/conn/loop/crecv/message.c : crecv_complete_message *)
Definition crecv_complete_message (s : crecv) (mem : list Z) : option bool :=
  crecv_complete_message_at s mem 0.

(* src/src/transport/conn/loop/crecv/message.c : crecv_message_end_at *)
Definition crecv_message_end_at (mem : list Z) (off : Z) : option Z :=
  t ← msg_total mem off; Some (u64 (off + t)).

(** ** The abstract specification: the segments received so far *)

(** A segment: its offset and its bytes. *)
Definition seg : Type := Z * list Z.

(** Offset [i] lies in one of the segments. *)
Definition covered (h : list seg) (i : Z) : Prop := Exists (fun g => g.1 <= i < g.1 + zlen g.2) h.

(** The segment is a part of the stream [S]. *)
Definition seg_of (S : list Z) (g : seg) : Prop :=
  0 <= g.1 /\ forall j, 0 <= j < zlen g.2 -> load g.2 j = load S (g.1 + j).

(** [d] bytes are contiguous from 0; a buffer of [cap] bytes is full or has
    its first gap there. *)
Definition first_gap (h : list seg) (cap d : Z) : Prop :=
  0 <= d <= cap /\ (forall i, 0 <= i < d -> covered h i) /\ (d < cap -> ~ covered h d).

(** The cells [bufat] and marks [haveat] of a buffer of [cap] bytes represent
    the segments [h] of [S]. *)
Definition filled (S : list Z) (h : list seg) (cap : Z) (bufat haveat : Z -> option Z) : Prop :=
  forall i, 0 <= i < cap ->
  (exists v, haveat i = Some v /\ (v <> 0 <-> covered h i)) /\ (covered h i -> bufat i = load S i).

Lemma first_gap_unique h cap d d' : first_gap h cap d -> first_gap h cap d' -> d = d'.
Proof.
  intros (H1 & H2 & H3) (H1' & H2' & H3').
  destruct (decide (d < d')); [exfalso; apply H3, H2'; lia|].
  destruct (decide (d' < d)); [exfalso; apply H3', H2; lia|]. lia.
Qed.

Lemma covered_cons g h i : covered (g :: h) i <-> g.1 <= i < g.1 + zlen g.2 \/ covered h i.
Proof. apply Exists_cons. Qed.
Lemma covered_nil i : ~ covered [] i.
Proof. intros H. by inversion H. Qed.

(** Covered bytes belong to the stream. *)
Lemma covered_in S h i : Forall (seg_of S) h -> covered h i -> 0 <= i < zlen S.
Proof.
  intros Hh Hc. apply Exists_exists in Hc as (g & Hg & Hi).
  pose proof (proj1 (List.Forall_forall _ _) Hh g Hg) as [H0 Hl].
  specialize (Hl (i - g.1) ltac:(lia)). replace (g.1 + (i - g.1)) with i in Hl by lia.
  destruct (load_is_Some g.2 (i - g.1)) as [v Hv]; [lia|]. rewrite Hv in Hl. symmetry in Hl.
  by apply load_Some in Hl.
Qed.

(** Adding a segment of the stream: the cells inside it change. *)
Lemma filled_add S h cap bufat haveat g bufat' haveat' :
  seg_of S g -> filled S h cap bufat haveat ->
  (forall j, 0 <= j < cap -> bufat' j = if (g.1 <=? j) && (j <? g.1 + zlen g.2) then load g.2 (j - g.1) else bufat j) ->
  (forall j, 0 <= j < cap -> haveat' j = if (g.1 <=? j) && (j <? g.1 + zlen g.2) then Some 1 else haveat j) ->
  filled S (g :: h) cap bufat' haveat'.
Proof.
  destruct g as [o d]. cbn [fst snd] in *.
  intros [Hg0 Hg] Hf Hb Hh i Hi. rewrite Hb, Hh by done. cbn [fst snd] in *.
  pose proof (covered_cons (o, d) h i) as Hcc. cbn [fst snd] in Hcc.
  destruct (Hf i Hi) as [(v & Hv & Hc) Hs]. destruct (_ && _) eqn:E.
  - split; [exists 1; split; [done|]; split; [intros _; apply Hcc; left; lia|done]|].
    intros _. rewrite Hg by lia. f_equal. lia.
  - split; [exists v; split; [done|]; rewrite Hc, Hcc; split; [by right|intros [?|?]; [lia|done]]|].
    intros [?|?]%Hcc; [lia|auto].
Qed.

(** ** The loops meet their specifications *)

Lemma mark_loop_spec data off n : forall buf have i,
  0 <= off -> 0 <= i -> off + i + Z.of_nat n <= zlen buf -> zlen have = zlen buf ->
  zlen buf < 18446744073709551616 -> i + Z.of_nat n <= zlen data ->
  exists buf' have', mark_loop buf have off data i n = Some (buf', have') /\
    zlen buf' = zlen buf /\ zlen have' = zlen buf /\
    (forall j, load buf' j = if (off + i <=? j) && (j <? off + i + Z.of_nat n) then load data (j - off) else load buf j) /\
    (forall j, load have' j = if (off + i <=? j) && (j <? off + i + Z.of_nat n) then Some 1 else load have j).
Proof.
  induction n as [|n IH]; intros buf have i Ho Hi Hb Hh Hu Hd; cbn [mark_loop].
  { exists buf, have. split_and!; try done; intros j; bx. }
  destruct (load_is_Some data i) as [v Hv]; [lia|]. rewrite Hv. osimpl.
  rewrite (u64_small (off + i)) by lia. rewrite !store_in by lia. osimpl.
  destruct (IH (<[Z.to_nat (off + i):=v]> buf) (<[Z.to_nat (off + i):=1]> have) (i + 1))
    as (buf' & have' & E & Hb' & Hh' & H1 & H2); rewrite ?zlen_insert; try lia.
  exists buf', have'. rewrite zlen_insert in *. split_and!; try done; intros j.
  - rewrite H1, load_insert by lia. destruct (j =? off + i) eqn:Ej.
    + replace (j - off) with i by lia. rewrite Hv. bx.
    + bx.
  - rewrite H2, load_insert by lia. bx.
Qed.

Lemma place_loop_spec data cap off n : forall mem i,
  0 <= off -> 0 <= i -> off + i + Z.of_nat n <= cap -> zlen mem = 2 * cap ->
  2 * cap < 18446744073709551616 -> i + Z.of_nat n <= zlen data ->
  exists mem', place_loop mem cap off data i n = Some mem' /\ zlen mem' = zlen mem /\
    (forall j, j < cap ->
       load mem' j = if (off + i <=? j) && (j <? off + i + Z.of_nat n) then load data (j - off) else load mem j) /\
    (forall j, 0 <= j ->
       load mem' (cap + j) = if (off + i <=? j) && (j <? off + i + Z.of_nat n) then Some 1 else load mem (cap + j)).
Proof.
  induction n as [|n IH]; intros mem i Ho Hi Hb Hm Hu Hd; cbn [place_loop].
  { exists mem. split_and!; try done; intros j ?; bx. }
  destruct (load_is_Some data i) as [v Hv]; [lia|]. rewrite Hv. osimpl.
  rewrite (u64_small (off + i)), (u64_small (cap + off)), (u64_small (cap + off + i)) by lia.
  rewrite store_in by lia. osimpl. rewrite store_in by (rewrite zlen_insert; lia). osimpl.
  destruct (IH (<[Z.to_nat (cap + off + i):=1]> (<[Z.to_nat (off + i):=v]> mem)) (i + 1))
    as (mem' & E & Hm' & H1 & H2); rewrite ?zlen_insert; try lia.
  exists mem'. rewrite !zlen_insert in *. split_and!; try done; intros j Hj.
  - rewrite H1, !load_insert by (rewrite ?zlen_insert; lia).
    destruct (j =? off + i) eqn:Ej.
    + replace (j - off) with i by lia. rewrite Hv. replace (j =? cap + off + i) with false by lia.
      bx.
    + replace (j =? cap + off + i) with false by lia. bx.
  - rewrite H2, !load_insert by (rewrite ?zlen_insert; lia).
    replace (cap + j =? off + i) with false by lia. bx.
Qed.

Lemma skip_filled_spec have base cap fuel : forall d,
  0 <= base -> base + cap < 18446744073709551616 -> 0 <= d <= cap -> cap - d <= Z.of_nat fuel ->
  (forall i, 0 <= i < cap -> exists v, load have (base + i) = Some v) ->
  exists d', skip_filled have base cap d fuel = Some d' /\ d <= d' <= cap /\
    (forall i, d <= i < d' -> exists v, load have (base + i) = Some v /\ v <> 0) /\
    (d' < cap -> load have (base + d') = Some 0).
Proof.
  induction fuel as [|fuel IH]; intros d Hb Hc Hd Hf Hl; cbn [skip_filled].
  - replace (d <? cap) with false by lia. exists d. split_and!; [done|lia|lia| |lia]. intros; lia.
  - destruct (d <? cap) eqn:E.
    + rewrite u64_small by lia. destruct (Hl d) as [v Hv]; [lia|]. rewrite Hv. osimpl.
      destruct (v =? 0) eqn:Ev.
      * exists d. split_and!; [done|lia|lia|intros; lia|]. intros _. rewrite Hv. f_equal. lia.
      * destruct (IH (d + 1)) as (d' & -> & H1 & H2 & H3); try done; try lia.
        exists d'. split_and!; [done|lia|lia| |done]. intros i Hi.
        destruct (decide (i = d)) as [->|]; [exists v; split; [done|lia]|apply H2; lia].
    + exists d. split_and!; [done|lia|lia|intros; lia|lia].
Qed.

(** Skipping from inside the prefix stops at the first gap. *)
Lemma skip_to_gap S h cap bufat have base d fuel :
  0 <= base -> base + cap < 18446744073709551616 -> 0 <= d <= cap -> cap - d <= Z.of_nat fuel ->
  filled S h cap bufat (fun i => load have (base + i)) -> (forall i, 0 <= i < d -> covered h i) ->
  exists d', skip_filled have base cap d fuel = Some d' /\ first_gap h cap d'.
Proof.
  intros Hb Hc Hd Hf Hfill Hpre.
  destruct (skip_filled_spec have base cap fuel d) as (d' & E & H1 & H2 & H3); try done.
  { intros i Hi. destruct (Hfill i Hi) as [(v & Hv & _) _]. eauto. }
  exists d'. split; [done|]. split_and!; [lia|lia| |].
  - intros i Hi. destruct (decide (i < d)); [apply Hpre; lia|].
    destruct (H2 i) as (v & Hv & Hn); [lia|]. destruct (Hfill i) as [(w & Hw & Hcv) _]; [lia|].
    apply Hcv. congruence.
  - intros Hlt Hcov. destruct (Hfill d') as [(w & Hw & Hcv) _]; [lia|].
    rewrite H3 in Hw by done. simplify_eq. by apply Hcv in Hcov.
Qed.

(** ** The stream and CRYPTO reassemblers refine the received segments *)

Record reasm_inv (S : list Z) (h : list seg) (r : reasm) : Prop := {
  rv_buf : zlen (ra_buf r) = REASM_CAP;
  rv_have : zlen (ra_have r) = REASM_CAP;
  rv_filled : filled S h REASM_CAP (load (ra_buf r)) (load (ra_have r));
  rv_delivered : 0 <= ra_delivered r <= REASM_CAP;
  rv_prefix : forall i, 0 <= i < ra_delivered r -> covered h i }.

Lemma reasm_init_inv S r :
  zlen (ra_buf r) = REASM_CAP -> zlen (ra_have r) = REASM_CAP ->
  exists r', reasm_init r = Some r' /\ reasm_inv S [] r' /\ ra_have_final r' = 0.
Proof.
  intros Hb Hh. unfold reasm_init. rewrite fill_spec by (unfold REASM_CAP in *; lia). osimpl.
  eexists. split; [reflexivity|]. split; [|done]. split; cbn [ra_buf ra_have ra_delivered]; try done.
  - rewrite zlen_splice; [done|lia|]. unfold zlen at 1. rewrite length_replicate. unfold REASM_CAP in *. lia.
  - intros i Hi. split; [|by intros ?%covered_nil]. exists 0. split; [|by split; [|intros ?%covered_nil]].
    unfold splice. cbn [take app]. change (take (Z.to_nat 0) (ra_have r)) with (@nil Z).
    rewrite app_nil_l, load_app_l by (unfold zlen; rewrite length_replicate; unfold REASM_CAP in *; lia).
    unfold load. replace (0 <=? i) with true by lia. apply lookup_replicate_2. unfold REASM_CAP in *. lia.
  - intros; lia.
Qed.

Lemma reasm_insert_spec S h r off data :
  reasm_inv S h r -> seg_of S (off, data) -> off + zlen data < 18446744073709551616 ->
  if (off + zlen data <=? REASM_CAP) && ((ra_have_final r =? 0) || (off + zlen data <=? ra_final_size r)) then
    exists r', reasm_insert r off data = Some (1, r') /\ reasm_inv S ((off, data) :: h) r' /\
      ra_final_size r' = ra_final_size r /\ ra_have_final r' = ra_have_final r /\ ra_delivered r' = ra_delivered r
  else reasm_insert r off data = Some (0, r).
Proof.
  intros [Hb Hh Hf Hd Hp] Hs Hu. pose proof Hs as [Ho _]. cbn [fst] in Ho. pose proof (zlen_nonneg data).
  unfold reasm_insert, insert_fits. rewrite (u64_small (off + zlen data)) by lia.
  destruct (off + zlen data <=? REASM_CAP) eqn:E1.
  2: { replace (REASM_CAP <? off + zlen data) with true by lia. done. }
  replace (REASM_CAP <? off + zlen data) with false by lia. cbn [andb].
  destruct ((ra_have_final r =? 0) || _); [|done]. cbn [negb].
  destruct (mark_loop_spec data off (length data) (ra_buf r) (ra_have r) 0) as (buf & have & -> & H1 & H2 & H3 & H4);
    fold (zlen data); unfold REASM_CAP in *; try lia.
  osimpl. eexists. split; [reflexivity|]. split; [|done]. split; cbn [ra_buf ra_have ra_delivered]; try (unfold REASM_CAP; lia).
  - apply (filled_add S h _ (load (ra_buf r)) (load (ra_have r)) (off, data)); [done|done| |];
      intros j Hj; cbn [fst snd]; [rewrite H3|rewrite H4]; by rewrite Z.add_0_r.
  - intros i Hi. apply covered_cons. right. by apply Hp.
Qed.

Lemma reasm_deliver_spec S h r :
  reasm_inv S h r ->
  exists d r', reasm_deliver r = Some (d, r') /\ reasm_inv S h r' /\ first_gap h REASM_CAP d /\
    ra_buf r' = ra_buf r /\ ra_final_size r' = ra_final_size r /\ ra_have_final r' = ra_have_final r.
Proof.
  intros [Hb Hh Hf Hd Hp]. unfold reasm_deliver.
  destruct (skip_to_gap S h REASM_CAP (load (ra_buf r)) (ra_have r) 0 (ra_delivered r)
              (Z.to_nat (REASM_CAP - ra_delivered r))) as (d & -> & Hg); try done; try (unfold REASM_CAP in *; lia).
  osimpl. do 2 eexists. split; [reflexivity|]. pose proof Hg as (? & Hc & _).
  split; [|done]. by split.
Qed.

(** Copying contiguous bytes out of the buffer gives the bytes of the stream. *)
Lemma read_copy S h cap buf out k n d :
  filled S h cap (load buf) (fun i => load buf (cap + i)) \/ (exists have, filled S h cap (load buf) have) ->
  Forall (seg_of S) h -> cap <= zlen buf -> first_gap h cap d -> 0 <= k -> 0 <= n -> k + n <= d -> n <= zlen out ->
  exists p, copy out 0 buf k (Z.to_nat n) = Some p /\ zlen p = zlen out /\
    take (Z.to_nat n) p = take (Z.to_nat n) (drop (Z.to_nat k) S).
Proof.
  intros Hf HS Hz (Hd & Hc & _) Hk Hn Hkn Ho.
  assert (forall i, 0 <= i < d -> load buf i = load S i) as Hl.
  { intros i Hi. destruct Hf as [Hf|[have Hf]]; apply (Hf i); try lia; by apply Hc. }
  assert (d <= zlen S) as HdS.
  { destruct (decide (d = 0)) as [->|]; [apply zlen_nonneg|].
    pose proof (covered_in S h (d - 1) HS (Hc (d - 1) ltac:(lia))). lia. }
  rewrite copy_spec by lia. eexists. split; [reflexivity|].
  assert (zlen (take (Z.to_nat n) (drop (Z.to_nat k) buf)) = n) as Hlen
    by (rewrite zlen_take; [done|rewrite zlen_drop; lia]).
  split; [rewrite zlen_splice; [done|lia|lia]|].
  rewrite <- Hlen at 1. rewrite splice_0_take by lia. apply load_ext.
  { rewrite !zlen_take by (rewrite zlen_drop; lia). done. }
  rewrite Hlen. intros j Hj. rewrite !load_take, !load_skip by lia. apply Hl. lia.
Qed.

(** What is in a reader: segments [h] of [S], of which [k] bytes were read. *)
Definition reader_inv (S : list Z) (h : list seg) (r : reasm) (k : Z) : Prop :=
  reasm_inv S h r /\ Forall (seg_of S) h /\ 0 <= k /\ exists g, first_gap h REASM_CAP g /\ k <= g.

(** A longer history has its gap no earlier. *)
Lemma gap_mono h g cap d :
  first_gap h cap d -> (exists d', first_gap (g :: h) cap d') -> exists d', first_gap (g :: h) cap d' /\ d <= d'.
Proof.
  intros (H1 & H2 & _) (d' & Hd'). exists d'. split; [done|].
  destruct (decide (d <= d')); [done|]. destruct Hd' as (? & _ & Hn). exfalso. apply Hn; [lia|].
  apply covered_cons. right. apply H2. lia.
Qed.

Lemma reader_gap S h r k : reader_inv S h r k -> exists g, first_gap h REASM_CAP g /\ k <= g.
Proof. by intros (_ & _ & _ & ?). Qed.

Lemma reader_push S h r k off data r' :
  reader_inv S h r k -> seg_of S (off, data) -> reasm_inv S ((off, data) :: h) r' ->
  reader_inv S ((off, data) :: h) r' k.
Proof.
  intros (_ & HS & Hk & g & Hg & Hkg) Hs Hr. split_and!; [done|by constructor|done|].
  destruct (gap_mono h (off, data) _ g Hg) as (g' & Hg' & ?).
  { destruct (reasm_deliver_spec _ _ _ Hr) as (d & _ & _ & _ & ? & _). eauto. }
  exists g'. split; [done|lia].
Qed.

Lemma pull_spec S h s out :
  reader_inv S h (sr_r s) (sr_read_off s) ->
  exists s' o g, stream_read_pull s out = Some (s', o) /\ first_gap h REASM_CAP g /\
    let n := Z.min (ocap out) (g - sr_read_off s) in
    reader_inv S h (sr_r s') (sr_read_off s') /\ sr_read_off s' = sr_read_off s + n /\ 0 <= n /\
    owritten o = take (Z.to_nat n) (drop (Z.to_nat (sr_read_off s)) S) /\
    ra_have_final (sr_r s') = ra_have_final (sr_r s) /\ ra_final_size (sr_r s') = ra_final_size (sr_r s).
Proof.
  intros (Hr & HS & Hk & g & Hg & Hkg). unfold stream_read_pull, readable.
  destruct (reasm_deliver_spec _ _ _ Hr) as (d & r' & -> & Hr' & Hd & Hbuf & Hf1 & Hf2). osimpl.
  rewrite (first_gap_unique _ _ _ _ Hg Hd) in *. clear g Hg.
  pose proof Hd as (Hd1 & _). unfold REASM_CAP in Hd1. rewrite (u64_small (d - sr_read_off s)) by lia. cbn [sr_r sr_read_off].
  set (n := if _ <? ocap out then _ else _).
  assert (n = Z.min (ocap out) (d - sr_read_off s)) as -> by (subst n; bcase; lia).
  pose proof (zlen_nonneg (op out)) as Hz. unfold ocap in *. set (n := Z.min _ _).
  destruct (read_copy S h REASM_CAP (ra_buf r') (op out) (sr_read_off s) n d) as (p & -> & Hp & Ht); try done; try (subst n; lia).
  { right. eexists. apply Hr'. } { rewrite (rv_buf _ _ _ Hr'). done. }
  osimpl. rewrite u64_small by (subst n; lia). do 3 eexists. split; [reflexivity|]. split; [exact Hd|].
  fold n. cbn [sr_r sr_read_off]. split_and!; try done; try (subst n; lia).
  split_and!; try done; try (subst n; lia). exists d. split; [done|subst n; lia].
Qed.

Lemma crypto_read_spec S h r out :
  reader_inv S h (cx_reasm r) (cx_read_upto r) ->
  exists g ok r' o, crypto_stream_read r out = Some (ok, r', o) /\ first_gap h REASM_CAP g /\
    reader_inv S h (cx_reasm r') (cx_read_upto r') /\
    (if g - cx_read_upto r <=? ocap out then
       ok = 1 /\ cx_read_upto r' = g /\ owritten o = take (Z.to_nat (g - cx_read_upto r)) (drop (Z.to_nat (cx_read_upto r)) S)
     else ok = 0 /\ o = out /\ cx_read_upto r' = cx_read_upto r) /\
    ra_have_final (cx_reasm r') = ra_have_final (cx_reasm r) /\
    ra_final_size (cx_reasm r') = ra_final_size (cx_reasm r).
Proof.
  intros (Hr & HS & Hk & g & Hg & Hkg). unfold crypto_stream_read.
  destruct (reasm_deliver_spec _ _ _ Hr) as (d & r' & -> & Hr' & Hd & Hbuf & Hf1 & Hf2). osimpl.
  rewrite (first_gap_unique _ _ _ _ Hg Hd) in *. clear g Hg. exists d.
  pose proof Hd as (Hd1 & _). unfold REASM_CAP in Hd1. rewrite (u64_small (d - _)) by lia.
  destruct (d - cx_read_upto r <=? ocap out) eqn:E.
  - replace (ocap out <? d - cx_read_upto r) with false by lia. unfold ocap in E.
    destruct (read_copy S h REASM_CAP (ra_buf r') (op out) (cx_read_upto r) (d - cx_read_upto r) d)
      as (p & -> & Hp & Ht); try done; try lia.
    { right. eexists. apply Hr'. } { rewrite (rv_buf _ _ _ Hr'). done. }
    osimpl. rewrite u64_small by lia. do 3 eexists. split; [reflexivity|]. split; [exact Hd|]. cbn [cx_reasm cx_read_upto].
    split; [split_and!; try done; try lia; exists d; split; [done|lia]|]. split_and!; try done. lia.
  - replace (ocap out <? d - cx_read_upto r) with true by lia. do 3 eexists. split; [reflexivity|]. split; [exact Hd|].
    cbn [cx_reasm cx_read_upto]. split; [split_and!; try done; by exists d|done].
Qed.

(** One operation of a reader's life, and the segments and final size that the
    operations accepted so far leave behind. *)
Inductive rx_op :=
  | RxPush (offset : Z) (data : list Z)
  | RxFinal (size : Z)
  | RxPull (out : list Z).

Definition accepts (fin : option Z) (offset len : Z) : bool :=
  (offset + len <=? REASM_CAP) && match fin with Some f => offset + len <=? f | None => true end.

Definition spec_step (st : list seg * option Z) (x : rx_op) : list seg * option Z :=
  match x with
  | RxPush off data => if accepts st.2 off (zlen data) then ((off, data) :: st.1, st.2) else st
  | RxFinal f => if f <=? REASM_CAP then (st.1, Some f) else st
  | RxPull _ => st
  end.

(** Received data is part of the stream [S]; offsets do not wrap. *)
Definition rx_op_ok (S : list Z) (x : rx_op) : Prop :=
  match x with
  | RxPush off data => seg_of S (off, data) /\ off + zlen data < 18446744073709551616
  | _ => True
  end.

(** Run the code, collecting the bytes handed to the application. *)
Definition sr_step (st : stream_read * list Z) (x : rx_op) : option (stream_read * list Z) :=
  let '(s, got) := st in
  match x with
  | RxPush off data => '(_, s') ← stream_read_push s off data; Some (s', got)
  | RxFinal f => Some (mk_sread (reasm_set_final (sr_r s) f).2 (sr_read_off s), got)
  | RxPull out => '(s', o) ← stream_read_pull s (obuf_of out); Some (s', got ++ owritten o)
  end.

Definition cx_step (st : crypto_rx * list Z) (x : rx_op) : option (crypto_rx * list Z) :=
  let '(r, got) := st in
  match x with
  | RxPush off data => '(_, r') ← crypto_stream_recv r off data; Some (r', got)
  | RxFinal f => Some (mk_crx (reasm_set_final (cx_reasm r) f).2 (cx_read_upto r), got)
  | RxPull out =>
      '(ok, r', o) ← crypto_stream_read r (obuf_of out);
      Some (r', if ok =? 0 then got else got ++ owritten o)
  end.

Fixpoint rx_run {T} (step : T -> rx_op -> option T) (st : T) (ops : list rx_op) : option T :=
  match ops with [] => Some st | x :: ops' => st' ← step st x; rx_run step st' ops' end.

(** The reader state agrees with the specification state and the bytes handed
    out so far. *)
Definition reads_as (S : list Z) (sp : list seg * option Z) (r : reasm) (k : Z) (got : list Z) : Prop :=
  reader_inv S sp.1 r k /\ got = take (Z.to_nat k) S /\ k <= zlen S /\
  match sp.2 with Some f => ra_have_final r <> 0 /\ ra_final_size r = f | None => ra_have_final r = 0 end.

Lemma accepts_code S sp r k got off len :
  reads_as S sp r k got ->
  (off + len <=? REASM_CAP) && ((ra_have_final r =? 0) || (off + len <=? ra_final_size r)) = accepts sp.2 off len.
Proof.
  intros (_ & _ & _ & Hf). unfold accepts. f_equal. destruct sp.2 as [f|].
  - destruct Hf as [Hn ->]. by replace (ra_have_final r =? 0) with false by lia.
  - by rewrite Hf.
Qed.

Lemma reads_push S sp r k got off data :
  reads_as S sp r k got -> rx_op_ok S (RxPush off data) ->
  exists r', reasm_insert r off data = Some (if accepts sp.2 off (zlen data) then 1 else 0, r') /\
    reads_as S (spec_step sp (RxPush off data)) r' k got.
Proof.
  intros Hr [Hs Hu]. pose proof (accepts_code _ _ _ _ _ off (zlen data) Hr) as Ha.
  pose proof Hr as (Hri & Hgot & Hk & Hf). pose proof (reasm_insert_spec _ _ _ off data (proj1 Hri) Hs Hu) as H.
  rewrite Ha in H. cbn [spec_step]. destruct (accepts _ _ _).
  - destruct H as (r' & -> & Hr' & Hf1 & Hf2 & _). exists r'. split; [done|].
    split; [by eapply reader_push|]. cbn [snd]. rewrite Hf1, Hf2. done.
  - exists r. done.
Qed.

Lemma reads_final S sp r k got f :
  reads_as S sp r k got -> reads_as S (spec_step sp (RxFinal f)) (reasm_set_final r f).2 k got.
Proof.
  intros (([Hb Hh Hf Hd Hp] & HS & Hg) & Hgot & Hk & Hfin). unfold reasm_set_final. cbn [spec_step].
  destruct (f <=? REASM_CAP) eqn:E.
  - replace (REASM_CAP <? f) with false by lia. cbn [snd]. split; [|done]. split; [by split|done].
  - replace (REASM_CAP <? f) with true by lia. cbn [snd]. split; [|done]. split; [by split|done].
Qed.

Lemma gap_stream S h g : Forall (seg_of S) h -> first_gap h REASM_CAP g -> g <= zlen S.
Proof.
  intros HS ((Hg & _) & Hc & _). destruct (decide (g = 0)) as [->|]; [apply zlen_nonneg|].
  pose proof (covered_in S h (g - 1) HS (Hc (g - 1) ltac:(lia))). lia.
Qed.

Lemma take_more (S : list Z) k n :
  0 <= k -> 0 <= n -> take (Z.to_nat k) S ++ take (Z.to_nat n) (drop (Z.to_nat k) S) = take (Z.to_nat (k + n)) S.
Proof. intros. by rewrite Z2Nat.inj_add, take_take_drop by lia. Qed.

Lemma sr_step_reads S sp s got x :
  reads_as S sp (sr_r s) (sr_read_off s) got -> rx_op_ok S x ->
  exists s' got', sr_step (s, got) x = Some (s', got') /\
    reads_as S (spec_step sp x) (sr_r s') (sr_read_off s') got'.
Proof.
  intros Hr Hx. destruct x as [off data|f|out]; cbn [sr_step].
  - unfold stream_read_push. destruct (reads_push _ _ _ _ _ off data Hr Hx) as (r' & -> & Hr'). osimpl. eauto.
  - do 2 eexists. split; [reflexivity|]. by apply reads_final.
  - destruct Hr as (Hri & -> & Hk & Hf).
    destruct (pull_spec _ _ _ (obuf_of out) Hri) as (s' & o & g & -> & Hg & Hri' & Hoff & Hn & Hw & Hf1 & Hf2).
    osimpl. do 2 eexists. split; [reflexivity|]. pose proof (gap_stream _ _ _ (proj1 (proj2 Hri)) Hg).
    pose proof (proj1 (proj2 (proj2 Hri))). split_and!; [done| |lia|by rewrite Hf1, Hf2].
    by rewrite Hw, take_more, Hoff by lia.
Qed.

Lemma cx_step_reads S sp r got x :
  reads_as S sp (cx_reasm r) (cx_read_upto r) got -> rx_op_ok S x ->
  exists r' got', cx_step (r, got) x = Some (r', got') /\
    reads_as S (spec_step sp x) (cx_reasm r') (cx_read_upto r') got'.
Proof.
  intros Hr Hx. destruct x as [off data|f|out]; cbn [cx_step].
  - unfold crypto_stream_recv. destruct (reads_push _ _ _ _ _ off data Hr Hx) as (r' & -> & Hr'). osimpl. eauto.
  - do 2 eexists. split; [reflexivity|]. by apply reads_final.
  - destruct Hr as (Hri & -> & Hk & Hf). pose proof (reader_gap _ _ _ _ Hri) as (g0 & Hg0 & Hkg).
    destruct (crypto_read_spec _ _ _ (obuf_of out) Hri) as (g & ok & r' & o & -> & Hg & Hri' & Hc & Hf1 & Hf2).
    rewrite (first_gap_unique _ _ _ _ Hg0 Hg) in Hkg.
    osimpl. do 2 eexists. split; [reflexivity|]. pose proof (gap_stream _ _ _ (proj1 (proj2 Hri)) Hg).
    pose proof (proj1 (proj2 (proj2 Hri))). bcase in Hc.
    + destruct Hc as (-> & Hg' & ->). cbn [Z.eqb]. split_and!; [done| |lia|by rewrite Hf1, Hf2].
      rewrite take_more by lia. f_equal. rewrite Hg'. lia.
    + destruct Hc as (-> & -> & Hk'). cbn [Z.eqb]. rewrite Hk'. split_and!; [by rewrite <- Hk'|done|lia|by rewrite Hf1, Hf2].
Qed.

Section run.
Context {T : Type} (step : T * list Z -> rx_op -> option (T * list Z)) (ras : T -> reasm) (off : T -> Z).
Hypothesis step_reads : forall S sp s got x,
  reads_as S sp (ras s) (off s) got -> rx_op_ok S x ->
  exists s' got', step (s, got) x = Some (s', got') /\ reads_as S (spec_step sp x) (ras s') (off s') got'.

Lemma rx_run_reads S ops : forall sp s got,
  reads_as S sp (ras s) (off s) got -> Forall (rx_op_ok S) ops ->
  exists s' got', rx_run step (s, got) ops = Some (s', got') /\
    reads_as S (foldl spec_step sp ops) (ras s') (off s') got'.
Proof.
  induction ops as [|x ops IH]; intros sp s got Hr Hops; cbn [rx_run foldl]; [eauto|].
  apply Forall_cons_1 in Hops as [Hx Hops].
  destruct (step_reads S sp s got x Hr Hx) as (s1 & got1 & -> & Hr1). osimpl. auto.
Qed.
End run.

Lemma reads_as_init S r : reasm_inv S [] r -> ra_have_final r = 0 -> reads_as S ([], None) r 0 [].
Proof.
  intros Hr Hf. split; [|split_and!; [done|apply zlen_nonneg|done]]. split_and!; [done|constructor|lia|].
  exists 0. split; [|lia]. split_and!; [unfold REASM_CAP; lia..|intros; lia|by intros _ ?%covered_nil].
Qed.

(** C17: in-order delivery (RFC 9000 2.2).  Whatever order, overlap and
    repetition the segments of a stream [S] arrive in, and however reads of
    any size are interleaved, the STREAM reader never leaves its buffers and
    the bytes it hands out are a prefix of [S]: exactly as many as the reads
    asked for, up to the first byte missing from the accepted segments.  A
    segment is accepted iff it ends within 4096 bytes and any recorded final
    size; the final size itself is not checked against data already received.
    The CRYPTO reader refines the same specification, reading all or nothing. *)
Theorem stream_delivered_in_order (S : list Z) (mem : reasm) (ops : list rx_op) :
  zlen (ra_buf mem) = REASM_CAP -> zlen (ra_have mem) = REASM_CAP -> Forall (rx_op_ok S) ops ->
  let sp := foldl spec_step ([], None) ops in
  exists s0 s got g, stream_read_init (mk_sread mem 0) = Some s0 /\ rx_run sr_step (s0, []) ops = Some (s, got) /\
    got = take (length got) S /\ first_gap sp.1 REASM_CAP g /\ zlen got <= g /\
    (forall off data, rx_op_ok S (RxPush off data) ->
       exists s', stream_read_push s off data = Some (if accepts sp.2 off (zlen data) then 1 else 0, s')) /\
    (forall out, exists s' o, stream_read_pull s (obuf_of out) = Some (s', o) /\
       got ++ owritten o = take (Z.to_nat (Z.min (zlen got + zlen out) g)) S) /\
  exists r0 r cgot, crypto_stream_rx_init (mk_crx mem 0) = Some r0 /\ rx_run cx_step (r0, []) ops = Some (r, cgot) /\
    cgot = take (length cgot) S /\
    (forall out, exists r' o, crypto_stream_read r (obuf_of out) =
         Some (if g - zlen cgot <=? zlen out then 1 else 0, r', o) /\
       (g - zlen cgot <= zlen out -> cgot ++ owritten o = take (Z.to_nat g) S)).
Proof.
  intros Hb Hh Hops sp. destruct (reasm_init_inv S mem Hb Hh) as (r0 & Er & Hr0 & Hf0).
  pose proof (reads_as_init S r0 Hr0 Hf0) as Hi.
  destruct (rx_run_reads sr_step sr_r sr_read_off sr_step_reads S ops _ (mk_sread r0 0) [] Hi Hops) as (s & got & Es & Hs).
  destruct (rx_run_reads cx_step cx_reasm cx_read_upto cx_step_reads S ops _ (mk_crx r0 0) [] Hi Hops) as (r & cgot & Ec & Hc).
  fold sp in Hs, Hc. pose proof Hs as (Hsi & Hgot & Hsk & _). pose proof Hc as (Hci & Hcgot & Hck & _).
  pose proof (reader_gap _ _ _ _ Hsi) as (g & Hg & Hkg). pose proof (reader_gap _ _ _ _ Hci) as (g' & Hg' & Hckg).
  rewrite (first_gap_unique _ _ _ _ Hg' Hg) in *. clear g' Hg'.
  assert (0 <= sr_read_off s) by apply Hsi. assert (0 <= cx_read_upto r) by apply Hci.
  assert (zlen got = sr_read_off s) as Hzg by (rewrite Hgot, zlen_take; lia).
  assert (zlen cgot = cx_read_upto r) as Hzc by (rewrite Hcgot, zlen_take; lia).
  exists (mk_sread r0 0), s, got, g. unfold stream_read_init, crypto_stream_rx_init. cbn [sr_r cx_reasm]. rewrite Er.
  split; [done|]. split; [done|]. split; [by rewrite Hgot at 1; f_equal; unfold zlen in Hzg; lia|]. split; [done|].
  split; [lia|]. split.
  { intros off data Hx. unfold stream_read_push. destruct (reads_push _ _ _ _ _ off data Hs Hx) as (r' & -> & _). osimpl. eauto. }
  split.
  { intros out. destruct (pull_spec _ _ _ (obuf_of out) Hsi) as (s' & o & g1 & E & Hg1 & _ & _ & Hn & Hw & _).
    rewrite (first_gap_unique _ _ _ _ Hg1 Hg) in *. exists s', o. split; [done|].
    rewrite Hw, Hgot, take_more by lia. do 2 f_equal. change (ocap (obuf_of out)) with (zlen out) in *. rewrite <- Hgot. lia. }
  exists (mk_crx r0 0), r, cgot. split; [done|]. split; [done|].
  split; [by rewrite Hcgot at 1; f_equal; unfold zlen in Hzc; lia|].
  intros out. destruct (crypto_read_spec _ _ _ (obuf_of out) Hci) as (g1 & ok & r' & o & E & Hg1 & _ & Hcase & _).
  rewrite (first_gap_unique _ _ _ _ Hg1 Hg) in *. change (ocap (obuf_of out)) with (zlen out) in *. rewrite <- Hzc in *.
  exists r', o. rewrite E. destruct (g - zlen cgot <=? zlen out) eqn:El.
  - destruct Hcase as (-> & _ & Hw). split; [done|]. intros _. rewrite Hw, Hcgot at 1. rewrite Hzc.
    rewrite take_more by lia. do 2 f_equal. lia.
  - destruct Hcase as (-> & _). split; [done|lia].
Qed.

Definition reasm_demo : reasm := mk_reasm (replicate 4096 0) (replicate 4096 7) 3 3 3.
Definition rx_demo : list rx_op :=
  [RxPush 3 [14; 15]; RxPull [0; 0; 0; 0]; RxPush 0 [11; 12]; RxPull [0]; RxPush 1 [12; 13; 14]].

Lemma stream_delivered_in_order_witness :
  exists s0 s, stream_read_init (mk_sread reasm_demo 0) = Some s0 /\ rx_run sr_step (s0, []) rx_demo = Some (s, [11]) /\
    exists s' o, stream_read_pull s (obuf_of [0; 0; 0; 0; 0; 0]) = Some (s', o) /\ [11] ++ owritten o = [11; 12; 13; 14; 15].
Proof.
  destruct (stream_delivered_in_order [11; 12; 13; 14; 15] reasm_demo rx_demo) as (s0 & s & got & g & E0 & E & _ & Hg & _ & _ & Hp & _).
  - reflexivity.
  - reflexivity.
  - repeat constructor; cbn; try lia; intros j Hj;
      (assert (j = 0 \/ j = 1 \/ j = 2) as [->|[->| ->]] by (unfold zlen in Hj; cbn in Hj; lia)); try done;
      unfold zlen in Hj; cbn in Hj; lia.
  - assert (g = 5) as ->.
    { assert ((foldl spec_step ([], None) rx_demo).1 = [(1, [12; 13; 14]); (0, [11; 12]); (3, [14; 15])]) as Esp
        by (vm_compute; reflexivity).
      rewrite Esp in Hg. apply (first_gap_unique _ _ _ _ Hg). split; [unfold REASM_CAP; lia|]. split.
      - intros i Hi. repeat rewrite covered_cons. cbn [fst snd]. unfold zlen. cbn.
        destruct (decide (i = 0)); [right; left; lia|].
        destruct (decide (i <= 3)); [left; lia|right; right; left; lia].
      - intros _. repeat rewrite covered_cons. cbn [fst snd]. unfold zlen. cbn. intros [?|[?|[?|?%covered_nil]]]; lia. }
    assert ((s0 ← stream_read_init (mk_sread reasm_demo 0); st ← rx_run sr_step (s0, []) rx_demo; Some st.2) = Some [11])
      as Ev by (vm_compute; reflexivity).
    rewrite E0 in Ev. cbn [mbind option_bind] in Ev. rewrite E in Ev. injection Ev as ->.
    exists s0, s. split; [done|]. split; [done|]. destruct (Hp [0; 0; 0; 0; 0; 0]) as (s' & o & E' & Ho). eauto.
Defined.

(** ** CRYPTO frames out: the emitter cuts the bytes into consecutive frames *)

(** The segments [gs] are [bytes] cut into non-empty pieces, from [off] on. *)
Fixpoint consecutive (off : Z) (gs : list seg) (bytes : list Z) : Prop :=
  match gs with
  | [] => bytes = []
  | g :: gs' => g.1 = off /\ g.2 <> [] /\ exists rest, bytes = g.2 ++ rest /\ consecutive (off + zlen g.2) gs' rest
  end.

Definition seg_wire (g : seg) : option (list Z) := crypto_wire (mk_crypto g.1 (zlen g.2) g.2).
Definition seg_sendable (g : seg) : Prop := 0 <= g.1 /\ g.1 + zlen g.2 <= VARINT_MAX.

Lemma seg_ok g : seg_sendable g -> crypto_ok (mk_crypto g.1 (zlen g.2) g.2).
Proof.
  intros [? ?]. pose proof (zlen_nonneg g.2). unfold crypto_ok, is_u64, span_max, VARINT_MAX in *. cbn. lia.
Qed.

Lemma seg_wire_some g :
  seg_sendable g -> exists l, seg_wire g = Some l /\ zlen l <= 17 + zlen g.2.
Proof.
  intros [H0 Hv]. pose proof (zlen_nonneg g.2). unfold seg_wire, crypto_wire, ocat, varint_wire. cbn [cf_offset cf_length cf_data foldr].
  replace (6 <=? VARINT_MAX) with true by done. replace (g.1 <=? VARINT_MAX) with true by lia.
  replace (zlen g.2 <=? VARINT_MAX) with true by lia. cbn [oapp]. eexists. split; [reflexivity|].
  rewrite app_nil_r. rewrite !zlen_app. rewrite (varint_type 6), zlen_cons by lia. change (zlen []) with 0.
  rewrite zlen_take by lia. pose proof (varint_bytes_pos g.1). pose proof (varint_bytes_pos (zlen g.2)). lia.
Qed.

Lemma consecutive_covers off gs bytes i :
  consecutive off gs bytes -> covered gs i <-> off <= i < off + zlen bytes.
Proof.
  revert off bytes. induction gs as [|[o d] gs IH]; intros off bytes Hc; cbn [consecutive] in Hc.
  - subst. change (zlen []) with 0. split; [by intros ?%covered_nil|lia].
  - destruct Hc as (Ho & _ & rest & -> & Hc). cbn [fst snd] in *. rewrite covered_cons, (IH _ _ Hc), zlen_app. cbn [fst snd].
    pose proof (zlen_nonneg d). pose proof (zlen_nonneg rest). lia.
Qed.

Lemma consecutive_of S off gs bytes :
  consecutive off gs bytes -> seg_of S (off, bytes) -> Forall (seg_of S) gs.
Proof.
  revert off bytes. induction gs as [|[o d] gs IH]; intros off bytes Hc [H0 Hs]; cbn [consecutive fst snd] in *; [constructor|].
  destruct Hc as (-> & _ & rest & -> & Hc). pose proof (zlen_nonneg d). pose proof (zlen_nonneg rest).
  rewrite zlen_app in Hs. constructor.
  - split; [done|]. cbn [fst snd]. intros j Hj. rewrite <- Hs by lia. by rewrite load_app_l by lia.
  - apply (IH _ _ Hc). split; [cbn; lia|]. cbn [fst snd]. intros j Hj.
    specialize (Hs (zlen d + j) ltac:(lia)). rewrite load_app_r in Hs by lia.
    replace (zlen d + j - zlen d) with j in Hs by lia. rewrite Hs. f_equal. lia.
Qed.

Lemma splice_tail (p l : list Z) n :
  0 <= n <= zlen p -> take (Z.to_nat n) p ++ splice (drop (Z.to_nat n) p) 0 l = splice p n l.
Proof. intros. unfold splice. cbn. by rewrite drop_drop. Qed.

Lemma emit_one_spec tls base pos chunk o :
  0 <= base -> base + zlen tls <= VARINT_MAX -> 0 <= pos -> 0 < chunk -> pos + chunk <= zlen tls -> obuf_ok o ->
  let g : seg := (base + pos, take (Z.to_nat chunk) (drop (Z.to_nat pos) tls)) in
  exists l, seg_wire g = Some l /\ zlen l <= 17 + chunk /\ seg_sendable g /\ g.2 <> [] /\
  if olen o + zlen l <=? ocap o then
    emit_one tls (mk_chunk base chunk) (mk_progress pos o) = Some (true, mk_progress (pos + chunk) (obuf_app o l))
  else exists o', emit_one tls (mk_chunk base chunk) (mk_progress pos o) = Some (false, mk_progress pos o').
Proof.
  intros Hb Hv Hp Hc Hpc Ho g.
  assert (zlen (drop (Z.to_nat pos) tls) = zlen tls - pos) as Hd by (rewrite zlen_drop; lia).
  assert (zlen g.2 = chunk) as Hg by (unfold g; cbn; rewrite zlen_take; lia).
  assert (seg_sendable g) as Hs by (split; [cbn; lia|rewrite Hg; cbn; lia]).
  destruct (seg_wire_some g Hs) as (l & Hl & Hll). exists l. rewrite Hg in Hll.
  split_and!; [done|lia|done|intros E; rewrite E in Hg; change (zlen []) with 0 in Hg; lia|].
  pose proof Ho as [Ho1 Ho2]. unfold ocap in *. unfold VARINT_MAX in Hv. unfold span_max in Ho2.
  unfold emit_one. cbn [ec_base_offset ec_chunk ep_pos ep_out]. rewrite (u64_small (base + pos)) by lia.
  set (f := mk_crypto (base + pos) chunk (drop (Z.to_nat pos) tls)).
  assert (crypto_ok f) as Hf by (unfold crypto_ok, is_u64, span_max; cbn; lia).
  assert (crypto_wire f = Some l) as Hw.
  { rewrite <- Hl. unfold seg_wire, crypto_wire. cbn [cf_offset cf_length cf_data f]. rewrite Hg. cbn [g fst snd].
    rewrite take_take. by rewrite Nat.min_id. }
  assert (zlen (drop (Z.to_nat (olen o)) (op o)) = zlen (op o) - olen o) as Hr by (rewrite zlen_drop; lia).
  destruct (crypto_contract f (drop (Z.to_nat (olen o)) (op o)) Hf) as [(l' & Hl' & Hz & E & _)|(Hno & b & E & _)].
  { rewrite Hr. unfold span_max. lia. }
  - rewrite Hw in Hl'. simplify_eq. rewrite E. osimpl. replace (olen o + zlen l' <=? zlen (op o)) with true by lia.
    replace (zlen l' =? 0) with false by lia. rewrite (u64_small (pos + chunk)), (u64_small (olen o + zlen l')) by lia.
    rewrite splice_tail by lia. done.
  - specialize (Hno l Hw). replace (olen o + zlen l <=? zlen (op o)) with false by lia. rewrite E. osimpl.
    cbn [Z.eqb]. by eexists.
Qed.

(** Number of frames that [r] bytes take. *)
Definition n_frames (r mf : Z) : Z := (r + mf - 1) / mf.

Lemma n_frames_step r mf : 0 < mf -> 0 < r -> n_frames r mf = 1 + n_frames (r - Z.min r mf) mf /\ 0 <= n_frames (r - Z.min r mf) mf.
Proof.
  intros Hm Hr. unfold n_frames. split; [|apply Z.div_pos; lia].
  destruct (decide (r <= mf)).
  - rewrite Z.min_l, Z.sub_diag by lia. rewrite (Z.div_small (0 + mf - 1)) by lia.
    symmetry. apply (Z.div_unique_pos _ _ _ (r - 1)); lia.
  - rewrite Z.min_r by lia. replace (r + mf - 1) with (r - mf + mf - 1 + 1 * mf) by lia.
    rewrite Z.div_add by lia. lia.
Qed.

Lemma concat_cons_eq {A} (l : list A) ls : concat (l :: ls) = l ++ concat ls.
Proof. done. Qed.

Lemma emit_loop_spec tls base mf fuel : forall pos o,
  0 <= base -> base + zlen tls <= VARINT_MAX -> 0 < mf < 18446744073709551616 ->
  0 <= pos <= zlen tls -> zlen tls - pos <= Z.of_nat fuel -> obuf_ok o ->
  exists ok p, emit_loop tls (mk_emit_in base mf) true (mk_progress pos o) fuel = Some (ok, p) /\
    (ok = true -> exists gs ls, consecutive (base + pos) gs (drop (Z.to_nat pos) tls) /\
       Forall seg_sendable gs /\ mapM seg_wire gs = Some ls /\ ofits o (concat ls) /\ ep_out p = obuf_app o (concat ls)) /\
    (olen o + (zlen tls - pos) + 17 * n_frames (zlen tls - pos) mf <= ocap o -> ok = true).
Proof.
  induction fuel as [|fuel IH]; intros pos o Hb Hv Hm Hp Hf Ho; cbn [emit_loop]; cbn [ep_pos andb].
  all: destruct (pos <? zlen tls) eqn:E.
  - exfalso. lia.
  - do 2 eexists. split; [reflexivity|]. split; [|done]. intros _. exists [], []. cbn [consecutive mapM].
    rewrite drop_ge by (unfold zlen in *; lia). rewrite obuf_app_nil. split_and!; try done.
    unfold ofits. destruct Ho. change (zlen (concat [])) with 0. lia.
  - cbn [ei_base_offset ei_max_frame]. unfold crypto_tx_min_usz. unfold VARINT_MAX in Hv.
    rewrite (u64_small (zlen tls - pos)) by lia.
    set (chunk := if _ <? mf then _ else mf).
    assert (chunk = Z.min (zlen tls - pos) mf) as Hch by (subst chunk; bcase; lia). clearbody chunk.
    destruct (emit_one_spec tls base pos chunk o) as (l & Hl & Hll & Hs & Hne & Hone); try done; try (unfold VARINT_MAX; lia).
    destruct (n_frames_step (zlen tls - pos) mf) as [Hn Hn0]; [lia|lia|]. rewrite <- Hch in Hn, Hn0.
    destruct (olen o + zlen l <=? ocap o) eqn:Efit.
    + rewrite Hone. osimpl. assert (ofits o l) as Hfit by (unfold ofits; lia).
      destruct (IH (pos + chunk) (obuf_app o l)) as (ok & p & -> & H1 & H2); try done; try (unfold VARINT_MAX; lia).
      { by apply obuf_app_ok. }
      do 2 eexists. split; [reflexivity|]. split.
      * intros Hok. destruct (H1 Hok) as (gs & ls & Hcs & Hgs & Hms & Hfs & Hop).
        exists ((base + pos, take (Z.to_nat chunk) (drop (Z.to_nat pos) tls)) :: gs), (l :: ls). cbn [consecutive mapM fst snd]. split_and!.
        -- done. -- exact Hne.
        -- exists (drop (Z.to_nat (pos + chunk)) tls). split.
           { rewrite <- (take_drop (Z.to_nat chunk) (drop (Z.to_nat pos) tls)) at 1. rewrite drop_drop. do 2 f_equal. lia. }
           rewrite zlen_take by (rewrite zlen_drop; lia). by rewrite <- Z.add_assoc.
        -- by constructor.
        -- rewrite Hl. osimpl. by rewrite Hms.
        -- rewrite concat_cons_eq. unfold ofits in *. rewrite obuf_app_cap in Hfs by done.
           cbn [obuf_app olen] in Hfs. rewrite zlen_app. lia.
        -- rewrite Hop, concat_cons_eq. apply obuf_app_app; try done.
      * intros Hroom. apply H2. rewrite obuf_app_cap by done. cbn [obuf_app olen].
        replace (zlen tls - (pos + chunk)) with (zlen tls - pos - chunk) by lia. lia.
    + destruct Hone as (o' & ->). osimpl. destruct fuel; cbn [emit_loop andb];
        (do 2 eexists; split; [reflexivity|]; split; [done|intros; exfalso; lia]).
  - do 2 eexists. split; [reflexivity|]. split; [|done]. intros _. exists [], []. cbn [consecutive mapM].
    rewrite drop_ge by (unfold zlen in *; lia). rewrite obuf_app_nil. split_and!; try done.
    unfold ofits. destruct Ho. change (zlen (concat [])) with 0. lia.
Qed.

(** ** CRYPTO frames in *)

(** A segment's wire form decodes to it, whatever follows, and the walker
    measures it. *)
Lemma seg_codec g l :
  seg_sendable g -> seg_wire g = Some l -> zlen l < span_max ->
  walkable 0x06 l /\
  forall post, zlen (l ++ post) < span_max ->
  exists f, frame_get_crypto (l ++ post) = Ok (f, zlen l) /\ crypto_same (mk_crypto g.1 (zlen g.2) g.2) f.
Proof.
  intros Hs Hl Hz. pose proof (seg_ok g Hs) as Hok.
  assert (zlen (replicate (length l) 0) = zlen l) as Hr by (unfold zlen; by rewrite length_replicate).
  destruct (crypto_contract _ (replicate (length l) 0) Hok) as [(l' & Hl' & Hb & E & Hd)|(Hno & _)].
  - by rewrite Hr.
  - unfold seg_wire in Hl. rewrite Hl in Hl'. apply (inj Some) in Hl'. subst l'. split; [|exact Hd].
    pose proof (walkable_of_contract _ _ _ _ _ _ 0x06 crypto_contract Hok ltac:(lia)) as Hw.
    destruct (Hw ltac:(intros ? ?; unfold crypto_wire in *; eapply ocat_first; [|eassumption]; lia) ltac:(done)
      _ _ _ ltac:(rewrite Hr; done) E ltac:(lia)) as [Hw' _].
    by rewrite splice_0_take in Hw' by lia.
  - exfalso. specialize (Hno l Hl). lia.
Qed.

Lemma crypto_len_safe :
  decoder_safe frame_get_crypto (fun f => 0 <= cf_offset f <= VARINT_MAX /\
    0 <= cf_length f <= zlen (cf_data f) /\ cf_length f <= VARINT_MAX).
Proof.
  apply decoder_safe_intro with (r := get_crypto); [done|]. unfold get_crypto, take_crypto_hdr.
  eapply rsafe_bind with (P := fun h => 0 <= h.1 <= VARINT_MAX /\ 0 <= h.2 <= VARINT_MAX).
  { eapply rsafe_bind; [apply rsafe_varint|intros o Ho; cbv beta in Ho].
    eapply rsafe_bind; [apply rsafe_varint|intros l Hl; cbv beta in Hl]. by apply rsafe_ret. }
  intros h [? ?]. eapply rsafe_bind; [apply (rsafe_view h.2); unfold VARINT_MAX, span_max in *; lia|intros d Hd].
  cbv beta in Hd. apply rsafe_ret. cbn. lia.
Qed.

(** The buffer is well-formed, whatever was received. *)
Definition crecv_wf (s : crecv) (mem : list Z) : Prop :=
  zlen mem = 2 * cr_cap s /\ 0 <= cr_cap s < span_max /\ 0 <= cr_received_to s <= cr_cap s.

(** ... and represents the segments [h] of [S]. *)
Definition crecv_inv (S : list Z) (h : list seg) (s : crecv) (mem : list Z) : Prop :=
  crecv_wf s mem /\ Forall (seg_of S) h /\
  filled S h (cr_cap s) (load mem) (fun i => load mem (cr_cap s + i)) /\
  (forall i, 0 <= i < cr_received_to s -> covered h i).

Lemma place_wf s mem f :
  crecv_wf s mem -> 0 <= cf_offset f <= VARINT_MAX -> 0 <= cf_length f <= zlen (cf_data f) -> cf_length f <= VARINT_MAX ->
  if cf_offset f + cf_length f <=? cr_cap s then
    exists mem', place s mem f = Some (true, s, mem') /\ zlen mem' = zlen mem /\
      (forall j, j < cr_cap s -> load mem' j =
         if (cf_offset f <=? j) && (j <? cf_offset f + cf_length f) then load (cf_data f) (j - cf_offset f) else load mem j) /\
      (forall j, 0 <= j -> load mem' (cr_cap s + j) =
         if (cf_offset f <=? j) && (j <? cf_offset f + cf_length f) then Some 1 else load mem (cr_cap s + j))
  else place s mem f = Some (false, mk_crecv (cr_cap s) (cr_received_to s) 1, mem).
Proof.
  intros (Hm & Hc & _) Ho Hl Hlv. unfold place. unfold VARINT_MAX, span_max in *. rewrite (u64_small (_ + _)) by lia.
  destruct (_ <=? _) eqn:E.
  - replace (cr_cap s <? _) with false by lia.
    destruct (place_loop_spec (cf_data f) (cr_cap s) (cf_offset f) (Z.to_nat (cf_length f)) mem 0)
      as (mem' & -> & Hz & H1 & H2); try lia.
    osimpl. exists mem'. rewrite Z2Nat.id, Z.add_0_r in H1, H2 by lia. done.
  - replace (cr_cap s <? _) with true by lia. done.
Qed.

Lemma place_seg S h s mem g f :
  crecv_inv S h s mem -> seg_sendable g -> seg_of S g -> g.1 + zlen g.2 <= cr_cap s ->
  crypto_same (mk_crypto g.1 (zlen g.2) g.2) f -> zlen g.2 <= zlen (cf_data f) ->
  exists mem', place s mem f = Some (true, s, mem') /\ crecv_inv S (g :: h) s mem'.
Proof.
  intros (Hwf & HS & Hf & Hp) [Hg0 Hgv] Hg Hcap (E1 & E2 & E3) Hd. cbn [cf_offset cf_length cf_data] in *.
  pose proof (zlen_nonneg g.2). pose proof (place_wf s mem f Hwf ltac:(lia) ltac:(lia) ltac:(lia)) as H'.
  rewrite E1, E2 in H'. replace (g.1 + zlen g.2 <=? cr_cap s) with true in H' by lia.
  destruct H' as (mem' & -> & Hz & H1 & H2). exists mem'. split; [done|].
  assert (crecv_wf s mem') as Hwf' by (destruct Hwf as (? & ? & ?); split_and!; try done; lia).
  split_and!; [done|by constructor| |intros i Hi; apply covered_cons; right; by apply Hp].
  eapply filled_add; [done|done| |]; cbn beta; intros j Hj; [rewrite H1 by lia|rewrite H2 by lia; done].
  destruct (_ && _) eqn:E; [|done]. rewrite (take_ge g.2) in E3 by (unfold zlen; lia). rewrite <- E3.
  rewrite load_take by lia. done.
Qed.

(** A frame of a handshake payload with the segment it carries. *)
Definition hs_frame (x : Z * list Z * list seg) : Prop :=
  walkable x.1.1 x.1.2 /\
  (x.1.1 = 6 /\ (exists g, x.2 = [g] /\ g.2 <> [] /\ seg_sendable g /\ seg_wire g = Some x.1.2) \/ x.1.1 <> 6 /\ x.2 = []).

Definition payload (xs : list (Z * list Z * list seg)) : list Z := concat (map (fun x => x.1.2) xs).
Definition add_segs (h : list seg) (xs : list (Z * list Z * list seg)) : list seg :=
  foldl (fun h x => x.2 ++ h) h xs.

Lemma payload_cons x xs : payload (x :: xs) = x.1.2 ++ payload xs.
Proof. done. Qed.

Lemma collect_frames S xs : forall fuel h s mem,
  Forall hs_frame xs -> Forall (fun x => Forall (seg_of S) x.2) xs -> zlen (payload xs) < span_max ->
  (length xs <= fuel)%nat -> crecv_inv S h s mem -> zlen S <= cr_cap s ->
  exists mem', collect_loop fuel s mem (mk_fw (payload xs) (zlen (payload xs))) = Some (true, s, mem') /\
    crecv_inv S (add_segs h xs) s mem'.
Proof.
  induction xs as [|[[t l] gs] xs IH]; intros fuel h s mem Hx HS Hz Hf Hinv Hcap.
  { exists mem. by destruct fuel. }
  apply Forall_cons_1 in Hx as [[Hw Hx] Hxs]. apply Forall_cons_1 in HS as [Hgs HS]. cbn [fst snd] in *.
  rewrite payload_cons in *. cbn [fst snd] in *. destruct fuel as [|fuel]; [simpl in Hf; lia|]. cbn [collect_loop].
  rewrite (framewalk_next_walkable t) by done. cbn [it_type it_remaining it_start].
  rewrite (take_ge (l ++ payload xs)) by (unfold zlen; lia).
  assert (zlen (payload xs) < span_max) by (rewrite zlen_app in Hz; pose proof (zlen_nonneg l); lia).
  assert (exists mem1, on_frame s mem t (l ++ payload xs) = Some (true, s, mem1) /\ crecv_inv S (gs ++ h) s mem1) as (mem1 & -> & H1).
  { destruct Hx as [(-> & g & -> & Hne & Hsend & Hwire)|(Ht & ->)].
    - unfold on_frame. cbn [Z.eqb Pos.eqb negb]. change (6 =? FRAME_CRYPTO) with true. cbn [negb].
      assert (zlen l < span_max) by (rewrite zlen_app in Hz; pose proof (zlen_nonneg (payload xs)); lia).
      destruct (seg_codec g l Hsend Hwire ltac:(done)) as [_ Hdec].
      destruct (Hdec (payload xs) Hz) as (f & E & Hsame). unfold take_crypto. rewrite E.
      apply Forall_cons_1 in Hgs as [Hg _]. assert (zlen g.2 <= zlen (cf_data f)).
      { destruct Hsame as (_ & _ & E3). cbn [cf_length cf_data] in E3. rewrite (take_ge g.2) in E3 by (unfold zlen; lia).
        rewrite <- E3 at 1. unfold zlen. rewrite length_take. lia. }
      assert (g.1 + zlen g.2 <= cr_cap s).
      { assert (0 < zlen g.2) by (destruct g.2; [done|]; rewrite zlen_cons; pose proof (zlen_nonneg l0); lia).
        assert (covered [g] (g.1 + zlen g.2 - 1)) as Hc by (apply covered_cons; left; lia).
        pose proof (covered_in S [g] _ ltac:(by apply Forall_singleton) Hc). lia. }
      by apply (place_seg S h s mem g f).
    - unfold on_frame. replace (t =? FRAME_CRYPTO) with false by (unfold FRAME_CRYPTO; lia). by exists mem. }
  osimpl. cbn [negb]. apply (IH fuel (gs ++ h)); try done. simpl in Hf. lia.
Qed.

Lemma first_gap_ext h h' cap d : (forall i, covered h i <-> covered h' i) -> first_gap h cap d -> first_gap h' cap d.
Proof.
  intros He (H1 & H2 & H3). split_and!; [lia..| |].
  - intros i Hi. by apply He, H2.
  - intros Hd Hc. by apply H3, He.
Qed.

Lemma advance_spec S h s mem :
  crecv_inv S h s mem ->
  exists d, advance_prefix s mem = Some (mk_crecv (cr_cap s) d (cr_overflow s)) /\ first_gap h (cr_cap s) d /\
    crecv_inv S h (mk_crecv (cr_cap s) d (cr_overflow s)) mem.
Proof.
  intros ((Hm & Hc & Hr) & HS & Hf & Hp). unfold advance_prefix. unfold span_max in Hc.
  destruct (skip_to_gap S h (cr_cap s) (load mem) mem (cr_cap s) (cr_received_to s)
              (Z.to_nat (cr_cap s - cr_received_to s))) as (d & -> & Hg); try done; try lia.
  osimpl. exists d. split; [done|]. split; [done|]. pose proof Hg as (? & Hcv & _).
  split_and!; try done; unfold crecv_wf; cbn; unfold span_max; lia.
Qed.

Lemma length_payload xs : Forall hs_frame xs -> (length xs <= length (payload xs))%nat.
Proof.
  induction 1 as [|[[t l] gs] xs [Hw _] _ IH]; [done|]. rewrite payload_cons, length_app. cbn [fst snd length] in *.
  apply walkable_pos in Hw. unfold zlen in Hw. lia.
Qed.

Lemma crecv_collect_frames S h s mem xs :
  Forall hs_frame xs -> Forall (fun x => Forall (seg_of S) x.2) xs -> zlen (payload xs) < span_max ->
  crecv_inv S h s mem -> zlen S <= cr_cap s ->
  exists d mem', crecv_collect s mem (payload xs) = Some (1, mk_crecv (cr_cap s) d (cr_overflow s), mem') /\
    first_gap (add_segs h xs) (cr_cap s) d /\
    crecv_inv S (add_segs h xs) (mk_crecv (cr_cap s) d (cr_overflow s)) mem'.
Proof.
  intros Hx HS Hz Hinv Hcap. unfold crecv_collect, framewalk_init.
  destruct (collect_frames S xs (length (payload xs)) h s mem) as (mem' & -> & Hinv'); try done.
  { by apply length_payload. }
  osimpl. cbn [negb]. destruct (advance_spec _ _ _ _ Hinv') as (d & -> & Hg & Hi). osimpl. eauto.
Qed.

(** Whatever bytes arrive, collecting them ends inside the buffer. *)
Lemma collect_loop_safe fuel : forall s mem it,
  crecv_wf s mem -> fw_ok it -> fw_remaining it <= Z.of_nat fuel ->
  exists ok s' mem', collect_loop fuel s mem it = Some (ok, s', mem') /\ crecv_wf s' mem' /\
    cr_cap s' = cr_cap s /\ cr_received_to s' = cr_received_to s.
Proof.
  induction fuel as [|fuel IH]; intros s mem it Hwf Hit Hf; cbn [collect_loop];
    pose proof (framewalk_next_safe it Hit) as Hn; destruct (framewalk_next it) as [[fr it']| |]; try done;
    try (by do 3 eexists; split_and!); destruct Hn as (Hst & Hrem & Hit' & len & Hlen & _ & Hr).
  - lia.
  - assert (exists ok s' mem', on_frame s mem (it_type fr) (take (Z.to_nat (it_remaining fr)) (it_start fr)) = Some (ok, s', mem') /\
      crecv_wf s' mem' /\ cr_cap s' = cr_cap s /\ cr_received_to s' = cr_received_to s) as (ok & s1 & mem1 & -> & Hwf1 & Hc1 & Hr1).
    { unfold on_frame. destruct (it_type fr =? FRAME_CRYPTO); cbn [negb]; [|by do 3 eexists; split_and!].
      unfold take_crypto. rewrite Hst, Hrem. fold (fw_view it). destruct (fw_view_ok it Hit) as [Hvs Hvz].
      pose proof (crypto_len_safe (fw_view it) Hvs ltac:(lia)) as Hg.
      destruct (frame_get_crypto (fw_view it)) as [[f n]| |]; [|by do 3 eexists; split_and!|done].
      destruct Hg as (_ & Ho & Hl & Hlv). pose proof (place_wf s mem f Hwf Ho Hl Hlv) as Hp. bcase in Hp.
      - destruct Hp as (mem' & -> & Hz & _). do 3 eexists. split_and!; try done.
        destruct Hwf as (? & ? & ?). split_and!; try done; lia.
      - rewrite Hp. do 3 eexists. split_and!; try done. }
    osimpl. destruct ok; cbn [negb]; [|by do 3 eexists; split_and!].
    destruct (IH s1 mem1 it' Hwf1 Hit' ltac:(lia)) as (ok & s2 & mem2 & -> & H1 & H2 & H3).
    do 3 eexists. split_and!; try done; congruence.
Qed.

Lemma crecv_collect_safe s mem pl :
  crecv_wf s mem -> span_ok pl ->
  exists ok s' mem', crecv_collect s mem pl = Some (ok, s', mem') /\ zlen mem' = zlen mem /\
    cr_cap s' = cr_cap s /\ cr_received_to s <= cr_received_to s' <= cr_cap s.
Proof.
  intros Hwf Hpl. unfold crecv_collect, framewalk_init.
  destruct (collect_loop_safe (length pl) s mem (mk_fw pl (zlen pl))) as (ok & s1 & mem1 & -> & Hwf1 & Hc & Hr); try done.
  { split; [done|]. cbn. pose proof (zlen_nonneg pl). lia. }
  destruct Hwf as (Hm & Hcap & Hrt). destruct Hwf1 as (Hm1 & Hcap1 & Hrt1). unfold span_max in *. osimpl.
  destruct ok; cbn [negb].
  - unfold advance_prefix.
    destruct (skip_filled_spec mem1 (cr_cap s1) (cr_cap s1) (Z.to_nat (cr_cap s1 - cr_received_to s1)) (cr_received_to s1))
      as (d & -> & Hd & _); try lia.
    { intros i Hi. apply load_is_Some. lia. }
    osimpl. do 3 eexists. split; [reflexivity|]. cbn. lia.
  - do 3 eexists. split; [reflexivity|]. lia.
Qed.

(** ** A handshake flight from the sender to the receiver *)

(** One packet's worth of a flight: the CRYPTO bytes [hp_bytes] of the stream
    from [hp_base], emitted in frames of at most [hp_max] bytes into the
    buffer [hp_room], between other frames of the packet. *)
Record hs_part := mk_part {
  hp_base : Z; hp_bytes : list Z; hp_max : Z; hp_room : list Z;
  hp_before : list (tx_frame * list Z); hp_after : list (tx_frame * list Z) }.

Definition plain_frames (xs : list (tx_frame * list Z)) : Prop :=
  Forall (fun x => encoded x.1 x.2 /\ tx_kind x.1 <> FK_CRYPTO) xs.

Definition part_ok (S : list Z) (p : hs_part) (pl : list Z) : Prop :=
  seg_of S (hp_base p, hp_bytes p) /\ hp_base p + zlen (hp_bytes p) <= VARINT_MAX /\
  0 < hp_max p < 18446744073709551616 /\ zlen (hp_room p) < span_max /\
  plain_frames (hp_before p) /\ plain_frames (hp_after p) /\ zlen pl < span_max /\
  exists o, crypto_stream_emit (hp_bytes p) (mk_emit_in (hp_base p) (hp_max p)) (obuf_of (hp_room p)) = Some (true, o) /\
    pl = concat (map snd (hp_before p)) ++ owritten o ++ concat (map snd (hp_after p)).

(** Collect the payloads in order; [None] when one is not accepted. *)
Fixpoint collect_all (s : crecv) (mem : list Z) (pls : list (list Z)) : option (crecv * list Z) :=
  match pls with
  | [] => Some (s, mem)
  | pl :: pls' =>
      '(ok, s', mem') ← crecv_collect s mem pl;
      if ok =? 1 then collect_all s' mem' pls' else None
  end.

Lemma plain_hs xs :
  plain_frames xs -> exists ys, Forall hs_frame ys /\ payload ys = concat (map snd xs) /\ Forall (fun y => y.2 = []) ys.
Proof.
  induction 1 as [|[x l] xs [(Hok & buf & n & buf' & Hb & He & Hn & El) Hk] _ (ys & H1 & H2 & H3)].
  { exists []. done. }
  cbn [fst snd] in *. subst l. destruct (tx_walkable x buf n buf' Hok Hb He Hn) as (t & Ht & Hw & _).
  exists ((t, take (Z.to_nat n) buf', []) :: ys). rewrite payload_cons. cbn [map concat fst snd]. rewrite H2.
  split; [|split; [done|by constructor]]. constructor; [|done]. split; [done|]. right. cbn. split; [|done].
  intros ->. by rewrite <- Ht in Hk.
Qed.

Lemma segs_hs gs ls :
  Forall seg_sendable gs -> Forall (fun g => g.2 <> []) gs -> mapM seg_wire gs = Some ls -> zlen (concat ls) < span_max ->
  exists ys, Forall hs_frame ys /\ payload ys = concat ls /\ concat (map snd ys) = gs.
Proof.
  revert ls. induction gs as [|g gs IH]; intros ls Hs Hne Hm Hz.
  { injection Hm as <-. by exists []. }
  apply Forall_cons_1 in Hs as [Hs Hss]. apply Forall_cons_1 in Hne as [Hn Hne]. cbn [mapM] in Hm.
  destruct (seg_wire g) as [l|] eqn:El; [|done]. cbn [mbind option_bind] in Hm.
  destruct (mapM seg_wire gs) as [ls'|] eqn:Els; [|done]. injection Hm as <-.
  rewrite concat_cons_eq, zlen_app in Hz. pose proof (zlen_nonneg l). pose proof (zlen_nonneg (concat ls')).
  destruct (IH ls' Hss Hne eq_refl ltac:(lia)) as (ys & H1 & H2 & H3).
  exists ((6, l, [g]) :: ys). rewrite payload_cons, concat_cons_eq. cbn [map concat fst snd app]. rewrite H2, H3.
  split; [|done]. constructor; [|done]. split; [apply (seg_codec g l Hs El); lia|]. left. split; [done|]. by exists g.
Qed.

Lemma consecutive_nonempty off gs bytes : consecutive off gs bytes -> Forall (fun g => g.2 <> []) gs.
Proof.
  revert off bytes. induction gs as [|g gs IH]; intros off bytes Hc; [constructor|].
  destruct Hc as (_ & Hn & rest & _ & Hc). constructor; [done|by eapply IH].
Qed.

Lemma emitted_frames_spec base bytes mf room :
  0 <= base -> base + zlen bytes <= VARINT_MAX -> 0 < mf < 18446744073709551616 -> zlen room < span_max ->
  exists ok o, crypto_stream_emit bytes (mk_emit_in base mf) (obuf_of room) = Some (ok, o) /\
    (zlen bytes + 17 * n_frames (zlen bytes) mf <= zlen room -> ok = true) /\
    (ok = true -> exists gs ys, consecutive base gs bytes /\ Forall hs_frame ys /\ payload ys = owritten o /\
       concat (map snd ys) = gs).
Proof.
  intros Hb Hv Hm Hr. unfold crypto_stream_emit. cbn [ei_max_frame]. replace (mf =? 0) with false by lia. cbn [negb].
  assert (obuf_ok (mk_obuf (op (obuf_of room)) 0)) as Ho.
  { split; [|done]. unfold ocap. cbn. pose proof (zlen_nonneg room). lia. }
  destruct (emit_loop_spec bytes base mf (length bytes) 0 _ Hb Hv Hm ltac:(pose proof (zlen_nonneg bytes); lia)
    ltac:(unfold zlen; lia) Ho) as (ok & p & -> & H1 & H2). osimpl.
  do 2 eexists. split; [reflexivity|]. split.
  { intros Hroom. apply H2. unfold ocap. cbn [op obuf_of olen]. rewrite Z.sub_0_r. lia. }
  intros Hok. destruct (H1 Hok) as (gs & ls & Hc & Hs & Hmm & Hfit & ->). rewrite Z.add_0_r in Hc.
  change (drop (Z.to_nat 0) bytes) with bytes in Hc. unfold ofits, ocap in Hfit. cbn [op obuf_of olen] in Hfit.
  destruct (segs_hs gs ls Hs (consecutive_nonempty _ _ _ Hc) Hmm ltac:(lia)) as (ys & Hy1 & Hy2 & Hy3).
  exists gs, ys. split_and!; try done. rewrite Hy2. unfold owritten, obuf_app. cbn [op obuf_of olen].
  rewrite Z.add_0_l. rewrite splice_0_take by lia. done.
Qed.

Lemma covered_app h h' i : covered (h ++ h') i <-> covered h i \/ covered h' i.
Proof. unfold covered. rewrite List.Exists_app. done. Qed.

Lemma covered_add_segs xs i : forall h, covered (add_segs h xs) i <-> covered h i \/ covered (concat (map snd xs)) i.
Proof.
  induction xs as [|x xs IH]; intros h; cbn [add_segs foldl map concat].
  - split; [by left|intros [?|?%covered_nil]; done].
  - fold (add_segs (x.2 ++ h) xs). rewrite IH, !covered_app. tauto.
Qed.

Lemma concat_nil_segs (ys : list (Z * list Z * list seg)) : Forall (fun y => y.2 = []) ys -> concat (map snd ys) = [].
Proof. induction 1 as [|y ys Hy _ IH]; [done|]. cbn [map concat]. by rewrite Hy, IH. Qed.

(** One packet of the flight is collected and adds exactly its bytes. *)
Lemma part_collected S h s mem p pl :
  part_ok S p pl -> crecv_inv S h s mem -> zlen S <= cr_cap s ->
  exists d mem' h', crecv_collect s mem pl = Some (1, mk_crecv (cr_cap s) d (cr_overflow s), mem') /\
    crecv_inv S h' (mk_crecv (cr_cap s) d (cr_overflow s)) mem' /\ first_gap h' (cr_cap s) d /\
    forall i, covered h' i <-> covered ((hp_base p, hp_bytes p) :: h) i.
Proof.
  intros (Hseg & Hv & Hm & Hr & Hb & Ha & Hz & o & Ee & ->) Hinv Hcap.
  destruct (plain_hs _ Hb) as (yb & Hb1 & Hb2 & Hb3). destruct (plain_hs _ Ha) as (ya & Ha1 & Ha2 & Ha3).
  destruct (emitted_frames_spec (hp_base p) (hp_bytes p) (hp_max p) (hp_room p) (proj1 Hseg) Hv Hm Hr) as (ok & o' & Ee' & _ & Hok).
  rewrite Ee in Ee'. simplify_eq. destruct (Hok eq_refl) as (gs & ys & Hc & Hy1 & Hy2 & Hy3).
  set (xs := yb ++ ys ++ ya). assert (payload xs = concat (map snd (hp_before p)) ++ owritten o' ++ concat (map snd (hp_after p))) as Hpl.
  { unfold xs, payload. rewrite !map_app, !concat_app. fold (payload yb) (payload ys) (payload ya). by rewrite Hb2, Hy2, Ha2. }
  assert (concat (map snd xs) = gs) as Hsegs.
  { unfold xs. rewrite !map_app, !concat_app, (concat_nil_segs yb), (concat_nil_segs ya), app_nil_r by done. done. }
  rewrite <- Hpl in *. destruct (crecv_collect_frames S h s mem xs) as (d & mem' & E & Hg & Hi); try done.
  { unfold xs. by rewrite !List.Forall_app. }
  { apply (consecutive_of S _ _ _ Hc) in Hseg as HS. rewrite <- Hsegs in HS. clear -HS.
    induction xs as [|x xs IH]; [constructor|]. cbn [map concat] in HS. apply List.Forall_app in HS as [? ?]. constructor; auto. }
  exists d, mem', (add_segs h xs). split_and!; try done. intros i.
  rewrite covered_add_segs, Hsegs, (consecutive_covers _ _ _ i Hc), covered_cons. cbn [fst snd]. tauto.
Qed.

Lemma crecv_init_inv S mem cap :
  0 <= cap < span_max -> zlen mem = 2 * cap ->
  exists m0, crecv_init mem cap = Some (mk_crecv cap 0 0, m0) /\ crecv_inv S [] (mk_crecv cap 0 0) m0.
Proof.
  intros Hc Hm. unfold crecv_init, bytes_memset. rewrite fill_spec by lia. osimpl.
  assert (zlen (replicate (Z.to_nat cap) (u8 0)) = cap) as Hr by (unfold zlen; rewrite length_replicate; lia).
  eexists. split; [reflexivity|]. split_and!; [|constructor| |intros; cbn in *; lia].
  - unfold crecv_wf. cbn. rewrite zlen_splice by lia. lia.
  - cbn [cr_cap]. intros i Hi. split; [|by intros ?%covered_nil]. exists 0. split; [|by split; [|intros ?%covered_nil]].
    unfold splice. rewrite load_app_r by (rewrite zlen_take; lia). rewrite zlen_take by lia.
    replace (cap + i - cap) with i by lia. rewrite load_app_l by lia.
    unfold load. replace (0 <=? i) with true by lia. apply lookup_replicate_2. lia.
Qed.

Lemma collect_parts S parts pls : Forall2 (part_ok S) parts pls -> forall h s mem,
  crecv_inv S h s mem -> first_gap h (cr_cap s) (cr_received_to s) -> zlen S <= cr_cap s ->
  exists s' mem' h', collect_all s mem pls = Some (s', mem') /\ crecv_inv S h' s' mem' /\ cr_cap s' = cr_cap s /\
    cr_overflow s' = cr_overflow s /\ first_gap h' (cr_cap s') (cr_received_to s') /\
    forall i, covered h' i <-> covered (map (fun p => (hp_base p, hp_bytes p)) parts) i \/ covered h i.
Proof.
  induction 1 as [|p pl parts pls Hp _ IH]; intros h s mem Hinv Hg Hcap; cbn [collect_all map].
  { exists s, mem, h. split_and!; try done. intros i. split; [by right|intros [?%covered_nil|?]; done]. }
  destruct (part_collected S h s mem p pl Hp Hinv Hcap) as (d & m1 & h1 & -> & Hi1 & Hg1 & Hc1). osimpl. cbn [Z.eqb Pos.eqb].
  destruct (IH h1 (mk_crecv (cr_cap s) d (cr_overflow s)) m1 Hi1 Hg1 Hcap) as (s' & mem' & h' & E & Hi' & H1 & H2 & H3 & H4).
  exists s', mem', h'. split_and!; try done. intros i. rewrite H4, Hc1, !covered_cons. tauto.
Qed.

Lemma message_prefix S h s mem :
  crecv_inv S h s mem -> crecv_message s mem = take (Z.to_nat (cr_received_to s)) S /\ cr_received_to s <= zlen S.
Proof.
  intros ((Hm & Hc & Hr) & HS & Hf & Hp). unfold span_max in Hc. unfold crecv_message, crecv_message_at.
  assert (cr_received_to s <= zlen S) as HrS.
  { destruct (decide (cr_received_to s = 0)) as [->|]; [apply zlen_nonneg|].
    pose proof (covered_in S h (cr_received_to s - 1) HS (Hp (cr_received_to s - 1) ltac:(lia))). lia. }
  split; [|done]. change (drop (Z.to_nat 0) mem) with mem.
  assert ((if 0 <? cr_received_to s then u64 (cr_received_to s - 0) else 0) = cr_received_to s) as ->
    by (bcase; [rewrite u64_small|]; lia).
  apply load_ext; [rewrite !zlen_take by lia; done|]. rewrite zlen_take by lia. intros j Hj. rewrite !load_take by lia.
  apply (Hf j); [lia|]. apply Hp. lia.
Qed.

(** C12: a TLS flight crosses the wire (RFC 9000 7.5, 19.6).  Let a CRYPTO
    stream [S] be sent as any number of packets, each carrying some bytes of
    the stream cut by [crypto_stream_emit] into frames of any maximal size,
    among other frames the encoders built; cutting never leaves the buffer and
    succeeds whenever the buffer has 17 spare bytes per frame.  If the packets
    are collected in any order, with duplicates and overlaps, into a buffer
    large enough for [S], then each is accepted and TLS is shown exactly the
    prefix of [S] up to the first byte no packet carried: the whole of [S]
    when the packets cover it.  On any other bytes [crecv_collect] ends, stays
    in its buffer and never retracts bytes it has shown. *)
Theorem crypto_flight_reassembled (S : list Z) (cap : Z) (mem : list Z) (parts : list hs_part) (pls : list (list Z)) :
  0 <= cap < span_max -> zlen mem = 2 * cap -> zlen S <= cap -> Forall2 (part_ok S) parts pls ->
  let sent := map (fun p => (hp_base p, hp_bytes p)) parts in
  (exists s0 m0 s m, crecv_init mem cap = Some (s0, m0) /\ collect_all s0 m0 pls = Some (s, m) /\
    cr_overflow s = 0 /\ first_gap sent cap (cr_received_to s) /\
    crecv_message s m = take (Z.to_nat (cr_received_to s)) S /\
    ((forall i, 0 <= i < zlen S -> covered sent i) -> crecv_message s m = S) /\
    (forall pl, span_ok pl -> exists ok s' m', crecv_collect s m pl = Some (ok, s', m') /\ zlen m' = zlen m /\
       cr_received_to s <= cr_received_to s' <= cap)) /\
  (forall base bytes mf room, 0 <= base -> base + zlen bytes <= VARINT_MAX -> 0 < mf < 18446744073709551616 ->
     zlen room < span_max -> exists ok o, crypto_stream_emit bytes (mk_emit_in base mf) (obuf_of room) = Some (ok, o) /\
       (zlen bytes + 17 * n_frames (zlen bytes) mf <= zlen room -> ok = true)).
Proof.
  intros Hc Hm HS Hparts sent. split.
  2: { intros base bytes mf room H1 H2 H3 H4. destruct (emitted_frames_spec base bytes mf room H1 H2 H3 H4) as (ok & o & E & Hok & _). eauto. }
  destruct (crecv_init_inv S mem cap Hc Hm) as (m0 & E0 & Hi0).
  assert (first_gap [] cap 0) as Hg0 by (split_and!; [lia..|intros; lia|by intros _ ?%covered_nil]).
  destruct (collect_parts S parts pls Hparts [] _ m0 Hi0 Hg0 HS) as (s & m & h & E & Hi & Hcap & Hov & Hg & Hcv).
  cbn [cr_cap cr_overflow] in *. rewrite Hcap in Hg. fold sent in Hcv.
  destruct (message_prefix _ _ _ _ Hi) as [Hmsg HrS].
  assert (first_gap sent cap (cr_received_to s)) as Hgs.
  { apply (first_gap_ext h); [|done]. intros i. rewrite Hcv. split; [intros [?|?%covered_nil]; done|by left]. }
  exists (mk_crecv cap 0 0), m0, s, m. split_and!; try done.
  - intros Hall. rewrite Hmsg. apply take_ge. destruct Hgs as (H1 & _ & H3). unfold zlen in *.
    destruct (decide (cr_received_to s < Z.of_nat (length S))); [exfalso; apply H3; [lia|]; apply Hall; lia|lia].
  - intros pl Hpl. destruct (crecv_collect_safe s m pl (proj1 Hi) Hpl) as (ok & s' & m' & -> & H1 & H2 & H3).
    rewrite Hcap in H3. eauto 10.
Qed.

(** Two packets of a ten-byte flight, overlapping and out of order, the second
    one after a PING and before PADDING. *)
Definition flight_demo : list Z := [1; 0; 0; 6; 21; 22; 23; 24; 25; 26].
Definition parts_demo : list hs_part :=
  [mk_part 4 [21; 22; 23; 24; 25; 26] 4 (replicate 40 0) [(TxPing, [1])] [(TxPadding, [0]); (TxPadding, [0])];
   mk_part 0 [1; 0; 0; 6; 21] 1200 (replicate 40 0) [] []].
Definition pls_demo : list (list Z) :=
  [[1; 6; 4; 4; 21; 22; 23; 24; 6; 8; 2; 25; 26; 0; 0]; [6; 0; 5; 1; 0; 0; 6; 21]].

Lemma parts_demo_ok : Forall2 (part_ok flight_demo) parts_demo pls_demo.
Proof.
  assert (forall x, x = TxPing \/ x = TxPadding -> forall b, tx_encode [9] x = Some (1, [b]) -> encoded x [b]) as He.
  { intros x Hx b E. split; [by destruct Hx; subst|]. exists [9], 1, [b]. split_and!; try done. }
  assert (forall (d : list Z) b, (forall k, 0 <= k < zlen d -> load d k = load flight_demo (b + k)) -> 0 <= b -> seg_of flight_demo (b, d)) as Hs
    by (intros; by split).
  unfold parts_demo, pls_demo. constructor; [|constructor; [|constructor]]; unfold part_ok;
    cbn [hp_base hp_bytes hp_max hp_room hp_before hp_after]; split_and!; try done;
    try (unfold zlen, VARINT_MAX, span_max; cbn; lia).
  - apply Hs; [|lia]. intros k Hk. assert (k = 0 \/ k = 1 \/ k = 2 \/ k = 3 \/ k = 4 \/ k = 5) as Hk' by (unfold zlen in Hk; cbn in Hk; lia).
    by destruct Hk' as [->|[->|[->|[->|[->| ->]]]]].
  - repeat constructor; [apply He; auto; reflexivity|done].
  - repeat constructor; try done; apply He; auto.
  - eexists. split; [vm_compute; reflexivity|reflexivity].
  - apply Hs; [|lia]. intros k Hk. assert (k = 0 \/ k = 1 \/ k = 2 \/ k = 3 \/ k = 4) as Hk' by (unfold zlen in Hk; cbn in Hk; lia).
    by destruct Hk' as [->|[->|[->|[->| ->]]]].
  - constructor.
  - constructor.
  - eexists. split; [vm_compute; reflexivity|reflexivity].
Qed.

Lemma crypto_flight_reassembled_witness :
  exists s0 m0 s m, crecv_init (replicate 32 0) 16 = Some (s0, m0) /\ collect_all s0 m0 pls_demo = Some (s, m) /\
    crecv_message s m = flight_demo.
Proof.
  destruct (crypto_flight_reassembled flight_demo 16 (replicate 32 0) parts_demo pls_demo)
    as [(s0 & m0 & s & m & E0 & E & _ & _ & _ & Hall & _) _].
  - unfold span_max; lia.
  - reflexivity.
  - unfold zlen; cbn; lia.
  - exact parts_demo_ok.
  - exists s0, m0, s, m. split; [exact E0|]. split; [exact E|]. apply Hall. intros i Hi. unfold zlen in Hi. cbn in Hi.
    unfold parts_demo. cbn [map hp_base hp_bytes]. rewrite !covered_cons. cbn [fst snd]. unfold zlen. cbn.
    destruct (decide (i < 4)); [right; left; lia|left; lia].
Defined.
