(* ===== verification/ConnTable.v ===== *)
(** * The connection table: routing datagrams by connection id

    src/src/transport/conn/lifecycle/conntable/conntable.c and
    conntable_hash.c, with demux.c.  The table keeps up to three connection
    ids per slot and an open-addressing hash index spread over the slots
    themselves, rebuilt on every change except removal.  The index is proved
    transparent: under any sequence of operations a lookup finds a live slot
    owning the id whenever there is one. *)

From stdpp Require Import base numbers list option.
From Stdlib Require Import ZArith Lia.
From S2P Require Import Prelude Bytes Header.

(** ** demux.c *)

(* src/src/transport/conn/lifecycle/conn/demux.c : demux_match *)
Definition demux_match (dcid conn_cid : list Z) : option bool :=
  if negb (zlen dcid =? zlen conn_cid) then Some false
  else diff ← ct_loop 0 dcid conn_cid 0 (length dcid); Some (diff =? 0).

(** ** conntable.h *)

(* src/src/transport/conn/lifecycle/conntable/conntable.h : CONNTABLE_HB *)
Definition CONNTABLE_HB : Z := 4.

(* src/src/transport/conn/lifecycle/conntable/conntable.h : conntable *)
Record ct_slot := mk_slot {
  ct_cid : list Z; ct_cid_len : Z;
  ct_alt_cid : list Z; ct_alt_cid_len : Z;
  ct_alt2_cid : list Z; ct_alt2_cid_len : Z;
  ct_live : Z; ct_hix : list Z; ct_hseed : Z }.

Abbreviation conntable := (list ct_slot).

Definition set_hix (s : ct_slot) (h : list Z) : ct_slot :=
  mk_slot (ct_cid s) (ct_cid_len s) (ct_alt_cid s) (ct_alt_cid_len s) (ct_alt2_cid s) (ct_alt2_cid_len s)
    (ct_live s) h (ct_hseed s).
Definition set_primary (s : ct_slot) (c : list Z) (n : Z) : ct_slot :=
  mk_slot c n (ct_alt_cid s) (ct_alt_cid_len s) (ct_alt2_cid s) (ct_alt2_cid_len s) (ct_live s) (ct_hix s) (ct_hseed s).
Definition set_alt (s : ct_slot) (c : list Z) (n : Z) : ct_slot :=
  mk_slot (ct_cid s) (ct_cid_len s) c n (ct_alt2_cid s) (ct_alt2_cid_len s) (ct_live s) (ct_hix s) (ct_hseed s).
Definition set_alt2 (s : ct_slot) (c : list Z) (n : Z) : ct_slot :=
  mk_slot (ct_cid s) (ct_cid_len s) (ct_alt_cid s) (ct_alt_cid_len s) c n (ct_live s) (ct_hix s) (ct_hseed s).
Definition set_live (s : ct_slot) (v : Z) : ct_slot :=
  mk_slot (ct_cid s) (ct_cid_len s) (ct_alt_cid s) (ct_alt_cid_len s) (ct_alt2_cid s) (ct_alt2_cid_len s) v
    (ct_hix s) (ct_hseed s).
Definition set_hseed (s : ct_slot) (v : Z) : ct_slot :=
  mk_slot (ct_cid s) (ct_cid_len s) (ct_alt_cid s) (ct_alt_cid_len s) (ct_alt2_cid s) (ct_alt2_cid_len s) (ct_live s)
    (ct_hix s) v.

(** The bytes of an id field: a view of its first [len] cells. *)
Definition span_of (p : list Z) (n : Z) : list Z := take (Z.to_nat n) p.

(** ** conntable_hash.c *)

(* src/src/transport/conn/lifecycle/conntable/conntable_hash.c : conntable_cid_matches *)
Definition conntable_cid_matches (want cid : list Z) (cid_len : Z) : option bool :=
  demux_match want (span_of cid cid_len).

(* src/src/transport/conn/lifecycle/conntable/conntable_hash.c : conntable_alt_matches *)
Definition conntable_alt_matches (slot : ct_slot) (want : list Z) : option bool :=
  if ct_alt_cid_len slot =? 0 then Some false
  else conntable_cid_matches want (ct_alt_cid slot) (ct_alt_cid_len slot).

(* src/src/transport/conn/lifecycle/conntable/conntable_hash.c : conntable_alt2_matches *)
Definition conntable_alt2_matches (slot : ct_slot) (want : list Z) : option bool :=
  if ct_alt2_cid_len slot =? 0 then Some false
  else conntable_cid_matches want (ct_alt2_cid slot) (ct_alt2_cid_len slot).

(* src/src/transport/conn/lifecycle/conntable/conntable_hash.c : conntable_any_alt_matches *)
Definition conntable_any_alt_matches (slot : ct_slot) (want : list Z) : option bool :=
  m ← conntable_alt_matches slot want;
  if (m : bool) then Some true else conntable_alt2_matches slot want.

(* src/src/transport/conn/lifecycle/conntable/conntable_hash.c : conntable_slot_matches *)
Definition conntable_slot_matches (slot : ct_slot) (want : list Z) : option bool :=
  if ct_live slot =? 0 then Some false
  else
    m ← conntable_cid_matches want (ct_cid slot) (ct_cid_len slot);
    if (m : bool) then Some true else conntable_any_alt_matches slot want.

(** [for (i = 0; i < c.n; i++) h = (h ^ c.p[i]) * 16777619u;] *)
Definition fnv_loop (h : Z) (c : list Z) : Z := fold_left (fun h b => u32 (Z.lxor h b * 16777619)) c h.

(* src/src/transport/conn/lifecycle/conntable/conntable_hash.c : conntable_hash *)
Definition conntable_hash (c : list Z) (seed : Z) : Z :=
  let h := Z.lxor (Z.lxor 2166136261 seed) (u32 (zlen c)) in
  let h := fnv_loop h c in
  let h := Z.lxor h (Z.shiftr h 16) in
  let h := u32 (h * 0x85EBCA6B) in
  let h := Z.lxor h (Z.shiftr h 13) in
  let h := u32 (h * 0xC2B2AE35) in
  Z.lxor h (Z.shiftr h 16).

(* src/src/transport/conn/lifecycle/conntable/conntable_hash.c : conntable_home *)
Definition conntable_home (t : conntable) (c : list Z) (nb : Z) : option Z :=
  if nb =? 0 then Some 0
  else s0 ← load t 0; Some (conntable_hash c (ct_hseed s0) mod nb).

(* src/src/transport/conn/lifecycle/conntable/conntable_hash.c : conntable_bucket_at *)
Definition conntable_bucket_at (t : conntable) (b : Z) : option Z :=
  s ← load t (b / CONNTABLE_HB); load (ct_hix s) (b mod CONNTABLE_HB).

(** [*conntable_bucket(t, b) = v] *)
(* src/src/transport/conn/lifecycle/conntable/conntable_hash.c : conntable_bucket *)
Definition conntable_bucket (t : conntable) (b v : Z) : option conntable :=
  s ← load t (b / CONNTABLE_HB);
  h ← store (ct_hix s) (b mod CONNTABLE_HB) v;
  store t (b / CONNTABLE_HB) (set_hix s h).

(** [while (bucket b is not 0) b = b + 1 < nb ? b + 1 : 0;] *)
Fixpoint probe_empty (t : conntable) (nb b : Z) (fuel : nat) : option Z :=
  e ← conntable_bucket_at t b;
  if e =? 0 then Some b
  else match fuel with O => None | S fuel' => probe_empty t nb (if b + 1 <? nb then b + 1 else 0) fuel' end.

(* src/src/transport/conn/lifecycle/conntable/conntable_hash.c : conntable_index_put *)
Definition conntable_index_put (t : conntable) (cap : Z) (c : list Z) (i : Z) : option conntable :=
  let nb := u64 (cap * CONNTABLE_HB) in
  b0 ← conntable_home t c nb;
  b ← probe_empty t nb b0 (Z.to_nat nb);
  conntable_bucket t b (u16 (i + 1)).

(* src/src/transport/conn/lifecycle/conntable/conntable_hash.c : conntable_index_alt *)
Definition conntable_index_alt (t : conntable) (cap : Z) (cid : list Z) (cid_len i : Z) : option conntable :=
  if negb (cid_len =? 0) then conntable_index_put t cap (span_of cid cid_len) i else Some t.

(* src/src/transport/conn/lifecycle/conntable/conntable_hash.c : conntable_index_slot *)
Definition conntable_index_slot (t : conntable) (cap i : Z) : option conntable :=
  s ← load t i;
  if ct_live s =? 0 then Some t
  else
    t ← conntable_index_put t cap (span_of (ct_cid s) (ct_cid_len s)) i;
    s ← load t i;
    t ← conntable_index_alt t cap (ct_alt_cid s) (ct_alt_cid_len s) i;
    s ← load t i;
    conntable_index_alt t cap (ct_alt2_cid s) (ct_alt2_cid_len s) i.

Fixpoint clear_buckets (t : conntable) (b : Z) (n : nat) : option conntable :=
  match n with O => Some t | S n' => t' ← conntable_bucket t b 0; clear_buckets t' (b + 1) n' end.

Fixpoint index_slots (t : conntable) (cap i : Z) (n : nat) : option conntable :=
  match n with O => Some t | S n' => t' ← conntable_index_slot t cap i; index_slots t' cap (i + 1) n' end.

(* src/src/transport/conn/lifecycle/conntable/conntable_hash.c : conntable_reindex *)
Definition conntable_reindex (t : conntable) (cap : Z) : option conntable :=
  t ← clear_buckets t 0 (Z.to_nat (u64 (cap * CONNTABLE_HB)));
  index_slots t cap 0 (Z.to_nat cap).

(* src/src/transport/conn/lifecycle/conntable/conntable_hash.c : conntable_seed *)
Definition conntable_seed (t : conntable) (cap seed : Z) : option conntable :=
  t ← (if negb (cap =? 0) then s0 ← load t 0; store t 0 (set_hseed s0 seed) else Some t);
  conntable_reindex t cap.

(* src/src/transport/conn/lifecycle/conntable/conntable_hash.c : conntable_probe *)
Definition conntable_probe (t : conntable) (b : Z) (want : list Z) : option Z :=
  e ← conntable_bucket_at t b;
  if e =? 0 then Some (-1)
  else
    s ← load t (e - 1);
    m ← conntable_slot_matches s want;
    Some (if (m : bool) then e - 1 else -2).

Fixpoint find_loop (t : conntable) (nb home : Z) (want : list Z) (k : Z) (n : nat) : option Z :=
  match n with
  | O => Some (-1)
  | S n' =>
      r ← conntable_probe t (u64 (home + k) mod nb) want;
      if negb (r =? -2) then Some r else find_loop t nb home want (k + 1) n'
  end.

(* src/src/transport/conn/lifecycle/conntable/conntable_hash.c : conntable_find *)
Definition conntable_find (t : conntable) (cap : Z) (dcid : list Z) (dcid_len : Z) : option Z :=
  let want := span_of dcid dcid_len in
  let nb := u64 (cap * CONNTABLE_HB) in
  home ← conntable_home t want nb;
  find_loop t nb home want 0 (Z.to_nat nb).

(** ** conntable.c *)

Fixpoint init_slots (t : conntable) (i : Z) (n : nat) : option conntable :=
  match n with
  | O => Some t
  | S n' =>
      s ← load t i;
      let s := set_live s 0 in
      let s := set_alt s (ct_alt_cid s) 0 in
      let s := set_alt2 s (ct_alt2_cid s) 0 in
      t' ← store t i (set_hseed s 0);
      init_slots t' (i + 1) n'
  end.

(* src/src/transport/conn/lifecycle/conntable/conntable.c : conntable_init *)
Definition conntable_init (t : conntable) (cap : Z) : option conntable :=
  t ← init_slots t 0 (Z.to_nat cap); conntable_reindex t cap.

Fixpoint free_slot_loop (t : conntable) (i : Z) (n : nat) : option Z :=
  match n with
  | O => Some (-1)
  | S n' => s ← load t i; if ct_live s =? 0 then Some i else free_slot_loop t (i + 1) n'
  end.

(* src/src/transport/conn/lifecycle/conntable/conntable.c : conntable_free_slot *)
Definition conntable_free_slot (t : conntable) (cap : Z) : option Z := free_slot_loop t 0 (Z.to_nat cap).

(* src/src/transport/conn/lifecycle/conntable/conntable.c : conntable_fill_slot *)
Definition conntable_fill_slot (slot : ct_slot) (cid : list Z) (cid_len : Z) : option ct_slot :=
  c ← copy (ct_cid slot) 0 cid 0 (Z.to_nat cid_len);
  let s := set_primary slot c cid_len in
  let s := set_alt s (ct_alt_cid s) 0 in
  let s := set_alt2 s (ct_alt2_cid s) 0 in
  Some (set_live s 1).

(* src/src/transport/conn/lifecycle/conntable/conntable.c : conntable_insert *)
Definition conntable_insert (t : conntable) (cap : Z) (cid : list Z) (cid_len : Z) : option (Z * conntable) :=
  if WIRED_MAX_CID_LEN <? cid_len then Some (-1, t)
  else
    slot ← conntable_free_slot t cap;
    if slot <? 0 then Some (-1, t)
    else
      s ← load t slot;
      s' ← conntable_fill_slot s cid cid_len;
      t ← store t slot s';
      t ← conntable_reindex t cap;
      Some (slot, t).

(* src/src/transport/conn/lifecycle/conntable/conntable.c : conntable_remove *)
Definition conntable_remove (t : conntable) (cap i : Z) : option conntable :=
  if (i <? 0) || (cap <=? i) then Some t
  else s ← load t i; store t i (set_live s 0).

(* src/src/transport/conn/lifecycle/conntable/conntable.c : conntable_slot_ok *)
Definition conntable_slot_ok (cap i : Z) : bool := (0 <=? i) && (i <? cap).

(* src/src/transport/conn/lifecycle/conntable/conntable.c : conntable_stash_alt *)
Definition conntable_stash_alt (slot : ct_slot) : option ct_slot :=
  c ← copy (ct_alt_cid slot) 0 (ct_cid slot) 0 (Z.to_nat (ct_cid_len slot));
  Some (set_alt slot c (ct_cid_len slot)).

(* src/src/transport/conn/lifecycle/conntable/conntable.c : conntable_set_primary *)
Definition conntable_set_primary (slot : ct_slot) (cid : list Z) (cid_len : Z) : option ct_slot :=
  c ← copy (ct_cid slot) 0 cid 0 (Z.to_nat cid_len);
  Some (set_primary slot c cid_len).

(* src/src/transport/conn/lifecycle/conntable/conntable.c : conntable_rekey_ok *)
Definition conntable_rekey_ok (cap i cid_len : Z) : bool :=
  if negb (conntable_slot_ok cap i) then false else cid_len <=? WIRED_MAX_CID_LEN.

(* src/src/transport/conn/lifecycle/conntable/conntable.c : conntable_rekey *)
Definition conntable_rekey (t : conntable) (cap i : Z) (cid : list Z) (cid_len : Z) : option (Z * conntable) :=
  if negb (conntable_rekey_ok cap i cid_len) then Some (0, t)
  else
    s ← load t i;
    s ← conntable_stash_alt s;
    s ← conntable_set_primary s cid cid_len;
    t ← store t i s;
    t ← conntable_reindex t cap;
    Some (1, t).

(* src/src/transport/conn/lifecycle/conntable/conntable.c : conntable_set_alt2 *)
Definition conntable_set_alt2 (t : conntable) (cap i : Z) (cid : list Z) (cid_len : Z) : option (Z * conntable) :=
  if negb (conntable_rekey_ok cap i cid_len) then Some (0, t)
  else
    s ← load t i;
    c ← copy (ct_alt2_cid s) 0 cid 0 (Z.to_nat cid_len);
    t ← store t i (set_alt2 s c cid_len);
    t ← conntable_reindex t cap;
    Some (1, t).

(* src/src/transport/conn/lifecycle/conntable/conntable.c : conntable_set_cid *)
Definition conntable_set_cid (t : conntable) (cap i : Z) (cid : list Z) (cid_len : Z) : option (Z * conntable) :=
  if negb (conntable_rekey_ok cap i cid_len) then Some (0, t)
  else
    s ← load t i;
    s ← conntable_set_primary s cid cid_len;
    t ← store t i s;
    t ← conntable_reindex t cap;
    Some (1, t).

(** ** Comparing ids *)

Lemma demux_match_spec a b : bytes_ok a -> bytes_ok b -> demux_match a b = Some (bool_decide (a = b)).
Proof.
  intros Ha Hb. unfold demux_match. destruct (zlen a =? zlen b) eqn:E; cbn [negb].
  - destruct (ct_loop_spec a b (length a) 0 0) as (r & -> & Hr); try done; unfold zlen in *; try lia.
    osimpl. f_equal. apply eq_bool_prop_intro. rewrite bool_decide_spec, Is_true_true, Z.eqb_eq, Hr. split.
    + intros [_ H]. apply load_ext; [unfold zlen; lia|]. intros j Hj. apply H. unfold zlen in Hj. lia.
    + intros ->. done.
  - rewrite bool_decide_eq_false_2; [done|]. intros ->. lia.
Qed.

(** ** The flat bucket array *)

Lemma load_concat4 {A} (L : list (list A)) : Forall (fun x => zlen x = 4) L -> forall b,
  0 <= b -> load (concat L) b = x ← load L (b / 4); load x (b mod 4).
Proof.
  induction 1 as [|x L Hx _ IH]; intros b Hb; cbn [concat].
  { by rewrite !load_nil. }
  destruct (decide (b < 4)).
  - rewrite load_app_l, Z.div_small, Z.mod_small by lia. done.
  - rewrite load_app_r by lia. rewrite Hx, IH by lia.
    assert (b / 4 = (b - 4) / 4 + 1 /\ b mod 4 = (b - 4) mod 4) as [-> ->].
    { replace b with (b - 4 + 1 * 4) at 1 3 by lia. by rewrite Z.div_add, Z.mod_add by lia. }
    rewrite load_cons_pos by (pose proof (Z.div_pos (b - 4) 4); lia). by rewrite Z.add_simpl_r.
Qed.

Lemma load_fmap {A B} (f : A -> B) (l : list A) i : load (f <$> l) i = f <$> load l i.
Proof. unfold load. bcase; [apply list_lookup_fmap|done]. Qed.

Definition hixs (t : conntable) : list Z := concat (ct_hix <$> t).

Definition slot_wf (s : ct_slot) : Prop :=
  zlen (ct_cid s) = WIRED_MAX_CID_LEN /\ zlen (ct_alt_cid s) = WIRED_MAX_CID_LEN /\
  zlen (ct_alt2_cid s) = WIRED_MAX_CID_LEN /\
  bytes_ok (ct_cid s) /\ bytes_ok (ct_alt_cid s) /\ bytes_ok (ct_alt2_cid s) /\
  0 <= ct_cid_len s <= WIRED_MAX_CID_LEN /\ 0 <= ct_alt_cid_len s <= WIRED_MAX_CID_LEN /\
  0 <= ct_alt2_cid_len s <= WIRED_MAX_CID_LEN /\ zlen (ct_hix s) = CONNTABLE_HB.

(** The table without its index. *)
Definition strip (s : ct_slot) : ct_slot := set_hix s [].

Lemma zlen_concat4 {A} (L : list (list A)) : Forall (fun x => zlen x = 4) L -> zlen (concat L) = 4 * zlen L.
Proof. induction 1 as [|x L Hx _ IH]; [done|]. cbn [concat]. rewrite zlen_app, zlen_cons. lia. Qed.

Lemma hix4 t : Forall slot_wf t -> Forall (fun x => zlen x = 4) (ct_hix <$> t).
Proof. intros H. apply Forall_fmap. eapply Forall_impl; [|exact H]. intros s Hs. apply Hs. Qed.

Lemma zlen_fmap {A B} (f : A -> B) (l : list A) : zlen (f <$> l) = zlen l.
Proof. unfold zlen. by rewrite length_fmap. Qed.

Lemma zlen_hixs t : Forall slot_wf t -> zlen (hixs t) = 4 * zlen t.
Proof. intros H. unfold hixs. rewrite zlen_concat4 by (by apply hix4). by rewrite zlen_fmap. Qed.

Lemma bucket_at_flat t b : Forall slot_wf t -> 0 <= b -> conntable_bucket_at t b = load (hixs t) b.
Proof.
  intros Ht Hb. unfold conntable_bucket_at, hixs, CONNTABLE_HB. rewrite load_concat4 by (try done; by apply hix4).
  rewrite load_fmap. by destruct (load t (b / 4)).
Qed.

Lemma Forall_load {A} (P : A -> Prop) l i x : Forall P l -> load l i = Some x -> P x.
Proof. unfold load. intros Hl Hx. bcase in Hx; [|done]. by eapply Forall_lookup_1. Qed.

Lemma Forall_store {A} (P : A -> Prop) l i x : Forall P l -> P x -> Forall P (<[Z.to_nat i := x]> l).
Proof. intros. by apply Forall_insert. Qed.

Lemma fmap_store_same {A B} (f : A -> B) (l : list A) i x y :
  load l i = Some x -> f y = f x -> f <$> <[Z.to_nat i := y]> l = f <$> l.
Proof.
  intros Hx Hf. unfold load in Hx. bcase in Hx; [|done]. rewrite list_fmap_insert, Hf.
  apply list_insert_id. by rewrite list_lookup_fmap, Hx.
Qed.

(** Writing a bucket changes one cell of the index and nothing else. *)
Lemma bucket_set_flat t b v :
  Forall slot_wf t -> 0 <= b < 4 * zlen t ->
  exists t', conntable_bucket t b v = Some t' /\ hixs t' = <[Z.to_nat b := v]> (hixs t) /\
    strip <$> t' = strip <$> t /\ Forall slot_wf t'.
Proof.
  intros Ht Hb. unfold conntable_bucket, CONNTABLE_HB.
  pose proof (Z.mod_pos_bound b 4 ltac:(lia)) as Hm. pose proof (Z.div_mod b 4 ltac:(lia)) as Hdm.
  destruct (load_is_Some t (b / 4)) as [s Hs]; [lia|]. rewrite Hs. osimpl.
  pose proof (Forall_load _ _ _ _ Ht Hs) as Hwf. pose proof Hwf as (_ & _ & _ & _ & _ & _ & _ & _ & _ & H4). unfold CONNTABLE_HB in H4.
  rewrite !store_in by lia. osimpl. rewrite store_in by lia. eexists. split; [reflexivity|].
  set (t' := <[Z.to_nat (b / 4) := _]> t).
  assert (Forall slot_wf t') as Ht'.
  { apply Forall_store; [done|]. destruct Hwf as (? & ? & ? & ? & ? & ? & ? & ? & ? & ?).
    unfold slot_wf, set_hix. cbn. split_and!; try done; try lia. by rewrite zlen_insert. }
  split_and!; [| |done].
  - apply load_ext; [rewrite zlen_insert, !zlen_hixs by done; subst t'; by rewrite zlen_insert|].
    intros j Hj. rewrite zlen_hixs in Hj by done. assert (zlen t' = zlen t) as Hzt by (subst t'; by rewrite zlen_insert).
    rewrite load_insert by (rewrite zlen_hixs by done; lia). rewrite <- !bucket_at_flat by (try done; lia).
    unfold conntable_bucket_at, CONNTABLE_HB. subst t'. rewrite load_insert by lia.
    pose proof (Z.mod_pos_bound j 4 ltac:(lia)). pose proof (Z.div_mod j 4 ltac:(lia)).
    destruct (j / 4 =? b / 4) eqn:E.
    + replace (j / 4) with (b / 4) by lia. rewrite Hs. osimpl. cbn [set_hix ct_hix]. rewrite load_insert by lia.
      destruct (j mod 4 =? b mod 4) eqn:E2.
      * by replace (j =? b) with true by lia.
      * by replace (j =? b) with false by lia.
    + replace (j =? b) with false; [done|]. symmetry. apply Z.eqb_neq. intros ->. lia.
  - by apply (fmap_store_same _ _ _ s).
Qed.

(** ** Probing *)

(** Position [k] of the probe sequence from [home]. *)
Definition seqpos (nb home k : Z) : Z := (home + k) mod nb.

(** [e] is reachable from [home]: its bucket comes before any empty one. *)
Definition chain (B : list Z) (nb home e : Z) : Prop :=
  exists k, 0 <= k < nb /\ load B (seqpos nb home k) = Some e /\
    forall j, 0 <= j < k -> exists e', load B (seqpos nb home j) = Some e' /\ e' <> 0.

Fixpoint used (B : list Z) : Z := match B with [] => 0 | e :: B' => (if e =? 0 then 0 else 1) + used B' end.

Lemma used_bounds B : 0 <= used B <= zlen B.
Proof. induction B as [|e B IH]; cbn [used]; [done|]. rewrite zlen_cons. bcase; lia. Qed.

Lemma used_empty B : used B < zlen B -> exists p, 0 <= p < zlen B /\ load B p = Some 0.
Proof.
  induction B as [|e B IH]; cbn [used]; [change (zlen []) with 0; lia|]. rewrite zlen_cons. intros H.
  destruct (e =? 0) eqn:E.
  - exists 0. split; [pose proof (zlen_nonneg B); lia|]. rewrite load_cons_0. f_equal. lia.
  - destruct IH as (p & Hp & Hl); [lia|]. exists (p + 1). split; [lia|].
    rewrite load_cons_pos by lia. by replace (p + 1 - 1) with p by lia.
Qed.

Lemma used_insert B : forall p v, load B p = Some 0 -> v <> 0 -> used (<[Z.to_nat p := v]> B) = used B + 1.
Proof.
  induction B as [|e B IH]; intros p v Hp Hv; [by rewrite load_nil in Hp|].
  pose proof (load_Some _ _ _ Hp) as Hr. destruct (decide (p = 0)) as [->|].
  - rewrite load_cons_0 in Hp. simplify_eq. change (Z.to_nat 0) with 0%nat. cbn [insert list_insert used].
    replace (v =? 0) with false by lia. cbn [Z.eqb]. lia.
  - rewrite load_cons_pos in Hp by lia. replace (Z.to_nat p) with (S (Z.to_nat (p - 1))) by lia.
    cbn [insert list_insert used]. rewrite IH by done. lia.
Qed.

Lemma seqpos_range nb home k : 0 < nb -> 0 <= seqpos nb home k < nb.
Proof. intros. apply Z.mod_pos_bound. lia. Qed.

Lemma seqpos_next nb home k :
  0 < nb -> (if seqpos nb home k + 1 <? nb then seqpos nb home k + 1 else 0) = seqpos nb home (k + 1).
Proof.
  intros Hn. unfold seqpos. replace (home + (k + 1)) with (home + k + 1) by lia.
  rewrite (Z.add_mod (home + k) 1) by lia. rewrite Z.add_mod_idemp_r by lia.
  pose proof (Z.mod_pos_bound (home + k) nb Hn). generalize dependent ((home + k) mod nb). intros x Hx.
  bcase.
  - rewrite Z.mod_small by lia. done.
  - replace (x + 1) with nb by lia. by rewrite Z.mod_same by lia.
Qed.

Lemma probe_empty_spec t nb home fuel : forall k,
  Forall slot_wf t -> 0 < nb -> (forall j, exists e, load (hixs t) (seqpos nb home j) = Some e) ->
  0 <= k -> (exists j, k <= j <= k + Z.of_nat fuel /\ load (hixs t) (seqpos nb home j) = Some 0) ->
  exists m, probe_empty t nb (seqpos nb home k) fuel = Some (seqpos nb home m) /\ k <= m <= k + Z.of_nat fuel /\
    load (hixs t) (seqpos nb home m) = Some 0 /\
    forall j, k <= j < m -> exists e, load (hixs t) (seqpos nb home j) = Some e /\ e <> 0.
Proof.
  induction fuel as [|fuel IH]; intros k Ht Hn Hall Hk (j & Hj & Hz); cbn [probe_empty];
    rewrite bucket_at_flat by (try done; apply seqpos_range; lia); destruct (Hall k) as [e He]; rewrite He; osimpl.
  - replace j with k in Hz by lia. rewrite He in Hz. simplify_eq. cbn [Z.eqb]. exists k. split_and!; try done; [lia..|]. intros; lia.
  - destruct (e =? 0) eqn:E.
    + exists k. split_and!; try done; [lia..|rewrite He; f_equal; lia|]. intros; lia.
    + rewrite seqpos_next by done. assert (j <> k) by (intros ->; rewrite He in Hz; simplify_eq; lia).
      destruct (IH (k + 1)) as (m & -> & Hm & H0 & Hf); try done; try lia.
      { exists j. split; [lia|done]. }
      exists m. split_and!; try done; [lia..|]. intros i Hi.
      destruct (decide (i = k)) as [->|]; [exists e; split; [done|lia]|apply Hf; lia].
Qed.

(** Filling an empty bucket breaks no chain. *)
Lemma chain_insert B nb home e p v :
  0 <= p < zlen B -> load B p = Some 0 -> v <> 0 -> e <> 0 -> chain B nb home e -> chain (<[Z.to_nat p := v]> B) nb home e.
Proof.
  intros Hp H0 Hv He (k & Hk & Hl & Hf). exists k. split; [done|]. split.
  - rewrite load_insert by done. bcase; [|done]. replace (seqpos nb home k) with p in Hl by lia. congruence.
  - intros j Hj. destruct (Hf j Hj) as (e' & Hl' & Hn). rewrite load_insert by done. bcase; [by exists v|eauto].
Qed.

(** ** The index and the table *)

Definition nb_of (t : conntable) : Z := 4 * zlen t.
Definition home_of (t : conntable) (c : list Z) : Z :=
  match t with [] => 0 | s0 :: _ => conntable_hash c (ct_hseed s0) mod nb_of t end.

Definition idx_ok (t : conntable) : Prop :=
  Forall slot_wf t /\ Forall (fun e => 0 <= e <= zlen t) (hixs t).

Lemma strip_home t t' c : strip <$> t' = strip <$> t -> home_of t' c = home_of t c /\ zlen t' = zlen t.
Proof.
  intros H. assert (zlen t' = zlen t) as Hz by (rewrite <- (zlen_fmap strip t'), H; apply zlen_fmap).
  split; [|done]. unfold home_of, nb_of. rewrite Hz. destruct t as [|s t], t' as [|s' t']; try done.
  apply (f_equal (fun l => match l with [] => 0 | x :: _ => ct_hseed x end)) in H. cbn in H. by rewrite H.
Qed.

Lemma home_code t c : zlen t < 65535 -> conntable_home t c (u64 (zlen t * CONNTABLE_HB)) = Some (home_of t c).
Proof.
  intros Hz. unfold conntable_home, CONNTABLE_HB. pose proof (zlen_nonneg t). rewrite u64_small by lia.
  destruct t as [|s0 t]; [done|]. rewrite zlen_cons in *. pose proof (zlen_nonneg t).
  replace ((1 + zlen t) * 4 =? 0) with false by lia. rewrite load_cons_0. osimpl. unfold home_of, nb_of.
  rewrite zlen_cons. do 2 f_equal. lia.
Qed.

(** The ids that route to a slot. *)
Definition ids_of (s : ct_slot) : list (list Z) :=
  if ct_live s =? 0 then []
  else span_of (ct_cid s) (ct_cid_len s)
    :: (if ct_alt_cid_len s =? 0 then [] else [span_of (ct_alt_cid s) (ct_alt_cid_len s)])
    ++ (if ct_alt2_cid_len s =? 0 then [] else [span_of (ct_alt2_cid s) (ct_alt2_cid_len s)]).

Lemma index_put_spec t c i :
  idx_ok t -> zlen t < 65535 -> 0 <= i < zlen t -> used (hixs t) < 4 * zlen t ->
  exists t', conntable_index_put t (zlen t) c i = Some t' /\ strip <$> t' = strip <$> t /\ idx_ok t' /\
    used (hixs t') = used (hixs t) + 1 /\ chain (hixs t') (nb_of t) (home_of t c) (i + 1) /\
    (forall home e, e <> 0 -> chain (hixs t) (nb_of t) home e -> chain (hixs t') (nb_of t) home e).
Proof.
  intros [Ht He] Hz Hi Hu. unfold conntable_index_put. rewrite home_code by done. osimpl.
  unfold CONNTABLE_HB. rewrite (u64_small (zlen t * 4)) by lia. replace (zlen t * 4) with (nb_of t) by (unfold nb_of; lia).
  assert (0 < nb_of t) as Hn by (unfold nb_of; lia). pose proof (zlen_hixs t Ht) as Hzh. fold (nb_of t) in Hzh.
  assert (0 <= home_of t c < nb_of t) as Hh.
  { unfold home_of. destruct t; [by apply Z.lt_irrefl in Hn|]. apply Z.mod_pos_bound. lia. }
  assert (home_of t c = seqpos (nb_of t) (home_of t c) 0) as Eh by (unfold seqpos; rewrite Z.add_0_r, Z.mod_small; lia).
  destruct (used_empty (hixs t)) as (p & Hp & Hp0); [rewrite Hzh; unfold nb_of; lia|].
  destruct (probe_empty_spec t (nb_of t) (home_of t c) (Z.to_nat (nb_of t)) 0) as (m & Ep & Hm & Hm0 & Hf); try done; try lia.
  { intros j. apply load_is_Some. rewrite Hzh. by apply seqpos_range. }
  { exists ((p - home_of t c) mod nb_of t). pose proof (Z.mod_pos_bound (p - home_of t c) (nb_of t) Hn). split; [lia|].
    unfold seqpos. rewrite Z.add_mod_idemp_r by lia. rewrite Zplus_minus. rewrite Z.mod_small by lia. done. }
  rewrite <- Eh in Ep. rewrite Ep. osimpl. set (b := seqpos (nb_of t) (home_of t c) m). assert (0 <= b < nb_of t) as Hb by (by apply seqpos_range).
  unfold u16. rewrite (Z.mod_small (i + 1)) by lia.
  destruct (bucket_set_flat t b (i + 1)) as (t' & -> & HB & Hs & Ht'); [done|unfold nb_of in Hb; lia|].
  destruct (strip_home t t' c Hs) as [_ Hzt]. exists t'. split_and!; try done.
  - split; [done|]. rewrite HB, Hzt. apply Forall_insert; [done|lia].
  - rewrite HB. apply used_insert; [done|lia].
  - destruct (decide (m < nb_of t)).
    + exists m. split; [lia|]. fold b. rewrite HB, load_insert by lia. rewrite Z.eqb_refl. split; [done|].
      intros j Hj. rewrite load_insert by lia. destruct (Hf j) as (e & ? & ?); [lia|]. bcase; [|eauto]. exists (i + 1). split; [done|lia].
    + assert (seqpos (nb_of t) (home_of t c) 0 = b) as E0.
      { unfold b. replace m with (nb_of t) by lia. unfold seqpos.
        rewrite Z.add_0_r, <- Z.add_mod_idemp_r, Z.mod_same, Z.add_0_r by lia. done. }
      exists 0. split; [lia|]. rewrite E0, HB, load_insert, Z.eqb_refl by lia. split; [done|]. intros; lia.
  - intros home e Hne Hc. rewrite HB. apply chain_insert; try done; lia.
Qed.

(** [t'] is [t] with the ids [cs] of slot [i] entered into the index. *)
Definition puts (t t' : conntable) (n : Z) (cs : list (list Z)) (i : Z) : Prop :=
  strip <$> t' = strip <$> t /\ idx_ok t' /\ used (hixs t') <= used (hixs t) + n /\
  (forall c, c ∈ cs -> chain (hixs t') (nb_of t) (home_of t c) (i + 1)) /\
  (forall home e, e <> 0 -> chain (hixs t) (nb_of t) home e -> chain (hixs t') (nb_of t) home e).

Lemma puts_refl t i : idx_ok t -> puts t t 0 [] i.
Proof. intros. split_and!; try done; [lia|]. intros c Hc. by apply elem_of_nil in Hc. Qed.

Lemma puts_trans t t1 t2 a b cs1 cs2 i :
  0 <= i -> puts t t1 a cs1 i -> puts t1 t2 b cs2 i -> puts t t2 (a + b) (cs1 ++ cs2) i.
Proof.
  intros Hi (S1 & I1 & U1 & C1 & P1) (S2 & I2 & U2 & C2 & P2).
  assert (forall c, home_of t1 c = home_of t c) as Hh by (intros c; apply (strip_home t t1 c S1)).
  assert (nb_of t1 = nb_of t) as Hn by (unfold nb_of; by rewrite (proj2 (strip_home t t1 [] S1))).
  rewrite Hn in *. split_and!; [congruence|done|lia| |auto].
  intros c [Hc|Hc]%elem_of_app; [apply P2; [lia|auto]|]. rewrite <- Hh. by apply C2.
Qed.

Lemma strip_load t t' i s : strip <$> t' = strip <$> t -> load t i = Some s -> exists s', load t' i = Some s' /\ strip s' = strip s.
Proof.
  intros H Hs. pose proof (load_fmap strip t' i) as E. rewrite H, load_fmap, Hs in E. cbn in E.
  destruct (load t' i) as [s'|]; [|done]. cbn in E. apply (inj Some) in E. by exists s'.
Qed.

Lemma strip_fields s s' : strip s' = strip s ->
  ct_cid s' = ct_cid s /\ ct_cid_len s' = ct_cid_len s /\ ct_alt_cid s' = ct_alt_cid s /\ ct_alt_cid_len s' = ct_alt_cid_len s /\
  ct_alt2_cid s' = ct_alt2_cid s /\ ct_alt2_cid_len s' = ct_alt2_cid_len s /\ ct_live s' = ct_live s /\ ct_hseed s' = ct_hseed s.
Proof.
  intros H. split_and!; [apply (f_equal ct_cid) in H|apply (f_equal ct_cid_len) in H|apply (f_equal ct_alt_cid) in H
    |apply (f_equal ct_alt_cid_len) in H|apply (f_equal ct_alt2_cid) in H|apply (f_equal ct_alt2_cid_len) in H
    |apply (f_equal ct_live) in H|apply (f_equal ct_hseed) in H]; exact H.
Qed.

Lemma put_puts t c i :
  idx_ok t -> zlen t < 65535 -> 0 <= i < zlen t -> used (hixs t) < 4 * zlen t ->
  exists t', conntable_index_put t (zlen t) c i = Some t' /\ puts t t' 1 [c] i.
Proof.
  intros H1 H2 H3 H4. destruct (index_put_spec t c i H1 H2 H3 H4) as (t' & E & S & I & U & C & P).
  exists t'. split; [done|]. split_and!; try done; [lia|]. by intros c' ->%list_elem_of_singleton.
Qed.

Lemma alt_puts t cid n i :
  idx_ok t -> zlen t < 65535 -> 0 <= i < zlen t -> used (hixs t) < 4 * zlen t ->
  exists t', conntable_index_alt t (zlen t) cid n i = Some t' /\
    puts t t' 1 (if n =? 0 then [] else [span_of cid n]) i.
Proof.
  intros H1 H2 H3 H4. unfold conntable_index_alt. destruct (n =? 0); cbn [negb]; [|by apply put_puts].
  exists t. split; [done|]. destruct (puts_refl t i H1) as (? & ? & ? & ? & ?). split_and!; try done. lia.
Qed.

Lemma index_slot_puts t i s :
  idx_ok t -> zlen t < 65535 -> load t i = Some s -> used (hixs t) + 3 <= 4 * zlen t ->
  exists t', conntable_index_slot t (zlen t) i = Some t' /\ puts t t' 3 (ids_of s) i.
Proof.
  intros Ht Hz Hs Hu. pose proof (load_Some _ _ _ Hs) as Hi. unfold conntable_index_slot, ids_of. rewrite Hs. osimpl.
  destruct (ct_live s =? 0).
  { exists t. split; [done|]. destruct (puts_refl t i Ht) as (? & ? & ? & ? & ?). split_and!; try done. lia. }
  destruct (put_puts t (span_of (ct_cid s) (ct_cid_len s)) i) as (t1 & -> & P1); try done; [lia|]. osimpl.
  pose proof P1 as (S1 & I1 & U1 & _). destruct (strip_home t t1 [] S1) as [_ Hz1].
  destruct (strip_load t t1 i s S1 Hs) as (s1 & -> & Es1). osimpl.
  destruct (strip_fields _ _ Es1) as (_ & _ & F1 & F2 & _). rewrite F1, F2.
  destruct (alt_puts t1 (ct_alt_cid s) (ct_alt_cid_len s) i) as (t2 & E2 & P2); try done; try lia.
  rewrite Hz1 in E2. rewrite E2. osimpl. pose proof P2 as (S2 & I2 & U2 & _). destruct (strip_home t1 t2 [] S2) as [_ Hz2].
  destruct (strip_load t t2 i s ltac:(congruence) Hs) as (s2 & -> & Es2). osimpl.
  destruct (strip_fields _ _ Es2) as (_ & _ & _ & _ & G1 & G2 & _). rewrite G1, G2.
  destruct (alt_puts t2 (ct_alt2_cid s) (ct_alt2_cid_len s) i) as (t3 & E3 & P3); try done; try lia.
  rewrite Hz2, Hz1 in E3. exists t3. split; [done|].
  pose proof (puts_trans _ _ _ _ _ _ _ i ltac:(lia) (puts_trans _ _ _ _ _ _ _ i ltac:(lia) P1 P2) P3) as P.
  exact P.
Qed.

Lemma clear_buckets_spec n : forall t b,
  Forall slot_wf t -> 0 <= b -> b + Z.of_nat n <= 4 * zlen t ->
  exists t', clear_buckets t b n = Some t' /\ strip <$> t' = strip <$> t /\ Forall slot_wf t' /\
    forall j, load (hixs t') j = if (b <=? j) && (j <? b + Z.of_nat n) then Some 0 else load (hixs t) j.
Proof.
  induction n as [|n IH]; intros t b Ht Hb Hn; cbn [clear_buckets].
  { exists t. split_and!; try done. intros j. bx. }
  destruct (bucket_set_flat t b 0) as (t1 & -> & HB & S1 & Ht1); [done|lia|]. osimpl.
  destruct (strip_home t t1 [] S1) as [_ Hz1].
  destruct (IH t1 (b + 1)) as (t' & -> & S2 & Ht2 & HB2); try done; try lia.
  exists t'. split_and!; try done; [congruence|]. intros j. rewrite HB2, HB, load_insert by (rewrite zlen_hixs by done; lia).
  bx.
Qed.

Lemma used_zero B : (forall j, 0 <= j < zlen B -> load B j = Some 0) -> used B = 0 /\ Forall (fun e => e = 0) B.
Proof.
  induction B as [|e B IH]; intros H; [done|]. pose proof (zlen_nonneg B).
  pose proof (H 0 ltac:(rewrite zlen_cons; lia)) as He. rewrite load_cons_0 in He. simplify_eq.
  assert (used B = 0 /\ Forall (fun e => e = 0) B) as [E HB].
  { apply IH. intros j Hj. rewrite <- (H (j + 1)) by (rewrite zlen_cons; lia). rewrite load_cons_pos by lia. f_equal. lia. }
  cbn [used]. rewrite E. split; [done|by constructor].
Qed.

(** The whole index: every id of a live slot is found by probing. *)
Definition index_full (t : conntable) : Prop :=
  idx_ok t /\ forall i s c, load t i = Some s -> c ∈ ids_of s -> chain (hixs t) (nb_of t) (home_of t c) (i + 1).

Lemma index_slots_spec n : forall t i,
  idx_ok t -> zlen t < 65535 -> 0 <= i -> i + Z.of_nat n = zlen t -> used (hixs t) <= 3 * i ->
  (forall k s c, k < i -> load t k = Some s -> c ∈ ids_of s -> chain (hixs t) (nb_of t) (home_of t c) (k + 1)) ->
  exists t', index_slots t (zlen t) i n = Some t' /\ strip <$> t' = strip <$> t /\ index_full t'.
Proof.
  induction n as [|n IH]; intros t i Ht Hz Hi Hn Hu Hc; cbn [index_slots].
  { exists t. split; [done|]. split; [done|]. split; [done|]. intros k s c Hk Hin. pose proof (load_Some _ _ _ Hk). apply (Hc k s c); try done; lia. }
  destruct (load_is_Some t i) as [s Hs]; [lia|].
  destruct (index_slot_puts t i s) as (t1 & -> & S1 & I1 & U1 & C1 & P1); try done; [lia|]. osimpl.
  assert (forall c, home_of t1 c = home_of t c) as Hh by (intros c; apply (strip_home t t1 c S1)).
  destruct (strip_home t t1 [] S1) as [_ Hz1]. assert (nb_of t1 = nb_of t) as Hnb by (unfold nb_of; by rewrite Hz1).
  destruct (IH t1 (i + 1)) as (t' & E & S2 & F2); try done; try lia.
  - intros k s1 c Hk Hs1 Hin. rewrite Hh, Hnb. destruct (strip_load t1 t k s1 (eq_sym S1) Hs1) as (s0 & Hs0 & Es).
    assert (ids_of s0 = ids_of s1) as Eids.
    { destruct (strip_fields _ _ Es) as (E1 & E2 & E3 & E4 & E5 & E6 & E7 & _). unfold ids_of. by rewrite E1, E2, E3, E4, E5, E6, E7. }
    rewrite <- Eids in Hin. destruct (decide (k = i)) as [->|].
    + rewrite Hs in Hs0. simplify_eq. by apply C1.
    + pose proof (load_Some _ _ _ Hs0). apply P1; [lia|]. apply (Hc k s0 c); try done; lia.
  - rewrite Hz1 in E. exists t'. split; [done|]. split; [congruence|done].
Qed.

Lemma reindex_spec t :
  Forall slot_wf t -> zlen t < 65535 ->
  exists t', conntable_reindex t (zlen t) = Some t' /\ strip <$> t' = strip <$> t /\ index_full t'.
Proof.
  intros Ht Hz. unfold conntable_reindex, CONNTABLE_HB. pose proof (zlen_nonneg t). rewrite u64_small by lia.
  destruct (clear_buckets_spec (Z.to_nat (zlen t * 4)) t 0) as (t1 & -> & S1 & Ht1 & HB); try done; try lia. osimpl.
  destruct (strip_home t t1 [] S1) as [_ Hz1].
  assert (used (hixs t1) = 0 /\ Forall (fun e => e = 0) (hixs t1)) as [Hu Hf].
  { apply used_zero. intros j Hj. rewrite HB. rewrite zlen_hixs in Hj by done.
    rewrite Z2Nat.id by lia. bx. }
  destruct (index_slots_spec (Z.to_nat (zlen t)) t1 0) as (t2 & E2 & S2 & F2); try lia.
  - split; [done|]. eapply Forall_impl; [|exact Hf]. cbn beta. intros e ->. lia.
  - intros k s c Hk Hs. apply load_Some in Hs. lia.
  - rewrite Hz1 in E2. exists t2. split; [done|]. split; [congruence|done].
Qed.

(** ** Lookups *)

Lemma bytes_ok_span p n : bytes_ok p -> bytes_ok (span_of p n).
Proof. apply bytes_ok_take. Qed.

Lemma slot_matches_spec s want :
  slot_wf s -> bytes_ok want -> conntable_slot_matches s want = Some (bool_decide (want ∈ ids_of s)).
Proof.
  intros (_ & _ & _ & Hb1 & Hb2 & Hb3 & _) Hw.
  unfold conntable_slot_matches, conntable_any_alt_matches, conntable_alt_matches, conntable_alt2_matches,
    conntable_cid_matches, ids_of.
  destruct (ct_live s =? 0); [by rewrite bool_decide_eq_false_2 by apply not_elem_of_nil|].
  rewrite !demux_match_spec by (try done; by apply bytes_ok_span). osimpl.
  destruct (bool_decide (want = span_of (ct_cid s) _)) eqn:E1.
  { apply bool_decide_eq_true in E1 as ->. rewrite bool_decide_eq_true_2; [done|]. apply elem_of_cons. by left. }
  apply bool_decide_eq_false in E1.
  destruct (ct_alt_cid_len s =? 0); osimpl; [|destruct (bool_decide (want = span_of (ct_alt_cid s) _)) eqn:E2].
  1, 3: destruct (ct_alt2_cid_len s =? 0); f_equal; try apply bool_decide_eq_false in E2; symmetry.
  5: { apply bool_decide_eq_true in E2 as ->. rewrite bool_decide_eq_true_2; [done|]. apply elem_of_cons. right. apply elem_of_cons. by left. }
  all: repeat rewrite ?app_nil_r, ?app_nil_l, ?elem_of_cons, ?elem_of_app, ?list_elem_of_singleton.
  - apply bool_decide_eq_false_2. rewrite list_elem_of_singleton. done.
  - apply bool_decide_ext. rewrite elem_of_cons, list_elem_of_singleton. tauto.
  - apply bool_decide_eq_false_2. rewrite elem_of_cons, list_elem_of_singleton. tauto.
  - apply bool_decide_ext. cbn [app]. rewrite !elem_of_cons, elem_of_nil. tauto.
Qed.

Lemma find_loop_spec t home want n : forall k,
  idx_ok t -> zlen t < 65535 -> bytes_ok want -> 0 <= home < nb_of t -> 0 <= k -> k + Z.of_nat n <= nb_of t ->
  exists r, find_loop t (nb_of t) home want k n = Some r /\
    (r = -1 \/ 0 <= r /\ exists s, load t r = Some s /\ want ∈ ids_of s) /\
    (forall i s m, load t i = Some s -> want ∈ ids_of s -> k <= m < k + Z.of_nat n ->
       load (hixs t) (seqpos (nb_of t) home m) = Some (i + 1) ->
       (forall j, k <= j < m -> exists e, load (hixs t) (seqpos (nb_of t) home j) = Some e /\ e <> 0) -> r <> -1).
Proof.
  intros k. revert k. induction n as [|n IH]; intros k Ht Hz Hw Hh Hk Hn; cbn [find_loop].
  { exists (-1). split; [done|]. split; [by left|]. intros; lia. }
  pose proof Ht as [Hwf He]. unfold nb_of in Hn, Hh. rewrite (u64_small (home + k)) by lia. fold (seqpos (nb_of t) home k).
  unfold conntable_probe. pose proof (seqpos_range (nb_of t) home k ltac:(unfold nb_of; lia)) as Hp.
  rewrite bucket_at_flat by (try done; lia).
  destruct (load_is_Some (hixs t) (seqpos (nb_of t) home k)) as [e Hle]; [rewrite zlen_hixs by done; exact Hp|].
  rewrite Hle. osimpl. pose proof (Forall_load _ _ _ _ He Hle) as Hre. cbn beta in Hre.
  destruct (e =? 0) eqn:Ee.
  - osimpl. cbn [Z.eqb Pos.eqb negb]. exists (-1). split; [done|]. split; [by left|]. intros i s m Hs Hin Hm Hl Hpre.
    exfalso. destruct (decide (m = k)) as [->|].
    + rewrite Hle in Hl. simplify_eq. apply load_Some in Hs. lia.
    + destruct (Hpre k) as (e' & Hl' & Hne); [lia|]. rewrite Hle in Hl'. simplify_eq. lia.
  - destruct (load_is_Some t (e - 1)) as [s Hs]; [lia|]. rewrite Hs. osimpl.
    rewrite slot_matches_spec by (try done; by apply (Forall_load _ _ _ _ Hwf Hs)). osimpl.
    destruct (bool_decide (want ∈ ids_of s)) eqn:Em.
    + apply bool_decide_eq_true in Em. replace (e - 1 =? -2) with false by lia. cbn [negb]. exists (e - 1). split; [done|].
      split; [right; split; [lia|eauto]|]. intros; lia.
    + apply bool_decide_eq_false in Em. cbn [Z.eqb Pos.eqb negb].
      destruct (IH (k + 1)) as (r & -> & H1 & H2); try done; try (unfold nb_of; lia).
      exists r. split; [done|]. split; [done|]. intros i s' m Hs' Hin Hm Hl Hpre.
      assert (m <> k). { intros ->. rewrite Hle in Hl. simplify_eq. rewrite Z.add_simpl_r in Hs. congruence. }
      apply (H2 i s' m); try done; [lia|]. intros j Hj. apply Hpre. lia.
Qed.

Lemma find_spec t dcid :
  index_full t -> zlen t < 65535 -> bytes_ok dcid ->
  exists r, conntable_find t (zlen t) dcid (zlen dcid) = Some r /\
    (r = -1 /\ (forall i s, load t i = Some s -> dcid ∉ ids_of s) \/ 0 <= r /\ exists s, load t r = Some s /\ dcid ∈ ids_of s).
Proof.
  intros [Ht Hfull] Hz Hd. unfold conntable_find. assert (span_of dcid (zlen dcid) = dcid) as -> by (unfold span_of; apply take_ge; unfold zlen; lia).
  rewrite home_code by done. osimpl. pose proof (zlen_nonneg t). unfold CONNTABLE_HB. rewrite (u64_small (zlen t * 4)) by lia.
  replace (zlen t * 4) with (nb_of t) by (unfold nb_of; lia). destruct (decide (zlen t = 0)) as [E0|].
  { destruct t; [|rewrite zlen_cons in *; pose proof (zlen_nonneg t); lia]. exists (-1). split; [done|]. left. split; [done|].
    intros i s Hs. by rewrite load_nil in Hs. }
  assert (0 <= home_of t dcid < nb_of t) as Hh.
  { unfold home_of. destruct t; [done|]. apply Z.mod_pos_bound. unfold nb_of. lia. }
  destruct (find_loop_spec t (home_of t dcid) dcid (Z.to_nat (nb_of t)) 0) as (r & E & H1 & H2); try done; try lia.
  exists r. split; [done|]. destruct H1 as [->|H1]; [left|by right]. split; [done|]. intros i s Hs Hin.
  destruct (Hfull i s dcid Hs Hin) as (m & Hm & Hl & Hpre). apply (H2 i s m); try done; lia.
Qed.

(** ** The table refines a list of slots *)

(** A live slot: its primary id and its alternates, empty when unset. *)
Definition aslot : Type := option (list Z * list Z * list Z).

Definition a_ids (a : aslot) : list (list Z) :=
  match a with
  | None => []
  | Some (p, x, y) => p :: (if bool_decide (x = []) then [] else [x]) ++ (if bool_decide (y = []) then [] else [y])
  end.

Definition abs_slot (s : ct_slot) : aslot :=
  if ct_live s =? 0 then None
  else Some (span_of (ct_cid s) (ct_cid_len s), span_of (ct_alt_cid s) (ct_alt_cid_len s),
             span_of (ct_alt2_cid s) (ct_alt2_cid_len s)).

Inductive ct_op :=
  | CtInsert (c : list Z) | CtRemove (i : Z) | CtRekey (i : Z) (c : list Z)
  | CtAlt2 (i : Z) (c : list Z) | CtCid (i : Z) (c : list Z) | CtSeed (seed : Z).

(** Ids are at most 255 bytes long, the range of the [u8] length. *)
Definition ct_op_ok (x : ct_op) : Prop :=
  match x with
  | CtInsert c | CtRekey _ c | CtAlt2 _ c | CtCid _ c => bytes_ok c /\ zlen c < 256
  | _ => True
  end.

Definition code_step (t : conntable) (cap : Z) (x : ct_op) : option (Z * conntable) :=
  match x with
  | CtInsert c => conntable_insert t cap c (zlen c)
  | CtRemove i => t' ← conntable_remove t cap i; Some (0, t')
  | CtRekey i c => conntable_rekey t cap i c (zlen c)
  | CtAlt2 i c => conntable_set_alt2 t cap i c (zlen c)
  | CtCid i c => conntable_set_cid t cap i c (zlen c)
  | CtSeed v => t' ← conntable_seed t cap v; Some (0, t')
  end.

(** The index of the first free slot, -1 when there is none. *)
Fixpoint first_free (a : list aslot) (i : Z) : Z :=
  match a with [] => -1 | None :: _ => i | Some _ :: a' => first_free a' (i + 1) end.

Definition a_update (a : list aslot) (i : Z) (c : list Z) (f : list Z * list Z * list Z -> list Z * list Z * list Z)
    : Z * list aslot :=
  if (0 <=? i) && (i <? zlen a) && (zlen c <=? WIRED_MAX_CID_LEN)
  then (1, alter (fmap f) (Z.to_nat i) a) else (0, a).

Definition a_step (a : list aslot) (x : ct_op) : Z * list aslot :=
  match x with
  | CtInsert c =>
      let i := first_free a 0 in
      if (zlen c <=? WIRED_MAX_CID_LEN) && (0 <=? i) then (i, <[Z.to_nat i := Some (c, [], [])]> a) else (-1, a)
  | CtRemove i => (0, if (0 <=? i) && (i <? zlen a) then <[Z.to_nat i := None]> a else a)
  | CtRekey i c => a_update a i c (fun p => (c, p.1.1, p.2))
  | CtAlt2 i c => a_update a i c (fun p => (p.1.1, p.1.2, c))
  | CtCid i c => a_update a i c (fun p => (c, p.1.2, p.2))
  | CtSeed _ => (0, a)
  end.

Lemma span_nil p n : 0 <= n <= zlen p -> span_of p n = [] <-> n = 0.
Proof.
  intros Hn. unfold span_of. split; [|intros ->; done]. intros H. apply (f_equal zlen) in H.
  rewrite zlen_take in H by lia. exact H.
Qed.

Lemma ids_abs s : slot_wf s -> ids_of s = a_ids (abs_slot s).
Proof.
  intros (H1 & H2 & H3 & _ & _ & _ & L1 & L2 & L3 & _). unfold ids_of, abs_slot. destruct (ct_live s =? 0); [done|]. cbn [a_ids].
  do 2 f_equal.
  - destruct (ct_alt_cid_len s =? 0) eqn:E.
    + rewrite bool_decide_eq_true_2; [done|]. apply span_nil; lia.
    + rewrite bool_decide_eq_false_2; [done|]. rewrite span_nil by lia. lia.
  - destruct (ct_alt2_cid_len s =? 0) eqn:E.
    + rewrite bool_decide_eq_true_2; [done|]. apply span_nil; lia.
    + rewrite bool_decide_eq_false_2; [done|]. rewrite span_nil by lia. lia.
Qed.

Lemma abs_strip s s' : strip s' = strip s -> abs_slot s' = abs_slot s.
Proof.
  intros H. destruct (strip_fields _ _ H) as (E1 & E2 & E3 & E4 & E5 & E6 & E7 & _). unfold abs_slot.
  by rewrite E1, E2, E3, E4, E5, E6, E7.
Qed.

Lemma cons_inj {A} (x y : A) l k : x :: l = y :: k -> x = y /\ l = k.
Proof. intros H. by injection H as -> ->. Qed.

Lemma abs_strips (t : conntable) : forall t' : conntable, strip <$> t' = strip <$> t -> abs_slot <$> t' = abs_slot <$> t.
Proof.
  induction t as [|s t IH]; intros [|s' t'] H; try done. cbn [fmap list_fmap] in *.
  apply cons_inj in H as [Hs Ht]. f_equal; [by apply abs_strip|by apply IH].
Qed.

(** Copying an id into a field. *)
Lemma copy_id p c n :
  zlen p = WIRED_MAX_CID_LEN -> bytes_ok p -> bytes_ok c -> 0 <= n <= WIRED_MAX_CID_LEN -> n <= zlen c ->
  exists p', copy p 0 c 0 (Z.to_nat n) = Some p' /\ zlen p' = WIRED_MAX_CID_LEN /\ bytes_ok p' /\ span_of p' n = span_of c n.
Proof.
  intros Hp Hbp Hbc Hn Hc. unfold WIRED_MAX_CID_LEN in *. rewrite copy_spec by lia. eexists. split; [reflexivity|].
  change (drop (Z.to_nat 0) c) with c. pose proof (zlen_take c n ltac:(lia)) as Hz.
  split; [rewrite zlen_splice; lia|]. split; [apply bytes_ok_splice; [done|by apply bytes_ok_take]|].
  unfold span_of. rewrite <- Hz at 1. rewrite splice_0_take by lia. done.
Qed.

Lemma store_reindex t i s' :
  Forall slot_wf t -> zlen t < 65535 -> 0 <= i < zlen t -> slot_wf s' ->
  exists t1 t', store t i s' = Some t1 /\ conntable_reindex t1 (zlen t) = Some t' /\ index_full t' /\ zlen t' = zlen t /\
    abs_slot <$> t' = <[Z.to_nat i := abs_slot s']> (abs_slot <$> t).
Proof.
  intros Ht Hz Hi Hs. rewrite store_in by done. set (t1 := <[Z.to_nat i := s']> t).
  assert (zlen t1 = zlen t) as Hz1 by (subst t1; by rewrite zlen_insert).
  destruct (reindex_spec t1) as (t' & E & S & F); [by apply Forall_store|lia|]. rewrite Hz1 in E.
  exists t1, t'. split_and!; try done; [by rewrite (proj2 (strip_home _ _ [] S))|].
  rewrite (abs_strips _ _ S). subst t1. by rewrite list_fmap_insert.
Qed.

Lemma free_slot_spec n : forall t i,
  0 <= i -> i + Z.of_nat n = zlen t ->
  free_slot_loop t i n = Some (first_free (drop (Z.to_nat i) (abs_slot <$> t)) i) /\
  (first_free (drop (Z.to_nat i) (abs_slot <$> t)) i = -1 \/ i <= first_free (drop (Z.to_nat i) (abs_slot <$> t)) i < zlen t).
Proof.
  induction n as [|n IH]; intros t i Hi Hn; cbn [free_slot_loop].
  { rewrite drop_ge by (rewrite length_fmap; unfold zlen in Hn; lia). cbn. auto. }
  destruct (load_is_Some t i) as [s Hs]; [lia|]. rewrite Hs. osimpl. pose proof (load_fmap abs_slot t i) as Ea. rewrite Hs in Ea.
  unfold load in Ea. replace (0 <=? i) with true in Ea by lia. cbn in Ea. rewrite (drop_S _ _ _ Ea).
  destruct (IH t (i + 1)) as [E Hr]; [lia|lia|]. replace (Z.to_nat (i + 1)) with (S (Z.to_nat i)) in E, Hr by lia.
  destruct (ct_live s =? 0) eqn:El.
  { assert (abs_slot s = None) as -> by (unfold abs_slot; by rewrite El). cbn [first_free]. split; [done|right; lia]. }
  assert (exists q, abs_slot s = Some q) as [q ->] by (unfold abs_slot; rewrite El; eauto). cbn [first_free].
  split; [done|]. destruct Hr; [by left|right; lia].
Qed.

Definition refines (t : conntable) (a : list aslot) : Prop := index_full t /\ zlen t < 65535 /\ abs_slot <$> t = a.

Lemma wf_of t : index_full t -> Forall slot_wf t.
Proof. by intros [[H _] _]. Qed.

Lemma abs_len (t : conntable) : zlen (abs_slot <$> t) = zlen t.
Proof. apply zlen_fmap. Qed.

Lemma alter_as_insert {A} (f : A -> A) (l : list A) : forall i x, l !! i = Some x -> alter f i l = <[i := f x]> l.
Proof. induction l as [|y l IH]; intros [|i] x Hx; try done; cbn in *; [by simplify_eq|]. f_equal. by apply IH. Qed.

(** An update of slot [i] that keeps it well-formed and acts as [f] on its ids. *)
Lemma update_refines t i c f s s' :
  refines t (abs_slot <$> t) -> load t i = Some s -> zlen c <= WIRED_MAX_CID_LEN ->
  slot_wf s' -> abs_slot s' = f <$> abs_slot s ->
  exists t1 t', store t i s' = Some t1 /\ conntable_reindex t1 (zlen t) = Some t' /\
    refines t' (a_update (abs_slot <$> t) i c f).2 /\ (a_update (abs_slot <$> t) i c f).1 = 1.
Proof.
  intros (Hfull & Hz & _) Hs Hc Hs' Hf. pose proof (load_Some _ _ _ Hs) as Hi.
  destruct (store_reindex t i s' (wf_of t Hfull) Hz Hi Hs') as (t1 & t' & E1 & E2 & F & Hz' & Ha).
  exists t1, t'. unfold a_update. rewrite abs_len. replace ((0 <=? i) && (i <? zlen t) && (zlen c <=? WIRED_MAX_CID_LEN)) with true by lia.
  split_and!; try done. split_and!; [done|lia|]. rewrite Ha. cbn [snd]. rewrite Hf. symmetry. apply (alter_as_insert (fmap f)).
  rewrite list_lookup_fmap. unfold load in Hs. replace (0 <=? i) with true in Hs by lia. by rewrite Hs.
Qed.

Lemma rekey_guard (t : conntable) i (c : list Z) :
  conntable_rekey_ok (zlen t) i (zlen c) = (0 <=? i) && (i <? zlen t) && (zlen c <=? WIRED_MAX_CID_LEN).
Proof. unfold conntable_rekey_ok, conntable_slot_ok. destruct ((0 <=? i) && (i <? zlen t)); done. Qed.

Lemma update_refused (t : conntable) i (c : list Z) f :
  conntable_rekey_ok (zlen t) i (zlen c) = false -> a_update (abs_slot <$> t) i c f = (0, abs_slot <$> t).
Proof. rewrite rekey_guard. intros E. unfold a_update. by rewrite abs_len, E. Qed.

(** [t] without slot [i] alive: the index stays valid without being rebuilt. *)
Lemma remove_refines t i s :
  refines t (abs_slot <$> t) -> load t i = Some s ->
  refines (<[Z.to_nat i := set_live s 0]> t) (<[Z.to_nat i := None]> (abs_slot <$> t)).
Proof.
  intros ([[Hwf He] Hc] & Hz & _) Hs. pose proof (load_Some _ _ _ Hs) as Hi. set (t' := <[Z.to_nat i := set_live s 0]> t).
  assert (zlen t' = zlen t) as Hz' by (subst t'; by rewrite zlen_insert).
  assert (hixs t' = hixs t) as HB by (unfold hixs; f_equal; by apply (fmap_store_same _ _ _ s)).
  assert (nb_of t' = nb_of t) as Hnb by (unfold nb_of; by rewrite Hz').
  assert (forall c, home_of t' c = home_of t c) as Hh.
  { intros c. unfold home_of. rewrite Hnb. subst t'. destruct t as [|s0 t]; [done|]. destruct (Z.to_nat i) eqn:Ei; [|done].
    cbn. rewrite (load_cons_0 s0 t) in Hs || replace i with 0 in Hs by lia. rewrite load_cons_0 in Hs. by simplify_eq. }
  split_and!; [|lia|subst t'; by rewrite list_fmap_insert]. split; [split|].
  - apply Forall_store; [done|]. exact (Forall_load _ _ _ _ Hwf Hs).
  - by rewrite HB, Hz'.
  - intros j s1 c Hs1 Hin. rewrite HB, Hnb, Hh. subst t'. rewrite load_insert in Hs1 by done. bcase in Hs1.
    + simplify_eq. by apply elem_of_nil in Hin.
    + by apply (Hc j s1 c).
Qed.

Lemma set_id_wf s p n :
  slot_wf s -> zlen p = WIRED_MAX_CID_LEN -> bytes_ok p -> 0 <= n <= WIRED_MAX_CID_LEN ->
  slot_wf (set_primary s p n) /\ slot_wf (set_alt s p n) /\ slot_wf (set_alt2 s p n).
Proof. intros (? & ? & ? & ? & ? & ? & ? & ? & ? & ?) Hp Hb Hn. unfold slot_wf. cbn. split_and!; try done; lia. Qed.

Lemma span_all c : span_of c (zlen c) = c.
Proof. unfold span_of. apply take_ge. unfold zlen; lia. Qed.

Lemma zlen_update (t : conntable) i c f : zlen (a_update (abs_slot <$> t) i c f).2 = zlen t.
Proof. unfold a_update. bcase; cbn [snd]; [unfold zlen; rewrite length_alter; apply abs_len|apply abs_len]. Qed.

(** One operation of the code does what the specification does. *)
Definition steps (t : conntable) (x : ct_op) : Prop :=
  exists t', code_step t (zlen t) x = Some ((a_step (abs_slot <$> t) x).1, t') /\ zlen t' = zlen t /\
    refines t' (a_step (abs_slot <$> t) x).2.

Section step.
Context (t : conntable) (Hr : refines t (abs_slot <$> t)).

Lemma slot_at i (c : list Z) :
  conntable_rekey_ok (zlen t) i (zlen c) = true ->
  exists s, load t i = Some s /\ slot_wf s /\ 0 <= zlen c <= WIRED_MAX_CID_LEN.
Proof.
  rewrite rekey_guard. intros E. destruct (load_is_Some t i) as [s Hs]; [lia|]. exists s. split; [done|].
  split; [exact (Forall_load _ _ _ _ (wf_of t (proj1 Hr)) Hs)|]. pose proof (zlen_nonneg c). lia.
Qed.

(** The tail of the three id updates: store the slot, rebuild the index. *)
Lemma update_tail i c f s s' :
  load t i = Some s -> 0 <= zlen c <= WIRED_MAX_CID_LEN -> slot_wf s' -> abs_slot s' = f <$> abs_slot s ->
  exists t', (t1 ← store t i s'; t2 ← conntable_reindex t1 (zlen t); Some (1, t2)) =
      Some ((a_update (abs_slot <$> t) i c f).1, t') /\ zlen t' = zlen t /\ refines t' (a_update (abs_slot <$> t) i c f).2.
Proof.
  intros Hs Hc Hw Hf. destruct (update_refines t i c f s s' Hr Hs ltac:(lia) Hw Hf) as (t1 & t' & -> & E2 & R & ->).
  osimpl. rewrite E2. osimpl. exists t'. split; [done|]. split; [|done]. destruct R as (_ & _ & Ha).
  rewrite <- (zlen_update t i c f), <- Ha. symmetry. apply zlen_fmap.
Qed.

Lemma step_insert c : bytes_ok c -> steps t (CtInsert c).
Proof.
  intros Hb. pose proof Hr as (Hfull & Hz & _). pose proof (wf_of t Hfull) as Hwf.
  unfold steps. cbn [code_step a_step]. unfold conntable_insert. pose proof (zlen_nonneg c). pose proof (zlen_nonneg t).
  destruct (free_slot_spec (Z.to_nat (zlen t)) t 0) as [Ef Hfr]; [lia|lia|].
  change (drop (Z.to_nat 0) (abs_slot <$> t)) with (abs_slot <$> t) in *.
  destruct (WIRED_MAX_CID_LEN <? zlen c) eqn:El.
  { replace (zlen c <=? WIRED_MAX_CID_LEN) with false by lia. cbn [andb]. by exists t. }
  replace (zlen c <=? WIRED_MAX_CID_LEN) with true by lia. unfold conntable_free_slot. rewrite Ef. osimpl. cbn [andb].
  set (i := first_free (abs_slot <$> t) 0) in *. destruct (i <? 0) eqn:Ei.
  { replace (0 <=? i) with false by lia. assert (i = -1) as -> by lia. by exists t. }
  replace (0 <=? i) with true by lia. destruct (load_is_Some t i) as [s Hs]; [lia|]. rewrite Hs. osimpl.
  pose proof (Forall_load _ _ _ _ Hwf Hs) as Hsw. pose proof Hsw as (L1 & _ & _ & B1 & _).
  unfold conntable_fill_slot. destruct (copy_id (ct_cid s) c (zlen c)) as (p & -> & Hp & Hbp & Hsp); try done; try lia. osimpl.
  set (s' := set_live _ 1). assert (slot_wf s') as Hs'.
  { destruct Hsw as (? & ? & ? & ? & ? & ? & ? & ? & ? & ?). unfold slot_wf, WIRED_MAX_CID_LEN in *. cbn. split_and!; try done; lia. }
  destruct (store_reindex t i s' Hwf Hz ltac:(lia) Hs') as (t1 & t' & -> & E2 & F & Hz' & Ha). osimpl. rewrite E2. osimpl.
  exists t'. cbn [fst snd]. split; [done|]. split; [done|]. split_and!; [done|lia|]. rewrite Ha. f_equal. unfold abs_slot. cbn. by rewrite Hsp, span_all.
Qed.

Lemma step_remove i : steps t (CtRemove i).
Proof.
  unfold steps. cbn [code_step a_step]. unfold conntable_remove. rewrite abs_len. destruct ((0 <=? i) && (i <? zlen t)) eqn:E.
  - replace ((i <? 0) || (zlen t <=? i)) with false by lia. destruct (load_is_Some t i) as [s Hs]; [lia|]. rewrite Hs. osimpl.
    rewrite store_in by lia. osimpl. eexists. split; [reflexivity|]. split; [by rewrite zlen_insert|]. by apply remove_refines.
  - replace ((i <? 0) || (zlen t <=? i)) with true by lia. osimpl. by exists t.
Qed.

Lemma step_rekey i c : bytes_ok c -> steps t (CtRekey i c).
Proof.
  intros Hb. unfold steps. cbn [code_step a_step]. unfold conntable_rekey.
  destruct (conntable_rekey_ok (zlen t) i (zlen c)) eqn:E; cbn [negb]; [|rewrite update_refused by done; by exists t].
  destruct (slot_at i c E) as (s & Hs & Hsw & Hc). rewrite Hs. osimpl. pose proof Hsw as (L1 & L2 & L3 & B1 & B2 & B3 & N1 & _).
  unfold conntable_stash_alt, conntable_set_primary.
  destruct (copy_id (ct_alt_cid s) (ct_cid s) (ct_cid_len s)) as (p1 & -> & Hp1 & Hbp1 & Hsp1); try done; try lia. osimpl.
  destruct (copy_id (ct_cid s) c (zlen c)) as (p & Ep & Hp & Hbp & Hsp); try done.
  change (ct_cid (set_alt s p1 (ct_cid_len s))) with (ct_cid s). rewrite Ep. osimpl.
  destruct (set_id_wf s p1 (ct_cid_len s)) as (_ & Hw1 & _); try done.
  destruct (set_id_wf _ p (zlen c) Hw1) as (Hw2 & _ & _); try done.
  apply (update_tail i c (fun p => (c, p.1.1, p.2)) s); try done.
  unfold abs_slot. cbn. destruct (ct_live s =? 0); [done|]. cbn. by rewrite Hsp, Hsp1, span_all.
Qed.

Lemma step_alt2 i c : bytes_ok c -> steps t (CtAlt2 i c).
Proof.
  intros Hb. unfold steps. cbn [code_step a_step]. unfold conntable_set_alt2.
  destruct (conntable_rekey_ok (zlen t) i (zlen c)) eqn:E; cbn [negb]; [|rewrite update_refused by done; by exists t].
  destruct (slot_at i c E) as (s & Hs & Hsw & Hc). rewrite Hs. osimpl. pose proof Hsw as (L1 & L2 & L3 & B1 & B2 & B3 & _).
  destruct (copy_id (ct_alt2_cid s) c (zlen c)) as (p & -> & Hp & Hbp & Hsp); try done. osimpl.
  destruct (set_id_wf s p (zlen c) Hsw) as (_ & _ & Hw2); try done.
  apply (update_tail i c (fun p => (p.1.1, p.1.2, c)) s); try done.
  unfold abs_slot. cbn. destruct (ct_live s =? 0); [done|]. cbn. by rewrite Hsp, span_all.
Qed.

Lemma step_cid i c : bytes_ok c -> steps t (CtCid i c).
Proof.
  intros Hb. unfold steps. cbn [code_step a_step]. unfold conntable_set_cid.
  destruct (conntable_rekey_ok (zlen t) i (zlen c)) eqn:E; cbn [negb]; [|rewrite update_refused by done; by exists t].
  destruct (slot_at i c E) as (s & Hs & Hsw & Hc). rewrite Hs. osimpl. pose proof Hsw as (L1 & L2 & L3 & B1 & B2 & B3 & _).
  unfold conntable_set_primary.
  destruct (copy_id (ct_cid s) c (zlen c)) as (p & -> & Hp & Hbp & Hsp); try done. osimpl.
  destruct (set_id_wf s p (zlen c) Hsw) as (Hw2 & _ & _); try done.
  apply (update_tail i c (fun p => (c, p.1.2, p.2)) s); try done.
  unfold abs_slot. cbn. destruct (ct_live s =? 0); [done|]. cbn. by rewrite Hsp, span_all.
Qed.

Lemma step_seed v : steps t (CtSeed v).
Proof.
  pose proof Hr as (Hfull & Hz & _). pose proof (wf_of t Hfull) as Hwf. pose proof (zlen_nonneg t).
  unfold steps. cbn [code_step a_step]. unfold conntable_seed. destruct (zlen t =? 0) eqn:E0; cbn [negb].
  - osimpl. destruct (reindex_spec t Hwf Hz) as (t' & -> & S & F). osimpl. exists t'.
    assert (zlen t' = zlen t) as Hz' by (apply (strip_home _ _ [] S)). split; [done|]. split; [done|].
    split_and!; [done|lia|]. by apply abs_strips.
  - destruct (load_is_Some t 0) as [s Hs]; [lia|]. rewrite Hs. osimpl.
    destruct (store_reindex t 0 (set_hseed s v) Hwf Hz) as (t1 & t' & -> & E2 & F & Hz' & Ha);
      [lia|exact (Forall_load _ _ _ _ Hwf Hs)|]. osimpl. rewrite E2. osimpl.
    exists t'. split; [done|]. split; [done|]. split_and!; [done|lia|]. rewrite Ha. cbn [snd]. apply list_insert_id. rewrite list_lookup_fmap.
    unfold load in Hs. cbn in Hs. by rewrite Hs.
Qed.

Lemma step_refines x : ct_op_ok x -> steps t x.
Proof.
  destruct x; cbn [ct_op_ok]; [intros [? _]; by apply step_insert|intros _; apply step_remove|intros [? _]; by apply step_rekey
    |intros [? _]; by apply step_alt2|intros [? _]; by apply step_cid|intros _; apply step_seed].
Qed.
End step.

Fixpoint code_run (t : conntable) (cap : Z) (ops : list ct_op) : option (list Z * conntable) :=
  match ops with
  | [] => Some ([], t)
  | x :: ops' => '(r, t1) ← code_step t cap x; '(rs, t2) ← code_run t1 cap ops'; Some (r :: rs, t2)
  end.

Fixpoint a_run (a : list aslot) (ops : list ct_op) : list Z * list aslot :=
  match ops with
  | [] => ([], a)
  | x :: ops' => let '(r, a1) := a_step a x in let '(rs, a2) := a_run a1 ops' in (r :: rs, a2)
  end.

Lemma run_refines ops : forall t a,
  refines t a -> Forall ct_op_ok ops ->
  exists t', code_run t (zlen t) ops = Some ((a_run a ops).1, t') /\ zlen t' = zlen t /\ refines t' (a_run a ops).2.
Proof.
  induction ops as [|x ops IH]; intros t a Hr Hops; cbn [code_run a_run]; [by exists t|].
  apply Forall_cons_1 in Hops as [Hx Hops]. assert (abs_slot <$> t = a) as <- by apply Hr.
  destruct (step_refines t Hr x Hx) as (t1 & -> & Hz & R1). osimpl.
  destruct (a_step (abs_slot <$> t) x) as [r a1]. cbn [fst snd] in *.
  destruct (IH t1 a1 R1 Hops) as (t2 & E & Hz2 & R2). rewrite Hz in E. rewrite E. osimpl.
  destruct (a_run a1 ops) as [rs a2]. exists t2. split; [done|]. split; [congruence|done].
Qed.

Lemma init_slots_spec n : forall t i,
  Forall slot_wf t -> 0 <= i -> i + Z.of_nat n = zlen t ->
  exists t', init_slots t i n = Some t' /\ Forall slot_wf t' /\ zlen t' = zlen t /\
    forall j, load (abs_slot <$> t') j = if i <=? j then (if j <? zlen t then Some None else None) else load (abs_slot <$> t) j.
Proof.
  induction n as [|n IH]; intros t i Ht Hi Hn; cbn [init_slots].
  { exists t. split_and!; try done. intros j. bcase; [|done]. replace (j <? zlen t) with false by lia. apply load_out.
    rewrite zlen_fmap. lia. }
  destruct (load_is_Some t i) as [s Hs]; [lia|]. rewrite Hs. osimpl. cbv zeta. set (s' := set_hseed _ 0).
  assert (slot_wf s') as Hs'.
  { destruct (Forall_load _ _ _ _ Ht Hs) as (? & ? & ? & ? & ? & ? & ? & ? & ? & ?).
    unfold slot_wf, WIRED_MAX_CID_LEN in *. cbn. split_and!; try done; lia. }
  rewrite store_in by lia. osimpl.
  destruct (IH (<[Z.to_nat i := s']> t) (i + 1)) as (t' & -> & H1 & H2 & H3); [by apply Forall_store|lia|rewrite zlen_insert; lia|].
  rewrite zlen_insert in *. exists t'. split_and!; try done. intros j. rewrite H3. rewrite list_fmap_insert.
  rewrite load_insert by (rewrite zlen_fmap; lia). change (abs_slot s') with (@None (list Z * list Z * list Z)). bx.
Qed.

Lemma init_refines mem :
  Forall slot_wf mem -> zlen mem < 65535 ->
  exists t0, conntable_init mem (zlen mem) = Some t0 /\ zlen t0 = zlen mem /\ refines t0 (replicate (length mem) None).
Proof.
  intros Hwf Hz. unfold conntable_init. pose proof (zlen_nonneg mem).
  destruct (init_slots_spec (Z.to_nat (zlen mem)) mem 0 Hwf) as (t & -> & Ht & Hzt & Ha); [lia|lia|]. osimpl.
  destruct (reindex_spec t Ht) as (t0 & E & S & F); [lia|]. rewrite Hzt in E. destruct (strip_home _ _ [] S) as [_ Hz0].
  exists t0. split; [done|]. split; [lia|]. split_and!; [done|lia|]. rewrite (abs_strips _ _ S). apply load_ext.
  { rewrite zlen_fmap, Hzt. unfold zlen. by rewrite length_replicate. }
  intros j Hj. rewrite Ha. rewrite zlen_fmap in Hj. replace (0 <=? j) with true by lia. replace (j <? zlen mem) with true by lia.
  unfold load. replace (0 <=? j) with true by lia. symmetry. apply lookup_replicate_2. unfold zlen in *. lia.
Qed.

(** C13: routing by connection id (RFC 9000 5.1, 5.2).  The hashed table
    refines a plain list of slots: over any sequence of inserts, removals,
    rekeys, id changes and reseedings no access leaves the arrays, every probe
    ends, and the results and the slots' ids are those of the list.  In every
    state reached, looking up an id returns a live slot owning it when there
    is one and -1 exactly when there is none, whatever the hash does. *)
Theorem conntable_refines_slots (mem : conntable) (ops : list ct_op) (dcid : list Z) :
  zlen mem < 65535 -> Forall slot_wf mem -> Forall ct_op_ok ops -> bytes_ok dcid ->
  let '(rs, a) := a_run (replicate (length mem) None) ops in
  exists t0 t r, conntable_init mem (zlen mem) = Some t0 /\ code_run t0 (zlen mem) ops = Some (rs, t) /\
    abs_slot <$> t = a /\ conntable_find t (zlen mem) dcid (zlen dcid) = Some r /\
    (r = -1 /\ (forall i s, load a i = Some s -> dcid ∉ a_ids s) \/
     0 <= r /\ exists s, load a r = Some s /\ dcid ∈ a_ids s).
Proof.
  intros Hz Hwf Hops Hd. destruct (init_refines mem Hwf Hz) as (t0 & E0 & Hz0 & R0).
  destruct (run_refines ops t0 _ R0 Hops) as (t & E & Hzt & R). destruct (a_run _ ops) as [rs a]. cbn [fst snd] in *.
  rewrite Hz0 in *. destruct R as (Hfull & Hzl & Ha). destruct (find_spec t dcid Hfull Hzl Hd) as (r & Ef & Hr).
  rewrite Hzt in Ef. exists t0, t, r. split_and!; try done. pose proof (wf_of t Hfull) as Hwt. subst a. destruct Hr as [[-> Hno]|[Hr (s & Hs & Hin)]].
  - left. split; [done|]. intros i s Hs. rewrite load_fmap in Hs. destruct (load t i) as [x|] eqn:Ex; [|done]. cbn in Hs. simplify_eq.
    rewrite <- ids_abs by (exact (Forall_load _ _ _ _ Hwt Ex)). by apply (Hno i).
  - right. split; [done|]. exists (abs_slot s). rewrite load_fmap, Hs. split; [done|].
    rewrite <- ids_abs by (exact (Forall_load _ _ _ _ Hwt Hs)). done.
Qed.

Definition slot_demo : ct_slot := mk_slot (replicate 20 9) 3 (replicate 20 9) 5 (replicate 20 9) 7 1 [1; 2; 3; 4] 77.
Definition ct_demo : list ct_op :=
  [CtInsert [1; 2; 3]; CtInsert [4; 5]; CtSeed 12345; CtRekey 1 [6; 7; 8]; CtAlt2 0 [4; 4]; CtRemove 0; CtInsert [10]].

Lemma conntable_refines_slots_witness :
  exists t0 t r, conntable_init [slot_demo; slot_demo] 2 = Some t0 /\
    code_run t0 2 ct_demo = Some ([0; 1; 0; 1; 1; 0; 0], t) /\ conntable_find t 2 [4; 5] 2 = Some r /\ r = 1.
Proof.
  pose proof (conntable_refines_slots [slot_demo; slot_demo] ct_demo [4; 5]) as H.
  assert (bytes_ok (replicate 20 9)) as Hb by (apply Forall_replicate; unfold is_u8; lia).
  specialize (H ltac:(unfold zlen; cbn; lia)).
  specialize (H ltac:(repeat constructor; unfold WIRED_MAX_CID_LEN; cbn; try lia; try done)).
  specialize (H ltac:(repeat constructor; unfold is_u8; cbn; lia) ltac:(repeat constructor; unfold is_u8; lia)).
  change (a_run (replicate (length [slot_demo; slot_demo]) None) ct_demo)
    with ([0; 1; 0; 1; 1; 0; 0], [Some ([10], [], []); Some ([6; 7; 8], [4; 5], [])] : list aslot) in H.
  destruct H as (t0 & t & r & E0 & E & _ & Ef & Hr). exists t0, t, r. split_and!; try done. destruct Hr as [[-> Hno]|[H0 (s & Hs & Hin)]].
  - exfalso. apply (Hno 1 (Some ([6; 7; 8], [4; 5], []))); [done|]. cbn. apply elem_of_cons. right. apply elem_of_cons. by left.
  - pose proof (load_Some _ _ _ Hs) as Hi. unfold zlen in Hi. cbn in Hi. assert (r = 0 \/ r = 1) as [->| ->] by lia; [|done].
    rewrite load_cons_0 in Hs. injection Hs as <-. by apply list_elem_of_singleton in Hin.
Defined.
