(* ===== verification/Streams.v ===== *)
(** * Stream identifiers, limits, flow control and final sizes

    src/src/transport/stream/data/stream (ids, roles, limits, states) and
    src/src/transport/stream/flow (credits, final size, violations), with the
    MAX_STREAMS helpers of src/src/transport/stream/data/maxstreams. *)

From stdpp Require Import base numbers list option.
From Stdlib Require Import ZArith Lia.
From S2P Require Import Prelude Bytes Varint Frames.
Import Frame FlowCtl.

(** ** stream_id.c, stream_limit.c, stream_role.c *)

(* src/src/transport/stream/data/stream/stream_id.h : STREAM_INITIATOR_BIT *)
Definition STREAM_INITIATOR_BIT : Z := 0x1.
(* src/src/transport/stream/data/stream/stream_id.h : STREAM_DIR_BIT *)
Definition STREAM_DIR_BIT : Z := 0x2.

(* src/src/transport/stream/data/stream/stream_id.c : stream_is_client_initiated *)
Definition stream_is_client_initiated (id : Z) : bool := Z.land id STREAM_INITIATOR_BIT =? 0.

(* src/src/transport/stream/data/stream/stream_id.c : stream_is_uni *)
Definition stream_is_uni (id : Z) : bool := negb (Z.land id STREAM_DIR_BIT =? 0).

(* src/src/transport/stream/data/stream/stream_id.c : stream_id *)
Definition stream_id (is_server is_uni : bool) (index : Z) : Z :=
  let low := Z.lor (if is_server then STREAM_INITIATOR_BIT else 0) (if is_uni then STREAM_DIR_BIT else 0) in
  Z.lor (u64 (Z.shiftl index 2)) low.

(* src/src/transport/stream/data/stream/stream_limit.h : MAX_STREAMS_LIMIT *)
Definition MAX_STREAMS_LIMIT : Z := 0x1000000000000000.

(* src/src/transport/stream/data/stream/stream_limit.c : stream_max_streams_ok *)
Definition stream_max_streams_ok (max_streams : Z) : bool := max_streams <=? MAX_STREAMS_LIMIT.

(* src/src/transport/stream/data/stream/stream_limit.h : stream_kind *)
Record stream_kind := mk_kind { sk_is_server : bool; sk_is_uni : bool }.

(** [None] is the return value 0: no stream is permitted. *)
(* src/src/transport/stream/data/stream/stream_limit.c : stream_max_id *)
Definition stream_max_id (k : stream_kind) (max_streams : Z) : option Z :=
  if max_streams =? 0 then None
  else if negb (stream_max_streams_ok max_streams) then None
  else Some (stream_id (sk_is_server k) (sk_is_uni k) (max_streams - 1)).

(* src/src/transport/stream/data/stream/stream_role.c : am_initiator *)
Definition am_initiator (am_client : bool) (id : Z) : bool := Bool.eqb am_client (stream_is_client_initiated id).

(* src/src/transport/stream/data/stream/stream_role.c : stream_can_send *)
Definition stream_can_send (am_client : bool) (id : Z) : bool :=
  if negb (stream_is_uni id) then true else am_initiator am_client id.

(* src/src/transport/stream/data/stream/stream_role.c : stream_can_receive *)
Definition stream_can_receive (am_client : bool) (id : Z) : bool :=
  if negb (stream_is_uni id) then true else negb (am_initiator am_client id).

(** ** streams.c, stream_credit.c, maxstreams.c *)

(* src/src/transport/stream/flow/flow/streams.h : streams *)
Record streams := mk_slimit { ss_limit : Z; ss_opened : Z }.

(* src/src/transport/stream/flow/flow/streams.c : streams_init *)
Definition streams_init (limit : Z) : streams := mk_slimit limit 0.

(* src/src/transport/stream/flow/flow/streams.c : streams_set_max *)
Definition streams_set_max (s : streams) (new_limit : Z) : bool * streams :=
  if new_limit <=? ss_limit s then (false, s) else (true, mk_slimit new_limit (ss_opened s)).

(* src/src/transport/stream/flow/flow/streams.c : streams_may_open *)
Definition streams_may_open (s : streams) (index : Z) : bool := index <? ss_limit s.

(* src/src/transport/stream/flow/flow/streams.c : streams_opened *)
Definition streams_opened (s : streams) : streams := mk_slimit (ss_limit s) (u64 (ss_opened s + 1)).

(* src/src/transport/stream/flow/flow/streams.c : streams_observe *)
Definition streams_observe (s : streams) (index : Z) : streams :=
  let needed := u64 (index + 1) in
  if ss_opened s <? needed then mk_slimit (ss_limit s) needed else s.

(* src/src/transport/stream/flow/flow/stream_credit.h : stream_credit *)
Record stream_credit := mk_scredit { sc_max_streams : Z; sc_count : Z }.

(* src/src/transport/stream/flow/flow/stream_credit.c : stream_credit_init *)
Definition stream_credit_init (max_streams : Z) : stream_credit := mk_scredit max_streams 0.

(* src/src/transport/stream/flow/flow/stream_credit.c : stream_credit_open *)
Definition stream_credit_open (s : stream_credit) : bool * stream_credit :=
  if sc_max_streams s <=? sc_count s then (false, s)
  else (true, mk_scredit (sc_max_streams s) (u64 (sc_count s + 1))).

(* src/src/transport/stream/flow/flow/stream_credit.c : stream_credit_grant *)
Definition stream_credit_grant (s : stream_credit) (new_max : Z) : stream_credit :=
  if sc_max_streams s <? new_max then mk_scredit new_max (sc_count s) else s.

(* src/src/transport/stream/data/maxstreams/maxstreams.c : maxstreams_can_open *)
Definition maxstreams_can_open (opened max_streams : Z) : bool := opened <? max_streams.

(** The length written and the buffer; 0 on overflow. *)
(* src/src/transport/stream/data/maxstreams/maxstreams.c : maxstreams_frame *)
Definition maxstreams_frame (uni : bool) (max : Z) (out : obuf) : option (bool * obuf) :=
  '(n, p) ← max_streams_encode (op out) (FlowCtl.mk_streams max (if uni then 1 else 0));
  Some (if n =? 0 then (false, mk_obuf p (olen out)) else (true, mk_obuf p n)).

(* src/src/transport/stream/data/maxstreams/maxstreams.c : maxstreams_parse *)
Definition maxstreams_parse (inp : list Z) : res (Z * Z) :=
  match max_streams_decode inp with
  | Ok (f, n) => if n =? 0 then Fail else Ok (st_uni f, st_max_streams f)
  | Fail => Fail
  | Oob => Oob
  end.

(* src/src/transport/stream/data/maxstreams/maxstreams.c : maxstreams_blocked_frame *)
Definition maxstreams_blocked_frame (uni : bool) (limit : Z) (out : obuf) : option (bool * obuf) :=
  '(n, p) ← streams_blocked_encode (op out) (FlowCtl.mk_streams limit (if uni then 1 else 0));
  Some (if n =? 0 then (false, mk_obuf p (olen out)) else (true, mk_obuf p n)).

(** ** streamstate.c *)

(* src/src/transport/stream/data/stream/streamstate.c : locally_initiated *)
Definition locally_initiated (am_server : bool) (id : Z) : bool :=
  Bool.eqb am_server (negb (stream_is_client_initiated id)).

(* src/src/transport/stream/data/stream/streamstate.c : direction_ok *)
Definition direction_ok (am_server : bool) (id : Z) (needs_send : bool) : bool :=
  let other_is_client := am_server in
  if negb (stream_is_uni id) then true
  else if needs_send then stream_can_send other_is_client id else stream_can_receive other_is_client id.

(* src/src/transport/stream/data/stream/streamstate.c : creation_ok *)
Definition creation_ok (am_server : bool) (id : Z) (local_streams : streams) : bool :=
  if negb (locally_initiated am_server id) then true else Z.shiftr id 2 <? ss_opened local_streams.

(* src/src/transport/stream/data/stream/streamstate.c : streamstate_ok *)
Definition streamstate_ok (am_server : bool) (id : Z) (needs_send : bool) (local_streams : streams) : bool :=
  if negb (direction_ok am_server id needs_send) then false else creation_ok am_server id local_streams.

(** ** credit.c, stream_flow.c, dual_flow.c, flowviol.c *)

(* src/src/transport/stream/flow/flow/credit.h : flow_credit *)
Record flow_credit := mk_fcredit { fc_consumed : Z; fc_max_data : Z; fc_window : Z }.

(* src/src/transport/stream/flow/flow/credit.c : flow_credit_init *)
Definition flow_credit_init (initial_max : Z) : flow_credit := mk_fcredit 0 initial_max initial_max.

(* src/src/transport/stream/flow/flow/credit.c : flow_credit_consume *)
Definition flow_credit_consume (c : flow_credit) (n : Z) : Z * flow_credit :=
  let consumed := u64 (fc_consumed c + n) in
  let max_data := u64 (consumed + fc_window c) in
  (max_data, mk_fcredit consumed max_data (fc_window c)).

(* src/src/transport/stream/flow/flow/credit.c : flow_credit_violation *)
Definition flow_credit_violation (c : flow_credit) (received_total : Z) : bool := fc_max_data c <? received_total.

(* src/src/transport/stream/flow/flow/stream_flow.h : stream_flow *)
Record stream_flow := mk_sflow { sw_consumed : Z; sw_max_stream_data : Z; sw_window : Z }.

(* src/src/transport/stream/flow/flow/stream_flow.c : stream_flow_init *)
Definition stream_flow_init (window : Z) : stream_flow := mk_sflow 0 window window.

(* src/src/transport/stream/flow/flow/stream_flow.c : stream_flow_consume *)
Definition stream_flow_consume (s : stream_flow) (n : Z) : Z * stream_flow :=
  let consumed := u64 (sw_consumed s + n) in
  let m := u64 (consumed + sw_window s) in
  (m, mk_sflow consumed m (sw_window s)).

(* src/src/transport/stream/flow/flow/stream_flow.c : stream_flow_violation *)
Definition stream_flow_violation (received max_stream_data : Z) : bool := max_stream_data <? received.

(* src/src/transport/stream/flow/flow/dual_flow.h : flow_usage *)
Record flow_usage := mk_usage { fu_used : Z; fu_max : Z }.

(* src/src/transport/stream/flow/flow/dual_flow.c : dual_flow_ok *)
Definition dual_flow_ok (stream conn : flow_usage) : bool :=
  (fu_used stream <=? fu_max stream) && (fu_used conn <=? fu_max conn).

Definition EC_FLOW_CONTROL_ERROR : Z := 0x03.
Definition EC_STREAM_LIMIT_ERROR : Z := 0x04.

(* src/src/transport/stream/flow/flowviol/flowviol.c : data_violation *)
Definition data_violation (received_total max_data : Z) : bool :=
  flow_credit_violation (flow_credit_init max_data) received_total.

(* src/src/transport/stream/flow/flowviol/flowviol.c : stream_violation *)
Definition stream_violation (stream_count max_streams : Z) : bool :=
  let s := stream_credit_init max_streams in
  negb (stream_credit_open (mk_scredit (sc_max_streams s) stream_count)).1.

(** The error to close with, if any. *)
(* src/src/transport/stream/flow/flowviol/flowviol.c : flowviol_check *)
Definition flowviol_check (data streams : flow_usage) : option Z :=
  if data_violation (fu_used data) (fu_max data) then Some EC_FLOW_CONTROL_ERROR
  else if stream_violation (fu_used streams) (fu_max streams) then Some EC_STREAM_LIMIT_ERROR
  else None.

(* src/src/transport/stream/flow/flowviol/closeframe.h : flowviol_err *)
Record flowviol_err := mk_verr { ve_error_code : Z; ve_frame_type : Z; ve_reason : list Z }.

(* src/src/transport/stream/flow/flowviol/closeframe.c : flowviol_close_frame *)
Definition flowviol_close_frame (e : flowviol_err) (out : obuf) : option (bool * obuf) :=
  let f := mk_cc 0 (ve_error_code e) (ve_frame_type e) (zlen (ve_reason e)) (ve_reason e) in
  '(n, p) ← frame_put_conn_close (op out) f;
  Some (if n =? 0 then (false, mk_obuf p (olen out)) else (true, mk_obuf p n)).

(* src/src/transport/stream/data/appdata/stream_send.c : appdata_stream_frame *)
Definition appdata_stream_frame (f : stream_frame) (out : obuf) : option (bool * obuf) :=
  '(n, p) ← frame_put_stream (op out) f;
  Some (if n =? 0 then (false, mk_obuf p (olen out)) else (true, mk_obuf p n)).

(** ** finalsize.c *)

(* src/src/transport/stream/flow/flow/finalsize.h : finalsize *)
Record finalsize := mk_final { fs_highest : Z; fs_final_size : Z; fs_known : Z }.

(* src/src/transport/stream/flow/flow/finalsize.c : finalsize_init *)
Definition finalsize_init : finalsize := mk_final 0 0 0.

(* src/src/transport/stream/flow/flow/finalsize.c : note_highest *)
Definition note_highest (f : finalsize) (offset len : Z) : Z * finalsize :=
  let end_ := u64 (offset + len) in
  (end_, if fs_highest f <? end_ then mk_final end_ (fs_final_size f) (fs_known f) else f).

(* src/src/transport/stream/flow/flow/finalsize.c : finalsize_data *)
Definition finalsize_data (f : finalsize) (offset len : Z) : bool * finalsize :=
  let '(end_, f) := note_highest f offset len in
  (if fs_known f =? 0 then true else end_ <=? fs_final_size f, f).

(* src/src/transport/stream/flow/flow/finalsize.c : size_consistent *)
Definition size_consistent (f : finalsize) (size : Z) : bool :=
  if negb (fs_known f =? 0) then size =? fs_final_size f else fs_highest f <=? size.

(* src/src/transport/stream/flow/flow/finalsize.c : finalsize_set *)
Definition finalsize_set (f : finalsize) (size : Z) : bool * finalsize :=
  if negb (size_consistent f size) then (false, f) else (true, mk_final (fs_highest f) size 1).

(** ** Stream identifiers *)

Lemma client_bit id : stream_is_client_initiated id = negb (Z.testbit id 0).
Proof. apply (land_bit id 0). lia. Qed.
Lemma uni_bit id : stream_is_uni id = Z.testbit id 1.
Proof. unfold stream_is_uni, STREAM_DIR_BIT. change 0x2 with (2 ^ 1). rewrite land_bit by lia. apply negb_involutive. Qed.

(** The id as a number: four times the index plus the type. *)
Lemma stream_id_val s u index :
  0 <= index < 4611686018427387904 -> stream_id s u index = 4 * index + (if s then 1 else 0) + (if u then 2 else 0).
Proof.
  intros Hi. unfold stream_id. rewrite u64_small by (rewrite Z.shiftl_mul_pow2 by lia; change (2 ^ 2) with 4; lia).
  rewrite (lor_shiftl index 2) by (try lia; destruct s, u; vm_compute; split; congruence).
  change (2 ^ 2) with 4. destruct s, u; [change (Z.lor STREAM_INITIATOR_BIT STREAM_DIR_BIT) with 3
    |change (Z.lor STREAM_INITIATOR_BIT 0) with 1|change (Z.lor 0 STREAM_DIR_BIT) with 2|change (Z.lor 0 0) with 0]; lia.
Qed.

Lemma stream_id_bits s u index :
  0 <= index < 4611686018427387904 ->
  stream_is_client_initiated (stream_id s u index) = negb s /\ stream_is_uni (stream_id s u index) = u /\
  Z.shiftr (stream_id s u index) 2 = index.
Proof.
  intros Hi. rewrite client_bit, uni_bit, Z.shiftr_div_pow2, stream_id_val by lia. change (2 ^ 2) with 4.
  rewrite Z.testbit_odd, Z.shiftr_0_r, Z.testbit_odd, Z.shiftr_div_pow2 by lia. change (2 ^ 1) with 2.
  assert ((4 * index + (if s then 1 else 0) + (if u then 2 else 0)) / 2 = 2 * index + (if u then 1 else 0)) as ->.
  { symmetry. apply (Z.div_unique_pos _ _ _ (if s then 1 else 0)); destruct s, u; lia. }
  split_and!.
  - replace (4 * index + _ + _) with ((if s then 1 else 0) + 2 * (2 * index + (if u then 1 else 0))) by (destruct s, u; lia).
    rewrite Z.odd_add_mul_2. by destruct s.
  - rewrite Z.add_comm, Z.odd_add_mul_2. by destruct u.
  - symmetry. apply (Z.div_unique_pos _ _ _ ((if s then 1 else 0) + (if u then 2 else 0))); destruct s, u; lia.
Qed.

Lemma stream_id_of id :
  is_u64 id -> id = stream_id (negb (stream_is_client_initiated id)) (stream_is_uni id) (Z.shiftr id 2).
Proof.
  intros Hid. unfold is_u64 in Hid. rewrite client_bit, uni_bit, negb_involutive.
  rewrite Z.shiftr_div_pow2 by lia. change (2 ^ 2) with 4. rewrite stream_id_val by (split; [apply Z.div_pos|apply Z.div_lt_upper_bound]; lia).
  rewrite !(Z.testbit_odd id), Z.shiftr_0_r, Z.shiftr_div_pow2 by lia. change (2 ^ 1) with 2.
  pose proof (Z.div_mod id 2 ltac:(lia)) as H1. pose proof (Z.div_mod (id / 2) 2 ltac:(lia)) as H2.
  rewrite Zmod_odd in H1, H2. rewrite Z.div_div in H2 by lia. change (2 * 2) with 4 in H2.
  destruct (Z.odd id), (Z.odd (id / 2)); lia.
Qed.

(** Stream identifiers (RFC 9000 2.1, 3.2, 4.6).  [stream_id] numbers the
    four stream types without overlap and without a gap: the initiator, the
    direction and the index of every 62-bit id are read back exactly.  A limit
    of [n] streams permits exactly the ids of index below [n] up to
    [stream_max_id].  Whatever the stream, one endpoint may send exactly when
    the other may receive, and a frame is legal in a stream's state exactly
    when the direction allows it and a locally initiated stream was opened. *)
Theorem stream_ids_partition (id : Z) (k : stream_kind) (n index : Z) (am_client needs_send : bool) (l : streams) :
  is_u64 id -> 0 <= index < 4611686018427387904 -> 0 <= n ->
  let sid := stream_id (sk_is_server k) (sk_is_uni k) in
  id = stream_id (negb (stream_is_client_initiated id)) (stream_is_uni id) (Z.shiftr id 2) /\
  stream_is_client_initiated (sid index) = negb (sk_is_server k) /\ stream_is_uni (sid index) = sk_is_uni k /\
  Z.shiftr (sid index) 2 = index /\
  (forall m, stream_max_id k n = Some m -> m <= VARINT_MAX /\
     (sid index <= m <-> streams_may_open (mk_slimit n 0) index = true)) /\
  (stream_max_id k n = None <-> n = 0 \/ MAX_STREAMS_LIMIT < n) /\
  stream_can_send am_client id = stream_can_receive (negb am_client) id /\
  (streamstate_ok (negb am_client) id needs_send l = true <->
     (stream_is_uni id = true -> Bool.eqb needs_send (Bool.eqb (negb am_client) (stream_is_client_initiated id)) = true) /\
     (stream_is_client_initiated id = am_client -> Z.shiftr id 2 < ss_opened l)).
Proof.
  intros Hid Hi Hn sid. destruct (stream_id_bits (sk_is_server k) (sk_is_uni k) index Hi) as (H1 & H2 & H3).
  split; [by apply stream_id_of|]. split; [done|]. split; [done|]. split; [done|]. split; [|split; [|split]].
  - intros m Hm. unfold stream_max_id, stream_max_streams_ok in Hm. bcase in Hm; [done|]. bcase in Hm; [done|].
    injection Hm as <-. unfold MAX_STREAMS_LIMIT in *. subst sid. rewrite !stream_id_val by lia. unfold VARINT_MAX, streams_may_open. cbn [ss_limit].
    rewrite Z.ltb_lt. destruct (sk_is_server k), (sk_is_uni k); lia.
  - unfold stream_max_id, stream_max_streams_ok. destruct (n =? 0) eqn:E1; [split; [left; lia|done]|].
    destruct (n <=? MAX_STREAMS_LIMIT) eqn:E2; cbn [negb]; split; try done; try lia.
  - unfold stream_can_send, stream_can_receive, am_initiator. destruct (stream_is_uni id); [|done]. cbn [negb].
    by destruct am_client, (stream_is_client_initiated id).
  - unfold streamstate_ok, direction_ok, creation_ok, locally_initiated, stream_can_send, stream_can_receive, am_initiator.
    destruct (stream_is_uni id), needs_send, am_client, (stream_is_client_initiated id); cbn [negb Bool.eqb]; rewrite ?Z.ltb_lt;
      intuition (try congruence).
Qed.

Lemma stream_ids_partition_witness :
  stream_max_id (mk_kind true true) 3 = Some 11 /\ 11 <= VARINT_MAX /\
  (stream_id true true 2 <= 11 <-> streams_may_open (mk_slimit 3 0) 2 = true).
Proof.
  destruct (stream_ids_partition 11 (mk_kind true true) 3 2 true true (mk_slimit 3 3)) as (_ & _ & _ & _ & H & _);
    [unfold is_u64; lia|lia|lia|]. split; [reflexivity|]. apply (H 11). reflexivity.
Defined.

(** ** Final sizes *)

Inductive fs_event := FsData (offset len : Z) | FsSet (size : Z).

Definition fs_step (f : finalsize) (e : fs_event) : bool * finalsize :=
  match e with FsData off len => finalsize_data f off len | FsSet size => finalsize_set f size end.

(** Every event is accepted. *)
Fixpoint fs_accepted (f : finalsize) (es : list fs_event) : bool :=
  match es with [] => true | e :: es' => let '(ok, f') := fs_step f e in ok && fs_accepted f' es' end.

(** No two events contradict each other. *)
Definition fs_consistent (es : list fs_event) : Prop :=
  (forall off len s, FsData off len ∈ es -> FsSet s ∈ es -> off + len <= s) /\
  (forall s s', FsSet s ∈ es -> FsSet s' ∈ es -> s = s').

Definition fs_event_ok (e : fs_event) : Prop :=
  match e with FsData off len => 0 <= off /\ 0 <= len /\ off + len < 18446744073709551616 | FsSet s => 0 <= s end.

Record fs_inv (h : list fs_event) (f : finalsize) : Prop := {
  fi_set : forall s, FsSet s ∈ h -> fs_known f <> 0 /\ fs_final_size f = s;
  fi_known : fs_known f <> 0 -> FsSet (fs_final_size f) ∈ h;
  fi_high : forall off len, FsData off len ∈ h -> off + len <= fs_highest f;
  fi_top : fs_highest f = 0 \/ exists off len, FsData off len ∈ h /\ off + len = fs_highest f;
  fi_ok : fs_consistent h }.

Lemma snoc_elem {A} (x y : A) l : x ∈ l ++ [y] <-> x ∈ l \/ x = y.
Proof. by rewrite elem_of_app, list_elem_of_singleton. Qed.

Lemma consistent_prefix h es : fs_consistent (h ++ es) -> fs_consistent h.
Proof. intros [H1 H2]. split; [intros off len s|intros s s']; intros; [eapply H1|eapply H2]; rewrite elem_of_app; eauto. Qed.

Lemma fs_step_inv h f e :
  fs_inv h f -> fs_event_ok e ->
  ((fs_step f e).1 = true <-> fs_consistent (h ++ [e])) /\ ((fs_step f e).1 = true -> fs_inv (h ++ [e]) (fs_step f e).2).
Proof.
  intros [Hs Hk Hh Ht [Hc1 Hc2]] He. destruct e as [off len|s]; cbn [fs_step fs_event_ok] in *.
  - unfold finalsize_data, note_highest. rewrite (u64_small (off + len)) by lia. set (f' := if _ <? _ then _ else _).
    assert (fs_known f' = fs_known f /\ fs_final_size f' = fs_final_size f /\ fs_highest f' = Z.max (fs_highest f) (off + len)) as (E1 & E2 & E3)
      by (subst f'; bcase; cbn; lia).
    rewrite E1, E2. cbn [fst snd]. assert ((if fs_known f =? 0 then true else off + len <=? fs_final_size f) = true <-> fs_consistent (h ++ [FsData off len])) as Hiff.
    { destruct (fs_known f =? 0) eqn:E.
      - split; [intros _|done]. assert (forall s, FsSet s ∈ h ++ [FsData off len] -> False) as Hno.
        { intros s [Hi|?]%snoc_elem; [|done]. apply Hs in Hi. lia. }
        split; [intros ? ? s _ Hi|intros s s' Hi]; by apply Hno in Hi.
      - rewrite Z.leb_le. split.
        + intros Hle. split.
          * intros o l s [Hd|Hd]%snoc_elem [Hi|?]%snoc_elem; try done; [by eapply Hc1|]. simplify_eq. apply Hs in Hi as [_ <-]. done.
          * intros s s' [Hi|?]%snoc_elem [Hi'|?]%snoc_elem; try done. by apply Hc2.
        + intros [Hd _]. apply (Hd off len); apply snoc_elem; [by right|left]. apply Hk. lia. }
    split; [done|]. intros Hacc. pose proof (proj1 Hiff Hacc) as Hcons. split; [| | | |done].
    + intros s [Hi|?]%snoc_elem; [rewrite E1, E2; by apply Hs|done].
    + rewrite E1, E2. intros Hn. apply snoc_elem. left. by apply Hk.
    + rewrite E3. intros o l [Hd|Hd]%snoc_elem; [apply Hh in Hd; lia|simplify_eq; lia].
    + rewrite E3. destruct (decide (fs_highest f < off + len)).
      * right. exists off, len. split; [apply snoc_elem; by right|lia].
      * destruct Ht as [Ht|(o & l & Hd & Ht)]; [left; lia|right]. exists o, l. split; [apply snoc_elem; by left|lia].
  - unfold finalsize_set. assert (size_consistent f s = true <-> fs_consistent (h ++ [FsSet s])) as Hiff.
    { unfold size_consistent. destruct (fs_known f =? 0) eqn:E; cbn [negb].
      - assert (forall x, FsSet x ∈ h -> False) as Hno by (intros x Hi; apply Hs in Hi; lia). rewrite Z.leb_le. split.
        + intros Hle. split.
          * intros o l x [Hd|?]%snoc_elem [Hi|Hi]%snoc_elem; try done; [by apply Hno in Hi|]. simplify_eq. apply Hh in Hd. lia.
          * intros x x' [Hi|Hi]%snoc_elem [Hi'|Hi']%snoc_elem; try (by apply Hno in Hi); try (by apply Hno in Hi'). congruence.
        + intros [Hd _]. destruct Ht as [Ht|(o & l & Hdd & Ht)]; [lia|]. rewrite <- Ht. apply (Hd o l); apply snoc_elem; [by left|by right].
      - assert (FsSet (fs_final_size f) ∈ h) as Hf by (apply Hk; lia). rewrite Z.eqb_eq. split.
        + intros ->. split.
          * intros o l x [Hd|?]%snoc_elem [Hi|Hi]%snoc_elem; try done; [by eapply Hc1|]. simplify_eq. by eapply Hc1.
          * intros x x' [Hi|Hi]%snoc_elem [Hi'|Hi']%snoc_elem; simplify_eq; try done; by apply Hc2.
        + intros [_ Hd]. apply Hd; apply snoc_elem; [by right|by left]. }
    destruct (size_consistent f s) eqn:E; cbn [negb fst snd].
    2: { split; [|done]. split; [done|]. intros Hc. by apply Hiff in Hc. }
    pose proof (proj1 Hiff eq_refl) as Hcons. split; [done|]. intros _. split; cbn [fs_known fs_final_size fs_highest]; [| | | |done].
    + intros x [Hi|Hi]%snoc_elem; [|simplify_eq; done]. split; [done|]. destruct Hcons as [_ Hd]. apply Hd; apply snoc_elem; [by right|by left].
    + intros _. apply snoc_elem. by right.
    + intros o l [Hd|?]%snoc_elem; [by apply Hh|done].
    + destruct Ht as [Ht|(o & l & Hd & Ht)]; [by left|right]. exists o, l. split; [apply snoc_elem; by left|done].
Qed.

Lemma fs_accepted_iff es : forall h f,
  fs_inv h f -> Forall fs_event_ok es -> fs_accepted f es = true <-> fs_consistent (h ++ es).
Proof.
  induction es as [|e es IH]; intros h f Hf Hes; cbn [fs_accepted].
  { rewrite app_nil_r. split; [intros _; apply Hf|done]. }
  apply Forall_cons_1 in Hes as [He Hes]. destruct (fs_step_inv h f e Hf He) as [Hiff Hnext].
  destruct (fs_step f e) as [ok f']. cbn [fst snd] in *. rewrite (cons_middle e), app_assoc. split.
  - intros [Hok Hrest]%andb_true_iff. apply (IH (h ++ [e]) f'); auto.
  - intros Hc. pose proof (consistent_prefix _ _ Hc) as Hp. apply Hiff in Hp as Hok. rewrite Hok. cbn [andb].
    apply (IH (h ++ [e]) f'); auto.
Qed.

(** Final sizes (RFC 9000 4.5).  Over any sequence of data segments and
    final sizes (from FIN bits or RESET_STREAM frames), in any order, the
    checks of finalsize.c accept all of them exactly when no two final sizes
    differ and no data lies beyond a final size: no contradiction goes
    unnoticed whichever arrives first, and no legal sequence is refused. *)
Theorem final_size_consistency (es : list fs_event) :
  Forall fs_event_ok es -> fs_accepted finalsize_init es = true <-> fs_consistent es.
Proof.
  intros Hes. apply (fs_accepted_iff es [] finalsize_init); [|done].
  split; cbn; try (by intros ? ?%elem_of_nil); try (by intros ? ? ?%elem_of_nil); try done; [by left|].
  split; [intros ? ? ? H|intros ? ? H]; by apply elem_of_nil in H.
Qed.

Lemma final_size_consistency_witness :
  fs_accepted finalsize_init [FsData 0 10; FsSet 25; FsData 20 5; FsSet 25] = true /\
  (fs_accepted finalsize_init [FsData 0 10; FsSet 25; FsData 20 6] = true <-> fs_consistent [FsData 0 10; FsSet 25; FsData 20 6]).
Proof. split; [reflexivity|]. apply final_size_consistency. repeat constructor; cbn; lia. Defined.
