(* ===== verification/Pmtu.v ===== *)
(** * Path MTU discovery

    src/src/transport/conn/cid/pmtu/pmtu.c (RFC 8899 DPLPMTUD).  The size
    bounds are proved invariant under every operation, and the search is
    proved to complete after at most twelve probe outcomes. *)

From stdpp Require Import base numbers list option.
From Stdlib Require Import ZArith Lia.
From S2P Require Import Prelude Bytes.

(* src/src/transport/conn/cid/pmtu/pmtu.h : PMTU_BASE *)
Definition PMTU_BASE : Z := 1200.
(* src/src/transport/conn/cid/pmtu/pmtu.h : PMTU_MAX *)
Definition PMTU_MAX : Z := 1452.
(* src/src/transport/conn/cid/pmtu/pmtu.h : PMTU_STEP *)
Definition PMTU_STEP : Z := 64.
(* src/src/transport/conn/cid/pmtu/pmtu.h : PMTU_MAX_PROBES *)
Definition PMTU_MAX_PROBES : Z := 3.
(* src/src/transport/conn/cid/pmtu/pmtu.h : PMTU_PROBE_TIMER_US *)
Definition PMTU_PROBE_TIMER_US : Z := 20000000.
(* src/src/transport/conn/cid/pmtu/pmtu.h : PMTU_RAISE_TIMER_US *)
Definition PMTU_RAISE_TIMER_US : Z := 600000000.
(* src/src/transport/conn/cid/pmtu/pmtu.h : PMTU_OVERHEAD *)
Definition PMTU_OVERHEAD : Z := 41.

(* src/src/transport/conn/cid/pmtu/pmtu.h : PMTU_PHASE_DISABLED *)
Definition PMTU_PHASE_DISABLED : Z := 0.
(* src/src/transport/conn/cid/pmtu/pmtu.h : PMTU_PHASE_BASE *)
Definition PMTU_PHASE_BASE : Z := 1.
(* src/src/transport/conn/cid/pmtu/pmtu.h : PMTU_PHASE_SEARCHING *)
Definition PMTU_PHASE_SEARCHING : Z := 2.
(* src/src/transport/conn/cid/pmtu/pmtu.h : PMTU_PHASE_COMPLETE *)
Definition PMTU_PHASE_COMPLETE : Z := 3.
(* src/src/transport/conn/cid/pmtu/pmtu.h : PMTU_PHASE_ERROR *)
Definition PMTU_PHASE_ERROR : Z := 4.

(* src/src/transport/conn/cid/pmtu/pmtu.h : pmtu *)
Record pmtu := mk_pmtu {
  pm_validated : Z; pm_probe : Z; pm_ceiling : Z; pm_lost : Z; pm_max : Z; pm_phase : Z;
  pm_probe_count : Z; pm_big_lost : Z; pm_big_acked_pn : Z; pm_probe_sent_at : Z; pm_complete_at : Z }.

(* src/src/transport/conn/cid/pmtu/pmtu.c : pmtu_init *)
Definition pmtu_init : pmtu := mk_pmtu PMTU_BASE 0 PMTU_MAX 0 PMTU_MAX PMTU_PHASE_SEARCHING 0 0 0 0 0.

(* src/src/transport/conn/cid/pmtu/pmtu.c : pmtu_set_max *)
Definition pmtu_set_max (p : pmtu) (max : Z) : pmtu :=
  let m := u64_min (u64_max max PMTU_BASE) PMTU_MAX in
  mk_pmtu (pm_validated p) (pm_probe p) (u64_min (pm_ceiling p) m) (pm_lost p) m (pm_phase p) (pm_probe_count p)
    (pm_big_lost p) (pm_big_acked_pn p) (pm_probe_sent_at p) (pm_complete_at p).

(* src/src/transport/conn/cid/pmtu/pmtu.c : candidate *)
Definition candidate (p : pmtu) : Z := u64_min (u64 (pm_validated p + PMTU_STEP)) (pm_ceiling p).

(* src/src/transport/conn/cid/pmtu/pmtu.c : pmtu_viable *)
Definition pmtu_viable (p : pmtu) (next : Z) : bool := (pm_validated p <? next) && negb (next =? pm_lost p).

(* src/src/transport/conn/cid/pmtu/pmtu.c : pmtu_offer *)
Definition pmtu_offer (p : pmtu) (size now : Z) : Z * pmtu :=
  (size, mk_pmtu (pm_validated p) size (pm_ceiling p) (pm_lost p) (pm_max p) (pm_phase p) (pm_probe_count p)
           (pm_big_lost p) (pm_big_acked_pn p) now (pm_complete_at p)).

(* src/src/transport/conn/cid/pmtu/pmtu.c : pmtu_next_none *)
Definition pmtu_next_none (p : pmtu) (now : Z) : Z * pmtu := (0, p).

(* src/src/transport/conn/cid/pmtu/pmtu.c : pmtu_next_base *)
Definition pmtu_next_base (p : pmtu) (now : Z) : Z * pmtu := pmtu_offer p PMTU_BASE now.

(* src/src/transport/conn/cid/pmtu/pmtu.c : pmtu_next_search *)
Definition pmtu_next_search (p : pmtu) (now : Z) : Z * pmtu :=
  let next := candidate p in
  if negb (pmtu_viable p next) then
    (0, mk_pmtu (pm_validated p) (pm_probe p) (pm_ceiling p) (pm_lost p) (pm_max p) PMTU_PHASE_COMPLETE
          (pm_probe_count p) (pm_big_lost p) (pm_big_acked_pn p) (pm_probe_sent_at p) now)
  else pmtu_offer p next now.

(* src/src/transport/conn/cid/pmtu/pmtu.c : pmtu_next_by_phase@69-71 *)
Definition pmtu_next_by_phase : list (pmtu -> Z -> Z * pmtu) :=
  [pmtu_next_none; pmtu_next_base; pmtu_next_search; pmtu_next_none; pmtu_next_base].

(* src/src/transport/conn/cid/pmtu/pmtu.c : pmtu_next_probe *)
Definition pmtu_next_probe (p : pmtu) (now : Z) : option (Z * pmtu) :=
  f ← load pmtu_next_by_phase (pm_phase p); Some (f p now).

(* src/src/transport/conn/cid/pmtu/pmtu.c : pmtu_ack_next *)
Definition pmtu_ack_next : list Z :=
  [PMTU_PHASE_DISABLED; PMTU_PHASE_SEARCHING; PMTU_PHASE_SEARCHING; PMTU_PHASE_COMPLETE; PMTU_PHASE_SEARCHING].

(* src/src/transport/conn/cid/pmtu/pmtu.c : pmtu_on_ack *)
Definition pmtu_on_ack (p : pmtu) (size : Z) : option pmtu :=
  ph ← load pmtu_ack_next (pm_phase p);
  Some (mk_pmtu (u64_max (pm_validated p) size) 0 (pm_ceiling p) (pm_lost p) (pm_max p) ph 0
          (pm_big_lost p) (pm_big_acked_pn p) 0 (pm_complete_at p)).

(* src/src/transport/conn/cid/pmtu/pmtu.c : pmtu_black_hole *)
Definition pmtu_black_hole (p : pmtu) (size : Z) : pmtu :=
  mk_pmtu PMTU_BASE 0 size size (pm_max p) PMTU_PHASE_BASE 0 0 (pm_big_acked_pn p) 0 (pm_complete_at p).

(* src/src/transport/conn/cid/pmtu/pmtu.c : pmtu_verdict_none *)
Definition pmtu_verdict_none (p : pmtu) (size : Z) : pmtu := p.

(* src/src/transport/conn/cid/pmtu/pmtu.c : pmtu_verdict_base *)
Definition pmtu_verdict_base (p : pmtu) (size : Z) : pmtu :=
  mk_pmtu (pm_validated p) (pm_probe p) (pm_ceiling p) (pm_lost p) (pm_max p) PMTU_PHASE_ERROR (pm_probe_count p)
    (pm_big_lost p) (pm_big_acked_pn p) (pm_probe_sent_at p) (pm_complete_at p).

(* src/src/transport/conn/cid/pmtu/pmtu.c : pmtu_verdict_search *)
Definition pmtu_verdict_search (p : pmtu) (size : Z) : pmtu :=
  if size =? pm_validated p then pmtu_black_hole p size
  else mk_pmtu (pm_validated p) (pm_probe p) (u64_min (pm_ceiling p) size) size (pm_max p) (pm_phase p)
         (pm_probe_count p) (pm_big_lost p) (pm_big_acked_pn p) (pm_probe_sent_at p) (pm_complete_at p).

(* src/src/transport/conn/cid/pmtu/pmtu.c : pmtu_verdict_by_phase@130-132 *)
Definition pmtu_verdict_by_phase : list (pmtu -> Z -> pmtu) :=
  [pmtu_verdict_none; pmtu_verdict_base; pmtu_verdict_search; pmtu_verdict_search; pmtu_verdict_none].

Definition set_count (p : pmtu) (n : Z) : pmtu :=
  mk_pmtu (pm_validated p) 0 (pm_ceiling p) (pm_lost p) (pm_max p) (pm_phase p) n
    (pm_big_lost p) (pm_big_acked_pn p) 0 (pm_complete_at p).

(* src/src/transport/conn/cid/pmtu/pmtu.c : pmtu_on_loss *)
Definition pmtu_on_loss (p : pmtu) (size : Z) : option pmtu :=
  let n := pm_probe_count p + 1 in
  if n <? PMTU_MAX_PROBES then Some (set_count p n)
  else v ← load pmtu_verdict_by_phase (pm_phase p); Some (v (set_count p 0) size).

(* src/src/transport/conn/cid/pmtu/pmtu.c : pmtu_on_big_ack *)
Definition pmtu_on_big_ack (p : pmtu) (pn : Z) : pmtu :=
  if pn <? pm_big_acked_pn p then p
  else mk_pmtu (pm_validated p) (pm_probe p) (pm_ceiling p) (pm_lost p) (pm_max p) (pm_phase p) (pm_probe_count p)
         0 pn (pm_probe_sent_at p) (pm_complete_at p).

(* src/src/transport/conn/cid/pmtu/pmtu.c : pmtu_big_suspect *)
Definition pmtu_big_suspect (p : pmtu) (pn : Z) : bool := pm_big_acked_pn p <? pn.

(* src/src/transport/conn/cid/pmtu/pmtu.c : pmtu_big_phase *)
Definition pmtu_big_phase (p : pmtu) : bool :=
  (pm_phase p =? PMTU_PHASE_SEARCHING) || (pm_phase p =? PMTU_PHASE_COMPLETE).

(* src/src/transport/conn/cid/pmtu/pmtu.c : pmtu_big_watched *)
Definition pmtu_big_watched (p : pmtu) (n : Z) : bool :=
  negb (n =? 0) && pmtu_big_phase p && (PMTU_BASE <? pm_validated p).

(** Conversion of a [usz] to a 32-bit [int]; a signed sum out of range is a fault. *)
Definition to_int (n : Z) : Z := (n + 2147483648) mod 4294967296 - 2147483648.

(* src/src/transport/conn/cid/pmtu/pmtu.c : pmtu_on_big_losses *)
Definition pmtu_on_big_losses (p : pmtu) (n : Z) : option pmtu :=
  if negb (pmtu_big_watched p n) then Some p
  else
    let lost := pm_big_lost p + to_int n in
    if (lost <? -2147483648) || (2147483647 <? lost) then None
    else
      let p := mk_pmtu (pm_validated p) (pm_probe p) (pm_ceiling p) (pm_lost p) (pm_max p) (pm_phase p)
                 (pm_probe_count p) lost (pm_big_acked_pn p) (pm_probe_sent_at p) (pm_complete_at p) in
      Some (if PMTU_MAX_PROBES <=? lost then pmtu_black_hole p (pm_validated p) else p).

(* src/src/transport/conn/cid/pmtu/pmtu.c : pmtu_halted *)
Definition pmtu_halted (p : pmtu) : bool := pm_phase p =? PMTU_PHASE_ERROR.

(* src/src/transport/conn/cid/pmtu/pmtu.c : pmtu_mps *)
Definition pmtu_mps (p : pmtu) : Z := u64 (pm_validated p - PMTU_OVERHEAD).

(* src/src/transport/conn/cid/pmtu/pmtu.c : pmtu_probe_timer_due *)
Definition pmtu_probe_timer_due (p : pmtu) (now : Z) : bool :=
  if pm_probe p =? 0 then false else PMTU_PROBE_TIMER_US <=? u64 (now - pm_probe_sent_at p).

(* src/src/transport/conn/cid/pmtu/pmtu.c : pmtu_raise_timer_due *)
Definition pmtu_raise_timer_due (p : pmtu) (now : Z) : bool :=
  if negb (pm_phase p =? PMTU_PHASE_COMPLETE) then false else PMTU_RAISE_TIMER_US <=? u64 (now - pm_complete_at p).

(* src/src/transport/conn/cid/pmtu/pmtu.c : pmtu_resume_search *)
Definition pmtu_resume_search (p : pmtu) : pmtu :=
  mk_pmtu (pm_validated p) (pm_probe p) (pm_max p) 0 (pm_max p) PMTU_PHASE_SEARCHING 0
    (pm_big_lost p) (pm_big_acked_pn p) (pm_probe_sent_at p) 0.

(** ** The state space *)

(** The events of a connection: a probe is sent when none is outstanding, and
    a verdict on the outstanding probe is the acknowledgement or the loss of
    its size. *)
Inductive pm_event :=
  | PmProbe (now : Z) | PmAck | PmLoss | PmSetMax (max : Z) | PmBigAck (pn : Z) | PmBigLosses (n : Z) | PmResume.

Definition pm_step (p : pmtu) (e : pm_event) : option pmtu :=
  match e with
  | PmProbe now => '(_, p') ← pmtu_next_probe p now; Some p'
  | PmAck => if pm_probe p =? 0 then Some p else pmtu_on_ack p (pm_probe p)
  | PmLoss => if pm_probe p =? 0 then Some p else pmtu_on_loss p (pm_probe p)
  | PmSetMax max => Some (pmtu_set_max p max)
  | PmBigAck pn => Some (pmtu_on_big_ack p pn)
  | PmBigLosses n => pmtu_on_big_losses p n
  | PmResume => Some (if pm_phase p =? PMTU_PHASE_COMPLETE then pmtu_resume_search p else p)
  end.

Fixpoint pm_run (p : pmtu) (es : list pm_event) : option pmtu :=
  match es with [] => Some p | e :: es' => p' ← pm_step p e; pm_run p' es' end.

Record pm_inv (p : pmtu) : Prop := {
  pi_validated : PMTU_BASE <= pm_validated p <= PMTU_MAX;
  pi_ceiling : PMTU_BASE <= pm_ceiling p <= PMTU_MAX;
  pi_max : PMTU_BASE <= pm_max p <= PMTU_MAX;
  pi_probe : pm_probe p = 0 \/ PMTU_BASE <= pm_probe p <= PMTU_MAX;
  pi_phase : 0 <= pm_phase p <= 4;
  pi_count : 0 <= pm_probe_count p < PMTU_MAX_PROBES;
  pi_big : 0 <= pm_big_lost p < PMTU_MAX_PROBES }.

(** A batch of lost packets is counted in an [int]. *)
Definition pm_event_ok (e : pm_event) : Prop :=
  match e with PmBigLosses n => 0 <= n < 2147483645 | _ => True end.

Ltac pm_unfold := unfold PMTU_BASE, PMTU_MAX, PMTU_STEP, PMTU_MAX_PROBES, PMTU_PHASE_SEARCHING, PMTU_PHASE_BASE,
  PMTU_PHASE_COMPLETE, PMTU_PHASE_ERROR, PMTU_PHASE_DISABLED in *.

Lemma candidate_val p : pm_inv p -> candidate p = Z.min (pm_validated p + PMTU_STEP) (pm_ceiling p).
Proof.
  intros Hp. pose proof (pi_validated p Hp). pm_unfold. unfold candidate, PMTU_STEP. rewrite u64_min_spec, u64_small; lia.
Qed.

Lemma phase_cases p : pm_inv p ->
  pm_phase p = 0 \/ pm_phase p = 1 \/ pm_phase p = 2 \/ pm_phase p = 3 \/ pm_phase p = 4.
Proof. intros Hp. pose proof (pi_phase p Hp). lia. Qed.

(** The function tables, indexed by a phase in range. *)
Lemma next_probe_eq p now :
  pm_inv p -> pmtu_next_probe p now =
    Some ((if pm_phase p =? 2 then pmtu_next_search
           else if (pm_phase p =? 1) || (pm_phase p =? 4) then pmtu_next_base else pmtu_next_none) p now).
Proof. intros Hp. unfold pmtu_next_probe. destruct (phase_cases p Hp) as [E|[E|[E|[E|E]]]]; rewrite E; reflexivity. Qed.

Lemma ack_phase_eq p :
  pm_inv p -> load pmtu_ack_next (pm_phase p) =
    Some (if (pm_phase p =? 1) || (pm_phase p =? 4) then PMTU_PHASE_SEARCHING else pm_phase p).
Proof. intros Hp. destruct (phase_cases p Hp) as [E|[E|[E|[E|E]]]]; rewrite E; reflexivity. Qed.

Lemma verdict_eq p :
  pm_inv p -> load pmtu_verdict_by_phase (pm_phase p) =
    Some (if pm_phase p =? 1 then pmtu_verdict_base
          else if (pm_phase p =? 2) || (pm_phase p =? 3) then pmtu_verdict_search else pmtu_verdict_none).
Proof. intros Hp. destruct (phase_cases p Hp) as [E|[E|[E|[E|E]]]]; rewrite E; reflexivity. Qed.

Lemma offer_inv p s now : pm_inv p -> PMTU_BASE <= s <= PMTU_MAX -> pm_inv (pmtu_offer p s now).2.
Proof. intros [H1 H2 H3 H4 H5 H6 H7] Hs. split; cbn; auto. Qed.

Lemma next_probe_inv p now : pm_inv p -> exists s p', pmtu_next_probe p now = Some (s, p') /\ pm_inv p'.
Proof.
  intros Hp. rewrite next_probe_eq by done. rewrite (surjective_pairing (_ p now)). do 2 eexists. split; [reflexivity|].
  pose proof (candidate_val p Hp) as Hc. pose proof Hp as [H1 H2 H3 H4 H5 H6 H7].
  destruct (pm_phase p =? 2); [|destruct (_ || _); [|done]].
  - unfold pmtu_next_search. destruct (pmtu_viable p (candidate p)) eqn:Ev; cbn [negb].
    + apply offer_inv; [done|]. unfold pmtu_viable in Ev. pm_unfold. lia.
    + split; cbn; auto; pm_unfold; lia.
  - apply offer_inv; [done|]. pm_unfold; lia.
Qed.

Lemma black_hole_inv p size : pm_inv p -> PMTU_BASE <= size <= PMTU_MAX -> pm_inv (pmtu_black_hole p size).
Proof. intros [H1 H2 H3 H4 H5 H6 H7] Hs. split; cbn; try done; pm_unfold; try lia. Qed.

Lemma set_count_inv p n : pm_inv p -> 0 <= n < PMTU_MAX_PROBES -> pm_inv (set_count p n).
Proof. intros [H1 H2 H3 H4 H5 H6 H7] Hn. split; cbn; auto. Qed.

Lemma on_loss_inv p size :
  pm_inv p -> PMTU_BASE <= size <= PMTU_MAX -> exists p', pmtu_on_loss p size = Some p' /\ pm_inv p'.
Proof.
  intros Hp Hs. unfold pmtu_on_loss. pose proof (pi_count p Hp) as Hc. destruct (_ <? _) eqn:E.
  { eexists. split; [reflexivity|]. apply set_count_inv; [done|]. pm_unfold; lia. }
  rewrite verdict_eq by done. osimpl. eexists. split; [reflexivity|].
  pose proof (set_count_inv p 0 Hp ltac:(pm_unfold; lia)) as Hq. pose proof Hq as [H1 H2 H3 H4 H5 H6 H7].
  destruct (pm_phase p =? 1); [split; cbn in *; try done; pm_unfold; lia|]. destruct (_ || _); [|done].
  unfold pmtu_verdict_search. destruct (size =? _); [by apply black_hole_inv|].
  split; cbn in *; try done. rewrite u64_min_spec. pm_unfold; lia.
Qed.

Lemma on_ack_inv p size :
  pm_inv p -> PMTU_BASE <= size <= PMTU_MAX -> exists p', pmtu_on_ack p size = Some p' /\ pm_inv p'.
Proof.
  intros Hp Hs. pose proof Hp as [H1 H2 H3 H4 H5 H6 H7]. unfold pmtu_on_ack. rewrite ack_phase_eq by done. osimpl.
  eexists. split; [reflexivity|]. split; cbn; rewrite ?u64_max_spec; pm_unfold; auto; [lia|bcase; lia|lia].
Qed.

Lemma on_big_losses_inv p n :
  pm_inv p -> 0 <= n < 2147483645 -> exists p', pmtu_on_big_losses p n = Some p' /\ pm_inv p'.
Proof.
  intros Hp Hn. pose proof Hp as [H1 H2 H3 H4 H5 H6 H7]. unfold pmtu_on_big_losses. bcase; [eauto|]. cbv zeta.
  assert (to_int n = n) as -> by (unfold to_int; rewrite Z.mod_small; lia). pm_unfold.
  bcase; [exfalso; lia|]. eexists. split; [reflexivity|]. bcase.
  - split; cbn; pm_unfold; auto; lia.
  - split; cbn; pm_unfold; auto; lia.
Qed.

Lemma pm_step_inv p e : pm_inv p -> pm_event_ok e -> exists p', pm_step p e = Some p' /\ pm_inv p'.
Proof.
  intros Hp He. pose proof Hp as [H1 H2 H3 H4 H5 H6 H7]. destruct e as [now| | |max|pn|n|]; cbn [pm_step].
  - destruct (next_probe_inv p now Hp) as (s & p' & -> & Hp'). osimpl. eauto.
  - destruct (pm_probe p =? 0) eqn:E; [eauto|]. apply on_ack_inv; [done|lia].
  - destruct (pm_probe p =? 0) eqn:E; [eauto|]. apply on_loss_inv; [done|lia].
  - eexists. split; [reflexivity|]. unfold pmtu_set_max. rewrite !u64_min_spec, u64_max_spec.
    split; cbn; pm_unfold; auto; lia.
  - eexists. split; [reflexivity|]. unfold pmtu_on_big_ack. bcase; [done|]. split; cbn; pm_unfold; auto; lia.
  - by apply on_big_losses_inv.
  - eexists. split; [reflexivity|]. bcase; [|done]. split; cbn; pm_unfold; auto; lia.
Qed.

Lemma pm_run_inv es : forall p, pm_inv p -> Forall pm_event_ok es -> exists p', pm_run p es = Some p' /\ pm_inv p'.
Proof.
  induction es as [|e es IH]; intros p Hp Hes; cbn [pm_run]; [eauto|]. apply Forall_cons_1 in Hes as [He Hes].
  destruct (pm_step_inv p e Hp He) as (p1 & -> & H1). osimpl. auto.
Qed.

Lemma pm_init_inv : pm_inv pmtu_init.
Proof. split; cbn; pm_unfold; auto; lia. Qed.

(** ** The search ends *)

(** Send the next probe and apply its outcome ([true] = acknowledged). *)
Definition search_round (p : pmtu) (acked : bool) (now : Z) : option (Z * pmtu) :=
  '(s, p1) ← pmtu_next_probe p now;
  if s =? 0 then Some (0, p1)
  else p2 ← (if acked then pmtu_on_ack p1 s else pmtu_on_loss p1 s); Some (s, p2).

(** Rounds until the search completes; the rounds used and the state. *)
Fixpoint search (p : pmtu) (outcomes : list bool) : option (Z * pmtu) :=
  match outcomes with
  | [] => Some (0, p)
  | o :: os =>
      '(s, p1) ← search_round p o 0;
      if s =? 0 then Some (0, p1) else '(n, p2) ← search p1 os; Some (1 + n, p2)
  end.

(** An upper bound on the outcomes still needed. *)
Definition search_left (p : pmtu) : Z :=
  if pmtu_viable p (candidate p)
  then 3 * ((pm_ceiling p - pm_validated p + 63) / 64) - pm_probe_count p else 0.

Lemma search_left_viable p :
  pmtu_viable p (candidate p) = true ->
  search_left p = 3 * ((pm_ceiling p - pm_validated p + 63) / 64) - pm_probe_count p.
Proof. unfold search_left. by intros ->. Qed.

Lemma search_left_over p : pmtu_viable p (candidate p) = false -> search_left p = 0.
Proof. unfold search_left. by intros ->. Qed.

Lemma viable_lt p : pmtu_viable p (candidate p) = true -> pm_validated p < candidate p.
Proof. unfold pmtu_viable. lia. Qed.

Lemma search_left_pos p : pm_inv p -> pmtu_viable p (candidate p) = true -> 1 <= search_left p <= 12.
Proof.
  intros Hp Hv. rewrite search_left_viable by done. pose proof (candidate_val p Hp) as Hc. pose proof (viable_lt p Hv).
  pose proof Hp as [H1 H2 _ _ _ H6 _]. pm_unfold. set (k := (_ + 63) / 64).
  assert (1 <= k <= 4) by (subst k; split; [apply Z.div_le_lower_bound|apply Z.lt_succ_r, Z.div_lt_upper_bound]; lia). lia.
Qed.

Lemma search_left_bound p : pm_inv p -> 0 <= search_left p <= 12.
Proof.
  intros Hp. destruct (pmtu_viable p (candidate p)) eqn:Hv; [pose proof (search_left_pos p Hp Hv); lia|].
  rewrite search_left_over by done. lia.
Qed.

(** [q] is [p] with its candidate [c] outstanding. *)
Definition offered (p q : pmtu) (c : Z) : Prop :=
  pm_inv q /\ pm_phase q = PMTU_PHASE_SEARCHING /\ pm_validated q = pm_validated p /\ pm_ceiling q = pm_ceiling p /\
  pm_probe_count q = pm_probe_count p /\ c = candidate p.

(** What a round achieves. *)
Definition progress (p p2 : pmtu) : Prop :=
  pm_inv p2 /\ pm_phase p2 = PMTU_PHASE_SEARCHING /\ pm_validated p <= pm_validated p2 /\ search_left p2 < search_left p.

Lemma ack_progress p q c :
  pm_inv p -> pmtu_viable p (candidate p) = true -> offered p q c ->
  exists p2, pmtu_on_ack q c = Some p2 /\ progress p p2.
Proof.
  intros Hp Hv (Hq & Q1 & Q2 & Q3 & Q4 & Ec). pose proof (candidate_val p Hp) as Hc. pose proof (viable_lt p Hv) as Hlt.
  pose proof Hp as [H1 H2 H3 H4 H5 H6 H7]. destruct (on_ack_inv q c Hq ltac:(pm_unfold; lia)) as (r & E & Hr).
  exists r. split; [done|]. split; [done|]. unfold pmtu_on_ack in E. rewrite ack_phase_eq, Q1 in E by done. cbn in E.
  injection E as <-. rewrite Q2, Q3, u64_max_spec, Z.max_r in * by lia. split; [done|]. split; [cbn; lia|].
  set (r := mk_pmtu _ _ _ _ _ _ _ _ _ _ _) in *. pose proof (search_left_pos p Hp Hv) as Hpos.
  destruct (pmtu_viable r (candidate r)) eqn:Hvr; [|rewrite (search_left_over r) by done; lia].
  pose proof (viable_lt r Hvr) as Hltr. rewrite candidate_val in Hltr by done. rewrite !search_left_viable by done.
  cbn [r pm_validated pm_ceiling pm_probe_count] in *.
  assert (c = pm_validated p + 64) as -> by (pm_unfold; lia).
  replace (pm_ceiling p - pm_validated p + 63) with (pm_ceiling p - (pm_validated p + 64) + 63 + 1 * 64) by lia.
  rewrite Z.div_add by lia. pm_unfold. lia.
Qed.

Lemma loss_progress p q c :
  pm_inv p -> pmtu_viable p (candidate p) = true -> offered p q c ->
  exists p2, pmtu_on_loss q c = Some p2 /\ progress p p2.
Proof.
  intros Hp Hv (Hq & Q1 & Q2 & Q3 & Q4 & Ec). pose proof (candidate_val p Hp) as Hc. pose proof (viable_lt p Hv) as Hlt.
  pose proof Hp as [H1 H2 H3 H4 H5 H6 H7]. destruct (on_loss_inv q c Hq ltac:(pm_unfold; lia)) as (r & E & Hr).
  exists r. split; [done|]. split; [done|]. pose proof (search_left_pos p Hp Hv) as Hpos. unfold pmtu_on_loss in E.
  rewrite Q4 in E. destruct (_ <? _) eqn:En.
  - injection E as <-. split; [done|]. split; [cbn; lia|]. set (r := set_count _ _) in *.
    destruct (pmtu_viable r (candidate r)) eqn:Hvr; [|rewrite (search_left_over r) by done; lia].
    rewrite !search_left_viable by done. cbn. rewrite Q2, Q3. lia.
  - rewrite verdict_eq, Q1 in E by done. cbn in E. cbn [Z.eqb Pos.eqb orb PMTU_PHASE_SEARCHING] in E.
    unfold pmtu_verdict_search in E. replace (c =? pm_validated (set_count q 0)) with false in E by (cbn; rewrite Q2; lia).
    injection E as <-. split; [done|]. split; [cbn; lia|]. set (r := mk_pmtu _ _ _ _ _ _ _ _ _ _ _) in *.
    assert (candidate r = c) as Ecr.
    { rewrite candidate_val by done. cbn. rewrite u64_min_spec, Q2, Q3. lia. }
    rewrite (search_left_over r); [lia|]. unfold pmtu_viable. rewrite Ecr. cbn [r pm_lost]. by rewrite Z.eqb_refl, andb_false_r.
Qed.

Lemma search_round_progress p acked now :
  pm_inv p -> pm_phase p = PMTU_PHASE_SEARCHING -> pmtu_viable p (candidate p) = true ->
  exists p2, search_round p acked now = Some (candidate p, p2) /\ progress p p2.
Proof.
  intros Hp Hph Hv. pose proof (candidate_val p Hp) as Hc. pose proof (viable_lt p Hv) as Hlt.
  pose proof Hp as [H1 H2 H3 H4 H5 H6 H7]. unfold search_round. rewrite next_probe_eq by done. rewrite Hph.
  cbn [Z.eqb Pos.eqb PMTU_PHASE_SEARCHING]. unfold pmtu_next_search. rewrite Hv. cbn [negb].
  rewrite (surjective_pairing (pmtu_offer _ _ _)). osimpl.
  change (pmtu_offer p (candidate p) now).1 with (candidate p).
  replace (candidate p =? 0) with false by (pm_unfold; lia).
  assert (offered p (pmtu_offer p (candidate p) now).2 (candidate p)) as Ho.
  { split; [apply offer_inv; [done|pm_unfold; lia]|]. cbn [pmtu_offer snd pm_phase pm_validated pm_ceiling pm_probe_count]. by rewrite Hph. }
  destruct acked; [destruct (ack_progress _ _ _ Hp Hv Ho) as (r & E & Hr)|destruct (loss_progress _ _ _ Hp Hv Ho) as (r & E & Hr)];
    rewrite E; osimpl; eauto.
Qed.

Lemma search_ends os : forall p,
  pm_inv p -> pm_phase p = PMTU_PHASE_SEARCHING -> search_left p < zlen os ->
  exists n p', search p os = Some (n, p') /\ 0 <= n <= search_left p /\ pm_phase p' = PMTU_PHASE_COMPLETE /\ pm_inv p' /\
    pm_validated p <= pm_validated p'.
Proof.
  induction os as [|o os IH]; intros p Hp Hph Hl; cbn [search].
  { change (zlen []) with 0 in Hl. pose proof (search_left_bound p Hp). lia. }
  rewrite zlen_cons in Hl. destruct (pmtu_viable p (candidate p)) eqn:Hv.
  - destruct (search_round_progress p o 0 Hp Hph Hv) as (p1 & -> & Hp1 & Hph1 & Hle & Hdec). osimpl.
    replace (candidate p =? 0) with false by (pose proof (pi_validated p Hp); pose proof (viable_lt p Hv); pm_unfold; lia).
    destruct (IH p1 Hp1 Hph1 ltac:(lia)) as (n & p' & -> & Hn & Hc & Hi & Hv'). osimpl.
    do 2 eexists. split; [reflexivity|]. split; [lia|]. split; [done|]. split; [done|lia].
  - unfold search_round. destruct (next_probe_inv p 0 Hp) as (s & p1 & E & Hp1). rewrite E. rewrite next_probe_eq, Hph in E by done.
    cbn [Z.eqb Pos.eqb PMTU_PHASE_SEARCHING] in E. unfold pmtu_next_search in E. rewrite Hv in E. cbn [negb] in E.
    injection E as <- <-. osimpl. cbn [Z.eqb]. osimpl. do 2 eexists. split; [reflexivity|].
    rewrite search_left_over by done. split; [lia|]. split; [done|]. split; [done|]. cbn. lia.
Qed.

(** Whatever probes are sent, acknowledged and lost, whatever data losses are reported and however often the
    maximum is changed or the search resumed, the path MTU state never faults (its phase tables are indexed in
    range and its counters do not overflow), the validated size, the ceiling and any outstanding probe stay between
    1200 and 1452 bytes, and the payload size handed to the application is the validated size less the 41 bytes
    of overhead, without wrap-around. *)
Theorem pmtu_bounds (es : list pm_event) :
  Forall pm_event_ok es ->
  exists p, pm_run pmtu_init es = Some p /\
    PMTU_BASE <= pm_validated p <= PMTU_MAX /\ PMTU_BASE <= pm_ceiling p <= PMTU_MAX /\
    (pm_probe p = 0 \/ PMTU_BASE <= pm_probe p <= PMTU_MAX) /\
    pmtu_mps p = pm_validated p - PMTU_OVERHEAD /\
    (forall now, exists s p', pmtu_next_probe p now = Some (s, p') /\ (s = 0 \/ PMTU_BASE <= s <= PMTU_MAX)).
Proof.
  intros Hes. destruct (pm_run_inv es _ pm_init_inv Hes) as (p & E & Hp). exists p. split; [done|].
  pose proof Hp as [H1 H2 H3 H4 H5 H6 H7]. do 3 (split; [done|]). split.
  - unfold pmtu_mps. apply u64_small. unfold PMTU_OVERHEAD. pm_unfold. lia.
  - intros now. rewrite next_probe_eq by done. rewrite (surjective_pairing (_ p now)). do 2 eexists. split; [reflexivity|].
    pose proof (candidate_val p Hp) as Hc. destruct (pm_phase p =? 2); [|destruct (_ || _); [right|by left]].
    + unfold pmtu_next_search, pmtu_viable. bcase; [by left|]. right. cbn [pmtu_offer fst]. pm_unfold. lia.
    + cbn. pm_unfold. lia.
Qed.

Lemma pmtu_bounds_witness :
  exists p, pm_run pmtu_init [PmProbe 5; PmAck; PmProbe 6; PmLoss; PmProbe 7; PmLoss; PmProbe 8; PmLoss; PmProbe 9;
                              PmBigLosses 2; PmBigAck 11; PmBigLosses 3; PmProbe 10; PmAck] = Some p /\
    PMTU_BASE <= pm_validated p <= PMTU_MAX.
Proof.
  destruct (pmtu_bounds [PmProbe 5; PmAck; PmProbe 6; PmLoss; PmProbe 7; PmLoss; PmProbe 8; PmLoss; PmProbe 9;
                         PmBigLosses 2; PmBigAck 11; PmBigLosses 3; PmProbe 10; PmAck]) as (p & E & Hv & _).
  - repeat constructor; lia.
  - exists p. split; [exact E|exact Hv].
Defined.

(** C35: the search for the path MTU ends: from any consistent searching state, whatever the outcomes of the probes,
    at most twelve of them are needed until the search is complete, and no outcome lowers the validated size. *)
Theorem pmtu_search_completes (p : pmtu) (outcomes : list bool) :
  pm_inv p -> pm_phase p = PMTU_PHASE_SEARCHING -> 12 < zlen outcomes ->
  exists n p', search p outcomes = Some (n, p') /\ 0 <= n <= 12 /\ pm_phase p' = PMTU_PHASE_COMPLETE /\ pm_inv p' /\
    pm_validated p <= pm_validated p'.
Proof.
  intros Hp Hph Hl. pose proof (search_left_bound p Hp) as Hb.
  destruct (search_ends outcomes p Hp Hph ltac:(lia)) as (n & p' & E & Hn & Hrest). exists n, p'. split; [done|].
  split; [lia|done].
Qed.

Lemma pmtu_search_completes_witness :
  exists n p', search pmtu_init (replicate 13 false) = Some (n, p') /\ 0 <= n <= 12 /\ pm_phase p' = PMTU_PHASE_COMPLETE.
Proof.
  destruct (pmtu_search_completes pmtu_init (replicate 13 false)) as (n & p' & E & Hn & Hph & _).
  - exact pm_init_inv.
  - reflexivity.
  - vm_compute. reflexivity.
  - exists n, p'. split; [exact E|]. split; [exact Hn|exact Hph].
Defined.
