(* ===== verification/Lifecycle.v ===== *)
(** * The connection's lifecycle

    src/src/transport/conn/lifecycle: the table-driven state machine (fsm.c),
    the connection's phases and packet number counters (conn.c), the idle
    timeout (idledrive, closelife) and the adoption of the peer's connection id
    (cidnego.c). *)

From stdpp Require Import base numbers list option.
From Stdlib Require Import ZArith Lia.
From S2P Require Import Prelude Bytes.

(** ** fsm.c *)

(* src/src/transport/conn/lifecycle/fsm/fsm.h : fsm_row *)
Record fsm_row := mk_row { row_from : Z; row_ev : Z; row_to : Z }.

(** The rows of the table; its count is their number. *)
(* src/src/transport/conn/lifecycle/fsm/fsm.h : fsm_table *)
Record fsm_table := mk_table { tb_rows : list fsm_row }.

(* src/src/transport/conn/lifecycle/fsm/fsm.h : FSM_NONE *)
Definition FSM_NONE : Z := 0xff.

(* src/src/transport/conn/lifecycle/fsm/fsm.c : row_matches *)
Definition row_matches (r : fsm_row) (from ev : Z) : bool := (row_from r =? from) && (row_ev r =? ev).

Fixpoint lookup_rows (rows : list fsm_row) (from ev : Z) : Z :=
  match rows with
  | [] => FSM_NONE
  | r :: rows' => if row_matches r from ev then row_to r else lookup_rows rows' from ev
  end.

(* src/src/transport/conn/lifecycle/fsm/fsm.c : lookup *)
Definition fsm_lookup (t : fsm_table) (from ev : Z) : Z := lookup_rows (tb_rows t) from ev.

(** C's 1/0 and the state. *)
(* src/src/transport/conn/lifecycle/fsm/fsm.c : fsm_step *)
Definition fsm_step (state : Z) (t : fsm_table) (ev : Z) : bool * Z :=
  let to := fsm_lookup t state ev in if to =? FSM_NONE then (false, state) else (true, to).

(** ** conn.c *)

(* src/src/transport/conn/lifecycle/conn/conn.h : phase *)
Inductive phase := PHASE_INITIAL | PHASE_HANDSHAKE | PHASE_CONFIRMED | PHASE_CLOSING | PHASE_DRAINING | PHASE_CLOSED.

(* src/src/transport/conn/lifecycle/conn/conn.h : conn_event *)
Inductive conn_event := CONN_EV_HS_PROGRESS | CONN_EV_HS_CONFIRMED | CONN_EV_CLOSE | CONN_EV_DRAIN | CONN_EV_CLOSED.

(* src/src/transport/conn/lifecycle/conn/conn.h : pn_space *)
Inductive pn_space := PN_INITIAL | PN_HANDSHAKE | PN_APPLICATION.

#[export] Instance phase_eq_dec : EqDecision phase.
Proof. solve_decision. Defined.
#[export] Instance pn_space_eq_dec : EqDecision pn_space.
Proof. solve_decision. Defined.

(** The enumerations as C numbers them. *)
Definition phase_index (p : phase) : Z :=
  match p with
  | PHASE_INITIAL => 0 | PHASE_HANDSHAKE => 1 | PHASE_CONFIRMED => 2 | PHASE_CLOSING => 3 | PHASE_DRAINING => 4 | PHASE_CLOSED => 5
  end.
Definition phase_of (i : Z) : phase :=
  if i =? 0 then PHASE_INITIAL else if i =? 1 then PHASE_HANDSHAKE else if i =? 2 then PHASE_CONFIRMED
  else if i =? 3 then PHASE_CLOSING else if i =? 4 then PHASE_DRAINING else PHASE_CLOSED.
Definition event_index (e : conn_event) : Z :=
  match e with
  | CONN_EV_HS_PROGRESS => 0 | CONN_EV_HS_CONFIRMED => 1 | CONN_EV_CLOSE => 2 | CONN_EV_DRAIN => 3 | CONN_EV_CLOSED => 4
  end.
Definition space_index (s : pn_space) : Z := match s with PN_INITIAL => 0 | PN_HANDSHAKE => 1 | PN_APPLICATION => 2 end.

Definition phase_row (from : phase) (ev : conn_event) (to : phase) : fsm_row := mk_row (phase_index from) (event_index ev) (phase_index to).

(* src/src/transport/conn/lifecycle/conn/conn.c : phase_rows *)
Definition phase_rows : list fsm_row :=
  [phase_row PHASE_INITIAL CONN_EV_HS_PROGRESS PHASE_HANDSHAKE; phase_row PHASE_HANDSHAKE CONN_EV_HS_CONFIRMED PHASE_CONFIRMED;
   phase_row PHASE_INITIAL CONN_EV_CLOSE PHASE_CLOSING; phase_row PHASE_HANDSHAKE CONN_EV_CLOSE PHASE_CLOSING;
   phase_row PHASE_CONFIRMED CONN_EV_CLOSE PHASE_CLOSING; phase_row PHASE_INITIAL CONN_EV_DRAIN PHASE_DRAINING;
   phase_row PHASE_HANDSHAKE CONN_EV_DRAIN PHASE_DRAINING; phase_row PHASE_CONFIRMED CONN_EV_DRAIN PHASE_DRAINING;
   phase_row PHASE_CLOSING CONN_EV_CLOSED PHASE_CLOSED; phase_row PHASE_DRAINING CONN_EV_CLOSED PHASE_CLOSED].

(* src/src/transport/conn/lifecycle/conn/conn.h : conn *)
Record conn := mk_conn { c_phase : phase; c_next_pn : list Z }.

(* src/src/transport/conn/lifecycle/conn/conn.c : conn_init *)
Definition conn_init : conn := mk_conn PHASE_INITIAL [0; 0; 0].

(* src/src/transport/conn/lifecycle/conn/conn.c : conn_step *)
Definition conn_step (c : conn) (ev : conn_event) : bool * conn :=
  let '(ok, st) := fsm_step (u8 (phase_index (c_phase c))) (mk_table phase_rows) (u8 (event_index ev)) in
  (ok, mk_conn (phase_of st) (c_next_pn c)).

(* src/src/transport/conn/lifecycle/conn/conn.c : app_space_allowed *)
Definition app_space_allowed (c : conn) (space : pn_space) : bool :=
  match space with PN_APPLICATION => bool_decide (c_phase c = PHASE_CONFIRMED) | _ => true end.

(** The number issued, if any; [None] outside the counters. *)
(* src/src/transport/conn/lifecycle/conn/conn.c : conn_next_pn *)
Definition conn_next_pn (c : conn) (space : pn_space) : option (option Z * conn) :=
  if negb (app_space_allowed c space) then Some (None, c)
  else
    pn ← load (c_next_pn c) (space_index space);
    l ← store (c_next_pn c) (space_index space) (u64 (pn + 1));
    Some (Some pn, mk_conn (c_phase c) l).

(** ** Idle timeout *)

(* src/src/transport/conn/lifecycle/closelife/idlefloor.c : idle_floor *)
Definition idle_floor (idle_timeout pto : Z) : Z := u64_max idle_timeout (u64 (3 * pto)).

(* src/src/transport/conn/lifecycle/closelife/idlefloor.c : idle_should_close *)
Definition idle_should_close (elapsed effective_idle : Z) : bool := effective_idle <=? elapsed.

(* src/src/transport/conn/lifecycle/idledrive/idledrive.h : idledrive *)
Record idledrive := mk_idle { id_idle_timeout : Z; id_last_activity : Z }.

(* src/src/transport/conn/lifecycle/idledrive/idledrive.c : idledrive_init *)
Definition idledrive_init (idle_timeout : Z) : idledrive := mk_idle idle_timeout 0.

(* src/src/transport/conn/lifecycle/idledrive/idledrive.c : idledrive_on_activity *)
Definition idledrive_on_activity (s : idledrive) (now : Z) : idledrive := mk_idle (id_idle_timeout s) now.

(* src/src/transport/conn/lifecycle/idledrive/idledrive.c : idledrive_expired *)
Definition idledrive_expired (s : idledrive) (now : Z) : bool :=
  negb (id_idle_timeout s =? 0) && (id_idle_timeout s <=? u64 (now - id_last_activity s)).

(* src/src/transport/conn/lifecycle/idledrive/idlenego.c : idlenego_as_limit *)
Definition idlenego_as_limit (v : Z) : Z := if negb (v =? 0) then v else u64 (-1).

(* src/src/transport/conn/lifecycle/idledrive/idlenego.c : idledrive_effective *)
Definition idledrive_effective (local_timeout peer_timeout : Z) : Z :=
  let l := idlenego_as_limit local_timeout in
  let p := idlenego_as_limit peer_timeout in
  let m := if l <? p then l else p in
  if m =? u64 (-1) then 0 else m.

(* src/src/transport/conn/lifecycle/idledrive/closesend.c : idledrive_should_close *)
Definition idledrive_should_close (error_occurred idle_expired : bool) : bool := error_occurred || idle_expired.

(** ** cidnego.c *)

(** The connection id adopted: C's 1/0 and the buffer. *)
(* src/src/transport/conn/lifecycle/conn/cidnego.c : cidnego_peer_dcid *)
Definition cidnego_peer_dcid (peer_scid : list Z) (our_dcid : obuf) : option (bool * obuf) :=
  if 20 <? zlen peer_scid then Some (false, our_dcid)
  else p ← copy (op our_dcid) 0 peer_scid 0 (length peer_scid); Some (true, mk_obuf p (zlen peer_scid)).

Fixpoint cid_match_loop (a b : list Z) (n : nat) (eq : bool) : bool :=
  match n, a, b with
  | S n', x :: a', y :: b' => cid_match_loop a' b' n' (eq && (x =? y))
  | _, _, _ => eq
  end.

(* src/src/transport/conn/lifecycle/conn/cidnego.c : cidnego_match *)
Definition cidnego_match (a b : list Z) : bool :=
  let n := if zlen a <? zlen b then length a else length b in
  cid_match_loop a b n (zlen a =? zlen b).

(** ** The phases and the packet numbers over a whole run *)

(** What a connection is asked to do, and its answer. *)
Inductive conn_op := OStep (ev : conn_event) | ONext (space : pn_space).
Inductive conn_out := RStep (ok : bool) | RNext (pn : option Z).

#[export] Instance conn_out_eq_dec : EqDecision conn_out.
Proof. solve_decision. Defined.

Definition conn_do (c : conn) (o : conn_op) : option (conn_out * conn) :=
  match o with
  | OStep ev => let '(ok, c') := conn_step c ev in Some (RStep ok, c')
  | ONext s => '(r, c') ← conn_next_pn c s; Some (RNext r, c')
  end.

(** The answers of a run, each with the phase it was given in. *)
Fixpoint conn_run (ops : list conn_op) (c : conn) : option (list (phase * conn_op * conn_out) * conn) :=
  match ops with
  | [] => Some ([], c)
  | o :: ops' =>
      '(r, c1) ← conn_do c o;
      '(tr, c2) ← conn_run ops' c1;
      Some ((c_phase c, o, r) :: tr, c2)
  end.

(** RFC 9000 10 and 4.1: the next phase, where the event is allowed. *)
Definition phase_next (p : phase) (ev : conn_event) : option phase :=
  match p, ev with
  | PHASE_INITIAL, CONN_EV_HS_PROGRESS => Some PHASE_HANDSHAKE
  | PHASE_HANDSHAKE, CONN_EV_HS_CONFIRMED => Some PHASE_CONFIRMED
  | (PHASE_INITIAL | PHASE_HANDSHAKE | PHASE_CONFIRMED), CONN_EV_CLOSE => Some PHASE_CLOSING
  | (PHASE_INITIAL | PHASE_HANDSHAKE | PHASE_CONFIRMED), CONN_EV_DRAIN => Some PHASE_DRAINING
  | (PHASE_CLOSING | PHASE_DRAINING), CONN_EV_CLOSED => Some PHASE_CLOSED
  | _, _ => None
  end.

(** How far along a phase is. *)
Definition phase_rank (p : phase) : nat :=
  match p with
  | PHASE_INITIAL => 0 | PHASE_HANDSHAKE => 1 | PHASE_CONFIRMED => 2 | PHASE_CLOSING => 3 | PHASE_DRAINING => 3 | PHASE_CLOSED => 4
  end.

(** The phases a list of events leads through. *)
Fixpoint phase_after (p : phase) (ops : list conn_op) : phase :=
  match ops with
  | [] => p
  | OStep ev :: ops' => phase_after (default p (phase_next p ev)) ops'
  | ONext _ :: ops' => phase_after p ops'
  end.

(** The numbers a run issued in a space, in order; the accepted events. *)
Definition issued (s : pn_space) (tr : list (phase * conn_op * conn_out)) : list Z :=
  omap (fun '(_, o, r) => match o, r with ONext s', RNext pn => if decide (s' = s) then pn else None | _, _ => None end) tr.
Definition accepted (tr : list (phase * conn_op * conn_out)) : nat :=
  length (filter (fun x => x.2 = RStep true) tr).

(** What each answer must be, given the phase. *)
Definition answer_ok (x : phase * conn_op * conn_out) : Prop :=
  match x with
  | (p, OStep ev, RStep ok) => ok = true <-> is_Some (phase_next p ev)
  | (p, ONext PN_APPLICATION, RNext pn) => is_Some pn <-> p = PHASE_CONFIRMED
  | (_, ONext _, RNext pn) => is_Some pn
  | _ => False
  end.

Lemma conn_step_spec c ev :
  conn_step c ev = (bool_decide (is_Some (phase_next (c_phase c) ev)), mk_conn (default (c_phase c) (phase_next (c_phase c) ev)) (c_next_pn c)).
Proof. destruct c as [p l], p, ev; reflexivity. Qed.

Lemma phase_next_rank p ev p' : phase_next p ev = Some p' -> (phase_rank p < phase_rank p' <= 4)%nat.
Proof. destruct p, ev; intros [=]; subst; cbn; lia. Qed.

Lemma conn_next_pn_spec p l s :
  length l = 3%nat -> Forall (fun x => 0 <= x < 2 ^ 64) l ->
  conn_next_pn (mk_conn p l) s =
    if bool_decide (s = PN_APPLICATION /\ p <> PHASE_CONFIRMED) then Some (None, mk_conn p l)
    else Some (Some (nth (Z.to_nat (space_index s)) l 0),
               mk_conn p (<[Z.to_nat (space_index s) := u64 (nth (Z.to_nat (space_index s)) l 0 + 1)]> l)).
Proof.
  intros Hl Hr. destruct l as [|a [|b [|d [|]]]]; try discriminate.
  destruct p, s; reflexivity.
Qed.

(** The counters hold [a], [b] and [d]: numbers issued so far. *)
Definition count_of (s : pn_space) (l : list Z) : Z := nth (Z.to_nat (space_index s)) l 0.

Lemma issued_next p s' v s tr :
  issued s ((p, ONext s', RNext (Some v)) :: tr) = if decide (s' = s) then v :: issued s tr else issued s tr.
Proof. unfold issued. cbn. by case_decide. Qed.

Lemma seqZ_step (l : list Z) a : l = seqZ (a + 1) (zlen l) -> a :: l = seqZ a (zlen (a :: l)).
Proof.
  intros E. pose proof (zlen_nonneg l). rewrite zlen_cons, seqZ_cons by lia. f_equal. rewrite E at 1. f_equal; lia.
Qed.

(** Evaluates a counter's index. *)
Ltac index3 :=
  cbn; change (Z.to_nat 0) with 0%nat; change (Z.to_nat 1) with 1%nat; change (Z.to_nat 2) with 2%nat; cbn.

Lemma conn_run_spec ops : forall c,
  length (c_next_pn c) = 3%nat -> Forall (fun x => 0 <= x < 2 ^ 64 - zlen ops) (c_next_pn c) ->
  exists tr c', conn_run ops c = Some (tr, c') /\
    Forall answer_ok tr /\ c_phase c' = phase_after (c_phase c) ops /\
    (accepted tr + phase_rank (c_phase c) <= phase_rank (c_phase c'))%nat /\
    forall s, issued s tr = seqZ (count_of s (c_next_pn c)) (zlen (issued s tr)) /\
              count_of s (c_next_pn c') = count_of s (c_next_pn c) + zlen (issued s tr).
Proof.
  induction ops as [|o ops IH]; intros c Hl Hr.
  { exists [], c. repeat split; try done; cbn; try lia. change (zlen (@nil Z)) with 0. lia. }
  rewrite zlen_cons in Hr. pose proof (zlen_nonneg ops). destruct c as [p l]; cbn [c_next_pn c_phase] in *.
  destruct o as [ev | s].
  - cbn [conn_run conn_do]. rewrite conn_step_spec. cbn [c_phase c_next_pn mbind option_bind].
    destruct (IH (mk_conn (default p (phase_next p ev)) l)) as (tr & c' & E & Ha & Hp & Hn & Hs).
    { done. } { eapply List.Forall_impl, Hr. cbn; intros; lia. }
    rewrite E. cbn [mbind option_bind]. eexists _, _. split; [done|]. cbn [c_phase c_next_pn] in *. repeat split.
    + constructor; [|done]. unfold answer_ok. by rewrite bool_decide_eq_true.
    + done.
    + unfold accepted in *. rewrite filter_cons. cbn [snd]. destruct (phase_next p ev) as [p'|] eqn:Ep; cbn [default] in Hn |- *.
      * pose proof (phase_next_rank _ _ _ Ep). rewrite bool_decide_true by eauto. rewrite decide_True by done. cbn [length]. unfold default, id in Hn. lia.
      * rewrite bool_decide_false by (intros []; discriminate). rewrite decide_False by done. unfold default, id in Hn. lia.
    + apply (Hs s).
    + apply (Hs s).
  - cbn [conn_run conn_do]. rewrite conn_next_pn_spec by (try done; eapply List.Forall_impl, Hr; cbn; intros; lia).
    destruct l as [|a [|b [|d [|]]]]; try discriminate.
    apply Forall_cons_1 in Hr as [? Hr]. apply Forall_cons_1 in Hr as [? Hr]. apply Forall_cons_1 in Hr as [? _]. cbv beta in *.
    case_bool_decide as Hb; cbn [mbind option_bind].
    + destruct (IH (mk_conn p [a; b; d])) as (tr & c' & E & Ha & Hp & Hn & Hs); cbn [c_phase c_next_pn] in *; [done|rewrite !List.Forall_cons_iff; repeat split; try lia; try by constructor|].
      rewrite E. cbn [mbind option_bind]. eexists _, _. split; [done|]. destruct Hb as [-> Hb]. repeat split; try done.
      * constructor; [|done]. cbn. split; [intros []; discriminate | done].
      * unfold issued in *. cbn. case_decide; apply (Hs s).
      * unfold issued in *. cbn. case_decide; apply (Hs s).
    + match goal with |- context [conn_run ops ?c] => destruct (IH c) as (tr & c' & E & Ha & Hp & Hn & Hs) end; cbn [c_phase c_next_pn] in *.
      { by rewrite length_insert. }
      { destruct s; index3; rewrite u64_small by lia; rewrite !List.Forall_cons_iff; repeat split; try lia; try by constructor. }
      rewrite E. cbn [mbind option_bind]. eexists _, _. split; [done|]. repeat split; try done.
      * constructor; [|done]. destruct s; cbn; try by eauto. split; [|by eauto]. intros _. apply dec_stable. naive_solver.
      * rewrite issued_next. destruct (Hs s0) as [Hi _]. case_decide as Hd; [subst s0|].
        -- apply seqZ_step. rewrite Hi at 1. f_equal. unfold count_of. destruct s; index3; rewrite u64_small by lia; lia.
        -- rewrite Hi at 1. destruct s, s0; done.
      * rewrite issued_next. destruct (Hs s0) as [_ Hi]. rewrite Hi. case_decide as Hd; [subst s0|].
        -- rewrite zlen_cons. unfold count_of. destruct s; index3; rewrite u64_small by lia; lia.
        -- destruct s, s0; done.
Qed.

(** C26: a connection moves through its phases exactly as RFC 9000 10 allows and
    numbers its packets without a gap. Over any sequence of events and packet
    number requests (fewer than 2^64) no access is out of range, an event is
    accepted exactly when it is allowed in the phase, the phase is the one the
    accepted events lead to, at most four events are ever accepted (so a closed
    connection stays closed), the numbers issued in each space are 0, 1, 2, ...
    in order, and an application number is issued exactly in the confirmed
    phase. *)
Theorem connection_phases_and_numbers ops :
  zlen ops < 2 ^ 64 ->
  exists tr c, conn_run ops conn_init = Some (tr, c) /\
    Forall answer_ok tr /\ c_phase c = phase_after PHASE_INITIAL ops /\
    (accepted tr <= phase_rank (c_phase c) <= 4)%nat /\
    forall s, issued s tr = seqZ 0 (zlen (issued s tr)).
Proof.
  intros Hn. pose proof (zlen_nonneg ops).
  destruct (conn_run_spec ops conn_init) as (tr & c & E & Ha & Hp & Hk & Hs); [done|repeat constructor; lia|].
  exists tr, c. repeat split; try done.
  - cbn [conn_init c_phase phase_rank] in Hk. lia.
  - destruct (c_phase c); cbn; lia.
  - intros s. destruct (Hs s) as [Hi _]. rewrite Hi at 1. by destruct s.
Qed.

Lemma connection_phases_and_numbers_witness :
  exists tr c,
    conn_run [OStep CONN_EV_HS_PROGRESS; ONext PN_APPLICATION; OStep CONN_EV_HS_CONFIRMED; ONext PN_APPLICATION; ONext PN_APPLICATION;
              OStep CONN_EV_DRAIN; OStep CONN_EV_CLOSE] conn_init = Some (tr, c) /\
    issued PN_APPLICATION tr = [0; 1] /\ c_phase c = PHASE_DRAINING.
Proof.
  destruct (connection_phases_and_numbers
    [OStep CONN_EV_HS_PROGRESS; ONext PN_APPLICATION; OStep CONN_EV_HS_CONFIRMED; ONext PN_APPLICATION; ONext PN_APPLICATION;
     OStep CONN_EV_DRAIN; OStep CONN_EV_CLOSE]) as (tr & c & E & _ & Hp & _ & Hi); [vm_compute; reflexivity|].
  exists tr, c. split; [exact E|]. vm_compute in E. injection E as <- <-. split; reflexivity.
Defined.

(** ** The idle timeout the two endpoints agree on *)

(** RFC 9000 10.1: the smaller of the two advertised values, one that is zero
    being absent. *)
Definition agreed_idle (l p : Z) : Z := if l =? 0 then p else if p =? 0 then l else Z.min l p.

Lemma idledrive_effective_spec l p :
  0 <= l < 2 ^ 64 - 1 -> 0 <= p < 2 ^ 64 - 1 -> idledrive_effective l p = agreed_idle l p.
Proof.
  intros Hl Hp. unfold idledrive_effective, idlenego_as_limit, agreed_idle. change (u64 (-1)) with (2 ^ 64 - 1).
  destruct (Z.eqb_spec l 0), (Z.eqb_spec p 0); cbn [negb]; subst;
    repeat (match goal with |- context [?a <? ?b] => destruct (Z.ltb_spec a b) | |- context [?a =? ?b] => destruct (Z.eqb_spec a b) end); lia.
Qed.

(** Both endpoints compute the same idle timeout from the two advertised
    values; the connection expires exactly when that much time has passed since
    the last activity, and never when both disabled it. *)
Theorem idle_timeout_agreed l p last now :
  0 <= l < 2 ^ 64 - 1 -> 0 <= p < 2 ^ 64 - 1 -> 0 <= last <= now -> now < 2 ^ 64 ->
  let d := idledrive_on_activity (idledrive_init (idledrive_effective l p)) last in
  idledrive_effective l p = idledrive_effective p l /\
  (idledrive_expired d now = true <-> (l <> 0 \/ p <> 0) /\ (l <> 0 -> p <> 0 -> Z.min l p <= now - last) /\
                                      (l = 0 -> p <= now - last) /\ (p = 0 -> l <= now - last)).
Proof.
  intros Hl Hp Ht Hn. rewrite !idledrive_effective_spec by done. split.
  { unfold agreed_idle. destruct (Z.eqb_spec l 0), (Z.eqb_spec p 0); lia. }
  unfold idledrive_expired. cbn [idledrive_on_activity idledrive_init id_idle_timeout id_last_activity]. rewrite u64_small by lia.
  unfold agreed_idle. destruct (Z.eqb_spec l 0), (Z.eqb_spec p 0); bx; lia.
Qed.
