(* ===== verification/Paths.v ===== *)
(** * Network paths

    src/src/transport/conn/cid/path, pathsel, migrate and spin: the
    anti-amplification budget (antiamp.c), two-path validation (path.c), the
    server's challenge slots (pathsel.c), the client's migration (migrate.c,
    prefaddr.c) and the spin bit (spin.c). The main theorem bounds what is ever
    sent to a path that is not validated. *)

From stdpp Require Import base numbers list option.
From Stdlib Require Import ZArith Lia.
From S2P Require Import Prelude Bytes.

(** ** Anti-amplification *)

(* src/src/transport/conn/cid/path/antiamp.c : antiamp_budget *)
Definition antiamp_budget (received sent : Z) : Z :=
  let cap := u64 (3 * received) in if cap <=? sent then 0 else cap - sent.

(* src/src/transport/conn/cid/path/antiamp.c : antiamp_can_send *)
Definition antiamp_can_send (received sent want : Z) : bool := want <=? antiamp_budget received sent.

(** ** pathsel.c: keys *)

(* src/src/transport/io/socket/io/udp.h : sockaddr *)
Record sockaddr := mk_sockaddr { sa_family : Z; sa_port_be : Z; sa_flowinfo : Z; sa_addr : list Z; sa_scope_id : Z }.

(* src/src/transport/conn/cid/pathsel/pathsel.h : pathsel_key *)
Record pathsel_key := mk_key { pk_fd : Z; pk_peer : sockaddr }.

(* src/src/transport/conn/cid/pathsel/pathsel.c : pathsel_peer_eq *)
Definition pathsel_peer_eq (a b : sockaddr) : bool :=
  (sa_port_be a =? sa_port_be b) && ct_same (ct_diffn (sa_addr a) (sa_addr b) 16).

(* src/src/transport/conn/cid/pathsel/pathsel.c : pathsel_key_eq *)
Definition pathsel_key_eq (a b : pathsel_key) : bool := (pk_fd a =? pk_fd b) && pathsel_peer_eq (pk_peer a) (pk_peer b).

(** ** pathsel.c: the challenge slots *)

Definition PATHSEL_SLOTS : nat := 2.
Definition PATH_DATA : nat := 8.

(* src/src/transport/conn/cid/pathsel/pathsel.h : pathsel_slot *)
Record pathsel_slot := mk_slot {
  ps_key : pathsel_key; ps_first_ms : Z; ps_last_ms : Z; ps_data : list Z; ps_prev : list Z;
  ps_rx_bytes : Z; ps_tx_bytes : Z; ps_tries : Z; ps_in_use : bool; ps_small : bool }.

(* src/src/transport/conn/cid/pathsel/pathsel.h : pathsel *)
Record pathsel := mk_pathsel {
  pl_slot : list pathsel_slot; pl_last_valid : pathsel_key; pl_target : pathsel_key; pl_gated : bool;
  pl_fresh : pathsel_key; pl_fresh_n : Z; pl_fresh_tx : Z; pl_seeded : bool; pl_matched_small : bool }.

Definition set_slots (p : pathsel) (l : list pathsel_slot) : pathsel :=
  mk_pathsel l (pl_last_valid p) (pl_target p) (pl_gated p) (pl_fresh p) (pl_fresh_n p) (pl_fresh_tx p) (pl_seeded p) (pl_matched_small p).
Definition set_fresh (p : pathsel) (k : pathsel_key) (n tx : Z) : pathsel :=
  mk_pathsel (pl_slot p) (pl_last_valid p) (pl_target p) (pl_gated p) k n tx (pl_seeded p) (pl_matched_small p).
Definition set_bytes (s : pathsel_slot) (rx tx : Z) : pathsel_slot :=
  mk_slot (ps_key s) (ps_first_ms s) (ps_last_ms s) (ps_data s) (ps_prev s) rx tx (ps_tries s) (ps_in_use s) (ps_small s).

(** A zero-initialised state: the keys' addresses are 16 zero bytes. *)
Definition zero_addr : sockaddr := mk_sockaddr 0 0 0 (replicate 16 0) 0.
Definition zero_key : pathsel_key := mk_key 0 zero_addr.
Definition zero_slot : pathsel_slot := mk_slot zero_key 0 0 (replicate PATH_DATA 0) (replicate PATH_DATA 0) 0 0 0 false false.
Definition pathsel_zero : pathsel := mk_pathsel (replicate PATHSEL_SLOTS zero_slot) zero_key zero_key false zero_key 0 0 false false.

(** [for (i = 0; i < PATHSEL_SLOTS; i++) if (f(&slot[i])) return &slot[i];]
    a pointer to a slot is its index. *)
Fixpoint first_slot (f : pathsel_slot -> bool) (l : list pathsel_slot) : option nat :=
  match l with
  | [] => None
  | s :: l' => if f s then Some O else S <$> first_slot f l'
  end.

Definition slot_at (p : pathsel) (i : nat) : pathsel_slot := nth i (pl_slot p) zero_slot.

(* src/src/transport/conn/cid/pathsel/pathsel.c : pathsel_holds *)
Definition pathsel_holds (k : pathsel_key) (s : pathsel_slot) : bool := ps_in_use s && pathsel_key_eq (ps_key s) k.

(* src/src/transport/conn/cid/pathsel/pathsel.c : pathsel_find *)
Definition pathsel_find (p : pathsel) (k : pathsel_key) : option nat := first_slot (pathsel_holds k) (pl_slot p).

(* src/src/transport/conn/cid/pathsel/pathsel.c : pathsel_first_free *)
Definition pathsel_first_free (p : pathsel) : option nat := first_slot (fun s => negb (ps_in_use s)) (pl_slot p).

(* src/src/transport/conn/cid/pathsel/pathsel.c : pathsel_victim *)
Definition pathsel_victim (p : pathsel) (keep : pathsel_key) : nat := if pathsel_holds keep (slot_at p 0) then 1%nat else O.

(* src/src/transport/conn/cid/pathsel/pathsel.c : pathsel_take *)
Definition pathsel_take (p : pathsel) (s : option nat) (k : pathsel_key) : pathsel * option nat :=
  match s with
  | None => (p, None)
  | Some i =>
      (set_slots p (<[i := mk_slot k 0 0 (replicate PATH_DATA 0) (replicate PATH_DATA 0) 0 0 0 true false]> (pl_slot p)), Some i)
  end.

(* src/src/transport/conn/cid/pathsel/pathsel.c : pathsel_seed_rx *)
Definition pathsel_seed_rx (r : pathsel * option nat) : pathsel * option nat :=
  let '(p, s) := r in
  match s with
  | Some i =>
      if pathsel_key_eq (ps_key (slot_at p i)) (pl_fresh p) then
        (set_fresh (set_slots p (<[i := set_bytes (slot_at p i) (pl_fresh_n p) (pl_fresh_tx p)]> (pl_slot p)))
           (pl_fresh p) 0 (pl_fresh_tx p), s)
      else (p, s)
  | None => (p, s)
  end.

(* src/src/transport/conn/cid/pathsel/pathsel.c : pathsel_claim *)
Definition pathsel_claim (p : pathsel) (k keep : pathsel_key) : pathsel * option nat :=
  match pathsel_find p k with
  | Some i => (p, Some i)
  | None =>
      let s := match pathsel_first_free p with Some i => i | None => pathsel_victim p keep end in
      pathsel_seed_rx (pathsel_take p (Some s) k)
  end.

(* src/src/transport/conn/cid/pathsel/pathsel.c : pathsel_claim_free *)
Definition pathsel_claim_free (p : pathsel) (k : pathsel_key) : pathsel * option nat :=
  pathsel_seed_rx (pathsel_take p (pathsel_first_free p) k).

(* src/src/transport/conn/cid/pathsel/pathsel.c : pathsel_note_rx *)
Definition pathsel_note_rx (p : pathsel) (k : pathsel_key) (n : Z) : pathsel :=
  match pathsel_find p k with
  | Some i =>
      let s := slot_at p i in
      set_fresh (set_slots p (<[i := set_bytes s (u64 (ps_rx_bytes s + n)) (ps_tx_bytes s)]> (pl_slot p))) k 0 0
  | None => set_fresh p k n 0
  end.

(* src/src/transport/conn/cid/pathsel/pathsel.c : pathsel_note_tx *)
Definition pathsel_note_tx (p : pathsel) (k : pathsel_key) (n : Z) : pathsel :=
  match pathsel_find p k with
  | Some i =>
      let s := slot_at p i in set_slots p (<[i := set_bytes s (ps_rx_bytes s) (u64 (ps_tx_bytes s + n))]> (pl_slot p))
  | None => set_fresh p (pl_fresh p) (pl_fresh_n p) (u64 (pl_fresh_tx p + if pathsel_key_eq k (pl_fresh p) then n else 0))
  end.

(* src/src/transport/conn/cid/pathsel/pathsel.c : pathsel_fresh_budget *)
Definition pathsel_fresh_budget (p : pathsel) (k : pathsel_key) : Z :=
  if pathsel_key_eq k (pl_fresh p) then antiamp_budget (pl_fresh_n p) (pl_fresh_tx p) else 0.

(* src/src/transport/conn/cid/pathsel/pathsel.c : pathsel_budget *)
Definition pathsel_budget (p : pathsel) (k : pathsel_key) : Z :=
  match pathsel_find p k with
  | Some i => antiamp_budget (ps_rx_bytes (slot_at p i)) (ps_tx_bytes (slot_at p i))
  | None => pathsel_fresh_budget p k
  end.

(** The path of the slot freed. *)
(* src/src/transport/conn/cid/pathsel/pathsel.c : pathsel_release *)
Definition pathsel_release (p : pathsel) (i : nat) : pathsel * option pathsel_key :=
  let s := slot_at p i in
  let freed := mk_slot (ps_key s) (ps_first_ms s) (ps_last_ms s) (ps_data s) (ps_prev s) (ps_rx_bytes s) (ps_tx_bytes s)
                 (ps_tries s) false (ps_small s) in
  (mk_pathsel (<[i := freed]> (pl_slot p)) (pl_last_valid p) (pl_target p) (pl_gated p) (pl_fresh p) (pl_fresh_n p)
     (pl_fresh_tx p) (pl_seeded p) (ps_small s), Some (ps_key s)).

(* src/src/transport/conn/cid/pathsel/pathsel.c : pathsel_echoes *)
Definition pathsel_echoes (resp : list Z) (s : pathsel_slot) : bool :=
  ct_same (ct_diff8 (ps_data s) resp) || (negb (ps_tries s =? 0) && ct_same (ct_diff8 (ps_prev s) resp)).

(* src/src/transport/conn/cid/pathsel/pathsel.c : pathsel_answers *)
Definition pathsel_answers (resp : list Z) (s : pathsel_slot) : bool := ps_in_use s && pathsel_echoes resp s.

(* src/src/transport/conn/cid/pathsel/pathsel.c : pathsel_match *)
Definition pathsel_match (p : pathsel) (resp : list Z) : pathsel * option pathsel_key :=
  match first_slot (pathsel_answers resp) (pl_slot p) with Some i => pathsel_release p i | None => (p, None) end.

(* src/src/transport/conn/cid/pathsel/pathsel.c : pathsel_expired *)
Definition pathsel_expired (now_ms timeout_ms : Z) (s : pathsel_slot) : bool :=
  ps_in_use s && (u64 (ps_first_ms s + timeout_ms) <=? now_ms).

(* src/src/transport/conn/cid/pathsel/pathsel.c : pathsel_expire *)
Definition pathsel_expire (p : pathsel) (now_ms timeout_ms : Z) : pathsel * option pathsel_key :=
  match first_slot (pathsel_expired now_ms timeout_ms) (pl_slot p) with Some i => pathsel_release p i | None => (p, None) end.

(* src/src/transport/conn/cid/pathsel/pathsel.c : pathsel_resend *)
Definition pathsel_resend (now_ms pto_ms : Z) (s : pathsel_slot) : bool :=
  ps_in_use s && (u64 (ps_last_ms s + u64 (Z.shiftl pto_ms (ps_tries s))) <=? now_ms).

(* src/src/transport/conn/cid/pathsel/pathsel.c : pathsel_resend_due *)
Definition pathsel_resend_due (p : pathsel) (now_ms pto_ms : Z) : option nat := first_slot (pathsel_resend now_ms pto_ms) (pl_slot p).

(** ** path.c: two paths, one confirmed *)

Definition PATH_COUNT : nat := 2.

(* src/src/transport/conn/cid/path/path.h : path_state *)
Record path_state := mk_path_state {
  pa_challenge : Z; pa_sent_at : Z; pa_bytes_sent : Z; pa_bytes_received : Z; pa_validated : bool; pa_confirmed : bool }.

(* src/src/transport/conn/cid/path/path.h : path *)
Record path := mk_path { pt_paths : list path_state; pt_active : nat }.

(* src/src/transport/conn/cid/path/path.c : path_init *)
Definition path_init : path := mk_path (replicate PATH_COUNT (mk_path_state 0 0 0 0 false false)) 0.

(** An access to [paths[path]]; [None] outside the array. *)
Definition on_path {A} (p : path) (i : nat) (f : path_state -> A) : option A := f <$> pt_paths p !! i.
Definition put_path (p : path) (i : nat) (s : path_state) : path := mk_path (<[i := s]> (pt_paths p)) (pt_active p).

(* src/src/transport/conn/cid/path/path.c : path_send_challenge *)
Definition path_send_challenge (p : path) (i : nat) (value now : Z) : option path :=
  on_path p i (fun s =>
    put_path p i (mk_path_state value now (pa_bytes_sent s) (pa_bytes_received s) (pa_validated s) (pa_confirmed s))).

(* src/src/transport/conn/cid/path/path.c : response_matches *)
Definition response_matches (s : path_state) (value : Z) : bool := negb (pa_challenge s =? 0) && (pa_challenge s =? value).

(* src/src/transport/conn/cid/path/path.c : path_recv_response *)
Definition path_recv_response (p : path) (i : nat) (value : Z) : option (bool * path) :=
  on_path p i (fun s =>
    if response_matches s value then
      (true, put_path p i (mk_path_state (pa_challenge s) (pa_sent_at s) (pa_bytes_sent s) (pa_bytes_received s) true (pa_confirmed s)))
    else (false, p)).

(* src/src/transport/conn/cid/path/path.c : path_can_send *)
Definition path_can_send (p : path) (i : nat) (n : Z) : option bool :=
  on_path p i (fun s => pa_validated s || (u64 (pa_bytes_sent s + n) <=? u64 (3 * pa_bytes_received s))).

(* src/src/transport/conn/cid/path/path.c : clear_confirmed *)
Definition clear_confirmed (p : path) : path :=
  mk_path ((fun s => mk_path_state (pa_challenge s) (pa_sent_at s) (pa_bytes_sent s) (pa_bytes_received s) (pa_validated s) false) <$> pt_paths p)
    (pt_active p).

(* src/src/transport/conn/cid/path/path.c : path_confirm *)
Definition path_confirm (p : path) (i : nat) : option (bool * path) :=
  s ← pt_paths p !! i;
  if negb (pa_validated s) then Some (false, p)
  else
    let p1 := clear_confirmed p in
    let s1 := mk_path_state (pa_challenge s) (pa_sent_at s) (pa_bytes_sent s) (pa_bytes_received s) (pa_validated s) true in
    Some (true, mk_path (<[i := s1]> (pt_paths p1)) i).

(* src/src/transport/conn/cid/path/path.c : path_abandon_due *)
Definition path_abandon_due (p : path) (i : nat) (now pto : Z) : option bool :=
  on_path p i (fun s =>
    if (pa_challenge s =? 0) || pa_validated s then false else u64 (3 * pto) <=? u64 (now - pa_sent_at s)).

(* src/src/transport/conn/cid/path/path.c : path_revert *)
Definition path_revert (p : path) (i : nat) : option path :=
  on_path p i (fun s =>
    if pa_challenge s =? 0 then p
    else put_path p i (mk_path_state 0 0 (pa_bytes_sent s) (pa_bytes_received s) (pa_validated s) (pa_confirmed s))).

(* src/src/transport/conn/cid/path/prefaddr.c : prefaddr_may_migrate *)
Definition prefaddr_may_migrate (path_validated handshake_confirmed : bool) : bool := path_validated && handshake_confirmed.

(* src/src/transport/conn/cid/path/prefaddr.c : prefaddr_use_cid *)
Definition prefaddr_use_cid (has_preferred_cid : bool) : Z := if has_preferred_cid then 1 else 0.

(** ** migrate.c *)

(* src/src/transport/conn/cid/migrate/migrate.h : migrate *)
Record migrate := mk_migrate {
  mg_handshake_confirmed : bool; mg_detected : bool; mg_challenged : bool; mg_validated : bool; mg_confirmed : bool;
  mg_cur_cid : Z; mg_cc_reset : bool; mg_port_only : bool }.

(* src/src/transport/conn/cid/migrate/migrate.c : migrate_init *)
Definition migrate_init (cid : Z) : migrate := mk_migrate false false false false false cid false false.

(* src/src/transport/conn/cid/migrate/migrate.c : migrate_detect *)
Definition migrate_detect (m : migrate) : migrate :=
  if negb (mg_handshake_confirmed m) then m
  else mk_migrate (mg_handshake_confirmed m) true false false false (mg_cur_cid m) (mg_cc_reset m) (mg_port_only m).

(* src/src/transport/conn/cid/migrate/migrate.c : migrate_challenge *)
Definition migrate_challenge (m : migrate) : migrate :=
  if mg_detected m then
    mk_migrate (mg_handshake_confirmed m) (mg_detected m) true (mg_validated m) (mg_confirmed m) (mg_cur_cid m) (mg_cc_reset m) (mg_port_only m)
  else m.

(* src/src/transport/conn/cid/migrate/migrate.c : migrate_validate *)
Definition migrate_validate (m : migrate) : bool * migrate :=
  if negb (mg_detected m) || negb (mg_challenged m) then (false, m)
  else
    (true, mk_migrate (mg_handshake_confirmed m) (mg_detected m) (mg_challenged m) true (mg_confirmed m) (mg_cur_cid m) (mg_cc_reset m) (mg_port_only m)).

(* src/src/transport/conn/cid/migrate/migrate.c : confirm_ok *)
Definition migrate_confirm_ok (m : migrate) (new_cid : Z) : bool := mg_validated m && negb (new_cid =? mg_cur_cid m).

(* src/src/transport/conn/cid/migrate/migrate.c : migrate_confirm *)
Definition migrate_confirm (m : migrate) (new_cid : Z) (port_only : bool) : bool * migrate :=
  if negb (migrate_confirm_ok m new_cid) then (false, m)
  else
    (true, mk_migrate (mg_handshake_confirmed m) (mg_detected m) (mg_challenged m) (mg_validated m) true new_cid (negb port_only) port_only).

(** ** spin.c *)

Definition SPIN_BIT : Z := 0x20.

(* src/src/transport/conn/cid/spin/spin.c : spin_outgoing *)
Definition spin_outgoing (is_server : bool) (peer_spin : Z) : Z :=
  if is_server then Z.land peer_spin 1 else Z.lxor (Z.land peer_spin 1) 1.

(* src/src/transport/conn/cid/spin/spin.c : spin_get *)
Definition spin_get (byte0 : Z) : Z := if negb (Z.land byte0 SPIN_BIT =? 0) then 1 else 0.

(* src/src/transport/conn/cid/spin/spin.c : spin_set *)
Definition spin_set (byte0 spin : Z) : Z :=
  let cleared := Z.land byte0 (u8 (Z.lnot SPIN_BIT)) in if negb (spin =? 0) then Z.lor cleared SPIN_BIT else cleared.

(* src/src/transport/conn/cid/spin/spin.c : spin_disabled *)
Definition spin_disabled (rand_byte : Z) : bool := Z.rem rand_byte 16 =? 0.

(* src/src/transport/conn/cid/spin/spin.c : spin_outgoing_ex *)
Definition spin_outgoing_ex (is_server : bool) (peer_spin : Z) (disabled : bool) : Z :=
  if disabled then 0 else spin_outgoing is_server peer_spin.

(** ** Keys *)

Definition key_wf (k : pathsel_key) : Prop := length (sa_addr (pk_peer k)) = 16%nat.
(** What identifies a path. *)
Definition pid (k : pathsel_key) : Z * Z * list Z := (pk_fd k, sa_port_be (pk_peer k), sa_addr (pk_peer k)).

Definition key_ok (k : pathsel_key) : Prop := key_wf k /\ bytes_ok (sa_addr (pk_peer k)).

Lemma key_eq_spec a b : key_ok a -> key_ok b -> pathsel_key_eq a b = bool_decide (pid a = pid b).
Proof.
  intros [Hla Ha] [Hlb Hb]. unfold pathsel_key_eq, pathsel_peer_eq, ct_diffn.
  rewrite (ct_loop_eq _ _ (Z.to_nat 16)) by (try done; exact Hla || exact Hlb).
  apply eq_bool_prop_intro. rewrite bool_decide_spec, !andb_True, bool_decide_spec, !Is_true_true, !Z.eqb_eq. unfold pid.
  split; [intros (-> & -> & ->); done | intros [= -> -> ->]; done].
Qed.

Lemma key_eq_refl a : key_ok a -> pathsel_key_eq a a = true.
Proof. intros H. rewrite key_eq_spec by done. by apply bool_decide_true. Qed.

Lemma zero_key_ok : key_ok zero_key.
Proof. split; [reflexivity|]. repeat constructor; cbn; lia. Qed.

Lemma antiamp_budget_spec r s : 0 <= r < 2 ^ 62 -> antiamp_budget r s = Z.max 0 (3 * r - s).
Proof. intros H. unfold antiamp_budget. rewrite u64_small by lia. destruct (Z.leb_spec (3 * r) s); lia. Qed.

(** ** The challenge slots' ledger *)

(** What a slot may still send to path [k]. *)
Definition slot_share (k : pathsel_key) (s : pathsel_slot) : Z :=
  if ps_in_use s then if decide (pid (ps_key s) = pid k) then Z.max 0 (3 * ps_rx_bytes s - ps_tx_bytes s) else 0 else 0.
Definition fresh_share (k : pathsel_key) (p : pathsel) : Z :=
  if decide (pid (pl_fresh p) = pid k) then Z.max 0 (3 * pl_fresh_n p - pl_fresh_tx p) else 0.
(** Everything the state could let out to path [k]. *)
Fixpoint slots_share (k : pathsel_key) (l : list pathsel_slot) : Z :=
  match l with [] => 0 | s :: l' => slot_share k s + slots_share k l' end.
Definition pot (p : pathsel) (k : pathsel_key) : Z := slots_share k (pl_slot p) + fresh_share k p.

(** Counters at most [B], every key a 16-byte address. *)
Definition slot_ok (B : Z) (s : pathsel_slot) : Prop :=
  key_ok (ps_key s) /\ 0 <= ps_rx_bytes s <= B /\ 0 <= ps_tx_bytes s <= B.
Record pathsel_ok (B : Z) (p : pathsel) : Prop := {
  po_len : length (pl_slot p) = 2%nat;
  po_slots : Forall (slot_ok B) (pl_slot p);
  po_fresh : key_ok (pl_fresh p);
  po_fresh_n : 0 <= pl_fresh_n p <= B;
  po_fresh_tx : 0 <= pl_fresh_tx p <= B }.
Arguments po_len {_ _} _. Arguments po_slots {_ _} _. Arguments po_fresh {_ _} _. Arguments po_fresh_n {_ _} _. Arguments po_fresh_tx {_ _} _.

Lemma pathsel_zero_ok : pathsel_ok 0 pathsel_zero.
Proof.
  constructor; cbn; try lia; try done; try apply zero_key_ok.
  repeat (apply Forall_cons_2; [split; [apply zero_key_ok | cbn; lia]|]). apply Forall_nil_2.
Qed.

Lemma slot_share_nonneg k s : 0 <= slot_share k s.
Proof. unfold slot_share. repeat case_decide; repeat case_match; lia. Qed.
Lemma slots_share_nonneg k l : 0 <= slots_share k l.
Proof. induction l as [|s l IH]; cbn; [lia|]. pose proof (slot_share_nonneg k s). lia. Qed.
Lemma fresh_share_nonneg k p : 0 <= fresh_share k p.
Proof. unfold fresh_share. case_decide; lia. Qed.

Lemma pot_nonneg p k : 0 <= pot p k.
Proof. pose proof (slots_share_nonneg k (pl_slot p)). pose proof (fresh_share_nonneg k p). unfold pot. lia. Qed.

Lemma slots_share_insert k l : forall i s,
  (i < length l)%nat -> slots_share k (<[i := s]> l) = slots_share k l - slot_share k (nth i l zero_slot) + slot_share k s.
Proof. induction l as [|s0 l IH]; intros [|i] s Hi; cbn in *; try lia. rewrite IH by lia. lia. Qed.

Lemma slots_share_nth k l i : (i < length l)%nat -> slot_share k (nth i l zero_slot) <= slots_share k l.
Proof.
  revert i; induction l as [|s l IH]; intros [|i] Hi; cbn [nth slots_share length] in *; try lia.
  - pose proof (slots_share_nonneg k l). lia.
  - pose proof (slot_share_nonneg k s). specialize (IH i). lia.
Qed.

Lemma first_slot_Some f l i : first_slot f l = Some i -> (i < length l)%nat /\ f (nth i l zero_slot) = true.
Proof.
  revert i; induction l as [|s l IH]; intros i; cbn; [done|]. destruct (f s) eqn:E; [intros [= <-]; split; [lia|done]|].
  destruct (first_slot f l) as [j|]; cbn; intros [= <-]. destruct (IH j); [done|]. split; [lia|done].
Qed.

Lemma first_slot_None f l s : first_slot f l = None -> s ∈ l -> f s = false.
Proof.
  induction l as [|s0 l IH]; cbn; [by intros _ ?%elem_of_nil|]. destruct (f s0) eqn:E; [done|].
  destruct (first_slot f l); [done|]. intros _ [->|Hs]%elem_of_cons; [done|auto].
Qed.

Section Ledger.
Context (B : Z) (p : pathsel) (Hp : pathsel_ok B p).

Lemma slot_at_ok i : (i < length (pl_slot p))%nat -> slot_ok B (slot_at p i).
Proof. intros Hi. apply (proj1 (List.Forall_forall _ _) (po_slots Hp)), List.nth_In, Hi. Qed.

Lemma find_Some k i : key_ok k -> pathsel_find p k = Some i ->
  (i < length (pl_slot p))%nat /\ ps_in_use (slot_at p i) = true /\ pid (ps_key (slot_at p i)) = pid k.
Proof.
  intros Hk [Hi Hf]%first_slot_Some. split; [done|]. fold (slot_at p i) in Hf. unfold pathsel_holds in Hf.
  apply andb_true_iff in Hf as [Hu Hf]. split; [done|]. rewrite key_eq_spec in Hf by (try done; apply (slot_at_ok i Hi)).
  by apply bool_decide_eq_true in Hf.
Qed.

(** Changing the counters of a slot of path [k]. *)
Lemma set_slot_pot k j i rx tx :
  (i < length (pl_slot p))%nat -> ps_in_use (slot_at p i) = true -> pid (ps_key (slot_at p i)) = pid k ->
  pot (set_slots p (<[i := set_bytes (slot_at p i) rx tx]> (pl_slot p))) j =
    pot p j + if decide (pid k = pid j) then
      Z.max 0 (3 * rx - tx) - Z.max 0 (3 * ps_rx_bytes (slot_at p i) - ps_tx_bytes (slot_at p i)) else 0.
Proof.
  intros Hi Hu Hk. unfold pot. cbn [set_slots pl_slot]. rewrite slots_share_insert by done. fold (slot_at p i).
  unfold slot_share, set_bytes. cbn [ps_in_use ps_key ps_rx_bytes ps_tx_bytes]. rewrite Hu, Hk.
  change (fresh_share j (set_slots p _)) with (fresh_share j p). case_decide; lia.
Qed.

Lemma fresh_pot k n tx j :
  pot (set_fresh p k n tx) j = pot p j - fresh_share j p + (if decide (pid k = pid j) then Z.max 0 (3 * n - tx) else 0).
Proof. unfold pot, set_fresh, fresh_share. cbn [pl_slot pl_fresh pl_fresh_n pl_fresh_tx]. lia. Qed.

Lemma set_slots_ok B' l :
  B <= B' -> length l = 2%nat -> Forall (slot_ok B') l -> pathsel_ok B' (set_slots p l).
Proof. intros HB Hl Hf. destruct Hp. constructor; cbn; done || lia. Qed.

Lemma set_fresh_ok k n tx : key_ok k -> 0 <= n <= B -> 0 <= tx <= B -> pathsel_ok B (set_fresh p k n tx).
Proof. intros. destruct Hp. constructor; done. Qed.

Lemma slots_weaken B' : B <= B' -> Forall (slot_ok B') (pl_slot p).
Proof. intros HB. eapply List.Forall_impl, (po_slots Hp). intros s (? & ? & ?). split; [done|lia]. Qed.

Lemma pathsel_ok_mono B' : B <= B' -> pathsel_ok B' p.
Proof. intros HB. pose proof (slots_weaken B' HB). destruct Hp. constructor; try done; lia. Qed.

Lemma insert_slot_ok B' i s : B <= B' -> slot_ok B' s -> pathsel_ok B' (set_slots p (<[i := s]> (pl_slot p))).
Proof.
  intros HB Hs. apply set_slots_ok; [done|rewrite length_insert; apply (po_len Hp)|].
  apply Forall_insert; [apply slots_weaken, HB | done].
Qed.

End Ledger.

Lemma note_rx_ok B p k n :
  pathsel_ok B p -> key_ok k -> 0 <= n -> B + n < 2 ^ 62 -> pathsel_ok (B + n) (pathsel_note_rx p k n).
Proof.
  intros H Hk Hn HB. pose proof (po_fresh_n H). unfold pathsel_note_rx. destruct (pathsel_find p k) as [i|] eqn:E.
  - destruct (find_Some _ _ H _ _ Hk E) as (Hi & _ & _). destruct (slot_at_ok _ _ H _ Hi) as (? & ? & ?).
    apply set_fresh_ok; try done; [|lia|lia]. apply (insert_slot_ok B); [done|lia|].
    cbn. rewrite u64_small by lia. split; [done|cbn; lia].
  - apply set_fresh_ok; try done; [|lia|lia]. apply (pathsel_ok_mono B); [done|lia].
Qed.

Lemma note_rx_pot B p k n j :
  pathsel_ok B p -> key_ok k -> 0 <= n -> B + n < 2 ^ 62 ->
  pot (pathsel_note_rx p k n) j <= pot p j + if decide (pid k = pid j) then 3 * n else 0.
Proof.
  intros H Hk Hn HB. pose proof (fresh_share_nonneg j p). unfold pathsel_note_rx. destruct (pathsel_find p k) as [i|] eqn:E.
  - destruct (find_Some _ _ H _ _ Hk E) as (Hi & Hu & Hq). destruct (slot_at_ok _ _ H _ Hi) as (? & ? & ?).
    rewrite fresh_pot, (set_slot_pot p k) by done. change (fresh_share j (set_slots p _)) with (fresh_share j p).
    rewrite u64_small by lia. case_decide; lia.
  - rewrite fresh_pot. case_decide; lia.
Qed.

Lemma note_tx_ok B p k n :
  pathsel_ok B p -> key_ok k -> 0 <= n -> B + n < 2 ^ 62 -> pathsel_ok (B + n) (pathsel_note_tx p k n).
Proof.
  intros H Hk Hn HB. pose proof (po_fresh_n H). pose proof (po_fresh_tx H). unfold pathsel_note_tx.
  destruct (pathsel_find p k) as [i|] eqn:E.
  - destruct (find_Some _ _ H _ _ Hk E) as (Hi & _ & _). destruct (slot_at_ok _ _ H _ Hi) as (? & ? & ?).
    apply (insert_slot_ok B); [done|lia|]. cbn. rewrite u64_small by lia. split; [done|cbn; lia].
  - apply set_fresh_ok; [apply (pathsel_ok_mono B); [done|lia]|apply (po_fresh H)|lia|].
    case_match; rewrite u64_small by lia; lia.
Qed.

Lemma budget_le_pot B p k : pathsel_ok B p -> key_ok k -> B < 2 ^ 62 -> 0 <= pathsel_budget p k <= pot p k.
Proof.
  intros H Hk HB. pose proof (slots_share_nonneg k (pl_slot p)). pose proof (fresh_share_nonneg k p). unfold pathsel_budget.
  destruct (pathsel_find p k) as [i|] eqn:E.
  - destruct (find_Some _ _ H _ _ Hk E) as (Hi & Hu & Hq). destruct (slot_at_ok _ _ H _ Hi) as (? & ? & ?).
    rewrite antiamp_budget_spec by lia. pose proof (slots_share_nth k _ _ Hi) as Hs. fold (slot_at p i) in Hs. unfold pot.
    unfold slot_share in Hs. rewrite Hu, Hq, decide_True in Hs by done. lia.
  - unfold pathsel_fresh_budget, pot. rewrite key_eq_spec by (try done; apply (po_fresh H)). pose proof (po_fresh_n H).
    unfold fresh_share in *. case_bool_decide as Hd; [|lia]. rewrite antiamp_budget_spec by lia. rewrite decide_True in * by done. lia.
Qed.

(** Sending takes at least the bytes sent out of what is left, if they fit. *)
Lemma note_tx_pot B p k n j :
  pathsel_ok B p -> key_ok k -> 0 <= n -> B + n < 2 ^ 62 ->
  pot (pathsel_note_tx p k n) j <= pot p j /\
  (n <= pathsel_budget p k -> pid k = pid j -> pot (pathsel_note_tx p k n) j + n <= pot p j).
Proof.
  intros H Hk Hn HB. pose proof (fresh_share_nonneg j p). unfold pathsel_note_tx, pathsel_budget. destruct (pathsel_find p k) as [i|] eqn:E.
  - destruct (find_Some _ _ H _ _ Hk E) as (Hi & Hu & Hq). destruct (slot_at_ok _ _ H _ Hi) as (? & ? & ?).
    rewrite (set_slot_pot p k), antiamp_budget_spec by (done || lia). rewrite u64_small by lia. case_decide; [|split; [lia|congruence]]. lia.
  - rewrite fresh_pot. pose proof (po_fresh_tx H). pose proof (po_fresh_n H). unfold pathsel_fresh_budget.
    rewrite key_eq_spec by (try done; apply (po_fresh H)). unfold fresh_share. case_bool_decide as Hd.
    + rewrite antiamp_budget_spec, u64_small by lia. case_decide; [lia|]. split; [lia|congruence].
    + rewrite Z.add_0_r, u64_small by lia. case_decide; lia.
Qed.

Lemma release_ok B p i :
  pathsel_ok B p -> (i < length (pl_slot p))%nat ->
  pathsel_ok B (pathsel_release p i).1 /\ forall j, pot (pathsel_release p i).1 j <= pot p j.
Proof.
  intros H Hi. destruct (slot_at_ok _ _ H _ Hi) as (? & ? & ?). split.
  - destruct H as [Hl Hs ? ? ?]. constructor; cbn; try done; [by rewrite length_insert|].
    apply Forall_insert; [done|]. split; [done|cbn; lia].
  - intros j. unfold pot, pathsel_release. cbn [fst pl_slot]. rewrite slots_share_insert by done. fold (slot_at p i).
    pose proof (slot_share_nonneg j (slot_at p i)).
    match goal with |- context [fresh_share j ?q] => change (fresh_share j q) with (fresh_share j p) end.
    unfold slot_share at 2. cbn [ps_in_use]. lia.
Qed.

Lemma match_ok B p resp :
  pathsel_ok B p -> pathsel_ok B (pathsel_match p resp).1 /\ forall j, pot (pathsel_match p resp).1 j <= pot p j.
Proof.
  intros H. unfold pathsel_match. destruct (first_slot _ _) as [i|] eqn:E; [|split; [done|cbn; lia]].
  apply first_slot_Some in E as [Hi _]. by apply release_ok.
Qed.

Lemma expire_ok B p now t :
  pathsel_ok B p -> pathsel_ok B (pathsel_expire p now t).1 /\ forall j, pot (pathsel_expire p now t).1 j <= pot p j.
Proof.
  intros H. unfold pathsel_expire. destruct (first_slot _ _) as [i|] eqn:E; [|split; [done|cbn; lia]].
  apply first_slot_Some in E as [Hi _]. by apply release_ok.
Qed.

(** A slot given to [k]: nothing is added to what may be sent. *)
Lemma take_seed_ok B p s k :
  pathsel_ok B p -> key_ok k -> (forall i, s = Some i -> (i < length (pl_slot p))%nat) ->
  let q := (pathsel_seed_rx (pathsel_take p s k)).1 in
  pathsel_ok B q /\ forall j, pot q j <= pot p j.
Proof.
  intros H Hk Hs. destruct s as [i|]; cbn [pathsel_take pathsel_seed_rx]; [|split; [done|cbn; lia]]. specialize (Hs i eq_refl).
  set (s0 := mk_slot k 0 0 _ _ 0 0 0 true false). set (p1 := set_slots p (<[i:=s0]> (pl_slot p))).
  pose proof (po_fresh_n H). pose proof (po_fresh_tx H).
  assert (pathsel_ok B p1) as Hp1 by (apply (insert_slot_ok B); [done|lia|split; [done|cbn; lia]]).
  assert (slot_at p1 i = s0) as Hi.
  { unfold slot_at, p1. cbn [pl_slot set_slots]. apply nth_lookup_Some, list_lookup_insert_eq, Hs. }
  assert (forall j, pot p1 j <= pot p j) as Hpot.
  { intros j. unfold pot, p1. cbn [set_slots pl_slot]. rewrite slots_share_insert by done.
    pose proof (slot_share_nonneg j (nth i (pl_slot p) zero_slot)).
    change (fresh_share j (set_slots p _)) with (fresh_share j p). unfold slot_share at 2. cbn. case_decide; lia. }
  change (pl_fresh p) with (pl_fresh p1). rewrite Hi. cbn [ps_key s0]. rewrite key_eq_spec by (try done; apply (po_fresh Hp1)).
  case_bool_decide as Hd; cbn [fst]; [|done]. split.
  - apply set_fresh_ok; [|apply (po_fresh Hp1)|cbn; lia|cbn; lia]. rewrite <- Hi.
    apply (insert_slot_ok B); [done|lia|]. rewrite Hi. split; [done|cbn; lia].
  - intros j. rewrite fresh_pot. rewrite <- Hi.
    rewrite (set_slot_pot p1 k) by (try (by rewrite Hi); unfold p1; cbn; by rewrite length_insert).
    specialize (Hpot j). rewrite Hi. change (fresh_share j (set_slots p1 _)) with (fresh_share j p1).
    unfold fresh_share. rewrite <- Hd. cbn [s0 ps_rx_bytes ps_tx_bytes]. change (pl_fresh_tx p1) with (pl_fresh_tx p).
    case_decide; lia.
Qed.

Lemma claim_free_ok B p k :
  pathsel_ok B p -> key_ok k -> let q := (pathsel_claim_free p k).1 in pathsel_ok B q /\ forall j, pot q j <= pot p j.
Proof. intros H Hk. apply take_seed_ok; try done. by intros i [Hi _]%first_slot_Some. Qed.

Lemma claim_ok B p k keep :
  pathsel_ok B p -> key_ok k -> let q := (pathsel_claim p k keep).1 in pathsel_ok B q /\ forall j, pot q j <= pot p j.
Proof.
  intros H Hk. unfold pathsel_claim. destruct (pathsel_find p k) as [i|]; [split; [done|cbn; lia]|].
  apply take_seed_ok; try done. intros i [= <-]. destruct (pathsel_first_free p) as [i|] eqn:E.
  - by apply first_slot_Some in E as [Hi _].
  - rewrite (po_len H). unfold pathsel_victim. case_match; lia.
Qed.

(** The slot a claim returns holds the path. *)
Lemma claim_holds B p k keep : pathsel_ok B p -> key_ok k ->
  exists i, (pathsel_claim p k keep).2 = Some i /\ pathsel_find (pathsel_claim p k keep).1 k <> None.
Proof.
  intros H Hk. unfold pathsel_claim. destruct (pathsel_find p k) as [i|] eqn:E; [exists i; cbn; by rewrite E|].
  set (s := match pathsel_first_free p with Some i => i | None => _ end).
  assert (s < length (pl_slot p))%nat as Hs.
  { subst s. destruct (pathsel_first_free p) as [i|] eqn:Ef; [by apply first_slot_Some in Ef as [Hi _]|].
    rewrite (po_len H). unfold pathsel_victim. case_match; lia. }
  destruct (take_seed_ok B p (Some s) k) as [Hq _]; try done; [by intros i [= <-]|].
  exists s. cbn [pathsel_take pathsel_seed_rx] in *.
  set (p1 := set_slots p _) in *. assert (p1 = set_slots p (<[s := slot_at p1 s]> (pl_slot p)) /\ ps_key (slot_at p1 s) = k /\ ps_in_use (slot_at p1 s) = true) as (E1 & Hk1 & Hu).
  { unfold p1, slot_at. cbn [pl_slot set_slots]. by rewrite (nth_lookup_Some _ _ _ _ (list_lookup_insert_eq _ _ _ Hs)). }
  assert (length (pl_slot p1) = length (pl_slot p)) as Hlp by (unfold p1; cbn; by rewrite length_insert).
  case_match; split; try done; intros Hf; cbn [fst] in Hf; unfold pathsel_find in Hf.
  - eapply first_slot_None in Hf; [|cbn [pl_slot set_fresh set_slots]; apply list_elem_of_lookup_2 with s, list_lookup_insert_eq; lia].
    unfold pathsel_holds in Hf. cbn [ps_in_use ps_key set_bytes] in Hf. rewrite Hk1, Hu, key_eq_refl in Hf by done. done.
  - assert (slot_at p1 s ∈ pl_slot p1) as Hin by (apply list_elem_of_In, List.nth_In; lia).
    eapply first_slot_None in Hf; [|exact Hin]. unfold pathsel_holds in Hf. rewrite Hk1, Hu, key_eq_refl in Hf by done. done.
Qed.

(** ** Any sequence of operations on the slots *)

(** The operations, and the caller's filling of a slot it claimed. [PTx] is a
    send that is charged only when it fits the budget; [PTxFree] one that the
    caller exempts (a validated path). *)
Inductive path_op :=
  | PRx (k : pathsel_key) (n : Z) | PTx (k : pathsel_key) (n : Z) | PTxFree (k : pathsel_key) (n : Z)
  | PClaim (k keep : pathsel_key) | PClaimFree (k : pathsel_key) | PMatch (resp : list Z) | PExpire (now timeout : Z)
  | PArm (i : nat) (first last : Z) (data prev : list Z) (tries : Z) (small : bool).

Definition op_keys (o : path_op) : list pathsel_key :=
  match o with PRx k _ | PTx k _ | PTxFree k _ | PClaimFree k => [k] | PClaim k k' => [k; k'] | _ => [] end.
Definition op_bytes (o : path_op) : Z := match o with PRx _ n | PTx _ n | PTxFree _ n => n | _ => 0 end.

Definition arm_slot (s : pathsel_slot) (first last : Z) (data prev : list Z) (tries : Z) (small : bool) : pathsel_slot :=
  mk_slot (ps_key s) first last data prev (ps_rx_bytes s) (ps_tx_bytes s) tries (ps_in_use s) small.

(** The bytes sent under the budget, and the state after. *)
Definition path_do (p : pathsel) (o : path_op) : Z * pathsel :=
  match o with
  | PRx k n => (0, pathsel_note_rx p k n)
  | PTx k n => if pathsel_budget p k <? n then (0, p) else (n, pathsel_note_tx p k n)
  | PTxFree k n => (0, pathsel_note_tx p k n)
  | PClaim k keep => (0, (pathsel_claim p k keep).1)
  | PClaimFree k => (0, (pathsel_claim_free p k).1)
  | PMatch resp => (0, (pathsel_match p resp).1)
  | PExpire now t => (0, (pathsel_expire p now t).1)
  | PArm i first last data prev tries small =>
      (0, set_slots p (<[i := arm_slot (slot_at p i) first last data prev tries small]> (pl_slot p)))
  end.

(** Bytes sent to [k] under the budget, and bytes received from it. *)
Fixpoint sent_to (k : pathsel_key) (ops : list path_op) (p : pathsel) : Z :=
  match ops with
  | [] => 0
  | o :: ops' =>
      let '(n, p') := path_do p o in
      (match o with PTx k' _ => if decide (pid k' = pid k) then n else 0 | _ => 0 end) + sent_to k ops' p'
  end.
Fixpoint received_from (k : pathsel_key) (ops : list path_op) : Z :=
  match ops with
  | [] => 0
  | PRx k' n :: ops' => (if decide (pid k' = pid k) then n else 0) + received_from k ops'
  | _ :: ops' => received_from k ops'
  end.
Definition total_bytes (ops : list path_op) : Z := foldr (fun o a => op_bytes o + a) 0 ops.

Lemma total_bytes_nonneg ops : Forall (fun o => 0 <= op_bytes o) ops -> 0 <= total_bytes ops.
Proof. unfold total_bytes. induction 1; cbn [foldr]; lia. Qed.

Lemma arm_ok B p i first last data prev tries small :
  pathsel_ok B p ->
  let q := set_slots p (<[i := arm_slot (slot_at p i) first last data prev tries small]> (pl_slot p)) in
  pathsel_ok B q /\ forall j, pot q j = pot p j.
Proof.
  intros H. destruct (decide (i < length (pl_slot p))%nat) as [Hi|Hi].
  - destruct (slot_at_ok _ _ H _ Hi) as (? & ? & ?). split; [apply (insert_slot_ok B); [done|lia|split; [done|cbn; lia]]|].
    intros j. unfold pot. cbn [set_slots pl_slot]. rewrite slots_share_insert by done. fold (slot_at p i).
    change (slot_share j (arm_slot (slot_at p i) first last data prev tries small)) with (slot_share j (slot_at p i)).
    change (fresh_share j (set_slots p _)) with (fresh_share j p). lia.
  - rewrite list_insert_ge by lia. destruct p. split; [exact H|done].
Qed.

Lemma path_do_ok B p o k :
  pathsel_ok B p -> Forall key_ok (op_keys o) -> 0 <= op_bytes o -> B + op_bytes o < 2 ^ 62 ->
  pathsel_ok (B + op_bytes o) (path_do p o).2 /\
  pot (path_do p o).2 k + sent_to k [o] p <= pot p k + 3 * received_from k [o].
Proof.
  intros H Hk Hn HB. unfold sent_to, received_from.
  destruct o as [k' n|k' n|k' n|k' keep|k'|resp|now t|i f l d pv t s]; cbn [op_keys op_bytes path_do sent_to received_from fst snd] in *;
    try (apply Forall_cons_1 in Hk as [Hk _]); rewrite ?Z.add_0_r in *.
  - split; [by apply note_rx_ok|]. pose proof (note_rx_pot B p k' n k H Hk Hn HB). case_decide; lia.
  - destruct (Z.ltb_spec (pathsel_budget p k') n); cbn [fst snd].
    + split; [by apply (pathsel_ok_mono B); [|lia]|]. case_decide; lia.
    + split; [by apply note_tx_ok|]. destruct (note_tx_pot B p k' n k H Hk Hn HB) as [H1 H2]. case_decide; [specialize (H2 ltac:(lia) ltac:(done))|]; lia.
  - split; [by apply note_tx_ok|]. destruct (note_tx_pot B p k' n k H Hk Hn HB) as [H1 _]. lia.
  - destruct (claim_ok B p k' keep H Hk) as [H1 H2]. specialize (H2 k). split; [done|lia].
  - destruct (claim_free_ok B p k' H Hk) as [H1 H2]. specialize (H2 k). split; [done|lia].
  - destruct (match_ok B p resp H) as [H1 H2]. specialize (H2 k). split; [done|lia].
  - destruct (expire_ok B p now t H) as [H1 H2]. specialize (H2 k). split; [done|lia].
  - destruct (arm_ok B p i f l d pv t s H) as [H1 H2]. specialize (H2 k). split; [done|lia].
Qed.

Lemma sent_to_cons k o ops p : sent_to k (o :: ops) p = sent_to k [o] p + sent_to k ops (path_do p o).2.
Proof. cbn [sent_to]. destruct (path_do p o). cbn. lia. Qed.
Lemma received_from_cons k o ops : received_from k (o :: ops) = received_from k [o] + received_from k ops.
Proof. destruct o; cbn; lia. Qed.

Lemma path_run_ok k ops : forall B p,
  pathsel_ok B p -> Forall (fun o => Forall key_ok (op_keys o) /\ 0 <= op_bytes o) ops -> B + total_bytes ops < 2 ^ 62 ->
  sent_to k ops p <= pot p k + 3 * received_from k ops.
Proof.
  induction ops as [|o ops IH]; intros B p H Ho HB; [pose proof (pot_nonneg p k); cbn; lia|].
  apply Forall_cons_1 in Ho as [[Hk Hn] Ho]. cbn [total_bytes foldr] in HB. fold (total_bytes ops) in HB.
  assert (0 <= total_bytes ops) by (apply total_bytes_nonneg; eapply List.Forall_impl, Ho; by intros ? []).
  destruct (path_do_ok B p o k H Hk Hn) as [H1 H2]; [lia|].
  specialize (IH _ _ H1 Ho ltac:(lia)). rewrite sent_to_cons, received_from_cons. lia.
Qed.

(** C9: the server's path table never lets it amplify traffic to a path it has
    not validated (RFC 9000 8). Over any sequence of operations on the challenge
    slots, in any order (datagrams received and sent on any paths, slots claimed
    and evicted, challenges armed, matched and expired), the bytes sent to a path
    under its budget never exceed three times the bytes received from it, even
    as the count moves between the path's slot and the record of the latest
    datagram. *)
Theorem unvalidated_path_bounded ops k :
  Forall (fun o => Forall key_ok (op_keys o) /\ 0 <= op_bytes o) ops -> total_bytes ops < 2 ^ 62 -> key_ok k ->
  sent_to k ops pathsel_zero <= 3 * received_from k ops.
Proof.
  intros Ho HB Hk. pose proof (path_run_ok k ops 0 pathsel_zero pathsel_zero_ok Ho ltac:(lia)) as H.
  assert (pot pathsel_zero k = 0) as E by (unfold pot, fresh_share; cbn; case_decide; lia). lia.
Qed.

Definition key_on (port : Z) : pathsel_key := mk_key 7 (mk_sockaddr 10 port 0 (replicate 16 1) 0).

Lemma unvalidated_path_bounded_witness :
  let k := key_on 443 in
  let ops := [PRx k 400; PTx k 1000; PClaimFree k; PTx k 200; PTx k 1; PMatch (replicate 8 0); PTx k 5; PRx k 100; PTx k 250] in
  sent_to k ops pathsel_zero <= 3 * received_from k ops /\ sent_to k ops pathsel_zero = 1450.
Proof.
  split; [apply unvalidated_path_bounded|]; try (vm_compute; reflexivity).
  - repeat (apply Forall_cons_2; [split; [repeat constructor; cbn; lia | cbn; lia]|]). apply Forall_nil_2.
  - split; [reflexivity|]. repeat constructor; cbn; lia.
Defined.

(** ** Two-path validation *)

(** The states of path.c: the ghost list holds the paths whose challenge was
    answered. The byte counters belong to the caller. *)
Inductive path_reach : list nat -> path -> Prop :=
  | pr_init : path_reach [] path_init
  | pr_challenge a p i v now p' : path_reach a p -> path_send_challenge p i v now = Some p' -> path_reach a p'
  | pr_response_no a p i v p' : path_reach a p -> path_recv_response p i v = Some (false, p') -> path_reach a p'
  | pr_response a p i v p' : path_reach a p -> path_recv_response p i v = Some (true, p') -> path_reach (i :: a) p'
  | pr_confirm a p i ok p' : path_reach a p -> path_confirm p i = Some (ok, p') -> path_reach a p'
  | pr_revert a p i p' : path_reach a p -> path_revert p i = Some p' -> path_reach a p'
  | pr_count a p i s tx rx : path_reach a p -> pt_paths p !! i = Some s ->
      path_reach a (put_path p i (mk_path_state (pa_challenge s) (pa_sent_at s) tx rx (pa_validated s) (pa_confirmed s))).

Record path_inv (a : list nat) (p : path) : Prop := {
  pi_len : length (pt_paths p) = PATH_COUNT;
  pi_valid : forall i s, pt_paths p !! i = Some s -> pa_validated s = true <-> i ∈ a;
  pi_confirmed : forall i s, pt_paths p !! i = Some s -> pa_confirmed s = true -> pa_validated s = true /\ pt_active p = i }.

(** An update that keeps the validated and confirmed flags. *)
Lemma path_inv_put a p i s s' :
  path_inv a p -> pt_paths p !! i = Some s -> pa_validated s' = pa_validated s -> pa_confirmed s' = pa_confirmed s ->
  path_inv a (put_path p i s').
Proof.
  intros [Hl Hv Hc] Hs Ev Ec. constructor; cbn [put_path pt_paths pt_active]; [by rewrite length_insert| |];
    intros j t [[<- [<- _]]|[? Ht]]%list_lookup_insert_Some; rewrite ?Ev, ?Ec; eauto.
Qed.

Lemma path_reach_inv a p : path_reach a p -> path_inv a p.
Proof.
  induction 1 as [|a p i v now p' _ IH E|a p i v p' _ IH E|a p i v p' _ IH E|a p i ok p' _ IH E|a p i p' _ IH E|a p i s tx rx _ IH E].
  - constructor; [done| |]; intros i s Hs; apply lookup_replicate in Hs as [-> _]; cbn; [|done].
    split; [done|]. by intros ?%elem_of_nil.
  - unfold path_send_challenge, on_path in E. apply fmap_Some in E as (s & Hs & ->). by eapply path_inv_put.
  - unfold path_recv_response, on_path in E. apply fmap_Some in E as (s & Hs & Es). case_match; simplify_eq. done.
  - unfold path_recv_response, on_path in E. apply fmap_Some in E as (s & Hs & Es). case_match; simplify_eq.
    destruct IH as [Hl Hv Hc]. constructor; cbn [put_path pt_paths pt_active]; [by rewrite length_insert| |];
      intros j t [[<- [<- _]]|[? Ht]]%list_lookup_insert_Some; cbn [pa_validated pa_confirmed].
    + split; [left | done].
    + rewrite (Hv _ _ Ht), elem_of_cons. naive_solver.
    + intros Hcf. split; [done|]. by eapply Hc.
    + by apply Hc.
  - unfold path_confirm in E. destruct (pt_paths p !! i) as [s|] eqn:Hs; [|done]. cbn in E.
    destruct (pa_validated s) eqn:Ev; simplify_eq/=; [|done]. destruct IH as [Hl Hv Hc].
    constructor; cbn [pt_paths pt_active]; [by rewrite length_insert, length_fmap| |];
      intros j t [[<- [<- _]]|[? Ht]]%list_lookup_insert_Some; cbn [pa_validated pa_confirmed]; try done.
    + split; [intros _; by apply (Hv _ _ Hs) | done].
    + apply list_lookup_fmap_Some in Ht as (t' & -> & Ht). by apply (Hv j t').
    + apply list_lookup_fmap_Some in Ht as (t' & -> & Ht). done.
  - unfold path_revert, on_path in E. apply fmap_Some in E as (s & Hs & ->). case_match; [done|]. by eapply path_inv_put.
  - by eapply path_inv_put.
Qed.

(** In every reachable state a path is validated exactly when a response matched
    its outstanding challenge, a confirmed path is validated, and it is the
    active one: at most one path is confirmed. *)
Theorem migration_target_validated a p i s :
  path_reach a p -> pt_paths p !! i = Some s -> (pa_validated s = true <-> i ∈ a) /\
  (pa_confirmed s = true -> i ∈ a /\ pt_active p = i /\ forall j t, pt_paths p !! j = Some t -> pa_confirmed t = true -> j = i).
Proof.
  intros [Hl Hv Hc]%path_reach_inv Hs. split; [by apply Hv|]. intros Hcf. destruct (Hc i s Hs Hcf) as [Hval Hact].
  split; [by apply (Hv i s)|]. split; [done|]. intros j t Ht Htc. destruct (Hc j t Ht Htc). congruence.
Qed.

(** ** The spin bit *)

(** The two ends of a connection: each answered flight flips the client's bit
    once per round trip, whatever the other bits of the first byte. *)
Theorem spin_flips_each_round_trip b c s :
  is_u8 b -> is_u8 c -> 0 <= s < 2 ->
  let at_server := spin_set b s in
  let reflected := spin_set c (spin_outgoing true (spin_get at_server)) in
  spin_get at_server = s /\ Z.land at_server 0xdf = Z.land b 0xdf /\
  spin_outgoing false (spin_get reflected) = 1 - s.
Proof.
  intros Hb Hc Hs. assert (forall b s, is_u8 b -> 0 <= s < 2 -> spin_get (spin_set b s) = s /\ Z.land (spin_set b s) 0xdf = Z.land b 0xdf) as H.
  { clear. intros b s Hb Hs.
    assert (forallb (fun b => forallb (fun s => (spin_get (spin_set b s) =? s) && (Z.land (spin_set b s) 0xdf =? Z.land b 0xdf)) [0; 1]) (seqZ 0 256) = true) as E by (vm_compute; reflexivity).
    pose proof (proj1 (forallb_forall _ _) E b) as Eb. cbv beta in Eb. specialize (Eb ltac:(apply list_elem_of_In, elem_of_seqZ; unfold is_u8 in *; lia)).
    pose proof (proj1 (forallb_forall _ _) Eb s) as Es. cbv beta in Es. specialize (Es ltac:(cbn; lia)).
    apply andb_true_iff in Es as [? ?]. split; by apply Z.eqb_eq. }
  cbv zeta. destruct (H b s Hb Hs) as [-> ->]. split; [done|]. split; [done|].
  assert (0 <= spin_outgoing true s < 2) as Ho by (cbn; rewrite land_1; apply Z.mod_pos_bound; lia).
  destruct (H c (spin_outgoing true s) Hc Ho) as [-> _].
  assert (s = 0 \/ s = 1) as [-> | ->] by lia; reflexivity.
Qed.
