(* ===== verification/PeerCid.v ===== *)
(** * The peer's connection ids

    src/src/transport/conn/cid/peercid: the pool of connection ids the peer
    issued (NEW_CONNECTION_ID), their binding to paths, their retirement
    (RETIRE_CONNECTION_ID) and the reset tokens they carry, with the accounting
    of every id over any run and what the 128-bit record of retired numbers does
    not cover; sreset and
    sresetdrive: building and recognising a stateless reset; cidxchg: the ids
    exchanged in the first flights. *)

From stdpp Require Import base numbers list option.
From Stdlib Require Import ZArith Lia.
From S2P Require Import Prelude Bytes Frames Paths.
Import Ncid.

(** ** The pool *)

Definition PEERCID_CAP : nat := 4.
Definition PEERCID_RETIRE : Z := 8.
Definition ERR_CONNECTION_ID_LIMIT_ERROR : Z := 0x09.
Definition ERR_PROTOCOL_VIOLATION : Z := 0x0a.

(* src/src/transport/conn/cid/peercid/peercid.h : peercid_entry *)
Record peercid_entry := mk_entry {
  pe_key : pathsel_key; pe_seq : Z; pe_cid : list Z; pe_len : Z; pe_in_use : bool; pe_bound : bool; pe_shared : bool;
  pe_has_token : bool; pe_token : list Z }.

(** [retire] holds the entries in use of the C array; [retire_n] is their number. *)
(* src/src/transport/conn/cid/peercid/peercid.h : peercid *)
Record peercid := mk_peercid {
  pc_e : list peercid_entry; pc_retire : list Z; pc_rpt : Z; pc_gone : Z; pc_past : Z; pc_empty : bool }.

Definition zero_entry : peercid_entry := mk_entry zero_key 0 (replicate 20 0) 0 false false false false (replicate 16 0).
Definition set_e (p : peercid) (l : list peercid_entry) : peercid :=
  mk_peercid l (pc_retire p) (pc_rpt p) (pc_gone p) (pc_past p) (pc_empty p).
Definition entry_at (p : peercid) (i : nat) : peercid_entry := nth i (pc_e p) zero_entry.
Definition put_entry (p : peercid) (i : nat) (e : peercid_entry) : peercid := set_e p (<[i := e]> (pc_e p)).

(** The first entry with [f], by index: a pointer into the pool. *)
Fixpoint first_entry (f : peercid_entry -> bool) (l : list peercid_entry) : option nat :=
  match l with
  | [] => None
  | e :: l' => if f e then Some O else S <$> first_entry f l'
  end.

(** ** peercid_retire.c *)

(* src/src/transport/conn/cid/peercid/peercid_retire.c : peercid_owe *)
Definition peercid_owe (p : peercid) (seq : Z) : bool * peercid :=
  if zlen (pc_retire p) =? PEERCID_RETIRE then (false, p)
  else (true, mk_peercid (pc_e p) (pc_retire p ++ [seq]) (pc_rpt p) (pc_gone p) (pc_past p) (pc_empty p)).

(* src/src/transport/conn/cid/peercid/peercid_retire.c : peercid_bit *)
Definition peercid_bit (p : peercid) (seq : Z) : Z :=
  let d := u64 (seq - pc_rpt p) in if d <? 64 then u64 (Z.shiftl 1 d) else 0.

(* src/src/transport/conn/cid/peercid/peercid_retire.c : peercid_past_bit *)
Definition peercid_past_bit (p : peercid) (seq : Z) : Z :=
  let d := u64 (seq + 64 - pc_rpt p) in if d <? 64 then u64 (Z.shiftl 1 d) else 0.

(* src/src/transport/conn/cid/peercid/peercid_retire.c : peercid_retired *)
Definition peercid_retired (p : peercid) (seq : Z) : bool :=
  let g := Z.land (pc_gone p) (peercid_bit p seq) in
  negb (Z.lor g (Z.land (pc_past p) (peercid_past_bit p seq)) =? 0).

(* src/src/transport/conn/cid/peercid/peercid_retire.c : peercid_retire_once *)
Definition peercid_retire_once (p : peercid) (seq : Z) : bool * peercid :=
  let '(ok, p1) := peercid_owe p seq in
  if negb ok then (false, p1)
  else
    (true, mk_peercid (pc_e p1) (pc_retire p1) (pc_rpt p1) (Z.lor (pc_gone p1) (peercid_bit p1 seq))
             (Z.lor (pc_past p1) (peercid_past_bit p1 seq)) (pc_empty p1)).

(* src/src/transport/conn/cid/peercid/peercid_retire.c : peercid_owe_err *)
Definition peercid_owe_err (p : peercid) (seq : Z) : Z * peercid :=
  let '(ok, p1) := peercid_retire_once p seq in ((if ok then 0 else ERR_CONNECTION_ID_LIMIT_ERROR), p1).

(** One step of the two records' shift. *)
Fixpoint slide_loop (n : nat) (gone past : Z) : Z * Z :=
  match n with
  | O => (gone, past)
  | S n' => slide_loop n' (Z.shiftr gone 1) (Z.lor (Z.shiftr past 1) (u64 (Z.shiftl gone 63)))
  end.

(* src/src/transport/conn/cid/peercid/peercid_retire.c : peercid_slide *)
Definition peercid_slide (p : peercid) (rpt : Z) : peercid :=
  let d := u64 (rpt - pc_rpt p) in
  let '(gone, past) := slide_loop (Z.to_nat (if d <? 128 then d else 128)) (pc_gone p) (pc_past p) in
  mk_peercid (pc_e p) (pc_retire p) rpt gone past (pc_empty p).

Definition free_entry (e : peercid_entry) : peercid_entry :=
  mk_entry (pe_key e) (pe_seq e) (pe_cid e) (pe_len e) false (pe_bound e) (pe_shared e) (pe_has_token e) (pe_token e).

(* src/src/transport/conn/cid/peercid/peercid_retire.c : peercid_drop *)
Definition peercid_drop (p : peercid) (i : nat) : bool * peercid :=
  let '(ok, p1) := peercid_retire_once p (pe_seq (entry_at p i)) in
  if negb ok then (false, p1) else (true, put_entry p1 i (free_entry (entry_at p1 i))).

(** The number popped, if any. *)
(* src/src/transport/conn/cid/peercid/peercid_retire.c : peercid_take_retire *)
Definition peercid_take_retire (p : peercid) : option Z * peercid :=
  match pc_retire p with
  | [] => (None, p)
  | seq :: rest => (Some seq, mk_peercid (pc_e p) rest (pc_rpt p) (pc_gone p) (pc_past p) (pc_empty p))
  end.

(** ** peercid.c *)

(** [memcpy(dst, src, n)] into an array of the struct. *)
Definition copy_into (dst src : list Z) (n : Z) : list Z := take (Z.to_nat n) src ++ drop (Z.to_nat n) dst.

(* src/src/transport/conn/cid/peercid/peercid.c : peercid_hold *)
Definition peercid_hold (p : peercid) (f : ncid_frame) : Z * peercid :=
  match first_entry (fun e => negb (pe_in_use e)) (pc_e p) with
  | Some i =>
      (0, put_entry p i
            (mk_entry zero_key (nc_seq f) (copy_into (replicate 20 0) (nc_cid f) (nc_cid_len f)) (nc_cid_len f) true false false
               (negb (nc_seq f =? 0)) (copy_into (replicate 16 0) (nc_token f) NCID_TOKEN)))
  | None => (ERR_CONNECTION_ID_LIMIT_ERROR, p)
  end.

(* src/src/transport/conn/cid/peercid/peercid.c : peercid_init *)
Definition peercid_init (cid0 : list Z) : peercid :=
  let p := mk_peercid (replicate PEERCID_CAP zero_entry) [] 0 0 0 (zlen cid0 =? 0) in
  (peercid_hold p (mk_ncid 0 0 (u8 (zlen cid0)) (copy_into (replicate 20 0) cid0 (zlen cid0)) (replicate 16 0))).2.

(* src/src/transport/conn/cid/peercid/peercid.c : peercid_is *)
Definition peercid_is (seq : Z) (e : peercid_entry) : bool := pe_in_use e && (pe_seq e =? seq).

(* src/src/transport/conn/cid/peercid/peercid.c : peercid_held *)
Definition peercid_held (p : peercid) (seq : Z) : option nat := first_entry (peercid_is seq) (pc_e p).

(* src/src/transport/conn/cid/peercid/peercid.c : peercid_same *)
Definition peercid_same (e : peercid_entry) (f : ncid_frame) : bool :=
  (pe_len e =? nc_cid_len f) && ct_same (ct_diffn (pe_cid e) (nc_cid f) (pe_len e)).

(* src/src/transport/conn/cid/peercid/peercid.c : peercid_store *)
Definition peercid_store (p : peercid) (f : ncid_frame) : Z * peercid :=
  match peercid_held p (nc_seq f) with
  | Some i => ((if peercid_same (entry_at p i) f then 0 else ERR_PROTOCOL_VIOLATION), p)
  | None => peercid_hold p f
  end.

(* src/src/transport/conn/cid/peercid/peercid.c : peercid_below *)
Definition peercid_below (e : peercid_entry) (rpt : Z) : bool := pe_in_use e && (pe_seq e <? rpt).

Fixpoint drop_below_loop (p : peercid) (rpt : Z) (i n : nat) (full : bool) : bool * peercid :=
  match n with
  | O => (full, p)
  | S n' =>
      if peercid_below (entry_at p i) rpt then
        let '(ok, p1) := peercid_drop p i in drop_below_loop p1 rpt (S i) n' (full || negb ok)
      else drop_below_loop p rpt (S i) n' full
  end.

(* src/src/transport/conn/cid/peercid/peercid.c : peercid_drop_below *)
Definition peercid_drop_below (p : peercid) (rpt : Z) : bool * peercid := drop_below_loop p rpt 0 PEERCID_CAP false.

(* src/src/transport/conn/cid/peercid/peercid.c : peercid_raise_rpt *)
Definition peercid_raise_rpt (p : peercid) (rpt : Z) : bool * peercid :=
  if rpt <=? pc_rpt p then (false, p) else peercid_drop_below (peercid_slide p rpt) rpt.

(* src/src/transport/conn/cid/peercid/peercid.c : peercid_take *)
Definition peercid_take (p : peercid) (f : ncid_frame) : Z * peercid :=
  if peercid_retired p (nc_seq f) then (0, p)
  else if nc_seq f <? pc_rpt p then peercid_owe_err p (nc_seq f)
  else peercid_store p f.

(* src/src/transport/conn/cid/peercid/peercid.c : peercid_add *)
Definition peercid_add (p : peercid) (f : ncid_frame) : Z * peercid :=
  if pc_empty p then (ERR_PROTOCOL_VIOLATION, p)
  else
    let '(full, p1) := peercid_raise_rpt p (nc_retire_prior_to f) in
    if full then (ERR_CONNECTION_ID_LIMIT_ERROR, p1) else peercid_take p1 f.

(** ** peercid_live.c *)

(* src/src/transport/conn/cid/peercid/peercid_live.c : peercid_live *)
Definition peercid_live (e : peercid_entry) : bool := pe_in_use e && pe_bound e.

(* src/src/transport/conn/cid/peercid/peercid_live.c : peercid_owns *)
Definition peercid_owns (k : pathsel_key) (e : peercid_entry) : bool := peercid_live e && pathsel_key_eq (pe_key e) k.

(* src/src/transport/conn/cid/peercid/peercid_live.c : peercid_shares *)
Definition peercid_shares (k : pathsel_key) (e : peercid_entry) : bool :=
  peercid_live e && pe_shared e && (pk_fd (pe_key e) =? pk_fd k).

(* src/src/transport/conn/cid/peercid/peercid_live.c : peercid_serves *)
Definition peercid_serves (e : peercid_entry) (k : pathsel_key) : bool := peercid_owns k e || peercid_shares k e.

(* src/src/transport/conn/cid/peercid/peercid_live.c : peercid_own *)
Definition peercid_own (p : peercid) (k : pathsel_key) : option nat := first_entry (peercid_owns k) (pc_e p).

(* src/src/transport/conn/cid/peercid/peercid_live.c : peercid_shared *)
Definition peercid_shared (p : peercid) (k : pathsel_key) : option nat := first_entry (peercid_shares k) (pc_e p).

(* src/src/transport/conn/cid/peercid/peercid_live.c : peercid_of *)
Definition peercid_of (p : peercid) (k : pathsel_key) : option nat :=
  match peercid_own p k with Some i => Some i | None => peercid_shared p k end.

(* src/src/transport/conn/cid/peercid/peercid_live.c : peercid_unbound *)
Definition peercid_unbound (e : peercid_entry) : bool := pe_in_use e && negb (pe_bound e).

(* src/src/transport/conn/cid/peercid/peercid_live.c : peercid_better *)
Definition peercid_better (e : peercid_entry) (best : option peercid_entry) : bool :=
  if negb (peercid_unbound e) then false
  else match best with None => true | Some b => pe_seq e <? pe_seq b end.

Fixpoint oldest_loop (p : peercid) (i n : nat) (best : option nat) : option nat :=
  match n with
  | O => best
  | S n' => oldest_loop p (S i) n' (if peercid_better (entry_at p i) (entry_at p <$> best) then Some i else best)
  end.

(* src/src/transport/conn/cid/peercid/peercid_live.c : peercid_oldest_free *)
Definition peercid_oldest_free (p : peercid) : option nat := oldest_loop p 0 PEERCID_CAP None.

Definition bind_entry (e : peercid_entry) (k : pathsel_key) : peercid_entry :=
  mk_entry k (pe_seq e) (pe_cid e) (pe_len e) (pe_in_use e) true (pe_shared e) (pe_has_token e) (pe_token e).
Definition share_entry (e : peercid_entry) : peercid_entry :=
  mk_entry (pe_key e) (pe_seq e) (pe_cid e) (pe_len e) (pe_in_use e) (pe_bound e) true (pe_has_token e) (pe_token e).

(* src/src/transport/conn/cid/peercid/peercid_live.c : peercid_claim *)
Definition peercid_claim (p : peercid) (k : pathsel_key) : option nat * peercid :=
  match peercid_own p k with
  | Some i => (Some i, p)
  | None =>
      match peercid_oldest_free p with
      | None => (None, p)
      | Some i => (Some i, put_entry p i (bind_entry (entry_at p i) k))
      end
  end.

(* src/src/transport/conn/cid/peercid/peercid_live.c : peercid_bind *)
Definition peercid_bind (p : peercid) (k : pathsel_key) : option nat * peercid :=
  if pc_empty p then (Some O, p) else peercid_claim p k.

(* src/src/transport/conn/cid/peercid/peercid_live.c : peercid_share *)
Definition peercid_share (p : peercid) (cur : pathsel_key) : option nat * peercid :=
  match peercid_of p cur with
  | Some i => (Some i, put_entry p i (share_entry (entry_at p i)))
  | None => (None, p)
  end.

(* src/src/transport/conn/cid/peercid/peercid_live.c : peercid_used *)
Definition peercid_used (e : peercid_entry) (tracked : list pathsel_key) : bool := existsb (peercid_serves e) tracked.

(* src/src/transport/conn/cid/peercid/peercid_live.c : peercid_stale *)
Definition peercid_stale (e : peercid_entry) (tracked : list pathsel_key) : bool :=
  peercid_live e && negb (peercid_used e tracked).

Fixpoint sweep_loop (p : peercid) (tracked : list pathsel_key) (i n : nat) : peercid :=
  match n with
  | O => p
  | S n' => sweep_loop (if peercid_stale (entry_at p i) tracked then (peercid_drop p i).2 else p) tracked (S i) n'
  end.

(* src/src/transport/conn/cid/peercid/peercid_live.c : peercid_sweep *)
Definition peercid_sweep (p : peercid) (tracked : list pathsel_key) : peercid := sweep_loop p tracked 0 PEERCID_CAP.

(** ** Stateless resets *)

Definition SRESETDRIVE_MIN : Z := 21.
Definition SRESETDRIVE_TOKEN : Z := 16.

(** [None]: a read outside the datagram or the token. *)
(* src/src/transport/conn/cid/sresetdrive/detect.c : sresetdrive_is_reset *)
Definition sresetdrive_is_reset (packet expected_token : list Z) : option bool :=
  if zlen packet <? SRESETDRIVE_MIN then Some false
  else d ← ct_diff16 (drop (Z.to_nat (zlen packet - SRESETDRIVE_TOKEN)) packet) expected_token; Some (d =? 0).

(* src/src/transport/conn/cid/sresetdrive/onreset.c : sresetdrive_on_detected *)
Definition sresetdrive_on_detected (is_reset : bool) : bool := is_reset.

(* src/src/transport/conn/cid/peercid/peercid_reset.c : peercid_checked *)
Definition peercid_checked (e : peercid_entry) : bool := pe_in_use e && pe_bound e && pe_has_token e.

(* src/src/transport/conn/cid/peercid/peercid_reset.c : peercid_resets *)
Definition peercid_resets (e : peercid_entry) (dg : list Z) : option bool :=
  if peercid_checked e then sresetdrive_is_reset dg (pe_token e) else Some false.

Fixpoint reset_loop (l : list peercid_entry) (dg : list Z) (hit : bool) : option bool :=
  match l with
  | [] => Some hit
  | e :: l' => r ← peercid_resets e dg; reset_loop l' dg (hit || r)
  end.

(* src/src/transport/conn/cid/peercid/peercid_reset.c : peercid_reset_match *)
Definition peercid_reset_match (p : peercid) (dg : list Z) : option bool := reset_loop (pc_e p) dg false.

(** ** The record of retired numbers *)

(** The two 64-bit words as one 128-bit record: bit [i] is number
    [rpt - 64 + i]. *)
Definition rec128 (p : peercid) : Z := pc_gone p * 2 ^ 64 + pc_past p.
Definition recorded (p : peercid) (seq : Z) : bool := Z.testbit (rec128 p) (seq - pc_rpt p + 64).

Definition words_ok (p : peercid) : Prop := is_u64 (pc_gone p) /\ is_u64 (pc_past p) /\ 0 <= pc_rpt p < 2 ^ 62.

Lemma testbit_join hi lo i : 0 <= lo < 2 ^ 64 -> 0 <= i ->
  Z.testbit (hi * 2 ^ 64 + lo) i = if i <? 64 then Z.testbit lo i else Z.testbit hi (i - 64).
Proof.
  intros Hl Hi. rewrite <- (lor_shiftl hi 64 lo) by lia. rewrite Z.lor_spec, Z.shiftl_spec by done.
  destruct (Z.ltb_spec i 64).
  - by rewrite (Z.testbit_neg_r hi) by lia.
  - rewrite (testbit_high lo i 64) by lia. by rewrite orb_false_r.
Qed.

Lemma u64_pow2 d : 0 <= d < 64 -> u64 (Z.shiftl 1 d) = 2 ^ d.
Proof.
  intros Hd. rewrite Z.shiftl_1_l. apply u64_small. split; [apply Z.pow_nonneg; lia|].
  change 18446744073709551616 with (2 ^ 64). apply Z.pow_lt_mono_r; lia.
Qed.

Lemma bit_at_spec v d : 0 <= d < 2 ^ 64 -> 0 <= v < 2 ^ 64 ->
  Z.land v (if d <? 64 then u64 (Z.shiftl 1 d) else 0) = if Z.testbit v d then Z.land v (2 ^ d) else 0.
Proof.
  intros Hd Hv. destruct (Z.ltb_spec d 64).
  - rewrite u64_pow2 by lia.
    destruct (Z.testbit v d) eqn:E; [done|]. pose proof (land_bit v d ltac:(lia)) as H1. rewrite E in H1. by apply Z.eqb_eq in H1.
  - rewrite (testbit_high v d 64) by lia. apply Z.land_0_r.
Qed.

(** The masks as the code computes them, for numbers far from the wrap. *)
Lemma mask_offset s r k : 0 <= s < 2 ^ 62 -> 0 <= r < 2 ^ 62 -> 0 <= k <= 64 ->
  u64 (s + k - r) = if r <=? s + k then s + k - r else 2 ^ 64 + (s + k - r).
Proof.
  intros Hs Hr Hk. destruct (Z.leb_spec r (s + k)); [apply u64_small; lia|]. unfold u64.
  symmetry; apply (Z.mod_unique_pos _ _ (-1)); lia.
Qed.

Lemma retired_spec p s : words_ok p -> 0 <= s < 2 ^ 62 -> peercid_retired p s = recorded p s.
Proof.
  intros (Hg & Hp & Hr) Hs. unfold peercid_retired, recorded, rec128, peercid_bit, peercid_past_bit.
  replace (s - pc_rpt p) with (s + 0 - pc_rpt p) by lia. cbv zeta. unfold is_u64 in *.
  rewrite !bit_at_spec by (done || apply u64_range). rewrite !mask_offset by lia. rewrite Z.add_0_r.
  destruct (Z.leb_spec (pc_rpt p) s).
  - rewrite (testbit_join _ _ (_ + 64)) by lia. assert ((s - pc_rpt p + 64 <? 64) = false) as -> by (apply Z.ltb_ge; lia).
    replace (s - pc_rpt p + 64 - 64) with (s - pc_rpt p) by lia.
    destruct (Z.leb_spec (pc_rpt p) (s + 64)); [|lia].
    rewrite (testbit_high (pc_past p)  (s + 64 - pc_rpt p) 64) by lia. rewrite Z.lor_0_r.
    destruct (Z.testbit (pc_gone p) _) eqn:E; [|done]. rewrite land_bit, E by lia. done.
  - rewrite (testbit_high (pc_gone p) (2 ^ 64 + _) 64) by lia. rewrite Z.lor_0_l.
    destruct (Z.leb_spec (pc_rpt p) (s + 64)).
    + rewrite (testbit_join _ _ (s - pc_rpt p + 64)) by lia. assert ((s - pc_rpt p + 64 <? 64) = true) as -> by (apply Z.ltb_lt; lia).
      replace (s - pc_rpt p + 64) with (s + 64 - pc_rpt p) by lia.
      destruct (Z.testbit (pc_past p) _) eqn:E; [|done]. rewrite land_bit, E by lia. done.
    + rewrite (testbit_high (pc_past p) (2 ^ 64 + _) 64) by lia. rewrite Z.testbit_neg_r by lia. done.
Qed.

(** A mask's bits. *)
Lemma mask_testbit d i : 0 <= i -> 0 <= d ->
  Z.testbit (if d <? 64 then u64 (Z.shiftl 1 d) else 0) i = (d <? 64) && (d =? i).
Proof.
  intros Hi Hd. destruct (Z.ltb_spec d 64); cbn [andb]; [|apply Z.bits_0]. rewrite u64_pow2 by lia.
  apply Z.pow2_bits_eqb. lia.
Qed.

Lemma mask_u64 d : 0 <= d -> is_u64 (if d <? 64 then u64 (Z.shiftl 1 d) else 0).
Proof. intros Hd. destruct (d <? 64); [apply u64_range | unfold is_u64; lia]. Qed.

Lemma retire_once_spec p s : words_ok p -> 0 <= s < 2 ^ 62 -> zlen (pc_retire p) <= PEERCID_RETIRE ->
  exists p', peercid_retire_once p s = (negb (zlen (pc_retire p) =? PEERCID_RETIRE), p') /\
    (zlen (pc_retire p) = PEERCID_RETIRE -> p' = p) /\
    (zlen (pc_retire p) < PEERCID_RETIRE -> words_ok p' /\ pc_e p' = pc_e p /\ pc_retire p' = pc_retire p ++ [s] /\ pc_rpt p' = pc_rpt p /\
      pc_empty p' = pc_empty p /\
      forall t, recorded p' t = recorded p t || ((t =? s) && (pc_rpt p - 64 <=? s) && (s <? pc_rpt p + 64))).
Proof.
  intros (Hg & Hp & Hr) Hs Hq. unfold peercid_retire_once, peercid_owe.
  destruct (Z.eqb_spec (zlen (pc_retire p)) PEERCID_RETIRE) as [E|E]; cbn [negb]; [exists p; split; [done|split; [done|lia]]|].
  eexists; split; [done|]. split; [done|]. intros _. cbn [pc_e pc_retire pc_rpt pc_empty].
  split; [split; [|split]|]; try done; cbn [pc_gone pc_past].
  { apply lor_u64; [done|]. apply mask_u64, u64_range. } { apply lor_u64; [done|]. apply mask_u64, u64_range. }
  repeat (split; [done|]). intros t. unfold recorded, rec128. cbn [pc_gone pc_past pc_rpt].
  destruct (Z_lt_le_dec (t - pc_rpt p + 64) 0).
  { rewrite !Z.testbit_neg_r by done. destruct (Z.eqb_spec t s); [|done]. cbn [andb orb]. symmetry. apply andb_false_intro1. lia. }
  pose proof (lor_u64 (pc_past p) (peercid_past_bit p s) Hp ltac:(apply mask_u64, u64_range)) as Hpu.
  unfold is_u64, peercid_bit, peercid_past_bit in *. cbv zeta in *. cbn [pc_rpt].
  rewrite (testbit_join _ (Z.lor _ _)) by (exact Hpu || lia). rewrite testbit_join by lia. rewrite !Z.lor_spec.
  replace (s - pc_rpt p) with (s + 0 - pc_rpt p) by lia.
  destruct (Z.ltb_spec (t - pc_rpt p + 64) 64) as [Hi|Hi]; [rewrite mask_testbit by (lia || apply u64_range) | rewrite (mask_testbit _ (t - pc_rpt p + 64 - 64)) by (lia || apply u64_range)];
    f_equal; rewrite mask_offset by lia; apply eq_true_iff_eq; rewrite !andb_true_iff, !Z.eqb_eq, !Z.ltb_lt, Z.leb_le;
    match goal with |- context [if ?a <=? ?b then _ else _] => destruct (Z.leb_spec a b) end; lia.
Qed.

Lemma slide_loop_spec n : forall gone past, 0 <= gone < 2 ^ 64 -> 0 <= past < 2 ^ 64 ->
  let '(g, q) := slide_loop n gone past in
  0 <= g < 2 ^ 64 /\ 0 <= q < 2 ^ 64 /\ g * 2 ^ 64 + q = Z.shiftr (gone * 2 ^ 64 + past) (Z.of_nat n).
Proof.
  induction n as [|n IH]; intros gone past Hg Hp; cbn [slide_loop].
  { change (Z.of_nat 0) with 0. rewrite Z.shiftr_0_r. done. }
  assert (Z.shiftr gone 1 = gone / 2) as -> by (by rewrite Z.shiftr_div_pow2).
  assert (Z.lor (Z.shiftr past 1) (u64 (Z.shiftl gone 63)) = gone mod 2 * 2 ^ 63 + past / 2) as ->.
  { rewrite Z.shiftr_div_pow2 by lia. change (2 ^ 1) with 2. rewrite Z.lor_comm.
    assert (u64 (Z.shiftl gone 63) = Z.shiftl (gone mod 2) 63) as ->.
    { rewrite !Z.shiftl_mul_pow2 by lia. unfold u64. change 18446744073709551616 with (2 * 2 ^ 63). by rewrite Z.mul_mod_distr_r by lia. }
    apply lor_shiftl; [lia|]. split; [apply Z.div_pos; lia | apply Z.div_lt_upper_bound; lia]. }
  pose proof (Z.mod_pos_bound gone 2 ltac:(lia)). pose proof (Z.div_mod gone 2 ltac:(lia)). pose proof (Z.div_mod past 2 ltac:(lia)).
  pose proof (Z.mod_pos_bound past 2 ltac:(lia)).
  assert (0 <= gone mod 2 * 2 ^ 63 + past / 2 < 2 ^ 64) by lia.
  specialize (IH (gone / 2) (gone mod 2 * 2 ^ 63 + past / 2) ltac:(lia) ltac:(lia)).
  destruct (slide_loop n _ _) as [g q]. destruct IH as (? & ? & ->). split; [done|]. split; [done|].
  rewrite Nat2Z.inj_succ, <- Z.add_1_l, <- Z.shiftr_shiftr by lia. f_equal. rewrite Z.shiftr_div_pow2 by lia. change (2 ^ 1) with 2.
  apply (Z.div_unique_pos _ _ _ (past mod 2)); lia.
Qed.

Lemma rpt_slide_spec p rpt : words_ok p -> pc_rpt p < rpt < 2 ^ 62 ->
  let p' := peercid_slide p rpt in
  words_ok p' /\ pc_e p' = pc_e p /\ pc_retire p' = pc_retire p /\ pc_rpt p' = rpt /\ pc_empty p' = pc_empty p /\
  forall t, rpt - 64 <= t -> recorded p' t = recorded p t.
Proof.
  intros (Hg & Hp & Hr) Hn. unfold peercid_slide. cbv zeta. rewrite u64_small by lia. unfold is_u64 in *.
  set (n := Z.to_nat _). assert (Z.of_nat n = Z.min (rpt - pc_rpt p) 128) as En.
  { subst n. destruct (Z.ltb_spec (rpt - pc_rpt p) 128); rewrite Z2Nat.id by lia; lia. }
  pose proof (slide_loop_spec n (pc_gone p) (pc_past p) ltac:(lia) ltac:(lia)) as H. destruct (slide_loop n _ _) as [g q].
  destruct H as (? & ? & E). cbn [pc_e pc_retire pc_rpt pc_empty]. split; [unfold words_ok, is_u64; cbn; lia|].
  repeat (split; [done|]). intros t Ht. unfold recorded, rec128. cbn [pc_gone pc_past pc_rpt]. rewrite E, Z.shiftr_spec, En by lia.
  destruct (decide (rpt - pc_rpt p <= 128)); [f_equal; lia|].
  rewrite !(testbit_high _ _ 128) by (change (2 ^ 128) with (2 ^ 64 * 2 ^ 64); nia). done.
Qed.

(** ** The pool's invariant *)

Lemma first_entry_Some f l i : first_entry f l = Some i -> exists e, l !! i = Some e /\ f e = true.
Proof.
  revert i; induction l as [|e l IH]; intros i; cbn; [done|]. destruct (f e) eqn:E; [intros [= <-]; by exists e|].
  destruct (first_entry f l) as [j|]; cbn; intros [= <-]. apply IH. done.
Qed.
Lemma first_entry_None f l i e : first_entry f l = None -> l !! i = Some e -> f e = false.
Proof.
  revert i; induction l as [|e0 l IH]; intros i; cbn; [done|]. destruct (f e0) eqn:E; [done|].
  destruct (first_entry f l); [done|]. intros _. destruct i as [|i]; cbn; [by intros [= <-]|]. by apply IH.
Qed.
Lemma entry_at_lookup p i e : pc_e p !! i = Some e -> entry_at p i = e.
Proof. apply nth_lookup_Some. Qed.

(** Number [s] is held in entry [i]. *)
Definition held_at (p : peercid) (i : nat) (s : Z) : Prop := exists e, pc_e p !! i = Some e /\ pe_in_use e = true /\ pe_seq e = s.
Definition held (p : peercid) (s : Z) : Prop := exists i, held_at p i s.
(** Number [s] is bound to the path of [k]. *)
Definition bound_to (p : peercid) (s : Z) (k : pathsel_key) : Prop :=
  exists i e, pc_e p !! i = Some e /\ peercid_live e = true /\ pe_seq e = s /\ pid (pe_key e) = pid k.

(** How often [s] occurs in [l]. *)
Definition times (s : Z) (l : list Z) : nat := count_occ Z.eq_dec l s.

Lemma times_app s l k : times s (l ++ k) = (times s l + times s k)%nat.
Proof. apply count_occ_app. Qed.
Lemma times_one s t : times s [t] = if decide (s = t) then 1%nat else 0%nat.
Proof. unfold times; cbn. destruct (Z.eq_dec t s), (decide (s = t)); congruence. Qed.
Lemma times_none s l : s ∉ l -> times s l = 0%nat.
Proof. intros Hs. apply count_occ_not_In. by rewrite <- list_elem_of_In. Qed.

(** [far]: the numbers of which a frame arrived outside the records' window;
    [owed]: the numbers ever queued for retirement, in order; [sent]: those taken
    to be sent; [issued]: the numbers the peer issued; [uses]: the paths each
    number was bound to. *)
Record pool_inv (far sent owed issued : list Z) (uses : list (Z * pathsel_key)) (p : peercid) : Prop := {
  pv_len : length (pc_e p) = PEERCID_CAP;
  pv_words : words_ok p;
  pv_empty : pc_empty p = false;
  pv_queue : owed = sent ++ pc_retire p;
  pv_room : zlen (pc_retire p) <= PEERCID_RETIRE;
  pv_one : forall i j s, held_at p i s -> held_at p j s -> i = j;
  pv_once : forall s, s ∉ far -> (times s owed <= 1)%nat;
  pv_gone : forall s, s ∉ far -> held p s -> s ∉ owed;
  pv_all : forall s, s ∈ issued <-> held p s \/ s ∈ owed;
  pv_rec : forall s, recorded p s = true -> s ∈ owed;
  pv_kept : forall s, s ∉ far -> pc_rpt p - 64 <= s -> s ∈ owed -> recorded p s = true;
  pv_top : forall s, held p s \/ s ∈ owed -> 0 <= s < 2 ^ 62 /\ (s ∉ far -> s < pc_rpt p + 64);
  pv_keys : forall i e, pc_e p !! i = Some e -> key_ok (pe_key e);
  pv_uses : forall s k, (s, k) ∈ uses -> bound_to p s k \/ s ∈ owed;
  pv_cons : forall s k k', s ∉ far -> (s, k) ∈ uses -> (s, k') ∈ uses -> pid k = pid k';
  pv_own : forall i j e e', pc_e p !! i = Some e -> pc_e p !! j = Some e' -> peercid_live e = true -> peercid_live e' = true ->
             pid (pe_key e) = pid (pe_key e') -> i = j }.
Arguments pv_len {_ _ _ _ _ _} _. Arguments pv_words {_ _ _ _ _ _} _. Arguments pv_empty {_ _ _ _ _ _} _. Arguments pv_room {_ _ _ _ _ _} _.
Arguments pv_one {_ _ _ _ _ _} _. Arguments pv_gone {_ _ _ _ _ _} _. Arguments pv_all {_ _ _ _ _ _} _. Arguments pv_rec {_ _ _ _ _ _} _.
Arguments pv_top {_ _ _ _ _ _} _. Arguments pv_keys {_ _ _ _ _ _} _. Arguments pv_uses {_ _ _ _ _ _} _. Arguments pv_own {_ _ _ _ _ _} _.
Arguments pv_cons {_ _ _ _ _ _} _. Arguments pv_queue {_ _ _ _ _ _} _. Arguments pv_once {_ _ _ _ _ _} _. Arguments pv_kept {_ _ _ _ _ _} _.

(** Queueing [s] for retirement after taking it out of the entries. *)
Lemma owe_inv far sent owed issued uses p p1 s l :
  pool_inv far sent owed issued uses p -> 0 <= s < 2 ^ 62 -> (s ∉ far -> s < pc_rpt p + 64 /\ s ∉ owed) -> zlen (pc_retire p) < PEERCID_RETIRE ->
  peercid_retire_once p s = (true, p1) -> length l = PEERCID_CAP ->
  (* what the new entries hold *)
  (forall i t, held_at (set_e p1 l) i t <-> held_at p i t /\ t <> s) ->
  (forall i e, l !! i = Some e -> exists e', pc_e p !! i = Some e' /\ pe_key e = pe_key e' /\ (peercid_live e = true -> peercid_live e' = true)) ->
  (forall t k, bound_to p t k -> t <> s -> bound_to (set_e p1 l) t k) ->
  pool_inv far sent (owed ++ [s]) (if decide (s ∈ issued) then issued else s :: issued) uses (set_e p1 l).
Proof.
  intros [Hlen Hw He Hq Hr H1 Ho Hg Ha Hrec Hkept Ht Hk Hu Hcons Hown] Hs Hs1 Hroom E Hl Hheld Hent Hb.
  destruct (retire_once_spec p s Hw Hs Hr) as (p' & E' & _ & Hp'). rewrite E in E'. injection E' as _ <-.
  destruct (Hp' Hroom) as (Hw1 & _ & Hq1 & Hr1 & He1 & Hrec1).
  assert (forall t, held (set_e p1 l) t <-> held p t /\ t <> s) as Hh by (intros t; unfold held; setoid_rewrite Hheld; naive_solver).
  constructor; cbn [set_e pc_e pc_retire pc_rpt pc_empty]; try done.
  - by rewrite He1.
  - by rewrite Hq1, Hq, app_assoc.
  - rewrite Hq1, zlen_app. change (zlen [s]) with 1. lia.
  - intros i j t [? _]%Hheld [? _]%Hheld. by eapply H1.
  - intros t Hf. rewrite times_app, times_one. case_decide as E1; [|rewrite Nat.add_0_r; by apply Ho]. subst t.
    rewrite times_none by (by apply Hs1). lia.
  - intros t Hf [Hh1 Hts]%Hh. rewrite elem_of_app, list_elem_of_singleton. intros [?|?]; [by eapply Hg|done].
  - intros t. rewrite Hh, elem_of_app, list_elem_of_singleton. destruct (decide (s ∈ issued)) as [Hi|Hi].
    + rewrite Ha. apply Ha in Hi. destruct (decide (t = s)); naive_solver.
    + rewrite elem_of_cons, Ha. destruct (decide (t = s)); naive_solver.
  - intros t. change (recorded (set_e p1 l) t) with (recorded p1 t). rewrite Hrec1, orb_true_iff, !andb_true_iff, elem_of_app, list_elem_of_singleton, Z.eqb_eq.
    intros [?%Hrec|[[-> _] _]]; [by left | by right].
  - rewrite Hr1. intros t Hf Htt. change (recorded (set_e p1 l) t) with (recorded p1 t).
    rewrite Hrec1, orb_true_iff, !andb_true_iff, elem_of_app, list_elem_of_singleton, Z.eqb_eq, Z.leb_le, Z.ltb_lt.
    intros [?| ->]; [left; by apply Hkept | right]. destruct (Hs1 Hf). lia.
  - rewrite Hr1. intros t. rewrite Hh, elem_of_app, list_elem_of_singleton. intros [[? _]|[?| ->]]; [by apply Ht; left | by apply Ht; right |]. split; [done|]. intros Hf. by apply Hs1.
  - intros i e Hi. destruct (Hent i e Hi) as (e' & He' & -> & _). by eapply Hk.
  - intros t k Htk. rewrite elem_of_app, list_elem_of_singleton. destruct (Hu t k Htk); [|by right; left].
    destruct (decide (t = s)); [by right; right | left; by apply Hb].
  - intros i j e e' Hi Hj Hle Hle' Hp. destruct (Hent i e Hi) as (e1 & He1' & Hk1 & Hl1). destruct (Hent j e' Hj) as (e2 & He2 & Hk2 & Hl2).
    eapply Hown; eauto. by rewrite <- Hk1, <- Hk2.
Qed.

Lemma drop_inv far sent owed issued uses p i e :
  pool_inv far sent owed issued uses p -> pc_e p !! i = Some e -> pe_in_use e = true ->
  let '(ok, p') := peercid_drop p i in
  (ok = false /\ p' = p) \/
  (ok = true /\ pool_inv far sent (owed ++ [pe_seq e]) issued uses p' /\ pc_e p' = <[i := free_entry e]> (pc_e p) /\ pc_rpt p' = pc_rpt p).
Proof.
  intros H Hi Hu. assert (held_at p i (pe_seq e)) as Hat by (by exists e). assert (held p (pe_seq e)) as Hheld by (by exists i).
  destruct (pv_top H _ (or_introl Hheld)) as [Hs Hs1]. unfold peercid_drop. rewrite (entry_at_lookup _ _ _ Hi).
  destruct (retire_once_spec p (pe_seq e) (pv_words H) Hs (pv_room H)) as (p1 & E & Hfull & Hroom). rewrite E.
  destruct (Z.eqb_spec (zlen (pc_retire p)) PEERCID_RETIRE); cbn [negb]; [left; auto|]. right. split; [done|].
  pose proof (pv_room H). destruct Hroom as (Hw1 & He1 & Hq1 & Hr1 & Hem1 & Hrec); [lia|].
  assert (entry_at p1 i = e) as -> by (apply entry_at_lookup; by rewrite He1).
  split; [|by cbn; rewrite He1]. unfold put_entry. rewrite He1.
  assert (pe_seq e ∈ issued) as Hiss by (apply (pv_all H); by left).
  pose proof (owe_inv far sent owed issued uses p p1 (pe_seq e) (<[i := free_entry e]> (pc_e p)) H Hs) as HI.
  rewrite decide_True in HI by done. pose proof (lookup_lt_Some _ _ _ Hi) as Hil. apply HI; try done.
  - intros Hf. split; [by apply Hs1 | by apply (pv_gone H)].
  - lia.
  - rewrite length_insert. apply (pv_len H).
  - intros j t. unfold held_at. cbn [set_e pc_e]. split.
    + intros (e' & [[-> [<- _]]|[Hij Hj]]%list_lookup_insert_Some & Hu' & Hst); [done|]. split; [by exists e'|].
      intros ->. apply Hij. eapply (pv_one H); [exact Hat | by exists e'].
    + intros [(e' & Hj & Hu' & <-) Hne]. exists e'. split; [|done]. rewrite list_lookup_insert_ne; [done|]. intros <-. congruence.
  - intros j e' [[-> [<- _]]|[Hij Hj]]%list_lookup_insert_Some; [exists e; split; [done|split; [done|cbn; done]] | by exists e'].
  - intros t k (j & e' & Hj & Hl & <- & Hk) Hne. exists j, e'. cbn [set_e pc_e]. split; [|done].
    rewrite list_lookup_insert_ne; [done|]. intros <-. congruence.
Qed.

(** Every number held is at least Retire Prior To. *)
Definition floor_ok (p : peercid) : Prop := forall s, held p s -> pc_rpt p <= s.

Lemma held_free p p' i e s :
  pc_e p !! i = Some e -> pc_e p' = <[i := free_entry e]> (pc_e p) -> held p' s -> held p s.
Proof.
  intros Hi E (j & e' & Hj & Hu & <-). rewrite E in Hj. apply list_lookup_insert_Some in Hj as [[_ [<- _]]|[_ Hj]]; [done|].
  by exists j, e'.
Qed.

Lemma slide_inv far sent owed issued uses p rpt :
  pool_inv far sent owed issued uses p -> pc_rpt p < rpt < 2 ^ 62 -> pool_inv far sent owed issued uses (peercid_slide p rpt).
Proof.
  intros [Hlen Hw He Hq Hr H1 Ho Hg Ha Hrec Hkept Ht Hk Hu Hcons Hown] Hn. destruct (rpt_slide_spec p rpt Hw Hn) as (Hw' & E1 & E2 & E3 & E4 & Hrec').
  constructor; rewrite ?E1, ?E2, ?E3, ?E4; try done; unfold held, held_at, bound_to in *; rewrite ?E1; try done.
  - intros s Hs. destruct (Z_lt_le_dec s (rpt - 64)) as [Hl|Hl]; [|apply Hrec; by rewrite <- Hrec'].
    unfold recorded in Hs. rewrite E3, Z.testbit_neg_r in Hs by lia. done.
  - intros s Hf Hs Hin. rewrite Hrec' by done. apply Hkept; [done|lia|done].
  - intros s Hs. destruct (Ht s Hs) as [Hs0 Hs1]. split; [done|]. intros Hf. specialize (Hs1 Hf). lia.
Qed.

Lemma drop_below_spec far sent issued uses rpt n : forall p i full owed,
  pool_inv far sent owed issued uses p -> (i + n = PEERCID_CAP)%nat ->
  (full = false -> forall j e, (j < i)%nat -> pc_e p !! j = Some e -> pe_in_use e = true -> rpt <= pe_seq e) ->
  let '(full', p') := drop_below_loop p rpt i n full in
  exists more, pool_inv far sent (owed ++ more) issued uses p' /\ pc_rpt p' = pc_rpt p /\
    (full' = false -> forall s, held p' s -> rpt <= s).
Proof.
  induction n as [|n IH]; intros p i full owed H Hin Hlo; cbn [drop_below_loop].
  { exists []. rewrite app_nil_r. split; [done|]. split; [done|]. intros Hf s (j & e & Hj & Hu & <-).
    apply (Hlo Hf j e); try done. apply lookup_lt_Some in Hj. rewrite (pv_len H) in Hj. lia. }
  destruct (lookup_lt_is_Some_2 (pc_e p) i) as [e Hi]; [rewrite (pv_len H); lia|]. rewrite (entry_at_lookup _ _ _ Hi).
  unfold peercid_below. destruct (pe_in_use e) eqn:Hu; cbn [andb].
  - destruct (Z.ltb_spec (pe_seq e) rpt) as [Hlt|Hge].
    + pose proof (drop_inv _ _ _ _ _ p i e H Hi Hu) as Hd. destruct (peercid_drop p i) as [ok p1]. destruct Hd as [[-> ->]|(-> & H1 & E1 & Er)].
      * rewrite orb_true_r. apply IH; [done|lia|done].
      * rewrite orb_false_r. specialize (IH p1 (S i) full _ H1 ltac:(lia)).
        destruct (drop_below_loop p1 rpt (S i) n full) as [full' p'].
        destruct IH as (more & H2 & Er2 & Hf).
        { intros Hfull j e' Hj Hl Hu'. rewrite E1 in Hl. apply list_lookup_insert_Some in Hl as [[<- [<- _]]|[Hne Hl]]; [done|].
          apply (Hlo Hfull j e'); try done. lia. }
        exists (pe_seq e :: more). rewrite (app_assoc owed [pe_seq e] more : owed ++ pe_seq e :: more = _). rewrite Er2, Er. done.
    + apply IH; [done|lia|]. intros Hf j e' Hj Hl Hu'. destruct (decide (j = i)) as [->|]; [congruence|]. apply (Hlo Hf j e'); try done. lia.
  - apply IH; [done|lia|]. intros Hf j e' Hj Hl Hu'. destruct (decide (j = i)) as [->|]; [congruence|]. apply (Hlo Hf j e'); try done. lia.
Qed.

Lemma raise_inv far sent owed issued uses p rpt :
  pool_inv far sent owed issued uses p -> floor_ok p -> rpt < 2 ^ 62 ->
  let '(full, p') := peercid_raise_rpt p rpt in
  exists more, pool_inv far sent (owed ++ more) issued uses p' /\ pc_rpt p' = Z.max (pc_rpt p) rpt /\ (full = false -> floor_ok p').
Proof.
  intros H Hf Hr. unfold peercid_raise_rpt. destruct (Z.leb_spec rpt (pc_rpt p)).
  { exists []. rewrite app_nil_r, Z.max_l by lia. done. }
  pose proof (slide_inv _ _ _ _ _ p rpt H ltac:(lia)) as Hs.
  pose proof (drop_below_spec far sent issued uses rpt PEERCID_CAP _ 0 false _ Hs eq_refl) as Hd. fold (peercid_drop_below (peercid_slide p rpt) rpt) in Hd.
  destruct (rpt_slide_spec p rpt (pv_words H)) as (_ & _ & _ & E & _); [lia|].
  destruct (peercid_drop_below _ _) as [full p']. destruct Hd as (more & H1 & Er & Hfl); [intros; lia|].
  exists more. rewrite Er, E, Z.max_r by lia. split; [done|]. split; [done|]. intros Hfull s Hs1. rewrite Er, E. by apply Hfl.
Qed.

Lemma sweep_inv far sent issued uses tracked n : forall p i owed,
  pool_inv far sent owed issued uses p -> (i + n = PEERCID_CAP)%nat ->
  let p' := sweep_loop p tracked i n in
  exists more, pool_inv far sent (owed ++ more) issued uses p' /\ pc_rpt p' = pc_rpt p /\ forall s, held p' s -> held p s.
Proof.
  induction n as [|n IH]; intros p i owed H Hin; cbn [sweep_loop].
  { exists []. rewrite app_nil_r. done. }
  destruct (lookup_lt_is_Some_2 (pc_e p) i) as [e Hi]; [rewrite (pv_len H); lia|]. rewrite (entry_at_lookup _ _ _ Hi).
  destruct (peercid_stale e tracked) eqn:Est; [|apply IH; [done|lia]].
  assert (pe_in_use e = true) as Hu by (unfold peercid_stale, peercid_live in Est; by destruct (pe_in_use e)).
  pose proof (drop_inv _ _ _ _ _ p i e H Hi Hu) as Hd. destruct (peercid_drop p i) as [ok p1]. cbn [snd]. destruct Hd as [[-> ->]|(-> & H1 & E1 & Er)].
  - apply IH; [done|lia].
  - destruct (IH p1 (S i) _ H1 ltac:(lia)) as (more & H2 & Er2 & Hh). exists (pe_seq e :: more).
    rewrite (app_assoc owed [pe_seq e] more : owed ++ pe_seq e :: more = _), Er2, Er. split; [done|]. split; [done|].
    intros s Hs. eapply held_free; eauto.
Qed.

Definition issue (s : Z) (l : list Z) : list Z := if decide (s ∈ l) then l else s :: l.

Lemma issue_in s l t : t ∈ issue s l <-> t = s \/ t ∈ l.
Proof. unfold issue. case_decide; rewrite ?elem_of_cons; naive_solver. Qed.

(** An entry put in place, the numbers held being those of [held']. *)
Lemma put_inv far sent owed issued issued' uses uses' p i e e' :
  pool_inv far sent owed issued uses p -> pc_e p !! i = Some e -> key_ok (pe_key e') ->
  (* the number: kept, or new *)
  ((pe_in_use e = true /\ pe_in_use e' = true /\ pe_seq e' = pe_seq e /\ issued' = issued) \/
   (pe_in_use e = false /\ pe_in_use e' = true /\ ~ held p (pe_seq e') /\ 0 <= pe_seq e' < 2 ^ 62 /\
    (pe_seq e' ∉ far -> pe_seq e' ∉ owed /\ pe_seq e' < pc_rpt p + 64) /\ issued' = issue (pe_seq e') issued)) ->
  (* the binding: kept or new *)
  (peercid_live e = true -> pid (pe_key e') = pid (pe_key e) /\ peercid_live e' = true) ->
  (peercid_live e' = true -> forall j f, pc_e p !! j = Some f -> peercid_live f = true -> pid (pe_key f) = pid (pe_key e') -> j = i) ->
  (forall s k, (s, k) ∈ uses' -> (s, k) ∈ uses \/ (s = pe_seq e' /\ peercid_live e' = true /\ pid (pe_key e') = pid k)) ->
  pool_inv far sent owed issued' uses' (put_entry p i e').
Proof.
  intros H Hi Hk' Hnum Hlive Hown' Huses. pose proof (lookup_lt_Some _ _ _ Hi) as Hil.
  assert (forall j s, held_at (put_entry p i e') j s <-> (j = i /\ s = pe_seq e') \/ (j <> i /\ held_at p j s)) as Hat.
  { intros j s. unfold held_at. cbn [put_entry set_e pc_e]. split.
    - intros (f & [[-> [<- _]]|[Hne Hj]]%list_lookup_insert_Some & Hu & <-); [by left | right; split; [done|by exists f]].
    - intros [[-> ->]|[Hne (f & Hj & Hu & <-)]]; [exists e'; rewrite list_lookup_insert_eq by done; naive_solver|].
      exists f. by rewrite list_lookup_insert_ne. }
  assert (forall s, held (put_entry p i e') s <-> held p s \/ s = pe_seq e') as Hheld.
  { intros s. unfold held. setoid_rewrite Hat. split; [naive_solver|]. intros [[j Hj]| ->]; [|exists i; by left].
    destruct (decide (j = i)) as [->|]; [|exists j; by right]. exists i. left. split; [done|]. destruct Hj as (f & Hf & Hu & <-).
    assert (f = e) as -> by congruence. destruct Hnum as [(_ & _ & -> & _)|(Hu' & _)]; [done|congruence]. }
  assert (forall s k, bound_to p s k -> bound_to (put_entry p i e') s k) as Hb.
  { intros s k (j & f & Hj & Hl & <- & Hp). destruct (decide (j = i)) as [->|]; [|exists j, f; cbn; by rewrite list_lookup_insert_ne].
    assert (f = e) as -> by congruence. destruct (Hlive Hl) as [Hpe Hl']. exists i, e'. cbn. rewrite list_lookup_insert_eq by done.
    split; [done|]. split; [done|]. split; [|congruence]. destruct Hnum as [(_ & _ & -> & _)|(Hu' & _)]; [done|]. unfold peercid_live in Hl. by rewrite Hu' in Hl. }
  destruct H as [Hlen Hw He Hq Hr H1 Ho Hg Ha Hrec Hkept Ht Hk Hu Hcons Hown]. constructor; cbn [put_entry set_e pc_e pc_retire pc_rpt pc_empty]; try done.
  - by rewrite length_insert.
  - intros j j' s Hj Hj'. rewrite Hat in Hj, Hj'. destruct Hj as [[-> ->]|[Hne Hj]], Hj' as [[-> ?]|[Hne' Hj']]; try done; [| |by eapply H1].
    + exfalso. destruct Hnum as [(Hue & _ & E & _)|(_ & _ & Hnh & _)]; [apply Hne'; eapply H1; [exact Hj'|exists e; rewrite E; done] | apply Hnh; by exists j'].
    + subst s. exfalso. destruct Hnum as [(Hue & _ & E & _)|(_ & _ & Hnh & _)]; [apply Hne; eapply H1; [exact Hj|exists e; rewrite E; done] | apply Hnh; by exists j].
  - intros s Hf [Hh| ->]%Hheld; [by apply Hg|]. destruct Hnum as [(Hue & _ & E & _)|(_ & _ & _ & _ & Hno & _)]; [|by apply Hno]. rewrite E. apply Hg; [by rewrite <- E|]. exists i, e. done.
  - intros s. rewrite Hheld. destruct Hnum as [(Hue & _ & E & ->)|(_ & _ & _ & _ & _ & ->)].
    + rewrite Ha, E. assert (held p (pe_seq e)) by (exists i, e; done). naive_solver.
    + rewrite issue_in, Ha. naive_solver.
  - intros s Hs. rewrite Hheld in Hs. destruct Hs as [[Hh| ->]|Hs]; [by apply Ht; left| |by apply Ht; right].
    destruct Hnum as [(Hue & _ & -> & _)|(_ & _ & _ & ? & Hn & _)]; [|split; [done|intros Hf; by apply Hn]]. apply Ht. left. exists i, e. done.
  - intros j f [[-> [<- _]]|[Hne Hj]]%list_lookup_insert_Some; [done|]. by eapply Hk.
  - intros s k [Hs|(-> & Hl & Hp)]%Huses; [destruct (Hu s k Hs); [left; by apply Hb | by right]|]. left. exists i, e'. cbn. by rewrite list_lookup_insert_eq.
  - assert (forall s k, s ∉ far -> s = pe_seq e' -> peercid_live e' = true -> pid (pe_key e') = pid k -> forall k', (s, k') ∈ uses -> pid k' = pid k) as Hnew.
    { intros s k Hf -> Hl Hp k' Hin. destruct (Hu _ _ Hin) as [(j & f & Hj & Hlf & Es & Hpf)|Hso].
      - assert (j = i) as ->.
        { destruct Hnum as [(Hue & _ & E & _)|(_ & _ & Hnh & _)].
          - eapply (H1 j i (pe_seq e)); [exists f; unfold peercid_live in Hlf; destruct (pe_in_use f); [|done]; rewrite <- E; done | exists e; done].
          - exfalso. apply Hnh. exists j, f. unfold peercid_live in Hlf. by destruct (pe_in_use f). }
        assert (f = e) as -> by congruence. destruct (Hlive Hlf) as [Hpe _]. congruence.
      - exfalso. destruct Hnum as [(Hue & _ & E & _)|(_ & _ & _ & _ & Hno & _)]; [|by apply Hno]. eapply Hg; [exact Hf| |exact Hso]. exists i, e. done. }
    intros s k k' Hf [Hs|(Hs & Hl & Hp)]%Huses [Hs'|(Hs' & Hl' & Hp')]%Huses; [by eapply Hcons| | |congruence].
    + by eapply Hnew.
    + symmetry. by eapply Hnew.
  - intros j j' f f' [[-> [<- _]]|[Hne Hj]]%list_lookup_insert_Some [[-> [<- _]]|[Hne' Hj']]%list_lookup_insert_Some Hl Hl' Hp; try done.
    + symmetry. by eapply Hown'.
    + by eapply Hown'.
    + by eapply Hown.
Qed.

Lemma held_spec p s : match peercid_held p s with
  | Some i => exists e, pc_e p !! i = Some e /\ pe_in_use e = true /\ pe_seq e = s
  | None => ~ held p s
  end.
Proof.
  unfold peercid_held. destruct (first_entry _ _) as [i|] eqn:E.
  - apply first_entry_Some in E as (e & Hi & Hf). exists e. unfold peercid_is in Hf. apply andb_true_iff in Hf as [? ?%Z.eqb_eq]. done.
  - intros (i & e & Hi & Hu & <-). pose proof (first_entry_None _ _ _ _ E Hi) as Hf. unfold peercid_is in Hf. rewrite Hu, Z.eqb_refl in Hf. done.
Qed.

Lemma hold_inv far sent owed issued uses p f :
  pool_inv far sent owed issued uses p -> ~ held p (nc_seq f) -> 0 <= nc_seq f < 2 ^ 62 -> (nc_seq f ∉ far -> nc_seq f < pc_rpt p + 64 /\ nc_seq f ∉ owed) ->
  let '(r, p') := peercid_hold p f in
  r = 0 -> pool_inv far sent owed (issue (nc_seq f) issued) uses p' /\ pc_rpt p' = pc_rpt p /\ (forall s, held p' s -> held p s \/ s = nc_seq f).
Proof.
  intros H Hh Hs Hw. unfold peercid_hold. destruct (first_entry _ _) as [i|] eqn:E; [|done].
  apply first_entry_Some in E as (e & Hi & Hf). apply negb_true_iff in Hf. intros _. split; [|split; [done|]].
  - eapply put_inv; try done; cbn.
    + apply zero_key_ok.
    + right. repeat (split; [done|]). split; [|done]. intros Hn. by destruct (Hw Hn).
    + unfold peercid_live. by rewrite Hf.
    + intros s k Hk. by left.
  - intros s (j & e' & [[-> [<- _]]|[Hne Hj]]%list_lookup_insert_Some & Hu & <-); [by right | left; by exists j, e'].
Qed.

Lemma owe_below_inv far sent owed issued uses p s :
  pool_inv far sent owed issued uses p -> ~ held p s -> 0 <= s < 2 ^ 62 -> (s ∉ far -> s < pc_rpt p + 64 /\ s ∉ owed) ->
  let '(r, p') := peercid_owe_err p s in
  r = 0 -> pool_inv far sent (owed ++ [s]) (issue s issued) uses p' /\ pc_rpt p' = pc_rpt p /\ (forall t, held p' t -> held p t).
Proof.
  intros H Hh Hs Hw. unfold peercid_owe_err.
  destruct (retire_once_spec p s (pv_words H) Hs (pv_room H)) as (p1 & E & _ & Hp1). rewrite E.
  destruct (Z.eqb_spec (zlen (pc_retire p)) PEERCID_RETIRE); cbn [negb]; [done|]. intros _. pose proof (pv_room H).
  destruct Hp1 as (Hw1 & He1 & Hq1 & Hr1 & Hem1 & Hrec); [lia|].
  assert (p1 = set_e p1 (pc_e p)) as Ep1 by (rewrite <- He1; by destruct p1).
  split; [|split; [done|intros t; unfold held, held_at; by rewrite He1]]. rewrite Ep1. unfold issue.
  eapply owe_inv; try done.
  - lia.
  - apply (pv_len H).
  - intros i t. unfold held_at. cbn. split; [|by intros []]. intros Ht. split; [done|]. intros ->. apply Hh. by exists i.
  - intros i e Hi. by exists e.
Qed.

(** Any frame the decoder yields: the two numbers are varints. *)
Definition frame_ok (f : ncid_frame) : Prop := 0 <= nc_seq f < 2 ^ 62 /\ 0 <= nc_retire_prior_to f < 2 ^ 62.

(** The records cover 64 numbers on each side of Retire Prior To. *)
Definition in_window (p : peercid) (f : ncid_frame) : bool :=
  let rpt := Z.max (pc_rpt p) (nc_retire_prior_to f) in (rpt - 64 <=? nc_seq f) && (nc_seq f <? rpt + 64).
Definition note_far (p : peercid) (f : ncid_frame) (far : list Z) : list Z := if in_window p f then far else nc_seq f :: far.

Lemma note_far_in p f far : nc_seq f ∉ note_far p f far ->
  Z.max (pc_rpt p) (nc_retire_prior_to f) - 64 <= nc_seq f < Z.max (pc_rpt p) (nc_retire_prior_to f) + 64.
Proof. unfold note_far, in_window. case_match; [lia|]. rewrite elem_of_cons. tauto. Qed.

Lemma pool_inv_far far far' sent owed issued uses p :
  (forall s, s ∉ far' -> s ∉ far) -> pool_inv far sent owed issued uses p -> pool_inv far' sent owed issued uses p.
Proof.
  intros Hsub [Hlen Hw He Hq Hr H1 Ho Hg Ha Hrec Hkept Ht Hk Hu Hcons Hown]. constructor; try done; auto.
  - intros s Hs. destruct (Ht s Hs). auto.
  - eauto.
Qed.

Lemma note_far_mono p f far s : s ∉ note_far p f far -> s ∉ far.
Proof. unfold note_far. case_match; [done|]. rewrite elem_of_cons. tauto. Qed.

Lemma add_inv far sent owed issued uses p f p' :
  pool_inv far sent owed issued uses p -> floor_ok p -> frame_ok f -> peercid_add p f = (0, p') ->
  exists more, pool_inv (note_far p f far) sent (owed ++ more) (issue (nc_seq f) issued) uses p' /\ floor_ok p' /\
    pc_rpt p' = Z.max (pc_rpt p) (nc_retire_prior_to f).
Proof.
  intros H0%(pool_inv_far _ _ _ _ _ _ _ (note_far_mono p f far)) Hf (Hs & Hs2).
  pose proof (note_far_in p f far) as Hwin. set (far' := note_far p f far) in *. rename H0 into H. unfold peercid_add. rewrite (pv_empty H).
  pose proof (raise_inv _ _ _ _ _ p (nc_retire_prior_to f) H Hf ltac:(lia)) as Hr.
  destruct (peercid_raise_rpt _ _) as [full p1]. destruct Hr as (more & H1 & Er & Hfl). destruct full; [done|]. specialize (Hfl eq_refl).
  rewrite <- Er in Hwin |- *. unfold peercid_take. rewrite retired_spec by (try apply (pv_words H1); lia).
  destruct (recorded p1 (nc_seq f)) eqn:Erec.
  - intros [= <-]. exists more. split; [|done]. assert (nc_seq f ∈ issued) as Hi by (apply (pv_all H1); right; by apply (pv_rec H1)).
    unfold issue. by rewrite decide_True.
  - assert (nc_seq f ∉ far' -> nc_seq f < pc_rpt p1 + 64 /\ nc_seq f ∉ owed ++ more) as Hnew.
    { intros Hn. destruct (Hwin Hn). split; [lia|]. intros Hin. rewrite (pv_kept H1) in Erec by (done || lia). done. }
    destruct (Z.ltb_spec (nc_seq f) (pc_rpt p1)) as [Hlt|Hge].
    + assert (~ held p1 (nc_seq f)) as Hnh by (intros Hh%Hfl; lia).
      pose proof (owe_below_inv _ _ _ _ _ p1 (nc_seq f) H1 Hnh Hs Hnew) as Ho.
      destruct (peercid_owe_err p1 (nc_seq f)) as [r p2]. intros [= -> <-]. destruct (Ho eq_refl) as (H2 & Er2 & Hh).
      exists (more ++ [nc_seq f]). rewrite app_assoc. split; [done|]. split; [|congruence]. intros s Hsh%Hh. rewrite Er2. by apply Hfl.
    + unfold peercid_store. pose proof (held_spec p1 (nc_seq f)) as Hh. destruct (peercid_held p1 (nc_seq f)) as [i|].
      * destruct (peercid_same _ _); [|done]. intros [= <-]. exists more. split; [|done]. destruct Hh as (e & He & Hu & Hse).
        assert (nc_seq f ∈ issued) as Hi by (apply (pv_all H1); left; by exists i, e). unfold issue. by rewrite decide_True.
      * pose proof (hold_inv _ _ _ _ _ p1 f H1 Hh Hs Hnew) as Hho.
        destruct (peercid_hold p1 f) as [r p2]. intros [= -> <-]. destruct (Hho eq_refl) as (H2 & Er2 & Hhh).
        exists more. split; [done|]. split; [|congruence]. intros s [Hsh%Hfl| ->]%Hhh; rewrite Er2; [done|lia].
Qed.

Lemma oldest_loop_spec p n : forall i best,
  (i + n = length (pc_e p))%nat ->
  (forall b, best = Some b -> exists e, pc_e p !! b = Some e /\ peercid_unbound e = true) ->
  forall b, oldest_loop p i n best = Some b -> exists e, pc_e p !! b = Some e /\ peercid_unbound e = true.
Proof.
  induction n as [|n IH]; intros i best Hin Hbest b; cbn [oldest_loop]; [apply Hbest|].
  destruct (lookup_lt_is_Some_2 (pc_e p) i) as [e Hi]; [lia|]. rewrite (entry_at_lookup _ _ _ Hi).
  apply IH; [lia|]. intros b'. unfold peercid_better. destruct (peercid_unbound e) eqn:Hu; cbn [negb]; [|apply Hbest].
  case_match; [|apply Hbest]. intros [= <-]. by exists e.
Qed.

Lemma entries_put_same p i e : pc_e p !! i = Some e -> put_entry p i e = p.
Proof. intros Hi. unfold put_entry. rewrite list_insert_id by done. by destruct p. Qed.

Lemma owns_spec k e : key_ok k -> key_ok (pe_key e) -> peercid_owns k e = true <-> peercid_live e = true /\ pid (pe_key e) = pid k.
Proof. intros Hk He. unfold peercid_owns. rewrite andb_true_iff, key_eq_spec, bool_decide_eq_true by done. done. Qed.

Lemma bind_inv far sent owed issued uses p k :
  pool_inv far sent owed issued uses p -> key_ok k ->
  match peercid_bind p k with
  | (Some i, p') => pool_inv far sent owed issued ((pe_seq (entry_at p' i), k) :: uses) p' /\ pc_rpt p' = pc_rpt p /\ (forall s, held p' s -> held p s) /\
      bound_to p' (pe_seq (entry_at p' i)) k
  | (None, p') => p' = p
  end.
Proof.
  intros H Hk. unfold peercid_bind. rewrite (pv_empty H). unfold peercid_claim.
  destruct (peercid_own p k) as [i|] eqn:E.
  - apply first_entry_Some in E as (e & Hi & [Hl Hp]%owns_spec); [|done|by eapply (pv_keys H)].
    rewrite (entry_at_lookup _ _ _ Hi). split; [|split; [done|split; [done|by exists i, e]]]. rewrite <- (entries_put_same p i e) at 1 by done.
    eapply put_inv; try done.
    + by eapply (pv_keys H).
    + left. unfold peercid_live in Hl. by destruct (pe_in_use e).
    + intros _ j f Hj Hlf Hpf. by eapply (pv_own H).
    + intros s k' [[= -> ->]|Hs]%elem_of_cons; [by right | by left].
  - destruct (peercid_oldest_free p) as [i|] eqn:Eo; [|done].
    apply oldest_loop_spec in Eo as (e & Hi & Hu); [|by rewrite (pv_len H)|done].
    unfold peercid_unbound in Hu. apply andb_true_iff in Hu as [Hu Hb%negb_true_iff].
    rewrite (entry_at_lookup p i e Hi).
    pose proof (lookup_lt_Some _ _ _ Hi) as Hil.
    assert (pc_e (put_entry p i (bind_entry e k)) !! i = Some (bind_entry e k)) as Hi' by (cbn; by rewrite list_lookup_insert_eq).
    rewrite (entry_at_lookup _ _ _ Hi'). split; [|split; [done|split]].
    + eapply put_inv; try done.
      * left. done.
      * unfold peercid_live. by rewrite Hb, andb_false_r.
      * intros _ j f Hj Hlf Hpf. exfalso. pose proof (first_entry_None _ _ _ _ E Hj) as Hno.
        assert (peercid_owns k f = true) as Hyes by (apply owns_spec; [done|by eapply (pv_keys H)|done]). congruence.
      * intros s k' [[= -> ->]|Hs]%elem_of_cons; [|by left]. right. split; [done|]. split; [|done].
        unfold peercid_live. cbn. by rewrite Hu.
    + intros s (j & e' & [[-> [<- _]]|[Hne Hj]]%list_lookup_insert_Some & Hu' & <-); [exists j, e; done | by exists j, e'].
    + exists i, (bind_entry e k). split; [done|]. unfold peercid_live. cbn. by rewrite Hu.
Qed.

Lemma share_inv far sent owed issued uses p k :
  pool_inv far sent owed issued uses p -> key_ok k ->
  let p' := (peercid_share p k).2 in pool_inv far sent owed issued uses p' /\ pc_rpt p' = pc_rpt p /\ (forall s, held p' s -> held p s).
Proof.
  intros H Hk. unfold peercid_share. destruct (peercid_of p k) as [i|] eqn:E; [|done]. cbn [snd].
  assert (exists e, pc_e p !! i = Some e /\ peercid_live e = true) as (e & Hi & Hl).
  { unfold peercid_of in E. destruct (peercid_own p k) as [j|] eqn:Eo.
    - injection E as <-. apply first_entry_Some in Eo as (e & Hj & [Hl _]%andb_true_iff). by exists e.
    - apply first_entry_Some in E as (e & Hj & [[Hl _]%andb_true_iff _]%andb_true_iff). by exists e. }
  rewrite (entry_at_lookup _ _ _ Hi). assert (pe_in_use e = true) as Hu by (unfold peercid_live in Hl; by destruct (pe_in_use e)).
  split; [|split; [done|]].
  - eapply put_inv; try done; cbn.
    + by eapply (pv_keys H).
    + by left.
    + intros _ j f Hj Hlf Hpf. by eapply (pv_own H).
    + intros s k' Hs. by left.
  - intros s (j & e' & [[-> [<- _]]|[Hne Hj]]%list_lookup_insert_Some & Hu' & <-); [exists j, e; done | by exists j, e'].
Qed.

Lemma take_retire_inv far sent issued uses p s p' :
  pool_inv far sent (sent ++ pc_retire p) issued uses p -> peercid_take_retire p = (Some s, p') ->
  pool_inv far (sent ++ [s]) (sent ++ pc_retire p) issued uses p' /\ sent ++ pc_retire p = (sent ++ [s]) ++ pc_retire p'.
Proof.
  intros [Hlen Hw He Hq Hr H1 Ho Hg Ha Hrec Hkept Ht Hk Hu Hcons Hown] E. unfold peercid_take_retire in E.
  destruct (pc_retire p) as [|s0 rest] eqn:Eq; [done|]. injection E as -> <-.
  assert (sent ++ s :: rest = (sent ++ [s]) ++ rest) as E by (by rewrite <- app_assoc).
  split; [|done]. constructor; try done. cbn. rewrite zlen_cons in Hr. lia.
Qed.

Lemma init_inv cid0 : 1 <= zlen cid0 <= 20 -> pool_inv [] [] [] [0] [] (peercid_init cid0) /\ floor_ok (peercid_init cid0).
Proof.
  intros Hc. unfold peercid_init, peercid_hold. cbn [pc_e replicate PEERCID_CAP first_entry zero_entry pe_in_use negb snd].
  set (e0 := mk_entry _ _ _ _ _ _ _ _ _). set (p := put_entry _ _ _).
  assert (pc_e p = [e0; zero_entry; zero_entry; zero_entry]) as Ee by reflexivity.
  assert (forall i s, held_at p i s <-> i = O /\ s = 0) as Hh.
  { intros i s. unfold held_at. rewrite Ee. split; [|intros [-> ->]; by exists e0].
    intros (e & Hi & Hu & <-). destruct i as [|[|[|[|i]]]]; cbn in Hi; simplify_eq; done. }
  assert (forall s, held p s <-> s = 0) as Hh' by (intros s; unfold held; setoid_rewrite Hh; naive_solver).
  assert (forall (x : Z), x ∉ @nil Z) as Hnil by (by intros ? ?%elem_of_nil).
  split; [|intros s ->%Hh'; cbn; lia]. constructor.
  - reflexivity.
  - unfold words_ok, is_u64. cbn. lia.
  - cbn. apply Z.eqb_neq. lia.
  - reflexivity.
  - vm_compute. congruence.
  - intros i j s [-> _]%Hh [-> _]%Hh. done.
  - intros s _. cbn. lia.
  - intros s _ _. apply Hnil.
  - intros s. rewrite Hh', list_elem_of_singleton. pose proof (Hnil s). naive_solver.
  - intros s. unfold recorded, rec128. cbn [pc_gone pc_past p put_entry set_e]. by rewrite Z.testbit_0_l.
  - by intros s _ _ ?%Hnil.
  - intros s [->%Hh'|?%Hnil]; [cbn; lia|done].
  - intros i e Hi. rewrite Ee in Hi. destruct i as [|[|[|[|i]]]]; cbn in Hi; simplify_eq; apply zero_key_ok.
  - by intros s k ?%elem_of_nil.
  - by intros s k k' _ ?%elem_of_nil.
  - intros i j e e' Hi _ Hl _. rewrite Ee in Hi. destruct i as [|[|[|[|i]]]]; cbn in Hi; simplify_eq; done.
Qed.

(** ** Every run of the pool *)

(** The reachable pools of a peer that uses non-empty ids, under any frames, up
    to the first error (which closes the connection), with the numbers of which
    some frame arrived outside the records' window, the numbers taken off the
    retire queue, the numbers issued and the paths each number was bound to. *)
Inductive pool_reach (cid0 : list Z) : list Z -> list Z -> list Z -> list (Z * pathsel_key) -> peercid -> Prop :=
  | pr_start : pool_reach cid0 [] [] [0] [] (peercid_init cid0)
  | pr_add far sent issued uses p f p' : pool_reach cid0 far sent issued uses p -> frame_ok f -> peercid_add p f = (0, p') ->
      pool_reach cid0 (note_far p f far) sent (issue (nc_seq f) issued) uses p'
  | pr_bind far sent issued uses p k i p' : pool_reach cid0 far sent issued uses p -> key_ok k -> peercid_bind p k = (Some i, p') ->
      pool_reach cid0 far sent issued ((pe_seq (entry_at p' i), k) :: uses) p'
  | pr_share far sent issued uses p k r p' : pool_reach cid0 far sent issued uses p -> key_ok k -> peercid_share p k = (r, p') ->
      pool_reach cid0 far sent issued uses p'
  | pr_sweep far sent issued uses p tracked : pool_reach cid0 far sent issued uses p ->
      pool_reach cid0 far sent issued uses (peercid_sweep p tracked)
  | pr_retire far sent issued uses p s p' : pool_reach cid0 far sent issued uses p -> peercid_take_retire p = (Some s, p') ->
      pool_reach cid0 far (sent ++ [s]) issued uses p'.

Lemma pool_reach_inv cid0 far sent issued uses p :
  1 <= zlen cid0 <= 20 -> pool_reach cid0 far sent issued uses p ->
  pool_inv far sent (sent ++ pc_retire p) issued uses p /\ floor_ok p.
Proof.
  intros Hc. induction 1 as [|far sent issued uses p f p' _ [IH Hf] Hok E|far sent issued uses p k i p' _ [IH Hf] Hk E
    |far sent issued uses p k r p' _ [IH Hf] Hk E|far sent issued uses p tracked _ [IH Hf]|far sent issued uses p s p' _ [IH Hf] E].
  - by apply init_inv.
  - destruct (add_inv _ _ _ _ _ p f p' IH Hf Hok E) as (more & H1 & Hf1 & _). rewrite <- (pv_queue H1). done.
  - pose proof (bind_inv _ _ _ _ _ p k IH Hk) as H1. rewrite E in H1. destruct H1 as (H1 & Er & Hh & _). rewrite <- (pv_queue H1).
    split; [done|]. intros s Hs%Hh. rewrite Er. by apply Hf.
  - destruct (share_inv _ _ _ _ _ p k IH Hk) as (H1 & Er & Hh). rewrite E in H1, Er, Hh. cbn [snd] in *. rewrite <- (pv_queue H1).
    split; [done|]. intros s Hs%Hh. rewrite Er. by apply Hf.
  - destruct (sweep_inv _ _ _ _ tracked PEERCID_CAP p 0 _ IH eq_refl) as (more & H1 & Er & Hh). fold (peercid_sweep p tracked) in *.
    rewrite <- (pv_queue H1). split; [done|]. intros s Hs%Hh. rewrite Er. by apply Hf.
  - destruct (take_retire_inv _ _ _ _ p s p' IH E) as [H1 Eq]. rewrite <- Eq. split; [done|].
    assert (pc_e p' = pc_e p /\ pc_rpt p' = pc_rpt p) as [Ee Er] by (unfold peercid_take_retire in E; case_match; simplify_eq; done).
    intros t Ht. rewrite Er. apply Hf. unfold held, held_at in *. by rewrite <- Ee.
Qed.

(** C10: the pool of the peer's connection ids accounts for every id. Over any
    sequence of received NEW_CONNECTION_ID frames (any sequence numbers and any
    Retire Prior To), bindings, shares, sweeps and retirements up to the first
    error: an id issued is held or owed a RETIRE_CONNECTION_ID; every id held is
    at least Retire Prior To; an id is held once; no path is bound to two ids at
    once (RFC 9000 9.5); at most four ids are held and eight owed. For every id
    whose frames all arrived within 64 of Retire Prior To, the range the pool
    remembers, it is moreover never both held and owed, owed at most once over
    the whole connection, and never bound to two paths. For an id outside that
    range these three fail: [far_repeat_owed_twice] and [far_repeat_bound_twice]
    below. *)
Theorem peer_ids_accounted cid0 far sent issued uses p :
  1 <= zlen cid0 <= 20 -> pool_reach cid0 far sent issued uses p ->
  (forall s, s ∈ issued <-> held p s \/ s ∈ sent ++ pc_retire p) /\
  (forall s, held p s -> pc_rpt p <= s) /\
  (forall i j s, held_at p i s -> held_at p j s -> i = j) /\
  (forall s s' k, bound_to p s k -> bound_to p s' k -> s = s') /\
  length (pc_e p) = PEERCID_CAP /\ zlen (pc_retire p) <= PEERCID_RETIRE /\
  forall s, s ∉ far ->
    (times s (sent ++ pc_retire p) <= 1)%nat /\
    (held p s -> s ∉ sent ++ pc_retire p) /\
    (forall k k', (s, k) ∈ uses -> (s, k') ∈ uses -> pid k = pid k').
Proof.
  intros Hc [H Hf]%pool_reach_inv; [|done]. split; [apply (pv_all H)|]. split; [apply Hf|]. split; [apply (pv_one H)|].
  split; [|split; [apply (pv_len H)|split; [apply (pv_room H)|]]].
  - intros s s' k (i & e & Hi & Hl & <- & Hp) (j & e' & Hj & Hl' & <- & Hp').
    assert (i = j) as -> by (eapply (pv_own H); eauto; congruence). congruence.
  - intros s Hs. split; [by apply (pv_once H)|]. split; [by apply (pv_gone H)|]. intros k k'. by apply (pv_cons H).
Qed.

Definition frame_of (seq rpt : Z) : ncid_frame := mk_ncid seq rpt 4 (replicate 20 seq) (replicate 16 seq).

(** Bind the first id, receive two more of which the second retires the first,
    bind the next one, and take the retirement off the queue. *)
Definition demo1 : peercid := (peercid_bind (peercid_init [1; 2; 3]) (key_on 443)).2.
Definition demo2 : peercid := (peercid_add demo1 (frame_of 1 0)).2.
Definition demo3 : peercid := (peercid_add demo2 (frame_of 2 1)).2.
Definition demo4 : peercid := (peercid_bind demo3 (key_on 444)).2.
Definition demo5 : peercid := (peercid_take_retire demo4).2.

Lemma peer_ids_accounted_witness :
  pool_reach [1; 2; 3] [] [0] [2; 1; 0] [(1, key_on 444); (0, key_on 443)] demo5 /\ (times 0 (0%Z :: pc_retire demo5) <= 1)%nat.
Proof.
  assert (pool_reach [1; 2; 3] [] [0] [2; 1; 0] [(1, key_on 444); (0, key_on 443)] demo5) as H.
  { apply (pr_retire _ [] [] _ _ demo4 0); [|vm_compute; reflexivity].
    apply (pr_bind _ [] [] [2; 1; 0] [(0, key_on 443)] demo3 (key_on 444) 1 demo4); [|split; [reflexivity|repeat constructor; cbn; lia]|vm_compute; reflexivity].
    apply (pr_add _ [] [] [1; 0] _ demo2 (frame_of 2 1) demo3); [|vm_compute; repeat split; congruence|vm_compute; reflexivity].
    apply (pr_add _ [] [] [0] _ demo1 (frame_of 1 0) demo2); [|vm_compute; repeat split; congruence|vm_compute; reflexivity].
    apply (pr_bind _ [] [] [0] [] (peercid_init [1; 2; 3]) (key_on 443) 0 demo1); [|split; [reflexivity|repeat constructor; cbn; lia]|vm_compute; reflexivity].
    apply pr_start. }
  split; [exact H|].
  apply (peer_ids_accounted [1; 2; 3] [] [0] [2; 1; 0] [(1, key_on 444); (0, key_on 443)] demo5); [vm_compute; split; congruence | exact H | by intros ?%elem_of_nil].
Defined.

(** What the records forget: number 10, which Retire Prior To 100 puts out of
    their range, is owed once for each time its frame arrives (peercid.h: queued
    for retirement once, a repeat ignored). *)
Definition below1 : peercid := (peercid_add (peercid_init [1; 2; 3]) (frame_of 100 100)).2.
Definition below2 : peercid := (peercid_add below1 (frame_of 10 0)).2.
Definition below3 : peercid := (peercid_add below2 (frame_of 10 0)).2.

Example far_repeat_owed_twice :
  exists far issued, pool_reach [1; 2; 3] far [] issued [] below3 /\ times 10 (pc_retire below3) = 2%nat.
Proof.
  eexists _, _. split; [|vm_compute; reflexivity].
  eapply (pr_add _ _ _ _ _ below2 (frame_of 10 0)); [|vm_compute; repeat split; congruence|vm_compute; reflexivity].
  eapply (pr_add _ _ _ _ _ below1 (frame_of 10 0)); [|vm_compute; repeat split; congruence|vm_compute; reflexivity].
  eapply (pr_add _ _ _ _ _ (peercid_init [1; 2; 3]) (frame_of 100 100)); [|vm_compute; repeat split; congruence|vm_compute; reflexivity].
  apply pr_start.
Qed.

(** Number 70, too far ahead to be remembered: bound to one path, retired by a
    sweep, held again when its frame repeats, and bound to a second path
    (peercid.h: never used on another). *)
Definition ahead1 : peercid := (peercid_bind (peercid_init [1; 2; 3]) (key_on 443)).2.
Definition ahead2 : peercid := (peercid_add ahead1 (frame_of 70 0)).2.
Definition ahead3 : peercid := (peercid_bind ahead2 (key_on 444)).2.
Definition ahead4 : peercid := peercid_sweep ahead3 [key_on 443].
Definition ahead5 : peercid := (peercid_add ahead4 (frame_of 70 0)).2.
Definition ahead6 : peercid := (peercid_bind ahead5 (key_on 445)).2.

Example far_repeat_bound_twice :
  exists far issued uses, pool_reach [1; 2; 3] far [] issued uses ahead6 /\
    (70, key_on 444) ∈ uses /\ (70, key_on 445) ∈ uses /\ pid (key_on 444) <> pid (key_on 445) /\ pc_retire ahead6 = [70].
Proof.
  eexists _, _, [(70, key_on 445); (70, key_on 444); (0, key_on 443)].
  split; [|split; [by right; left|split; [by left|split; [vm_compute; congruence|vm_compute; reflexivity]]]].
  eapply (pr_bind _ _ _ _ [(70, key_on 444); (0, key_on 443)] ahead5 (key_on 445) 1 ahead6); [|split; [reflexivity|repeat constructor; cbn; lia]|vm_compute; reflexivity].
  eapply (pr_add _ _ _ _ _ ahead4 (frame_of 70 0)); [|vm_compute; repeat split; congruence|vm_compute; reflexivity].
  eapply (pr_sweep _ _ _ _ _ ahead3 [key_on 443]).
  eapply (pr_bind _ _ _ _ [(0, key_on 443)] ahead2 (key_on 444) 1 ahead3); [|split; [reflexivity|repeat constructor; cbn; lia]|vm_compute; reflexivity].
  eapply (pr_add _ _ _ _ _ ahead1 (frame_of 70 0)); [|vm_compute; repeat split; congruence|vm_compute; reflexivity].
  eapply (pr_bind _ _ _ _ [] (peercid_init [1; 2; 3]) (key_on 443) 0 ahead1); [|split; [reflexivity|repeat constructor; cbn; lia]|vm_compute; reflexivity].
  apply pr_start.
Qed.
