(* ===== verification/Fips180.v ===== *)
(** * FIPS 180-4: the Secure Hash Standard

    The specification src/src/crypto/symmetric/hash is proved against, written from
    the standard and sharing nothing with the code's model: the constants are
    computed from the primes (4.2, 5.3), the functions are those of 4.1, and the
    message schedule, the rounds and the padding those of 5.1 and 6. Words are
    integers below 2^w; the SHA-256 and the SHA-512 family differ in their
    parameters only. *)

From stdpp Require Import base numbers list.
From Stdlib Require Import ZArith Lia.
From S2P Require Import Prelude Bytes.
Open Scope Z_scope.

(** ** Constants *)

Definition is_prime (n : nat) : bool := (2 <=? n)%nat && forallb (fun d => negb (n mod d =? 0)%nat) (seq 2 (n - 2)).
Definition primes (n : nat) : list Z := map Z.of_nat (take n (filter (fun k => is_prime k = true) (seq 0 410))).
(** The largest [r] with r^3 <= x, bit by bit. *)
Fixpoint cbrt_bits (k : nat) (r x : Z) : Z :=
  match k with
  | O => r
  | S k' => let r' := r + 2 ^ Z.of_nat k' in cbrt_bits k' (if r' * r' * r' <=? x then r' else r) x
  end.
(** 4.2: the first [w] bits of the fractional part of the cube root of a prime; 5.3: of its square root. *)
Definition frac_cbrt (w p : Z) : Z := cbrt_bits (Z.to_nat (w + 3)) 0 (p * 2 ^ (3 * w)) mod 2 ^ w.
Definition frac_sqrt (w p : Z) : Z := Z.sqrt (p * 2 ^ (2 * w)) mod 2 ^ w.

Definition K_256 : list Z := Eval vm_compute in map (frac_cbrt 32) (primes 64).
Definition K_512 : list Z := Eval vm_compute in map (frac_cbrt 64) (primes 80).
Definition H_256 : list Z := Eval vm_compute in map (frac_sqrt 32) (primes 8).
Definition H_512 : list Z := Eval vm_compute in map (frac_sqrt 64) (primes 8).
(** 5.3.4: of the ninth to the sixteenth prime. *)
Definition H_384 : list Z := Eval vm_compute in map (frac_sqrt 64) (drop 8 (primes 16)).

(** ** Functions (4.1) *)

(** [sp_S0], [sp_S1]: the three rotations of the upper-case sigmas; [sp_s0], [sp_s1]: two
    rotations and a shift. *)
Record sha_params := mk_sha { sp_w : Z; sp_S0 : Z * Z * Z; sp_S1 : Z * Z * Z; sp_s0 : Z * Z * Z; sp_s1 : Z * Z * Z; sp_K : list Z }.
Definition SHA_256 : sha_params := mk_sha 32 (2, 13, 22) (6, 11, 25) (7, 18, 3) (17, 19, 10) K_256.
Definition SHA_512 : sha_params := mk_sha 64 (28, 34, 39) (14, 18, 41) (1, 8, 7) (19, 61, 6) K_512.

Section fips.
Context (P : sha_params).
Notation w := (sp_w P).

Definition ROTR (n x : Z) : Z := x / 2 ^ n + (x mod 2 ^ n) * 2 ^ (w - n).
Definition SHR (n x : Z) : Z := x / 2 ^ n.
Definition big_sigma (r : Z * Z * Z) (x : Z) : Z := let '(a, b, c) := r in Z.lxor (Z.lxor (ROTR a x) (ROTR b x)) (ROTR c x).
Definition small_sigma (r : Z * Z * Z) (x : Z) : Z := let '(a, b, c) := r in Z.lxor (Z.lxor (ROTR a x) (ROTR b x)) (SHR c x).
(** Of each bit: [y] where [x] is set and [z] where it is not; what at least two of them have. *)
Definition fips_Ch (x y z : Z) : Z := Z.lxor (Z.land x y) (Z.ldiff z x).
Definition fips_Maj (x y z : Z) : Z := Z.lxor (Z.land x y) (Z.lxor (Z.land x z) (Z.land y z)).

(** ** Hash computation (5.2, 6.2.2, 6.4.2) *)

Definition add_w (l : list Z) : Z := foldr Z.add 0 l mod 2 ^ w.
(** The words of a block, most significant byte first; a byte is a number mod 256. *)
Definition block_word (b : list Z) (i : nat) : Z := foldl (fun v x => v * 256 + x mod 256) 0 (take (Z.to_nat (w / 8)) (drop (i * Z.to_nat (w / 8)) b)).
(** The message schedule so far, the last word first. *)
Definition next_word (ws : list Z) : Z := add_w [small_sigma (sp_s1 P) (at_ ws 1); at_ ws 6; small_sigma (sp_s0 P) (at_ ws 14); at_ ws 15].
Fixpoint more_words (n : nat) (ws : list Z) : list Z := match n with O => ws | S n' => more_words n' (next_word ws :: ws) end.
Definition fips_schedule (b : list Z) : list Z := rev (more_words (length (sp_K P) - 16) (rev (map (block_word b) (seq 0 16)))).

Definition fips_round (v : list Z) (KW : Z * Z) : list Z :=
  match v with
  | [a; b; c; d; e; f; g; h] =>
    let T1 := add_w [h; big_sigma (sp_S1 P) e; fips_Ch e f g; KW.1; KW.2] in
    let T2 := add_w [big_sigma (sp_S0 P) a; fips_Maj a b c] in
    [add_w [T1; T2]; a; b; c; add_w [d; T1]; e; f; g]
  | _ => v
  end.
Definition fips_compress (H b : list Z) : list Z :=
  zip_with (fun x y => add_w [x; y]) (foldl fips_round H (zip (sp_K P) (fips_schedule b))) H.

(** 5.1, 5.2: a one bit, zeros and the length in bits, in blocks of 16 words. *)
Definition block_size : nat := 2 * Z.to_nat w.
Definition fips_pad (m : list Z) : list Z :=
  let lenw := (block_size / 8)%nat in
  m ++ 0x80 :: replicate ((block_size - lenw + block_size - (length m + 1) mod block_size) mod block_size) 0 ++ be_bytes lenw (8 * zlen m).
Fixpoint fips_blocks (n : nat) (H m : list Z) : list Z :=
  match n with O => H | S n' => fips_blocks n' (fips_compress H (take block_size m)) (drop block_size m) end.
Definition fips_hash (H m : list Z) : list Z :=
  let p := fips_pad m in concat (map (be_bytes (Z.to_nat (w / 8))) (fips_blocks (length p / block_size) H p)).
End fips.

Definition fips_sha256 (m : list Z) : list Z := fips_hash SHA_256 H_256 m.
Definition fips_sha512 (m : list Z) : list Z := fips_hash SHA_512 H_512 m.
Definition fips_sha384 (m : list Z) : list Z := take 48 (fips_hash SHA_512 H_384 m).

Example fips_sha256_abc : be_val (fips_sha256 [97; 98; 99]) = 0xba7816bf8f01cfea414140de5dae2223b00361a396177a9cb410ff61f20015ad.
Proof. vm_compute. reflexivity. Qed.
Example fips_sha384_abc : be_val (fips_sha384 [97; 98; 99]) =
  0xcb00753f45a35e8bb5a03d699ac65007272c32ab0eded1631a8b605a43ff5bed8086072ba1e7cc2358baeca134c825a7.
Proof. vm_compute. reflexivity. Qed.
