(* ===== verification/Sha2.v ===== *)
(** * SHA-2, HMAC and HKDF

    src/src/crypto/symmetric/hash (sha256.c, sha512.c, sha384.c, hmac.c) and
    src/src/crypto/kdf/hkdf. The three hashes share one streaming structure,
    modelled once over a block size and a compression function; the main theorem
    shows that hashing a message in any pieces gives the FIPS 180-4 digest of
    the whole, as Fips180 defines it. *)

From Stdlib Require Import String.
From stdpp Require Import base numbers list option.
From Stdlib Require Import ZArith Lia.
From S2P Require Import Prelude Bytes Fips180.

(** ** The compression functions *)

(* src/src/crypto/symmetric/hash/hash/sha256.c : K *)
Definition sha256_K : list Z := Eval vm_compute in flat_map (words_of 32 4) [
   0x428a2f9871374491b5c0fbcfe9b5dba5; 0x3956c25b59f111f1923f82a4ab1c5ed5;
   0xd807aa9812835b01243185be550c7dc3; 0x72be5d7480deb1fe9bdc06a7c19bf174;
   0xe49b69c1efbe47860fc19dc6240ca1cc; 0x2de92c6f4a7484aa5cb0a9dc76f988da;
   0x983e5152a831c66db00327c8bf597fc7; 0xc6e00bf3d5a7914706ca635114292967;
   0x27b70a852e1b21384d2c6dfc53380d13; 0x650a7354766a0abb81c2c92e92722c85;
   0xa2bfe8a1a81a664bc24b8b70c76c51a3; 0xd192e819d6990624f40e3585106aa070;
   0x19a4c1161e376c082748774c34b0bcb5; 0x391c0cb34ed8aa4a5b9cca4f682e6ff3;
   0x748f82ee78a5636f84c878148cc70208; 0x90befffaa4506cebbef9a3f7c67178f2].

(* src/src/crypto/symmetric/hash/hash/sha256.c : H0 *)
Definition sha256_H0 : list Z := [
   0x6a09e667; 0xbb67ae85; 0x3c6ef372; 0xa54ff53a; 0x510e527f; 0x9b05688c; 0x1f83d9ab; 0x5be0cd19].

(* src/src/crypto/symmetric/hash/hash/sha512.c : S512_K *)
Definition sha512_K : list Z := [
   0x428a2f98d728ae22; 0x7137449123ef65cd; 0xb5c0fbcfec4d3b2f; 0xe9b5dba58189dbbc;
   0x3956c25bf348b538; 0x59f111f1b605d019; 0x923f82a4af194f9b; 0xab1c5ed5da6d8118;
   0xd807aa98a3030242; 0x12835b0145706fbe; 0x243185be4ee4b28c; 0x550c7dc3d5ffb4e2;
   0x72be5d74f27b896f; 0x80deb1fe3b1696b1; 0x9bdc06a725c71235; 0xc19bf174cf692694;
   0xe49b69c19ef14ad2; 0xefbe4786384f25e3; 0x0fc19dc68b8cd5b5; 0x240ca1cc77ac9c65;
   0x2de92c6f592b0275; 0x4a7484aa6ea6e483; 0x5cb0a9dcbd41fbd4; 0x76f988da831153b5;
   0x983e5152ee66dfab; 0xa831c66d2db43210; 0xb00327c898fb213f; 0xbf597fc7beef0ee4;
   0xc6e00bf33da88fc2; 0xd5a79147930aa725; 0x06ca6351e003826f; 0x142929670a0e6e70;
   0x27b70a8546d22ffc; 0x2e1b21385c26c926; 0x4d2c6dfc5ac42aed; 0x53380d139d95b3df;
   0x650a73548baf63de; 0x766a0abb3c77b2a8; 0x81c2c92e47edaee6; 0x92722c851482353b;
   0xa2bfe8a14cf10364; 0xa81a664bbc423001; 0xc24b8b70d0f89791; 0xc76c51a30654be30;
   0xd192e819d6ef5218; 0xd69906245565a910; 0xf40e35855771202a; 0x106aa07032bbd1b8;
   0x19a4c116b8d2d0c8; 0x1e376c085141ab53; 0x2748774cdf8eeb99; 0x34b0bcb5e19b48a8;
   0x391c0cb3c5c95a63; 0x4ed8aa4ae3418acb; 0x5b9cca4f7763e373; 0x682e6ff3d6b2b8a3;
   0x748f82ee5defb2fc; 0x78a5636f43172f60; 0x84c87814a1f0ab72; 0x8cc702081a6439ec;
   0x90befffa23631e28; 0xa4506cebde82bde9; 0xbef9a3f7b2c67915; 0xc67178f2e372532b;
   0xca273eceea26619c; 0xd186b8c721c0c207; 0xeada7dd6cde0eb1e; 0xf57d4f7fee6ed178;
   0x06f067aa72176fba; 0x0a637dc5a2c898a6; 0x113f9804bef90dae; 0x1b710b35131c471b;
   0x28db77f523047d84; 0x32caab7b40c72493; 0x3c9ebe0a15c9bebc; 0x431d67c49c100d4c;
   0x4cc5d4becb3e42b6; 0x597f299cfc657e2a; 0x5fcb6fab3ad6faec; 0x6c44198c4a475817].

(* src/src/crypto/symmetric/hash/hash/sha512.c : S512_H0 *)
Definition sha512_H0 : list Z := [
   0x6a09e667f3bcc908; 0xbb67ae8584caa73b; 0x3c6ef372fe94f82b; 0xa54ff53a5f1d36f1;
   0x510e527fade682d1; 0x9b05688c2b3e6c1f; 0x1f83d9abfb41bd6b; 0x5be0cd19137e2179].

(* src/src/crypto/symmetric/hash/hash/sha384.c : sha384_h0 *)
Definition sha384_H0 : list Z := [
   0xcbbb9d5dc1059ed8; 0x629a292a367cd507; 0x9159015a3070dd17; 0x152fecd8f70e5939;
   0x67332667ffc00b31; 0x8eb44a8768581511; 0xdb0c2e0d64f98fa7; 0x47b5481dbefa4fa4].

(** Rotations, on words of [w] bits. *)
Definition ror (w x n : Z) : Z := Z.lor (Z.shiftr x n) (Z.shiftl x (w - n) mod 2 ^ w).
(* src/src/crypto/symmetric/hash/hash/sha256.c : CH *)
Definition sha_CH (w x y z : Z) : Z := Z.lxor (Z.land x y) (Z.land (Z.lnot x mod 2 ^ w) z).
(* src/src/crypto/symmetric/hash/hash/sha256.c : MAJ *)
Definition sha_MAJ (x y z : Z) : Z := Z.lxor (Z.lxor (Z.land x y) (Z.land x z)) (Z.land y z).
(* src/src/crypto/symmetric/hash/hash/sha256.c : BS0 *)
Definition BS0 (x : Z) : Z := Z.lxor (Z.lxor (ror 32 x 2) (ror 32 x 13)) (ror 32 x 22).
(* src/src/crypto/symmetric/hash/hash/sha256.c : BS1 *)
Definition BS1 (x : Z) : Z := Z.lxor (Z.lxor (ror 32 x 6) (ror 32 x 11)) (ror 32 x 25).
(* src/src/crypto/symmetric/hash/hash/sha256.c : SS0 *)
Definition SS0 (x : Z) : Z := Z.lxor (Z.lxor (ror 32 x 7) (ror 32 x 18)) (Z.shiftr x 3).
(* src/src/crypto/symmetric/hash/hash/sha256.c : SS1 *)
Definition SS1 (x : Z) : Z := Z.lxor (Z.lxor (ror 32 x 17) (ror 32 x 19)) (Z.shiftr x 10).
(* src/src/crypto/symmetric/hash/hash/sha512_impl.h : S512BS0 *)
Definition S512BS0 (x : Z) : Z := Z.lxor (Z.lxor (ror 64 x 28) (ror 64 x 34)) (ror 64 x 39).
(* src/src/crypto/symmetric/hash/hash/sha512_impl.h : S512BS1 *)
Definition S512BS1 (x : Z) : Z := Z.lxor (Z.lxor (ror 64 x 14) (ror 64 x 18)) (ror 64 x 41).
(* src/src/crypto/symmetric/hash/hash/sha512_impl.h : S512SS0 *)
Definition S512SS0 (x : Z) : Z := Z.lxor (Z.lxor (ror 64 x 1) (ror 64 x 8)) (Z.shiftr x 7).
(* src/src/crypto/symmetric/hash/hash/sha512_impl.h : S512SS1 *)
Definition S512SS1 (x : Z) : Z := Z.lxor (Z.lxor (ror 64 x 19) (ror 64 x 61)) (Z.shiftr x 6).

(** A word of the block; an element of a [u8] array is read as a byte. *)
Definition sha256_word (p : list Z) (i : nat) : Z :=
  Z.lor (Z.lor (Z.lor (u32 (Z.shiftl (u8 (at_ p (i * 4))) 24)) (Z.shiftl (u8 (at_ p (i * 4 + 1))) 16)) (Z.shiftl (u8 (at_ p (i * 4 + 2))) 8)) (u8 (at_ p (i * 4 + 3))).
(* src/src/crypto/symmetric/hash/hash/sha256.c : schedule *)
Definition sha256_schedule (p : list Z) : list Z :=
  extend_words (fun w i => u32 (SS1 (at_ w (i - 2)) + at_ w (i - 7) + SS0 (at_ w (i - 15)) + at_ w (i - 16))) 48
    (map (sha256_word p) (seq 0 16)).

(** [for (j = 7; j > 0; j--) v[j] = v[j - 1];] *)
Fixpoint shift_down (j : nat) (v : list Z) : list Z :=
  match j with O => v | S j' => shift_down j' (<[j := at_ v j']> v) end.

(* src/src/crypto/symmetric/hash/hash/sha256.c : round_step *)
Definition sha256_round_step (v : list Z) (kw : Z) : list Z :=
  let t1 := u32 (at_ v 7 + BS1 (at_ v 4) + sha_CH 32 (at_ v 4) (at_ v 5) (at_ v 6) + kw) in
  let t2 := u32 (BS0 (at_ v 0) + sha_MAJ (at_ v 0) (at_ v 1) (at_ v 2)) in
  let v := shift_down 7 v in
  let v := <[4%nat := u32 (at_ v 4 + t1)]> v in
  <[0%nat := u32 (t1 + t2)]> v.

(* src/src/crypto/symmetric/hash/hash/sha256.c : run_rounds *)
Definition sha256_run_rounds (h w : list Z) : list Z :=
  foldl (fun v i => sha256_round_step v (u32 (at_ sha256_K i + at_ w i))) h (seq 0 64).

(* src/src/crypto/symmetric/hash/hash/sha256.c : compress *)
Definition sha256_compress (h p : list Z) : list Z :=
  let v := sha256_run_rounds h (sha256_schedule p) in map (fun i => u32 (at_ h i + at_ v i)) (seq 0 8).

(* src/src/crypto/symmetric/hash/hash/sha512.c : load_be64@57-63 *)
Definition sha512_load_be64 (p : list Z) (o : nat) : Z :=
  foldl (fun v j => Z.lor (u64 (Z.shiftl v 8)) (u8 (at_ p (o + j)))) 0 (seq 0 8).

(* src/src/crypto/symmetric/hash/hash/sha512.c : sha512_schedule@66-73 *)
Definition sha512_schedule (p : list Z) : list Z :=
  extend_words (fun w i => u64 (S512SS1 (at_ w (i - 2)) + at_ w (i - 7) + S512SS0 (at_ w (i - 15)) + at_ w (i - 16))) 64
    (map (fun i => sha512_load_be64 p (i * 8)) (seq 0 16)).

(* src/src/crypto/symmetric/hash/hash/sha512.c : sha512_round_step@76-84 *)
Definition sha512_round_step (v : list Z) (kw : Z) : list Z :=
  let t1 := u64 (at_ v 7 + S512BS1 (at_ v 4) + sha_CH 64 (at_ v 4) (at_ v 5) (at_ v 6) + kw) in
  let t2 := u64 (S512BS0 (at_ v 0) + sha_MAJ (at_ v 0) (at_ v 1) (at_ v 2)) in
  let v := shift_down 7 v in
  let v := <[4%nat := u64 (at_ v 4 + t1)]> v in
  <[0%nat := u64 (t1 + t2)]> v.

(* src/src/crypto/symmetric/hash/hash/sha512.c : sha512_run_rounds@87-94 *)
Definition sha512_run_rounds (h w : list Z) : list Z :=
  foldl (fun v i => sha512_round_step v (u64 (at_ sha512_K i + at_ w i))) h (seq 0 80).

(* src/src/crypto/symmetric/hash/hash/sha512.c : sha512_compress@96-104 *)
Definition sha512_compress (h p : list Z) : list Z :=
  let v := sha512_run_rounds h (sha512_schedule p) in map (fun i => u64 (at_ h i + at_ v i)) (seq 0 8).

(** ** The streaming hash

    Shared by both contexts: [B] is the block size, [compress] the compression
    function on the chaining value. The indices into the block buffer are
    checked: [None] is a write past it. *)

Record hash_ctx := mk_ctx { hc_h : list Z; hc_total : Z; hc_buf : list Z; hc_buf_len : nat }.

Section Streaming.
Context (B : nat) (compress : list Z -> list Z -> list Z).

(** [while (len - off >= BLOCK)], [fuel] bounding the iterations. *)
Fixpoint absorb_loop (fuel : nat) (h data : list Z) (off : nat) : list Z * nat :=
  match fuel with
  | O => (h, off)
  | S f =>
      if (B <=? length data - off)%nat then absorb_loop f (compress h (take B (drop off data))) data (off + B) else (h, off)
  end.
(* src/src/crypto/symmetric/hash/hash/sha256.c : absorb_blocks *)
Definition absorb_blocks (h data : list Z) : list Z * nat := absorb_loop (length data) h data 0.

(* src/src/crypto/symmetric/hash/hash/sha256.c : buffer *)
Definition sha_buffer (s : hash_ctx) (data : list Z) : option hash_ctx :=
  if (hc_buf_len s + length data <=? length (hc_buf s))%nat then
    Some (mk_ctx (hc_h s) (hc_total s)
            (take (hc_buf_len s) (hc_buf s) ++ data ++ drop (hc_buf_len s + length data) (hc_buf s)) (hc_buf_len s + length data))
  else None.

(* src/src/crypto/symmetric/hash/hash/sha256.c : pending_take *)
Definition pending_take (s : hash_ctx) (len : nat) : nat :=
  let want := (B - hc_buf_len s)%nat in if negb (hc_buf_len s =? 0)%nat && (want <=? len)%nat then want else O.

(* src/src/crypto/symmetric/hash/hash/sha256.c : fill_pending *)
Definition fill_pending (s : hash_ctx) (data : list Z) : option (hash_ctx * nat) :=
  let n := pending_take s (length data) in
  s1 ← sha_buffer s (take n data);
  Some (if (n =? 0)%nat then s1 else mk_ctx (compress (hc_h s1) (hc_buf s1)) (hc_total s1) (hc_buf s1) 0, n).

(* src/src/crypto/symmetric/hash/hash/sha256.c : sha256_update *)
Definition sha_update (s : hash_ctx) (data : list Z) : option hash_ctx :=
  if (length data =? 0)%nat then Some s
  else
    '(s1, off) ← fill_pending s data;
    let '(h, n) := absorb_blocks (hc_h s1) (drop off data) in
    s2 ← sha_buffer (mk_ctx h (hc_total s1) (hc_buf s1) (hc_buf_len s1)) (drop (off + n) data);
    Some (mk_ctx (hc_h s2) (u64 (hc_total s2 + zlen data)) (hc_buf s2) (hc_buf_len s2)).

(** [while (buf_len != stop) update(0)] *)
Fixpoint pad_loop (fuel stop : nat) (s : hash_ctx) : option hash_ctx :=
  if (hc_buf_len s =? stop)%nat then Some s
  else match fuel with O => None | S f => s1 ← sha_update s [0]; pad_loop f stop s1 end.
(* src/src/crypto/symmetric/hash/hash/sha256.c : pad_message *)
Definition pad_message (stop : nat) (s : hash_ctx) : option hash_ctx := s1 ← sha_update s [0x80]; pad_loop B stop s1.

(** ** FIPS 180-4: the hash of a whole message *)

(** The chaining value after [n] blocks. *)
Fixpoint md_blocks (n : nat) (h m : list Z) : list Z :=
  match n with O => h | S n' => md_blocks n' (compress h (take B m)) (drop B m) end.

(** 5.1: a one bit, zeros, and the length, to a whole number of blocks. *)
Definition md_pad (stop lenw : nat) (m : list Z) : list Z :=
  m ++ 0x80 :: replicate ((stop + B - (length m + 1) mod B) mod B) 0 ++ be_bytes lenw (8 * zlen m).
Definition md_hash (stop lenw : nat) (h0 m : list Z) : list Z :=
  let p := md_pad stop lenw m in md_blocks (length p / B) h0 p.

(** ** The context against the message absorbed *)

Record ctx_repr (h0 m : list Z) (s : hash_ctx) : Prop := {
  cr_blocks : exists q, length m = (q * B + hc_buf_len s)%nat /\ hc_h s = md_blocks q h0 m /\ take (hc_buf_len s) (hc_buf s) = drop (q * B) m;
  cr_len : (hc_buf_len s < B)%nat;
  cr_buf : length (hc_buf s) = B }.

Lemma md_blocks_app n : forall h m x, (n * B <= length m)%nat -> md_blocks n h (m ++ x) = md_blocks n h m.
Proof.
  induction n as [|n IH]; intros h m x Hn; cbn [md_blocks]; [done|]. rewrite take_app_le, drop_app_le by lia.
  apply IH. rewrite length_drop. lia.
Qed.

Lemma md_blocks_add a : forall b h m, md_blocks (a + b) h m = md_blocks b (md_blocks a h m) (drop (a * B) m).
Proof.
  induction a as [|a IH]; intros b h m; cbn [md_blocks Nat.add]; [by rewrite drop_0|]. rewrite IH, drop_drop. do 2 f_equal; lia.
Qed.

Lemma absorb_loop_spec k : (0 < B)%nat -> forall fuel h data off r,
  (k <= fuel)%nat -> length data = (off + k * B + r)%nat -> (r < B)%nat ->
  absorb_loop fuel h data off = (md_blocks k h (drop off data), (off + k * B)%nat).
Proof.
  intros HB. induction k as [|k IH]; intros fuel h data off r Hk Hl Hr.
  - destruct fuel; cbn [absorb_loop md_blocks]; [f_equal; lia|]. destruct (Nat.leb_spec B (length data - off)); [lia|]. f_equal; lia.
  - destruct fuel as [|fuel]; [lia|]. cbn [absorb_loop md_blocks]. destruct (Nat.leb_spec B (length data - off)); [|lia].
    rewrite (IH _ _ _ _ r) by lia. rewrite drop_drop. f_equal. lia.
Qed.

Lemma absorb_spec h data k r : (0 < B)%nat -> length data = (k * B + r)%nat -> (r < B)%nat ->
  absorb_blocks h data = (md_blocks k h data, (k * B)%nat).
Proof. intros HB Hl Hr. unfold absorb_blocks. rewrite (absorb_loop_spec k HB _ _ _ _ r) by nia. by rewrite drop_0. Qed.
End Streaming.

Section StreamLaws.
Context (B : nat) (compress : list Z -> list Z -> list Z) (HB : (0 < B)%nat).
Notation repr := (ctx_repr B compress).

Lemma buffer_repr h0 m s data : repr h0 m s -> (hc_buf_len s + length data < B)%nat ->
  exists s', sha_buffer s data = Some s' /\ repr h0 (m ++ data) s' /\ hc_total s' = hc_total s.
Proof.
  intros [(q & Hl & Hh & Ht) Hlt Hb] Hd. unfold sha_buffer. destruct (Nat.leb_spec (hc_buf_len s + length data) (length (hc_buf s))); [|lia].
  eexists. split; [done|]. split; [|done]. constructor; cbn [hc_h hc_buf hc_buf_len]; [|lia|].
  - exists q. rewrite length_app. split; [lia|]. split; [rewrite md_blocks_app by lia; done|].
    rewrite drop_app_le by lia. rewrite <- Ht.
    assert (length (take (hc_buf_len s) (hc_buf s)) = hc_buf_len s) as Hlt' by (rewrite length_take; lia).
    rewrite (app_assoc (take _ _)), take_app_le by (rewrite length_app; lia). apply take_ge. rewrite length_app. lia.
  - rewrite !length_app, length_take, length_drop. lia.
Qed.

Lemma fill_pending_repr h0 m s data : repr h0 m s ->
  exists s' n, fill_pending B compress s data = Some (s', n) /\ (n <= length data)%nat /\ repr h0 (m ++ take n data) s' /\
    hc_total s' = hc_total s /\ (hc_buf_len s' = O \/ n = O /\ (hc_buf_len s' + length data < B)%nat).
Proof.
  intros H. pose proof H as [(q & Hl & Hh & Ht) Hlt Hb]. unfold fill_pending, pending_take.
  destruct (Nat.eqb_spec (hc_buf_len s) 0) as [E|E], (Nat.leb_spec (B - hc_buf_len s) (length data)) as [Hw|Hw]; cbn [negb andb].
  1, 2, 4: destruct (buffer_repr h0 m s (take 0 data) H) as (s' & -> & H' & Htot); [rewrite take_0; cbn; lia|];
    exists s', O; osimpl; split; [done|]; split; [lia|]; split; [done|]; split; [done|].
  1, 2, 3: pose proof (cr_len _ _ _ _ _ H'); destruct H' as [(q' & Hl' & _) _ _]; rewrite take_0, app_nil_r in Hl';
    assert (hc_buf_len s' = hc_buf_len s) by (apply (Nat.add_cancel_l _ _ (q * B)); assert (q' = q) as -> by nia; lia); lia.
  unfold sha_buffer. rewrite length_take, Nat.min_l by done.
  destruct (Nat.leb_spec (hc_buf_len s + (B - hc_buf_len s)) (length (hc_buf s))); [|lia]. osimpl.
  destruct (Nat.eqb_spec (B - hc_buf_len s) 0); [lia|]. eexists _, _. split; [done|]. split; [done|]. cbn [hc_h hc_total hc_buf hc_buf_len].
  replace (drop (hc_buf_len s + (B - hc_buf_len s)) (hc_buf s)) with (@nil Z) by (symmetry; apply drop_ge; lia). rewrite app_nil_r.
  assert (length (take (hc_buf_len s) (hc_buf s)) = hc_buf_len s) as Hlt' by (rewrite length_take; lia).
  split; [|auto]. constructor; cbn [hc_h hc_buf hc_buf_len]; [|lia|rewrite length_app, Hlt', length_take; lia].
  exists (q + 1)%nat. rewrite length_app, length_take. split; [lia|]. split.
  - rewrite md_blocks_add, md_blocks_app by lia. cbn [md_blocks]. rewrite Hh. f_equal.
    rewrite drop_app_le by lia. rewrite <- Ht. symmetry. apply take_ge. rewrite length_app, Hlt', length_take. lia.
  - rewrite take_0, drop_ge; [done|]. rewrite length_app, length_take. lia.
Qed.

(** Absorbing data extends the message. *)
Lemma update_repr h0 m s data : repr h0 m s ->
  exists s', sha_update B compress s data = Some s' /\ repr h0 (m ++ data) s' /\
    (hc_total s = u64 (zlen m) -> hc_total s' = u64 (zlen (m ++ data))).
Proof.
  intros H. unfold sha_update. destruct (Nat.eqb_spec (length data) 0) as [E|E].
  { apply nil_length_inv in E as ->. exists s. by rewrite app_nil_r. }
  destruct (fill_pending_repr h0 m s data H) as (s1 & n & -> & Hn & H1 & Htot & Hor). osimpl. set (rest := drop n data).
  assert (data = take n data ++ rest) as Ed by (unfold rest; by rewrite take_drop). assert (length rest = length data - n)%nat as Hlr by (apply length_drop).
  set (k := (if hc_buf_len s1 =? 0 then length rest / B else 0)%nat). set (r := (length rest - k * B)%nat).
  assert (length rest = k * B + r /\ r < B /\ hc_buf_len s1 + r < B /\ (hc_buf_len s1 = 0 \/ k = 0))%nat as (Hk & Hr & Hroom & Hz).
  { subst k r. pose proof (cr_len _ _ _ _ _ H1). pose proof (Nat.div_mod_eq (length rest) B). pose proof (Nat.mod_upper_bound (length rest) B).
    destruct (Nat.eqb_spec (hc_buf_len s1) 0); [nia|]. destruct Hor as [|[-> ?]]; [done|]. lia. }
  rewrite (absorb_spec B compress _ _ k r) by done.
  assert (repr h0 (m ++ take n data ++ take (k * B) rest) (mk_ctx (md_blocks B compress k (hc_h s1) rest) (hc_total s1) (hc_buf s1) (hc_buf_len s1))) as H2.
  { destruct H1 as [(q & Hl & Hh & Ht) Hlt Hb]. constructor; cbn [hc_h hc_buf hc_buf_len]; try done. destruct Hz as [Hz|Hz].
    - rewrite Hz in *. exists (q + k)%nat. rewrite app_assoc, length_app, length_take. split; [lia|]. split.
      + rewrite md_blocks_add, md_blocks_app by lia. rewrite <- Hh. rewrite drop_app_ge, Hl by lia.
        replace (q * B - (q * B + 0))%nat with O by lia. rewrite drop_0. rewrite <- (take_drop (k * B) rest) at 1. by rewrite md_blocks_app by (rewrite length_take; lia).
      + rewrite take_0, drop_ge; [done|]. rewrite length_app, length_take. lia.
    - rewrite Hz in *. exists q. cbn [md_blocks Nat.mul]. rewrite take_0, app_nil_r. done. }
  destruct (buffer_repr h0 _ _ (drop (n + k * B) data) H2) as (s2 & -> & H3 & Ht3); [cbn; rewrite length_drop; lia|]. osimpl.
  eexists. split; [done|]. cbn [hc_total] in Ht3. rewrite Ht3, Htot. split.
  - replace (m ++ data) with ((m ++ take n data ++ take (k * B) rest) ++ drop (n + k * B) data).
    { destruct H3 as [? ? ?]. by constructor. }
    rewrite <- !app_assoc. f_equal. symmetry. transitivity (take n data ++ rest); [exact Ed|]. f_equal.
    transitivity (take (k * B) rest ++ drop (k * B) rest); [by rewrite take_drop|]. f_equal. unfold rest. rewrite drop_drop. f_equal; lia.
  - intros ->. cbn. unfold u64. rewrite Z.add_mod_idemp_l by lia. by rewrite zlen_app.
Qed.

(** The padding loop reaches [stop] after fewer than [B] zero bytes. *)
Lemma pad_loop_repr h0 stop : (stop < B)%nat -> forall fuel m s, repr h0 m s ->
  ((stop + B - hc_buf_len s) mod B <= fuel)%nat ->
  exists s', pad_loop B compress fuel stop s = Some s' /\ hc_buf_len s' = stop /\ repr h0 (m ++ replicate ((stop + B - hc_buf_len s) mod B) 0) s'.
Proof.
  intros Hstop. induction fuel as [|f IH]; intros m s H Hf; pose proof (cr_len _ _ _ _ _ H) as Hlt; cbn [pad_loop].
  - destruct (Nat.eqb_spec (hc_buf_len s) stop) as [E|E].
    + exists s. rewrite E. replace (stop + B - stop)%nat with B by lia. rewrite Nat.Div0.mod_same. cbn. by rewrite app_nil_r.
    + exfalso. assert ((stop + B - hc_buf_len s) mod B = 0)%nat as E0 by lia. apply Nat.Div0.mod_divides in E0 as [c Hc].
      destruct c as [|[|c]]; nia.
  - destruct (Nat.eqb_spec (hc_buf_len s) stop) as [E|E].
    { exists s. rewrite E. replace (stop + B - stop)%nat with B by lia. rewrite Nat.Div0.mod_same. cbn. by rewrite app_nil_r. }
    destruct (update_repr h0 m s [0] H) as (s1 & -> & H1 & _). osimpl.
    set (b := hc_buf_len s) in *. assert (hc_buf_len s1 = (if (b + 1 =? B)%nat then 0 else b + 1))%nat as Eb.
    { destruct H as [(q & Hl & _) _ _], H1 as [(q' & Hl' & _) Hlt' _]. rewrite length_app in Hl'. cbn [length] in Hl'. fold b in Hl.
      destruct (Nat.eqb_spec (b + 1) B); [assert (q' = q + 1)%nat by nia; nia | assert (q' = q) by nia; nia]. }
    assert ((stop + B - b) mod B = S ((stop + B - hc_buf_len s1) mod B))%nat as Em.
    { rewrite Eb. destruct (Nat.eqb_spec (b + 1) B).
      - replace (stop + B - 0)%nat with (stop + 1 * B)%nat by lia. rewrite Nat.Div0.mod_add, Nat.mod_small by lia.
        rewrite Nat.mod_small by lia. lia.
      - destruct (decide (b < stop)%nat).
        + replace (stop + B - b)%nat with (stop - b + 1 * B)%nat by lia. replace (stop + B - (b + 1))%nat with (stop - (b + 1) + 1 * B)%nat by lia.
          rewrite !Nat.Div0.mod_add, !Nat.mod_small by lia. lia.
        + rewrite !Nat.mod_small by lia. lia. }
    destruct (IH _ s1 H1) as (s' & E' & Hs' & Hr'); [lia|]. exists s'. split; [done|]. split; [done|].
    rewrite Em. cbn [replicate]. by rewrite <- app_assoc in Hr'.
Qed.

(** Padding and the length: the whole padded message is in the chaining value. *)
Lemma final_repr h0 m s stop lenw lenbe : repr h0 m s -> (stop < B)%nat -> (stop + lenw = B)%nat -> lenbe = be_bytes lenw (8 * zlen m) ->
  exists s1 s2, pad_message B compress stop s = Some s1 /\ sha_update B compress s1 lenbe = Some s2 /\
    hc_h s2 = md_hash B compress stop lenw h0 m.
Proof.
  intros H Hstop Hw ->. unfold pad_message. destruct (update_repr h0 m s [0x80] H) as (s0 & -> & H0 & _). osimpl.
  assert (hc_buf_len s0 = (length m + 1) mod B)%nat as Eb.
  { destruct H0 as [(q & Hl & _) Hlt _]. rewrite length_app in Hl. cbn [length] in Hl. rewrite Hl, Nat.add_comm, Nat.Div0.mod_add, Nat.mod_small by lia. done. }
  destruct (pad_loop_repr h0 stop Hstop B _ s0 H0) as (s1 & E1 & Es1 & H1).
  { pose proof (Nat.mod_upper_bound (stop + B - hc_buf_len s0) B). lia. }
  exists s1. destruct (update_repr h0 _ s1 (be_bytes lenw (8 * zlen m)) H1) as (s2 & E2 & H2 & _). exists s2.
  split; [done|]. split; [done|]. unfold md_hash, md_pad. rewrite Eb in H2. rewrite <- !app_assoc in H2. cbn [app] in H2.
  set (p := m ++ 0x80 :: replicate _ 0 ++ be_bytes lenw _) in *. destruct H2 as [(q & Hl & -> & _) Hlt _].
  assert (hc_buf_len s2 = 0)%nat as E0.
  { destruct H1 as [(q1 & Hl1 & _) _ _]. rewrite Es1 in Hl1. rewrite !length_app in Hl1. cbn [length] in Hl1. rewrite Eb in Hl1.
    assert (length p = q1 * B + stop + lenw)%nat as Hp.
    { unfold p. rewrite length_app. cbn [length]. rewrite length_app, length_be_bytes. lia. }
    rewrite Hp in Hl. assert (q = q1 + 1)%nat by nia. nia. }
  rewrite E0, Nat.add_0_r in Hl. rewrite Hl, Nat.div_mul by lia. done.
Qed.

(** A message absorbed in pieces. *)
Fixpoint sha_updates (chunks : list (list Z)) (s : hash_ctx) : option hash_ctx :=
  match chunks with [] => Some s | c :: cs => s1 ← sha_update B compress s c; sha_updates cs s1 end.

Lemma updates_repr h0 chunks : forall m s, repr h0 m s -> hc_total s = u64 (zlen m) ->
  exists s', sha_updates chunks s = Some s' /\ repr h0 (m ++ concat chunks) s' /\ hc_total s' = u64 (zlen (m ++ concat chunks)).
Proof.
  induction chunks as [|c cs IH]; intros m s H Ht; cbn [sha_updates concat]; [exists s; by rewrite app_nil_r|].
  destruct (update_repr h0 m s c H) as (s1 & -> & H1 & Ht1). osimpl.
  destruct (IH _ _ H1 (Ht1 Ht)) as (s' & E & H2 & Ht2). exists s'. by rewrite <- app_assoc in H2, Ht2.
Qed.
End StreamLaws.

(** ** The compression functions are those of the standard

    Once for both widths: [um] wraps to the word size of [P], [bs0] .. [ss1] are the
    sigmas as the code computes them. *)

Definition g_schedule (um ss0 ss1 : Z -> Z) (n : nat) (w0 : list Z) : list Z :=
  extend_words (fun w i => um (ss1 (at_ w (i - 2)) + at_ w (i - 7) + ss0 (at_ w (i - 15)) + at_ w (i - 16))) n w0.
Definition g_round (w : Z) (um bs0 bs1 : Z -> Z) (v : list Z) (kw : Z) : list Z :=
  let t1 := um (at_ v 7 + bs1 (at_ v 4) + sha_CH w (at_ v 4) (at_ v 5) (at_ v 6) + kw) in
  let t2 := um (bs0 (at_ v 0) + sha_MAJ (at_ v 0) (at_ v 1) (at_ v 2)) in
  let v := shift_down 7 v in
  let v := <[4%nat := um (at_ v 4 + t1)]> v in
  <[0%nat := um (t1 + t2)]> v.

Definition word_ok (w x : Z) : Prop := 0 <= x < 2 ^ w.

Lemma ror_ROTR P n x : 0 <= n <= sp_w P -> word_ok (sp_w P) x -> ror (sp_w P) x n = ROTR P n x.
Proof.
  intros Hn Hx. unfold ror, ROTR, word_ok in *. rewrite Z.lor_comm, Z.shiftr_div_pow2, Z.shiftl_mul_pow2 by lia.
  replace (2 ^ sp_w P) with (2 ^ n * 2 ^ (sp_w P - n)) in * by (rewrite <- Z.pow_add_r by lia; f_equal; lia).
  rewrite Zmult_mod_distr_r, <- Z.shiftl_mul_pow2, lor_shiftl; try lia.
  - rewrite Z.shiftl_mul_pow2 by lia. lia.
  - split; [apply Z.div_pos; lia|]. apply Z.div_lt_upper_bound; lia.
Qed.

Lemma CH_fips w x y z : word_ok w x -> 0 <= w -> word_ok w z -> sha_CH w x y z = fips_Ch x y z.
Proof.
  intros Hx Hw Hz. unfold sha_CH, fips_Ch, word_ok in *. f_equal. apply Z.bits_inj_iff'. intros i Hi. rewrite Z.land_spec, Z.ldiff_spec.
  destruct (Z.lt_ge_cases i w) as [H|H].
  - rewrite Z.mod_pow2_bits_low, Z.lnot_spec by lia. apply andb_comm.
  - rewrite Z.mod_pow2_bits_high by lia. replace (Z.testbit z i) with false; [done|]. symmetry. destruct (Z.eq_dec z 0) as [->|Hz0]; [apply Z.testbit_0_l|].
    apply Z.bits_above_log2; [lia|]. apply Z.log2_lt_pow2; [lia|]. eapply Z.lt_le_trans; [apply Hz|]. apply Z.pow_le_mono_r; lia.
Qed.

Lemma MAJ_fips x y z : sha_MAJ x y z = fips_Maj x y z.
Proof. unfold sha_MAJ, fips_Maj. by rewrite Z.lxor_assoc. Qed.

Lemma foldl_map_arg {A B C} (f : C -> B -> C) (g : A -> B) l : forall a, foldl f a (map g l) = foldl (fun a x => f a (g x)) a l.
Proof. induction l as [|x l IH]; intros a; [done | apply IH]. Qed.

Section compress_fips.
Context (P : sha_params) (um bs0 bs1 ss0 ss1 : Z -> Z).
Notation w := (sp_w P).
Context (Hw : 0 < w) (Hum : forall x, um x = x mod 2 ^ w)
  (Hbs0 : forall x, word_ok w x -> bs0 x = big_sigma P (sp_S0 P) x) (Hbs1 : forall x, word_ok w x -> bs1 x = big_sigma P (sp_S1 P) x)
  (Hss0 : forall x, word_ok w x -> ss0 x = small_sigma P (sp_s0 P) x) (Hss1 : forall x, word_ok w x -> ss1 x = small_sigma P (sp_s1 P) x).

Lemma um_ok x : word_ok w (um x).
Proof. rewrite Hum. apply Z.mod_pos_bound. apply Z.pow_pos_nonneg; lia. Qed.

(** Sums of words, wrapped early or late. *)
Lemma um_add_r x y : um (x + um y) = um (x + y).
Proof. rewrite !Hum. apply Zplus_mod_idemp_r. Qed.
Lemma um_add_l x y : um (um x + y) = um (x + y).
Proof. rewrite !Hum. apply Zplus_mod_idemp_l. Qed.
Lemma add_w_um l : add_w P l = um (foldr Z.add 0 l).
Proof. by rewrite Hum. Qed.

Lemma g_round_fips v k wt : length v = 8%nat -> Forall (word_ok w) v ->
  g_round w um bs0 bs1 v (um (k + wt)) = fips_round P v (k, wt) /\
  length (fips_round P v (k, wt)) = 8%nat /\ Forall (word_ok w) (fips_round P v (k, wt)).
Proof.
  destruct v as [|a [|b [|c [|d [|e [|f [|g [|h [|]]]]]]]]]; try discriminate. intros _ Hv.
  rewrite !List.Forall_cons_iff in Hv. destruct Hv as (Ha & Hb & Hc & Hd & He & Hf & Hg & Hh & _). split.
  - unfold g_round, at_. cbn [nth shift_down]. unfold at_. cbn [nth insert list_insert fips_round fst snd]. rewrite CH_fips, MAJ_fips, Hbs0, Hbs1 by (assumption || lia).
    rewrite !add_w_um. cbn [foldr]. rewrite !Z.add_0_r, (um_add_r _ (k + wt)). by rewrite <- !Z.add_assoc.
  - cbn [fips_round]. split; [reflexivity|]. rewrite !add_w_um. repeat (constructor; [assumption || apply um_ok|]). constructor.
Qed.

Lemma g_rounds_fips ks ws : forall v, length v = 8%nat -> Forall (word_ok w) v -> length ws = length ks ->
  foldl (fun v i => g_round w um bs0 bs1 v (um (at_ ks i + at_ ws i))) v (seq 0 (length ks)) = foldl (fips_round P) v (zip ks ws) /\
  length (foldl (fips_round P) v (zip ks ws)) = 8%nat.
Proof.
  revert ws. induction ks as [|k ks IH]; intros ws v Hl Hv Hws; [done|]. destruct ws as [|x ws]; [discriminate|].
  cbn [length seq foldl zip zip_with]. change (at_ (k :: ks) 0) with k. change (at_ (x :: ws) 0) with x.
  destruct (g_round_fips v k x Hl Hv) as (-> & Hl' & Hv'). rewrite <- seq_shift, foldl_map_arg. apply IH; [assumption | assumption | injection Hws; done].
Qed.

(** The message schedule, oldest word first and newest word first. *)
Lemma at_rev (l : list Z) k : (k < length l)%nat -> at_ l (length l - S k) = at_ (rev l) k.
Proof. intros H. unfold at_. rewrite rev_nth by done. done. Qed.

Lemma at_ok l i : Forall (word_ok w) l -> word_ok w (at_ l i).
Proof.
  intros H. unfold at_. destruct (nth_in_or_default i l 0) as [Hin | ->]; [exact (proj1 (List.Forall_forall _ _) H _ Hin)|].
  split; [lia|]. apply Z.pow_pos_nonneg; lia.
Qed.

Lemma g_schedule_fips n : forall ws, (16 <= length ws)%nat -> Forall (word_ok w) ws -> rev (g_schedule um ss0 ss1 n ws) = more_words P n (rev ws).
Proof.
  unfold g_schedule. induction n as [|n IH]; intros ws Hl Hv; [done|]. cbn [extend_words more_words].
  assert (E : um (ss1 (at_ ws (length ws - 2)) + at_ ws (length ws - 7) + ss0 (at_ ws (length ws - 15)) + at_ ws (length ws - 16)) = next_word P (rev ws)).
  { rewrite (at_rev ws 1), (at_rev ws 6), (at_rev ws 14), (at_rev ws 15) by lia. assert (Hr : Forall (word_ok w) (rev ws)) by (by apply Forall_rev).
    rewrite Hss1, Hss0 by (by apply at_ok). unfold next_word. rewrite add_w_um. cbn [foldr]. f_equal. lia. }
  rewrite IH; [by rewrite rev_app_distr, E | rewrite length_app; lia|]. apply Forall_app. split; [exact Hv|]. constructor; [|constructor]. rewrite E. unfold next_word. rewrite add_w_um. apply um_ok.
Qed.
End compress_fips.

(** ** Blocks *)

Lemma take_at (l : list Z) k n : (k + n <= length l)%nat -> take n (drop k l) = map (fun j => at_ l (k + j)) (seq 0 n).
Proof.
  revert k. induction n as [|n IH]; intros k H; [done|]. cbn [seq map]. destruct (drop k l) as [|x r] eqn:E.
  { apply (f_equal length) in E. rewrite length_drop in E. cbn in E. lia. }
  cbn [take]. assert (Ex : at_ l k = x) by (unfold at_; rewrite <- (take_drop k l), E, app_nth2, length_take by (rewrite length_take; lia); replace (k - min k (length l))%nat with O by lia; done).
  rewrite Nat.add_0_r, Ex. f_equal. rewrite <- seq_shift, map_map. replace r with (drop (S k) l) by (rewrite <- Nat.add_1_r, <- drop_drop, E; done).
  rewrite IH by lia. apply map_ext. intros j. f_equal. lia.
Qed.

Lemma word256_fips p i : (i * 4 + 4 <= length p)%nat -> sha256_word p i = block_word SHA_256 p i /\ word_ok 32 (sha256_word p i).
Proof.
  intros H. unfold sha256_word, block_word. change (Z.to_nat (sp_w SHA_256 / 8)) with 4%nat. rewrite take_at by lia. cbn [seq map foldl]. rewrite Nat.add_0_r. unfold u32. fold (u8 (at_ p (i * 4))).
  repeat match goal with |- context [at_ p ?k mod 256] => fold (u8 (at_ p k)) end.
  generalize (u8_range (at_ p (i * 4))) (u8_range (at_ p (i * 4 + 1))) (u8_range (at_ p (i * 4 + 2))) (u8_range (at_ p (i * 4 + 3))). unfold is_u8.
  generalize (u8 (at_ p (i * 4))) (u8 (at_ p (i * 4 + 1))) (u8 (at_ p (i * 4 + 2))) (u8 (at_ p (i * 4 + 3))). intros a b c d Ha Hb Hc Hd.
  rewrite Z.mod_small by (rewrite Z.shiftl_mul_pow2; lia). rewrite (lor_shiftl a) by (rewrite ?Z.shiftl_mul_pow2; lia).
  assert (E : Z.lor (Z.lor (a * 2 ^ 24 + Z.shiftl b 16) (Z.shiftl c 8)) d = (((0 * 256 + a) * 256 + b) * 256 + c) * 256 + d).
  { replace (a * 2 ^ 24 + Z.shiftl b 16) with (Z.shiftl (a * 256 + b) 16) by (rewrite !Z.shiftl_mul_pow2 by lia; lia). rewrite lor_shiftl by (rewrite ?Z.shiftl_mul_pow2; lia).
    replace ((a * 256 + b) * 2 ^ 16 + Z.shiftl c 8) with (Z.shiftl ((a * 256 + b) * 256 + c) 8) by (rewrite !Z.shiftl_mul_pow2 by lia; lia). rewrite lor_shiftl by lia. lia. }
  rewrite E. split; [reflexivity | unfold word_ok; lia].
Qed.

Lemma load64_fold l : forall v, 0 <= v -> v * 256 ^ Z.of_nat (length l) + 256 ^ Z.of_nat (length l) <= 2 ^ 64 ->
  foldl (fun v x => Z.lor (u64 (Z.shiftl v 8)) (u8 x)) v l = foldl (fun v x => v * 256 + x mod 256) v l /\
  0 <= foldl (fun v x => v * 256 + x mod 256) v l < v * 256 ^ Z.of_nat (length l) + 256 ^ Z.of_nat (length l).
Proof.
  induction l as [|x l IH]; intros v Hv Hb; [cbn in *; lia|]. cbn [length foldl] in *. rewrite Nat2Z.inj_succ, Z.pow_succ_r in * by lia.
  pose proof (u8_range x) as Hx. unfold is_u8, u8 in Hx. assert (1 <= 256 ^ Z.of_nat (length l)) by (apply (Z.pow_le_mono_r 256 0); lia).
  assert (E : Z.lor (u64 (Z.shiftl v 8)) (u8 x) = v * 256 + x mod 256).
  { rewrite u64_small by (rewrite Z.shiftl_mul_pow2 by lia; nia). apply lor_shiftl_8. exact Hx. }
  rewrite E. destruct (IH (v * 256 + x mod 256)) as [-> B]; [lia | nia|]. split; [reflexivity | nia].
Qed.

Lemma word512_fips p i : (i * 8 + 8 <= length p)%nat -> sha512_load_be64 p (i * 8) = block_word SHA_512 p i /\ word_ok 64 (sha512_load_be64 p (i * 8)).
Proof.
  intros H. unfold block_word. change (Z.to_nat (sp_w SHA_512 / 8)) with 8%nat. rewrite take_at by lia.
  destruct (load64_fold (map (fun j => at_ p (i * 8 + j)) (seq 0 8)) 0) as [E B]; [lia | rewrite length_map, length_seq; reflexivity || (cbn; lia)|].
  unfold sha512_load_be64. rewrite <- (foldl_map_arg (fun v x => Z.lor (u64 (Z.shiftl v 8)) (u8 x)) (fun j => at_ p (i * 8 + j))), E.
  split; [reflexivity|]. rewrite length_map, length_seq in B. exact B.
Qed.

Lemma map_word {A} (f g : nat -> A) n : (forall i, (i < n)%nat -> f i = g i) -> map f (seq 0 n) = map g (seq 0 n).
Proof. intros H. apply map_ext_in. intros i Hi. apply in_seq in Hi. apply H. lia. Qed.

(** The feed-forward over eight words. *)
Lemma add8 P um h v : (forall x, um x = x mod 2 ^ sp_w P) -> 0 < sp_w P -> length h = 8%nat -> length v = 8%nat ->
  map (fun i => um (at_ h i + at_ v i)) (seq 0 8) = zip_with (fun x y => add_w P [x; y]) v h /\
  Forall (word_ok (sp_w P)) (map (fun i => um (at_ h i + at_ v i)) (seq 0 8)).
Proof.
  intros Hum Hw Hh Hv. split; [|apply List.Forall_forall; intros x (i & <- & _)%in_map_iff; rewrite Hum; apply Z.mod_pos_bound, Z.pow_pos_nonneg; lia].
  destruct h as [|a1 [|a2 [|a3 [|a4 [|a5 [|a6 [|a7 [|a8 [|]]]]]]]]]; try discriminate. destruct v as [|b1 [|b2 [|b3 [|b4 [|b5 [|b6 [|b7 [|b8 [|]]]]]]]]]; try discriminate.
  unfold add_w, at_. cbn [seq map zip_with nth foldr]. rewrite !Hum. rewrite !Z.add_0_r.
  by rewrite (Z.add_comm b1), (Z.add_comm b2), (Z.add_comm b3), (Z.add_comm b4), (Z.add_comm b5), (Z.add_comm b6), (Z.add_comm b7), (Z.add_comm b8).
Qed.

Lemma sigma256 x : word_ok 32 x -> BS0 x = big_sigma SHA_256 (sp_S0 SHA_256) x /\ BS1 x = big_sigma SHA_256 (sp_S1 SHA_256) x /\
  SS0 x = small_sigma SHA_256 (sp_s0 SHA_256) x /\ SS1 x = small_sigma SHA_256 (sp_s1 SHA_256) x.
Proof.
  intros Hx. unfold BS0, BS1, SS0, SS1, big_sigma, small_sigma, SHR. cbn [sp_S0 sp_S1 sp_s0 sp_s1 SHA_256]. rewrite !Z.shiftr_div_pow2 by lia.
  change 32 with (sp_w SHA_256). rewrite !ror_ROTR by (exact Hx || (cbn; lia)). repeat split; reflexivity.
Qed.
Lemma sigma512 x : word_ok 64 x -> S512BS0 x = big_sigma SHA_512 (sp_S0 SHA_512) x /\ S512BS1 x = big_sigma SHA_512 (sp_S1 SHA_512) x /\
  S512SS0 x = small_sigma SHA_512 (sp_s0 SHA_512) x /\ S512SS1 x = small_sigma SHA_512 (sp_s1 SHA_512) x.
Proof.
  intros Hx. unfold S512BS0, S512BS1, S512SS0, S512SS1, big_sigma, small_sigma, SHR. cbn [sp_S0 sp_S1 sp_s0 sp_s1 SHA_512]. rewrite !Z.shiftr_div_pow2 by lia.
  change 64 with (sp_w SHA_512). rewrite !ror_ROTR by (exact Hx || (cbn; lia)). repeat split; reflexivity.
Qed.

Lemma length_extend step n : forall w, length (extend_words step n w) = (n + length w)%nat.
Proof. induction n as [|n IH]; intros w; [done|]. cbn [extend_words]. rewrite IH, length_app. cbn [length]. lia. Qed.

(** A code's schedule and rounds over whole blocks. *)
Section block_fips.
Context (P : sha_params) (um bs0 bs1 ss0 ss1 : Z -> Z) (word : list Z -> nat -> Z) (n : nat).
Notation w := (sp_w P).
Context (Hw : 0 < w) (Hum : forall x, um x = x mod 2 ^ w)
  (Hs : forall x, word_ok w x -> bs0 x = big_sigma P (sp_S0 P) x /\ bs1 x = big_sigma P (sp_S1 P) x /\ ss0 x = small_sigma P (sp_s0 P) x /\ ss1 x = small_sigma P (sp_s1 P) x)
  (HK : length (sp_K P) = (n + 16)%nat)
  (Hword : forall p i, (block_size P <= length p)%nat -> (i < 16)%nat -> word p i = block_word P p i /\ word_ok w (word p i)).

Definition g_compress (h p : list Z) : list Z :=
  let W := g_schedule um ss0 ss1 n (map (word p) (seq 0 16)) in
  let v := foldl (fun v i => g_round w um bs0 bs1 v (um (at_ (sp_K P) i + at_ W i))) h (seq 0 (length (sp_K P))) in
  map (fun i => um (at_ h i + at_ v i)) (seq 0 8).

Lemma g_compress_fips h p : length h = 8%nat -> Forall (word_ok w) h -> (block_size P <= length p)%nat ->
  g_compress h p = fips_compress P h p /\ length (g_compress h p) = 8%nat /\ Forall (word_ok w) (g_compress h p).
Proof.
  intros Hh Hv Hp. unfold g_compress, fips_compress. set (W := g_schedule _ _ _ _ _). assert (HW : W = fips_schedule P p).
  { unfold W, fips_schedule. rewrite HK, Nat.add_sub. rewrite (map_word (block_word P p) (word p)) by (intros i Hi; symmetry; apply Hword; assumption).
    rewrite <- (g_schedule_fips P um ss0 ss1 Hw Hum (fun x Hx => proj1 (proj2 (proj2 (Hs x Hx)))) (fun x Hx => proj2 (proj2 (proj2 (Hs x Hx))))).
    - by rewrite rev_involutive.
    - by rewrite length_map.
    - apply List.Forall_forall. intros x (i & <- & Hi)%in_map_iff. apply in_seq in Hi. apply Hword; [assumption | lia]. }
  assert (LW : length W = length (sp_K P)) by (unfold W, g_schedule; rewrite length_extend, length_map, HK; reflexivity).
  destruct (g_rounds_fips P um bs0 bs1 Hw Hum (fun x Hx => proj1 (Hs x Hx)) (fun x Hx => proj1 (proj2 (Hs x Hx))) (sp_K P) W h Hh Hv LW) as [-> L].
  destruct (add8 P um h _ Hum Hw Hh L) as [E HF]. rewrite <- HW. split; [exact E|]. split; [apply length_map | exact HF].
Qed.

(** ** Whole messages *)

Lemma g_blocks_fips k : forall h m, length h = 8%nat -> Forall (word_ok w) h -> (k * block_size P <= length m)%nat ->
  md_blocks (block_size P) g_compress k h m = fips_blocks P k h m /\ length (fips_blocks P k h m) = 8%nat.
Proof.
  induction k as [|k IH]; intros h m Hh Hv Hm; [done|]. cbn [md_blocks fips_blocks]. cbn [Nat.mul] in Hm.
  destruct (g_compress_fips h (take (block_size P) m) Hh Hv) as (E & L & F); [rewrite length_take; lia|]. rewrite <- E. apply IH; [exact L | exact F | rewrite length_drop; lia].
Qed.

Lemma g_hash_fips h m stop lenw : length h = 8%nat -> Forall (word_ok w) h -> lenw = (block_size P / 8)%nat -> stop = (block_size P - lenw)%nat ->
  concat (map (be_bytes (Z.to_nat (w / 8))) (md_hash (block_size P) g_compress stop lenw h m)) = fips_hash P h m.
Proof.
  intros Hh Hv -> ->. unfold md_hash, fips_hash. change (md_pad (block_size P) (block_size P - block_size P / 8) (block_size P / 8) m) with (fips_pad P m).
  f_equal. f_equal. apply g_blocks_fips; [assumption | assumption|]. rewrite Nat.mul_comm. apply Nat.Div0.mul_div_le.
Qed.
End block_fips.

Lemma md_hash_ext B f g stop lenw h m : (forall h p, f h p = g h p) -> md_hash B f stop lenw h m = md_hash B g stop lenw h m.
Proof.
  intros H. unfold md_hash. generalize (md_pad B stop lenw m). intros l. generalize (length l / B)%nat. intros n. revert h l.
  induction n as [|n IH]; intros h l; [done|]. cbn [md_blocks]. by rewrite H.
Qed.

Lemma sha256_compress_g h p : sha256_compress h p = g_compress SHA_256 u32 BS0 BS1 SS0 SS1 sha256_word 48 h p.
Proof.
  unfold sha256_compress, g_compress, sha256_run_rounds, sha256_schedule, g_schedule. change (sp_K SHA_256) with sha256_K. change (length sha256_K) with 64%nat.
  change (sp_w SHA_256) with 32. unfold sha256_round_step, g_round. reflexivity.
Qed.
Lemma sha512_compress_g h p : sha512_compress h p = g_compress SHA_512 u64 S512BS0 S512BS1 S512SS0 S512SS1 (fun p i => sha512_load_be64 p (i * 8)) 64 h p.
Proof.
  unfold sha512_compress, g_compress, sha512_run_rounds, sha512_schedule, g_schedule. change (sp_K SHA_512) with sha512_K. change (length sha512_K) with 80%nat.
  change (sp_w SHA_512) with 64. unfold sha512_round_step, g_round. reflexivity.
Qed.

Lemma sha256_hash_fips h m : length h = 8%nat -> Forall (word_ok 32) h ->
  concat (map (be_bytes 4) (md_hash 64 sha256_compress 56 8 h m)) = fips_hash SHA_256 h m.
Proof.
  intros Hh Hv. rewrite (md_hash_ext 64 _ _ _ _ _ _ sha256_compress_g).
  apply (g_hash_fips SHA_256); try assumption; try reflexivity; try apply sigma256. intros p i Hp Hi. apply word256_fips. change (block_size SHA_256) with 64%nat in Hp. lia.
Qed.

Lemma sha512_hash_fips h m : length h = 8%nat -> Forall (word_ok 64) h ->
  concat (map (be_bytes 8) (md_hash 128 sha512_compress 112 16 h m)) = fips_hash SHA_512 h m.
Proof.
  intros Hh Hv. rewrite (md_hash_ext 128 _ _ _ _ _ _ sha512_compress_g).
  apply (g_hash_fips SHA_512); try assumption; try reflexivity; try apply sigma512. intros p i Hp Hi. apply word512_fips. change (block_size SHA_512) with 128%nat in Hp. lia.
Qed.

(** ** SHA-256, SHA-512 and SHA-384 *)

Definition SHA256_BLOCK : nat := 64.
Definition SHA512_BLOCK : nat := 128.

(* src/src/crypto/symmetric/hash/hash/sha256.c : sha256_init *)
Definition sha256_init : hash_ctx := mk_ctx sha256_H0 0 (replicate SHA256_BLOCK 0) 0.
Definition sha256_update : hash_ctx -> list Z -> option hash_ctx := sha_update SHA256_BLOCK sha256_compress.

(* src/src/crypto/symmetric/hash/hash/sha256.c : put_be32 *)
Definition sha256_put_be32 (v : Z) : list Z := [u8 (Z.shiftr v 24); u8 (Z.shiftr v 16); u8 (Z.shiftr v 8); u8 v].

(** The message's length in bits, as eight bytes. *)
Definition sha_lenbe (bits : Z) : list Z := map (fun i => u8 (Z.shiftr bits (56 - Z.of_nat i * 8))) (seq 0 8).

(* src/src/crypto/symmetric/hash/hash/sha256.c : sha256_final *)
Definition sha256_final (s : hash_ctx) : option (list Z) :=
  let bits := u64 (hc_total s * 8) in
  s1 ← pad_message SHA256_BLOCK sha256_compress 56 s;
  s2 ← sha256_update s1 (sha_lenbe bits);
  Some (concat (map sha256_put_be32 (hc_h s2))).

(* src/src/crypto/symmetric/hash/hash/sha256.c : wired_sha256 *)
Definition wired_sha256 (data : list Z) : option (list Z) := s ← sha256_update sha256_init data; sha256_final s.

(* src/src/crypto/symmetric/hash/hash/sha512.c : sha512_init *)
Definition sha512_init : hash_ctx := mk_ctx sha512_H0 0 (replicate SHA512_BLOCK 0) 0.
(* src/src/crypto/symmetric/hash/hash/sha512.c : sha512_absorb_blocks@107-114 *)
Definition sha512_absorb_blocks : list Z -> list Z -> list Z * nat := absorb_blocks SHA512_BLOCK sha512_compress.
(* src/src/crypto/symmetric/hash/hash/sha512.c : sha512_buffer@117-122 *)
Definition sha512_buffer : hash_ctx -> list Z -> option hash_ctx := sha_buffer.
(* src/src/crypto/symmetric/hash/hash/sha512.c : sha512_pending_take@126-129 *)
Definition sha512_pending_take : hash_ctx -> nat -> nat := pending_take SHA512_BLOCK.
(* src/src/crypto/symmetric/hash/hash/sha512.c : sha512_fill_pending@133-141 *)
Definition sha512_fill_pending : hash_ctx -> list Z -> option (hash_ctx * nat) := fill_pending SHA512_BLOCK sha512_compress.
(* src/src/crypto/symmetric/hash/hash/sha512.c : sha512_update *)
Definition sha512_update : hash_ctx -> list Z -> option hash_ctx := sha_update SHA512_BLOCK sha512_compress.
(* src/src/crypto/symmetric/hash/hash/sha512_put.c : sha512_pad_message@9-16 *)
Definition sha512_pad_message : hash_ctx -> option hash_ctx := pad_message SHA512_BLOCK sha512_compress 112.
(* src/src/crypto/symmetric/hash/hash/sha512_put.c : put_len@19-26 *)
Definition sha512_put_len (bits : Z) : list Z := replicate 8 0 ++ sha_lenbe bits.
(* src/src/crypto/symmetric/hash/hash/sha512_put.c : sha512_put_be64@29-33 *)
Definition sha512_put_be64 (v : Z) : list Z := map (fun j => u8 (Z.shiftr v (56 - Z.of_nat j * 8))) (seq 0 8).

(* src/src/crypto/symmetric/hash/hash/sha512_put.c : sha512_final *)
Definition sha512_final (s : hash_ctx) : option (list Z) :=
  let lenbe := sha512_put_len (u64 (hc_total s * 8)) in
  s1 ← sha512_pad_message s;
  s2 ← sha512_update s1 lenbe;
  Some (concat (map sha512_put_be64 (hc_h s2))).

(* src/src/crypto/symmetric/hash/hash/sha512_put.c : sha512 *)
Definition sha512 (data : list Z) : option (list Z) := s ← sha512_update sha512_init data; sha512_final s.

(* src/src/crypto/symmetric/hash/hash/sha384.c : sha384_init *)
Definition sha384_init : hash_ctx :=
  let s := sha512_init in mk_ctx sha384_H0 (hc_total s) (hc_buf s) (hc_buf_len s).

(* src/src/crypto/symmetric/hash/hash/sha384.c : sha384_final *)
Definition sha384_final (s : hash_ctx) : option (list Z) := full ← sha512_final s; Some (take 48 full).

(* src/src/crypto/symmetric/hash/hash/sha384.c : sha384 *)
Definition sha384 (data : list Z) : option (list Z) := s ← sha512_update sha384_init data; sha384_final s.

(** The digests as the code computes them over a whole message. *)
Definition md_sha256 (m : list Z) : list Z := concat (map (be_bytes 4) (md_hash SHA256_BLOCK sha256_compress 56 8 sha256_H0 m)).
Definition md_sha512 (h0 m : list Z) : list Z := concat (map (be_bytes 8) (md_hash SHA512_BLOCK sha512_compress 112 16 h0 m)).

Lemma words_ok w l : forallb (fun x => (0 <=? x) && (x <? 2 ^ w)) l = true -> Forall (word_ok w) l.
Proof. intros H. apply List.Forall_forall. intros x Hx. rewrite forallb_forall in H. specialize (H x Hx). unfold word_ok. lia. Qed.

Lemma md_sha256_fips m : md_sha256 m = fips_sha256 m.
Proof. apply (sha256_hash_fips sha256_H0); [done | by apply words_ok]. Qed.
Lemma md_sha512_fips m : md_sha512 sha512_H0 m = fips_sha512 m.
Proof. apply (sha512_hash_fips sha512_H0); [done | by apply words_ok]. Qed.
Lemma md_sha384_fips m : take 48 (md_sha512 sha384_H0 m) = fips_sha384 m.
Proof. unfold fips_sha384. f_equal. apply (sha512_hash_fips sha384_H0); [done | by apply words_ok]. Qed.

Lemma put_be32_spec v : sha256_put_be32 v = be_bytes 4 v.
Proof.
  unfold sha256_put_be32, u8. cbn [be_bytes app]. rewrite !Z.shiftr_div_pow2 by lia. change (2 ^ 24) with (256 * (256 * 256)).
  change (2 ^ 16) with (256 * 256). change (2 ^ 8) with 256. rewrite !Z.div_div by lia. done.
Qed.
Lemma be_shifts v : map (fun i => u8 (Z.shiftr v (56 - Z.of_nat i * 8))) (seq 0 8) = be_bytes 8 v.
Proof.
  unfold u8. cbn [seq map be_bytes app]. rewrite !Z.shiftr_div_pow2 by lia.
  repeat match goal with |- context [2 ^ (56 - Z.of_nat ?n * 8)] => let r := eval vm_compute in (2 ^ (56 - Z.of_nat n * 8)) in change (2 ^ (56 - Z.of_nat n * 8)) with r end.
  rewrite !Z.div_div by lia. rewrite Z.div_1_r. done.
Qed.
Lemma be_bytes_u64 v : be_bytes 8 (u64 v) = be_bytes 8 v.
Proof.
  unfold u64. change 18446744073709551616 with (256 ^ Z.of_nat 8). rewrite (Z.div_mod v (256 ^ Z.of_nat 8)) at 2 by (cbn; lia).
  rewrite Z.add_comm, Z.mul_comm. by rewrite be_bytes_add.
Qed.

Lemma be_bytes_pad k n v : 0 <= v < 256 ^ Z.of_nat n -> be_bytes (k + n) v = replicate k 0 ++ be_bytes n v.
Proof.
  intros Hv. induction k as [|k IH]; [done|]. cbn [Nat.add replicate app]. rewrite be_bytes_cons, IH, Z.div_small; [done|].
  split; [lia|]. eapply Z.lt_le_trans; [apply Hv|]. apply Z.pow_le_mono_r; lia.
Qed.

Definition fresh_ctx (h0 : list Z) (B : nat) : hash_ctx := mk_ctx h0 0 (replicate B 0) 0.
Lemma fresh_repr h0 B compress : (0 < B)%nat -> ctx_repr B compress h0 [] (fresh_ctx h0 B).
Proof. intros HB. constructor; cbn; [by exists O | done | apply length_replicate]. Qed.

Lemma sha256_final_spec m s : ctx_repr SHA256_BLOCK sha256_compress sha256_H0 m s -> hc_total s = u64 (zlen m) -> sha256_final s = Some (fips_sha256 m).
Proof.
  intros H Ht. unfold sha256_final. rewrite Ht.
  destruct (final_repr SHA256_BLOCK sha256_compress ltac:(unfold SHA256_BLOCK; lia) sha256_H0 m s 56 8 (sha_lenbe (u64 (u64 (zlen m) * 8))) H)
    as (s1 & s2 & E1 & E2 & E3); try (unfold SHA256_BLOCK; lia).
  { unfold sha_lenbe. rewrite be_shifts, be_bytes_u64. rewrite <- (be_bytes_u64 (_ * 8)). unfold u64. rewrite Z.mul_mod_idemp_l by lia.
    fold (u64 (zlen m * 8)). rewrite be_bytes_u64. by rewrite Z.mul_comm. }
  rewrite E1. osimpl. unfold sha256_update. rewrite E2. osimpl. rewrite E3, <- md_sha256_fips. unfold md_sha256. do 2 f_equal. apply map_ext, put_be32_spec.
Qed.

Lemma sha512_final_spec h0 m s : ctx_repr SHA512_BLOCK sha512_compress h0 m s -> hc_total s = u64 (zlen m) -> zlen m < 2 ^ 61 ->
  sha512_final s = Some (concat (map (be_bytes 8) (md_hash SHA512_BLOCK sha512_compress 112 16 h0 m))).
Proof.
  intros H Ht Hm. unfold sha512_final, sha512_pad_message. rewrite Ht. pose proof (zlen_nonneg m).
  destruct (final_repr SHA512_BLOCK sha512_compress ltac:(unfold SHA512_BLOCK; lia) h0 m s 112 16 (sha512_put_len (u64 (u64 (zlen m) * 8))) H)
    as (s1 & s2 & E1 & E2 & E3); try (unfold SHA512_BLOCK; lia).
  { unfold sha512_put_len, sha_lenbe. rewrite be_shifts, (u64_small (zlen m)), u64_small by lia. rewrite (Z.mul_comm _ 8).
    symmetry. apply (be_bytes_pad 8 8). change (256 ^ Z.of_nat 8) with (2 ^ 64). lia. }
  rewrite E1. osimpl. unfold sha512_update. rewrite E2. osimpl. rewrite E3. do 2 f_equal. apply map_ext. intros v. apply be_shifts.
Qed.

(** ** HMAC *)

(* src/src/crypto/symmetric/hash/hash/hmac.c : short_key *)
Definition short_key (key : list Z) : list Z := key ++ replicate (SHA256_BLOCK - length key) 0.

(* src/src/crypto/symmetric/hash/hash/hmac.c : key_block *)
Definition key_block (key : list Z) : option (list Z) :=
  if (SHA256_BLOCK <? length key)%nat then
    d ← wired_sha256 key; Some (d ++ replicate (SHA256_BLOCK - length d) 0)
  else Some (short_key key).

(* src/src/crypto/symmetric/hash/hash/hmac.c : feed_pad *)
Definition feed_pad (s : hash_ctx) (kb : list Z) (pad : Z) : option hash_ctx := sha256_update s (map (fun b => Z.lxor b pad) kb).

(* src/src/crypto/symmetric/hash/hash/hmac.c : inner_hash *)
Definition inner_hash (kb msg : list Z) : option (list Z) :=
  s ← feed_pad sha256_init kb 0x36; s ← sha256_update s msg; sha256_final s.

(* src/src/crypto/symmetric/hash/hash/hmac.c : hmac_sha256 *)
Definition hmac_sha256 (key msg : list Z) : option (list Z) :=
  kb ← key_block key;
  inner ← inner_hash kb msg;
  s ← feed_pad sha256_init kb 0x5c;
  s ← sha256_update s inner;
  sha256_final s.

(* src/src/crypto/symmetric/hash/hash/hmac.c : hmac_sha256_truncated *)
Definition hmac_sha256_truncated (key msg : list Z) (out_len : nat) : option (list Z) :=
  full ← hmac_sha256 key msg; Some (take (if (out_len <? 32)%nat then out_len else 32) full).

(* src/src/crypto/symmetric/hash/hash/hmac.c : hmac512_hash *)
Record hmac512_hash := mk_hmac512 { hh_init : hash_ctx; hh_final : hash_ctx -> option (list Z); hh_n : nat }.
(* src/src/crypto/symmetric/hash/hash/hmac.c : HMAC512_SHA384 *)
Definition HMAC512_SHA384 : hmac512_hash := mk_hmac512 sha384_init sha384_final 48.
(* src/src/crypto/symmetric/hash/hash/hmac.c : HMAC512_SHA512 *)
Definition HMAC512_SHA512 : hmac512_hash := mk_hmac512 sha512_init sha512_final 64.

(* src/src/crypto/symmetric/hash/hash/hmac.c : hmac512_hash2 *)
Definition hmac512_hash2 (h : hmac512_hash) (prefix msg : list Z) : option (list Z) :=
  s ← sha512_update (hh_init h) prefix; s ← sha512_update s msg; hh_final h s.

(* src/src/crypto/symmetric/hash/hash/hmac.c : hmac512_key_block *)
Definition hmac512_key_block (h : hmac512_hash) (key : list Z) : option (list Z) :=
  if (SHA512_BLOCK <? length key)%nat then
    d ← hmac512_hash2 h key []; Some (d ++ replicate (SHA512_BLOCK - length d) 0)
  else Some (key ++ replicate (SHA512_BLOCK - length key) 0).

(* src/src/crypto/symmetric/hash/hash/hmac.c : hmac512_pad_hash *)
Definition hmac512_pad_hash (h : hmac512_hash) (kb : list Z) (pad : Z) (msg : list Z) : option (list Z) :=
  hmac512_hash2 h (map (fun b => Z.lxor b pad) kb) msg.

(* src/src/crypto/symmetric/hash/hash/hmac.c : hmac512_mac *)
Definition hmac512_mac (h : hmac512_hash) (key msg : list Z) : option (list Z) :=
  kb ← hmac512_key_block h key;
  inner ← hmac512_pad_hash h kb 0x36 msg;
  hmac512_pad_hash h kb 0x5c (take (hh_n h) inner).

(* src/src/crypto/symmetric/hash/hash/hmac.c : hmac_sha384 *)
Definition hmac_sha384 : list Z -> list Z -> option (list Z) := hmac512_mac HMAC512_SHA384.
(* src/src/crypto/symmetric/hash/hash/hmac.c : hmac_sha512 *)
Definition hmac_sha512 : list Z -> list Z -> option (list Z) := hmac512_mac HMAC512_SHA512.

(** ** HKDF

    The SHA-256 and SHA-384 routines differ in the MAC and its length. A write
    past a local buffer is [None]; the first component is C's 1/0. *)

Section Hkdf.
Context (hmac : list Z -> list Z -> option (list Z)) (DIGEST : nat).

(* src/src/crypto/kdf/hkdf/hkdf.c : expand_block@15-26 *)
Definition expand_block (prk info t : list Z) (counter : Z) : option (list Z) :=
  let buf := t ++ info ++ [counter] in
  if (length buf <=? DIGEST + 256 + 1)%nat then hmac prk buf else None.

(** The output buffer and the new offset. *)
(* src/src/crypto/kdf/hkdf/hkdf.c : emit@29-35 *)
Definition hkdf_emit (okm : list Z) (off : nat) (t : list Z) : list Z * nat :=
  let len := length okm in
  let n := if (len - off <? DIGEST)%nat then (len - off)%nat else DIGEST in
  (take off okm ++ take n t ++ drop (off + n) okm, (off + n)%nat).

(* src/src/crypto/kdf/hkdf/hkdf.c : expand_ok@38-40 *)
Definition expand_ok (info_len len : nat) : bool := (Z.of_nat len <=? 255 * Z.of_nat DIGEST) && (info_len <=? 256)%nat.

Fixpoint expand_loop (fuel : nat) (prk info t okm : list Z) (off : nat) (counter : Z) : option (list Z) :=
  if (off <? length okm)%nat then
    match fuel with
    | O => None
    | S f =>
        t' ← expand_block prk info t counter;
        let '(okm', off') := hkdf_emit okm off t' in
        expand_loop f prk info t' okm' off' (u8 (counter + 1))
    end
  else Some okm.

Definition hkdf_expand_with (prk info okm : list Z) : option (bool * list Z) :=
  if negb (expand_ok (length info) (length okm)) then Some (false, okm)
  else okm' ← expand_loop (length okm) prk info [] okm 0 1; Some (true, okm').

(** The HkdfLabel of RFC 8446 7.1, in a buffer of 138 bytes. *)
Definition hkdf_build_label (label ctx : list Z) (len : Z) : option (list Z) :=
  let info := [u8 (Z.shiftr len 8); u8 len; u8 (6 + zlen label)] ++ [116; 108; 115; 49; 51; 32] ++ label ++ [u8 (zlen ctx)] ++ ctx in
  if (length info <=? 138)%nat then Some info else None.

Definition hkdf_expand_label_with (prk label ctx okm : list Z) : option (bool * list Z) :=
  if (64 <? length label)%nat || (64 <? length ctx)%nat then Some (false, okm)
  else info ← hkdf_build_label label ctx (zlen okm); hkdf_expand_with prk info okm.
End Hkdf.

(* src/src/crypto/kdf/hkdf/hkdf.c : hkdf_extract *)
Definition hkdf_extract (salt ikm : list Z) : option (list Z) := hmac_sha256 salt ikm.
(* src/src/crypto/kdf/hkdf/hkdf.c : hkdf_expand *)
Definition hkdf_expand : list Z -> list Z -> list Z -> option (bool * list Z) := hkdf_expand_with hmac_sha256 32.
(* src/src/crypto/kdf/hkdf/hkdf.c : build_label@70-81 *)
Definition build_label : list Z -> list Z -> Z -> option (list Z) := hkdf_build_label.
(* src/src/crypto/kdf/hkdf/hkdf.c : hkdf_expand_label *)
Definition hkdf_expand_label : list Z -> list Z -> list Z -> list Z -> option (bool * list Z) := hkdf_expand_label_with hmac_sha256 32.
(* src/src/crypto/kdf/hkdf/hkdf.c : hkdf_extract_384 *)
Definition hkdf_extract_384 (salt ikm : list Z) : option (list Z) := hmac_sha384 salt ikm.
(* src/src/crypto/kdf/hkdf/hkdf_expand.c : hkdf_expand_384 *)
Definition hkdf_expand_384 : list Z -> list Z -> list Z -> option (bool * list Z) := hkdf_expand_with hmac_sha384 48.
(* src/src/crypto/kdf/hkdf/hkdf_expand.c : hkdf_expand_label_384 *)
Definition hkdf_expand_label_384 : list Z -> list Z -> list Z -> list Z -> option (bool * list Z) := hkdf_expand_label_with hmac_sha384 48.

(** ** The constructions over any hash *)

(** RFC 2104: [H((K ^ opad) || H((K ^ ipad) || text))]. *)
Definition hmac_key (H : list Z -> list Z) (B : nat) (key : list Z) : list Z :=
  let k := if (B <? length key)%nat then H key else key in k ++ replicate (B - length k) 0.
Definition rfc_hmac (H : list Z -> list Z) (B : nat) (key m : list Z) : list Z :=
  let k := hmac_key H B key in
  H (map (fun b => Z.lxor b 0x5c) k ++ H (map (fun b => Z.lxor b 0x36) k ++ m)).

(** RFC 5869 2.3: [T(1) | T(2) | ...], from [T(i - 1)]. *)
Fixpoint hkdf_blocks (mac : list Z -> list Z -> list Z) (prk info : list Z) (n : nat) (i : Z) (t : list Z) : list Z :=
  match n with
  | O => []
  | S n' => let t' := mac prk (t ++ info ++ [i]) in t' ++ hkdf_blocks mac prk info n' (i + 1) t'
  end.
Definition rfc_hkdf_expand (mac : list Z -> list Z -> list Z) (D : nat) (prk info : list Z) (L : nat) : list Z :=
  take L (hkdf_blocks mac prk info ((L + D - 1) / D) 1 []).

(** RFC 8446 7.1: the HkdfLabel structure. *)
Definition rfc_hkdf_label (label ctx : list Z) (L : Z) : list Z :=
  be_bytes 2 L ++ [6 + zlen label] ++ [116; 108; 115; 49; 51; 32] ++ label ++ [zlen ctx] ++ ctx.

Lemma md_blocks_length B compress (Hc : forall h p, length (compress h p) = 8%nat) n : forall h m, length h = 8%nat -> length (md_blocks B compress n h m) = 8%nat.
Proof. induction n as [|n IH]; intros h m Hh; cbn [md_blocks]; [done|]. by apply IH. Qed.

Lemma length_concat_be w l : length (concat (map (be_bytes w) l)) = (w * length l)%nat.
Proof. induction l as [|x l IH]; cbn; [lia|]. rewrite length_app, length_be_bytes, IH. lia. Qed.

Lemma fips_sha256_length m : length (fips_sha256 m) = 32%nat.
Proof.
  rewrite <- md_sha256_fips. unfold md_sha256, md_hash. rewrite length_concat_be, md_blocks_length; [done| |done].
  intros h p. unfold sha256_compress. by rewrite length_map.
Qed.
Lemma fips_sha512_length m : length (fips_sha512 m) = 64%nat.
Proof.
  rewrite <- md_sha512_fips. unfold md_sha512, md_hash. rewrite length_concat_be, md_blocks_length; [done| |done].
  intros h p. unfold sha512_compress. by rewrite length_map.
Qed.
Lemma fips_sha384_length m : length (fips_sha384 m) = 48%nat.
Proof.
  rewrite <- md_sha384_fips. unfold md_sha512, md_hash. rewrite length_take, length_concat_be, md_blocks_length; [done| |done].
  intros h p. unfold sha512_compress. by rewrite length_map.
Qed.

(** Two updates from a fresh context. *)
Lemma updates2 B compress h0 a b : (0 < B)%nat ->
  exists s1 s2, sha_update B compress (fresh_ctx h0 B) a = Some s1 /\ sha_update B compress s1 b = Some s2 /\
    ctx_repr B compress h0 (a ++ b) s2 /\ hc_total s2 = u64 (zlen (a ++ b)).
Proof.
  intros HB. destruct (update_repr B compress HB h0 [] (fresh_ctx h0 B) a (fresh_repr _ _ _ HB)) as (s1 & E1 & H1 & T1).
  destruct (update_repr B compress HB h0 _ s1 b H1) as (s2 & E2 & H2 & T2). exists s1, s2. cbn [app] in *. split; [done|]. split; [done|]. split; [done|]. by apply T2, T1.
Qed.

Lemma hash256_2 a b : (s ← sha256_update sha256_init a; s ← sha256_update s b; sha256_final s) = Some (fips_sha256 (a ++ b)).
Proof.
  destruct (updates2 SHA256_BLOCK sha256_compress sha256_H0 a b) as (s1 & s2 & E1 & E2 & H & T); [unfold SHA256_BLOCK; lia|].
  unfold sha256_update. change sha256_init with (fresh_ctx sha256_H0 SHA256_BLOCK). rewrite E1. osimpl. rewrite E2. osimpl. by apply sha256_final_spec.
Qed.

Lemma wired_sha256_spec m : wired_sha256 m = Some (fips_sha256 m).
Proof.
  unfold wired_sha256. pose proof (hash256_2 m []) as H. rewrite app_nil_r in H. rewrite <- H.
  destruct (sha256_update sha256_init m) as [s|]; [|done]. osimpl. done.
Qed.

Lemma hmac_sha256_spec key msg : hmac_sha256 key msg = Some (rfc_hmac fips_sha256 SHA256_BLOCK key msg).
Proof.
  unfold hmac_sha256, rfc_hmac, hmac_key, key_block, short_key, inner_hash, feed_pad. rewrite wired_sha256_spec.
  destruct (SHA256_BLOCK <? length key)%nat; osimpl; rewrite hash256_2; osimpl; apply hash256_2.
Qed.

(** The two hashes of the 512-bit family, by their initial value. *)
Record hash512_ok (h : hmac512_hash) (h0 : list Z) (H : list Z -> list Z) : Prop := {
  ho_init : hh_init h = fresh_ctx h0 SHA512_BLOCK;
  ho_final : forall m s, ctx_repr SHA512_BLOCK sha512_compress h0 m s -> hc_total s = u64 (zlen m) -> zlen m < 2 ^ 61 ->
    hh_final h s = Some (H m);
  ho_len : forall m, length (H m) = hh_n h }.

Lemma sha512_ok : hash512_ok HMAC512_SHA512 sha512_H0 fips_sha512.
Proof. constructor; [done| |apply fips_sha512_length]. intros m s H T Hm. rewrite <- md_sha512_fips. by apply sha512_final_spec. Qed.
Lemma sha384_ok : hash512_ok HMAC512_SHA384 sha384_H0 fips_sha384.
Proof.
  constructor; [done| |apply fips_sha384_length]. intros m s H T Hm. cbn [hh_final HMAC512_SHA384]. unfold sha384_final.
  rewrite (sha512_final_spec _ _ _ H T Hm), <- md_sha384_fips. reflexivity.
Qed.

Section Hmac512.
Context (h : hmac512_hash) (h0 : list Z) (H : list Z -> list Z) (Hok : hash512_ok h h0 H).

Lemma hash512_2 a b : zlen (a ++ b) < 2 ^ 61 -> hmac512_hash2 h a b = Some (H (a ++ b)).
Proof.
  intros Hl. destruct (updates2 SHA512_BLOCK sha512_compress h0 a b) as (s1 & s2 & E1 & E2 & Hr & T); [unfold SHA512_BLOCK; lia|].
  unfold hmac512_hash2, sha512_update. rewrite (ho_init _ _ _ Hok), E1. osimpl. rewrite E2. osimpl. by apply (ho_final _ _ _ Hok).
Qed.

Lemma hmac512_spec key msg : (hh_n h <= SHA512_BLOCK)%nat -> zlen key < 2 ^ 60 -> zlen msg < 2 ^ 60 ->
  hmac512_mac h key msg = Some (rfc_hmac H SHA512_BLOCK key msg).
Proof.
  intros Hn Hk Hm. unfold hmac512_mac, rfc_hmac.
  assert (hmac512_key_block h key = Some (hmac_key H SHA512_BLOCK key) /\ length (hmac_key H SHA512_BLOCK key) = SHA512_BLOCK) as [-> Hlen].
  { unfold hmac512_key_block, hmac_key. destruct (Nat.ltb_spec SHA512_BLOCK (length key)).
    - rewrite hash512_2, app_nil_r by (rewrite app_nil_r; lia). osimpl. split; [done|]. rewrite length_app, length_replicate, (ho_len _ _ _ Hok). lia.
    - split; [done|]. rewrite length_app, length_replicate. lia. }
  osimpl. unfold hmac512_pad_hash. set (k := hmac_key H SHA512_BLOCK key) in *.
  rewrite hash512_2 by (rewrite zlen_app; unfold zlen in *; rewrite length_map, Hlen; unfold SHA512_BLOCK; lia). osimpl.
  rewrite take_ge by (rewrite (ho_len _ _ _ Hok); done).
  apply hash512_2. rewrite zlen_app. unfold zlen. rewrite length_map, Hlen, (ho_len _ _ _ Hok). unfold SHA512_BLOCK in *. lia.
Qed.
End Hmac512.

Section HkdfLaws.
Context (hmac : list Z -> list Z -> option (list Z)) (D : nat) (mac : list Z -> list Z -> list Z) (prk info : list Z).
Context (HD : (0 < D <= 64)%nat) (Hmac : forall m, (length m <= D + 256 + 1)%nat -> hmac prk m = Some (mac prk m) /\ length (mac prk m) = D).
Context (Hinfo : (length info <= 256)%nat).

Lemma expand_loop_spec n : forall fuel t okm off i,
  (length t <= D)%nat -> (off <= length okm)%nat -> (n = (length okm - off + D - 1) / D)%nat -> (n <= fuel)%nat ->
  (n = 0%nat \/ 1 <= i /\ i + Z.of_nat n <= 256) ->
  expand_loop hmac D fuel prk info t okm off i =
    Some (take off okm ++ take (length okm - off) (hkdf_blocks mac prk info n i t)).
Proof.
  induction n as [|n IH]; intros fuel t okm off i Ht Ho En Hf Hi.
  - assert (off = length okm) as ->.
    { destruct (decide (off = length okm)); [done|]. exfalso. symmetry in En. apply Nat.div_small_iff in En; lia. }
    replace (length okm - length okm)%nat with O by lia. rewrite take_0, app_nil_r, firstn_all.
    destruct fuel; cbn [expand_loop]; rewrite Nat.ltb_irrefl; done.
  - destruct fuel as [|fuel]; [lia|]. cbn [expand_loop hkdf_blocks].
    assert (off < length okm)%nat as Hlt.
    { destruct (decide (off < length okm)%nat); [done|]. assert (off = length okm) as -> by lia.
      replace (length okm - length okm + D - 1)%nat with (D - 1)%nat in En by lia. rewrite Nat.div_small in En; lia. }
    destruct (Nat.ltb_spec off (length okm)); [|lia]. unfold expand_block.
    assert (length (t ++ info ++ [i]) <= D + 256 + 1)%nat as Hbuf by (rewrite !length_app; cbn [length]; lia).
    destruct (Nat.leb_spec (length (t ++ info ++ [i])) (D + 256 + 1)); [|lia]. destruct (Hmac _ Hbuf) as [-> Hlen]. osimpl.
    set (t' := mac prk (t ++ info ++ [i])) in *. unfold hkdf_emit.
    assert (hkdf_blocks mac prk info n (i + 1) t' = hkdf_blocks mac prk info n (u8 (i + 1)) t') as -> by (destruct n; [done | rewrite u8_small by lia; done]).
    set (k := (if (length okm - off <? D)%nat then (length okm - off)%nat else D)).
    assert (k = Nat.min (length okm - off) D) as Ek by (subst k; destruct (Nat.ltb_spec (length okm - off) D); lia).
    set (okm' := take off okm ++ take k t' ++ drop (off + k) okm).
    assert (length okm' = length okm) as Hok by (unfold okm'; rewrite !length_app, !length_take, length_drop; lia).
    assert (n = 0%nat \/ 1 <= u8 (i + 1) /\ u8 (i + 1) + Z.of_nat n <= 256) as Hi' by (destruct (decide (n = 0%nat)); [by left | right; rewrite u8_small by lia; lia]).
    rewrite (IH fuel t' okm' (off + k)%nat (u8 (i + 1))); rewrite ?Hok; try lia; try done.
    + f_equal. unfold okm'. assert (take (off + k) (take off okm ++ take k t' ++ drop (off + k) okm) = take off okm ++ take k t') as ->.
      { rewrite app_assoc, take_app_le by (rewrite length_app, !length_take; lia). apply take_ge. rewrite length_app, !length_take. lia. }
      rewrite <- app_assoc. f_equal. destruct (decide (length okm - off <= D)%nat).
      * rewrite take_app_le by lia. replace k with (length okm - off)%nat by lia.
        replace (length okm - (off + (length okm - off)))%nat with O by lia. by rewrite take_0, app_nil_r.
      * rewrite (take_app_ge t') by lia. rewrite (take_ge t') by lia. f_equal. f_equal. lia.
    + destruct (decide (length okm - off <= D)%nat).
      * replace (length okm - (off + k) + D - 1)%nat with (D - 1)%nat by lia. rewrite Nat.div_small by lia.
        assert ((length okm - off + D - 1) / D = 1)%nat; [|lia].
        replace (length okm - off + D - 1)%nat with (length okm - off - 1 + 1 * D)%nat by lia. rewrite Nat.div_add, Nat.div_small by lia. done.
      * replace (length okm - off + D - 1)%nat with (length okm - (off + k) + D - 1 + 1 * D)%nat in En by lia. rewrite Nat.div_add in En by lia. lia.
Qed.

Lemma hkdf_expand_spec okm : (length okm <= 255 * D)%nat ->
  hkdf_expand_with hmac D prk info okm = Some (true, rfc_hkdf_expand mac D prk info (length okm)).
Proof.
  intros HL. unfold hkdf_expand_with, expand_ok. destruct (Z.leb_spec (Z.of_nat (length okm)) (255 * Z.of_nat D)); [|lia].
  destruct (Nat.leb_spec (length info) 256); [|lia]. cbn [andb negb].
  assert ((length okm + D - 1) / D <= 255)%nat as Hn by (apply Nat.lt_succ_r, Nat.Div0.div_lt_upper_bound; nia).
  rewrite (expand_loop_spec ((length okm + D - 1) / D)); cbn [length]; try lia.
  - osimpl. unfold rfc_hkdf_expand. by rewrite take_0, Nat.sub_0_r.
  - f_equal. lia.
  - destruct (decide (length okm = 0)%nat) as [E|]; [rewrite E, Nat.div_small; lia|]. apply Nat.Div0.div_le_upper_bound. nia.
Qed.
End HkdfLaws.

(** The SHA-256 instance, on any secret. *)
Lemma hkdf_expand_exact prk i o : hkdf_expand prk i o =
  (if bool_decide (length o <= 255 * 32 /\ length i <= 256)%nat then
     Some (true, rfc_hkdf_expand (rfc_hmac fips_sha256 SHA256_BLOCK) 32 prk i (length o)) else Some (false, o)).
Proof.
  case_bool_decide as Hb.
  - apply hkdf_expand_spec; try lia. intros m _. rewrite hmac_sha256_spec. split; [done|]. apply fips_sha256_length.
  - unfold hkdf_expand, hkdf_expand_with, expand_ok. rewrite (proj2 (andb_false_iff _ _)); [done|].
    destruct (decide (length o <= 255 * 32)%nat); [right; apply Nat.leb_gt | left; apply Z.leb_gt]; lia.
Qed.

Lemma hkdf_expand_label_exact prk label ctx okm : hkdf_expand_label prk label ctx okm =
  (if bool_decide (length okm <= 255 * 32 /\ length label <= 64 /\ length ctx <= 64)%nat then
     Some (true, rfc_hkdf_expand (rfc_hmac fips_sha256 SHA256_BLOCK) 32 prk (rfc_hkdf_label label ctx (zlen okm)) (length okm))
   else Some (false, okm)).
Proof.
  unfold hkdf_expand_label, hkdf_expand_label_with, hkdf_build_label.
  destruct (Nat.ltb_spec 64 (length label)); [rewrite bool_decide_false by lia; done|].
  destruct (Nat.ltb_spec 64 (length ctx)); [rewrite bool_decide_false by lia; done|]. cbn [orb].
  set (i := _ ++ _). assert (length i <= 138)%nat as Hi by (unfold i; rewrite !length_app; cbn [length]; lia).
  destruct (Nat.leb_spec (length i) 138); [|lia]. osimpl. fold hkdf_expand. rewrite hkdf_expand_exact.
  assert (length i <= 256)%nat by lia. do 2 case_bool_decide; try lia; [|done].
  do 3 f_equal. unfold i, rfc_hkdf_label. rewrite (u8_small (6 + zlen label)), (u8_small (zlen ctx)) by (unfold zlen; lia).
  unfold u8. cbn [be_bytes app]. by rewrite Z.shiftr_div_pow2 by lia.
Qed.

(** Digests, MACs and expanded secrets are bytes, of the length asked for. *)
Lemma fips_sha256_ok m : bytes_ok (fips_sha256 m).
Proof. rewrite <- md_sha256_fips. unfold md_sha256. induction (md_hash _ _ _ _ _ _) as [|x l IH]; [constructor|]. cbn [map concat]. apply bytes_ok_app. split; [apply be_bytes_ok | exact IH]. Qed.

Lemma rfc_hkdf_expand_shape mac D prk info L : (0 < D)%nat -> (forall m, bytes_ok (mac prk m) /\ length (mac prk m) = D) ->
  bytes_ok (rfc_hkdf_expand mac D prk info L) /\ length (rfc_hkdf_expand mac D prk info L) = L.
Proof.
  intros HD Hmac. unfold rfc_hkdf_expand. assert (H : forall n i t, bytes_ok (hkdf_blocks mac prk info n i t) /\ length (hkdf_blocks mac prk info n i t) = (n * D)%nat).
  { induction n as [|n IH]; intros i t; cbn [hkdf_blocks]; [split; [constructor | reflexivity]|]. destruct (Hmac (t ++ info ++ [i])) as [Hb Hl].
    destruct (IH (i + 1) (mac prk (t ++ info ++ [i]))) as [IHb IHl]. rewrite length_app, Hl, IHl. split; [apply bytes_ok_app; split; assumption | lia]. }
  destruct (H ((L + D - 1) / D)%nat 1 []) as [Hb Hl]. split; [by apply bytes_ok_take|]. rewrite length_take, Hl.
  pose proof (Nat.div_mod (L + D - 1) D ltac:(lia)). pose proof (Nat.mod_upper_bound (L + D - 1) D ltac:(lia)). nia.
Qed.

(** C23: hashing is independent of how the message arrives. Any sequence of updates
    followed by the final call gives the FIPS 180-4 digest of the concatenated
    message, for SHA-256, SHA-512 and SHA-384, and never writes past the block
    buffer: the partial-block buffering, the whole-block absorption and the
    byte-by-byte padding loop together compute the padded message's blocks, and the
    compression functions are the rounds of Fips180, which defines the standard from
    its constants, sigma functions, schedule and rounds. *)
Theorem sha2_streaming chunks :
  zlen (concat chunks) < 2 ^ 61 ->
  (s ← sha_updates SHA256_BLOCK sha256_compress chunks sha256_init; sha256_final s) = Some (fips_sha256 (concat chunks)) /\
  (s ← sha_updates SHA512_BLOCK sha512_compress chunks sha512_init; sha512_final s) = Some (fips_sha512 (concat chunks)) /\
  (s ← sha_updates SHA512_BLOCK sha512_compress chunks sha384_init; sha384_final s) = Some (fips_sha384 (concat chunks)).
Proof.
  intros Hm. assert (0 < SHA256_BLOCK /\ 0 < SHA512_BLOCK)%nat as [H1 H2] by (unfold SHA256_BLOCK, SHA512_BLOCK; lia). split; [|split].
  - destruct (updates_repr _ sha256_compress H1 sha256_H0 chunks [] sha256_init (fresh_repr _ _ _ H1) eq_refl) as (s & -> & H & T).
    by apply sha256_final_spec.
  - destruct (updates_repr _ sha512_compress H2 sha512_H0 chunks [] sha512_init (fresh_repr _ _ _ H2) eq_refl) as (s & -> & H & T).
    rewrite <- md_sha512_fips. by apply sha512_final_spec.
  - destruct (updates_repr _ sha512_compress H2 sha384_H0 chunks [] sha384_init (fresh_repr _ _ _ H2) eq_refl) as (s & -> & H & T).
    by apply (ho_final _ _ _ sha384_ok).
Qed.

Lemma sha2_streaming_witness :
  fips_sha256 [97; 98; 99] = [186; 120; 22; 191; 143; 1; 207; 234; 65; 65; 64; 222; 93; 174; 34; 35; 176; 3; 97; 163; 150; 23; 122; 156; 180; 16; 255; 97; 242; 0; 21; 173] /\
  (s ← sha_updates SHA256_BLOCK sha256_compress [[97]; []; [98; 99]] sha256_init; sha256_final s) = Some (fips_sha256 [97; 98; 99]).
Proof. split; [vm_compute; reflexivity | apply (sha2_streaming [[97]; []; [98; 99]]); vm_compute; reflexivity]. Defined.

(** C28: the keyed constructions are the RFCs' own. HMAC over the three hashes is
    RFC 2104's nested hash for keys of any length; HKDF-Expand yields exactly the
    first L bytes of RFC 5869's block sequence T(1) | T(2) | ... for every L up
    to 255 digests and refuses a longer one, its counter byte never reused; and
    HKDF-Expand-Label expands the HkdfLabel of RFC 8446 7.1, refusing labels and
    contexts above 64 bytes. *)
Theorem hmac_hkdf_exact key msg prk info label ctx okm :
  zlen key < 2 ^ 60 -> zlen msg < 2 ^ 60 -> length prk = 32%nat ->
  hmac_sha256 key msg = Some (rfc_hmac fips_sha256 SHA256_BLOCK key msg) /\
  hmac_sha384 key msg = Some (rfc_hmac fips_sha384 SHA512_BLOCK key msg) /\
  hmac_sha512 key msg = Some (rfc_hmac fips_sha512 SHA512_BLOCK key msg) /\
  hkdf_expand prk info okm =
    (if bool_decide (length okm <= 255 * 32 /\ length info <= 256)%nat then
       Some (true, rfc_hkdf_expand (rfc_hmac fips_sha256 SHA256_BLOCK) 32 prk info (length okm))
     else Some (false, okm)) /\
  hkdf_expand_label prk label ctx okm =
    (if bool_decide (length okm <= 255 * 32 /\ length label <= 64 /\ length ctx <= 64)%nat then
       Some (true, rfc_hkdf_expand (rfc_hmac fips_sha256 SHA256_BLOCK) 32 prk (rfc_hkdf_label label ctx (zlen okm)) (length okm))
     else Some (false, okm)).
Proof.
  intros Hk Hm Hp. split; [apply hmac_sha256_spec|]. split; [apply (hmac512_spec _ _ _ sha384_ok); done || (cbn; unfold SHA512_BLOCK; lia)|].
  split; [apply (hmac512_spec _ _ _ sha512_ok); done || (cbn; unfold SHA512_BLOCK; lia)|]. split; [apply hkdf_expand_exact | apply hkdf_expand_label_exact].
Qed.

Lemma hmac_hkdf_exact_witness :
  rfc_hmac fips_sha256 SHA256_BLOCK [74; 101; 102; 101] [119; 104; 97; 116; 32; 100; 111; 32; 121; 97; 32; 119; 97; 110; 116; 32; 102; 111; 114; 32; 110; 111; 116; 104; 105; 110; 103; 63] = [91; 220; 193; 70; 191; 96; 117; 78; 106; 4; 36; 38; 8; 149; 117; 199; 90; 0; 63; 8; 157; 39; 57; 131; 157; 236; 88; 185; 100; 236; 56; 67] /\
  hkdf_expand (replicate 32 7) [1; 2] (replicate 40 0) =
    Some (true, rfc_hkdf_expand (rfc_hmac fips_sha256 SHA256_BLOCK) 32 (replicate 32 7) [1; 2] 40).
Proof.
  split; [vm_compute; reflexivity|].
  destruct (hmac_hkdf_exact [1] [2] (replicate 32 7) [1; 2] [] [] (replicate 40 0)) as (_ & _ & _ & H & _);
    [vm_compute; reflexivity|vm_compute; reflexivity|reflexivity|].
  rewrite bool_decide_true in H by (cbn; lia). exact H.
Defined.
