(* ===== verification/Rfc8439.v ===== *)
(** * RFC 8439: the ChaCha20 stream cipher

    The specification src/src/crypto/symmetric/aead/chacha/chacha20.c is proved
    against, written from RFC 8439 2.1 to 2.4 and sharing nothing with the code's
    model: words are integers below 2^32, the state is four rows of four words, and
    a round applies the quarter round to its columns or to its diagonals. *)

From stdpp Require Import base numbers list.
From Stdlib Require Import ZArith Lia.
From S2P Require Import Prelude Bytes.
Open Scope Z_scope.

(** 2.1: [x <<<= n], addition modulo 2^32, and the quarter round. *)
Definition rfc_rotl (x n : Z) : Z := (x * 2 ^ n) mod 2 ^ 32 + x / 2 ^ (32 - n).
Definition rfc_add (x y : Z) : Z := (x + y) mod 2 ^ 32.
Definition rfc_quarter (a b c d : Z) : Z * Z * Z * Z :=
  let a := rfc_add a b in let d := rfc_rotl (Z.lxor d a) 16 in
  let c := rfc_add c d in let b := rfc_rotl (Z.lxor b c) 12 in
  let a := rfc_add a b in let d := rfc_rotl (Z.lxor d a) 8 in
  let c := rfc_add c d in let b := rfc_rotl (Z.lxor b c) 7 in
  (a, b, c, d).

(** 2.3: a round on the rows of the state: [k = 0] on its columns, [k = 1] on the
    diagonals, that is on the columns once row [r] is turned left by [r] places. *)
Definition turn (n : nat) (row : list Z) : list Z := drop n row ++ take n row.
Definition quarters (rows : list Z * list Z * list Z * list Z) : list Z * list Z * list Z * list Z :=
  let '(r0, r1, r2, r3) := rows in
  let q := map (fun i => rfc_quarter (at_ r0 i) (at_ r1 i) (at_ r2 i) (at_ r3 i)) (seq 0 4) in
  (map (fun x => x.1.1.1) q, map (fun x => x.1.1.2) q, map (fun x => x.1.2) q, map (fun x => x.2) q).
Definition column_round (rows : list Z * list Z * list Z * list Z) := quarters rows.
Definition diagonal_round (rows : list Z * list Z * list Z * list Z) : list Z * list Z * list Z * list Z :=
  let '(r0, r1, r2, r3) := rows in
  let '(r0, r1, r2, r3) := quarters (r0, turn 1 r1, turn 2 r2, turn 3 r3) in (r0, turn 3 r1, turn 2 r2, turn 1 r3).

Definition flat_rows (s : list Z * list Z * list Z * list Z) : list Z := s.1.1.1 ++ s.1.1.2 ++ s.1.2 ++ s.2.

(** The block function: constants, key, counter and nonce in little-endian words;
    ten double rounds, to which the state they started from is added. *)
Definition rfc_words (n : nat) (l : list Z) : list Z := map (fun i => le_val (take 4 (drop (4 * i) l))) (seq 0 n).
Definition rfc_constants : list Z := [0x61707865; 0x3320646e; 0x79622d32; 0x6b206574].
Definition rfc_chacha_block (key : list Z) (counter : Z) (nonce : list Z) : list Z :=
  let k := rfc_words 8 key in
  let rows := (rfc_constants, take 4 k, drop 4 k, counter :: rfc_words 3 nonce) in
  concat (map (le_bytes 4) (zip_with rfc_add (flat_rows (Nat.iter 10 (fun s => diagonal_round (column_round s)) rows)) (flat_rows rows))).

(** 2.4: the text XORed with the blocks of the counters from [counter] on. *)
Definition rfc_chacha_xor (key : list Z) (counter : Z) (nonce text : list Z) : list Z :=
  zip_with Z.lxor text (flat_map (fun i => rfc_chacha_block key ((counter + Z.of_nat i) mod 2 ^ 32) nonce) (seq 0 (S (length text / 64)))).

(** 2.3.2. *)
Example rfc_chacha_block_vector :
  take 8 (rfc_chacha_block (map Z.of_nat (seq 0 32)) 1 [0; 0; 0; 9; 0; 0; 0; 0x4a; 0; 0; 0; 0]) = [0x10; 0xf1; 0xe7; 0xe4; 0xd1; 0x3b; 0x59; 0x15].
Proof. vm_compute. reflexivity. Qed.
