(* ===== verification/Gf2.v ===== *)
(** * Polynomials over GF(2)

    Carry-less arithmetic on numbers read as polynomials: the vocabulary of the
    specifications of AES (FIPS 197 4) and GHASH (SP 800-38D 6.3), with the
    facts that make an operation determined by its values on single bits. *)

From stdpp Require Import base numbers list option.
From Stdlib Require Import ZArith Lia.
From S2P Require Import Prelude Bytes.

(** [a * b], the low [n] bits of [b] counting. *)
Definition pmul (n : nat) (a b : Z) : Z :=
  foldr (fun i acc => Z.lxor acc (if Z.testbit b (Z.of_nat i) then Z.shiftl a (Z.of_nat i) else 0)) 0 (seq 0 n).

(** The remainder of [a] by [m], of degree [d]: bits [d + n - 1] down to [d] are cleared. *)
Fixpoint pmod (n : nat) (d m a : Z) : Z :=
  match n with
  | O => a
  | S n' => let k := d + Z.of_nat n' in pmod n' d m (if Z.testbit a k then Z.lxor a (Z.shiftl m (k - d)) else a)
  end.

(** A function over GF(2): it adds where its argument is a sum. *)
Definition linear (f : Z -> Z) : Prop := f 0 = 0 /\ forall x y, f (Z.lxor x y) = Z.lxor (f x) (f y).

Lemma lxor_swap a b c d : Z.lxor (Z.lxor a b) (Z.lxor c d) = Z.lxor (Z.lxor a c) (Z.lxor b d).
Proof. rewrite !Z.lxor_assoc. f_equal. rewrite <- !Z.lxor_assoc. f_equal. apply Z.lxor_comm. Qed.

Lemma linear_id : linear (fun x => x).
Proof. by split. Qed.
Lemma linear_zero : linear (fun _ => 0).
Proof. by split. Qed.
Lemma linear_comp f g : linear f -> linear g -> linear (fun x => f (g x)).
Proof. intros [F0 F] [G0 G]. split; [by rewrite G0|]. intros. by rewrite G, F. Qed.
Lemma linear_lxor f g : linear f -> linear g -> linear (fun x => Z.lxor (f x) (g x)).
Proof. intros [F0 F] [G0 G]. split; [by rewrite F0, G0|]. intros. by rewrite F, G, lxor_swap. Qed.
Lemma linear_shiftl k : linear (fun x => Z.shiftl x k).
Proof. split; [apply Z.shiftl_0_l|]. intros. apply Z.shiftl_lxor. Qed.
Lemma linear_shiftr k : linear (fun x => Z.shiftr x k).
Proof. split; [apply Z.shiftr_0_l|]. intros. apply Z.shiftr_lxor. Qed.
Lemma linear_land m : linear (fun x => Z.land x m).
Proof.
  split; [apply Z.land_0_l|]. intros. apply Z.bits_inj'. intros i Hi. rewrite !Z.land_spec, !Z.lxor_spec, !Z.land_spec.
  by destruct (Z.testbit x i), (Z.testbit y i), (Z.testbit m i).
Qed.
Lemma linear_mod k : 0 <= k -> linear (fun x => x mod 2 ^ k).
Proof. intros Hk. split; [by rewrite Z.mod_0_l by lia|]. intros. rewrite <- !Z.land_ones by done. apply (linear_land (Z.ones k)). Qed.
Lemma linear_foldr {A} (l : list A) (g : A -> Z -> Z) : (forall i, linear (g i)) -> linear (fun x => foldr (fun i acc => Z.lxor acc (g i x)) 0 l).
Proof. intros Hg. induction l as [|i l IH]; cbn [foldr]; [apply linear_zero | by apply linear_lxor]. Qed.
Lemma linear_bit (f : Z) k : linear (fun x => if Z.testbit x k then f else 0).
Proof. split; [by rewrite Z.bits_0|]. intros. rewrite Z.lxor_spec. destruct (Z.testbit x k), (Z.testbit y k); cbn [xorb]; by rewrite ?Z.lxor_nilpotent, ?Z.lxor_0_r, ?Z.lxor_0_l. Qed.
Lemma linear_if (c : bool) f : linear f -> linear (fun x => if c then f x else 0).
Proof. destruct c; [done|]. intros _. apply linear_zero. Qed.

Lemma linear_pmul_l n b : linear (fun a => pmul n a b).
Proof. apply (linear_foldr (seq 0 n) (fun i a => if Z.testbit b (Z.of_nat i) then Z.shiftl a (Z.of_nat i) else 0)). intros i. apply linear_if, linear_shiftl. Qed.
Lemma linear_pmul_r n a : linear (fun b => pmul n a b).
Proof. apply (linear_foldr (seq 0 n) (fun i b => if Z.testbit b (Z.of_nat i) then Z.shiftl a (Z.of_nat i) else 0)). intros i. apply linear_bit. Qed.

(** A number is the sum of its bits ... *)
Definition sum_bits (x : Z) (l : list nat) : Z := foldr (fun i acc => Z.lxor acc (if Z.testbit x (Z.of_nat i) then 2 ^ Z.of_nat i else 0)) 0 l.

Lemma sum_bits_app x l l' : sum_bits x (l ++ l') = Z.lxor (sum_bits x l) (sum_bits x l').
Proof.
  induction l as [|i l IH]; cbn [sum_bits foldr app]; [by rewrite Z.lxor_0_l|]. fold (sum_bits x (l ++ l')) (sum_bits x l).
  rewrite IH, !Z.lxor_assoc. f_equal. apply Z.lxor_comm.
Qed.

Lemma sum_bits_spec n x i : 0 <= i -> Z.testbit (sum_bits x (seq 0 n)) i = andb (bool_decide (i < Z.of_nat n)) (Z.testbit x i).
Proof.
  intros Hi. induction n as [|n IH]; [cbn [seq sum_bits foldr]; rewrite Z.bits_0, bool_decide_false by lia; done|].
  rewrite seq_S, sum_bits_app, Z.lxor_spec, IH. cbn [Nat.add sum_bits foldr]. rewrite Z.lxor_0_l.
  assert (Hb : forall b : bool, Z.testbit (if b then 2 ^ Z.of_nat n else 0) i = andb b (bool_decide (i = Z.of_nat n))).
  { intros []; cbn [andb]; [|by rewrite Z.bits_0]. clear IH. case_bool_decide as E; [subst; by rewrite Z.pow2_bits_true by lia | by rewrite Z.pow2_bits_false by lia]. }
  rewrite Hb. destruct (decide (i = Z.of_nat n)) as [->|].
  - rewrite bool_decide_false, !bool_decide_true by lia. cbn [andb]. by rewrite andb_true_r, xorb_false_l.
  - rewrite (bool_decide_false (i = Z.of_nat n)) by done. rewrite andb_false_r, xorb_false_r. f_equal. apply bool_decide_ext. lia.
Qed.

Lemma sum_of_bits n x : 0 <= x < 2 ^ Z.of_nat n -> sum_bits x (seq 0 n) = x.
Proof.
  intros Hx. apply Z.bits_inj'. intros i Hi. rewrite sum_bits_spec by done. case_bool_decide; [done|]. cbn [andb].
  symmetry. apply (testbit_high x i (Z.of_nat n)); lia.
Qed.

(** ... so linear functions that agree on single bits agree. *)
Lemma linear_ext n f g : linear f -> linear g -> (forall i, (i < n)%nat -> f (2 ^ Z.of_nat i) = g (2 ^ Z.of_nat i)) ->
  forall x, 0 <= x < 2 ^ Z.of_nat n -> f x = g x.
Proof.
  intros [F0 F] [G0 G] H x Hx. rewrite <- (sum_of_bits n x Hx).
  assert (Hl : forall l, (forall i, In i l -> (i < n)%nat) -> f (sum_bits x l) = g (sum_bits x l)).
  { induction l as [|i l IH]; intros Hi; cbn [sum_bits foldr]; [congruence|]. fold (sum_bits x l). rewrite F, G, IH by (intros; apply Hi; by right). f_equal.
    destruct (Z.testbit x (Z.of_nat i)); [apply H, Hi; by left | congruence]. }
  apply Hl. intros i Hi%in_seq. lia.
Qed.
