(* ===== verification/Aes.v ===== *)
(** * AES

    src/src/crypto/symmetric/aead/aes: the AES-128 and AES-256 key schedules and
    block encryption (aes.c, aes_shift.c, aes_impl.h), proved equal to the cipher
    of FIPS 197 given by its field arithmetic. *)

From stdpp Require Import base numbers list option.
From Stdlib Require Import ZArith Lia.
From S2P Require Import Prelude Bytes Gf2.

(** ** aes.c *)

Definition AES_ROUNDS : nat := 10.
Definition AES256_ROUNDS : nat := 14.

(* src/src/crypto/symmetric/aead/aes/aes.c : SBOX *)
Definition SBOX : list Z := Eval vm_compute in flat_map (words_of 8 16) [
   0x637c777bf26b6fc53001672bfed7ab76; 0xca82c97dfa5947f0add4a2af9ca472c0;
   0xb7fd9326363ff7cc34a5e5f171d83115; 0x04c723c31896059a071280e2eb27b275;
   0x09832c1a1b6e5aa0523bd6b329e32f84; 0x53d100ed20fcb15b6acbbe394a4c58cf;
   0xd0efaafb434d338545f9027f503c9fa8; 0x51a3408f929d38f5bcb6da2110fff3d2;
   0xcd0c13ec5f974417c4a77e3d645d1973; 0x60814fdc222a908846eeb814de5e0bdb;
   0xe0323a0a4906245cc2d3ac629195e479; 0xe7c8376d8dd54ea96c56f4ea657aae08;
   0xba78252e1ca6b4c6e8dd741f4bbd8b8a; 0x703eb5664803f60e613557b986c11d9e;
   0xe1f8981169d98e949b1e87e9ce5528df; 0x8ca1890dbfe6426841992d0fb054bb16].

(* src/src/crypto/symmetric/aead/aes/aes.c : RCON *)
Definition RCON : list Z := [0x01; 0x02; 0x04; 0x08; 0x10; 0x20; 0x40; 0x80; 0x1b; 0x36].

Definition sbox (b : Z) : Z := at_ SBOX (Z.to_nat b).

(* src/src/crypto/symmetric/aead/aes/aes.c : sub_word@36-40 *)
Definition sub_word (w : Z) : Z :=
  Z.lor (Z.lor (Z.lor (Z.shiftl (sbox (Z.land (Z.shiftr w 24) 0xff)) 24) (Z.shiftl (sbox (Z.land (Z.shiftr w 16) 0xff)) 16))
    (Z.shiftl (sbox (Z.land (Z.shiftr w 8) 0xff)) 8)) (sbox (Z.land w 0xff)).

Definition rot_word (w : Z) : Z := Z.lor (u32 (Z.shiftl w 8)) (Z.shiftr w 24).

(* src/src/crypto/symmetric/aead/aes/aes.c : schedule_word@43-48 *)
Definition schedule_word (prev : Z) (i : nat) : Z :=
  if negb (i mod 4 =? 0)%nat then prev else Z.lxor (sub_word (rot_word prev)) (Z.shiftl (at_ RCON (i / 4 - 1)) 24).

(* src/src/crypto/symmetric/aead/aes/aes.c : aes128_schedule_word256 *)
Definition aes128_schedule_word256 (prev : Z) (i : nat) : Z :=
  if (i mod 8 =? 0)%nat then Z.lxor (sub_word (rot_word prev)) (Z.shiftl (at_ RCON (i / 8 - 1)) 24)
  else if (i mod 8 =? 4)%nat then sub_word prev else prev.

(** The key's bytes as big-endian words. *)
Definition key_word (key : list Z) (i : nat) : Z :=
  Z.lor (Z.lor (Z.lor (Z.shiftl (at_ key (4 * i)) 24) (Z.shiftl (at_ key (4 * i + 1)) 16)) (Z.shiftl (at_ key (4 * i + 2)) 8)) (at_ key (4 * i + 3)).

(* src/src/crypto/symmetric/aead/aes/aes.c : aes128_init *)
Definition aes128_init (key : list Z) : list Z :=
  extend_words (fun rk i => Z.lxor (at_ rk (i - 4)) (schedule_word (at_ rk (i - 1)) i)) 40 (map (key_word key) (seq 0 4)).

(** ** aes_shift.c *)

(* src/src/crypto/symmetric/aead/aes/aes_impl.h : XTIME *)
Definition XTIME (x : Z) : Z := u8 (Z.lxor (Z.shiftl x 1) (Z.shiftr x 7 * 0x1b)).

(* src/src/crypto/symmetric/aead/aes/aes_shift.c : add_round_key@13-20 *)
Definition add_round_key (s rk : list Z) : list Z :=
  flat_map (fun c => [Z.lxor (at_ s (4 * c)) (u8 (Z.shiftr (at_ rk c) 24)); Z.lxor (at_ s (4 * c + 1)) (u8 (Z.shiftr (at_ rk c) 16));
                      Z.lxor (at_ s (4 * c + 2)) (u8 (Z.shiftr (at_ rk c) 8)); Z.lxor (at_ s (4 * c + 3)) (u8 (at_ rk c))]) (seq 0 4).

(* src/src/crypto/symmetric/aead/aes/aes_shift.c : sub_bytes@22-26 *)
Definition sub_bytes (s : list Z) : list Z := map (fun i => sbox (at_ s i)) (seq 0 16).

(* src/src/crypto/symmetric/aead/aes/aes_shift.c : shift_col@29-33 *)
Definition shift_col (s : list Z) (c : nat) : list Z := map (fun r => at_ s (4 * ((c + r) mod 4) + r)) (seq 0 4).
(* src/src/crypto/symmetric/aead/aes/aes_shift.c : shift_rows@36-42 *)
Definition shift_rows (s : list Z) : list Z := flat_map (shift_col s) (seq 0 4).

(* src/src/crypto/symmetric/aead/aes/aes_shift.c : mix_one@45-51 *)
Definition mix_one (a0 a1 a2 a3 : Z) : list Z :=
  [u8 (Z.lxor (Z.lxor (Z.lxor (XTIME a0) (Z.lxor (XTIME a1) a1)) a2) a3);
   u8 (Z.lxor (Z.lxor (Z.lxor a0 (XTIME a1)) (Z.lxor (XTIME a2) a2)) a3);
   u8 (Z.lxor (Z.lxor (Z.lxor a0 a1) (XTIME a2)) (Z.lxor (XTIME a3) a3));
   u8 (Z.lxor (Z.lxor (Z.lxor (Z.lxor (XTIME a0) a0) a1) a2) (XTIME a3))].
(* src/src/crypto/symmetric/aead/aes/aes_shift.c : mix_columns@53-57 *)
Definition mix_columns (s : list Z) : list Z :=
  flat_map (fun c => mix_one (at_ s (4 * c)) (at_ s (4 * c + 1)) (at_ s (4 * c + 2)) (at_ s (4 * c + 3))) (seq 0 4).

(* src/src/crypto/symmetric/aead/aes/aes_shift.c : round_full@60-65 *)
Definition round_full (s rk : list Z) : list Z := add_round_key (mix_columns (shift_rows (sub_bytes s))) rk.
(* src/src/crypto/symmetric/aead/aes/aes_shift.c : round_last@68-72 *)
Definition round_last (s rk : list Z) : list Z := add_round_key (shift_rows (sub_bytes s)) rk.

(** The rounds of both encryptions: [a->rk + 4 * r]. *)
Definition aes_encrypt (rounds : nat) (rk inp : list Z) : list Z :=
  let s := add_round_key inp rk in
  let s := foldl (fun s r => round_full s (drop (4 * r) rk)) s (seq 1 (rounds - 1)) in
  round_last s (drop (4 * rounds) rk).
(* src/src/crypto/symmetric/aead/aes/aes_shift.c : aes128_encrypt *)
Definition aes128_encrypt (rk inp : list Z) : list Z := aes_encrypt AES_ROUNDS rk inp.

(* src/src/crypto/symmetric/aead/aes/aes_shift.c : aes256_init *)
Definition aes256_init (key : list Z) : list Z :=
  extend_words (fun rk i => Z.lxor (at_ rk (i - 8)) (aes128_schedule_word256 (at_ rk (i - 1)) i)) 52 (map (key_word key) (seq 0 8)).
(* src/src/crypto/symmetric/aead/aes/aes_shift.c : aes256_encrypt *)
Definition aes256_encrypt (rk inp : list Z) : list Z := aes_encrypt AES256_ROUNDS rk inp.

(** ** FIPS 197

    Bytes are elements of GF(2^8) modulo x^8 + x^4 + x^3 + x + 1 (4.2); the
    state is its sixteen bytes column by column (3.4), a round key four words of
    four bytes. *)

Definition gmul (a b : Z) : Z := pmod 8 8 0x11b (pmul 8 a b).
(** 5.1.1: the inverse in the field (0 for 0), then the affine map with 0x63. *)
Definition ginv (x : Z) : Z := default 0 (List.find (fun y => gmul x y =? 1) (map Z.of_nat (seq 0 256))).
Definition affine (b : Z) : Z :=
  foldr (fun i acc => let t k := Z.b2z (Z.testbit b ((i + k) mod 8)) in
    acc + 2 ^ i * ((t 0 + t 4 + t 5 + t 6 + t 7 + Z.b2z (Z.testbit 0x63 i)) mod 2)) 0 (map Z.of_nat (seq 0 8)).
Definition fips_sbox (x : Z) : Z := affine (ginv x).

(** 5.1: the steps of a round on [s], whose byte in row [r], column [c] is number [r + 4 * c]. *)
Definition fips_state (f : nat -> nat -> Z) : list Z := map (fun i => f (i mod 4)%nat (i / 4)%nat) (seq 0 16).
Definition fips_get (s : list Z) (r c : nat) : Z := at_ s (r + 4 * c).
Definition fips_sub_bytes (s : list Z) : list Z := fips_state (fun r c => fips_sbox (fips_get s r c)).
Definition fips_shift_rows (s : list Z) : list Z := fips_state (fun r c => fips_get s r ((c + r) mod 4)%nat).
(** 5.1.3: row [r] of the matrix is {02} {03} {01} {01} turned right [r] times. *)
Definition fips_mix_columns (s : list Z) : list Z :=
  fips_state (fun r c => foldr Z.lxor 0 (map (fun k => gmul (at_ [2; 3; 1; 1] ((k + 4 - r) mod 4)%nat) (fips_get s k c)) (seq 0 4))).
Definition fips_add_round_key (s : list Z) (w : list (list Z)) : list Z :=
  fips_state (fun r c => Z.lxor (fips_get s r c) (at_ (nth c w []) r)).

(** 5.2: words are lists of four bytes. *)
Definition fips_sub_word (w : list Z) : list Z := map fips_sbox w.
Definition fips_rot_word (w : list Z) : list Z := drop 1 w ++ take 1 w.
(** x^(j - 1), in the first byte. *)
Definition fips_rcon (j : nat) : list Z := [Nat.iter (j - 1) (gmul 2) 1; 0; 0; 0].
Definition fips_next_word (nk : nat) (w : list (list Z)) : list Z :=
  let i := length w in
  let temp := nth (i - 1) w [] in
  let temp := if (i mod nk =? 0)%nat then zip_with Z.lxor (fips_sub_word (fips_rot_word temp)) (fips_rcon (i / nk)%nat)
              else if ((6 <? nk) && (i mod nk =? 4))%nat then fips_sub_word temp else temp in
  zip_with Z.lxor (nth (i - nk) w []) temp.
Definition fips_key_expansion (nk nr : nat) (key : list Z) : list (list Z) :=
  Nat.iter (4 * (nr + 1) - nk) (fun w => w ++ [fips_next_word nk w]) (map (fun i => take 4 (drop (4 * i) key)) (seq 0 nk)).

(** 5.1: the cipher of [nr] rounds. *)
Definition fips_cipher (nk nr : nat) (key inp : list Z) : list Z :=
  let w := fips_key_expansion nk nr key in
  let s := fips_add_round_key inp w in
  let s := foldl (fun s r => fips_add_round_key (fips_mix_columns (fips_shift_rows (fips_sub_bytes s))) (drop (4 * r) w)) s (seq 1 (nr - 1)) in
  fips_add_round_key (fips_shift_rows (fips_sub_bytes s)) (drop (4 * nr) w).

(** ** The bytes and their field *)

Lemma bytes_below (P : Z -> bool) : forallb P (map Z.of_nat (seq 0 256)) = true -> forall x, is_u8 x -> P x = true.
Proof.
  intros H x Hx. unfold is_u8 in Hx. apply (proj1 (forallb_forall _ _) H). apply in_map_iff. exists (Z.to_nat x). split; [lia|]. apply in_seq. lia.
Qed.

Lemma sbox_table x : is_u8 x -> sbox x = fips_sbox x /\ is_u8 (sbox x).
Proof.
  intros Hx. pose proof (bytes_below (fun x => (sbox x =? fips_sbox x) && (0 <=? sbox x) && (sbox x <? 256)) ltac:(vm_compute; reflexivity) x Hx) as H.
  apply andb_true_iff in H as [[H1 H2]%andb_true_iff H3]. unfold is_u8. lia.
Qed.

Lemma field_small x : is_u8 x -> gmul 1 x = x /\ gmul 2 x = XTIME x /\ gmul 3 x = Z.lxor (XTIME x) x.
Proof.
  intros Hx. pose proof (bytes_below (fun x => (gmul 1 x =? x) && (gmul 2 x =? XTIME x) && (gmul 3 x =? Z.lxor (XTIME x) x)) ltac:(vm_compute; reflexivity) x Hx) as H.
  apply andb_true_iff in H as [[H1 H2]%andb_true_iff H3]. lia.
Qed.

Lemma at_byte s i : bytes_ok s -> is_u8 (at_ s i).
Proof.
  intros Hs. unfold at_. destruct (nth_in_or_default i s 0) as [H| ->]; [|unfold is_u8; lia]. exact (proj1 (List.Forall_forall _ _) Hs _ H).
Qed.


(** A word from its four bytes. *)
Definition word_of (a b c d : Z) : Z := Z.lor (Z.lor (Z.lor (Z.shiftl a 24) (Z.shiftl b 16)) (Z.shiftl c 8)) d.
Definition word_bytes (w : Z) : list Z := [u8 (Z.shiftr w 24); u8 (Z.shiftr w 16); u8 (Z.shiftr w 8); u8 w].

Lemma word_of_val a b c d : is_u8 a -> is_u8 b -> is_u8 c -> is_u8 d -> word_of a b c d = a * 2 ^ 24 + b * 2 ^ 16 + c * 2 ^ 8 + d.
Proof.
  unfold is_u8, word_of. intros Ha Hb Hc Hd. rewrite (lor_shiftl a 24) by (rewrite ?Z.shiftl_mul_pow2; lia). rewrite Z.shiftl_mul_pow2 by lia.
  replace (a * 2 ^ 24 + b * 2 ^ 16) with (Z.shiftl (a * 2 ^ 8 + b) 16) by (rewrite Z.shiftl_mul_pow2; lia).
  rewrite lor_shiftl by (rewrite ?Z.shiftl_mul_pow2; lia). rewrite (Z.shiftl_mul_pow2 c) by lia.
  replace ((a * 2 ^ 8 + b) * 2 ^ 16 + c * 2 ^ 8) with (Z.shiftl ((a * 2 ^ 8 + b) * 2 ^ 8 + c) 8) by (rewrite Z.shiftl_mul_pow2; lia).
  rewrite lor_shiftl, ?Z.shiftl_mul_pow2 by lia. lia.
Qed.

Lemma word_of_bytes a b c d : is_u8 a -> is_u8 b -> is_u8 c -> is_u8 d -> word_bytes (word_of a b c d) = [a; b; c; d] /\ is_u32 (word_of a b c d).
Proof.
  intros Ha Hb Hc Hd. rewrite word_of_val by done. unfold is_u8, is_u32 in *. split; [|lia]. unfold word_bytes, u8. rewrite !Z.shiftr_div_pow2 by lia.
  assert (E : forall x y z t x' y' z' t' : Z, x = x' -> y = y' -> z = z' -> t = t' -> [x; y; z; t] = [x'; y'; z'; t']) by congruence.
  apply E; Z.to_euclidean_division_equations; lia.
Qed.

Lemma word_bytes_ok w : bytes_ok (word_bytes w).
Proof. repeat (apply bytes_ok_cons; split; [apply u8_range|]). apply Forall_nil_2. Qed.

Lemma word_split w : is_u32 w -> exists a b c d, is_u8 a /\ is_u8 b /\ is_u8 c /\ is_u8 d /\ w = word_of a b c d.
Proof.
  unfold is_u32. intros Hw. exists (w / 2 ^ 24), (w / 2 ^ 16 mod 256), (w / 2 ^ 8 mod 256), (w mod 256). unfold is_u8.
  assert (0 <= w / 2 ^ 24 < 256 /\ 0 <= w / 2 ^ 16 mod 256 < 256 /\ 0 <= w / 2 ^ 8 mod 256 < 256 /\ 0 <= w mod 256 < 256) by (Z.to_euclidean_division_equations; lia).
  rewrite word_of_val by (unfold is_u8; lia). repeat (split; [lia|]). Z.to_euclidean_division_equations. lia.
Qed.

(** ** The steps of a round *)

Definition state_ok (s : list Z) : Prop := bytes_ok s /\ length s = 16%nat.

Lemma fips_state_ok f : (forall r c, (r < 4)%nat -> (c < 4)%nat -> is_u8 (f r c)) -> state_ok (fips_state f).
Proof.
  intros H. split; [|reflexivity]. apply List.Forall_forall. intros x (i & <- & Hi%in_seq)%in_map_iff. apply H.
  - apply Nat.mod_upper_bound. lia.
  - apply Nat.Div0.div_lt_upper_bound. lia.
Qed.

Lemma fips_state_ext f g : (forall r c, (r < 4)%nat -> (c < 4)%nat -> f r c = g r c) -> fips_state f = fips_state g.
Proof.
  intros H. apply map_ext_in. intros i Hi%in_seq. apply H.
  - apply Nat.mod_upper_bound. lia.
  - apply Nat.Div0.div_lt_upper_bound. lia.
Qed.

Lemma sub_bytes_fips s : state_ok s -> sub_bytes s = fips_sub_bytes s /\ state_ok (sub_bytes s).
Proof.
  intros [Hs _]. change (sub_bytes s) with (fips_state (fun r c => sbox (fips_get s r c))). split.
  - apply fips_state_ext. intros r c _ _. by apply sbox_table, at_byte.
  - apply fips_state_ok. intros r c _ _. by apply sbox_table, at_byte.
Qed.

Lemma shift_rows_fips s : state_ok s -> shift_rows s = fips_shift_rows s /\ state_ok (shift_rows s).
Proof.
  intros [Hs _]. change (shift_rows s) with (fips_shift_rows s). split; [done|]. apply fips_state_ok. intros r c _ _. by apply at_byte.
Qed.

Lemma XTIME_u8 x : is_u8 (XTIME x).
Proof. apply u8_range. Qed.

Lemma mix_columns_fips s : state_ok s -> mix_columns s = fips_mix_columns s /\ state_ok (mix_columns s).
Proof.
  intros [Hs _].
  assert (Hone : forall a0 a1 a2 a3 r, is_u8 a0 -> is_u8 a1 -> is_u8 a2 -> is_u8 a3 -> (r < 4)%nat ->
    at_ (mix_one a0 a1 a2 a3) r = foldr Z.lxor 0 (map (fun k => gmul (at_ [2; 3; 1; 1] ((k + 4 - r) mod 4)%nat) (at_ [a0; a1; a2; a3] k)) (seq 0 4))).
  { intros a0 a1 a2 a3 r H0 H1 H2 H3 Hr. destruct (field_small a0 H0) as (A1 & A2 & A3), (field_small a1 H1) as (B1 & B2 & B3), (field_small a2 H2) as (C1 & C2 & C3), (field_small a3 H3) as (D1 & D2 & D3).
    pose proof (XTIME_u8 a0). pose proof (XTIME_u8 a1). pose proof (XTIME_u8 a2). pose proof (XTIME_u8 a3).
    destruct r as [|[|[|[|]]]]; [..|lia]; unfold mix_one, at_; cbn [nth seq map foldr Nat.add Nat.sub Nat.modulo Nat.divmod fst snd];
      rewrite ?A1, ?A2, ?A3, ?B1, ?B2, ?B3, ?C1, ?C2, ?C3, ?D1, ?D2, ?D3, u8_small by (repeat apply lxor_u8; done); rewrite ?Z.lxor_0_r, ?Z.lxor_assoc; done. }
  change (mix_columns s) with (fips_state (fun r c => at_ (mix_one (fips_get s 0 c) (fips_get s 1 c) (fips_get s 2 c) (fips_get s 3 c)) r)). split.
  - apply fips_state_ext. intros r c Hr Hc. by rewrite Hone by (done || by apply at_byte).
  - apply fips_state_ok. intros r c Hr Hc. destruct r as [|[|[|[|]]]]; [..|lia]; apply u8_range.
Qed.

Lemma add_round_key_fips s rk : state_ok s -> (4 <= length rk)%nat ->
  add_round_key s rk = fips_add_round_key s (map word_bytes rk) /\ state_ok (add_round_key s rk).
Proof.
  intros [Hs _] Hl. destruct rk as [|w0 [|w1 [|w2 [|w3 rk]]]]; try (cbn in Hl; lia). split; [reflexivity|].
  change (add_round_key s _) with (fips_state (fun r c => Z.lxor (fips_get s r c) (at_ (word_bytes (at_ [w0; w1; w2; w3] c)) r))).
  apply fips_state_ok. intros r c _ _. apply lxor_u8; apply at_byte; [done | apply word_bytes_ok].
Qed.

(** ** The key schedule *)

Lemma lxor_u32 x y : is_u32 x -> is_u32 y -> is_u32 (Z.lxor x y).
Proof.
  unfold is_u32. intros Hx Hy. pose proof (proj2 (linear_mod 32 ltac:(lia)) x y) as H. cbn beta in H. change (2 ^ 32) with 4294967296 in H.
  rewrite (Z.mod_small x), (Z.mod_small y) in H by done. rewrite <- H. apply Z.mod_pos_bound. lia.
Qed.

Lemma word_bytes_lxor x y : word_bytes (Z.lxor x y) = zip_with Z.lxor (word_bytes x) (word_bytes y).
Proof.
  pose proof (proj2 (linear_mod 8 ltac:(lia))) as H. cbn beta in H. unfold word_bytes, u8. change 256 with (2 ^ 8). by rewrite !Z.shiftr_lxor, !H.
Qed.

Lemma sub_word_spec w : is_u32 (sub_word w) /\ word_bytes (sub_word w) = fips_sub_word (word_bytes w).
Proof.
  unfold sub_word. rewrite !(land_255 _). change (w mod 256) with (u8 w). change (Z.shiftr w 24 mod 256) with (u8 (Z.shiftr w 24)).
  change (Z.shiftr w 16 mod 256) with (u8 (Z.shiftr w 16)). change (Z.shiftr w 8 mod 256) with (u8 (Z.shiftr w 8)).
  destruct (word_of_bytes (sbox (u8 (Z.shiftr w 24))) (sbox (u8 (Z.shiftr w 16))) (sbox (u8 (Z.shiftr w 8))) (sbox (u8 w))) as [E R]; try (apply sbox_table, u8_range).
  split; [exact R|]. etransitivity; [exact E|]. unfold fips_sub_word, word_bytes. cbn [map].
  by rewrite !(proj1 (sbox_table _ (u8_range _))).
Qed.

Lemma rot_word_spec w : is_u32 w -> is_u32 (rot_word w) /\ word_bytes (rot_word w) = fips_rot_word (word_bytes w).
Proof.
  intros Hw. destruct (word_split w Hw) as (a & b & c & d & Ha & Hb & Hc & Hd & ->).
  assert (E : rot_word (word_of a b c d) = word_of b c d a).
  { unfold rot_word. rewrite !word_of_val by done. unfold is_u8 in *. rewrite Z.shiftr_div_pow2 by lia.
    replace ((a * 2 ^ 24 + b * 2 ^ 16 + c * 2 ^ 8 + d) / 2 ^ 24) with a by (Z.to_euclidean_division_equations; lia).
    rewrite Z.lor_comm, shift_or_u32 by lia. Z.to_euclidean_division_equations. lia. }
  rewrite E, (proj1 (word_of_bytes a b c d Ha Hb Hc Hd)). destruct (word_of_bytes b c d a Hb Hc Hd Ha) as [-> ?]. done.
Qed.

Lemma rcon_spec j : (1 <= j <= 10)%nat -> is_u32 (Z.shiftl (at_ RCON (j - 1)) 24) /\ word_bytes (Z.shiftl (at_ RCON (j - 1)) 24) = fips_rcon j.
Proof.
  intros Hj. do 11 (destruct j as [|j]; [lia || (split; [split; vm_compute; congruence | vm_compute; reflexivity])|]). lia.
Qed.

Lemma nth_words w i : (i < length w)%nat -> nth i (map word_bytes w) [] = word_bytes (at_ w i).
Proof. intros Hi. rewrite (nth_indep _ [] (word_bytes 0)) by (by rewrite length_map). apply map_nth. Qed.

(** A code schedule [step] that follows the specification's from [nk] words on. *)
Lemma schedule_fips nk (step : list Z -> nat -> Z) bound :
  (forall w, Forall is_u32 w -> (nk <= length w < bound)%nat -> is_u32 (step w (length w)) /\ fips_next_word nk (map word_bytes w) = word_bytes (step w (length w))) ->
  forall n w, Forall is_u32 w -> (nk <= length w)%nat -> (length w + n <= bound)%nat ->
    map word_bytes (extend_words step n w) = Nat.iter n (fun w => w ++ [fips_next_word nk w]) (map word_bytes w) /\ length (extend_words step n w) = (length w + n)%nat.
Proof.
  intros Hstep. induction n as [|n IH]; intros w Hw Hnk Hb; [cbn; split; [done|]; lia|]. cbn [extend_words]. rewrite Nat.iter_succ_r.
  destruct (Hstep w Hw ltac:(lia)) as [Hu He]. rewrite He. change [word_bytes ?x] with (map word_bytes [x]). rewrite <- map_app.
  destruct (IH (w ++ [step w (length w)])) as [-> ->]; [apply Forall_app; split; [done | by apply List.Forall_cons] | rewrite length_app; cbn; lia..|].
  split; [done|]. rewrite length_app. cbn [length]. lia.
Qed.

Lemma next_word_step w nk code spec : Forall is_u32 w -> (0 < nk <= length w)%nat ->
  is_u32 code -> spec = word_bytes code ->
  is_u32 (Z.lxor (at_ w (length w - nk)) code) /\ zip_with Z.lxor (nth (length w - nk) (map word_bytes w) []) spec = word_bytes (Z.lxor (at_ w (length w - nk)) code).
Proof.
  intros Hw Hnk Hc ->. rewrite nth_words, word_bytes_lxor by lia. split; [|done]. apply lxor_u32; [|done].
  apply (proj1 (List.Forall_forall _ _) Hw), nth_In. lia.
Qed.

Lemma last_word w : Forall is_u32 w -> (0 < length w)%nat -> is_u32 (at_ w (length w - 1)) /\ nth (length w - 1) (map word_bytes w) [] = word_bytes (at_ w (length w - 1)).
Proof.
  intros Hw Hl. split; [apply (proj1 (List.Forall_forall _ _) Hw), nth_In; lia | apply nth_words; lia].
Qed.

Lemma key_words n key : bytes_ok key -> length key = (4 * n)%nat ->
  map word_bytes (map (key_word key) (seq 0 n)) = map (fun i => take 4 (drop (4 * i) key)) (seq 0 n) /\ Forall is_u32 (map (key_word key) (seq 0 n)).
Proof.
  intros Hk Hl. rewrite map_map. split.
  - apply map_ext_in. intros i Hi%in_seq. change (key_word key i) with (word_of (at_ key (4 * i)) (at_ key (4 * i + 1)) (at_ key (4 * i + 2)) (at_ key (4 * i + 3))). rewrite (proj1 (word_of_bytes _ _ _ _ (at_byte _ _ Hk) (at_byte _ _ Hk) (at_byte _ _ Hk) (at_byte _ _ Hk))).
    assert (Hn : forall j, at_ key (4 * i + j) = at_ (drop (4 * i) key) j) by (intros j; unfold at_; symmetry; apply List.nth_skipn).
    assert (Hd : (4 <= length (drop (4 * i) key))%nat) by (rewrite length_drop; lia).
    replace (at_ key (4 * i)) with (at_ key (4 * i + 0)) by (f_equal; lia). rewrite !Hn. destruct (drop (4 * i) key) as [|a [|b [|c [|d l]]]]; cbn in Hd; try lia. by destruct l.
  - apply List.Forall_forall. intros x (i & <- & _)%in_map_iff. change (key_word key i) with (word_of (at_ key (4 * i)) (at_ key (4 * i + 1)) (at_ key (4 * i + 2)) (at_ key (4 * i + 3))). apply word_of_bytes; by apply at_byte.
Qed.

Lemma aes128_schedule key : bytes_ok key -> length key = 16%nat ->
  map word_bytes (aes128_init key) = fips_key_expansion 4 10 key /\ length (aes128_init key) = 44%nat.
Proof.
  intros Hk Hl. destruct (key_words 4 key Hk Hl) as [E F]. unfold aes128_init, fips_key_expansion. rewrite <- E. change (4 * (10 + 1) - 4)%nat with 40%nat.
  apply (schedule_fips 4 _ 44); [|exact F|cbn; lia..]. clear E F Hk Hl key. intros w Hw Hn. destruct (last_word w Hw ltac:(lia)) as [Hu El]. unfold fips_next_word, schedule_word.
  rewrite length_map, El. cbn [Nat.ltb Nat.leb andb].
  assert (H : forall code spec, is_u32 code -> spec = word_bytes code -> is_u32 (Z.lxor (at_ w (length w - 4)) code) /\
    zip_with Z.lxor (nth (length w - 4) (map word_bytes w) []) spec = word_bytes (Z.lxor (at_ w (length w - 4)) code)) by (intros; apply next_word_step; auto; lia).
  destruct (Nat.eqb_spec (length w mod 4) 0) as [E|E]; cbn [negb]; apply H; try done.
  - apply lxor_u32; [apply sub_word_spec|]. apply rcon_spec. pose proof (Nat.div_mod_eq (length w) 4). lia.
  - rewrite word_bytes_lxor, (proj2 (sub_word_spec _)), (proj2 (rot_word_spec _ Hu)). f_equal. symmetry. apply rcon_spec. pose proof (Nat.div_mod_eq (length w) 4). lia.
Qed.

Lemma aes256_schedule key : bytes_ok key -> length key = 32%nat ->
  map word_bytes (aes256_init key) = fips_key_expansion 8 14 key /\ length (aes256_init key) = 60%nat.
Proof.
  intros Hk Hl. destruct (key_words 8 key Hk Hl) as [E F]. unfold aes256_init, fips_key_expansion. rewrite <- E. change (4 * (14 + 1) - 8)%nat with 52%nat.
  apply (schedule_fips 8 _ 60); [|exact F|cbn; lia..]. clear E F Hk Hl key. intros w Hw Hn. destruct (last_word w Hw ltac:(lia)) as [Hu El]. unfold fips_next_word, aes128_schedule_word256.
  rewrite length_map, El. cbn [Nat.ltb Nat.leb andb].
  assert (H : forall code spec, is_u32 code -> spec = word_bytes code -> is_u32 (Z.lxor (at_ w (length w - 8)) code) /\
    zip_with Z.lxor (nth (length w - 8) (map word_bytes w) []) spec = word_bytes (Z.lxor (at_ w (length w - 8)) code)) by (intros; apply next_word_step; auto; lia).
  destruct (Nat.eqb_spec (length w mod 8) 0) as [E|E]; [|destruct (Nat.eqb_spec (length w mod 8) 4)]; apply H; try done.
  - apply lxor_u32; [apply sub_word_spec|]. apply rcon_spec. pose proof (Nat.div_mod_eq (length w) 8). lia.
  - rewrite word_bytes_lxor, (proj2 (sub_word_spec _)), (proj2 (rot_word_spec _ Hu)). f_equal. symmetry. apply rcon_spec. pose proof (Nat.div_mod_eq (length w) 8). lia.
  - apply sub_word_spec.
  - symmetry. apply sub_word_spec.
Qed.

(** ** The cipher *)

Lemma round_fips s rk w : state_ok s -> (4 <= length rk)%nat -> map word_bytes rk = w ->
  round_full s rk = fips_add_round_key (fips_mix_columns (fips_shift_rows (fips_sub_bytes s))) w /\ state_ok (round_full s rk) /\
  round_last s rk = fips_add_round_key (fips_shift_rows (fips_sub_bytes s)) w /\ state_ok (round_last s rk).
Proof.
  intros Hs Hl <-. unfold round_full, round_last. destruct (sub_bytes_fips s Hs) as [<- Hs1]. destruct (shift_rows_fips _ Hs1) as [<- Hs2]. destruct (mix_columns_fips _ Hs2) as [<- Hs3].
  destruct (add_round_key_fips _ rk Hs3 Hl) as [<- ?]. destruct (add_round_key_fips _ rk Hs2 Hl) as [<- ?]. done.
Qed.

Lemma aes_encrypt_fips nk nr rk key inp : map word_bytes rk = fips_key_expansion nk nr key -> length rk = (4 * (nr + 1))%nat -> (0 < nr)%nat ->
  state_ok inp -> aes_encrypt nr rk inp = fips_cipher nk nr key inp /\ state_ok (aes_encrypt nr rk inp).
Proof.
  intros E Hl Hnr Hi. unfold aes_encrypt, fips_cipher. rewrite <- E. clear E.
  destruct (add_round_key_fips inp rk Hi ltac:(lia)) as [<- H0].
  assert (Hr : forall l s, Forall (fun r => (r < nr)%nat) l -> state_ok s ->
    foldl (fun s r => round_full s (drop (4 * r) rk)) s l =
    foldl (fun s r => fips_add_round_key (fips_mix_columns (fips_shift_rows (fips_sub_bytes s))) (drop (4 * r) (map word_bytes rk))) s l /\
    state_ok (foldl (fun s r => round_full s (drop (4 * r) rk)) s l)).
  { induction l as [|r l IH]; intros s Hf Hs; [done|]. apply List.Forall_cons_iff in Hf as [Hr Hf]. cbn [foldl].
    destruct (round_fips s (drop (4 * r) rk) _ Hs ltac:(rewrite length_drop; lia) eq_refl) as (Er & Ho & _). rewrite skipn_map, <- Er. by apply IH. }
  destruct (Hr (seq 1 (nr - 1)) _ ltac:(apply List.Forall_forall; intros ? ?%in_seq; lia) H0) as [<- Hs]. clear Hr. set (s := foldl _ _ _) in *.
  destruct (round_fips s (drop (4 * nr) rk) _ Hs ltac:(rewrite length_drop; lia) eq_refl) as (_ & _ & El & Ho). by rewrite skipn_map, <- El.
Qed.

(** For any key and block the byte-table code is FIPS 197's cipher: the S-box
    table is the field inverse followed by the affine map, the key schedule is the
    key expansion, and ten (fourteen) rounds of the byte operations are the cipher
    of AES-128 (AES-256) computed in GF(2^8). *)
Theorem aes_exact key key2 inp : bytes_ok key -> length key = 16%nat -> bytes_ok key2 -> length key2 = 32%nat -> bytes_ok inp -> length inp = 16%nat ->
  aes128_encrypt (aes128_init key) inp = fips_cipher 4 10 key inp /\ aes256_encrypt (aes256_init key2) inp = fips_cipher 8 14 key2 inp.
Proof.
  intros Hk Hl Hk2 Hl2 Hi Hli. destruct (aes128_schedule key Hk Hl) as [E L]. destruct (aes256_schedule key2 Hk2 Hl2) as [E2 L2].
  split; (eapply aes_encrypt_fips; [eassumption | assumption | unfold AES_ROUNDS, AES256_ROUNDS; lia | by split]).
Qed.

(** FIPS 197 appendix C.1 and C.3. *)
Lemma aes_exact_witness :
  let key := map Z.of_nat (seq 0 16) in let key2 := map Z.of_nat (seq 0 32) in let pt := map (fun i => 17 * Z.of_nat i) (seq 0 16) in
  aes128_encrypt (aes128_init key) pt = [0x69; 0xc4; 0xe0; 0xd8; 0x6a; 0x7b; 0x04; 0x30; 0xd8; 0xcd; 0xb7; 0x80; 0x70; 0xb4; 0xc5; 0x5a] /\
  aes128_encrypt (aes128_init key) pt = fips_cipher 4 10 key pt /\ aes256_encrypt (aes256_init key2) pt = fips_cipher 8 14 key2 pt.
Proof.
  intros key key2 pt. split; [vm_compute; reflexivity|].
  apply aes_exact; try reflexivity; repeat constructor; easy.
Defined.
