(* ===== verification/Ghash.v ===== *)
(** * GHASH multiplication

    The two multiplications in GF(2^128) of the AES-GCM code: the bit-serial one
    of src/src/crypto/symmetric/aead/gcm (gcm_impl_head.h) on byte arrays, and the
    carry-less-multiply one of src/src/crypto/symmetric/aead/gcmx86
    (gcmx86_impl.h) on 128-bit registers with SIMD lanes. Both are proved to be
    the field multiplication of SP 800-38D 6.3. *)

From stdpp Require Import base numbers list option sets.
From Stdlib Require Import ZArith Lia.
From S2P Require Import Prelude Bytes Gf2 Aes.

(** ** The field

    A block is the number of its sixteen bytes, first byte most significant; its
    first bit is the coefficient of x^0 (SP 800-38D 6.3). *)

Definition bit_reverse (n : nat) (v : Z) : Z :=
  foldr (fun i acc => Z.lxor acc (if Z.testbit v (Z.of_nat i) then 2 ^ Z.of_nat (n - 1 - i) else 0)) 0 (seq 0 n).
(** Modulo x^128 + x^7 + x^2 + x + 1. *)
Definition gf128_mul (a b : Z) : Z := bit_reverse 128 (pmod 127 128 (2 ^ 128 + 0x87) (pmul 128 (bit_reverse 128 a) (bit_reverse 128 b))).

(** ** gcm_impl_head.h: one bit at a time *)

(** [for (i = 15; i > 0; i--)]: every byte reads its left neighbour before that one changes. *)
(* src/src/crypto/symmetric/aead/gcm/gcm_impl_head.h : shr1@94-99 *)
Definition shr1 (x : list Z) : list Z :=
  Z.shiftr (at_ x 0) 1 :: map (fun i => u8 (Z.lor (Z.shiftr (at_ x i) 1) (Z.shiftl (at_ x (i - 1)) 7))) (seq 1 15).

(* src/src/crypto/symmetric/aead/gcm/gcm_impl_head.h : gf_step@102-109 *)
Definition gf_step (z v : list Z) (mask : Z) : list Z * list Z :=
  let z := zip_with (fun a b => Z.lxor a (Z.land b mask)) z v in
  let lsb := u8 (- Z.land (at_ v 15) 1) in
  let v := shr1 v in
  (z, <[0%nat := Z.lxor (at_ v 0) (Z.land 0xe1 lsb)]> v).

(* src/src/crypto/symmetric/aead/gcm/gcm_impl_head.h : gcm_xor16@112-116 *)
Definition gcm_xor16 (dst src : list Z) : list Z := zip_with Z.lxor dst src.

(** The loop over the bits of [y]. *)
Definition gf_bits (y : list Z) (bits : list nat) (z v : list Z) : list Z * list Z :=
  foldl (fun '(z, v) bit => gf_step z v (u8 (- Z.land (Z.shiftr (at_ y (bit / 8)) (7 - Z.of_nat (bit mod 8))) 1))) (z, v) bits.
(* src/src/crypto/symmetric/aead/gcm/gcm_impl_head.h : gcm_gf_mul@119-128 *)
Definition gcm_gf_mul (x y : list Z) : list Z := fst (gf_bits y (seq 0 128) (replicate 16 0) x).

(** ** gcmx86_impl.h: registers

    A register is the number of its sixteen byte lanes, lane 0 least significant. *)

Definition VSHLB (a : Z) (imm : Z) : Z := Z.shiftl a (8 * imm) mod 2 ^ 128.
Definition VSHRB (a : Z) (imm : Z) : Z := Z.shiftr a (8 * imm).
(** An operation on each of the four 32-bit lanes. *)
Definition lanes (f : Z -> Z) (v : Z) : Z :=
  foldr (fun i acc => Z.lxor acc (Z.shiftl (f (Z.shiftr v (32 * Z.of_nat i) mod 2 ^ 32)) (32 * Z.of_nat i))) 0 (seq 0 4).
Definition wshl (v k : Z) : Z := lanes (fun x => Z.shiftl x k mod 2 ^ 32) v.
Definition wshr (v k : Z) : Z := lanes (fun x => Z.shiftr x k) v.

(** The instructions the code wraps, and the CPUID feature word. *)
Record cpu := mk_cpu {
  i_clmul : Z -> Z -> Z -> Z;
  i_aesenc : Z -> Z -> Z;
  i_aesenclast : Z -> Z -> Z;
  i_cpuid_ecx : Z -> Z }.

(** What the instruction set documents: PCLMULQDQ multiplies one half of each
    operand as polynomials (bit 0 of the immediate selects the first operand's
    half, bit 4 the second's); AESENC is a FIPS 197 round on the sixteen byte
    lanes, AESENCLAST one without MixColumns. *)
Definition half (v : Z) (high : bool) : Z := if high then Z.shiftr v 64 else v mod 2 ^ 64.
Record cpu_ok (M : cpu) : Prop := {
  clmul_doc : forall a b imm, 0 <= a < 2 ^ 128 -> 0 <= b < 2 ^ 128 -> i_clmul M a b imm = pmul 64 (half a (Z.testbit imm 0)) (half b (Z.testbit imm 4));
  aesenc_doc : forall s k, state_ok s -> state_ok k ->
    i_aesenc M (le_val s) (le_val k) = Z.lxor (le_val (fips_mix_columns (fips_shift_rows (fips_sub_bytes s)))) (le_val k);
  aesenclast_doc : forall s k, state_ok s -> state_ok k ->
    i_aesenclast M (le_val s) (le_val k) = Z.lxor (le_val (fips_shift_rows (fips_sub_bytes s))) (le_val k) }.

(* src/src/crypto/symmetric/aead/gcmx86/gcmx86_impl.h : gcmx86_shl1_256@52-60 *)
Definition gcmx86_shl1_256 (lo hi : Z) : Z * Z :=
  let cl := wshr lo 31 in
  let ch := wshr hi 31 in
  (Z.lor (wshl lo 1) (VSHLB cl 4), Z.lor (Z.lor (wshl hi 1) (VSHLB ch 4)) (VSHRB cl 12)).

(* src/src/crypto/symmetric/aead/gcmx86/gcmx86_impl.h : gcmx86_reduce@65-72 *)
Definition gcmx86_reduce (lo hi : Z) : Z :=
  let l := lo in
  let t := Z.lxor (Z.lxor (wshl l 31) (wshl l 30)) (wshl l 25) in
  let keep := VSHRB t 4 in
  let l := Z.lxor l (VSHLB t 12) in
  let r := Z.lxor (Z.lxor (Z.lxor (wshr l 1) (wshr l 2)) (wshr l 7)) keep in
  Z.lxor hi (Z.lxor l r).

(* src/src/crypto/symmetric/aead/gcmx86/gcmx86_impl.h : gcmx86_clmul256@75-84 *)
Definition gcmx86_clmul256 (M : cpu) (a b : Z) : Z * Z :=
  let d := i_clmul M a b 0x00 in
  let c := i_clmul M a b 0x11 in
  let ax := Z.lxor a (VSHRB a 8) in
  let bx := Z.lxor b (VSHRB b 8) in
  let e := Z.lxor (Z.lxor (i_clmul M ax bx 0x00) c) d in
  (Z.lxor d (VSHLB e 8), Z.lxor c (VSHRB e 8)).

(* src/src/crypto/symmetric/aead/gcmx86/gcmx86_impl.h : gcmx86_gfmul@123-128 *)
Definition gcmx86_gfmul (M : cpu) (a b : Z) : Z :=
  let '(lo, hi) := gcmx86_clmul256 M a b in
  let '(lo, hi) := gcmx86_shl1_256 lo hi in
  gcmx86_reduce lo hi.

(** ** Both products are bilinear *)

Lemma linear_bit_reverse n g : linear g -> linear (fun x => bit_reverse n (g x)).
Proof.
  intros Hg. apply (linear_comp (bit_reverse n)); [|done].
  apply (linear_foldr (seq 0 n) (fun i v => if Z.testbit v (Z.of_nat i) then 2 ^ Z.of_nat (n - 1 - i) else 0)). intros i. apply linear_bit.
Qed.

Lemma linear_pmod n d m g : linear g -> linear (fun x => pmod n d m (g x)).
Proof.
  intros Hg. apply (linear_comp (pmod n d m)); [|done]. clear g Hg. induction n as [|n IH]; cbn [pmod]; [apply linear_id|].
  apply (linear_comp (pmod n d m) _ IH). split; [by rewrite Z.bits_0|]. intros x y. rewrite Z.lxor_spec.
  destruct (Z.testbit x (d + Z.of_nat n)), (Z.testbit y (d + Z.of_nat n)); cbn [xorb]; [rewrite lxor_swap, Z.lxor_nilpotent, Z.lxor_0_r; done | by rewrite !Z.lxor_assoc, (Z.lxor_comm y) | by rewrite !Z.lxor_assoc | done].
Qed.

Lemma linear_lanes f g : linear f -> linear g -> linear (fun x => lanes f (g x)).
Proof.
  intros Hf Hg. apply (linear_comp (lanes f)); [|done].
  apply (linear_foldr (seq 0 4) (fun i v => Z.shiftl (f (Z.shiftr v (32 * Z.of_nat i) mod 2 ^ 32)) (32 * Z.of_nat i))). intros i.
  apply (linear_comp (fun y => Z.shiftl y (32 * Z.of_nat i))); [apply linear_shiftl|]. apply (linear_comp f); [done|].
  apply (linear_comp (fun y => y mod 2 ^ 32)); [by apply linear_mod | apply linear_shiftr].
Qed.
Lemma linear_wshl k g : linear g -> linear (fun x => wshl (g x) k).
Proof. intros Hg. apply linear_lanes; [|done]. apply (linear_comp (fun y => y mod 2 ^ 32)); [by apply linear_mod | apply linear_shiftl]. Qed.
Lemma linear_wshr k g : linear g -> linear (fun x => wshr (g x) k).
Proof. intros Hg. apply linear_lanes; [apply linear_shiftr | done]. Qed.
Lemma linear_VSHLB k g : linear g -> linear (fun x => VSHLB (g x) k).
Proof.
  intros Hg. apply (linear_comp (fun y => VSHLB y k)); [|done]. apply (linear_comp (fun y => y mod 2 ^ 128)); [by apply linear_mod | apply linear_shiftl].
Qed.
Lemma linear_VSHRB k g : linear g -> linear (fun x => VSHRB (g x) k).
Proof. intros Hg. apply (linear_comp (fun y => VSHRB y k)); [apply linear_shiftr | done]. Qed.
Lemma linear_half h g : linear g -> linear (fun x => half (g x) h).
Proof. intros Hg. apply (linear_comp (fun y => half y h)); [|done]. destruct h; [apply linear_shiftr | by apply linear_mod]. Qed.
Lemma linear_pmul_left n c g : linear g -> linear (fun x => pmul n (g x) c).
Proof. intros Hg. apply (linear_comp (fun y => pmul n y c)); [apply linear_pmul_l | done]. Qed.
Lemma linear_pmul_right n c g : linear g -> linear (fun x => pmul n c (g x)).
Proof. intros Hg. apply (linear_comp (fun y => pmul n c y)); [apply linear_pmul_r | done]. Qed.

Ltac linear_tac := repeat match goal with
  | |- linear (fun x => x) => exact linear_id
  | |- linear (fun x => Z.lxor (@?f x) (@?g x)) => apply (linear_lxor f g)
  | |- linear (fun x => wshl (@?g x) ?k) => apply (linear_wshl k g)
  | |- linear (fun x => wshr (@?g x) ?k) => apply (linear_wshr k g)
  | |- linear (fun x => VSHLB (@?g x) ?k) => apply (linear_VSHLB k g)
  | |- linear (fun x => VSHRB (@?g x) ?k) => apply (linear_VSHRB k g)
  | |- linear (fun x => half (@?g x) ?h) => apply (linear_half h g)
  | |- linear (fun x => bit_reverse ?n (@?g x)) => apply (linear_bit_reverse n g)
  | |- linear (fun x => pmod ?n ?d ?m (@?g x)) => apply (linear_pmod n d m g)
  | |- linear (fun x => pmul ?n (@?g x) ?c) => apply (linear_pmul_left n c g)
  | |- linear (fun x => pmul ?n ?c (@?g x)) => apply (linear_pmul_right n c g)
  end.

(** The register product with the documented instruction, the disjoint [|] as sums. *)
Definition reg_lo (a b : Z) : Z :=
  let d := pmul 64 (half a false) (half b false) in let c := pmul 64 (half a true) (half b true) in
  let e := Z.lxor (Z.lxor (pmul 64 (half (Z.lxor a (VSHRB a 8)) false) (half (Z.lxor b (VSHRB b 8)) false)) c) d in Z.lxor d (VSHLB e 8).
Definition reg_hi (a b : Z) : Z :=
  let d := pmul 64 (half a false) (half b false) in let c := pmul 64 (half a true) (half b true) in
  let e := Z.lxor (Z.lxor (pmul 64 (half (Z.lxor a (VSHRB a 8)) false) (half (Z.lxor b (VSHRB b 8)) false)) c) d in Z.lxor c (VSHRB e 8).
Definition reg_fold (lo hi : Z) : Z :=
  gcmx86_reduce (Z.lxor (wshl lo 1) (VSHLB (wshr lo 31) 4)) (Z.lxor (Z.lxor (wshl hi 1) (VSHLB (wshr hi 31) 4)) (VSHRB (wshr lo 31) 12)).
Definition reg_mul (a b : Z) : Z := reg_fold (reg_lo a b) (reg_hi a b).

Lemma reg_mul_linear_l b : linear (fun a => reg_mul a b).
Proof. unfold reg_mul, reg_fold, gcmx86_reduce, reg_lo, reg_hi. cbn zeta. linear_tac. Qed.
Lemma reg_mul_linear_r a : linear (fun b => reg_mul a b).
Proof. unfold reg_mul, reg_fold, gcmx86_reduce, reg_lo, reg_hi. cbn zeta. linear_tac. Qed.
Lemma gf128_mul_linear_l b : linear (fun a => gf128_mul a b).
Proof. unfold gf128_mul. linear_tac. Qed.
Lemma gf128_mul_linear_r a : linear (fun b => gf128_mul a b).
Proof. unfold gf128_mul. linear_tac. Qed.

(** Bilinear maps that agree on pairs of bits agree. *)
Lemma bilinear_ext n (f g : Z -> Z -> Z) : (forall b, linear (fun a => f a b)) -> (forall a, linear (fun b => f a b)) ->
  (forall b, linear (fun a => g a b)) -> (forall a, linear (fun b => g a b)) ->
  (forall i j, (i < n)%nat -> (j < n)%nat -> f (2 ^ Z.of_nat i) (2 ^ Z.of_nat j) = g (2 ^ Z.of_nat i) (2 ^ Z.of_nat j)) ->
  forall a b, 0 <= a < 2 ^ Z.of_nat n -> 0 <= b < 2 ^ Z.of_nat n -> f a b = g a b.
Proof.
  intros Fl Fr Gl Gr H a b Ha Hb. apply (linear_ext n (fun a => f a b) (fun a => g a b)); try done. intros i Hi.
  apply (linear_ext n (fun b => f (2 ^ Z.of_nat i) b) (fun b => g (2 ^ Z.of_nat i) b)); try done. intros j Hj. by apply H.
Qed.

(** *** On single bits: the block of x^m *)

Lemma bit_pow k i : 0 <= k -> Z.testbit (2 ^ k) i = bool_decide (i = k).
Proof. intros Hk. case_bool_decide as E; [subst; by apply Z.pow2_bits_true | by apply Z.pow2_bits_false]. Qed.

(** A sum with one term. *)
Lemma sum_one (h : nat -> Z) j n : (j < n)%nat ->
  foldr (fun i acc => Z.lxor acc (if Z.testbit (2 ^ Z.of_nat j) (Z.of_nat i) then h i else 0)) 0 (seq 0 n) = h j.
Proof.
  intros Hj. assert (H : forall l, NoDup l -> foldr (fun i acc => Z.lxor acc (if Z.testbit (2 ^ Z.of_nat j) (Z.of_nat i) then h i else 0)) 0 l = if bool_decide (j ∈ l) then h j else 0).
  { induction 1 as [|i l Hi _ IH]; [done|]. cbn [foldr]. rewrite IH, bit_pow by lia. destruct (decide (i = j)) as [->|Hne].
    - rewrite (bool_decide_false (j ∈ l)), !bool_decide_true by (done || set_solver). by rewrite Z.lxor_0_l.
    - rewrite (bool_decide_false (Z.of_nat i = Z.of_nat j)) by lia. rewrite Z.lxor_0_r.
      replace (bool_decide (j ∈ i :: l)) with (bool_decide (j ∈ l)); [done|]. apply bool_decide_ext. set_solver. }
  rewrite H by apply NoDup_seq. rewrite bool_decide_true; [done|]. apply elem_of_seq. lia.
Qed.

Lemma pmul_bits n i j : (j < n)%nat -> pmul n (2 ^ Z.of_nat i) (2 ^ Z.of_nat j) = 2 ^ Z.of_nat (i + j).
Proof.
  intros Hj. unfold pmul. rewrite (sum_one (fun k => Z.shiftl (2 ^ Z.of_nat i) (Z.of_nat k))) by done.
  rewrite Z.shiftl_mul_pow2, <- Z.pow_add_r by lia. f_equal. lia.
Qed.
Lemma bit_reverse_bit n i : (i < n)%nat -> bit_reverse n (2 ^ Z.of_nat i) = 2 ^ Z.of_nat (n - 1 - i).
Proof. intros Hi. exact (sum_one (fun k => 2 ^ Z.of_nat (n - 1 - k)) i n Hi). Qed.

Definition xpow (m : nat) : Z := bit_reverse 128 (pmod 127 128 (2 ^ 128 + 0x87) (2 ^ Z.of_nat m)).

Lemma gf128_mul_bits i j : (i < 128)%nat -> (j < 128)%nat -> gf128_mul (2 ^ Z.of_nat i) (2 ^ Z.of_nat j) = xpow (254 - (i + j)).
Proof. intros Hi Hj. unfold gf128_mul, xpow. rewrite !bit_reverse_bit, pmul_bits by lia. do 4 f_equal. lia. Qed.

(** *** The register product *)

Lemma half_bit i h : (i < 128)%nat -> half (2 ^ Z.of_nat i) h =
  if h then if (i <? 64)%nat then 0 else 2 ^ Z.of_nat (i - 64) else if (i <? 64)%nat then 2 ^ Z.of_nat i else 0.
Proof.
  intros Hi. unfold half. assert (Hs : forall k, (i < k)%nat -> 2 ^ Z.of_nat i < 2 ^ Z.of_nat k) by (intros; apply Z.pow_lt_mono_r; lia).
  destruct h, (Nat.ltb_spec i 64) as [H|H].
  - rewrite Z.shiftr_div_pow2 by lia. apply Z.div_small. specialize (Hs 64%nat H). lia.
  - rewrite Z.shiftr_div_pow2 by lia. replace (Z.of_nat i) with (Z.of_nat (i - 64) + 64) by lia. rewrite Z.pow_add_r by lia. by rewrite Z.div_mul.
  - apply Z.mod_small. specialize (Hs 64%nat H). lia.
  - replace (Z.of_nat i) with (Z.of_nat (i - 64) + 64) by lia. rewrite Z.pow_add_r by lia. by apply Z.mod_mul.
Qed.

Lemma mod64 k : (k < 128)%nat -> (k mod 64 = if k <? 64 then k else k - 64)%nat.
Proof.
  intros Hk. destruct (Nat.ltb_spec k 64); [by apply Nat.mod_small|]. replace k with ((k - 64) + 1 * 64)%nat at 1 by lia. rewrite Nat.Div0.mod_add. apply Nat.mod_small. lia.
Qed.

Lemma fold_bit i : (i < 128)%nat -> half (Z.lxor (2 ^ Z.of_nat i) (VSHRB (2 ^ Z.of_nat i) 8)) false = 2 ^ Z.of_nat (i mod 64).
Proof.
  intros Hi. rewrite (proj2 (linear_half false _ linear_id)). change (VSHRB ?v 8) with (half v true). rewrite !half_bit by done.
  destruct (Nat.ltb_spec i 64).
  - change (half 0 false) with 0. rewrite Z.lxor_0_r, Nat.mod_small by done. done.
  - rewrite Z.lxor_0_l, half_bit by lia. rewrite mod64 by done. destruct (Nat.ltb_spec i 64); [lia|].
    destruct (Nat.ltb_spec (i - 64) 64); [done | lia].
Qed.

Lemma VSHLB_bit k : (k < 128)%nat -> VSHLB (2 ^ Z.of_nat k) 8 = if (k <? 64)%nat then 2 ^ Z.of_nat (k + 64) else 0.
Proof.
  intros Hk. unfold VSHLB. rewrite Z.shiftl_mul_pow2, <- Z.pow_add_r by lia. destruct (Nat.ltb_spec k 64).
  - rewrite Z.mod_small; [f_equal; lia|]. split; [lia|]. apply Z.pow_lt_mono_r; lia.
  - replace (Z.of_nat k + 8 * 8) with (Z.of_nat (k - 64) + 128) by lia. rewrite Z.pow_add_r by lia. by apply Z.mod_mul.
Qed.

(** Karatsuba: the 256-bit product of two bits. *)
Lemma reg_prod_bits i j : (i < 128)%nat -> (j < 128)%nat ->
  reg_lo (2 ^ Z.of_nat i) (2 ^ Z.of_nat j) = (if (i + j <? 128)%nat then 2 ^ Z.of_nat (i + j) else 0) /\
  reg_hi (2 ^ Z.of_nat i) (2 ^ Z.of_nat j) = (if (i + j <? 128)%nat then 0 else 2 ^ Z.of_nat (i + j - 128)).
Proof.
  intros Hi Hj.
  assert (P0 : forall a, pmul 64 0 a = 0) by (intros; exact (proj1 (linear_pmul_l 64 a))). assert (P1 : forall a, pmul 64 a 0 = 0) by (intros; exact (proj1 (linear_pmul_r 64 a))).
  unfold reg_lo, reg_hi. cbn zeta. rewrite !fold_bit, !half_bit by done. rewrite pmul_bits, !mod64 by (try apply Nat.mod_upper_bound; lia).
  destruct (Nat.ltb_spec i 64), (Nat.ltb_spec j 64); rewrite ?P0, ?P1, ?pmul_bits by lia; rewrite ?Z.lxor_0_r, ?Z.lxor_0_l, ?Z.lxor_nilpotent.
  - change (VSHLB 0 8) with 0. change (VSHRB 0 8) with 0. rewrite Z.lxor_0_r. destruct (Nat.ltb_spec (i + j) 128); [done | lia].
  - replace (i + (j - 64))%nat with (i + j - 64)%nat by lia. rewrite VSHLB_bit by lia. change (VSHRB ?v 8) with (half v true). rewrite half_bit by lia.
    destruct (Nat.ltb_spec (i + j) 128), (Nat.ltb_spec (i + j - 64) 64); try lia; split; try done; do 2 f_equal; lia.
  - replace (i - 64 + j)%nat with (i + j - 64)%nat by lia. rewrite VSHLB_bit by lia. change (VSHRB ?v 8) with (half v true). rewrite half_bit by lia.
    destruct (Nat.ltb_spec (i + j) 128), (Nat.ltb_spec (i + j - 64) 64); try lia; split; try done; do 2 f_equal; lia.
  - change (VSHLB 0 8) with 0. change (VSHRB 0 8) with 0. destruct (Nat.ltb_spec (i + j) 128); [lia|]. rewrite Z.lxor_0_r. split; [done|]. do 2 f_equal. lia.
Qed.

Lemma reg_fold_bits k : (k < 255)%nat -> reg_fold (if (k <? 128)%nat then 2 ^ Z.of_nat k else 0) (if (k <? 128)%nat then 0 else 2 ^ Z.of_nat (k - 128)) = xpow (254 - k).
Proof.
  intros Hk. assert (H : forallb (fun k => reg_fold (if (k <? 128)%nat then 2 ^ Z.of_nat k else 0) (if (k <? 128)%nat then 0 else 2 ^ Z.of_nat (k - 128)) =? xpow (254 - k)) (seq 0 255) = true) by (vm_compute; reflexivity).
  rewrite forallb_forall in H. apply Z.eqb_eq, H, in_seq. lia.
Qed.

Lemma reg_mul_gf a b : 0 <= a < 2 ^ 128 -> 0 <= b < 2 ^ 128 -> reg_mul a b = gf128_mul a b.
Proof.
  apply (bilinear_ext 128); [apply reg_mul_linear_l | apply reg_mul_linear_r | apply gf128_mul_linear_l | apply gf128_mul_linear_r|].
  intros i j Hi Hj. rewrite gf128_mul_bits by done. unfold reg_mul.
  destruct (reg_prod_bits i j Hi Hj) as [-> ->]. apply reg_fold_bits. lia.
Qed.

(** *** The code's register product is it *)

Lemma in128 x : Z.shiftr x 128 = 0 <-> 0 <= x < 2 ^ 128.
Proof. rewrite Z.shiftr_div_pow2 by lia. Z.to_euclidean_division_equations. lia. Qed.

Lemma lxor_128 x y : 0 <= x < 2 ^ 128 -> 0 <= y < 2 ^ 128 -> 0 <= Z.lxor x y < 2 ^ 128.
Proof. rewrite <- !in128. intros Hx Hy. by rewrite Z.shiftr_lxor, Hx, Hy. Qed.

Lemma bit_reverse_128 v : 0 <= bit_reverse 128 v < 2 ^ 128.
Proof.
  unfold bit_reverse. assert (H : forall l, 0 <= foldr (fun i acc => Z.lxor acc (if Z.testbit v (Z.of_nat i) then 2 ^ Z.of_nat (128 - 1 - i) else 0)) 0 l < 2 ^ 128).
  { induction l as [|i l IH]; cbn [foldr]; [lia|]. apply lxor_128; [done|]. destruct (Z.testbit v (Z.of_nat i)); [|lia]. split; [lia|]. apply Z.pow_lt_mono_r; lia. }
  apply H.
Qed.
Lemma gf128_mul_range a b : 0 <= gf128_mul a b < 2 ^ 128.
Proof. apply bit_reverse_128. Qed.

Lemma VSHRB_range v k : 0 <= k -> 0 <= v < 2 ^ 128 -> 0 <= VSHRB v k < 2 ^ 128.
Proof. intros Hk Hv. unfold VSHRB. rewrite Z.shiftr_div_pow2 by lia. split; [apply Z.div_pos; lia|]. apply Z.div_lt_upper_bound; [lia|]. assert (1 <= 2 ^ (8 * k)) by (apply (Z.pow_le_mono_r 2 0); lia). nia. Qed.

Lemma linear_shr128 (f : Z -> Z) : linear f -> linear (fun x => Z.shiftr (f x) 128).
Proof. intros Hf. apply (linear_comp (fun y => Z.shiftr y 128)); [apply linear_shiftr | done]. Qed.

Lemma reg_prod_range a b : 0 <= a < 2 ^ 128 -> 0 <= b < 2 ^ 128 -> 0 <= reg_lo a b < 2 ^ 128 /\ 0 <= reg_hi a b < 2 ^ 128.
Proof.
  intros Ha Hb. rewrite <- !in128. split.
  - apply (bilinear_ext 128 (fun a b => Z.shiftr (reg_lo a b) 128) (fun _ _ => 0)); try done; try (intros; apply linear_zero); [intros c; apply linear_shr128; unfold reg_lo; cbn zeta; linear_tac..|].
    intros i j Hi Hj. rewrite (proj1 (reg_prod_bits i j Hi Hj)). apply in128. destruct (Nat.ltb_spec (i + j) 128); [|lia]. split; [lia|]. apply Z.pow_lt_mono_r; lia.
  - apply (bilinear_ext 128 (fun a b => Z.shiftr (reg_hi a b) 128) (fun _ _ => 0)); try done; try (intros; apply linear_zero); [intros c; apply linear_shr128; unfold reg_hi; cbn zeta; linear_tac..|].
    intros i j Hi Hj. rewrite (proj2 (reg_prod_bits i j Hi Hj)). apply in128. destruct (Nat.ltb_spec (i + j) 128); [lia|]. split; [lia|]. apply Z.pow_lt_mono_r; lia.
Qed.

(** Disjoint bits: [|] is the sum. *)
Lemma lor_disjoint A B m : Z.land A m = 0 -> Z.land B m = B -> Z.lor A B = Z.lxor A B.
Proof.
  intros HA HB. symmetry. apply Z.lxor_lor. rewrite <- HB, (Z.land_comm B), Z.land_assoc, HA. apply Z.land_0_l.
Qed.

Lemma land_linear_ext (f : Z -> Z) m (same : bool) : linear f ->
  forallb (fun i => Z.land (f (2 ^ Z.of_nat i)) m =? if same then f (2 ^ Z.of_nat i) else 0) (seq 0 128) = true ->
  forall v, 0 <= v < 2 ^ 128 -> Z.land (f v) m = if same then f v else 0.
Proof.
  intros Hf H v Hv. apply (linear_ext 128 (fun v => Z.land (f v) m) (fun v => if same then f v else 0)); [|by destruct same|..|done].
  - apply (linear_comp (fun y => Z.land y m)); [apply linear_land | done].
  - intros i Hi. rewrite forallb_forall in H. apply Z.eqb_eq, H, in_seq. lia.
Qed.

Definition LOW_BITS : Z := 2 ^ 96 + 2 ^ 64 + 2 ^ 32 + 1.

Lemma shl1_lor v w : 0 <= v < 2 ^ 128 -> 0 <= w < 2 ^ 128 -> Z.lor (wshl v 1) (VSHLB (wshr w 31) 4) = Z.lxor (wshl v 1) (VSHLB (wshr w 31) 4).
Proof.
  intros Hv Hw. apply (lor_disjoint _ _ LOW_BITS).
  - apply (land_linear_ext (fun v => wshl v 1) LOW_BITS false); [linear_tac | vm_compute; reflexivity | assumption].
  - apply (land_linear_ext (fun w => VSHLB (wshr w 31) 4) LOW_BITS true); [linear_tac | vm_compute; reflexivity | assumption].
Qed.

Lemma shl1_lor3 v w u : 0 <= v < 2 ^ 128 -> 0 <= w < 2 ^ 128 -> 0 <= u < 2 ^ 128 ->
  Z.lor (Z.lxor (wshl v 1) (VSHLB (wshr w 31) 4)) (VSHRB (wshr u 31) 12) = Z.lxor (Z.lxor (wshl v 1) (VSHLB (wshr w 31) 4)) (VSHRB (wshr u 31) 12).
Proof.
  intros Hv Hw Hu. apply (lor_disjoint _ _ 1).
  - rewrite (proj2 (linear_land 1)).
    assert (A : Z.land (wshl v 1) 1 = 0) by (apply (land_linear_ext (fun v => wshl v 1) 1 false); [linear_tac | vm_compute; reflexivity | assumption]).
    assert (B : Z.land (VSHLB (wshr w 31) 4) 1 = 0) by (apply (land_linear_ext (fun w => VSHLB (wshr w 31) 4) 1 false); [linear_tac | vm_compute; reflexivity | assumption]).
    by rewrite A, B.
  - apply (land_linear_ext (fun u => VSHRB (wshr u 31) 12) 1 true); [linear_tac | vm_compute; reflexivity | assumption].
Qed.

Lemma clmul_spec M a b h : cpu_ok M -> 0 <= a < 2 ^ 128 -> 0 <= b < 2 ^ 128 ->
  i_clmul M a b (if h : bool then 0x11 else 0x00) = pmul 64 (half a h) (half b h).
Proof. intros HM Ha Hb. rewrite (clmul_doc M HM) by done. by destruct h. Qed.

Lemma gcmx86_clmul256_spec M a b : cpu_ok M -> 0 <= a < 2 ^ 128 -> 0 <= b < 2 ^ 128 -> gcmx86_clmul256 M a b = (reg_lo a b, reg_hi a b).
Proof.
  intros HM Ha Hb. pose proof (lxor_128 a _ Ha (VSHRB_range a 8 ltac:(lia) Ha)) as Hax. pose proof (lxor_128 b _ Hb (VSHRB_range b 8 ltac:(lia) Hb)) as Hbx.
  unfold gcmx86_clmul256, reg_lo, reg_hi. rewrite (clmul_spec M a b false HM Ha Hb), (clmul_spec M a b true HM Ha Hb), (clmul_spec M _ _ false HM Hax Hbx). reflexivity.
Qed.

Lemma gcmx86_gfmul_spec M a b : cpu_ok M -> 0 <= a < 2 ^ 128 -> 0 <= b < 2 ^ 128 -> gcmx86_gfmul M a b = gf128_mul a b.
Proof.
  intros HM Ha Hb. rewrite <- reg_mul_gf by done. destruct (reg_prod_range a b Ha Hb) as [Hlo Hhi].
  unfold gcmx86_gfmul. rewrite gcmx86_clmul256_spec by done. unfold reg_mul. generalize dependent (reg_lo a b). generalize dependent (reg_hi a b). intros hi Hhi lo Hlo.
  unfold gcmx86_shl1_256, reg_fold. rewrite (shl1_lor lo lo), (shl1_lor hi hi), shl1_lor3 by done. reflexivity.
Qed.

(** *** The bit-serial product *)

Lemma be_val_lxor a : forall b, bytes_ok a -> bytes_ok b -> length a = length b -> be_val (zip_with Z.lxor a b) = Z.lxor (be_val a) (be_val b).
Proof.
  induction a as [|x a IH]; intros [|y b] Ha Hb Hl; try done. cbn [zip_with]. apply bytes_ok_cons in Ha as [Hx Ha]. apply bytes_ok_cons in Hb as [Hy Hb]. injection Hl as Hl.
  rewrite !be_val_cons, IH by done. assert (zlen (zip_with Z.lxor a b) = zlen a /\ zlen b = zlen a) as [-> ->] by (unfold zlen; rewrite length_zip_with; lia).
  assert (Hd : forall x (l : list Z), bytes_ok l -> zlen l = zlen a -> x * 256 ^ zlen a + be_val l = Z.lxor (Z.shiftl x (8 * zlen a)) (be_val l)).
  { intros u l Hok E. pose proof (be_val_bound l Hok) as Hv. rewrite E in Hv. pose proof (zlen_nonneg a). change 256 with (2 ^ 8) in *. rewrite <- Z.pow_mul_r in * by lia. rewrite Z.lxor_lor.
    - rewrite lor_shiftl by (done || lia). done.
    - apply Z.bits_inj'. intros i Hi. rewrite Z.land_spec, Z.bits_0. destruct (decide (i < 8 * zlen a)); [by rewrite Z.shiftl_spec_low by lia|].
      rewrite (testbit_high _ i (8 * zlen a) Hv) by lia. apply andb_false_r. }
  rewrite (Hd x a), (Hd y b) by (done || unfold zlen; lia).
  assert (Hz : bytes_ok (zip_with Z.lxor a b)).
  { clear -Ha Hb. revert b Hb. induction a as [|u a IH]; intros [|v b] Hb; try apply Forall_nil_2. cbn [zip_with]. apply bytes_ok_cons in Ha as [? ?]. apply bytes_ok_cons in Hb as [? ?].
    apply bytes_ok_cons. split; [by apply lxor_u8 | by apply IH]. }
  rewrite <- IH by done. rewrite (Hd (Z.lxor x y) (zip_with Z.lxor a b)) by (try done; unfold zlen; rewrite length_zip_with; lia).
  rewrite Z.shiftl_lxor, IH by done. apply lxor_swap.
Qed.

(** A block's sixteen bytes from its number. *)
Definition block (v : Z) : list Z := be_bytes 16 v.
Lemma block_ok v : state_ok (block v).
Proof. split; [apply be_bytes_ok | apply length_be_bytes]. Qed.
Lemma block_val l : state_ok l -> block (be_val l) = l /\ 0 <= be_val l < 2 ^ 128.
Proof.
  intros [Hb Hl]. unfold block. split; [rewrite <- Hl; by apply be_bytes_val|]. pose proof (be_val_bound l Hb) as H. unfold zlen in H. rewrite Hl in H. exact H.
Qed.
Lemma val_block v : 0 <= v < 2 ^ 128 -> be_val (block v) = v.
Proof. intros Hv. unfold block. rewrite be_val_bytes by lia. apply Z.mod_small. exact Hv. Qed.

Lemma shr1_spec x : state_ok x -> state_ok (shr1 x) /\ be_val (shr1 x) = Z.shiftr (be_val x) 1.
Proof.
  intros [Hx Hl]. do 16 (destruct x as [|? x]; [done|]). destruct x; [|done]. clear Hl.
  repeat (apply bytes_ok_cons in Hx as [? Hx]). clear Hx.
  assert (E : forall a b, is_u8 a -> is_u8 b -> u8 (Z.lor (Z.shiftr a 1) (Z.shiftl b 7)) = a / 2 + (b mod 2) * 128).
  { unfold is_u8, u8. intros a b Ha Hb. rewrite Z.lor_comm, lor_shiftl, Z.shiftr_div_pow2 by (rewrite ?Z.shiftr_div_pow2; Z.to_euclidean_division_equations; lia).
    Z.to_euclidean_division_equations. lia. }
  unfold shr1, at_. cbn [seq map nth Nat.sub]. rewrite !E by done. unfold is_u8 in *. split.
  - split; [|done]. rewrite Z.shiftr_div_pow2 by lia. repeat (apply bytes_ok_cons; split; [unfold is_u8; Z.to_euclidean_division_equations; lia|]). apply Forall_nil_2.
  - rewrite !Z.shiftr_div_pow2 by lia. unfold be_val. cbn [fold_left]. change (2 ^ 1) with 2. clear E. Z.to_euclidean_division_equations. lia.
Qed.

(** Multiplying by x. *)
Definition xtimes (v : Z) : Z := Z.lxor (Z.shiftr v 1) (if Z.testbit v 0 then Z.shiftl 0xe1 120 else 0).

Lemma last_byte l : state_ok l -> Z.land (at_ l 15) 1 = Z.b2z (Z.testbit (be_val l) 0).
Proof.
  intros [Hx Hl]. do 16 (destruct l as [|? l]; [done|]). destruct l; [|done]. unfold at_. cbn [nth]. change 1 with (Z.ones 1) at 1. rewrite Z.land_ones, Z.bit0_mod by lia.
  unfold be_val. cbn [fold_left]. change (2 ^ 1) with 2. Z.to_euclidean_division_equations. lia.
Qed.

Lemma be_bytes_at n : forall v i, (i < n)%nat -> at_ (be_bytes n v) i = (v / 256 ^ Z.of_nat (n - 1 - i)) mod 256.
Proof.
  induction n as [|n IH]; intros v i Hi; [lia|]. rewrite be_bytes_cons. unfold at_. destruct i as [|i]; cbn [nth]; [do 3 f_equal; lia|].
  change (nth i (be_bytes n v) 0) with (at_ (be_bytes n v) i). rewrite IH by lia. do 4 f_equal. lia.
Qed.

(** Bit [bit] of a block, the first one most significant. *)
Lemma block_bit y bit : state_ok y -> (bit < 128)%nat ->
  Z.land (Z.shiftr (at_ y (bit / 8)) (7 - Z.of_nat (bit mod 8))) 1 = Z.b2z (Z.testbit (be_val y) (127 - Z.of_nat bit)).
Proof.
  intros Hy Hb. pose proof (Nat.div_mod_eq bit 8) as Ed. pose proof (Nat.mod_upper_bound bit 8 ltac:(lia)) as Hr.
  rewrite <- (proj1 (block_val y Hy)) at 1. unfold block. rewrite be_bytes_at by lia.
  change 1 with (Z.ones 1) at 1. rewrite Z.land_ones by lia. change (2 ^ 1) with 2. rewrite <- Z.bit0_mod. f_equal. rewrite Z.shiftr_spec by lia. change 256 with (2 ^ 8) at 2.
  rewrite Z.mod_pow2_bits_low by lia. change 256 with (2 ^ 8). rewrite <- Z.pow_mul_r, Z.div_pow2_bits by lia. f_equal. lia.
Qed.

Lemma mask_of b : u8 (- Z.b2z b) = if b then 255 else 0.
Proof. by destruct b. Qed.

Lemma zip_masked z : forall v (b : bool), bytes_ok v -> length z = length v ->
  zip_with (fun x y => Z.lxor x (Z.land y (if b then 255 else 0))) z v = if b then zip_with Z.lxor z v else z.
Proof.
  induction z as [|x z IH]; intros [|y v] b Hv Hl; try done; [by destruct b|]. apply bytes_ok_cons in Hv as [Hy Hv]. injection Hl as Hl. cbn [zip_with]. rewrite IH by done.
  destruct b; [by rewrite land_255, Z.mod_small | by rewrite Z.land_0_r, Z.lxor_0_r].
Qed.

Lemma xor_first w c : state_ok w -> is_u8 c ->
  state_ok (<[0%nat := Z.lxor (at_ w 0) c]> w) /\ be_val (<[0%nat := Z.lxor (at_ w 0) c]> w) = Z.lxor (be_val w) (Z.shiftl c 120).
Proof.
  intros [Hw Hl] Hc. assert (E : <[0%nat := Z.lxor (at_ w 0) c]> w = zip_with Z.lxor w (c :: replicate 15 0)).
  { clear Hw. do 16 (destruct w as [|? w]; [done|]). destruct w; [|done]. cbn [replicate zip_with]. rewrite !Z.lxor_0_r. done. }
  assert (Hz : bytes_ok (c :: replicate 15 0)) by (apply bytes_ok_cons; split; [done | apply Forall_replicate; unfold is_u8; lia]).
  rewrite E. split; [split; [by apply zip_lxor_ok | rewrite length_zip_with, Hl; done]|]. rewrite be_val_lxor by done. f_equal.
  rewrite be_val_cons. change (be_val (replicate 15 0)) with 0. change (zlen (replicate 15 0)) with 15. rewrite Z.shiftl_mul_pow2 by lia. change (256 ^ 15) with (2 ^ 120). lia.
Qed.

Lemma gf_step_spec z v (b : bool) : state_ok z -> state_ok v ->
  let r := gf_step z v (if b then 255 else 0) in
  state_ok (fst r) /\ state_ok (snd r) /\ be_val (fst r) = Z.lxor (be_val z) (if b then be_val v else 0) /\ be_val (snd r) = xtimes (be_val v).
Proof.
  intros [Hz Lz] [Hv Lv]. unfold gf_step. cbn [fst snd]. rewrite zip_masked by congruence. rewrite last_byte, mask_of by done.
  destruct (shr1_spec v ltac:(done)) as [Hs Es].
  set (c := Z.land 0xe1 (if Z.testbit (be_val v) 0 then 255 else 0)).
  assert (Hc : is_u8 c) by (unfold c, is_u8; destruct (Z.testbit (be_val v) 0); vm_compute; split; congruence).
  destruct (xor_first (shr1 v) c Hs Hc) as [Hx Ex].
  split; [destruct b; [split; [by apply zip_lxor_ok | rewrite length_zip_with; lia] | done]|].
  split; [exact Hx|]. split; [destruct b; [apply be_val_lxor; congruence || done | by rewrite Z.lxor_0_r]|].
  rewrite Ex, Es. unfold xtimes, c. f_equal. by destruct (Z.testbit (be_val v) 0).
Qed.

(** The loop, on numbers: [v] is multiplied by x at each of [n] bits from bit [s]. *)
Fixpoint serial_sum (n s : nat) (B v : Z) : Z :=
  match n with O => 0 | S n' => Z.lxor (if Z.testbit B (127 - Z.of_nat s) then v else 0) (serial_sum n' (S s) B (xtimes v)) end.

Lemma gf_loop_spec y : state_ok y -> forall n s z v, (s + n <= 128)%nat -> state_ok z -> state_ok v ->
  state_ok (fst (gf_bits y (seq s n) z v)) /\ be_val (fst (gf_bits y (seq s n) z v)) = Z.lxor (be_val z) (serial_sum n s (be_val y) (be_val v)).
Proof.
  intros Hy. induction n as [|n IH]; intros s z v Hn Hz Hv; [cbn; by rewrite Z.lxor_0_r|]. cbn [seq]. unfold gf_bits. cbn [foldl]. rewrite block_bit, mask_of by (done || lia).
  destruct (gf_step_spec z v (Z.testbit (be_val y) (127 - Z.of_nat s)) Hz Hv) as (Hz' & Hv' & Ez & Ev). destruct (gf_step z v _) as [z' v']. cbn [fst snd] in *. fold (gf_bits y (seq (S s) n) z' v').
  destruct (IH (S s) z' v' ltac:(lia) Hz' Hv') as [Ho Eo]. split; [exact Ho|]. rewrite Eo, Ez, Ev, Z.lxor_assoc. reflexivity.
Qed.

Lemma linear_xtimes : linear xtimes.
Proof. apply (linear_lxor (fun v => Z.shiftr v 1)); [apply linear_shiftr | apply (linear_bit _ 0)]. Qed.
Lemma linear_serial_v B n : forall s, linear (serial_sum n s B).
Proof.
  induction n as [|n IH]; intros s; [apply linear_zero|]. apply (linear_lxor (fun v => if Z.testbit B (127 - Z.of_nat s) then v else 0)); [apply (linear_if _ (fun v => v)), linear_id|].
  apply (linear_comp (serial_sum n (S s) B)); [apply IH | apply linear_xtimes].
Qed.
Lemma linear_serial_B n : forall s v, linear (fun B => serial_sum n s B v).
Proof.
  induction n as [|n IH]; intros s v; [apply linear_zero|]. apply (linear_lxor (fun B => if Z.testbit B (127 - Z.of_nat s) then v else 0)); [apply linear_bit | apply IH].
Qed.

Lemma xtimes_xpow m : (m < 254)%nat -> xtimes (xpow m) = xpow (S m).
Proof.
  intros Hm. assert (H : forallb (fun m => xtimes (xpow m) =? xpow (S m)) (seq 0 254) = true) by (vm_compute; reflexivity).
  rewrite forallb_forall in H. apply Z.eqb_eq, H, in_seq. lia.
Qed.
Lemma xpow_low i : (i < 128)%nat -> 2 ^ Z.of_nat i = xpow (127 - i).
Proof.
  intros Hi. assert (H : forallb (fun i => 2 ^ Z.of_nat i =? xpow (127 - i)) (seq 0 128) = true) by (vm_compute; reflexivity).
  rewrite forallb_forall in H. apply Z.eqb_eq, H, in_seq. lia.
Qed.

Lemma serial_bits n : forall s j m, (s + n <= 128)%nat -> (j < 128)%nat -> (m + n <= 255)%nat ->
  serial_sum n s (2 ^ Z.of_nat j) (xpow m) = if bool_decide (s <= 127 - j < s + n)%nat then xpow (m + (127 - j - s)) else 0.
Proof.
  induction n as [|n IH]; intros s j m Hs Hj Hm; cbn [serial_sum]; [by rewrite bool_decide_false by lia|]. rewrite bit_pow by lia.
  destruct (decide (s = 127 - j)%nat) as [E|E].
  - rewrite !bool_decide_true by lia. destruct n as [|n]; [cbn [serial_sum]; rewrite Z.lxor_0_r; f_equal; lia|].
    rewrite xtimes_xpow, IH, bool_decide_false, Z.lxor_0_r by lia. f_equal. lia.
  - rewrite (bool_decide_false (127 - Z.of_nat s = Z.of_nat j)) by lia. rewrite Z.lxor_0_l. destruct n as [|n]; [cbn [serial_sum]; by rewrite bool_decide_false by lia|].
    rewrite xtimes_xpow, IH by lia. do 2 case_bool_decide; try lia. f_equal. lia.
Qed.

Lemma serial_gf A B : 0 <= A < 2 ^ 128 -> 0 <= B < 2 ^ 128 -> serial_sum 128 0 B A = gf128_mul A B.
Proof.
  apply (bilinear_ext 128 (fun A B => serial_sum 128 0 B A)); [intros; apply linear_serial_v | intros; apply linear_serial_B | apply gf128_mul_linear_l | apply gf128_mul_linear_r|].
  intros i j Hi Hj. rewrite gf128_mul_bits, (xpow_low i), serial_bits, bool_decide_true by lia. f_equal. lia.
Qed.

Lemma gcm_gf_mul_spec x y : state_ok x -> state_ok y -> gcm_gf_mul x y = block (gf128_mul (be_val x) (be_val y)).
Proof.
  intros Hx Hy. assert (Hz : state_ok (replicate 16 0)) by (split; [apply Forall_replicate; unfold is_u8; lia | done]).
  destruct (gf_loop_spec y Hy 128 0 _ x ltac:(lia) Hz Hx) as [Ho Eo]. unfold gcm_gf_mul. revert Ho Eo. generalize (fst (gf_bits y (seq 0 128) (replicate 16 0) x)). intros r Ho Eo.
  change (be_val (replicate 16 0)) with 0 in Eo. rewrite Z.lxor_0_l, serial_gf in Eo by (by apply block_val). rewrite <- Eo. symmetry. by apply block_val.
Qed.
