(* ===== verification/Gcm.v ===== *)
(** * AES-GCM

    src/src/crypto/symmetric/aead/gcm and gcmx86: AES-128-GCM on the portable code
    and on the AES-NI / PCLMULQDQ code it dispatches to, and AES-256-GCM. Sealing is
    proved to be SP 800-38D's authenticated encryption on every path, and opening to
    accept exactly what sealing produces. *)

From stdpp Require Import base numbers list option sets.
From Stdlib Require Import ZArith Lia.
From S2P Require Import Prelude Bytes Gf2 Aes Ghash.

Definition GCM_NONCE : nat := 12.
Definition GCM_TAG : nat := 16.

(* src/src/crypto/symmetric/aead/gcm/gcm.h : gcm_ctx *)
Record gcm_ctx := mk_gcm { g_aes : list Z; g_nonce : list Z; g_aad : list Z }.
(* src/src/crypto/symmetric/aead/gcm/gcm256.h : gcm256_ctx *)
Definition gcm256_ctx := gcm_ctx.

(** ** gcm_impl.h, gcm_impl_head.h *)

(* src/src/crypto/symmetric/aead/gcm/gcm_impl_head.h : block_n@69-71 *)
Definition block_n (off len : nat) : nat := if (len - off <? 16)%nat then (len - off)%nat else 16%nat.

(** The block at the head of [p]: [load_block] at each offset of the loop. *)
(* src/src/crypto/symmetric/aead/gcm/gcm_impl_head.h : load_block@74-79 *)
Definition load_block (p : list Z) (off : nat) : list Z :=
  let n := block_n off (length p) in map (fun i => if (i <? n)%nat then at_ p (off + i) else 0) (seq 0 16).

(* src/src/crypto/symmetric/aead/gcm/gcm_impl.h : gcm_ghash_block *)
Definition gcm_ghash_block (h y block : list Z) : list Z := gcm_gf_mul (gcm_xor16 y block) h.

(** [while (off < len)], [fuel] bounding the blocks. *)
Fixpoint ghash_loop (fuel : nat) (h y p : list Z) (off : nat) : list Z :=
  match fuel with
  | O => y
  | S f => if (off <? length p)%nat then ghash_loop f h (gcm_ghash_block h y (load_block p off)) p (off + 16) else y
  end.
(* src/src/crypto/symmetric/aead/gcm/gcm_impl.h : gcm_ghash_bytes@42-51 *)
Definition gcm_ghash_bytes (h y p : list Z) : list Z := ghash_loop (length p) h y p 0.

(* src/src/crypto/symmetric/aead/gcm/gcm_impl.h : gcm_put_be64 *)
Definition gcm_put_be64 (v : Z) : list Z := map (fun i => u8 (Z.shiftr v (56 - Z.of_nat i * 8))) (seq 0 8).

(** [for (i = 16; i > 12; i--) if (++c[i - 1] != 0) return;] *)
Fixpoint inc_loop (n : nat) (c : list Z) : list Z :=
  match n with
  | O => c
  | S n' => let c := <[(12 + n')%nat := u8 (at_ c (12 + n') + 1)]> c in if negb (at_ c (12 + n') =? 0) then c else inc_loop n' c
  end.
(* src/src/crypto/symmetric/aead/gcm/gcm_impl.h : gcm_ctr_inc *)
Definition gcm_ctr_inc (c : list Z) : list Z := inc_loop 4 c.

(** The counter mode and the tag of both key sizes, over the block cipher. *)
Section mode.
Context (enc : list Z -> list Z).
Definition chunk_with (ctr inp : list Z) : list Z * list Z :=
  let n := if (length inp <? 16)%nat then length inp else 16%nat in (zip_with Z.lxor (take n inp) (take n (enc ctr)), gcm_ctr_inc ctr).
Fixpoint ctr_with (fuel : nat) (ctr inp : list Z) : list Z :=
  match fuel, inp with
  | S f, _ :: _ => let '(o, ctr) := chunk_with ctr inp in o ++ ctr_with f ctr (drop (length o) inp)
  | _, _ => []
  end.
Definition setup_with (nonce : list Z) : list Z * list Z := (enc (replicate 16 0), take 12 nonce ++ [0; 0; 0; 1]).
Definition tag_with (st : list Z * list Z) (aad ct : list Z) : list Z :=
  let '(h, j0) := st in
  let y := replicate 16 0 in
  let y := gcm_ghash_bytes h y aad in
  let y := gcm_ghash_bytes h y ct in
  let lens := gcm_put_be64 (u64 (zlen aad * 8)) ++ gcm_put_be64 (u64 (zlen ct * 8)) in
  let y := gcm_ghash_block h y lens in
  zip_with Z.lxor y (enc j0).
End mode.

(** ** gcm.c, gcm_open.c: AES-128 *)

(* src/src/crypto/symmetric/aead/gcm/gcm_impl_head.h : ctr_chunk@82-91 *)
Definition ctr_chunk (a ctr inp : list Z) : list Z * list Z := chunk_with (aes128_encrypt a) ctr inp.
(* src/src/crypto/symmetric/aead/gcm/gcm_impl.h : gcm_ctr_xor *)
Definition gcm_ctr_xor (a ctr inp : list Z) : list Z := ctr_with (aes128_encrypt a) (length inp) ctr inp.
(** H and J0. *)
(* src/src/crypto/symmetric/aead/gcm/gcm_ctr.c : gcm_setup *)
Definition gcm_setup (g : gcm_ctx) : list Z * list Z := setup_with (aes128_encrypt (g_aes g)) (g_nonce g).
(* src/src/crypto/symmetric/aead/gcm/gcm_open.c : data_ctr@12-18 *)
Definition data_ctr (st : list Z * list Z) : list Z := gcm_ctr_inc (snd st).
(* src/src/crypto/symmetric/aead/gcm/gcm_open.c : gcm_tag@21-35 *)
Definition gcm_tag (g : gcm_ctx) (st : list Z * list Z) (ct : list Z) : list Z := tag_with (aes128_encrypt (g_aes g)) st (g_aad g) ct.

(** The portable path of [gcm_seal]. *)
(* src/src/crypto/symmetric/aead/gcm/gcm_open.c : gcm_seal@87-91 *)
Definition gcm_seal_scalar (g : gcm_ctx) (pt : list Z) : list Z :=
  let st := gcm_setup g in
  let out := gcm_ctr_xor (g_aes g) (data_ctr st) pt in
  out ++ gcm_tag g st out.

(** [Some None]: the code's 0. *)
(* src/src/crypto/symmetric/aead/gcm/gcm_open.c : gcm_open_scalar@96-109 *)
Definition gcm_open_scalar (g : gcm_ctx) (ct : list Z) : option (option (list Z)) :=
  let body := take (length ct - GCM_TAG) ct in
  let st := gcm_setup g in
  let want := gcm_tag g st body in
  d ← ct_diff16 want (drop (length body) ct);
  if negb (d =? 0) then Some None else Some (Some (gcm_ctr_xor (g_aes g) (data_ctr st) body)).

(** ** gcm_gcm256.c: AES-256 *)

(* src/src/crypto/symmetric/aead/gcm/gcm_gcm256.c : ctr_chunk256@10-19 *)
Definition ctr_chunk256 (a ctr inp : list Z) : list Z * list Z := chunk_with (aes256_encrypt a) ctr inp.
(* src/src/crypto/symmetric/aead/gcm/gcm_gcm256.c : ctr_xor256@22-27 *)
Definition ctr_xor256 (a ctr inp : list Z) : list Z := ctr_with (aes256_encrypt a) (length inp) ctr inp.
(* src/src/crypto/symmetric/aead/gcm/gcm_gcm256.c : gcm_setup256@30-44 *)
Definition gcm_setup256 (g : gcm256_ctx) : list Z * list Z := setup_with (aes256_encrypt (g_aes g)) (g_nonce g).
(* src/src/crypto/symmetric/aead/gcm/gcm_gcm256.c : data_ctr256@47-53 *)
Definition data_ctr256 (st : list Z * list Z) : list Z := gcm_ctr_inc (snd st).
(* src/src/crypto/symmetric/aead/gcm/gcm_gcm256.c : gcm_tag256@56-70 *)
Definition gcm_tag256 (g : gcm256_ctx) (st : list Z * list Z) (ct : list Z) : list Z := tag_with (aes256_encrypt (g_aes g)) st (g_aad g) ct.
(* src/src/crypto/symmetric/aead/gcm/gcm_gcm256.c : gcm256_seal *)
Definition gcm256_seal (g : gcm256_ctx) (pt : list Z) : list Z :=
  let st := gcm_setup256 g in
  let out := ctr_xor256 (g_aes g) (data_ctr256 st) pt in
  out ++ gcm_tag256 g st out.
(* src/src/crypto/symmetric/aead/gcm/gcm_gcm256.c : gcm256_open *)
Definition gcm256_open (g : gcm256_ctx) (ct : list Z) : option (option (list Z)) :=
  if (length ct <? GCM_TAG)%nat then Some None
  else
    let body := take (length ct - GCM_TAG) ct in
    let st := gcm_setup256 g in
    let want := gcm_tag256 g st body in
    d ← ct_diff16 want (drop (length body) ct);
    if negb (d =? 0) then Some None else Some (Some (ctr_xor256 (g_aes g) (data_ctr256 st) body)).

(** ** gcmx86: AES-NI and PCLMULQDQ *)

(** The round keys as one byte string, and H. *)
(* src/src/crypto/symmetric/aead/gcmx86/gcmx86.h : gcmx86 *)
Record gcmx86 := mk_gcmx86 { gx_rk : list Z; gx_h : list Z }.

(** The CPUID answer is cached: 0 unknown, 1 unsupported, 2 supported. The result
    and the cache. *)
(* src/src/crypto/symmetric/aead/gcmx86/gcmx86.c : gcmx86_cpuid_ok@6-9 *)
Definition gcmx86_cpuid_ok (M : cpu) : Z := let c := i_cpuid_ecx M 1 in Z.land (Z.land (Z.shiftr c 25) (Z.shiftr c 1)) 1.
(* src/src/crypto/symmetric/aead/gcmx86/gcmx86.c : gcmx86_supported@11-17 *)
Definition gcmx86_supported (M : cpu) (cached : Z) : Z * Z :=
  let cached := if cached =? 0 then 1 + gcmx86_cpuid_ok M else cached in (cached - 1, cached).

(* src/src/crypto/symmetric/aead/gcmx86/gcmx86_impl.h : gcmx86_load@86-92 *)
Definition gcmx86_load (p : list Z) (o : nat) : Z := le_val (map (fun i => at_ p (o + i)) (seq 0 16)).
(* src/src/crypto/symmetric/aead/gcmx86/gcmx86_impl.h : gcmx86_store@93-97 *)
Definition gcmx86_store (v : Z) : list Z := le_bytes 16 v.
(* src/src/crypto/symmetric/aead/gcmx86/gcmx86_impl.h : gcmx86_load_rev@101-107 *)
Definition gcmx86_load_rev (p : list Z) (o n : nat) : Z := le_val (map (fun i => if (15 - i <? n)%nat then at_ p (o + (15 - i)) else 0) (seq 0 16)).
(* src/src/crypto/symmetric/aead/gcmx86/gcmx86_impl.h : gcmx86_rev@109-112 *)
Definition gcmx86_rev (a : Z) : Z := le_val (map (fun i => at_ (le_bytes 16 a) (15 - i)) (seq 0 16)).

(* src/src/crypto/symmetric/aead/gcmx86/gcmx86_impl.h : gcmx86_aes@115-121 *)
Definition gcmx86_aes (M : cpu) (x : gcmx86) (inp : Z) : Z :=
  let s := Z.lxor inp (gcmx86_load (gx_rk x) 0) in
  let s := foldl (fun s i => i_aesenc M s (gcmx86_load (gx_rk x) (16 * i))) s (seq 1 9) in
  i_aesenclast M s (gcmx86_load (gx_rk x) 160).

(** [for (; off + 16 <= in.n; off += 16)] and the rest. *)
Fixpoint ghash86_loop (fuel : nat) (M : cpu) (h y : Z) (inp : list Z) (off : nat) : Z :=
  match fuel with
  | O => y
  | S f =>
      if (off + 16 <=? length inp)%nat then ghash86_loop f M h (gcmx86_gfmul M (Z.lxor y (gcmx86_rev (gcmx86_load inp off))) h) inp (off + 16)
      else if (off <? length inp)%nat then gcmx86_gfmul M (Z.lxor y (gcmx86_load_rev inp off (length inp - off))) h else y
  end.
(* src/src/crypto/symmetric/aead/gcmx86/gcmx86_impl.h : gcmx86_ghash@131-140 *)
Definition gcmx86_ghash (M : cpu) (h y : Z) (inp : list Z) : Z := ghash86_loop (S (length inp)) M h y inp 0.

(* src/src/crypto/symmetric/aead/gcmx86/gcmx86_impl.h : gcmx86_inc32@143-149 *)
Definition gcmx86_inc32 (j : list Z) : list Z := inc_loop 4 j.

(** The new counter and the sixteen bytes written. *)
(* src/src/crypto/symmetric/aead/gcmx86/gcmx86_impl.h : gcmx86_ctr_block@151-155 *)
Definition gcmx86_ctr_block (M : cpu) (x : gcmx86) (j inp : list Z) (o : nat) : list Z * list Z :=
  let j := gcmx86_inc32 j in (j, gcmx86_store (Z.lxor (gcmx86_load inp o) (gcmx86_aes M x (gcmx86_load j 0)))).

(* src/src/crypto/symmetric/aead/gcmx86/gcmx86_ctr.c : gcmx86_aes4_init@13-18 *)
Definition gcmx86_aes4_init (x : gcmx86) (s : list Z) : list Z := map (fun v => Z.lxor v (gcmx86_load (gx_rk x) 0)) s.
(* src/src/crypto/symmetric/aead/gcmx86/gcmx86_ctr.c : gcmx86_aes4_round@22-27 *)
Definition gcmx86_aes4_round (M : cpu) (x : gcmx86) (s : list Z) (r : nat) : list Z := map (fun v => i_aesenc M v (gcmx86_load (gx_rk x) (16 * r))) s.
(* src/src/crypto/symmetric/aead/gcmx86/gcmx86_ctr.c : gcmx86_aes4_last@30-35 *)
Definition gcmx86_aes4_last (M : cpu) (x : gcmx86) (s : list Z) : list Z := map (fun v => i_aesenclast M v (gcmx86_load (gx_rk x) 160)) s.
(* src/src/crypto/symmetric/aead/gcmx86/gcmx86_ctr.c : gcmx86_aes4@40-46 *)
Definition gcmx86_aes4 (M : cpu) (x : gcmx86) (s : list Z) : list Z :=
  gcmx86_aes4_last M x (foldl (gcmx86_aes4_round M x) (gcmx86_aes4_init x s) (seq 1 9)).
(* src/src/crypto/symmetric/aead/gcmx86/gcmx86_ctr.c : gcmx86_ctr_x4_advance@49-54 *)
Definition gcmx86_ctr_x4_advance (j : list Z) : list Z * list Z :=
  foldl (fun '(j, s) _ => let j := gcmx86_inc32 j in (j, s ++ [gcmx86_load j 0])) (j, []) (seq 0 4).
(* src/src/crypto/symmetric/aead/gcmx86/gcmx86_ctr.c : gcmx86_ctr_x4_store@57-61 *)
Definition gcmx86_ctr_x4_store (s inp : list Z) (o : nat) : list Z :=
  flat_map (fun i => gcmx86_store (Z.lxor (gcmx86_load inp (o + 16 * i)) (at_ s i))) (seq 0 4).
(* src/src/crypto/symmetric/aead/gcmx86/gcmx86_ctr.c : gcmx86_ctr_x4@64-69 *)
Definition gcmx86_ctr_x4 (M : cpu) (x : gcmx86) (j inp : list Z) (o : nat) : list Z * list Z :=
  let '(j, s) := gcmx86_ctr_x4_advance j in (j, gcmx86_ctr_x4_store (gcmx86_aes4 M x s) inp o).

(** The counter, the bytes written and the offset reached. *)
Fixpoint x4_loop (fuel : nat) (M : cpu) (x : gcmx86) (j inp out : list Z) (off : nat) : list Z * list Z * nat :=
  match fuel with
  | O => (j, out, off)
  | S f =>
      if (off + 64 <=? length inp)%nat then let '(j, o) := gcmx86_ctr_x4 M x j inp off in x4_loop f M x j inp (out ++ o) (off + 64)
      else (j, out, off)
  end.
(* src/src/crypto/symmetric/aead/gcmx86/gcmx86_ctr.c : gcmx86_ctr_x4_all@74-81 *)
Definition gcmx86_ctr_x4_all (M : cpu) (x : gcmx86) (j inp : list Z) : list Z * list Z * nat := x4_loop (length inp) M x j inp [] 0.

(* src/src/crypto/symmetric/aead/gcmx86/gcmx86_load.c : gcmx86_ctr_tail *)
Definition gcmx86_ctr_tail (M : cpu) (x : gcmx86) (j inp : list Z) (o : nat) : list Z :=
  let j := gcmx86_inc32 j in zip_with Z.lxor (drop o inp) (gcmx86_store (gcmx86_aes M x (gcmx86_load j 0))).

(** [for (; off + 16 <= in.n; off += 16)], then the tail. *)
Fixpoint x1_loop (fuel : nat) (M : cpu) (x : gcmx86) (j inp out : list Z) (off : nat) : list Z :=
  match fuel with
  | O => out
  | S f =>
      if (off + 16 <=? length inp)%nat then let '(j, o) := gcmx86_ctr_block M x j inp off in x1_loop f M x j inp (out ++ o) (off + 16)
      else if (off <? length inp)%nat then out ++ gcmx86_ctr_tail M x j inp off else out
  end.
(* src/src/crypto/symmetric/aead/gcmx86/gcmx86_ctr.c : gcmx86_ctr *)
Definition gcmx86_ctr (M : cpu) (x : gcmx86) (j inp : list Z) : list Z :=
  let '(j, out, off) := gcmx86_ctr_x4_all M x j inp in x1_loop (S (length inp)) M x j inp out off.

(* src/src/crypto/symmetric/aead/gcmx86/gcmx86_ctr.c : gcmx86_j0 *)
Definition gcmx86_j0 (nonce : list Z) : list Z := take 12 nonce ++ [0; 0; 0; 1].

(** [be_put_be64]: two big-endian words. *)
Definition be64 (v : Z) : list Z := word_bytes (u32 (Z.shiftr v 32)) ++ word_bytes (u32 v).
(* src/src/crypto/symmetric/aead/gcmx86/gcmx86_ctr.c : gcmx86_tag *)
Definition gcmx86_tag (M : cpu) (x : gcmx86) (j0 aad ct : list Z) : list Z :=
  let h := gcmx86_load_rev (gx_h x) 0 16 in
  let y := gcmx86_ghash M h 0 aad in
  let y := gcmx86_ghash M h y ct in
  let lens := be64 (u64 (zlen aad * 8)) ++ be64 (u64 (zlen ct * 8)) in
  let y := gcmx86_gfmul M (Z.lxor y (gcmx86_load_rev lens 0 16)) h in
  gcmx86_store (Z.lxor (gcmx86_rev y) (gcmx86_aes M x (gcmx86_load j0 0))).

(* src/src/crypto/symmetric/aead/gcmx86/gcmx86_ctr.c : gcmx86_init *)
Definition gcmx86_init (M : cpu) (key : list Z) : gcmx86 :=
  let rk := flat_map word_bytes (aes128_init key) in mk_gcmx86 rk (gcmx86_store (gcmx86_aes M (mk_gcmx86 rk []) 0)).

(* src/src/crypto/symmetric/aead/gcmx86/gcmx86_seal.c : gcmx86_seal *)
Definition gcmx86_seal (M : cpu) (x : gcmx86) (nonce aad pt : list Z) : list Z :=
  let j0 := gcmx86_j0 nonce in
  let out := gcmx86_ctr M x j0 pt in
  out ++ gcmx86_tag M x j0 aad out.

(** The returned length, with the plaintext when it is written. *)
(* src/src/crypto/symmetric/aead/gcmx86/gcmx86_seal.c : gcmx86_open *)
Definition gcmx86_open (M : cpu) (x : gcmx86) (nonce aad ct : list Z) : option (Z * option (list Z)) :=
  if (length ct <? GCM_TAG)%nat then Some (0, None)
  else
    let body := take (length ct - GCM_TAG) ct in
    let j := gcmx86_j0 nonce in
    let want := gcmx86_tag M x j aad body in
    d ← ct_diff16 want (drop (length body) ct);
    if negb (d =? 0) then Some (0, None) else Some (zlen body, Some (gcmx86_ctr M x j body)).

(** ** gcm_open.c: the dispatch *)

(* src/src/crypto/symmetric/aead/gcm/gcm_open.c : gcm_key_from_aes128@39-43 *)
Definition gcm_key_from_aes128 (a : list Z) : list Z := flat_map (fun i => word_bytes (at_ a i)) (seq 0 4).
(* src/src/crypto/symmetric/aead/gcm/gcm_open.c : gcm_x86_from@51-55 *)
Definition gcm_x86_from (M : cpu) (g : gcm_ctx) : gcmx86 := gcmx86_init M (gcm_key_from_aes128 (g_aes g)).

(* src/src/crypto/symmetric/aead/gcm/gcm_open.c : gcm_open_x86_empty@62-68 *)
Definition gcm_open_x86_empty (g : gcm_ctx) (ct : list Z) : option (option (list Z)) :=
  let st := gcm_setup g in
  let want := gcm_tag g st [] in
  d ← ct_diff16 want ct; Some (if d =? 0 then Some [] else None).
(* src/src/crypto/symmetric/aead/gcm/gcm_open.c : gcm_open_x86@70-77 *)
Definition gcm_open_x86 (M : cpu) (g : gcm_ctx) (ct : list Z) : option (option (list Z)) :=
  if (length ct =? GCM_TAG)%nat then gcm_open_x86_empty g ct
  else '(n, pt) ← gcmx86_open M (gcm_x86_from M g) (g_nonce g) (g_aad g) ct; Some (if negb (n =? 0) then pt else None).

(** [cached] is the value of the static cache at the call. *)
(* src/src/crypto/symmetric/aead/gcm/gcm_open.c : gcm_seal *)
Definition gcm_seal (M : cpu) (cached : Z) (g : gcm_ctx) (pt : list Z) : list Z :=
  if negb (fst (gcmx86_supported M cached) =? 0) then gcmx86_seal M (gcm_x86_from M g) (g_nonce g) (g_aad g) pt
  else gcm_seal_scalar g pt.
(* src/src/crypto/symmetric/aead/gcm/gcm_open.c : gcm_open *)
Definition gcm_open (M : cpu) (cached : Z) (g : gcm_ctx) (ct : list Z) : option (option (list Z)) :=
  if (length ct <? GCM_TAG)%nat then Some None
  else if negb (fst (gcmx86_supported M cached) =? 0) then gcm_open_x86 M g ct
  else gcm_open_scalar g ct.

(** ** SP 800-38D

    Blocks and counters are 128-bit numbers, first bit most significant. *)

(** The blocks of a string, the last one filled with zero bits (7.1). *)
Fixpoint sp_blocks (n : nat) (l : list Z) : list Z :=
  match n, l with
  | S n', _ :: _ => be_val (take 16 l ++ replicate (16 - length (take 16 l)) 0) :: sp_blocks n' (drop 16 l)
  | _, _ => []
  end.
(** 6.4 *)
Definition sp_ghash (H : Z) (y : Z) (bs : list Z) : Z := foldl (fun y b => gf128_mul (Z.lxor y b) H) y bs.
(** 6.2 *)
Definition sp_inc32 (v : Z) : Z := v / 2 ^ 32 * 2 ^ 32 + (v + 1) mod 2 ^ 32.
(** 6.5 *)
Fixpoint sp_gctr (n : nat) (enc : list Z -> list Z) (icb : Z) (l : list Z) : list Z :=
  match n, l with
  | S n', _ :: _ => zip_with Z.lxor (take 16 l) (enc (block icb)) ++ sp_gctr n' enc (sp_inc32 icb) (drop 16 l)
  | _, _ => []
  end.
(** 7.1, for a 96-bit IV. *)
Definition sp_tag (enc : list Z -> list Z) (iv aad c : list Z) : list Z :=
  let H := be_val (enc (replicate 16 0)) in
  let J0 := be_val (iv ++ [0; 0; 0; 1]) in
  let S := sp_ghash H 0 (sp_blocks (length aad) aad ++ sp_blocks (length c) c ++ [zlen aad * 8 * 2 ^ 64 + zlen c * 8]) in
  zip_with Z.lxor (block S) (enc (block J0)).
Definition sp_crypt (enc : list Z -> list Z) (iv p : list Z) : list Z := sp_gctr (length p) enc (sp_inc32 (be_val (iv ++ [0; 0; 0; 1]))) p.
Definition sp_seal (enc : list Z -> list Z) (iv aad p : list Z) : list Z := let c := sp_crypt enc iv p in c ++ sp_tag enc iv aad c.

(** ** Blocks *)

#[local] Opaque gf128_mul gcm_gf_mul block.

Lemma state_ok_zeros : state_ok (replicate 16 0).
Proof. split; [apply Forall_replicate; unfold is_u8; lia | done]. Qed.

Lemma zip_lxor_state a b : state_ok a -> state_ok b -> state_ok (zip_with Z.lxor a b).
Proof. intros [Ha La] [Hb Lb]. split; [by apply zip_lxor_ok | rewrite length_zip_with; lia]. Qed.

Lemma at_app_l a b i : (i < length a)%nat -> at_ (a ++ b) i = at_ a i.
Proof. intros. by apply app_nth1. Qed.
Lemma map_at_seq l n : length l = n -> map (at_ l) (seq 0 n) = l.
Proof.
  intros <-. induction l as [|x l IH]; [done|]. cbn [length seq map]. rewrite <- seq_shift, map_map. f_equal. exact IH.
Qed.

(** The block of [p] at [off], filled with zeros. *)
Definition pad_at (p : list Z) (off : nat) : list Z := take 16 (drop off p) ++ replicate (16 - length (take 16 (drop off p))) 0.
Lemma pad_at_ok p off : bytes_ok p -> state_ok (pad_at p off).
Proof.
  intros Hp. split.
  - apply bytes_ok_app. split; [by apply bytes_ok_take, bytes_ok_drop | apply Forall_replicate; unfold is_u8; lia].
  - unfold pad_at. rewrite length_app, length_replicate, length_take. lia.
Qed.

Lemma pad_at_nth p off i : (i < 16)%nat -> at_ (pad_at p off) i = if (off + i <? length p)%nat then at_ p (off + i) else 0.
Proof.
  intros Hi. unfold pad_at. destruct (Nat.ltb_spec (off + i) (length p)) as [H|H].
  - rewrite at_app_l by (rewrite length_take, length_drop; lia). unfold at_. rewrite <- (List.nth_skipn off). set (d := drop off p). rewrite <- (take_drop 16 d) at 2. rewrite app_nth1; [done|]. unfold d. rewrite length_take, length_drop. lia.
  - unfold at_. rewrite app_nth2 by (rewrite length_take, length_drop; lia). rewrite nth_lookup. destruct (replicate _ 0 !! _) eqn:E; [|done]. by apply lookup_replicate in E as [-> _].
Qed.

Lemma load_block_spec p off : (off < length p)%nat -> load_block p off = pad_at p off.
Proof.
  intros Ho. rewrite <- (map_at_seq (pad_at p off) 16) by (unfold pad_at; rewrite length_app, length_replicate, length_take; lia).
  apply map_ext_in. intros i Hi%in_seq. rewrite pad_at_nth by lia. unfold block_n. destruct (Nat.ltb_spec (length p - off) 16).
  - destruct (Nat.ltb_spec i (length p - off)), (Nat.ltb_spec (off + i) (length p)); try lia; done.
  - destruct (Nat.ltb_spec i 16), (Nat.ltb_spec (off + i) (length p)); try lia; done.
Qed.

Ltac blk := first [assumption | apply gf128_mul_range | apply block_ok | apply state_ok_zeros | apply pad_at_ok; assumption | apply zip_lxor_state; blk].

Lemma ghash_block_spec h y b : state_ok h -> state_ok y -> state_ok b ->
  gcm_ghash_block h y b = block (gf128_mul (Z.lxor (be_val y) (be_val b)) (be_val h)).
Proof.
  intros Hh Hy Hb. unfold gcm_ghash_block, gcm_xor16. rewrite gcm_gf_mul_spec by blk. destruct Hy as [? ?], Hb as [? ?]. rewrite be_val_lxor by (assumption || congruence). reflexivity.
Qed.

Lemma ghash_loop_spec h p : state_ok h -> bytes_ok p -> forall n off y, state_ok y ->
  ghash_loop n h y p off = block (sp_ghash (be_val h) (be_val y) (sp_blocks n (drop off p))).
Proof.
  intros Hh Hp. induction n as [|n IH]; intros off y Hy; [symmetry; by apply block_val|]. cbn [ghash_loop sp_blocks].
  destruct (Nat.ltb_spec off (length p)) as [Ho|Ho].
  - destruct (drop off p) as [|c l] eqn:E; [apply (f_equal length) in E; rewrite length_drop in E; cbn in E; lia|]. rewrite <- E. rewrite load_block_spec by done.
    rewrite ghash_block_spec by blk. rewrite IH, drop_drop, val_block by blk. reflexivity.
  - rewrite drop_ge by lia. cbn [sp_ghash foldl]. symmetry. by apply block_val.
Qed.

(** ** Counter mode *)

Lemma be_val_4 l a b c d : be_val (l ++ [a; b; c; d]) = (((be_val l * 256 + a) * 256 + b) * 256 + c) * 256 + d.
Proof. unfold be_val. by rewrite fold_left_app. Qed.

Lemma ctr_inc_spec c : state_ok c -> state_ok (gcm_ctr_inc c) /\ be_val (gcm_ctr_inc c) = sp_inc32 (be_val c).
Proof.
  intros [Hc Hl]. do 16 (destruct c as [|? c]; [discriminate|]). destruct c; [|discriminate]. clear Hl.
  match goal with H : bytes_ok [?x0; ?x1; ?x2; ?x3; ?x4; ?x5; ?x6; ?x7; ?x8; ?x9; ?x10; ?x11; ?a; ?b; ?c; ?d] |- _ =>
    change (bytes_ok ([x0; x1; x2; x3; x4; x5; x6; x7; x8; x9; x10; x11] ++ [a; b; c; d])) in H;
    assert (E : gcm_ctr_inc [x0; x1; x2; x3; x4; x5; x6; x7; x8; x9; x10; x11; a; b; c; d] = [x0; x1; x2; x3; x4; x5; x6; x7; x8; x9; x10; x11] ++
      (if negb (u8 (d + 1) =? 0) then [a; b; c; u8 (d + 1)] else if negb (u8 (c + 1) =? 0) then [a; b; u8 (c + 1); u8 (d + 1)]
       else if negb (u8 (b + 1) =? 0) then [a; u8 (b + 1); u8 (c + 1); u8 (d + 1)] else [u8 (a + 1); u8 (b + 1); u8 (c + 1); u8 (d + 1)]))
      by (unfold gcm_ctr_inc; cbn [inc_loop Nat.add at_ nth insert list_insert]; unfold at_; cbn [nth]; repeat case_match; reflexivity);
    rewrite E; change [x0; x1; x2; x3; x4; x5; x6; x7; x8; x9; x10; x11; a; b; c; d] with ([x0; x1; x2; x3; x4; x5; x6; x7; x8; x9; x10; x11] ++ [a; b; c; d]);
    clear E; assert (Hp : length [x0; x1; x2; x3; x4; x5; x6; x7; x8; x9; x10; x11] = 12%nat) by reflexivity; generalize dependent [x0; x1; x2; x3; x4; x5; x6; x7; x8; x9; x10; x11]; intros p Hc Hp
  end.
  apply bytes_ok_app in Hc as [Hpre Hc]. do 4 (apply bytes_ok_cons in Hc as [? Hc]). clear Hc.
  split.
  - split.
    + apply bytes_ok_app. split; [assumption|]. repeat case_match; repeat (apply bytes_ok_cons; split; [assumption || apply u8_range|]); apply Forall_nil_2.
    + rewrite length_app. repeat case_match; cbn [length]; lia.
  - pose proof (be_val_bound p Hpre) as Hb. generalize dependent (be_val p). intros. unfold sp_inc32, is_u8, u8 in *.
    repeat match goal with |- context[negb (?x =? 0)] => destruct (Z.eqb_spec x 0); cbn [negb] end; rewrite !be_val_4; Z.to_euclidean_division_equations; lia.
Qed.

Lemma inc32_eq : gcmx86_inc32 = gcm_ctr_inc.
Proof. reflexivity. Qed.
#[local] Opaque gcm_ctr_inc gcmx86_inc32.

Lemma take_zip n (a b : list Z) : take n (zip_with Z.lxor a b) = zip_with Z.lxor (take n a) (take n b).
Proof. revert a b. induction n as [|n IH]; intros [|x a] [|y b]; try reflexivity. cbn [zip_with take]. by rewrite IH. Qed.

Lemma ctr_with_spec enc : (forall s, state_ok s -> state_ok (enc s)) -> forall n ctr l, state_ok ctr -> ctr_with enc n ctr l = sp_gctr n enc (be_val ctr) l.
Proof.
  intros He. induction n as [|n IH]; intros ctr l Hc; [reflexivity|]. destruct l as [|x l]; [reflexivity|]. cbn [ctr_with sp_gctr]. unfold chunk_with. set (i := x :: l).
  set (m := if (length i <? 16)%nat then length i else 16%nat). assert (Hm : m = Nat.min 16 (length i)) by (unfold m; destruct (Nat.ltb_spec (length i) 16); lia).
  destruct (He ctr Hc) as [_ Le]. assert (Ec : block (be_val ctr) = ctr) by (by apply block_val).
  assert (Et : zip_with Z.lxor (take m i) (take m (enc ctr)) = zip_with Z.lxor (take 16 i) (enc (block (be_val ctr)))).
  { rewrite Ec. transitivity (take m (zip_with Z.lxor i (enc ctr))); [symmetry; apply take_zip|].
    destruct (Nat.ltb_spec (length i) 16) as [Hs|Hs]; unfold m.
    - rewrite (take_ge i 16) by lia. apply take_ge. rewrite length_zip_with. lia.
    - rewrite take_zip. f_equal. apply take_ge. lia. }
  rewrite Et. f_equal. destruct (ctr_inc_spec ctr Hc) as [Hi Ei]. rewrite IH, Ei by exact Hi. f_equal. rewrite <- Et, length_zip_with, !length_take, Le, Hm.
  destruct (Nat.le_gt_cases (length i) 16); [rewrite !drop_ge by lia; reflexivity | f_equal; lia].
Qed.

(** ** The portable path *)

Lemma gcm_put_be64_spec v : gcm_put_be64 v = be_bytes 8 v.
Proof.
  rewrite !be_bytes_cons. unfold gcm_put_be64. cbn [seq map be_bytes]. unfold u8. rewrite !Z.shiftr_div_pow2 by lia.
  change (2 ^ (56 - Z.of_nat 0 * 8)) with (256 ^ Z.of_nat 7). change (2 ^ (56 - Z.of_nat 1 * 8)) with (256 ^ Z.of_nat 6). change (2 ^ (56 - Z.of_nat 2 * 8)) with (256 ^ Z.of_nat 5).
  change (2 ^ (56 - Z.of_nat 3 * 8)) with (256 ^ Z.of_nat 4). change (2 ^ (56 - Z.of_nat 4 * 8)) with (256 ^ Z.of_nat 3). change (2 ^ (56 - Z.of_nat 5 * 8)) with (256 ^ Z.of_nat 2).
  change (2 ^ (56 - Z.of_nat 6 * 8)) with (256 ^ Z.of_nat 1). change (2 ^ (56 - Z.of_nat 7 * 8)) with (256 ^ Z.of_nat 0). reflexivity.
Qed.

Lemma be64_spec v : 0 <= v -> be64 v = be_bytes 8 v.
Proof.
  intros Hv. rewrite <- gcm_put_be64_spec. unfold be64, word_bytes, gcm_put_be64. cbn [seq map app]. unfold u8, u32. rewrite !Z.shiftr_div_pow2 by lia.
  change (2 ^ (56 - Z.of_nat 0 * 8)) with (2 ^ 32 * 2 ^ 24). change (2 ^ (56 - Z.of_nat 1 * 8)) with (2 ^ 32 * 2 ^ 16). change (2 ^ (56 - Z.of_nat 2 * 8)) with (2 ^ 32 * 2 ^ 8).
  change (2 ^ (56 - Z.of_nat 3 * 8)) with (2 ^ 32). change (2 ^ (56 - Z.of_nat 4 * 8)) with (2 ^ 24). change (2 ^ (56 - Z.of_nat 5 * 8)) with (2 ^ 16).
  change (2 ^ (56 - Z.of_nat 6 * 8)) with (2 ^ 8). change (2 ^ (56 - Z.of_nat 7 * 8)) with 1. rewrite <- !Z.div_div by lia.
  assert (E : forall a b c d e f g h a' b' c' d' e' f' g' h' : Z, a = a' -> b = b' -> c = c' -> d = d' -> e = e' -> f = f' -> g = g' -> h = h' ->
    [a; b; c; d; e; f; g; h] = [a'; b'; c'; d'; e'; f'; g'; h']) by congruence.
  apply E; Z.to_euclidean_division_equations; lia.
Qed.

Lemma lens_spec a b : 0 <= a < 2 ^ 64 -> 0 <= b < 2 ^ 64 -> state_ok (be_bytes 8 a ++ be_bytes 8 b) /\ be_val (be_bytes 8 a ++ be_bytes 8 b) = a * 2 ^ 64 + b.
Proof.
  intros Ha Hb. split.
  - split; [apply bytes_ok_app; split; apply be_bytes_ok | by rewrite length_app, !length_be_bytes].
  - rewrite be_val_app, !be_val_bytes, zlen_be_bytes by lia. change (256 ^ Z.of_nat 8) with (2 ^ 64). by rewrite !Z.mod_small.
Qed.

Lemma j0_ok nonce : bytes_ok nonce -> length nonce = 12%nat -> take 12 nonce = nonce /\ state_ok (nonce ++ [0; 0; 0; 1]).
Proof.
  intros Hn Hl. split; [apply take_ge; lia|]. split; [|rewrite length_app; cbn [length]; lia].
  apply bytes_ok_app. split; [assumption|]. repeat (apply bytes_ok_cons; split; [unfold is_u8; lia|]). apply Forall_nil_2.
Qed.

Lemma sp_ghash_ok H y bs : state_ok (block (sp_ghash H y bs)).
Proof. apply block_ok. Qed.
Lemma sp_ghash_range H bs : forall y, 0 <= y < 2 ^ 128 -> 0 <= sp_ghash H y bs < 2 ^ 128.
Proof. induction bs as [|b bs IH]; intros y Hy; [exact Hy|]. apply IH, gf128_mul_range. Qed.
Lemma sp_ghash_app H bs bs' : forall y, sp_ghash H y (bs ++ bs') = sp_ghash H (sp_ghash H y bs) bs'.
Proof. intros y. apply foldl_app. Qed.

Section scalar.
Context (enc : list Z -> list Z) (Henc : forall s, state_ok s -> state_ok (enc s)).
Lemma sp_gctr_ok n : forall icb l, bytes_ok l -> bytes_ok (sp_gctr n enc icb l).
Proof.
  induction n as [|n IH]; intros icb l Hl; [apply Forall_nil_2|]. destruct l as [|x l]; [apply Forall_nil_2|]. cbn [sp_gctr].
  apply bytes_ok_app. split; [|by apply IH, bytes_ok_drop]. apply zip_lxor_ok; [by apply bytes_ok_take | apply Henc, block_ok].
Qed.
Lemma sp_gctr_length n : forall icb l, (length l <= n)%nat -> length (sp_gctr n enc icb l) = length l.
Proof.
  induction n as [|n IH]; intros icb l Hl; [destruct l; [reflexivity | cbn in Hl; lia]|]. destruct l as [|x l]; [reflexivity|]. cbn [sp_gctr]. set (i := x :: l) in *.
  rewrite length_app, length_zip_with, length_take, IH by (rewrite length_drop; unfold i in *; cbn [length] in *; lia). rewrite length_drop, (proj2 (Henc _ (block_ok icb))). lia.
Qed.

(** Counter mode undoes itself. *)
Lemma sp_gctr_twice n : forall icb l, (length l <= n)%nat -> sp_gctr n enc icb (sp_gctr n enc icb l) = l.
Proof.
  induction n as [|n IH]; intros icb l Hl; [destruct l; [reflexivity | cbn in Hl; lia]|]. destruct l as [|x l]; [reflexivity|]. cbn [sp_gctr]. set (i := x :: l) in *.
  assert (Hi : (0 < length i <= S n)%nat) by (unfold i in *; cbn [length] in *; lia).
  set (o := zip_with Z.lxor (take 16 i) (enc (block icb))). assert (Ho : length o = Nat.min 16 (length i)) by (unfold o; rewrite length_zip_with, length_take, (proj2 (Henc _ (block_ok icb))); lia).
  set (r := sp_gctr n enc (sp_inc32 icb) (drop 16 i)). assert (Hr : length r = (length i - 16)%nat) by (unfold r; rewrite sp_gctr_length, length_drop; rewrite ?length_drop; lia).
  assert (Hor : length (o ++ r) = length i) by (rewrite length_app; lia).
  destruct (o ++ r) as [|y m] eqn:E; [cbn [length] in Hor; lia|]. rewrite <- E in *. clear y m E.
  assert (E1 : zip_with Z.lxor (take 16 (o ++ r)) (enc (block icb)) = take 16 i).
  { transitivity (zip_with Z.lxor o (enc (block icb))).
    - destruct (Nat.le_gt_cases (length i) 16).
      + rewrite (nil_length_inv r) by lia. rewrite app_nil_r, take_ge by lia. reflexivity.
      + rewrite take_app_le, take_ge by lia. reflexivity.
    - unfold o. clear -Henc. destruct (Henc _ (block_ok icb)) as [_ Le]. assert (Hk : (length (take 16 i) <= length (enc (block icb)))%nat) by (rewrite length_take; lia).
      generalize dependent (take 16 i). generalize dependent (enc (block icb)). intros k _ a. revert k.
      induction a as [|u a IHa]; intros [|v k] Hk; try reflexivity; [cbn in Hk; lia|]. cbn [zip_with]. rewrite IHa by (cbn in Hk; lia).
      by rewrite Z.lxor_assoc, Z.lxor_nilpotent, Z.lxor_0_r. }
  rewrite E1. destruct (Nat.le_gt_cases (length i) 16).
  - rewrite (drop_ge (o ++ r)) by (rewrite length_app; lia). rewrite take_ge by lia. destruct n; apply app_nil_r.
  - rewrite (drop_app_length' o r) by lia. unfold r. rewrite IH by (rewrite length_drop; lia). apply take_drop.
Qed.

Lemma sp_crypt_length nonce p : length (sp_crypt enc nonce p) = length p.
Proof. apply sp_gctr_length. apply le_n. Qed.
Lemma sp_crypt_ok nonce p : bytes_ok p -> bytes_ok (sp_crypt enc nonce p).
Proof. apply sp_gctr_ok. Qed.
Lemma sp_crypt_twice nonce p : sp_crypt enc nonce (sp_crypt enc nonce p) = p.
Proof. unfold sp_crypt at 1. rewrite sp_crypt_length. apply sp_gctr_twice. apply le_n. Qed.

Context (nonce : list Z) (Hn : bytes_ok nonce) (Hln : length nonce = 12%nat).

Lemma tag_with_spec aad ct : bytes_ok aad -> bytes_ok ct -> zlen aad < 2 ^ 60 -> zlen ct < 2 ^ 60 ->
  tag_with enc (setup_with enc nonce) aad ct = sp_tag enc nonce aad ct /\ state_ok (sp_tag enc nonce aad ct).
Proof.
  intros Ha Hc La Lc. destruct (j0_ok nonce Hn Hln) as [Et Hj]. pose proof (Henc _ state_ok_zeros) as Hh. pose proof (Henc _ Hj) as He.
  unfold tag_with, setup_with, sp_tag. rewrite Et. pose proof (zlen_nonneg aad). pose proof (zlen_nonneg ct).
  rewrite !gcm_put_be64_spec, !u64_small by lia. destruct (lens_spec (zlen aad * 8) (zlen ct * 8) ltac:(lia) ltac:(lia)) as [Hls Els].
  unfold gcm_ghash_bytes. rewrite (ghash_loop_spec _ aad Hh Ha _ 0 _ state_ok_zeros). change (be_val (replicate 16 0)) with 0. change (drop 0 aad) with aad.
  rewrite (ghash_loop_spec _ ct Hh Hc _ 0) by apply block_ok. change (drop 0 ct) with ct.
  assert (R1 : 0 <= sp_ghash (be_val (enc (replicate 16 0))) 0 (sp_blocks (length aad) aad) < 2 ^ 128) by (apply sp_ghash_range; lia).
  rewrite val_block by exact R1. rewrite ghash_block_spec, val_block by first [blk | by apply sp_ghash_range].
  rewrite Els, !sp_ghash_app. replace (block (be_val (nonce ++ [0; 0; 0; 1]))) with (nonce ++ [0; 0; 0; 1]) by (symmetry; by apply block_val).
  split; [reflexivity|]. apply zip_lxor_state; [apply block_ok | exact He].
Qed.
End scalar.

(** ** The hardware path *)

Lemma le_cons x l : is_u8 x -> le_val (x :: l) = Z.lxor x (Z.shiftl (le_val l) 8).
Proof.
  intros Hx. unfold is_u8 in Hx. cbn [dval foldr]. fold (dval 8 l). rewrite Z.lxor_comm, Z.lxor_lor.
  - rewrite lor_shiftl by lia. lia.
  - apply Z.bits_inj'. intros i Hi. rewrite Z.land_spec, Z.bits_0. destruct (decide (i < 8)); [by rewrite Z.shiftl_spec_low by lia|].
    rewrite (testbit_high x i 8) by lia. apply andb_false_r.
Qed.

Lemma le_val_lxor a : forall b, bytes_ok a -> bytes_ok b -> length a = length b -> le_val (zip_with Z.lxor a b) = Z.lxor (le_val a) (le_val b).
Proof.
  induction a as [|x a IH]; intros [|y b] Ha Hb Hl; try done. apply bytes_ok_cons in Ha as [Hx Ha]. apply bytes_ok_cons in Hb as [Hy Hb]. injection Hl as Hl.
  cbn [zip_with]. rewrite !le_cons, IH, Z.shiftl_lxor by (done || by apply lxor_u8). apply lxor_swap.
Qed.

Lemma state_lxor a b : state_ok a -> state_ok b -> Z.lxor (le_val a) (le_val b) = le_val (zip_with Z.lxor a b).
Proof. intros [Ha La] [Hb Lb]. rewrite le_val_lxor; [reflexivity | assumption..|congruence]. Qed.

Lemma store_val s : state_ok s -> gcmx86_store (le_val s) = s.
Proof. intros [Hs Hl]. unfold gcmx86_store. rewrite <- Hl. by apply le_bytes_val. Qed.

Lemma load_whole s : length s = 16%nat -> gcmx86_load s 0 = le_val s.
Proof. intros Hl. unfold gcmx86_load. f_equal. by apply map_at_seq. Qed.

Lemma reg_load_at p o : (o + 16 <= length p)%nat -> gcmx86_load p o = le_val (take 16 (drop o p)).
Proof.
  intros Ho. rewrite <- (load_whole (take 16 (drop o p))) by (rewrite length_take, length_drop; lia). unfold gcmx86_load. f_equal. apply map_ext_in. intros i Hi%in_seq.
  unfold at_. cbn [Nat.add]. rewrite <- (List.nth_skipn o). set (d := drop o p). rewrite <- (take_drop 16 d) at 1. apply app_nth1. unfold d. rewrite length_take, length_drop. lia.
Qed.

(** A register holding a block byte-reversed is the block's number. *)
Lemma rev_seq l : length l = 16%nat -> map (fun i => at_ l (15 - i)) (seq 0 16) = rev l.
Proof. intros Hl. do 16 (destruct l as [|? l]; [discriminate|]). destruct l; [reflexivity | discriminate]. Qed.

Lemma rev_load p o : bytes_ok p -> (o + 16 <= length p)%nat -> gcmx86_rev (gcmx86_load p o) = be_val (pad_at p o).
Proof.
  intros Hp Ho. rewrite reg_load_at by done. set (b := take 16 (drop o p)). assert (Hb : state_ok b) by (split; [by apply bytes_ok_take, bytes_ok_drop | unfold b; rewrite length_take, length_drop; lia]).
  assert (Ep : pad_at p o = b) by (unfold pad_at; fold b; rewrite (proj2 Hb); apply app_nil_r). rewrite Ep. destruct Hb as [Hb Lb].
  unfold gcmx86_rev. rewrite <- Lb, le_bytes_val by done. rewrite Lb. by rewrite rev_seq, le_val_rev by done.
Qed.

Lemma load_rev_spec p o n : (n <= 16)%nat -> (o + n <= length p)%nat -> (n = 16 \/ o + n = length p)%nat -> gcmx86_load_rev p o n = be_val (pad_at p o).
Proof.
  intros Hn Ho Hor. assert (Hl : length (pad_at p o) = 16%nat) by (unfold pad_at; rewrite length_app, length_replicate, length_take; lia).
  rewrite <- le_val_rev, <- rev_seq by done. unfold gcmx86_load_rev. f_equal. apply map_ext_in. intros i Hi%in_seq.
  rewrite pad_at_nth by lia. destruct (Nat.ltb_spec (15 - i) n), (Nat.ltb_spec (o + (15 - i)) (length p)); try lia; reflexivity.
Qed.

Lemma rev_block v : gcmx86_rev v = le_val (block v).
Proof.
  unfold gcmx86_rev. rewrite rev_seq by apply le_bytes_length. rewrite le_bytes_be, rev_involutive. reflexivity.
Qed.

(** ** Sealing and opening *)

Section aead.
Context (enc : list Z -> list Z) (Henc : forall s, state_ok s -> state_ok (enc s)).
Context (nonce aad : list Z) (Hn : bytes_ok nonce) (Hln : length nonce = 12%nat) (Ha : bytes_ok aad) (La : zlen aad < 2 ^ 60).

Lemma sp_tag_ok ct : bytes_ok ct -> zlen ct < 2 ^ 60 -> state_ok (sp_tag enc nonce aad ct).
Proof. intros Hc Lc. exact (proj2 (tag_with_spec enc Henc nonce Hn Hln aad ct Ha Hc La Lc)). Qed.

Lemma sp_seal_iff ct pt : (16 <= length ct)%nat -> bytes_ok ct -> zlen ct < 2 ^ 60 ->
  let body := take (length ct - 16) ct in
  (bytes_ok pt /\ sp_seal enc nonce aad pt = ct) <-> (sp_tag enc nonce aad body = drop (length body) ct /\ pt = sp_crypt enc nonce body).
Proof.
  intros Hl Hc Lc body. assert (Hb : length body = (length ct - 16)%nat) by (unfold body; rewrite length_take; lia).
  assert (Hbo : bytes_ok body) by (by apply bytes_ok_take). assert (Lb : zlen body < 2 ^ 60) by (unfold zlen in *; lia).
  pose proof (proj2 (sp_tag_ok body Hbo Lb)) as Ht. assert (Hct : ct = body ++ drop (length body) ct) by (rewrite Hb; unfold body; by rewrite take_drop).
  split.
  - intros [Hp E]. unfold sp_seal in E. assert (Lp : zlen pt < 2 ^ 60).
    { apply (f_equal (length (A:=Z))) in E. rewrite length_app, (sp_crypt_length enc Henc) in E. unfold zlen in *. lia. }
    pose proof (proj2 (sp_tag_ok _ (sp_crypt_ok enc Henc nonce pt Hp) ltac:(unfold zlen in *; rewrite (sp_crypt_length enc Henc); lia))) as Ht'.
    rewrite Hct in E at 1. apply app_inj_2 in E as [E1 E2]; [|rewrite length_drop, Ht'; lia]. split; [rewrite <- E2, E1; reflexivity | rewrite <- E1, (sp_crypt_twice enc Henc); reflexivity].
  - intros [E ->]. split; [by apply (sp_crypt_ok enc Henc)|]. unfold sp_seal. rewrite (sp_crypt_twice enc Henc), E. symmetry. exact Hct.
Qed.

(** The check both openings make. *)
Lemma tag_check ct : (16 <= length ct)%nat -> bytes_ok ct -> zlen ct < 2 ^ 60 ->
  let body := take (length ct - 16) ct in
  exists d, ct_diff16 (sp_tag enc nonce aad body) (drop (length body) ct) = Some d /\
    forall pt, (if d =? 0 then Some (sp_crypt enc nonce body) else None) = Some pt <-> bytes_ok pt /\ sp_seal enc nonce aad pt = ct.
Proof.
  intros Hl Hc Lc body. assert (Hb : length body = (length ct - 16)%nat) by (unfold body; rewrite length_take; lia).
  destruct (sp_tag_ok body ltac:(by apply bytes_ok_take) ltac:(unfold zlen in *; lia)) as [T1 T2].
  destruct (ct16_spec (sp_tag enc nonce aad body) (drop (length body) ct) T1 (bytes_ok_drop _ _ Hc) T2 ltac:(rewrite length_drop; lia)) as (d & Ed & Es).
  exists d. split; [exact Ed|]. intros pt. pose proof (sp_seal_iff ct pt Hl Hc Lc) as Hiff. cbn zeta in Hiff. fold body in Hiff. rewrite Hiff, Es. clear Hiff.
  case_bool_decide as Heq; split; [intros [= <-]; by split | intros [_ ->]; reflexivity | discriminate | intros [E _]; congruence].
Qed.
End aead.

Lemma sp_seal_ext enc enc' nonce aad pt : (forall s, state_ok s -> enc s = enc' s) -> bytes_ok nonce -> length nonce = 12%nat ->
  sp_seal enc nonce aad pt = sp_seal enc' nonce aad pt.
Proof.
  intros He Hn Hl. assert (Hg : forall n icb l, sp_gctr n enc icb l = sp_gctr n enc' icb l).
  { induction n as [|n IH]; intros icb l; [reflexivity|]. destruct l as [|x l]; [reflexivity|]. cbn [sp_gctr]. rewrite He by apply block_ok. by rewrite IH. }
  unfold sp_seal, sp_crypt, sp_tag. rewrite !Hg, !He by first [apply block_ok | apply state_ok_zeros]. reflexivity.
Qed.

Section hardware.
Context (M : cpu) (HM : cpu_ok M) (key : list Z) (Hk : bytes_ok key) (Hlk : length key = 16%nat).

Definition rks : list Z := aes128_init key.
Lemma rks_def : rks = aes128_init key.
Proof. reflexivity. Qed.
Lemma rks_length : length rks = 44%nat.
Proof. unfold rks. exact (proj2 (aes128_schedule key Hk Hlk)). Qed.
Lemma rks_words : map word_bytes rks = fips_key_expansion 4 10 key.
Proof. unfold rks. exact (proj1 (aes128_schedule key Hk Hlk)). Qed.
#[local] Opaque rks.
Definition round_key (i : nat) : list Z := map (fun j => at_ (word_bytes (at_ rks (4 * i + j / 4))) (j mod 4)) (seq 0 16).

Lemma round_key_ok i : state_ok (round_key i).
Proof.
  split; [|reflexivity]. apply List.Forall_forall. intros x (j & <- & _)%in_map_iff. apply at_byte, word_bytes_ok.
Qed.

Lemma flat_words l : forall a b, (b < 4)%nat -> (a < length l)%nat -> at_ (flat_map word_bytes l) (4 * a + b) = at_ (word_bytes (at_ l a)) b.
Proof.
  induction l as [|w l IH]; intros a b Hb Ha; [cbn in Ha; lia|]. change (flat_map word_bytes (w :: l)) with (word_bytes w ++ flat_map word_bytes l).
  destruct a as [|a].
  - rewrite at_app_l by (cbn [word_bytes length]; lia). reflexivity.
  - unfold at_. rewrite app_nth2 by (cbn [word_bytes length]; lia). replace (4 * S a + b - length (word_bytes w))%nat with (4 * a + b)%nat by (cbn [word_bytes length]; lia).
    apply IH; [done | cbn in Ha; lia].
Qed.

Lemma load_round_key i : (i <= 10)%nat -> gcmx86_load (flat_map word_bytes rks) (16 * i) = le_val (round_key i).
Proof.
  intros Hi. unfold gcmx86_load, round_key. f_equal. apply map_ext_in. intros j Hj%in_seq.
  pose proof (Nat.div_mod_eq j 4). pose proof (Nat.mod_upper_bound j 4 ltac:(lia)).
  replace (16 * i + j)%nat with (4 * (4 * i + j / 4) + j mod 4)%nat by lia. apply flat_words; [done|]. rewrite rks_length. lia.
Qed.

Lemma add_round_key_xor s i : state_ok s -> add_round_key s (drop (4 * i) rks) = zip_with Z.lxor s (round_key i).
Proof.
  intros [_ Hl]. do 16 (destruct s as [|? s]; [discriminate|]). destruct s; [|discriminate].
  unfold add_round_key, round_key. generalize rks. intros rk. assert (E : forall c, at_ (drop (4 * i) rk) c = at_ rk (4 * i + c)) by (intros c; unfold at_; apply List.nth_skipn).
  cbn [seq flat_map map app zip_with]. rewrite !E. generalize (at_ rk). intros w. reflexivity.
Qed.

Lemma round_state s i : state_ok s -> (i <= 9)%nat -> state_ok (round_full s (drop (4 * i) rks)).
Proof.
  intros Hs Hi. pose proof rks_length as Hr. refine (proj1 (proj2 (round_fips s (drop (4 * i) rks) _ Hs _ eq_refl))). rewrite length_drop. lia.
Qed.

Lemma aesenc_spec s i : state_ok s -> i_aesenc M (le_val s) (le_val (round_key i)) = le_val (round_full s (drop (4 * i) rks)).
Proof.
  intros Hs. rewrite (aesenc_doc M HM) by (assumption || apply round_key_ok). destruct (sub_bytes_fips s Hs) as [<- H1]. destruct (shift_rows_fips _ H1) as [<- H2]. destruct (mix_columns_fips _ H2) as [<- H3].
  unfold round_full. rewrite add_round_key_xor by done. apply state_lxor; [done | apply round_key_ok].
Qed.
Lemma aesenclast_spec s i : state_ok s -> i_aesenclast M (le_val s) (le_val (round_key i)) = le_val (round_last s (drop (4 * i) rks)).
Proof.
  intros Hs. rewrite (aesenclast_doc M HM) by (assumption || apply round_key_ok). destruct (sub_bytes_fips s Hs) as [<- H1]. destruct (shift_rows_fips _ H1) as [<- H2].
  unfold round_last. rewrite add_round_key_xor by done. apply state_lxor; [done | apply round_key_ok].
Qed.

(** AES-NI computes the code's AES. *)
Lemma gcmx86_aes_spec h s : state_ok s -> gcmx86_aes M (mk_gcmx86 (flat_map word_bytes rks) h) (le_val s) = le_val (aes128_encrypt rks s).
Proof.
  intros Hs. unfold gcmx86_aes. cbn [gx_rk]. change 160%nat with (16 * 10)%nat. rewrite (load_round_key 10) by lia.
  replace (gcmx86_load (flat_map word_bytes rks) 0) with (le_val (round_key 0)) by (symmetry; apply (load_round_key 0); lia).
  rewrite state_lxor by (assumption || apply round_key_ok). rewrite <- (add_round_key_xor s 0) by assumption. change (drop (4 * 0) rks) with rks.
  pose proof rks_length as Hrk.
  assert (H0 : state_ok (add_round_key s rks)) by (apply add_round_key_fips; [assumption | lia]).
  assert (Hf : forall l t, Forall (fun i => (i <= 9)%nat) l -> state_ok t ->
    foldl (fun s i => i_aesenc M s (gcmx86_load (flat_map word_bytes rks) (16 * i))) (le_val t) l = le_val (foldl (fun s r => round_full s (drop (4 * r) rks)) t l) /\
    state_ok (foldl (fun s r => round_full s (drop (4 * r) rks)) t l)).
  { induction l as [|i l IH]; intros t Hl Ht; [split; [reflexivity | assumption]|]. apply List.Forall_cons_iff in Hl as [Hi Hl]. cbn [foldl]. rewrite load_round_key, aesenc_spec by (assumption || lia). apply IH; [assumption | apply round_state; [assumption | lia]]. }
  destruct (Hf (seq 1 9) _ ltac:(apply List.Forall_forall; intros ? ?%in_seq; lia) H0) as [-> Ho]. rewrite aesenclast_spec by assumption. reflexivity.
Qed.

Notation hw h := (mk_gcmx86 (flat_map word_bytes rks) h).

Lemma aes_state s : state_ok s -> state_ok (aes128_encrypt rks s).
Proof.
  intros Hs. refine (proj2 (aes_encrypt_fips 4 AES_ROUNDS rks key s _ _ _ Hs)); [exact rks_words | exact rks_length | unfold AES_ROUNDS; lia].
Qed.

(** GHASH on registers. *)
Lemma ghash86_spec H p : 0 <= H < 2 ^ 128 -> bytes_ok p -> forall n off y, 0 <= y < 2 ^ 128 -> (length (drop off p) <= n)%nat ->
  ghash86_loop (S n) M H y p off = sp_ghash H y (sp_blocks n (drop off p)).
Proof.
  intros HH Hp. assert (Hstep : forall y off, 0 <= y < 2 ^ 128 -> gcmx86_gfmul M (Z.lxor y (be_val (pad_at p off))) H = gf128_mul (Z.lxor y (be_val (pad_at p off))) H).
  { intros y off Hy. apply gcmx86_gfmul_spec; [exact HM | | exact HH]. apply lxor_128; [exact Hy|]. exact (proj2 (block_val _ (pad_at_ok p off Hp))). }
  induction n as [|n IH]; intros off y Hy Hn; cbn [ghash86_loop].
  - rewrite length_drop in Hn. destruct (Nat.leb_spec (off + 16) (length p)); [lia|]. destruct (Nat.ltb_spec off (length p)); [lia|]. reflexivity.
  - rewrite length_drop in Hn. destruct (Nat.leb_spec (off + 16) (length p)) as [Ho|Ho].
    + change (if (off + 16 + 16 <=? length p)%nat then ?a else ?b) with (ghash86_loop (S n) M H (gcmx86_gfmul M (Z.lxor y (gcmx86_rev (gcmx86_load p off))) H) p (off + 16)).
      rewrite rev_load, Hstep by (assumption || lia). rewrite IH by (rewrite ?length_drop; lia || apply gf128_mul_range).
      destruct (drop off p) as [|c l] eqn:E; [apply (f_equal (length (A:=Z))) in E; rewrite length_drop in E; cbn [length] in E; lia|].
      cbn [sp_blocks]. rewrite <- E, drop_drop. reflexivity.
    + destruct (Nat.ltb_spec off (length p)) as [Hlt|Hge]; [|rewrite drop_ge by lia; reflexivity].
      rewrite load_rev_spec, Hstep by (assumption || lia).
      destruct (drop off p) as [|c l] eqn:E; [apply (f_equal (length (A:=Z))) in E; rewrite length_drop in E; cbn [length] in E; lia|].
      cbn [sp_blocks]. rewrite <- E, drop_drop, (drop_ge p (off + 16)) by lia. destruct n; reflexivity.
Qed.

Lemma gcmx86_ghash_spec H y p : 0 <= H < 2 ^ 128 -> bytes_ok p -> 0 <= y < 2 ^ 128 -> gcmx86_ghash M H y p = sp_ghash H y (sp_blocks (length p) p).
Proof. intros HH Hp Hy. unfold gcmx86_ghash. exact (ghash86_spec H p HH Hp (length p) 0 y Hy (le_n _)). Qed.

(** One block of counter mode. *)
Lemma ctr_block_spec h j p off : state_ok j -> bytes_ok p -> (off + 16 <= length p)%nat ->
  gcmx86_ctr_block M (hw h) j p off = (gcm_ctr_inc j, zip_with Z.lxor (take 16 (drop off p)) (aes128_encrypt rks (gcm_ctr_inc j))).
Proof.
  intros Hj Hp Ho. unfold gcmx86_ctr_block. rewrite inc32_eq. destruct (ctr_inc_spec j Hj) as [Hi _].
  f_equal. rewrite (load_whole (gcm_ctr_inc j)) by apply Hi. rewrite gcmx86_aes_spec by exact Hi. rewrite reg_load_at by exact Ho.
  assert (Hb : state_ok (take 16 (drop off p))) by (split; [by apply bytes_ok_take, bytes_ok_drop | rewrite length_take, length_drop; lia]).
  rewrite state_lxor by (assumption || by apply aes_state). apply store_val, zip_lxor_state; [exact Hb | by apply aes_state].
Qed.

(** Counter mode with just enough fuel. *)
Lemma sp_gctr_fuel enc n : forall m icb l, (length l <= n)%nat -> (length l <= m)%nat -> sp_gctr n enc icb l = sp_gctr m enc icb l.
Proof.
  induction n as [|n IH]; intros [|m] icb l Hn Hm; try (destruct l; [reflexivity | cbn in *; lia]). destruct l as [|x l]; [reflexivity|]. cbn [sp_gctr]. f_equal.
  apply IH; rewrite length_drop; cbn [length] in *; lia.
Qed.
Definition gctr (icb : Z) (l : list Z) : list Z := sp_gctr (length l) (aes128_encrypt rks) icb l.
Lemma gctr_step icb l : l <> [] -> gctr icb l = zip_with Z.lxor (take 16 l) (aes128_encrypt rks (block icb)) ++ gctr (sp_inc32 icb) (drop 16 l).
Proof.
  intros Hl. unfold gctr. destruct l as [|x l]; [congruence|]. set (i := x :: l). change (length i) with (S (length l)). cbn [sp_gctr]. f_equal.
  apply sp_gctr_fuel; rewrite length_drop; unfold i; cbn [length]; lia.
Qed.

Lemma drop_nonempty (p : list Z) off : (off < length p)%nat -> drop off p <> [].
Proof. intros Ho E. apply (f_equal (length (A:=Z))) in E. rewrite length_drop in E. cbn [length] in E. lia. Qed.

Lemma inc_block j : state_ok j -> block (sp_inc32 (be_val j)) = gcm_ctr_inc j.
Proof. intros Hj. destruct (ctr_inc_spec j Hj) as [Hi <-]. exact (proj1 (block_val _ Hi)). Qed.

Lemma x1_loop_spec h p : bytes_ok p -> forall n j out off, state_ok j -> (length (drop off p) <= n)%nat ->
  x1_loop (S n) M (hw h) j p out off = out ++ gctr (sp_inc32 (be_val j)) (drop off p).
Proof.
  intros Hp. induction n as [|n IH]; intros j out off Hj Hn; rewrite length_drop in Hn; cbn [x1_loop].
  - destruct (Nat.leb_spec (off + 16) (length p)); [lia|]. destruct (Nat.ltb_spec off (length p)); [lia|]. rewrite drop_ge by lia. unfold gctr. cbn [length sp_gctr]. by rewrite app_nil_r.
  - destruct (ctr_inc_spec j Hj) as [Hi Ei]. destruct (Nat.leb_spec (off + 16) (length p)) as [Ho|Ho].
    + rewrite ctr_block_spec by assumption.
      change (if (off + 16 + 16 <=? length p)%nat then ?a else ?b) with (x1_loop (S n) M (hw h) (gcm_ctr_inc j) p (out ++ zip_with Z.lxor (take 16 (drop off p)) (aes128_encrypt rks (gcm_ctr_inc j))) (off + 16)).
      rewrite IH by (assumption || (rewrite length_drop; lia)). rewrite (gctr_step _ (drop off p)) by (apply drop_nonempty; lia). rewrite inc_block, Ei, drop_drop by assumption. by rewrite <- app_assoc.
    + destruct (Nat.ltb_spec off (length p)) as [Hlt|Hge].
      * f_equal. rewrite (gctr_step _ (drop off p)) by (apply drop_nonempty; lia). rewrite inc_block, drop_drop, (drop_ge p (off + 16)) by (assumption || lia). unfold gctr. cbn [length sp_gctr]. rewrite app_nil_r.
        unfold gcmx86_ctr_tail. rewrite inc32_eq. rewrite (load_whole (gcm_ctr_inc j)) by apply Hi. rewrite gcmx86_aes_spec by exact Hi.
        rewrite store_val by (apply aes_state; exact Hi). f_equal. symmetry. apply take_ge. rewrite length_drop. lia.
      * rewrite drop_ge by lia. unfold gctr. cbn [length sp_gctr]. by rewrite app_nil_r.
Qed.

Lemma foldl_map (f : nat -> Z -> Z) l : forall s, foldl (fun s r => map (f r) s) s l = map (fun v => foldl (fun v r => f r v) v l) s.
Proof.
  induction l as [|r l IH]; intros s; cbn [foldl]; [symmetry; apply map_id|]. rewrite IH, map_map. reflexivity.
Qed.

(** The four interleaved chains are four encryptions. *)
Lemma aes4_spec x s : gcmx86_aes4 M x s = map (gcmx86_aes M x) s.
Proof.
  unfold gcmx86_aes4, gcmx86_aes4_last, gcmx86_aes4_init, gcmx86_aes4_round, gcmx86_aes.
  rewrite (foldl_map (fun r v => i_aesenc M v (gcmx86_load (gx_rk x) (16 * r)))), !map_map. reflexivity.
Qed.

Lemma x4_advance_spec j : let j1 := gcm_ctr_inc j in let j2 := gcm_ctr_inc j1 in let j3 := gcm_ctr_inc j2 in let j4 := gcm_ctr_inc j3 in
  gcmx86_ctr_x4_advance j = (j4, [gcmx86_load j1 0; gcmx86_load j2 0; gcmx86_load j3 0; gcmx86_load j4 0]).
Proof.
  assert (G : forall (f : list Z -> list Z) (ld : list Z -> Z), foldl (fun '(j, s) _ => let j := f j in (j, s ++ [ld j])) (j, []) (seq 0 4) =
    (f (f (f (f j))), [ld (f j); ld (f (f j)); ld (f (f (f j))); ld (f (f (f (f j))))])) by reflexivity.
  unfold gcmx86_ctr_x4_advance. rewrite inc32_eq. exact (G gcm_ctr_inc (fun j => gcmx86_load j 0)).
Qed.

(** Four lanes stored over four blocks. *)
Lemma x4_store_spec p off s1 s2 s3 s4 : bytes_ok p -> (off + 64 <= length p)%nat -> state_ok s1 -> state_ok s2 -> state_ok s3 -> state_ok s4 ->
  gcmx86_ctr_x4_store [le_val s1; le_val s2; le_val s3; le_val s4] p off =
  zip_with Z.lxor (take 16 (drop off p)) s1 ++ zip_with Z.lxor (take 16 (drop (off + 16) p)) s2 ++
  zip_with Z.lxor (take 16 (drop (off + 16 + 16) p)) s3 ++ zip_with Z.lxor (take 16 (drop (off + 16 + 16 + 16) p)) s4.
Proof.
  intros Hp Ho H1 H2 H3 H4.
  assert (Hs : forall o s, state_ok s -> (o + 16 <= length p)%nat -> gcmx86_store (Z.lxor (gcmx86_load p o) (le_val s)) = zip_with Z.lxor (take 16 (drop o p)) s).
  { intros o s Hs Hk'. rewrite reg_load_at by lia. assert (Hb : state_ok (take 16 (drop o p))) by (split; [by apply bytes_ok_take, bytes_ok_drop | rewrite length_take, length_drop; lia]).
    rewrite state_lxor by assumption. apply store_val, zip_lxor_state; assumption. }
  unfold gcmx86_ctr_x4_store. cbn [seq flat_map]. unfold at_. cbn [nth]. rewrite !Hs by (assumption || lia). rewrite app_nil_r.
  replace (off + 16 * 0)%nat with off by lia. replace (off + 16 * 1)%nat with (off + 16)%nat by lia. replace (off + 16 * 2)%nat with (off + 16 + 16)%nat by lia.
  replace (off + 16 * 3)%nat with (off + 16 + 16 + 16)%nat by lia. reflexivity.
Qed.

Lemma gctr_at j p off : state_ok j -> (off < length p)%nat ->
  gctr (sp_inc32 (be_val j)) (drop off p) = zip_with Z.lxor (take 16 (drop off p)) (aes128_encrypt rks (gcm_ctr_inc j)) ++ gctr (sp_inc32 (be_val (gcm_ctr_inc j))) (drop (off + 16) p).
Proof.
  intros Hj Ho. rewrite (gctr_step _ (drop off p)), drop_drop, inc_block by (assumption || by apply drop_nonempty). rewrite (proj2 (ctr_inc_spec j Hj)). reflexivity.
Qed.

Lemma gctr_at_4 p off j j1 j2 j3 j4 : state_ok j -> (off + 64 <= length p)%nat -> gcm_ctr_inc j = j1 -> gcm_ctr_inc j1 = j2 -> gcm_ctr_inc j2 = j3 -> gcm_ctr_inc j3 = j4 ->
  gctr (sp_inc32 (be_val j)) (drop off p) =
  (zip_with Z.lxor (take 16 (drop off p)) (aes128_encrypt rks j1) ++ zip_with Z.lxor (take 16 (drop (off + 16) p)) (aes128_encrypt rks j2) ++
   zip_with Z.lxor (take 16 (drop (off + 16 + 16) p)) (aes128_encrypt rks j3) ++ zip_with Z.lxor (take 16 (drop (off + 16 + 16 + 16) p)) (aes128_encrypt rks j4)) ++
  gctr (sp_inc32 (be_val j4)) (drop (off + 64) p).
Proof.
  intros Hj Ho E1 E2 E3 E4.
  assert (H1 : state_ok j1) by (rewrite <- E1; apply ctr_inc_spec; exact Hj). assert (H2 : state_ok j2) by (rewrite <- E2; apply ctr_inc_spec; exact H1). assert (H3 : state_ok j3) by (rewrite <- E3; apply ctr_inc_spec; exact H2).
  rewrite (gctr_at j), E1, (gctr_at j1), E2, (gctr_at j2), E3, (gctr_at j3), E4 by (assumption || lia).
  rewrite <- !app_assoc. replace (off + 16 + 16 + 16 + 16)%nat with (off + 64)%nat by lia. reflexivity.
Qed.

Lemma x4_spec h p j off : bytes_ok p -> state_ok j -> (off + 64 <= length p)%nat ->
  exists j4 o, gcmx86_ctr_x4 M (hw h) j p off = (j4, o) /\ state_ok j4 /\ gctr (sp_inc32 (be_val j)) (drop off p) = o ++ gctr (sp_inc32 (be_val j4)) (drop (off + 64) p).
Proof.
  intros Hp Hj Ho. unfold gcmx86_ctr_x4. rewrite x4_advance_spec.
  pose proof (proj1 (ctr_inc_spec j Hj)) as H1. remember (gcm_ctr_inc j) as j1 eqn:E1. pose proof (proj1 (ctr_inc_spec j1 H1)) as H2. remember (gcm_ctr_inc j1) as j2 eqn:E2.
  pose proof (proj1 (ctr_inc_spec j2 H2)) as H3. remember (gcm_ctr_inc j2) as j3 eqn:E3. pose proof (proj1 (ctr_inc_spec j3 H3)) as H4. remember (gcm_ctr_inc j3) as j4 eqn:E4.
  eexists j4, _. split; [reflexivity|]. split; [exact H4|]. rewrite aes4_spec. cbn [map].
  rewrite !load_whole by (apply H1 || apply H2 || apply H3 || apply H4). rewrite !gcmx86_aes_spec by assumption.
  rewrite x4_store_spec by (assumption || by apply aes_state). apply gctr_at_4; congruence.
Qed.

Lemma x4_loop_spec h p : bytes_ok p -> forall n j out off, state_ok j ->
  exists j' out' off', x4_loop n M (hw h) j p out off = (j', out', off') /\ state_ok j' /\
    out ++ gctr (sp_inc32 (be_val j)) (drop off p) = out' ++ gctr (sp_inc32 (be_val j')) (drop off' p).
Proof.
  intros Hp. induction n as [|n IH]; intros j out off Hj; cbn [x4_loop]; [by exists j, out, off|].
  destruct (Nat.leb_spec (off + 64) (length p)) as [Ho|Ho]; [|by exists j, out, off].
  destruct (x4_spec h p j off Hp Hj Ho) as (j4 & o & -> & H4 & E). rewrite E, app_assoc. by apply IH.
Qed.

Lemma gcmx86_ctr_spec h p j : bytes_ok p -> state_ok j -> gcmx86_ctr M (hw h) j p = gctr (sp_inc32 (be_val j)) p.
Proof.
  intros Hp Hj. unfold gcmx86_ctr, gcmx86_ctr_x4_all. destruct (x4_loop_spec h p Hp (length p) j [] 0 Hj) as (j' & out & off & -> & Hj' & E).
  rewrite (x1_loop_spec h p Hp (length p)), <- E by (assumption || (rewrite length_drop; lia)). reflexivity.
Qed.

Lemma chunks4 (l : list Z) : length l = 16%nat -> take 4 (drop (4 * 0) l) ++ take 4 (drop (4 * 1) l) ++ take 4 (drop (4 * 2) l) ++ take 4 (drop (4 * 3) l) = l.
Proof. intros Hl. do 16 (destruct l as [|? l]; [discriminate|]). destruct l; [reflexivity | discriminate]. Qed.

(** The whole of the hardware path. *)
Lemma hw_key : gcm_key_from_aes128 rks = key.
Proof.
  destruct (key_words 4 key Hk Hlk) as [Ew _]. unfold gcm_key_from_aes128.
  assert (E : forall i, (i < 4)%nat -> word_bytes (at_ rks i) = take 4 (drop (4 * i) key)).
  { intros i Hi. rewrite <- nth_words by (rewrite rks_length; lia). rewrite rks_words. unfold fips_key_expansion.
    assert (Hpre : forall n w, (i < length w)%nat -> nth i (Nat.iter n (fun w => w ++ [fips_next_word 4 w]) w) [] = nth i w []).
    { induction n as [|n IH]; intros w Hw; [reflexivity|]. rewrite Nat.iter_succ_r, IH by (rewrite length_app; lia). by apply app_nth1. }
    rewrite Hpre by (rewrite length_map, length_seq; lia). destruct i as [|[|[|[|]]]]; try reflexivity. lia. }
  cbn [seq flat_map]. rewrite !E by lia. rewrite app_nil_r. apply (chunks4 key Hlk).
Qed.

Lemma hw_from nonce aad : gcm_x86_from M (mk_gcm rks nonce aad) = hw (aes128_encrypt rks (replicate 16 0)).
Proof.
  unfold gcm_x86_from. cbn [g_aes]. rewrite hw_key. unfold gcmx86_init. rewrite <- rks_def. assert (Ez : 0 = le_val (replicate 16 0)) by reflexivity. rewrite Ez at 1. rewrite gcmx86_aes_spec by apply state_ok_zeros. rewrite store_val by apply aes_state, state_ok_zeros. reflexivity.
Qed.

Context (nonce : list Z) (Hn : bytes_ok nonce) (Hln : length nonce = 12%nat).

Lemma gcmx86_tag_spec aad ct : bytes_ok aad -> bytes_ok ct -> zlen aad < 2 ^ 60 -> zlen ct < 2 ^ 60 ->
  gcmx86_tag M (hw (aes128_encrypt rks (replicate 16 0))) (gcmx86_j0 nonce) aad ct = sp_tag (aes128_encrypt rks) nonce aad ct.
Proof.
  intros Ha Hc La Lc. destruct (j0_ok nonce Hn Hln) as [Et Hj]. pose proof (aes_state _ state_ok_zeros) as Hh. pose proof (aes_state _ Hj) as He.
  pose proof (zlen_nonneg aad). pose proof (zlen_nonneg ct). unfold gcmx86_tag, gcmx86_j0, sp_tag. rewrite Et. cbn [gx_h].
  set (h := aes128_encrypt rks (replicate 16 0)) in *. set (e := nonce ++ [0; 0; 0; 1]) in *. clearbody h e.
  rewrite !u64_small by lia. rewrite !be64_spec by lia. destruct (lens_spec (zlen aad * 8) (zlen ct * 8) ltac:(lia) ltac:(lia)) as [Hls Els].
  assert (Hpad : forall l, state_ok l -> gcmx86_load_rev l 0 16 = be_val l).
  { intros l [_ Ll]. rewrite load_rev_spec by lia. f_equal. unfold pad_at. change (drop 0 l) with l. rewrite take_ge by lia. rewrite Ll. apply app_nil_r. }
  rewrite !Hpad, Els by assumption. destruct (block_val h Hh) as [_ Rh].
  rewrite (gcmx86_ghash_spec _ 0 aad) by (assumption || lia).
  assert (R1 : 0 <= sp_ghash (be_val h) 0 (sp_blocks (length aad) aad) < 2 ^ 128) by (apply sp_ghash_range; lia).
  rewrite gcmx86_ghash_spec by assumption. rewrite !sp_ghash_app. set (y := sp_ghash (be_val h) _ (sp_blocks (length ct) ct)).
  assert (R2 : 0 <= y < 2 ^ 128) by (apply sp_ghash_range; exact R1). clearbody y.
  assert (R3 : 0 <= zlen aad * 8 * 2 ^ 64 + zlen ct * 8 < 2 ^ 128) by (change (2 ^ 128) with (2 ^ 64 * 2 ^ 64); nia).
  rewrite gcmx86_gfmul_spec by (assumption || by apply lxor_128). rewrite rev_block, (load_whole e), gcmx86_aes_spec by (assumption || apply Hj).
  rewrite state_lxor by (assumption || apply block_ok). rewrite store_val by (apply zip_lxor_state; [apply block_ok | assumption]).
  replace (block (be_val e)) with e by (symmetry; exact (proj1 (block_val e Hj))). reflexivity.
Qed.

Context (aad : list Z) (Ha : bytes_ok aad) (La : zlen aad < 2 ^ 60).

Lemma hw_seal pt : bytes_ok pt -> zlen pt < 2 ^ 60 ->
  gcmx86_seal M (gcm_x86_from M (mk_gcm rks nonce aad)) nonce aad pt = sp_seal (aes128_encrypt rks) nonce aad pt.
Proof.
  intros Hp Lp. destruct (j0_ok nonce Hn Hln) as [Et Hj]. rewrite hw_from. unfold gcmx86_seal.
  assert (Ec : gcmx86_ctr M (hw (aes128_encrypt rks (replicate 16 0))) (gcmx86_j0 nonce) pt = sp_crypt (aes128_encrypt rks) nonce pt).
  { rewrite gcmx86_ctr_spec by (assumption || (unfold gcmx86_j0; rewrite Et; exact Hj)). unfold gcmx86_j0. rewrite Et. reflexivity. }
  rewrite Ec, gcmx86_tag_spec by (assumption || (apply sp_crypt_ok; [exact aes_state | assumption]) ||
    (unfold zlen in *; rewrite sp_crypt_length; [assumption | exact aes_state])). reflexivity.
Qed.

Lemma hw_open ct : (16 <= length ct)%nat -> bytes_ok ct -> zlen ct < 2 ^ 60 ->
  let body := take (length ct - 16) ct in
  gcmx86_open M (gcm_x86_from M (mk_gcm rks nonce aad)) nonce aad ct =
  d ← ct_diff16 (sp_tag (aes128_encrypt rks) nonce aad body) (drop (length body) ct);
  if negb (d =? 0) then Some (0, None) else Some (zlen body, Some (sp_crypt (aes128_encrypt rks) nonce body)).
Proof.
  intros Hl Hc Lc body. destruct (j0_ok nonce Hn Hln) as [Et Hj]. rewrite hw_from. unfold gcmx86_open, GCM_TAG.
  replace (length ct <? 16)%nat with false by (symmetry; apply Nat.ltb_ge; exact Hl).
  assert (Hb : length body = (length ct - 16)%nat) by (unfold body; rewrite length_take; lia).
  assert (Hbo : bytes_ok body) by (apply bytes_ok_take; exact Hc).
  assert (Lb : zlen body < 2 ^ 60) by (unfold zlen in *; lia). fold body. cbn zeta.
  rewrite gcmx86_tag_spec by assumption.
  assert (Ec : gcmx86_ctr M (hw (aes128_encrypt rks (replicate 16 0))) (gcmx86_j0 nonce) body = sp_crypt (aes128_encrypt rks) nonce body).
  { rewrite gcmx86_ctr_spec by (assumption || (unfold gcmx86_j0; rewrite Et; exact Hj)). unfold gcmx86_j0. rewrite Et. reflexivity. }
  rewrite Ec. reflexivity.
Qed.
End hardware.


(** ** Both paths *)

Section paths.
Context (enc : list Z -> list Z) (Henc : forall s, state_ok s -> state_ok (enc s)).
Context (nonce : list Z) (Hn : bytes_ok nonce) (Hln : length nonce = 12%nat).
Context (aad : list Z) (Ha : bytes_ok aad) (La : zlen aad < 2 ^ 60).

Lemma scalar_crypt l : ctr_with enc (length l) (gcm_ctr_inc (snd (setup_with enc nonce))) l = sp_crypt enc nonce l.
Proof.
  unfold setup_with. cbn [snd]. destruct (j0_ok nonce Hn Hln) as [Et Hj]. rewrite Et. destruct (ctr_inc_spec _ Hj) as [H1 H2].
  rewrite ctr_with_spec by assumption. rewrite H2. reflexivity.
Qed.

Lemma scalar_seal pt : bytes_ok pt -> zlen pt < 2 ^ 60 ->
  (let st := setup_with enc nonce in let out := ctr_with enc (length pt) (gcm_ctr_inc (snd st)) pt in out ++ tag_with enc st aad out) = sp_seal enc nonce aad pt.
Proof.
  intros Hp Lp. cbn zeta. rewrite scalar_crypt. unfold sp_seal. f_equal. apply tag_with_spec; try assumption.
  - apply sp_crypt_ok; assumption.
  - unfold zlen in *. rewrite sp_crypt_length; assumption.
Qed.

Lemma scalar_open ct : (16 <= length ct)%nat -> bytes_ok ct -> zlen ct < 2 ^ 60 ->
  let st := setup_with enc nonce in let body := take (length ct - 16) ct in
  exists r, (d ← ct_diff16 (tag_with enc st aad body) (drop (length body) ct);
    if negb (d =? 0) then Some None else Some (Some (ctr_with enc (length body) (gcm_ctr_inc (snd st)) body))) = Some r /\
  forall pt, r = Some pt <-> bytes_ok pt /\ sp_seal enc nonce aad pt = ct.
Proof.
  intros Hl Hc Lc st body. destruct (tag_check enc Henc nonce aad Hn Hln Ha La ct Hl Hc Lc) as (d & Ed & Hd). fold body in Ed, Hd.
  assert (Hb : length body = (length ct - 16)%nat) by (unfold body; rewrite length_take; lia).
  unfold st. rewrite scalar_crypt. destruct (tag_with_spec enc Henc nonce Hn Hln aad body Ha (bytes_ok_take _ _ Hc) La ltac:(unfold zlen in *; lia)) as [-> _].
  rewrite Ed. exists (if d =? 0 then Some (sp_crypt enc nonce body) else None). split; [|exact Hd]. cbn [mbind option_bind]. destruct (d =? 0); reflexivity.
Qed.
End paths.

Lemma aes_state_of key : bytes_ok key -> length key = 16%nat -> forall s, state_ok s ->
  aes128_encrypt (aes128_init key) s = fips_cipher 4 10 key s /\ state_ok (aes128_encrypt (aes128_init key) s).
Proof. intros Hk Hl s Hs. destruct (aes128_schedule key Hk Hl) as [E L]. eapply aes_encrypt_fips; [eassumption | assumption | unfold AES_ROUNDS; lia | exact Hs]. Qed.
Lemma aes256_state_of key : bytes_ok key -> length key = 32%nat -> forall s, state_ok s ->
  aes256_encrypt (aes256_init key) s = fips_cipher 8 14 key s /\ state_ok (aes256_encrypt (aes256_init key) s).
Proof. intros Hk Hl s Hs. destruct (aes256_schedule key Hk Hl) as [E L]. eapply aes_encrypt_fips; [eassumption | assumption | unfold AES256_ROUNDS; lia | exact Hs]. Qed.

Section top.
Context (M : cpu) (HM : cpu_ok M) (cached : Z).
Context (key : list Z) (Hk : bytes_ok key) (Hlk : length key = 16%nat).
Context (nonce : list Z) (Hn : bytes_ok nonce) (Hln : length nonce = 12%nat).
Context (aad : list Z) (Ha : bytes_ok aad) (La : zlen aad < 2 ^ 60).

Lemma aes_henc s : state_ok s -> state_ok (aes128_encrypt (aes128_init key) s).
Proof. intros Hs. exact (proj2 (aes_state_of key Hk Hlk s Hs)). Qed.

Lemma gcm_seal_spec pt : bytes_ok pt -> zlen pt < 2 ^ 60 ->
  gcm_seal M cached (mk_gcm (aes128_init key) nonce aad) pt = sp_seal (aes128_encrypt (aes128_init key)) nonce aad pt.
Proof.
  intros Hp Lp. unfold gcm_seal. destruct (negb _).
  - rewrite <- (rks_def key). apply hw_seal; assumption.
  - apply (scalar_seal (aes128_encrypt (aes128_init key)) aes_henc nonce Hn Hln aad Ha La pt Hp Lp).
Qed.

Lemma gcm_open_spec ct : (16 <= length ct)%nat -> bytes_ok ct -> zlen ct < 2 ^ 60 -> exists r,
  gcm_open M cached (mk_gcm (aes128_init key) nonce aad) ct = Some r /\
  forall pt, r = Some pt <-> bytes_ok pt /\ sp_seal (aes128_encrypt (aes128_init key)) nonce aad pt = ct.
Proof.
  intros Hl Hc Lc. unfold gcm_open, GCM_TAG. replace (length ct <? 16)%nat with false by (symmetry; apply Nat.ltb_ge; exact Hl).
  destruct (negb _); [|exact (scalar_open (aes128_encrypt (aes128_init key)) aes_henc nonce Hn Hln aad Ha La ct Hl Hc Lc)].
  destruct (tag_check (aes128_encrypt (aes128_init key)) aes_henc nonce aad Hn Hln Ha La ct Hl Hc Lc) as (d & Ed & Hd).
  unfold gcm_open_x86, GCM_TAG. destruct (Nat.eqb_spec (length ct) 16) as [E16|N16].
  - unfold gcm_open_x86_empty, gcm_tag, gcm_setup. cbn [g_aes g_nonce g_aad].
    rewrite (proj1 (tag_with_spec (aes128_encrypt (aes128_init key)) aes_henc nonce Hn Hln aad [] Ha (Forall_nil_2 _) La ltac:(unfold zlen; cbn; lia))).
    rewrite E16 in Ed, Hd. change (take (16 - 16) ct) with (@nil Z) in Ed, Hd. change (drop (length []) ct) with ct in Ed.
    rewrite Ed. eexists. split; [reflexivity|]. exact Hd.
  - pose proof (hw_open M HM key Hk Hlk nonce Hn Hln aad Ha La ct Hl Hc Lc) as Ho. cbn zeta in Ho. rewrite (rks_def key) in Ho. cbn [g_nonce g_aad]. rewrite Ho, Ed. cbn [mbind option_bind].
    eexists. split; [|exact Hd]. destruct (d =? 0); cbn [negb mbind option_bind]; [|reflexivity].
    replace (zlen _ =? 0) with false; [reflexivity|]. symmetry. apply Z.eqb_neq. unfold zlen. rewrite length_take. lia.
Qed.
End top.

Lemma sp_seal_shape enc nonce aad pt : (forall s, state_ok s -> state_ok (enc s)) -> bytes_ok nonce -> length nonce = 12%nat -> bytes_ok aad -> zlen aad < 2 ^ 60 ->
  bytes_ok pt -> zlen pt < 2 ^ 60 -> bytes_ok (sp_seal enc nonce aad pt) /\ length (sp_seal enc nonce aad pt) = (length pt + 16)%nat.
Proof.
  intros He Hn Hln Ha La Hp Lp. pose proof (sp_crypt_ok enc He nonce pt Hp) as Hc.
  destruct (sp_tag_ok enc He nonce aad Hn Hln Ha La (sp_crypt enc nonce pt) Hc) as [T L]; [unfold zlen in *; rewrite sp_crypt_length; assumption|].
  unfold sp_seal. rewrite length_app, L, sp_crypt_length by exact He. split; [|reflexivity]. apply bytes_ok_app. split; assumption.
Qed.

Lemma sp_seal_length enc nonce aad pt : (forall s, state_ok s -> state_ok (enc s)) -> length (sp_seal enc nonce aad pt) = (length pt + 16)%nat.
Proof.
  intros He. unfold sp_seal. rewrite length_app, sp_crypt_length by exact He. f_equal. unfold sp_tag.
  rewrite length_zip_with, (proj2 (block_ok _)), (proj2 (He _ (block_ok _))). reflexivity.
Qed.

Lemma short_sealed enc nonce aad ct pt : (forall s, state_ok s -> state_ok (enc s)) -> bytes_ok nonce -> length nonce = 12%nat -> bytes_ok aad -> zlen aad < 2 ^ 60 ->
  (length ct < 16)%nat -> bytes_ok pt -> sp_seal enc nonce aad pt = ct -> False.
Proof.
  intros He Hn Hln Ha La Hl Hp E. apply (f_equal length) in E. rewrite sp_seal_length in E by exact He. lia.
Qed.

(** What both key sizes promise, over the specification's cipher [E] of their key. *)
Definition gcm_laws (E : list Z -> list Z) (nonce aad : list Z) (sealing : list Z -> list Z) (opening : list Z -> option (option (list Z))) : Prop :=
  (forall pt, bytes_ok pt -> zlen pt < 2 ^ 60 -> sealing pt = sp_seal E nonce aad pt) /\
  (forall pt, bytes_ok pt -> zlen pt < 2 ^ 60 -> bytes_ok (sp_seal E nonce aad pt) /\ length (sp_seal E nonce aad pt) = (length pt + 16)%nat) /\
  (forall ct, bytes_ok ct -> zlen ct < 2 ^ 60 -> exists r, opening ct = Some r /\ forall p, r = Some p <-> bytes_ok p /\ sp_seal E nonce aad p = ct) /\
  (forall pt, length (sp_seal E nonce aad pt) = (length pt + 16)%nat).

Section promise.
Context (nonce : list Z) (Hn : bytes_ok nonce) (Hln : length nonce = 12%nat).
Context (aad : list Z) (Ha : bytes_ok aad) (La : zlen aad < 2 ^ 60).

Lemma gcm128_promise M cached key : cpu_ok M -> bytes_ok key -> length key = 16%nat ->
  gcm_laws (fips_cipher 4 10 key) nonce aad (gcm_seal M cached (mk_gcm (aes128_init key) nonce aad)) (gcm_open M cached (mk_gcm (aes128_init key) nonce aad)).
Proof.
  intros HM Hk Hlk. pose proof (aes_henc key Hk Hlk) as He.
  assert (E1 : forall p, sp_seal (fips_cipher 4 10 key) nonce aad p = sp_seal (aes128_encrypt (aes128_init key)) nonce aad p).
  { intros p. apply sp_seal_ext; try assumption. intros s Hs. symmetry. exact (proj1 (aes_state_of key Hk Hlk s Hs)). }
  split_and!.
  - intros pt Hp Lp. rewrite E1. apply gcm_seal_spec; assumption.
  - intros pt Hp Lp. rewrite E1. apply sp_seal_shape; assumption.
  - intros ct Hc Lc. destruct (le_lt_dec 16 (length ct)) as [Hl|Hl].
    { destruct (gcm_open_spec M HM cached key Hk Hlk nonce Hn Hln aad Ha La ct Hl Hc Lc) as (r & Er & Hr). exists r. split; [exact Er|]. intros p. rewrite E1. apply Hr. }
    exists None. split; [unfold gcm_open, GCM_TAG; apply Nat.ltb_lt in Hl; rewrite Hl; reflexivity|].
    intros p. rewrite E1. split; [discriminate | intros [Hpo E]; exfalso; exact (short_sealed _ nonce aad ct p He Hn Hln Ha La Hl Hpo E)].
  - intros pt. rewrite E1. apply sp_seal_length, He.
Qed.

Lemma gcm256_promise key : bytes_ok key -> length key = 32%nat ->
  gcm_laws (fips_cipher 8 14 key) nonce aad (gcm256_seal (mk_gcm (aes256_init key) nonce aad)) (gcm256_open (mk_gcm (aes256_init key) nonce aad)).
Proof.
  intros Hk Hlk. pose proof (fun s Hs => proj2 (aes256_state_of key Hk Hlk s Hs)) as He.
  assert (E1 : forall p, sp_seal (fips_cipher 8 14 key) nonce aad p = sp_seal (aes256_encrypt (aes256_init key)) nonce aad p).
  { intros p. apply sp_seal_ext; try assumption. intros s Hs. symmetry. exact (proj1 (aes256_state_of key Hk Hlk s Hs)). }
  split_and!.
  - intros pt Hp Lp. rewrite E1. exact (scalar_seal _ He nonce Hn Hln aad Ha La pt Hp Lp).
  - intros pt Hp Lp. rewrite E1. apply sp_seal_shape; assumption.
  - intros ct Hc Lc. destruct (le_lt_dec 16 (length ct)) as [Hl|Hl].
    + destruct (scalar_open _ He nonce Hn Hln aad Ha La ct Hl Hc Lc) as (r & Er & Hr). exists r. split; [|intros p; rewrite E1; apply Hr].
      unfold gcm256_open, GCM_TAG. replace (length ct <? 16)%nat with false by (symmetry; apply Nat.ltb_ge; exact Hl). exact Er.
    + exists None. split; [unfold gcm256_open, GCM_TAG; apply Nat.ltb_lt in Hl; rewrite Hl; reflexivity|].
      intros p. rewrite E1. split; [discriminate | intros [Hpo E]; exfalso; exact (short_sealed _ nonce aad ct p He Hn Hln Ha La Hl Hpo E)].
  - intros pt. rewrite E1. apply sp_seal_length, He.
Qed.
End promise.

(** C7: AES-GCM is exactly SP 800-38D over FIPS 197, for both key sizes and
    on every path. Whatever the cached cpuid answer says, and on any
    processor whose carry-less multiplication and AES round instructions do
    what their manual says, [gcm_seal] gives ciphertext and tag of the
    specification with AES-128, whether the scalar code or the AES-NI code
    with four counter blocks at a time runs; [gcm256_seal] gives those of
    AES-256. [gcm_open] and [gcm256_open] decide every input of every
    length, and give a plaintext exactly when the input is what sealing that
    plaintext produces. *)
Theorem gcm_exact M cached key key2 nonce aad pt ct : cpu_ok M -> bytes_ok key -> length key = 16%nat -> bytes_ok key2 -> length key2 = 32%nat ->
  bytes_ok nonce -> length nonce = 12%nat -> bytes_ok aad -> zlen aad < 2 ^ 60 -> bytes_ok pt -> zlen pt < 2 ^ 60 -> bytes_ok ct -> zlen ct < 2 ^ 60 ->
  let g := mk_gcm (aes128_init key) nonce aad in let g2 := mk_gcm (aes256_init key2) nonce aad in
  gcm_seal M cached g pt = sp_seal (fips_cipher 4 10 key) nonce aad pt /\
  gcm256_seal g2 pt = sp_seal (fips_cipher 8 14 key2) nonce aad pt /\
  (exists r, gcm_open M cached g ct = Some r /\ forall p, r = Some p <-> bytes_ok p /\ sp_seal (fips_cipher 4 10 key) nonce aad p = ct) /\
  (exists r, gcm256_open g2 ct = Some r /\ forall p, r = Some p <-> bytes_ok p /\ sp_seal (fips_cipher 8 14 key2) nonce aad p = ct).
Proof.
  intros HM Hk Hlk Hk2 Hlk2 Hn Hln Ha La Hp Lp Hc Lc g g2.
  destruct (gcm128_promise nonce Hn Hln aad Ha La M cached key HM Hk Hlk) as (S1 & _ & O1 & _).
  destruct (gcm256_promise nonce Hn Hln aad Ha La key2 Hk2 Hlk2) as (S2 & _ & O2 & _).
  split_and!; [apply S1 | apply S2 | apply O1 | apply O2]; assumption.
Qed.

(** A processor that does what the manual says. *)
Definition model_cpu : cpu := mk_cpu
  (fun a b imm => pmul 64 (half a (Z.testbit imm 0)) (half b (Z.testbit imm 4)))
  (fun s k => Z.lxor (le_val (fips_mix_columns (fips_shift_rows (fips_sub_bytes (le_bytes 16 s))))) k)
  (fun s k => Z.lxor (le_val (fips_shift_rows (fips_sub_bytes (le_bytes 16 s)))) k)
  (fun _ => 2 ^ 25 + 2).

Lemma model_cpu_ok : cpu_ok model_cpu.
Proof.
  constructor; unfold model_cpu; cbn [i_clmul i_aesenc i_aesenclast].
  - intros. reflexivity.
  - intros s k Hs Hk. pose proof (store_val s Hs) as E. unfold gcmx86_store in E. rewrite E. reflexivity.
  - intros s k Hs Hk. pose proof (store_val s Hs) as E. unfold gcmx86_store in E. rewrite E. reflexivity.
Qed.

(** Test case 3 of the GCM submission, through the AES-NI code. *)
Lemma gcm_exact_witness :
  let key := be_bytes 16 0xfeffe9928665731c6d6a8f9467308308 in let key2 := key ++ key in
  let nonce := be_bytes 12 0xcafebabefacedbaddecaf888 in
  let pt := be_bytes 64 0xd9313225f88406e5a55909c5aff5269a86a7a9531534f7da2e4c303d8a318a721c3c0c95956809532fcf0e2449a6b525b16aedf5aa0de657ba637b391aafd255 in
  let g := mk_gcm (aes128_init key) nonce [] in
  gcm_seal model_cpu 0 g pt = be_bytes 80
    0x42831ec2217774244b7221b784d0d49ce3aa212f2c02a4e035c17e2329aca12e21d514b25466931c7d8f6a5aac84aa051ba30b396a0aac973d58e091473f59854d5c2af327cd64a62cf35abd2ba6fab4 /\
  gcm_seal model_cpu 1 g pt = sp_seal (fips_cipher 4 10 key) nonce [] pt /\
  exists r, gcm_open model_cpu 2 g pt = Some r /\ forall p, r = Some p <-> bytes_ok p /\ sp_seal (fips_cipher 4 10 key) nonce [] p = pt.
Proof.
  intros key key2 nonce pt g. split; [vm_compute; reflexivity|].
  assert (B : forall n v, bytes_ok (be_bytes n v)) by (intros n v; apply be_bytes_ok).
  pose proof (gcm_exact model_cpu 1 key key2 nonce [] pt pt model_cpu_ok (B _ _) eq_refl (proj2 (Forall_app _ _ _) (conj (B _ _) (B _ _))) eq_refl
    (B _ _) eq_refl (Forall_nil_2 _) eq_refl (B _ _) eq_refl (B _ _) eq_refl) as H1.
  pose proof (gcm_exact model_cpu 2 key key2 nonce [] pt pt model_cpu_ok (B _ _) eq_refl (proj2 (Forall_app _ _ _) (conj (B _ _) (B _ _))) eq_refl
    (B _ _) eq_refl (Forall_nil_2 _) eq_refl (B _ _) eq_refl (B _ _) eq_refl) as H2.
  cbn zeta in H1, H2. exact (conj (proj1 H1) (proj1 (proj2 (proj2 H2)))).
Defined.
