(* ===== verification/Chacha.v ===== *)
(** * ChaCha20-Poly1305

    src/src/crypto/symmetric/aead/chacha: the ChaCha20 stream (chacha20.c), the
    Poly1305 authenticator on five 26-bit limbs (poly1305*.c, poly1305_impl*.h)
    and the AEAD (aead.c). The block function is proved to be that of Rfc8439,
    the limb arithmetic to compute Poly1305 modulo 2^130 - 5, and the AEAD to be
    RFC 8439 2.8's: sealing writes it and opening accepts exactly it. *)

From Stdlib Require Import String.
From stdpp Require Import base numbers list option.
From Stdlib Require Import ZArith Lia.
From S2P Require Import Prelude Bytes Rfc8439 Sha2.

(** ** chacha20.c *)

Definition CHACHA_BLOCK : nat := 64.

(* src/src/crypto/symmetric/aead/chacha/chacha20.c : ROTL *)
Definition chacha_ROTL (x n : Z) : Z := Z.lor (u32 (Z.shiftl x n)) (Z.shiftr x (32 - n)).

(** One quarter round on the words [a], [b], [c], [d] of the state. *)
(* src/src/crypto/symmetric/aead/chacha/chacha20.c : QR@6-18 *)
Definition QR (x : list Z) (a b c d : nat) : list Z :=
  let x := <[a := u32 (at_ x a + at_ x b)]> x in
  let x := <[d := Z.lxor (at_ x d) (at_ x a)]> x in
  let x := <[d := chacha_ROTL (at_ x d) 16]> x in
  let x := <[c := u32 (at_ x c + at_ x d)]> x in
  let x := <[b := Z.lxor (at_ x b) (at_ x c)]> x in
  let x := <[b := chacha_ROTL (at_ x b) 12]> x in
  let x := <[a := u32 (at_ x a + at_ x b)]> x in
  let x := <[d := Z.lxor (at_ x d) (at_ x a)]> x in
  let x := <[d := chacha_ROTL (at_ x d) 8]> x in
  let x := <[c := u32 (at_ x c + at_ x d)]> x in
  let x := <[b := Z.lxor (at_ x b) (at_ x c)]> x in
  <[b := chacha_ROTL (at_ x b) 7]> x.

(** Four bytes at [o], little-endian. *)
(* src/src/crypto/symmetric/aead/chacha/chacha20.c : rd32 *)
Definition rd32 (p : list Z) (o : nat) : Z :=
  Z.lor (Z.lor (Z.lor (at_ p o) (u32 (Z.shiftl (at_ p (o + 1)) 8))) (u32 (Z.shiftl (at_ p (o + 2)) 16))) (u32 (Z.shiftl (at_ p (o + 3)) 24)).

(* src/src/crypto/symmetric/aead/chacha/chacha20.c : double_round *)
Definition double_round (x : list Z) : list Z :=
  let x := QR x 0 4 8 12 in
  let x := QR x 1 5 9 13 in
  let x := QR x 2 6 10 14 in
  let x := QR x 3 7 11 15 in
  let x := QR x 0 5 10 15 in
  let x := QR x 1 6 11 12 in
  let x := QR x 2 7 8 13 in
  QR x 3 4 9 14.

(* src/src/crypto/symmetric/aead/chacha/chacha20.c : init_state *)
Definition chacha_init_state (key : list Z) (counter : Z) (nonce : list Z) : list Z :=
  [0x61707865; 0x3320646e; 0x79622d32; 0x6b206574] ++ map (fun i => rd32 key (4 * i)) (seq 0 8) ++ [counter]
  ++ map (fun i => rd32 nonce (4 * i)) (seq 0 3).

(* src/src/crypto/symmetric/aead/chacha/chacha20.c : serialize *)
Definition chacha_serialize (x s : list Z) : list Z :=
  flat_map (fun i => let v := u32 (at_ x i + at_ s i) in [u8 v; u8 (Z.shiftr v 8); u8 (Z.shiftr v 16); u8 (Z.shiftr v 24)]) (seq 0 16).

(* src/src/crypto/symmetric/aead/chacha/chacha20.c : chacha20_block *)
Definition chacha20_block (key : list Z) (counter : Z) (nonce : list Z) : list Z :=
  let s := chacha_init_state key counter nonce in
  chacha_serialize (Nat.iter 10 double_round s) s.

(* src/src/crypto/symmetric/aead/chacha/chacha20.h : chacha_ctx *)
Record chacha_ctx := mk_chacha { cc_key : list Z; cc_nonce : list Z; cc_counter : Z }.

(** The bytes done: as many as the block covers. *)
(* src/src/crypto/symmetric/aead/chacha/chacha20.c : xor_chunk *)
Definition xor_chunk (c : chacha_ctx) (inp : list Z) : list Z :=
  let n := if (length inp <? CHACHA_BLOCK)%nat then length inp else CHACHA_BLOCK in
  let ks := chacha20_block (cc_key c) (cc_counter c) (cc_nonce c) in
  zip_with Z.lxor (take n inp) (take n ks).

(** [while (off < in.n)], [fuel] bounding the chunks. *)
Fixpoint chacha_loop (fuel : nat) (c : chacha_ctx) (inp : list Z) : list Z :=
  match fuel with
  | O => []
  | S f =>
      match inp with
      | [] => []
      | _ =>
          let o := xor_chunk c inp in
          o ++ chacha_loop f (mk_chacha (cc_key c) (cc_nonce c) (u32 (cc_counter c + 1))) (drop (length o) inp)
      end
  end.
(* src/src/crypto/symmetric/aead/chacha/chacha20.c : chacha20_xor *)
Definition chacha20_xor (c : chacha_ctx) (inp : list Z) : list Z := chacha_loop (length inp) c inp.

(** ** Poly1305 *)

(* src/src/crypto/symmetric/aead/chacha/poly1305_impl_head.h : poly *)
Record poly := mk_poly { p_r : list Z; p_h : list Z; p_pad : list Z }.

(* src/src/crypto/symmetric/aead/chacha/poly1305_impl.h : poly1305_rd32le *)
Definition poly1305_rd32le (p : list Z) (o : nat) : Z := rd32 p o.

(* src/src/crypto/symmetric/aead/chacha/poly1305_impl_head.h : poly_row@30-33 *)
Definition poly_row (h : list Z) (a b c d e : Z) : Z :=
  u64 (u64 (at_ h 0 * a) + u64 (at_ h 1 * b) + u64 (at_ h 2 * c) + u64 (at_ h 3 * d) + u64 (at_ h 4 * e)).

(* src/src/crypto/symmetric/aead/chacha/poly1305_impl_head.h : pad_byte@36-41 *)
Definition poly_pad_byte (m : list Z) (i n : nat) : Z :=
  if (i <? n)%nat then at_ m i else if (i =? n)%nat then 1 else 0.

(** The carry loop: the limbs and the carry out. *)
Fixpoint carry_loop (d : list Z) (c : Z) : list Z * Z :=
  match d with
  | [] => ([], c)
  | x :: d' => let x := u64 (x + c) in let '(h, c') := carry_loop d' (Z.shiftr x 26) in (Z.land (u32 x) 0x3ffffff :: h, c')
  end.
(* src/src/crypto/symmetric/aead/chacha/poly1305_impl_head.h : carry_reduce@44-54 *)
Definition carry_reduce (d : list Z) : list Z :=
  let '(h, c) := carry_loop d 0 in
  let h := <[0%nat := u32 (at_ h 0 + u32 (u32 c * 5))]> h in
  let h := <[1%nat := u32 (at_ h 1 + Z.shiftr (at_ h 0) 26)]> h in
  <[0%nat := Z.land (at_ h 0) 0x3ffffff]> h.

(* src/src/crypto/symmetric/aead/chacha/poly1305_impl_head.h : poly_mulmod@57-68 *)
Definition poly_mulmod (st : poly) : poly :=
  let r := at_ (p_r st) in
  let h := p_h st in
  let s1 := u32 (r 1%nat * 5) in let s2 := u32 (r 2%nat * 5) in let s3 := u32 (r 3%nat * 5) in let s4 := u32 (r 4%nat * 5) in
  let d := [poly_row h (r 0%nat) s4 s3 s2 s1; poly_row h (r 1%nat) (r 0%nat) s4 s3 s2; poly_row h (r 2%nat) (r 1%nat) (r 0%nat) s4 s3;
            poly_row h (r 3%nat) (r 2%nat) (r 1%nat) (r 0%nat) s4; poly_row h (r 4%nat) (r 3%nat) (r 2%nat) (r 1%nat) (r 0%nat)] in
  mk_poly (p_r st) (carry_reduce d) (p_pad st).

(** The five 26-bit limbs of sixteen bytes, the top one before its extra bit. *)
Definition limbs_of (m : list Z) : list Z :=
  let t0 := poly1305_rd32le m 0 in let t1 := poly1305_rd32le m 4 in let t2 := poly1305_rd32le m 8 in let t3 := poly1305_rd32le m 12 in
  [Z.land t0 0x3ffffff; Z.land (Z.lor (Z.shiftr t0 26) (u32 (Z.shiftl t1 6))) 0x3ffffff;
   Z.land (Z.lor (Z.shiftr t1 20) (u32 (Z.shiftl t2 12))) 0x3ffffff; Z.land (Z.lor (Z.shiftr t2 14) (u32 (Z.shiftl t3 18))) 0x3ffffff;
   Z.shiftr t3 8].
(* src/src/crypto/symmetric/aead/chacha/poly1305_impl_head.h : poly_add@81-89 *)
Definition poly_add (st : poly) (m : list Z) (hibit : Z) : poly :=
  let l := limbs_of m in
  let h := p_h st in
  mk_poly (p_r st)
    [u32 (at_ h 0 + at_ l 0); u32 (at_ h 1 + at_ l 1); u32 (at_ h 2 + at_ l 2); u32 (at_ h 3 + at_ l 3); u32 (at_ h 4 + Z.lor (at_ l 4) hibit)]
    (p_pad st).

(* src/src/crypto/symmetric/aead/chacha/poly1305_impl_head.h : poly_final_block@71-78 *)
Definition poly_final_block (st : poly) (m : list Z) (n : nat) : poly :=
  poly_mulmod (poly_add st (map (fun i => poly_pad_byte m i n) (seq 0 16)) 0).

Fixpoint poly_blocks_loop (fuel : nat) (st : poly) (msg : list Z) : poly :=
  match fuel with
  | O => st
  | S f =>
      if (16 <=? length msg)%nat then poly_blocks_loop f (poly_mulmod (poly_add st (take 16 msg) (2 ^ 24))) (drop 16 msg)
      else if (0 <? length msg)%nat then poly_final_block st msg (length msg) else st
  end.
(* src/src/crypto/symmetric/aead/chacha/poly1305_impl.h : poly_blocks *)
Definition poly_blocks (st : poly) (msg : list Z) : poly := poly_blocks_loop (S (length msg)) st msg.

(* src/src/crypto/symmetric/aead/chacha/poly1305.c : poly_clamp_r *)
Definition poly_clamp_r (key : list Z) : list Z :=
  let t0 := poly1305_rd32le key 0 in let t1 := poly1305_rd32le key 4 in let t2 := poly1305_rd32le key 8 in let t3 := poly1305_rd32le key 12 in
  [Z.land t0 0x3ffffff; Z.land (Z.lor (Z.shiftr t0 26) (u32 (Z.shiftl t1 6))) 0x3ffff03;
   Z.land (Z.lor (Z.shiftr t1 20) (u32 (Z.shiftl t2 12))) 0x3ffc0ff; Z.land (Z.lor (Z.shiftr t2 14) (u32 (Z.shiftl t3 18))) 0x3f03fff;
   Z.land (Z.shiftr t3 8) 0x00fffff].
(* src/src/crypto/symmetric/aead/chacha/poly1305.c : poly_init *)
Definition poly_init (key : list Z) : poly :=
  mk_poly (poly_clamp_r key) [0; 0; 0; 0; 0] (map (fun i => poly1305_rd32le key (16 + 4 * i)) (seq 0 4)).

(** One step of the full carry, from limb [i - 1] into limb [i]. *)
Definition carry_into (h : list Z) (i : nat) : list Z :=
  let h := <[i := u32 (at_ h i + Z.shiftr (at_ h (i - 1)) 26)]> h in <[(i - 1)%nat := Z.land (at_ h (i - 1)) 0x3ffffff]> h.
(* src/src/crypto/symmetric/aead/chacha/poly1305_full.c : full_carry@10-19 *)
Definition full_carry (h : list Z) : list Z :=
  let h := foldl carry_into h (seq 1 4) in
  let h := <[0%nat := u32 (at_ h 0 + u32 (Z.shiftr (at_ h 4) 26 * 5))]> h in
  let h := <[1%nat := u32 (at_ h 1 + Z.shiftr (at_ h 0) 26)]> h in
  let h := <[0%nat := Z.land (at_ h 0) 0x3ffffff]> h in
  <[4%nat := Z.land (at_ h 4) 0x3ffffff]> h.

Fixpoint plus_five_loop (h : list Z) (c : Z) : list Z * Z :=
  match h with
  | [] => ([], c)
  | x :: h' => let g := u32 (x + c) in let '(l, c') := plus_five_loop h' (Z.shiftr g 26) in (Z.land g 0x3ffffff :: l, c')
  end.
(* src/src/crypto/symmetric/aead/chacha/poly1305_full.c : plus_five@24-32 *)
Definition plus_five (h : list Z) : list Z :=
  let '(l, c) := plus_five_loop (take 4 h) 5 in l ++ [u32 (at_ h 4 + c - 2 ^ 26)].

(* src/src/crypto/symmetric/aead/chacha/poly1305_full.c : select_mod@35-40 *)
Definition select_mod (h g : list Z) : list Z :=
  let mask := u32 (Z.shiftr (at_ g 4) 31 - 1) in
  zip_with (fun x y => Z.lor (Z.land x (u32 (Z.lnot mask))) (Z.land y mask)) h g.

(* src/src/crypto/symmetric/aead/chacha/poly1305_full.c : pack@43-48 *)
Definition poly_pack (h : list Z) : list Z :=
  [Z.lor (at_ h 0) (u32 (Z.shiftl (at_ h 1) 26)); Z.lor (Z.shiftr (at_ h 1) 6) (u32 (Z.shiftl (at_ h 2) 20));
   Z.lor (Z.shiftr (at_ h 2) 12) (u32 (Z.shiftl (at_ h 3) 14)); Z.lor (Z.shiftr (at_ h 3) 18) (u32 (Z.shiftl (at_ h 4) 8))].

Fixpoint tag_loop (w pad : list Z) (f : Z) : list Z :=
  match w, pad with
  | x :: w', y :: pad' =>
      let f := u64 (f + (x + y)) in
      [u8 f; u8 (Z.shiftr f 8); u8 (Z.shiftr f 16); u8 (Z.shiftr f 24)] ++ tag_loop w' pad' (Z.shiftr f 32)
  | _, _ => []
  end.
(* src/src/crypto/symmetric/aead/chacha/poly1305_full.c : poly_finish@51-66 *)
Definition poly_finish (st : poly) : list Z :=
  let h := full_carry (p_h st) in
  let h := select_mod h (plus_five h) in
  tag_loop (poly_pack h) (p_pad st) 0.

(* src/src/crypto/symmetric/aead/chacha/poly1305_full.c : poly1305 *)
Definition poly1305 (key msg : list Z) : list Z := poly_finish (poly_blocks (poly_init key) msg).

(** ** aead.c *)

Definition CHAPOLY_TAG : nat := 16.

(* src/src/crypto/symmetric/aead/chacha/aead.h : chapoly_ctx *)
Record chapoly_ctx := mk_chapoly { cp_key : list Z; cp_nonce : list Z; cp_aad : list Z }.

(** The scratch of [chapoly_tag]: the bytes written so far; a write past its
    3032 bytes is outside the array ([None]). *)
Definition MAC_CAP : nat := 16 + 1500 + 1500 + 16.
Definition mac_put (buf : list Z) (src : list Z) : option (list Z) :=
  if (length buf + length src <=? MAC_CAP)%nat then Some (buf ++ src) else None.

(* src/src/crypto/symmetric/aead/chacha/aead.c : put_padded *)
Definition put_padded (buf src : list Z) : option (list Z) :=
  let pad := ((16 - (length src mod 16)) mod 16)%nat in
  buf ← mac_put buf src; mac_put buf (replicate pad 0).

(* src/src/crypto/symmetric/aead/chacha/aead.c : put_le64 *)
Definition put_le64 (buf : list Z) (v : Z) : option (list Z) :=
  mac_put buf (map (fun i => u8 (Z.shiftr v (8 * Z.of_nat i))) (seq 0 8)).

(* src/src/crypto/symmetric/aead/chacha/aead.c : poly_key *)
Definition poly_key (c : chapoly_ctx) : list Z := take 32 (chacha20_block (cp_key c) 0 (cp_nonce c)).

(* src/src/crypto/symmetric/aead/chacha/aead.c : chapoly_tag *)
Definition chapoly_tag (c : chapoly_ctx) (ct : list Z) : option (list Z) :=
  let pk := poly_key c in
  mac ← put_padded [] (cp_aad c);
  mac ← put_padded mac ct;
  mac ← put_le64 mac (zlen (cp_aad c));
  mac ← put_le64 mac (zlen ct);
  Some (poly1305 pk mac).

(* src/src/crypto/symmetric/aead/chacha/aead.c : chapoly_stream *)
Definition chapoly_stream (c : chapoly_ctx) (inp : list Z) : list Z :=
  chacha20_xor (mk_chacha (cp_key c) (cp_nonce c) 1) inp.

(** The bytes written to [out]; [None]: the MAC scratch was overrun. *)
(* src/src/crypto/symmetric/aead/chacha/aead.c : chapoly_seal *)
Definition chapoly_seal (c : chapoly_ctx) (pt : list Z) : option (list Z) :=
  let out := chapoly_stream c pt in
  tag ← chapoly_tag c out; Some (out ++ tag).

(** [Some None] is the code's 0: [pt] left untouched. *)
(* src/src/crypto/symmetric/aead/chacha/aead.c : chapoly_open *)
Definition chapoly_open (c : chapoly_ctx) (ct : list Z) : option (option (list Z)) :=
  if (length ct <? CHAPOLY_TAG)%nat then Some None
  else
    let body := take (length ct - CHAPOLY_TAG) ct in
    want ← chapoly_tag c body;
    d ← ct_diff16 want (drop (length body) ct);
    if negb (d =? 0) then Some None
    else Some (Some (chapoly_stream c body)).

(** ** Opening accepts exactly what sealing produces *)

Lemma zip_lxor_twice (a k : list Z) : (length a <= length k)%nat -> zip_with Z.lxor (zip_with Z.lxor a k) k = a.
Proof.
  revert k. induction a as [|x a IH]; intros [|y k] H; cbn in *; [done | done | lia|].
  rewrite IH by lia. by rewrite Z.lxor_assoc, Z.lxor_nilpotent, Z.lxor_0_r.
Qed.

Lemma chacha20_block_length key counter nonce : length (chacha20_block key counter nonce) = 64%nat.
Proof. unfold chacha20_block, chacha_serialize. cbn. done. Qed.

Lemma xor_chunk_length c inp : length (xor_chunk c inp) = Nat.min 64 (length inp).
Proof.
  unfold xor_chunk, CHACHA_BLOCK. rewrite length_zip_with, !length_take, chacha20_block_length.
  destruct (Nat.ltb_spec (length inp) 64); lia.
Qed.

Lemma chacha_loop_length n : forall c inp, (length inp <= n)%nat -> length (chacha_loop n c inp) = length inp.
Proof.
  induction n as [|n IH]; intros c inp Hn; cbn [chacha_loop]; [destruct inp; cbn in *; [done | lia]|].
  destruct inp as [|x inp]; [done|]. rewrite length_app, IH, length_drop, xor_chunk_length; cbn [length] in *; rewrite ?length_drop, ?xor_chunk_length; cbn [length]; lia.
Qed.

Lemma xor_chunk_twice c inp rest : length rest = (length inp - 64)%nat ->
  xor_chunk c (xor_chunk c inp ++ rest) = take 64 inp.
Proof.
  intros Hr. assert (Hl : length (xor_chunk c inp ++ rest) = length inp) by (rewrite length_app, xor_chunk_length; lia).
  unfold xor_chunk at 1. rewrite Hl. unfold CHACHA_BLOCK. set (ks := chacha20_block _ _ _). set (n := if (length inp <? 64)%nat then _ else _).
  assert (Hn : n = Nat.min 64 (length inp)) by (unfold n; destruct (Nat.ltb_spec (length inp) 64); lia).
  rewrite take_app_le by (rewrite xor_chunk_length; lia).
  rewrite (take_ge (xor_chunk c inp)) by (rewrite xor_chunk_length; lia).
  unfold xor_chunk, CHACHA_BLOCK. fold ks. fold n. rewrite zip_lxor_twice by (rewrite !length_take; unfold ks; rewrite chacha20_block_length; lia).
  rewrite Hn. destruct (Nat.le_gt_cases (length inp) 64); [|f_equal; lia]. transitivity inp; [|symmetry]; apply take_ge; lia.
Qed.

(** The stream is its own inverse. *)
Lemma chacha_loop_twice n : forall c inp, (length inp <= n)%nat -> chacha_loop n c (chacha_loop n c inp) = inp.
Proof.
  induction n as [|n IH]; intros c inp Hn; [destruct inp; cbn in *; [done | lia]|].
  destruct inp as [|x inp]; [done|]. cbn [chacha_loop]. set (i := x :: inp) in *. set (o := xor_chunk c i).
  assert (Ho : length o = Nat.min 64 (length i)) by apply xor_chunk_length.
  assert (Hr : length (chacha_loop n (mk_chacha (cc_key c) (cc_nonce c) (u32 (cc_counter c + 1))) (drop (length o) i)) = (length i - 64)%nat).
  { rewrite chacha_loop_length, length_drop; rewrite ?length_drop; cbn [length] in *; unfold i in *; cbn [length] in *; lia. }
  set (r := chacha_loop n _ _) in *. destruct (o ++ r) as [|y l] eqn:E.
  { apply (f_equal length) in E. rewrite length_app in E. unfold i in *. cbn [length] in *. lia. }
  rewrite <- E. clear y l E. pose proof (xor_chunk_twice c i r Hr) as Ht. fold o in Ht. rewrite Ht, length_take.
  rewrite (drop_app_length' o r) by lia. unfold r. rewrite IH by (rewrite length_drop; unfold i in *; cbn [length] in *; lia).
  rewrite Ho. destruct (Nat.le_gt_cases (length i) 64).
  - rewrite take_ge, drop_ge by lia. apply app_nil_r.
  - replace (Nat.min 64 (length i)) with 64%nat by lia. apply take_drop.
Qed.

Lemma chacha_serialize_ok x s : bytes_ok (chacha_serialize x s).
Proof. unfold chacha_serialize. apply Forall_flat_map, List.Forall_forall. intros i _. repeat (apply List.Forall_cons; [apply u8_range|]). constructor. Qed.

Lemma chacha_loop_ok n : forall c inp, bytes_ok inp -> bytes_ok (chacha_loop n c inp).
Proof.
  induction n as [|n IH]; intros c inp Hi; cbn [chacha_loop]; [constructor|]. destruct inp as [|x inp]; [constructor|].
  apply bytes_ok_app. split; [|apply IH; by apply bytes_ok_drop].
  unfold xor_chunk. apply zip_lxor_ok; apply bytes_ok_take; [exact Hi | apply chacha_serialize_ok].
Qed.

Lemma chapoly_stream_twice c b : chapoly_stream c (chapoly_stream c b) = b.
Proof.
  unfold chapoly_stream, chacha20_xor. rewrite chacha_loop_length by lia. by apply chacha_loop_twice.
Qed.
Lemma chapoly_stream_length c b : length (chapoly_stream c b) = length b.
Proof. unfold chapoly_stream, chacha20_xor. by apply chacha_loop_length. Qed.

(** ** Poly1305 on 26-bit limbs *)

Notation P1305 := (2 ^ 130 - 5).

Lemma land26 v : Z.land v 0x3ffffff = v mod 2 ^ 26.
Proof. exact (land_low_bits v 26 ltac:(lia)). Qed.

(** A mask that fits [k] bits sees the low [k] bits. *)
Lemma land_fits v m k : 0 <= k -> 0 <= m < 2 ^ k -> Z.land v m = Z.land (v mod 2 ^ k) m.
Proof.
  intros Hk Hm. rewrite <- (Z.land_ones v k) by done. rewrite <- Z.land_assoc, (Z.land_comm (Z.ones k)), Z.land_ones by done.
  by rewrite (Z.mod_small m).
Qed.

Lemma land_split k x y a b : 0 <= k -> 0 <= x < 2 ^ k -> 0 <= a < 2 ^ k ->
  Z.land (x + 2 ^ k * y) (a + 2 ^ k * b) = Z.land x a + 2 ^ k * Z.land y b.
Proof.
  intros Hk Hx Ha. rewrite !(Z.mul_comm (2 ^ k)), !(Z.add_comm _ (_ * 2 ^ k)).
  assert (Hla : 0 <= Z.land x a < 2 ^ k).
  { split; [apply Z.land_nonneg; lia|]. destruct (decide (Z.land x a = 0)); [lia|]. apply Z.log2_lt_pow2; [pose proof (Z.land_nonneg x a); lia|].
    eapply Z.le_lt_trans; [apply Z.log2_land; lia|]. assert (0 < x) by (destruct (decide (x = 0)) as [->|]; [done | lia]). assert (0 < a) by (destruct (decide (a = 0)) as [->|]; [rewrite Z.land_0_r in *; done | lia]).
    pose proof (proj1 (Z.log2_lt_pow2 x k ltac:(lia)) ltac:(lia)). lia. }
  rewrite <- !lor_shiftl by done. apply Z.bits_inj'. intros i Hi. rewrite ?Z.lor_spec, ?Z.land_spec, ?Z.lor_spec, ?Z.land_spec.
  destruct (decide (i < k)).
  - rewrite !Z.shiftl_spec_low by done. done.
  - rewrite (testbit_high x i k), (testbit_high a i k), !Z.shiftl_spec, Z.land_spec by lia. by rewrite !orb_false_r.
Qed.

Lemma rd32_spec p o : bytes_ok p -> (o + 4 <= length p)%nat ->
  rd32 p o = le_val (take 4 (drop o p)) /\ 0 <= rd32 p o < 2 ^ 32.
Proof.
  intros Hp Hl. assert (Hl' : (4 <= length (drop o p))%nat) by (rewrite length_drop; lia).
  assert (Hn : forall i, at_ p (o + i) = at_ (drop o p) i) by (intros i; unfold at_; symmetry; apply List.nth_skipn).
  apply (bytes_ok_drop _ o) in Hp.
  unfold rd32. replace (at_ p o) with (at_ p (o + 0)) by (f_equal; lia). rewrite !Hn. clear Hn Hl. destruct (drop o p) as [|a [|b [|c [|d l]]]]; try (cbn in Hl'; lia).
  unfold at_. cbn [nth take dval foldr]. do 4 (apply bytes_ok_cons in Hp as [? Hp]). unfold is_u8 in *.
  rewrite (shift_or a), (shift_or _ c), (shift_or _ d) by lia. change (take 0 l) with (@nil Z). cbn [foldr]. lia.
Qed.

Lemma take_word k l : (4 <= length l)%nat -> le_val (take (4 + k) l) = le_val (take 4 l) + 2 ^ 32 * le_val (take k (drop 4 l)).
Proof.
  intros Hl. rewrite <- take_take_drop, dval_app by lia. unfold zlen. rewrite length_take. by replace (Nat.min 4 (length l)) with 4%nat by lia.
Qed.

Definition words4 (m : list Z) (o : nat) : list Z := [rd32 m o; rd32 m (o + 4); rd32 m (o + 8); rd32 m (o + 12)].
Lemma words4_spec m o : bytes_ok m -> (o + 16 <= length m)%nat ->
  dval 32 (words4 m o) = le_val (take 16 (drop o m)) /\ Forall (fun x => 0 <= x < 2 ^ 32) (words4 m o).
Proof.
  intros Hm Hl. unfold words4.
  destruct (rd32_spec m o Hm ltac:(lia)) as [E0 B0], (rd32_spec m (o + 4) Hm ltac:(lia)) as [E1 B1],
    (rd32_spec m (o + 8) Hm ltac:(lia)) as [E2 B2], (rd32_spec m (o + 12) Hm ltac:(lia)) as [E3 B3].
  split; [|repeat constructor; tauto].
  rewrite E0, E1, E2, E3. rewrite <- !(drop_drop m). assert (Hd : (16 <= length (drop o m))%nat) by (rewrite length_drop; lia).
  set (n := drop o m) in *. change 16%nat with (4 + (4 + (4 + 4)))%nat. cbn [dval foldr]. rewrite !take_word by (rewrite ?length_drop; lia).
  rewrite !drop_drop. cbn [Nat.add]. lia.
Qed.

(** The limbs of a 128-bit number given as four words. *)
Lemma limbs_val t0 t1 t2 t3 : 0 <= t0 < 2 ^ 32 -> 0 <= t1 < 2 ^ 32 -> 0 <= t2 < 2 ^ 32 -> 0 <= t3 < 2 ^ 32 ->
  let l := [t0 mod 2 ^ 26; Z.lor (Z.shiftr t0 26) (u32 (Z.shiftl t1 6)) mod 2 ^ 26; Z.lor (Z.shiftr t1 20) (u32 (Z.shiftl t2 12)) mod 2 ^ 26;
    Z.lor (Z.shiftr t2 14) (u32 (Z.shiftl t3 18)) mod 2 ^ 26; Z.shiftr t3 8] in
  dval 26 l = dval 32 [t0; t1; t2; t3] /\ Forall (fun x => 0 <= x < 2 ^ 26) l /\ 0 <= Z.shiftr t3 8 < 2 ^ 24.
Proof.
  intros H0 H1 H2 H3 l. unfold l. clear l. rewrite !Z.shiftr_div_pow2 by lia.
  rewrite (shift_or_u32 (t0 / 2 ^ 26) t1 6), (shift_or_u32 (t1 / 2 ^ 20) t2 12), (shift_or_u32 (t2 / 2 ^ 14) t3 18)
    by (split; try apply Z.div_pos; try apply Z.div_lt_upper_bound; lia).
  split; [|split; [repeat constructor|]; Z.to_euclidean_division_equations; lia].
  cbn [dval foldr]. Z.to_euclidean_division_equations. lia.
Qed.

Definition CLAMP : Z := 0x0ffffffc0ffffffc0ffffffc0fffffff.

Lemma land_lt v m k : 0 <= k -> 0 <= m < 2 ^ k -> 0 <= Z.land v m < 2 ^ k.
Proof.
  intros Hk Hm. rewrite (land_fits v m k) by done. rewrite <- (Z.mod_small m (2 ^ k)), <- !Z.land_ones by done.
  rewrite Z.land_assoc, !Z.land_ones by done. apply Z.mod_pos_bound. lia.
Qed.

(** The clamped key half: five limbs of [r] with the bits of RFC 8439 2.5.1 cleared. *)
Lemma clamp_spec key : bytes_ok key -> length key = 32%nat ->
  exists r0 r1 r2 r3 r4, poly_clamp_r key = [r0; r1; r2; r3; r4] /\
    dval 26 (poly_clamp_r key) = Z.land (le_val (take 16 key)) CLAMP /\
    Forall (fun x => 0 <= x < 2 ^ 26) [r0; r1; r2; r3] /\ 0 <= r4 < 2 ^ 20.
Proof.
  intros Hk Hl. destruct (words4_spec key 0 Hk ltac:(lia)) as [Ew Bw]. change (drop 0 key) with key in Ew. rewrite <- Ew. unfold words4 in *.
  rewrite !List.Forall_cons_iff in Bw. destruct Bw as (B0 & B1 & B2 & B3 & _). cbn [Nat.add] in *.
  destruct (limbs_val _ _ _ _ B0 B1 B2 B3) as (Ev & Bv & B4). rewrite <- Ev. unfold poly_clamp_r, poly1305_rd32le.
  rewrite (land_fits _ 0x3ffff03 26), (land_fits _ 0x3ffc0ff 26), (land_fits _ 0x3f03fff 26), (land_fits _ 0x3ffffff 26) by lia.
  clear Ev Ew. set (l0 := rd32 key 0 mod 2 ^ 26) in *. set (l1 := Z.lor (Z.shiftr (rd32 key 0) 26) _ mod 2 ^ 26) in *.
  set (l2 := Z.lor (Z.shiftr (rd32 key 4) 20) _ mod 2 ^ 26) in *. set (l3 := Z.lor (Z.shiftr (rd32 key 8) 14) _ mod 2 ^ 26) in *. set (l4 := Z.shiftr (rd32 key 12) 8) in *.
  clearbody l0 l1 l2 l3 l4. rewrite !List.Forall_cons_iff in Bv. destruct Bv as (V0 & V1 & V2 & V3 & V4 & _).
  do 5 eexists. split; [done|]. split.
  - cbn [dval foldr]. replace CLAMP with (0x3ffffff + 2 ^ 26 * (0x3ffff03 + 2 ^ 26 * (0x3ffc0ff + 2 ^ 26 * (0x3f03fff + 2 ^ 26 * (0xfffff + 2 ^ 26 * 0))))) by reflexivity.
    rewrite !land_split by lia. rewrite Z.land_0_r. done.
  - split; [repeat (apply List.Forall_cons; [apply land_lt; lia|]); constructor | apply (land_lt _ _ 20); lia].
Qed.

(** The accumulator between two blocks. *)
Definition h_ok (h : list Z) : Prop :=
  exists h0 h1 h2 h3 h4, h = [h0; h1; h2; h3; h4] /\ 0 <= h0 < 2 ^ 26 /\ 0 <= h1 < 2 ^ 26 + 64 /\ 0 <= h2 < 2 ^ 26 /\ 0 <= h3 < 2 ^ 26 /\ 0 <= h4 < 2 ^ 26.
(** The accumulator with a block added. *)
Definition h_big (h : list Z) : Prop :=
  exists h0 h1 h2 h3 h4, h = [h0; h1; h2; h3; h4] /\ 0 <= h0 < 2 ^ 27 /\ 0 <= h1 < 2 ^ 27 + 64 /\ 0 <= h2 < 2 ^ 27 /\ 0 <= h3 < 2 ^ 27 /\ 0 <= h4 < 2 ^ 26 + 2 ^ 25.
Definition r_ok (r : list Z) : Prop :=
  exists r0 r1 r2 r3 r4, r = [r0; r1; r2; r3; r4] /\ 0 <= r0 < 2 ^ 26 /\ 0 <= r1 < 2 ^ 26 /\ 0 <= r2 < 2 ^ 26 /\ 0 <= r3 < 2 ^ 26 /\ 0 <= r4 < 2 ^ 20.

Lemma u32_id x : 0 <= x < 2 ^ 32 -> u32 x = x.
Proof. intros. unfold u32. by rewrite Z.mod_small. Qed.
Lemma u64_id x : 0 <= x < 2 ^ 64 -> u64 x = x.
Proof. intros. unfold u64. by rewrite Z.mod_small. Qed.

Lemma poly_add_spec st m hibit : h_ok (p_h st) -> bytes_ok m -> length m = 16%nat -> hibit = 0 \/ hibit = 2 ^ 24 ->
  h_big (p_h (poly_add st m hibit)) /\ dval 26 (p_h (poly_add st m hibit)) = dval 26 (p_h st) + le_val m + 2 ^ 104 * hibit.
Proof.
  destruct st as [r h pad]. cbn [p_h]. intros (h0 & h1 & h2 & h3 & h4 & -> & ?) Hm Hl Hh. destruct (words4_spec m 0 Hm ltac:(lia)) as [Ew Bw]. unfold words4 in *.
  change (drop 0 m) with m in Ew. rewrite take_ge in Ew by lia. rewrite <- Ew. clear Ew.
  rewrite !List.Forall_cons_iff in Bw. destruct Bw as (B0 & B1 & B2 & B3 & _). cbn [Nat.add] in *.
  destruct (limbs_val _ _ _ _ B0 B1 B2 B3) as (Ev & Bv & B4). rewrite <- Ev. unfold poly_add, limbs_of, poly1305_rd32le. rewrite !land26. unfold at_. cbn [nth p_h].
  clear Ev. set (l0 := rd32 m 0 mod 2 ^ 26) in *. set (l1 := Z.lor (Z.shiftr (rd32 m 0) 26) _ mod 2 ^ 26) in *.
  set (l2 := Z.lor (Z.shiftr (rd32 m 4) 20) _ mod 2 ^ 26) in *. set (l3 := Z.lor (Z.shiftr (rd32 m 8) 14) _ mod 2 ^ 26) in *. set (l4 := Z.shiftr (rd32 m 12) 8) in *.
  clearbody l0 l1 l2 l3 l4. rewrite !List.Forall_cons_iff in Bv. destruct Bv as (V0 & V1 & V2 & V3 & V4 & _).
  assert (E4 : Z.lor l4 hibit = l4 + hibit).
  { destruct Hh as [-> | ->]; [rewrite Z.lor_0_r; lia|]. change (2 ^ 24) with (Z.shiftl 1 24). rewrite Z.lor_comm, lor_shiftl by lia. change (Z.shiftl 1 24) with (2 ^ 24). lia. }
  rewrite E4, !u32_id by lia. split; [do 5 eexists; split; [done|]; lia|]. cbn [dval foldr]. lia.
Qed.

Lemma row_spec h0 h1 h2 h3 h4 a b c d e M : 0 <= h0 < 2 ^ 27 -> 0 <= h1 < 2 ^ 27 + 64 -> 0 <= h2 < 2 ^ 27 -> 0 <= h3 < 2 ^ 27 -> 0 <= h4 < 2 ^ 27 ->
  M <= 2 ^ 29 -> 0 <= a < M -> 0 <= b < M -> 0 <= c < M -> 0 <= d < M -> 0 <= e < M ->
  let x := h0 * a + h1 * b + h2 * c + h3 * d + h4 * e in
  poly_row [h0; h1; h2; h3; h4] a b c d e = x /\ 0 <= x <= (4 * 2 ^ 27 + 64 + h4) * M.
Proof.
  intros H0 H1 H2 H3 H4 HM Ha Hb Hc Hd He x.
  assert (P : forall u v B, 0 <= u < B -> 0 <= v < M -> 0 <= u * v <= B * M) by (intros; nia).
  pose proof (P h0 a _ H0 Ha). pose proof (P h1 b _ H1 Hb). pose proof (P h2 c _ H2 Hc). pose proof (P h3 d _ H3 Hd).
  assert (0 <= h4 * e <= h4 * M) by nia. assert (h4 * M <= 2 ^ 27 * M) by nia.
  assert (0 <= M) by lia.
  unfold poly_row, at_. cbn [nth]. fold x. rewrite !(u64_id (_ * _)) by lia. rewrite u64_id; unfold x; lia.
Qed.

Lemma u32_mod26 x : u32 x mod 2 ^ 26 = x mod 2 ^ 26.
Proof. unfold u32. change 4294967296 with (2 ^ 6 * 2 ^ 26). by rewrite Z.mul_comm, Z.rem_mul_r, Z.mul_comm, Z.mod_add, Z.mod_mod by lia. Qed.

(** One pass of carries leaves an accumulator that can take the next block, the
    same number modulo 2^130 - 5. *)
Lemma carry_reduce_spec d0 d1 d2 d3 d4 :
  0 <= d0 < 2 ^ 60 -> 0 <= d1 < 2 ^ 60 -> 0 <= d2 < 2 ^ 60 -> 0 <= d3 < 2 ^ 60 -> 0 <= d4 <= (2 ^ 29 + 2 ^ 27) * 2 ^ 26 ->
  h_ok (carry_reduce [d0; d1; d2; d3; d4]) /\ exists K, dval 26 (carry_reduce [d0; d1; d2; d3; d4]) + P1305 * K = dval 26 [d0; d1; d2; d3; d4].
Proof.
  intros H0 H1 H2 H3 H4. unfold carry_reduce. cbn [carry_loop]. rewrite !land26, !Z.shiftr_div_pow2, !u32_mod26 by lia.
  rewrite Z.add_0_r, (u64_id d0) by lia. pose proof (Z.div_mod d0 (2 ^ 26) ltac:(lia)) as D0. pose proof (Z.mod_pos_bound d0 (2 ^ 26) ltac:(lia)) as M0.
  set (c0 := d0 / 2 ^ 26) in *. rewrite (u64_id (d1 + c0)) by lia.
  pose proof (Z.div_mod (d1 + c0) (2 ^ 26) ltac:(lia)) as D1. pose proof (Z.mod_pos_bound (d1 + c0) (2 ^ 26) ltac:(lia)) as M1.
  set (c1 := (d1 + c0) / 2 ^ 26) in *. rewrite (u64_id (d2 + c1)) by lia.
  pose proof (Z.div_mod (d2 + c1) (2 ^ 26) ltac:(lia)) as D2. pose proof (Z.mod_pos_bound (d2 + c1) (2 ^ 26) ltac:(lia)) as M2.
  set (c2 := (d2 + c1) / 2 ^ 26) in *. rewrite (u64_id (d3 + c2)) by lia.
  pose proof (Z.div_mod (d3 + c2) (2 ^ 26) ltac:(lia)) as D3. pose proof (Z.mod_pos_bound (d3 + c2) (2 ^ 26) ltac:(lia)) as M3.
  set (c3 := (d3 + c2) / 2 ^ 26) in *. rewrite (u64_id (d4 + c3)) by lia.
  pose proof (Z.div_mod (d4 + c3) (2 ^ 26) ltac:(lia)) as D4. pose proof (Z.mod_pos_bound (d4 + c3) (2 ^ 26) ltac:(lia)) as M4.
  set (c4 := (d4 + c3) / 2 ^ 26) in *. cbn [at_ nth insert list_insert]. unfold at_. cbn [nth].
  set (m0 := d0 mod 2 ^ 26) in *. set (m1 := (d1 + c0) mod 2 ^ 26) in *. set (m2 := (d2 + c1) mod 2 ^ 26) in *. set (m3 := (d3 + c2) mod 2 ^ 26) in *. set (m4 := (d4 + c3) mod 2 ^ 26) in *.
  clearbody c0 c1 c2 c3 c4 m0 m1 m2 m3 m4.
  rewrite (u32_id c4), (u32_id (c4 * 5)), (u32_id (m0 + c4 * 5)) by lia. set (x := m0 + c4 * 5).
  pose proof (Z.div_mod x (2 ^ 26) ltac:(lia)) as DX. pose proof (Z.mod_pos_bound x (2 ^ 26) ltac:(lia)) as MX.
  set (q := x / 2 ^ 26) in *. set (y := x mod 2 ^ 26) in *. clearbody q y. subst x. rewrite (u32_id (m1 + q)) by lia.
  split; [do 5 eexists; split; [done|]; lia|]. exists c4. cbn [dval foldr]. lia.
Qed.

(** Multiplying by [r]: the accumulator stays in bounds and is the product
    modulo 2^130 - 5. *)
Lemma poly_mulmod_spec st : h_big (p_h st) -> r_ok (p_r st) ->
  h_ok (p_h (poly_mulmod st)) /\ dval 26 (p_h (poly_mulmod st)) mod P1305 = (dval 26 (p_h st) * dval 26 (p_r st)) mod P1305.
Proof.
  destruct st as [r h pad]. cbn [p_h p_r]. intros (h0 & h1 & h2 & h3 & h4 & -> & ?) (r0 & r1 & r2 & r3 & r4 & -> & ?).
  unfold poly_mulmod. cbn [p_h p_r p_pad]. unfold at_. cbn [nth].
  rewrite (u32_id (r1 * 5)), (u32_id (r2 * 5)), (u32_id (r3 * 5)), (u32_id (r4 * 5)) by lia.
  destruct (row_spec h0 h1 h2 h3 h4 r0 (r4 * 5) (r3 * 5) (r2 * 5) (r1 * 5) (2 ^ 29)) as [-> B0]; try lia.
  destruct (row_spec h0 h1 h2 h3 h4 r1 r0 (r4 * 5) (r3 * 5) (r2 * 5) (2 ^ 29)) as [-> B1]; try lia.
  destruct (row_spec h0 h1 h2 h3 h4 r2 r1 r0 (r4 * 5) (r3 * 5) (2 ^ 29)) as [-> B2]; try lia.
  destruct (row_spec h0 h1 h2 h3 h4 r3 r2 r1 r0 (r4 * 5) (2 ^ 29)) as [-> B3]; try lia.
  destruct (row_spec h0 h1 h2 h3 h4 r4 r3 r2 r1 r0 (2 ^ 26)) as [-> B4]; try lia.
  match goal with |- h_ok (carry_reduce [?d0; ?d1; ?d2; ?d3; ?d4]) /\ _ => destruct (carry_reduce_spec d0 d1 d2 d3 d4) as [Hok [K HK]]; try lia end.
  split; [done|]. cbn [p_h].
  apply (f_equal (fun v => v mod P1305)) in HK. rewrite (Z.mul_comm _ K), Z.mod_add in HK by lia. rewrite HK. cbn [dval foldr].
  set (K' := h1 * r4 + h2 * r3 + h3 * r2 + h4 * r1 + 2 ^ 26 * (h2 * r4 + h3 * r3 + h4 * r2) + 2 ^ 52 * (h3 * r4 + h4 * r3) + 2 ^ 78 * (h4 * r4)).
  match goal with |- ?a mod _ = ?b mod _ => replace b with (a + K' * P1305) by (unfold K'; ring) end. by rewrite Z.mod_add.
Qed.

(** *** The specification: RFC 8439 2.5 on integers *)

Fixpoint poly_acc (fuel : nat) (r a : Z) (msg : list Z) : Z :=
  match fuel, msg with
  | S f, _ :: _ => poly_acc f r (((a + le_val (take 16 msg ++ [1])) * r) mod P1305) (drop 16 msg)
  | _, _ => a
  end.
Definition poly1305_rfc (key msg : list Z) : list Z :=
  le_bytes 16 ((poly_acc (length msg) (Z.land (le_val (take 16 key)) CLAMP) 0 msg + le_val (drop 16 key)) mod 2 ^ 128).

Lemma poly_acc_mod n r : forall a b msg, a mod P1305 = b mod P1305 -> (0 < length msg)%nat -> (length msg <= n)%nat -> poly_acc n r a msg = poly_acc n r b msg.
Proof.
  destruct n as [|n]; intros a b [|x msg] E Hm Hn; cbn [length] in *; try lia. cbn [poly_acc]. f_equal.
  rewrite <- Z.mul_mod_idemp_l, Z.add_mod, E, <- Z.add_mod, Z.mul_mod_idemp_l by lia. done.
Qed.

Lemma poly_acc_range n r : forall a msg, a mod P1305 = a -> poly_acc n r a msg mod P1305 = poly_acc n r a msg.
Proof. induction n as [|n IH]; intros a [|x msg] Ha; cbn [poly_acc]; try done. apply IH. by rewrite Z.mod_mod by lia. Qed.

Lemma pad_block m : (length m < 16)%nat -> map (fun i => poly_pad_byte m i (length m)) (seq 0 16) = m ++ 1 :: replicate (15 - length m) 0.
Proof. do 16 (destruct m as [|? m]; [reflexivity|]). cbn. lia. Qed.

Definition poly_ok (st : poly) : Prop := h_ok (p_h st) /\ r_ok (p_r st).

(** One block: [a] is the accumulator's number. *)
Lemma block_step st m hibit : poly_ok st -> bytes_ok m -> length m = 16%nat -> hibit = 0 \/ hibit = 2 ^ 24 ->
  let st' := poly_mulmod (poly_add st m hibit) in
  poly_ok st' /\ p_r st' = p_r st /\ p_pad st' = p_pad st /\
  dval 26 (p_h st') mod P1305 = ((dval 26 (p_h st) + (le_val m + 2 ^ 104 * hibit)) * dval 26 (p_r st)) mod P1305.
Proof.
  intros [Hh Hr] Hm Hl Hb st'. destruct (poly_add_spec st m hibit Hh Hm Hl Hb) as [Hbig Ea].
  destruct (poly_mulmod_spec (poly_add st m hibit) Hbig Hr) as [Hok Em]. fold st' in Hok, Em. rewrite Ea in Em. cbn [poly_add p_r] in Em.
  split; [by split|]. split; [done|]. split; [done|]. rewrite Em. f_equal. f_equal. lia.
Qed.

Lemma poly_blocks_spec n : forall st msg, poly_ok st -> bytes_ok msg -> (length msg <= n)%nat ->
  let st' := poly_blocks_loop (S n) st msg in
  poly_ok st' /\ p_pad st' = p_pad st /\ dval 26 (p_h st') mod P1305 = poly_acc n (dval 26 (p_r st)) (dval 26 (p_h st)) msg mod P1305.
Proof.
  induction n as [|n IH]; intros st msg Hok Hm Hn; [destruct msg; [done | cbn in *; lia]|].
  change (poly_blocks_loop (S (S n)) st msg) with (if (16 <=? length msg)%nat then poly_blocks_loop (S n) (poly_mulmod (poly_add st (take 16 msg) (2 ^ 24))) (drop 16 msg)
    else if (0 <? length msg)%nat then poly_final_block st msg (length msg) else st).
  destruct (Nat.leb_spec 16 (length msg)) as [Hl|Hl].
  - destruct (block_step st (take 16 msg) (2 ^ 24) Hok (bytes_ok_take _ _ Hm) ltac:(rewrite length_take; lia) ltac:(by right)) as (Hok' & Er & Ep & Eh).
    set (st1 := poly_mulmod _) in *. destruct (IH st1 (drop 16 msg) Hok' (bytes_ok_drop _ _ Hm) ltac:(rewrite length_drop; lia)) as (Hok2 & Ep2 & Eh2).
    cbn zeta in *. split; [done|]. split; [congruence|]. rewrite Eh2, Er. destruct msg as [|x msg]; [cbn in Hl; lia|]. cbn [poly_acc]. set (m := x :: msg) in *.
    assert (Ev : le_val (take 16 m ++ [1]) = le_val (take 16 m) + 2 ^ 104 * 2 ^ 24).
    { rewrite dval_app by lia. unfold zlen. rewrite length_take. replace (Nat.min 16 (length m)) with 16%nat by lia. done. }
    rewrite Ev. destruct (decide (drop 16 m = [])) as [->|Hne].
    + destruct n; cbn [poly_acc]; rewrite ?Z.mod_mod by lia; done.
    + f_equal. apply poly_acc_mod; [rewrite Z.mod_mod by lia; done | destruct (drop 16 m); cbn; [done | lia] | rewrite length_drop; lia].
  - destruct msg as [|x msg]; [done|]. change (0 <? length (x :: msg))%nat with true. cbn match. set (m := x :: msg) in *. unfold poly_final_block. rewrite pad_block by done.
    assert (Hz : bytes_ok (m ++ 1 :: replicate (15 - length m) 0)).
    { apply bytes_ok_app. split; [done|]. apply bytes_ok_cons. split; [unfold is_u8; lia|]. apply Forall_replicate. unfold is_u8; lia. }
    destruct (block_step st _ 0 Hok Hz ltac:(rewrite length_app; cbn [length]; rewrite length_replicate; lia) ltac:(by left)) as (Hok' & Er & Ep & Eh). cbn zeta in *.
    split; [done|]. split; [done|]. rewrite Eh. change (poly_acc (S n) ?r ?a m) with (poly_acc n r (((a + le_val (take 16 m ++ [1])) * r) mod P1305) (drop 16 m)).
    rewrite (take_ge m), (drop_ge m) by lia. change (m ++ 1 :: ?z) with (m ++ [1] ++ z). rewrite app_assoc, dval_app, dval_zeros by lia.
    match goal with |- context[poly_acc n ?r ?v []] => replace (poly_acc n r v []) with v by (destruct n; done) end. rewrite Z.mod_mod by lia.
    f_equal. f_equal. rewrite app_nil_r. lia.
Qed.

(** ** The final reduction and the tag *)

Definition limbs26 (h : list Z) : Prop := exists h0 h1 h2 h3 h4, h = [h0; h1; h2; h3; h4] /\
  0 <= h0 < 2 ^ 26 /\ 0 <= h1 < 2 ^ 26 /\ 0 <= h2 < 2 ^ 26 /\ 0 <= h3 < 2 ^ 26 /\ 0 <= h4 < 2 ^ 26.

Lemma carry_step x y : 0 <= x < 2 ^ 31 -> 0 <= y < 2 ^ 26 + 64 ->
  exists q z, u32 (y + Z.shiftr x 26) = y + q /\ Z.land x 0x3ffffff = z /\ x = 2 ^ 26 * q + z /\ 0 <= z < 2 ^ 26 /\ 0 <= q.
Proof.
  intros Hx Hy. exists (x / 2 ^ 26), (x mod 2 ^ 26). rewrite Z.shiftr_div_pow2, land26 by lia.
  pose proof (Z.div_mod x (2 ^ 26) ltac:(lia)). pose proof (Z.mod_pos_bound x (2 ^ 26) ltac:(lia)). pose proof (Z.div_pos x (2 ^ 26) ltac:(lia) ltac:(lia)).
  rewrite u32_id by lia. lia.
Qed.

Lemma full_carry_spec h : h_ok h -> limbs26 (full_carry h) /\ dval 26 (full_carry h) mod P1305 = dval 26 h mod P1305.
Proof.
  intros (h0 & h1 & h2 & h3 & h4 & -> & B0 & B1 & B2 & B3 & B4). unfold full_carry. cbn [seq foldl]. unfold carry_into. cbn [Nat.sub].
  cbn [insert list_insert at_ nth]. unfold at_. cbn [nth].
  destruct (carry_step h0 h1 ltac:(lia) ltac:(lia)) as (q0 & z0 & -> & -> & E0 & Z0 & Q0).
  destruct (carry_step (h1 + q0) h2 ltac:(lia) ltac:(lia)) as (q1 & z1 & -> & -> & E1 & Z1 & Q1).
  destruct (carry_step (h2 + q1) h3 ltac:(lia) ltac:(lia)) as (q2 & z2 & -> & -> & E2 & Z2 & Q2).
  destruct (carry_step (h3 + q2) h4 ltac:(lia) ltac:(lia)) as (q3 & z3 & -> & -> & E3 & Z3 & Q3).
  destruct (carry_step (h4 + q3) 0 ltac:(lia) ltac:(lia)) as (q4 & z4 & Hq4 & -> & E4 & Z4 & Q4).
  rewrite !Z.add_0_l in Hq4. rewrite u32_id in Hq4 by (rewrite Z.shiftr_div_pow2 by lia; split; [apply Z.div_pos | apply Z.div_lt_upper_bound]; lia). rewrite Hq4.
  rewrite (u32_id (q4 * 5)), (u32_id (z0 + q4 * 5)) by lia.
  destruct (carry_step (z0 + q4 * 5) z1 ltac:(lia) ltac:(lia)) as (q5 & z5 & -> & -> & E5 & Z5 & Q5).
  split; [do 5 eexists; split; [done|]; lia|]. cbn [dval foldr].
  match goal with |- ?a mod _ = ?b mod _ => replace b with (a + q4 * P1305) by lia end. by rewrite Z.mod_add by lia.
Qed.

Lemma mask_ones mask x y : mask = 2 ^ 32 - 1 -> 0 <= y < 2 ^ 32 -> Z.lor (Z.land x (u32 (Z.lnot mask))) (Z.land y mask) = y.
Proof. intros -> Hy. change (u32 (Z.lnot (2 ^ 32 - 1))) with 0. by rewrite land_low_bits, Z.mod_small, Z.land_0_r, Z.lor_0_l by lia. Qed.
Lemma mask_zero mask x y : mask = 0 -> 0 <= x < 2 ^ 32 -> Z.lor (Z.land x (u32 (Z.lnot mask))) (Z.land y mask) = x.
Proof. intros -> Hx. change (u32 (Z.lnot 0)) with (2 ^ 32 - 1). by rewrite land_low_bits, Z.mod_small, Z.land_0_r, Z.lor_0_r by lia. Qed.

(** [h], or [h + 5 - 2^130] when that does not borrow: the number below 2^130 - 5. *)
Lemma select_mod_spec h : limbs26 h -> limbs26 (select_mod h (plus_five h)) /\ dval 26 (select_mod h (plus_five h)) = dval 26 h mod P1305.
Proof.
  intros (h0 & h1 & h2 & h3 & h4 & -> & B0 & B1 & B2 & B3 & B4). unfold plus_five. cbn [take plus_five_loop]. rewrite (u32_id (h0 + 5)) by lia.
  destruct (carry_step (h0 + 5) h1 ltac:(lia) ltac:(lia)) as (q0 & z0 & -> & -> & E0 & Z0 & Q0).
  destruct (carry_step (h1 + q0) h2 ltac:(lia) ltac:(lia)) as (q1 & z1 & -> & -> & E1 & Z1 & Q1).
  destruct (carry_step (h2 + q1) h3 ltac:(lia) ltac:(lia)) as (q2 & z2 & -> & -> & E2 & Z2 & Q2).
  destruct (carry_step (h3 + q2) 0 ltac:(lia) ltac:(lia)) as (q3 & z3 & Hq3 & -> & E3 & Z3 & Q3).
  rewrite !Z.add_0_l in Hq3. rewrite u32_id in Hq3 by (rewrite Z.shiftr_div_pow2 by lia; split; [apply Z.div_pos | apply Z.div_lt_upper_bound]; lia). rewrite Hq3.
  unfold select_mod, at_. cbn [app nth]. set (g4 := u32 (h4 + q3 - 2 ^ 26)).
  set (mask := u32 (Z.shiftr g4 31 - 1)).
  destruct (decide (2 ^ 26 <= h4 + q3)) as [Hge|Hlt].
  - assert (g4 = h4 + q3 - 2 ^ 26) as Eg by (apply u32_id; lia).
    assert (mask = 2 ^ 32 - 1) as Em by (unfold mask; rewrite Z.shiftr_div_pow2, Z.div_small by lia; done). clearbody g4 mask.
    cbn [zip_with]. rewrite !(mask_ones mask) by lia.
    split; [do 5 eexists; split; [done|]; lia|]. cbn [dval foldr]. apply (Z.mod_unique _ _ 1); lia.
  - assert (g4 = h4 + q3 - 2 ^ 26 + 2 ^ 32) as Eg.
    { unfold g4, u32. symmetry. apply (Z.mod_unique _ _ (-1)); lia. }
    assert (mask = 0) as Em.
    { unfold mask. rewrite Z.shiftr_div_pow2 by lia. replace (g4 / 2 ^ 31) with 1 by (apply (Z.div_unique _ _ _ (g4 - 2 ^ 31)); lia). done. }
    clearbody g4 mask. cbn [zip_with]. rewrite !(mask_zero mask) by lia.
    split; [do 5 eexists; split; [done|]; lia|]. cbn [dval foldr]. rewrite Z.mod_small; lia.
Qed.

Lemma pack_spec h : limbs26 h -> Forall (fun x => 0 <= x < 2 ^ 32) (poly_pack h) /\ dval 32 (poly_pack h) = dval 26 h mod 2 ^ 128 /\ length (poly_pack h) = 4%nat.
Proof.
  intros (h0 & h1 & h2 & h3 & h4 & -> & B0 & B1 & B2 & B3 & B4). unfold poly_pack, at_. cbn [nth]. rewrite !Z.shiftr_div_pow2 by lia.
  rewrite (shift_or_u32 h0 h1 26), (shift_or_u32 (h1 / 2 ^ 6) h2 20), (shift_or_u32 (h2 / 2 ^ 12) h3 14), (shift_or_u32 (h3 / 2 ^ 18) h4 8)
    by (split; try apply Z.div_pos; try apply Z.div_lt_upper_bound; lia).
  split; [|split; [|done]].
  - repeat (apply List.Forall_cons; [Z.to_euclidean_division_equations; lia|]). constructor.
  - apply (Z.mod_unique _ _ (h4 / 2 ^ 24)); cbn [dval foldr]; Z.to_euclidean_division_equations; lia.
Qed.

Lemma le_bytes_word n x k : 0 <= x -> 0 <= k ->
  le_bytes (4 + n) (x + 2 ^ 32 * k) = [u8 x; u8 (Z.shiftr x 8); u8 (Z.shiftr x 16); u8 (Z.shiftr x 24)] ++ le_bytes n (Z.shiftr x 32 + k).
Proof.
  intros Hx Hk. cbn [Nat.add]. rewrite !le_bytes_S, !Z.div_div by lia. rewrite !Z.shiftr_div_pow2 by lia. unfold u8. cbn [app].
  assert (E : forall a b c d a' b' c' d' t t' : Z, a = a' -> b = b' -> c = c' -> d = d' -> t = t' -> a :: b :: c :: d :: le_bytes n t = a' :: b' :: c' :: d' :: le_bytes n t') by congruence.
  apply E; Z.to_euclidean_division_equations; lia.
Qed.

Lemma tag_loop_spec w : forall pad f, Forall (fun x => 0 <= x < 2 ^ 32) w -> Forall (fun x => 0 <= x < 2 ^ 32) pad -> length pad = length w -> 0 <= f <= 1 ->
  tag_loop w pad f = le_bytes (4 * length w) (f + dval 32 w + dval 32 pad).
Proof.
  induction w as [|x w IH]; intros [|y pad] f Hw Hp Hl Hf; try done. cbn [tag_loop]. apply List.Forall_cons_iff in Hw as [Hx Hw]. apply List.Forall_cons_iff in Hp as [Hy Hp].
  rewrite u64_id by lia. rewrite IH; try done; [|cbn in Hl; lia|rewrite Z.shiftr_div_pow2 by lia; split; [apply Z.div_pos | apply Z.lt_succ_r, Z.div_lt_upper_bound]; lia].
  cbn [dval foldr length]. fold (dval 32 w) (dval 32 pad). replace (4 * S (length w))%nat with (4 + 4 * length w)%nat by lia.
  replace (f + (x + 2 ^ 32 * dval 32 w) + (y + 2 ^ 32 * dval 32 pad)) with ((f + (x + y)) + 2 ^ 32 * (dval 32 w + dval 32 pad)) by lia.
  rewrite le_bytes_word by (try lia; pose proof (dval_bound 32 w ltac:(lia) Hw); pose proof (dval_bound 32 pad ltac:(lia) Hp); lia).
  do 2 f_equal. lia.
Qed.

(** The accumulated, reduced, packed and padded value. *)
Lemma poly1305_spec key msg : bytes_ok key -> length key = 32%nat -> bytes_ok msg -> poly1305 key msg = poly1305_rfc key msg.
Proof.
  intros Hk Hl Hm. destruct (clamp_spec key Hk Hl) as (r0 & r1 & r2 & r3 & r4 & Er & Ev & Br & B4).
  rewrite !List.Forall_cons_iff in Br. destruct Br as (B0 & B1 & B2 & B3 & _).
  assert (Hok : poly_ok (poly_init key)).
  { split; [do 5 eexists; split; [done|]; lia|]. cbn [poly_init p_r]. do 5 eexists; split; [exact Er|]; lia. }
  destruct (poly_blocks_spec (length msg) (poly_init key) msg Hok Hm ltac:(lia)) as ([Hh _] & Ep & Eh).
  unfold poly1305, poly_finish, poly_blocks, poly1305_rfc. set (st := poly_blocks_loop _ _ _) in *.
  destruct (full_carry_spec _ Hh) as [Hf Ef]. destruct (select_mod_spec _ Hf) as [Hs Es]. destruct (pack_spec _ Hs) as (Bw & Ew & Lw).
  rewrite Ep. cbn [poly_init p_pad]. change (map _ (seq 0 4)) with (words4 key 16). destruct (words4_spec key 16 Hk ltac:(lia)) as [Ew2 Bw2].
  rewrite tag_loop_spec, Lw by (try done; rewrite ?Lw; done || lia). rewrite Ew2, take_ge by (rewrite length_drop; lia). change (4 * 4)%nat with 16%nat.
  rewrite <- (le_bytes_mod 16 (0 + _ + _)). change (8 * Z.of_nat 16) with 128. f_equal. rewrite Ew, Es, Ef, Eh. cbn [poly_init p_r p_h]. rewrite Ev. change (dval 26 [0; 0; 0; 0; 0]) with 0.
  rewrite Z.add_0_l, Zplus_mod_idemp_l. by rewrite poly_acc_range.
Qed.

(** ** ChaCha20 is RFC 8439's *)

(** The quarter round on four words of the state. *)
Definition code_quarter (a b c d : Z) : Z * Z * Z * Z :=
  let a := u32 (a + b) in let d := chacha_ROTL (Z.lxor d a) 16 in
  let c := u32 (c + d) in let b := chacha_ROTL (Z.lxor b c) 12 in
  let a := u32 (a + b) in let d := chacha_ROTL (Z.lxor d a) 8 in
  let c := u32 (c + d) in let b := chacha_ROTL (Z.lxor b c) 7 in
  (a, b, c, d).

Lemma rotl_rfc x n : 0 <= x < 2 ^ 32 -> 0 <= n <= 32 -> chacha_ROTL x n = rfc_rotl x n /\ 0 <= rfc_rotl x n < 2 ^ 32.
Proof.
  intros Hx Hn. assert (P : 2 ^ n * 2 ^ (32 - n) = 2 ^ 32) by (rewrite <- Z.pow_add_r by lia; f_equal; lia).
  assert (P1 : 0 < 2 ^ n) by (apply Z.pow_pos_nonneg; lia). assert (P2 : 0 < 2 ^ (32 - n)) by (apply Z.pow_pos_nonneg; lia).
  assert (B1 : 0 <= x / 2 ^ (32 - n) < 2 ^ n) by (split; [apply Z.div_pos; lia | apply Z.div_lt_upper_bound; lia]).
  assert (E : (x * 2 ^ n) mod 2 ^ 32 = (x mod 2 ^ (32 - n)) * 2 ^ n) by (rewrite <- P, (Z.mul_comm (2 ^ n)); apply Zmult_mod_distr_r).
  pose proof (Z.mod_pos_bound x (2 ^ (32 - n)) P2) as B2. unfold chacha_ROTL, rfc_rotl. rewrite E. split; [|nia].
  unfold u32. rewrite (Z.shiftl_mul_pow2 x n) by lia. change 4294967296 with (2 ^ 32). rewrite E, <- Z.shiftl_mul_pow2, Z.shiftr_div_pow2, lor_shiftl by first [exact B1 | lia]. by rewrite Z.shiftl_mul_pow2 by lia.
Qed.

Lemma lxor_range k a b : 0 <= k -> 0 <= a < 2 ^ k -> 0 <= b < 2 ^ k -> 0 <= Z.lxor a b < 2 ^ k.
Proof.
  intros Hk Ha Hb. assert (H0 : 0 <= Z.lxor a b) by (apply Z.lxor_nonneg; lia). split; [exact H0|].
  replace (Z.lxor a b) with (Z.lxor a b mod 2 ^ k); [apply Z.mod_pos_bound, Z.pow_pos_nonneg; lia|].
  apply Z.bits_inj_iff'. intros i Hi. destruct (Z.lt_ge_cases i k).
  - rewrite Z.mod_pow2_bits_low by lia. done.
  - rewrite Z.mod_pow2_bits_high, Z.lxor_spec, (testbit_high a i k), (testbit_high b i k) by lia. done.
Qed.

Definition w32 (x : Z) : Prop := 0 <= x < 2 ^ 32.
Lemma add_rfc x y : u32 (x + y) = rfc_add x y /\ w32 (rfc_add x y).
Proof. split; [reflexivity | apply Z.mod_pos_bound; lia]. Qed.

Lemma quarter_rfc a b c d : w32 a -> w32 b -> w32 c -> w32 d ->
  exists a' b' c' d', code_quarter a b c d = (a', b', c', d') /\ rfc_quarter a b c d = (a', b', c', d') /\ w32 a' /\ w32 b' /\ w32 c' /\ w32 d'.
Proof.
  intros Ha Hb Hc Hd. unfold code_quarter, rfc_quarter. cbv zeta.
  assert (S : forall x y z n, w32 y -> 0 <= n <= 32 -> rfc_add x z = rfc_add x z -> chacha_ROTL (Z.lxor y (rfc_add x z)) n = rfc_rotl (Z.lxor y (rfc_add x z)) n /\ w32 (rfc_rotl (Z.lxor y (rfc_add x z)) n)).
  { intros x y z n Hy Hn _. apply rotl_rfc; [apply lxor_range; [lia | exact Hy | apply add_rfc] | exact Hn]. }
  change (u32 (a + b)) with (rfc_add a b). destruct (S a d b 16 Hd ltac:(lia) eq_refl) as [-> D1]. set (a1 := rfc_add a b) in *. set (d1 := rfc_rotl (Z.lxor d a1) 16) in *.
  change (u32 (c + d1)) with (rfc_add c d1). destruct (S c b d1 12 Hb ltac:(lia) eq_refl) as [-> B1]. set (c1 := rfc_add c d1) in *. set (b1 := rfc_rotl (Z.lxor b c1) 12) in *.
  change (u32 (a1 + b1)) with (rfc_add a1 b1). destruct (S a1 d1 b1 8 D1 ltac:(lia) eq_refl) as [-> D2]. set (a2 := rfc_add a1 b1) in *. set (d2 := rfc_rotl (Z.lxor d1 a2) 8) in *.
  change (u32 (c1 + d2)) with (rfc_add c1 d2). destruct (S c1 b1 d2 7 B1 ltac:(lia) eq_refl) as [-> B2]. set (c2 := rfc_add c1 d2) in *. set (b2 := rfc_rotl (Z.lxor b1 c2) 7) in *.
  exists a2, b2, c2, d2. split; [reflexivity|]. split; [reflexivity|]. split; [apply add_rfc|]. split; [exact B2|]. split; [apply add_rfc | exact D2].
Qed.

(** The eight quarter rounds of a double round, on a state of sixteen words. *)

Definition rows_ok (s : list Z * list Z * list Z * list Z) : Prop :=
  exists x0 x1 x2 x3 y0 y1 y2 y3 z0 z1 z2 z3 t0 t1 t2 t3, s = ([x0; x1; x2; x3], [y0; y1; y2; y3], [z0; z1; z2; z3], [t0; t1; t2; t3]) /\
    Forall w32 [x0; x1; x2; x3; y0; y1; y2; y3; z0; z1; z2; z3; t0; t1; t2; t3].

Section quarter.
Context (x0 x1 x2 x3 y0 y1 y2 y3 z0 z1 z2 z3 t0 t1 t2 t3 : Z).
Notation st := [x0; x1; x2; x3; y0; y1; y2; y3; z0; z1; z2; z3; t0; t1; t2; t3].
Lemma QR_col0 : QR st 0 4 8 12 = let '(a, b, c, d) := code_quarter x0 y0 z0 t0 in [a; x1; x2; x3; b; y1; y2; y3; c; z1; z2; z3; d; t1; t2; t3].
Proof. reflexivity. Qed.
Lemma QR_col1 : QR st 1 5 9 13 = let '(a, b, c, d) := code_quarter x1 y1 z1 t1 in [x0; a; x2; x3; y0; b; y2; y3; z0; c; z2; z3; t0; d; t2; t3].
Proof. reflexivity. Qed.
Lemma QR_col2 : QR st 2 6 10 14 = let '(a, b, c, d) := code_quarter x2 y2 z2 t2 in [x0; x1; a; x3; y0; y1; b; y3; z0; z1; c; z3; t0; t1; d; t3].
Proof. reflexivity. Qed.
Lemma QR_col3 : QR st 3 7 11 15 = let '(a, b, c, d) := code_quarter x3 y3 z3 t3 in [x0; x1; x2; a; y0; y1; y2; b; z0; z1; z2; c; t0; t1; t2; d].
Proof. reflexivity. Qed.
Lemma QR_diag0 : QR st 0 5 10 15 = let '(a, b, c, d) := code_quarter x0 y1 z2 t3 in [a; x1; x2; x3; y0; b; y2; y3; z0; z1; c; z3; t0; t1; t2; d].
Proof. reflexivity. Qed.
Lemma QR_diag1 : QR st 1 6 11 12 = let '(a, b, c, d) := code_quarter x1 y2 z3 t0 in [x0; a; x2; x3; y0; y1; b; y3; z0; z1; z2; c; d; t1; t2; t3].
Proof. reflexivity. Qed.
Lemma QR_diag2 : QR st 2 7 8 13 = let '(a, b, c, d) := code_quarter x2 y3 z0 t1 in [x0; x1; a; x3; y0; y1; y2; b; c; z1; z2; z3; t0; d; t2; t3].
Proof. reflexivity. Qed.
Lemma QR_diag3 : QR st 3 4 9 14 = let '(a, b, c, d) := code_quarter x3 y0 z1 t2 in [x0; x1; x2; a; b; y1; y2; y3; z0; c; z2; z3; t0; t1; d; t3].
Proof. reflexivity. Qed.
End quarter.

Lemma double_round_rfc s : rows_ok s -> double_round (flat_rows s) = flat_rows (diagonal_round (column_round s)) /\ rows_ok (diagonal_round (column_round s)).
Proof.
  intros (x0 & x1 & x2 & x3 & y0 & y1 & y2 & y3 & z0 & z1 & z2 & z3 & t0 & t1 & t2 & t3 & -> & H). rewrite !List.Forall_cons_iff in H.
  destruct H as (X0 & X1 & X2 & X3 & Y0 & Y1 & Y2 & Y3 & Z0 & Z1 & Z2 & Z3 & T0 & T1 & T2 & T3 & _).
  unfold double_round, flat_rows, column_round, diagonal_round, quarters, turn. cbn [fst snd app map seq at_ nth].
  destruct (quarter_rfc x0 y0 z0 t0) as (a0 & b0 & c0 & d0 & E0 & F0 & ? & ? & ? & ?); try assumption. rewrite QR_col0, E0, F0.
  destruct (quarter_rfc x1 y1 z1 t1) as (a1 & b1 & c1 & d1 & E1 & F1 & ? & ? & ? & ?); try assumption. rewrite QR_col1, E1, F1.
  destruct (quarter_rfc x2 y2 z2 t2) as (a2 & b2 & c2 & d2 & E2 & F2 & ? & ? & ? & ?); try assumption. rewrite QR_col2, E2, F2.
  destruct (quarter_rfc x3 y3 z3 t3) as (a3 & b3 & c3 & d3 & E3 & F3 & ? & ? & ? & ?); try assumption. rewrite QR_col3, E3, F3.
  unfold at_. cbn [fst snd app drop take nth].
  destruct (quarter_rfc a0 b1 c2 d3) as (e0 & f0 & g0 & h0 & G0 & K0 & ? & ? & ? & ?); try assumption. rewrite QR_diag0, G0, K0.
  destruct (quarter_rfc a1 b2 c3 d0) as (e1 & f1 & g1 & h1 & G1 & K1 & ? & ? & ? & ?); try assumption. rewrite QR_diag1, G1, K1.
  destruct (quarter_rfc a2 b3 c0 d1) as (e2 & f2 & g2 & h2 & G2 & K2 & ? & ? & ? & ?); try assumption. rewrite QR_diag2, G2, K2.
  destruct (quarter_rfc a3 b0 c1 d2) as (e3 & f3 & g3 & h3 & G3 & K3 & ? & ? & ? & ?); try assumption. rewrite QR_diag3, G3, K3.
  cbn [fst snd app drop take]. split; [reflexivity|]. do 16 eexists. split; [reflexivity|]. repeat (constructor; [assumption|]). constructor.
Qed.

Lemma double_rounds_rfc n s : rows_ok s ->
  Nat.iter n double_round (flat_rows s) = flat_rows (Nat.iter n (fun s => diagonal_round (column_round s)) s) /\ rows_ok (Nat.iter n (fun s => diagonal_round (column_round s)) s).
Proof.
  intros Hs. induction n as [|n [E R]]; [split; [reflexivity | exact Hs]|]. change (Nat.iter (S n) ?f ?x) with (f (Nat.iter n f x)). cbv beta. rewrite E. by apply double_round_rfc.
Qed.

Lemma words_rfc n p : bytes_ok p -> (4 * n <= length p)%nat -> map (fun i => rd32 p (4 * i)) (seq 0 n) = rfc_words n p /\ Forall w32 (rfc_words n p).
Proof.
  intros Hp Hl. unfold rfc_words. split.
  - apply map_ext_in. intros i Hi%in_seq. apply rd32_spec; [exact Hp | lia].
  - apply List.Forall_forall. intros x (i & <- & Hi%in_seq)%in_map_iff. destruct (rd32_spec p (4 * i) Hp ltac:(lia)) as [<- H]. exact H.
Qed.

Lemma serialize_rfc x s : length x = 16%nat -> length s = 16%nat -> chacha_serialize x s = concat (map (le_bytes 4) (zip_with rfc_add x s)).
Proof.
  intros Hx Hs. unfold chacha_serialize. rewrite flat_map_concat_map. f_equal.
  transitivity (map (fun i => le_bytes 4 (rfc_add (at_ x i) (at_ s i))) (seq 0 16)).
  - apply map_ext. intros i. unfold le_bytes, u8. cbn [seq map]. rewrite !Z.shiftr_div_pow2 by lia. change (rfc_add (at_ x i) (at_ s i)) with (u32 (at_ x i + at_ s i)).
    change (2 ^ (8 * Z.of_nat 0)) with 1. by rewrite Z.div_1_r.
  - do 16 (destruct x as [|? x]; [discriminate|]; destruct s as [|? s]; [discriminate|]). destruct x; [|discriminate]. destruct s; [|discriminate]. reflexivity.
Qed.

Lemma block_rfc key counter nonce : bytes_ok key -> length key = 32%nat -> bytes_ok nonce -> length nonce = 12%nat -> w32 counter ->
  chacha20_block key counter nonce = rfc_chacha_block key counter nonce.
Proof.
  intros Hk Lk Hn Ln Hc. unfold chacha20_block, rfc_chacha_block, chacha_init_state.
  destruct (words_rfc 8 key Hk ltac:(lia)) as [-> Wk]. destruct (words_rfc 3 nonce Hn ltac:(lia)) as [-> Wn].
  assert (Lwk : length (rfc_words 8 key) = 8%nat) by (unfold rfc_words; by rewrite length_map). assert (Lwn : length (rfc_words 3 nonce) = 3%nat) by (unfold rfc_words; by rewrite length_map).
  revert Wk Lwk Wn Lwn. generalize (rfc_words 8 key) (rfc_words 3 nonce). intros k n Wk Lwk Wn Lwn.
  destruct k as [|k0 [|k1 [|k2 [|k3 [|k4 [|k5 [|k6 [|k7 [|]]]]]]]]]; try discriminate. destruct n as [|n0 [|n1 [|n2 [|]]]]; try discriminate.
  rewrite !List.Forall_cons_iff in Wk. rewrite !List.Forall_cons_iff in Wn. destruct Wk as (? & ? & ? & ? & ? & ? & ? & ? & _). destruct Wn as (? & ? & ? & _).
  set (rows := (rfc_constants, _, _, _)). cbn [take drop] in rows.
  assert (R : rows_ok rows). { do 16 eexists. split; [reflexivity|]. repeat (constructor; [first [assumption | unfold w32; lia]|]). constructor. }
  change ([1634760805; 857760878; 2036477234; 1797285236] ++ _) with (flat_rows rows).
  destruct (double_rounds_rfc 10 rows R) as [-> R']. apply serialize_rfc.
  - destruct R' as (? & ? & ? & ? & ? & ? & ? & ? & ? & ? & ? & ? & ? & ? & ? & ? & -> & _). reflexivity.
  - reflexivity.
Qed.

Lemma flat_map_shift {B} (f : nat -> list B) m k : flat_map f (seq (S k) m) = flat_map (fun i => f (S i)) (seq k m).
Proof. rewrite <- seq_shift, !flat_map_concat_map, map_map. reflexivity. Qed.

#[local] Opaque rfc_chacha_block chacha20_block.

(** The loop's chunks are the stream's blocks. *)
Lemma chacha_loop_rfc m : forall fuel c inp, bytes_ok (cc_key c) -> length (cc_key c) = 32%nat -> bytes_ok (cc_nonce c) -> length (cc_nonce c) = 12%nat -> w32 (cc_counter c) ->
  (length inp <= fuel)%nat -> (length inp <= 64 * m)%nat ->
  chacha_loop fuel c inp = zip_with Z.lxor inp (flat_map (fun i => rfc_chacha_block (cc_key c) ((cc_counter c + Z.of_nat i) mod 2 ^ 32) (cc_nonce c)) (seq 0 m)).
Proof.
  induction m as [|m IH]; intros fuel c inp Hk Lk Hn Ln Hc Hf Hm.
  { destruct inp; [|cbn in Hm; lia]. destruct fuel; reflexivity. }
  destruct fuel as [|fuel]; [destruct inp; [reflexivity | cbn in Hf; lia]|]. cbn [chacha_loop]. destruct inp as [|x inp]; [reflexivity|]. set (l := x :: inp) in *.
  set (o := xor_chunk c l). assert (Lo : length o = Nat.min 64 (length l)) by apply xor_chunk_length.
  cbn [seq flat_map]. rewrite Z.add_0_r, (Z.mod_small (cc_counter c)) by exact Hc. rewrite <- block_rfc by assumption. set (ks := chacha20_block _ _ _).
  assert (Lks : length ks = 64%nat) by apply chacha20_block_length.
  assert (Eo : o = zip_with Z.lxor l ks).
  { unfold o, xor_chunk, CHACHA_BLOCK. fold ks. apply zip_with_take_both'; rewrite Lks; destruct (Nat.ltb_spec (length l) 64); lia. }
  rewrite zip_with_app_r, Lks. f_equal; [rewrite Eo, <- Lks; symmetry; apply zip_with_take_l|].
  rewrite Lo. rewrite (IH fuel (mk_chacha _ _ _)); cbn [cc_key cc_nonce cc_counter]; try assumption.
  - destruct (Nat.le_gt_cases 64 (length l)); [replace (Nat.min 64 (length l)) with 64%nat by lia|rewrite !drop_ge by lia; cbn [zip_with]; destruct fuel; reflexivity].
    rewrite flat_map_shift, !flat_map_concat_map. apply (f_equal (fun k => zip_with Z.lxor (drop 64 l) (concat k))). apply map_ext. intros i.
    apply (f_equal (fun n => rfc_chacha_block (cc_key c) n (cc_nonce c))). unfold u32. rewrite Zplus_mod_idemp_l. apply (f_equal (fun z => z mod 2 ^ 32)). lia.
  - apply Z.mod_pos_bound. lia.
  - rewrite length_drop. unfold l in *. cbn [length] in *. lia.
  - rewrite length_drop. lia.
Qed.

#[local] Transparent rfc_chacha_block chacha20_block.

Lemma chacha_block_shape key counter nonce : bytes_ok (rfc_chacha_block key counter nonce).
Proof.
  unfold rfc_chacha_block. induction (zip_with _ _ _) as [|x l IH]; [constructor|]. cbn [map concat]. apply bytes_ok_app. split; [apply le_bytes_ok | exact IH].
Qed.

Lemma stream_rfc c text : bytes_ok (cp_key c) -> length (cp_key c) = 32%nat -> bytes_ok (cp_nonce c) -> length (cp_nonce c) = 12%nat ->
  chapoly_stream c text = rfc_chacha_xor (cp_key c) 1 (cp_nonce c) text.
Proof.
  intros Hk Lk Hn Ln. unfold chapoly_stream, chacha20_xor, rfc_chacha_xor.
  apply (chacha_loop_rfc (S (length text / 64)) (length text) (mk_chacha (cp_key c) (cp_nonce c) 1) text); cbn [cc_key cc_nonce cc_counter]; try assumption; try lia.
  - unfold w32. lia.
  - pose proof (Nat.div_mod_eq (length text) 64). pose proof (Nat.mod_upper_bound (length text) 64 ltac:(lia)). lia.
Qed.

Lemma rfc_block_length key counter nonce : length (rfc_chacha_block key counter nonce) = 64%nat.
Proof.
  assert (L : forall l : list Z, length (concat (map (le_bytes 4) l)) = (4 * length l)%nat).
  { induction l as [|x l IH]; [reflexivity|]. cbn [map concat length]. rewrite length_app, le_bytes_length, IH. lia. }
  set (four := fun s : list Z * list Z * list Z * list Z => length s.1.1.1 = 4%nat /\ length s.1.1.2 = 4%nat /\ length s.1.2 = 4%nat /\ length s.2 = 4%nat).
  assert (R : forall n s, four s -> four (Nat.iter n (fun s => diagonal_round (column_round s)) s)).
  { induction n as [|n IH]; intros s Hs; [exact Hs|]. change (Nat.iter (S n) ?f ?x) with (f (Nat.iter n f x)). destruct (Nat.iter n _ s) as [[[r0 r1] r2] r3]. repeat split. }
  assert (F : forall s, four s -> length (flat_rows s) = 16%nat).
  { intros [[[r0 r1] r2] r3] (H0 & H1 & H2 & H3). cbn [fst snd] in *. unfold flat_rows. cbn [fst snd]. rewrite !length_app. lia. }
  unfold rfc_chacha_block. set (rows := (_, _, _, _)). assert (H : four rows) by (repeat split).
  rewrite L, length_zip_with, (F _ H), (F _ (R 10%nat _ H)). reflexivity.
Qed.

Lemma rfc_chacha_xor_length key counter nonce text : length (rfc_chacha_xor key counter nonce text) = length text.
Proof.
  unfold rfc_chacha_xor. rewrite length_zip_with. assert (L : forall (f : nat -> list Z) l, (forall i, length (f i) = 64%nat) -> length (flat_map f l) = (64 * length l)%nat).
  { intros f l Hf. induction l as [|i l IH]; [reflexivity|]. cbn [flat_map length]. rewrite length_app, Hf, IH. lia. }
  rewrite L by (intros; apply rfc_block_length). rewrite length_seq. pose proof (Nat.div_mod_eq (length text) 64). pose proof (Nat.mod_upper_bound (length text) 64 ltac:(lia)). lia.
Qed.

Lemma rfc_chacha_xor_ok key counter nonce text : bytes_ok text -> bytes_ok (rfc_chacha_xor key counter nonce text).
Proof.
  intros Ht. apply zip_lxor_ok; [exact Ht|]. apply Forall_flat_map, List.Forall_forall. intros i _. apply chacha_block_shape.
Qed.

(** ** The AEAD *)

Lemma tag_loop_bytes w : forall pad f, bytes_ok (tag_loop w pad f).
Proof.
  induction w as [|x w IH]; intros [|y pad] f; try apply Forall_nil_2. cbn [tag_loop]. apply bytes_ok_app. split; [|apply IH].
  repeat (apply bytes_ok_cons; split; [apply u8_range|]). apply Forall_nil_2.
Qed.
Lemma tag_loop_length w : forall pad f, length pad = length w -> length (tag_loop w pad f) = (4 * length w)%nat.
Proof.
  induction w as [|x w IH]; intros [|y pad] f Hl; try done. cbn [tag_loop]. rewrite length_app, IH by (cbn in Hl; lia). cbn [length]. lia.
Qed.
Lemma poly_blocks_pad n : forall st msg, p_pad (poly_blocks_loop n st msg) = p_pad st.
Proof. induction n as [|n IH]; intros st msg; cbn [poly_blocks_loop]; [done|]. repeat case_match; rewrite ?IH; done. Qed.

Lemma poly1305_tag key msg : bytes_ok (poly1305 key msg) /\ length (poly1305 key msg) = 16%nat.
Proof.
  unfold poly1305, poly_finish, poly_blocks. rewrite poly_blocks_pad. split; [apply tag_loop_bytes|].
  by rewrite tag_loop_length.
Qed.

(** RFC 8439 2.8's authenticated bytes. *)
Definition pad16 (l : list Z) : list Z := l ++ replicate ((16 - length l mod 16) mod 16) 0.
Definition mac_data (aad ct : list Z) : list Z := pad16 aad ++ pad16 ct ++ le_bytes 8 (zlen aad) ++ le_bytes 8 (zlen ct).

Lemma pad16_length l : (length l <= 1500)%nat -> (length (pad16 l) <= 1504)%nat.
Proof.
  intros Hl. unfold pad16. rewrite length_app, length_replicate. pose proof (Nat.div_mod_eq (length l) 16). pose proof (Nat.mod_upper_bound (length l) 16 ltac:(lia)).
  destruct (decide (length l mod 16 = 0)%nat) as [E|]; [rewrite E; change ((16 - 0) mod 16)%nat with 0%nat; lia|]. rewrite (Nat.mod_small (16 - _) 16) by lia. lia.
Qed.

Lemma put_padded_spec buf src : (length buf + length (pad16 src) <= MAC_CAP)%nat -> put_padded buf src = Some (buf ++ pad16 src).
Proof.
  intros H. unfold put_padded, mac_put, pad16 in *. rewrite length_app in H. destruct (Nat.leb_spec (length buf + length src) MAC_CAP); [|lia]. cbn [mbind option_bind].
  rewrite length_app. destruct (Nat.leb_spec (length buf + length src + length (replicate ((16 - length src mod 16) mod 16) 0)) MAC_CAP); [|lia].
  by rewrite app_assoc.
Qed.

Lemma put_le64_spec buf v : (length buf + 8 <= MAC_CAP)%nat -> put_le64 buf v = Some (buf ++ le_bytes 8 v).
Proof.
  intros H. unfold put_le64, mac_put. rewrite length_map, length_seq. destruct (Nat.leb_spec (length buf + 8) MAC_CAP); [|lia].
  do 2 f_equal. apply map_ext. intros i. unfold u8. by rewrite Z.shiftr_div_pow2 by lia.
Qed.

Lemma chapoly_tag_spec c ct : zlen (cp_aad c) <= 1500 -> zlen ct <= 1500 ->
  chapoly_tag c ct = Some (poly1305 (poly_key c) (mac_data (cp_aad c) ct)).
Proof.
  intros Ha Hc. unfold chapoly_tag, MAC_CAP. pose proof (pad16_length (cp_aad c) ltac:(unfold zlen in Ha; lia)). pose proof (pad16_length ct ltac:(unfold zlen in Hc; lia)).
  rewrite put_padded_spec by (unfold MAC_CAP; cbn [length]; lia). cbn [mbind option_bind app].
  rewrite put_padded_spec by (unfold MAC_CAP; lia). cbn [mbind option_bind].
  rewrite put_le64_spec by (unfold MAC_CAP; rewrite length_app; lia). cbn [mbind option_bind].
  rewrite put_le64_spec by (unfold MAC_CAP; rewrite !length_app, le_bytes_length; lia). cbn [mbind option_bind].
  do 2 f_equal. unfold mac_data. by rewrite !app_assoc.
Qed.

Lemma chapoly_sealed_length c pt ct : chapoly_seal c pt = Some ct -> length ct = (length pt + 16)%nat.
Proof.
  unfold chapoly_seal. destruct (chapoly_tag c (chapoly_stream c pt)) as [tag|] eqn:E; intros [= <-]. rewrite length_app, chapoly_stream_length. f_equal.
  unfold chapoly_tag in E. repeat (apply bind_Some in E as (? & _ & E)). injection E as <-. apply poly1305_tag.
Qed.

Lemma chapoly_promise c : zlen (cp_aad c) <= 1500 ->
  (forall pt, zlen pt <= 1500 -> chapoly_seal c pt =
    Some (chapoly_stream c pt ++ poly1305 (poly_key c) (mac_data (cp_aad c) (chapoly_stream c pt))) /\ length (chapoly_stream c pt) = length pt) /\
  (forall ct, bytes_ok ct -> zlen ct <= 1516 -> exists r, chapoly_open c ct = Some r /\ forall pt, r = Some pt <-> chapoly_seal c pt = Some ct).
Proof.
  intros Ha.
  assert (Hs : forall pt, zlen pt <= 1500 -> chapoly_seal c pt = Some (chapoly_stream c pt ++ poly1305 (poly_key c) (mac_data (cp_aad c) (chapoly_stream c pt)))).
  { intros pt Hp. unfold chapoly_seal. rewrite chapoly_tag_spec; [done | done |]. unfold zlen in *. by rewrite chapoly_stream_length. }
  split; [intros pt Hp; split; [by apply Hs | apply chapoly_stream_length]|].
  intros ct Hc Hl. unfold chapoly_open, CHAPOLY_TAG.
  pose proof (fun pt => chapoly_sealed_length c pt ct) as Hlen.
  destruct (Nat.ltb_spec (length ct) 16) as [Hshort|Hge].
  { exists None. split; [done|]. intros pt. split; [done|]. intros E%Hlen. lia. }
  set (body := take (length ct - 16) ct). assert (Hb : length body = (length ct - 16)%nat) by (unfold body; rewrite length_take; lia).
  rewrite chapoly_tag_spec by (try done; unfold zlen in *; lia). cbn [mbind option_bind]. rewrite Hb.
  set (want := poly1305 _ _). destruct (poly1305_tag (poly_key c) (mac_data (cp_aad c) body)) as [Hwb Hwl]. fold want in Hwb, Hwl.
  destruct (ct16_spec want (drop (length ct - 16) ct) Hwb (bytes_ok_drop _ _ Hc) Hwl ltac:(rewrite length_drop; lia)) as (d & -> & Ed). cbn [mbind option_bind]. rewrite Ed.
  assert (Hct : ct = body ++ drop (length ct - 16) ct) by (unfold body; by rewrite take_drop).
  assert (Hseal : forall pt, chapoly_seal c pt = Some ct <-> pt = chapoly_stream c body /\ want = drop (length ct - 16) ct).
  { intros pt. split.
    - intros E. pose proof (Hlen _ E) as Ep. rewrite Hs in E by (unfold zlen in *; lia). injection E as E. rewrite Hct in E at 1. apply app_inj_1 in E as [E1 E2]; [|rewrite chapoly_stream_length; lia].
      rewrite <- E1, chapoly_stream_twice. split; [done|]. rewrite <- E2. unfold want. by rewrite <- E1.
    - intros [-> E]. rewrite Hs by (unfold zlen in *; rewrite chapoly_stream_length; lia). rewrite chapoly_stream_twice. fold want. by rewrite E, <- Hct. }
  case_bool_decide as Ew; cbn [negb].
  - exists (Some (chapoly_stream c body)). split; [done|]. intros pt. rewrite Hseal. split; [intros [= <-]; done | intros [-> _]; done].
  - exists None. split; [done|]. intros pt. rewrite Hseal. split; [done|]. intros [_ ?]. done.
Qed.

(** C24: Poly1305: for any 32-byte key and message the 26-bit limb code (clamping,
    the carries kept within 32 and 64 bits, the lazy reduction and the masked final
    subtraction) computes RFC 8439's tag: with r the clamped first key half, the
    blocks, each with a 1 byte appended, are evaluated as a polynomial in r modulo
    2^130 - 5; the second key half is added and the low 128 bits written
    little-endian. *)
Theorem poly1305_exact key msg : bytes_ok key -> length key = 32%nat -> bytes_ok msg -> poly1305 key msg = poly1305_rfc key msg.
Proof. intros Hk Hl Hm. by apply poly1305_spec. Qed.

(** RFC 8439 2.8: the text encrypted from counter 1 on, and the tag of the padded
    and length-terminated data under the one-time key that starts block 0. *)
Definition rfc_chapoly (key nonce aad pt : list Z) : list Z :=
  let ct := rfc_chacha_xor key 1 nonce pt in ct ++ poly1305_rfc (take 32 (rfc_chacha_block key 0 nonce)) (mac_data aad ct).

Definition chapoly_ok (c : chapoly_ctx) : Prop :=
  bytes_ok (cp_key c) /\ length (cp_key c) = 32%nat /\ bytes_ok (cp_nonce c) /\ length (cp_nonce c) = 12%nat /\ bytes_ok (cp_aad c) /\ zlen (cp_aad c) <= 1500.

Lemma pad16_ok l : bytes_ok l -> bytes_ok (pad16 l).
Proof. intros Hl. unfold pad16. apply bytes_ok_app. split; [exact Hl|]. apply Forall_replicate. unfold is_u8. lia. Qed.

Lemma mac_data_ok aad ct : bytes_ok aad -> bytes_ok ct -> bytes_ok (mac_data aad ct).
Proof. intros Ha Hc. unfold mac_data. rewrite !bytes_ok_app. split; [by apply pad16_ok|]. split; [by apply pad16_ok|]. split; apply le_bytes_ok. Qed.

Lemma poly_key_rfc c : chapoly_ok c -> poly_key c = take 32 (rfc_chacha_block (cp_key c) 0 (cp_nonce c)).
Proof. intros (Hk & Lk & Hn & Ln & _). unfold poly_key. rewrite block_rfc by (assumption || (unfold w32; lia)). reflexivity. Qed.

Lemma rfc_chapoly_length key nonce aad pt : length (rfc_chapoly key nonce aad pt) = (length pt + 16)%nat.
Proof. unfold rfc_chapoly, poly1305_rfc. by rewrite length_app, le_bytes_length, rfc_chacha_xor_length. Qed.

Lemma rfc_chapoly_ok key nonce aad pt : bytes_ok pt -> bytes_ok (rfc_chapoly key nonce aad pt).
Proof. intros Hp. unfold rfc_chapoly, poly1305_rfc. apply bytes_ok_app. split; [by apply rfc_chacha_xor_ok | apply le_bytes_ok]. Qed.

Lemma seal_rfc c pt : chapoly_ok c -> bytes_ok pt ->
  chapoly_stream c pt ++ poly1305 (poly_key c) (mac_data (cp_aad c) (chapoly_stream c pt)) = rfc_chapoly (cp_key c) (cp_nonce c) (cp_aad c) pt.
Proof.
  intros Hc Hp. rewrite (poly_key_rfc c Hc). destruct Hc as (Hk & Lk & Hn & Ln & Ha & _). rewrite stream_rfc by assumption. unfold rfc_chapoly.
  rewrite poly1305_spec; [reflexivity | apply bytes_ok_take, chacha_block_shape | rewrite length_take, rfc_block_length; lia|].
  apply mac_data_ok; [exact Ha | by apply rfc_chacha_xor_ok].
Qed.

Lemma chapoly_laws c : chapoly_ok c ->
  let key := cp_key c in let nonce := cp_nonce c in let aad := cp_aad c in
  (forall pt, bytes_ok pt -> zlen pt <= 1500 -> chapoly_seal c pt = Some (rfc_chapoly key nonce aad pt)) /\
  (forall ct, bytes_ok ct -> zlen ct <= 1516 -> exists r, chapoly_open c ct = Some r /\ forall pt, r = Some pt <-> bytes_ok pt /\ rfc_chapoly key nonce aad pt = ct).
Proof.
  intros Hc. pose proof Hc as (_ & _ & _ & _ & _ & La). destruct (chapoly_promise c La) as [S O]. cbv zeta. split.
  - intros pt Hp Lp. rewrite (proj1 (S pt Lp)). by rewrite seal_rfc.
  - intros ct Hct Lct. destruct (O ct Hct Lct) as (r & Er & Hr). exists r. split; [exact Er|]. intros p. rewrite Hr. split.
    + intros E. pose proof (chapoly_sealed_length _ _ _ E) as L. rewrite (proj1 (S p ltac:(unfold zlen in *; lia))) in E. injection E as E.
      assert (Hp : bytes_ok p) by (rewrite <- (chapoly_stream_twice c p); apply chacha_loop_ok; rewrite <- E in Hct; apply bytes_ok_app in Hct; apply Hct).
      split; [exact Hp|]. by rewrite <- seal_rfc.
    + intros [Hp E]. pose proof (f_equal length E) as L. rewrite rfc_chapoly_length in L. rewrite (proj1 (S p ltac:(unfold zlen in *; lia))). by rewrite seal_rfc, E.
Qed.

(** C25: the AEAD is RFC 8439 2.8's: with a 32-byte key, a 12-byte nonce, and
    associated data and text of at most 1500 bytes, sealing never overruns its
    scratch and writes the text XORed with the RFC's ChaCha20 blocks from counter 1
    on, then the RFC's Poly1305 tag of the padded and length-terminated data under
    the one-time key from block 0, 16 bytes more than the text; and opening any
    bytes returns [pt] exactly when they are the sealing of [pt]: what was sealed
    opens to itself, and everything else is refused. *)
Theorem chapoly_exact c : chapoly_ok c ->
  let key := cp_key c in let nonce := cp_nonce c in let aad := cp_aad c in
  (forall pt, bytes_ok pt -> zlen pt <= 1500 -> chapoly_seal c pt = Some (rfc_chapoly key nonce aad pt) /\
    length (rfc_chapoly key nonce aad pt) = (length pt + 16)%nat /\ chapoly_open c (rfc_chapoly key nonce aad pt) = Some (Some pt)) /\
  (forall ct, bytes_ok ct -> zlen ct <= 1516 -> exists r, chapoly_open c ct = Some r /\ forall pt, r = Some pt <-> bytes_ok pt /\ rfc_chapoly key nonce aad pt = ct).
Proof.
  intros Hc key nonce aad. destruct (chapoly_laws c Hc) as [S O]. split; [|exact O].
  intros pt Hp Lp. split; [by apply S|]. split; [apply rfc_chapoly_length|].
  destruct (O (rfc_chapoly key nonce aad pt)) as (r & -> & Hr); [by apply rfc_chapoly_ok | pose proof (rfc_chapoly_length key nonce aad pt); unfold zlen in *; lia|].
  f_equal. apply Hr. split; [exact Hp | reflexivity].
Qed.

(** The vectors of RFC 8439 2.5.2 and 2.8.2. *)
Definition rfc_poly_key : list Z := [133; 214; 190; 120; 87; 85; 109; 51; 127; 68; 82; 254; 66; 213; 6; 168; 1; 3; 128; 138; 251; 13; 178; 253; 74; 191; 246; 175; 65; 73; 245; 27].
Definition rfc_poly_msg : list Z := [67; 114; 121; 112; 116; 111; 103; 114; 97; 112; 104; 105; 99; 32; 70; 111; 114; 117; 109; 32; 82; 101; 115; 101; 97; 114; 99; 104; 32; 71; 114; 111; 117; 112].
Definition rfc_aead : chapoly_ctx := mk_chapoly [128; 129; 130; 131; 132; 133; 134; 135; 136; 137; 138; 139; 140; 141; 142; 143; 144; 145; 146; 147; 148; 149; 150; 151; 152; 153; 154; 155; 156; 157; 158; 159] [7; 0; 0; 0; 64; 65; 66; 67; 68; 69; 70; 71] [80; 81; 82; 83; 192; 193; 194; 195; 196; 197; 198; 199].
Definition rfc_aead_pt : list Z := [76; 97; 100; 105; 101; 115; 32; 97; 110; 100; 32; 71; 101; 110; 116; 108; 101; 109; 101; 110; 32; 111; 102; 32; 116; 104; 101; 32; 99; 108; 97; 115; 115; 32; 111; 102; 32; 39; 57; 57; 58; 32; 73; 102; 32; 73; 32; 99; 111; 117; 108; 100; 32; 111; 102; 102; 101; 114; 32; 121; 111; 117; 32; 111; 110; 108; 121; 32; 111; 110; 101; 32; 116; 105; 112; 32; 102; 111; 114; 32; 116; 104; 101; 32; 102; 117; 116; 117; 114; 101; 44; 32; 115; 117; 110; 115; 99; 114; 101; 101; 110; 32; 119; 111; 117; 108; 100; 32; 98; 101; 32; 105; 116; 46].

Lemma poly1305_exact_witness : bytes_ok rfc_poly_key /\ length rfc_poly_key = 32%nat /\ bytes_ok rfc_poly_msg /\
  poly1305 rfc_poly_key rfc_poly_msg = [168; 6; 29; 193; 48; 81; 54; 198; 194; 43; 139; 175; 12; 1; 39; 169] /\ poly1305 rfc_poly_key rfc_poly_msg = poly1305_rfc rfc_poly_key rfc_poly_msg.
Proof.
  assert (Hk : bytes_ok rfc_poly_key) by (repeat constructor; easy). assert (Hm : bytes_ok rfc_poly_msg) by (repeat constructor; easy).
  split; [exact Hk|]. split; [reflexivity|]. split; [exact Hm|]. split; [vm_compute; reflexivity|]. exact (poly1305_exact rfc_poly_key rfc_poly_msg Hk eq_refl Hm).
Defined.

Lemma chapoly_exact_witness : chapoly_ok rfc_aead /\ bytes_ok rfc_aead_pt /\ zlen rfc_aead_pt <= 1500 /\
  option_map (skipn 114) (chapoly_seal rfc_aead rfc_aead_pt) = Some [26; 225; 11; 89; 79; 9; 226; 106; 126; 144; 46; 203; 208; 96; 6; 145] /\
  chapoly_open rfc_aead (rfc_chapoly (cp_key rfc_aead) (cp_nonce rfc_aead) (cp_aad rfc_aead) rfc_aead_pt) = Some (Some rfc_aead_pt).
Proof.
  assert (H : chapoly_ok rfc_aead).
  { split; [repeat constructor; easy|]. split; [reflexivity|]. split; [repeat constructor; easy|]. split; [reflexivity|]. split; [repeat constructor; easy | vm_compute; congruence]. }
  assert (H1 : zlen rfc_aead_pt <= 1500) by (vm_compute; congruence). assert (H2 : bytes_ok rfc_aead_pt) by (repeat constructor; easy).
  split; [exact H|]. split; [exact H2|]. split; [exact H1|]. split; [vm_compute; reflexivity|]. exact (proj2 (proj2 (proj1 (chapoly_exact rfc_aead H) rfc_aead_pt H2 H1))).
Defined.
