(* ===== verification/Protect.v ===== *)
(** * Packet protection

    src/src/transport/packet/protect (nonces, header protection masks, the
    AEAD of each cipher suite, the two sealing and opening pipelines). A packet
    buffer is the list of its bytes; opening changes it in place, so the result
    holds the buffer afterwards next to what the function returns. The receive
    side that finds the packet number by itself is in Unprotect. *)

From Stdlib Require Import String.
From stdpp Require Import base numbers list option.
From Stdlib Require Import ZArith Lia.
From S2P Require Import Prelude Bytes PktNum Aes Ghash Gcm Chacha.

(** ** Regions of a buffer *)

(** The [n] bytes at [o] as a pointer and a length hand them to a callee;
    [None] outside the buffer. *)
Definition mem_sub (p : list Z) (o n : Z) : option (list Z) :=
  if (0 <=? o) && (0 <=? n) && (o + n <=? zlen p) then Some (take (Z.to_nat n) (drop (Z.to_nat o) p)) else None.
(** Bytes written at [o]. *)
Definition mem_put (p : list Z) (o : Z) (bs : list Z) : option (list Z) :=
  if (0 <=? o) && (o + zlen bs <=? zlen p) then Some (splice p o bs) else None.

(** ** Suites: tls/cipher.h, tls/aead_params.c *)

Definition TLS_AES_128_GCM_SHA256 : Z := 0x1301.
Definition TLS_AES_256_GCM_SHA384 : Z := 0x1302.
Definition TLS_CHACHA20_POLY1305_SHA256 : Z := 0x1303.

(** The scan of a table keyed by suite. *)
Fixpoint suite_row {A} (tab : list (Z * A)) (suite : Z) : option A :=
  match tab with
  | [] => None
  | (s, a) :: tab' => if s =? suite then Some a else suite_row tab' suite
  end.

(* src/src/tls/handshake/core/tls/aead_params.c : aead_params_tab@6-13 *)
Definition aead_params_tab : list (Z * Z) := [(TLS_AES_128_GCM_SHA256, 16); (TLS_AES_256_GCM_SHA384, 32); (TLS_CHACHA20_POLY1305_SHA256, 32)].
(* src/src/tls/handshake/core/tls/aead_params.c : aead_key_len *)
Definition aead_key_len (suite : Z) : Z := match suite_row aead_params_tab suite with Some n => n | None => 0 end.
(* src/src/tls/handshake/core/tls/aead_params.c : aead_tag_len *)
Definition aead_tag_len (suite : Z) : Z := if negb (aead_key_len suite =? 0) then 16 else 0.
(* src/src/tls/handshake/core/tls/aead_params.c : aead_is_chacha *)
Definition aead_is_chacha (suite : Z) : bool := suite =? TLS_CHACHA20_POLY1305_SHA256.

(** ** Keys *)

Definition INITIAL_IV : Z := 12.
Definition INITIAL_KEY : nat := 16.
Definition AEAD_KEY_MAX : nat := 32.

(* src/src/tls/handshake/core/tls/initial.h : initial_keys *)
Record initial_keys := mk_keys { ik_key : list Z; ik_iv : list Z; ik_hp : list Z }.

(** [pk_hp]: the round keys of the header protection cipher. *)
(* src/src/transport/packet/protect/protect/protect.h : protect_keys *)
Record protect_keys := mk_pkeys { pk_keys : initial_keys; pk_hp : list Z }.

(** ** hp.c, hp_chacha.c, hpapply.c, hpsample.c *)

Definition HP_SAMPLE : Z := 16.
Definition HP_LONG_MASK : Z := 0x0f.
Definition HP_SHORT_MASK : Z := 0x1f.

(* src/src/transport/packet/protect/hp/hp.c : hp_mask *)
Definition hp_mask (hp sample : list Z) : list Z := take 5 (aes128_encrypt hp sample).

(** [pn[i] ^= mask[1 + i]] for [i < n]. *)
Fixpoint pn_xor (pkt : list Z) (pn : Z) (mask : list Z) (i : Z) (n : nat) : option (list Z) :=
  match n with
  | O => Some pkt
  | S n' => v ← load pkt (pn + i); m ← load mask (1 + i); pkt ← store pkt (pn + i) (Z.lxor v m); pn_xor pkt pn mask (i + 1) n'
  end.

(** [byte0] points to the packet's first byte, [pn] into the packet. *)
(* src/src/transport/packet/protect/hp/hp.h : hp_fields *)
Record hp_fields := mk_hpf { hf_pkt : list Z; hf_pn : Z; hf_pn_len : Z; hf_bits_mask : Z }.
(* src/src/transport/packet/protect/hp/hp.c : hp_apply *)
Definition hp_apply (mask : list Z) (f : hp_fields) : option (list Z) :=
  b ← load (hf_pkt f) 0; m ← load mask 0;
  pkt ← store (hf_pkt f) 0 (Z.lxor b (Z.land m (hf_bits_mask f)));
  pn_xor pkt (hf_pn f) mask 0 (Z.to_nat (hf_pn_len f)).

(* src/src/transport/packet/protect/hp/hp_chacha.c : hp_chacha_mask *)
Definition hp_chacha_mask (hp_key sample : list Z) : list Z :=
  let counter := Z.lor (Z.lor (Z.lor (at_ sample 0) (u32 (Z.shiftl (at_ sample 1) 8))) (u32 (Z.shiftl (at_ sample 2) 16))) (u32 (Z.shiftl (at_ sample 3) 24)) in
  take 5 (chacha20_block hp_key counter (drop 4 sample)).

(* src/src/transport/packet/protect/hp/hpapply.c : hp_protect_byte0 *)
Definition hp_protect_byte0 (byte0 mask0 : Z) (is_long : bool) : Z := Z.lxor byte0 (Z.land mask0 (if is_long then 0x0f else 0x1f)).
(* src/src/transport/packet/protect/hp/hpapply.c : hp_protect_pn *)
Definition hp_protect_pn (pkt : list Z) (pn pn_len : Z) (mask : list Z) : option (list Z) := pn_xor pkt pn mask 0 (Z.to_nat pn_len).

(* src/src/transport/packet/protect/hp/hpsample.c : hp_sample_offset *)
Definition hp_sample_offset (pn_offset : Z) : Z := u64 (pn_offset + 4).
(* src/src/transport/packet/protect/hp/hpsample.c : hp_sample_ok *)
Definition hp_sample_ok (packet_len sample_offset : Z) : bool := u64 (sample_offset + 16) <=? packet_len.

(** ** The AEAD of a suite: aead_suite.c *)

(** The iv with the number XORed into its last eight bytes. *)
Definition xor_pn (iv : list Z) (pn : Z) : list Z :=
  foldl (fun n i => <[(11 - i)%nat := Z.lxor (at_ n (11 - i)) (u8 (Z.shiftr pn (8 * Z.of_nat i)))]> n) (take 12 iv) (seq 0 8).
(* src/src/transport/packet/protect/protect/protect.c : protect_nonce *)
Definition protect_nonce (iv : list Z) (pn : Z) : list Z := xor_pn iv pn.
(* src/src/transport/packet/protect/protect_suite/aead_suite.c : suite_nonce@9-16 *)
Definition suite_nonce (iv : list Z) (pn : Z) : list Z := xor_pn iv pn.

(** [ai_in]: the bytes from the input pointer to the end of its buffer, of
    which the span covers [ai_n]. *)
(* src/src/transport/packet/protect/protect_suite/aead_suite.c : aead_suite_io@20-26 *)
Record aead_suite_io := mk_aio { ai_key : list Z; ai_nonce : list Z; ai_aad : list Z; ai_in : list Z; ai_n : Z }.
(* src/src/transport/packet/protect/protect_suite/aead_suite.h : aead_suite_op *)
Record aead_suite_op := mk_aop { ao_suite : Z; ao_key : list Z; ao_iv : list Z; ao_pn : Z; ao_aad : list Z }.

(** The length an opening returns, with the plaintext it wrote. *)
Definition open_result (n : Z) (r : option (list Z)) : Z * option (list Z) := match r with Some pt => (n, Some pt) | None => (0, None) end.

Section suites.
Context (M : cpu) (cached : Z).

(* src/src/transport/packet/protect/protect_suite/aead_suite.c : aead_gcm_seal@28-33 *)
Definition aead_gcm_seal (io : aead_suite_io) : option (list Z) :=
  inp ← mem_sub (ai_in io) 0 (ai_n io);
  Some (gcm_seal M cached (mk_gcm (aes128_init (ai_key io)) (ai_nonce io) (ai_aad io)) inp).
(* src/src/transport/packet/protect/protect_suite/aead_suite.c : aead_gcm256_seal@35-40 *)
Definition aead_gcm256_seal (io : aead_suite_io) : option (list Z) :=
  inp ← mem_sub (ai_in io) 0 (ai_n io);
  Some (gcm256_seal (mk_gcm (aes256_init (ai_key io)) (ai_nonce io) (ai_aad io)) inp).
(* src/src/transport/packet/protect/protect_suite/aead_suite.c : cha_seal@42-45 *)
Definition cha_seal (io : aead_suite_io) : option (list Z) :=
  inp ← mem_sub (ai_in io) 0 (ai_n io);
  chapoly_seal (mk_chapoly (ai_key io) (ai_nonce io) (ai_aad io)) inp.

(** The tag follows the [ai_n] bytes of the span. *)
(* src/src/transport/packet/protect/protect_suite/aead_suite.c : aead_gcm_open@48-56 *)
Definition aead_gcm_open (io : aead_suite_io) : option (Z * option (list Z)) :=
  ct ← mem_sub (ai_in io) 0 (u64 (ai_n io + 16));
  r ← gcm_open M cached (mk_gcm (aes128_init (ai_key io)) (ai_nonce io) (ai_aad io)) ct;
  Some (open_result (ai_n io) r).
(* src/src/transport/packet/protect/protect_suite/aead_suite.c : aead_gcm256_open@58-66 *)
Definition aead_gcm256_open (io : aead_suite_io) : option (Z * option (list Z)) :=
  ct ← mem_sub (ai_in io) 0 (u64 (ai_n io + 16));
  r ← gcm256_open (mk_gcm (aes256_init (ai_key io)) (ai_nonce io) (ai_aad io)) ct;
  Some (open_result (ai_n io) r).
(* src/src/transport/packet/protect/protect_suite/aead_suite.c : cha_open@68-75 *)
Definition cha_open (io : aead_suite_io) : option (Z * option (list Z)) :=
  ct ← mem_sub (ai_in io) 0 (u64 (ai_n io + 16));
  r ← chapoly_open (mk_chapoly (ai_key io) (ai_nonce io) (ai_aad io)) ct;
  Some (open_result (ai_n io) r).

(* src/src/transport/packet/protect/protect_suite/aead_suite.c : aead_suite_tab@78-86 *)
Definition aead_suite_tab : list (Z * ((aead_suite_io -> option (list Z)) * (aead_suite_io -> option (Z * option (list Z))))) :=
  [(TLS_AES_128_GCM_SHA256, (aead_gcm_seal, aead_gcm_open)); (TLS_AES_256_GCM_SHA384, (aead_gcm256_seal, aead_gcm256_open));
   (TLS_CHACHA20_POLY1305_SHA256, (cha_seal, cha_open))].

(** The row of [suite]; [None]: the count of rows. *)
(* src/src/transport/packet/protect/protect_suite/aead_suite.c : aead_suite_row@91-97 *)
Definition aead_suite_row (suite : Z) : option ((aead_suite_io -> option (list Z)) * (aead_suite_io -> option (Z * option (list Z)))) := suite_row aead_suite_tab suite.

(** The bytes written ([Some None]: unknown suite, the code's 0). *)
(* src/src/transport/packet/protect/protect_suite/aead_suite.c : aead_suite_seal *)
Definition aead_suite_seal (op : aead_suite_op) (pt : list Z) : option (option (list Z)) :=
  match aead_suite_row (ao_suite op) with
  | None => Some None
  | Some r => out ← r.1 (mk_aio (ao_key op) (suite_nonce (ao_iv op) (ao_pn op)) (ao_aad op) pt (zlen pt)); Some (Some out)
  end.
(* src/src/transport/packet/protect/protect_suite/aead_suite.c : aead_suite_open *)
Definition aead_suite_open (op : aead_suite_op) (ct : list Z) (n : Z) : option (Z * option (list Z)) :=
  match aead_suite_row (ao_suite op) with
  | None => Some (0, None)
  | Some r => r.2 (mk_aio (ao_key op) (suite_nonce (ao_iv op) (ao_pn op)) (ao_aad op) ct n)
  end.
End suites.

(** ** hp_suite.c *)

(* src/src/transport/packet/protect/protect_suite/hp_suite.c : hps_aes128@8-12 *)
Definition hps_aes128 (hp_key sample : list Z) : list Z := hp_mask (aes128_init hp_key) sample.
(* src/src/transport/packet/protect/protect_suite/hp_suite.c : hps_aes256@15-23 *)
Definition hps_aes256 (hp_key sample : list Z) : list Z := take 5 (aes256_encrypt (aes256_init hp_key) sample).
(* src/src/transport/packet/protect/protect_suite/hp_suite.c : hps_chacha@26-28 *)
Definition hps_chacha (hp_key sample : list Z) : list Z := hp_chacha_mask hp_key sample.
(* src/src/transport/packet/protect/protect_suite/hp_suite.c : hps_tab@30-37 *)
Definition hps_tab : list (Z * (list Z -> list Z -> list Z)) :=
  [(TLS_AES_128_GCM_SHA256, hps_aes128); (TLS_AES_256_GCM_SHA384, hps_aes256); (TLS_CHACHA20_POLY1305_SHA256, hps_chacha)].
(* src/src/transport/packet/protect/protect_suite/hp_suite.c : hp_suite_mask *)
Definition hp_suite_mask (suite : Z) (hp_key sample : list Z) : option (list Z) :=
  match suite_row hps_tab suite with Some mask => Some (mask hp_key sample) | None => None end.

(** ** protect.c *)

(** [so_out]: the destination and its capacity. *)
(* src/src/transport/packet/protect/protect/protect.h : protect_seal_io *)
Record protect_seal_io := mk_sio { so_hdr : list Z; so_pn_off : Z; so_pn_len : Z; so_pn : Z; so_payload : list Z; so_out : list Z }.
(* src/src/transport/packet/protect/protect/protect.h : protect_open_io *)
Record protect_open_io := mk_oio { oo_pkt : list Z; oo_hdr_len : Z; oo_pn_off : Z; oo_pn_len : Z; oo_pn : Z }.

(** The packet with its header protection applied or removed. *)
(* src/src/transport/packet/protect/protect/protect.c : protect_header@41-46 *)
Definition protect_header (hp_aes pkt : list Z) (pn_off pn_len : Z) : option (list Z) :=
  sample ← mem_sub pkt (u64 (pn_off + 4)) 16;
  hp_apply (hp_mask hp_aes sample) (mk_hpf pkt pn_off pn_len HP_LONG_MASK).

Section pipeline.
Context (M : cpu) (cached : Z).

(** The returned length and the destination. *)
(* src/src/transport/packet/protect/protect/protect.c : seal_into@21-37 *)
Definition seal_into (keys : initial_keys) (io : protect_seal_io) : option (Z * list Z) :=
  let out := so_out io in
  let need := u64 (zlen (so_hdr io) + zlen (so_payload io) + 16) in
  if zlen out <? need then Some (0, out)
  else
    out ← mem_put out 0 (so_hdr io);
    let nonce := protect_nonce (ik_iv keys) (so_pn io) in
    let g := mk_gcm (aes128_init (ik_key keys)) nonce (so_hdr io) in
    out ← mem_put out (zlen (so_hdr io)) (gcm_seal M cached g (so_payload io));
    Some (need, out).
(* src/src/transport/packet/protect/protect/protect.c : protect_seal *)
Definition protect_seal (k : protect_keys) (io : protect_seal_io) : option (Z * list Z) :=
  '(total, out) ← seal_into (pk_keys k) io;
  if total =? 0 then Some (0, out)
  else out ← protect_header (pk_hp k) out (so_pn_off io) (so_pn_len io); Some (total, out).

(** The plaintext length (0 on failure) and the packet afterwards. *)
(* src/src/transport/packet/protect/protect/protect.c : protect_open *)
Definition protect_open (k : protect_keys) (io : protect_open_io) : option (Z * list Z) :=
  let ct_len := u64 (zlen (oo_pkt io) - oo_hdr_len io - 16) in
  pkt ← protect_header (pk_hp k) (oo_pkt io) (oo_pn_off io) (oo_pn_len io);
  let nonce := protect_nonce (ik_iv (pk_keys k)) (oo_pn io) in
  aad ← mem_sub pkt 0 (oo_hdr_len io);
  ct ← mem_sub pkt (oo_hdr_len io) (u64 (ct_len + 16));
  r ← gcm_open M cached (mk_gcm (aes128_init (ik_key (pk_keys k))) nonce aad) ct;
  match r with
  | None => Some (0, pkt)
  | Some pt => pkt ← mem_put pkt (oo_hdr_len io) pt; Some (ct_len, pkt)
  end.

(* src/src/transport/packet/protect/protect/protect.c : protect_copy_hdr@76-80 *)
Definition protect_copy_hdr (out hdr : list Z) : option (list Z) := mem_put out 0 hdr.
(* src/src/transport/packet/protect/protect/protect.c : seal_into_suite@85-98 *)
Definition seal_into_suite (suite : Z) (keys : initial_keys) (io : protect_seal_io) : option (Z * list Z) :=
  let out := so_out io in
  let need := u64 (zlen (so_hdr io) + zlen (so_payload io) + aead_tag_len suite) in
  if zlen out <? need then Some (0, out)
  else
    out ← protect_copy_hdr out (so_hdr io);
    sealed ← aead_suite_seal M cached (mk_aop suite (ik_key keys) (ik_iv keys) (so_pn io) (so_hdr io)) (so_payload io);
    match sealed with
    | None => Some (0, out)
    | Some bs => out ← mem_put out (zlen (so_hdr io)) bs; Some (if negb (zlen bs =? 0) then need else 0, out)
    end.
(** [None]: unknown suite. *)
(* src/src/transport/packet/protect/protect/protect.c : protect_header_suite@103-112 *)
Definition protect_header_suite (suite : Z) (hp_key pkt : list Z) (pn_off pn_len : Z) : option (option (list Z)) :=
  sample ← mem_sub pkt (u64 (pn_off + 4)) 16;
  match hp_suite_mask suite hp_key sample with
  | None => Some None
  | Some mask => pkt ← hp_apply mask (mk_hpf pkt pn_off pn_len HP_LONG_MASK); Some (Some pkt)
  end.
(* src/src/transport/packet/protect/protect/protect.c : protect_seal_suite *)
Definition protect_seal_suite (suite : Z) (k : protect_keys) (io : protect_seal_io) : option (Z * list Z) :=
  '(total, out) ← seal_into_suite suite (pk_keys k) io;
  if total =? 0 then Some (0, out)
  else
    r ← protect_header_suite suite (ik_hp (pk_keys k)) out (so_pn_off io) (so_pn_len io);
    Some (match r with None => (0, out) | Some out => (total, out) end).
(** The returned length of an opening, and the packet with the plaintext, if
    any, in place. *)
Definition put_plain (pkt : list Z) (at_ : Z) (r : Z * option (list Z)) : option (Z * list Z) :=
  match r.2 with None => Some (r.1, pkt) | Some pt => pkt ← mem_put pkt at_ pt; Some (r.1, pkt) end.
(* src/src/transport/packet/protect/protect/protect.c : protect_open_suite *)
Definition protect_open_suite (suite : Z) (k : protect_keys) (io : protect_open_io) : option (Z * list Z) :=
  let ct_len := u64 (zlen (oo_pkt io) - oo_hdr_len io - aead_tag_len suite) in
  r ← protect_header_suite suite (ik_hp (pk_keys k)) (oo_pkt io) (oo_pn_off io) (oo_pn_len io);
  match r with
  | None => Some (0, oo_pkt io)
  | Some pkt =>
      aad ← mem_sub pkt 0 (oo_hdr_len io);
      r ← aead_suite_open M cached (mk_aop suite (ik_key (pk_keys k)) (ik_iv (pk_keys k)) (oo_pn io) aad) (drop (Z.to_nat (oo_hdr_len io)) pkt) ct_len;
      put_plain pkt (oo_hdr_len io) r
  end.

(** ** protectcs.c *)

(* src/src/transport/packet/protect/protectcs/protectcs.h : protectcs_keys *)
Record protectcs_keys := mk_csk { pc_suite : Z; pc_key : list Z; pc_iv : list Z; pc_hp_key : list Z }.
(* src/src/transport/packet/protect/protectcs/protectcs.h : protectcs_seal_io *)
Record protectcs_seal_io := mk_cssio { ps_pkt : list Z; ps_pn_off : Z; ps_pn_len : Z; ps_pn : Z; ps_payload_len : Z }.
(* src/src/transport/packet/protect/protectcs/protectcs.h : protectcs_open_io *)
Record protectcs_open_io := mk_csoio { po_pkt : list Z; po_pn_off : Z }.

(* src/src/transport/packet/protect/protectcs/protectcs.c : form_mask@10-12 *)
Definition form_mask (byte0 : Z) : Z := if negb (Z.land byte0 0x80 =? 0) then HP_LONG_MASK else HP_SHORT_MASK.
(* src/src/transport/packet/protect/protectcs/protectcs.c : pcs_apply_hp@15-24 *)
Definition pcs_apply_hp (k : protectcs_keys) (pkt : list Z) (pn_off pn_len : Z) : option (option (list Z)) :=
  b ← load pkt 0;
  sample ← mem_sub pkt (u64 (pn_off + 4)) 16;
  match hp_suite_mask (pc_suite k) (pc_hp_key k) sample with
  | None => Some None
  | Some mask => pkt ← hp_apply mask (mk_hpf pkt pn_off pn_len (form_mask b)); Some (Some pkt)
  end.
(** The packet and its length ([None]: the code's 0). *)
(* src/src/transport/packet/protect/protectcs/protectcs.c : protectcs_seal *)
Definition protectcs_seal (k : protectcs_keys) (io : protectcs_seal_io) : option (list Z * option Z) :=
  let hdr_len := u64 (ps_pn_off io + ps_pn_len io) in
  aad ← mem_sub (ps_pkt io) 0 hdr_len;
  pt ← mem_sub (ps_pkt io) hdr_len (ps_payload_len io);
  sealed ← aead_suite_seal M cached (mk_aop (pc_suite k) (pc_key k) (pc_iv k) (ps_pn io) aad) pt;
  match sealed with
  | None => Some (ps_pkt io, None)
  | Some bs =>
      pkt ← mem_put (ps_pkt io) hdr_len bs;
      if zlen bs =? 0 then Some (pkt, None)
      else
        r ← pcs_apply_hp k pkt (ps_pn_off io) (ps_pn_len io);
        Some (match r with None => (pkt, None) | Some pkt => (pkt, Some (u64 (hdr_len + zlen bs))) end)
  end.

Fixpoint be_loop (pkt : list Z) (o : Z) (n : nat) (pn : Z) : option Z :=
  match n with O => Some pn | S n' => b ← load pkt o; be_loop pkt (o + 1) n' (Z.lor (u64 (Z.shiftl pn 8)) b) end.
(* src/src/transport/packet/protect/protectcs/protectcs.c : pcs_read_pn@45-51 *)
Definition pcs_read_pn (pkt : list Z) (pn_off pn_len : Z) : option Z := be_loop pkt pn_off (Z.to_nat pn_len) 0.
(** The packet and the number's length ([None]: unknown suite). *)
(* src/src/transport/packet/protect/protectcs/protectcs.c : pcs_remove_hp@56-65 *)
Definition pcs_remove_hp (k : protectcs_keys) (pkt : list Z) (pn_off : Z) : option (option (list Z * Z)) :=
  sample ← mem_sub pkt (u64 (pn_off + 4)) 16;
  match hp_suite_mask (pc_suite k) (pc_hp_key k) sample with
  | None => Some None
  | Some mask =>
      b ← load pkt 0; m ← load mask 0;
      let b := Z.lxor b (Z.land m (form_mask b)) in
      pkt ← store pkt 0 b;
      let pn_len := Z.land b 0x03 + 1 in
      pkt ← hp_protect_pn pkt pn_off pn_len mask;
      Some (Some (pkt, pn_len))
  end.

(** Where an opened payload is in its packet. *)
Definition view : Type := Z * Z.
(** The end of an opening: the payload is reported unless 0 came back. *)
Definition opened (pkt : list Z) (at_ n : Z) (r : Z * option (list Z)) : option (list Z * option view) :=
  '(m, pkt) ← put_plain pkt at_ r; Some (pkt, if m =? 0 then None else Some (at_, n)).

(* src/src/transport/packet/protect/protectcs/protectcs.c : protectcs_open *)
Definition protectcs_open (k : protectcs_keys) (io : protectcs_open_io) : option (list Z * option view) :=
  r ← pcs_remove_hp k (po_pkt io) (po_pn_off io);
  match r with
  | None => Some (po_pkt io, None)
  | Some (pkt, pn_len) =>
      let hdr_len := u64 (po_pn_off io + pn_len) in
      let ct_len := u64 (zlen (po_pkt io) - hdr_len - 16) in
      pn ← pcs_read_pn pkt (po_pn_off io) pn_len;
      aad ← mem_sub pkt 0 hdr_len;
      r ← aead_suite_open M cached (mk_aop (pc_suite k) (pc_key k) (pc_iv k) pn aad) (drop (Z.to_nat hdr_len) pkt) ct_len;
      opened pkt hdr_len ct_len r
  end.
End pipeline.
