(* ===== verification/Suites.v ===== *)
(** * What a cipher suite promises to packet protection

    The AEAD and the header protection mask of each suite as RFC 9001 5.3 and
    5.4 define them over AES-GCM (SP 800-38D) and ChaCha20-Poly1305, and the
    interface [Suite] through which the packet layer uses them. The code's
    tables (aead_suite.c, hp_suite.c) provide an instance for each of the
    three suites. Packets are at most 1500 bytes, the size of the code's
    Poly1305 scratch. *)

From Stdlib Require Import String.
From stdpp Require Import base numbers list option.
From Stdlib Require Import ZArith Lia.
From S2P Require Import Prelude Bytes PktNum Rfc8439 Aes Ghash Gcm Chacha Protect.

(** RFC 9001 5.3: the packet number, left-padded, XORed with the IV. *)
Definition rfc_nonce (iv : list Z) (pn : Z) : list Z := zip_with Z.lxor iv (replicate 4 0 ++ be_bytes 8 pn).

(** The AEAD of a suite; the arrays of an [initial_keys] hold 32 bytes, of
    which AES-128 uses the first 16. *)
Definition rfc_seal (suite : Z) (key nonce aad pt : list Z) : list Z :=
  if suite =? TLS_AES_128_GCM_SHA256 then sp_seal (fips_cipher 4 10 (take 16 key)) nonce aad pt
  else if suite =? TLS_AES_256_GCM_SHA384 then sp_seal (fips_cipher 8 14 key) nonce aad pt
  else rfc_chapoly key nonce aad pt.

(** RFC 9001 5.4.3, 5.4.4. *)
Definition rfc_mask (suite : Z) (hp sample : list Z) : list Z :=
  if suite =? TLS_AES_128_GCM_SHA256 then take 5 (fips_cipher 4 10 (take 16 hp) sample)
  else if suite =? TLS_AES_256_GCM_SHA384 then take 5 (fips_cipher 8 14 hp sample)
  else take 5 (rfc_chacha_block hp (le_val (take 4 sample)) (drop 4 sample)).

Definition keys_ok (k : initial_keys) : Prop :=
  (bytes_ok (ik_key k) /\ length (ik_key k) = 32%nat) /\ (bytes_ok (ik_iv k) /\ length (ik_iv k) = 12%nat) /\ (bytes_ok (ik_hp k) /\ length (ik_hp k) = 32%nat).

(** The packet layer's view of a suite. *)
Class Suite (M : cpu) (cached suite : Z) : Prop := {
  suite_tag : aead_tag_len suite = 16;
  suite_shape k pn aad pt : keys_ok k -> bytes_ok aad -> zlen aad <= 1500 -> bytes_ok pt -> zlen pt <= 1500 ->
    let ct := rfc_seal suite (ik_key k) (rfc_nonce (ik_iv k) pn) aad pt in bytes_ok ct /\ length ct = (length pt + 16)%nat;
  suite_length k pn aad pt : keys_ok k -> length (rfc_seal suite (ik_key k) (rfc_nonce (ik_iv k) pn) aad pt) = (length pt + 16)%nat;
  suite_seals k pn aad pt : keys_ok k -> bytes_ok aad -> zlen aad <= 1500 -> bytes_ok pt -> zlen pt <= 1500 ->
    aead_suite_seal M cached (mk_aop suite (ik_key k) (ik_iv k) pn aad) pt = Some (Some (rfc_seal suite (ik_key k) (rfc_nonce (ik_iv k) pn) aad pt));
  suite_opens k pn aad mem n : keys_ok k -> bytes_ok aad -> zlen aad <= 1500 -> bytes_ok mem -> 0 <= n <= 1500 -> n + 16 <= zlen mem ->
    exists r, aead_suite_open M cached (mk_aop suite (ik_key k) (ik_iv k) pn aad) mem n = Some (open_result n r) /\
      forall p, r = Some p <-> bytes_ok p /\ rfc_seal suite (ik_key k) (rfc_nonce (ik_iv k) pn) aad p = take (Z.to_nat (n + 16)) mem;
  suite_masks k sample : keys_ok k -> bytes_ok sample -> length sample = 16%nat ->
    hp_suite_mask suite (ik_hp k) sample = Some (rfc_mask suite (ik_hp k) sample) /\
    bytes_ok (rfc_mask suite (ik_hp k) sample) /\ length (rfc_mask suite (ik_hp k) sample) = 5%nat }.

(** ** Nonces *)

Lemma at_upd l i v j : (i < length l)%nat -> at_ (<[i := v]> l) j = if (j =? i)%nat then v else at_ l j.
Proof.
  intros Hi. unfold at_. rewrite !nth_lookup. destruct (Nat.eqb_spec j i) as [->|Hne]; [by rewrite list_lookup_insert_eq | by rewrite list_lookup_insert_ne].
Qed.

Lemma xor_pn_steps iv pn m : length iv = 12%nat -> (m <= 8)%nat ->
  let n := foldl (fun n i => <[(11 - i)%nat := Z.lxor (at_ n (11 - i)) (u8 (Z.shiftr pn (8 * Z.of_nat i)))]> n) iv (seq 0 m) in
  length n = 12%nat /\ forall j, (j < 12)%nat -> at_ n j = if (12 - m <=? j)%nat then Z.lxor (at_ iv j) (u8 (Z.shiftr pn (8 * Z.of_nat (11 - j)))) else at_ iv j.
Proof.
  intros Hl. induction m as [|m IH]; intros Hm; cbn zeta.
  - split; [exact Hl|]. intros j Hj. destruct (Nat.leb_spec (12 - 0) j); [lia | reflexivity].
  - destruct IH as [L E]; [lia|]. rewrite seq_S, foldl_app. cbn [foldl Nat.add]. split; [by rewrite length_insert|].
    intros j Hj. rewrite at_upd by lia. destruct (Nat.eqb_spec j (11 - m)) as [->|Hne].
    + rewrite E by lia. destruct (Nat.leb_spec (12 - m) (11 - m)); [lia|]. destruct (Nat.leb_spec (12 - S m) (11 - m)); [|lia].
      by replace (11 - (11 - m))%nat with m by lia.
    + rewrite E by lia. destruct (Nat.leb_spec (12 - m) j), (Nat.leb_spec (12 - S m) j); try reflexivity; lia.
Qed.

Lemma be_bytes_shift_at n pn i : (i < n)%nat -> at_ (be_bytes n pn) i = u8 (Z.shiftr pn (8 * Z.of_nat (n - 1 - i))).
Proof.
  intros Hi. rewrite <- (rev_involutive (be_bytes n pn)), <- le_bytes_be. unfold at_.
  rewrite rev_nth by (rewrite le_bytes_length; lia). rewrite le_bytes_length. unfold le_bytes, u8.
  rewrite nth_lookup. rewrite list_lookup_fmap, lookup_seq_lt by lia. cbn [fmap option_map option_fmap default]. rewrite Z.shiftr_div_pow2 by lia.
  unfold id. replace (0 + (n - S i))%nat with (n - 1 - i)%nat by lia. reflexivity.
Qed.

Lemma xor_pn_nonce iv pn : length iv = 12%nat -> xor_pn iv pn = rfc_nonce iv pn.
Proof.
  intros Hl. unfold xor_pn. rewrite (take_ge iv) by lia. destruct (xor_pn_steps iv pn 8 Hl ltac:(lia)) as [L E]. cbn zeta in L, E.
  assert (Lr : length (rfc_nonce iv pn) = 12%nat) by (unfold rfc_nonce; rewrite length_zip_with, length_app, length_replicate, length_be_bytes, Hl; reflexivity).
  apply (nth_ext _ _ 0 0); [by rewrite L, Lr|]. intros j Hj. rewrite L in Hj. specialize (E j Hj). unfold at_ in E at 1. rewrite E. clear E L.
  unfold rfc_nonce. rewrite nth_lookup, lookup_zip_with. unfold at_. rewrite nth_lookup.
  destruct (lookup_lt_is_Some_2 iv j ltac:(lia)) as [x ->]. cbn [default mbind option_bind].
  assert (Ep : (replicate 4 0 ++ be_bytes 8 pn) !! j = Some (if (4 <=? j)%nat then u8 (Z.shiftr pn (8 * Z.of_nat (11 - j))) else 0)).
  { destruct (Nat.leb_spec 4 j).
    - rewrite lookup_app_r by (rewrite length_replicate; lia). rewrite length_replicate. pose proof (be_bytes_shift_at 8 pn (j - 4) ltac:(lia)) as B.
      destruct (lookup_lt_is_Some_2 (be_bytes 8 pn) (j - 4) ltac:(rewrite length_be_bytes; lia)) as [y Ey]. unfold at_ in B. rewrite nth_lookup, Ey in B. cbn [default] in B.
      unfold id in B. rewrite Ey, B. do 4 f_equal. lia.
    - rewrite lookup_app_l by (rewrite length_replicate; lia). by rewrite lookup_replicate_2 by lia. }
  rewrite Ep. cbn [mbind option_bind]. destruct (Nat.leb_spec 4 j), (Nat.leb_spec (12 - 8) j); try lia; [reflexivity | by rewrite Z.lxor_0_r].
Qed.

Lemma rfc_nonce_ok iv pn : bytes_ok iv -> length iv = 12%nat -> bytes_ok (rfc_nonce iv pn) /\ length (rfc_nonce iv pn) = 12%nat.
Proof.
  intros Hi Hl. unfold rfc_nonce. split.
  - apply zip_lxor_ok; [exact Hi|]. apply bytes_ok_app. split; [apply Forall_replicate; unfold is_u8; lia | apply be_bytes_ok].
  - rewrite length_zip_with, length_app, length_replicate, length_be_bytes, Hl. reflexivity.
Qed.

Lemma at_take n l i : (i < n)%nat -> at_ (take n l) i = at_ l i.
Proof. intros Hi. unfold at_. by rewrite !nth_lookup, lookup_take_lt by done. Qed.

Lemma aes128_init_16 key : aes128_init key = aes128_init (take 16 key).
Proof.
  unfold aes128_init. f_equal. cbn [seq map]. unfold key_word. cbn [Nat.mul Nat.add]. rewrite !at_take by lia. reflexivity.
Qed.

Lemma mem_sub_whole p : mem_sub p 0 (zlen p) = Some p.
Proof. unfold mem_sub. pose proof (zlen_nonneg p). bcase; [|lia]. change (drop (Z.to_nat 0) p) with p. rewrite take_ge by (unfold zlen; lia). reflexivity. Qed.
Lemma mem_sub_in p o n : 0 <= o -> 0 <= n -> o + n <= zlen p -> mem_sub p o n = Some (take (Z.to_nat n) (drop (Z.to_nat o) p)).
Proof. intros. unfold mem_sub. bcase; [reflexivity | lia]. Qed.
Lemma mem_put_in p o bs : 0 <= o -> o + zlen bs <= zlen p -> mem_put p o bs = Some (splice p o bs).
Proof. intros. unfold mem_put. bcase; [reflexivity | lia]. Qed.

(** ** The three suites *)

Lemma chacha20_block_ok key c n : bytes_ok (chacha20_block key c n).
Proof. apply chacha_serialize_ok. Qed.

#[local] Opaque aes128_init aes256_init aes128_encrypt aes256_encrypt gcm_seal gcm_open gcm256_seal gcm256_open chapoly_seal chapoly_open fips_cipher sp_seal chacha20_block poly1305.

Lemma take_16_key k : keys_ok k -> bytes_ok (take 16 (ik_key k)) /\ length (take 16 (ik_key k)) = 16%nat.
Proof. intros [[Hk Hl] _]. split; [apply bytes_ok_take, Hk | rewrite length_take, Hl; reflexivity]. Qed.
Lemma take_16_hp k : keys_ok k -> bytes_ok (take 16 (ik_hp k)) /\ length (take 16 (ik_hp k)) = 16%nat.
Proof. intros (_ & _ & [Hk Hl]). split; [apply bytes_ok_take, Hk | rewrite length_take, Hl; reflexivity]. Qed.

Section instances.
Context (M : cpu) (HM : cpu_ok M) (cached : Z).

Lemma mem_prefix mem n : 0 <= n <= 1500 -> n + 16 <= zlen mem -> mem_sub mem 0 (u64 (n + 16)) = Some (take (Z.to_nat (n + 16)) mem).
Proof. intros Hn Hl. rewrite u64_small by lia. rewrite mem_sub_in by lia. reflexivity. Qed.

Lemma mask_5 l : bytes_ok l -> (5 <= length l)%nat -> bytes_ok (take 5 l) /\ length (take 5 l) = 5%nat.
Proof. intros Hb Hl. split; [apply bytes_ok_take, Hb | rewrite length_take; lia]. Qed.

Lemma ct_cap mem n : bytes_ok mem -> 0 <= n <= 1500 -> bytes_ok (take (Z.to_nat (n + 16)) mem) /\ zlen (take (Z.to_nat (n + 16)) mem) <= 1516.
Proof. intros Hm Hn. split; [apply bytes_ok_take, Hm | unfold zlen; rewrite length_take; lia]. Qed.

#[export] Instance suite_aes128 : Suite M cached TLS_AES_128_GCM_SHA256.
Proof.
  assert (P : forall k pn aad, keys_ok k -> bytes_ok aad -> zlen aad <= 1500 ->
    gcm_laws (fips_cipher 4 10 (take 16 (ik_key k))) (rfc_nonce (ik_iv k) pn) aad
      (gcm_seal M cached (mk_gcm (aes128_init (ik_key k)) (rfc_nonce (ik_iv k) pn) aad)) (gcm_open M cached (mk_gcm (aes128_init (ik_key k)) (rfc_nonce (ik_iv k) pn) aad))).
  { intros k pn aad Hk Ha La. destruct (take_16_key k Hk) as [K1 K2]. destruct Hk as (_ & [I1 I2] & _). destruct (rfc_nonce_ok (ik_iv k) pn I1 I2) as [N1 N2].
    rewrite (aes128_init_16 (ik_key k)). apply gcm128_promise; try assumption. lia. }
  assert (Row : aead_suite_row M cached TLS_AES_128_GCM_SHA256 = Some (aead_gcm_seal M cached, aead_gcm_open M cached)) by reflexivity.
  constructor.
  - reflexivity.
  - intros k pn aad pt Hk Ha La Hp Lp. apply (proj1 (proj2 (P k pn aad Hk Ha La))); [assumption | lia].
  - intros k pn aad pt Hk. apply sp_seal_length. intros s Hs. destruct (take_16_key k Hk) as [K1 K2]. destruct (aes_state_of _ K1 K2 s Hs) as [<- H]. exact H.
  - intros k pn aad pt Hk Ha La Hp Lp. unfold aead_suite_seal. cbn [ao_suite ao_key ao_iv ao_pn ao_aad]. rewrite Row. cbn [fst]. unfold aead_gcm_seal, suite_nonce. cbn [ai_key ai_nonce ai_aad ai_in ai_n].
    rewrite mem_sub_whole, xor_pn_nonce by apply Hk. osimpl. rewrite (proj1 (P k pn aad Hk Ha La)) by (assumption || lia). reflexivity.
  - intros k pn aad mem n Hk Ha La Hm Hn Hl. unfold aead_suite_open. cbn [ao_suite ao_key ao_iv ao_pn ao_aad]. rewrite Row. cbn [snd]. unfold aead_gcm_open, suite_nonce. cbn [ai_key ai_nonce ai_aad ai_in ai_n].
    rewrite mem_prefix, xor_pn_nonce by first [assumption | apply Hk]. osimpl. destruct (ct_cap mem n Hm Hn) as [C1 C2].
    destruct (proj1 (proj2 (proj2 (P k pn aad Hk Ha La))) _ C1 ltac:(lia)) as (r & Er & Hr). rewrite Er. osimpl. exists r. split; [reflexivity | exact Hr].
  - intros k sample Hk Hs Ls. split; [|unfold rfc_mask; rewrite (Z.eqb_refl TLS_AES_128_GCM_SHA256)].
    + unfold rfc_mask. rewrite Z.eqb_refl. transitivity (Some (hp_mask (aes128_init (ik_hp k)) sample)); [reflexivity|]. unfold hp_mask.
      destruct (take_16_hp k Hk) as [K1 K2]. rewrite (aes128_init_16 (ik_hp k)), (proj1 (aes_state_of _ K1 K2 sample (conj Hs Ls))). reflexivity.
    + destruct (take_16_hp k Hk) as [K1 K2]. destruct (aes_state_of _ K1 K2 sample (conj Hs Ls)) as [E [S1 S2]]. rewrite <- E. apply mask_5; [exact S1 | lia].
Qed.

#[export] Instance suite_aes256 : Suite M cached TLS_AES_256_GCM_SHA384.
Proof.
  assert (P : forall k pn aad, keys_ok k -> bytes_ok aad -> zlen aad <= 1500 ->
    gcm_laws (fips_cipher 8 14 (ik_key k)) (rfc_nonce (ik_iv k) pn) aad
      (gcm256_seal (mk_gcm (aes256_init (ik_key k)) (rfc_nonce (ik_iv k) pn) aad)) (gcm256_open (mk_gcm (aes256_init (ik_key k)) (rfc_nonce (ik_iv k) pn) aad))).
  { intros k pn aad ([K1 K2] & [I1 I2] & _) Ha La. destruct (rfc_nonce_ok (ik_iv k) pn I1 I2) as [N1 N2]. apply gcm256_promise; try assumption. lia. }
  assert (Row : aead_suite_row M cached TLS_AES_256_GCM_SHA384 = Some (aead_gcm256_seal, aead_gcm256_open)) by reflexivity.
  assert (Sp : forall key nonce aad pt, rfc_seal TLS_AES_256_GCM_SHA384 key nonce aad pt = sp_seal (fips_cipher 8 14 key) nonce aad pt) by reflexivity.
  assert (Mp : forall hp sample, rfc_mask TLS_AES_256_GCM_SHA384 hp sample = take 5 (fips_cipher 8 14 hp sample)) by reflexivity.
  constructor.
  - reflexivity.
  - intros k pn aad pt Hk Ha La Hp Lp. rewrite Sp. apply (proj1 (proj2 (P k pn aad Hk Ha La))); [assumption | lia].
  - intros k pn aad pt Hk. rewrite Sp. apply sp_seal_length. intros s Hs. destruct Hk as ([K1 K2] & _). destruct (aes256_state_of _ K1 K2 s Hs) as [<- H]. exact H.
  - intros k pn aad pt Hk Ha La Hp Lp. unfold aead_suite_seal. cbn [ao_suite ao_key ao_iv ao_pn ao_aad]. rewrite Row. cbn [fst]. unfold aead_gcm256_seal, suite_nonce. cbn [ai_key ai_nonce ai_aad ai_in ai_n].
    rewrite mem_sub_whole, xor_pn_nonce by apply Hk. osimpl. rewrite (proj1 (P k pn aad Hk Ha La)) by (assumption || lia). rewrite Sp. reflexivity.
  - intros k pn aad mem n Hk Ha La Hm Hn Hl. unfold aead_suite_open. cbn [ao_suite ao_key ao_iv ao_pn ao_aad]. rewrite Row. cbn [snd]. unfold aead_gcm256_open, suite_nonce. cbn [ai_key ai_nonce ai_aad ai_in ai_n].
    rewrite mem_prefix, xor_pn_nonce by first [assumption | apply Hk]. osimpl. destruct (ct_cap mem n Hm Hn) as [C1 C2].
    destruct (proj1 (proj2 (proj2 (P k pn aad Hk Ha La))) _ C1 ltac:(lia)) as (r & Er & Hr). rewrite Er. osimpl. exists r. split; [reflexivity|].
    intros p. rewrite Sp. apply Hr.
  - intros k sample (_ & _ & [K1 K2]) Hs Ls. rewrite Mp. destruct (aes256_state_of _ K1 K2 sample (conj Hs Ls)) as [E [S1 S2]]. rewrite <- E.
    split; [reflexivity|]. apply mask_5; [exact S1 | lia].
Qed.

#[export] Instance suite_chacha : Suite M cached TLS_CHACHA20_POLY1305_SHA256.
Proof.
  assert (P : forall k pn aad, keys_ok k -> bytes_ok aad -> zlen aad <= 1500 -> chapoly_ok (mk_chapoly (ik_key k) (rfc_nonce (ik_iv k) pn) aad)).
  { intros k pn aad ([K1 K2] & [I1 I2] & _) Ha La. destruct (rfc_nonce_ok (ik_iv k) pn I1 I2) as [N1 N2]. split_and!; assumption. }
  assert (Row : aead_suite_row M cached TLS_CHACHA20_POLY1305_SHA256 = Some (cha_seal, cha_open)) by reflexivity.
  assert (Sp : forall key nonce aad pt, rfc_seal TLS_CHACHA20_POLY1305_SHA256 key nonce aad pt = rfc_chapoly key nonce aad pt) by reflexivity.
  assert (Mp : forall hp sample, rfc_mask TLS_CHACHA20_POLY1305_SHA256 hp sample = take 5 (rfc_chacha_block hp (le_val (take 4 sample)) (drop 4 sample))) by reflexivity.
  constructor.
  - reflexivity.
  - intros k pn aad pt Hk Ha La Hp Lp. rewrite Sp. split; [apply rfc_chapoly_ok, Hp | apply rfc_chapoly_length].
  - intros k pn aad pt Hk. rewrite Sp. apply rfc_chapoly_length.
  - intros k pn aad pt Hk Ha La Hp Lp. unfold aead_suite_seal. cbn [ao_suite ao_key ao_iv ao_pn ao_aad]. rewrite Row. cbn [fst]. unfold cha_seal, suite_nonce. cbn [ai_key ai_nonce ai_aad ai_in ai_n].
    rewrite mem_sub_whole, xor_pn_nonce by apply Hk. osimpl. rewrite (proj1 (chapoly_laws _ (P k pn aad Hk Ha La))) by assumption. reflexivity.
  - intros k pn aad mem n Hk Ha La Hm Hn Hl. unfold aead_suite_open. cbn [ao_suite ao_key ao_iv ao_pn ao_aad]. rewrite Row. cbn [snd]. unfold cha_open, suite_nonce. cbn [ai_key ai_nonce ai_aad ai_in ai_n].
    rewrite mem_prefix, xor_pn_nonce by first [assumption | apply Hk]. osimpl. destruct (ct_cap mem n Hm Hn) as [C1 C2].
    destruct (proj2 (chapoly_laws _ (P k pn aad Hk Ha La)) _ C1 C2) as (r & Er & Hr). rewrite Er. osimpl. exists r. split; [reflexivity|]. intros p. rewrite Sp. apply Hr.
  - intros k sample (_ & _ & [K1 K2]) Hs Ls. rewrite Mp. destruct (rd32_spec sample 0 Hs ltac:(lia)) as [E B].
    rewrite <- (block_rfc (ik_hp k)); [| assumption | assumption | apply bytes_ok_drop, Hs | rewrite length_drop; lia | unfold w32; change (drop 0 sample) with sample in E; rewrite <- E; exact B]. split.
    + transitivity (Some (hp_chacha_mask (ik_hp k) sample)); [reflexivity|]. unfold hp_chacha_mask. unfold rd32 in E. cbn [Nat.add] in E. rewrite E. reflexivity.
    + apply mask_5; [apply chacha20_block_ok | rewrite chacha20_block_length; lia].
Qed.
End instances.

Definition SUITES : list Z := [TLS_AES_128_GCM_SHA256; TLS_AES_256_GCM_SHA384; TLS_CHACHA20_POLY1305_SHA256].

Lemma supported_suite M cached suite : cpu_ok M -> suite ∈ SUITES -> Suite M cached suite.
Proof.
  intros HM Hs. apply list_elem_of_In in Hs. destruct Hs as [<-|[<-|[<-|[]]]]; [apply suite_aes128, HM | apply suite_aes256 | apply suite_chacha].
Qed.
