(* ===== verification/Unprotect.v ===== *)
(** * Opening packets

    src/src/transport/packet/build/vpn/vpn_open.c (long headers, whose Length
    field bounds the protected region) and build/hspkt/unprotect.c (short
    headers, to the end of the packet): header protection is removed, which
    reveals how many bytes the packet number has, the full number is
    recovered from them, and the payload is opened in place. Each exists for
    AES-128-GCM and for the negotiated suite. *)

From Stdlib Require Import String.
From stdpp Require Import base numbers list option.
From Stdlib Require Import ZArith Lia.
From S2P Require Import Prelude Bytes PktNum Aes Ghash Gcm Chacha Protect Suites.

(** ** vpn_open.c *)

(* src/src/transport/packet/build/vpn/vpn_open.h : vpn_desc *)
Record vpn_desc := mk_vpn { vd_pkt : list Z; vd_pn_off : Z; vd_length : Z; vd_largest_pn : Z }.

(* src/src/transport/packet/build/vpn/vpn_open.c : pn_len_of@13-13 *)
Definition pn_len_of (byte0 : Z) : Z := Z.land byte0 0x03 + 1.
(* src/src/transport/packet/build/vpn/vpn_open.c : region_ok@16-25 *)
Definition region_ok (d : vpn_desc) : bool :=
  hp_sample_ok (zlen (vd_pkt d)) (hp_sample_offset (vd_pn_off d)) &&
  ((4 + 16 <=? vd_length d) && (vd_length d <=? u64 (zlen (vd_pkt d) - vd_pn_off d))).

(** The first byte and the number's bytes unmasked: the packet, the number's
    length and the full number. *)
Definition unmask_pn (pkt : list Z) (pn_off bits : Z) (mask : list Z) : option (list Z * Z) :=
  b ← load pkt 0; m ← load mask 0;
  pkt ← store pkt 0 (Z.lxor b (Z.land m bits));
  b ← load pkt 0;
  pkt ← hp_protect_pn pkt pn_off (pn_len_of b) mask;
  Some (pkt, pn_len_of b).
(* src/src/transport/packet/build/vpn/vpn_open.c : remove_hp@31-39 *)
Definition remove_hp (hp : list Z) (d : vpn_desc) : option (list Z * Z * Z) :=
  sample ← mem_sub (vd_pkt d) (hp_sample_offset (vd_pn_off d)) 16;
  '(pkt, pn_len) ← unmask_pn (vd_pkt d) (vd_pn_off d) HP_LONG_MASK (hp_mask hp sample);
  pn ← pnum_decode (drop (Z.to_nat (vd_pn_off d)) pkt) pn_len (vd_largest_pn d);
  Some (pkt, pn_len, pn).

(* src/src/transport/packet/build/vpn/vpn_open.c : vpnopen_dims@42-46 *)
Record vpnopen_dims := mk_dims { vo_hdr_len : Z; vo_ct_len : Z; vo_pn : Z }.

Section opening.
Context (M : cpu) (cached : Z).

(** What gcm_open gives. *)
(* src/src/transport/packet/build/vpn/vpn_open.c : vpn_aead_open@49-59 *)
Definition vpn_aead_open (keys : initial_keys) (pkt : list Z) (v : vpnopen_dims) : option (option (list Z)) :=
  let nonce := protect_nonce (ik_iv keys) (vo_pn v) in
  aad ← mem_sub pkt 0 (vo_hdr_len v);
  ct ← mem_sub pkt (vo_hdr_len v) (u64 (vo_ct_len v + 16));
  gcm_open M cached (mk_gcm (aes128_init (ik_key keys)) nonce aad) ct.
(** The packet afterwards, with the payload's place on success. *)
(* src/src/transport/packet/build/vpn/vpn_open.c : vpn_open *)
Definition vpn_open (k : protect_keys) (d : vpn_desc) : option (list Z * option view) :=
  if negb (region_ok d) then Some (vd_pkt d, None)
  else
    '(pkt, pn_len, pn) ← remove_hp (pk_hp k) d;
    let v := mk_dims (u64 (vd_pn_off d + pn_len)) (u64 (vd_length d - pn_len - 16)) pn in
    r ← vpn_aead_open (pk_keys k) pkt v;
    match r with
    | None => Some (pkt, None)
    | Some pt => pkt ← mem_put pkt (vo_hdr_len v) pt; Some (pkt, Some (vo_hdr_len v, vo_ct_len v))
    end.

(** [None]: unknown suite. *)
(* src/src/transport/packet/build/vpn/vpn_open.c : remove_hp_suite@81-92 *)
Definition remove_hp_suite (suite : Z) (hp_key : list Z) (d : vpn_desc) : option (option (list Z * Z)) :=
  sample ← mem_sub (vd_pkt d) (hp_sample_offset (vd_pn_off d)) 16;
  match hp_suite_mask suite hp_key sample with
  | None => Some None
  | Some mask => r ← unmask_pn (vd_pkt d) (vd_pn_off d) HP_LONG_MASK mask; Some (Some r)
  end.
(* src/src/transport/packet/build/vpn/vpn_open.c : vpn_aead_open_suite@97-103 *)
Definition vpn_aead_open_suite (suite : Z) (keys : initial_keys) (pkt : list Z) (v : vpnopen_dims) : option (Z * option (list Z)) :=
  aad ← mem_sub pkt 0 (vo_hdr_len v);
  aead_suite_open M cached (mk_aop suite (ik_key keys) (ik_iv keys) (vo_pn v) aad) (drop (Z.to_nat (vo_hdr_len v)) pkt) (vo_ct_len v).
(* src/src/transport/packet/build/vpn/vpn_open.c : vpn_length_ok@107-109 *)
Definition vpn_length_ok (d : vpn_desc) (tag_len : Z) : bool := (4 + tag_len <=? vd_length d) && (vd_length d <=? u64 (zlen (vd_pkt d) - vd_pn_off d)).
(* src/src/transport/packet/build/vpn/vpn_open.c : region_ok_suite@116-125 *)
Definition region_ok_suite (d : vpn_desc) (tag_len : Z) : bool :=
  if tag_len =? 0 then false
  else if negb (hp_sample_ok (zlen (vd_pkt d)) (hp_sample_offset (vd_pn_off d))) then false
  else vpn_length_ok d tag_len.
(* src/src/transport/packet/build/vpn/vpn_open.c : vpn_open_dims_suite@129-143 *)
Definition vpn_open_dims_suite (suite : Z) (hp_key : list Z) (d : vpn_desc) (tag_len : Z) : option (list Z * option vpnopen_dims) :=
  r ← remove_hp_suite suite hp_key d;
  match r with
  | None => Some (vd_pkt d, None)
  | Some (pkt, pn_len) =>
      pn ← pnum_decode (drop (Z.to_nat (vd_pn_off d)) pkt) pn_len (vd_largest_pn d);
      Some (pkt, Some (mk_dims (u64 (vd_pn_off d + pn_len)) (u64 (vd_length d - pn_len - tag_len)) pn))
  end.
(* src/src/transport/packet/build/vpn/vpn_open.c : vpn_open_suite_head@147-157 *)
Definition vpn_open_suite_head (suite : Z) (k : protect_keys) (d : vpn_desc) (tag_len : Z) : option (list Z * option vpnopen_dims) :=
  if negb (region_ok_suite d tag_len) then Some (vd_pkt d, None)
  else vpn_open_dims_suite suite (ik_hp (pk_keys k)) d tag_len.
(* src/src/transport/packet/build/vpn/vpn_open.c : vpn_open_suite *)
Definition vpn_open_suite (suite : Z) (k : protect_keys) (d : vpn_desc) : option (list Z * option view) :=
  let tag_len := aead_tag_len suite in
  '(pkt, v) ← vpn_open_suite_head suite k d tag_len;
  match v with
  | None => Some (pkt, None)
  | Some v =>
      r ← vpn_aead_open_suite suite (pk_keys k) pkt v;
      opened pkt (vo_hdr_len v) (vo_ct_len v) r
  end.

(** ** unprotect.c *)

(* src/src/transport/packet/build/hspkt/unprotect.h : hspkt_unprotect_desc *)
Record hspkt_unprotect_desc := mk_unp { ud_pkt : list Z; ud_hdr_len : Z; ud_pn_off : Z; ud_bits_mask : Z; ud_largest_pn : Z }.

(* src/src/transport/packet/build/hspkt/unprotect.c : aead_open@21-31 *)
Definition aead_open (keys : initial_keys) (pkt : list Z) (hdr_len pn : Z) : option (option (list Z)) :=
  let ct_len := u64 (zlen pkt - hdr_len - 16) in
  let nonce := protect_nonce (ik_iv keys) pn in
  aad ← mem_sub pkt 0 hdr_len;
  ct ← mem_sub pkt hdr_len (u64 (ct_len + 16));
  gcm_open M cached (mk_gcm (aes128_init (ik_key keys)) nonce aad) ct.
(** [pkt] with its first byte unmasked. *)
(* src/src/transport/packet/build/hspkt/unprotect.c : open_pkt@38-53 *)
Definition open_pkt (keys : initial_keys) (d : hspkt_unprotect_desc) (mask pkt : list Z) : option (list Z * option view) :=
  b ← load pkt 0;
  let pn_len := Z.land b 0x03 + 1 in
  let hdr_len := u64 (ud_pn_off d + pn_len) in
  pkt ← hp_protect_pn pkt (ud_pn_off d) pn_len mask;
  if zlen pkt <=? u64 (hdr_len + 16) then Some (pkt, None)
  else
    pn ← pnum_decode (drop (Z.to_nat (ud_pn_off d)) pkt) pn_len (ud_largest_pn d);
    r ← aead_open keys pkt hdr_len pn;
    match r with
    | None => Some (pkt, None)
    | Some pt => pkt' ← mem_put pkt hdr_len pt; Some (pkt', Some (hdr_len, u64 (zlen pkt - hdr_len - 16)))
    end.
(* src/src/transport/packet/build/hspkt/unprotect.c : hspkt_unprotect *)
Definition hspkt_unprotect (k : protect_keys) (d : hspkt_unprotect_desc) : option (list Z * option view) :=
  if negb (hp_sample_ok (zlen (ud_pkt d)) (hp_sample_offset (ud_pn_off d))) then Some (ud_pkt d, None)
  else
    sample ← mem_sub (ud_pkt d) (hp_sample_offset (ud_pn_off d)) 16;
    let mask := hp_mask (pk_hp k) sample in
    b ← load (ud_pkt d) 0; m ← load mask 0;
    pkt ← store (ud_pkt d) 0 (Z.lxor b (Z.land m (ud_bits_mask d)));
    open_pkt (pk_keys k) d mask pkt.

(** Success is a length other than 0. *)
(* src/src/transport/packet/build/hspkt/unprotect.c : aead_open_suite@90-97 *)
Definition aead_open_suite (suite : Z) (keys : initial_keys) (pkt : list Z) (hdr_len pn : Z) : option (Z * option (list Z)) :=
  let ct_len := u64 (zlen pkt - hdr_len - aead_tag_len suite) in
  aad ← mem_sub pkt 0 hdr_len;
  aead_suite_open M cached (mk_aop suite (ik_key keys) (ik_iv keys) pn aad) (drop (Z.to_nat hdr_len) pkt) ct_len.
(** The packet and, when it is long enough, the header length. *)
(* src/src/transport/packet/build/hspkt/unprotect.c : open_pkt_suite_head@103-114 *)
Definition open_pkt_suite_head (d : hspkt_unprotect_desc) (mask pkt : list Z) (tag_len : Z) : option (list Z * option Z) :=
  b ← load pkt 0;
  let pn_len := Z.land b 0x03 + 1 in
  if tag_len =? 0 then Some (pkt, None)
  else
    pkt ← hp_protect_pn pkt (ud_pn_off d) pn_len mask;
    let hdr_len := u64 (ud_pn_off d + pn_len) in
    Some (pkt, if u64 (hdr_len + tag_len) <? zlen pkt then Some hdr_len else None).
(* src/src/transport/packet/build/hspkt/unprotect.c : open_pkt_suite@117-132 *)
Definition open_pkt_suite (suite : Z) (keys : initial_keys) (d : hspkt_unprotect_desc) (mask pkt : list Z) : option (list Z * option view) :=
  let tag_len := aead_tag_len suite in
  '(pkt, h) ← open_pkt_suite_head d mask pkt tag_len;
  match h with
  | None => Some (pkt, None)
  | Some hdr_len =>
      pn ← pnum_decode (drop (Z.to_nat (ud_pn_off d)) pkt) (u64 (hdr_len - ud_pn_off d)) (ud_largest_pn d);
      r ← aead_open_suite suite keys pkt hdr_len pn;
      opened pkt hdr_len (u64 (zlen pkt - hdr_len - tag_len)) r
  end.
(* src/src/transport/packet/build/hspkt/unprotect.c : hspkt_unprotect_suite *)
Definition hspkt_unprotect_suite (suite : Z) (k : protect_keys) (d : hspkt_unprotect_desc) : option (list Z * option view) :=
  if negb (hp_sample_ok (zlen (ud_pkt d)) (hp_sample_offset (ud_pn_off d))) then Some (ud_pkt d, None)
  else
    sample ← mem_sub (ud_pkt d) (hp_sample_offset (ud_pn_off d)) 16;
    match hp_suite_mask suite (ik_hp (pk_keys k)) sample with
    | None => Some (ud_pkt d, None)
    | Some mask =>
        b ← load (ud_pkt d) 0; m ← load mask 0;
        pkt ← store (ud_pkt d) 0 (Z.lxor b (Z.land m (ud_bits_mask d)));
        open_pkt_suite suite (pk_keys k) d mask pkt
    end.
End opening.

(** ** RFC 9001 5.4 *)

(** What header protection adds to the byte at [i]: the masked bits of the
    first byte, and the packet number's [pn_len] bytes. *)
Definition mask_at (mask : list Z) (bits pn_off pn_len i : Z) : Z :=
  if i =? 0 then Z.land (at_ mask 0) bits
  else if (pn_off <=? i) && (i <? pn_off + pn_len) then at_ mask (Z.to_nat (1 + i - pn_off)) else 0.
Definition xor_header (mask : list Z) (bits pn_off pn_len : Z) (l : list Z) : list Z :=
  imap (fun i b => Z.lxor b (mask_at mask bits pn_off pn_len (Z.of_nat i))) l.

Definition sample_of (l : list Z) (pn_off : Z) : list Z := take 16 (drop (Z.to_nat (pn_off + 4)) l).

(** A protected packet: the header in clear, the sealed payload with the
    header as associated data, and the mask from the sample on both. *)
Definition rfc_protect (suite : Z) (k : initial_keys) (bits pn_off pn_len pn : Z) (hdr payload : list Z) : list Z :=
  let body := hdr ++ rfc_seal suite (ik_key k) (rfc_nonce (ik_iv k) pn) hdr payload in
  xor_header (rfc_mask suite (ik_hp k) (sample_of body pn_off)) bits pn_off pn_len body.

(** A header that ends with [pn_len] bytes of packet number, which the receiver
    with [largest] takes for [pn]. *)
Definition hdr_ok (hdr : list Z) (pn_off pn_len largest pn : Z) : Prop :=
  bytes_ok hdr /\ zlen hdr = pn_off + pn_len /\ pn_len = pn_len_of (at_ hdr 0) /\ pnum_decode (drop (Z.to_nat pn_off) hdr) pn_len largest = Some pn.

(** An opening that reports a payload, which is there. *)
Definition delivers (r : option (list Z * option view)) (p : list Z) : Prop :=
  exists pkt o n, r = Some (pkt, Some (o, n)) /\ mem_sub pkt o n = Some p.

Lemma delivers_none x q : delivers (Some (x, None)) q <-> False.
Proof. split; [intros (? & ? & ? & [=] & _) | done]. Qed.

(** *** Removing header protection *)

Lemma load_nat (l : list Z) i : 0 <= i -> load l i = l !! Z.to_nat i.
Proof. intros Hi. unfold load. bcase; [reflexivity | lia]. Qed.

Lemma load_at_ (l : list Z) i : 0 <= i < zlen l -> load l i = Some (at_ l (Z.to_nat i)).
Proof.
  intros Hi. rewrite load_nat by lia. unfold at_. rewrite nth_lookup. destruct (lookup_lt_is_Some_2 l (Z.to_nat i)) as [x ->]; [unfold zlen in Hi; lia | reflexivity].
Qed.

Lemma xor_header_length mask bits o n l : length (xor_header mask bits o n l) = length l.
Proof. apply length_imap. Qed.

Lemma xor_header_twice mask bits o n l : xor_header mask bits o n (xor_header mask bits o n l) = l.
Proof.
  apply list_eq. intros i. unfold xor_header. rewrite !list_lookup_imap. destruct (l !! i); cbn; [|reflexivity]. f_equal.
  by rewrite Z.lxor_assoc, Z.lxor_nilpotent, Z.lxor_0_r.
Qed.

Lemma xor_header_take mask bits o n m l : xor_header mask bits o n (take m l) = take m (xor_header mask bits o n l).
Proof.
  apply list_eq. intros i. unfold xor_header. rewrite list_lookup_imap. destruct (decide (i < m)%nat).
  - rewrite !lookup_take_lt by lia. by rewrite list_lookup_imap.
  - rewrite !lookup_take_ge by lia. reflexivity.
Qed.

(** Bytes past the number, and so the sample, stay as they are. *)
Lemma xor_header_drop mask bits o n m l : 1 <= o -> 0 <= n -> (Z.to_nat (o + n) <= m)%nat -> drop m (xor_header mask bits o n l) = drop m l.
Proof.
  intros Ho Hn Hm. apply list_eq. intros i. rewrite !lookup_drop. unfold xor_header. rewrite list_lookup_imap. destruct (l !! (m + i)%nat); cbn; [|reflexivity].
  unfold mask_at. destruct (Z.eqb_spec (Z.of_nat (m + i)) 0); [lia|]. destruct (Z.ltb_spec (Z.of_nat (m + i)) (o + n)); [lia|]. rewrite andb_false_r. by rewrite Z.lxor_0_r.
Qed.

Lemma sample_xor mask bits o n l : 1 <= o -> 1 <= n <= 4 -> sample_of (xor_header mask bits o n l) o = sample_of l o.
Proof. intros Ho Hn. unfold sample_of. rewrite xor_header_drop by lia. reflexivity. Qed.

Lemma xor_header_ok mask bits o n l : bytes_ok mask -> 0 <= bits < 256 -> bytes_ok l -> bytes_ok (xor_header mask bits o n l).
Proof.
  intros Hm Hb Hl. unfold xor_header, bytes_ok. apply Forall_lookup. intros i x. rewrite list_lookup_imap_Some. intros (y & Hy & ->).
  apply lxor_u8; [exact (proj1 (Forall_lookup _ _) Hl _ _ Hy)|]. unfold mask_at. pose proof (at_byte mask) as Ha.
  destruct (_ =? 0); [|destruct (_ && _); [by apply Ha | unfold is_u8; lia]].
  exact (land_lt (at_ mask 0) bits 8 ltac:(lia) Hb).
Qed.

(** The loop over the number's bytes. *)
Lemma pn_xor_spec o mask : 0 <= o -> forall n i l, 0 <= i -> o + i + Z.of_nat n <= zlen l -> 1 + i + Z.of_nat n <= zlen mask ->
  pn_xor l o mask i n = Some (imap (fun j b => if (o + i <=? Z.of_nat j) && (Z.of_nat j <? o + i + Z.of_nat n) then Z.lxor b (at_ mask (Z.to_nat (1 + Z.of_nat j - o))) else b) l).
Proof.
  intros Ho. induction n as [|n IH]; intros i l Hi Hl Hm; cbn [pn_xor].
  - f_equal. apply list_eq. intros j. rewrite list_lookup_imap. destruct (l !! j); cbn; [|reflexivity].
    destruct (Z.leb_spec (o + i) (Z.of_nat j)), (Z.ltb_spec (Z.of_nat j) (o + i + Z.of_nat 0)); try reflexivity; lia.
  - rewrite !load_at_ by lia. osimpl. rewrite store_in by lia. osimpl. rewrite IH by (rewrite ?zlen_insert; lia). f_equal. apply list_eq. intros j.
    rewrite !list_lookup_imap. destruct (decide (j = Z.to_nat (o + i))) as [->|Hne].
    + destruct (lookup_lt_is_Some_2 l (Z.to_nat (o + i))) as [x Ex]; [unfold zlen in Hl; lia|].
      rewrite list_lookup_insert_eq by (unfold zlen in Hl; lia). assert (Ax : at_ l (Z.to_nat (o + i)) = x) by (unfold at_; rewrite nth_lookup, Ex; reflexivity). rewrite Ax, Ex. cbn. f_equal. rewrite Z2Nat.id by lia.
      destruct (Z.leb_spec (o + (i + 1)) (o + i)); [lia|]. destruct (Z.leb_spec (o + i) (o + i)); [|lia]. destruct (Z.ltb_spec (o + i) (o + i + Z.of_nat (S n))); [|lia].
      cbn [andb]. unfold id. replace (1 + (o + i) - o) with (1 + i) by lia. reflexivity.
    + rewrite list_lookup_insert_ne by done. destruct (l !! j); cbn; [|reflexivity]. f_equal.
      destruct (Z.leb_spec (o + (i + 1)) (Z.of_nat j)), (Z.ltb_spec (Z.of_nat j) (o + (i + 1) + Z.of_nat n)), (Z.leb_spec (o + i) (Z.of_nat j)), (Z.ltb_spec (Z.of_nat j) (o + i + Z.of_nat (S n)));
        cbn [andb]; try reflexivity; lia.
Qed.

Lemma pn_len_range b : 1 <= pn_len_of b <= 4.
Proof. unfold pn_len_of. pose proof (land_lt b 3 2 ltac:(lia) ltac:(lia)). lia. Qed.

(** The number is read from its own bytes only. *)
Lemma pnum_decode_local b n L : bytes_ok b -> 1 <= n <= 4 -> zlen b = n -> exists pn, forall post, pnum_decode (b ++ post) n L = Some pn.
Proof.
  intros Hb Hn Hl. assert (E : b = be_bytes (Z.to_nat n) (be_val b)) by (rewrite <- Hl; unfold zlen; rewrite Nat2Z.id; symmetry; by apply be_bytes_val).
  pose proof (be_val_bound b Hb) as B. rewrite E. eexists. intros post. unfold pnum_decode. rewrite read_be_spec by lia. reflexivity.
Qed.

Section unmasking.
Context (pkt : list Z) (o bits : Z) (mask : list Z).
Context (Ho : 1 <= o) (Lp : o + 4 <= zlen pkt) (Lm : length mask = 5%nat).
Definition first : Z := Z.lxor (at_ pkt 0) (Z.land (at_ mask 0) bits).

Lemma store_first : store pkt 0 first = Some (<[0%nat := first]> pkt) /\ load (<[0%nat := first]> pkt) 0 = Some first.
Proof.
  assert (H0 : 0 <= 0 < zlen pkt) by lia. split; [by rewrite store_in by exact H0|].
  rewrite load_nat by lia. apply list_lookup_insert_eq. unfold zlen in Lp. lia.
Qed.

Lemma protect_pn_first n : 1 <= n <= 4 -> hp_protect_pn (<[0%nat := first]> pkt) o n mask = Some (xor_header mask bits o n pkt).
Proof.
  intros Hn. unfold hp_protect_pn. rewrite pn_xor_spec by (rewrite ?zlen_insert; unfold zlen in *; lia). f_equal. apply list_eq. intros j.
  unfold xor_header. rewrite !list_lookup_imap. destruct (decide (j = 0%nat)) as [->|Hne].
  - destruct (lookup_lt_is_Some_2 pkt 0) as [x Ex]; [unfold zlen in Lp; lia|]. rewrite list_lookup_insert_eq by (unfold zlen in Lp; lia). rewrite Ex. cbn. f_equal.
    change (Z.of_nat 0) with 0. destruct (Z.leb_spec (o + 0) 0); [lia|]. cbn [andb]. unfold first, mask_at, at_. cbn [Z.eqb]. rewrite nth_lookup, Ex. reflexivity.
  - rewrite list_lookup_insert_ne by done. destruct (pkt !! j); cbn; [|reflexivity]. f_equal. unfold mask_at. destruct (Z.eqb_spec (Z.of_nat j) 0); [lia|].
    rewrite Z.add_0_r, Z2Nat.id by lia. destruct (_ && _); [f_equal; f_equal; lia | by rewrite Z.lxor_0_r].
Qed.

Lemma unmask_spec : unmask_pn pkt o bits mask = Some (xor_header mask bits o (pn_len_of first) pkt, pn_len_of first).
Proof.
  unfold unmask_pn. rewrite !load_at_ by (unfold zlen in *; lia). osimpl. change (Z.to_nat 0) with 0%nat. fold first.
  destruct store_first as [-> E]. osimpl. rewrite E. osimpl. rewrite protect_pn_first by apply pn_len_range. reflexivity.
Qed.
End unmasking.

(** ** What an opening accepts *)

Section accepts.
Context (M : cpu) (cached suite : Z) `{HS : !Suite M cached suite}.
Context (k : initial_keys) (Hk : keys_ok k) (bits o largest : Z) (Hbits : 0 <= bits < 256) (Ho : 1 <= o).

Section region.
Context (pkt : list Z) (e : Z) (Hp : bytes_ok pkt) (Lp : zlen pkt <= 1500) (He : o + 20 <= e <= zlen pkt).

Definition p_mask : list Z := rfc_mask suite (ik_hp k) (sample_of pkt o).
Definition p_first : Z := first pkt bits p_mask.
Definition p_n : Z := pn_len_of p_first.
Definition p_clear : list Z := xor_header p_mask bits o p_n pkt.
Definition p_hdr : list Z := take (Z.to_nat (o + p_n)) p_clear.

Lemma sample_16 l : bytes_ok l -> o + 20 <= zlen l -> bytes_ok (sample_of l o) /\ length (sample_of l o) = 16%nat.
Proof. intros Hl Hn. unfold sample_of. split; [by apply bytes_ok_take, bytes_ok_drop|]. rewrite length_take, length_drop. unfold zlen in Hn. lia. Qed.

Lemma p_mask_ok : hp_suite_mask suite (ik_hp k) (sample_of pkt o) = Some p_mask /\ bytes_ok p_mask /\ length p_mask = 5%nat.
Proof. apply suite_masks; [exact Hk|..]; apply sample_16; try assumption; lia. Qed.

Lemma p_n_range : 1 <= p_n <= 4.
Proof. apply pn_len_range. Qed.

Lemma p_clear_ok : bytes_ok p_clear /\ zlen p_clear = zlen pkt.
Proof. split; [apply xor_header_ok; [apply p_mask_ok | exact Hbits | exact Hp] | unfold zlen, p_clear; by rewrite xor_header_length]. Qed.

Lemma p_clear_first : at_ p_clear 0 = p_first.
Proof.
  unfold at_, p_clear, xor_header. rewrite nth_lookup, list_lookup_imap. unfold p_first, first, at_. rewrite (nth_lookup pkt).
  destruct (lookup_lt_is_Some_2 pkt 0) as [x ->]; [unfold zlen in He; lia|]. reflexivity.
Qed.

Lemma sample_region l m : o + 20 <= m -> sample_of (take (Z.to_nat m) l) o = sample_of l o.
Proof. intros Hm. unfold sample_of. rewrite !take_drop_commute, take_take. f_equal. f_equal. lia. Qed.

Lemma p_hdr_length : zlen p_hdr = o + p_n.
Proof. pose proof p_n_range. pose proof (proj2 p_clear_ok). unfold p_hdr. rewrite zlen_take; lia. Qed.

(** The region in clear: the header and the ciphertext as received. *)
Lemma clear_region : take (Z.to_nat e) p_clear = p_hdr ++ take (Z.to_nat (e - (o + p_n))) (drop (Z.to_nat (o + p_n)) pkt).
Proof.
  pose proof p_n_range as Hn. replace (Z.to_nat e) with (Z.to_nat (o + p_n) + Z.to_nat (e - (o + p_n)))%nat by lia.
  rewrite <- take_take_drop. unfold p_clear at 2. rewrite xor_header_drop by lia. reflexivity.
Qed.

Lemma p_number : exists pn, pnum_decode (drop (Z.to_nat o) p_hdr) p_n largest = Some pn /\ pnum_decode (drop (Z.to_nat o) p_clear) p_n largest = Some pn.
Proof.
  pose proof p_n_range as Hn. destruct p_clear_ok as [Hc Lc].
  assert (Eh : drop (Z.to_nat o) p_hdr = take (Z.to_nat p_n) (drop (Z.to_nat o) p_clear)) by (unfold p_hdr; rewrite take_drop_commute; do 2 f_equal; lia).
  destruct (pnum_decode_local (take (Z.to_nat p_n) (drop (Z.to_nat o) p_clear)) p_n largest) as [pn E].
  - by apply bytes_ok_take, bytes_ok_drop.
  - exact Hn.
  - rewrite zlen_take; [reflexivity|]. rewrite zlen_drop by lia. lia.
  - exists pn. split.
    + rewrite Eh. rewrite <- (app_nil_r (take _ _)). apply E.
    + rewrite <- (take_drop (Z.to_nat p_n) (drop (Z.to_nat o) p_clear)). apply E.
Qed.

(** The header of a protected packet is the one its unmasked form shows. *)
Lemma region_header hdr n pn p : hdr_ok hdr o n largest pn -> take (Z.to_nat e) pkt = rfc_protect suite k bits o n pn hdr p ->
  hdr = p_hdr /\ n = p_n /\ rfc_seal suite (ik_key k) (rfc_nonce (ik_iv k) pn) hdr p = take (Z.to_nat (e - (o + p_n))) (drop (Z.to_nat (o + p_n)) pkt).
Proof.
  intros (Hh & Lh' & En & Epn') E. pose proof p_n_range as Hn. pose proof p_hdr_length as Lh. destruct p_clear_ok as [Hc Lc].
  assert (Hn' : 1 <= n <= 4) by (rewrite En; apply pn_len_range).
  unfold rfc_protect in E. set (ct := rfc_seal _ _ _ hdr p) in *. set (body := hdr ++ ct) in E.
  assert (Es : sample_of body o = sample_of pkt o).
  { rewrite <- (sample_region pkt e) by lia. rewrite E. by rewrite sample_xor. }
  rewrite Es in E. fold p_mask in E.
  assert (Eb : body = xor_header p_mask bits o n (take (Z.to_nat e) pkt)) by (rewrite E; by rewrite xor_header_twice).
  assert (E0 : at_ hdr 0 = p_first).
  { transitivity (at_ body 0); [unfold body; symmetry; apply at_app_l; unfold zlen in Lh'; lia|]. rewrite Eb, xor_header_take, at_take by lia.
    unfold at_, xor_header. rewrite nth_lookup, list_lookup_imap. unfold p_first, first, at_. rewrite (nth_lookup pkt).
    destruct (lookup_lt_is_Some_2 pkt 0) as [x ->]; [unfold zlen in He; lia|]. reflexivity. }
  assert (n = p_n) as -> by (rewrite En, E0; reflexivity).
  rewrite xor_header_take in Eb. fold p_clear in Eb. rewrite clear_region in Eb. unfold body in Eb.
  apply app_inj_1 in Eb as [Eh Ect]; [|unfold zlen in *; lia]. split; [exact Eh|]. split; [reflexivity | exact Ect].
Qed.

(** A region is a protected packet exactly when its unmasked form is that
    packet in clear. *)
Lemma accepted_iff pn p : pnum_decode (drop (Z.to_nat o) p_hdr) p_n largest = Some pn ->
  rfc_seal suite (ik_key k) (rfc_nonce (ik_iv k) pn) p_hdr p = take (Z.to_nat (e - (o + p_n))) (drop (Z.to_nat (o + p_n)) pkt) <->
  exists hdr n pn', hdr_ok hdr o n largest pn' /\ take (Z.to_nat e) pkt = rfc_protect suite k bits o n pn' hdr p.
Proof.
  intros Epn. pose proof p_n_range as Hn. pose proof p_hdr_length as Lh. destruct p_clear_ok as [Hc Lc]. split.
  - intros E. exists p_hdr, p_n, pn. split.
    + split_and!; [by apply bytes_ok_take | exact Lh | | exact Epn]. unfold p_hdr. rewrite at_take by lia. by rewrite p_clear_first.
    + unfold rfc_protect. rewrite E, <- clear_region, sample_region by lia. unfold p_clear at 1. rewrite sample_xor by lia. fold p_mask.
      rewrite xor_header_take. unfold p_clear. by rewrite xor_header_twice.
  - intros (hdr & n & pn' & Hh & E). destruct (region_header hdr n pn' p Hh E) as (-> & -> & Ect). destruct Hh as (_ & _ & _ & Epn').
    assert (pn' = pn) as -> by congruence. exact Ect.
Qed.

(** The AEAD on the unmasked packet. *)
Lemma region_opens : exists pn r, pnum_decode (drop (Z.to_nat o) p_clear) p_n largest = Some pn /\
  aead_suite_open M cached (mk_aop suite (ik_key k) (ik_iv k) pn p_hdr) (drop (Z.to_nat (o + p_n)) p_clear) (e - (o + p_n) - 16) = Some (open_result (e - (o + p_n) - 16) r) /\
  (forall p, r = Some p <-> bytes_ok p /\ exists hdr n pn', hdr_ok hdr o n largest pn' /\ take (Z.to_nat e) pkt = rfc_protect suite k bits o n pn' hdr p) /\
  (forall p, r = Some p -> bytes_ok p /\ zlen p = e - (o + p_n) - 16).
Proof.
  pose proof p_n_range as Hn. pose proof p_hdr_length as Lh. destruct p_clear_ok as [Hc Lc]. destruct p_number as (pn & E1 & E2).
  destruct (suite_opens (suite := suite) (M := M) (cached := cached) k pn p_hdr (drop (Z.to_nat (o + p_n)) p_clear) (e - (o + p_n) - 16) Hk) as (r & Er & Hr).
  { by apply bytes_ok_take. } { lia. } { by apply bytes_ok_drop. } { lia. } { rewrite zlen_drop by lia. lia. }
  exists pn, r. replace (e - (o + p_n) - 16 + 16) with (e - (o + p_n)) in Hr by lia. unfold p_clear in Hr at 1. rewrite xor_header_drop in Hr by lia.
  split_and!; [exact E2 | exact Er | |].
  - intros p. rewrite Hr, (accepted_iff pn p E1). reflexivity.
  - intros p Hp'. apply Hr in Hp' as [Hb E]. split; [exact Hb|]. apply (f_equal length) in E. rewrite (suite_length (suite := suite) (M := M) (cached := cached)) in E by exact Hk.
    rewrite length_take, length_drop in E. unfold zlen in *. lia.
Qed.

(** What is reported of the region: the plaintext in place of the ciphertext. *)
Lemma region_delivers x p q : zlen p = e - (o + p_n) - 16 -> mem_put p_clear (o + p_n) p = Some x ->
  delivers (Some (x, Some (o + p_n, e - (o + p_n) - 16))) q <-> q = p.
Proof.
  pose proof p_n_range as Hn. destruct p_clear_ok as [Hc Lc]. intros Lq. rewrite mem_put_in by lia. intros [= <-].
  assert (Ex : mem_sub (splice p_clear (o + p_n) p) (o + p_n) (e - (o + p_n) - 16) = Some p).
  { rewrite mem_sub_in by (rewrite ?zlen_splice; lia). f_equal. unfold splice. rewrite drop_app_length' by (rewrite length_take; unfold zlen in Lc, He; lia).
    apply take_app_length'. unfold zlen in Lq. lia. }
  unfold delivers. split.
  - intros (x & a & n & [= <- <- <-] & E). congruence.
  - intros ->. by eexists _, _, _.
Qed.

(** The two endings of the code: a length other than 0, or the verdict. *)
Lemma opened_delivers r : (forall p, r = Some p -> bytes_ok p /\ zlen p = e - (o + p_n) - 16) ->
  exists x v, opened p_clear (o + p_n) (e - (o + p_n) - 16) (open_result (e - (o + p_n) - 16) r) = Some (x, v) /\
    forall q, delivers (Some (x, v)) q <-> r = Some q /\ q <> [].
Proof.
  intros Hr. unfold opened, put_plain, open_result. pose proof p_n_range as Hn. destruct p_clear_ok as [Hc Lc]. destruct r as [p|]; cbn [fst snd].
  - destruct (Hr p eq_refl) as [_ Lq]. assert (Ep : mem_put p_clear (o + p_n) p = Some (splice p_clear (o + p_n) p)) by (apply mem_put_in; lia). rewrite Ep. osimpl.
    eexists _, _. split; [reflexivity|]. intros q. destruct (Z.eqb_spec (e - (o + p_n) - 16) 0) as [E0|N0].
    + rewrite delivers_none. split; [done|]. intros [[= ->] Hq]. destruct q; [done|]. rewrite zlen_cons in Lq. pose proof (zlen_nonneg q). lia.
    + rewrite (region_delivers _ p q Lq Ep). split; [intros ->; split; [done|] | by intros [[= ->] _]]. intros ->. rewrite zlen_nil in Lq. lia.
  - osimpl. eexists _, _. split; [reflexivity|]. intros q. cbn [Z.eqb]. rewrite delivers_none. split; [done | intros [[=] _]].
Qed.

(** What the direct opening leaves in the buffer: bytes, and on success the
    header in clear. *)
Definition cleared (x : list Z) (v : option view) : Prop :=
  bytes_ok x /\ zlen x = zlen pkt /\ forall a m, v = Some (a, m) -> a = o + p_n /\ 0 <= m /\ a + m <= zlen x /\ take (Z.to_nat (o + p_n)) x = p_hdr.

Lemma verdict_delivers r n : (forall p, r = Some p -> bytes_ok p /\ zlen p = e - (o + p_n) - 16) -> n = e - (o + p_n) - 16 ->
  exists x v, match r with None => Some (p_clear, None) | Some pt => pkt ← mem_put p_clear (o + p_n) pt; Some (pkt, Some (o + p_n, n)) end = Some (x, v) /\
    (forall q, delivers (Some (x, v)) q <-> r = Some q) /\ cleared x v.
Proof.
  intros Hr ->. pose proof p_n_range as Hn. destruct p_clear_ok as [Hc Lc]. destruct r as [p|].
  - destruct (Hr p eq_refl) as [Hb Lq]. assert (Ep : mem_put p_clear (o + p_n) p = Some (splice p_clear (o + p_n) p)) by (apply mem_put_in; lia). rewrite Ep. osimpl.
    eexists _, _. split; [reflexivity|]. split; [intros q; rewrite (region_delivers _ p q Lq Ep); split; [by intros -> | by intros [= ->]]|].
    assert (Lx : zlen (splice p_clear (o + p_n) p) = zlen pkt) by (rewrite zlen_splice; lia).
    split; [|split; [exact Lx|]].
    + unfold splice. apply bytes_ok_app. split; [by apply bytes_ok_take|]. apply bytes_ok_app. split; [exact Hb | by apply bytes_ok_drop].
    + intros a m [= <- <-]. split; [reflexivity|]. pose proof (zlen_nonneg p). split; [lia|]. split; [lia|]. unfold splice. unfold p_hdr. apply take_app_length'. rewrite length_take. unfold zlen in *. lia.
  - eexists _, _. split; [reflexivity|]. split; [intros q; rewrite delivers_none; split; [done | intros [=]]|]. split; [exact Hc|]. split; [exact Lc|]. intros a m [=].
Qed.
End region.
End accepts.

Lemma sample_fits (pkt : list Z) o : 1 <= o <= zlen pkt -> zlen pkt <= 1500 ->
  hp_sample_ok (zlen pkt) (hp_sample_offset o) = (o + 20 <=? zlen pkt) /\ hp_sample_offset o = o + 4.
Proof. intros Ho Lp. unfold hp_sample_ok, hp_sample_offset. rewrite (u64_small (o + 4)) by lia. rewrite u64_small by lia. split; [f_equal; lia | reflexivity]. Qed.

Lemma sample_sub pkt o : 1 <= o -> o + 20 <= zlen pkt -> mem_sub pkt (o + 4) 16 = Some (sample_of pkt o).
Proof. intros Ho Lp. rewrite mem_sub_in by lia. reflexivity. Qed.

(** The direct AES-128 path runs what the suite's row runs. *)
Lemma gcm_of_suite M cached key iv pn aad p h n r : 0 <= h -> 0 <= n <= 1500 -> h + n + 16 <= zlen p ->
  aead_suite_open M cached (mk_aop TLS_AES_128_GCM_SHA256 key iv pn aad) (drop (Z.to_nat h) p) n = Some (open_result n r) ->
  (ct ← mem_sub p h (u64 (n + 16)); gcm_open M cached (mk_gcm (aes128_init key) (protect_nonce iv pn) aad) ct) = Some r.
Proof.
  intros Hh Hn Hl. unfold aead_suite_open. cbn [ao_suite ao_key ao_iv ao_pn ao_aad].
  assert (Row : aead_suite_row M cached TLS_AES_128_GCM_SHA256 = Some (aead_gcm_seal M cached, aead_gcm_open M cached)) by reflexivity. rewrite Row. cbn [snd].
  unfold aead_gcm_open, suite_nonce, protect_nonce. cbn [ai_key ai_nonce ai_aad ai_in ai_n]. rewrite u64_small by lia.
  rewrite (mem_sub_in p) by lia. rewrite mem_sub_in by (rewrite ?zlen_drop by lia; lia). osimpl. change (drop (Z.to_nat 0) (drop (Z.to_nat h) p)) with (drop (Z.to_nat h) p).
  destruct (gcm_open _ _ _ _) as [r'|]; osimpl; [|discriminate]. intros E. apply (inj Some) in E. destruct r', r; cbn [open_result] in E; congruence.
Qed.

(** ** The four openings *)

Section openings.
Context (M : cpu) (HM : cpu_ok M) (cached : Z).
Context (k : protect_keys) (Hk : keys_ok (pk_keys k)).

Lemma bits_long : 0 <= HP_LONG_MASK < 256.
Proof. unfold HP_LONG_MASK. lia. Qed.

(** A region of a packet that is a packet protected under the suite. *)
Definition protected_in (suite bits : Z) (pkt : list Z) (o largest e : Z) (p : list Z) : Prop :=
  bytes_ok p /\ exists hdr n pn, hdr_ok hdr o n largest pn /\ take (Z.to_nat e) pkt = rfc_protect suite (pk_keys k) bits o n pn hdr p.

Section one.
Context (suite : Z) `{HS : !Suite M cached suite}.

Lemma vpn_open_suite_spec pkt o len largest : bytes_ok pkt -> zlen pkt <= 1500 -> 1 <= o <= zlen pkt -> is_u64 len ->
  exists x v, vpn_open_suite M cached suite k (mk_vpn pkt o len largest) = Some (x, v) /\
    forall q, delivers (Some (x, v)) q <-> 20 <= len /\ o + len <= zlen pkt /\ q <> [] /\ protected_in suite HP_LONG_MASK pkt o largest (o + len) q.
Proof.
  intros Hp Lp Ho Hlen. destruct (sample_fits pkt o Ho Lp) as [Ef Eo]. unfold is_u64 in Hlen.
  unfold vpn_open_suite. rewrite (suite_tag (M := M) (cached := cached)). unfold vpn_open_suite_head, region_ok_suite, vpn_length_ok. cbn [vd_pkt vd_pn_off vd_length Z.eqb].
  rewrite Ef. rewrite (u64_small (zlen pkt - o)) by lia. change (4 + 16) with 20.
  destruct (decide (20 <= len /\ o + len <= zlen pkt)) as [[H1 H2]|Hno].
  2: { replace (if negb (o + 20 <=? zlen pkt) then false else (20 <=? len) && (len <=? zlen pkt - o)) with false by (destruct (negb _) eqn:?; lia).
       cbn [negb]. osimpl. eexists _, _. split; [reflexivity|]. intros q. rewrite delivers_none. tauto. }
  replace (if negb (o + 20 <=? zlen pkt) then false else (20 <=? len) && (len <=? zlen pkt - o)) with true by (destruct (negb _) eqn:?; lia). cbn [negb].
  assert (He : o + 20 <= o + len <= zlen pkt) by lia. assert (Ho1 : 1 <= o) by lia.
  pose proof (p_n_range suite (pk_keys k) HP_LONG_MASK o pkt) as Hn.
  destruct (p_mask_ok M cached suite (pk_keys k) Hk o Ho1 pkt (o + len) Hp He) as (Em & Bm & Lm).
  unfold vpn_open_dims_suite, remove_hp_suite. cbn [vd_pkt vd_pn_off vd_length vd_largest_pn]. rewrite Eo, (sample_sub pkt o Ho1) by lia. osimpl. rewrite Em.
  rewrite (unmask_spec pkt o HP_LONG_MASK _ Ho1 ltac:(lia) Lm). osimpl.
  fold (p_first suite (pk_keys k) HP_LONG_MASK o pkt). fold (p_n suite (pk_keys k) HP_LONG_MASK o pkt). fold (p_clear suite (pk_keys k) HP_LONG_MASK o pkt).
  destruct (region_opens M cached suite (pk_keys k) Hk HP_LONG_MASK o largest bits_long Ho1 pkt (o + len) Hp Lp He) as (pn & r & E1 & E2 & Hr & Hl).
  rewrite E1. osimpl. unfold vpn_aead_open_suite. cbn [vo_hdr_len vo_ct_len vo_pn].
  rewrite !u64_small by lia. destruct (p_clear_ok M cached suite (pk_keys k) Hk HP_LONG_MASK o bits_long Ho1 pkt (o + len) Hp He) as [Hc Lc].
  rewrite mem_sub_in by lia. osimpl. change (take (Z.to_nat (o + p_n suite (pk_keys k) HP_LONG_MASK o pkt)) (drop (Z.to_nat 0) (p_clear suite (pk_keys k) HP_LONG_MASK o pkt))) with (p_hdr suite (pk_keys k) HP_LONG_MASK o pkt).
  replace (len - p_n suite (pk_keys k) HP_LONG_MASK o pkt - 16) with (o + len - (o + p_n suite (pk_keys k) HP_LONG_MASK o pkt) - 16) by lia.
  rewrite E2. osimpl. destruct (opened_delivers M cached suite (pk_keys k) Hk HP_LONG_MASK o bits_long Ho1 pkt (o + len) Hp He r Hl) as (x & v & E & Hd).
  rewrite E. exists x, v. split; [reflexivity|]. intros q. rewrite Hd, Hr. unfold protected_in. tauto.
Qed.

Lemma unprotect_suite_spec pkt hl o bits largest : bytes_ok pkt -> zlen pkt <= 1500 -> 1 <= o <= zlen pkt -> 0 <= bits < 256 ->
  exists x v, hspkt_unprotect_suite M cached suite k (mk_unp pkt hl o bits largest) = Some (x, v) /\
    forall q, delivers (Some (x, v)) q <-> o + 20 <= zlen pkt /\ q <> [] /\ protected_in suite bits pkt o largest (zlen pkt) q.
Proof.
  intros Hp Lp Ho Hb. destruct (sample_fits pkt o Ho Lp) as [Ef Eo].
  unfold hspkt_unprotect_suite. cbn [ud_pkt ud_pn_off ud_bits_mask]. rewrite Ef, Eo.
  destruct (Z.leb_spec (o + 20) (zlen pkt)) as [Hs|Hs]; cbn [negb].
  2: { eexists _, _. split; [reflexivity|]. intros q. rewrite delivers_none. split; [done | lia]. }
  assert (He : o + 20 <= zlen pkt <= zlen pkt) by lia. assert (Ho1 : 1 <= o) by lia.
  pose proof (p_n_range suite (pk_keys k) bits o pkt) as Hn.
  destruct (p_mask_ok M cached suite (pk_keys k) Hk o Ho1 pkt _ Hp He) as (Em & Bm & Lm).
  rewrite (sample_sub pkt o Ho1) by lia. osimpl. rewrite Em. rewrite !load_at_ by (unfold zlen in *; lia). osimpl. change (Z.to_nat 0) with 0%nat.
  fold (first pkt bits (p_mask suite (pk_keys k) o pkt)). destruct (store_first pkt o bits (p_mask suite (pk_keys k) o pkt) Ho1 ltac:(lia) Lm) as [-> E0]. osimpl.
  unfold open_pkt_suite, open_pkt_suite_head. cbn [ud_pkt ud_pn_off ud_largest_pn]. rewrite E0. osimpl. rewrite (suite_tag (M := M) (cached := cached)). cbn [Z.eqb].
  fold (p_first suite (pk_keys k) bits o pkt). fold (pn_len_of (p_first suite (pk_keys k) bits o pkt)). fold (p_n suite (pk_keys k) bits o pkt).
  unfold p_first at 1. rewrite (protect_pn_first pkt o bits _ Ho1 ltac:(lia) Lm) by exact Hn. fold (p_clear suite (pk_keys k) bits o pkt). osimpl.
  destruct (p_clear_ok M cached suite (pk_keys k) Hk bits o Hb Ho1 pkt _ Hp He) as [Hc Lc].
  rewrite (u64_small (o + _)) by lia. rewrite (u64_small (o + _ + 16)), Lc by lia.
  destruct (region_opens M cached suite (pk_keys k) Hk bits o largest Hb Ho1 pkt _ Hp Lp He) as (pn & r & E1 & E2 & Hr & Hl).
  destruct (Z.ltb_spec (o + p_n suite (pk_keys k) bits o pkt + 16) (zlen pkt)) as [Hlong|Hshort].
  - rewrite (u64_small (_ - o)) by lia. replace (o + p_n suite (pk_keys k) bits o pkt - o) with (p_n suite (pk_keys k) bits o pkt) by lia. rewrite E1. osimpl.
    unfold aead_open_suite. rewrite (suite_tag (M := M) (cached := cached)), Lc. rewrite !u64_small by lia. rewrite mem_sub_in by lia. osimpl.
    change (take (Z.to_nat (o + p_n suite (pk_keys k) bits o pkt)) (drop (Z.to_nat 0) (p_clear suite (pk_keys k) bits o pkt))) with (p_hdr suite (pk_keys k) bits o pkt).
    rewrite E2. osimpl. destruct (opened_delivers M cached suite (pk_keys k) Hk bits o Hb Ho1 pkt _ Hp He r Hl) as (x & v & E & Hd).
    rewrite E. exists x, v. split; [reflexivity|]. intros q. rewrite Hd, Hr. unfold protected_in. tauto.
  - eexists _, _. split; [reflexivity|]. intros q. rewrite delivers_none. split; [done|]. intros (_ & Hq & Hin). apply Hr in Hin. destruct (Hl q Hin) as [_ L].
    destruct q; [done|]. rewrite zlen_cons in L. pose proof (zlen_nonneg q). lia.
Qed.
End one.

Section direct.
Context (Hhp : pk_hp k = aes128_init (ik_hp (pk_keys k))).
Notation aes := TLS_AES_128_GCM_SHA256.
#[local] Instance aes_row : Suite M cached aes := suite_aes128 M HM cached.

Lemma direct_mask pkt o : hp_mask (pk_hp k) (sample_of pkt o) = hps_aes128 (ik_hp (pk_keys k)) (sample_of pkt o).
Proof. unfold hps_aes128. by rewrite Hhp. Qed.

Lemma direct_p_mask pkt o e : bytes_ok pkt -> 1 <= o -> o + 20 <= e <= zlen pkt -> hp_mask (pk_hp k) (sample_of pkt o) = p_mask aes (pk_keys k) o pkt.
Proof.
  intros Hp Ho He. destruct (p_mask_ok M cached aes (pk_keys k) Hk o Ho pkt e Hp He) as (Em & _).
  assert (E : hp_suite_mask aes (ik_hp (pk_keys k)) (sample_of pkt o) = Some (hps_aes128 (ik_hp (pk_keys k)) (sample_of pkt o))) by reflexivity.
  rewrite E in Em. rewrite direct_mask. congruence.
Qed.

Lemma vpn_open_spec pkt o len largest : bytes_ok pkt -> zlen pkt <= 1500 -> 1 <= o <= zlen pkt -> is_u64 len ->
  exists x v, vpn_open M cached k (mk_vpn pkt o len largest) = Some (x, v) /\
    (forall q, delivers (Some (x, v)) q <-> 20 <= len /\ o + len <= zlen pkt /\ protected_in aes HP_LONG_MASK pkt o largest (o + len) q) /\
    cleared aes (pk_keys k) HP_LONG_MASK o pkt x v.
Proof.
  intros Hp Lp Ho Hlen. destruct (sample_fits pkt o Ho Lp) as [Ef Eo]. unfold is_u64 in Hlen.
  unfold vpn_open, region_ok. cbn [vd_pkt vd_pn_off vd_length]. rewrite Ef, (u64_small (zlen pkt - o)) by lia. change (4 + 16) with 20.
  destruct (decide (20 <= len /\ o + len <= zlen pkt)) as [[H1 H2]|Hno].
  2: { replace ((o + 20 <=? zlen pkt) && ((20 <=? len) && (len <=? zlen pkt - o))) with false by lia.
       cbn [negb]. eexists _, _. split; [reflexivity|]. split; [intros q; rewrite delivers_none; tauto|]. split; [exact Hp|]. split; [reflexivity | intros a m [=]]. }
  replace ((o + 20 <=? zlen pkt) && ((20 <=? len) && (len <=? zlen pkt - o))) with true by lia. cbn [negb].
  assert (He : o + 20 <= o + len <= zlen pkt) by lia. assert (Ho1 : 1 <= o) by lia.
  pose proof (p_n_range aes (pk_keys k) HP_LONG_MASK o pkt) as Hn.
  destruct (p_mask_ok M cached aes (pk_keys k) Hk o Ho1 pkt (o + len) Hp He) as (_ & _ & Lm).
  unfold remove_hp. cbn [vd_pkt vd_pn_off vd_length vd_largest_pn]. rewrite Eo, (sample_sub pkt o Ho1) by lia. osimpl. rewrite (direct_p_mask pkt o (o + len) Hp Ho1 He).
  rewrite (unmask_spec pkt o HP_LONG_MASK _ Ho1 ltac:(lia) Lm). osimpl.
  fold (p_first aes (pk_keys k) HP_LONG_MASK o pkt). fold (p_n aes (pk_keys k) HP_LONG_MASK o pkt). fold (p_clear aes (pk_keys k) HP_LONG_MASK o pkt).
  destruct (region_opens M cached aes (pk_keys k) Hk HP_LONG_MASK o largest bits_long Ho1 pkt (o + len) Hp Lp He) as (pn & r & E1 & E2 & Hr & Hl).
  rewrite E1. osimpl. unfold vpn_aead_open. cbn [vo_hdr_len vo_ct_len vo_pn].
  rewrite (u64_small (o + _)), (u64_small (len - _ - 16)) by lia. destruct (p_clear_ok M cached aes (pk_keys k) Hk HP_LONG_MASK o bits_long Ho1 pkt (o + len) Hp He) as [Hc Lc].
  rewrite (mem_sub_in _ 0) by lia. osimpl. change (take (Z.to_nat (o + p_n aes (pk_keys k) HP_LONG_MASK o pkt)) (drop (Z.to_nat 0) (p_clear aes (pk_keys k) HP_LONG_MASK o pkt))) with (p_hdr aes (pk_keys k) HP_LONG_MASK o pkt).
  replace (len - p_n aes (pk_keys k) HP_LONG_MASK o pkt - 16) with (o + len - (o + p_n aes (pk_keys k) HP_LONG_MASK o pkt) - 16) by lia.
  pose proof (gcm_of_suite M cached _ _ pn _ (p_clear aes (pk_keys k) HP_LONG_MASK o pkt) (o + p_n aes (pk_keys k) HP_LONG_MASK o pkt) (o + len - (o + p_n aes (pk_keys k) HP_LONG_MASK o pkt) - 16) r ltac:(lia) ltac:(lia) ltac:(lia) E2) as Eg.
  setoid_rewrite Eg. osimpl.
  destruct (verdict_delivers M cached aes (pk_keys k) Hk HP_LONG_MASK o bits_long Ho1 pkt (o + len) Hp He r _ Hl eq_refl) as (x & v & E & Hd & Hx).
  rewrite E. exists x, v. split; [reflexivity|]. split; [|exact Hx]. intros q. rewrite Hd, Hr. unfold protected_in. tauto.
Qed.

Lemma unprotect_spec pkt hl o bits largest : bytes_ok pkt -> zlen pkt <= 1500 -> 1 <= o <= zlen pkt -> 0 <= bits < 256 ->
  exists x v, hspkt_unprotect M cached k (mk_unp pkt hl o bits largest) = Some (x, v) /\
    forall q, delivers (Some (x, v)) q <-> o + 20 <= zlen pkt /\ q <> [] /\ protected_in aes bits pkt o largest (zlen pkt) q.
Proof.
  intros Hp Lp Ho Hb. destruct (sample_fits pkt o Ho Lp) as [Ef Eo].
  unfold hspkt_unprotect. cbn [ud_pkt ud_pn_off ud_bits_mask]. rewrite Ef, Eo.
  destruct (Z.leb_spec (o + 20) (zlen pkt)) as [Hs|Hs]; cbn [negb].
  2: { eexists _, _. split; [reflexivity|]. intros q. rewrite delivers_none. split; [intros [] | intros (Hx & _); exfalso; clear - Hx Hs; lia]. }
  assert (He : o + 20 <= zlen pkt <= zlen pkt) by lia. assert (Ho1 : 1 <= o) by lia.
  pose proof (p_n_range aes (pk_keys k) bits o pkt) as Hn.
  destruct (p_mask_ok M cached aes (pk_keys k) Hk o Ho1 pkt _ Hp He) as (_ & _ & Lm).
  rewrite (sample_sub pkt o Ho1) by lia. osimpl. rewrite (direct_p_mask pkt o _ Hp Ho1 He). rewrite !load_at_ by (unfold zlen in *; lia). osimpl. change (Z.to_nat 0) with 0%nat.
  fold (first pkt bits (p_mask aes (pk_keys k) o pkt)). destruct (store_first pkt o bits (p_mask aes (pk_keys k) o pkt) Ho1 ltac:(lia) Lm) as [-> E0]. osimpl.
  unfold open_pkt. cbn [ud_pkt ud_pn_off ud_largest_pn]. rewrite E0. osimpl.
  fold (p_first aes (pk_keys k) bits o pkt). fold (pn_len_of (p_first aes (pk_keys k) bits o pkt)). fold (p_n aes (pk_keys k) bits o pkt).
  unfold p_first at 1. rewrite (protect_pn_first pkt o bits _ Ho1 ltac:(lia) Lm) by exact Hn. fold (p_clear aes (pk_keys k) bits o pkt). osimpl.
  destruct (p_clear_ok M cached aes (pk_keys k) Hk bits o Hb Ho1 pkt _ Hp He) as [Hc Lc].
  rewrite !(u64_small (o + _)), (u64_small (o + _ + 16)), Lc by lia.
  destruct (region_opens M cached aes (pk_keys k) Hk bits o largest Hb Ho1 pkt _ Hp Lp He) as (pn & r & E1 & E2 & Hr & Hl).
  destruct (Z.leb_spec (zlen pkt) (o + p_n aes (pk_keys k) bits o pkt + 16)) as [Hshort|Hlong].
  - eexists _, _. split; [reflexivity|]. intros q. rewrite delivers_none. split; [intros []|]. intros (_ & Hq & Hin). apply Hr in Hin. destruct (Hl q Hin) as [_ L].
    destruct q as [|b q]; [exact (Hq eq_refl)|]. rewrite zlen_cons in L. pose proof (zlen_nonneg q). lia.
  - rewrite E1. osimpl. unfold aead_open. rewrite Lc, (u64_small (zlen pkt - _ - 16)) by lia. rewrite (mem_sub_in _ 0) by lia. osimpl.
    change (take (Z.to_nat (o + p_n aes (pk_keys k) bits o pkt)) (drop (Z.to_nat 0) (p_clear aes (pk_keys k) bits o pkt))) with (p_hdr aes (pk_keys k) bits o pkt).
    pose proof (gcm_of_suite M cached _ _ pn _ (p_clear aes (pk_keys k) bits o pkt) (o + p_n aes (pk_keys k) bits o pkt) (zlen pkt - (o + p_n aes (pk_keys k) bits o pkt) - 16) r ltac:(lia) ltac:(lia) ltac:(lia) E2) as Eg.
    setoid_rewrite Eg. osimpl.
    destruct (verdict_delivers M cached aes (pk_keys k) Hk bits o Hb Ho1 pkt _ Hp He r _ Hl eq_refl) as (x & v & E & Hd & _).
    rewrite E. exists x, v. split; [reflexivity|]. intros q. rewrite Hd, Hr. unfold protected_in.
    split; [intros H; split; [lia|]; split; [|exact H] | tauto]. intros ->. apply Hr in H. destruct (Hl [] H) as [_ L]. rewrite zlen_nil in L. lia.
Qed.
End direct.
End openings.

(** An opening that stays inside the packet and reports exactly the payloads
    [P] allows. *)
Definition decides (r : option (list Z * option view)) (P : list Z -> Prop) : Prop := r <> None /\ forall q, delivers r q <-> P q.

(** C2: Opening decides every packet, and delivers only what was protected. For
    any bytes of at most 1500 at and around a header of any length, any Length
    field and any of the three suites, the long and short header openings, the
    suite-aware ones and the direct AES-128 ones, never leave the packet, and
    report a payload exactly when the region is the RFC 9001 5 protection of
    that payload under a header whose packet number, recovered against the
    largest received, gives the nonce: same AEAD, same sample and mask, a
    number length that is the one in the unmasked first byte. All but
    [vpn_open] refuse an empty payload. *)
Theorem openings_exact M cached suite k pkt o len hl bits largest : cpu_ok M -> suite ∈ SUITES -> keys_ok (pk_keys k) -> pk_hp k = aes128_init (ik_hp (pk_keys k)) ->
  bytes_ok pkt -> zlen pkt <= 1500 -> 1 <= o <= zlen pkt -> is_u64 len -> 0 <= bits < 256 ->
  decides (vpn_open_suite M cached suite k (mk_vpn pkt o len largest))
    (fun q => 20 <= len /\ o + len <= zlen pkt /\ q <> [] /\ protected_in k suite HP_LONG_MASK pkt o largest (o + len) q) /\
  decides (vpn_open M cached k (mk_vpn pkt o len largest))
    (fun q => 20 <= len /\ o + len <= zlen pkt /\ protected_in k TLS_AES_128_GCM_SHA256 HP_LONG_MASK pkt o largest (o + len) q) /\
  decides (hspkt_unprotect_suite M cached suite k (mk_unp pkt hl o bits largest))
    (fun q => o + 20 <= zlen pkt /\ q <> [] /\ protected_in k suite bits pkt o largest (zlen pkt) q) /\
  decides (hspkt_unprotect M cached k (mk_unp pkt hl o bits largest))
    (fun q => o + 20 <= zlen pkt /\ q <> [] /\ protected_in k TLS_AES_128_GCM_SHA256 bits pkt o largest (zlen pkt) q).
Proof.
  intros HM Hs Hk Hhp Hp Lp Ho Hlen Hb. pose proof (supported_suite M cached suite HM Hs) as HS.
  assert (D : forall r P, (exists x v, r = Some (x, v) /\ forall q, delivers (Some (x, v)) q <-> P q) -> decides r P).
  { intros r P (x & v & -> & H). split; [discriminate | exact H]. }
  split; [|split; [|split]]; apply D.
  - apply vpn_open_suite_spec; assumption.
  - destruct (vpn_open_spec M HM cached k Hk Hhp pkt o len largest) as (x & v & E & H & _); try assumption. eauto.
  - apply unprotect_suite_spec; assumption.
  - apply unprotect_spec; assumption.
Qed.

(** The ChaCha20-Poly1305 packet of RFC 9001 A.5. *)
Definition a5_keys : protect_keys :=
  let hp := be_bytes 32 0x25a282b9e82f06f21f488917a4fc8f1b73573685608597d0efcb076b0ab7a7a4 in
  mk_pkeys (mk_keys (be_bytes 32 0xc6d98ff3441c3fe1b2182094f69caa2ed4b716b65488960a7a984979fb23e1c8) (be_bytes 12 0xe0459b3474bdd0e44a41c144) hp) (aes128_init hp).
Definition a5_packet : list Z := be_bytes 21 0x4cfe4189655e5cd55c41f69080575d7999c25a5bfb.

Lemma openings_exact_witness :
  hspkt_unprotect_suite model_cpu 0 TLS_CHACHA20_POLY1305_SHA256 a5_keys (mk_unp a5_packet 5 1 HP_SHORT_MASK 654360563) =
    Some ([0x42; 0x00; 0xbf; 0xf4; 1] ++ drop 5 a5_packet, Some (4, 1)) /\
  protected_in a5_keys TLS_CHACHA20_POLY1305_SHA256 HP_SHORT_MASK a5_packet 1 654360563 21 [1].
Proof.
  assert (E : hspkt_unprotect_suite model_cpu 0 TLS_CHACHA20_POLY1305_SHA256 a5_keys (mk_unp a5_packet 5 1 HP_SHORT_MASK 654360563) =
    Some ([0x42; 0x00; 0xbf; 0xf4; 1] ++ drop 5 a5_packet, Some (4, 1))) by (vm_compute; reflexivity).
  split; [exact E|].
  assert (K : keys_ok (pk_keys a5_keys)) by (split; [|split]; (split; [apply be_bytes_ok | reflexivity])).
  assert (Hh : pk_hp a5_keys = aes128_init (ik_hp (pk_keys a5_keys))) by (unfold a5_keys; cbn [pk_hp pk_keys ik_hp]; reflexivity).
  destruct (openings_exact model_cpu 0 TLS_CHACHA20_POLY1305_SHA256 a5_keys a5_packet 1 20 5 HP_SHORT_MASK 654360563 model_cpu_ok
    ltac:(apply list_elem_of_In; right; right; left; reflexivity) K Hh (be_bytes_ok _ _) ltac:(vm_compute; discriminate) ltac:(split; vm_compute; discriminate)
    ltac:(split; vm_compute; [discriminate | reflexivity]) ltac:(split; vm_compute; [discriminate | reflexivity])) as (_ & _ & [_ H] & _).
  refine (proj2 (proj2 (proj1 (H [1]) _))). rewrite E. exists ([0x42; 0x00; 0xbf; 0xf4; 1] ++ drop 5 a5_packet), 4, 1. split; [reflexivity | vm_compute; reflexivity].
Defined.
