(* ===== verification/PktProt.v ===== *)
(** * Building and opening whole packets

    src/src/transport/packet/frame/pipeline (tx_packet, rx_packet) and
    build/hspkt (Handshake and 1-RTT packets), with the key phase bit
    (tls/keys/keyupdate/keyphase.c), the spin bit and the grease of the fixed
    bit (tls/ext/grease/bitset.c): a packet is its header, laid out by Header,
    sealed and masked by Protect, and opened by Unprotect after the header is
    parsed. *)

From Stdlib Require Import String.
From stdpp Require Import base numbers list option.
From Stdlib Require Import ZArith Lia.
From S2P Require Import Prelude Bytes Varint Frames PktNum Header Packets Reassembly Paths Sha2 Aes Ghash Gcm Chacha Protect Suites Unprotect.

(** ** txpacket.c, rxpacket.c *)

Definition TX_PN_LEN : Z := 4.
(* src/src/transport/packet/frame/pipeline/txpacket.h : tx_desc *)
Record tx_desc := mk_tx { td_byte0 : Z; td_dcid : list Z; td_scid : list Z; td_is_initial : bool; td_token : list Z; td_pn : Z; td_frames : list Z; td_version : Z }.
(* src/src/transport/packet/frame/pipeline/rxpacket.h : rx_desc *)
Record rx_desc := mk_rx { rd_pkt : list Z; rd_is_initial : bool; rd_largest_pn : Z }.

(* src/src/transport/packet/frame/pipeline/txpacket.c : tx_version_or_v1@16-16 *)
Definition tx_version_or_v1 (v : Z) : Z := if v =? 0 then VERSION_1 else v.
(** The local header array. *)
Definition TX_HDR_CAP : nat := 104.
(** The header, and the sealing it is part of ([None]: it does not fit). *)
(* src/src/transport/packet/frame/pipeline/txpacket.c : tx_build_hdr@21-45 *)
Definition tx_build_hdr (d : tx_desc) (out : list Z) : option (option protect_seal_io) :=
  let h := mk_ld (td_byte0 d) (tx_version_or_v1 (td_version d)) (td_dcid d) (td_scid d) (td_is_initial d) (td_token d) (zlen (td_frames d)) (td_pn d) TX_PN_LEN in
  '(n, hdr) ← lhdr_build h (replicate TX_HDR_CAP 0);
  Some (if n =? 0 then None else Some (mk_sio (take (Z.to_nat n) hdr) (u64 (n - TX_PN_LEN)) TX_PN_LEN (td_pn d) (td_frames d) out)).

Section packets.
Context (M : cpu) (cached : Z).

(* src/src/transport/packet/frame/pipeline/txpacket.c : tx_packet *)
Definition tx_packet (k : protect_keys) (d : tx_desc) (out : list Z) : option (Z * list Z) :=
  io ← tx_build_hdr d out;
  match io with None => Some (0, out) | Some io => protect_seal M cached k io end.
(* src/src/transport/packet/frame/pipeline/txpacket.c : tx_packet_suite *)
Definition tx_packet_suite (suite : Z) (k : protect_keys) (d : tx_desc) (out : list Z) : option (Z * list Z) :=
  io ← tx_build_hdr d out;
  match io with None => Some (0, out) | Some io => protect_seal_suite M cached suite k io end.

(* src/src/transport/packet/frame/pipeline/rxpacket.c : rx_packet *)
Definition rx_packet (k : protect_keys) (d : rx_desc) : option (list Z * option view) :=
  match lhdr_parse (rd_pkt d) (rd_is_initial d) with
  | Oob => None
  | Fail => Some (rd_pkt d, None)
  | Ok h => vpn_open M cached k (mk_vpn (rd_pkt d) (l_pn_off h) (l_length h) (rd_largest_pn d))
  end.

(** ** hspkt_build.c, hspkt_open.c *)

(* src/src/transport/packet/build/hspkt/hspkt_build.h : hspkt_desc *)
Record hspkt_desc := mk_hs { hd_dcid : list Z; hd_scid : list Z; hd_pn : Z; hd_payload : list Z; hd_version : Z }.
(* src/src/transport/packet/build/hspkt/hspkt_build.c : hspkt_byte0@11-15 *)
Definition hspkt_byte0 (version : Z) : Z :=
  let wire := if version =? VERSION_2 then v2_packet_type LT_HANDSHAKE else v1_packet_type LT_HANDSHAKE in
  u8 (Z.lor 0xc3 (Z.shiftl wire 4)).
(* src/src/transport/packet/build/hspkt/hspkt_build.c : hspkt_tx_desc@19-22 *)
Definition hspkt_tx_desc (d : hspkt_desc) : tx_desc :=
  mk_tx (hspkt_byte0 (hd_version d)) (hd_dcid d) (hd_scid d) false [] (hd_pn d) (hd_payload d) (hd_version d).
(** The packet's length ([None]: the code's 0) and the output array. *)
Definition built (r : Z * list Z) : option Z * list Z := (if r.1 =? 0 then None else Some r.1, r.2).
(* src/src/transport/packet/build/hspkt/hspkt_build.c : hspkt_build *)
Definition hspkt_build (k : protect_keys) (d : hspkt_desc) (out : list Z) : option (option Z * list Z) :=
  r ← tx_packet k (hspkt_tx_desc d) out; Some (built r).
(* src/src/transport/packet/build/hspkt/hspkt_build.c : hspkt_build_suite *)
Definition hspkt_build_suite (suite : Z) (k : protect_keys) (d : hspkt_desc) (out : list Z) : option (option Z * list Z) :=
  r ← tx_packet_suite suite k (hspkt_tx_desc d) out; Some (built r).

(* src/src/transport/packet/build/hspkt/hspkt_open.c : hspkt_open *)
Definition hspkt_open (k : protect_keys) (pkt : list Z) (largest_pn : Z) : option (list Z * option view) :=
  match lhdr_parse pkt false with
  | Oob => None
  | Fail => Some (pkt, None)
  | Ok h => vpn_open M cached k (mk_vpn pkt (l_pn_off h) (l_length h) largest_pn)
  end.
(* src/src/transport/packet/build/hspkt/hspkt_open.c : hspkt_open_suite *)
Definition hspkt_open_suite (suite : Z) (k : protect_keys) (pkt : list Z) (largest_pn : Z) : option (list Z * option view) :=
  match lhdr_parse pkt false with
  | Oob => None
  | Fail => Some (pkt, None)
  | Ok h => vpn_open_suite M cached suite k (mk_vpn pkt (l_pn_off h) (l_length h) largest_pn)
  end.

(** ** onertt.c *)

Definition ONERTT_BYTE0 : Z := 0x43.
(* src/src/transport/packet/build/hspkt/onertt.h : hspkt_onertt_desc *)
Record hspkt_onertt_desc := mk_1rtt { od_dcid : list Z; od_pn : Z; od_payload : list Z; od_phase_bit : Z; od_spin : Z; od_clear_quic_bit : Z }.
(* src/src/transport/packet/build/hspkt/onertt.h : hspkt_onertt_open_desc *)
Record hspkt_onertt_open_desc := mk_1rtto { oc_pkt : list Z; oc_dcid_len : Z; oc_largest_pn : Z }.

(* src/src/tls/keys/keyupdate/keyphase.c : keyphase_bit *)
Definition keyphase_bit (generation : Z) : Z := u8 (Z.land generation 1).
(* src/src/tls/keys/keyupdate/keyphase.c : keyphase_get *)
Definition keyphase_get (byte0 : Z) : Z := Z.land (Z.shiftr byte0 2) 1.
(* src/src/tls/keys/keyupdate/keyphase.c : keyphase_set *)
Definition keyphase_set (byte0 phase : Z) : Z := u8 (Z.lor (Z.land byte0 (Z.lnot 0x04)) (Z.shiftl (Z.land phase 1) 2)).
(* src/src/tls/ext/grease/bitset.c : greasebit_may_clear *)
Definition greasebit_may_clear (peer_advertised : Z) : bool := negb (peer_advertised =? 0).
(* src/src/tls/ext/grease/bitset.c : greasebit_apply *)
Definition greasebit_apply (byte0 clear : Z) : Z := if negb (clear =? 0) then u8 (Z.land byte0 (Z.lnot 0x40)) else u8 (Z.lor byte0 0x40).

(* src/src/transport/packet/build/hspkt/onertt.c : onertt_byte0@20-23 *)
Definition onertt_byte0 (d : hspkt_onertt_desc) : Z :=
  let b := spin_set (keyphase_set ONERTT_BYTE0 (od_phase_bit d)) (od_spin d) in
  greasebit_apply b (od_clear_quic_bit d).
(** The header written over the start of [hdr], and its length. *)
(* src/src/transport/packet/build/hspkt/onertt.c : build_short_header@26-36 *)
Definition build_short_header (hdr : list Z) (d : hspkt_onertt_desc) : option (Z * list Z) :=
  hdr ← store hdr 0 (onertt_byte0 d);
  hdr ← copy hdr 1 (od_dcid d) 0 (length (od_dcid d));
  hdr ← mem_put hdr (1 + zlen (od_dcid d)) (map (fun i => u8 (Z.shiftr (od_pn d) (8 * (3 - Z.of_nat i)))) (seq 0 4));
  Some (5 + zlen (od_dcid d), hdr).

(* src/src/transport/packet/build/hspkt/onertt.c : onertt_seal_gcm@40-48 *)
Definition onertt_seal_gcm (k : protect_keys) (d : hspkt_onertt_desc) (o : list Z) (hdr_len : Z) : option (list Z) :=
  let nonce := protect_nonce (ik_iv (pk_keys k)) (od_pn d) in
  aad ← mem_sub o 0 hdr_len;
  mem_put o hdr_len (gcm_seal M cached (mk_gcm (aes128_init (ik_key (pk_keys k))) nonce aad) (od_payload d)).
(* src/src/transport/packet/build/hspkt/onertt.c : hspkt_onertt_build *)
Definition hspkt_onertt_build (k : protect_keys) (d : hspkt_onertt_desc) (out : list Z) : option (option Z * list Z) :=
  '(hdr_len, o) ← build_short_header out d;
  let pn_off := 1 + zlen (od_dcid d) in
  let need := u64 (hdr_len + zlen (od_payload d) + 16) in
  if zlen out <? need then Some (None, o)
  else
    o ← onertt_seal_gcm k d o hdr_len;
    sample ← mem_sub o (u64 (pn_off + 4)) 16;
    o ← hp_apply (hp_mask (pk_hp k) sample) (mk_hpf o pn_off 4 HP_SHORT_MASK);
    Some (Some need, o).
(* src/src/transport/packet/build/hspkt/onertt.c : hspkt_onertt_open *)
Definition hspkt_onertt_open (k : protect_keys) (d : hspkt_onertt_open_desc) : option (list Z * option view) :=
  hspkt_unprotect M cached k (mk_unp (oc_pkt d) (5 + oc_dcid_len d) (1 + oc_dcid_len d) HP_SHORT_MASK (oc_largest_pn d)).

(** The packet sealed ([None]: the code's 0). *)
(* src/src/transport/packet/build/hspkt/onertt.c : onertt_seal_suite@85-99 *)
Definition onertt_seal_suite (suite : Z) (k : protect_keys) (d : hspkt_onertt_desc) (o : list Z) (hdr_len need cap : Z) : option (option (list Z)) :=
  if cap <? need then Some None
  else
    aad ← mem_sub o 0 hdr_len;
    sealed ← aead_suite_seal M cached (mk_aop suite (ik_key (pk_keys k)) (ik_iv (pk_keys k)) (od_pn d) aad) (od_payload d);
    match sealed with
    | None => Some None
    | Some bs => o ← mem_put o hdr_len bs; Some (if zlen bs =? 0 then None else Some o)
    end.
(* src/src/transport/packet/build/hspkt/onertt.c : hspkt_onertt_build_suite *)
Definition hspkt_onertt_build_suite (suite : Z) (k : protect_keys) (d : hspkt_onertt_desc) (out : list Z) : option (option Z * list Z) :=
  '(hdr_len, o) ← build_short_header out d;
  let pn_off := 1 + zlen (od_dcid d) in
  let need := u64 (hdr_len + zlen (od_payload d) + aead_tag_len suite) in
  r ← onertt_seal_suite suite k d o hdr_len need (zlen out);
  match r with
  | None => Some (None, o)
  | Some o =>
      sample ← mem_sub o (u64 (pn_off + 4)) 16;
      match hp_suite_mask suite (ik_hp (pk_keys k)) sample with
      | None => Some (None, o)
      | Some mask => o ← hp_apply mask (mk_hpf o pn_off 4 HP_SHORT_MASK); Some (Some need, o)
      end
  end.
(* src/src/transport/packet/build/hspkt/onertt.c : hspkt_onertt_open_suite *)
Definition hspkt_onertt_open_suite (suite : Z) (k : protect_keys) (d : hspkt_onertt_open_desc) : option (list Z * option view) :=
  hspkt_unprotect_suite M cached suite k (mk_unp (oc_pkt d) (5 + oc_dcid_len d) (1 + oc_dcid_len d) HP_SHORT_MASK (oc_largest_pn d)).
End packets.

(** ** The sealing side *)

Lemma hp_apply_spec pkt o bits mask n : 1 <= o -> o + 4 <= zlen pkt -> length mask = 5%nat -> 1 <= n <= 4 ->
  hp_apply mask (mk_hpf pkt o n bits) = Some (xor_header mask bits o n pkt).
Proof.
  intros Ho Lp Lm Hn. unfold hp_apply. cbn [hf_pkt hf_pn hf_pn_len hf_bits_mask]. rewrite !load_at_ by (unfold zlen in *; lia). osimpl. change (Z.to_nat 0) with 0%nat.
  fold (first pkt bits mask). destruct (store_first pkt o bits mask Ho Lp Lm) as [-> _]. osimpl.
  apply (protect_pn_first pkt o bits mask Ho Lp Lm n Hn).
Qed.

Lemma xor_header_app mask bits o n a b : 1 <= o -> 0 <= n -> o + n <= zlen a -> xor_header mask bits o n (a ++ b) = xor_header mask bits o n a ++ b.
Proof.
  intros Ho Hn Hl. rewrite <- (take_drop (length a) (xor_header mask bits o n (a ++ b))), <- xor_header_take, xor_header_drop by (unfold zlen in Hl; lia).
  by rewrite take_app_length, drop_app_length.
Qed.

(** A packet laid over the start of an array. *)
Lemma splice_start (out l : list Z) : splice out 0 l = l ++ drop (length l) out.
Proof. unfold splice. cbn [Z.to_nat take app Nat.add]. reflexivity. Qed.

(** The header, then what is sealed under it. *)
Lemma splice_next (out h ct : list Z) : zlen h + zlen ct <= zlen out -> splice (splice out 0 h) (zlen h) ct = splice out 0 (h ++ ct).
Proof.
  intros Hl. rewrite !splice_start. unfold splice. unfold zlen in *. rewrite Nat2Z.id, take_app_length, <- app_assoc. do 2 f_equal.
  rewrite drop_app_ge, drop_drop, length_app by lia. f_equal. lia.
Qed.

Lemma sample_splice out l o : 1 <= o -> o + 20 <= zlen l -> sample_of (splice out 0 l) o = sample_of l o.
Proof.
  intros Ho Hl. unfold sample_of. rewrite splice_start, drop_app_le by (unfold zlen in Hl; lia).
  rewrite take_app_le by (rewrite length_drop; unfold zlen in Hl; lia). reflexivity.
Qed.

Lemma mask_splice out l o n mask bits : 1 <= o -> 0 <= n -> o + n <= zlen l -> xor_header mask bits o n (splice out 0 l) = splice out 0 (xor_header mask bits o n l).
Proof. intros Ho Hn Hl. rewrite !splice_start, xor_header_app by done. by rewrite xor_header_length. Qed.

Section sealing.
Context (M : cpu) (HM : cpu_ok M) (cached : Z).
Context (k : protect_keys) (Hk : keys_ok (pk_keys k)).

Section one.
Context (suite : Z) `{HS : !Suite M cached suite}.
Context (bits o pn : Z) (hdr payload : list Z) (Ho : 1 <= o) (Hh : bytes_ok hdr) (Lh : zlen hdr = o + 4) (Hp : bytes_ok payload).
Context (Lp : zlen hdr + zlen payload + 16 <= 1500).

Definition in_clear : list Z := hdr ++ rfc_seal suite (ik_key (pk_keys k)) (rfc_nonce (ik_iv (pk_keys k)) pn) hdr payload.
Definition on_wire : list Z := rfc_protect suite (pk_keys k) bits o 4 pn hdr payload.

Lemma in_clear_ok : bytes_ok in_clear /\ zlen in_clear = zlen hdr + zlen payload + 16.
Proof.
  pose proof (zlen_nonneg hdr). pose proof (zlen_nonneg payload).
  destruct (suite_shape (suite := suite) (M := M) (cached := cached) (pk_keys k) pn hdr payload Hk Hh ltac:(lia) Hp ltac:(lia)) as [H1 H2].
  unfold in_clear. split; [apply bytes_ok_app; split; [exact Hh | exact H1]|]. unfold zlen in *. rewrite length_app, H2. lia.
Qed.

Lemma on_wire_length : zlen on_wire = zlen hdr + zlen payload + 16.
Proof. unfold on_wire, rfc_protect. fold in_clear. unfold zlen at 1. rewrite xor_header_length. apply in_clear_ok. Qed.

(** Masking what was sealed into an array. *)
Lemma mask_sealed out mask : zlen in_clear <= zlen out -> hp_suite_mask suite (ik_hp (pk_keys k)) (sample_of in_clear o) = Some mask ->
  sample_of (splice out 0 in_clear) o = sample_of in_clear o /\ mem_sub (splice out 0 in_clear) (u64 (o + 4)) 16 = Some (sample_of in_clear o) /\
  hp_apply mask (mk_hpf (splice out 0 in_clear) o 4 bits) = Some (splice out 0 on_wire).
Proof.
  intros Hout Em. destruct in_clear_ok as [Hc Lc]. pose proof (zlen_nonneg payload).
  assert (Ls : zlen (splice out 0 in_clear) = zlen out) by (apply zlen_splice; lia).
  destruct (suite_masks (suite := suite) (M := M) (cached := cached) (pk_keys k) (sample_of in_clear o) Hk) as (Em' & _ & Lm).
  { apply (sample_16 o Ho in_clear Hc). lia. } { apply (sample_16 o Ho in_clear Hc). lia. }
  assert (mask = rfc_mask suite (ik_hp (pk_keys k)) (sample_of in_clear o)) as -> by congruence.
  split; [apply sample_splice; lia|]. split.
  - rewrite u64_small by lia. rewrite (sample_sub _ o Ho) by lia. f_equal. apply sample_splice; lia.
  - rewrite hp_apply_spec by (assumption || lia). f_equal. rewrite mask_splice by lia. reflexivity.
Qed.

Lemma mask_of_clear : hp_suite_mask suite (ik_hp (pk_keys k)) (sample_of in_clear o) = Some (rfc_mask suite (ik_hp (pk_keys k)) (sample_of in_clear o)).
Proof.
  destruct in_clear_ok as [Hc Lc]. pose proof (zlen_nonneg payload). apply suite_masks; [exact Hk|..]; apply (sample_16 o Ho in_clear Hc); lia.
Qed.

End one.

(** Room for the packet, or nothing. *)
Section long.
Context (o pn : Z) (hdr payload : list Z) (Ho : 1 <= o) (Hh : bytes_ok hdr) (Lh : zlen hdr = o + 4) (Hp : bytes_ok payload).
Context (Lp : zlen hdr + zlen payload + 16 <= 1500).

Lemma protect_seal_suite_spec suite `{HS : !Suite M cached suite} out : zlen out < span_max ->
  protect_seal_suite M cached suite k (mk_sio hdr o 4 pn payload out) =
  if zlen out <? zlen hdr + zlen payload + 16 then Some (0, out) else Some (zlen hdr + zlen payload + 16, splice out 0 (on_wire suite HP_LONG_MASK o pn hdr payload)).
Proof.
  intros Hout. pose proof (zlen_nonneg hdr). pose proof (zlen_nonneg payload). unfold protect_seal_suite, seal_into_suite. cbn [so_hdr so_payload so_out so_pn so_pn_off so_pn_len].
  rewrite (suite_tag (M := M) (cached := cached)), u64_small by lia. destruct (Z.ltb_spec (zlen out) (zlen hdr + zlen payload + 16)) as [Hno|Hfit]; [reflexivity|].
  destruct (in_clear_ok suite o pn hdr payload Ho Hh Lh Hp Lp) as [Hc Lc]. unfold protect_copy_hdr. rewrite mem_put_in by lia. osimpl.
  rewrite (suite_seals (suite := suite) (M := M) (cached := cached)) by (assumption || lia). osimpl.
  set (ct := rfc_seal suite _ _ hdr payload) in *. assert (Lct : zlen ct = zlen payload + 16) by (unfold in_clear in Lc; rewrite zlen_app in Lc; unfold ct; lia).
  rewrite mem_put_in by (rewrite ?zlen_splice; lia). osimpl. rewrite splice_next by lia. destruct (Z.eqb_spec (zlen ct) 0); [lia|]. cbn [negb].
  destruct (Z.eqb_spec (zlen hdr + zlen payload + 16) 0); [lia|]. unfold protect_header_suite.
  pose proof (mask_of_clear suite o pn hdr payload Ho Hh Lh Hp Lp) as Em.
  destruct (mask_sealed suite HP_LONG_MASK o pn hdr payload Ho Hh Lh Hp Lp out _ ltac:(lia) Em) as (_ & Es & Ea).
  change (hdr ++ ct) with (in_clear suite pn hdr payload). rewrite Es. osimpl. rewrite Em. rewrite Ea. reflexivity.
Qed.

Section direct.
Context (Hhp : pk_hp k = aes128_init (ik_hp (pk_keys k))).
Notation aes := TLS_AES_128_GCM_SHA256.
#[local] Instance aes_suite : Suite M cached aes := suite_aes128 M HM cached.

(** The direct path seals and masks as the suite's row does. *)
Lemma gcm_seals aad pt : bytes_ok aad -> zlen aad <= 1500 -> bytes_ok pt -> zlen pt <= 1500 ->
  gcm_seal M cached (mk_gcm (aes128_init (ik_key (pk_keys k))) (protect_nonce (ik_iv (pk_keys k)) pn) aad) pt =
  rfc_seal aes (ik_key (pk_keys k)) (rfc_nonce (ik_iv (pk_keys k)) pn) aad pt.
Proof.
  intros Ha La Hq Lq. pose proof (suite_seals (suite := aes) (M := M) (cached := cached) (pk_keys k) pn aad pt Hk Ha La Hq Lq) as E. unfold aead_suite_seal in E. cbn [ao_suite ao_key ao_iv ao_pn ao_aad] in E.
  assert (Row : aead_suite_row M cached aes = Some (aead_gcm_seal M cached, aead_gcm_open M cached)) by reflexivity. rewrite Row in E. cbn [fst] in E.
  unfold aead_gcm_seal, suite_nonce in E. cbn [ai_key ai_nonce ai_aad ai_in ai_n] in E. rewrite mem_sub_whole in E. cbn [mbind option_bind] in E. unfold protect_nonce. congruence.
Qed.

Lemma direct_sample_mask sample mask : hp_suite_mask aes (ik_hp (pk_keys k)) sample = Some mask -> hp_mask (pk_hp k) sample = mask.
Proof.
  intros E. assert (R : hp_suite_mask aes (ik_hp (pk_keys k)) sample = Some (hps_aes128 (ik_hp (pk_keys k)) sample)) by reflexivity.
  rewrite R in E. unfold hps_aes128 in E. rewrite Hhp. congruence.
Qed.

Lemma protect_seal_spec out : zlen out < span_max ->
  protect_seal M cached k (mk_sio hdr o 4 pn payload out) =
  if zlen out <? zlen hdr + zlen payload + 16 then Some (0, out) else Some (zlen hdr + zlen payload + 16, splice out 0 (on_wire aes HP_LONG_MASK o pn hdr payload)).
Proof.
  intros Hout. pose proof (zlen_nonneg hdr). pose proof (zlen_nonneg payload). unfold protect_seal, seal_into. cbn [so_hdr so_payload so_out so_pn so_pn_off so_pn_len].
  rewrite u64_small by lia. destruct (Z.ltb_spec (zlen out) (zlen hdr + zlen payload + 16)) as [Hno|Hfit]; [reflexivity|].
  destruct (in_clear_ok aes o pn hdr payload Ho Hh Lh Hp Lp) as [Hc Lc]. rewrite mem_put_in by lia. osimpl.
  rewrite gcm_seals by (assumption || lia). set (ct := rfc_seal aes _ _ hdr payload) in *.
  assert (Lct : zlen ct = zlen payload + 16) by (unfold in_clear in Lc; rewrite zlen_app in Lc; unfold ct; lia).
  rewrite mem_put_in by (rewrite ?zlen_splice; lia). osimpl. rewrite splice_next by lia.
  destruct (Z.eqb_spec (zlen hdr + zlen payload + 16) 0); [lia|]. unfold protect_header.
  pose proof (mask_of_clear aes o pn hdr payload Ho Hh Lh Hp Lp) as Em.
  destruct (mask_sealed aes HP_LONG_MASK o pn hdr payload Ho Hh Lh Hp Lp out _ ltac:(lia) Em) as (_ & Es & Ea).
  change (hdr ++ ct) with (in_clear aes pn hdr payload). rewrite Es. osimpl. rewrite (direct_sample_mask _ _ Em). rewrite Ea. reflexivity.
Qed.
End direct.
End long.
End sealing.

(** ** A masked long header still parses *)

Lemma masked_first b m : is_u8 b -> let b' := Z.lxor b (Z.land m HP_LONG_MASK) in
  is_u8 b' /\ packet_is_long b' = packet_is_long b /\ wire_bits b' = wire_bits b /\ lhdr_byte0_pnlen b' (pn_len_of b') = b'.
Proof.
  intros Hb b'. pose (P := fun x b => let b' := Z.lxor b x in (0 <=? b') && (b' <? 256) && Bool.eqb (packet_is_long b') (packet_is_long b) && (wire_bits b' =? wire_bits b) && (lhdr_byte0_pnlen b' (pn_len_of b') =? b')).
  pose proof (land_lt m HP_LONG_MASK 4 ltac:(lia) ltac:(unfold HP_LONG_MASK; lia)) as Hx. set (x := Z.land m HP_LONG_MASK) in *. change (2 ^ 4) with 16 in Hx.
  assert (H : forallb (fun x => forallb (P x) (map Z.of_nat (seq 0 256))) (map Z.of_nat (seq 0 16)) = true) by (vm_compute; reflexivity).
  rewrite forallb_forall in H. assert (Hin : In x (map Z.of_nat (seq 0 16))) by (apply in_map_iff; exists (Z.to_nat x); split; [lia | apply in_seq; lia]).
  pose proof (u8_check (P x) b (H x Hin) Hb) as HP. unfold P in HP. cbv zeta in HP. fold b' in HP. unfold is_u8.
  apply andb_true_iff in HP as [HP E2]. apply andb_true_iff in HP as [HP E3]. apply andb_true_iff in HP as [HP E1]. split; [lia|]. split; [by apply eqb_prop | lia].
Qed.

(** Masking changes a header's first byte and its last four. *)
Lemma masked_header mask b mid pnb o : bytes_ok mask -> o = 1 + zlen mid -> length pnb = 4%nat -> is_u8 b -> bytes_ok mid -> bytes_ok pnb ->
  exists pnb', xor_header mask HP_LONG_MASK o 4 (b :: mid ++ pnb) = Z.lxor b (Z.land (at_ mask 0) HP_LONG_MASK) :: mid ++ pnb' /\ length pnb' = 4%nat /\ bytes_ok pnb'.
Proof.
  intros Hm -> Hl Hb Hmid Hpn. set (l := b :: mid ++ pnb).
  assert (Hlok : bytes_ok l) by (apply bytes_ok_cons; split; [done | by apply bytes_ok_app]).
  assert (Hok : bytes_ok (xor_header mask HP_LONG_MASK (1 + zlen mid) 4 l)) by (apply xor_header_ok; [done | unfold HP_LONG_MASK; lia | done]).
  exists (drop (1 + length mid) (xor_header mask HP_LONG_MASK (1 + zlen mid) 4 l)).
  assert (Hlen : length l = (1 + length mid + 4)%nat) by (unfold l; cbn [length]; rewrite length_app; lia).
  split; [|split; [rewrite length_drop, xor_header_length; lia | by apply bytes_ok_drop]].
  rewrite <- (take_drop (1 + length mid) (xor_header mask HP_LONG_MASK (1 + zlen mid) 4 l)) at 1. rewrite app_comm_cons. f_equal.
  apply list_eq. intros i. destruct (decide (i < 1 + length mid)%nat) as [Hi|Hi].
  2: { rewrite lookup_take_ge by lia. symmetry. apply lookup_ge_None. cbn [length]. lia. }
  rewrite lookup_take_lt by lia. unfold xor_header. rewrite list_lookup_imap. unfold l. destruct i as [|i]; [reflexivity|]. rewrite !lookup_cons.
  rewrite lookup_app_l by lia. destruct (lookup_lt_is_Some_2 mid i ltac:(lia)) as [x Ex]. rewrite Ex. cbn [fmap option_fmap option_map]. f_equal. unfold mask_at.
  destruct (Z.eqb_spec (Z.of_nat (S i)) 0); [lia|]. unfold zlen. destruct (Z.leb_spec (1 + Z.of_nat (length mid)) (Z.of_nat (S i))); [lia|]. cbn [andb]. by rewrite Z.lxor_0_r.
Qed.

(** What is between the first byte and the packet number. *)
Definition wire_mid (h : lhdr_desc) : list Z :=
  be_bytes 4 (ld_version h) ++ (zlen (ld_dcid h) :: ld_dcid h) ++ (zlen (ld_scid h) :: ld_scid h) ++
  (if ld_is_initial h then varint_bytes (zlen (ld_token h)) ++ ld_token h else []) ++ varint_bytes (ld_length h).

Lemma wire_split h l : lhdr_wire h = Some l ->
  cids_ok h = true /\ l = lhdr_byte0_pnlen (ld_byte0 h) (ld_pn_len h) :: wire_mid h ++ be_bytes (Z.to_nat (ld_pn_len h)) (ld_pn h).
Proof.
  unfold lhdr_wire. destruct (cids_ok h); [|done]. intros E. apply (inj Some) in E as <-. split; [done|].
  unfold lhdr_prefix, lhdr_body, long_prefix_wire, wire_mid. cbn [app]. f_equal. rewrite <- !app_assoc. cbn [app]. rewrite <- !app_assoc. cbn [app]. rewrite <- !app_assoc. reflexivity.
Qed.

Lemma wire_mid_ok h : ld_ok h -> cids_ok h = true -> bytes_ok (wire_mid h).
Proof.
  intros (_ & _ & _ & _ & _ & Hd & Hs & Ht) Hc. apply andb_true_iff in Hc as [Hc1 Hc2]. unfold WIRED_MAX_CID_LEN in *.
  pose proof (zlen_nonneg (ld_dcid h)). pose proof (zlen_nonneg (ld_scid h)).
  unfold wire_mid. apply bytes_ok_app. split; [apply be_bytes_ok|]. apply bytes_ok_app. split; [apply bytes_ok_cons; split; [unfold is_u8; lia | done]|].
  apply bytes_ok_app. split; [apply bytes_ok_cons; split; [unfold is_u8; lia | done]|]. apply bytes_ok_app. split; [|apply varint_bytes_ok].
  destruct (ld_is_initial h); [apply bytes_ok_app; split; [apply varint_bytes_ok | done] | constructor].
Qed.

(** A header that reads as another one does, its number and the number's length
    apart. *)
Definition reads_alike (h h' : lhdr_desc) : Prop :=
  ld_ok h' /\ packet_is_long (ld_byte0 h') = true /\ (forall v, packet_long_type (ld_byte0 h') v = packet_long_type (ld_byte0 h) v) /\
  ld_version h' = ld_version h /\ ld_dcid h' = ld_dcid h /\ ld_scid h' = ld_scid h /\ ld_is_initial h' = ld_is_initial h /\ ld_token h' = ld_token h /\
  ld_length h' = ld_length h /\ ld_payload_len h' = ld_payload_len h + 4 - ld_pn_len h'.

(** A masked header is such a header, and the bytes its number no longer has. *)
Lemma masked_wire h l mask : ld_ok h -> packet_is_long (ld_byte0 h) = true -> ld_pn_len h = 4 -> ld_payload_len h <= 1500 -> lhdr_wire h = Some l -> bytes_ok mask ->
  exists h' l' tl, xor_header mask HP_LONG_MASK (zlen l - 4) 4 l = l' ++ tl /\ reads_alike h h' /\ lhdr_wire h' = Some l' /\ zlen l' - ld_pn_len h' = zlen l - 4 /\
    zlen tl = 4 - ld_pn_len h' /\ bytes_ok tl.
Proof.
  intros Hok Hlong Hn Hpay Hl Hm. destruct (wire_split h l Hl) as [Hc El]. rewrite Hn in El. change (Z.to_nat 4) with 4%nat in El.
  pose proof Hok as (Hb & Hv & Ht & _ & Hpl & Hd & Hsc & Htok). destruct (lhdr_byte0_facts (ld_byte0 h) 4 Hb ltac:(lia)) as (Hb4 & Hlong4 & Hbits4 & _). cbv zeta in Hb4, Hlong4, Hbits4.
  set (b := lhdr_byte0_pnlen (ld_byte0 h) 4) in *.
  assert (Eo : zlen l - 4 = 1 + zlen (wire_mid h)) by (rewrite El, zlen_cons, zlen_app, zlen_be_bytes; lia).
  destruct (masked_header mask b (wire_mid h) (be_bytes 4 (ld_pn h)) (zlen l - 4) Hm Eo ltac:(apply length_be_bytes) Hb4 ltac:(by apply wire_mid_ok) ltac:(apply be_bytes_ok)) as (pnb & E & Lpn & Bpn).
  rewrite <- El in E. rewrite E. clear E. destruct (masked_first b (at_ mask 0) Hb4) as (Hb' & Hlong' & Hbits' & Epn). cbv zeta in Hb', Hlong', Hbits', Epn.
  set (b' := Z.lxor b (Z.land (at_ mask 0) HP_LONG_MASK)) in *. pose proof (pn_len_range b') as Hn'. set (n := pn_len_of b') in *.
  pose (h' := mk_ld b' (ld_version h) (ld_dcid h) (ld_scid h) (ld_is_initial h) (ld_token h) (ld_payload_len h + 4 - n) (be_val (take (Z.to_nat n) pnb)) n).
  assert (Hle : ld_length h' = ld_length h) by (unfold ld_length, h'; cbn [ld_pn_len ld_payload_len]; lia).
  assert (Hmid : wire_mid h' = wire_mid h) by (unfold wire_mid; rewrite Hle; reflexivity).
  assert (Hpnb : be_bytes (Z.to_nat n) (be_val (take (Z.to_nat n) pnb)) = take (Z.to_nat n) pnb).
  { rewrite <- (be_bytes_val (take (Z.to_nat n) pnb)) at 2 by (by apply bytes_ok_take). f_equal. rewrite length_take. lia. }
  assert (Hl' : lhdr_wire h' = Some (b' :: wire_mid h ++ take (Z.to_nat n) pnb)).
  { unfold lhdr_wire. change (cids_ok h') with (cids_ok h). rewrite Hc. f_equal. rewrite <- Hmid.
    destruct (wire_split h' (lhdr_prefix h' ++ lhdr_body h')) as [_ ->]; [unfold lhdr_wire; change (cids_ok h') with (cids_ok h); by rewrite Hc|].
    unfold h' at 1 2 4 5. cbn [ld_byte0 ld_pn_len ld_pn]. by rewrite Epn, Hpnb. }
  exists h', (b' :: wire_mid h ++ take (Z.to_nat n) pnb), (drop (Z.to_nat n) pnb). split; [cbn [app]; f_equal; by rewrite <- app_assoc, take_drop|]. split.
  { unfold reads_alike, h'. cbn [ld_byte0 ld_version ld_dcid ld_scid ld_is_initial ld_token ld_payload_len ld_pn_len]. fold h'. split.
    - unfold ld_ok, h'. cbn [ld_byte0 ld_version ld_token ld_pn_len ld_payload_len ld_dcid ld_scid ld_pn]. split_and!; try done; lia.
    - split; [congruence|]. split; [|split_and!; (reflexivity || exact Hle || lia)]. intros v. unfold packet_long_type. by rewrite Hlong', Hlong4, Hbits', Hbits4. }
  split; [exact Hl'|]. split; [|split; [|by apply bytes_ok_drop]].
  - unfold h'. cbn [ld_pn_len]. rewrite Eo. rewrite zlen_cons, zlen_app. unfold zlen at 2. rewrite length_take. lia.
  - unfold h'. cbn [ld_pn_len]. unfold zlen. rewrite length_drop. lia.
Qed.

Lemma masked_parse h l mask more : ld_ok h -> packet_is_long (ld_byte0 h) = true -> ld_pn_len h = 4 -> ld_payload_len h <= 1500 -> lhdr_wire h = Some l -> bytes_ok mask ->
  zlen (l ++ more) < span_max -> exists tok,
  lhdr_parse (xor_header mask HP_LONG_MASK (zlen l - 4) 4 l ++ more) (ld_is_initial h) = Ok (mk_lhdr (ld_dcid h) (ld_scid h) tok (ld_length h) (zlen l - 4)).
Proof.
  intros Hok Hlong Hn Hpay Hl Hm Hs.
  destruct (masked_wire h l mask Hok Hlong Hn Hpay Hl Hm) as (h' & l' & tl & E & (Hok' & Hlong' & _ & _ & Ed & Es & Ei & _ & Ele & _) & Hl' & Ez & Et & _).
  rewrite E, <- app_assoc, <- Ei. rewrite (lhdr_parse_wire h' l' (tl ++ more) Hok' Hlong' Hl').
  - rewrite Ed, Es, Ele, Ez. by eexists.
  - rewrite !zlen_app in *. lia.
Qed.

(** The receiver can recover the number from four bytes. *)
Definition pn_recoverable (largest pn : Z) : Prop :=
  is_u64 largest /\ u64 (largest + 1) < span_max /\ 0 <= pn < span_max /\ u64 (largest + 1) - 2147483648 < pn <= u64 (largest + 1) + 2147483648.

Lemma recover_4 largest pn : pn_recoverable largest pn -> pnum_decode (be_bytes 4 pn) 4 largest = Some pn.
Proof.
  intros (Hl & He & Hp & Hr). rewrite <- (app_nil_r (be_bytes 4 pn)). change 4%nat with (Z.to_nat 4).
  apply (pnum_decode_nearest 4); try assumption. lia.
Qed.

Section long_packets.
Context (M : cpu) (HM : cpu_ok M) (cached : Z).
Context (k : protect_keys) (Hk : keys_ok (pk_keys k)).
Context (h : lhdr_desc) (Hok : ld_ok h) (Hlong : packet_is_long (ld_byte0 h) = true) (H4 : ld_pn_len h = 4).
Context (l : list Z) (Hl : lhdr_wire h = Some l).
Context (payload : list Z) (Hp : bytes_ok payload) (Lp : ld_payload_len h = zlen payload).
Context (largest : Z) (Hpn : pn_recoverable largest (ld_pn h)).
Context (rest : list Z) (Hrest : bytes_ok rest) (Hsize : zlen l + zlen payload + 16 + zlen rest <= 1500).

Lemma long_header : bytes_ok l /\ 1 <= zlen l - 4 /\ hdr_ok l (zlen l - 4) 4 largest (ld_pn h).
Proof.
  destruct (wire_split h l Hl) as [Hc E]. rewrite H4 in E. change (Z.to_nat 4) with 4%nat in E. pose proof Hok as (Hb & _).
  destruct (lhdr_byte0_facts (ld_byte0 h) 4 Hb ltac:(lia)) as (Hb4 & _ & _ & En). cbv zeta in Hb4, En.
  pose proof (wire_mid_ok h Hok Hc) as Hm. pose proof (zlen_nonneg (wire_mid h)) as Hz.
  assert (Hlok : bytes_ok l) by (rewrite E; apply bytes_ok_cons; split; [exact Hb4 | apply bytes_ok_app; split; [exact Hm | apply be_bytes_ok]]).
  assert (Lo : zlen l - 4 = 1 + zlen (wire_mid h)) by (rewrite E, zlen_cons, zlen_app, zlen_be_bytes; lia).
  split; [exact Hlok|]. split; [lia|]. split; [exact Hlok|]. split; [lia|]. split; [rewrite E; symmetry; exact En|].
  assert (Ed : drop (Z.to_nat (zlen l - 4)) l = be_bytes 4 (ld_pn h)).
  { rewrite Lo. rewrite E, app_comm_cons. apply drop_app_length'. unfold zlen in *. cbn [length]. lia. }
  rewrite Ed. by apply recover_4.
Qed.

Section one.
Context (suite : Z) `{HS : !Suite M cached suite}.
Definition packet : list Z := on_wire k suite HP_LONG_MASK (zlen l - 4) (ld_pn h) l payload.

Lemma packet_length : zlen packet = zlen l + zlen payload + 16.
Proof. destruct long_header as (Hlb & Ho & _). pose proof (zlen_nonneg rest). apply (on_wire_length M cached k Hk suite); try assumption; lia. Qed.

Lemma packet_bytes : bytes_ok packet.
Proof.
  destruct long_header as (Hlb & Ho & _). pose proof (zlen_nonneg rest).
  destruct (in_clear_ok M cached k Hk suite (zlen l - 4) (ld_pn h) l payload Ho Hlb ltac:(lia) Hp ltac:(lia)) as [Hc Lc].
  unfold packet, on_wire, rfc_protect. apply xor_header_ok; [|unfold HP_LONG_MASK; lia | exact Hc].
  apply (suite_masks (suite := suite) (M := M) (cached := cached) (pk_keys k)); [exact Hk|..]; apply (sample_16 (zlen l - 4) Ho _ Hc); pose proof (zlen_nonneg payload); lia.
Qed.

Lemma packet_parsed : exists tok, lhdr_parse (packet ++ rest) (ld_is_initial h) = Ok (mk_lhdr (ld_dcid h) (ld_scid h) tok (20 + zlen payload) (zlen l - 4)).
Proof.
  destruct long_header as (Hlb & Ho & _). pose proof (zlen_nonneg rest). pose proof (zlen_nonneg payload).
  destruct (in_clear_ok M cached k Hk suite (zlen l - 4) (ld_pn h) l payload Ho Hlb ltac:(lia) Hp ltac:(lia)) as [Hc Lc].
  assert (Hmask : bytes_ok (rfc_mask suite (ik_hp (pk_keys k)) (sample_of (in_clear k suite (ld_pn h) l payload) (zlen l - 4)))).
  { apply (suite_masks (suite := suite) (M := M) (cached := cached) (pk_keys k)); [exact Hk|..]; apply (sample_16 (zlen l - 4) Ho _ Hc); lia. }
  unfold packet, on_wire, rfc_protect. fold (in_clear k suite (ld_pn h) l payload). unfold in_clear at 2. rewrite xor_header_app, <- app_assoc by lia.
  edestruct (masked_parse h l _ (rfc_seal suite (ik_key (pk_keys k)) (rfc_nonce (ik_iv (pk_keys k)) (ld_pn h)) l payload ++ rest) Hok Hlong H4 ltac:(lia) Hl Hmask) as [tok E].
  - unfold in_clear in Lc. rewrite zlen_app in Lc. rewrite !zlen_app. unfold span_max. lia.
  - exists tok. rewrite E. do 2 f_equal. unfold ld_length. lia.
Qed.

Lemma packet_protected : protected_in k suite HP_LONG_MASK (packet ++ rest) (zlen l - 4) largest (zlen l - 4 + (20 + zlen payload)) payload.
Proof.
  destruct long_header as (Hlb & Ho & Hh). split; [exact Hp|]. exists l, 4, (ld_pn h). split; [exact Hh|].
  pose proof packet_length as L. rewrite take_app_length' by (unfold zlen in *; lia). reflexivity.
Qed.

Lemma packet_opens_suite : payload <> [] -> exists x, lhdr_parse (packet ++ rest) (ld_is_initial h) = Ok x /\
  delivers (vpn_open_suite M cached suite k (mk_vpn (packet ++ rest) (l_pn_off x) (l_length x) largest)) payload.
Proof.
  intros Hne. destruct packet_parsed as [tok E]. eexists. split; [exact E|]. cbn [l_pn_off l_length]. destruct long_header as (Hlb & Ho & Hh).
  pose proof packet_length as L. pose proof (zlen_nonneg payload). pose proof (zlen_nonneg rest).
  assert (Lz : zlen (packet ++ rest) = zlen l + zlen payload + 16 + zlen rest) by (rewrite zlen_app; lia).
  destruct (vpn_open_suite_spec M cached k Hk suite (packet ++ rest) (zlen l - 4) (20 + zlen payload) largest) as (x & v & Ev & D).
  { apply bytes_ok_app. split; [apply packet_bytes | exact Hrest]. } { lia. } { lia. } { unfold is_u64. lia. }
  rewrite Ev. apply D. split; [lia|]. split; [lia|]. split; [exact Hne | apply packet_protected].
Qed.
End one.

(** A packet is a long packet of a datagram, masked as it is. *)
Lemma packet_on_datagram suite `{HS : !Suite M cached suite} : bool_decide (packet_long_type (ld_byte0 h) (ld_version h) = LT_INITIAL) = ld_is_initial h ->
  exists h' l' body, reads_alike h h' /\ lhdr_wire h' = Some l' /\ packet suite = l' ++ body /\ long_packet h' body (packet suite).
Proof.
  intros Hini. destruct long_header as (Hlb & Ho & _). pose proof (zlen_nonneg rest). pose proof (zlen_nonneg payload).
  destruct (in_clear_ok M cached k Hk suite (zlen l - 4) (ld_pn h) l payload Ho Hlb ltac:(lia) Hp ltac:(lia)) as [Hc Lc].
  assert (Hmask : bytes_ok (rfc_mask suite (ik_hp (pk_keys k)) (sample_of (in_clear k suite (ld_pn h) l payload) (zlen l - 4)))).
  { apply (suite_masks (suite := suite) (M := M) (cached := cached) (pk_keys k)); [exact Hk|..]; apply (sample_16 (zlen l - 4) Ho _ Hc); lia. }
  destruct (masked_wire h l _ Hok Hlong H4 ltac:(lia) Hl Hmask) as (h' & l' & tl & E & Hr & Hl' & Ez & Et & _).
  exists h', l', (tl ++ rfc_seal suite (ik_key (pk_keys k)) (rfc_nonce (ik_iv (pk_keys k)) (ld_pn h)) l payload).
  assert (Ep : packet suite = l' ++ tl ++ rfc_seal suite (ik_key (pk_keys k)) (rfc_nonce (ik_iv (pk_keys k)) (ld_pn h)) l payload).
  { unfold packet, on_wire, rfc_protect. fold (in_clear k suite (ld_pn h) l payload). unfold in_clear at 2. rewrite xor_header_app, E, <- app_assoc by lia. reflexivity. }
  split; [exact Hr|]. split; [exact Hl'|]. split; [exact Ep|]. destruct Hr as (Hok' & Hlong' & Hty & Ev & _ & _ & Ei & _ & _ & Epl).
  split; [exact Hok'|]. split; [exact Hlong'|]. split; [rewrite Hty, Ev, Ei; exact Hini|]. split; [|exists l'; split; [exact Hl' | exact Ep]].
  unfold in_clear in Lc. rewrite zlen_app in Lc. rewrite zlen_app. lia.
Qed.

(** What the direct opening makes of it: the payload's view, and the header in
    clear before it. *)
Definition opened_as (r : option (list Z * option view)) (hdr : list Z) (n : Z) (p : list Z) : Prop :=
  exists x o m, r = Some (x, Some (o, m)) /\ mem_sub x o m = Some p /\ bytes_ok x /\ zlen x = n /\ exists x', x = hdr ++ x'.

Lemma opened_as_delivers r hdr n p : opened_as r hdr n p -> delivers r p.
Proof. intros (x & o & m & E & S & _). exists x, o, m. split; assumption. Qed.

Lemma packet_opens_direct : pk_hp k = aes128_init (ik_hp (pk_keys k)) -> exists x, lhdr_parse (packet TLS_AES_128_GCM_SHA256 ++ rest) (ld_is_initial h) = Ok x /\
  opened_as (vpn_open M cached k (mk_vpn (packet TLS_AES_128_GCM_SHA256 ++ rest) (l_pn_off x) (l_length x) largest)) l (zlen (packet TLS_AES_128_GCM_SHA256 ++ rest)) payload.
Proof.
  intros Hhp. pose proof (suite_aes128 M HM cached) as HS. destruct (packet_parsed TLS_AES_128_GCM_SHA256) as [tok E]. eexists. split; [exact E|]. cbn [l_pn_off l_length]. destruct long_header as (Hlb & Ho & Hh).
  pose proof (packet_length TLS_AES_128_GCM_SHA256) as L. pose proof (zlen_nonneg payload). pose proof (zlen_nonneg rest).
  assert (Lz : zlen (packet TLS_AES_128_GCM_SHA256 ++ rest) = zlen l + zlen payload + 16 + zlen rest) by (rewrite zlen_app; lia).
  assert (Hb : bytes_ok (packet TLS_AES_128_GCM_SHA256 ++ rest)) by (apply bytes_ok_app; split; [apply (packet_bytes TLS_AES_128_GCM_SHA256) | exact Hrest]).
  destruct (vpn_open_spec M HM cached k Hk Hhp (packet TLS_AES_128_GCM_SHA256 ++ rest) (zlen l - 4) (20 + zlen payload) largest Hb) as (x & v & Ev & D & Hx).
  { lia. } { lia. } { unfold is_u64. lia. }
  assert (Hd : delivers (Some (x, v)) payload) by (apply D; split; [lia|]; split; [lia | apply (packet_protected TLS_AES_128_GCM_SHA256)]).
  destruct Hd as (x1 & a & m & [= <- ->] & Hsub). destruct Hx as (Bx & Lx & Hcl). destruct (Hcl a m eq_refl) as (_ & _ & _ & Ht).
  exists x, a, m. split; [exact Ev|]. split; [exact Hsub|]. split; [exact Bx|]. split; [exact Lx|].
  assert (Eh : l = p_hdr TLS_AES_128_GCM_SHA256 (pk_keys k) HP_LONG_MASK (zlen l - 4) (packet TLS_AES_128_GCM_SHA256 ++ rest)).
  { apply (region_header M cached TLS_AES_128_GCM_SHA256 (pk_keys k) Hk HP_LONG_MASK (zlen l - 4) largest bits_long Ho (packet TLS_AES_128_GCM_SHA256 ++ rest) (zlen l + zlen payload + 16) Hb ltac:(lia) l 4 (ld_pn h) payload Hh).
    rewrite take_app_length' by (unfold zlen in *; lia). reflexivity. }
  rewrite <- Eh in Ht. exists (drop (length l) x). rewrite <- Ht at 1. rewrite <- (take_drop (length l) x) at 1. f_equal. rewrite Ht at 1.
  pose proof (f_equal length Ht) as Hlen. rewrite length_take in Hlen. rewrite <- Ht at 2. f_equal. unfold zlen in *. lia.
Qed.
End long_packets.

(** ** The builders *)

Definition tx_lhdr (d : tx_desc) : lhdr_desc :=
  mk_ld (td_byte0 d) (tx_version_or_v1 (td_version d)) (td_dcid d) (td_scid d) (td_is_initial d) (td_token d) (zlen (td_frames d)) (td_pn d) TX_PN_LEN.

(** Without a token a long header has at most 67 bytes. *)
Lemma wire_short h l : lhdr_wire h = Some l -> ld_pn_len h = 4 -> ld_token h = [] -> zlen l <= 67.
Proof.
  intros Hl H4 Ht. destruct (wire_split h l Hl) as [Hc E]. rewrite H4 in E. apply andb_true_iff in Hc as [H1 H2]. unfold WIRED_MAX_CID_LEN in *.
  rewrite E, zlen_cons, zlen_app, zlen_be_bytes. unfold wire_mid. rewrite Ht, !zlen_app, !zlen_cons, zlen_be_bytes. pose proof (varint_bytes_pos (ld_length h)).
  pose proof (varint_bytes_pos (zlen (@nil Z))). destruct (ld_is_initial h); rewrite ?zlen_app, ?zlen_nil in *; lia.
Qed.

Lemma tx_header d out : is_u8 (td_byte0 d) -> is_u32 (td_version d) -> bytes_ok (td_dcid d) -> bytes_ok (td_scid d) -> zlen (td_dcid d) <= 20 -> zlen (td_scid d) <= 20 ->
  td_token d = [] -> zlen (td_frames d) <= 1500 ->
  ld_ok (tx_lhdr d) /\ exists l, lhdr_wire (tx_lhdr d) = Some l /\ zlen l <= 67 /\ tx_build_hdr d out = Some (Some (mk_sio l (zlen l - 4) 4 (td_pn d) (td_frames d) out)).
Proof.
  intros Hb Hv Hd Hs Ld Ls Ht Lf. pose proof (zlen_nonneg (td_frames d)).
  assert (Hok : ld_ok (tx_lhdr d)).
  { unfold ld_ok, tx_lhdr, TX_PN_LEN. cbn [ld_byte0 ld_version ld_token ld_pn_len ld_payload_len ld_dcid ld_scid]. rewrite Ht. split_and!; try done; try lia; [|constructor].
    unfold tx_version_or_v1, is_u32, VERSION_1 in *. bcase; lia. }
  assert (Hc : cids_ok (tx_lhdr d) = true) by (unfold cids_ok, tx_lhdr, WIRED_MAX_CID_LEN; cbn [ld_dcid ld_scid]; lia).
  split; [exact Hok|]. destruct (lhdr_build_spec (tx_lhdr d) (replicate TX_HDR_CAP 0) Hok ltac:(unfold zlen; rewrite length_replicate; unfold TX_HDR_CAP, span_max; lia)) as [(l & Hl & Hfit & E)|(Hno & _)].
  2: { exfalso. assert (Hl : lhdr_wire (tx_lhdr d) = Some (lhdr_prefix (tx_lhdr d) ++ lhdr_body (tx_lhdr d))) by (unfold lhdr_wire; by rewrite Hc).
       pose proof (Hno _ Hl) as H1. pose proof (wire_short _ _ Hl eq_refl Ht) as H2. unfold zlen in H1 at 1. rewrite length_replicate in H1. unfold TX_HDR_CAP in H1. lia. }
  pose proof (wire_short _ l Hl eq_refl Ht) as L67. exists l. split; [exact Hl|]. split; [exact L67|]. unfold tx_build_hdr. fold (tx_lhdr d). rewrite E. osimpl.
  destruct (wire_split _ l Hl) as [_ El]. assert (Lpos : 5 <= zlen l).
  { rewrite El, zlen_cons, zlen_app, zlen_be_bytes. cbn [ld_pn_len tx_lhdr]. unfold TX_PN_LEN. pose proof (zlen_nonneg (wire_mid (tx_lhdr d))). lia. }
  destruct (Z.eqb_spec (zlen l) 0); [lia|]. unfold TX_PN_LEN. rewrite u64_small by lia. rewrite splice_start. unfold zlen at 1. rewrite Nat2Z.id, take_app_length. reflexivity.
Qed.

Lemma hspkt_first v : is_u8 (hspkt_byte0 v) /\ packet_is_long (hspkt_byte0 v) = true.
Proof. unfold hspkt_byte0. destruct (v =? VERSION_2); vm_compute; repeat split; discriminate. Qed.

Definition hs_ok (d : hspkt_desc) : Prop :=
  is_u32 (hd_version d) /\ bytes_ok (hd_dcid d) /\ bytes_ok (hd_scid d) /\ zlen (hd_dcid d) <= 20 /\ zlen (hd_scid d) <= 20 /\ bytes_ok (hd_payload d) /\ zlen (hd_payload d) <= 1400.

(** A building that writes [w] when it fits, and an opening that gives the
    payload back, whatever follows [w] in the datagram. *)
Definition round_trip (out : list Z) (build : option (option Z * list Z)) (payload : list Z) (most : Z) (opens : list Z -> option (list Z * option view)) : Prop :=
  exists w o', bytes_ok w /\ build = Some (if zlen out <? zlen w then (None, o') else (Some (zlen w), splice out 0 w)) /\
    forall rest, bytes_ok rest -> zlen rest <= most -> zlen (w ++ rest) <= 1500 -> delivers (opens (w ++ rest)) payload.

Lemma nil_fits (l p : list Z) : zlen l + zlen p + 16 <= 1500 -> zlen l + zlen p + 16 + zlen (@nil Z) <= 1500.
Proof. rewrite zlen_nil. lia. Qed.

Section handshake.
Context (M : cpu) (HM : cpu_ok M) (cached : Z).
Context (k : protect_keys) (Hk : keys_ok (pk_keys k)).
Context (d : hspkt_desc) (Hd : hs_ok d) (largest : Z) (Hpn : pn_recoverable largest (hd_pn d)) (out : list Z) (Hout : zlen out < span_max).

Lemma hs_header : ld_ok (tx_lhdr (hspkt_tx_desc d)) /\ exists l, lhdr_wire (tx_lhdr (hspkt_tx_desc d)) = Some l /\ zlen l <= 67 /\
  tx_build_hdr (hspkt_tx_desc d) out = Some (Some (mk_sio l (zlen l - 4) 4 (hd_pn d) (hd_payload d) out)).
Proof. destruct Hd as (Hv & Hdc & Hsc & Ld & Ls & Hp & Lp). apply tx_header; try assumption; [apply hspkt_first | reflexivity | cbn; lia]. Qed.

Lemma built_packet (w : list Z) n : 0 < n -> zlen w = n ->
  (if zlen out <? n then Some (built (0, out)) else Some (built (n, splice out 0 w))) = Some (if zlen out <? zlen w then (None, out) else (Some (zlen w), splice out 0 w)).
Proof. intros Hn ->. unfold built. cbn [fst snd]. destruct (zlen out <? n); [reflexivity|]. destruct (Z.eqb_spec n 0); [lia | reflexivity]. Qed.

Lemma handshake_suite suite `{HS : !Suite M cached suite} : hd_payload d <> [] ->
  round_trip out (hspkt_build_suite M cached suite k d out) (hd_payload d) 1500 (fun pkt => hspkt_open_suite M cached suite k pkt largest).
Proof.
  intros Hne. destruct hs_header as (Hok & l & Hl & L67 & Eb). destruct Hd as (_ & _ & _ & _ & _ & Hp & Lp). pose proof (zlen_nonneg (hd_payload d)).
  destruct (hspkt_first (hd_version d)) as [_ Hlong].
  assert (Hfits : zlen l + zlen (hd_payload d) + 16 + zlen (@nil Z) <= 1500) by (apply nil_fits; lia).
  assert (Hh : bytes_ok l /\ 1 <= zlen l - 4 /\ hdr_ok l (zlen l - 4) 4 largest (hd_pn d)) by (exact (long_header (tx_lhdr (hspkt_tx_desc d)) Hok eq_refl l Hl (hd_payload d) largest Hpn [])).
  destruct Hh as (Hlb & Ho & _). pose proof (packet_length M cached k Hk (tx_lhdr (hspkt_tx_desc d)) Hok eq_refl l Hl (hd_payload d) Hp largest Hpn [] Hfits suite) as Lw.
  exists (packet k (tx_lhdr (hspkt_tx_desc d)) l (hd_payload d) suite), out.
  split; [exact (packet_bytes M cached k Hk (tx_lhdr (hspkt_tx_desc d)) Hok eq_refl l Hl (hd_payload d) Hp largest Hpn [] Hfits suite)|]. split.
  - unfold hspkt_build_suite, tx_packet_suite. rewrite Eb. osimpl. rewrite (protect_seal_suite_spec M cached k Hk _ _ _ _ Ho Hlb ltac:(lia) Hp ltac:(lia) suite out Hout).
    rewrite <- (built_packet _ (zlen l + zlen (hd_payload d) + 16) ltac:(lia) Lw). destruct (_ <? _); reflexivity.
  - intros rest Hr _ Lr. rewrite zlen_app in Lr. unfold hspkt_open_suite.
    destruct (packet_opens_suite M cached k Hk (tx_lhdr (hspkt_tx_desc d)) Hok Hlong eq_refl l Hl (hd_payload d) Hp eq_refl largest Hpn rest Hr ltac:(lia) suite Hne) as (x & E & D).
    change (ld_is_initial (tx_lhdr (hspkt_tx_desc d))) with false in E. rewrite E. exact D.
Qed.

Lemma handshake_direct : pk_hp k = aes128_init (ik_hp (pk_keys k)) ->
  round_trip out (hspkt_build M cached k d out) (hd_payload d) 1500 (fun pkt => hspkt_open M cached k pkt largest).
Proof.
  intros Hhp. pose proof (suite_aes128 M HM cached) as HS. destruct hs_header as (Hok & l & Hl & L67 & Eb). destruct Hd as (_ & _ & _ & _ & _ & Hp & Lp). pose proof (zlen_nonneg (hd_payload d)).
  destruct (hspkt_first (hd_version d)) as [_ Hlong].
  assert (Hfits : zlen l + zlen (hd_payload d) + 16 + zlen (@nil Z) <= 1500) by (apply nil_fits; lia).
  assert (Hh : bytes_ok l /\ 1 <= zlen l - 4 /\ hdr_ok l (zlen l - 4) 4 largest (hd_pn d)) by (exact (long_header (tx_lhdr (hspkt_tx_desc d)) Hok eq_refl l Hl (hd_payload d) largest Hpn [])).
  destruct Hh as (Hlb & Ho & _). pose proof (packet_length M cached k Hk (tx_lhdr (hspkt_tx_desc d)) Hok eq_refl l Hl (hd_payload d) Hp largest Hpn [] Hfits TLS_AES_128_GCM_SHA256) as Lw.
  exists (packet k (tx_lhdr (hspkt_tx_desc d)) l (hd_payload d) TLS_AES_128_GCM_SHA256), out.
  split; [exact (packet_bytes M cached k Hk (tx_lhdr (hspkt_tx_desc d)) Hok eq_refl l Hl (hd_payload d) Hp largest Hpn [] Hfits TLS_AES_128_GCM_SHA256)|]. split.
  - unfold hspkt_build, tx_packet. rewrite Eb. osimpl. rewrite (protect_seal_spec M HM cached k Hk _ _ _ _ Ho Hlb ltac:(lia) Hp ltac:(lia) Hhp out Hout).
    rewrite <- (built_packet _ (zlen l + zlen (hd_payload d) + 16) ltac:(lia) Lw). destruct (_ <? _); reflexivity.
  - intros rest Hr _ Lr. rewrite zlen_app in Lr. unfold hspkt_open.
    destruct (packet_opens_direct M HM cached k Hk (tx_lhdr (hspkt_tx_desc d)) Hok Hlong eq_refl l Hl (hd_payload d) Hp eq_refl largest Hpn rest Hr ltac:(lia) Hhp) as (x & E & D).
    change (ld_is_initial (tx_lhdr (hspkt_tx_desc d))) with false in E. rewrite E. exact (opened_as_delivers _ _ _ _ D).
Qed.
End handshake.

(** ** 1-RTT packets *)

Definition one_ok (d : hspkt_onertt_desc) : Prop := bytes_ok (od_dcid d) /\ zlen (od_dcid d) <= 20 /\ bytes_ok (od_payload d) /\ zlen (od_payload d) <= 1400 /\ od_payload d <> [].

Definition short_wire (d : hspkt_onertt_desc) : list Z := onertt_byte0 d :: od_dcid d ++ be_bytes 4 (od_pn d).

Lemma onertt_first d : is_u8 (onertt_byte0 d) /\ pn_len_of (onertt_byte0 d) = 4.
Proof.
  unfold onertt_byte0, greasebit_apply, spin_set, keyphase_set. rewrite land_1. pose proof (Z.mod_pos_bound (od_phase_bit d) 2 ltac:(lia)) as Hb.
  set (x := od_phase_bit d mod 2) in *. assert (x = 0 \/ x = 1) as [-> | ->] by lia; destruct (od_spin d =? 0), (od_clear_quic_bit d =? 0); vm_compute; repeat split; discriminate.
Qed.

Lemma pn_bytes pn : map (fun i => u8 (Z.shiftr pn (8 * (3 - Z.of_nat i)))) (seq 0 4) = be_bytes 4 pn.
Proof. cbn [seq map]. unfold u8. rewrite !Z.shiftr_div_pow2 by lia. change (be_bytes 4 pn) with (rev (rev (be_bytes 4 pn))). rewrite <- le_bytes_be. reflexivity. Qed.

Lemma short_header_built out d : bytes_ok (od_dcid d) -> 5 + zlen (od_dcid d) <= zlen out ->
  build_short_header out d = Some (5 + zlen (od_dcid d), splice out 0 (short_wire d)).
Proof.
  intros Hd Hl. pose proof (zlen_nonneg (od_dcid d)). unfold build_short_header. rewrite store_in by lia. osimpl.
  rewrite copy_spec by (rewrite ?zlen_insert; unfold zlen in *; lia). osimpl. change (drop (Z.to_nat 0) (od_dcid d)) with (od_dcid d). rewrite take_ge by lia. rewrite pn_bytes.
  change 1 with (0 + 1) at 2. rewrite splice_cons_store by lia. rewrite mem_put_in by (rewrite ?zlen_splice, ?zlen_be_bytes; rewrite ?zlen_cons; lia). osimpl.
  replace (0 + 1 + zlen (od_dcid d)) with (0 + zlen (onertt_byte0 d :: od_dcid d)) by (rewrite zlen_cons; lia). rewrite splice_app by (rewrite ?zlen_cons; lia). reflexivity.
Qed.

Section onertt.
Context (M : cpu) (HM : cpu_ok M) (cached : Z).
Context (k : protect_keys) (Hk : keys_ok (pk_keys k)).
Context (d : hspkt_onertt_desc) (Hd : one_ok d) (largest : Z) (Hpn : pn_recoverable largest (od_pn d)).
Context (out : list Z) (Hout : 5 + zlen (od_dcid d) <= zlen out < span_max).
Notation o := (1 + zlen (od_dcid d)).

Lemma short_wire_ok : bytes_ok (short_wire d) /\ zlen (short_wire d) = o + 4 /\ hdr_ok (short_wire d) o 4 largest (od_pn d).
Proof.
  destruct Hd as (Hdc & _). destruct (onertt_first d) as [Hb Hn].
  assert (H : bytes_ok (short_wire d)) by (apply bytes_ok_cons; split; [exact Hb | apply bytes_ok_app; split; [exact Hdc | apply be_bytes_ok]]).
  assert (L : zlen (short_wire d) = o + 4) by (unfold short_wire; rewrite zlen_cons, zlen_app, zlen_be_bytes; lia).
  split; [exact H|]. split; [exact L|]. split; [exact H|]. split; [lia|]. split; [symmetry; exact Hn|]. unfold short_wire. rewrite app_comm_cons, drop_app_length' by (unfold zlen; cbn [length]; lia).
  by apply recover_4.
Qed.

Definition short_packet (suite : Z) : list Z := on_wire k suite HP_SHORT_MASK o (od_pn d) (short_wire d) (od_payload d).

(** The packet fills its datagram. *)
Lemma short_spec suite `{HS : !Suite M cached suite} : let w := short_packet suite in
  bytes_ok w /\ zlen w = 5 + zlen (od_dcid d) + zlen (od_payload d) + 16 /\ protected_in k suite HP_SHORT_MASK w o largest (zlen w) (od_payload d).
Proof.
  destruct short_wire_ok as (Hw & Lw & Hh). destruct Hd as (Hdc & Ld & Hp & Lp & _). pose proof (zlen_nonneg (od_dcid d)). pose proof (zlen_nonneg (od_payload d)).
  assert (Ho : 1 <= o) by lia. destruct (in_clear_ok M cached k Hk suite o (od_pn d) (short_wire d) (od_payload d) Ho Hw Lw Hp ltac:(lia)) as [Hc Lc].
  pose proof (on_wire_length M cached k Hk suite HP_SHORT_MASK o (od_pn d) (short_wire d) (od_payload d) Ho Hw Lw Hp ltac:(lia)) as L. cbv zeta. unfold short_packet. split; [|split; [lia|]].
  - apply xor_header_ok; [|unfold HP_SHORT_MASK; lia | exact Hc]. apply (suite_masks (suite := suite) (M := M) (cached := cached) (pk_keys k)); [exact Hk|..]; apply (sample_16 o Ho _ Hc); lia.
  - split; [exact Hp|]. exists (short_wire d), 4, (od_pn d). split; [exact Hh|]. assert (T : forall w : list Z, (length w <= Z.to_nat (zlen w))%nat) by (intros w; unfold zlen; lia). apply take_ge, T.
Qed.

Lemma hp_sample_in suite `{HS : !Suite M cached suite} x : x = in_clear k suite (od_pn d) (short_wire d) (od_payload d) -> zlen x <= zlen out ->
  exists mask, hp_suite_mask suite (ik_hp (pk_keys k)) (sample_of x o) = Some mask /\ mem_sub (splice out 0 x) (u64 (o + 4)) 16 = Some (sample_of x o) /\
    hp_apply mask (mk_hpf (splice out 0 x) o 4 HP_SHORT_MASK) = Some (splice out 0 (short_packet suite)).
Proof.
  intros -> Hfit. destruct short_wire_ok as (Hw & Lw & _). destruct Hd as (Hdc & Ld & Hp & Lp & _). pose proof (zlen_nonneg (od_dcid d)).
  assert (Ho : 1 <= o) by lia. pose proof (mask_of_clear M cached k Hk suite o (od_pn d) (short_wire d) (od_payload d) Ho Hw Lw Hp ltac:(lia)) as Em. eexists. split; [exact Em|].
  destruct (mask_sealed M cached k Hk suite HP_SHORT_MASK o (od_pn d) (short_wire d) (od_payload d) Ho Hw Lw Hp ltac:(lia) out _ Hfit Em) as (_ & E1 & E2). split; [exact E1 | exact E2].
Qed.

Lemma onertt_suite suite `{HS : !Suite M cached suite} : exists o',
  hspkt_onertt_build_suite M cached suite k d out = Some (if zlen out <? zlen (short_packet suite) then (None, o') else (Some (zlen (short_packet suite)), splice out 0 (short_packet suite))) /\
  delivers (hspkt_onertt_open_suite M cached suite k (mk_1rtto (short_packet suite) (zlen (od_dcid d)) largest)) (od_payload d).
Proof.
  destruct short_wire_ok as (Hw & Lw & _). pose proof Hd as (Hdc & Ld & Hp & Lp & Hne). pose proof (zlen_nonneg (od_dcid d)). pose proof (zlen_nonneg (od_payload d)).
  destruct (short_spec suite) as (Wb & Wl & Wp). assert (Ho : 1 <= o) by lia. exists (splice out 0 (short_wire d)). split.
  - unfold hspkt_onertt_build_suite. rewrite short_header_built by (assumption || lia). osimpl. rewrite (suite_tag (M := M) (cached := cached)), u64_small by lia. unfold onertt_seal_suite.
    rewrite Wl. destruct (Z.ltb_spec (zlen out) (5 + zlen (od_dcid d) + zlen (od_payload d) + 16)) as [Hno|Hfit]; [reflexivity|].
    assert (Eh : mem_sub (splice out 0 (short_wire d)) 0 (5 + zlen (od_dcid d)) = Some (short_wire d)).
    { rewrite mem_sub_in by (rewrite ?zlen_splice; lia). f_equal. rewrite splice_start. apply take_app_length'. unfold zlen in *. lia. }
    rewrite Eh. osimpl. rewrite (suite_seals (suite := suite) (M := M) (cached := cached)) by (assumption || lia). osimpl.
    destruct (in_clear_ok M cached k Hk suite o (od_pn d) (short_wire d) (od_payload d) Ho Hw Lw Hp ltac:(lia)) as [Hc Lc].
    destruct (hp_sample_in suite _ eq_refl ltac:(lia)) as (mask & Em & Es & Ea). unfold in_clear in *. set (ct := rfc_seal suite _ _ (short_wire d) (od_payload d)) in *.
    assert (Lct : zlen ct = zlen (od_payload d) + 16) by (rewrite zlen_app in Lc; lia). replace (5 + zlen (od_dcid d)) with (zlen (short_wire d)) by lia.
    rewrite mem_put_in by (rewrite ?zlen_splice; lia). osimpl. rewrite splice_next by lia. destruct (Z.eqb_spec (zlen ct) 0); [lia|]. osimpl.
    rewrite Es. osimpl. rewrite Em, Ea. osimpl. do 3 f_equal.
  - unfold hspkt_onertt_open_suite. cbn [oc_pkt oc_dcid_len oc_largest_pn].
    destruct (unprotect_suite_spec M cached k Hk suite (short_packet suite) (5 + zlen (od_dcid d)) o HP_SHORT_MASK largest) as (x & v & E & D); try assumption; try lia; [unfold HP_SHORT_MASK; lia|].
    rewrite E. apply D. split; [lia|]. split; [exact Hne | exact Wp].
Qed.

Section direct.
Context (Hhp : pk_hp k = aes128_init (ik_hp (pk_keys k))).
Notation aes := TLS_AES_128_GCM_SHA256.
#[local] Instance onertt_aes : Suite M cached aes := suite_aes128 M HM cached.

Lemma onertt_direct : exists o',
  hspkt_onertt_build M cached k d out = Some (if zlen out <? zlen (short_packet aes) then (None, o') else (Some (zlen (short_packet aes)), splice out 0 (short_packet aes))) /\
  delivers (hspkt_onertt_open M cached k (mk_1rtto (short_packet aes) (zlen (od_dcid d)) largest)) (od_payload d).
Proof.
  destruct short_wire_ok as (Hw & Lw & _). pose proof Hd as (Hdc & Ld & Hp & Lp & Hne). pose proof (zlen_nonneg (od_dcid d)). pose proof (zlen_nonneg (od_payload d)).
  destruct (short_spec aes) as (Wb & Wl & Wp). assert (Ho : 1 <= o) by lia. exists (splice out 0 (short_wire d)). split.
  - unfold hspkt_onertt_build. rewrite short_header_built by (assumption || lia). osimpl. rewrite u64_small by lia.
    rewrite Wl. destruct (Z.ltb_spec (zlen out) (5 + zlen (od_dcid d) + zlen (od_payload d) + 16)) as [Hno|Hfit]; [reflexivity|]. unfold onertt_seal_gcm.
    assert (Eh : mem_sub (splice out 0 (short_wire d)) 0 (5 + zlen (od_dcid d)) = Some (short_wire d)).
    { rewrite mem_sub_in by (rewrite ?zlen_splice; lia). f_equal. rewrite splice_start. apply take_app_length'. unfold zlen in *. lia. }
    rewrite Eh. osimpl. rewrite (gcm_seals M HM cached k Hk (od_pn d)) by (assumption || lia).
    destruct (in_clear_ok M cached k Hk aes o (od_pn d) (short_wire d) (od_payload d) Ho Hw Lw Hp ltac:(lia)) as [Hc Lc].
    destruct (hp_sample_in aes _ eq_refl ltac:(lia)) as (mask & Em & Es & Ea). unfold in_clear in *. set (ct := rfc_seal aes _ _ (short_wire d) (od_payload d)) in *.
    assert (Lct : zlen ct = zlen (od_payload d) + 16) by (rewrite zlen_app in Lc; lia). replace (5 + zlen (od_dcid d)) with (zlen (short_wire d)) by lia.
    rewrite mem_put_in by (rewrite ?zlen_splice; lia). osimpl. rewrite splice_next by lia.
    rewrite Es. osimpl. rewrite (direct_sample_mask k Hhp _ _ Em), Ea. osimpl. reflexivity.
  - unfold hspkt_onertt_open. cbn [oc_pkt oc_dcid_len oc_largest_pn].
    destruct (unprotect_spec M HM cached k Hk Hhp (short_packet aes) (5 + zlen (od_dcid d)) o HP_SHORT_MASK largest) as (x & v & E & D); try assumption; try lia; [unfold HP_SHORT_MASK; lia|].
    rewrite E. apply D. split; [lia|]. split; [exact Hne | exact Wp].
Qed.
End direct.
End onertt.

Lemma fills_datagram out build w o' p opens : bytes_ok w -> build = Some (if zlen out <? zlen w then (None, o') else (Some (zlen w), splice out 0 w)) ->
  delivers (opens w) p -> round_trip out build p 0 opens.
Proof.
  intros Hw E D. exists w, o'. split; [exact Hw|]. split; [exact E|]. intros rest _ L _. destruct rest as [|b rest]; [by rewrite app_nil_r|].
  rewrite zlen_cons in L. pose proof (zlen_nonneg rest). lia.
Qed.

(** C3: What is protected is opened. For every suite, any ids, version, packet
    number and payload, the Handshake builders and the 1-RTT builders, the
    suite-aware and the direct AES-128 ones, write one packet exactly when it
    fits the output array and nothing else of the array changes; and the
    matching opening, given that packet (a Handshake packet with anything
    coalesced behind it) and a largest received number within 2^31 of the
    packet's, delivers the payload: the masked header still parses to the
    same ids, Length and number offset, and the number is recovered from its
    four masked bytes. *)
Theorem packets_roundtrip M cached suite k d s largest largest' out : cpu_ok M -> suite ∈ SUITES -> keys_ok (pk_keys k) -> pk_hp k = aes128_init (ik_hp (pk_keys k)) ->
  hs_ok d -> hd_payload d <> [] -> pn_recoverable largest (hd_pn d) -> one_ok s -> pn_recoverable largest' (od_pn s) -> 5 + zlen (od_dcid s) <= zlen out < span_max ->
  round_trip out (hspkt_build_suite M cached suite k d out) (hd_payload d) 1500 (fun pkt => hspkt_open_suite M cached suite k pkt largest) /\
  round_trip out (hspkt_build M cached k d out) (hd_payload d) 1500 (fun pkt => hspkt_open M cached k pkt largest) /\
  round_trip out (hspkt_onertt_build_suite M cached suite k s out) (od_payload s) 0 (fun pkt => hspkt_onertt_open_suite M cached suite k (mk_1rtto pkt (zlen (od_dcid s)) largest')) /\
  round_trip out (hspkt_onertt_build M cached k s out) (od_payload s) 0 (fun pkt => hspkt_onertt_open M cached k (mk_1rtto pkt (zlen (od_dcid s)) largest')).
Proof.
  intros HM Hs Hk Hhp Hd Hne Hpn Hs1 Hpn' Hout. pose proof (supported_suite M cached suite HM Hs) as HS. pose proof (suite_aes128 M HM cached) as HA.
  split; [apply handshake_suite; try assumption; lia|]. split; [apply handshake_direct; try assumption; lia|]. split.
  - destruct (onertt_suite M cached k Hk s Hs1 largest' Hpn' out Hout suite) as (o' & E & D). eapply fills_datagram; [|exact E | exact D].
    exact (proj1 (short_spec M cached k Hk s Hs1 largest' Hpn' suite)).
  - destruct (onertt_direct M HM cached k Hk s Hs1 largest' Hpn' out Hout Hhp) as (o' & E & D). eapply fills_datagram; [|exact E | exact D].
    exact (proj1 (short_spec M cached k Hk s Hs1 largest' Hpn' TLS_AES_128_GCM_SHA256)).
Qed.

Lemma packets_roundtrip_witness :
  let d := mk_hs [1; 2; 3; 4; 5; 6; 7; 8] [9] 2 [1; 0] 1 in
  let s := mk_1rtt [9; 9] 654360564 [1; 0; 0] 1 1 0 in
  let out := replicate 60 0 in
  option_map fst (hspkt_onertt_build_suite model_cpu 0 TLS_CHACHA20_POLY1305_SHA256 a5_keys s out) = Some (Some 26) /\
  round_trip out (hspkt_build model_cpu 0 a5_keys d out) (hd_payload d) 1500 (fun pkt => hspkt_open model_cpu 0 a5_keys pkt 1) /\
  round_trip out (hspkt_onertt_build_suite model_cpu 0 TLS_CHACHA20_POLY1305_SHA256 a5_keys s out) (od_payload s) 0
    (fun pkt => hspkt_onertt_open_suite model_cpu 0 TLS_CHACHA20_POLY1305_SHA256 a5_keys (mk_1rtto pkt 2 654360563)).
Proof.
  intros d s out. split; [vm_compute; reflexivity|].
  assert (K : keys_ok (pk_keys a5_keys)) by (split; [|split]; (split; [apply be_bytes_ok | reflexivity])).
  assert (Hh : pk_hp a5_keys = aes128_init (ik_hp (pk_keys a5_keys))) by (unfold a5_keys; cbn [pk_hp pk_keys ik_hp]; reflexivity).
  assert (Hd : hs_ok d) by (unfold d, hs_ok; cbn [hd_version hd_dcid hd_scid hd_payload]; split_and!; try (vm_compute; congruence); repeat constructor; vm_compute; congruence).
  assert (Hs : one_ok s) by (unfold s, one_ok; cbn [od_dcid od_payload]; split_and!; try (vm_compute; congruence); repeat constructor; vm_compute; congruence).
  assert (R1 : pn_recoverable 1 (hd_pn d)) by (repeat split; vm_compute; congruence).
  assert (R2 : pn_recoverable 654360563 (od_pn s)) by (repeat split; vm_compute; congruence).
  destruct (packets_roundtrip model_cpu 0 TLS_CHACHA20_POLY1305_SHA256 a5_keys d s 1 654360563 out model_cpu_ok
    ltac:(apply list_elem_of_In; right; right; left; reflexivity) K Hh Hd ltac:(discriminate) R1 Hs R2 ltac:(split; vm_compute; [discriminate | reflexivity])) as (_ & H1 & H2 & _).
  split; [exact H1 | exact H2].
Defined.
