(* ===== verification/InitPkt.v ===== *)
(** * Initial packets

    src/src/transport/version/version/v2keys.c (salts and label prefixes of
    both versions), src/src/tls/handshake/core/tls/initial.c (the Initial keys
    of a connection id) and src/src/transport/packet/build/initpkt (the
    client's Initial packet and its opening). The keys are proved to be those
    of RFC 9001 5.2 and RFC 9369 3.3, and an Initial to carry its part of the
    client's flight into the server's CRYPTO stream. *)
From Stdlib Require Import String.
From stdpp Require Import base numbers list option.
From Stdlib Require Import ZArith Lia.
From S2P Require Import Prelude Bytes Varint Frames Framewalk PktNum Header Reassembly Fips180 Sha2 Aes Ghash Gcm Chacha Protect Suites Unprotect PktProt.
Import Frame.
Open Scope Z_scope.

(** The bytes of a C string. *)
Definition ascii_bytes (s : string) : list Z := map (fun c => Z.of_nat (Ascii.nat_of_ascii c)) (list_ascii_of_string s).

(** ** v2keys.c *)

(* src/src/transport/version/version/v2keys.c : V1_SALT@6-8 *)
Definition V1_SALT : list Z :=
  [0x38; 0x76; 0x2c; 0xf7; 0xf5; 0x59; 0x34; 0xb3; 0x4d; 0x17; 0x9a; 0xe6; 0xa4; 0xc8; 0x0c; 0xad; 0xcc; 0xbb; 0x7f; 0x0a].
(* src/src/transport/version/version/v2keys.c : V2_SALT@11-13 *)
Definition V2_SALT : list Z :=
  [0x0d; 0xed; 0xe3; 0xde; 0xf7; 0x00; 0xa6; 0xdb; 0x81; 0x93; 0x81; 0xbe; 0x6e; 0x26; 0x9d; 0xcb; 0xf9; 0xbd; 0x2e; 0xd9].
(* src/src/transport/version/version/v2keys.c : salt_for *)
Definition salt_for (version : Z) : option (list Z) :=
  if version =? VERSION_1 then Some V1_SALT else if version =? VERSION_2 then Some V2_SALT else None.
(** The salt and its length; [None]: an unknown version, the outputs kept. *)
(* src/src/transport/version/version/v2keys.c : version_initial_salt *)
Definition version_initial_salt (version : Z) : option (list Z) := salt_for version.
(* src/src/transport/version/version/v2keys.c : version_label_prefix *)
Definition version_label_prefix (version : Z) : option (list Z) :=
  if version =? VERSION_1 then Some (ascii_bytes "quic ") else if version =? VERSION_2 then Some (ascii_bytes "quicv2 ") else None.
(** The prefix after the fallback to version 1. *)
Definition prefix_or_v1 (version : Z) : list Z :=
  default [] (match version_label_prefix version with Some p => Some p | None => version_label_prefix VERSION_1 end).
(** The label's length and the buffer. *)
(* src/src/transport/version/version/v2keys.c : version_quic_label *)
Definition version_quic_label (buf : list Z) (version : Z) (suffix : list Z) : option (Z * list Z) :=
  let prefix := prefix_or_v1 version in
  buf ← mem_put buf 0 prefix;
  buf ← mem_put buf (zlen prefix) suffix;
  Some (zlen prefix + zlen suffix, buf).

(** ** initial.c *)

(* src/src/tls/handshake/core/tls/initial.c : SUFFIX_MAX *)
Definition SUFFIX_MAX : nat := 9.
(** The bytes of the span returned. *)
(* src/src/tls/handshake/core/tls/initial.c : ilabel_build@14-25 *)
Definition ilabel_build (buf : list Z) (version : Z) (suffix : list Z) : option (list Z) :=
  let prefix := prefix_or_v1 version in
  buf ← mem_put buf 0 prefix;
  buf ← mem_put buf (zlen prefix) suffix;
  mem_sub buf 0 (zlen prefix + zlen suffix).
(** [out] is the array's first [n] bytes; hkdf_expand_label's 1/0 is not looked
    at. *)
(* src/src/tls/handshake/core/tls/initial.c : derive_field@28-31 *)
Definition derive_field (secret label : list Z) (arr : list Z) (n : Z) : option (list Z) :=
  out ← mem_sub arr 0 n;
  r ← hkdf_expand_label secret label [] out;
  mem_put arr 0 r.2.
(** A label is read only where it was just written, so the buffer starts as
    zeros each time. *)
(* src/src/tls/handshake/core/tls/initial.c : derive_keys@35-47 *)
Definition derive_keys (secret : list Z) (version : Z) (out : initial_keys) : option initial_keys :=
  let buf := replicate (7 + SUFFIX_MAX) 0 in
  l ← ilabel_build buf version (ascii_bytes "key");
  key ← derive_field secret l (ik_key out) 16;
  l ← ilabel_build buf version (ascii_bytes "iv");
  iv ← derive_field secret l (ik_iv out) 12;
  l ← ilabel_build buf version (ascii_bytes "hp");
  hp ← derive_field secret l (ik_hp out) 16;
  Some (mk_keys key iv hp).
(* src/src/tls/handshake/core/tls/initial.c : initial_salt@51-58 *)
Definition initial_salt (version : Z) : list Z :=
  default [] (match version_initial_salt version with Some s => Some s | None => version_initial_salt VERSION_1 end).
(* src/src/tls/handshake/core/tls/initial.c : side_label@65-70 *)
Definition side_label (buf : list Z) (is_server : bool) : option (list Z) :=
  let suffix := ascii_bytes (if is_server then "server in" else "client in") in
  buf ← mem_put buf 0 suffix; mem_sub buf 0 (zlen suffix).
(** [out]: the arrays before; the bytes past a key's 16 stay. *)
(* src/src/tls/handshake/core/tls/initial.c : initial_derive *)
Definition initial_derive (dcid : list Z) (is_server : bool) (version : Z) (out : initial_keys) : option initial_keys :=
  initial_secret ← hkdf_extract (initial_salt version) dcid;
  l ← side_label (replicate SUFFIX_MAX 0) is_server;
  side_secret ← derive_field initial_secret l (replicate 32 0) 32;
  derive_keys side_secret version out.

(** ** initkeys.c *)

(* src/src/transport/packet/build/initpkt/initkeys.c : initpkt_derive_ver *)
Definition initpkt_derive_ver (dcid : list Z) (version : Z) (client_keys server_keys : initial_keys) : option (initial_keys * initial_keys) :=
  ck ← initial_derive dcid false version client_keys;
  sk ← initial_derive dcid true version server_keys;
  Some (ck, sk).
(* src/src/transport/packet/build/initpkt/initkeys.c : initpkt_derive *)
Definition initpkt_derive (dcid : list Z) (client_keys server_keys : initial_keys) : option (initial_keys * initial_keys) :=
  initpkt_derive_ver dcid VERSION_1 client_keys server_keys.

(** ** initpkt.c *)

(* src/src/transport/packet/build/initpkt/initpkt.h : initpkt_desc *)
Record initpkt_desc := mk_ip { ip_dcid : list Z; ip_scid : list Z; ip_crypto : list Z; ip_pn : Z; ip_crypto_off : Z }.
(* src/src/transport/packet/build/initpkt/initpkt.c : pad_target@14-17 *)
Definition pad_target (dcid_len scid_len : Z) : Z :=
  let overhead := u64 (30 + dcid_len + scid_len) in
  if overhead <? 1200 then 1200 - overhead else 0.
(* src/src/transport/packet/build/initpkt/initpkt.c : initpkt_min_usz@19-19 *)
Definition initpkt_min_usz (a b : Z) : Z := if a <? b then a else b.
(** [None] inside: crypto_stream_emit failed. *)
(* src/src/transport/packet/build/initpkt/initpkt.c : build_payload@22-35 *)
Definition build_payload (crypto : list Z) (off target : Z) (out : obuf) : option (option obuf) :=
  let fill_to := initpkt_min_usz target (ocap out) in
  '(ok, out) ← crypto_stream_emit crypto (mk_emit_in off (zlen crypto)) out;
  if negb ok then Some None
  else
    p ← fill (op out) (olen out) 0 (Z.to_nat (fill_to - olen out));
    Some (Some (mk_obuf p (Z.max (olen out) fill_to))).
(* src/src/transport/packet/build/initpkt/initpkt.c : initpkt_byte0@40-44 *)
Definition initpkt_byte0 (version : Z) : Z :=
  let wire := if version =? VERSION_2 then v2_packet_type LT_INITIAL else v1_packet_type LT_INITIAL in
  if wire <? 0 then 0 else u8 (Z.lor 0xc0 (Z.shiftl wire 4)).

Section initial.
Context (M : cpu) (cached : Z).

(** The packet's length ([None]: the code's 0) and the output array. *)
(* src/src/transport/packet/build/initpkt/initpkt.c : initpkt_seal@47-66 *)
Definition initpkt_seal (byte0 version : Z) (d : initpkt_desc) (ck : initial_keys) (payload out : list Z) : option (option Z * list Z) :=
  let k := mk_pkeys ck (aes128_init (ik_hp ck)) in
  let t := mk_tx byte0 (ip_dcid d) (ip_scid d) true [] (ip_pn d) payload version in
  '(total, out) ← tx_packet M cached k t out;
  Some (if total =? 0 then None else Some total, out).
(** [ck], [sk] and [room] are the local arrays, whatever they hold before. *)
(* src/src/transport/packet/build/initpkt/initpkt.c : initpkt_build_ver *)
Definition initpkt_build_ver (version : Z) (d : initpkt_desc) (out : list Z) (ck sk : initial_keys) (room : list Z) : option (option Z * list Z) :=
  let po := obuf_of room in
  let byte0 := initpkt_byte0 version in
  if byte0 =? 0 then Some (None, out)
  else
    r ← build_payload (ip_crypto d) (ip_crypto_off d) (pad_target (zlen (ip_dcid d)) (zlen (ip_scid d))) po;
    match r with
    | None => Some (None, out)
    | Some po =>
        '(ck, _) ← initpkt_derive_ver (ip_dcid d) version ck sk;
        initpkt_seal byte0 version d ck (owritten po) out
    end.
(* src/src/transport/packet/build/initpkt/initpkt.c : initpkt_build *)
Definition initpkt_build (d : initpkt_desc) (out : list Z) (ck sk : initial_keys) (room : list Z) : option (option Z * list Z) :=
  initpkt_build_ver VERSION_1 d out ck sk room.

(** ** initopen.c *)

(* src/src/transport/packet/build/initpkt/initopen.c : initpkt_open_ver *)
Definition initpkt_open_ver (dcid : list Z) (version : Z) (pkt : list Z) (largest_pn : Z) (ck sk : initial_keys) : option (list Z * option view) :=
  '(ck, _) ← initpkt_derive_ver dcid version ck sk;
  rx_packet M cached (mk_pkeys ck (aes128_init (ik_hp ck))) (mk_rx pkt true largest_pn).
(* src/src/transport/packet/build/initpkt/initopen.c : initpkt_open *)
Definition initpkt_open (dcid pkt : list Z) (ck sk : initial_keys) : option (list Z * option view) :=
  initpkt_open_ver dcid VERSION_1 pkt 0 ck sk.
End initial.

(** ** The keys of RFC 9001 5.2 and RFC 9369 3.3 *)

(** HKDF-Expand-Label of RFC 8446 7.1 with an empty context, over SHA-256. *)
Definition rfc_expand_label (secret label : list Z) (L : nat) : list Z :=
  rfc_hkdf_expand (rfc_hmac fips_sha256 SHA256_BLOCK) 32 secret (rfc_hkdf_label label [] (Z.of_nat L)) L.
(** A version that is not 2 takes the constants of version 1. *)
Definition rfc_salt (version : Z) : list Z :=
  be_bytes 20 (if version =? VERSION_2 then 0x0dede3def700a6db819381be6e269dcbf9bd2ed9 else 0x38762cf7f55934b34d179ae6a4c80cadccbb7f0a).
Definition rfc_prefix (version : Z) : list Z := ascii_bytes (if version =? VERSION_2 then "quicv2 " else "quic ").
Definition rfc_side_secret (dcid : list Z) (is_server : bool) (version : Z) : list Z :=
  rfc_expand_label (rfc_hmac fips_sha256 SHA256_BLOCK (rfc_salt version) dcid) (ascii_bytes (if is_server then "server in" else "client in")) 32.
Definition rfc_field (dcid : list Z) (is_server : bool) (version : Z) (name : string) (L : nat) : list Z :=
  rfc_expand_label (rfc_side_secret dcid is_server version) (rfc_prefix version ++ ascii_bytes name) L.
(** The arrays afterwards: keys of 16, 12 and 16 bytes, and what was behind them. *)
Definition rfc_initial_keys (dcid : list Z) (is_server : bool) (version : Z) (out : initial_keys) : initial_keys :=
  mk_keys (rfc_field dcid is_server version "key" 16 ++ drop 16 (ik_key out)) (rfc_field dcid is_server version "iv" 12)
    (rfc_field dcid is_server version "hp" 16 ++ drop 16 (ik_hp out)).

Definition sized (k : initial_keys) : Prop := length (ik_key k) = 32%nat /\ length (ik_iv k) = 12%nat /\ length (ik_hp k) = 32%nat.

Lemma keys_sized k : keys_ok k -> sized k.
Proof. intros ((_ & H1) & (_ & H2) & (_ & H3)). split; [|split]; assumption. Qed.

Lemma rfc_expand_shape secret label L : bytes_ok (rfc_expand_label secret label L) /\ length (rfc_expand_label secret label L) = L.
Proof. apply rfc_hkdf_expand_shape; [lia|]. intros m. split; [apply fips_sha256_ok | apply fips_sha256_length]. Qed.

Lemma derive_field_exact secret label arr (n : nat) : (n <= length arr)%nat -> (n <= 255 * 32)%nat -> (length label <= 64)%nat ->
  derive_field secret label arr (Z.of_nat n) = Some (rfc_expand_label secret label n ++ drop n arr).
Proof.
  intros Hn Hn' Hl. unfold derive_field. rewrite mem_sub_in by (unfold zlen; lia). osimpl. change (drop (Z.to_nat 0) arr) with arr. rewrite Nat2Z.id.
  rewrite hkdf_expand_label_exact. assert (Lt : length (take n arr) = n) by (rewrite length_take; lia). cbn [length]. rewrite Lt.
  rewrite bool_decide_true by lia. osimpl. cbn [snd]. unfold zlen at 1. rewrite Lt. fold (rfc_expand_label secret label n).
  destruct (rfc_expand_shape secret label n) as [_ Hs]. rewrite mem_put_in by (unfold zlen; lia). rewrite splice_start. by rewrite Hs.
Qed.

Lemma labels_built version : exists p, rfc_prefix version = p /\ (length p <= 7)%nat /\
  ilabel_build (replicate (7 + SUFFIX_MAX) 0) version (ascii_bytes "key") = Some (p ++ ascii_bytes "key") /\
  ilabel_build (replicate (7 + SUFFIX_MAX) 0) version (ascii_bytes "iv") = Some (p ++ ascii_bytes "iv") /\
  ilabel_build (replicate (7 + SUFFIX_MAX) 0) version (ascii_bytes "hp") = Some (p ++ ascii_bytes "hp").
Proof.
  unfold rfc_prefix, ilabel_build, prefix_or_v1, version_label_prefix.
  destruct (Z.eqb_spec version VERSION_2) as [->|Hne]; [|destruct (Z.eqb_spec version VERSION_1) as [->|Hne']]; eexists; (split; [reflexivity|]); vm_compute; repeat split; repeat constructor.
Qed.

Lemma initial_salt_exact version : initial_salt version = rfc_salt version.
Proof.
  unfold initial_salt, rfc_salt, version_initial_salt, salt_for.
  destruct (Z.eqb_spec version VERSION_2) as [->|Hne]; [|destruct (Z.eqb_spec version VERSION_1) as [->|Hne']]; vm_compute; reflexivity.
Qed.

Lemma initial_derive_exact dcid is_server version out : sized out -> initial_derive dcid is_server version out = Some (rfc_initial_keys dcid is_server version out).
Proof.
  intros (L1 & L2 & L3). unfold initial_derive, hkdf_extract. rewrite hmac_sha256_spec, initial_salt_exact. osimpl.
  assert (El : side_label (replicate SUFFIX_MAX 0) is_server = Some (ascii_bytes (if is_server then "server in" else "client in"))) by (destruct is_server; vm_compute; reflexivity).
  rewrite El. osimpl. change 32 with (Z.of_nat 32). rewrite derive_field_exact by (try lia; try (rewrite length_replicate; lia); destruct is_server; vm_compute; repeat constructor). osimpl.
  assert (Ed : drop 32 (replicate 32 0) = []) by reflexivity. rewrite Ed, app_nil_r. fold (rfc_side_secret dcid is_server version).
  unfold derive_keys, rfc_initial_keys, rfc_field. destruct (labels_built version) as (p & -> & Lp & -> & -> & ->). osimpl.
  assert (Hlab : forall s, (length (ascii_bytes s) <= 9)%nat -> (length (p ++ ascii_bytes s) <= 64)%nat) by (intros s Hs; rewrite length_app; lia).
  change 16 with (Z.of_nat 16). change 12 with (Z.of_nat 12).
  rewrite derive_field_exact by (try lia; apply Hlab; vm_compute; repeat constructor). osimpl.
  rewrite derive_field_exact by (try lia; apply Hlab; vm_compute; repeat constructor). osimpl.
  rewrite derive_field_exact by (try lia; apply Hlab; vm_compute; repeat constructor). osimpl.
  rewrite (drop_ge (ik_iv out)) by lia. by rewrite app_nil_r.
Qed.

Lemma rfc_initial_ok dcid is_server version out : keys_ok out -> keys_ok (rfc_initial_keys dcid is_server version out).
Proof.
  intros ((B1 & L1) & (B2 & L2) & (B3 & L3)). unfold keys_ok, rfc_initial_keys, rfc_field. cbn [ik_key ik_iv ik_hp].
  pose proof (rfc_expand_shape (rfc_side_secret dcid is_server version)) as S. split; [|split].
  - split; [apply bytes_ok_app; split; [apply S | by apply bytes_ok_drop]|]. rewrite length_app, (proj2 (S _ _)), length_drop. lia.
  - apply S.
  - split; [apply bytes_ok_app; split; [apply S | by apply bytes_ok_drop]|]. rewrite length_app, (proj2 (S _ _)), length_drop. lia.
Qed.

(** AES-128 uses the derived bytes only, whatever is behind them. *)
Lemma rfc_initial_alike dcid is_server version a b bits o n pn hdr p :
  rfc_protect TLS_AES_128_GCM_SHA256 (rfc_initial_keys dcid is_server version a) bits o n pn hdr p =
  rfc_protect TLS_AES_128_GCM_SHA256 (rfc_initial_keys dcid is_server version b) bits o n pn hdr p.
Proof.
  pose proof (rfc_expand_shape (rfc_side_secret dcid is_server version)) as S.
  assert (T : forall l x y, take 16 (rfc_expand_label (rfc_side_secret dcid is_server version) l 16 ++ x) = take 16 (rfc_expand_label (rfc_side_secret dcid is_server version) l 16 ++ y)).
  { intros l x y. rewrite !take_app_length' by (symmetry; apply S). reflexivity. }
  unfold rfc_protect, rfc_seal, rfc_mask, rfc_initial_keys, rfc_field. cbn [ik_key ik_iv ik_hp]. rewrite Z.eqb_refl.
  rewrite (T _ (drop 16 (ik_key a)) (drop 16 (ik_key b))), (T _ (drop 16 (ik_hp a)) (drop 16 (ik_hp b))). reflexivity.
Qed.

(** ** The payload *)

Definition ip_ok (d : initpkt_desc) : Prop :=
  bytes_ok (ip_dcid d) /\ bytes_ok (ip_scid d) /\ bytes_ok (ip_crypto d) /\ zlen (ip_dcid d) <= 20 /\ zlen (ip_scid d) <= 20 /\
  0 <= ip_crypto_off d /\ ip_crypto_off d + zlen (ip_crypto d) <= VARINT_MAX.

(** The part of the flight a packet carries, and its CRYPTO frame. *)
Definition ip_seg (d : initpkt_desc) : seg := (ip_crypto_off d, ip_crypto d).

(** The frame, then PADDING up to the size that makes a datagram of 1200. *)
Definition padded (d : initpkt_desc) (frame : list Z) : list Z :=
  frame ++ replicate (Z.to_nat (1170 - zlen (ip_dcid d) - zlen (ip_scid d) - zlen frame)) 0.

Lemma seg_wire_bytes g l : bytes_ok g.2 -> seg_wire g = Some l -> bytes_ok l /\ 1 <= zlen l.
Proof.
  intros Hb Hl. unfold seg_wire, crypto_wire in Hl. cbn [cf_data cf_length cf_offset] in Hl. ocat_inv Hl. split.
  - rewrite take_ge by (unfold zlen; lia). rewrite !bytes_ok_app. split_and!; try apply varint_bytes_ok; first [exact Hb | constructor].
  - rewrite zlen_app. pose proof (varint_bytes_pos 6). match goal with |- context [_ + zlen ?x] => pose proof (zlen_nonneg x) end. lia.
Qed.

(** The chunk in one frame, or not at all. *)
Lemma emit_whole base bytes room : bytes <> [] -> 0 <= base -> base + zlen bytes <= VARINT_MAX -> zlen room < span_max ->
  exists l, seg_wire (base, bytes) = Some l /\ zlen l <= 17 + zlen bytes /\
    if zlen l <=? zlen room then crypto_stream_emit bytes (mk_emit_in base (zlen bytes)) (obuf_of room) = Some (true, obuf_app (obuf_of room) l)
    else exists o, crypto_stream_emit bytes (mk_emit_in base (zlen bytes)) (obuf_of room) = Some (false, o).
Proof.
  intros Hne Hb Hv Hr. pose proof (zlen_nonneg room). assert (Hpos : 0 < zlen bytes) by (destruct bytes as [|x bytes]; [done|]; rewrite zlen_cons; pose proof (zlen_nonneg bytes); lia).
  assert (Ho : obuf_ok (obuf_of room)) by (split; unfold ocap; cbn [obuf_of op olen]; lia).
  destruct (emit_one_spec bytes base 0 (zlen bytes) (obuf_of room) Hb Hv ltac:(lia) Hpos ltac:(lia) Ho) as (l & Hl & Hz & _ & _ & Hone). rewrite Z.add_0_r in Hl.
  assert (Ew : take (Z.to_nat (zlen bytes)) (drop (Z.to_nat 0) bytes) = bytes) by (change (drop (Z.to_nat 0) bytes) with bytes; apply take_ge; unfold zlen; lia). rewrite Ew in Hl.
  exists l. split; [exact Hl|]. split; [lia|].
  unfold ocap in Hone. cbn [obuf_of op olen] in Hone. rewrite Z.add_0_l in Hone. unfold VARINT_MAX in Hv.
  unfold crypto_stream_emit. cbn [ei_max_frame]. destruct (Z.eqb_spec (zlen bytes) 0); [lia|]. cbn [negb].
  destruct (length bytes) as [|fuel] eqn:En; [unfold zlen in Hpos; lia|]. cbn [emit_loop ep_pos ep_out ei_base_offset ei_max_frame andb].
  destruct (Z.ltb_spec 0 (zlen bytes)); [|lia]. rewrite Z.sub_0_r, u64_small by lia. unfold crypto_tx_min_usz. rewrite Z.ltb_irrefl. change (op (obuf_of room)) with room. fold (obuf_of room).
  destruct (zlen l <=? zlen room).
  - rewrite Hone. osimpl. rewrite Z.add_0_l. destruct fuel; cbn [emit_loop ep_pos]; rewrite Z.ltb_irrefl; cbn [andb]; osimpl; reflexivity.
  - destruct Hone as (o' & ->). osimpl. destruct fuel; cbn [emit_loop andb]; osimpl; by eexists.
Qed.

Lemma build_payload_spec d room : ip_ok d -> zlen room = 1200 ->
  if bool_decide (ip_crypto d = []) then build_payload (ip_crypto d) (ip_crypto_off d) (pad_target (zlen (ip_dcid d)) (zlen (ip_scid d))) (obuf_of room) = Some None
  else exists l, seg_wire (ip_seg d) = Some l /\ bytes_ok l /\
    if zlen l <=? 1200 then exists o, build_payload (ip_crypto d) (ip_crypto_off d) (pad_target (zlen (ip_dcid d)) (zlen (ip_scid d))) (obuf_of room) = Some (Some o) /\ owritten o = padded d l
    else build_payload (ip_crypto d) (ip_crypto_off d) (pad_target (zlen (ip_dcid d)) (zlen (ip_scid d))) (obuf_of room) = Some None.
Proof.
  intros (Hd & Hs & Hc & Ld & Ls & Ho & Hv) Hr. pose proof (zlen_nonneg (ip_dcid d)). pose proof (zlen_nonneg (ip_scid d)).
  assert (Et : pad_target (zlen (ip_dcid d)) (zlen (ip_scid d)) = 1170 - zlen (ip_dcid d) - zlen (ip_scid d)).
  { unfold pad_target. rewrite u64_small by lia. destruct (Z.ltb_spec (30 + zlen (ip_dcid d) + zlen (ip_scid d)) 1200); lia. }
  unfold build_payload. rewrite Et. unfold ocap, initpkt_min_usz. change (op (obuf_of room)) with room. rewrite Hr.
  case_bool_decide as He; [rewrite He; reflexivity|].
  destruct (emit_whole (ip_crypto_off d) (ip_crypto d) room He Ho Hv ltac:(unfold span_max; lia)) as (l & Hl & Hz & Hem). rewrite Hr in Hem.
  exists l. split; [exact Hl|]. destruct (seg_wire_bytes (ip_crypto_off d, ip_crypto d) l Hc Hl) as [Bl L1]. split; [exact Bl|].
  destruct (Z.leb_spec (zlen l) 1200) as [Hfit|Hno].
  2: { destruct Hem as (o & ->). reflexivity. }
  rewrite Hem. osimpl. cbn [negb obuf_app obuf_of op olen]. rewrite Z.add_0_l.
  set (t := 1170 - zlen (ip_dcid d) - zlen (ip_scid d)) in *. destruct (Z.ltb_spec t 1200); [|lia].
  assert (Lr : zlen (splice room 0 l) = 1200) by (rewrite zlen_splice; lia).
  rewrite fill_spec by lia. osimpl. eexists. split; [reflexivity|]. unfold owritten, padded. fold t. cbn [op olen].
  set (z := replicate (Z.to_nat (t - zlen l)) 0). assert (Lz : zlen z = Z.max 0 (t - zlen l)) by (unfold z, zlen; rewrite length_replicate; lia).
  rewrite splice_next by lia. rewrite splice_start. apply take_app_length'. rewrite length_app. unfold zlen in *. lia.
Qed.

(** ** The packet *)

#[local] Opaque aes128_init rfc_initial_keys rfc_protect rfc_mask rfc_seal.

Section packet.
Context (M : cpu) (HM : cpu_ok M) (cached : Z).
Context (d : initpkt_desc) (Hd : ip_ok d) (version : Z) (Hv : is_u32 version).
Notation aes := TLS_AES_128_GCM_SHA256.

(** The keys from arrays that held [ck]. *)
Definition ip_keys (ck : initial_keys) : protect_keys :=
  let k := rfc_initial_keys (ip_dcid d) false version ck in mk_pkeys k (aes128_init (ik_hp k)).
Definition ip_tx (payload : list Z) : tx_desc := mk_tx (initpkt_byte0 version) (ip_dcid d) (ip_scid d) true [] (ip_pn d) payload version.

Lemma initpkt_first : is_u8 (initpkt_byte0 version) /\ packet_is_long (initpkt_byte0 version) = true /\ (initpkt_byte0 version =? 0) = false /\
  (version = VERSION_1 \/ version = VERSION_2 -> packet_long_type (initpkt_byte0 version) version = LT_INITIAL).
Proof.
  unfold initpkt_byte0. destruct (Z.eqb_spec version VERSION_2) as [->|Hne]; [vm_compute; repeat split; discriminate|].
  split; [vm_compute; repeat split; discriminate|]. split; [reflexivity|]. split; [reflexivity|]. intros [-> | ->]; [reflexivity | done].
Qed.

Lemma derive_ver ck sk : sized ck -> sized sk ->
  initpkt_derive_ver (ip_dcid d) version ck sk = Some (rfc_initial_keys (ip_dcid d) false version ck, rfc_initial_keys (ip_dcid d) true version sk).
Proof. intros H1 H2. unfold initpkt_derive_ver. rewrite !initial_derive_exact by assumption. reflexivity. Qed.

Section one.
Context (frame : list Z) (Hframe : bytes_ok frame) (Lframe : zlen frame <= 1200).
Notation pl := (padded d frame).
Notation h := (tx_lhdr (ip_tx pl)).

Lemma padded_ok : bytes_ok pl /\ zlen pl = Z.max (zlen frame) (1170 - zlen (ip_dcid d) - zlen (ip_scid d)).
Proof.
  unfold padded. split; [apply bytes_ok_app; split; [exact Hframe | apply Forall_replicate; unfold is_u8; lia]|].
  rewrite zlen_app. unfold zlen at 2. rewrite length_replicate. lia.
Qed.

(** The header has 14 bytes and the two ids: its Length takes two. *)
Lemma ip_header out : ld_ok h /\ exists l, lhdr_wire h = Some l /\ zlen l = 14 + zlen (ip_dcid d) + zlen (ip_scid d) /\
  tx_build_hdr (ip_tx pl) out = Some (Some (mk_sio l (zlen l - 4) 4 (ip_pn d) pl out)).
Proof.
  destruct Hd as (Bd & Bs & _ & Ld & Ls & _). destruct padded_ok as [Bp Lp]. destruct initpkt_first as (Hb & _).
  pose proof (zlen_nonneg (ip_dcid d)). pose proof (zlen_nonneg (ip_scid d)).
  destruct (tx_header (ip_tx pl) out Hb Hv Bd Bs Ld Ls eq_refl ltac:(cbn [td_frames ip_tx]; lia)) as (Hok & l & Hl & _ & E).
  split; [exact Hok|]. exists l. split; [exact Hl|]. split; [|exact E].
  destruct (wire_split h l Hl) as [_ El]. rewrite El, zlen_cons, zlen_app, zlen_be_bytes. unfold wire_mid, tx_lhdr, ip_tx, TX_PN_LEN.
  cbn [ld_version ld_dcid ld_scid ld_is_initial ld_token ld_pn_len ld_pn td_is_initial td_token td_frames td_dcid td_scid td_version td_pn td_byte0].
  rewrite !zlen_app, !zlen_cons, zlen_be_bytes, zlen_nil. unfold ld_length. cbn [ld_pn_len ld_payload_len].
  assert (E0 : zlen (varint_bytes 0) = 1) by reflexivity. rewrite E0.
  assert (E2 : zlen (varint_bytes (4 + zlen pl + 16)) = 2) by (unfold varint_bytes; repeat case_match; try lia; reflexivity). rewrite E2. lia.
Qed.

Context (ck : initial_keys) (Hck : keys_ok ck).
#[local] Instance initial_suite : Suite M cached aes := suite_aes128 M HM cached.

(** The datagram: [l] is the header in clear. *)
Definition ip_packet (l : list Z) : list Z := PktProt.packet (ip_keys ck) h l pl aes.

Context (largest : Z) (Hpn : pn_recoverable largest (ip_pn d)).

Lemma ip_keys_ok : keys_ok (pk_keys (ip_keys ck)).
Proof. unfold ip_keys. cbn [pk_keys]. by apply rfc_initial_ok. Qed.

Lemma ip_hp k : pk_hp (ip_keys k) = aes128_init (ik_hp (pk_keys (ip_keys k))).
Proof. unfold ip_keys. cbn [pk_hp pk_keys]. reflexivity. Qed.

Lemma ip_fits l rest : zlen l = 14 + zlen (ip_dcid d) + zlen (ip_scid d) -> zlen (ip_packet l ++ rest) <= 1500 \/ rest = [] ->
  zlen (ip_packet l) = zlen l + zlen pl + 16 -> zlen l + zlen pl + 16 + zlen rest <= 1500.
Proof.
  destruct Hd as (_ & _ & _ & Ld & Ls & _). destruct padded_ok as [_ Lp]. pose proof (zlen_nonneg (ip_dcid d)). pose proof (zlen_nonneg (ip_scid d)).
  intros Ll Hr Lw. rewrite zlen_app, Lw in Hr. destruct Hr as [Hr | ->]; [lia | rewrite zlen_nil; lia].
Qed.

Lemma ip_packet_shape l : lhdr_wire h = Some l -> zlen l = 14 + zlen (ip_dcid d) + zlen (ip_scid d) ->
  bytes_ok (ip_packet l) /\ zlen (ip_packet l) = zlen l + zlen pl + 16 /\ 1200 <= zlen (ip_packet l) <= 1270.
Proof.
  intros Hl Ll. destruct (ip_header []) as (Hok & _). destruct Hd as (_ & _ & _ & Ld & Ls & _). destruct padded_ok as [Bp Lp].
  pose proof (zlen_nonneg (ip_dcid d)). pose proof (zlen_nonneg (ip_scid d)).
  assert (Hfit : zlen l + zlen pl + 16 + zlen (@nil Z) <= 1500) by (rewrite zlen_nil; lia).
  pose proof (packet_length M cached (ip_keys ck) ip_keys_ok h Hok eq_refl l Hl pl Bp largest Hpn [] Hfit aes) as Lw.
  split; [exact (packet_bytes M cached (ip_keys ck) ip_keys_ok h Hok eq_refl l Hl pl Bp largest Hpn [] Hfit aes)|]. fold (ip_packet l) in Lw. split; [exact Lw|]. lia.
Qed.

Lemma ip_sealed out : zlen out < span_max -> exists l, lhdr_wire h = Some l /\ zlen l = 14 + zlen (ip_dcid d) + zlen (ip_scid d) /\
  initpkt_seal M cached (initpkt_byte0 version) version d (rfc_initial_keys (ip_dcid d) false version ck) pl out =
    Some (if zlen out <? zlen (ip_packet l) then (None, out) else (Some (zlen (ip_packet l)), splice out 0 (ip_packet l))).
Proof.
  intros Hout. destruct (ip_header out) as (Hok & l & Hl & Ll & E). exists l. split; [exact Hl|]. split; [exact Ll|].
  destruct (ip_packet_shape l Hl Ll) as (Bw & Lw & Lb). destruct padded_ok as [Bp Lp].
  destruct (long_header h Hok eq_refl l Hl [] largest Hpn []) as (Bl & Ho & _).
  unfold initpkt_seal. fold (ip_keys ck). unfold tx_packet. fold (ip_tx pl). rewrite E. osimpl.
  rewrite (protect_seal_spec M HM cached (ip_keys ck) ip_keys_ok (zlen l - 4) (ip_pn d) l pl Ho Bl ltac:(lia) Bp ltac:(lia) (ip_hp ck) out Hout).
  rewrite <- Lw. destruct (zlen out <? zlen (ip_packet l)); osimpl; [reflexivity|]. destruct (Z.eqb_spec (zlen (ip_packet l)) 0); [lia | reflexivity].
Qed.

(** Any arrays serve the other end, and anything may follow the packet. *)
Lemma ip_opened l rest ck' sk' : lhdr_wire h = Some l -> zlen l = 14 + zlen (ip_dcid d) + zlen (ip_scid d) ->
  bytes_ok rest -> zlen (ip_packet l ++ rest) <= 1500 -> keys_ok ck' -> sized sk' ->
  opened_as (initpkt_open_ver M cached (ip_dcid d) version (ip_packet l ++ rest) largest ck' sk') l (zlen (ip_packet l ++ rest)) pl.
Proof.
  intros Hl Ll Hr Lr Hck' Hsk'. destruct (ip_header []) as (Hok & _). destruct padded_ok as [Bp Lp]. destruct initpkt_first as (_ & Hlong & _).
  destruct (ip_packet_shape l Hl Ll) as (_ & Lw & _). pose proof (ip_fits l rest Ll (or_introl Lr) Lw) as Hfit.
  unfold initpkt_open_ver. rewrite derive_ver by (assumption || by apply keys_sized). osimpl. fold (ip_keys ck').
  assert (Ew : ip_packet l = PktProt.packet (ip_keys ck') h l pl aes) by (unfold ip_packet, PktProt.packet, on_wire, ip_keys; cbn [pk_keys]; apply rfc_initial_alike). rewrite Ew.
  assert (Hk' : keys_ok (pk_keys (ip_keys ck'))) by (unfold ip_keys; cbn [pk_keys]; by apply rfc_initial_ok).
  destruct (packet_opens_direct M HM cached (ip_keys ck') Hk' h Hok Hlong eq_refl l Hl pl Bp eq_refl largest Hpn rest Hr Hfit (ip_hp ck')) as (x & Ex & Hx).
  unfold rx_packet. cbn [rd_pkt rd_is_initial rd_largest_pn]. change (ld_is_initial h) with true in Ex. rewrite Ex. exact Hx.
Qed.
Lemma ip_parsed l rest : lhdr_wire h = Some l -> zlen l = 14 + zlen (ip_dcid d) + zlen (ip_scid d) -> bytes_ok rest -> zlen (ip_packet l ++ rest) <= 1500 ->
  exists tok, lhdr_parse (ip_packet l ++ rest) true = Ok (mk_lhdr (ip_dcid d) (ip_scid d) tok (20 + zlen pl) (zlen l - 4)).
Proof.
  intros Hl Ll Hr Lr. destruct (ip_header []) as (Hok & _). destruct padded_ok as [Bp Lp]. destruct initpkt_first as (_ & Hlong & _).
  destruct (ip_packet_shape l Hl Ll) as (_ & Lw & _). pose proof (ip_fits l rest Ll (or_introl Lr) Lw) as Hfit.
  exact (packet_parsed M cached (ip_keys ck) ip_keys_ok h Hok Hlong eq_refl l Hl pl Bp eq_refl largest Hpn rest Hfit aes).
Qed.

(** As part of a datagram: the mask leaves the header's fields alone. *)
Lemma ip_on_datagram l : lhdr_wire h = Some l -> zlen l = 14 + zlen (ip_dcid d) + zlen (ip_scid d) -> version = VERSION_1 \/ version = VERSION_2 ->
  exists h' l' body, reads_alike h h' /\ lhdr_wire h' = Some l' /\ ip_packet l = l' ++ body /\ Packets.long_packet h' body (ip_packet l).
Proof.
  intros Hl Ll Hver. destruct (ip_header []) as (Hok & _). destruct padded_ok as [Bp Lp]. destruct initpkt_first as (_ & Hlong & _ & Hty). destruct Hd as (_ & _ & _ & Ld & Ls & _).
  assert (Hfit : zlen l + zlen pl + 16 + zlen (@nil Z) <= 1500) by (rewrite zlen_nil; pose proof (zlen_nonneg (ip_dcid d)); pose proof (zlen_nonneg (ip_scid d)); lia).
  apply (packet_on_datagram M cached (ip_keys ck) ip_keys_ok h Hok Hlong eq_refl l Hl pl Bp eq_refl largest Hpn [] Hfit aes).
  unfold tx_lhdr, ip_tx. cbn [ld_byte0 ld_version ld_is_initial td_byte0 td_version td_is_initial].
  assert (Ev : tx_version_or_v1 version = version) by (unfold tx_version_or_v1; destruct Hver as [-> | ->]; reflexivity). rewrite Ev, (Hty Hver). reflexivity.
Qed.
End one.

(** The builder, whatever its local arrays held. *)
Lemma initpkt_build_spec ck sk room largest out : keys_ok ck -> sized sk -> zlen room = 1200 -> pn_recoverable largest (ip_pn d) -> zlen out < span_max ->
  if bool_decide (ip_crypto d = []) then initpkt_build_ver M cached version d out ck sk room = Some (None, out)
  else exists frame, seg_wire (ip_seg d) = Some frame /\ bytes_ok frame /\
    if zlen frame <=? 1200 then exists l, let w := ip_packet frame ck l in
      lhdr_wire (tx_lhdr (ip_tx (padded d frame))) = Some l /\ zlen l = 14 + zlen (ip_dcid d) + zlen (ip_scid d) /\
      initpkt_build_ver M cached version d out ck sk room = Some (if zlen out <? zlen w then (None, out) else (Some (zlen w), splice out 0 w))
    else initpkt_build_ver M cached version d out ck sk room = Some (None, out).
Proof.
  intros Hck Hsk Hr Hpn Hout. unfold initpkt_build_ver. destruct initpkt_first as (_ & _ & E0 & _). rewrite E0.
  pose proof (build_payload_spec d room Hd Hr) as H. case_bool_decide as He; [by rewrite H|].
  destruct H as (frame & Hf & Bf & H). exists frame. split; [exact Hf|]. split; [exact Bf|]. destruct (Z.leb_spec (zlen frame) 1200) as [Hfit|Hno]; [|by rewrite H].
  destruct H as (o & -> & Eo). osimpl. rewrite derive_ver by (assumption || by apply keys_sized). osimpl. rewrite Eo.
  destruct (ip_sealed frame Bf Hfit ck Hck largest Hpn out Hout) as (l & Hl & Ll & E). exists l. split; [exact Hl|]. split; [exact Ll | exact E].
Qed.
End packet.

(** C5: a client's Initial reaches the server. The keys derived from a
    connection id are those of RFC 9001 5.2 (version 1, and any version that is
    not 2) and RFC 9369 3.3 (version 2), for both sides and whatever the arrays
    held. The builder refuses a chunk that is empty or whose CRYPTO frame
    exceeds 1200 bytes; otherwise it writes one packet of 1200 to 1270 bytes
    exactly when it fits the output array. The packet, with anything behind it
    in a datagram of up to 1500, parses to the id the keys are derived from, and
    opening it under that id and the same version gives the CRYPTO frame of the
    chunk followed by PADDING. *)
Theorem initial_packets_cross M cached d version out ck sk room ck' sk' largest :
  cpu_ok M -> ip_ok d -> is_u32 version -> keys_ok ck -> sized sk -> zlen room = 1200 -> zlen out < span_max ->
  pn_recoverable largest (ip_pn d) -> keys_ok ck' -> sized sk' ->
  (forall dcid is_server v, initial_derive dcid is_server v ck = Some (rfc_initial_keys dcid is_server v ck)) /\
  let build := initpkt_build_ver M cached version d out ck sk room in
  if bool_decide (ip_crypto d = []) then build = Some (None, out)
  else exists frame, seg_wire (ip_seg d) = Some frame /\
    if zlen frame <=? 1200 then exists w, bytes_ok w /\ 1200 <= zlen w <= 1270 /\
      build = Some (if zlen out <? zlen w then (None, out) else (Some (zlen w), splice out 0 w)) /\
      forall rest, bytes_ok rest -> zlen (w ++ rest) <= 1500 -> exists x, lhdr_parse (w ++ rest) true = Ok x /\ l_dcid x = ip_dcid d /\
        delivers (initpkt_open_ver M cached (l_dcid x) version (w ++ rest) largest ck' sk') (padded d frame)
    else build = Some (None, out).
Proof.
  intros HM Hd Hv Hck Hsk Hr Hout Hpn Hck' Hsk'. split; [intros dcid s v; apply initial_derive_exact; by apply keys_sized|]. cbv zeta.
  pose proof (initpkt_build_spec M HM cached d Hd version Hv ck sk room largest out Hck Hsk Hr Hpn Hout) as H. case_bool_decide; [exact H|].
  destruct H as (frame & Hf & Bf & H). exists frame. split; [exact Hf|]. destruct (Z.leb_spec (zlen frame) 1200) as [Hfit|Hno]; [|exact H].
  destruct H as (l & Hl & Ll & E). cbv zeta in E. destruct (ip_packet_shape M HM cached d Hd version Hv frame Bf Hfit ck Hck largest Hpn l Hl Ll) as (Bw & _ & Lw).
  exists (ip_packet d version frame ck l). split; [exact Bw|]. split; [exact Lw|]. split; [exact E|]. intros rest Hrest Lr.
  destruct (ip_parsed M HM cached d Hd version Hv frame Bf Hfit ck Hck largest Hpn l rest Hl Ll Hrest Lr) as (tok & Ex).
  eexists. split; [exact Ex|]. split; [reflexivity|]. cbn [l_dcid].
  eapply opened_as_delivers. exact (ip_opened M HM cached d Hd version Hv frame Bf Hfit ck Hck largest Hpn l rest ck' sk' Hl Ll Hrest Lr Hck' Hsk').
Qed.

(** RFC 9001 A.1: the client keys of the id 8394c8f03e515708. *)
Definition a1_dcid : list Z := be_bytes 8 0x8394c8f03e515708.
Definition held (b : Z) : initial_keys := mk_keys (replicate 32 b) (replicate 12 b) (replicate 32 b).
Definition a1_desc : initpkt_desc := mk_ip a1_dcid [] [1; 0; 0; 3; 9; 9; 9] 2 0.

Lemma held_ok b : is_u8 b -> keys_ok (held b).
Proof. intros H. split; [|split]; (split; [by apply Forall_replicate | apply length_replicate]). Qed.

Lemma initial_packets_cross_witness :
  initial_derive a1_dcid false VERSION_1 (held 7) = Some (mk_keys (be_bytes 16 0x1f369613dd76d5467730efcbe3b1a22d ++ replicate 16 7)
    (be_bytes 12 0xfa044b2f42a3fd3b46fb255c) (be_bytes 16 0x9f50449e04a0e810283a1e9933adedd2 ++ replicate 16 7)) /\
  exists w, 1200 <= zlen w /\ initpkt_build_ver model_cpu 0 VERSION_1 a1_desc (replicate 1300 0) (held 7) (held 8) (replicate 1200 5) =
      Some (if zlen (replicate 1300 0) <? zlen w then (None, replicate 1300 0) else (Some (zlen w), splice (replicate 1300 0) 0 w)) /\
    exists x, lhdr_parse w true = Ok x /\ delivers (initpkt_open_ver model_cpu 0 (l_dcid x) VERSION_1 w 1 (held 1) (held 2)) (padded a1_desc [6; 0; 7; 1; 0; 0; 3; 9; 9; 9]).
Proof.
  split; [vm_compute; reflexivity|].
  assert (Hd : ip_ok a1_desc) by (unfold ip_ok, a1_desc; cbn [ip_dcid ip_scid ip_crypto ip_crypto_off]; split_and!; try (vm_compute; congruence); try apply be_bytes_ok; repeat constructor; vm_compute; congruence).
  assert (Hpn : pn_recoverable 1 (ip_pn a1_desc)) by (repeat split; vm_compute; congruence).
  destruct (initial_packets_cross model_cpu 0 a1_desc VERSION_1 (replicate 1300 0) (held 7) (held 8) (replicate 1200 5) (held 1) (held 2) 1 model_cpu_ok Hd
    ltac:(split; vm_compute; congruence) (held_ok 7 ltac:(unfold is_u8; lia)) (keys_sized _ (held_ok 8 ltac:(unfold is_u8; lia))) ltac:(reflexivity) ltac:(vm_compute; reflexivity) Hpn
    (held_ok 1 ltac:(unfold is_u8; lia)) (keys_sized _ (held_ok 2 ltac:(unfold is_u8; lia)))) as [_ H].
  rewrite bool_decide_false in H by discriminate. destruct H as (frame & Hf & H).
  assert (Ef : frame = [6; 0; 7; 1; 0; 0; 3; 9; 9; 9]) by (vm_compute in Hf; congruence). subst frame. change (zlen [6; 0; 7; 1; 0; 0; 3; 9; 9; 9] <=? 1200) with true in H.
  destruct H as (w & _ & [Lw Lw'] & E & H). exists w. split; [exact Lw|]. split; [exact E|].
  destruct (H [] ltac:(constructor) ltac:(rewrite app_nil_r; lia)) as (x & Ex & _ & D). rewrite app_nil_r in Ex, D. exists x. split; [exact Ex | exact D].
Defined.
