(* ===== verification/Srvboot.v ===== *)
(** * The server's cold start: a ClientHello from Initial datagrams

    src/src/app/http3/server/srvboot/srvboot_acc.c and srvboot_zerortt.c (the
    accumulator of a nascent connection), srvboot.c (what is an Initial),
    srvboot_seal.c (the packet number of an opened Initial), the datagram
    split of src/src/transport/io/udp/udploop/rxloop.c, and the first steps of
    src/src/app/http3/server/srvrun/srvrun_wt.c. The accumulator's bytes are
    untrusted: feeding it is proved to stay inside every buffer. That it hands
    over the ClientHello the client sent is the subject of Hello. *)
From stdpp Require Import base numbers list option.
From Stdlib Require Import ZArith Lia.
From S2P Require Import Prelude Bytes Varint Frames Framewalk PktNum Header HeaderSafe Packets Reassembly Sha2 Aes Ghash Gcm Protect Suites Unprotect PktProt InitPkt.
Open Scope Z_scope.

(** ** rxloop.c *)

(** The packets of a datagram as offsets and lengths, at most [max]. *)
Fixpoint split_loop (max : nat) (it : coalesce_iter) : option (list (Z * Z)) :=
  match max with
  | O => Some []
  | S max' =>
      match coalesce_next it with
      | Oob => None
      | Fail => Some []
      | Ok (c, it') => r ← split_loop max' it'; Some ((ci_off it, co_len c) :: r)
      end
  end.
(* src/src/transport/io/udp/udploop/rxloop.c : udploop_split *)
Definition udploop_split (dgram : list Z) (max : nat) : option (list (Z * Z)) :=
  split_loop max (coalesce_begin dgram (zlen dgram)).

(** ** srvboot.c, srvboot_seal.c *)

(* src/src/app/http3/server/srvboot/srvboot.c : srvboot_is_long_initial *)
Definition srvboot_is_long_initial (byte0 version : Z) : bool := bool_decide (packet_long_type byte0 version = LT_INITIAL).
(* src/src/app/http3/server/srvboot/srvboot.c : srvboot_is_initial_sized *)
Definition srvboot_is_initial_sized (dg : list Z) : option bool :=
  if 6 <=? zlen dg then b ← load dg 0; Some (negb (Z.land b 0x80 =? 0)) else Some false.
(* src/src/app/http3/server/srvboot/srvboot.c : wired_srvboot_is_initial *)
Definition wired_srvboot_is_initial (dg : list Z) : option bool :=
  s ← srvboot_is_initial_sized dg;
  if negb s then Some false
  else
    b ← load dg 0; v ← be_get_be32 dg 1;
    if negb (srvboot_is_long_initial b v) then Some false
    else n ← load dg 5; Some (6 + n <=? zlen dg).
(** The packet is the opened one. *)
(* src/src/app/http3/server/srvboot/srvboot_seal.c : srvboot_initial_pn *)
Definition srvboot_initial_pn (dg : list Z) (largest_pn : Z) : option Z :=
  match lhdr_parse dg true with
  | Oob => None
  | Fail => Some 0
  | Ok h => b ← load dg 0; pnum_decode (drop (Z.to_nat (l_pn_off h)) dg) (lhdr_pn_len b) largest_pn
  end.

(** ** The accumulator *)

Definition WIRED_SRVBOOT_ZERORTT_MAX : Z := 32.
Definition WIRED_SRVBOOT_ZERORTT_DG_MAX : Z := 1500.
Definition SRVBOOT_ACC_PKTS : nat := 4.

(** [sa_mem] is [cr_mem]; [sa_zr] the held datagrams' rows. *)
(* src/src/app/http3/server/srvboot/srvboot.h : wired_srvboot_acc *)
Record wired_srvboot_acc := mk_acc {
  sa_cr : crecv; sa_mem : list Z; sa_hdr : wired_header; sa_largest_pn : Z; sa_any : bool; sa_opened : Z;
  sa_ack_pn : Z; sa_hrr_off : Z; sa_ini_tx_off : Z; sa_ect0 : Z; sa_ect1 : Z; sa_ce : Z;
  sa_alt_dcid : list Z; sa_alt_dcid_len : Z; sa_zr : list (list Z); sa_zr_len : list Z; sa_zr_n : Z }.

Definition with_cr (a : wired_srvboot_acc) (cr : crecv) (mem : list Z) (largest opened : Z) : wired_srvboot_acc :=
  mk_acc cr mem (sa_hdr a) largest (sa_any a) opened (sa_ack_pn a) (sa_hrr_off a) (sa_ini_tx_off a) (sa_ect0 a) (sa_ect1 a) (sa_ce a)
    (sa_alt_dcid a) (sa_alt_dcid_len a) (sa_zr a) (sa_zr_len a) (sa_zr_n a).
Definition with_hdr (a : wired_srvboot_acc) (h : wired_header) : wired_srvboot_acc :=
  mk_acc (sa_cr a) (sa_mem a) h (sa_largest_pn a) true (sa_opened a) (sa_ack_pn a) (sa_hrr_off a) (sa_ini_tx_off a) (sa_ect0 a) (sa_ect1 a) (sa_ce a)
    (sa_alt_dcid a) (sa_alt_dcid_len a) (sa_zr a) (sa_zr_len a) (sa_zr_n a).
Definition with_ack_pn (a : wired_srvboot_acc) (pn : Z) : wired_srvboot_acc :=
  mk_acc (sa_cr a) (sa_mem a) (sa_hdr a) (sa_largest_pn a) (sa_any a) (sa_opened a) pn (sa_hrr_off a) (sa_ini_tx_off a) (sa_ect0 a) (sa_ect1 a) (sa_ce a)
    (sa_alt_dcid a) (sa_alt_dcid_len a) (sa_zr a) (sa_zr_len a) (sa_zr_n a).
Definition with_ecn (a : wired_srvboot_acc) (e0 e1 ce : Z) : wired_srvboot_acc :=
  mk_acc (sa_cr a) (sa_mem a) (sa_hdr a) (sa_largest_pn a) (sa_any a) (sa_opened a) (sa_ack_pn a) (sa_hrr_off a) (sa_ini_tx_off a) e0 e1 ce
    (sa_alt_dcid a) (sa_alt_dcid_len a) (sa_zr a) (sa_zr_len a) (sa_zr_n a).
Definition with_alt (a : wired_srvboot_acc) (alt : list Z) (n : Z) : wired_srvboot_acc :=
  mk_acc (sa_cr a) (sa_mem a) (sa_hdr a) (sa_largest_pn a) (sa_any a) (sa_opened a) (sa_ack_pn a) (sa_hrr_off a) (sa_ini_tx_off a) (sa_ect0 a) (sa_ect1 a) (sa_ce a)
    alt n (sa_zr a) (sa_zr_len a) (sa_zr_n a).
Definition with_zr (a : wired_srvboot_acc) (rows : list (list Z)) (lens : list Z) (n : Z) : wired_srvboot_acc :=
  mk_acc (sa_cr a) (sa_mem a) (sa_hdr a) (sa_largest_pn a) (sa_any a) (sa_opened a) (sa_ack_pn a) (sa_hrr_off a) (sa_ini_tx_off a) (sa_ect0 a) (sa_ect1 a) (sa_ce a)
    (sa_alt_dcid a) (sa_alt_dcid_len a) rows lens n.

(** *** srvboot_acc.c *)

(* src/src/app/http3/server/srvboot/srvboot_acc.c : wired_srvboot_acc_reset *)
Definition wired_srvboot_acc_reset (a : wired_srvboot_acc) : option wired_srvboot_acc :=
  '(cr, mem) ← crecv_init (sa_mem a) CRECV_INITIAL_BUF;
  Some (mk_acc cr mem (sa_hdr a) 0 false 0 2 0 0 0 0 0 (sa_alt_dcid a) 0 (sa_zr a) (sa_zr_len a) 0).
(* src/src/app/http3/server/srvboot/srvboot_acc.c : wired_srvboot_acc_ecn_note *)
Definition wired_srvboot_acc_ecn_note (a : wired_srvboot_acc) (ecn : Z) : wired_srvboot_acc :=
  if ecn =? 1 then with_ecn a (sa_ect0 a) (u64 (sa_ect1 a + 1)) (sa_ce a)
  else if ecn =? 2 then with_ecn a (u64 (sa_ect0 a + 1)) (sa_ect1 a) (sa_ce a)
  else if ecn =? 3 then with_ecn a (sa_ect0 a) (sa_ect1 a) (u64 (sa_ce a + 1))
  else a.

Fixpoint cid_diff_loop (x y : list Z) (i : Z) (n : nat) (diff : Z) : option Z :=
  match n with
  | O => Some diff
  | S n' => a ← load x i; b ← load y i; cid_diff_loop x y (i + 1) n' (Z.lor diff (Z.lxor a b))
  end.
(* src/src/app/http3/server/srvboot/srvboot_acc.c : srvboot_cid_diff@41-47 *)
Definition srvboot_cid_diff (x y : list Z) (len : Z) : option Z := cid_diff_loop x y 0 (Z.to_nat len) 0.
(* src/src/app/http3/server/srvboot/srvboot_acc.c : srvboot_cid_match@50-55 *)
Definition srvboot_cid_match (x : list Z) (len : Z) (y : list Z) (ylen : Z) : option bool :=
  if negb (len =? ylen) then Some false else d ← srvboot_cid_diff x y len; Some (d =? 0).
(* src/src/app/http3/server/srvboot/srvboot_acc.c : srvboot_acc_alt_match@59-63 *)
Definition srvboot_acc_alt_match (a : wired_srvboot_acc) (h : wired_header) : option bool :=
  if sa_alt_dcid_len a =? 0 then Some false else srvboot_cid_match (h_dcid h) (h_dcid_len h) (sa_alt_dcid a) (sa_alt_dcid_len a).
(* src/src/app/http3/server/srvboot/srvboot_acc.c : srvboot_acc_dcid_ok@68-73 *)
Definition srvboot_acc_dcid_ok (a : wired_srvboot_acc) (h : wired_header) : option bool :=
  m ← srvboot_cid_match (h_dcid h) (h_dcid_len h) (h_dcid (sa_hdr a)) (h_dcid_len (sa_hdr a));
  if (m : bool) then Some true else srvboot_acc_alt_match a h.
(** [header0]: the local struct, every field of which a long header sets. *)
(* src/src/app/http3/server/srvboot/srvboot_acc.c : srvboot_acc_same_dcid@78-85 *)
Definition srvboot_acc_same_dcid (a : wired_srvboot_acc) (dg : list Z) : option bool :=
  match wired_header_parse header0 dg with
  | Oob => None
  | Fail => Some false
  | Ok (h, _) =>
      m ← srvboot_acc_dcid_ok a h;
      if negb m then Some false else srvboot_cid_match (h_scid h) (h_scid_len h) (h_scid (sa_hdr a)) (h_scid_len (sa_hdr a))
  end.
(* src/src/app/http3/server/srvboot/srvboot_acc.c : srvboot_acc_bind@88-94 *)
Definition srvboot_acc_bind (a : wired_srvboot_acc) (dg : list Z) : option (bool * wired_srvboot_acc) :=
  match wired_header_parse (sa_hdr a) dg with
  | Oob => None
  | Fail => Some (false, a)
  | Ok (h, n) => if n =? 0 then Some (false, a) else Some (true, with_hdr a h)
  end.
(* src/src/app/http3/server/srvboot/srvboot_acc.c : srvboot_acc_admit *)
Definition srvboot_acc_admit (a : wired_srvboot_acc) (dg : list Z) : option (bool * wired_srvboot_acc) :=
  i ← wired_srvboot_is_initial dg;
  if negb i then Some (false, a)
  else if sa_any a then m ← srvboot_acc_same_dcid a dg; Some (m, a)
  else srvboot_acc_bind a dg.
(** [None] inside: not an Initial. *)
(* src/src/app/http3/server/srvboot/srvboot_acc.c : srvboot_pkt_initial_version@113-119 *)
Definition srvboot_pkt_initial_version (pkt : list Z) : option (option Z) :=
  if zlen pkt <? 6 then Some None
  else v ← be_get_be32 pkt 1; b ← load pkt 0; Some (if srvboot_is_long_initial b v then Some v else None).
(* src/src/app/http3/server/srvboot/srvboot_acc.c : srvboot_cid_len_ok@142-144 *)
Definition srvboot_cid_len_ok (n : Z) : bool := negb (n =? 0) && (n <=? WIRED_MAX_CID_LEN).
(* src/src/app/http3/server/srvboot/srvboot_acc.c : wired_srvboot_acc_allow *)
Definition wired_srvboot_acc_allow (a : wired_srvboot_acc) (dcid : list Z) : option wired_srvboot_acc :=
  if negb (srvboot_cid_len_ok (zlen dcid)) then Some a
  else alt ← copy (sa_alt_dcid a) 0 dcid 0 (length dcid); Some (with_alt a alt (u8 (zlen dcid))).

Section boot.
Context (M : cpu) (cached : Z).
(** What the key arrays on the stack hold before they are derived. *)
Context (ck sk : initial_keys).

(** 1 or 0, the accumulator and the packet, opened in place. *)
(* src/src/app/http3/server/srvboot/srvboot_acc.c : srvboot_acc_take *)
Definition srvboot_acc_take (a : wired_srvboot_acc) (pkt : list Z) : option (Z * wired_srvboot_acc * list Z) :=
  odcid ← mem_sub (h_dcid (sa_hdr a)) 0 (h_dcid_len (sa_hdr a));
  v ← srvboot_pkt_initial_version pkt;
  match v with
  | None => Some (0, a, pkt)
  | Some v =>
      '(pkt, payload) ← initpkt_open_ver M cached odcid v pkt (sa_largest_pn a) ck sk;
      match payload with
      | None => Some (0, a, pkt)
      | Some (o, n) =>
          frames ← mem_sub pkt o n;
          '(_, cr, mem) ← crecv_collect (sa_cr a) (sa_mem a) frames;
          pn ← srvboot_initial_pn pkt (sa_largest_pn a);
          Some (1, with_cr a cr mem (u64_max (sa_largest_pn a) pn) (u64 (sa_opened a + 1)), pkt)
      end
  end.

(** *** srvboot_zerortt.c *)

(* src/src/app/http3/server/srvboot/srvboot_zerortt.c : wired_srvboot_is_zerortt *)
Definition wired_srvboot_is_zerortt (dg : list Z) : option bool :=
  s ← srvboot_is_initial_sized dg;
  if negb s then Some false
  else b ← load dg 0; v ← be_get_be32 dg 1; Some (bool_decide (packet_long_type b v = LT_0RTT)).
(* src/src/app/http3/server/srvboot/srvboot_zerortt.c : srvboot_zerortt_fits@51-54 *)
Definition srvboot_zerortt_fits (a : wired_srvboot_acc) (dg : list Z) : bool :=
  (sa_zr_n a <? WIRED_SRVBOOT_ZERORTT_MAX) && (zlen dg <=? WIRED_SRVBOOT_ZERORTT_DG_MAX).
(* src/src/app/http3/server/srvboot/srvboot_zerortt.c : srvboot_zerortt_buffer@58-67 *)
Definition srvboot_zerortt_buffer (a : wired_srvboot_acc) (dg : list Z) : option wired_srvboot_acc :=
  if negb (srvboot_zerortt_fits a dg) then Some a
  else
    row ← load (sa_zr a) (sa_zr_n a);
    row ← copy row 0 dg 0 (length dg);
    rows ← store (sa_zr a) (sa_zr_n a) row;
    lens ← store (sa_zr_len a) (sa_zr_n a) (zlen dg);
    Some (with_zr a rows lens (u64 (sa_zr_n a + 1))).
(* src/src/app/http3/server/srvboot/srvboot_zerortt.c : srvboot_acc_absorb_one@76-82 *)
Definition srvboot_acc_absorb_one (a : wired_srvboot_acc) (pkt : list Z) : option (Z * wired_srvboot_acc * list Z) :=
  z ← wired_srvboot_is_zerortt pkt;
  if (z : bool) then a' ← srvboot_zerortt_buffer a pkt; Some (0, a', pkt) else srvboot_acc_take a pkt.

(** The packets of a datagram in order, each opened in place. *)
Fixpoint absorb_loop (a : wired_srvboot_acc) (dg : list Z) (pkts : list (Z * Z)) (got : Z) : option (Z * wired_srvboot_acc * list Z) :=
  match pkts with
  | [] => Some (got, a, dg)
  | (off, len) :: rest =>
      pkt ← mem_sub dg off len;
      '(r, a', pkt') ← srvboot_acc_absorb_one a pkt;
      dg' ← mem_put dg off pkt';
      absorb_loop a' dg' rest (u64 (got + r))
  end.
(* src/src/app/http3/server/srvboot/srvboot_zerortt.c : srvboot_acc_feed_initial@86-98 *)
Definition srvboot_acc_feed_initial (a : wired_srvboot_acc) (dg : list Z) : option (bool * wired_srvboot_acc * list Z) :=
  '(ok, a') ← srvboot_acc_admit a dg;
  if negb ok then Some (false, a', dg)
  else
    pkts ← udploop_split dg SRVBOOT_ACC_PKTS;
    '(got, a'', dg') ← absorb_loop a' dg pkts 0;
    Some (negb (got =? 0), a'', dg').
(* src/src/app/http3/server/srvboot/srvboot_zerortt.c : wired_srvboot_acc_feed *)
Definition wired_srvboot_acc_feed (a : wired_srvboot_acc) (dg : list Z) : option (bool * wired_srvboot_acc * list Z) :=
  z ← wired_srvboot_is_zerortt dg;
  if (z : bool) then a' ← srvboot_zerortt_buffer a dg; Some (true, a', dg) else srvboot_acc_feed_initial a dg.
(* src/src/app/http3/server/srvboot/srvboot_zerortt.c : wired_srvboot_acc_hold *)
Definition wired_srvboot_acc_hold (a : wired_srvboot_acc) (dg : list Z) : option wired_srvboot_acc := srvboot_zerortt_buffer a dg.
(* src/src/app/http3/server/srvboot/srvboot_zerortt.c : wired_srvboot_acc_zerortt_count *)
Definition wired_srvboot_acc_zerortt_count (a : wired_srvboot_acc) : Z := sa_zr_n a.
(** The bytes of the view. *)
(* src/src/app/http3/server/srvboot/srvboot_zerortt.c : wired_srvboot_acc_zerortt_take *)
Definition wired_srvboot_acc_zerortt_take (a : wired_srvboot_acc) (i : Z) : option (list Z) :=
  if sa_zr_n a <=? i then Some []
  else row ← load (sa_zr a) i; n ← load (sa_zr_len a) i; mem_sub row 0 n.
(* src/src/app/http3/server/srvboot/srvboot_zerortt.c : wired_srvboot_acc_complete *)
Definition wired_srvboot_acc_complete (a : wired_srvboot_acc) : option bool :=
  if sa_any a then crecv_complete_message_at (sa_cr a) (sa_mem a) (sa_hrr_off a) else Some false.
(* src/src/tls/handshake/core/tls/cryptolevel.c : cryptolevel_unconsumed_on_promote *)
Definition cryptolevel_unconsumed_on_promote (received_to read_upto : Z) : bool := read_upto <? received_to.
(* src/src/app/http3/server/srvboot/srvboot_zerortt.c : wired_srvboot_acc_trailing *)
Definition wired_srvboot_acc_trailing (a : wired_srvboot_acc) : option bool :=
  c ← wired_srvboot_acc_complete a;
  if negb c then Some false
  else e ← crecv_message_end_at (sa_mem a) (sa_hrr_off a); Some (cryptolevel_unconsumed_on_promote (cr_received_to (sa_cr a)) e).
(* src/src/app/http3/server/srvboot/srvboot_seal.c : wired_srvboot_flight_pn *)
Definition wired_srvboot_flight_pn (a : wired_srvboot_acc) : Z * wired_srvboot_acc :=
  if negb (sa_hrr_off a =? 0) || (2 <? sa_ack_pn a) then (sa_ack_pn a, with_ack_pn a (u64 (sa_ack_pn a + 1))) else (1, a).

(** *** srvrun_wt.c: a datagram on a slot whose connection is not up *)

(* src/src/app/http3/server/srvrun/srvrun_wt.c : srvrun_boot_ecn@11-13 *)
Definition srvrun_boot_ecn (fed zerortt : bool) (ecn : Z) : Z := if fed && negb zerortt then ecn else 0.
(** [up]: the slot's connection is established. *)
(* src/src/app/http3/server/srvrun/srvrun_wt.c : srvrun_boot_feed *)
Definition srvrun_boot_feed (up : bool) (a : wired_srvboot_acc) (dg : list Z) (ecn : Z) : option (bool * wired_srvboot_acc * list Z) :=
  a ← (if up || negb (sa_any a) then wired_srvboot_acc_reset a else Some a);
  zerortt ← wired_srvboot_is_zerortt dg;
  '(fed, a, dg) ← wired_srvboot_acc_feed a dg;
  Some (fed, wired_srvboot_acc_ecn_note a (srvrun_boot_ecn fed zerortt ecn), dg).
End boot.

Definition SRVRUN_BOOT_PENDING : Z := 2.
Definition ERR_PROTOCOL_VIOLATION : Z := 0x0a.
Definition ERR_CRYPTO_BUFFER_EXCEEDED : Z := 0x0d.
(* src/src/app/http3/server/srvrun/srvrun_wt.c : srvrun_boot_salvage@40-42 *)
Definition srvrun_boot_salvage (a : wired_srvboot_acc) : Z := if sa_opened a =? 0 then 0 else SRVRUN_BOOT_PENDING.
(* src/src/app/http3/server/srvrun/srvrun_wt.c : srvrun_boot_crypto_error@49-54 *)
Definition srvrun_boot_crypto_error (a : wired_srvboot_acc) : option Z :=
  if negb (cr_overflow (sa_cr a) =? 0) then Some ERR_CRYPTO_BUFFER_EXCEEDED
  else t ← wired_srvboot_acc_trailing a; Some (if (t : bool) then ERR_PROTOCOL_VIOLATION else 0).
(* src/src/app/http3/server/srvrun/srvrun_wt.c : srvrun_boot_hold@57-60 *)
Definition srvrun_boot_hold (a : wired_srvboot_acc) : option bool :=
  c ← wired_srvboot_acc_complete a;
  if negb c then Some true else e ← srvrun_boot_crypto_error a; Some (negb (e =? 0)).

(** ** The accumulator's invariant *)

Record acc_ok (a : wired_srvboot_acc) : Prop := {
  ao_cr : crecv_wf (sa_cr a) (sa_mem a);
  ao_cap : cr_cap (sa_cr a) = CRECV_INITIAL_BUF;
  ao_arrays : arrays_ok (sa_hdr a);
  ao_hdr : sa_any a = true -> header_ok (sa_hdr a);
  ao_hrr : 0 <= sa_hrr_off a <= CRECV_INITIAL_BUF;
  ao_alt : zlen (sa_alt_dcid a) = WIRED_MAX_CID_LEN /\ 0 <= sa_alt_dcid_len a <= WIRED_MAX_CID_LEN;
  ao_zr : zlen (sa_zr a) = WIRED_SRVBOOT_ZERORTT_MAX /\ Forall (fun r : list Z => zlen r = WIRED_SRVBOOT_ZERORTT_DG_MAX) (sa_zr a) /\
    zlen (sa_zr_len a) = WIRED_SRVBOOT_ZERORTT_MAX /\ 0 <= sa_zr_n a <= WIRED_SRVBOOT_ZERORTT_MAX /\
    Forall (fun n => 0 <= n <= WIRED_SRVBOOT_ZERORTT_DG_MAX) (take (Z.to_nat (sa_zr_n a)) (sa_zr_len a)) }.

(** A received datagram: at most the 1500 bytes of an Ethernet frame. *)
Definition dgram_ok (dg : list Z) : Prop := bytes_ok dg /\ zlen dg <= 1500.

Lemma dgram_span dg : dgram_ok dg -> span_ok dg.
Proof. intros [H1 H2]. split; [exact H1 | unfold span_max; lia]. Qed.

(** ** Feeding any bytes *)

Lemma be32_total p i : 0 <= i -> i + 4 <= zlen p -> exists v, be_get_be32 p i = Some v.
Proof.
  intros H0 H. unfold be_get_be32. destruct (load_is_Some p i) as [? ->]; [lia|]. destruct (load_is_Some p (i + 1)) as [? ->]; [lia|].
  destruct (load_is_Some p (i + 2)) as [? ->]; [lia|]. destruct (load_is_Some p (i + 3)) as [? ->]; [lia|]. osimpl. by eexists.
Qed.

Lemma sized_total dg : exists s, srvboot_is_initial_sized dg = Some s /\ (s = true -> 6 <= zlen dg /\ exists b, load dg 0 = Some b /\ packet_is_long b = true).
Proof.
  unfold srvboot_is_initial_sized, packet_is_long. destruct (Z.leb_spec 6 (zlen dg)); [|eexists; split; [reflexivity | discriminate]].
  destruct (load_is_Some dg 0) as [b ->]; [lia|]. osimpl. eexists. split; [reflexivity|]. intros Hb. split; [lia|]. exists b. split; [reflexivity | exact Hb].
Qed.

Lemma is_initial_total dg : exists i, wired_srvboot_is_initial dg = Some i /\ (i = true -> exists b, load dg 0 = Some b /\ packet_is_long b = true).
Proof.
  unfold wired_srvboot_is_initial. destruct (sized_total dg) as (s & -> & Hs). osimpl. destruct s; cbn [negb]; [|eexists; split; [reflexivity | discriminate]].
  destruct (Hs eq_refl) as (H6 & b & E & Hb). rewrite E. osimpl. destruct (be32_total dg 1) as [v ->]; [lia..|]. osimpl.
  destruct (srvboot_is_long_initial b v); cbn [negb]; [|eexists; split; [reflexivity | discriminate]].
  destruct (load_is_Some dg 5) as [n ->]; [lia|]. osimpl. eexists. split; [reflexivity|]. intros _. by exists b.
Qed.

Lemma is_zerortt_total dg : exists z, wired_srvboot_is_zerortt dg = Some z.
Proof.
  unfold wired_srvboot_is_zerortt. destruct (sized_total dg) as (s & -> & Hs). osimpl. destruct s; cbn [negb]; [|by eexists].
  destruct (Hs eq_refl) as (H6 & b & E & Hb). rewrite E. osimpl. destruct (be32_total dg 1) as [v ->]; [lia..|]. osimpl. by eexists.
Qed.

Lemma cid_diff_total x y n : forall i d, 0 <= i -> i + Z.of_nat n <= zlen x -> i + Z.of_nat n <= zlen y -> exists r, cid_diff_loop x y i n d = Some r.
Proof.
  induction n as [|n IH]; intros i d Hi Hx Hy; cbn [cid_diff_loop]; [by eexists|]. destruct (load_is_Some x i) as [? ->]; [lia|]. destruct (load_is_Some y i) as [? ->]; [lia|]. osimpl. apply IH; lia.
Qed.

Lemma cid_match_total x len y ylen : 0 <= len <= zlen x -> ylen <= zlen y -> exists m, srvboot_cid_match x len y ylen = Some m.
Proof.
  intros Hx Hy. unfold srvboot_cid_match, srvboot_cid_diff. destruct (Z.eqb_spec len ylen); cbn [negb]; [|by eexists].
  destruct (cid_diff_total x y (Z.to_nat len) 0 0) as [d ->]; [lia..|]. osimpl. by eexists.
Qed.

Lemma admit_safe a dg : acc_ok a -> span_ok dg -> exists ok a', srvboot_acc_admit a dg = Some (ok, a') /\ acc_ok a' /\
  (ok = true -> sa_any a' = true) /\ (a' = a \/ exists h, a' = with_hdr a h).
Proof.
  intros Ha Hp. unfold srvboot_acc_admit. destruct (is_initial_total dg) as (i & -> & Hi). osimpl. destruct i; cbn [negb]; [|by eexists _, _; split_and!; [reflexivity | exact Ha | discriminate | left]].
  destruct (Hi eq_refl) as (b & Eb & Hb). destruct (sa_any a) eqn:Eany.
  - unfold srvboot_acc_same_dcid. pose proof (header_long_safe header0 dg b ltac:(split; reflexivity) Hp Eb Hb) as Hh.
    destruct (ao_hdr a Ha Eany) as (H1 & H2 & H3 & H4). destruct (ao_alt a Ha) as [H5 H6].
    destruct (wired_header_parse header0 dg) as [[g off]| |]; [|osimpl; by eexists _, _; split_and!; [reflexivity | exact Ha | discriminate | left] | destruct Hh].
    destruct Hh as ((G1 & G2 & G3 & G4) & _). unfold srvboot_acc_dcid_ok, srvboot_acc_alt_match.
    destruct (cid_match_total (h_dcid g) (h_dcid_len g) (h_dcid (sa_hdr a)) (h_dcid_len (sa_hdr a))) as [m1 ->]; [lia..|]. osimpl.
    assert (exists m, (if m1 then Some true else if sa_alt_dcid_len a =? 0 then Some false else srvboot_cid_match (h_dcid g) (h_dcid_len g) (sa_alt_dcid a) (sa_alt_dcid_len a)) = Some m) as [m ->].
    { destruct m1; [by eexists|]. destruct (sa_alt_dcid_len a =? 0); [by eexists|]. apply cid_match_total; lia. }
    osimpl. destruct (cid_match_total (h_scid g) (h_scid_len g) (h_scid (sa_hdr a)) (h_scid_len (sa_hdr a))) as [m2 Em2]; [lia..|].
    destruct m; cbn [negb]; rewrite ?Em2; osimpl; eexists _, _; (split_and!; [reflexivity | exact Ha | intros; exact Eany | by left]).
  - unfold srvboot_acc_bind. pose proof (header_long_safe (sa_hdr a) dg b (ao_arrays a Ha) Hp Eb Hb) as Hh.
    destruct (wired_header_parse (sa_hdr a) dg) as [[g off]| |]; [|by eexists _, _; split_and!; [reflexivity | exact Ha | discriminate | left] | destruct Hh].
    destruct Hh as (Hg & Ho & _). destruct (Z.eqb_spec off 0); [lia|]. eexists _, _. split_and!; [reflexivity | | reflexivity | right; by exists g].
    destruct Ha. constructor; cbn [with_hdr sa_cr sa_mem sa_hdr sa_any sa_hrr_off sa_alt_dcid sa_alt_dcid_len sa_zr sa_zr_len sa_zr_n]; try assumption; [|intros _; exact Hg].
    destruct Hg as (_ & G2 & _ & G4). split; assumption.
Qed.

(** ** Opening any packet *)

Lemma xor_header_mid mask bits o n (l : list Z) i : 1 <= o -> 1 <= i < o -> load (xor_header mask bits o n l) i = load l i.
Proof.
  intros Ho Hi. rewrite !load_nat by lia. unfold xor_header. rewrite list_lookup_imap. destruct (l !! Z.to_nat i); cbn; [|reflexivity]. f_equal. unfold mask_at.
  rewrite Z2Nat.id by lia. destruct (Z.eqb_spec i 0); [lia|]. destruct (Z.leb_spec o i); [lia|]. cbn [andb]. by rewrite Z.lxor_0_r.
Qed.

Lemma xor_header_head mask bits o n (l : list Z) b : load l 0 = Some b -> load (xor_header mask bits o n l) 0 = Some (Z.lxor b (Z.land (at_ mask 0) bits)).
Proof. intros E. rewrite load_nat in * by lia. unfold xor_header. rewrite list_lookup_imap, E. reflexivity. Qed.

(** The opened packet still parses, with its number in the same place. *)
Lemma opened_parses suite k o pkt x : 1 <= o -> span_ok pkt -> bytes_ok x -> zlen x = zlen pkt -> o + 4 <= zlen pkt ->
  take (Z.to_nat (o + p_n suite k HP_LONG_MASK o pkt)) x = p_hdr suite k HP_LONG_MASK o pkt ->
  (exists b, load pkt 0 = Some b /\ packet_is_long b = true) ->
  agree o pkt x /\ exists b', load x 0 = Some b' /\ packet_is_long b' = true.
Proof.
  intros Ho [Hb Hl] Bx Lx Hz Ht (b & Eb & Hlong). pose proof (p_n_range suite k HP_LONG_MASK o pkt) as Hn. unfold p_hdr in Ht.
  assert (T : forall i, 0 <= i < o -> load x i = load (p_clear suite k HP_LONG_MASK o pkt) i).
  { intros i Hi. rewrite <- (load_take x (o + p_n suite k HP_LONG_MASK o pkt)) by lia. rewrite Ht. apply load_take. lia. }
  split; [split; [by symmetry|]|].
  - intros i Hi. rewrite T by lia. symmetry. by apply xor_header_mid.
  - eexists. rewrite T by lia. split; [unfold p_clear; by apply xor_header_head|]. rewrite <- Hlong.
    apply masked_first. exact (bytes_ok_lookup pkt 0 b Hb Eb).
Qed.

Section safety.
Context (M : cpu) (HM : cpu_ok M) (cached : Z) (ck sk : initial_keys) (Hck : keys_ok ck) (Hsk : sized sk).

Lemma pnum_total x o n largest : bytes_ok x -> 0 <= o -> 1 <= n <= 4 -> o + n <= zlen x -> exists pn, pnum_decode (drop (Z.to_nat o) x) n largest = Some pn.
Proof.
  intros Hb Ho Hn Hl. destruct (pnum_decode_local (take (Z.to_nat n) (drop (Z.to_nat o) x)) n largest) as [pn E]; [by apply bytes_ok_take, bytes_ok_drop | exact Hn | |].
  - rewrite zlen_take; [reflexivity|]. rewrite zlen_drop; lia.
  - exists pn. rewrite <- (take_drop (Z.to_nat n) (drop (Z.to_nat o) x)). apply E.
Qed.

Lemma initial_open_safe dcid v pkt largest : dgram_ok pkt -> (exists b, load pkt 0 = Some b /\ packet_is_long b = true) ->
  exists x r, initpkt_open_ver M cached dcid v pkt largest ck sk = Some (x, r) /\ dgram_ok x /\ zlen x = zlen pkt /\
    forall o n, r = Some (o, n) -> (exists p, mem_sub x o n = Some p /\ span_ok p) /\ exists pn, srvboot_initial_pn x largest = Some pn.
Proof.
  intros Hp Hlong. pose proof (dgram_span _ Hp) as Hs. pose proof Hp as [Hb Hl]. unfold initpkt_open_ver, initpkt_derive_ver.
  rewrite !initial_derive_exact by (assumption || by apply keys_sized). osimpl. unfold rx_packet. cbn [rd_pkt rd_is_initial rd_largest_pn].
  pose proof (lhdr_parse_safe pkt Hs) as H. destruct (lhdr_parse pkt true) as [h| |]; [|exists pkt, None; split_and!; [reflexivity | exact Hp | reflexivity | discriminate] | destruct H].
  destruct H as (Ho & Hlen & Hloc). set (k := mk_pkeys _ _). assert (Hk : keys_ok (pk_keys k)) by (by apply rfc_initial_ok).
  assert (Hhp : pk_hp k = aes128_init (ik_hp (pk_keys k))) by (unfold k; cbn [pk_hp pk_keys]; reflexivity). clearbody k.
  destruct (vpn_open_spec M HM cached k Hk Hhp pkt (l_pn_off h) (l_length h) largest Hb Hl ltac:(lia)) as (x & r & E & D & Bx & Lx & Hx); [unfold is_u64, VARINT_MAX in *; lia|].
  exists x, r. split; [exact E|]. split; [split; [exact Bx | lia]|]. split; [exact Lx|]. intros o n ->. destruct (Hx o n eq_refl) as (Eo & Hn & Hon & Ht).
  pose proof (p_n_range TLS_AES_128_GCM_SHA256 (pk_keys k) HP_LONG_MASK (l_pn_off h) pkt) as Hpn.
  assert (Hd : delivers (Some (x, Some (o, n))) (take (Z.to_nat n) (drop (Z.to_nat o) x))) by (exists x, o, n; split; [reflexivity | apply mem_sub_in; lia]).
  split.
  - eexists. split; [apply mem_sub_in; lia|]. split; [by apply bytes_ok_take, bytes_ok_drop|]. unfold span_max. rewrite zlen_take; [lia|]. rewrite zlen_drop; lia.
  - apply D in Hd as (Hd1 & Hd2 & _). destruct (opened_parses TLS_AES_128_GCM_SHA256 (pk_keys k) (l_pn_off h) pkt x ltac:(lia) Hs Bx Lx ltac:(lia) Ht Hlong) as (Hag & b' & Eb' & Hl').
    destruct (Hloc x b' Hag Eb' Hl') as (h' & Eh' & Eoff). unfold srvboot_initial_pn. rewrite Eh', Eb'. osimpl. rewrite Eoff.
    assert (Hnl : 1 <= lhdr_pn_len b' <= 4) by apply pn_len_range. apply pnum_total; [exact Bx | lia | exact Hnl | lia].
Qed.

Lemma collect_keeps a frames : acc_ok a -> span_ok frames -> exists ok cr mem, crecv_collect (sa_cr a) (sa_mem a) frames = Some (ok, cr, mem) /\
  crecv_wf cr mem /\ cr_cap cr = CRECV_INITIAL_BUF /\ cr_received_to (sa_cr a) <= cr_received_to cr.
Proof.
  intros Ha Hf. destruct (crecv_collect_safe (sa_cr a) (sa_mem a) frames (ao_cr a Ha) Hf) as (ok & cr & mem & E & Hz & Hc & Hr).
  destruct (ao_cr a Ha) as (W1 & W2 & W3). pose proof (ao_cap a Ha) as Hcap. exists ok, cr, mem. split; [exact E|]. split; [|split; [congruence | lia]]. split; [congruence|]. split; [congruence | lia].
Qed.

Lemma take_safe a pkt : acc_ok a -> sa_any a = true -> dgram_ok pkt -> exists r a' pkt', srvboot_acc_take M cached ck sk a pkt = Some (r, a', pkt') /\
  acc_ok a' /\ sa_any a' = true /\ dgram_ok pkt' /\ zlen pkt' = zlen pkt /\ cr_received_to (sa_cr a) <= cr_received_to (sa_cr a').
Proof.
  intros Ha Hany Hp. unfold srvboot_acc_take. destruct (ao_hdr a Ha Hany) as (H1 & H2 & _). rewrite mem_sub_in by lia. osimpl.
  assert (Stay : exists r a' pkt', Some (0, a, pkt) = Some (r, a', pkt') /\ acc_ok a' /\ sa_any a' = true /\ dgram_ok pkt' /\ zlen pkt' = zlen pkt /\ cr_received_to (sa_cr a) <= cr_received_to (sa_cr a')).
  { eexists _, _, _. split; [reflexivity|]. split_and!; try assumption; try reflexivity; lia. }
  unfold srvboot_pkt_initial_version. destruct (Z.ltb_spec (zlen pkt) 6); [osimpl; exact Stay|].
  destruct (be32_total pkt 1) as [v ->]; [lia..|]. destruct (load_is_Some pkt 0) as [b Eb]; [lia|]. rewrite Eb. osimpl.
  destruct (srvboot_is_long_initial b v) eqn:Ei; osimpl; [|exact Stay].
  assert (Hlong : packet_is_long b = true).
  { unfold srvboot_is_long_initial, packet_long_type in Ei. apply bool_decide_eq_true in Ei. destruct (packet_is_long b); [reflexivity | discriminate]. }
  destruct (initial_open_safe (take (Z.to_nat (h_dcid_len (sa_hdr a))) (drop (Z.to_nat 0) (h_dcid (sa_hdr a)))) v pkt (sa_largest_pn a) Hp ltac:(by exists b)) as (x & r & E & Hx & Lx & Hr).
  rewrite E. osimpl. destruct r as [[o n]|]; [|eexists _, _, _; split; [reflexivity|]; split_and!; try assumption; lia].
  destruct (Hr o n eq_refl) as ((p & Ep & Sp) & pn & Epn). rewrite Ep. osimpl. destruct (collect_keeps a p Ha Sp) as (ok & cr & mem & Ec & W & Hcap & Hrec).
  rewrite Ec. osimpl. rewrite Epn. osimpl. eexists _, _, _. split; [reflexivity|]. split; [|split_and!; try assumption].
  destruct Ha. constructor; cbn [with_cr sa_cr sa_mem sa_hdr sa_any sa_hrr_off sa_alt_dcid sa_alt_dcid_len sa_zr sa_zr_len sa_zr_n]; assumption.
Qed.

Lemma buffer_spec a dg : acc_ok a ->
  if srvboot_zerortt_fits a dg then exists row, zlen row = WIRED_SRVBOOT_ZERORTT_DG_MAX /\ take (length dg) row = dg /\
    srvboot_zerortt_buffer a dg = Some (with_zr a (<[Z.to_nat (sa_zr_n a) := row]> (sa_zr a)) (<[Z.to_nat (sa_zr_n a) := zlen dg]> (sa_zr_len a)) (sa_zr_n a + 1)) /\
    acc_ok (with_zr a (<[Z.to_nat (sa_zr_n a) := row]> (sa_zr a)) (<[Z.to_nat (sa_zr_n a) := zlen dg]> (sa_zr_len a)) (sa_zr_n a + 1))
  else srvboot_zerortt_buffer a dg = Some a.
Proof.
  intros Ha. unfold srvboot_zerortt_buffer. destruct (srvboot_zerortt_fits a dg) eqn:Hf; cbn [negb]; [|reflexivity].
  unfold srvboot_zerortt_fits, WIRED_SRVBOOT_ZERORTT_MAX, WIRED_SRVBOOT_ZERORTT_DG_MAX in *. destruct (ao_zr a Ha) as (L1 & F & L2 & Hn & G). unfold WIRED_SRVBOOT_ZERORTT_MAX, WIRED_SRVBOOT_ZERORTT_DG_MAX in *.
  pose proof (zlen_nonneg dg). destruct (load_is_Some (sa_zr a) (sa_zr_n a)) as [row0 E0]; [lia|]. rewrite E0. osimpl.
  assert (Lr : zlen row0 = 1500).
  { unfold load in E0. destruct (0 <=? sa_zr_n a); [|discriminate]. exact (proj1 (Forall_lookup _ _) F _ _ E0). }
  rewrite copy_spec by (unfold zlen in *; lia). osimpl. change (drop (Z.to_nat 0) dg) with dg. rewrite firstn_all.
  rewrite store_in by lia. osimpl. rewrite store_in by lia. osimpl. rewrite u64_small by lia.
  assert (Lr' : zlen (splice row0 0 dg) = 1500) by (rewrite zlen_splice; lia). exists (splice row0 0 dg). split; [exact Lr'|]. split; [rewrite splice_start; apply take_app_length|].
  split; [reflexivity|]. destruct Ha. constructor; cbn [with_zr sa_cr sa_mem sa_hdr sa_any sa_hrr_off sa_alt_dcid sa_alt_dcid_len sa_zr sa_zr_len sa_zr_n]; try assumption.
  unfold WIRED_SRVBOOT_ZERORTT_MAX, WIRED_SRVBOOT_ZERORTT_DG_MAX. rewrite !zlen_insert. split; [exact L1|]. split; [by apply Forall_insert|]. split; [exact L2|]. split; [lia|].
  replace (Z.to_nat (sa_zr_n a + 1)) with (S (Z.to_nat (sa_zr_n a))) by lia. rewrite (take_S_r _ _ (zlen dg)).
  - rewrite take_insert_ge by lia. apply Forall_app. split; [exact G | repeat constructor; lia].
  - apply list_lookup_insert_eq. unfold zlen in *. lia.
Qed.

Lemma buffer_safe a dg : acc_ok a -> exists a', srvboot_zerortt_buffer a dg = Some a' /\ acc_ok a' /\ sa_any a' = sa_any a /\ sa_cr a' = sa_cr a.
Proof.
  intros Ha. pose proof (buffer_spec a dg Ha) as H. destruct (srvboot_zerortt_fits a dg).
  - destruct H as (row & _ & _ & E & Hok). eexists. split; [exact E|]. split; [exact Hok | split; reflexivity].
  - exists a. split; [exact H|]. split; [exact Ha | split; reflexivity].
Qed.

Lemma absorb_one_safe a pkt : acc_ok a -> sa_any a = true -> dgram_ok pkt -> exists r a' pkt', srvboot_acc_absorb_one M cached ck sk a pkt = Some (r, a', pkt') /\
  acc_ok a' /\ sa_any a' = true /\ dgram_ok pkt' /\ zlen pkt' = zlen pkt /\ cr_received_to (sa_cr a) <= cr_received_to (sa_cr a').
Proof.
  intros Ha Hany Hp. unfold srvboot_acc_absorb_one. destruct (is_zerortt_total pkt) as [z ->]. osimpl. destruct z; [|by apply take_safe].
  destruct (buffer_safe a pkt Ha) as (a' & -> & Ha' & Eany & Ecr). osimpl. eexists _, _, _. split; [reflexivity|]. rewrite Ecr, Eany. split_and!; try assumption; lia.
Qed.

(** The slices of a datagram. *)
Definition slice_ok (dg : list Z) (s : Z * Z) : Prop := 0 <= s.1 /\ 1 <= s.2 /\ s.1 + s.2 <= zlen dg.

Lemma split_loop_safe dg max : forall it, ci_ok it -> ci_dgram it = dg -> exists l, split_loop max it = Some l /\ Forall (slice_ok dg) l.
Proof.
  induction max as [|max IH]; intros it Hok Hdg; cbn [split_loop]; [exists []; split; [reflexivity | constructor]|].
  pose proof (coalesce_next_safe it Hok) as H. destruct (coalesce_next it) as [[c it']| |]; [|exists []; split; [reflexivity | constructor] | destruct H].
  destruct H as (Hl & _ & Hok' & Hd & _). destruct (IH it' Hok' ltac:(congruence)) as (l & -> & HF). osimpl. eexists. split; [reflexivity|]. constructor; [|exact HF].
  destruct Hok as (_ & Ht & Ho). unfold slice_ok. cbn [fst snd]. rewrite <- Hdg, <- Ht. lia.
Qed.

Lemma split_safe dg max : span_ok dg -> exists l, udploop_split dg max = Some l /\ Forall (slice_ok dg) l.
Proof. intros Hp. apply split_loop_safe; [|reflexivity]. split; [exact Hp|]. split; [reflexivity|]. cbn [coalesce_begin ci_off ci_total]. pose proof (zlen_nonneg dg). lia. Qed.

Lemma absorb_loop_safe pkts : forall a dg got, acc_ok a -> sa_any a = true -> dgram_ok dg -> Forall (slice_ok dg) pkts ->
  exists r a' dg', absorb_loop M cached ck sk a dg pkts got = Some (r, a', dg') /\ acc_ok a' /\ sa_any a' = true /\ dgram_ok dg' /\ zlen dg' = zlen dg /\
    cr_received_to (sa_cr a) <= cr_received_to (sa_cr a').
Proof.
  induction pkts as [|[off len] pkts IH]; intros a dg got Ha Hany Hdg HF; cbn [absorb_loop].
  { eexists _, _, _. split; [reflexivity|]. split_and!; try assumption; lia. }
  apply Forall_cons_1 in HF as [(H1 & H2 & H3) HF]. cbn [fst snd] in *. pose proof Hdg as [Hb Hl]. rewrite mem_sub_in by lia. osimpl.
  set (pkt := take (Z.to_nat len) (drop (Z.to_nat off) dg)). assert (Lp : zlen pkt = len) by (unfold pkt; rewrite zlen_take; [reflexivity | rewrite zlen_drop; lia]).
  destruct (absorb_one_safe a pkt Ha Hany) as (r & a1 & pkt' & E & Ha1 & Hany1 & [Hb1 Hl1] & L1 & Hrec1); [split; [by apply bytes_ok_take, bytes_ok_drop | lia]|].
  rewrite E. osimpl. rewrite mem_put_in by lia. osimpl. assert (Ls : zlen (splice dg off pkt') = zlen dg) by (rewrite zlen_splice; lia).
  destruct (IH a1 (splice dg off pkt') (u64 (got + r)) Ha1 Hany1) as (r2 & a2 & dg2 & E2 & Ha2 & Hany2 & Hdg2 & L2 & Hrec2).
  - split; [|lia]. unfold splice. apply bytes_ok_app. split; [by apply bytes_ok_take|]. apply bytes_ok_app. split; [exact Hb1 | by apply bytes_ok_drop].
  - revert HF. apply List.Forall_impl. intros s (S1 & S2 & S3). unfold slice_ok. rewrite Ls. lia.
  - rewrite E2. eexists _, _, _. split; [reflexivity|]. split_and!; try assumption; lia.
Qed.

Lemma feed_safe a dg : acc_ok a -> dgram_ok dg -> exists fed a' dg', wired_srvboot_acc_feed M cached ck sk a dg = Some (fed, a', dg') /\
  acc_ok a' /\ dgram_ok dg' /\ zlen dg' = zlen dg /\ cr_received_to (sa_cr a) <= cr_received_to (sa_cr a').
Proof.
  intros Ha Hdg. unfold wired_srvboot_acc_feed. destruct (is_zerortt_total dg) as [z ->]. osimpl. destruct z.
  { destruct (buffer_safe a dg Ha) as (a' & -> & Ha' & _ & Ecr). osimpl. eexists _, _, _. split; [reflexivity|]. rewrite Ecr. split_and!; try assumption; try apply Hdg; lia. }
  unfold srvboot_acc_feed_initial. destruct (admit_safe a dg Ha (dgram_span _ Hdg)) as (ok & a' & -> & Ha' & Hany & Hsame). osimpl.
  assert (Ecr : sa_cr a' = sa_cr a) by (destruct Hsame as [-> | [h ->]]; reflexivity).
  destruct ok; cbn [negb]; [|eexists _, _, _; split; [reflexivity|]; rewrite Ecr; split_and!; try assumption; try apply Hdg; lia].
  destruct (split_safe dg SRVBOOT_ACC_PKTS (dgram_span _ Hdg)) as (l & -> & HF). osimpl.
  destruct (absorb_loop_safe l a' dg 0 Ha' (Hany eq_refl) Hdg HF) as (r & a2 & dg2 & E & H1 & _ & H2 & H3 & H4). rewrite E. osimpl.
  eexists _, _, _. split; [reflexivity|]. rewrite <- Ecr. split_and!; assumption.
Qed.

Lemma ecn_safe a e : acc_ok a -> acc_ok (wired_srvboot_acc_ecn_note a e) /\ sa_cr (wired_srvboot_acc_ecn_note a e) = sa_cr a.
Proof.
  intros Ha. unfold wired_srvboot_acc_ecn_note. repeat case_match; (split; [|reflexivity]); try exact Ha;
    destruct Ha; constructor; assumption.
Qed.

Lemma reset_spec a : acc_ok a -> exists m, crecv_init (sa_mem a) CRECV_INITIAL_BUF = Some (mk_crecv CRECV_INITIAL_BUF 0 0, m) /\
  wired_srvboot_acc_reset a = Some (mk_acc (mk_crecv CRECV_INITIAL_BUF 0 0) m (sa_hdr a) 0 false 0 2 0 0 0 0 0 (sa_alt_dcid a) 0 (sa_zr a) (sa_zr_len a) 0) /\
  acc_ok (mk_acc (mk_crecv CRECV_INITIAL_BUF 0 0) m (sa_hdr a) 0 false 0 2 0 0 0 0 0 (sa_alt_dcid a) 0 (sa_zr a) (sa_zr_len a) 0).
Proof.
  intros Ha. destruct (ao_cr a Ha) as (W1 & W2 & W3). rewrite (ao_cap a Ha) in W1.
  destruct (crecv_init_inv [] (sa_mem a) CRECV_INITIAL_BUF ltac:(unfold CRECV_INITIAL_BUF, span_max; lia) W1) as (m & E & (Hw & _)).
  exists m. split; [exact E|]. unfold wired_srvboot_acc_reset. rewrite E. osimpl. split; [reflexivity|].
  destruct Ha. constructor; cbn [sa_cr sa_mem sa_hdr sa_any sa_hrr_off sa_alt_dcid sa_alt_dcid_len sa_zr sa_zr_len sa_zr_n cr_cap]; try assumption; try reflexivity; try discriminate.
  - unfold CRECV_INITIAL_BUF. lia.
  - split; [apply ao_alt0 | unfold WIRED_MAX_CID_LEN; lia].
  - destruct ao_zr0 as (H1 & H2 & H3 & _). split_and!; try assumption; unfold WIRED_SRVBOOT_ZERORTT_MAX; try lia. constructor.
Qed.

(** The questions asked of the accumulator. *)
Lemma hold_total a : acc_ok a -> exists b e, srvrun_boot_hold a = Some b /\ srvrun_boot_crypto_error a = Some e.
Proof.
  intros Ha. destruct (ao_cr a Ha) as (W1 & W2 & W3). pose proof (ao_cap a Ha) as Hc. pose proof (ao_hrr a Ha) as Hh. unfold CRECV_INITIAL_BUF in *.
  assert (HT : sa_hrr_off a + 4 <= cr_received_to (sa_cr a) -> exists t, msg_total (sa_mem a) (sa_hrr_off a) = Some t).
  { intros H. unfold msg_total. destruct (load_is_Some (sa_mem a) (sa_hrr_off a + 1)) as [? ->]; [lia|]. destruct (load_is_Some (sa_mem a) (sa_hrr_off a + 2)) as [? ->]; [lia|].
    destruct (load_is_Some (sa_mem a) (sa_hrr_off a + 3)) as [? ->]; [lia|]. osimpl. by eexists. }
  assert (HC : exists c, wired_srvboot_acc_complete a = Some c /\ (c = true -> sa_hrr_off a + 4 <= cr_received_to (sa_cr a))).
  { unfold wired_srvboot_acc_complete. destruct (sa_any a); [|by exists false]. unfold crecv_complete_message_at. rewrite u64_small by lia.
    destruct (Z.ltb_spec (cr_received_to (sa_cr a)) (sa_hrr_off a + 4)); [by exists false|]. destruct (HT ltac:(lia)) as [t ->]. osimpl. eexists. split; [reflexivity | lia]. }
  destruct HC as (c & Ec & Hcc). assert (HE : exists e, srvrun_boot_crypto_error a = Some e).
  { unfold srvrun_boot_crypto_error. destruct (negb (cr_overflow (sa_cr a) =? 0)); [by eexists|]. unfold wired_srvboot_acc_trailing. rewrite Ec. osimpl.
    destruct c; cbn [negb]; osimpl; [|by eexists]. unfold crecv_message_end_at. destruct (HT (Hcc eq_refl)) as [t ->]. osimpl. by eexists. }
  destruct HE as [e Ee]. unfold srvrun_boot_hold. rewrite Ec, Ee. osimpl. destruct c; cbn [negb]; osimpl; by eexists _, _.
Qed.
End safety.

(** C4: cold start survives any datagram. Whatever bytes of at most 1500 arrive
    for a connection that is not up yet, any mix of packet types, ids,
    versions, lengths and coalesced packets, the server's feeding of them ends
    without an access outside the datagram, the reassembly buffer, the header's
    id arrays or the 0-RTT rows; the accumulator keeps its invariant (ids of at
    most 20 bytes, at most 32 held datagrams, each of at most 1500 bytes), a
    contiguous prefix once shown is not retracted within an attempt, and the
    questions whether to wait or to refuse the connection always have an
    answer. *)
Theorem boot_feed_safe M cached ck sk up a dg ecn : cpu_ok M -> keys_ok ck -> sized sk -> acc_ok a -> bytes_ok dg -> zlen dg <= 1500 ->
  exists fed a' dg', srvrun_boot_feed M cached ck sk up a dg ecn = Some (fed, a', dg') /\ acc_ok a' /\ bytes_ok dg' /\ zlen dg' = zlen dg /\
    (up || negb (sa_any a) = false -> cr_received_to (sa_cr a) <= cr_received_to (sa_cr a')) /\
    exists hold err, srvrun_boot_hold a' = Some hold /\ srvrun_boot_crypto_error a' = Some err.
Proof.
  intros HM Hck Hsk Ha Hb Hl. unfold srvrun_boot_feed.
  assert (exists a0, (if up || negb (sa_any a) then wired_srvboot_acc_reset a else Some a) = Some a0 /\ acc_ok a0 /\ (up || negb (sa_any a) = false -> a0 = a)) as (a0 & -> & Ha0 & Heq).
  { destruct (up || negb (sa_any a)); [|by exists a]. destruct (reset_spec a Ha) as (m & _ & E & H). eexists. split; [exact E|]. split; [exact H | discriminate]. }
  osimpl. destruct (is_zerortt_total dg) as [z ->]. osimpl. destruct (feed_safe M HM cached ck sk Hck Hsk a0 dg Ha0 (conj Hb Hl)) as (fed & a1 & dg1 & -> & Ha1 & [Hb1 _] & L1 & Hr). osimpl.
  destruct (ecn_safe a1 (srvrun_boot_ecn fed z ecn) Ha1) as [Ha2 Ecr]. eexists _, _, _. split; [reflexivity|]. split; [exact Ha2|]. split; [exact Hb1|]. split; [exact L1|]. split.
  - intros E. rewrite Ecr. rewrite <- (Heq E). exact Hr.
  - destruct (hold_total _ Ha2) as (b & e & H1 & H2). exists b, e. split; assumption.
Qed.

(** A fresh slot: every array zero. *)
Definition acc0 : wired_srvboot_acc :=
  mk_acc (mk_crecv CRECV_INITIAL_BUF 0 0) (replicate (Z.to_nat 8192) 0) header0 0 false 0 2 0 0 0 0 0 (replicate 20 0) 0
    (replicate 32 (replicate (Z.to_nat 1500) 0)) (replicate 32 0) 0.

Lemma acc0_ok : acc_ok acc0.
Proof.
  constructor; cbn [acc0 sa_cr sa_mem sa_hdr sa_any sa_hrr_off sa_alt_dcid sa_alt_dcid_len sa_zr sa_zr_len sa_zr_n cr_cap]; try reflexivity; try discriminate.
  - unfold crecv_wf, span_max, zlen. cbn [cr_cap cr_received_to]. rewrite length_replicate. unfold CRECV_INITIAL_BUF. lia.
  - split; reflexivity.
  - unfold CRECV_INITIAL_BUF. lia.
  - split; [reflexivity | unfold WIRED_MAX_CID_LEN; lia].
  - split; [reflexivity|]. split; [apply Forall_replicate; unfold zlen; rewrite length_replicate; reflexivity|]. split; [reflexivity|]. split; [unfold WIRED_SRVBOOT_ZERORTT_MAX; lia | constructor].
Qed.

(** A version 1 Initial that does not open, on a fresh slot: it binds the slot. *)
Lemma boot_feed_safe_witness :
  let dg := [0xc0; 0; 0; 0; 1; 2; 8; 9; 0; 0; 20; 1; 2; 3; 4; 5; 6; 7; 8; 9; 10; 11; 12; 13; 14; 15; 16; 17; 18; 19; 20] in
  option_map (fun r => (r.1.1, h_dcid_len (sa_hdr r.1.2))) (srvrun_boot_feed model_cpu 0 (held 1) (held 2) false acc0 dg 2) = Some (false, 2) /\
  exists fed a' dg', srvrun_boot_feed model_cpu 0 (held 1) (held 2) false acc0 dg 2 = Some (fed, a', dg') /\ acc_ok a' /\ bytes_ok dg' /\ zlen dg' = zlen dg /\
    (false || negb (sa_any acc0) = false -> cr_received_to (sa_cr acc0) <= cr_received_to (sa_cr a')) /\
    exists hold err, srvrun_boot_hold a' = Some hold /\ srvrun_boot_crypto_error a' = Some err.
Proof.
  intros dg. split.
  - vm_compute. reflexivity.
  - apply (boot_feed_safe model_cpu 0 (held 1) (held 2) false acc0 dg 2 model_cpu_ok (held_ok 1 ltac:(unfold is_u8; lia)) (keys_sized _ (held_ok 2 ltac:(unfold is_u8; lia))) acc0_ok).
    + repeat constructor; vm_compute; congruence.
    + vm_compute. discriminate.
Defined.
