(* ===== verification/Hello.v ===== *)
(** * A ClientHello crosses the wire

    The composition of the client's Initial builder (InitPkt) with the
    server's cold start (Srvboot): an abstract specification of what a nascent
    connection knows, and the theorem that src/src/app/http3/server/srvrun's
    feeding of datagrams implements it, from initpkt_build_ver through packet
    protection, header parsing and CRYPTO reassembly. *)
From stdpp Require Import base numbers list option.
From Stdlib Require Import ZArith Lia.
From S2P Require Import Prelude Bytes Varint Frames Framewalk PktNum Header HeaderSafe Packets Reassembly Sha2 Aes Ghash Gcm Protect Suites Unprotect PktProt InitPkt Srvboot.
Import Frame.
Open Scope Z_scope.

(** ** The specification *)

(** What a client sends before it has an answer: an Initial with a part of its
    flight, or a 0-RTT datagram; and the ECN codepoint it arrives with. *)
Inductive client_dgram := CInitial (d : initpkt_desc) | CEarly (dg : list Z).

(** What the server knows: the parts of the ClientHello, the largest packet
    number, the Initials opened, their ECN counts and the datagrams held. *)
Record boot_spec := mk_bs {
  bs_segs : list seg; bs_largest : Z; bs_opened : Z; bs_ect0 : Z; bs_ect1 : Z; bs_ce : Z; bs_early : list (list Z) }.

Definition spec_fresh : boot_spec := mk_bs [] 0 0 0 0 0 [].
Definition spec_holds (early : list (list Z)) (dg : list Z) : bool :=
  (zlen early <? WIRED_SRVBOOT_ZERORTT_MAX) && (zlen dg <=? WIRED_SRVBOOT_ZERORTT_DG_MAX).
Definition spec_feed (b : boot_spec) (x : client_dgram * Z) : boot_spec :=
  match x.1 with
  | CInitial d =>
      mk_bs (ip_seg d :: bs_segs b) (Z.max (bs_largest b) (ip_pn d)) (u64 (bs_opened b + 1))
        (if x.2 =? 2 then u64 (bs_ect0 b + 1) else bs_ect0 b) (if x.2 =? 1 then u64 (bs_ect1 b + 1) else bs_ect1 b)
        (if x.2 =? 3 then u64 (bs_ce b + 1) else bs_ce b) (bs_early b)
  | CEarly dg =>
      mk_bs (bs_segs b) (bs_largest b) (bs_opened b) (bs_ect0 b) (bs_ect1 b) (bs_ce b)
        (if spec_holds (bs_early b) dg then bs_early b ++ [dg] else bs_early b)
  end.

(** What the accumulator shows of [b]: the prefix of the stream [S] up to the
    first byte not received, the numbers, and the datagrams to replay. *)
Definition shows (S : list Z) (b : boot_spec) (a : wired_srvboot_acc) : Prop :=
  cr_overflow (sa_cr a) = 0 /\ first_gap (bs_segs b) CRECV_INITIAL_BUF (cr_received_to (sa_cr a)) /\
  crecv_message (sa_cr a) (sa_mem a) = take (Z.to_nat (cr_received_to (sa_cr a))) S /\ cr_received_to (sa_cr a) <= zlen S /\
  sa_largest_pn a = bs_largest b /\ sa_opened a = bs_opened b /\ sa_ect0 a = bs_ect0 b /\ sa_ect1 a = bs_ect1 b /\ sa_ce a = bs_ce b /\
  wired_srvboot_acc_zerortt_count a = zlen (bs_early b) /\
  forall i, 0 <= i -> wired_srvboot_acc_zerortt_take a i = Some (default [] (bs_early b !! Z.to_nat i)).

(** Datagrams fed one after another, each with its ECN codepoint, the first one
    maybe to a connection that is up; all of them accepted. *)
Fixpoint feed_all (M : cpu) (cached : Z) (ck sk : initial_keys) (up : bool) (a : wired_srvboot_acc) (dgs : list (list Z * Z)) : option wired_srvboot_acc :=
  match dgs with
  | [] => Some a
  | (dg, ecn) :: rest =>
      '(fed, a', _) ← srvrun_boot_feed M cached ck sk up a dg ecn;
      if (fed : bool) then feed_all M cached ck sk false a' rest else None
  end.

(** One TLS handshake message: a type, three bytes of length, the body. *)
Definition one_message (l : list Z) : Prop := exists t body, l = t :: be_bytes 3 (zlen body) ++ body /\ zlen body < 16777216.

Section crossing.
Context (M : cpu) (HM : cpu_ok M) (cached : Z).
(** The client: its version, its ids and the ClientHello. *)
Context (v : Z) (Hver : v = VERSION_1 \/ v = VERSION_2) (dc sc CH : list Z).

Definition initial_of (d : initpkt_desc) : Prop :=
  ip_ok d /\ ip_dcid d = dc /\ ip_scid d = sc /\ seg_of CH (ip_seg d) /\ 0 <= ip_pn d < 1073741824.

(** The datagram [w] is what the client made of [x], with any local arrays. *)
Definition sends (x : client_dgram) (w : list Z) : Prop :=
  match x with
  | CInitial d => initial_of d /\ exists ck sk room out out' n, keys_ok ck /\ sized sk /\ zlen room = 1200 /\ zlen out < span_max /\
      initpkt_build_ver M cached v d out ck sk room = Some (Some n, out') /\ w = take (Z.to_nat n) out'
  | CEarly dg => w = dg /\ wired_srvboot_is_zerortt dg = Some true
  end.

Lemma ver_u32 : is_u32 v.
Proof. unfold is_u32. destruct Hver as [-> | ->]; vm_compute; split; congruence. Qed.

Lemma near_recoverable largest pn : 0 <= largest < 1073741824 -> 0 <= pn < 1073741824 -> pn_recoverable largest pn.
Proof. intros H1 H2. unfold pn_recoverable, is_u64, span_max. rewrite u64_small by lia. lia. Qed.

(** ** The Initial that was built *)

Notation h d frame := (tx_lhdr (ip_tx d v (padded d frame))).

Record wire_initial (d : initpkt_desc) (w : list Z) (ck : initial_keys) (frame l : list Z) : Prop := {
  wi_keys : keys_ok ck;
  wi_frame : seg_wire (ip_seg d) = Some frame /\ bytes_ok frame /\ zlen frame <= 1200 /\ ip_crypto d <> [];
  wi_hdr : lhdr_wire (h d frame) = Some l /\ zlen l = 14 + zlen (ip_dcid d) + zlen (ip_scid d);
  wi_is : w = ip_packet d v frame ck l;
  wi_wire : bytes_ok w /\ 1200 <= zlen w <= 1270 }.

Lemma initial_sent d w : sends (CInitial d) w -> exists ck frame l, wire_initial d w ck frame l.
Proof.
  intros ((Hd & _ & _ & _ & Hpn) & ck & sk & room & out & out' & n & Hck & Hsk & Hr & Hout & E & ->).
  pose proof (near_recoverable 0 (ip_pn d) ltac:(lia) Hpn) as Hrec.
  pose proof (initpkt_build_spec M HM cached d Hd v ver_u32 ck sk room 0 out Hck Hsk Hr Hrec Hout) as H.
  case_bool_decide as Hne; [congruence|]. destruct H as (frame & Hf & Bf & H). destruct (Z.leb_spec (zlen frame) 1200) as [Hfit|]; [|congruence].
  destruct H as (l & Hl & Ll & E2). cbv zeta in E2. rewrite E in E2. destruct (ip_packet_shape M HM cached d Hd v ver_u32 frame Bf Hfit ck Hck 0 Hrec l Hl Ll) as (Bw & _ & Lw).
  destruct (Z.ltb_spec (zlen out) (zlen (ip_packet d v frame ck l))) as [|Hz]; [congruence|]. injection E2 as -> ->.
  assert (Ew : take (Z.to_nat (zlen (ip_packet d v frame ck l))) (splice out 0 (ip_packet d v frame ck l)) = ip_packet d v frame ck l).
  { rewrite splice_start. apply take_app_length'. unfold zlen. lia. }
  exists ck, frame, l. rewrite Ew. constructor; try assumption; [split_and!; assumption | split; assumption | reflexivity | split; assumption].
Qed.

(** It starts with the invariant header and is one packet of its datagram. *)
Lemma initial_layout d w ck frame l : ip_ok d -> 0 <= ip_pn d < 1073741824 -> wire_initial d w ck frame l ->
  exists b post h' body, w = long_prefix_wire b v (ip_dcid d) (ip_scid d) ++ post /\ packet_is_long b = true /\ packet_long_type b v = LT_INITIAL /\
    Packets.long_packet h' body w.
Proof.
  intros Hd Hpn [Hck (_ & Bf & Hfit & _) (Hl & Ll) -> (Bw & Lw)].
  destruct (ip_on_datagram M HM cached d Hd v ver_u32 frame Bf Hfit ck Hck 0 (near_recoverable 0 _ ltac:(lia) Hpn) l Hl Ll Hver) as (h' & l' & body & Hr & Hl' & Ew & Hp).
  destruct Hr as (Hok & Hlong & Hty & Ev & Ed & Es & _). pose proof Hok as (Hb & _ & _ & Hn & _).
  destruct (lhdr_byte0_facts (ld_byte0 h') (ld_pn_len h') Hb Hn) as (_ & Hlong' & Hbits & _). cbv zeta in Hlong', Hbits.
  assert (Ev' : ld_version h' = v) by (rewrite Ev; unfold tx_lhdr, ip_tx; cbn [ld_version td_version]; unfold tx_version_or_v1; destruct Hver as [-> | ->]; reflexivity).
  unfold lhdr_wire in Hl'. destruct (cids_ok h'); [|discriminate]. apply (inj Some) in Hl' as <-.
  exists (lhdr_byte0_pnlen (ld_byte0 h') (ld_pn_len h')), (lhdr_body h' ++ body), h', body. split; [|split; [|split]].
  - rewrite Ew. unfold lhdr_prefix. rewrite <- app_assoc, Ev', Ed, Es. reflexivity.
  - congruence.
  - unfold packet_long_type. rewrite Hbits, Hlong'. change (packet_long_type (ld_byte0 h') v = LT_INITIAL). rewrite Hty.
    exact (proj2 (proj2 (proj2 (initpkt_first v ver_u32))) Hver).
  - exact Hp.
Qed.

(** ** What the server reads of it *)

Section reading.
Context (d : initpkt_desc) (Hd : ip_ok d) (w : list Z) (b : Z) (post : list Z).
Context (Ew : w = long_prefix_wire b v (ip_dcid d) (ip_scid d) ++ post) (Hlong : packet_is_long b = true) (Hty : packet_long_type b v = LT_INITIAL).
Context (Lw : 1200 <= zlen w <= 1270).

Lemma prefix_fields : load w 0 = Some b /\ be_get_be32 w 1 = Some v /\ load w 5 = Some (zlen (ip_dcid d)).
Proof.
  rewrite Ew. unfold long_prefix_wire. rewrite <- !app_assoc. split; [reflexivity|]. split.
  - change 1 with (zlen [b]). apply be_get_be32_spec. exact ver_u32.
  - change ((zlen (ip_dcid d) :: ip_dcid d) ++ ?r) with ([zlen (ip_dcid d)] ++ (ip_dcid d ++ r)). rewrite app_assoc. change 5 with (zlen ([b] ++ be_bytes 4 v)). apply load_at.
Qed.

Lemma sized_sent : srvboot_is_initial_sized w = Some true.
Proof.
  unfold srvboot_is_initial_sized. destruct (Z.leb_spec 6 (zlen w)); [|lia]. rewrite (proj1 prefix_fields). osimpl. f_equal. exact Hlong.
Qed.

Lemma classified : wired_srvboot_is_initial w = Some true /\ wired_srvboot_is_zerortt w = Some false /\ srvboot_pkt_initial_version w = Some (Some v).
Proof.
  destruct prefix_fields as (E0 & E1 & E5). destruct Hd as (_ & _ & _ & Ld & _).
  assert (Hi : srvboot_is_long_initial b v = true) by (unfold srvboot_is_long_initial; rewrite Hty; reflexivity).
  unfold wired_srvboot_is_initial, wired_srvboot_is_zerortt, srvboot_pkt_initial_version. rewrite sized_sent. osimpl. cbn [negb]. rewrite E0, E1, E5. osimpl. rewrite Hi, Hty. cbn [negb]. split; [|split].
  - f_equal. apply Z.leb_le. lia.
  - reflexivity.
  - destruct (Z.ltb_spec (zlen w) 6); [lia | reflexivity].
Qed.

(** Any arrays take the ids. *)
Lemma ids_parsed g0 : arrays_ok g0 -> bytes_ok w -> exists g, wired_header_parse g0 w = Ok (g, 7 + zlen (ip_dcid d) + zlen (ip_scid d)) /\ HeaderSafe.header_ok g /\
  h_dcid_len g = zlen (ip_dcid d) /\ header_dcid g = ip_dcid d /\ h_scid_len g = zlen (ip_scid d) /\ header_scid g = ip_scid d.
Proof.
  intros [A1 A2] Bw. destruct Hd as (_ & _ & _ & Ld & Ls & _).
  assert (Hw : span_ok w) by (split; [exact Bw | unfold span_max; lia]).
  pose proof (header_long_safe g0 w b (conj A1 A2) Hw (proj1 prefix_fields) Hlong) as Hs.
  destruct (parse_long_spec g0 b v (ip_dcid d) (ip_scid d) post Ld Ls A1 A2 ver_u32 Hlong) as (g & E & _ & _ & _ & H); [rewrite <- Ew; unfold span_max; lia|].
  rewrite <- Ew in E. rewrite E in Hs. exists g. split; [|split; [exact (proj1 Hs) | exact H]]. rewrite E. do 2 f_equal.
  unfold long_prefix_wire. rewrite !zlen_app, !zlen_cons, zlen_be_bytes, zlen_nil. lia.
Qed.
End reading.

Lemma cid_diff_refl x y n : forall i, 0 <= i -> i + Z.of_nat n <= zlen x -> i + Z.of_nat n <= zlen y ->
  take n (drop (Z.to_nat i) x) = take n (drop (Z.to_nat i) y) -> cid_diff_loop x y i n 0 = Some 0.
Proof.
  induction n as [|n IH]; intros i Hi Hx Hy E; [reflexivity|]. cbn [cid_diff_loop].
  destruct (load_is_Some x i) as [u Eu]; [lia|]. destruct (load_is_Some y i) as [u' Eu']; [lia|]. rewrite Eu, Eu'. osimpl.
  rewrite load_nat in Eu, Eu' by lia. rewrite (drop_S _ _ _ Eu), (drop_S _ _ _ Eu') in E. cbn [take] in E. injection E as -> E.
  rewrite Z.lxor_nilpotent. change (Z.lor 0 0) with 0. apply IH; [lia..|]. replace (Z.to_nat (i + 1)) with (S (Z.to_nat i)) by lia. exact E.
Qed.

Lemma cid_match_refl x y n : 0 <= n -> n <= zlen x -> n <= zlen y -> take (Z.to_nat n) x = take (Z.to_nat n) y -> srvboot_cid_match x n y n = Some true.
Proof. intros Hn Hx Hy E. unfold srvboot_cid_match, srvboot_cid_diff. rewrite Z.eqb_refl. cbn [negb]. rewrite cid_diff_refl; [reflexivity | lia.. |]. exact E. Qed.

(** ** Admitting it, finding its packet, opening it *)

(** The accumulator is bound to the client's ids. *)
Definition bound (a : wired_srvboot_acc) : Prop :=
  sa_any a = true /\ h_dcid_len (sa_hdr a) = zlen dc /\ header_dcid (sa_hdr a) = dc /\ h_scid_len (sa_hdr a) = zlen sc /\ header_scid (sa_hdr a) = sc.

Lemma same_ids x y (n : Z) l : zlen x = WIRED_MAX_CID_LEN -> zlen y = WIRED_MAX_CID_LEN -> n = zlen l -> zlen l <= WIRED_MAX_CID_LEN ->
  take (Z.to_nat n) x = l -> take (Z.to_nat n) y = l -> srvboot_cid_match x n y n = Some true.
Proof. intros Hx Hy -> Hn Ex Ey. pose proof (zlen_nonneg l). apply cid_match_refl; [lia.. | congruence]. Qed.

Lemma admitted a d w ck frame l : acc_ok a -> sa_any a = false \/ bound a -> initial_of d -> wire_initial d w ck frame l ->
  exists a', srvboot_acc_admit a w = Some (true, a') /\ acc_ok a' /\ bound a' /\ (a' = a \/ exists g, a' = with_hdr a g).
Proof.
  intros Ha Hb (Hd & Edc & Esc & _ & Hpn) Hw. destruct (initial_layout d w ck frame l Hd Hpn Hw) as (b & post & h' & body & Ew & Hlong & Hty & _).
  destruct Hw as [_ _ _ _ (Bw & Lw)]. destruct (classified d Hd w b post Ew Hlong Hty Lw) as (Ei & _). pose proof Hd as (_ & _ & _ & Ld & Ls & _).
  destruct (admit_safe a w Ha ltac:(split; [exact Bw | unfold span_max; lia])) as (ok & a' & E & Ha' & _ & Hcase). pose proof E as E0.
  unfold srvboot_acc_admit in E. rewrite Ei in E. cbn [mbind option_bind negb] in E. destruct (sa_any a) eqn:Eany.
  - destruct Hb as [Hb | Hb]; [discriminate|]. pose proof Hb as (_ & B1 & B2 & B3 & B4). unfold srvboot_acc_same_dcid in E.
    destruct (ids_parsed d Hd w b post Ew Hlong Lw header0 ltac:(split; reflexivity) Bw) as (g & Eg & (_ & G2 & _ & G4) & G5 & G6 & G7 & G8). rewrite Eg in E.
    destruct (ao_hdr a Ha Eany) as (_ & A2 & _ & A4). unfold header_dcid, header_scid in *. rewrite Edc, Esc in *. rewrite B1 in B2. rewrite B3 in B4. rewrite G5 in G6. rewrite G7 in G8.
    unfold srvboot_acc_dcid_ok in E. rewrite G5, G7, B1, B3, (same_ids _ _ (zlen dc) dc), (same_ids _ _ (zlen sc) sc) in E by (assumption || reflexivity). cbn [mbind option_bind negb] in E.
    injection E as <- <-. exists a. split; [exact E0|]. split; [exact Ha|]. split; [exact Hb | by left].
  - unfold srvboot_acc_bind in E. destruct (ids_parsed d Hd w b post Ew Hlong Lw (sa_hdr a) (ao_arrays a Ha) Bw) as (g & Eg & _ & G5 & G6 & G7 & G8). rewrite Eg in E.
    pose proof (zlen_nonneg (ip_dcid d)). pose proof (zlen_nonneg (ip_scid d)). destruct (Z.eqb_spec (7 + zlen (ip_dcid d) + zlen (ip_scid d)) 0); [lia|]. injection E as <- <-.
    eexists. split; [exact E0|]. split; [exact Ha'|]. split; [|exact Hcase]. unfold bound. cbn [with_hdr sa_any sa_hdr]. rewrite <- Edc, <- Esc. split_and!; (reflexivity || assumption).
Qed.

Lemma split_alone w h' body : Packets.long_packet h' body w -> zlen w < span_max -> udploop_split w SRVBOOT_ACC_PKTS = Some [(0, zlen w)].
Proof.
  intros Hp Hz. pose proof (coalesce_next_long [] h' body w [] Hp) as H. rewrite app_nil_r in H. cbn [app] in H. rewrite (zlen_nil (A := Z)) in H. specialize (H Hz).
  unfold udploop_split, SRVBOOT_ACC_PKTS, coalesce_begin. cbn [split_loop]. rewrite H. cbn [split_loop].
  unfold coalesce_next at 1. cbn [ci_total ci_off ci_view]. rewrite Z.add_0_l. destruct (Z.leb_spec (zlen w) (zlen w)); [reflexivity | lia].
Qed.

Definition whole_part (d : initpkt_desc) : hs_part :=
  mk_part (ip_crypto_off d) (ip_crypto d) (zlen (ip_crypto d)) (replicate 1200 0) []
    (replicate (Z.to_nat (1170 - zlen (ip_dcid d) - zlen (ip_scid d) - zlen (default [] (seg_wire (ip_seg d))))) (TxPadding, [0])).

Lemma padding_encoded : encoded TxPadding [0].
Proof. split; [exact I|]. exists [9], 1, [0]. split_and!; try done. Qed.

Lemma padding_frames n : plain_frames (replicate n (TxPadding, [0])) /\ concat (map snd (replicate n (TxPadding, [0]))) = replicate n 0.
Proof.
  induction n as [|n [IH1 IH2]]; [split; [constructor | reflexivity]|]. cbn [replicate map concat]. rewrite IH2. split; [|reflexivity].
  constructor; [|exact IH1]. split; [exact padding_encoded | discriminate].
Qed.

Lemma payload_part d w ck frame l : initial_of d -> wire_initial d w ck frame l -> part_ok CH (whole_part d) (padded d frame).
Proof.
  intros ((_ & _ & _ & Ld & Ls & Ho & Hv) & _ & _ & Hseg & _) [_ (Hf & Bf & Hfit & Hne) _ _ _]. unfold part_ok, whole_part. cbn [hp_base hp_bytes hp_max hp_room hp_before hp_after].
  assert (Lr : zlen (replicate 1200 0) = 1200) by reflexivity. destruct (padding_frames (Z.to_nat (1170 - zlen (ip_dcid d) - zlen (ip_scid d) - zlen (default [] (seg_wire (ip_seg d)))))) as [P1 P2].
  assert (0 < zlen (ip_crypto d)) by (destruct (ip_crypto d) as [|x t]; [done|]; rewrite zlen_cons; pose proof (zlen_nonneg t); lia).
  pose proof (zlen_nonneg (ip_dcid d)). pose proof (zlen_nonneg (ip_scid d)). pose proof (zlen_nonneg frame). unfold VARINT_MAX in *.
  split; [exact Hseg|]. split; [lia|]. split; [lia|]. split; [unfold span_max; lia|]. split; [constructor|]. split; [exact P1|]. split.
  { unfold padded, span_max. rewrite zlen_app. unfold zlen at 2. rewrite length_replicate. lia. }
  destruct (emit_whole (ip_crypto_off d) (ip_crypto d) (replicate 1200 0) Hne Ho ltac:(unfold VARINT_MAX; lia) ltac:(unfold span_max; lia)) as (l0 & El & _ & E).
  change (seg_wire (ip_seg d) = Some l0) in El. assert (l0 = frame) by congruence. subst l0. rewrite Lr in E. destruct (Z.leb_spec (zlen frame) 1200); [|lia].
  eexists. split; [exact E|]. rewrite P2. cbn [concat map app]. unfold padded, owritten, obuf_app. cbn [op olen obuf_of]. rewrite Hf. cbn [default]. f_equal.
  rewrite Z.add_0_l, splice_start. symmetry. apply take_app_length'. unfold zlen. lia.
Qed.

(** The number read off the opened packet. *)
Lemma opened_pn d w ck frame l x' largest : initial_of d -> wire_initial d w ck frame l -> 0 <= largest < 1073741824 -> bytes_ok (l ++ x') -> zlen (l ++ x') = zlen w ->
  srvboot_initial_pn (l ++ x') largest = Some (ip_pn d).
Proof.
  intros (Hd & _ & _ & _ & Hpn) [Hck (_ & Bf & Hfit & _) (Hl & Ll) -> (Bw & Lw)] Hla Bx Lx.
  destruct (ip_header d Hd v ver_u32 frame Bf Hfit []) as (Hok & _). destruct (initpkt_first v ver_u32) as (Hb & Hlong & _).
  unfold srvboot_initial_pn. pose proof (lhdr_parse_wire (h d frame) l x' Hok Hlong Hl) as E. change (ld_is_initial (h d frame)) with true in E. rewrite E by (unfold span_max; lia). clear E. cbn [l_pn_off].
  destruct (wire_split _ l Hl) as [_ El]. change (ld_pn_len (h d frame)) with 4 in *. change (ld_byte0 (h d frame)) with (initpkt_byte0 v) in *. change (ld_pn (h d frame)) with (ip_pn d) in El.
  assert (E0 : load (l ++ x') 0 = Some (lhdr_byte0_pnlen (initpkt_byte0 v) 4)) by (rewrite El; reflexivity). rewrite E0. osimpl.
  destruct (lhdr_byte0_facts (initpkt_byte0 v) 4 Hb ltac:(lia)) as (_ & _ & _ & En). cbv zeta in En. rewrite En.
  assert (Ed : drop (Z.to_nat (zlen l - 4)) (l ++ x') = be_bytes (Z.to_nat 4) (ip_pn d) ++ x').
  { rewrite El, app_comm_cons, <- app_assoc. apply drop_app_length'. unfold zlen. rewrite length_app, length_be_bytes. lia. }
  rewrite Ed. apply pnum_decode_nearest; unfold span_max, is_u64; rewrite ?u64_small by lia; change (256 ^ 4 / 2) with 2147483648; lia.
Qed.

(** ** The server's state against the specification *)

Record represents (b : boot_spec) (a : wired_srvboot_acc) : Prop := {
  rp_ok : acc_ok a;
  rp_crypto : exists hist, crecv_inv CH hist (sa_cr a) (sa_mem a) /\ first_gap hist CRECV_INITIAL_BUF (cr_received_to (sa_cr a)) /\
    (forall i, covered hist i <-> covered (bs_segs b) i);
  rp_over : cr_overflow (sa_cr a) = 0;
  rp_pn : sa_largest_pn a = bs_largest b /\ 0 <= bs_largest b < 1073741824;
  rp_count : sa_opened a = bs_opened b /\ sa_ect0 a = bs_ect0 b /\ sa_ect1 a = bs_ect1 b /\ sa_ce a = bs_ce b;
  rp_hrr : sa_hrr_off a = 0;
  rp_early : sa_zr_n a = zlen (bs_early b) /\ forall i e, bs_early b !! i = Some e ->
    sa_zr_len a !! i = Some (zlen e) /\ exists row, sa_zr a !! i = Some row /\ take (length e) row = e }.

Lemma with_hdr_represents b a g : represents b a -> acc_ok (with_hdr a g) -> represents b (with_hdr a g).
Proof. intros [] Ha. constructor; assumption. Qed.

Section feeding.
Context (Hlen : zlen CH <= CRECV_INITIAL_BUF) (ck' sk' : initial_keys) (Hck' : keys_ok ck') (Hsk' : sized sk').

Lemma collected a b d w ck frame l : represents b a -> initial_of d -> wire_initial d w ck frame l ->
  exists cr mem, crecv_collect (sa_cr a) (sa_mem a) (padded d frame) = Some (1, cr, mem) /\ cr_overflow cr = 0 /\
    exists hist, crecv_inv CH hist cr mem /\ first_gap hist CRECV_INITIAL_BUF (cr_received_to cr) /\ forall i, covered hist i <-> covered (ip_seg d :: bs_segs b) i.
Proof.
  intros Hr Hi Hw. destruct (rp_crypto b a Hr) as (hist & Hinv & Hgap & Hcov). pose proof (ao_cap a (rp_ok b a Hr)) as Hcap.
  destruct (part_collected CH hist (sa_cr a) (sa_mem a) (whole_part d) (padded d frame) (payload_part d w ck frame l Hi Hw) Hinv ltac:(lia)) as (to & mem & hist' & E & Hinv' & Hgap' & Hcov').
  exists (mk_crecv (cr_cap (sa_cr a)) to (cr_overflow (sa_cr a))), mem. split; [exact E|]. split; [exact (rp_over b a Hr)|]. exists hist'. split; [exact Hinv'|]. split; [rewrite <- Hcap; exact Hgap'|].
  intros i. rewrite Hcov'. unfold whole_part. cbn [hp_base hp_bytes]. change (ip_crypto_off d, ip_crypto d) with (ip_seg d). rewrite !covered_cons, Hcov. reflexivity.
Qed.

Lemma taken a b d w : represents b a -> bound a -> sends (CInitial d) w ->
  exists a' x, srvboot_acc_take M cached ck' sk' a w = Some (1, a', x) /\ zlen x = zlen w /\ bound a' /\ represents (spec_feed b (CInitial d, 0)) a'.
Proof.
  intros Hr Hb Hs. pose proof (proj1 Hs) as Hi. destruct (initial_sent d w Hs) as (ck & frame & l & Hw). pose proof Hi as (Hd & Edc & Esc & _ & Hpn).
  destruct (initial_layout d w ck frame l Hd Hpn Hw) as (b0 & post & h' & body & Ew & Hlong & Hty & _). pose proof Hw as [Hck (_ & Bf & Hfit & _) (Hl & Ll) Eip (Bw & Lw)].
  destruct (classified d Hd w b0 post Ew Hlong Hty Lw) as (_ & _ & Ev). pose proof (rp_ok b a Hr) as Ha. destruct Hb as (Bany & B1 & B2 & B34). destruct (ao_hdr a Ha Bany) as (A1 & A2 & _).
  destruct (rp_pn b a Hr) as [Epn Hla]. pose proof (near_recoverable (sa_largest_pn a) (ip_pn d) ltac:(lia) Hpn) as Hrec.
  destruct (take_safe M HM cached ck' sk' Hck' Hsk' a w Ha Bany ltac:(split; [exact Bw | lia])) as (r & a' & x & E & Ha' & _ & _ & Lx & _). pose proof E as E0.
  unfold srvboot_acc_take in E. rewrite mem_sub_in in E by lia. change (drop (Z.to_nat 0) (h_dcid (sa_hdr a))) with (h_dcid (sa_hdr a)) in E.
  fold (header_dcid (sa_hdr a)) in E. rewrite B2, Ev in E. cbn [mbind option_bind] in E. rewrite <- Edc in E.
  pose proof (ip_opened M HM cached d Hd v ver_u32 frame Bf Hfit ck Hck (sa_largest_pn a) Hrec l [] ck' sk' Hl Ll) as Ho. rewrite app_nil_r, <- Eip in Ho.
  destruct (Ho ltac:(constructor) ltac:(lia) Hck' Hsk') as (y & o & m & Eo & Ep & By & Ly & x' & Ex). rewrite Eo in E. cbn [mbind option_bind] in E. rewrite Ep in E. cbn [mbind option_bind] in E.
  destruct (collected a b d w ck frame l Hr Hi Hw) as (cr & mem & Ec & Hov & hist & Hh). rewrite Ec in E. cbn [mbind option_bind] in E.
  rewrite Ex, (opened_pn d w ck frame l x' (sa_largest_pn a) Hi Hw) in E by (try lia; rewrite <- Ex; assumption). cbn [mbind option_bind] in E. injection E as <- <- <-.
  eexists _, _. split; [exact E0|]. split; [exact Lx|]. split; [split; [exact Bany|]; split; [exact B1|]; split; [exact B2 | exact B34]|].
  destruct (rp_count b a Hr) as (C1 & C2 & C3 & C4). constructor; cbn [spec_feed fst snd with_cr sa_cr sa_mem sa_largest_pn sa_opened sa_ect0 sa_ect1 sa_ce sa_hrr_off sa_zr sa_zr_len sa_zr_n bs_segs bs_largest bs_opened bs_ect0 bs_ect1 bs_ce bs_early].
  - exact Ha'.
  - exists hist. exact Hh.
  - exact Hov.
  - rewrite Epn. unfold u64_max. split; [destruct (Z.ltb_spec (ip_pn d) (bs_largest b)); lia | lia].
  - rewrite C1. split_and!; (reflexivity || assumption).
  - exact (rp_hrr b a Hr).
  - exact (rp_early b a Hr).
Qed.

Lemma initial_fed a b d w : represents b a -> sa_any a = false \/ bound a -> sends (CInitial d) w ->
  exists a' x, wired_srvboot_acc_feed M cached ck' sk' a w = Some (true, a', x) /\ wired_srvboot_is_zerortt w = Some false /\
    bound a' /\ represents (spec_feed b (CInitial d, 0)) a'.
Proof.
  intros Hr Hb Hs. pose proof (proj1 Hs) as Hi. destruct (initial_sent d w Hs) as (ck & frame & l & Hw). pose proof Hi as (Hd & _ & _ & _ & Hpn).
  destruct (initial_layout d w ck frame l Hd Hpn Hw) as (b0 & post & h' & body & Ew & Hlong & Hty & Hp). pose proof Hw as [_ _ _ _ (Bw & Lw)].
  destruct (classified d Hd w b0 post Ew Hlong Hty Lw) as (_ & Ez & _).
  destruct (admitted a d w ck frame l (rp_ok b a Hr) Hb Hi Hw) as (a1 & Ea & Ha1 & Hb1 & Hsame).
  assert (Hr1 : represents b a1) by (destruct Hsame as [-> | [g ->]]; [exact Hr | by apply with_hdr_represents]).
  destruct (taken a1 b d w Hr1 Hb1 Hs) as (a' & x & Et & Lx & Hb' & Hr'). exists a', x. split; [|split; [exact Ez|]; split; assumption].
  unfold wired_srvboot_acc_feed, srvboot_acc_feed_initial. rewrite Ez. osimpl. rewrite Ea. osimpl. cbn [negb]. rewrite (split_alone w h' body Hp) by (unfold span_max; lia). osimpl.
  cbn [absorb_loop]. rewrite mem_sub_in by lia. osimpl. change (drop (Z.to_nat 0) w) with w. rewrite (take_ge w) by (unfold zlen; lia). unfold srvboot_acc_absorb_one. rewrite Ez. osimpl. rewrite Et. osimpl.
  rewrite mem_put_in by lia. osimpl. rewrite splice_start, drop_ge, app_nil_r by (unfold zlen in *; lia). reflexivity.
Qed.

Lemma early_fed a b dg : represents b a -> wired_srvboot_is_zerortt dg = Some true ->
  exists a', wired_srvboot_acc_feed M cached ck' sk' a dg = Some (true, a', dg) /\ (bound a -> bound a') /\ represents (spec_feed b (CEarly dg, 0)) a'.
Proof.
  intros Hr Ez. unfold wired_srvboot_acc_feed. rewrite Ez. osimpl. pose proof (rp_ok b a Hr) as Ha. pose proof (buffer_spec a dg Ha) as H. destruct (rp_early b a Hr) as [En He].
  assert (Ef : srvboot_zerortt_fits a dg = spec_holds (bs_early b) dg) by (unfold srvboot_zerortt_fits, spec_holds; rewrite En; reflexivity). rewrite Ef in H.
  destruct (spec_holds (bs_early b) dg) eqn:Hh.
  - destruct H as (row & _ & Erow & -> & Ha'). osimpl. eexists. split; [reflexivity|]. split; [intros Hb; exact Hb|]. destruct Hr. destruct (ao_zr a Ha) as (L1 & _ & L2 & Hn & _).
    unfold spec_holds, WIRED_SRVBOOT_ZERORTT_MAX in *. unfold spec_feed. cbn [fst snd]. unfold spec_holds, WIRED_SRVBOOT_ZERORTT_MAX. rewrite Hh.
    constructor; cbn [with_zr sa_cr sa_mem sa_largest_pn sa_opened sa_ect0 sa_ect1 sa_ce sa_hrr_off sa_zr sa_zr_len sa_zr_n bs_segs bs_largest bs_opened bs_ect0 bs_ect1 bs_ce bs_early]; try assumption.
    split; [rewrite zlen_app, zlen_cons, zlen_nil; lia|]. intros i e Hi. rewrite En in *. unfold zlen in *. rewrite Nat2Z.id. apply lookup_app_Some in Hi as [Hi | [Hi1 Hi2]].
    + pose proof (lookup_lt_Some _ _ _ Hi). rewrite !list_lookup_insert_ne by lia. exact (He i e Hi).
    + assert (i = length (bs_early b)) as -> by (apply lookup_lt_Some in Hi2; cbn in Hi2; lia). rewrite Nat.sub_diag in Hi2. injection Hi2 as <-.
      rewrite !list_lookup_insert_eq by lia. split; [reflexivity|]. exists row. split; [reflexivity | exact Erow].
  - rewrite H. osimpl. exists a. split; [reflexivity|]. split; [intros Hb; exact Hb|]. unfold spec_feed. cbn [fst snd]. rewrite Hh. destruct b. exact Hr.
Qed.

Lemma ecn_noted a b d ecn : represents (spec_feed b (CInitial d, 0)) a -> bound a ->
  represents (spec_feed b (CInitial d, ecn)) (wired_srvboot_acc_ecn_note a ecn) /\ bound (wired_srvboot_acc_ecn_note a ecn).
Proof.
  intros Hr Hb. destruct (ecn_safe a ecn (rp_ok _ _ Hr)) as [Ha _]. destruct Hr. unfold spec_feed in *. cbn [fst snd Z.eqb] in *. unfold wired_srvboot_acc_ecn_note in *.
  destruct rp_count0 as (C1 & C2 & C3 & C4). cbn [bs_opened bs_ect0 bs_ect1 bs_ce] in C1, C2, C3, C4.
  destruct (Z.eqb_spec ecn 1) as [->|]; [|destruct (Z.eqb_spec ecn 2) as [->|]; [|destruct (Z.eqb_spec ecn 3) as [->|]]]; cbn [Z.eqb Pos.eqb];
    (split; [|exact Hb]); constructor; try assumption;
    cbn [with_ecn sa_opened sa_ect0 sa_ect1 sa_ce bs_opened bs_ect0 bs_ect1 bs_ce]; rewrite ?C2, ?C3, ?C4; split_and!; (assumption || reflexivity).
Qed.

Lemma step_fed a b x ecn w : represents b a -> bound a -> sends x w ->
  exists a' y, srvrun_boot_feed M cached ck' sk' false a w ecn = Some (true, a', y) /\ bound a' /\ represents (spec_feed b (x, ecn)) a'.
Proof.
  intros Hr Hb Hs. unfold srvrun_boot_feed. rewrite (proj1 Hb). cbn [orb negb]. osimpl. destruct x as [d | dg].
  - destruct (initial_fed a b d w Hr (or_intror Hb) Hs) as (a' & y & E & Ez & Hb' & Hr'). rewrite Ez, E. osimpl. eexists _, _. split; [reflexivity|].
    change (srvrun_boot_ecn true false ecn) with ecn. destruct (ecn_noted a' b d ecn Hr' Hb') as [H1 H2]. split; assumption.
  - destruct Hs as [-> Ez]. destruct (early_fed a b dg Hr Ez) as (a' & E & Hb' & Hr'). rewrite Ez, E. osimpl. eexists _, _. split; [reflexivity|]. split; [exact (Hb' Hb) | exact Hr'].
Qed.

Lemma reset_represents a : acc_ok a -> exists a0, wired_srvboot_acc_reset a = Some a0 /\ sa_any a0 = false /\ represents spec_fresh a0.
Proof.
  intros Ha. destruct (reset_spec a Ha) as (m & Em & E & Ha0). eexists. split; [exact E|]. split; [reflexivity|].
  destruct (crecv_init_inv CH (sa_mem a) CRECV_INITIAL_BUF ltac:(unfold CRECV_INITIAL_BUF, span_max; lia)) as (m' & Em' & Hinv).
  { destruct (ao_cr a Ha) as (W & _). rewrite (ao_cap a Ha) in W. exact W. }
  assert (m' = m) as -> by congruence. constructor; cbn [sa_cr sa_mem sa_largest_pn sa_opened sa_ect0 sa_ect1 sa_ce sa_hrr_off sa_zr sa_zr_len sa_zr_n cr_overflow cr_received_to spec_fresh bs_segs bs_largest bs_opened bs_ect0 bs_ect1 bs_ce bs_early].
  - exact Ha0.
  - exists []. split; [exact Hinv|]. split; [|reflexivity]. unfold CRECV_INITIAL_BUF. split_and!; [lia.. | intros; lia | by intros _ ?%covered_nil].
  - reflexivity.
  - lia.
  - split_and!; reflexivity.
  - reflexivity.
  - split; [reflexivity|]. intros i e He. rewrite lookup_nil in He. discriminate.
Qed.

Lemma first_fed a d ecn w up : acc_ok a -> up || negb (sa_any a) = true -> sends (CInitial d) w ->
  exists a' y, srvrun_boot_feed M cached ck' sk' up a w ecn = Some (true, a', y) /\ bound a' /\ represents (spec_feed spec_fresh (CInitial d, ecn)) a'.
Proof.
  intros Ha Hup Hs. unfold srvrun_boot_feed. rewrite Hup. destruct (reset_represents a Ha) as (a0 & E0 & Hany & Hr). rewrite E0. osimpl.
  destruct (initial_fed a0 spec_fresh d w Hr (or_introl Hany) Hs) as (a' & y & E & Ez & Hb' & Hr'). rewrite Ez, E. osimpl. eexists _, _. split; [reflexivity|].
  change (srvrun_boot_ecn true false ecn) with ecn. destruct (ecn_noted a' spec_fresh d ecn Hr' Hb') as [H1 H2]. split; assumption.
Qed.

Lemma all_fed xs ws : Forall2 (fun x w => sends x.1 w) xs ws -> forall a b, represents b a -> bound a ->
  exists a', feed_all M cached ck' sk' false a (zip ws (map snd xs)) = Some a' /\ represents (foldl spec_feed b xs) a' /\ bound a'.
Proof.
  induction 1 as [|[x ecn] w xs ws Hs _ IH]; intros a b Hr Hb; [by exists a|]. cbn [map snd zip zip_with feed_all foldl].
  destruct (step_fed a b x ecn w Hr Hb Hs) as (a' & y & -> & Hb' & Hr'). osimpl. exact (IH a' _ Hr' Hb').
Qed.

(** ** What TLS and the 0-RTT replay are given *)

Lemma early_taken b a : represents b a -> wired_srvboot_acc_zerortt_count a = zlen (bs_early b) /\
  forall i, 0 <= i -> wired_srvboot_acc_zerortt_take a i = Some (default [] (bs_early b !! Z.to_nat i)).
Proof.
  intros Hr. destruct (rp_early b a Hr) as [En He]. destruct (ao_zr a (rp_ok b a Hr)) as (L1 & F & L2 & Hn & _). split; [exact En|]. intros i Hi. unfold wired_srvboot_acc_zerortt_take.
  destruct (Z.leb_spec (sa_zr_n a) i).
  - rewrite lookup_ge_None_2 by (unfold zlen in *; lia). reflexivity.
  - destruct (lookup_lt_is_Some_2 (bs_early b) (Z.to_nat i)) as [e Ei]; [unfold zlen in *; lia|]. destruct (He _ e Ei) as (El & row & Er & Ht). rewrite Ei. cbn [default].
    unfold load. destruct (Z.leb_spec 0 i); [|lia]. rewrite Er, El. osimpl. pose proof (f_equal length Ht) as Lt. rewrite length_take in Lt. rewrite mem_sub_in by (unfold zlen; lia).
    change (drop (Z.to_nat 0) row) with row. unfold zlen. rewrite Nat2Z.id, Ht. reflexivity.
Qed.

Lemma be24 z : 0 <= z < 16777216 -> exists b1 b2 b3, be_bytes 3 z = [b1; b2; b3] /\ Z.lor (Z.lor (Z.shiftl b1 16) (Z.shiftl b2 8)) b3 = z.
Proof.
  intros Hz. exists ((z / 65536) mod 256), ((z / 256) mod 256), (z mod 256). split.
  - rewrite !be_bytes_cons. cbn [be_bytes]. change (256 ^ Z.of_nat 2) with 65536. change (256 ^ Z.of_nat 1) with 256. change (256 ^ Z.of_nat 0) with 1. rewrite Z.div_1_r. reflexivity.
  - rewrite (Z.shiftl_mul_pow2 ((z / 256) mod 256)) by lia. rewrite lor_shiftl by (Z.to_euclidean_division_equations; lia).
    replace ((z / 65536) mod 256 * 2 ^ 16 + (z / 256) mod 256 * 2 ^ 8) with (Z.shiftl (z / 256) 8) by (rewrite Z.shiftl_mul_pow2 by lia; Z.to_euclidean_division_equations; lia).
    rewrite lor_shiftl by (Z.to_euclidean_division_equations; lia). Z.to_euclidean_division_equations; lia.
Qed.

Lemma message_size b a : represents b a -> one_message CH -> 4 <= cr_received_to (sa_cr a) -> msg_total (sa_mem a) 0 = Some (zlen CH).
Proof.
  intros Hr (t & body & E & Hz) H4. destruct (rp_crypto b a Hr) as (hist & (Hwf & _ & Hfill & Hpre) & _). pose proof (ao_cap a (rp_ok b a Hr)) as Hcap.
  destruct Hwf as (_ & _ & Hto). assert (L : forall i, 0 <= i < 4 -> load (sa_mem a) i = load CH i) by (intros i Hi; apply (Hfill i); [lia | apply Hpre; lia]).
  unfold msg_total. change (0 + 1) with 1. change (0 + 2) with 2. change (0 + 3) with 3. rewrite !L by lia. pose proof (zlen_nonneg body). destruct (be24 (zlen body) ltac:(lia)) as (b1 & b2 & b3 & Eb & Ev).
  rewrite E, Eb. cbn [app]. change (load (t :: b1 :: b2 :: b3 :: body) 1) with (Some b1). change (load (t :: b1 :: b2 :: b3 :: body) 2) with (Some b2).
  change (load (t :: b1 :: b2 :: b3 :: body) 3) with (Some b3). osimpl. rewrite Ev, u64_small by lia. rewrite !zlen_cons. f_equal. lia.
Qed.

Lemma represents_shows b a : represents b a -> shows CH b a.
Proof.
  intros Hr. destruct (early_taken b a Hr) as [He1 He2]. destruct (rp_crypto b a Hr) as (hist & Hinv & Hgap & Hcov). destruct (message_prefix _ _ _ _ Hinv) as [Hm Hle].
  destruct Hr. destruct rp_count0 as (C1 & C2 & C3 & C4). unfold shows. split_and!; try assumption; [|apply rp_pn0]. exact (first_gap_ext hist _ _ _ Hcov Hgap).
Qed.

Lemma answers b a : represents b a -> bound a -> one_message CH ->
  srvrun_boot_crypto_error a = Some 0 /\ srvrun_boot_hold a = Some (cr_received_to (sa_cr a) <? zlen CH).
Proof.
  intros Hr Hb H1. destruct (represents_shows b a Hr) as (Hov & (Hrange & _) & _ & Hle & _). pose proof (message_size b a Hr H1) as Hsize.
  assert (4 <= zlen CH) by (destruct H1 as (t & body & -> & _); rewrite zlen_cons, zlen_app, zlen_be_bytes; pose proof (zlen_nonneg body); lia). unfold CRECV_INITIAL_BUF in *.
  assert (Hc : wired_srvboot_acc_complete a = Some (zlen CH <=? cr_received_to (sa_cr a))).
  { unfold wired_srvboot_acc_complete, crecv_complete_message_at. rewrite (proj1 Hb), (rp_hrr b a Hr), u64_small by lia. change (0 + 4) with 4.
    destruct (Z.ltb_spec (cr_received_to (sa_cr a)) 4); [f_equal; symmetry; apply Z.leb_gt; lia|]. rewrite Hsize by lia. osimpl. rewrite u64_small by lia. reflexivity. }
  assert (He : srvrun_boot_crypto_error a = Some 0).
  { unfold srvrun_boot_crypto_error, wired_srvboot_acc_trailing. rewrite Hov, Hc. osimpl. cbn [Z.eqb negb]. destruct (Z.leb_spec (zlen CH) (cr_received_to (sa_cr a))); cbn [negb]; osimpl; [|reflexivity].
    unfold crecv_message_end_at. rewrite (rp_hrr b a Hr), Hsize by lia. osimpl. rewrite u64_small by lia. unfold cryptolevel_unconsumed_on_promote.
    destruct (Z.ltb_spec (0 + zlen CH) (cr_received_to (sa_cr a))); [lia | reflexivity]. }
  split; [exact He|]. unfold srvrun_boot_hold. rewrite Hc, He. osimpl. destruct (Z.leb_spec (zlen CH) (cr_received_to (sa_cr a))), (Z.ltb_spec (cr_received_to (sa_cr a)) (zlen CH)); try lia; reflexivity.
Qed.
End feeding.
End crossing.

(** C1: the ClientHello the client sent is the one TLS is given. A client of
    version 1 or 2 cuts a ClientHello of up to 4096 bytes into Initials built by
    initpkt_build_ver, any parts in any order with repetitions, and 0-RTT
    datagrams are mixed in. Fed one by one, with their ECN codepoints, to a
    fresh slot (or one that restarts), starting with an Initial, every datagram
    is accepted, and the server's state is at every point what the
    specification [foldl spec_feed] says: the contiguous prefix of the
    ClientHello up to the first byte not sent yet, the largest packet number,
    the Initials opened and their ECN marks, and the first 32 early datagrams
    of at most 1500 bytes, verbatim. For one handshake message the connection
    never sees a CRYPTO error and is on hold exactly until the last byte of the
    ClientHello has arrived; then the message is the ClientHello. *)
Theorem client_hello_delivered M cached v dc sc CH d ecn w xs ws ck sk up a :
  cpu_ok M -> v = VERSION_1 \/ v = VERSION_2 -> zlen CH <= CRECV_INITIAL_BUF -> keys_ok ck -> sized sk -> acc_ok a -> up || negb (sa_any a) = true ->
  sends M cached v dc sc CH (CInitial d) w -> Forall2 (fun x w => sends M cached v dc sc CH x.1 w) xs ws ->
  let b := foldl spec_feed spec_fresh ((CInitial d, ecn) :: xs) in
  exists a', feed_all M cached ck sk up a ((w, ecn) :: zip ws (map snd xs)) = Some a' /\ shows CH b a' /\
    (one_message CH -> srvrun_boot_crypto_error a' = Some 0 /\ srvrun_boot_hold a' = Some (cr_received_to (sa_cr a') <? zlen CH) /\
      (srvrun_boot_hold a' = Some false -> crecv_message (sa_cr a') (sa_mem a') = CH) /\
      ((forall i, 0 <= i < zlen CH -> covered (bs_segs b) i) -> srvrun_boot_hold a' = Some false)).
Proof.
  intros HM Hv Hlen Hck Hsk Ha Hup Hs Hxs b. cbn [feed_all].
  destruct (first_fed M HM cached v Hv dc sc CH Hlen ck sk Hck Hsk a d ecn w up Ha Hup Hs) as (a1 & y & -> & Hb1 & Hr1). osimpl.
  destruct (all_fed M HM cached v Hv dc sc CH Hlen ck sk Hck Hsk xs ws Hxs a1 _ Hr1 Hb1) as (a' & E & Hr & Hb). exists a'. split; [exact E|]. change (represents CH b a') in Hr.
  pose proof (represents_shows CH b a' Hr) as Hshow. split; [exact Hshow|]. intros H1. destruct (answers dc sc CH Hlen b a' Hr Hb H1) as [He Hh].
  split; [exact He|]. split; [exact Hh|]. destruct Hshow as (_ & (Hrange & _ & Hno) & Hm & Hle & _). rewrite Hh. split.
  - intros E0. injection E0 as E0. apply Z.ltb_ge in E0. rewrite Hm. apply take_ge. unfold zlen in *. lia.
  - intros Hall. f_equal. apply Z.ltb_ge. destruct (Z_lt_le_dec (cr_received_to (sa_cr a')) (zlen CH)) as [Hlt|]; [|lia]. exfalso. apply Hno; [unfold CRECV_INITIAL_BUF in *; lia|]. apply Hall. lia.
Qed.

(** Two overlapping parts of a ClientHello, the second one first, with a 0-RTT
    datagram between them. *)
Definition demo_hello : list Z := [1; 0; 0; 3; 7; 8; 9].
Definition demo_late : initpkt_desc := mk_ip a1_dcid [5] [7; 8; 9] 1 4.
Definition demo_first : initpkt_desc := mk_ip a1_dcid [5] [1; 0; 0; 3; 7] 0 0.
Definition demo_early : list Z := [0xd0; 0; 0; 0; 1; 0; 0; 8].

Lemma demo_sent d : d = demo_late \/ d = demo_first -> exists w, sends model_cpu 0 VERSION_1 a1_dcid [5] demo_hello (CInitial d) w.
Proof.
  intros Hd. assert (Hi : initial_of a1_dcid [5] demo_hello d /\ ip_crypto d <> [] /\ exists f, seg_wire (ip_seg d) = Some f /\ zlen f <= 20).
  { destruct Hd as [-> | ->]; (split; [|split; [discriminate | eexists; split; [vm_compute; reflexivity | vm_compute; congruence]]]);
      (split; [split_and!; try (vm_compute; congruence); try apply be_bytes_ok; repeat constructor; vm_compute; congruence|]); (split; [reflexivity|]; split; [reflexivity|]; split; [|vm_compute; split; congruence]);
      (split; [vm_compute; congruence|]); intros j Hj; unfold zlen in Hj; cbn in Hj.
    - assert (j = 0 \/ j = 1 \/ j = 2) as [-> | [-> | ->]] by lia; reflexivity.
    - assert (j = 0 \/ j = 1 \/ j = 2 \/ j = 3 \/ j = 4) as [-> | [-> | [-> | [-> | ->]]]] by lia; reflexivity. }
  destruct Hi as (Hi & Hne & f & Hf & Lf). pose proof Hi as (Hok & _ & _ & _ & Hpn).
  assert (K : forall b, is_u8 b -> keys_ok (held b)) by exact held_ok. assert (K7 : keys_ok (held 7)) by (apply K; unfold is_u8; lia). assert (K8 : keys_ok (held 8)) by (apply K; unfold is_u8; lia).
  assert (Hv : is_u32 VERSION_1) by (split; vm_compute; congruence). pose proof (near_recoverable 0 (ip_pn d) ltac:(lia) Hpn) as Hrec.
  assert (Lout : zlen (replicate 1300 0) < span_max) by (vm_compute; reflexivity). assert (Lroom : zlen (replicate 1200 0) = 1200) by reflexivity.
  pose proof (initpkt_build_spec model_cpu model_cpu_ok 0 d Hok VERSION_1 Hv (held 7) (held 8) (replicate 1200 0) 0 (replicate 1300 0) K7 (keys_sized _ K8) Lroom Hrec Lout) as H.
  rewrite bool_decide_false in H by exact Hne. destruct H as (frame & Hfr & Bf & H). assert (frame = f) as -> by congruence. destruct (Z.leb_spec (zlen f) 1200) as [Hfit|]; [|lia].
  destruct H as (l & Hl & Ll & E). destruct (ip_packet_shape model_cpu model_cpu_ok 0 d Hok VERSION_1 Hv f Bf Hfit (held 7) K7 0 Hrec l Hl Ll) as (_ & _ & Lw).
  assert (L13 : zlen (replicate 1300 0) = 1300) by reflexivity. destruct (Z.ltb_spec (zlen (replicate 1300 0)) (zlen (ip_packet d VERSION_1 f (held 7) l))); [lia|].
  eexists. split; [exact Hi|]. exists (held 7), (held 8), (replicate 1200 0), (replicate 1300 0). eexists _, _.
  split; [exact K7|]. split; [exact (keys_sized _ K8)|]. split; [exact Lroom|]. split; [exact Lout|]. split; [exact E | reflexivity].
Qed.

Lemma client_hello_delivered_witness : exists w1 w2,
  sends model_cpu 0 VERSION_1 a1_dcid [5] demo_hello (CInitial demo_late) w1 /\ sends model_cpu 0 VERSION_1 a1_dcid [5] demo_hello (CInitial demo_first) w2 /\
  exists a', feed_all model_cpu 0 (held 1) (held 2) false acc0 [(w1, 2); (demo_early, 1); (w2, 3)] = Some a' /\
    crecv_message (sa_cr a') (sa_mem a') = demo_hello /\ srvrun_boot_hold a' = Some false /\ sa_largest_pn a' = 1 /\ sa_opened a' = 2 /\ sa_ce a' = 1 /\
    wired_srvboot_acc_zerortt_take a' 0 = Some demo_early.
Proof.
  destruct (demo_sent demo_late (or_introl eq_refl)) as [w1 H1]. destruct (demo_sent demo_first (or_intror eq_refl)) as [w2 H2].
  exists w1, w2. split; [exact H1|]. split; [exact H2|].
  destruct (client_hello_delivered model_cpu 0 VERSION_1 a1_dcid [5] demo_hello demo_late 2 w1 [(CEarly demo_early, 1); (CInitial demo_first, 3)] [demo_early; w2] (held 1) (held 2) false acc0
    model_cpu_ok (or_introl eq_refl) ltac:(vm_compute; congruence) (held_ok 1 ltac:(unfold is_u8; lia)) (keys_sized _ (held_ok 2 ltac:(unfold is_u8; lia))) acc0_ok eq_refl H1)
    as (a' & E & (_ & _ & _ & _ & S1 & S2 & _ & _ & S5 & _ & S7) & Hone).
  - constructor; [split; [reflexivity | vm_compute; reflexivity]|]. constructor; [exact H2 | constructor].
  - exists a'. split; [exact E|]. assert (O : one_message demo_hello) by (exists 1, [7; 8; 9]; split; [reflexivity | vm_compute; reflexivity]).
    destruct (Hone O) as (_ & _ & Hmsg & Hall).
    assert (Hh : srvrun_boot_hold a' = Some false).
    { apply Hall. intros i Hi. change (zlen demo_hello) with 7 in Hi. cbn [foldl spec_feed fst snd bs_segs spec_fresh].
      rewrite !covered_cons. unfold demo_late, demo_first, ip_seg, zlen. cbn [fst snd ip_crypto_off ip_crypto length]. lia. }
    split; [exact (Hmsg Hh)|]. split; [exact Hh|]. split; [exact S1|]. split; [exact S2|]. split; [exact S5 | exact (S7 0 ltac:(lia))].
Defined.
