(* ===== verification/Tokens.v ===== *)
(** * Address validation tokens and stateless resets

    src/src/transport/conn/cid: the Retry and NEW_TOKEN tokens (retrytoken), the
    client's handling of a Retry (retrydrive), the connection id exchange and its
    verification (cidxchg, tls/ext/tpverify), the reset token of an id and the
    reset packet (sreset), and the map of known tokens (sresetdrive/tokenmap.c).
    All MACs are the HMAC-SHA-256 of Sha2. *)

From Stdlib Require Import String.
From stdpp Require Import base numbers list option.
From Stdlib Require Import ZArith Lia.
From S2P Require Import Prelude Bytes Header Paths PeerCid Fips180 Sha2.

(** ** retrytoken.c *)

Definition RETRYTOKEN_LEN : Z := 32.
Definition RETRYTOKEN_MSG : Z := 64.

(* src/src/transport/conn/cid/retrytoken/retrytoken.h : retrytoken_in *)
Record retrytoken_in := mk_rt_in { rt_addr : list Z; rt_odcid : list Z }.

(** The message of the length returned: empty when the fields do not fit. *)
(* src/src/transport/conn/cid/retrytoken/retrytoken.c : build_msg *)
Definition retry_build_msg (i : retrytoken_in) : list Z :=
  if RETRYTOKEN_MSG <? zlen (rt_addr i) + zlen (rt_odcid i) then [] else rt_addr i ++ rt_odcid i.

(* src/src/transport/conn/cid/retrytoken/retrytoken.c : retrytoken_make *)
Definition retrytoken_make (key : list Z) (i : retrytoken_in) : option (list Z) := hmac_sha256 key (retry_build_msg i).

(* src/src/transport/conn/cid/retrytoken/retrytoken.c : retrytoken_verify *)
Definition retrytoken_verify (key : list Z) (i : retrytoken_in) (token : list Z) : option bool :=
  want ← retrytoken_make key i; d ← ct_diff32 want token; Some (d =? 0).

(** The wire token, empty for C's 0. *)
(* src/src/transport/conn/cid/retrytoken/retrytoken.c : retrytoken_wire_make *)
Definition retrytoken_wire_make (key addr odcid : list Z) : option (list Z) :=
  if 20 <? zlen odcid then Some []
  else t ← retrytoken_make key (mk_rt_in addr odcid); Some ([u8 (zlen odcid)] ++ odcid ++ t).

(* src/src/transport/conn/cid/retrytoken/retrytoken.c : retrytoken_wire_framed *)
Definition retrytoken_wire_framed (token : list Z) : option bool :=
  if zlen token <? 1 + RETRYTOKEN_LEN then Some false
  else
    b ← load token 0;
    if 20 <? b then Some false else Some (zlen token =? 1 + b + RETRYTOKEN_LEN).

(** The original destination id of an accepted token. *)
(* src/src/transport/conn/cid/retrytoken/retrytoken.c : retrytoken_wire_verify *)
Definition retrytoken_wire_verify (key addr token : list Z) : option (option (list Z)) :=
  ok ← retrytoken_wire_framed token;
  if negb ok then Some None
  else
    b ← load token 0;
    let odcid := take (Z.to_nat b) (drop 1 token) in
    v ← retrytoken_verify key (mk_rt_in addr odcid) (drop (Z.to_nat (1 + b)) token);
    Some (if v : bool then Some odcid else None).

(** ** newtoken.c *)

Definition NEWTOKEN_NONCE : Z := 16.
Definition NEWTOKEN_WIRE_LEN : Z := 56.
Definition NEWTOKEN_MAX_AGE_SECS : Z := 604800.
Definition NEWTOKEN_MSG : Z := 64.

(* src/src/transport/conn/cid/retrytoken/newtoken.c : newtoken_msg_body *)
Definition newtoken_msg_body (addr : list Z) (issued_at : Z) (nonce : list Z) : option (list Z) :=
  ts ← be_put_be64 (replicate 8 0) 0 issued_at; Some (addr ++ ts ++ take 16 nonce).

(* src/src/transport/conn/cid/retrytoken/newtoken.c : newtoken_build_msg *)
Definition newtoken_build_msg (addr : list Z) (issued_at : Z) (nonce : list Z) : option (list Z) :=
  if NEWTOKEN_MSG <? zlen addr + 8 + NEWTOKEN_NONCE then Some [] else newtoken_msg_body addr issued_at nonce.

(* src/src/transport/conn/cid/retrytoken/newtoken.c : newtoken_mac *)
Definition newtoken_mac (key addr : list Z) (issued_at : Z) (nonce : list Z) : option (list Z) :=
  m ← newtoken_build_msg addr issued_at nonce; hmac_sha256 key m.

(** [rng] is what the random generator gave, if it succeeded. *)
(* src/src/transport/conn/cid/retrytoken/newtoken.c : newtoken_wire_make *)
Definition newtoken_wire_make (key addr : list Z) (now_secs : Z) (rng : option (list Z)) : option (option (list Z)) :=
  match rng with
  | None => Some None
  | Some nonce =>
      ts ← be_put_be64 (replicate 8 0) 0 now_secs;
      m ← newtoken_mac key addr now_secs nonce;
      Some (Some (ts ++ nonce ++ m))
  end.

(* src/src/transport/conn/cid/retrytoken/newtoken.c : within_lifetime *)
Definition within_lifetime (issued_at now_secs : Z) : bool :=
  if now_secs <? issued_at then false else now_secs - issued_at <=? NEWTOKEN_MAX_AGE_SECS.

(* src/src/transport/conn/cid/retrytoken/newtoken.c : mac_ok *)
Definition newtoken_mac_ok (key addr : list Z) (issued_at : Z) (token : list Z) : option bool :=
  want ← newtoken_mac key addr issued_at (drop 8 token);
  d ← ct_diff32 want (drop 24 token); Some (d =? 0).

(* src/src/transport/conn/cid/retrytoken/newtoken.c : newtoken_valid *)
Definition newtoken_valid (key addr token : list Z) (now_secs : Z) : option (option Z) :=
  if negb (zlen token =? NEWTOKEN_WIRE_LEN) then Some None
  else
    issued_at ← be_get_be64 token 0;
    if negb (within_lifetime issued_at now_secs) then Some None
    else ok ← newtoken_mac_ok key addr issued_at token; Some (if ok : bool then Some issued_at else None).

(** When it was issued, and its nonce. *)
(* src/src/transport/conn/cid/retrytoken/newtoken.c : newtoken_wire_verify *)
Definition newtoken_wire_verify (key addr token : list Z) (now_secs : Z) : option (option (Z * list Z)) :=
  r ← newtoken_valid key addr token now_secs;
  Some (match r with Some issued_at => Some (issued_at, take 16 (drop 8 token)) | None => None end).

(** ** tokentype.c *)

Definition TOKEN_TAG_RETRY : Z := 0x01.
Definition TOKEN_TAG_NEWTOKEN : Z := 0x02.

(** The tagged token in a buffer of [cap] bytes, empty for C's 0. *)
(* src/src/transport/conn/cid/retrytoken/tokentype.c : tag *)
Definition token_tag (cap t : Z) (body : list Z) : list Z :=
  if cap <? 1 then [] else if cap <? 1 + zlen body then [] else t :: body.
(* src/src/transport/conn/cid/retrytoken/tokentype.c : token_tag_retry *)
Definition token_tag_retry (cap : Z) (body : list Z) : list Z := token_tag cap TOKEN_TAG_RETRY body.
(* src/src/transport/conn/cid/retrytoken/tokentype.c : token_tag_newtoken *)
Definition token_tag_newtoken (cap : Z) (body : list Z) : list Z := token_tag cap TOKEN_TAG_NEWTOKEN body.
(* src/src/transport/conn/cid/retrytoken/tokentype.c : token_is_retry *)
Definition token_is_retry (token : list Z) : bool := match token with b :: _ => b =? TOKEN_TAG_RETRY | [] => false end.

(** ** retrydrive *)

(* src/src/transport/conn/cid/retrydrive/accept.c : retrydrive_accept *)
Definition retrydrive_accept (already_received_retry integrity_tag_valid : bool) : bool :=
  negb already_received_retry && integrity_tag_valid.

(** [token] and [dcid] are the arrays of the C struct. *)
(* src/src/transport/conn/cid/retrydrive/reconnect.h : retrydrive_state *)
Record retrydrive_state := mk_rd {
  rd_received : bool; rd_key_rederive : bool; rd_token : list Z; rd_token_len : Z; rd_dcid : list Z; rd_dcid_len : Z }.

Definition RETRY_TOKEN_CAP : Z := 256.
(* src/src/transport/conn/cid/retrydrive/reconnect.c : fits *)
Definition retrydrive_fits (token_len scid_len : Z) : bool := (token_len <=? RETRY_TOKEN_CAP) && (scid_len <=? 20).

(* src/src/transport/conn/cid/retrydrive/reconnect.c : retrydrive_apply *)
Definition retrydrive_apply (retry_token retry_scid : list Z) (out : retrydrive_state) : option (bool * retrydrive_state) :=
  if negb (retrydrive_fits (zlen retry_token) (zlen retry_scid)) then Some (false, out)
  else
    t ← copy (rd_token out) 0 retry_token 0 (length retry_token);
    d ← copy (rd_dcid out) 0 retry_scid 0 (length retry_scid);
    Some (true, mk_rd true true t (zlen retry_token) d (u8 (zlen retry_scid))).

(** The token of the next Initial. *)
(* src/src/transport/conn/cid/retrydrive/token.c : retrydrive_initial_token *)
Definition retrydrive_initial_token (s : retrydrive_state) : list Z :=
  take (Z.to_nat (if rd_received s then rd_token_len s else 0)) (rd_token s).

(** ** tpverify and cidxchg *)

Fixpoint cid_eq_loop (a b : list Z) (n : nat) (d : Z) : Z :=
  match n, a, b with
  | S n', x :: a', y :: b' => cid_eq_loop a' b' n' (u8 (Z.lor d (Z.lxor x y)))
  | _, _, _ => d
  end.
(* src/src/tls/ext/tpverify/ctcid.h : tpverify_cid_eq *)
Definition tpverify_cid_eq (a b : list Z) : bool :=
  let n := if zlen a <? zlen b then length a else length b in
  cid_eq_loop a b n (u8 (Z.lxor (zlen a) (zlen b))) =? 0.

(* src/src/tls/ext/tpverify/odcid.c : tpverify_odcid *)
Definition tpverify_odcid (sent_dcid tp_odcid : list Z) : bool := tpverify_cid_eq sent_dcid tp_odcid.
(* src/src/tls/ext/tpverify/iscid.c : tpverify_iscid *)
Definition tpverify_iscid (first_scid tp_iscid : list Z) : bool := tpverify_cid_eq first_scid tp_iscid.
(* src/src/tls/ext/tpverify/rscid.c : presence_ok *)
Definition presence_ok (retry_occurred tp_present : bool) : bool := Bool.eqb (negb retry_occurred) (negb tp_present).
(* src/src/tls/ext/tpverify/rscid.c : tpverify_rscid *)
Definition tpverify_rscid (retry_occurred : bool) (retry_scid tp_rscid : list Z) (tp_present : bool) : bool :=
  if negb (presence_ok retry_occurred tp_present) then false
  else if negb retry_occurred then true else tpverify_cid_eq retry_scid tp_rscid.

(** The ids in use of the C struct's arrays. *)
(* src/src/transport/conn/cid/cidxchg/cidxchg.h : cidxchg *)
Record cidxchg := mk_cidxchg { cx_init_dcid : list Z; cx_own_scid : list Z; cx_dcid : list Z }.

(* src/src/transport/conn/cid/cidxchg/cidxchg.c : cidxchg_fits *)
Definition cidxchg_fits (a b : Z) : bool := (a <=? 20) && (b <=? 20).
(* src/src/transport/conn/cid/cidxchg/cidxchg.c : cidxchg_set *)
Definition cidxchg_set (src : list Z) : list Z := take (Z.to_nat (u8 (zlen src))) src.
(* src/src/transport/conn/cid/cidxchg/cidxchg.c : cidxchg_init *)
Definition cidxchg_init (x : cidxchg) (init_dcid own_scid : list Z) : bool * cidxchg :=
  if negb (cidxchg_fits (u8 (zlen init_dcid)) (u8 (zlen own_scid))) then (false, x)
  else (true, mk_cidxchg (cidxchg_set init_dcid) (cidxchg_set own_scid) (cidxchg_set init_dcid)).
(* src/src/transport/conn/cid/cidxchg/cidxchg.c : cidxchg_on_server_scid *)
Definition cidxchg_on_server_scid (x : cidxchg) (server_scid : list Z) : bool * cidxchg :=
  if 20 <? zlen server_scid then (false, x) else (true, mk_cidxchg (cx_init_dcid x) (cx_own_scid x) (cidxchg_set server_scid)).
(* src/src/transport/conn/cid/cidxchg/cidxchg.c : cidxchg_remember_odcid *)
Definition cidxchg_remember_odcid (x : cidxchg) (initial_dcid : list Z) : bool * cidxchg :=
  if 20 <? zlen initial_dcid then (false, x) else (true, mk_cidxchg (cidxchg_set initial_dcid) (cx_own_scid x) (cx_dcid x)).
(* src/src/transport/conn/cid/cidxchg/cidxchg.c : cidxchg_verify_odcid *)
Definition cidxchg_verify_odcid (x : cidxchg) (odcid_tp : list Z) : bool := tpverify_odcid (cx_init_dcid x) odcid_tp.

(** ** sreset.c *)

Definition SRESET_TOKEN : Z := 16.
Definition SRESET_MIN : Z := 21.

(** "stateless reset" *)
Definition sreset_label : list Z := [115; 116; 97; 116; 101; 108; 101; 115; 115; 32; 114; 101; 115; 101; 116].
(* src/src/transport/conn/cid/sreset/sreset.c : sreset_key_derive *)
Definition sreset_key_derive (secret : list Z) : option (list Z) := hmac_sha256 secret sreset_label.
(* src/src/transport/conn/cid/sreset/sreset.c : sreset_token *)
Definition sreset_token (key cid : list Z) : option (list Z) := mac ← hmac_sha256 key cid; Some (take 16 mac).
(* src/src/transport/conn/cid/sreset/sreset.c : sreset_detect *)
Definition sreset_detect (dgram token : list Z) : option bool :=
  if zlen dgram <? SRESET_TOKEN then Some false
  else d ← ct_diff16 (drop (Z.to_nat (zlen dgram - SRESET_TOKEN)) dgram) token; Some (d =? 0).
(* src/src/transport/conn/cid/sreset/sreset.c : sreset_size *)
Definition sreset_size (trigger_len : Z) : Z :=
  let cap := u64 (trigger_len * 3) in
  let cap := if 0 <? cap then cap - 1 else cap in
  u64_max cap SRESET_MIN.

(** [rand] fills the first bytes of the buffer. *)
(* src/src/transport/conn/cid/sreset/sreset.c : sreset_build *)
Definition sreset_build (key cid : list Z) (trigger_len : Z) (rand : nat -> list Z) (out : obuf) : option (bool * obuf) :=
  if ocap out <? SRESET_MIN then Some (false, out)
  else
    let len := u64_min (sreset_size trigger_len) (ocap out) in
    p ← copy (op out) 0 (rand (Z.to_nat len)) 0 (Z.to_nat len);
    b ← load p 0;
    p ← store p 0 (u8 (Z.lor (Z.land b 0x3f) 0x40));
    t ← sreset_token key cid;
    p ← copy p (len - SRESET_TOKEN) t 0 16;
    Some (true, mk_obuf p len).

(** ** tokenmap.c *)

(** [e] holds the entries counted. *)
(* src/src/transport/conn/cid/sresetdrive/tokenmap.h : sresetdrive_entry *)
Record sresetdrive_entry := mk_sre { se_cid : list Z; se_token : list Z }.
(* src/src/transport/conn/cid/sresetdrive/tokenmap.h : sresetdrive_map *)
Definition sresetdrive_map := list sresetdrive_entry.
Definition SRESETDRIVE_CAP : Z := 8.
Definition SRESETDRIVE_MAX_CID : Z := 20.

(* src/src/transport/conn/cid/sresetdrive/tokenmap.c : sresetdrive_map_init *)
Definition sresetdrive_map_init : sresetdrive_map := [].
(* src/src/transport/conn/cid/sresetdrive/tokenmap.c : cid_eq *)
Definition tokenmap_cid_eq (e : sresetdrive_entry) (cid : list Z) : bool :=
  if negb (zlen (se_cid e) =? u8 (zlen cid)) then false else cid_eq_loop (se_cid e) cid (length (se_cid e)) 0 =? 0.
(* src/src/transport/conn/cid/sresetdrive/tokenmap.c : can_add *)
Definition tokenmap_can_add (m : sresetdrive_map) (cid_len : Z) : bool :=
  (zlen m <? SRESETDRIVE_CAP) && (cid_len <=? SRESETDRIVE_MAX_CID).
(* src/src/transport/conn/cid/sresetdrive/tokenmap.c : entry_set *)
Definition tokenmap_entry_set (cid token : list Z) : sresetdrive_entry := mk_sre (take (Z.to_nat (u8 (zlen cid))) cid) (take 16 token).
(* src/src/transport/conn/cid/sresetdrive/tokenmap.c : sresetdrive_map_add *)
Definition sresetdrive_map_add (m : sresetdrive_map) (cid token : list Z) : bool * sresetdrive_map :=
  if negb (tokenmap_can_add m (u8 (zlen cid))) then (false, m) else (true, m ++ [tokenmap_entry_set cid token]).
(* src/src/transport/conn/cid/sresetdrive/tokenmap.c : sresetdrive_map_find *)
Fixpoint sresetdrive_map_find (m : sresetdrive_map) (cid : list Z) : option (list Z) :=
  match m with
  | [] => None
  | e :: m' => if tokenmap_cid_eq e cid then Some (se_token e) else sresetdrive_map_find m' cid
  end.

(** ** The MAC *)

(** HMAC-SHA-256, as proved of hmac.c. *)
Definition mac32 (key m : list Z) : list Z := rfc_hmac fips_sha256 SHA256_BLOCK key m.

Lemma mac32_length key m : length (mac32 key m) = 32%nat.
Proof. apply fips_sha256_length. Qed.
Lemma mac32_zlen key m : zlen (mac32 key m) = 32.
Proof. unfold zlen. by rewrite mac32_length. Qed.

Lemma concat_be_ok w l : bytes_ok (concat (map (be_bytes w) l)).
Proof. induction l as [|x l IH]; cbn; [constructor|]. apply Forall_app_2; [apply be_bytes_ok | exact IH]. Qed.
Lemma mac32_ok key m : bytes_ok (mac32 key m).
Proof. apply concat_be_ok. Qed.
#[local] Hint Resolve mac32_ok : core.

Lemma ct32_spec a b : bytes_ok a -> bytes_ok b -> length a = 32%nat -> length b = 32%nat ->
  exists d, ct_diff32 a b = Some d /\ (d =? 0) = bool_decide (a = b).
Proof.
  intros Ha Hb Hla Hlb. unfold ct_diff32. pose proof (ct_loop_eq a b 32 Ha Hb Hla Hlb) as H. destruct (ct_loop 0 a b 0 32) as [d|] eqn:E.
  - exists d. split; [done | exact H].
  - exfalso. destruct (ct_loop_spec a b 32 0 0) as (r & E' & _); try done; try (unfold zlen; lia). congruence.
Qed.

Lemma be_put_be64_fresh v : be_put_be64 (replicate 8 0) 0 v = Some (be_bytes 8 v).
Proof.
  unfold be_put_be64. assert (zlen (replicate 8 0) = 8) as Hz by reflexivity. rewrite be_put_be32_spec by lia. osimpl.
  rewrite be_put_be32_spec by (rewrite ?zlen_splice; rewrite ?zlen_be_bytes; lia). f_equal.
  assert (forall x y, splice (splice (replicate 8 0) 0 (be_bytes 4 x)) (0 + 4) (be_bytes 4 y) = be_bytes 4 x ++ be_bytes 4 y) as -> by reflexivity.
  unfold u32. rewrite Z.shiftr_div_pow2 by lia. cbn [be_bytes app]. change (2 ^ 32) with (256 * (256 * (256 * 256))).
  rewrite !Z.div_div by lia.
  assert (forall x, (x mod 4294967296) mod 256 = x mod 256) as E0 by (intros x; change 4294967296 with (256 * 16777216); apply Z.mod_mod_divide; by exists 16777216).
  assert (forall x k j, 0 < k -> 0 < j -> 4294967296 = k * 256 * j -> (x mod 4294967296 / k) mod 256 = (x / k) mod 256) as E1.
  { intros x k j Hk Hj E. rewrite E. rewrite <- Z.mul_assoc, Z.rem_mul_r by lia.
    rewrite (Z.mul_comm k), Z.div_add, Z.div_small, Z.add_0_l by (try apply Z.mod_pos_bound; lia).
    rewrite Z.rem_mul_r by lia. rewrite (Z.mul_comm 256), Z.mod_add by lia. by rewrite Z.mod_mod by lia. }
  rewrite !E0. rewrite !(E1 _ 256 65536), !(E1 _ (256 * 256) 256), !(E1 _ (256 * (256 * 256)) 1) by lia.
  rewrite !Z.div_div by lia. done.
Qed.

Lemma be_get_be64_spec v rest : is_u64 v -> be_get_be64 (be_bytes 8 v ++ rest) 0 = Some v.
Proof.
  intros Hv. unfold is_u64 in Hv. assert (be_bytes 8 v = be_bytes 4 (v / 2 ^ 32) ++ be_bytes 4 (v mod 2 ^ 32)) as ->.
  { rewrite <- (be_bytes_add 4 (v mod 2 ^ 32) (v / 2 ^ 32)). change (256 ^ Z.of_nat 4) with (2 ^ 32). rewrite Z.add_comm, (Z.mul_comm (v / 2 ^ 32)), <- Z.div_mod by lia.
    cbn [be_bytes app]. change (2 ^ 32) with (256 * (256 * (256 * 256))). by rewrite !Z.div_div by lia. }
  unfold be_get_be64. rewrite <- app_assoc.
  pose proof (be_get_be32_spec [] (v / 2 ^ 32) (be_bytes 4 (v mod 2 ^ 32) ++ rest)) as H0.
  rewrite app_nil_l in H0. change (zlen (@nil Z)) with 0 in H0. rewrite H0 by (unfold is_u32; split; [apply Z.div_pos; lia | apply Z.div_lt_upper_bound; lia]). osimpl.
  pose proof (be_get_be32_spec (be_bytes 4 (v / 2 ^ 32)) (v mod 2 ^ 32) rest) as H. rewrite zlen_be_bytes in H. change (0 + 4) with (Z.of_nat 4).
  rewrite H by (unfold is_u32; apply Z.mod_pos_bound; lia). osimpl. f_equal.
  rewrite u64_small; [|rewrite Z.shiftl_mul_pow2 by lia; split; [apply Z.mul_nonneg_nonneg; [apply Z.div_pos|]; lia|]].
  - rewrite lor_shiftl by (try apply Z.mod_pos_bound; lia). rewrite Z.mul_comm. symmetry. apply Z.div_mod. lia.
  - assert (v / 2 ^ 32 < 2 ^ 32) by (apply Z.div_lt_upper_bound; lia). nia.
Qed.

(** ** What the tokens are *)

Definition retry_wire (key addr odcid : list Z) : list Z := zlen odcid :: odcid ++ mac32 key (addr ++ odcid).
Definition newtoken_wire (key addr : list Z) (issued_at : Z) (nonce : list Z) : list Z :=
  be_bytes 8 issued_at ++ nonce ++ mac32 key (addr ++ be_bytes 8 issued_at ++ nonce).

Lemma retrytoken_make_spec key addr odcid : zlen addr + zlen odcid <= 64 ->
  retrytoken_make key (mk_rt_in addr odcid) = Some (mac32 key (addr ++ odcid)).
Proof.
  intros H. unfold retrytoken_make, retry_build_msg. cbn [rt_addr rt_odcid]. destruct (Z.ltb_spec RETRYTOKEN_MSG (zlen addr + zlen odcid)).
  - unfold RETRYTOKEN_MSG in *. lia.
  - apply hmac_sha256_spec.
Qed.

Lemma retry_make_wire key addr odcid : zlen addr <= 44 -> zlen odcid <= 20 ->
  retrytoken_wire_make key addr odcid = Some (retry_wire key addr odcid).
Proof.
  intros Ha Ho. unfold retrytoken_wire_make. destruct (Z.ltb_spec 20 (zlen odcid)); [lia|].
  rewrite retrytoken_make_spec by lia. osimpl. pose proof (zlen_nonneg odcid). by rewrite u8_small by lia.
Qed.

(** A token is accepted exactly when it is the one made for its own id. *)
Lemma retry_verify_spec key addr token : bytes_ok token -> zlen addr <= 44 -> zlen token < 2 ^ 62 ->
  exists r, retrytoken_wire_verify key addr token = Some r /\
    forall o, r = Some o <-> zlen o <= 20 /\ token = retry_wire key addr o.
Proof.
  intros Hok Ha Hlen. unfold retrytoken_wire_verify, retrytoken_wire_framed, RETRYTOKEN_LEN.
  assert (forall o, token = retry_wire key addr o -> zlen token = 33 + zlen o) as Hz.
  { intros o ->. unfold retry_wire. rewrite zlen_cons, zlen_app, mac32_zlen. lia. }
  destruct (Z.ltb_spec (zlen token) (1 + 32)) as [Hs|Hs].
  { osimpl. exists None. split; [done|]. intros o. split; [done|]. intros [_ He%Hz]. pose proof (zlen_nonneg o). lia. }
  destruct token as [|b rest]; [unfold zlen in Hs; cbn in Hs; lia|]. change (load (b :: rest) 0) with (Some b). osimpl.
  apply bytes_ok_cons in Hok as [Hb Hrest]. unfold is_u8 in Hb. rewrite zlen_cons in *.
  assert (forall o, b :: rest = retry_wire key addr o -> b = zlen o) as Hbo by (by intros o [= -> _]).
  destruct (Z.ltb_spec 20 b).
  { osimpl. exists None. split; [done|]. intros o. split; [done|]. intros [? ->%Hbo]. lia. }
  osimpl. destruct (Z.eqb_spec (1 + zlen rest) (1 + b + 32)) as [E|E]; cbn [negb].
  2: { exists None. split; [done|]. intros o. split; [done|]. intros [? He]. specialize (Hz o He). apply Hbo in He. lia. }
  cbn [drop skipn]. replace (Z.to_nat (1 + b)) with (S (Z.to_nat b)) by lia. cbn [drop skipn]. rewrite drop_0.
  set (o := take (Z.to_nat b) rest). set (m := drop (Z.to_nat b) rest).
  assert (rest = o ++ m) as Er by (symmetry; apply take_drop). assert (zlen o = b) as Ho by (unfold zlen in *; unfold o; rewrite length_take; lia).
  assert (length m = 32%nat) as Hm by (unfold m; rewrite length_drop; unfold zlen in *; lia).
  assert (bytes_ok m) as Hmok by (by apply bytes_ok_drop).
  unfold retrytoken_verify. rewrite retrytoken_make_spec by lia. osimpl.
  destruct (ct32_spec (mac32 key (addr ++ o)) m) as (d & -> & Hd); try done; try apply mac32_length. osimpl. rewrite Hd.
  eexists. split; [done|]. intros o'. case_bool_decide as Hmac.
  - split; [intros [= <-]; split; [lia|]; unfold retry_wire; by rewrite Ho, Er, Hmac|].
    intros [_ He]. f_equal. injection He as H1 H2. rewrite Er in H2. apply app_inj_1 in H2 as [? _]; [done|]. unfold zlen in *. lia.
  - split; [done|]. intros [_ He]. exfalso. apply Hmac. injection He as H1 H2. rewrite Er in H2.
    apply app_inj_1 in H2 as [-> ->]; [done|]. unfold zlen in *. lia.
Qed.

Lemma newtoken_mac_spec key addr t nonce : zlen addr <= 40 -> length (take 16 nonce) = 16%nat ->
  newtoken_mac key addr t nonce = Some (mac32 key (addr ++ be_bytes 8 t ++ take 16 nonce)).
Proof.
  intros Ha Hn. unfold newtoken_mac, newtoken_build_msg, NEWTOKEN_MSG, NEWTOKEN_NONCE. destruct (Z.ltb_spec 64 (zlen addr + 8 + 16)); [lia|].
  unfold newtoken_msg_body. rewrite be_put_be64_fresh. osimpl. apply hmac_sha256_spec.
Qed.

Lemma newtoken_make_wire key addr now nonce : zlen addr <= 40 -> length nonce = 16%nat ->
  newtoken_wire_make key addr now (Some nonce) = Some (Some (newtoken_wire key addr now nonce)).
Proof.
  intros Ha Hn. unfold newtoken_wire_make. rewrite be_put_be64_fresh. osimpl.
  rewrite newtoken_mac_spec by (rewrite ?take_ge by lia; done || lia). osimpl. by rewrite take_ge by lia.
Qed.

Lemma within_lifetime_spec t now : within_lifetime t now = bool_decide (t <= now <= t + NEWTOKEN_MAX_AGE_SECS).
Proof.
  unfold within_lifetime. destruct (Z.ltb_spec now t); case_bool_decide; try lia.
Qed.

Lemma newtoken_verify_spec key addr token now : bytes_ok token -> zlen addr <= 40 ->
  exists r, newtoken_wire_verify key addr token now = Some r /\
    forall t nonce, r = Some (t, nonce) <->
      is_u64 t /\ length nonce = 16%nat /\ token = newtoken_wire key addr t nonce /\ t <= now <= t + NEWTOKEN_MAX_AGE_SECS.
Proof.
  intros Hok Ha. unfold newtoken_wire_verify, newtoken_valid, NEWTOKEN_WIRE_LEN.
  assert (forall t nonce, length nonce = 16%nat -> token = newtoken_wire key addr t nonce -> zlen token = 56) as Hz.
  { intros t nonce Hn ->. unfold newtoken_wire. rewrite !zlen_app, zlen_be_bytes, mac32_zlen. unfold zlen. rewrite Hn. lia. }
  destruct (Z.eqb_spec (zlen token) 56) as [E|E]; cbn [negb].
  2: { osimpl. exists None. split; [done|]. intros t nonce. split; [done|]. intros (_ & Hn & H%Hz & _); done. }
  set (ts := take 8 token). set (rest := drop 8 token). assert (token = ts ++ rest) as Et by (symmetry; apply take_drop).
  assert (length ts = 8%nat) as Hts by (unfold ts; rewrite length_take; unfold zlen in E; lia).
  assert (bytes_ok ts) as Htok by (by apply bytes_ok_take).
  pose proof (be_val_bound ts Htok) as Hv. assert (zlen ts = 8) as Hzt by (unfold zlen; lia). rewrite Hzt in Hv.
  assert (ts = be_bytes 8 (be_val ts)) as Eb by (rewrite <- Hts at 1; symmetry; by apply be_bytes_val).
  set (iat := be_val ts) in *. assert (token = be_bytes 8 iat ++ rest) as Et2 by (by rewrite <- Eb).
  assert (be_get_be64 token 0 = Some iat) as -> by (transitivity (be_get_be64 (be_bytes 8 iat ++ rest) 0); [by f_equal | by apply be_get_be64_spec]). osimpl.
  set (nonce := take 16 rest). set (m := drop 16 rest).
  assert (length rest = 48%nat) as Hr by (unfold rest; rewrite length_drop; unfold zlen in E; lia).
  assert (length nonce = 16%nat) as Hn by (unfold nonce; rewrite length_take; lia).
  assert (forall t n, length n = 16%nat -> is_u64 t -> token = newtoken_wire key addr t n -> t = iat /\ n = nonce /\ m = mac32 key (addr ++ be_bytes 8 iat ++ nonce)) as Hinv.
  { intros t n Hn' Ht H. rewrite Et in H. unfold newtoken_wire in H. apply app_inj_1 in H as [H1 H2]; [|by rewrite length_be_bytes].
    assert (t = iat) as ->.
    { unfold iat. rewrite H1. rewrite be_val_bytes by (unfold is_u64 in Ht; lia). symmetry. apply Z.mod_small. exact Ht. }
    assert (nonce = n /\ m = mac32 key (addr ++ be_bytes 8 iat ++ n)) as [<- ->]; [|done].
    unfold nonce, m. rewrite H2. rewrite take_app_le, drop_app_le by lia. rewrite take_ge, drop_ge by lia. done. }
  destruct (within_lifetime iat now) eqn:Hlife; rewrite within_lifetime_spec in Hlife; cbn [negb].
  - apply bool_decide_eq_true in Hlife. unfold newtoken_mac_ok. fold rest. rewrite newtoken_mac_spec by (done || lia). osimpl. fold nonce.
    replace (drop 24 token) with m by (unfold m, rest; by rewrite drop_drop).
    destruct (ct32_spec (mac32 key (addr ++ be_bytes 8 iat ++ nonce)) m) as (d & -> & Hd); try apply mac32_length; try apply mac32_ok.
    { unfold m, rest. by do 2 apply bytes_ok_drop. } { unfold m. rewrite length_drop. lia. }
    osimpl. rewrite Hd. eexists. split; [done|]. intros t n. case_bool_decide as Hmac.
    + split; [intros [= <- <-]|intros (Ht & Hn' & H & _); by destruct (Hinv t n Hn' Ht H) as (-> & -> & _)].
      split; [exact Hv|]. split; [done|]. split; [|done]. unfold newtoken_wire. rewrite Hmac.
      transitivity (be_bytes 8 iat ++ rest); [exact Et2|]. f_equal. symmetry. apply take_drop.
    + split; [done|]. intros (Ht & Hn' & H & _). exfalso. destruct (Hinv t n Hn' Ht H) as (_ & _ & Hm). by apply Hmac.
  - apply bool_decide_eq_false in Hlife. osimpl. exists None. split; [done|]. intros t n. split; [done|].
    intros (Ht & Hn' & H & Hl). destruct (Hinv t n Hn' Ht H) as (-> & _). done.
Qed.

(** C27: the address validation tokens accept exactly what the server issued. A
    Retry token verifies, for the presenting address, exactly when it is the one
    made for that address and the id embedded in it, which is returned; a
    NEW_TOKEN token exactly when it is the one made for that address with its own
    time and nonce, and that time is at most seven days before now and not in
    the future; no input makes either check read past the token. A Retry token
    that a client stores and puts in its next Initial comes back unchanged, so the
    server recovers the original destination id. *)
Theorem address_tokens_exact key addr token now odcid scid st :
  bytes_ok token -> zlen addr <= 40 -> zlen token < 2 ^ 62 -> bytes_ok addr -> bytes_ok odcid -> zlen odcid <= 20 -> zlen scid <= 20 ->
  zlen (rd_token st) = 256 -> zlen (rd_dcid st) = 20 ->
  (exists r, retrytoken_wire_verify key addr token = Some r /\
     forall o, r = Some o <-> zlen o <= 20 /\ token = retry_wire key addr o) /\
  (exists r, newtoken_wire_verify key addr token now = Some r /\
     forall t nonce, r = Some (t, nonce) <->
       is_u64 t /\ length nonce = 16%nat /\ token = newtoken_wire key addr t nonce /\ t <= now <= t + NEWTOKEN_MAX_AGE_SECS) /\
  exists wire st', retrytoken_wire_make key addr odcid = Some wire /\ retrydrive_apply wire scid st = Some (true, st') /\
    retrydrive_initial_token st' = wire /\ retrytoken_wire_verify key addr (retrydrive_initial_token st') = Some (Some odcid).
Proof.
  intros Hok Ha Hlen Haok Hook Ho Hs Ht Hd. split; [apply retry_verify_spec; done || lia|]. split; [by apply newtoken_verify_spec|].
  exists (retry_wire key addr odcid). rewrite retry_make_wire by lia. pose proof (zlen_nonneg odcid).
  assert (zlen (retry_wire key addr odcid) = 33 + zlen odcid) as Hw by (unfold retry_wire; rewrite zlen_cons, zlen_app, mac32_zlen; lia).
  assert (bytes_ok (retry_wire key addr odcid)) as Hwok.
  { unfold retry_wire. apply bytes_ok_cons. split; [unfold is_u8; lia|]. apply bytes_ok_app. split; [done | apply mac32_ok]. }
  set (w := retry_wire key addr odcid) in *. unfold retrydrive_apply, retrydrive_fits, RETRY_TOKEN_CAP.
  destruct (Z.leb_spec (zlen w) 256), (Z.leb_spec (zlen scid) 20); try lia. cbn [andb negb].
  rewrite !copy_spec by (unfold zlen in *; lia). osimpl. eexists. split; [done|]. split; [done|].
  assert (forall t f d n, retrydrive_initial_token (mk_rd true f (splice (rd_token st) 0 (take (length w) (drop t w))) (zlen w) d n) = take (Z.to_nat (zlen w)) (splice (rd_token st) 0 (take (length w) (drop t w)))) as Hi by done.
  rewrite Hi, drop_0, firstn_all. rewrite splice_0_take by lia. split; [done|].
  destruct (retry_verify_spec key addr w) as (r & -> & Hr); try done; try lia. f_equal. apply Hr. done.
Qed.

Lemma address_tokens_exact_witness :
  let key := replicate 32 9 in let addr := [10; 0; 0; 1] in let odcid := [1; 2; 3; 4; 5; 6; 7; 8] in
  let st := mk_rd false false (replicate 256 0) 0 (replicate 20 0) 0 in
  exists wire st', retrytoken_wire_make key addr odcid = Some wire /\ retrydrive_apply wire [7] st = Some (true, st') /\
    retrydrive_initial_token st' = wire /\ retrytoken_wire_verify key addr (retrydrive_initial_token st') = Some (Some odcid).
Proof.
  cbv zeta. apply (address_tokens_exact (replicate 32 9) [10; 0; 0; 1] [] 0 [1; 2; 3; 4; 5; 6; 7; 8] [7] (mk_rd false false (replicate 256 0) 0 (replicate 20 0) 0));
    try (vm_compute; congruence); repeat constructor; lia.
Defined.

(** ** Stateless resets *)

Lemma sreset_token_spec key cid : sreset_token key cid = Some (take 16 (mac32 key cid)).
Proof. unfold sreset_token. by rewrite hmac_sha256_spec. Qed.

Lemma is_reset_spec dg token : bytes_ok dg -> bytes_ok token -> length token = 16%nat ->
  sresetdrive_is_reset dg token = Some (bool_decide (21 <= zlen dg /\ drop (length dg - 16) dg = token)).
Proof.
  intros Hd Ht Hl. unfold sresetdrive_is_reset, SRESETDRIVE_MIN, SRESETDRIVE_TOKEN. destruct (Z.ltb_spec (zlen dg) 21).
  { by rewrite bool_decide_false by lia. }
  replace (Z.to_nat (zlen dg - 16)) with (length dg - 16)%nat by (unfold zlen in *; lia).
  destruct (ct16_spec (drop (length dg - 16) dg) token) as (d & -> & E); try done.
  { by apply bytes_ok_drop. } { rewrite length_drop. unfold zlen in *. lia. }
  osimpl. rewrite E. f_equal. do 2 case_bool_decide; try done; naive_solver.
Qed.

(** A pool's check: some bound id's token ends the datagram. *)
Lemma reset_loop_spec l dg : forall hit, bytes_ok dg ->
  Forall (fun e => bytes_ok (pe_token e) /\ length (pe_token e) = 16%nat) l ->
  exists r, reset_loop l dg hit = Some r /\
    (r = true <-> hit = true \/ exists e, e ∈ l /\ peercid_checked e = true /\ 21 <= zlen dg /\ drop (length dg - 16) dg = pe_token e).
Proof.
  induction l as [|e l IH]; intros hit Hd Hl; cbn [reset_loop].
  { exists hit. split; [done|]. split; [by left|]. intros [?|(e & ?%elem_of_nil & _)]; done. }
  apply Forall_cons_1 in Hl as [[Ht Hlt] Hl]. unfold peercid_resets.
  assert (exists r, (if peercid_checked e then sresetdrive_is_reset dg (pe_token e) else Some false) = Some r /\
    (r = true <-> peercid_checked e = true /\ 21 <= zlen dg /\ drop (length dg - 16) dg = pe_token e)) as (r & -> & Hr).
  { destruct (peercid_checked e); [rewrite is_reset_spec by done; eexists; split; [done|]; rewrite bool_decide_eq_true; naive_solver | exists false; naive_solver]. }
  osimpl. destruct (IH (hit || r) Hd Hl) as (r' & -> & Hr'). exists r'. split; [done|]. rewrite Hr', orb_true_iff, Hr.
  split.
  - intros [[?|Hq]|(e' & ? & ?)]; [by left | right; exists e; split; [apply list_elem_of_here | exact Hq] | right; exists e'; split; [by apply list_elem_of_further | done]].
  - intros [?|(e' & [->|?]%elem_of_cons & Hq)]; [left; by left | left; by right | right; by exists e'].
Qed.

(** A stateless reset is recognised, and by nothing but a reset. A reset built
    for an id of the peer fits the buffer, is shorter than three times the packet
    that triggered it (from 8 bytes on), looks like a short header, and ends in the
    id's token, so both detectors accept it; and a pool of the peer's ids reports
    a reset exactly when the datagram has at least 21 bytes and its last 16 are
    the token of an id held and already sent with. *)
Theorem stateless_reset_detected key cid trigger rand out pool dg :
  21 <= zlen (op out) < 2 ^ 62 -> 0 <= trigger < 2 ^ 61 -> (forall n, length (rand n) = n) -> (forall n, bytes_ok (rand n)) -> bytes_ok (op out) ->
  bytes_ok dg -> Forall (fun e => bytes_ok (pe_token e) /\ length (pe_token e) = 16%nat) (pc_e pool) ->
  (exists out' tok b, sreset_build key cid trigger rand out = Some (true, out') /\ sreset_token key cid = Some tok /\
     let pkt := take (Z.to_nat (olen out')) (op out') in
     21 <= zlen pkt <= zlen (op out) /\ (8 <= trigger -> zlen pkt < 3 * trigger) /\
     load pkt 0 = Some b /\ Z.shiftr b 6 = 1 /\
     sreset_detect pkt tok = Some true /\ sresetdrive_is_reset pkt tok = Some true) /\
  (exists r, peercid_reset_match pool dg = Some r /\
     (r = true <-> exists e, e ∈ pc_e pool /\ peercid_checked e = true /\ 21 <= zlen dg /\ drop (length dg - 16) dg = pe_token e)).
Proof.
  intros Hcap Htr Hrl Hro Hout Hdg Hpool. split.
  2: { destruct (reset_loop_spec (pc_e pool) dg false Hdg Hpool) as (r & E & Hr). exists r. split; [exact E|]. rewrite Hr. split; [intros [?|?]; done | by right]. }
  unfold sreset_build, ocap, SRESET_MIN. destruct (Z.ltb_spec (zlen (op out)) 21); [lia|].
  set (len := u64_min (sreset_size trigger) (zlen (op out))).
  assert (21 <= len <= zlen (op out) /\ (8 <= trigger -> len < 3 * trigger)) as [Hlen Hamp].
  { unfold len, sreset_size, u64_min, u64_max, SRESET_MIN. rewrite u64_small by lia. bcases; lia. }
  clearbody len. set (n := Z.to_nat len). set (r := rand n).
  assert (length r = n) as Hr by apply Hrl. assert (Z.of_nat n = len) as En by lia. assert (zlen r = len) as Hzr by (unfold zlen; lia).
  rewrite copy_spec by lia. osimpl. rewrite drop_0, take_ge by lia.
  rewrite sreset_token_spec. set (tok := take 16 (mac32 key cid)).
  assert (length tok = 16%nat) as Htl by (unfold tok; rewrite length_take, mac32_length; lia).
  assert (bytes_ok tok) as Htok by (apply bytes_ok_take, mac32_ok). assert (zlen tok = 16) as Htz by (unfold zlen; lia).
  destruct (load_is_Some (splice (op out) 0 r) 0) as [b0 Hb0]; [rewrite zlen_splice; lia|]. rewrite Hb0. osimpl.
  set (b := u8 (Z.lor (Z.land b0 63) 64)). rewrite store_in by (rewrite zlen_splice; lia). osimpl.
  change (SRESET_TOKEN) with 16. set (p1 := <[Z.to_nat 0:=b]> (splice (op out) 0 r)).
  assert (zlen p1 = zlen (op out)) as Hp1 by (unfold p1; rewrite zlen_insert, zlen_splice; lia).
  rewrite copy_spec by lia. osimpl. rewrite drop_0, (take_ge tok) by lia. set (p2 := splice p1 (len - 16) tok).
  assert (zlen p2 = zlen (op out)) as Hp2 by (unfold p2; rewrite zlen_splice; lia).
  eexists (mk_obuf p2 len), tok, b. split; [done|]. split; [done|]. cbn [olen op]. fold n.
  set (pkt := take n p2). assert (zlen pkt = len) as Hpkt by (unfold pkt, zlen in *; rewrite length_take; lia).
  assert (drop (length pkt - 16) pkt = tok) as Hend.
  { replace (length pkt - 16)%nat with (n - 16)%nat by (unfold zlen in Hpkt; lia). unfold pkt, p2, splice.
    replace (Z.to_nat (len - 16)) with (n - 16)%nat by lia. rewrite Htl.
    assert (length (take (n - 16) p1) = n - 16)%nat as Hl1 by (rewrite length_take; unfold zlen in *; lia).
    rewrite (app_assoc (take _ _)). rewrite take_app_le by (rewrite length_app, Hl1; lia). rewrite take_ge by (rewrite length_app, Hl1; lia).
    rewrite drop_app_ge by lia. replace (n - 16 - length (take (n - 16) p1))%nat with O by lia. apply drop_0. }
  assert (bytes_ok p2) as Hp2ok.
  { unfold p2. apply bytes_ok_splice; [|done]. unfold p1. apply Forall_insert; [|apply u8_range]. apply bytes_ok_splice; [done|apply Hro]. }
  assert (bytes_ok pkt) as Hpok by (by apply bytes_ok_take).
  split; [lia|]. split; [intros; rewrite Hpkt; auto|]. split.
  { unfold pkt, n. rewrite load_take by lia. unfold p2. rewrite load_splice by lia. replace (_ && _) with false by (symmetry; apply andb_false_intro1, Z.leb_gt; lia). unfold p1. rewrite load_insert by (rewrite zlen_splice; lia). done. }
  split.
  { assert (0 <= b0 < 256) as Hb by (eapply (bytes_ok_lookup (splice (op out) 0 r)); [|exact Hb0]; apply bytes_ok_splice; [done|apply Hro]).
    clear -Hb. unfold b. assert (forallb (fun x => Z.shiftr (u8 (Z.lor (Z.land x 63) 64)) 6 =? 1) (seqZ 0 256) = true) as E by (vm_compute; reflexivity).
    apply Z.eqb_eq. apply (proj1 (forallb_forall _ _) E). apply list_elem_of_In, elem_of_seqZ. lia. }
  split.
  - unfold sreset_detect, SRESET_TOKEN. destruct (Z.ltb_spec (zlen pkt) 16); [lia|].
    replace (Z.to_nat (zlen pkt - 16)) with (length pkt - 16)%nat by (unfold zlen in *; lia). rewrite Hend.
    destruct (ct16_spec tok tok) as (d & -> & E); try done. osimpl. rewrite E. by rewrite bool_decide_true.
  - rewrite is_reset_spec by done. by rewrite bool_decide_true by (split; [lia|done]).
Qed.

Lemma stateless_reset_detected_witness :
  (exists out' tok b, sreset_build (replicate 32 3) [1; 2] 40 (fun n => replicate n 170) (mk_obuf (replicate 200 0) 0) = Some (true, out') /\
     sreset_token (replicate 32 3) [1; 2] = Some tok /\ load (take (Z.to_nat (olen out')) (op out')) 0 = Some b /\
     sresetdrive_is_reset (take (Z.to_nat (olen out')) (op out')) tok = Some true) /\
  peercid_reset_match demo5 (replicate 30 1) = Some true.
Proof.
  assert (Forall (fun e => bytes_ok (pe_token e) /\ length (pe_token e) = 16%nat) (pc_e demo5)) as Hp.
  { vm_compute. repeat (apply List.Forall_cons; [split; [repeat (apply List.Forall_cons; [split; congruence|]); apply List.Forall_nil | reflexivity]|]). apply List.Forall_nil. }
  destruct (stateless_reset_detected (replicate 32 3) [1; 2] 40 (fun n => replicate n 170) (mk_obuf (replicate 200 0) 0) demo5 (replicate 30 1))
    as [(o & t & b & E1 & E2 & _ & _ & E3 & _ & _ & E4) _];
    [vm_compute; split; congruence|lia|intros n; apply length_replicate|intros n; apply Forall_replicate; unfold is_u8; lia
    |apply Forall_replicate; unfold is_u8; lia|apply Forall_replicate; unfold is_u8; lia|exact Hp|].
  split; [exists o, t, b; split; [exact E1|split; [exact E2|split; [exact E3|exact E4]]]|]. vm_compute. reflexivity.
Defined.
