(* ===== verification/KeySched.v ===== *)
(** * The TLS 1.3 key schedule

    src/src/tls/handshake/core/tls: the hash of a suite (suitehash.c), the
    secrets and packet protection keys of each level (schedule.c, master.c,
    appkeys.c), exporters (exporter.c), Finished and PSK binder MACs
    (finished.c, binder.c) and the running transcript (transcript.c); and the
    order-driven schedule of src/src/tls/keys/schedule_drive/keyschedule.c. The
    code is proved to derive the secrets of RFC 8446 7.1 and the keys of
    RFC 9001 5.1 and RFC 9369 3.3.2, and the schedule to hand out exactly those
    of the handshake it was driven through. *)
From Stdlib Require Import String.
From stdpp Require Import base numbers list option.
From Stdlib Require Import ZArith Lia.
From S2P Require Import Prelude Bytes Header Fips180 Sha2 Aes Protect Suites PktProt InitPkt.
Open Scope Z_scope.

(** A local array is read only where it was just written, so it starts as
    zeros each time. *)
Definition TLS_HASH_MAX : nat := 48.
Definition VERSION_LABEL_MAX : nat := 16.
Definition hash_room : list Z := replicate TLS_HASH_MAX 0.

(** ** suitehash.c *)

(** [th_expand]: the secret's bytes, label, context and output buffer. *)
(* src/src/tls/handshake/core/tls/suitehash.h : tls_hash *)
Record tls_hash := mk_th {
  th_len : Z; th_digest : list Z -> option (list Z); th_extract : list Z -> list Z -> option (list Z);
  th_expand : list Z -> list Z -> list Z -> list Z -> option (bool * list Z); th_mac : list Z -> list Z -> option (list Z) }.
(* src/src/tls/handshake/core/tls/suitehash.c : suitehash_sha256@6-7 *)
Definition suitehash_sha256 : tls_hash := mk_th 32 wired_sha256 hkdf_extract hkdf_expand_label hmac_sha256.
(* src/src/tls/handshake/core/tls/suitehash.c : suitehash_sha384@9-11 *)
Definition suitehash_sha384 : tls_hash := mk_th 48 sha384 hkdf_extract_384 hkdf_expand_label_384 hmac_sha384.
(* src/src/tls/handshake/core/tls/suitehash.c : tls_hash_of *)
Definition tls_hash_of (suite : Z) : tls_hash := if suite =? TLS_AES_256_GCM_SHA384 then suitehash_sha384 else suitehash_sha256.

(** ** schedule.c *)

(* src/src/tls/handshake/core/tls/hp_select.c : hp_key_len *)
Definition hp_key_len (suite : Z) : Z := aead_key_len suite.
(* src/src/tls/handshake/core/tls/hp_select.c : hp_is_chacha *)
Definition hp_is_chacha (suite : Z) : bool := suite =? TLS_CHACHA20_POLY1305_SHA256.
(* src/src/tls/handshake/core/tls/schedule.c : resolved_key_len@12-15 *)
Definition resolved_key_len (suite : Z) : Z := let n := aead_key_len suite in if n =? 0 then 16 else n.
(* src/src/tls/handshake/core/tls/schedule.c : resolved_hp_len@20-23 *)
Definition resolved_hp_len (suite : Z) : Z := let n := hp_key_len suite in if n =? 0 then 16 else n.

(** [ds_secret]: the array at the pointer, of which Hash.length bytes are read. *)
(* src/src/tls/handshake/core/tls/schedule.h : derive_secret_in *)
Record derive_secret_in := mk_dsi { ds_secret : list Z; ds_label : list Z; ds_messages : list Z; ds_suite : Z }.
(* src/src/tls/handshake/core/tls/schedule.c : tls_derive_secret *)
Definition tls_derive_secret (i : derive_secret_in) (out : list Z) : option (bool * list Z) :=
  let h := tls_hash_of (ds_suite i) in
  thash ← th_digest h (ds_messages i);
  prk ← mem_sub (ds_secret i) 0 (th_len h);
  okm ← mem_sub out 0 (th_len h);
  '(ok, okm) ← th_expand h prk (ds_label i) thash okm;
  if (ok : bool) then out ← mem_put out 0 okm; Some (true, out)
  else out ← bytes_memset out 0 0 (th_len h); Some (false, out).
(* src/src/tls/handshake/core/tls/schedule.c : derive_in@44-52 *)
Definition derive_in (suite : Z) (secret : list Z) (label : string) (messages : list Z) : derive_secret_in :=
  mk_dsi secret (ascii_bytes label) messages suite.
(** [ecdhe]: 32 bytes. *)
(* src/src/tls/handshake/core/tls/schedule.c : handshake_secret_from_early@59-69 *)
Definition handshake_secret_from_early (suite : Z) (early ecdhe out : list Z) : option (list Z) :=
  let h := tls_hash_of suite in
  '(_, derived) ← tls_derive_secret (derive_in suite early "derived" []) hash_room;
  salt ← mem_sub derived 0 (th_len h); e ← mem_sub ecdhe 0 32;
  prk ← th_extract h salt e;
  mem_put out 0 prk.
(** [ikm]: [None] is the null pointer. *)
(* src/src/tls/handshake/core/tls/schedule.c : sched_early_secret@73-79 *)
Definition sched_early_secret (suite : Z) (ikm : option (list Z)) (early : list Z) : option (list Z) :=
  let h := tls_hash_of suite in
  let zero := replicate TLS_HASH_MAX 0 in
  salt ← mem_sub zero 0 (th_len h);
  k ← mem_sub (default zero ikm) 0 (th_len h);
  prk ← th_extract h salt k;
  mem_put early 0 prk.
(* src/src/tls/handshake/core/tls/schedule.c : tls_handshake_secret_psk_suite *)
Definition tls_handshake_secret_psk_suite (suite : Z) (psk : option (list Z)) (ecdhe out : list Z) : option (list Z) :=
  early ← sched_early_secret suite psk hash_room;
  handshake_secret_from_early suite early ecdhe out.
(* src/src/tls/handshake/core/tls/schedule.c : tls_handshake_secret_suite *)
Definition tls_handshake_secret_suite (suite : Z) (ecdhe out : list Z) : option (list Z) := tls_handshake_secret_psk_suite suite None ecdhe out.
(* src/src/tls/handshake/core/tls/schedule.c : tls_handshake_secret *)
Definition tls_handshake_secret (ecdhe out : list Z) : option (list Z) := tls_handshake_secret_suite TLS_AES_128_GCM_SHA256 ecdhe out.
(* src/src/tls/handshake/core/tls/schedule.c : tls_handshake_secret_psk *)
Definition tls_handshake_secret_psk (psk ecdhe out : list Z) : option (list Z) :=
  tls_handshake_secret_psk_suite TLS_AES_128_GCM_SHA256 (Some psk) ecdhe out.

(** [n] bytes into the array [arr]; the expansion's 1/0 is not looked at. *)
(* src/src/tls/handshake/core/tls/schedule.c : hs_field@101-105 *)
Definition hs_field (suite : Z) (secret label arr : list Z) (n : Z) : option (list Z) :=
  let h := tls_hash_of suite in
  prk ← mem_sub secret 0 (th_len h);
  okm ← mem_sub arr 0 n;
  r ← th_expand h prk label [] okm;
  mem_put arr 0 r.2.
(** [for (i = n; i < 32; i++) arr[i] = 0]. *)
Definition zero_from (arr : list Z) (n : Z) : option (list Z) := fill arr n 0 (Z.to_nat (32 - n)).
(* src/src/tls/handshake/core/tls/schedule.c : protection_keys_zero_tail@113-121 *)
Definition protection_keys_zero_tail (out : initial_keys) (key_len hp_len : Z) : option initial_keys :=
  key ← zero_from (ik_key out) key_len; hp ← zero_from (ik_hp out) hp_len; Some (mk_keys key (ik_iv out) hp).
(* src/src/tls/handshake/core/tls/schedule.c : sched_quic_label@125-128 *)
Definition sched_quic_label (buf : list Z) (version : Z) (sfx : string) : option (list Z) :=
  '(n, buf) ← version_quic_label buf version (ascii_bytes sfx); mem_sub buf 0 n.
(* src/src/tls/handshake/core/tls/schedule.c : protection_keys_suite@138-152 *)
Definition protection_keys_suite (ts : list Z) (suite version : Z) (out : initial_keys) : option initial_keys :=
  let key_len := resolved_key_len suite in let hp_len := resolved_hp_len suite in
  let lb := replicate VERSION_LABEL_MAX 0 in
  l ← sched_quic_label lb version "key"; key ← hs_field suite ts l (ik_key out) key_len;
  l ← sched_quic_label lb version "iv"; iv ← hs_field suite ts l (ik_iv out) INITIAL_IV;
  l ← sched_quic_label lb version "hp"; hp ← hs_field suite ts l (ik_hp out) hp_len;
  protection_keys_zero_tail (mk_keys key iv hp) key_len hp_len.
(* src/src/tls/handshake/core/tls/schedule.h : handshake_keys_in *)
Record handshake_keys_in := mk_hki { hk_secret : list Z; hk_transcript : list Z; hk_is_server : bool; hk_version : Z }.
(* src/src/tls/handshake/core/tls/schedule.c : tls_handshake_keys_suite *)
Definition tls_handshake_keys_suite (i : handshake_keys_in) (suite : Z) (out : initial_keys) : option initial_keys :=
  let label := if hk_is_server i then "s hs traffic"%string else "c hs traffic"%string in
  '(_, ts) ← tls_derive_secret (derive_in suite (hk_secret i) label (hk_transcript i)) hash_room;
  protection_keys_suite ts suite (hk_version i) out.
(* src/src/tls/handshake/core/tls/schedule.c : tls_handshake_keys *)
Definition tls_handshake_keys (i : handshake_keys_in) (out : initial_keys) : option initial_keys := tls_handshake_keys_suite i TLS_AES_128_GCM_SHA256 out.
(* src/src/tls/handshake/core/tls/schedule.c : tls_early_traffic_secret_suite *)
Definition tls_early_traffic_secret_suite (suite : Z) (psk : option (list Z)) (client_hello out : list Z) : option (list Z) :=
  early ← sched_early_secret suite psk hash_room;
  r ← tls_derive_secret (derive_in suite early "c e traffic" client_hello) out; Some r.2.
(* src/src/tls/handshake/core/tls/schedule.c : tls_early_traffic_secret *)
Definition tls_early_traffic_secret (psk : option (list Z)) (client_hello out : list Z) : option (list Z) :=
  tls_early_traffic_secret_suite TLS_AES_128_GCM_SHA256 psk client_hello out.
(* src/src/tls/handshake/core/tls/schedule.c : tls_early_keys_suite_ver *)
Definition tls_early_keys_suite_ver (suite version : Z) (psk : option (list Z)) (client_hello : list Z) (out : initial_keys) : option initial_keys :=
  ts ← tls_early_traffic_secret_suite suite psk client_hello hash_room;
  protection_keys_suite ts suite version out.
(* src/src/tls/handshake/core/tls/schedule.c : tls_early_keys_suite *)
Definition tls_early_keys_suite (suite : Z) (psk : option (list Z)) (client_hello : list Z) (out : initial_keys) : option initial_keys :=
  tls_early_keys_suite_ver suite VERSION_1 psk client_hello out.
(* src/src/tls/handshake/core/tls/schedule.c : tls_early_keys *)
Definition tls_early_keys (psk : option (list Z)) (client_hello : list Z) (out : initial_keys) : option initial_keys :=
  tls_early_keys_suite TLS_AES_128_GCM_SHA256 psk client_hello out.

(** ** master.c, appkeys.c, exporter.c *)

(* src/src/tls/handshake/core/tls/master.c : tls_master_secret_suite *)
Definition tls_master_secret_suite (suite : Z) (hs_secret out : list Z) : option (list Z) :=
  let h := tls_hash_of suite in
  let zero := replicate TLS_HASH_MAX 0 in
  '(_, derived) ← tls_derive_secret (derive_in suite hs_secret "derived" []) hash_room;
  salt ← mem_sub derived 0 (th_len h); z ← mem_sub zero 0 (th_len h);
  prk ← th_extract h salt z;
  mem_put out 0 prk.
(* src/src/tls/handshake/core/tls/master.c : tls_master_secret *)
Definition tls_master_secret (hs_secret out : list Z) : option (list Z) := tls_master_secret_suite TLS_AES_128_GCM_SHA256 hs_secret out.

(* src/src/tls/handshake/core/tls/appkeys.c : appkeys_key_len@12-15 *)
Definition appkeys_key_len (suite : Z) : Z := let n := aead_key_len suite in if n =? 0 then 16 else n.
(* src/src/tls/handshake/core/tls/appkeys.c : appkeys_hp_len@16-19 *)
Definition appkeys_hp_len (suite : Z) : Z := let n := hp_key_len suite in if n =? 0 then 16 else n.
(* src/src/tls/handshake/core/tls/appkeys.c : appkeys_zero_tail@27-34 *)
Definition appkeys_zero_tail (out : initial_keys) (key_len hp_len : Z) : option initial_keys :=
  key ← zero_from (ik_key out) key_len; hp ← zero_from (ik_hp out) hp_len; Some (mk_keys key (ik_iv out) hp).
(* src/src/tls/handshake/core/tls/appkeys.c : appkeys_field@39-45 *)
Definition appkeys_field (suite : Z) (ts : list Z) (version : Z) (sfx : string) (arr : list Z) (n : Z) : option (list Z) :=
  let h := tls_hash_of suite in
  '(m, lb) ← version_quic_label (replicate VERSION_LABEL_MAX 0) version (ascii_bytes sfx);
  l ← mem_sub lb 0 m;
  prk ← mem_sub ts 0 (th_len h);
  okm ← mem_sub arr 0 n;
  r ← th_expand h prk l [] okm;
  mem_put arr 0 r.2.
(* src/src/tls/handshake/core/tls/appkeys.h : app_keys_in *)
Record app_keys_in := mk_aki { ak_master : list Z; ak_transcript : list Z; ak_is_server : bool; ak_version : Z }.
(* src/src/tls/handshake/core/tls/appkeys.c : tls_app_keys_suite *)
Definition tls_app_keys_suite (i : app_keys_in) (suite : Z) (out : initial_keys) : option initial_keys :=
  let label := if ak_is_server i then "s ap traffic"%string else "c ap traffic"%string in
  let key_len := appkeys_key_len suite in let hp_len := appkeys_hp_len suite in
  '(_, ts) ← tls_derive_secret (mk_dsi (ak_master i) (ascii_bytes label) (ak_transcript i) suite) hash_room;
  key ← appkeys_field suite ts (ak_version i) "key" (ik_key out) key_len;
  iv ← appkeys_field suite ts (ak_version i) "iv" (ik_iv out) INITIAL_IV;
  hp ← appkeys_field suite ts (ak_version i) "hp" (ik_hp out) hp_len;
  appkeys_zero_tail (mk_keys key iv hp) key_len hp_len.
(* src/src/tls/handshake/core/tls/appkeys.c : tls_app_keys *)
Definition tls_app_keys (i : app_keys_in) (out : initial_keys) : option initial_keys := tls_app_keys_suite i TLS_AES_128_GCM_SHA256 out.

(* src/src/tls/handshake/core/tls/exporter.c : tls_exporter_master_secret_suite *)
Definition tls_exporter_master_secret_suite (suite : Z) (master transcript out : list Z) : option (list Z) :=
  r ← tls_derive_secret (mk_dsi master (ascii_bytes "exp master") transcript suite) out; Some r.2.
(* src/src/tls/handshake/core/tls/exporter.c : tls_exporter_master_secret *)
Definition tls_exporter_master_secret (master transcript out : list Z) : option (list Z) := tls_exporter_master_secret_suite 0 master transcript out.
(* src/src/tls/handshake/core/tls/exporter.c : tls_exporter_suite *)
Definition tls_exporter_suite (suite : Z) (secret label context okm : list Z) : option (bool * list Z) :=
  let h := tls_hash_of suite in
  '(ok, derived) ← tls_derive_secret (mk_dsi secret label [] suite) hash_room;
  if negb ok then Some (false, okm)
  else
    ctx_hash ← th_digest h context;
    prk ← mem_sub derived 0 (th_len h);
    th_expand h prk (ascii_bytes "exporter") ctx_hash okm.
(* src/src/tls/handshake/core/tls/exporter.c : tls_exporter *)
Definition tls_exporter (secret label context okm : list Z) : option (bool * list Z) := tls_exporter_suite 0 secret label context okm.

(** ** finished.c, binder.c *)

(** [base_key] and [transcript_hash]: Hash.length bytes are read. *)
(* src/src/tls/handshake/core/tls/finished.c : tls_finished_verify_data_suite *)
Definition tls_finished_verify_data_suite (suite : Z) (base_key transcript_hash out : list Z) : option (list Z) :=
  let h := tls_hash_of suite in
  prk ← mem_sub base_key 0 (th_len h);
  okm ← mem_sub hash_room 0 (th_len h);
  r ← th_expand h prk (ascii_bytes "finished") [] okm;
  th ← mem_sub transcript_hash 0 (th_len h);
  m ← th_mac h r.2 th;
  mem_put out 0 m.
(* src/src/tls/handshake/core/tls/finished.c : tls_finished_check_suite *)
Definition tls_finished_check_suite (suite : Z) (base_key transcript_hash received : list Z) : option bool :=
  want ← tls_finished_verify_data_suite suite base_key transcript_hash hash_room;
  d ← ct_diffn want received (th_len (tls_hash_of suite)); Some (d =? 0).
(* src/src/tls/handshake/core/tls/finished.c : tls_finished_verify_data *)
Definition tls_finished_verify_data (base_key transcript_hash out : list Z) : option (list Z) :=
  tls_finished_verify_data_suite TLS_AES_128_GCM_SHA256 base_key transcript_hash out.
(* src/src/tls/handshake/core/tls/finished.c : tls_finished_check *)
Definition tls_finished_check (base_key transcript_hash received : list Z) : option bool :=
  tls_finished_check_suite TLS_AES_128_GCM_SHA256 base_key transcript_hash received.

(* src/src/tls/handshake/core/tls/binder.c : binder_key_suite@9-19 *)
Definition binder_key_suite (suite : Z) (psk out : list Z) : option (list Z) :=
  let h := tls_hash_of suite in
  let zero := replicate TLS_HASH_MAX 0 in
  salt ← mem_sub zero 0 (th_len h); k ← mem_sub psk 0 (th_len h);
  early ← th_extract h salt k;
  r ← tls_derive_secret (mk_dsi early (ascii_bytes "res binder") [] suite) out; Some r.2.
(* src/src/tls/handshake/core/tls/binder.c : tls_binder_key *)
Definition tls_binder_key (psk out : list Z) : option (list Z) := binder_key_suite TLS_AES_128_GCM_SHA256 psk out.
(* src/src/tls/handshake/core/tls/binder.c : tls_binder_compute_hash *)
Definition tls_binder_compute_hash (suite : Z) (psk thash out : list Z) : option (list Z) :=
  bk ← binder_key_suite suite psk hash_room;
  tls_finished_verify_data_suite suite bk thash out.
(* src/src/tls/handshake/core/tls/binder.c : tls_binder_compute_suite *)
Definition tls_binder_compute_suite (suite : Z) (psk truncated_ch out : list Z) : option (list Z) :=
  thash ← th_digest (tls_hash_of suite) truncated_ch;
  tls_binder_compute_hash suite psk thash out.
(* src/src/tls/handshake/core/tls/binder.c : tls_binder_verify_hash *)
Definition tls_binder_verify_hash (suite : Z) (psk thash received : list Z) : option bool :=
  want ← tls_binder_compute_hash suite psk thash hash_room;
  d ← ct_diffn want received (th_len (tls_hash_of suite)); Some (d =? 0).
(* src/src/tls/handshake/core/tls/binder.c : tls_binder_verify_suite *)
Definition tls_binder_verify_suite (suite : Z) (psk truncated_ch received : list Z) : option bool :=
  thash ← th_digest (tls_hash_of suite) truncated_ch;
  tls_binder_verify_hash suite psk thash received.
(* src/src/tls/handshake/core/tls/binder.c : tls_binder_compute *)
Definition tls_binder_compute (psk truncated_ch out : list Z) : option (list Z) := tls_binder_compute_suite TLS_AES_128_GCM_SHA256 psk truncated_ch out.
(* src/src/tls/handshake/core/tls/binder.c : tls_binder_verify *)
Definition tls_binder_verify (psk truncated_ch received : list Z) : option bool := tls_binder_verify_suite TLS_AES_128_GCM_SHA256 psk truncated_ch received.

(** ** transcript.c *)

(* src/src/tls/handshake/core/tls/transcript.h : transcript *)
Record transcript := mk_tr { tr_h : hash_ctx; tr_h384 : hash_ctx }.
(* src/src/tls/handshake/core/tls/transcript.c : transcript_init *)
Definition transcript_init : transcript := mk_tr sha256_init sha384_init.
(* src/src/tls/handshake/core/tls/transcript.c : transcript_add *)
Definition transcript_add (t : transcript) (msg : list Z) : option transcript :=
  h ← sha256_update (tr_h t) msg; h384 ← sha512_update (tr_h384 t) msg; Some (mk_tr h h384).
(* src/src/tls/handshake/core/tls/transcript.c : transcript_hash *)
Definition transcript_hash (t : transcript) : option (list Z) := sha256_final (tr_h t).
(* src/src/tls/handshake/core/tls/transcript.c : transcript_hash384@22-25 *)
Definition transcript_hash384 (t : transcript) : option (list Z) := sha384_final (tr_h384 t).
(* src/src/tls/handshake/core/tls/transcript.c : transcript_hash_suite *)
Definition transcript_hash_suite (t : transcript) (suite : Z) : option (list Z) :=
  if suite =? TLS_AES_256_GCM_SHA384 then transcript_hash384 t else transcript_hash t.
(* src/src/tls/handshake/core/tls/transcript_stage.c : transcript_ch_sh *)
Definition transcript_ch_sh (t : transcript) : option (list Z) := transcript_hash t.
(* src/src/tls/handshake/core/tls/transcript_stage.c : transcript_ch_sfin *)
Definition transcript_ch_sfin (t : transcript) : option (list Z) := transcript_hash t.

(** ** keyschedule.c *)

Definition KS_CLIENT_HS : Z := 0.
Definition KS_SERVER_HS : Z := 1.
Definition KS_CLIENT_AP : Z := 2.
Definition KS_SERVER_AP : Z := 3.

(* src/src/tls/keys/schedule_drive/keyschedule.h : keysched *)
Record keysched := mk_ks {
  ks_stage : Z; ks_master : list Z; ks_keys : list initial_keys; ks_client_ap_secret : list Z; ks_server_ap_secret : list Z;
  ks_exporter_secret : list Z; ks_suite : Z; ks_version : Z; ks_hs_gone : bool }.

(* src/src/tls/keys/schedule_drive/keyschedule.c : keysched_init *)
Definition keysched_init (st : keysched) : keysched :=
  mk_ks 0 (ks_master st) (ks_keys st) (ks_client_ap_secret st) (ks_server_ap_secret st) (ks_exporter_secret st) TLS_AES_128_GCM_SHA256 VERSION_1 false.
(* src/src/tls/keys/schedule_drive/keyschedule.c : keysched_set_suite *)
Definition keysched_set_suite (st : keysched) (suite : Z) : keysched :=
  mk_ks (ks_stage st) (ks_master st) (ks_keys st) (ks_client_ap_secret st) (ks_server_ap_secret st) (ks_exporter_secret st) suite (ks_version st) (ks_hs_gone st).
(* src/src/tls/keys/schedule_drive/keyschedule.c : keysched_set_version *)
Definition keysched_set_version (st : keysched) (version : Z) : keysched :=
  mk_ks (ks_stage st) (ks_master st) (ks_keys st) (ks_client_ap_secret st) (ks_server_ap_secret st) (ks_exporter_secret st) (ks_suite st) version (ks_hs_gone st).
(* src/src/tls/keys/schedule_drive/keyschedule.c : ecdhe_ok@44-46 *)
Definition ecdhe_ok (stage ecdhe_len : Z) : bool := (stage =? 0) && (ecdhe_len =? 32).
(* src/src/tls/keys/schedule_drive/keyschedule.c : install_handshake_secret@52-64 *)
Definition install_handshake_secret (st : keysched) (hs transcript : list Z) : option keysched :=
  c ← load (ks_keys st) KS_CLIENT_HS; c ← tls_handshake_keys_suite (mk_hki hs transcript false (ks_version st)) (ks_suite st) c;
  keys ← store (ks_keys st) KS_CLIENT_HS c;
  s ← load keys KS_SERVER_HS; s ← tls_handshake_keys_suite (mk_hki hs transcript true (ks_version st)) (ks_suite st) s;
  keys ← store keys KS_SERVER_HS s;
  master ← tls_master_secret_suite (ks_suite st) hs (ks_master st);
  Some (mk_ks 1 master keys (ks_client_ap_secret st) (ks_server_ap_secret st) (ks_exporter_secret st) (ks_suite st) (ks_version st) (ks_hs_gone st)).
(* src/src/tls/keys/schedule_drive/keyschedule.c : keysched_advance_handshake *)
Definition keysched_advance_handshake (st : keysched) (ecdhe transcript : list Z) : option (bool * keysched) :=
  if negb (ecdhe_ok (ks_stage st) (zlen ecdhe)) then Some (false, st)
  else
    hs ← tls_handshake_secret_suite (ks_suite st) ecdhe hash_room;
    st ← install_handshake_secret st hs transcript; Some (true, st).
(* src/src/tls/keys/schedule_drive/keyschedule.c : keysched_advance_handshake_psk *)
Definition keysched_advance_handshake_psk (st : keysched) (psk ecdhe transcript : list Z) : option (bool * keysched) :=
  if negb (ecdhe_ok (ks_stage st) (zlen ecdhe)) then Some (false, st)
  else
    hs ← tls_handshake_secret_psk_suite (ks_suite st) (Some psk) ecdhe hash_room;
    st ← install_handshake_secret st hs transcript; Some (true, st).
(* src/src/tls/keys/schedule_drive/keyschedule.c : save_client_ap_secret@14-20 *)
Definition save_client_ap_secret (st : keysched) (transcript : list Z) : option (list Z) :=
  r ← tls_derive_secret (mk_dsi (ks_master st) (ascii_bytes "c ap traffic") transcript (ks_suite st)) (ks_client_ap_secret st); Some r.2.
(* src/src/tls/keys/schedule_drive/keyschedule.c : save_server_ap_secret@24-30 *)
Definition save_server_ap_secret (st : keysched) (transcript : list Z) : option (list Z) :=
  r ← tls_derive_secret (mk_dsi (ks_master st) (ascii_bytes "s ap traffic") transcript (ks_suite st)) (ks_server_ap_secret st); Some r.2.
(* src/src/tls/keys/schedule_drive/keyschedule.c : keysched_advance_master *)
Definition keysched_advance_master (st : keysched) (transcript : list Z) : option (bool * keysched) :=
  if negb (ks_stage st =? 1) then Some (false, st)
  else
    c ← load (ks_keys st) KS_CLIENT_AP; c ← tls_app_keys_suite (mk_aki (ks_master st) transcript false (ks_version st)) (ks_suite st) c;
    keys ← store (ks_keys st) KS_CLIENT_AP c;
    cs ← save_client_ap_secret st transcript;
    s ← load keys KS_SERVER_AP; s ← tls_app_keys_suite (mk_aki (ks_master st) transcript true (ks_version st)) (ks_suite st) s;
    keys ← store keys KS_SERVER_AP s;
    ss ← save_server_ap_secret st transcript;
    ex ← tls_exporter_master_secret_suite (ks_suite st) (ks_master st) transcript (ks_exporter_secret st);
    Some (true, mk_ks 2 (ks_master st) keys cs ss ex (ks_suite st) (ks_version st) (ks_hs_gone st)).
(* src/src/tls/keys/schedule_drive/keyschedule.c : have@111-114 *)
Definition ks_have (st : keysched) (which : Z) : bool :=
  if which <=? KS_SERVER_HS then (1 <=? ks_stage st) && negb (ks_hs_gone st) else 2 <=? ks_stage st.
(** [None] inside: the code's 0. *)
(* src/src/tls/keys/schedule_drive/keyschedule.c : keysched_get *)
Definition keysched_get (st : keysched) (which : Z) : option (option initial_keys) :=
  if negb (ks_have st which) then Some None else k ← load (ks_keys st) which; Some (Some k).
(* src/src/tls/keys/schedule_drive/keyschedule.c : keysched_client_ap_secret *)
Definition keysched_client_ap_secret (st : keysched) : option (list Z) := if ks_stage st <? 2 then None else Some (ks_client_ap_secret st).
(* src/src/tls/keys/schedule_drive/keyschedule.c : keysched_server_ap_secret *)
Definition keysched_server_ap_secret (st : keysched) : option (list Z) := if ks_stage st <? 2 then None else Some (ks_server_ap_secret st).
(* src/src/tls/keys/schedule_drive/keyschedule.c : keysched_exporter_secret *)
Definition keysched_exporter_secret (st : keysched) : option (list Z) := if ks_stage st <? 2 then None else Some (ks_exporter_secret st).
(** Every array zero. *)
Definition zero_keys : initial_keys := mk_keys (replicate 32 0) (replicate 12 0) (replicate 32 0).
(* src/src/tls/keys/schedule_drive/keyschedule.c : keysched_wipe *)
Definition keysched_wipe (st : keysched) : keysched :=
  mk_ks 0 hash_room (replicate 4 zero_keys) hash_room hash_room hash_room (ks_suite st) (ks_version st) false.
(* src/src/tls/keys/schedule_drive/keyschedule.c : keysched_discard_handshake *)
Definition keysched_discard_handshake (st : keysched) : option keysched :=
  keys ← store (ks_keys st) KS_CLIENT_HS zero_keys; keys ← store keys KS_SERVER_HS zero_keys;
  Some (mk_ks (ks_stage st) (ks_master st) keys (ks_client_ap_secret st) (ks_server_ap_secret st) (ks_exporter_secret st) (ks_suite st) (ks_version st) true).

(** The calls that change a schedule; no [psk] is [keysched_advance_handshake]. *)
Inductive ks_op : Type :=
  | OInit | OSuite (suite : Z) | OVersion (version : Z) | OHandshake (psk : option (list Z)) (ecdhe transcript : list Z) | OMaster (transcript : list Z) | OWipe | ODiscard.
Definition ks_step (st : keysched) (op : ks_op) : option (bool * keysched) :=
  match op with
  | OInit => Some (true, keysched_init st)
  | OSuite s => Some (true, keysched_set_suite st s)
  | OVersion v => Some (true, keysched_set_version st v)
  | OHandshake None e t => keysched_advance_handshake st e t
  | OHandshake (Some psk) e t => keysched_advance_handshake_psk st psk e t
  | OMaster t => keysched_advance_master st t
  | OWipe => Some (true, keysched_wipe st)
  | ODiscard => st ← keysched_discard_handshake st; Some (true, st)
  end.
Fixpoint ks_run (st : keysched) (ops : list ks_op) : option (list bool * keysched) :=
  match ops with
  | [] => Some ([], st)
  | o :: ops => '(ok, st) ← ks_step st o; '(oks, st) ← ks_run st ops; Some (ok :: oks, st)
  end.

(** ** RFC 8446 7.1 over the hash of a suite *)

Definition is_384 (suite : Z) : bool := suite =? TLS_AES_256_GCM_SHA384.
Definition hash_len (suite : Z) : nat := if is_384 suite then 48 else 32.
Definition rfc_hash (suite : Z) (m : list Z) : list Z := if is_384 suite then fips_sha384 m else fips_sha256 m.
Definition rfc_mac (suite : Z) : list Z -> list Z -> list Z := rfc_hmac (rfc_hash suite) (if is_384 suite then SHA512_BLOCK else SHA256_BLOCK).
(** HKDF-Expand-Label and Derive-Secret; HKDF-Extract(salt, ikm) is [rfc_mac]. *)
Definition rfc_expand (suite : Z) (secret label ctx : list Z) (L : nat) : list Z :=
  rfc_hkdf_expand (rfc_mac suite) (hash_len suite) secret (rfc_hkdf_label label ctx (Z.of_nat L)) L.
Definition rfc_derive (suite : Z) (secret : list Z) (label : string) (messages : list Z) : list Z :=
  rfc_expand suite secret (ascii_bytes label) (rfc_hash suite messages) (hash_len suite).
Definition zeros_of (suite : Z) : list Z := replicate (hash_len suite) 0.
(** No PSK: Hash.length zeros. *)
Definition rfc_early (suite : Z) (psk : option (list Z)) : list Z := rfc_mac suite (zeros_of suite) (default (zeros_of suite) psk).
Definition rfc_handshake (suite : Z) (psk : option (list Z)) (ecdhe : list Z) : list Z :=
  rfc_mac suite (rfc_derive suite (rfc_early suite psk) "derived" []) ecdhe.
Definition rfc_master (suite : Z) (psk : option (list Z)) (ecdhe : list Z) : list Z :=
  rfc_mac suite (rfc_derive suite (rfc_handshake suite psk ecdhe) "derived" []) (zeros_of suite).

(** RFC 9001 5.1 and RFC 9369 3.3.2: the packet protection keys of a traffic
    secret, in arrays of 32, 12 and 32 bytes, zero behind the key. *)
Definition key_size (suite : Z) : nat := if (suite =? TLS_AES_256_GCM_SHA384) || (suite =? TLS_CHACHA20_POLY1305_SHA256) then 32 else 16.
Definition rfc_quic (suite version : Z) (secret : list Z) (name : string) (L : nat) : list Z :=
  rfc_expand suite secret (rfc_prefix version ++ ascii_bytes name) [] L.
Definition rfc_quic_keys (suite version : Z) (secret : list Z) : initial_keys :=
  mk_keys (rfc_quic suite version secret "key" (key_size suite) ++ replicate (32 - key_size suite) 0)
    (rfc_quic suite version secret "iv" 12)
    (rfc_quic suite version secret "hp" (key_size suite) ++ replicate (32 - key_size suite) 0).
Definition rfc_finished (suite : Z) (base_key hash : list Z) : list Z :=
  rfc_mac suite (rfc_expand suite base_key (ascii_bytes "finished") [] (hash_len suite)) hash.

(** The schedule as RFC 8446 7.1 draws it: where the handshake is, and what went
    into it so far. [a_erased]: the Handshake keys are overwritten, [a_blank]: every
    secret is. *)
Inductive ks_at : Type :=
  | AtEarly | AtHandshake (psk : option (list Z)) (ecdhe transcript : list Z) | AtMaster (psk : option (list Z)) (ecdhe transcript transcript' : list Z).
Record a_sched := mk_as { a_at : ks_at; a_suite : Z; a_version : Z; a_gone : bool; a_erased : bool; a_blank : bool }.
Definition a_step (a : a_sched) (op : ks_op) : bool * a_sched :=
  match op, a_at a with
  | OInit, _ => (true, mk_as AtEarly TLS_AES_128_GCM_SHA256 VERSION_1 false (a_erased a) (a_blank a))
  | OSuite s, at_ => (true, mk_as at_ s (a_version a) (a_gone a) (a_erased a) (a_blank a))
  | OVersion v, at_ => (true, mk_as at_ (a_suite a) v (a_gone a) (a_erased a) (a_blank a))
  | OHandshake psk e t, AtEarly =>
    if zlen e =? 32 then (true, mk_as (AtHandshake (take (hash_len (a_suite a)) <$> psk) e t) (a_suite a) (a_version a) (a_gone a) false false) else (false, a)
  | OMaster t', AtHandshake psk e t => (true, mk_as (AtMaster psk e t t') (a_suite a) (a_version a) (a_gone a) (a_erased a) false)
  | OWipe, _ => (true, mk_as AtEarly (a_suite a) (a_version a) false true true)
  | ODiscard, at_ => (true, mk_as at_ (a_suite a) (a_version a) true true (a_blank a))
  | _, _ => (false, a)
  end.
Fixpoint a_run (a : a_sched) (ops : list ks_op) : list bool * a_sched :=
  match ops with
  | [] => ([], a)
  | o :: ops => let '(ok, a) := a_step a o in let '(oks, a) := a_run a ops in (ok :: oks, a)
  end.
(** What keyschedule.h asks of the caller: the suite and the version before the
    first advance, a PSK of Hash.length bytes (and transcripts a hash takes). *)
Definition ks_legal (a : a_sched) (op : ks_op) : Prop :=
  match op with
  | OSuite _ | OVersion _ => a_at a = AtEarly
  | OHandshake psk _ t => zlen t < 2 ^ 60 /\ match psk with Some p => (hash_len (a_suite a) <= length p)%nat | None => True end
  | OMaster t => zlen t < 2 ^ 60
  | _ => True
  end.
Fixpoint ks_legal_run (a : a_sched) (ops : list ks_op) : Prop :=
  match ops with [] => True | o :: ops => ks_legal a o /\ ks_legal_run (a_step a o).2 ops end.

(** The traffic secrets of a direction. *)
Definition a_hs_secret (a : a_sched) (server : bool) : option (list Z) :=
  match a_at a with
  | AtEarly => None
  | AtHandshake psk e t | AtMaster psk e t _ => Some (rfc_derive (a_suite a) (rfc_handshake (a_suite a) psk e) (if server then "s hs traffic" else "c hs traffic") t)
  end.
Definition a_master_secret (a : a_sched) (label : string) : option (list Z) :=
  match a_at a with AtMaster psk e _ t' => Some (rfc_derive (a_suite a) (rfc_master (a_suite a) psk e) label t') | _ => None end.
Definition a_keys (a : a_sched) (secret : option (list Z)) : option initial_keys := rfc_quic_keys (a_suite a) (a_version a) <$> secret.
Definition a_get (a : a_sched) (which : Z) : option initial_keys :=
  if which =? KS_CLIENT_HS then (if a_gone a then None else a_keys a (a_hs_secret a false))
  else if which =? KS_SERVER_HS then (if a_gone a then None else a_keys a (a_hs_secret a true))
  else if which =? KS_CLIENT_AP then a_keys a (a_master_secret a "c ap traffic")
  else a_keys a (a_master_secret a "s ap traffic").
(** What the accessors of a schedule return; of a secret, Hash.length bytes. *)
Definition read_secret (st : keysched) (s : option (list Z)) : option (list Z) := take (hash_len (ks_suite st)) <$> s.
Definition ks_shows (st : keysched) (a : a_sched) : Prop :=
  (forall which, 0 <= which <= 3 -> keysched_get st which = Some (a_get a which)) /\
  read_secret st (keysched_client_ap_secret st) = a_master_secret a "c ap traffic" /\
  read_secret st (keysched_server_ap_secret st) = a_master_secret a "s ap traffic" /\
  read_secret st (keysched_exporter_secret st) = a_master_secret a "exp master" /\
  (a_erased a = true -> take 2 (ks_keys st) = [zero_keys; zero_keys]) /\
  (a_blank a = true -> ks_keys st = replicate 4 zero_keys /\ [ks_master st; ks_client_ap_secret st; ks_server_ap_secret st; ks_exporter_secret st] = replicate 4 hash_room).
(** The arrays of the record have their sizes. *)
Definition ks_room (st : keysched) : Prop :=
  length (ks_keys st) = 4%nat /\ Forall (fun k => length (ik_key k) = 32%nat /\ length (ik_iv k) = 12%nat /\ length (ik_hp k) = 32%nat) (ks_keys st) /\
  Forall (fun s => length s = TLS_HASH_MAX) [ks_master st; ks_client_ap_secret st; ks_server_ap_secret st; ks_exporter_secret st].

(** What the key schedule needs of a hash. *)
Lemma expand_with_exact hmac D mac prk label ctx okm : (0 < D <= 64)%nat ->
  (forall m, (length m <= D + 256 + 1)%nat -> hmac prk m = Some (mac prk m) /\ length (mac prk m) = D) ->
  (length okm <= 255 * D)%nat -> (length label <= 64)%nat -> (length ctx <= 64)%nat ->
  hkdf_expand_label_with hmac D prk label ctx okm = Some (true, rfc_hkdf_expand mac D prk (rfc_hkdf_label label ctx (zlen okm)) (length okm)).
Proof.
  intros HD Hmac Ho Hl Hc. unfold hkdf_expand_label_with, hkdf_build_label.
  destruct (Nat.ltb_spec 64 (length label)); [lia|]. destruct (Nat.ltb_spec 64 (length ctx)); [lia|]. cbn [orb].
  set (i := _ ++ _). assert (length i <= 138)%nat as Hi by (unfold i; rewrite !length_app; cbn [length]; lia).
  destruct (Nat.leb_spec (length i) 138); [|lia]. osimpl. rewrite (hkdf_expand_spec hmac D mac prk i HD Hmac) by lia.
  do 3 f_equal. unfold i, rfc_hkdf_label. rewrite (u8_small (6 + zlen label)), (u8_small (zlen ctx)) by (unfold zlen; lia).
  unfold u8. cbn [be_bytes app]. by rewrite Z.shiftr_div_pow2 by lia.
Qed.

Lemma fips_sha384_ok m : bytes_ok (fips_sha384 m).
Proof.
  rewrite <- md_sha384_fips. unfold md_sha512. apply bytes_ok_take. induction (md_hash _ _ _ _ _ _) as [|x l IH]; [constructor|]. cbn [map concat]. apply bytes_ok_app. split; [apply be_bytes_ok | exact IH].
Qed.

Lemma rfc_hash_shape suite m : bytes_ok (rfc_hash suite m) /\ length (rfc_hash suite m) = hash_len suite.
Proof. unfold rfc_hash, hash_len. destruct (is_384 suite); (split; [first [apply fips_sha384_ok | apply fips_sha256_ok] | first [apply fips_sha384_length | apply fips_sha256_length]]). Qed.

Lemma rfc_mac_shape suite k m : bytes_ok (rfc_mac suite k m) /\ length (rfc_mac suite k m) = hash_len suite.
Proof. apply rfc_hash_shape. Qed.

Lemma hash_len_pos suite : (32 <= hash_len suite <= 48)%nat.
Proof. unfold hash_len. destruct (is_384 suite); lia. Qed.

Lemma rfc_expand_ok suite secret label ctx L : bytes_ok (rfc_expand suite secret label ctx L) /\ length (rfc_expand suite secret label ctx L) = L.
Proof. pose proof (hash_len_pos suite). apply rfc_hkdf_expand_shape; [lia|]. intros m. apply rfc_mac_shape. Qed.

Lemma sha384_spec m : zlen m < 2 ^ 60 -> sha384 m = Some (fips_sha384 m).
Proof.
  intros Hm. pose proof (hash512_2 _ _ _ sha384_ok m []) as H. rewrite app_nil_r in H. specialize (H ltac:(lia)).
  unfold hmac512_hash2 in H. cbn [hh_init hh_final HMAC512_SHA384] in H. unfold sha384. destruct (sha512_update sha384_init m) as [s|]; [|discriminate]. osimpl. cbn [mbind option_bind] in H.
  destruct (sha512_update s []) as [s'|] eqn:E; [|discriminate]. rewrite <- H. revert E. unfold sha512_update, sha_update. cbn. intros E. injection E as <-. reflexivity.
Qed.

Section hash_laws.
Context (suite : Z).
Notation h := (tls_hash_of suite).
Notation D := (hash_len suite).

Lemma th_len_eq : th_len h = Z.of_nat D.
Proof. unfold tls_hash_of, hash_len, is_384. destruct (_ =? _); reflexivity. Qed.

Lemma digest_eq m : zlen m < 2 ^ 60 -> th_digest h m = Some (rfc_hash suite m).
Proof. intros Hm. unfold tls_hash_of, rfc_hash, is_384. destruct (_ =? _); [by apply sha384_spec | apply wired_sha256_spec]. Qed.

Lemma mac_eq k m : zlen k < 2 ^ 60 -> zlen m < 2 ^ 60 -> th_mac h k m = Some (rfc_mac suite k m).
Proof.
  intros Hk Hm. unfold tls_hash_of, rfc_mac, rfc_hash, is_384. destruct (_ =? _); [|apply hmac_sha256_spec].
  apply (hmac512_spec _ _ _ sha384_ok); try assumption. cbn. unfold SHA512_BLOCK. lia.
Qed.

Lemma extract_eq salt ikm : zlen salt < 2 ^ 60 -> zlen ikm < 2 ^ 60 -> th_extract h salt ikm = Some (rfc_mac suite salt ikm).
Proof. intros Hs Hi. rewrite <- mac_eq by assumption. unfold tls_hash_of. destruct (_ =? _); reflexivity. Qed.

Lemma expand_eq prk label ctx okm : length prk = D -> (length label <= 64)%nat -> (length ctx <= 64)%nat -> (length okm <= 255 * 32)%nat ->
  th_expand h prk label ctx okm = Some (true, rfc_expand suite prk label ctx (length okm)).
Proof.
  intros Hp Hl Hc Ho. pose proof (hash_len_pos suite) as HD. pose proof (mac_eq prk) as Hm. unfold rfc_expand. fold (zlen okm).
  assert (Hmac : forall m, (length m <= D + 256 + 1)%nat -> (if is_384 suite then hmac_sha384 else hmac_sha256) prk m = Some (rfc_mac suite prk m) /\ length (rfc_mac suite prk m) = D).
  { intros m Lm. split; [|apply rfc_mac_shape]. specialize (Hm m ltac:(unfold zlen; lia) ltac:(unfold zlen; lia)). unfold tls_hash_of in Hm. unfold is_384. destruct (_ =? _); exact Hm. }
  pose proof (expand_with_exact _ D (rfc_mac suite) prk label ctx okm ltac:(lia) Hmac ltac:(nia) Hl Hc) as E. rewrite <- E.
  unfold tls_hash_of, hash_len, is_384. destruct (_ =? _); reflexivity.
Qed.
End hash_laws.

(** ** The secrets *)

#[local] Opaque rfc_expand rfc_mac rfc_hash.

(** An array that starts with the secret [s]. *)
Definition holds (suite : Z) (arr s : list Z) : Prop := length s = hash_len suite /\ exists rest, arr = s ++ rest.

Lemma sub_held suite arr s : holds suite arr s -> mem_sub arr 0 (th_len (tls_hash_of suite)) = Some s.
Proof.
  intros (Hl & rest & ->). rewrite th_len_eq, mem_sub_in by (rewrite ?zlen_app; unfold zlen; lia). change (drop (Z.to_nat 0) (s ++ rest)) with (s ++ rest).
  rewrite Nat2Z.id, take_app_length' by lia. reflexivity.
Qed.

Lemma put_held suite arr s : length s = hash_len suite -> (hash_len suite <= length arr)%nat ->
  exists arr', mem_put arr 0 s = Some arr' /\ holds suite arr' s /\ length arr' = length arr.
Proof.
  intros Hs Ha. rewrite mem_put_in by (unfold zlen; lia). eexists. split; [reflexivity|]. rewrite splice_start. split; [split; [exact Hs | by eexists]|].
  rewrite length_app, length_drop. lia.
Qed.

Lemma sub_room suite : mem_sub hash_room 0 (th_len (tls_hash_of suite)) = Some (zeros_of suite).
Proof.
  rewrite th_len_eq, mem_sub_in by (unfold hash_room, TLS_HASH_MAX, zlen; rewrite ?length_replicate; pose proof (hash_len_pos suite); lia).
  change (drop (Z.to_nat 0) hash_room) with hash_room. rewrite Nat2Z.id. unfold hash_room, zeros_of, TLS_HASH_MAX. rewrite take_replicate. f_equal. f_equal. pose proof (hash_len_pos suite). lia.
Qed.

Lemma room_fits suite : (hash_len suite <= length hash_room)%nat.
Proof. unfold hash_room, TLS_HASH_MAX. rewrite length_replicate. pose proof (hash_len_pos suite). lia. Qed.

(** Lengths below the bound of a SHA-384 message. *)
Definition short (l : list Z) : Prop := zlen l < 2 ^ 60.

Lemma short_secret suite s : length s = hash_len suite -> short s.
Proof. intros H. unfold short, zlen. pose proof (hash_len_pos suite). lia. Qed.

Lemma derive_held suite secret s label messages out : holds suite secret s -> (length label <= 64)%nat -> short messages -> (hash_len suite <= length out)%nat ->
  exists out', tls_derive_secret (mk_dsi secret label messages suite) out = Some (true, out') /\
    holds suite out' (rfc_expand suite s label (rfc_hash suite messages) (hash_len suite)) /\ length out' = length out.
Proof.
  intros Hs Hl Hm Ho. pose proof (hash_len_pos suite). unfold tls_derive_secret. cbn [ds_suite ds_messages ds_secret ds_label]. rewrite digest_eq by exact Hm. osimpl. rewrite (sub_held _ _ _ Hs). osimpl.
  rewrite th_len_eq, mem_sub_in by (unfold zlen; lia). osimpl. destruct Hs as [Hs _].
  rewrite expand_eq by (try assumption; rewrite ?(proj2 (rfc_hash_shape _ _)), ?length_take; lia). osimpl.
  assert (El : length (take (Z.to_nat (Z.of_nat (hash_len suite))) (drop (Z.to_nat 0) out)) = hash_len suite) by (change (drop (Z.to_nat 0) out) with out; rewrite length_take; lia). rewrite El.
  destruct (put_held suite out (rfc_expand suite s label (rfc_hash suite messages) (hash_len suite))) as (out' & E & H1 & H2); [apply rfc_expand_ok | exact Ho|].
  rewrite E. osimpl. exists out'. split; [reflexivity|]. split; assumption.
Qed.

Lemma rfc_expand_len suite s label ctx L : length (rfc_expand suite s label ctx L) = L.
Proof. apply rfc_expand_ok. Qed.

(** A PSK pointer: null, or at Hash.length bytes. *)
Definition psk_held (suite : Z) (arr psk : option (list Z)) : Prop :=
  match arr, psk with None, None => True | Some a, Some s => holds suite a s | _, _ => False end.

Lemma early_held suite arr psk out : psk_held suite arr psk -> (hash_len suite <= length out)%nat ->
  exists out', sched_early_secret suite arr out = Some out' /\ holds suite out' (rfc_early suite psk) /\ length out' = length out.
Proof.
  intros Hp Ho. unfold sched_early_secret. change (replicate TLS_HASH_MAX 0) with hash_room. rewrite sub_room. osimpl.
  assert (Ek : mem_sub (default hash_room arr) 0 (th_len (tls_hash_of suite)) = Some (default (zeros_of suite) psk) /\ length (default (zeros_of suite) psk) = hash_len suite).
  { destruct arr as [a|], psk as [s|]; try (destruct Hp; fail); cbn [default]; [split; [apply (sub_held _ _ _ Hp) | apply Hp] | split; [apply sub_room | apply length_replicate]]. }
  destruct Ek as [-> Lk]. osimpl. rewrite extract_eq by (apply (short_secret suite); first [exact Lk | apply length_replicate]). osimpl.
  apply put_held; [apply rfc_mac_shape | exact Ho].
Qed.

Lemma derived_extract suite secret s ikm out : holds suite secret s -> short ikm -> (hash_len suite <= length out)%nat ->
  exists derived out', tls_derive_secret (derive_in suite secret "derived" []) hash_room = Some (true, derived) /\
    (salt ← mem_sub derived 0 (th_len (tls_hash_of suite)); prk ← th_extract (tls_hash_of suite) salt ikm; mem_put out 0 prk) = Some out' /\
    holds suite derived (rfc_derive suite s "derived" []) /\
    holds suite out' (rfc_mac suite (rfc_derive suite s "derived" []) ikm) /\ length out' = length out.
Proof.
  intros Hs Hi Ho. destruct (derive_held suite secret s (ascii_bytes "derived") [] hash_room Hs) as (d & E & Hd & _); [vm_compute; lia | unfold short; rewrite zlen_nil; lia | apply room_fits|].
  exists d. change (holds suite d (rfc_derive suite s "derived" [])) in Hd.
  rewrite (sub_held _ _ _ Hd). osimpl. rewrite extract_eq by (exact Hi || apply (short_secret suite), Hd). osimpl.
  destruct (put_held suite out (rfc_mac suite (rfc_derive suite s "derived" []) ikm)) as (out' & E' & H1 & H2); [apply rfc_mac_shape | exact Ho|].
  exists out'. split; [exact E|]. split; [exact E'|]. split; [exact Hd|]. split; assumption.
Qed.

Lemma handshake_held suite arr psk ecdhe out : psk_held suite arr psk -> zlen ecdhe = 32 -> (hash_len suite <= length out)%nat ->
  exists out', tls_handshake_secret_psk_suite suite arr ecdhe out = Some out' /\ holds suite out' (rfc_handshake suite psk ecdhe) /\ length out' = length out.
Proof.
  intros Hp He Ho. unfold tls_handshake_secret_psk_suite. destruct (early_held suite arr psk hash_room Hp (room_fits suite)) as (early & -> & Hearly & _). osimpl.
  unfold handshake_secret_from_early. destruct (derived_extract suite early _ ecdhe out Hearly ltac:(unfold short; lia) Ho) as (d & out' & -> & E & _ & H1 & H2). osimpl.
  exists out'. split; [|split; assumption]. rewrite <- E. destruct (mem_sub d 0 _); [|reflexivity]. osimpl. rewrite mem_sub_in by lia. osimpl.
  change (drop (Z.to_nat 0) ecdhe) with ecdhe. rewrite take_ge by (unfold zlen in He; lia). reflexivity.
Qed.

Lemma master_held suite hs psk ecdhe out : holds suite hs (rfc_handshake suite psk ecdhe) -> (hash_len suite <= length out)%nat ->
  exists out', tls_master_secret_suite suite hs out = Some out' /\ holds suite out' (rfc_master suite psk ecdhe) /\ length out' = length out.
Proof.
  intros Hs Ho. unfold tls_master_secret_suite. change (replicate TLS_HASH_MAX 0) with hash_room.
  destruct (derived_extract suite hs _ (zeros_of suite) out Hs) as (d & out' & -> & E & _ & H1 & H2); [apply (short_secret suite), length_replicate | exact Ho|]. osimpl.
  exists out'. split; [|split; assumption]. rewrite <- E. destruct (mem_sub d 0 _); [|reflexivity]. osimpl. rewrite sub_room. reflexivity.
Qed.

(** ** The packet protection keys *)

Lemma quic_label version sfx : sfx = "key"%string \/ sfx = "iv"%string \/ sfx = "hp"%string \/ sfx = "ku"%string ->
  sched_quic_label (replicate VERSION_LABEL_MAX 0) version sfx = Some (rfc_prefix version ++ ascii_bytes sfx) /\ (length (rfc_prefix version ++ ascii_bytes sfx) <= 64)%nat.
Proof.
  intros Hs. unfold sched_quic_label, version_quic_label, rfc_prefix, prefix_or_v1, version_label_prefix.
  destruct (Z.eqb_spec version VERSION_2) as [->|Hne]; [|destruct (Z.eqb_spec version VERSION_1) as [->|Hne']];
    destruct Hs as [-> | [-> | [-> | ->]]]; vm_compute; (split; [reflexivity | lia]).
Qed.

Lemma hs_field_exact suite secret s label arr n : holds suite secret s -> (length label <= 64)%nat -> 0 <= n -> n <= zlen arr -> n <= 48 ->
  hs_field suite secret label arr n = Some (rfc_expand suite s label [] (Z.to_nat n) ++ drop (Z.to_nat n) arr).
Proof.
  intros Hs Hl Hn Ha H48. unfold hs_field. rewrite (sub_held _ _ _ Hs). osimpl. rewrite mem_sub_in by lia. osimpl. change (drop (Z.to_nat 0) arr) with arr. destruct Hs as [Hs _].
  assert (El : length (take (Z.to_nat n) arr) = Z.to_nat n) by (rewrite length_take; unfold zlen in Ha; lia).
  rewrite expand_eq by (try assumption; cbn [length]; lia). osimpl. cbn [snd]. rewrite El.
  set (x := rfc_expand suite s label [] (Z.to_nat n)). assert (Lx : length x = Z.to_nat n) by apply rfc_expand_len.
  rewrite mem_put_in by (unfold zlen in *; lia). rewrite splice_start, Lx. reflexivity.
Qed.

Lemma key_len_eq suite : resolved_key_len suite = Z.of_nat (key_size suite) /\ resolved_hp_len suite = Z.of_nat (key_size suite).
Proof.
  unfold resolved_hp_len, hp_key_len. fold (resolved_key_len suite). assert (resolved_key_len suite = Z.of_nat (key_size suite)); [|split; assumption].
  unfold resolved_key_len, aead_key_len, aead_params_tab, key_size. cbn [suite_row]. rewrite !(Z.eqb_sym _ suite).
  destruct (Z.eqb_spec suite TLS_AES_128_GCM_SHA256) as [->|]; [reflexivity|].
  destruct (suite =? TLS_AES_256_GCM_SHA384); [reflexivity|]. destruct (suite =? TLS_CHACHA20_POLY1305_SHA256); reflexivity.
Qed.

Lemma zero_from_exact (k rest : list Z) n : length k = n -> (n + length rest)%nat = 32%nat ->
  zero_from (k ++ rest) (Z.of_nat n) = Some (k ++ replicate (32 - n) 0).
Proof.
  intros Hk Hr. unfold zero_from. rewrite fill_spec by (unfold zlen; rewrite ?length_app; lia). f_equal. unfold splice.
  rewrite Nat2Z.id, take_app_length' by lia. f_equal. rewrite length_replicate, drop_ge by (rewrite length_app; lia).
  rewrite app_nil_r. f_equal. lia.
Qed.

(** The arrays of the key sets have their sizes. *)
Definition keys_room (k : initial_keys) : Prop := length (ik_key k) = 32%nat /\ length (ik_iv k) = 12%nat /\ length (ik_hp k) = 32%nat.

Lemma key_size_range suite : (16 <= key_size suite <= 32)%nat.
Proof. unfold key_size. destruct (_ || _); lia. Qed.

Lemma rfc_quic_keys_room suite version s : keys_room (rfc_quic_keys suite version s).
Proof.
  pose proof (key_size_range suite). unfold keys_room, rfc_quic_keys, rfc_quic. cbn [ik_key ik_iv ik_hp].
  rewrite !length_app, !rfc_expand_len, length_replicate. lia.
Qed.

Lemma protection_keys_exact suite version ts s out : holds suite ts s -> keys_room out ->
  protection_keys_suite ts suite version out = Some (rfc_quic_keys suite version s).
Proof.
  intros Hs (Hk & Hi & Hh). pose proof (key_size_range suite) as Hz. destruct (key_len_eq suite) as [EK EH].
  unfold protection_keys_suite. rewrite EK, EH.
  destruct (quic_label version "key") as [-> L1]; [auto|]. destruct (quic_label version "iv") as [-> L2]; [auto|]. destruct (quic_label version "hp") as [-> L3]; [auto|].
  osimpl. rewrite (hs_field_exact _ _ _ _ _ _ Hs L1) by (unfold zlen; lia). osimpl.
  unfold INITIAL_IV. rewrite (hs_field_exact _ _ _ _ _ _ Hs L2) by (unfold zlen; lia). osimpl.
  rewrite (hs_field_exact _ _ _ _ _ _ Hs L3) by (unfold zlen; lia). osimpl. rewrite Nat2Z.id.
  unfold protection_keys_zero_tail. cbn [ik_key ik_hp ik_iv].
  rewrite zero_from_exact by (rewrite ?rfc_expand_len, ?length_drop; lia). osimpl.
  rewrite zero_from_exact by (rewrite ?rfc_expand_len, ?length_drop; lia). osimpl.
  rewrite (drop_ge (ik_iv out)) by lia. rewrite app_nil_r. reflexivity.
Qed.

(** appkeys.c repeats the derivation of schedule.c with its own helpers. *)
Lemma appkeys_same suite version ts out :
  (key ← appkeys_field suite ts version "key" (ik_key out) (appkeys_key_len suite);
   iv ← appkeys_field suite ts version "iv" (ik_iv out) INITIAL_IV;
   hp ← appkeys_field suite ts version "hp" (ik_hp out) (appkeys_hp_len suite);
   appkeys_zero_tail (mk_keys key iv hp) (appkeys_key_len suite) (appkeys_hp_len suite)) = protection_keys_suite ts suite version out.
Proof.
  assert (F : forall sfx arr n, appkeys_field suite ts version sfx arr n = (l ← sched_quic_label (replicate VERSION_LABEL_MAX 0) version sfx; hs_field suite ts l arr n)).
  { intros sfx arr n. unfold appkeys_field, sched_quic_label, hs_field. destruct (version_quic_label _ _ _) as [[m lb]|]; [|reflexivity]. osimpl. destruct (mem_sub lb 0 m); reflexivity. }
  rewrite !F. unfold protection_keys_suite. change (appkeys_key_len suite) with (resolved_key_len suite). change (appkeys_hp_len suite) with (resolved_hp_len suite).
  repeat (match goal with |- context [sched_quic_label ?b ?v ?s] => destruct (sched_quic_label b v s); [|reflexivity] end; osimpl;
          match goal with |- context [hs_field ?a ?b ?c ?d ?e] => destruct (hs_field a b c d e); [|reflexivity] end; osimpl).
  reflexivity.
Qed.

Lemma handshake_keys_exact suite version secret hs server t out : holds suite secret hs -> short t -> keys_room out ->
  tls_handshake_keys_suite (mk_hki secret t server version) suite out =
    Some (rfc_quic_keys suite version (rfc_derive suite hs (if server then "s hs traffic" else "c hs traffic") t)).
Proof.
  intros Hs Ht Ho. unfold tls_handshake_keys_suite, derive_in. cbn [hk_secret hk_transcript hk_is_server hk_version].
  destruct (derive_held suite secret hs (ascii_bytes (if server then "s hs traffic" else "c hs traffic")) t hash_room Hs) as (ts & -> & Hts & _);
    [destruct server; vm_compute; lia | exact Ht | apply room_fits|]. osimpl. apply (protection_keys_exact _ _ _ _ _ Hts Ho).
Qed.

Lemma app_keys_exact suite version secret m server t out : holds suite secret m -> short t -> keys_room out ->
  tls_app_keys_suite (mk_aki secret t server version) suite out =
    Some (rfc_quic_keys suite version (rfc_derive suite m (if server then "s ap traffic" else "c ap traffic") t)).
Proof.
  intros Hs Ht Ho. unfold tls_app_keys_suite. cbn [ak_master ak_transcript ak_is_server ak_version].
  destruct (derive_held suite secret m (ascii_bytes (if server then "s ap traffic" else "c ap traffic")) t hash_room Hs) as (ts & -> & Hts & _);
    [destruct server; vm_compute; lia | exact Ht | apply room_fits|]. osimpl. rewrite appkeys_same. apply (protection_keys_exact _ _ _ _ _ Hts Ho).
Qed.

(** ** The schedule *)

(** The derived secret in an array of the record. *)
Lemma ap_secret_held suite master m label t out : holds suite master m -> (length (ascii_bytes label) <= 64)%nat -> short t -> length out = TLS_HASH_MAX ->
  exists out', (r ← tls_derive_secret (mk_dsi master (ascii_bytes label) t suite) out; Some r.2) = Some out' /\
    holds suite out' (rfc_derive suite m label t) /\ length out' = TLS_HASH_MAX.
Proof.
  intros Hm Hl Ht Ho. pose proof (room_fits suite) as Hr. unfold hash_room in Hr. rewrite length_replicate in Hr.
  destruct (derive_held suite master m (ascii_bytes label) t out Hm Hl Ht) as (out' & -> & H1 & H2); [lia|].
  exists out'. split; [reflexivity|]. split; [exact H1 | lia].
Qed.

Lemma take_held suite arr s : holds suite arr s -> take (hash_len suite) arr = s.
Proof. intros (Hl & rest & ->). apply take_app_length'. lia. Qed.

(** The four key sets and the four secrets of a record, one by one. *)
Definition ks_full (stage : Z) (k0 k1 k2 k3 : initial_keys) (master cs ss ex : list Z) (suite version : Z) (gone : bool) : keysched :=
  mk_ks stage master [k0; k1; k2; k3] cs ss ex suite version gone.

Lemma room_full st : ks_room st -> exists k0 k1 k2 k3,
  st = ks_full (ks_stage st) k0 k1 k2 k3 (ks_master st) (ks_client_ap_secret st) (ks_server_ap_secret st) (ks_exporter_secret st) (ks_suite st) (ks_version st) (ks_hs_gone st) /\
  keys_room k0 /\ keys_room k1 /\ keys_room k2 /\ keys_room k3 /\ length (ks_master st) = TLS_HASH_MAX /\ length (ks_client_ap_secret st) = TLS_HASH_MAX /\
  length (ks_server_ap_secret st) = TLS_HASH_MAX /\ length (ks_exporter_secret st) = TLS_HASH_MAX.
Proof.
  destruct st as [sg m ks cs ss ex su ve g]. unfold ks_room, ks_full. cbn [ks_keys ks_master ks_client_ap_secret ks_server_ap_secret ks_exporter_secret ks_stage ks_suite ks_version ks_hs_gone].
  intros (Hl & Hk & Hs). destruct ks as [|k0 [|k1 [|k2 [|k3 [|]]]]]; try discriminate Hl. exists k0, k1, k2, k3.
  rewrite !List.Forall_cons_iff in Hk, Hs. unfold keys_room. destruct Hk as (A & B & C & D & _), Hs as (E & F & G & H & _).
  split; [reflexivity|]. auto 10.
Qed.

Lemma full_room stage k0 k1 k2 k3 master cs ss ex suite version gone : keys_room k0 -> keys_room k1 -> keys_room k2 -> keys_room k3 ->
  length master = TLS_HASH_MAX -> length cs = TLS_HASH_MAX -> length ss = TLS_HASH_MAX -> length ex = TLS_HASH_MAX ->
  ks_room (ks_full stage k0 k1 k2 k3 master cs ss ex suite version gone).
Proof.
  intros. unfold ks_room, ks_full. cbn [ks_keys ks_master ks_client_ap_secret ks_server_ap_secret ks_exporter_secret]. split; [reflexivity|].
  unfold keys_room in *. split; repeat (constructor; [assumption|]); constructor.
Qed.

(** One of the four key sets written. *)
Lemma store_keys k0 k1 k2 k3 x :
  store [k0; k1; k2; k3] KS_CLIENT_HS x = Some [x; k1; k2; k3] /\ store [k0; k1; k2; k3] KS_SERVER_HS x = Some [k0; x; k2; k3] /\
  store [k0; k1; k2; k3] KS_CLIENT_AP x = Some [k0; k1; x; k3] /\ store [k0; k1; k2; k3] KS_SERVER_AP (x : initial_keys) = Some [k0; k1; k2; x].
Proof. repeat split. Qed.

Ltac keys_step := cbn [ks_keys ks_master ks_client_ap_secret ks_server_ap_secret ks_exporter_secret ks_stage ks_suite ks_version ks_hs_gone ks_full].
Tactic Notation "keys_step" "in" hyp(H) :=
  cbn [ks_keys ks_master ks_client_ap_secret ks_server_ap_secret ks_exporter_secret ks_stage ks_suite ks_version ks_hs_gone ks_full] in H.

Lemma install_exact stage k0 k1 k2 k3 master cs ss ex suite version gone arr t psk e : holds suite arr (rfc_handshake suite psk e) -> short t ->
  keys_room k0 -> keys_room k1 -> length master = TLS_HASH_MAX ->
  let hs := rfc_handshake suite psk e in
  exists master', install_handshake_secret (ks_full stage k0 k1 k2 k3 master cs ss ex suite version gone) arr t =
    Some (ks_full 1 (rfc_quic_keys suite version (rfc_derive suite hs "c hs traffic" t)) (rfc_quic_keys suite version (rfc_derive suite hs "s hs traffic" t)) k2 k3
            master' cs ss ex suite version gone) /\ holds suite master' (rfc_master suite psk e) /\ length master' = TLS_HASH_MAX.
Proof.
  intros Hh Ht H0 H1 Hm hs. unfold install_handshake_secret. keys_step.
  change (load [k0; k1; k2; k3] KS_CLIENT_HS) with (Some k0). osimpl. rewrite (handshake_keys_exact _ _ _ _ false _ _ Hh Ht H0). osimpl.
  rewrite (proj1 (store_keys k0 k1 k2 k3 _)). osimpl. set (x := rfc_quic_keys _ _ _).
  change (load [x; k1; k2; k3] KS_SERVER_HS) with (Some k1). osimpl. rewrite (handshake_keys_exact _ _ _ _ true _ _ Hh Ht H1). osimpl.
  rewrite (proj1 (proj2 (store_keys x k1 k2 k3 _))). osimpl.
  destruct (master_held suite arr psk e master Hh) as (m' & -> & Hm' & Lm); [pose proof (room_fits suite) as Hr; unfold hash_room in Hr; rewrite length_replicate in Hr; lia|].
  osimpl. exists m'. split; [reflexivity|]. split; [exact Hm' | lia].
Qed.

(** The Master secret's four expansions. *)
Lemma advance_master_exact k0 k1 k2 k3 master cs ss ex suite version gone t m : holds suite master m -> short t ->
  keys_room k2 -> keys_room k3 -> length cs = TLS_HASH_MAX -> length ss = TLS_HASH_MAX -> length ex = TLS_HASH_MAX ->
  exists cs' ss' ex', keysched_advance_master (ks_full 1 k0 k1 k2 k3 master cs ss ex suite version gone) t =
    Some (true, ks_full 2 k0 k1 (rfc_quic_keys suite version (rfc_derive suite m "c ap traffic" t)) (rfc_quic_keys suite version (rfc_derive suite m "s ap traffic" t))
                  master cs' ss' ex' suite version gone) /\
    (holds suite cs' (rfc_derive suite m "c ap traffic" t) /\ length cs' = TLS_HASH_MAX) /\
    (holds suite ss' (rfc_derive suite m "s ap traffic" t) /\ length ss' = TLS_HASH_MAX) /\
    (holds suite ex' (rfc_derive suite m "exp master" t) /\ length ex' = TLS_HASH_MAX).
Proof.
  intros Hm Ht H2 H3 Lc Ls Le. unfold keysched_advance_master. keys_step. change (negb (1 =? 1)) with false. cbv iota.
  change (load [k0; k1; k2; k3] KS_CLIENT_AP) with (Some k2). osimpl. rewrite (app_keys_exact _ _ _ _ false _ _ Hm Ht H2). osimpl.
  rewrite (proj1 (proj2 (proj2 (store_keys k0 k1 k2 k3 _)))). osimpl. set (x := rfc_quic_keys _ _ _).
  unfold save_client_ap_secret, save_server_ap_secret, tls_exporter_master_secret_suite. keys_step.
  destruct (ap_secret_held suite master m "c ap traffic" t cs Hm) as (cs' & -> & Hc); [vm_compute; lia | exact Ht | exact Lc|]. osimpl.
  change (load [k0; k1; x; k3] KS_SERVER_AP) with (Some k3). osimpl. rewrite (app_keys_exact _ _ _ _ true _ _ Hm Ht H3). osimpl.
  rewrite (proj2 (proj2 (proj2 (store_keys k0 k1 x k3 _)))). osimpl.
  destruct (ap_secret_held suite master m "s ap traffic" t ss Hm) as (ss' & -> & Hs); [vm_compute; lia | exact Ht | exact Ls|]. osimpl.
  destruct (ap_secret_held suite master m "exp master" t ex Hm) as (ex' & -> & He); [vm_compute; lia | exact Ht | exact Le|]. osimpl.
  exists cs', ss', ex'. split; [reflexivity|]. auto.
Qed.

Definition stage_no (at_ : ks_at) : Z := match at_ with AtEarly => 0 | AtHandshake _ _ _ => 1 | AtMaster _ _ _ _ => 2 end.
(** A record that stands for a schedule. *)
Record ks_rep (st : keysched) (a : a_sched) : Prop := mk_rep {
  rp_room : ks_room st;
  rp_stage : ks_stage st = stage_no (a_at a);
  rp_suite : ks_suite st = a_suite a;
  rp_version : ks_version st = a_version a;
  rp_gone : ks_hs_gone st = a_gone a;
  rp_erased : a_erased a = true -> take 2 (ks_keys st) = [zero_keys; zero_keys] /\ (a_gone a = true \/ a_at a = AtEarly);
  rp_blank : a_blank a = true -> ks_keys st = replicate 4 zero_keys /\
    [ks_master st; ks_client_ap_secret st; ks_server_ap_secret st; ks_exporter_secret st] = replicate 4 hash_room;
  rp_hs : a_erased a = false -> a_at a <> AtEarly ->
    load (ks_keys st) KS_CLIENT_HS = a_keys a (a_hs_secret a false) /\ load (ks_keys st) KS_SERVER_HS = a_keys a (a_hs_secret a true);
  rp_at : match a_at a with
    | AtEarly => True
    | AtHandshake psk e _ => holds (a_suite a) (ks_master st) (rfc_master (a_suite a) psk e)
    | AtMaster psk e _ t => let m := rfc_derive (a_suite a) (rfc_master (a_suite a) psk e) in
        load (ks_keys st) KS_CLIENT_AP = a_keys a (Some (m "c ap traffic"%string t)) /\ load (ks_keys st) KS_SERVER_AP = a_keys a (Some (m "s ap traffic"%string t)) /\
        holds (a_suite a) (ks_client_ap_secret st) (m "c ap traffic"%string t) /\ holds (a_suite a) (ks_server_ap_secret st) (m "s ap traffic"%string t) /\
        holds (a_suite a) (ks_exporter_secret st) (m "exp master"%string t)
    end }.

Lemma zero_keys_room : keys_room zero_keys.
Proof. repeat split. Qed.

(** The calls that only move the schedule back or name its parameters. *)
Lemma step_param st a op : ks_rep st a -> ks_legal a op -> match op with OHandshake _ _ _ | OMaster _ => False | _ => True end ->
  exists st', ks_step st op = Some ((a_step a op).1, st') /\ ks_rep st' (a_step a op).2.
Proof.
  intros [R0 R1 R2 R3 R4 R5 R6 R7 R8] L Hop.
  destruct (room_full st R0) as (k0 & k1 & k2 & k3 & E & K0 & K1 & K2 & K3 & Lm & Lc & Ls & Lx).
  destruct op; try (destruct Hop; fail); cbn [ks_step].
  - eexists. split; [reflexivity|]. cbn [a_step snd]. constructor; cbn [keysched_init]; keys_step; cbn [a_at a_suite a_version a_gone a_erased a_blank stage_no]; try reflexivity; try assumption.
    + intros He. split; [apply R5, He | right; reflexivity].
    + intros _ []. reflexivity.
  - cbn [ks_legal] in L. eexists. split; [reflexivity|]. cbn [a_step snd]. constructor; keys_step; cbn [a_at a_suite a_version a_gone a_erased a_blank stage_no]; try assumption; try reflexivity.
    + intros _ Hn. destruct (Hn L).
    + rewrite L. exact I.
  - cbn [ks_legal] in L. eexists. split; [reflexivity|]. cbn [a_step snd]. constructor; keys_step; cbn [a_at a_suite a_version a_gone a_erased a_blank stage_no]; try assumption; try reflexivity.
    + intros _ Hn. destruct (Hn L).
    + rewrite L. exact I.
  - eexists. split; [reflexivity|]. cbn [a_step snd]. unfold keysched_wipe. constructor; keys_step; cbn [a_at a_suite a_version a_gone a_erased a_blank stage_no]; try assumption; try reflexivity.
    + apply full_room; try apply zero_keys_room; reflexivity.
    + intros _. split; [reflexivity | right; reflexivity].
    + intros _. split; reflexivity.
    + intros H. discriminate H.
  - unfold keysched_discard_handshake. rewrite E. keys_step. rewrite (proj1 (store_keys k0 k1 k2 k3 _)). osimpl. rewrite (proj1 (proj2 (store_keys zero_keys k1 k2 k3 _))). osimpl.
    eexists. split; [reflexivity|]. cbn [a_step snd]. constructor; keys_step; cbn [a_at a_suite a_version a_gone a_erased a_blank stage_no]; try assumption; try reflexivity.
    + apply full_room; try apply zero_keys_room; assumption.
    + intros _. split; [reflexivity | left; reflexivity].
    + intros Hb. destruct (R6 Hb) as [Hk Hs]. rewrite E in Hk. keys_step in Hk. injection Hk as -> -> -> ->. split; [reflexivity | exact Hs].
    + intros H. discriminate H.
    + destruct (a_at a); [exact I | exact R8|]. rewrite E in R8. exact R8.
Qed.

Lemma step_handshake st a psk e t : ks_rep st a -> ks_legal a (OHandshake psk e t) ->
  exists st', ks_step st (OHandshake psk e t) = Some ((a_step a (OHandshake psk e t)).1, st') /\ ks_rep st' (a_step a (OHandshake psk e t)).2.
Proof.
  intros R [Lt Lp]. pose proof R as [R0 R1 R2 R3 R4 R5 R6 R7 R8].
  destruct (room_full st R0) as (k0 & k1 & k2 & k3 & E & K0 & K1 & K2 & K3 & Lm & Lc & Ls & Lx).
  assert (S : ks_step st (OHandshake psk e t) = if negb (ecdhe_ok (ks_stage st) (zlen e)) then Some (false, st)
    else hs ← tls_handshake_secret_psk_suite (ks_suite st) psk e hash_room; st ← install_handshake_secret st hs t; Some (true, st)) by (destruct psk; reflexivity).
  rewrite S. clear S. rewrite R1, R2. unfold ecdhe_ok. cbn [a_step].
  destruct (a_at a) as [|ps e' t'|ps e' t' t''] eqn:At; cbn [stage_no].
  2, 3: eexists; split; [reflexivity|]; exact R.
  destruct (Z.eqb_spec (zlen e) 32) as [He|He]; cbn [andb negb Z.eqb]; [|eexists; split; [reflexivity|]; exact R].
  set (p := take (hash_len (a_suite a)) <$> psk). assert (Hp : psk_held (a_suite a) psk p).
  { destruct psk as [p'|]; [|exact I]. cbn. split; [rewrite length_take; lia|]. exists (drop (hash_len (a_suite a)) p'). by rewrite take_drop. }
  destruct (handshake_held (a_suite a) psk p e hash_room Hp He (room_fits _)) as (hs & -> & Hhs & _). osimpl.
  rewrite E, R2, R3, R4. destruct (install_exact (ks_stage st) k0 k1 k2 k3 (ks_master st) (ks_client_ap_secret st) (ks_server_ap_secret st) (ks_exporter_secret st)
    (a_suite a) (a_version a) (a_gone a) hs t p e Hhs Lt K0 K1 Lm) as (m' & -> & Hm' & Lm'). osimpl.
  eexists. split; [reflexivity|]. cbn [snd]. constructor; keys_step; cbn [a_at a_suite a_version a_gone a_erased a_blank stage_no]; try reflexivity; try assumption; try (intros H; discriminate H).
  - apply full_room; try assumption; apply rfc_quic_keys_room.
  - intros _ _. split; reflexivity.
Qed.

Lemma step_master st a t : ks_rep st a -> ks_legal a (OMaster t) ->
  exists st', ks_step st (OMaster t) = Some ((a_step a (OMaster t)).1, st') /\ ks_rep st' (a_step a (OMaster t)).2.
Proof.
  intros R Lt. pose proof R as [R0 R1 R2 R3 R4 R5 R6 R7 R8]. cbn [ks_legal] in Lt. cbn [ks_step a_step].
  destruct (room_full st R0) as (k0 & k1 & k2 & k3 & E & K0 & K1 & K2 & K3 & Lm & Lc & Ls & Lx).
  destruct (a_at a) as [|ps e' t'|ps e' t' t''] eqn:At; cbn [stage_no] in R1.
  1, 3: eexists; split; [unfold keysched_advance_master; rewrite R1; reflexivity|]; exact R.
  rewrite E, R1, R2, R3, R4. destruct (advance_master_exact k0 k1 k2 k3 (ks_master st) (ks_client_ap_secret st) (ks_server_ap_secret st) (ks_exporter_secret st)
    (a_suite a) (a_version a) (a_gone a) t _ R8 Lt K2 K3 Lc Ls Lx) as (cs & ss & ex & -> & (Hc & Lc') & (Hs & Ls') & (He & Le')). osimpl.
  eexists. split; [reflexivity|]. cbn [snd]. constructor; keys_step; cbn [a_at a_suite a_version a_gone a_erased a_blank stage_no]; try reflexivity; try assumption; try (intros H; discriminate H).
  - apply full_room; try assumption; apply rfc_quic_keys_room.
  - intros He'. destruct (R5 He') as [Hk [Hg | Hg]]; [|discriminate Hg]. rewrite E in Hk. keys_step in Hk. split; [exact Hk | left; exact Hg].
  - intros He' _. rewrite E in R7. keys_step in R7. unfold a_keys, a_hs_secret in *. cbn [a_at a_suite a_version]. rewrite At in R7.
    destruct (R7 He' ltac:(discriminate)) as [H1 H2]. split; [exact H1 | exact H2].
  - split; [reflexivity|]. split; [reflexivity|]. split; [exact Hc|]. split; [exact Hs | exact He].
Qed.

Lemma run_rep ops : forall st a, ks_rep st a -> ks_legal_run a ops ->
  exists st', ks_run st ops = Some ((a_run a ops).1, st') /\ ks_rep st' (a_run a ops).2.
Proof.
  induction ops as [|o ops IH]; intros st a R L; [by exists st|]. destruct L as [L1 L2].
  assert (exists st', ks_step st o = Some ((a_step a o).1, st') /\ ks_rep st' (a_step a o).2) as (st' & E & R').
  { destruct o; first [apply step_param; [exact R | exact L1 | exact I] | apply step_handshake; assumption | apply step_master; assumption]. }
  destruct (IH _ _ R' L2) as (st'' & E' & R''). cbn [ks_run a_run]. rewrite E. osimpl. rewrite E'. osimpl.
  destruct (a_step a o) as [ok a']. cbn [fst snd] in *. destruct (a_run a' ops) as [oks a'']. exists st''. split; [reflexivity | exact R''].
Qed.

Lemma rep_shows st a : ks_rep st a -> ks_shows st a.
Proof.
  intros [R0 R1 R2 R3 R4 R5 R6 R7 R8]. unfold ks_shows, keysched_client_ap_secret, keysched_server_ap_secret, keysched_exporter_secret, read_secret. rewrite R1, R2.
  split; [|split; [|split; [|split; [|split; [intros H; apply R5, H | exact R6]]]]].
  2, 3, 4: unfold a_master_secret; destruct (a_at a); cbn [stage_no Z.ltb Z.compare Pos.compare Pos.compare_cont]; [reflexivity | reflexivity |]; destruct R8 as (_ & _ & Hc & Hs & He);
    cbn [fmap option_fmap option_map]; f_equal; apply take_held; assumption.
  intros which Hw. unfold keysched_get, ks_have. rewrite R1, R4. unfold a_get.
  assert (Cw : which = KS_CLIENT_HS \/ which = KS_SERVER_HS \/ which = KS_CLIENT_AP \/ which = KS_SERVER_AP) by (unfold KS_CLIENT_HS, KS_SERVER_HS, KS_CLIENT_AP, KS_SERVER_AP; lia).
  assert (Hhs : a_gone a = false -> a_at a <> AtEarly -> a_erased a = false) by (intros Hg Hn; destruct (a_erased a); [destruct (R5 eq_refl) as [_ [H|H]]; [congruence | destruct (Hn H)] | reflexivity]).
  unfold a_hs_secret, a_master_secret. destruct (a_at a) as [|ps e t|ps e t t'] eqn:At; destruct (a_gone a) eqn:G; destruct Cw as [-> | [-> | [-> | ->]]]; cbn [stage_no]; try reflexivity.
  all: try (specialize (Hhs eq_refl ltac:(discriminate)); destruct (R7 Hhs ltac:(discriminate)) as [H1 H2]; unfold a_hs_secret in H1, H2; rewrite At in H1, H2; first [rewrite H1 | rewrite H2]; reflexivity).
  all: destruct R8 as (H1 & H2 & _); first [rewrite H1 | rewrite H2]; reflexivity.
Qed.

(** C6: whatever the order of the calls, keyschedule.c advances exactly when
    RFC 8446 7.1 does - a call out of order or a shared secret that is not 32
    bytes long is refused and changes nothing - and in the stage reached its
    accessors hand out the packet protection keys and secrets the RFCs define for
    the suite, the version, the PSK, the shared secret and the transcripts the
    schedule was driven with: nothing before a stage is reached, and no Handshake
    keys once discarded. A discard leaves the Handshake keys zero, a wipe every
    secret. *)
Theorem schedule_refines_rfc8446 ops st :
  ks_room st ->
  let a := mk_as AtEarly TLS_AES_128_GCM_SHA256 VERSION_1 false false false in
  ks_legal_run a ops ->
  exists st', ks_run (keysched_init st) ops = Some ((a_run a ops).1, st') /\ ks_shows st' (a_run a ops).2.
Proof.
  intros R a L. destruct (run_rep ops (keysched_init st) a) as (st' & E & R'); [|exact L|].
  - constructor; try reflexivity; first [exact R | exact I | intros H; first [discriminate H | intros []; reflexivity]].
  - exists st'. split; [exact E|]. apply rep_shows, R'.
Qed.

(** An AES-256 handshake over QUIC v2, with two calls out of order and a key of 31
    bytes, up to the discard of the Handshake keys. *)
Lemma schedule_refines_rfc8446_witness :
  let ops := [OSuite TLS_AES_256_GCM_SHA384; OVersion VERSION_2; OMaster [1]; OHandshake None (replicate 31 7) [1; 2];
              OHandshake (Some (replicate 48 9)) (replicate 32 7) [1; 2]; OHandshake None (replicate 32 7) [3]; OMaster [1; 2; 3]; ODiscard] in
  let st := mk_ks 2 hash_room (replicate 4 zero_keys) hash_room hash_room hash_room 0 0 true in
  let a := mk_as AtEarly TLS_AES_128_GCM_SHA256 VERSION_1 false false false in
  (a_run a ops).1 = [true; true; false; false; true; false; true; true] /\
  exists st', ks_run (keysched_init st) ops = Some ((a_run a ops).1, st') /\ ks_shows st' (a_run a ops).2.
Proof.
  intros ops st a. split; [reflexivity|]. apply (schedule_refines_rfc8446 ops st).
  - apply full_room; first [apply zero_keys_room | reflexivity].
  - repeat split; first [reflexivity | vm_compute; lia].
Defined.

(** The definitions above on RFC 8448 3: the Early, Handshake and Master Secrets
    of its handshake, as big-endian numbers. *)
Example rfc8448_secrets :
  let suite := TLS_AES_128_GCM_SHA256 in
  let num := fold_left (fun n b => n * 256 + b) in
  let ecdhe := be_bytes 32 0x8bd4054fb55b9d63fdfbacf9f04b9f0d35e6d63f537563efd46272900f89492d in
  num (rfc_early suite None) 0 = 0x33ad0a1c607ec03b09e6cd9893680ce210adf300aa1f2660e1b22e10f170f92a /\
  num (rfc_handshake suite None ecdhe) 0 = 0x1dc826e93606aa6fdc0aadc12f741b01046aa6b99f691ed221a9f0ca043fbeac /\
  num (rfc_master suite None ecdhe) 0 = 0x18df06843d13a08bf2a449844c5f8a478001bc4d4c627984d5a41da8d0402919.
Proof. vm_compute. repeat split. Qed.
