(* ===== verification/QpackHuff.v ===== *)
(** * The QPACK Huffman code

    src/src/app/qpack/qpack/huffman.c, huffman_step.c, huffman_enc.c (RFC 7541
    Appendix B).  The bit-by-bit decoder and the table-driven encoder are
    proved to be inverse to each other: the decoder accepts exactly the
    encodings, each for one string. *)

From stdpp Require Import base numbers list option.
From Stdlib Require Import ZArith Lia.
From S2P Require Import Prelude Bytes.

(** ** Tables *)

(* src/src/app/qpack/qpack/huffman.c : qpack_hsym@16-35 *)
Definition qpack_hsym : list Z :=
  [48; 49; 50; 97; 99; 101; 105; 111; 115; 116; 32; 37; 45; 46; 47; 51; 52; 53; 54; 55; 56; 57; 61; 65; 95;
   98; 100; 102; 103; 104; 108; 109; 110; 112; 114; 117; 58; 66; 67; 68; 69; 70; 71; 72; 73; 74; 75; 76; 77;
   78; 79; 80; 81; 82; 83; 84; 85; 86; 87; 89; 106; 107; 113; 118; 119; 120; 121; 122; 38; 42; 44; 59; 88;
   90; 33; 34; 40; 41; 63; 39; 43; 124; 35; 62; 0; 36; 64; 91; 93; 126; 94; 125; 60; 96; 123; 92; 195; 208;
   128; 130; 131; 162; 184; 194; 224; 226; 153; 161; 167; 172; 176; 177; 179; 209; 216; 217; 227; 229; 230;
   129; 132; 133; 134; 136; 146; 154; 156; 160; 163; 164; 169; 170; 173; 178; 181; 185; 186; 187; 189; 190;
   196; 198; 228; 232; 233; 1; 135; 137; 138; 139; 140; 141; 143; 147; 149; 150; 151; 152; 155; 157; 158;
   165; 166; 168; 174; 175; 180; 182; 183; 188; 191; 197; 231; 239; 9; 142; 144; 145; 148; 159; 171; 206;
   215; 225; 236; 237; 199; 207; 234; 235; 192; 193; 200; 201; 202; 205; 210; 213; 218; 219; 238; 240; 242;
   243; 255; 203; 204; 211; 212; 214; 221; 222; 223; 241; 244; 245; 246; 247; 248; 250; 251; 252; 253; 254;
   2; 3; 4; 5; 6; 7; 8; 11; 12; 14; 15; 16; 17; 18; 19; 20; 21; 23; 24; 25; 26; 27; 28; 29; 30; 31; 127; 220;
   249; 10; 13; 22; 256].

(* src/src/app/qpack/qpack/huffman.c : qpack_hfirst@37-42 *)
Definition qpack_hfirst : list Z :=
  [0; 0; 0; 0; 0; 0; 20; 92; 248; 508; 1016; 2042; 4090; 8184; 16380; 32764; 65534; 131068; 262136; 524272;
   1048550; 2097116; 4194258; 8388568; 16777194; 33554412; 67108832; 134217694; 268435426; 536870910;
   1073741820].

(* src/src/app/qpack/qpack/huffman.c : qpack_hidx@44-46 *)
Definition qpack_hidx : list Z :=
  [0; 0; 0; 0; 0; 0; 10; 36; 68; 74; 74; 79; 82; 84; 90; 92; 95; 95; 95; 95; 98; 106; 119; 145; 174; 186;
   190; 205; 224; 253; 253].

(* src/src/app/qpack/qpack/huffman.c : qpack_hcnt@48-50 *)
Definition qpack_hcnt : list Z :=
  [0; 0; 0; 0; 0; 10; 26; 32; 6; 0; 5; 3; 2; 6; 2; 3; 0; 0; 0; 3; 8; 13; 26; 29; 12; 4; 15; 19; 29; 0; 4].

(* src/src/app/qpack/qpack/huffman_enc.c : huff_lk@6-25 *)
Definition huff_lk : list Z :=
  [13; 23; 28; 60; 92; 124; 156; 188; 220; 24; 30; 252; 284; 62; 316; 348; 380; 412; 444; 476; 508; 540; 94;
   572; 604; 636; 668; 700; 732; 764; 796; 828; 6; 10; 42; 12; 45; 38; 8; 11; 74; 106; 40; 43; 72; 70; 102;
   134; 5; 37; 69; 166; 198; 230; 262; 294; 326; 358; 7; 104; 15; 390; 44; 138; 77; 422; 39; 71; 103; 135;
   167; 199; 231; 263; 295; 327; 359; 391; 423; 455; 487; 519; 551; 583; 615; 647; 679; 711; 136; 743; 168;
   109; 19; 141; 14; 454; 47; 101; 486; 133; 518; 165; 550; 582; 614; 197; 775; 807; 646; 678; 710; 229; 742;
   839; 774; 261; 293; 806; 871; 903; 935; 967; 999; 79; 75; 46; 173; 860; 20; 22; 52; 84; 54; 86; 118; 55;
   150; 87; 119; 151; 183; 215; 56; 247; 88; 120; 182; 279; 152; 311; 343; 375; 407; 21; 214; 439; 246; 471;
   503; 184; 278; 53; 116; 310; 342; 535; 567; 85; 599; 374; 406; 216; 117; 438; 631; 663; 149; 181; 470;
   213; 695; 502; 727; 759; 148; 534; 566; 598; 791; 630; 662; 823; 26; 58; 180; 51; 694; 855; 726; 25; 90;
   122; 154; 27; 59; 186; 248; 57; 83; 245; 218; 91; 123; 250; 155; 280; 277; 309; 282; 314; 892; 187; 219;
   251; 212; 312; 244; 341; 758; 373; 405; 887; 790; 822; 89; 121; 344; 376; 346; 919; 378; 283; 410; 442;
   315; 347; 379; 411; 443; 924; 475; 507; 539; 571; 603; 474].

(** ** Decoder *)

(* src/src/app/qpack/qpack/huffman_impl.h : HUFF_MAXLEN *)
Definition HUFF_MAXLEN : Z := 30.

(* src/src/app/qpack/qpack/huffman_impl.h : hctx *)
Record hctx := mk_hctx { h_acc : Z; h_nbits : Z; h_out : list Z; h_olen : Z; h_ok : bool }.

(* src/src/app/qpack/qpack/huffman.c : code_ready *)
Definition code_ready (acc L : Z) : option bool :=
  cnt ← load qpack_hcnt L;
  if cnt =? 0 then Some false
  else first ← load qpack_hfirst L; Some (u32 (acc - first) <? cnt).

(* src/src/app/qpack/qpack/huffman.c : put_sym *)
Definition put_sym (c : hctx) (sym : Z) : option hctx :=
  if (255 <? sym) || (zlen (h_out c) <=? h_olen c)
  then Some (mk_hctx (h_acc c) (h_nbits c) (h_out c) (h_olen c) false)
  else out ← store (h_out c) (h_olen c) (u8 sym);
       Some (mk_hctx (h_acc c) (h_nbits c) out (h_olen c + 1) (h_ok c)).

(* src/src/app/qpack/qpack/huffman.c : emit_code *)
Definition emit_code (c : hctx) : option hctx :=
  idx ← load qpack_hidx (h_nbits c);
  first ← load qpack_hfirst (h_nbits c);
  sym ← load qpack_hsym (u32 (idx + u32 (h_acc c - first)));
  c ← put_sym c sym;
  Some (mk_hctx 0 0 (h_out c) (h_olen c) (h_ok c)).

(* src/src/app/qpack/qpack/huffman.c : qpack_step_bit *)
Definition qpack_step_bit (c : hctx) (bit : Z) : option hctx :=
  let acc := u32 (Z.lor (u32 (Z.shiftl (h_acc c) 1)) bit) in
  let nbits := u32 (h_nbits c + 1) in
  let c := mk_hctx acc nbits (h_out c) (h_olen c) (h_ok c) in
  if HUFF_MAXLEN <? nbits then Some (mk_hctx acc nbits (h_out c) (h_olen c) false)
  else r ← code_ready acc nbits; if (r : bool) then emit_code c else Some c.

(** The loop [for (b = 8; b != 0 && c->ok; b--)]. *)
Fixpoint step_bits (c : hctx) (byte : Z) (b : nat) : option hctx :=
  match b with
  | O => Some c
  | S b' =>
      if h_ok c then c ← qpack_step_bit c (Z.land (Z.shiftr byte (Z.of_nat b')) 1); step_bits c byte b'
      else Some c
  end.

(* src/src/app/qpack/qpack/huffman_step.c : step_octet *)
Definition step_octet (c : hctx) (byte : Z) : option hctx := step_bits c byte 8.

(* src/src/app/qpack/qpack/huffman_step.c : feed *)
Fixpoint feed (c : hctx) (src : list Z) : option hctx :=
  match src with [] => Some c | b :: src' => c ← step_octet c b; feed c src' end.

(* src/src/app/qpack/qpack/huffman_step.c : pad_valid *)
Definition pad_valid (c : hctx) : bool :=
  (h_nbits c <? 8) && ((h_nbits c =? 0) || (h_acc c =? u32 (u32 (Z.shiftl 1 (h_nbits c)) - 1))).

(* src/src/app/qpack/qpack/huffman_step.c : decode_ok *)
Definition decode_ok (c : hctx) : bool := h_ok c && pad_valid c.

(* src/src/app/qpack/qpack/huffman_step.c : qpack_huffman_decode *)
Definition qpack_huffman_decode (src : list Z) (dst : obuf) : res obuf :=
  match feed (mk_hctx 0 0 (op dst) 0 true) src with
  | None => Oob
  | Some c => if decode_ok c then Ok (mk_obuf (h_out c) (h_olen c)) else Fail
  end.

(** ** Encoder *)

(* src/src/app/qpack/qpack/huffman_enc.c : hwr *)
Record hwr := mk_hwr { w_acc : Z; w_nbits : Z; w_out : list Z; w_len : Z }.

(* src/src/app/qpack/qpack/huffman_enc.c : put_octet *)
Definition put_octet (w : hwr) (b : Z) : option hwr :=
  out ← (if w_len w <? zlen (w_out w) then store (w_out w) (w_len w) b else Some (w_out w));
  Some (mk_hwr (w_acc w) (w_nbits w) out (w_len w + 1)).

(** The loop [while (w->nbits >= 8)]. *)
Fixpoint flush_octets (fuel : nat) (w : hwr) : option hwr :=
  if w_nbits w <? 8 then Some w
  else
    match fuel with
    | O => None
    | S f =>
        let w := mk_hwr (w_acc w) (w_nbits w - 8) (w_out w) (w_len w) in
        w ← put_octet w (u8 (Z.shiftr (w_acc w) (w_nbits w)));
        flush_octets f w
    end.

(* src/src/app/qpack/qpack/huffman_enc.c : put_code *)
Definition put_code (w : hwr) (code L : Z) : option hwr :=
  flush_octets 8 (mk_hwr (Z.lor (u64 (Z.shiftl (w_acc w) L)) code) (u32 (w_nbits w + L)) (w_out w) (w_len w)).

(** The loop over the octets of the source. *)
Fixpoint put_codes (w : hwr) (src : list Z) : option hwr :=
  match src with
  | [] => Some w
  | b :: src' =>
      lk ← load huff_lk b;
      first ← load qpack_hfirst (Z.land lk 31);
      w ← put_code w (u32 (first + Z.shiftr lk 5)) (Z.land lk 31);
      put_codes w src'
  end.

(* src/src/app/qpack/qpack/huffman_enc.c : qpack_huffman_encode *)
Definition qpack_huffman_encode (src dst : list Z) : option (Z * list Z) :=
  w ← put_codes (mk_hwr 0 0 dst 0) src;
  let pad := Z.land (u32 (8 - w_nbits w)) 7 in
  w ← put_code w (u32 (u32 (Z.shiftl 1 pad) - 1)) pad;
  Some (w_len w, w_out w).

(** ** Bit strings *)

(** The low [n] bits of [v], most significant first. *)
Fixpoint bits (n : nat) (v : Z) : list bool :=
  match n with O => [] | S n' => Z.testbit v (Z.of_nat n') :: bits n' v end.

Definition octets_bits (l : list Z) : list bool := concat (map (bits 8) l).

Lemma length_bits n v : length (bits n v) = n.
Proof. induction n as [|n IH]; cbn; [done|by rewrite IH]. Qed.

Lemma bits_ext n v v' : (forall i, 0 <= i < Z.of_nat n -> Z.testbit v i = Z.testbit v' i) -> bits n v = bits n v'.
Proof.
  induction n as [|n IH]; intros H; cbn; [done|]. rewrite IH by (intros i Hi; apply H; lia). f_equal. apply H. lia.
Qed.

Lemma bits_inj n v v' :
  bits n v = bits n v' -> forall i, 0 <= i < Z.of_nat n -> Z.testbit v i = Z.testbit v' i.
Proof.
  induction n as [|n IH]; intros H i Hi; [lia|]. cbn in H. injection H as H0 H.
  destruct (Z.eq_dec i (Z.of_nat n)) as [->|Hn]; [done|]. apply IH; [done|lia].
Qed.

Lemma bits_app n m v : bits (n + m) v = bits n (Z.shiftr v (Z.of_nat m)) ++ bits m v.
Proof.
  induction n as [|n IH]; cbn; [done|]. rewrite IH. f_equal. rewrite Z.shiftr_spec by lia. f_equal. lia.
Qed.

Lemma bits_u64 n v : (n <= 64)%nat -> bits n (u64 v) = bits n v.
Proof.
  intros Hn. apply bits_ext. intros i Hi. unfold u64. change 18446744073709551616 with (2 ^ 64).
  apply Z.mod_pow2_bits_low. lia.
Qed.
Lemma bits_u8 v : bits 8 (u8 v) = bits 8 v.
Proof. apply bits_ext. intros i Hi. unfold u8. change 256 with (2 ^ 8). apply Z.mod_pow2_bits_low. lia. Qed.

Lemma testbit_above v k i : 0 <= v < 2 ^ k -> 0 <= k <= i -> Z.testbit v i = false.
Proof.
  intros Hv Hk. destruct (Z.eq_dec v 0) as [->|]; [apply Z.bits_0|]. apply Z.bits_above_log2; [lia|].
  apply Z.log2_lt_pow2; [lia|]. eapply Z.lt_le_trans; [apply Hv|]. apply Z.pow_le_mono_r; lia.
Qed.

(** Appending an [L]-bit code to [n] pending bits. *)
Lemma bits_append n L acc code :
  (n + L <= 64)%nat -> 0 <= code < 2 ^ Z.of_nat L ->
  bits (n + L) (Z.lor (u64 (Z.shiftl acc (Z.of_nat L))) code) = bits n acc ++ bits L code.
Proof.
  intros Hn Hc. rewrite bits_app. f_equal.
  - apply bits_ext. intros i Hi. rewrite Z.shiftr_spec, Z.lor_spec by lia.
    rewrite (testbit_above code (Z.of_nat L)) by lia. rewrite orb_false_r. unfold u64.
    change 18446744073709551616 with (2 ^ 64). rewrite Z.mod_pow2_bits_low, Z.shiftl_spec by lia. f_equal. lia.
  - apply bits_ext. intros i Hi. rewrite Z.lor_spec. unfold u64. change 18446744073709551616 with (2 ^ 64).
    by rewrite Z.mod_pow2_bits_low, Z.shiftl_spec_low by lia.
Qed.

Lemma bits_ones n : bits n (2 ^ Z.of_nat n - 1) = replicate n true.
Proof.
  replace (2 ^ Z.of_nat n - 1) with (Z.ones (Z.of_nat n)) by (rewrite Z.ones_equiv; lia).
  enough (forall m, (m <= n)%nat -> bits m (Z.ones (Z.of_nat n)) = replicate m true) by auto.
  induction m as [|m IH]; intros Hm; cbn; [done|]. rewrite IH by lia. f_equal. apply Z.ones_spec_low. lia.
Qed.

(** Two octets with the same bits are equal. *)
Lemma bits8_inj a b : is_u8 a -> is_u8 b -> bits 8 a = bits 8 b -> a = b.
Proof.
  intros Ha Hb H. apply Z.bits_inj'. intros i Hi. destruct (Z_lt_ge_dec i 8) as [Hl|Hl].
  - by apply (bits_inj 8).
  - unfold is_u8 in *. rewrite !(testbit_above _ 8); try done; lia.
Qed.

Lemma octets_bits_app l l' : octets_bits (l ++ l') = octets_bits l ++ octets_bits l'.
Proof. unfold octets_bits. by rewrite map_app, concat_app. Qed.

Lemma octets_bits_inj l : forall l', bytes_ok l -> bytes_ok l' -> octets_bits l = octets_bits l' -> l = l'.
Proof.
  induction l as [|a l IH]; intros [|b l'] H H' E; try done.
  unfold octets_bits in E. cbn [map concat] in E.
  apply bytes_ok_cons in H as [Ha H]. apply bytes_ok_cons in H' as [Hb H'].
  apply app_inj_1 in E as [E1 E2]; [|by rewrite !length_bits].
  f_equal; [by apply bits8_inj|by apply IH].
Qed.

Lemma length_octets_bits l : length (octets_bits l) = (8 * length l)%nat.
Proof.
  induction l as [|a l IH]; [done|]. unfold octets_bits in *. cbn [map concat length].
  rewrite length_app, length_bits, IH. lia.
Qed.

(** ** The code as bit strings *)

(** The code of octet [b], as the encoder's table lists it. *)
Definition hcode (b : Z) : list bool :=
  match load huff_lk b with
  | Some lk =>
      match load qpack_hfirst (Z.land lk 31) with
      | Some first => bits (Z.to_nat (Z.land lk 31)) (first + Z.shiftr lk 5)
      | None => []
      end
  | None => []
  end.

Definition hcodes (s : list Z) : list bool := concat (map hcode s).

(** [E] is the padded code of [s]. *)
Definition huff_of (s E : list Z) : Prop :=
  bytes_ok E /\ exists p, (p < 8)%nat /\ octets_bits E = hcodes s ++ replicate p true.

Lemma huff_of_fun s E E' : huff_of s E -> huff_of s E' -> E = E'.
Proof.
  intros (Hb & p & Hp & H) (Hb' & p' & Hp' & H'). apply octets_bits_inj; [done|done|].
  pose proof (f_equal length H) as L. pose proof (f_equal length H') as L'.
  rewrite length_octets_bits, length_app, length_replicate in L, L'.
  assert (p = p') as -> by lia. congruence.
Qed.

(** *** The decoder as an automaton over bits *)

(** What one bit does: a longer pending code, a symbol, or a code that is too long. *)
Inductive hout := HMore (acc nbits : Z) | HSym (acc nbits sym : Z) | HBad (acc nbits : Z).

Definition htrans (acc nbits : Z) (b : bool) : option hout :=
  let acc := u32 (Z.lor (u32 (Z.shiftl acc 1)) (Z.b2z b)) in
  let nbits := u32 (nbits + 1) in
  if HUFF_MAXLEN <? nbits then Some (HBad acc nbits)
  else
    r ← code_ready acc nbits;
    if (r : bool) then
      idx ← load qpack_hidx nbits;
      first ← load qpack_hfirst nbits;
      sym ← load qpack_hsym (u32 (idx + u32 (acc - first)));
      Some (HSym acc nbits sym)
    else Some (HMore acc nbits).

Definition hdo (c : hctx) (o : hout) : option hctx :=
  match o with
  | HMore a n => Some (mk_hctx a n (h_out c) (h_olen c) (h_ok c))
  | HSym a n s =>
      c ← put_sym (mk_hctx a n (h_out c) (h_olen c) (h_ok c)) s;
      Some (mk_hctx 0 0 (h_out c) (h_olen c) (h_ok c))
  | HBad a n => Some (mk_hctx a n (h_out c) (h_olen c) false)
  end.

Lemma step_bit_trans c b : qpack_step_bit c (Z.b2z b) = o ← htrans (h_acc c) (h_nbits c) b; hdo c o.
Proof.
  unfold qpack_step_bit, htrans. cbv zeta. destruct (HUFF_MAXLEN <? _); [done|].
  destruct (code_ready _ _) as [[]|]; osimpl; [|done|done]. unfold emit_code. cbn [h_nbits h_acc].
  destruct (load qpack_hidx _); osimpl; [|done]. destruct (load qpack_hfirst _); osimpl; [|done].
  by destruct (load qpack_hsym _).
Qed.

Fixpoint feed_bits (c : hctx) (bs : list bool) : option hctx :=
  match bs with
  | [] => Some c
  | b :: bs' => if h_ok c then c ← (o ← htrans (h_acc c) (h_nbits c) b; hdo c o); feed_bits c bs' else Some c
  end.

Lemma feed_bits_bad c bs : h_ok c = false -> feed_bits c bs = Some c.
Proof. intros H. destruct bs; cbn; [done|by rewrite H]. Qed.

Lemma feed_bits_app bs bs' : forall c, feed_bits c (bs ++ bs') = c' ← feed_bits c bs; feed_bits c' bs'.
Proof.
  induction bs as [|b bs IH]; intros c; cbn [feed_bits app]; [done|].
  destruct (h_ok c) eqn:E; [|osimpl; by rewrite feed_bits_bad].
  destruct (o ← htrans _ _ b; hdo c o) as [c1|]; osimpl; [apply IH|done].
Qed.

Lemma step_bits_feed n : forall c byte, step_bits c byte n = feed_bits c (bits n byte).
Proof.
  induction n as [|n IH]; intros c byte; cbn [step_bits bits feed_bits]; [done|]. destruct (h_ok c); [|done].
  assert (Z.land (Z.shiftr byte (Z.of_nat n)) 1 = Z.b2z (Z.testbit byte (Z.of_nat n))) as ->.
  { rewrite land_1, Z.shiftr_div_pow2, Z.testbit_spec' by lia. done. }
  rewrite step_bit_trans. destruct (o ← htrans _ _ _; hdo c o) as [c1|]; osimpl; [apply IH|done].
Qed.

Lemma feed_spec src : forall c, feed c src = feed_bits c (octets_bits src).
Proof.
  induction src as [|b src IH]; intros c; cbn [feed]; [done|]. unfold step_octet, octets_bits. cbn [map concat].
  rewrite feed_bits_app, step_bits_feed. destruct (feed_bits c _); osimpl; [apply IH|done].
Qed.

(** Walk a pending code from a fresh state; a symbol only at its end. *)
Fixpoint hwalk (acc nbits : Z) (bs : list bool) : option hout :=
  match bs with
  | [] => Some (HMore acc nbits)
  | b :: bs' =>
      match htrans acc nbits b with
      | Some (HMore a n) => hwalk a n bs'
      | Some (HSym a n s) => match bs' with [] => Some (HSym a n s) | _ => None end
      | _ => None
      end
  end.

Lemma feed_walk bs : forall c o,
  h_ok c = true -> hwalk (h_acc c) (h_nbits c) bs = Some o -> feed_bits c bs = hdo c o.
Proof.
  induction bs as [|b bs IH]; intros c o Hok Hw; cbn [hwalk feed_bits] in *.
  { injection Hw as <-. by destruct c. }
  rewrite Hok. destruct (htrans _ _ b) as [[a n|a n s|a n]|]; [| |done|done].
  - osimpl. cbn [hdo]. osimpl. rewrite (IH (mk_hctx a n (h_out c) (h_olen c) (h_ok c)) o); [by destruct o|done|done].
  - destruct bs; [|done]. injection Hw as <-. osimpl. by destruct (hdo c _).
Qed.

(** *** The tables, checked by evaluation *)

Definition code_checks (b : Z) : bool :=
  match hwalk 0 0 (hcode b) with Some (HSym _ _ s) => s =? b | _ => false end.

Definition sym_checks (L : nat) : bool :=
  match load qpack_hcnt (Z.of_nat L), load qpack_hfirst (Z.of_nat L), load qpack_hidx (Z.of_nat L) with
  | Some cnt, Some first, Some idx =>
      (0 <=? first) && (first <? 2147483648) && (0 <=? cnt) && (cnt <? 257) && (0 <=? idx) &&
      forallb (fun k =>
        match load qpack_hsym (idx + Z.of_nat k) with
        | Some s => (0 <=? s) && ((s =? 256) ||
            ((s <? 256) && bool_decide (hcode s = bits L (first + Z.of_nat k))))
        | None => false
        end) (seq 0 (Z.to_nat cnt))
  | _, _, _ => false
  end.

Lemma all_codes_check : forallb code_checks (map Z.of_nat (seq 0 256)) = true.
Proof. vm_compute. reflexivity. Qed.
Lemma all_syms_check : forallb sym_checks (seq 0 31) = true.
Proof. vm_compute. reflexivity. Qed.
Lemma pad_checks : forallb (fun p => match hwalk 0 0 (replicate p true) with
    | Some (HMore a n) => (a =? 2 ^ Z.of_nat p - 1) && (n =? Z.of_nat p) | _ => false end) (seq 0 8) = true.
Proof. vm_compute. reflexivity. Qed.
Lemma lk_checks : forallb (fun lk => let L := Z.land lk 31 in (5 <=? L) && (L <=? 30) && match load qpack_hfirst L with
    | Some first => (0 <=? first) && (0 <=? Z.shiftr lk 5) && (first + Z.shiftr lk 5 <? 2 ^ L) | None => false end) huff_lk = true.
Proof. vm_compute. reflexivity. Qed.

(** *** Decoding a code *)

Lemma hwalk_code b : is_u8 b -> exists a n, hwalk 0 0 (hcode b) = Some (HSym a n b).
Proof.
  intros Hb. pose proof (u8_check code_checks b all_codes_check Hb) as H. unfold code_checks in H.
  destruct (hwalk 0 0 (hcode b)) as [[?|a n s|?]|]; try done. exists a, n. apply Z.eqb_eq in H. by subst.
Qed.

Lemma hwalk_pad p : (p < 8)%nat -> hwalk 0 0 (replicate p true) = Some (HMore (2 ^ Z.of_nat p - 1) (Z.of_nat p)).
Proof.
  intros Hp. pose proof pad_checks as H. rewrite forallb_forall in H. specialize (H p). cbv beta in H.
  destruct (hwalk 0 0 (replicate p true)) as [[a n|?|?]|];
    try (assert (false = true) as [=] by (apply H, in_seq; lia)).
  assert ((a =? 2 ^ Z.of_nat p - 1) && (n =? Z.of_nat p) = true) as E by (apply H, in_seq; lia).
  apply andb_true_iff in E as [E1 E2]. apply Z.eqb_eq in E1, E2. by subst.
Qed.

Lemma decode_codes s : forall out olen,
  bytes_ok s -> 0 <= olen <= zlen out ->
  exists c, feed_bits (mk_hctx 0 0 out olen true) (hcodes s) = Some c /\
    if olen + zlen s <=? zlen out then c = mk_hctx 0 0 (splice out olen s) (olen + zlen s) true
    else h_ok c = false.
Proof.
  induction s as [|b s IH]; intros out olen Hs Ho.
  { exists (mk_hctx 0 0 out olen true). split; [done|]. rewrite zlen_nil, Z.add_0_r. bx. by rewrite splice_nil. }
  apply bytes_ok_cons in Hs as [Hb Hs]. unfold hcodes in *. cbn [map concat]. rewrite feed_bits_app, zlen_cons.
  destruct (hwalk_code b Hb) as (a & n & Hw). pose proof (zlen_nonneg s) as Hz. unfold is_u8 in Hb.
  rewrite (feed_walk _ (mk_hctx 0 0 out olen true) _ eq_refl Hw). cbn [hdo h_out h_olen h_ok]. unfold put_sym. cbn [h_out h_olen h_ok h_acc h_nbits].
  replace (255 <? b) with false by lia. cbn [orb]. destruct (zlen out <=? olen) eqn:Ef.
  - osimpl. cbn [h_out h_olen h_ok]. rewrite feed_bits_bad by done. eexists. split; [reflexivity|]. by bx.
  - rewrite store_in by lia. osimpl. cbn [h_out h_olen h_ok]. rewrite u8_small by lia.
    destruct (IH (<[Z.to_nat olen := b]> out) (olen + 1) Hs) as (c & -> & Hc); [rewrite zlen_insert; lia|].
    exists c. split; [done|]. rewrite zlen_insert, splice_cons_store in Hc by lia.
    replace (olen + (1 + zlen s)) with (olen + 1 + zlen s) by lia. done.
Qed.

(** *** What any accepted input decodes to *)

(** The pending bits of the decoder. *)
Definition pending (c : hctx) (pend : list bool) : Prop :=
  h_nbits c = Z.of_nat (length pend) /\ 0 <= h_acc c < 2 ^ h_nbits c /\ h_nbits c <= 30 /\
  bits (length pend) (h_acc c) = pend.

Lemma sym_check L : (L <= 30)%nat -> sym_checks L = true.
Proof. intros HL. pose proof all_syms_check as H. rewrite forallb_forall in H. apply H, in_seq. lia. Qed.

(** A bit after pending bits: a symbol is emitted exactly with its code. *)
Lemma htrans_sound acc pend b :
  0 <= acc < 2 ^ Z.of_nat (length pend) -> (length pend <= 30)%nat -> bits (length pend) acc = pend ->
  exists o, htrans acc (Z.of_nat (length pend)) b = Some o /\
    match o with
    | HMore a n => n = Z.of_nat (length (pend ++ [b])) /\ 0 <= a < 2 ^ n /\ n <= 30 /\ bits (length (pend ++ [b])) a = pend ++ [b]
    | HSym a n s => s = 256 \/ (is_u8 s /\ pend ++ [b] = hcode s)
    | HBad a n => True
    end.
Proof.
  intros Ha HL Hp. unfold htrans. set (L := length pend) in *. cbv zeta.
  assert (2 ^ Z.of_nat L <= 2 ^ 30) as HB by (apply Z.pow_le_mono_r; lia). change (2 ^ 30) with 1073741824 in HB.
  rewrite (u32_small (Z.shiftl acc 1)) by (rewrite Z.shiftl_mul_pow2; lia).
  assert (0 <= Z.b2z b < 2 ^ 1) as Hb by (destruct b; cbn; lia).
  rewrite lor_shiftl by lia. change (2 ^ 1) with 2. rewrite (u32_small (_ + Z.b2z b)), (u32_small (Z.of_nat L + 1)) by lia.
  set (a := acc * 2 + Z.b2z b). replace (Z.of_nat L + 1) with (Z.of_nat (S L)) by lia.
  assert (bits (length (pend ++ [b])) a = pend ++ [b]) as Hbits.
  { rewrite length_app. cbn [length]. fold L. rewrite (bits_app L 1 a). f_equal.
    - transitivity (bits L acc); [f_equal|done]. subst a. change (Z.of_nat 1) with 1. rewrite Z.shiftr_div_pow2 by lia.
      change (2 ^ 1) with 2. rewrite Z.div_add_l by lia. rewrite Z.div_small by lia. lia.
    - cbn. f_equal. replace a with (2 * acc + Z.b2z b) by (subst a; lia). apply Z.testbit_0_r. }
  assert (Z.of_nat (length (pend ++ [b])) = Z.of_nat (S L)) as HlenSL by (rewrite length_app; cbn; fold L; lia).
  assert (0 <= a < 2 ^ Z.of_nat (S L)) as Har by (rewrite Nat2Z.inj_succ, Z.pow_succ_r by lia; subst a; lia).
  destruct (HUFF_MAXLEN <? Z.of_nat (S L)) eqn:EM; [eexists; by split|]. unfold HUFF_MAXLEN in EM. apply Z.ltb_ge in EM.
  pose proof (sym_check (S L) ltac:(lia)) as Hc. unfold sym_checks, code_ready in *.
  destruct (load qpack_hcnt _) as [cnt|]; [|done]. destruct (load qpack_hfirst _) as [first|]; [|done].
  destruct (load qpack_hidx _) as [idx|]; [|done]. osimpl. rewrite !andb_true_iff in Hc.
  destruct Hc as (((((H1 & H2) & H3) & H4) & H5) & Hk).
  assert (2 ^ Z.of_nat (S L) <= 2 ^ 30) as HB' by (apply Z.pow_le_mono_r; lia). change (2 ^ 30) with 1073741824 in HB'.
  assert (forall t, (cnt =? 0) = t -> (if t then Some false else Some (u32 (a - first) <? cnt)) = Some ((first <=? a) && (a <? first + cnt))) as Hr.
  { intros t <-. bcase; f_equal; [lia|]. unfold u32. destruct (first <=? a) eqn:Ef.
    - rewrite Z.mod_small by lia. lia.
    - replace (a - first) with (a - first + 4294967296 + (-1) * 4294967296) by lia.
      rewrite Z.mod_add, Z.mod_small by lia. lia. }
  rewrite (Hr _ eq_refl). osimpl. destruct ((first <=? a) && (a <? first + cnt)) eqn:Er.
  - rewrite (u32_small (a - first)) by lia.
    rewrite forallb_forall in Hk. specialize (Hk (Z.to_nat (a - first)) ltac:(apply in_seq; lia)). cbv beta in Hk.
    rewrite Z2Nat.id in Hk by lia. destruct (load qpack_hsym (idx + (a - first))) as [s|] eqn:Es; [|done].
    apply load_Some in Es as Hidx. change (zlen qpack_hsym) with 257 in Hidx. rewrite u32_small, Es by lia. osimpl. eexists. split; [reflexivity|].
    apply andb_true_iff in Hk as [Hs0 Hk]. apply orb_true_iff in Hk as [Hk|Hk]; [left; lia|right].
    apply andb_true_iff in Hk as [Hs1 Hk]. apply bool_decide_eq_true in Hk. split; [unfold is_u8; lia|].
    rewrite Hk, <- Hbits. f_equal; lia.
  - eexists. split; [reflexivity|]. rewrite HlenSL. split; [done|]. split; [done|]. split; [lia|done].
Qed.

Lemma hcodes_cons b s : hcodes (b :: s) = hcode b ++ hcodes s.
Proof. done. Qed.

Lemma feed_bits_sound bs : forall c pend,
  h_ok c = true -> pending c pend -> 0 <= h_olen c <= zlen (h_out c) ->
  exists c', feed_bits c bs = Some c' /\ zlen (h_out c') = zlen (h_out c) /\
    (h_ok c' = true -> exists s pend', pend ++ bs = hcodes s ++ pend' /\ pending c' pend' /\ bytes_ok s /\
       h_olen c' = h_olen c + zlen s /\ h_olen c' <= zlen (h_out c) /\ h_out c' = splice (h_out c) (h_olen c) s).
Proof.
  induction bs as [|b bs IH]; intros c pend Hok Hp Ho; cbn [feed_bits].
  { exists c. split; [done|]. split; [done|]. intros _. exists [], pend. rewrite zlen_nil, splice_nil, app_nil_r.
    do 3 (split; [done || constructor|]). split; [lia|]. split; [lia|done]. }
  rewrite Hok. destruct Hp as (En & Ha & Hl & Hb). rewrite En in *.
  destruct (htrans_sound (h_acc c) pend b Ha ltac:(lia) Hb) as (o & -> & Ho'). osimpl.
  destruct o as [a n|a n s|a n]; cbn [hdo].
  - osimpl. destruct (IH (mk_hctx a n (h_out c) (h_olen c) (h_ok c)) (pend ++ [b])) as (c' & -> & Hz & Hc'); [done| |done|].
    { destruct Ho' as (-> & ? & ? & ?). split; [done|]. split; [done|]. by split. }
    exists c'. split; [done|]. split; [done|]. rewrite <- app_assoc in Hc'. done.
  - unfold put_sym. cbn [h_out h_olen h_ok]. destruct ((255 <? s) || _) eqn:Ef; osimpl.
    { cbn [h_out h_olen h_ok]. rewrite feed_bits_bad by done. eexists. split; [reflexivity|]. by split. }
    destruct Ho' as [->|(Hs & Ecode)]; [done|]. unfold is_u8 in Hs. rewrite store_in by lia. osimpl. cbn [h_out h_olen h_ok].
    rewrite u8_small by lia.
    destruct (IH (mk_hctx 0 0 (<[Z.to_nat (h_olen c) := s]> (h_out c)) (h_olen c + 1) (h_ok c)) []) as (c' & -> & Hz & Hc'); [done| | |].
    { split; [done|]. by split. }
    { cbn. rewrite zlen_insert. lia. }
    cbn [h_out h_olen] in Hz, Hc'. rewrite zlen_insert in Hz, Hc'. exists c'. split; [done|]. split; [done|]. intros Hok'.
    destruct (Hc' Hok') as (s' & pend' & E1 & E2 & E3 & E4 & E6 & E5). exists (s :: s'), pend'.
    split; [rewrite hcodes_cons, <- Ecode, <- !app_assoc; cbn; cbn in E1; by rewrite E1|]. split; [done|].
    split; [by apply bytes_ok_cons|]. rewrite zlen_cons. split; [lia|]. split; [lia|]. rewrite E5. apply splice_cons_store; lia.
  - osimpl. rewrite feed_bits_bad by done. eexists. split; [reflexivity|]. by split.
Qed.

(** *** The encoder emits the code *)

(** [E] laid over the front of [dst], as much of it as fits. *)
Definition overlay (dst E : list Z) : list Z := take (length dst) E ++ drop (length E) dst.

Lemma zlen_overlay dst E : zlen (overlay dst E) = zlen dst.
Proof. unfold overlay, zlen. rewrite length_app, length_take, length_drop. lia. Qed.

Lemma overlay_fits dst E : zlen E <= zlen dst -> overlay dst E = splice dst 0 E.
Proof.
  intros H. unfold zlen in H. unfold overlay, splice. rewrite take_ge by lia. by rewrite Z2Nat.inj_0, Nat.add_0_l.
Qed.

Lemma overlay_over dst E b : zlen dst <= zlen E -> overlay dst (E ++ [b]) = overlay dst E.
Proof.
  unfold zlen. intros H. unfold overlay. rewrite take_app_le by lia. f_equal. rewrite !drop_ge; [done|lia|rewrite length_app; lia].
Qed.

(** The writer has emitted [E] and holds bits of [acc] back. *)
Definition whas (w : hwr) (dst E : list Z) : Prop :=
  w_len w = zlen E /\ w_out w = overlay dst E /\ bytes_ok E.

Lemma put_octet_spec w dst E b :
  whas w dst E -> is_u8 b ->
  exists w', put_octet w b = Some w' /\ whas w' dst (E ++ [b]) /\ w_acc w' = w_acc w /\ w_nbits w' = w_nbits w.
Proof.
  intros (Hl & Ho & Hb) H8. unfold put_octet. rewrite Ho, Hl, zlen_overlay.
  assert (bytes_ok (E ++ [b])) by (apply bytes_ok_app; split; [done|by apply Forall_singleton]).
  pose proof (zlen_nonneg E).
  destruct (zlen E <? zlen dst) eqn:Ef.
  - rewrite store_in by (rewrite zlen_overlay; lia). osimpl. eexists. split; [reflexivity|].
    split; [|done]. split; [cbn; zl|]. split; [|done]. cbn. rewrite !overlay_fits by zl.
    rewrite <- splice_app, Z.add_0_l by lia. rewrite <- splice_cons_store, splice_nil by (rewrite ?zlen_splice; lia). done.
  - osimpl. eexists. split; [reflexivity|]. split; [|done]. split; [cbn; zl|]. split; [|done]. cbn. by rewrite overlay_over by lia.
Qed.

Lemma flush_spec f : forall w dst E,
  whas w dst E -> 0 <= w_nbits w < 8 * Z.of_nat f + 8 ->
  exists w' E', flush_octets f w = Some w' /\ whas w' dst E' /\ 0 <= w_nbits w' < 8 /\
    octets_bits E' ++ bits (Z.to_nat (w_nbits w')) (w_acc w') = octets_bits E ++ bits (Z.to_nat (w_nbits w)) (w_acc w).
Proof.
  induction f as [|f IH]; intros w dst E Hw Hn; cbn [flush_octets].
  { destruct (w_nbits w <? 8) eqn:E8; [|lia]. exists w, E. split; [done|]. split; [done|]. split; [lia|done]. }
  destruct (w_nbits w <? 8) eqn:E8; [exists w, E; split; [done|]; split; [done|]; split; [lia|done]|].
  cbn [w_acc w_nbits w_out w_len].
  destruct (put_octet_spec (mk_hwr (w_acc w) (w_nbits w - 8) (w_out w) (w_len w)) dst E
              (u8 (Z.shiftr (w_acc w) (w_nbits w - 8))) Hw (u8_range _)) as (w1 & -> & Hw1 & Ea & En). osimpl.
  cbn [w_acc w_nbits] in Ea, En. destruct (IH w1 dst _ Hw1 ltac:(lia)) as (w' & E' & -> & Hw' & Hn' & Hb).
  exists w', E'. split; [done|]. split; [done|]. split; [done|]. rewrite Hb, octets_bits_app, <- app_assoc. f_equal.
  unfold octets_bits. cbn [map concat]. rewrite app_nil_r, bits_u8, Ea, En.
  replace (Z.to_nat (w_nbits w)) with (8 + Z.to_nat (w_nbits w - 8))%nat by lia. rewrite bits_app. by rewrite Z2Nat.id by lia.
Qed.

Lemma put_code_spec w dst E code L :
  whas w dst E -> 0 <= w_nbits w < 8 -> 0 <= L <= 30 -> 0 <= code < 2 ^ L ->
  exists w' E', put_code w code L = Some w' /\ whas w' dst E' /\ 0 <= w_nbits w' < 8 /\
    octets_bits E' ++ bits (Z.to_nat (w_nbits w')) (w_acc w') =
    octets_bits E ++ bits (Z.to_nat (w_nbits w)) (w_acc w) ++ bits (Z.to_nat L) code.
Proof.
  intros Hw Hn HL Hc. unfold put_code. rewrite (u32_small (w_nbits w + L)) by lia.
  destruct (flush_spec 8 (mk_hwr (Z.lor (u64 (Z.shiftl (w_acc w) L)) code) (w_nbits w + L) (w_out w) (w_len w)) dst E Hw)
    as (w' & E' & -> & Hw' & Hn' & Hb); [cbn; lia|].
  exists w', E'. split; [done|]. split; [done|]. split; [done|]. rewrite Hb. cbn [w_nbits w_acc]. f_equal.
  replace (Z.to_nat (w_nbits w + L)) with (Z.to_nat (w_nbits w) + Z.to_nat L)%nat by lia.
  rewrite <- (bits_append (Z.to_nat (w_nbits w)) (Z.to_nat L)) by (rewrite ?Z2Nat.id; lia). by rewrite Z2Nat.id by lia.
Qed.

Lemma lk_spec b :
  is_u8 b -> exists lk first, load huff_lk b = Some lk /\ load qpack_hfirst (Z.land lk 31) = Some first /\
    0 <= Z.land lk 31 <= 30 /\ 0 <= first + Z.shiftr lk 5 < 2 ^ Z.land lk 31 /\
    hcode b = bits (Z.to_nat (Z.land lk 31)) (first + Z.shiftr lk 5).
Proof.
  intros Hb. destruct (load_is_Some huff_lk b) as [lk Hlk]; [exact Hb|].
  pose proof lk_checks as H. rewrite forallb_forall in H.
  assert (In lk huff_lk) as Hin.
  { unfold load in Hlk. bcase in Hlk; [|done]. apply list_elem_of_In. by eapply list_elem_of_lookup_2. }
  specialize (H lk Hin). cbv beta zeta in H. unfold hcode. rewrite Hlk.
  destruct (load qpack_hfirst (Z.land lk 31)) as [first|] eqn:Ef; [|by rewrite andb_false_r in H].
  exists lk, first. do 2 (split; [done|]). split; [lia|]. split; [lia|done].
Qed.

Lemma put_codes_spec s : forall w dst E,
  bytes_ok s -> whas w dst E -> 0 <= w_nbits w < 8 ->
  exists w' E', put_codes w s = Some w' /\ whas w' dst E' /\ 0 <= w_nbits w' < 8 /\
    octets_bits E' ++ bits (Z.to_nat (w_nbits w')) (w_acc w') =
    octets_bits E ++ bits (Z.to_nat (w_nbits w)) (w_acc w) ++ hcodes s.
Proof.
  induction s as [|b s IH]; intros w dst E Hs Hw Hn; cbn [put_codes].
  { exists w, E. unfold hcodes. cbn. rewrite app_nil_r. do 2 (split; [done|]). by split. }
  apply bytes_ok_cons in Hs as [Hb Hs]. destruct (lk_spec b Hb) as (lk & first & -> & E1 & HL & Hc & Hcode). osimpl.
  rewrite E1. osimpl. assert (2 ^ Z.land lk 31 <= 2 ^ 30) by (apply Z.pow_le_mono_r; lia).
  rewrite u32_small by (change (2 ^ 30) with 1073741824 in *; lia).
  destruct (put_code_spec w dst E _ _ Hw Hn HL Hc) as (w1 & E1' & -> & Hw1 & Hn1 & Hb1). osimpl.
  destruct (IH w1 dst E1' Hs Hw1 Hn1) as (w2 & E2 & -> & Hw2 & Hn2 & Hb2).
  exists w2, E2. do 2 (split; [done|]). split; [done|]. by rewrite Hb2, app_assoc, Hb1, hcodes_cons, Hcode, <- !app_assoc.
Qed.

Lemma huffman_encode_spec s dst :
  bytes_ok s -> exists E, huff_of s E /\ qpack_huffman_encode s dst = Some (zlen E, overlay dst E).
Proof.
  intros Hs. unfold qpack_huffman_encode.
  destruct (put_codes_spec s (mk_hwr 0 0 dst 0) dst [] Hs) as (w & E & -> & Hw & Hn & Hb); [|cbn; lia|].
  { split; [done|]. split; [unfold overlay; by rewrite take_nil, drop_0|]. apply Forall_nil_2. }
  osimpl. rewrite (u32_small (8 - w_nbits w)) by lia. change 7 with (Z.ones 3). rewrite Z.land_ones by lia.
  change (2 ^ 3) with 8. set (pad := (8 - w_nbits w) mod 8).
  assert (0 <= pad < 8) as Hp by (apply Z.mod_pos_bound; lia).
  assert ((w_nbits w + pad) mod 8 = 0) as Hpad.
  { subst pad. rewrite Z.add_mod_idemp_r by lia. by replace (w_nbits w + (8 - w_nbits w)) with 8 by lia. }
  assert (1 <= 2 ^ pad <= 2 ^ 8) as Hpow by (split; [apply (Z.pow_le_mono_r 2 0)|apply Z.pow_le_mono_r]; lia).
  change (2 ^ 8) with 256 in Hpow. rewrite (u32_small (Z.shiftl 1 pad)) by (rewrite Z.shiftl_mul_pow2; lia).
  rewrite Z.shiftl_mul_pow2, Z.mul_1_l, u32_small by lia.
  destruct (put_code_spec w dst E (2 ^ pad - 1) pad Hw Hn) as (w' & E' & -> & (Hl' & Ho' & Hok') & Hn' & Hb'); [lia|lia|].
  osimpl. exists E'. rewrite Hl', Ho'. split; [|done]. split; [done|]. exists (Z.to_nat pad). split; [lia|].
  assert (w_nbits w' = 0) as E0.
  { pose proof (f_equal length Hb') as L. rewrite !length_app, !length_octets_bits, !length_bits in L.
    assert (w_nbits w' = w_nbits w + pad + 8 * (zlen E - zlen E')) as HL by (unfold zlen; lia).
    rewrite Z.mul_comm in HL. rewrite <- (Z.mod_small (w_nbits w') 8), HL, Z.mod_add by lia. done. }
  rewrite E0 in Hb'. cbn [bits Z.to_nat] in Hb'. rewrite app_nil_r in Hb'. rewrite Hb'.
  rewrite <- (Z2Nat.id pad) at 2 by lia. rewrite bits_ones. rewrite app_assoc. f_equal. rewrite Hb. done.
Qed.

Lemma huffman_decode_code s E dst :
  bytes_ok s -> huff_of s E ->
  qpack_huffman_decode E dst = if zlen s <=? ocap dst then Ok (mk_obuf (splice (op dst) 0 s) (zlen s)) else Fail.
Proof.
  intros Hs (Hb & p & Hp & HE). unfold qpack_huffman_decode, ocap. rewrite feed_spec, HE, feed_bits_app.
  destruct (decode_codes s (op dst) 0 Hs) as (c & -> & Hc); [pose proof (zlen_nonneg (op dst)); lia|]. osimpl.
  rewrite Z.add_0_l in Hc. destruct (zlen s <=? zlen (op dst)).
  - subst c. rewrite (feed_walk _ (mk_hctx 0 0 (splice (op dst) 0 s) (zlen s) true) _ eq_refl (hwalk_pad p Hp)). cbn [hdo h_out h_olen h_ok]. unfold decode_ok, pad_valid.
    cbn [h_ok h_nbits h_acc h_out h_olen]. rewrite Z.shiftl_mul_pow2, Z.mul_1_l by lia.
    assert (1 <= 2 ^ Z.of_nat p <= 2 ^ 8) as Hpow by (split; [apply (Z.pow_le_mono_r 2 0)|apply Z.pow_le_mono_r]; lia).
    change (2 ^ 8) with 256 in Hpow. rewrite (u32_small (2 ^ Z.of_nat p)), u32_small, Z.eqb_refl, orb_true_r by lia.
    replace (Z.of_nat p <? 8) with true by lia. done.
  - rewrite feed_bits_bad by done. unfold decode_ok. by rewrite Hc.
Qed.

Lemma huffman_decode_sound E dst :
  bytes_ok E ->
  match qpack_huffman_decode E dst with
  | Ok d => exists s, bytes_ok s /\ huff_of s E /\ zlen s <= ocap dst /\ d = mk_obuf (splice (op dst) 0 s) (zlen s)
  | Fail => True
  | Oob => False
  end.
Proof.
  intros HE. unfold qpack_huffman_decode, ocap. rewrite feed_spec.
  destruct (feed_bits_sound (octets_bits E) (mk_hctx 0 0 (op dst) 0 true) []) as (c & -> & Hz & Hc); [done| | |].
  { split; [done|]. by split. }
  { cbn. pose proof (zlen_nonneg (op dst)). lia. }
  unfold decode_ok. destruct (h_ok c); [|done]. destruct (pad_valid c) eqn:Ep; [|done]. cbn [andb].
  destruct (Hc eq_refl) as (s & pend & Eb & (En & Ha & Hl & Hpb) & Hs & Eo & Hle & Esp). cbn in Eo, Esp, Eb, Hle. exists s.
  split; [done|]. split; [|by rewrite Esp, Eo, Z.add_0_l in *].
  split; [done|]. unfold pad_valid in Ep. exists (length pend). split; [lia|]. rewrite Eb. f_equal.
  rewrite <- (bits_ones (length pend)), <- Hpb at 1. f_equal. rewrite En in *.
  assert (1 <= 2 ^ Z.of_nat (length pend) <= 2 ^ 8) as Hpow by (split; [apply (Z.pow_le_mono_r 2 0)|apply Z.pow_le_mono_r]; lia).
  change (2 ^ 8) with 256 in Hpow. rewrite Z.shiftl_mul_pow2, Z.mul_1_l in Ep by lia.
  rewrite (u32_small (2 ^ Z.of_nat _)), u32_small in Ep by lia.
  destruct (Z.of_nat (length pend) =? 0) eqn:E0; [|lia]. replace (Z.of_nat (length pend)) with 0 in * by lia. change (2 ^ 0) with 1 in *. lia.
Qed.

(** C38: the Huffman decoder and encoder are inverse.  The encoder codes every byte string, whatever the size of its
    output buffer, in which it leaves as much of the code as fits; an input is decoded to a string exactly when it is
    that string's code and the string fits the output buffer; whatever bytes come in, the decoder reads and writes
    inside its tables and buffers. *)
Theorem huffman_exact (dst : obuf) :
  (forall s, bytes_ok s -> exists E, bytes_ok E /\
     (forall out, qpack_huffman_encode s out = Some (zlen E, overlay out E)) /\
     (qpack_huffman_decode E dst =
        if zlen s <=? ocap dst then Ok (mk_obuf (splice (op dst) 0 s) (zlen s)) else Fail)) /\
  (forall E, bytes_ok E ->
     match qpack_huffman_decode E dst with
     | Ok d => bytes_ok (owritten d) /\ qpack_huffman_encode (owritten d) (replicate (length E) 0) = Some (zlen E, E)
     | Fail => True
     | Oob => False
     end).
Proof.
  split.
  - intros s Hs. destruct (huffman_encode_spec s [] Hs) as (E & HE & _). exists E. split; [apply HE|].
    split; [|by apply huffman_decode_code]. intros out. destruct (huffman_encode_spec s out Hs) as (E' & HE' & ->).
    by rewrite (huff_of_fun s E E').
  - intros E HE. pose proof (huffman_decode_sound E dst HE) as H. destruct (qpack_huffman_decode E dst) as [d| |]; try done.
    destruct H as (s & Hs & Hof & Hfit & ->). unfold owritten. cbn [op olen]. rewrite splice_0_take by done. split; [done|].
    destruct (huffman_encode_spec s (replicate (length E) 0) Hs) as (E' & HE' & ->). rewrite (huff_of_fun s E' E) by done.
    rewrite overlay_fits by (unfold zlen; by rewrite length_replicate). unfold splice. cbn.
    by rewrite drop_ge, app_nil_r by (by rewrite length_replicate).
Qed.
