(* ===== verification/QpackStr.v ===== *)
(** * QPACK integers, strings and field line representations

    src/src/app/qpack/qpack/integer.c, string.c, prefix.c, fieldline.c,
    literal.c, instruction.c (RFC 9204 4.1, 4.3 - 4.5).  Every encoder writes
    the whole representation or returns 0 inside its buffer, and every decoder
    returns what was encoded and the exact length. *)

From stdpp Require Import base numbers list option.
From Stdlib Require Import ZArith Lia.
From S2P Require Import Prelude Bytes QpackHuff.

(** ** integer.c *)

(* src/src/app/qpack/qpack/integer.h : qpack_pfx *)
Record qpack_pfx := mk_pfx { pfx_bits : Z; pfx_pattern : Z }.

(* src/src/app/qpack/qpack/integer.c : prefix_max *)
Definition prefix_max (prefix_bits : Z) : Z := u64 (u64 (Z.shiftl 1 prefix_bits) - 1).

(* src/src/app/qpack/qpack/integer.c : put_byte *)
Definition qint_put_byte (b : Z) : W := fun o =>
  if ocap o <=? olen o then Some (false, o)
  else p ← store (op o) (olen o) b; Some (true, mk_obuf p (olen o + 1)).

(* src/src/app/qpack/qpack/integer.c : more_groups *)
Definition more_groups (v : Z) : bool := 0x80 <=? v.

(** The loop of put_groups: the success of the last write, what is left of the
    value, and the buffer. *)
Fixpoint put_groups_loop (fuel : nat) (v : Z) (ok : bool) (o : obuf) : option (bool * Z * obuf) :=
  if negb (more_groups v) then Some (ok, v, o)
  else
    match fuel with
    | O => None
    | S f =>
        '(ok, o) ← qint_put_byte (Z.lor (u8 (Z.land v 0x7f)) 0x80) o;
        put_groups_loop f (Z.shiftr v 7) ok o
    end.

(* src/src/app/qpack/qpack/integer.c : put_groups *)
Definition put_groups (v : Z) : W := fun o =>
  '(ok, v, o) ← put_groups_loop 10 v true o;
  '(b, o) ← qint_put_byte (u8 v) o;
  Some (b && ok, o).

(* src/src/app/qpack/qpack/integer.c : prefix_byte *)
Definition prefix_byte (value pmax : Z) : Z := if value <? pmax then u8 value else u8 pmax.

(* src/src/app/qpack/qpack/integer.c : encode_body *)
Definition encode_body (value pmax : Z) : W := if value <? pmax then wtrue else put_groups (u64 (value - pmax)).

(* src/src/app/qpack/qpack/integer.c : qpack_int_encode *)
Definition qpack_int_encode (buf : list Z) (pfx : qpack_pfx) (value : Z) : option (Z * list Z) :=
  let pmax := prefix_max (pfx_bits pfx) in
  wrun (qint_put_byte (Z.lor (pfx_pattern pfx) (prefix_byte value pmax)) ;& encode_body value pmax) buf.

(** The cursor's accumulator is passed along: [take_group] returns it with the
    continuation flag. *)
(* src/src/app/qpack/qpack/integer.c : take_group *)
Definition take_group (m value : Z) : R (Z * bool) := fun inp off =>
  if (zlen inp <=? off) || (56 <? m) then Fail
  else
    match load inp off with
    | None => Oob
    | Some b => Ok (u64 (value + u64 (Z.shiftl (Z.land b 0x7f) m)), negb (Z.land b 0x80 =? 0), off + 1)
    end.

Fixpoint take_groups_loop (fuel : nat) (m value : Z) : R Z := fun inp off =>
  match fuel with
  | O => Oob
  | S f =>
      match take_group m value inp off with
      | Ok (v, go, off') => if go then take_groups_loop f (u64 (m + 7)) v inp off' else Ok (v, off')
      | Fail => Fail
      | Oob => Oob
      end
  end.

(* src/src/app/qpack/qpack/integer.c : take_groups *)
Definition take_groups (value : Z) : R Z := take_groups_loop 10 0 value.

(* src/src/app/qpack/qpack/integer.c : decode_body *)
Definition decode_body (value pmax : Z) : R Z := fun inp off =>
  if value <? pmax then Ok (value, off) else take_groups value inp off.

(** The decoded value and the bytes consumed. *)
(* src/src/app/qpack/qpack/integer.c : qpack_int_decode *)
Definition qpack_int_decode (buf : list Z) (prefix_bits : Z) : res (Z * Z) :=
  let pmax := prefix_max prefix_bits in
  if zlen buf =? 0 then Fail
  else match load buf 0 with None => Oob | Some b => decode_body (Z.land b pmax) pmax buf 1 end.

(** ** Sub-buffers

    [wired_mspan_of(buf.p + off, buf.n - off)]: an encoder runs on the rest of
    the buffer; what it returns goes back behind the first [off] bytes. *)
Definition enc_at (off : Z) (enc : list Z -> option (Z * list Z)) (buf : list Z) : option (Z * list Z) :=
  '(w, t) ← enc (drop (Z.to_nat off) buf); Some (w, take (Z.to_nat off) buf ++ t).

(** ** string.c *)

(* src/src/app/qpack/qpack/string.c : str_put_raw *)
Definition str_put_raw (buf src : list Z) (pfx : qpack_pfx) : option (Z * list Z) :=
  '(off, buf) ← qpack_int_encode buf pfx (zlen src);
  if off =? 0 then Some (0, buf)
  else '(ok, o) ← bytes_put src (zlen src) (mk_obuf buf off); Some (if (ok : bool) then olen o else 0, op o).

(* src/src/app/qpack/qpack/string.c : str_put_huff *)
Definition str_put_huff (buf src : list Z) (hn : Z) (pfx : qpack_pfx) : option (Z * list Z) :=
  let pfx := mk_pfx (pfx_bits pfx) (u8 (Z.lor (pfx_pattern pfx) (Z.shiftl 1 (pfx_bits pfx)))) in
  '(off, buf) ← qpack_int_encode buf pfx hn;
  if (off =? 0) || (zlen buf - off <? hn) then Some (0, buf)
  else
    '(_, t) ← qpack_huffman_encode src (take (Z.to_nat hn) (drop (Z.to_nat off) buf));
    Some (off + hn, splice buf off t).

(* src/src/app/qpack/qpack/string.c : qpack_string_encode_pfx *)
Definition qpack_string_encode_pfx (buf src : list Z) (pfx : qpack_pfx) : option (Z * list Z) :=
  '(hn, _) ← qpack_huffman_encode src [];
  if hn <? zlen src then str_put_huff buf src hn pfx else str_put_raw buf src pfx.

(* src/src/app/qpack/qpack/string.c : qpack_string_encode *)
Definition qpack_string_encode (buf src : list Z) : option (Z * list Z) := qpack_string_encode_pfx buf src (mk_pfx 7 0).

(* src/src/app/qpack/qpack/string.c : qstr_head *)
Record qstr_head := mk_qstr_head { qh_off : Z; qh_len : Z; qh_huff : bool }.

(* src/src/app/qpack/qpack/string.c : take_header *)
Definition take_header (buf : list Z) (bits : Z) : res qstr_head :=
  if zlen buf =? 0 then Fail
  else
    match load buf 0 with
    | None => Oob
    | Some b0 =>
        match qpack_int_decode buf bits with
        | Ok (v, used) => Ok (mk_qstr_head used v (negb (Z.land (Z.shiftr b0 bits) 1 =? 0)))
        | Fail => Fail
        | Oob => Oob
        end
    end.

(* src/src/app/qpack/qpack/string.c : str_raw *)
Definition str_raw (oct : list Z) (dst : obuf) : res obuf :=
  if ocap dst <? zlen oct then Fail
  else
    match bytes_take (op dst) (zlen oct) oct 0 with
    | Ok (p, _) => Ok (mk_obuf p (zlen oct))
    | Fail => Fail
    | Oob => Oob
    end.

(* src/src/app/qpack/qpack/string.c : str_value *)
Definition str_value (buf : list Z) (h : qstr_head) (dst : obuf) : res obuf :=
  if zlen buf <? u64 (qh_off h + qh_len h) then Fail
  else
    let oct := take (Z.to_nat (qh_len h)) (drop (Z.to_nat (qh_off h)) buf) in
    if qh_huff h then qpack_huffman_decode oct dst else str_raw oct dst.

(* src/src/app/qpack/qpack/string.c : qpack_string_decode_pfx *)
Definition qpack_string_decode_pfx (buf : list Z) (bits : Z) (dst : obuf) : res (obuf * Z) :=
  match take_header buf bits with
  | Ok h =>
      match str_value buf h dst with
      | Ok d => Ok (d, u64 (qh_off h + qh_len h))
      | Fail => Fail
      | Oob => Oob
      end
  | Fail => Fail
  | Oob => Oob
  end.

(* src/src/app/qpack/qpack/string.c : qpack_string_decode *)
Definition qpack_string_decode (buf : list Z) (dst : obuf) : res (obuf * Z) := qpack_string_decode_pfx buf 7 dst.

(** ** prefix.c *)

(* src/src/app/qpack/qpack/prefix.h : qpack_prefix *)
Record qpack_prefix := mk_prefix { required_insert_count : Z; pf_sign : Z; delta_base : Z }.

(* src/src/app/qpack/qpack/prefix.c : PREFIX_SIGN_BIT *)
Definition PREFIX_SIGN_BIT : Z := 0x80.

(* src/src/app/qpack/qpack/prefix.c : sign_prefix *)
Definition sign_prefix (sign : Z) : Z := if negb (sign =? 0) then PREFIX_SIGN_BIT else 0.

(* src/src/app/qpack/qpack/prefix.c : prefix_join *)
Definition prefix_join (off w : Z) : Z := if negb (off =? 0) && negb (w =? 0) then off + w else 0.

(* src/src/app/qpack/qpack/prefix.c : qpack_prefix_encode *)
Definition qpack_prefix_encode (buf : list Z) (p : qpack_prefix) : option (Z * list Z) :=
  '(off, buf) ← qpack_int_encode buf (mk_pfx 8 0) (required_insert_count p);
  '(w, buf) ← (if negb (off =? 0)
                then enc_at off (fun b => qpack_int_encode b (mk_pfx 7 (sign_prefix (pf_sign p))) (delta_base p)) buf
                else Some (0, buf));
  Some (prefix_join off w, buf).

(* src/src/app/qpack/qpack/prefix.c : qpack_prefix_decode *)
Definition qpack_prefix_decode (buf : list Z) : res (qpack_prefix * Z) :=
  match qpack_int_decode buf 8 with
  | Ok (ric, off) =>
      match load buf off with
      | None => Oob
      | Some b =>
          let sign := if negb (Z.land b PREFIX_SIGN_BIT =? 0) then 1 else 0 in
          match qpack_int_decode (drop (Z.to_nat off) buf) 7 with
          | Ok (db, w) => Ok (mk_prefix ric sign db, prefix_join off w)
          | Fail => Fail
          | Oob => Oob
          end
      end
  | Fail => Fail
  | Oob => Oob
  end.

(** ** fieldline.c *)

(* src/src/app/qpack/qpack/fieldline.c : QPACK_INDEXED *)
Definition QPACK_INDEXED : Z := 0x80.
(* src/src/app/qpack/qpack/fieldline.c : QPACK_STATIC *)
Definition QPACK_STATIC : Z := 0x40.

(* src/src/app/qpack/qpack/fieldline.c : indexed_prefix *)
Definition indexed_prefix (is_static : bool) : Z := Z.lor QPACK_INDEXED (if is_static then QPACK_STATIC else 0).

(* src/src/app/qpack/qpack/fieldline.c : qpack_indexed_encode *)
Definition qpack_indexed_encode (buf : list Z) (index : Z) (is_static : bool) : option (Z * list Z) :=
  qpack_int_encode buf (mk_pfx 6 (indexed_prefix is_static)) index.

(** The first byte of a view, when it has one. *)
Definition first_byte (buf : list Z) (test : Z -> bool) : bool :=
  match buf with [] => false | b :: _ => test b end.

(* src/src/app/qpack/qpack/fieldline.c : is_indexed *)
Definition is_indexed (buf : list Z) : bool := first_byte buf (fun b => negb (Z.land b QPACK_INDEXED =? 0)).

(* src/src/app/qpack/qpack/fieldline.c : qpack_indexed_decode *)
Definition qpack_indexed_decode (buf : list Z) : res (Z * bool * Z) :=
  if negb (is_indexed buf) then Fail
  else
    match load buf 0 with
    | None => Oob
    | Some b =>
        match qpack_int_decode buf 6 with
        | Ok (index, n) => Ok (index, negb (Z.land b QPACK_STATIC =? 0), n)
        | Fail => Fail
        | Oob => Oob
        end
    end.

(* src/src/app/qpack/qpack/fieldline.c : QPACK_POSTBASE_PATTERN *)
Definition QPACK_POSTBASE_PATTERN : Z := 0x10.
(* src/src/app/qpack/qpack/fieldline.c : QPACK_POSTBASE_MASK *)
Definition QPACK_POSTBASE_MASK : Z := 0xf0.

(* src/src/app/qpack/qpack/fieldline.c : qpack_indexed_postbase_encode *)
Definition qpack_indexed_postbase_encode (buf : list Z) (postbase : Z) : option (Z * list Z) :=
  qpack_int_encode buf (mk_pfx 4 QPACK_POSTBASE_PATTERN) postbase.

(* src/src/app/qpack/qpack/fieldline.c : is_postbase_indexed *)
Definition is_postbase_indexed (buf : list Z) : bool :=
  first_byte buf (fun b => Z.land b QPACK_POSTBASE_MASK =? QPACK_POSTBASE_PATTERN).

(* src/src/app/qpack/qpack/fieldline.c : qpack_indexed_postbase_decode *)
Definition qpack_indexed_postbase_decode (buf : list Z) : res (Z * Z) :=
  if negb (is_postbase_indexed buf) then Fail else qpack_int_decode buf 4.

(** ** literal.c *)

(* src/src/app/qpack/qpack/literal.h : qpack_nameref *)
Record qpack_nameref := mk_nameref { nr_index : Z; nr_static : bool; nr_never : bool }.
(* src/src/app/qpack/qpack/literal.h : qpack_postbaseref *)
Record qpack_postbaseref := mk_postbaseref { pr_index : Z; pr_never : bool }.
(* src/src/app/qpack/qpack/field.h : qpack_field *)
Record qpack_field := mk_field { f_name : list Z; f_value : list Z }.
(* src/src/app/qpack/qpack/field.h : qpack_fieldbuf *)
Record qpack_fieldbuf := mk_fieldbuf { fb_name : obuf; fb_value : obuf }.

(* src/src/app/qpack/qpack/literal.c : QPACK_NAMREF *)
Definition QPACK_NAMREF : Z := 0x40.
(* src/src/app/qpack/qpack/literal.c : QPACK_NAMREF_N *)
Definition QPACK_NAMREF_N : Z := 0x20.
(* src/src/app/qpack/qpack/literal.c : QPACK_NAMREF_T *)
Definition QPACK_NAMREF_T : Z := 0x10.
(* src/src/app/qpack/qpack/literal.c : QPACK_LITNAME *)
Definition QPACK_LITNAME : Z := 0x20.
(* src/src/app/qpack/qpack/literal.c : QPACK_LITNAME_N *)
Definition QPACK_LITNAME_N : Z := 0x10.
(* src/src/app/qpack/qpack/literal.c : QPACK_LITNAME_H *)
Definition QPACK_LITNAME_H : Z := 0x08.

(* src/src/app/qpack/qpack/literal.c : join *)
Definition join (off w : Z) : Z := if negb (off =? 0) && negb (w =? 0) then off + w else 0.
(* src/src/app/qpack/qpack/literal.c : flag *)
Definition flag (b mask : Z) : bool := negb (Z.land b mask =? 0).
(* src/src/app/qpack/qpack/literal.c : bit *)
Definition bit (set : bool) (mask : Z) : Z := if set then mask else 0.
(* src/src/app/qpack/qpack/literal.c : tail_span *)
Definition tail_span (buf : list Z) (off : Z) : list Z := drop (Z.to_nat off) buf.

(** The header's value and its end come from a decoder; an [Ok] has a non-zero
    length. *)
(* src/src/app/qpack/qpack/literal.c : decode_value *)
Definition decode_value {A} (buf : list Z) (head : res (A * Z)) (val : obuf) : res (A * obuf * Z) :=
  match head with
  | Ok (a, off) =>
      match qpack_string_decode (tail_span buf off) val with
      | Ok (v, w) => Ok (a, v, join off w)
      | Fail => Fail
      | Oob => Oob
      end
  | Fail => Fail
  | Oob => Oob
  end.

(* src/src/app/qpack/qpack/literal.c : encode_value *)
Definition encode_value (buf : list Z) (off : Z) (value : list Z) : option (Z * list Z) :=
  '(w, buf) ← (if negb (off =? 0) then enc_at off (fun b => qpack_string_encode b value) buf else Some (0, buf));
  Some (join off w, buf).

(* src/src/app/qpack/qpack/literal.c : namref_prefix *)
Definition namref_prefix (r : qpack_nameref) : Z :=
  Z.lor (Z.lor QPACK_NAMREF (bit (nr_never r) QPACK_NAMREF_N)) (bit (nr_static r) QPACK_NAMREF_T).

(* src/src/app/qpack/qpack/literal.c : qpack_literal_namref_encode *)
Definition qpack_literal_namref_encode (buf : list Z) (r : qpack_nameref) (value : list Z) : option (Z * list Z) :=
  '(off, buf) ← qpack_int_encode buf (mk_pfx 4 (namref_prefix r)) (nr_index r);
  encode_value buf off value.

(* src/src/app/qpack/qpack/literal.c : is_namref *)
Definition is_namref (buf : list Z) : bool := first_byte buf (fun b => Z.land b 0xc0 =? QPACK_NAMREF).

(* src/src/app/qpack/qpack/literal.c : qpack_literal_namref_head *)
Definition qpack_literal_namref_head (buf : list Z) : res (qpack_nameref * Z) :=
  if negb (is_namref buf) then Fail
  else
    match load buf 0 with
    | None => Oob
    | Some b =>
        match qpack_int_decode buf 4 with
        | Ok (i, n) => Ok (mk_nameref i (flag b QPACK_NAMREF_T) (flag b QPACK_NAMREF_N), n)
        | Fail => Fail
        | Oob => Oob
        end
    end.

(* src/src/app/qpack/qpack/literal.c : qpack_literal_namref_decode *)
Definition qpack_literal_namref_decode (buf : list Z) (val : obuf) : res (qpack_nameref * obuf * Z) :=
  decode_value buf (qpack_literal_namref_head buf) val.

(* src/src/app/qpack/qpack/literal.c : litname_name_encode *)
Definition litname_name_encode (buf : list Z) (never : bool) (name : list Z) : option (Z * list Z) :=
  qpack_string_encode_pfx buf name (mk_pfx 3 (Z.lor QPACK_LITNAME (bit never QPACK_LITNAME_N))).

(* src/src/app/qpack/qpack/literal.c : qpack_literal_name_encode *)
Definition qpack_literal_name_encode (buf : list Z) (never : bool) (f : qpack_field) : option (Z * list Z) :=
  '(off, buf) ← litname_name_encode buf never (f_name f);
  encode_value buf off (f_value f).

(* src/src/app/qpack/qpack/literal.c : is_litname *)
Definition is_litname (buf : list Z) : bool := first_byte buf (fun b => Z.land b 0xe0 =? QPACK_LITNAME).

(* src/src/app/qpack/qpack/literal.c : name_raw *)
Definition name_raw (oct : list Z) (nm : obuf) : res obuf :=
  if ocap nm <? zlen oct then Fail
  else
    match bytes_take (op nm) (zlen oct) oct 0 with
    | Ok (p, _) => Ok (mk_obuf p (zlen oct))
    | Fail => Fail
    | Oob => Oob
    end.

(* src/src/app/qpack/qpack/literal.c : name_octets *)
Definition name_octets (oct : list Z) (huff : bool) (nm : obuf) : res obuf :=
  if huff then qpack_huffman_decode oct nm else name_raw oct nm.

(* src/src/app/qpack/qpack/literal.c : litname_bounds *)
Definition litname_bounds (off len n : Z) : bool := negb (off =? 0) && (u64 (off + len) <=? n).

(* src/src/app/qpack/qpack/literal.c : litname_name_decode *)
Definition litname_name_decode (buf : list Z) (huff : bool) (nm : obuf) : res (obuf * Z) :=
  match qpack_int_decode buf 3 with
  | Ok (len, off) =>
      if negb (litname_bounds off len (zlen buf)) then Fail
      else
        match name_octets (take (Z.to_nat len) (drop (Z.to_nat off) buf)) huff nm with
        | Ok d => Ok (d, u64 (off + len))
        | Fail => Fail
        | Oob => Oob
        end
  | Fail => Fail
  | Oob => Oob
  end.

(* src/src/app/qpack/qpack/literal.c : qpack_literal_name_decode *)
Definition qpack_literal_name_decode (buf : list Z) (out : qpack_fieldbuf) : res (bool * qpack_fieldbuf * Z) :=
  if negb (is_litname buf) then Fail
  else
    match load buf 0 with
    | None => Oob
    | Some b =>
        match decode_value buf (litname_name_decode buf (flag b QPACK_LITNAME_H) (fb_name out)) (fb_value out) with
        | Ok (nm, v, n) => Ok (flag b QPACK_LITNAME_N, mk_fieldbuf nm v, n)
        | Fail => Fail
        | Oob => Oob
        end
    end.

(* src/src/app/qpack/qpack/literal.c : QPACK_POSTBASEREF_MASK *)
Definition QPACK_POSTBASEREF_MASK : Z := 0xf0.
(* src/src/app/qpack/qpack/literal.c : QPACK_POSTBASEREF_PATTERN *)
Definition QPACK_POSTBASEREF_PATTERN : Z := 0x00.
(* src/src/app/qpack/qpack/literal.c : QPACK_POSTBASEREF_N *)
Definition QPACK_POSTBASEREF_N : Z := 0x08.

(* src/src/app/qpack/qpack/literal.c : postbaseref_prefix *)
Definition postbaseref_prefix (r : qpack_postbaseref) : Z :=
  Z.lor QPACK_POSTBASEREF_PATTERN (bit (pr_never r) QPACK_POSTBASEREF_N).

(* src/src/app/qpack/qpack/literal.c : qpack_literal_postbase_encode *)
Definition qpack_literal_postbase_encode (buf : list Z) (r : qpack_postbaseref) (value : list Z) : option (Z * list Z) :=
  '(off, buf) ← qpack_int_encode buf (mk_pfx 3 (postbaseref_prefix r)) (pr_index r);
  encode_value buf off value.

(* src/src/app/qpack/qpack/literal.c : is_postbaseref *)
Definition is_postbaseref (buf : list Z) : bool :=
  first_byte buf (fun b => Z.land b QPACK_POSTBASEREF_MASK =? QPACK_POSTBASEREF_PATTERN).

(* src/src/app/qpack/qpack/literal.c : qpack_literal_postbase_head *)
Definition qpack_literal_postbase_head (buf : list Z) : res (qpack_postbaseref * Z) :=
  if negb (is_postbaseref buf) then Fail
  else
    match load buf 0 with
    | None => Oob
    | Some b =>
        match qpack_int_decode buf 3 with
        | Ok (i, n) => Ok (mk_postbaseref i (flag b QPACK_POSTBASEREF_N), n)
        | Fail => Fail
        | Oob => Oob
        end
    end.

(* src/src/app/qpack/qpack/literal.c : qpack_literal_postbase_decode *)
Definition qpack_literal_postbase_decode (buf : list Z) (val : obuf) : res (qpack_postbaseref * obuf * Z) :=
  decode_value buf (qpack_literal_postbase_head buf) val.

(** ** instruction.c *)

(* src/src/app/qpack/qpack/instruction.h : qpack_enc_kind *)
Inductive qpack_enc_kind :=
  | QPACK_ENC_SET_CAPACITY | QPACK_ENC_INSERT_NAME_REF | QPACK_ENC_INSERT_LITERAL | QPACK_ENC_DUPLICATE.
(* src/src/app/qpack/qpack/instruction.h : qpack_dec_kind *)
Inductive qpack_dec_kind := QPACK_DEC_SECTION_ACK | QPACK_DEC_STREAM_CANCEL | QPACK_DEC_INSERT_COUNT.

(* src/src/app/qpack/qpack/instruction.c : instr_spec *)
Record instr_spec := mk_spec { is_pattern : Z; is_mask : Z; is_prefix_bits : Z }.

(* src/src/app/qpack/qpack/instruction.c : enc_specs *)
Definition enc_specs : list instr_spec := [mk_spec 0x20 0xe0 5; mk_spec 0x80 0x80 6; mk_spec 0x40 0xc0 5; mk_spec 0x00 0xe0 5].
(* src/src/app/qpack/qpack/instruction.c : dec_specs *)
Definition dec_specs : list instr_spec := [mk_spec 0x80 0x80 7; mk_spec 0x40 0xc0 6; mk_spec 0x00 0xc0 6].

(** The enumerations as C numbers them. *)
Definition enc_kind_index (k : qpack_enc_kind) : Z :=
  match k with
  | QPACK_ENC_SET_CAPACITY => 0 | QPACK_ENC_INSERT_NAME_REF => 1 | QPACK_ENC_INSERT_LITERAL => 2 | QPACK_ENC_DUPLICATE => 3
  end.
Definition enc_kind_of (i : Z) : qpack_enc_kind :=
  if i =? 0 then QPACK_ENC_SET_CAPACITY else if i =? 1 then QPACK_ENC_INSERT_NAME_REF
  else if i =? 2 then QPACK_ENC_INSERT_LITERAL else QPACK_ENC_DUPLICATE.
Definition dec_kind_index (k : qpack_dec_kind) : Z :=
  match k with QPACK_DEC_SECTION_ACK => 0 | QPACK_DEC_STREAM_CANCEL => 1 | QPACK_DEC_INSERT_COUNT => 2 end.
Definition dec_kind_of (i : Z) : qpack_dec_kind :=
  if i =? 0 then QPACK_DEC_SECTION_ACK else if i =? 1 then QPACK_DEC_STREAM_CANCEL else QPACK_DEC_INSERT_COUNT.

(* src/src/app/qpack/qpack/instruction.c : instr_encode *)
Definition instr_encode (buf : list Z) (s : instr_spec) (value : Z) : option (Z * list Z) :=
  qpack_int_encode buf (mk_pfx (is_prefix_bits s) (is_pattern s)) value.

(* src/src/app/qpack/qpack/instruction.c : spec_matches *)
Definition spec_matches (s : instr_spec) (b : Z) : bool := Z.land b (is_mask s) =? is_pattern s.

(* src/src/app/qpack/qpack/instruction.c : spec_classify *)
Fixpoint spec_classify (specs : list instr_spec) (b : Z) : Z :=
  match specs with
  | [] => 0
  | s :: specs' => if spec_matches s b then 0 else 1 + spec_classify specs' b
  end.

(* src/src/app/qpack/qpack/instruction.c : instr_decode *)
Definition instr_decode (buf : list Z) (specs : list instr_spec) : res (Z * Z * Z) :=
  if zlen buf =? 0 then Fail
  else
    match load buf 0 with
    | None => Oob
    | Some b =>
        let kind := spec_classify specs b in
        if zlen specs <=? kind then Fail
        else
          match load specs kind with
          | None => Oob
          | Some s =>
              match qpack_int_decode buf (is_prefix_bits s) with
              | Ok (v, n) => Ok (kind, v, n)
              | Fail => Fail
              | Oob => Oob
              end
          end
    end.

(* src/src/app/qpack/qpack/instruction.c : qpack_enc_instr_encode *)
Definition qpack_enc_instr_encode (buf : list Z) (kind : qpack_enc_kind) (value : Z) : option (Z * list Z) :=
  s ← load enc_specs (enc_kind_index kind); instr_encode buf s value.

(* src/src/app/qpack/qpack/instruction.c : qpack_enc_instr_decode *)
Definition qpack_enc_instr_decode (buf : list Z) : res (qpack_enc_kind * Z * Z) :=
  match instr_decode buf enc_specs with Ok (k, v, n) => Ok (enc_kind_of k, v, n) | Fail => Fail | Oob => Oob end.

(* src/src/app/qpack/qpack/instruction.c : qpack_dec_instr_encode *)
Definition qpack_dec_instr_encode (buf : list Z) (kind : qpack_dec_kind) (value : Z) : option (Z * list Z) :=
  s ← load dec_specs (dec_kind_index kind); instr_encode buf s value.

(* src/src/app/qpack/qpack/instruction.c : qpack_dec_instr_decode *)
Definition qpack_dec_instr_decode (buf : list Z) : res (qpack_dec_kind * Z * Z) :=
  match instr_decode buf dec_specs with Ok (k, v, n) => Ok (dec_kind_of k, v, n) | Fail => Fail | Oob => Oob end.

(** ** Specifications of buffer encoders and view decoders *)

(** [enc] writes exactly [l] at the front of the buffer, or returns 0 inside it. *)
Definition espec (enc : list Z -> option (Z * list Z)) (l : list Z) : Prop :=
  0 < zlen l /\
  forall buf, zlen buf < span_max ->
  if zlen l <=? zlen buf then enc buf = Some (zlen l, splice buf 0 l)
  else exists buf', enc buf = Some (0, buf') /\ zlen buf' = zlen buf.

(** [dec] reads exactly [l], whatever follows it, as a value in [Q]. *)
Definition dspec {A} (dec : list Z -> res (A * Z)) (l : list Z) (Q : A -> Prop) : Prop :=
  forall post, zlen (l ++ post) < span_max -> exists a, dec (l ++ post) = Ok (a, zlen l) /\ Q a.

(** [dec] stays inside any view and consumes at least one byte. *)
Definition dsafe {A} (dec : list Z -> res (A * Z)) (P : A -> Prop) : Prop :=
  forall buf, span_ok buf ->
  match dec buf with Ok (a, n) => 1 <= n <= zlen buf /\ P a | Fail => True | Oob => False end.

Lemma espec_wrun w l : wspec w (Some l) -> 0 < zlen l -> espec (wrun w) l.
Proof.
  intros Hw Hl. split; [done|]. intros buf Hb. destruct (wrun_spec w _ buf Hw Hb) as [(bs & [= <-] & Hf & ->)|(Hn & buf' & -> & Hz)].
  - by replace (zlen l <=? zlen buf) with true by lia.
  - specialize (Hn l eq_refl). replace (zlen l <=? zlen buf) with false by lia. eauto.
Qed.

Lemma espec_ext e e' l : (forall buf, e buf = e' buf) -> espec e l -> espec e' l.
Proof. intros H [Hl He]. split; [done|]. intros buf Hb. rewrite <- H. by apply He. Qed.

Lemma splice_drop (S l : list Z) n : take (Z.to_nat n) S ++ splice (drop (Z.to_nat n) S) 0 l = splice S n l.
Proof. unfold splice. by rewrite drop_drop. Qed.

Lemma splice_whole (S l : list Z) : zlen l = zlen S -> splice S 0 l = l.
Proof. unfold zlen, splice. intros H. cbn. rewrite drop_ge by lia. by rewrite app_nil_r. Qed.

(** An encoder over the rest of the buffer. *)
Lemma enc_at_spec e l buf l0 :
  espec e l -> zlen buf < span_max -> zlen l0 <= zlen buf ->
  if zlen l0 + zlen l <=? zlen buf
  then enc_at (zlen l0) e (splice buf 0 l0) = Some (zlen l, splice buf 0 (l0 ++ l))
  else exists buf', enc_at (zlen l0) e (splice buf 0 l0) = Some (0, buf') /\ zlen buf' = zlen buf.
Proof.
  intros [Hl He] Hb Hl0. unfold enc_at. pose proof (zlen_nonneg l0) as Hz0.
  assert (zlen (splice buf 0 l0) = zlen buf) as Hzs by (apply zlen_splice; lia).
  assert (zlen (drop (Z.to_nat (zlen l0)) (splice buf 0 l0)) = zlen buf - zlen l0) as Hzd by (rewrite zlen_drop; lia).
  assert (zlen (take (Z.to_nat (zlen l0)) (splice buf 0 l0)) = zlen l0) as Hzt by (rewrite zlen_take; lia).
  specialize (He (drop (Z.to_nat (zlen l0)) (splice buf 0 l0)) ltac:(lia)). rewrite Hzd in He.
  destruct (zlen l0 + zlen l <=? zlen buf) eqn:E.
  - replace (zlen l <=? zlen buf - zlen l0) with true in He by lia. rewrite He. osimpl. do 2 f_equal.
    rewrite splice_drop. by rewrite <- splice_app, Z.add_0_l by lia.
  - replace (zlen l <=? zlen buf - zlen l0) with false in He by lia. destruct He as (buf' & -> & Hz). osimpl.
    eexists. split; [reflexivity|]. rewrite zlen_app. lia.
Qed.

(** One encoder after another, their lengths joined. *)
Lemma espec_join e1 e2 l1 l2 :
  espec e1 l1 -> espec e2 l2 ->
  espec (fun buf => '(off, buf) ← e1 buf;
    '(w, buf) ← (if negb (off =? 0) then enc_at off e2 buf else Some (0, buf)); Some (join off w, buf)) (l1 ++ l2).
Proof.
  intros [H1 E1] H2. pose proof (proj1 H2) as Hp. split; [zl|]. intros buf Hb. specialize (E1 buf Hb). rewrite zlen_app.
  destruct (zlen l1 <=? zlen buf) eqn:Ef.
  - rewrite E1. osimpl. replace (zlen l1 =? 0) with false by lia. cbn [negb]. pose proof (enc_at_spec e2 l2 buf l1 H2 Hb ltac:(lia)) as H.
    destruct (zlen l1 + zlen l2 <=? zlen buf).
    + rewrite H. osimpl. unfold join. by replace (zlen l1 =? 0) with false by lia; replace (zlen l2 =? 0) with false by lia.
    + destruct H as (buf' & -> & Hz). osimpl. exists buf'. split; [|done]. unfold join. by rewrite andb_false_r.
  - replace (zlen l1 + zlen l2 <=? zlen buf) with false by lia. destruct E1 as (buf' & -> & Hz). osimpl. cbn. eauto.
Qed.

(** ** Integers *)

Lemma prefix_max_eq n : 0 <= n <= 8 -> prefix_max n = 2 ^ n - 1 /\ 0 <= prefix_max n < 256.
Proof.
  intros Hn. unfold prefix_max. rewrite Z.shiftl_mul_pow2, Z.mul_1_l by lia.
  assert (1 <= 2 ^ n <= 2 ^ 8) as H by (split; [apply (Z.pow_le_mono_r 2 0)|apply Z.pow_le_mono_r]; lia).
  change (2 ^ 8) with 256 in H. rewrite (u64_small (2 ^ n)), u64_small by lia. lia.
Qed.

(** A pattern of the bits above an [n]-bit prefix. *)
Definition pfx_ok (p : qpack_pfx) : Prop :=
  1 <= pfx_bits p <= 8 /\ is_u8 (pfx_pattern p) /\ pfx_pattern p mod 2 ^ pfx_bits p = 0.

(** The 7-bit groups of a value. *)
Fixpoint qgroups (fuel : nat) (v : Z) : list Z :=
  match fuel with
  | O => [v]
  | S f => if v <? 128 then [v] else (v mod 128 + 128) :: qgroups f (v / 128)
  end.

(** The representation of a value under a prefix. *)
Definition qint_wire (p : qpack_pfx) (v : Z) : list Z :=
  let pmax := 2 ^ pfx_bits p - 1 in
  if v <? pmax then [pfx_pattern p + v] else (pfx_pattern p + pmax) :: qgroups 10 (v - pmax).

Lemma lor_low p n x : 0 <= n -> p mod 2 ^ n = 0 -> 0 <= x < 2 ^ n -> Z.lor p x = p + x.
Proof.
  intros Hn Hp Hx. rewrite (Z.div_mod p (2 ^ n)) at 1 by lia. rewrite Hp, Z.add_0_r, Z.mul_comm, <- Z.shiftl_mul_pow2 by lia.
  rewrite lor_shiftl by lia. pose proof (Z.div_mod p (2 ^ n)). lia.
Qed.

Lemma land_127 v : Z.land v 127 = v mod 128.
Proof. change 127 with (Z.ones 7). by rewrite Z.land_ones. Qed.

Lemma length_qgroups f v : (1 <= length (qgroups f v))%nat.
Proof. destruct f; cbn; [lia|]. destruct (v <? 128); cbn; lia. Qed.

Definition put_groups_from (f : nat) (v : Z) (ok : bool) (o : obuf) : option (bool * obuf) :=
  '(ok, v, o) ← put_groups_loop f v ok o; '(b, o) ← qint_put_byte (u8 v) o; Some (b && ok, o).

(** A full buffer refuses every byte. *)
Lemma qint_put_cases b o :
  obuf_ok o -> (olen o < ocap o /\ qint_put_byte b o = Some (true, obuf_app o [b])) \/
               (olen o = ocap o /\ qint_put_byte b o = Some (false, o)).
Proof.
  intros Ho. destruct (put_byte_wspec b o Ho) as [(bs & [= <-] & Hf & E)|(Hn & o' & E & _)].
  - left. unfold ofits in Hf. rewrite zlen_cons, zlen_nil in Hf. split; [lia|exact E].
  - right. specialize (Hn [b] eq_refl). unfold ofits in Hn. rewrite zlen_cons, zlen_nil in Hn. destruct Ho. split; [lia|].
    unfold qint_put_byte. by replace (ocap o <=? olen o) with true by lia.
Qed.

Lemma put_groups_from_spec f : forall v ok o,
  obuf_ok o -> 0 <= v < 128 ^ (Z.of_nat f + 1) ->
  if olen o + zlen (qgroups f v) <=? ocap o
  then put_groups_from f v ok o = Some ((if v <? 128 then ok else true), obuf_app o (qgroups f v))
  else exists o', put_groups_from f v ok o = Some (false, o') /\ obuf_ok o' /\ ocap o' = ocap o.
Proof.
  assert (forall v ok o, obuf_ok o -> 0 <= v < 128 ->
    if olen o + zlen [v] <=? ocap o
    then ('(b, o) ← qint_put_byte (u8 v) o; Some (b && ok, o)) = Some (ok, obuf_app o [v])
    else exists o', ('(b, o) ← qint_put_byte (u8 v) o; Some (b && ok, o)) = Some (false, o') /\ obuf_ok o' /\ ocap o' = ocap o) as Hlast.
  { intros v ok o Ho Hv. rewrite u8_small by lia. rewrite zlen_cons, zlen_nil.
    destruct (qint_put_cases v o Ho) as [[Hl ->]|[Hl ->]]; osimpl.
    - replace (olen o + (1 + 0) <=? ocap o) with true by lia. done.
    - replace (olen o + (1 + 0) <=? ocap o) with false by lia. eauto. }
  induction f as [|f IH]; intros v ok o Ho Hv; unfold put_groups_from; cbn [put_groups_loop qgroups]; unfold more_groups.
  { change (128 ^ _) with 128 in Hv. replace (128 <=? v) with false by lia. replace (v <? 128) with true by lia. cbn [negb]. osimpl.
    apply Hlast; [done|lia]. }
  destruct (v <? 128) eqn:E.
  { replace (128 <=? v) with false by lia. cbn [negb]. osimpl. apply Hlast; [done|lia]. }
  replace (128 <=? v) with true by lia. cbn [negb]. rewrite land_127. pose proof (Z.mod_pos_bound v 128 ltac:(lia)) as Hm.
  rewrite u8_small, Z.lor_comm, (lor_low 128 7) by (done || lia). rewrite (Z.add_comm 128).
  rewrite Z.shiftr_div_pow2 by lia. change (2 ^ 7) with 128.
  assert (0 <= v / 128 < 128 ^ (Z.of_nat f + 1)) as Hd.
  { split; [apply Z.div_pos; lia|]. apply Z.div_lt_upper_bound; [lia|]. rewrite <- Z.pow_succ_r by lia.
    replace (Z.succ (Z.of_nat f + 1)) with (Z.of_nat (S f) + 1) by lia. apply Hv. }
  rewrite zlen_cons. pose proof (length_qgroups f (v / 128)) as Hg. unfold zlen in *.
  destruct (qint_put_cases (v mod 128 + 128) o Ho) as [[Hl ->]|[Hl ->]]; osimpl.
  - assert (ofits o [v mod 128 + 128]) as Hfit by (unfold ofits, zlen; cbn; lia).
    specialize (IH (v / 128) true _ (obuf_app_ok o _ Ho Hfit) Hd). unfold put_groups_from, zlen in IH.
    rewrite obuf_app_cap in IH by done. cbn [obuf_app olen] in IH. unfold zlen in IH. cbn [length] in IH.
    replace (olen o + (1 + Z.of_nat (length (qgroups f (v / 128))))) with (olen o + Z.of_nat 1 + Z.of_nat (length (qgroups f (v / 128)))) by lia.
    destruct (_ <=? ocap o); [|exact IH]. rewrite IH. f_equal. f_equal; [by destruct (v / 128 <? 128)|].
    fold (obuf_app o [v mod 128 + 128]). by rewrite obuf_app_app.
  - specialize (IH (v / 128) false o Ho Hd). unfold put_groups_from, zlen in IH.
    replace (olen o + (1 + _) <=? ocap o) with false by lia. replace (olen o + _ <=? ocap o) with false in IH by lia. exact IH.
Qed.

Lemma put_groups_wspec v : 0 <= v < 2 ^ 64 -> wspec (put_groups v) (Some (qgroups 10 v)).
Proof.
  intros Hv o Ho. pose proof (put_groups_from_spec 10 v true o Ho) as H.
  assert (0 <= v < 128 ^ (Z.of_nat 10 + 1)) as Hv' by (change (128 ^ (Z.of_nat 10 + 1)) with (2 ^ 77); lia). specialize (H Hv').
  change (put_groups_from 10 v true o) with (put_groups v o) in H. destruct (_ <=? ocap o) eqn:E.
  - left. eexists. split; [done|]. split; [unfold ofits; lia|]. rewrite H. by destruct (v <? 128).
  - right. split; [|done]. intros bs Hbs. assert (bs = qgroups 10 v) as -> by congruence. unfold ofits. lia.
Qed.

Lemma prefix_byte_low p x : pfx_ok p -> 0 <= x < 2 ^ pfx_bits p -> Z.lor (pfx_pattern p) x = pfx_pattern p + x.
Proof. intros (H1 & H2 & H3) Hx. apply (lor_low _ (pfx_bits p)); [lia|done|done]. Qed.

Lemma pow_bound n : 1 <= n <= 8 -> 2 <= 2 ^ n <= 256.
Proof. intros Hn. split; [apply (Z.pow_le_mono_r 2 1)|apply (Z.pow_le_mono_r 2 n 8)]; lia. Qed.

Lemma int_encode_espec p v :
  pfx_ok p -> is_u64 v -> espec (fun buf => qpack_int_encode buf p v) (qint_wire p v).
Proof.
  intros Hp Hv. pose proof Hp as (Hn & _). pose proof (prefix_max_eq (pfx_bits p) ltac:(lia)) as [Em Hm].
  pose proof (pow_bound (pfx_bits p) ltac:(lia)) as Hb. unfold qpack_int_encode, qint_wire. rewrite Em in *. cbv zeta. unfold is_u64 in Hv.
  apply espec_wrun; [|destruct (v <? _); [done|rewrite zlen_cons; pose proof (zlen_nonneg (qgroups 10 (v - (2 ^ pfx_bits p - 1)))); lia]].
  eapply wspec_eq; [apply wspec_seq; [apply put_byte_wspec|apply wspec_if; intros _]|].
  - apply wspec_true.
  - apply put_groups_wspec. pose proof (u64_range (v - (2 ^ pfx_bits p - 1))). change (2 ^ 64) with 18446744073709551616. lia.
  - unfold prefix_byte. destruct (v <? 2 ^ pfx_bits p - 1) eqn:E.
    + rewrite u8_small, prefix_byte_low by (done || lia). done.
    + rewrite u8_small, prefix_byte_low, u64_small by (done || lia). done.
Qed.

(** Reading the groups back, from any accumulated value. *)
Lemma take_groups_reads g f : forall v m acc pre post,
  0 <= v < 128 ^ (Z.of_nat f + 1) -> 0 <= m -> 0 <= acc -> m + 7 * Z.of_nat f <= 56 -> acc + v * 2 ^ m < 2 ^ 64 ->
  take_groups_loop (S (f + g)) m acc (pre ++ qgroups f v ++ post) (zlen pre) =
    Ok (acc + v * 2 ^ m, zlen pre + zlen (qgroups f v)).
Proof.
  assert (forall v m acc pre rest, 0 <= v < 256 -> 0 <= m <= 56 -> 0 <= acc -> acc + v mod 128 * 2 ^ m < 2 ^ 64 ->
    take_group m acc (pre ++ v :: rest) (zlen pre) = Ok (acc + v mod 128 * 2 ^ m, 128 <=? v, zlen pre + 1)) as Hone.
  { intros v m acc pre rest Hv Hm Ha Hs. unfold take_group. rewrite zlen_app, zlen_cons. pose proof (zlen_nonneg rest).
    replace (_ || _) with false by lia. rewrite load_app_r, Z.sub_diag, load_cons_0 by lia. rewrite land_127.
    pose proof (Z.mod_pos_bound v 128 ltac:(lia)). change (2 ^ 64) with 18446744073709551616 in Hs.
    assert (0 < 2 ^ m) by (apply Z.pow_pos_nonneg; lia).
    rewrite Z.shiftl_mul_pow2 by lia. rewrite (u64_small (v mod 128 * 2 ^ m)), u64_small by nia.
    assert ((Z.land v 128 =? 0) = (v <? 128)) as E.
    { revert Hv. clear. intros Hv. apply (u8_check (fun v => Bool.eqb (Z.land v 128 =? 0) (v <? 128))) in Hv; [|reflexivity].
      by apply Bool.eqb_prop in Hv. }
    rewrite E. f_equal. f_equal. f_equal. lia. }
  induction f as [|f IH]; intros v m acc pre post Hv Hm Ha Hmf Hs.
  - change (128 ^ _) with 128 in Hv. cbn [qgroups app take_groups_loop]. rewrite Hone by (rewrite ?(Z.mod_small v 128); lia).
    rewrite Z.mod_small by lia. replace (128 <=? v) with false by lia. done.
  - assert (0 < 2 ^ m) as Hpm by (apply Z.pow_pos_nonneg; lia). cbn [qgroups]. destruct (v <? 128) eqn:E.
    + cbn [app take_groups_loop]. rewrite Hone by (rewrite ?(Z.mod_small v 128); lia).
      rewrite Z.mod_small by lia. replace (128 <=? v) with false by lia. done.
    + pose proof (Z.mod_pos_bound v 128 ltac:(lia)) as Hmod. pose proof (Z.div_mod v 128 ltac:(lia)) as Hdm.
      remember (S f + g)%nat as f1 eqn:Ef1. cbn [app take_groups_loop]. cbn in Ef1. subst f1.
      assert ((v mod 128 + 128) mod 128 = v mod 128) as Em.
      { replace (v mod 128 + 128) with (v mod 128 + 1 * 128) by lia. rewrite Z.mod_add by lia. apply Z.mod_mod. lia. }
      assert (0 <= v / 128) as Hd0 by (apply Z.div_pos; lia).
      assert (v * 2 ^ m = v mod 128 * 2 ^ m + v / 128 * 2 ^ (m + 7)) as Ev.
      { rewrite Z.pow_add_r by lia. change (2 ^ 7) with 128. rewrite Hdm at 1. ring. }
      assert (0 <= v / 128 * 2 ^ (m + 7)) by (apply Z.mul_nonneg_nonneg; [lia|apply Z.pow_nonneg; lia]).
      rewrite Hone by (rewrite ?Em; lia). rewrite Em. replace (128 <=? v mod 128 + 128) with true by lia.
      rewrite u64_small by lia.
      specialize (IH (v / 128) (m + 7) (acc + v mod 128 * 2 ^ m) (pre ++ [v mod 128 + 128]) post).
      replace ((pre ++ [v mod 128 + 128]) ++ qgroups f (v / 128) ++ post)
        with (pre ++ (v mod 128 + 128) :: qgroups f (v / 128) ++ post) in IH by (by rewrite <- app_assoc).
      replace (zlen (pre ++ [v mod 128 + 128])) with (zlen pre + 1) in IH by zl. rewrite IH.
      * rewrite zlen_cons. f_equal. f_equal; [rewrite Ev; ring|ring].
      * split; [lia|]. apply Z.div_lt_upper_bound; [lia|]. rewrite <- Z.pow_succ_r by lia.
        replace (Z.succ (Z.of_nat f + 1)) with (Z.of_nat (S f) + 1) by lia. lia.
      * lia.
      * nia.
      * lia.
      * lia.
Qed.

Lemma qgroups_fuel k f : forall v, 0 <= v < 128 ^ (Z.of_nat f + 1) -> qgroups (f + k) v = qgroups f v.
Proof.
  induction f as [|f IH]; intros v Hv; cbn [qgroups Nat.add].
  - change (128 ^ _) with 128 in Hv. destruct k; cbn; [done|]. by replace (v <? 128) with true by lia.
  - destruct (v <? 128) eqn:E; [done|]. rewrite IH; [done|]. split; [apply Z.div_pos; lia|].
    apply Z.div_lt_upper_bound; [lia|]. rewrite <- Z.pow_succ_r by lia.
    replace (Z.succ (Z.of_nat f + 1)) with (Z.of_nat (S f) + 1) by lia. lia.
Qed.

(** The values a decoder accepts. *)
Definition qint_ok (v : Z) : Prop := 0 <= v < 2 ^ 63.

Lemma land_low p n x : 0 <= n -> p mod 2 ^ n = 0 -> 0 <= x < 2 ^ n -> Z.land (p + x) (2 ^ n - 1) = x.
Proof.
  intros Hn Hp Hx. replace (2 ^ n - 1) with (Z.ones n) by (rewrite Z.ones_equiv; lia). rewrite Z.land_ones by done.
  rewrite <- Z.add_mod_idemp_l, Hp, Z.add_0_l by lia. by apply Z.mod_small.
Qed.

Lemma int_decode_dspec p v : pfx_ok p -> qint_ok v -> dspec (fun buf => qpack_int_decode buf (pfx_bits p)) (qint_wire p v) (eq v).
Proof.
  intros (Hn & Hu & Hp) Hv post Hl. exists v. split; [|done]. pose proof (prefix_max_eq (pfx_bits p) ltac:(lia)) as [Em Hm].
  pose proof (pow_bound (pfx_bits p) ltac:(lia)) as Hb. unfold qint_ok in Hv. unfold qpack_int_decode. rewrite Em in *. unfold qint_wire.
  destruct (v <? 2 ^ pfx_bits p - 1) eqn:E.
  - cbn [app]. rewrite zlen_cons. pose proof (zlen_nonneg post). replace (1 + zlen post =? 0) with false by lia.
    rewrite load_cons_0, land_low by lia. unfold decode_body. by rewrite E.
  - cbn [app]. rewrite zlen_cons. pose proof (zlen_nonneg (qgroups 10 (v - (2 ^ pfx_bits p - 1)) ++ post)).
    replace (1 + zlen _ =? 0) with false by lia. rewrite load_cons_0, land_low by lia. unfold decode_body. rewrite Z.ltb_irrefl.
    unfold take_groups. set (pm := 2 ^ pfx_bits p - 1) in *.
    assert (0 <= v - pm < 128 ^ (Z.of_nat 8 + 1)) as Hg by (change (128 ^ (Z.of_nat 8 + 1)) with (2 ^ 63); lia).
    change (qgroups 10 (v - pm)) with (qgroups (8 + 2) (v - pm)). rewrite (qgroups_fuel 2 8) by done.
    change 10%nat with (S (8 + 1)).
    change (pfx_pattern p + pm :: qgroups 8 (v - pm) ++ post) with ([pfx_pattern p + pm] ++ qgroups 8 (v - pm) ++ post).
    change 1 with (zlen [pfx_pattern p + pm]) at 1. rewrite take_groups_reads; [|done|lia|lia|lia|].
    + change (2 ^ 0) with 1. rewrite !zlen_cons, zlen_nil. f_equal. f_equal; lia.
    + change (2 ^ 0) with 1. change (2 ^ 64) with (2 * 2 ^ 63). lia.
Qed.

(** Whatever the bytes, the integer decoder stays inside them and the value it returns did not wrap. *)
Lemma int_decode_dsafe n : 1 <= n <= 8 -> dsafe (fun buf => qpack_int_decode buf n) (fun v => 0 <= v < 2 ^ 63 + 2 ^ n).
Proof.
  intros Hn buf [Hb Hz]. unfold qpack_int_decode. pose proof (prefix_max_eq n ltac:(lia)) as [Em Hm]. rewrite Em in *.
  pose proof (pow_bound n Hn) as Hpn. pose proof (zlen_nonneg buf). destruct (zlen buf =? 0) eqn:E0; [done|].
  destruct (load_is_Some buf 0) as [b Hb0]; [lia|]. rewrite Hb0. unfold decode_body.
  assert (Z.land b (2 ^ n - 1) = b mod 2 ^ n) as -> by (rewrite <- Z.land_ones, Z.ones_equiv by lia; f_equal; lia).
  pose proof (Z.mod_pos_bound b (2 ^ n) ltac:(lia)) as Hx. set (x := b mod 2 ^ n) in *. destruct (x <? _); [lia|].
  unfold take_groups.
  enough (forall f m acc off, 0 <= m -> m + 7 * Z.of_nat f = 70 -> (1 <= f)%nat -> 1 <= off <= zlen buf ->
    0 <= acc < 2 ^ m + 2 ^ n -> match take_groups_loop f m acc buf off with
      | Ok (a, n0) => 1 <= n0 <= zlen buf /\ 0 <= a < 2 ^ 63 + 2 ^ n | Fail => True | Oob => False end) as H1.
  { apply (H1 10%nat 0 x 1); [lia|lia|lia|lia|]. change (2 ^ 0) with 1. lia. }
  induction f as [|f IH]; intros m acc off Hm0 Hmf Hf Ho Ha; [lia|]. cbn [take_groups_loop]. unfold take_group.
  destruct ((zlen buf <=? off) || (56 <? m)) eqn:Ef; [done|].
  destruct (load_is_Some buf off) as [b1 Hb1]; [lia|]. rewrite Hb1. rewrite land_127.
  pose proof (Z.mod_pos_bound b1 128 ltac:(lia)) as Hmod. rewrite Z.shiftl_mul_pow2 by lia.
  assert (0 < 2 ^ m <= 2 ^ 56) as Hpm by (split; [apply Z.pow_pos_nonneg|apply Z.pow_le_mono_r]; lia).
  assert (2 ^ (m + 7) = 128 * 2 ^ m) as Hp7 by (rewrite Z.pow_add_r by lia; change (2 ^ 7) with 128; lia).
  change (2 ^ 56) with 72057594037927936 in Hpm.
  rewrite (u64_small (b1 mod 128 * 2 ^ m)), (u64_small (acc + _)), (u64_small (m + 7)) by nia.
  assert (0 <= acc + b1 mod 128 * 2 ^ m < 2 ^ (m + 7) + 2 ^ n) as Hacc by nia.
  destruct (negb _).
  - apply IH; [lia|lia|lia|lia|done].
  - split; [lia|]. split; [lia|]. assert (2 ^ (m + 7) <= 2 ^ 63) by (apply Z.pow_le_mono_r; lia). lia.
Qed.

(** ** Strings *)

(** The Huffman code of [s]. *)
Definition henc (s : list Z) : list Z :=
  match qpack_huffman_encode s [] with
  | Some (n, _) => match qpack_huffman_encode s (replicate (Z.to_nat n) 0) with Some (_, E) => E | None => [] end
  | None => []
  end.

Lemma henc_spec s :
  bytes_ok s -> huff_of s (henc s) /\ forall out, qpack_huffman_encode s out = Some (zlen (henc s), overlay out (henc s)).
Proof.
  intros Hs. assert (exists E, huff_of s E /\ forall out, qpack_huffman_encode s out = Some (zlen E, overlay out E)) as (E & HE & Ho).
  { destruct (huffman_encode_spec s [] Hs) as (E & HE & _). exists E. split; [done|]. intros out.
    destruct (huffman_encode_spec s out Hs) as (E' & HE' & ->). by rewrite (huff_of_fun s E' E). }
  assert (henc s = E) as ->; [|by split]. unfold henc. rewrite !Ho.
  rewrite overlay_fits, splice_whole; [done| |]; unfold zlen; rewrite length_replicate; lia.
Qed.

(** A string's prefix: the H bit is the bit just above the length. *)
Definition spfx_ok (p : qpack_pfx) : Prop :=
  1 <= pfx_bits p <= 7 /\ 0 <= pfx_pattern p /\ pfx_pattern p + 2 ^ (pfx_bits p + 1) <= 256 /\
  pfx_pattern p mod 2 ^ (pfx_bits p + 1) = 0.

Definition with_h (p : qpack_pfx) : qpack_pfx := mk_pfx (pfx_bits p) (pfx_pattern p + 2 ^ pfx_bits p).

(** The string literal: Huffman-coded when that is shorter. *)
Definition qstr_wire (p : qpack_pfx) (s : list Z) : list Z :=
  if zlen (henc s) <? zlen s then qint_wire (with_h p) (zlen (henc s)) ++ henc s else qint_wire p (zlen s) ++ s.

Lemma spfx_pfx p : spfx_ok p -> pfx_ok p /\ pfx_ok (with_h p) /\
  u8 (Z.lor (pfx_pattern p) (Z.shiftl 1 (pfx_bits p))) = pfx_pattern p + 2 ^ pfx_bits p.
Proof.
  intros (Hn & H0 & H1 & Hm). rewrite Z.pow_add_r in * by lia. change (2 ^ 1) with 2 in *.
  pose proof (pow_bound (pfx_bits p) ltac:(lia)) as Hp.
  assert (pfx_pattern p mod 2 ^ pfx_bits p = 0) as Hm0.
  { apply Z.mod_divide; [lia|]. apply Z.mod_divide in Hm as [k Hk]; [|lia]. exists (2 * k). lia. }
  split; [|split].
  - split; [lia|]. split; [unfold is_u8; lia|done].
  - split; [cbn; lia|]. split; [unfold is_u8; cbn; lia|]. cbn [with_h pfx_pattern pfx_bits].
    rewrite <- Z.add_mod_idemp_l, Hm0 by lia. apply Z.mod_same. lia.
  - rewrite Z.shiftl_mul_pow2, Z.mul_1_l by lia. rewrite (lor_low _ (pfx_bits p + 1)); [|lia| |].
    + rewrite u8_small; lia.
    + rewrite Z.pow_add_r by lia. done.
    + rewrite Z.pow_add_r by lia. change (2 ^ 1) with 2. lia.
Qed.

Lemma qint_wire_head p v :
  1 <= pfx_bits p <= 8 -> 0 <= v -> exists x rest, qint_wire p v = (pfx_pattern p + x) :: rest /\ 0 <= x < 2 ^ pfx_bits p.
Proof.
  intros Hn Hv. pose proof (pow_bound (pfx_bits p) Hn) as Hp. unfold qint_wire. destruct (v <? _) eqn:E.
  - exists v, []. split; [done|lia].
  - eexists _, _. split; [reflexivity|lia].
Qed.

Lemma qint_wire_pos p v : 0 < zlen (qint_wire p v).
Proof. unfold qint_wire. destruct (v <? _); rewrite zlen_cons; [done|]. pose proof (zlen_nonneg (qgroups 10 (v - (2 ^ pfx_bits p - 1)))). lia. Qed.

Lemma bytes_put_all s : zlen s < span_max -> wspec (bytes_put s (zlen s)) (Some s).
Proof.
  intros Hz. pose proof (zlen_nonneg s). eapply wspec_eq; [apply bytes_put_wspec; lia|]. f_equal. unfold zlen.
  by rewrite Nat2Z.id, take_ge by lia.
Qed.

Lemma str_raw_espec p s :
  pfx_ok p -> bytes_ok s -> zlen s < span_max -> espec (fun buf => str_put_raw buf s p) (qint_wire p (zlen s) ++ s).
Proof.
  intros Hp Hs Hz. pose proof (zlen_nonneg s) as Hs0. pose proof (qint_wire_pos p (zlen s)) as Hw. unfold span_max in Hz.
  destruct (int_encode_espec p (zlen s) Hp) as [_ He]; [unfold is_u64; lia|]. split; [zl|]. intros buf Hb. specialize (He buf Hb).
  unfold str_put_raw. rewrite zlen_app. set (l := qint_wire p (zlen s)) in *. cbv beta in He.
  destruct (zlen l <=? zlen buf) eqn:El.
  - rewrite He. osimpl. replace (zlen l =? 0) with false by lia.
    pose proof (zlen_splice buf 0 l ltac:(lia) ltac:(lia)) as Hzs.
    destruct (bytes_put_all s ltac:(unfold span_max; lia) (mk_obuf (splice buf 0 l) (zlen l)))
      as [(bs & [= <-] & Hf & ->)|(Hn & o' & -> & Ho' & Hc)]; unfold ocap in *; cbn in *.
    { split; unfold ocap; cbn; rewrite Hzs; [lia|done]. }
    + unfold ofits, ocap in Hf. cbn in Hf. rewrite Hzs in Hf.
      replace (zlen l + zlen s <=? zlen buf) with true by lia. by rewrite <- splice_app, Z.add_0_l by lia.
    + specialize (Hn _ eq_refl). unfold ofits, ocap in Hn. cbn in Hn. rewrite Hzs in Hn.
      replace (zlen l + zlen s <=? zlen buf) with false by lia. eexists. split; [reflexivity|]. by rewrite Hc.
  - destruct He as (buf' & -> & Hz'). osimpl. cbn. replace (zlen l + zlen s <=? zlen buf) with false by lia. eauto.
Qed.

Lemma str_huff_espec p s :
  spfx_ok p -> bytes_ok s -> zlen (henc s) < span_max ->
  espec (fun buf => str_put_huff buf s (zlen (henc s)) p) (qint_wire (with_h p) (zlen (henc s)) ++ henc s).
Proof.
  intros Hsp Hs Hz. destruct (spfx_pfx p Hsp) as (_ & Hp & Epat). destruct (henc_spec s Hs) as [Hof Henc].
  pose proof (zlen_nonneg (henc s)) as Hs0. pose proof (qint_wire_pos (with_h p) (zlen (henc s))) as Hw. unfold span_max in Hz.
  destruct (int_encode_espec (with_h p) (zlen (henc s)) Hp) as [_ He]; [unfold is_u64; lia|]. split; [zl|]. intros buf Hb.
  specialize (He buf Hb). unfold str_put_huff. rewrite Epat. change (mk_pfx (pfx_bits p) (pfx_pattern p + 2 ^ pfx_bits p)) with (with_h p).
  rewrite zlen_app. set (l := qint_wire (with_h p) (zlen (henc s))) in *. cbv zeta. cbv beta in He.
  destruct (zlen l <=? zlen buf) eqn:El.
  - rewrite He. osimpl. replace (zlen l =? 0) with false by lia. cbn [orb].
    pose proof (zlen_splice buf 0 l ltac:(lia) ltac:(lia)) as Hzs. rewrite Hzs.
    destruct (zlen buf - zlen l <? zlen (henc s)) eqn:Er.
    + replace (zlen l + zlen (henc s) <=? zlen buf) with false by lia. eauto.
    + replace (zlen l + zlen (henc s) <=? zlen buf) with true by lia. rewrite Henc. osimpl. do 2 f_equal.
      assert (zlen (take (Z.to_nat (zlen (henc s))) (drop (Z.to_nat (zlen l)) (splice buf 0 l))) = zlen (henc s)) as Hzt
        by (apply zlen_take; rewrite zlen_drop; lia).
      rewrite overlay_fits, (splice_whole (take _ _)) by lia. by rewrite <- splice_app, Z.add_0_l by lia.
  - destruct He as (buf' & -> & Hz'). osimpl. cbn. replace (zlen l + zlen (henc s) <=? zlen buf) with false by lia. eauto.
Qed.

Lemma string_encode_espec p s :
  spfx_ok p -> bytes_ok s -> zlen s < span_max -> espec (fun buf => qpack_string_encode_pfx buf s p) (qstr_wire p s).
Proof.
  intros Hsp Hs Hz. destruct (spfx_pfx p Hsp) as (Hp & _ & _). destruct (henc_spec s Hs) as [_ Henc]. unfold qstr_wire.
  destruct (zlen (henc s) <? zlen s) eqn:E.
  - eapply espec_ext; [|apply str_huff_espec; [done|done|lia]]. intros buf. unfold qpack_string_encode_pfx. rewrite Henc. osimpl. by rewrite E.
  - eapply espec_ext; [|by apply str_raw_espec]. intros buf. unfold qpack_string_encode_pfx. rewrite Henc. osimpl. by rewrite E.
Qed.

Definition spfx (p : qpack_pfx) (h : bool) : qpack_pfx := if h then with_h p else p.

Lemma spfx_bits p h : pfx_bits (spfx p h) = pfx_bits p.
Proof. by destruct h. Qed.

Lemma h_bit p h x :
  spfx_ok p -> 0 <= x < 2 ^ pfx_bits p ->
  negb (Z.land (Z.shiftr (pfx_pattern (spfx p h) + x) (pfx_bits p)) 1 =? 0) = h.
Proof.
  intros (Hn & H0 & H1 & Hm) Hx. rewrite land_1, Z.shiftr_div_pow2 by lia. rewrite Z.pow_add_r in * by lia. change (2 ^ 1) with 2 in *.
  pose proof (pow_bound (pfx_bits p) ltac:(lia)) as Hp. apply Z.mod_divide in Hm as [k Hk]; [|lia].
  assert ((pfx_pattern (spfx p h) + x) / 2 ^ pfx_bits p = Z.b2z h + k * 2) as ->.
  { symmetry. apply (Z.div_unique _ _ _ x); [lia|]. destruct h; cbn [spfx with_h pfx_pattern Z.b2z]; lia. }
  rewrite Z.mod_add by lia. by destruct h.
Qed.

Lemma take_header_reads p h E post :
  spfx_ok p -> zlen (qint_wire (spfx p h) (zlen E) ++ E ++ post) < span_max ->
  take_header (qint_wire (spfx p h) (zlen E) ++ E ++ post) (pfx_bits p) =
    Ok (mk_qstr_head (zlen (qint_wire (spfx p h) (zlen E))) (zlen E) h).
Proof.
  intros Hp Hl. unfold take_header. pose proof (qint_wire_pos (spfx p h) (zlen E)) as Hw. pose proof (zlen_nonneg (E ++ post)) as Hz.
  rewrite zlen_app. replace (_ + _ =? 0) with false by lia. destruct (spfx_pfx p Hp) as (Hp1 & Hp2 & _).
  assert (pfx_ok (spfx p h)) as Hs by (by destruct h). pose proof (zlen_nonneg E) as HE.
  destruct (qint_wire_head (spfx p h) (zlen E)) as (x & rest & Ew & Hx); [apply Hs|done|]. rewrite Ew at 1. cbn [app]. rewrite load_cons_0.
  assert (qint_ok (zlen E)) as Hq.
  { unfold qint_ok. change (2 ^ 63) with (2 * 4611686018427387904). pose proof (zlen_nonneg post).
    unfold span_max in Hl. rewrite !zlen_app in Hl. lia. }
  destruct (int_decode_dspec (spfx p h) (zlen E) Hs Hq (E ++ post) Hl) as (v & Ed & <-). rewrite spfx_bits in *. rewrite Ed.
  by rewrite h_bit.
Qed.

Lemma str_value_reads w E post h dst :
  zlen (w ++ E ++ post) < span_max ->
  str_value (w ++ E ++ post) (mk_qstr_head (zlen w) (zlen E) h) dst = if h then qpack_huffman_decode E dst else str_raw E dst.
Proof.
  intros Hl. unfold str_value. cbn [qh_off qh_len qh_huff]. unfold span_max in Hl. rewrite !zlen_app in *.
  pose proof (zlen_nonneg w); pose proof (zlen_nonneg E); pose proof (zlen_nonneg post). rewrite u64_small by lia.
  replace (_ <? _) with false by lia. unfold zlen. rewrite !Nat2Z.id, drop_app_length, take_app_length. done.
Qed.

Lemma str_raw_ok s dst :
  zlen s < span_max -> str_raw s dst = if zlen s <=? ocap dst then Ok (mk_obuf (splice (op dst) 0 s) (zlen s)) else Fail.
Proof.
  intros Hz. unfold str_raw, ocap. destruct (zlen (op dst) <? zlen s) eqn:E; [by replace (_ <=? _) with false by lia|].
  replace (_ <=? _) with true by lia. pose proof (reads_bytes_take anywhere (op dst) s (zlen s) eq_refl ltac:(lia) [] []) as H.
  cbn [app] in H. rewrite app_nil_r in H. destruct (H I Hz) as (a & Ea & <-). rewrite zlen_nil, Z.add_0_l in Ea. by rewrite Ea.
Qed.

(** A string is decoded exactly when it fits the output buffer. *)
Lemma string_decode_exact p s dst post :
  spfx_ok p -> bytes_ok s -> zlen (qstr_wire p s ++ post) < span_max ->
  qpack_string_decode_pfx (qstr_wire p s ++ post) (pfx_bits p) dst =
    if zlen s <=? ocap dst then Ok (mk_obuf (splice (op dst) 0 s) (zlen s), zlen (qstr_wire p s)) else Fail.
Proof.
  intros Hp Hs Hl. unfold qpack_string_decode_pfx.
  assert (exists h E, qstr_wire p s = qint_wire (spfx p h) (zlen E) ++ E /\
     (zlen E < span_max -> (if h then qpack_huffman_decode E dst else str_raw E dst) =
        if zlen s <=? ocap dst then Ok (mk_obuf (splice (op dst) 0 s) (zlen s)) else Fail))
    as (h & E & Ew & Ev).
  { unfold qstr_wire. destruct (zlen (henc s) <? zlen s).
    - exists true, (henc s). split; [done|]. intros _. by rewrite (huffman_decode_code s) by (done || by apply henc_spec).
    - exists false, s. split; [done|]. intros Hz. by rewrite str_raw_ok. }
  rewrite Ew in *. rewrite <- app_assoc in *. rewrite take_header_reads, str_value_reads by done. cbn [qh_off qh_len].
  unfold span_max in *. rewrite !zlen_app in Hl. pose proof (zlen_nonneg (qint_wire (spfx p h) (zlen E))).
  pose proof (zlen_nonneg E); pose proof (zlen_nonneg post). rewrite Ev, u64_small, zlen_app by lia. by destruct (zlen s <=? ocap dst).
Qed.

Lemma string_decode_dspec p s dst :
  spfx_ok p -> bytes_ok s -> zlen s <= ocap dst ->
  dspec (fun buf => qpack_string_decode_pfx buf (pfx_bits p) dst) (qstr_wire p s) (eq (mk_obuf (splice (op dst) 0 s) (zlen s))).
Proof.
  intros Hp Hs Hc post Hl. eexists. split; [|done]. rewrite string_decode_exact by done. by replace (zlen s <=? ocap dst) with true by lia.
Qed.

Definition fits_obuf (dst d : obuf) : Prop := 0 <= olen d <= ocap d /\ ocap d = ocap dst.

Lemma str_raw_safe oct dst : zlen oct < span_max ->
  match str_raw oct dst with Ok d => fits_obuf dst d | Fail => True | Oob => False end.
Proof.
  intros Hz. rewrite str_raw_ok by done. destruct (_ <=? _) eqn:E; [|done]. unfold fits_obuf, ocap in *. cbn.
  pose proof (zlen_nonneg oct). rewrite zlen_splice by lia. lia.
Qed.

Lemma huff_decode_safe oct dst : bytes_ok oct ->
  match qpack_huffman_decode oct dst with Ok d => fits_obuf dst d | Fail => True | Oob => False end.
Proof.
  intros Hb. pose proof (huffman_decode_sound oct dst Hb) as H. destruct (qpack_huffman_decode oct dst) as [d| |]; try done.
  destruct H as (s & _ & _ & Hc & ->). unfold fits_obuf, ocap in *. cbn. pose proof (zlen_nonneg s). rewrite zlen_splice by lia. lia.
Qed.

Lemma string_decode_dsafe n dst : 1 <= n <= 7 -> dsafe (fun buf => qpack_string_decode_pfx buf n dst) (fits_obuf dst).
Proof.
  intros Hn buf Hb. unfold qpack_string_decode_pfx, take_header. pose proof (int_decode_dsafe n ltac:(lia) buf Hb) as Hi. cbv beta in Hi.
  destruct Hb as [Hb Hz]. pose proof (zlen_nonneg buf). destruct (zlen buf =? 0) eqn:E0; [done|].
  destruct (load_is_Some buf 0) as [b Hb0]; [lia|]. rewrite Hb0. destruct (qpack_int_decode buf n) as [[v used]| |]; [|done|done].
  destruct Hi as (Hu & Hv). unfold str_value. cbn [qh_off qh_len qh_huff]. pose proof (pow_bound n ltac:(lia)). unfold span_max in Hz.
  change (2 ^ 63) with 9223372036854775808 in Hv. rewrite u64_small by lia. destruct (zlen buf <? used + v) eqn:Ef; [done|].
  set (oct := take _ _). assert (bytes_ok oct) as Ho by (by apply bytes_ok_take, bytes_ok_drop).
  assert (zlen oct = v) as Hzo by (apply zlen_take; rewrite zlen_drop; lia).
  destruct (negb _).
  - pose proof (huff_decode_safe oct dst Ho) as Hs. destruct (qpack_huffman_decode oct dst); try done. split; [lia|done].
  - pose proof (str_raw_safe oct dst ltac:(unfold span_max; lia)) as Hs. destruct (str_raw oct dst); try done. split; [lia|done].
Qed.

(** ** Field lines and instructions *)

(** The encoder writes a layout that the decoder reads back as [a]. *)
Definition qcodec {A} (enc : list Z -> option (Z * list Z)) (dec : list Z -> res (A * Z)) (a : A) : Prop :=
  exists l, espec enc l /\ dspec dec l (eq a).

(** A mask of the bits above the prefix selects those of the pattern. *)
Lemma land_mask n p m x :
  0 <= n -> p mod 2 ^ n = 0 -> m mod 2 ^ n = 0 -> 0 <= x < 2 ^ n -> Z.land (p + x) m = Z.land p m.
Proof.
  intros Hn Hp Hm Hx. rewrite <- (lor_low p n x) by done. apply Z.bits_inj'. intros i Hi. rewrite !Z.land_spec, Z.lor_spec.
  destruct (Z_lt_ge_dec i n) as [Hl|Hl].
  - assert (Z.testbit m i = false) as ->; [|by rewrite !andb_false_r].
    rewrite (Z.div_mod m (2 ^ n)), Hm, Z.add_0_r, Z.mul_comm by lia. apply Z.mul_pow2_bits_low. lia.
  - rewrite (testbit_above x n) by lia. by rewrite orb_false_r.
Qed.

(** A decoder that tests the first byte before the integer. *)
Lemma qint_first p v post test :
  1 <= pfx_bits p <= 8 -> 0 <= v -> (forall x, 0 <= x < 2 ^ pfx_bits p -> test (pfx_pattern p + x) = true) ->
  exists x, 0 <= x < 2 ^ pfx_bits p /\ load (qint_wire p v ++ post) 0 = Some (pfx_pattern p + x) /\
    first_byte (qint_wire p v ++ post) test = true.
Proof.
  intros Hn Hv Ht. destruct (qint_wire_head p v Hn Hv) as (x & rest & -> & Hx). exists x. split; [done|]. split; [done|]. cbn. auto.
Qed.

Lemma join_pos a b : 0 < a -> 0 < b -> join a b = a + b.
Proof. intros. unfold join. by replace (a =? 0) with false by lia; replace (b =? 0) with false by lia. Qed.

Lemma dspec_value {A} (head : list Z -> res (A * Z)) l1 l2 (a : A) val v :
  0 < zlen l1 -> 0 < zlen l2 -> dspec head l1 (eq a) -> dspec (fun b => qpack_string_decode b val) l2 (eq v) ->
  dspec (fun buf => decode_value buf (head buf) val) (l1 ++ l2) (eq (a, v)).
Proof.
  intros Hl1 Hl2 H1 H2 post Hl. rewrite <- app_assoc in *. destruct (H1 (l2 ++ post) Hl) as (a' & E1 & <-).
  destruct (H2 post) as (v' & E2 & <-). { rewrite zlen_app in Hl. pose proof (zlen_nonneg l1). lia. }
  exists (a, v). split; [|done]. unfold decode_value, tail_span. rewrite E1. unfold zlen at 1. rewrite Nat2Z.id, drop_app_length, E2.
  by rewrite join_pos, zlen_app.
Qed.

Lemma espec_value e l1 value :
  espec e l1 -> bytes_ok value -> zlen value < span_max ->
  espec (fun buf => '(off, buf) ← e buf; encode_value buf off value) (l1 ++ qstr_wire (mk_pfx 7 0) value).
Proof.
  intros He Hb Hz. assert (spfx_ok (mk_pfx 7 0)) as Hp by (repeat split; cbn; lia).
  eapply espec_ext; [|apply (espec_join e _ l1 _ He (string_encode_espec (mk_pfx 7 0) value Hp Hb Hz))].
  intros buf. done.
Qed.

Lemma value_dspec s val :
  bytes_ok s -> zlen s <= ocap val ->
  dspec (fun b => qpack_string_decode b val) (qstr_wire (mk_pfx 7 0) s) (eq (mk_obuf (splice (op val) 0 s) (zlen s))).
Proof. intros Hb Hc. apply (string_decode_dspec (mk_pfx 7 0) s val); [repeat split; cbn; lia|done|done]. Qed.

Lemma qstr_wire_pos p s : 0 < zlen (qstr_wire p s).
Proof.
  unfold qstr_wire. destruct (_ <? _); rewrite zlen_app;
    [pose proof (qint_wire_pos (with_h p) (zlen (henc s))); pose proof (zlen_nonneg (henc s))
    |pose proof (qint_wire_pos p (zlen s)); pose proof (zlen_nonneg s)]; lia.
Qed.

Lemma qint_codec p v : pfx_ok p -> qint_ok v -> qcodec (fun buf => qpack_int_encode buf p v) (fun buf => qpack_int_decode buf (pfx_bits p)) v.
Proof.
  intros Hp Hv. exists (qint_wire p v). split; [|by apply int_decode_dspec].
  apply int_encode_espec; [done|]. unfold qint_ok in Hv. change (2 ^ 63) with 9223372036854775808 in Hv. unfold is_u64. lia.
Qed.

Ltac pfx_solve := repeat split; vm_compute; congruence.

Lemma qint_u64 v : qint_ok v -> is_u64 v.
Proof. unfold qint_ok, is_u64. change (2 ^ 63) with 9223372036854775808. lia. Qed.

Lemma indexed_codec i st : qint_ok i -> qcodec (fun buf => qpack_indexed_encode buf i st) qpack_indexed_decode (i, st).
Proof.
  intros Hi. assert (pfx_ok (mk_pfx 6 (indexed_prefix st))) as Hp by (destruct st; pfx_solve).
  exists (qint_wire (mk_pfx 6 (indexed_prefix st)) i). split; [apply int_encode_espec; [done|by apply qint_u64]|].
  intros post Hl. exists (i, st). split; [|done]. destruct (int_decode_dspec _ i Hp Hi post Hl) as (v & Ev & <-). cbn [pfx_bits] in Ev.
  unfold qpack_indexed_decode, is_indexed.
  destruct (qint_first (mk_pfx 6 (indexed_prefix st)) i post (fun b => negb (Z.land b QPACK_INDEXED =? 0))) as (x & Hx & E0 & Et);
    [done|unfold qint_ok in Hi; lia| |].
  { cbn [pfx_bits pfx_pattern]. intros x Hx. rewrite (land_mask 6) by (done || by destruct st). by destruct st. }
  rewrite Et, E0, Ev. cbn [negb pfx_pattern pfx_bits] in *. rewrite (land_mask 6) by (done || by destruct st). by destruct st.
Qed.

Lemma postbase_codec i : qint_ok i -> qcodec (fun buf => qpack_indexed_postbase_encode buf i) qpack_indexed_postbase_decode i.
Proof.
  intros Hi. assert (pfx_ok (mk_pfx 4 QPACK_POSTBASE_PATTERN)) as Hp by pfx_solve.
  exists (qint_wire (mk_pfx 4 QPACK_POSTBASE_PATTERN) i). split; [apply int_encode_espec; [done|by apply qint_u64]|].
  intros post Hl. exists i. split; [|done]. destruct (int_decode_dspec _ i Hp Hi post Hl) as (v & Ev & <-). cbn [pfx_bits] in Ev.
  unfold qpack_indexed_postbase_decode, is_postbase_indexed.
  destruct (qint_first (mk_pfx 4 QPACK_POSTBASE_PATTERN) i post (fun b => Z.land b QPACK_POSTBASE_MASK =? QPACK_POSTBASE_PATTERN))
    as (x & Hx & E0 & Et); [done|unfold qint_ok in Hi; lia| |by rewrite Et, Ev].
  cbn [pfx_bits pfx_pattern]. intros x Hx. by rewrite (land_mask 4) by done.
Qed.

Lemma namref_codec r s val :
  qint_ok (nr_index r) -> bytes_ok s -> zlen s <= ocap val -> zlen s < span_max ->
  qcodec (fun buf => qpack_literal_namref_encode buf r s) (fun buf => qpack_literal_namref_decode buf val)
    (r, mk_obuf (splice (op val) 0 s) (zlen s)).
Proof.
  intros Hi Hs Hc Hz. assert (pfx_ok (mk_pfx 4 (namref_prefix r))) as Hp by (destruct r as [i [] []]; pfx_solve).
  exists (qint_wire (mk_pfx 4 (namref_prefix r)) (nr_index r) ++ qstr_wire (mk_pfx 7 0) s). split.
  { by apply (espec_value (fun buf => qpack_int_encode buf (mk_pfx 4 (namref_prefix r)) (nr_index r))); [apply int_encode_espec; [|apply qint_u64]| |]. }
  unfold qpack_literal_namref_decode. apply dspec_value; [apply qint_wire_pos|apply qstr_wire_pos| |by apply value_dspec].
  intros post Hl. exists r. split; [|done]. destruct (int_decode_dspec _ _ Hp Hi post Hl) as (v & Ev & <-). cbn [pfx_bits] in Ev.
  unfold qpack_literal_namref_head, is_namref.
  destruct (qint_first (mk_pfx 4 (namref_prefix r)) (nr_index r) post (fun b => Z.land b 192 =? QPACK_NAMREF)) as (x & Hx & E0 & Et);
    [done|unfold qint_ok in Hi; lia| |].
  { cbn [pfx_bits pfx_pattern]. intros x Hx. rewrite (land_mask 4) by (done || by destruct r as [i [] []]). by destruct r as [i [] []]. }
  rewrite Et, E0, Ev. cbn [negb pfx_pattern pfx_bits] in *. unfold flag.
  rewrite !(land_mask 4) by (done || by destruct r as [i [] []]). by destruct r as [i [] []].
Qed.

Lemma postbaseref_codec r s val :
  qint_ok (pr_index r) -> bytes_ok s -> zlen s <= ocap val -> zlen s < span_max ->
  qcodec (fun buf => qpack_literal_postbase_encode buf r s) (fun buf => qpack_literal_postbase_decode buf val)
    (r, mk_obuf (splice (op val) 0 s) (zlen s)).
Proof.
  intros Hi Hs Hc Hz. assert (pfx_ok (mk_pfx 3 (postbaseref_prefix r))) as Hp by (destruct r as [i []]; pfx_solve).
  exists (qint_wire (mk_pfx 3 (postbaseref_prefix r)) (pr_index r) ++ qstr_wire (mk_pfx 7 0) s). split.
  { by apply (espec_value (fun buf => qpack_int_encode buf (mk_pfx 3 (postbaseref_prefix r)) (pr_index r))); [apply int_encode_espec; [|apply qint_u64]| |]. }
  unfold qpack_literal_postbase_decode. apply dspec_value; [apply qint_wire_pos|apply qstr_wire_pos| |by apply value_dspec].
  intros post Hl. exists r. split; [|done]. destruct (int_decode_dspec _ _ Hp Hi post Hl) as (v & Ev & <-). cbn [pfx_bits] in Ev.
  unfold qpack_literal_postbase_head, is_postbaseref.
  destruct (qint_first (mk_pfx 3 (postbaseref_prefix r)) (pr_index r) post
              (fun b => Z.land b QPACK_POSTBASEREF_MASK =? QPACK_POSTBASEREF_PATTERN)) as (x & Hx & E0 & Et);
    [done|unfold qint_ok in Hi; lia| |].
  { cbn [pfx_bits pfx_pattern]. intros x Hx. rewrite (land_mask 3) by (done || by destruct r as [i []]). by destruct r as [i []]. }
  rewrite Et, E0, Ev. cbn [negb pfx_pattern pfx_bits] in *. unfold flag.
  rewrite !(land_mask 3) by (done || by destruct r as [i []]). by destruct r as [i []].
Qed.

Lemma take_groups_pos f : forall m acc inp off v n, take_groups_loop f m acc inp off = Ok (v, n) -> off <= n.
Proof.
  induction f as [|f IH]; intros m acc inp off v n H; cbn in H; [done|].
  destruct (take_group m acc inp off) as [[[v' go] off']| |] eqn:E; try done. unfold take_group in E.
  destruct (_ || _) in E; [done|]. destruct (load inp off); [|done]. injection E as <- <- <-.
  destruct (negb _) in H; [apply IH in H; lia|]. injection H as <- <-. lia.
Qed.

Lemma int_decode_pos buf k v n : qpack_int_decode buf k = Ok (v, n) -> 1 <= n.
Proof.
  unfold qpack_int_decode, decode_body, take_groups. destruct (zlen buf =? 0); [done|]. destruct (load buf 0); [|done].
  destruct (_ <? _); [intros [= <- <-]; lia|]. apply take_groups_pos.
Qed.

(** The literal name is a string under a 3-bit prefix. *)
Lemma litname_is_string buf b nm :
  load buf 0 = Some b -> is_u8 b -> litname_name_decode buf (flag b QPACK_LITNAME_H) nm = qpack_string_decode_pfx buf 3 nm.
Proof.
  intros E0 Hb. unfold litname_name_decode, qpack_string_decode_pfx, take_header. rewrite E0.
  assert (flag b QPACK_LITNAME_H = negb (Z.land (Z.shiftr b 3) 1 =? 0)) as <-.
  { apply (u8_check (fun b => Bool.eqb (flag b QPACK_LITNAME_H) (negb (Z.land (Z.shiftr b 3) 1 =? 0)))) in Hb; [|reflexivity].
    by apply Bool.eqb_prop in Hb. }
  apply load_Some in E0. replace (zlen buf =? 0) with false by lia. destruct (qpack_int_decode buf 3) as [[len off]| |] eqn:Ei; [|done|done].
  apply int_decode_pos in Ei. unfold litname_bounds, str_value. cbn [qh_off qh_len qh_huff]. replace (off =? 0) with false by lia. cbn [negb andb].
  destruct (u64 (off + len) <=? zlen buf) eqn:E; [replace (zlen buf <? _) with false by lia|by replace (zlen buf <? _) with true by lia].
  done.
Qed.

Lemma litname_codec never f out :
  bytes_ok (f_name f) -> bytes_ok (f_value f) -> zlen (f_name f) < span_max -> zlen (f_value f) < span_max ->
  zlen (f_name f) <= ocap (fb_name out) -> zlen (f_value f) <= ocap (fb_value out) ->
  qcodec (fun buf => qpack_literal_name_encode buf never f) (fun buf => qpack_literal_name_decode buf out)
    (never, mk_fieldbuf (mk_obuf (splice (op (fb_name out)) 0 (f_name f)) (zlen (f_name f)))
                        (mk_obuf (splice (op (fb_value out)) 0 (f_value f)) (zlen (f_value f)))).
Proof.
  intros Hn Hv Hzn Hzv Hcn Hcv. set (p := mk_pfx 3 (Z.lor QPACK_LITNAME (bit never QPACK_LITNAME_N))).
  assert (spfx_ok p) as Hp by (destruct never; repeat split; vm_compute; congruence).
  destruct (spfx_pfx p Hp) as (Hp1 & Hp2 & _).
  exists (qstr_wire p (f_name f) ++ qstr_wire (mk_pfx 7 0) (f_value f)). split.
  { apply (espec_value (fun buf => qpack_string_encode_pfx buf (f_name f) p)); [by apply string_encode_espec|done|done]. }
  intros post Hl. eexists. split; [|done]. rewrite <- app_assoc in *. unfold qpack_literal_name_decode, is_litname.
  assert (exists x, 0 <= x < 16 /\ exists rest, qstr_wire p (f_name f) ++ qstr_wire (mk_pfx 7 0) (f_value f) ++ post = (pfx_pattern p + x) :: rest)
    as (x & Hx & rest & Ew).
  { unfold qstr_wire at 1. destruct (_ <? _).
    - destruct (qint_wire_head (with_h p) (zlen (henc (f_name f)))) as (x & rest & -> & Hx); [apply Hp2|apply zlen_nonneg|].
      cbn in Hx. exists (8 + x). split; [lia|]. eexists. cbn. f_equal. lia.
    - destruct (qint_wire_head p (zlen (f_name f))) as (x & rest & -> & Hx); [apply Hp1|apply zlen_nonneg|].
      cbn in Hx. exists x. split; [lia|]. eexists. cbn. reflexivity. }
  assert (load (qstr_wire p (f_name f) ++ qstr_wire (mk_pfx 7 0) (f_value f) ++ post) 0 = Some (pfx_pattern p + x)) as E0 by (by rewrite Ew).
  assert (first_byte (qstr_wire p (f_name f) ++ qstr_wire (mk_pfx 7 0) (f_value f) ++ post) (fun b => Z.land b 224 =? QPACK_LITNAME) = true) as Et.
  { rewrite Ew. cbn [first_byte]. rewrite (land_mask 4) by (done || by destruct never). by destruct never. }
  rewrite Et, E0. cbn [negb].
  assert (is_u8 (pfx_pattern p + x)) as H8.
  { assert (pfx_pattern p = 32 \/ pfx_pattern p = 48) by (destruct never; auto). unfold is_u8. lia. }
  rewrite litname_is_string by done.
  destruct (dspec_value (fun b => qpack_string_decode_pfx b 3 (fb_name out)) _ _ _ _ _ (qstr_wire_pos p _) (qstr_wire_pos (mk_pfx 7 0) _)
    (string_decode_dspec p (f_name f) (fb_name out) Hp Hn Hcn) (value_dspec (f_value f) (fb_value out) Hv Hcv) post) as (a & Ed & <-).
  { by rewrite <- app_assoc. }
  rewrite <- app_assoc in Ed. rewrite Ed. f_equal. f_equal. f_equal. unfold flag. rewrite (land_mask 4) by (done || by destruct never). by destruct never.
Qed.

Lemma prefix_codec p :
  qint_ok (required_insert_count p) -> qint_ok (delta_base p) -> pf_sign p = 0 \/ pf_sign p = 1 ->
  qcodec (fun buf => qpack_prefix_encode buf p) qpack_prefix_decode p.
Proof.
  intros H1 H2 Hs. assert (pfx_ok (mk_pfx 8 0)) as P1 by pfx_solve.
  assert (pfx_ok (mk_pfx 7 (sign_prefix (pf_sign p)))) as P2 by (destruct Hs as [-> | ->]; pfx_solve).
  set (l1 := qint_wire (mk_pfx 8 0) (required_insert_count p)). set (l2 := qint_wire (mk_pfx 7 (sign_prefix (pf_sign p))) (delta_base p)).
  exists (l1 ++ l2). split.
  { apply (espec_join (fun buf => qpack_int_encode buf (mk_pfx 8 0) (required_insert_count p))
                      (fun b => qpack_int_encode b (mk_pfx 7 (sign_prefix (pf_sign p))) (delta_base p)));
      apply int_encode_espec; auto using qint_u64. }
  intros post Hl. exists p. split; [|done]. rewrite <- app_assoc in *. unfold qpack_prefix_decode.
  destruct (int_decode_dspec _ _ P1 H1 (l2 ++ post) Hl) as (v & Ev & <-). cbn [pfx_bits] in Ev. fold l1 in Ev. rewrite Ev.
  destruct (qint_first (mk_pfx 7 (sign_prefix (pf_sign p))) (delta_base p) post (fun _ => true)) as (x & Hx & E0 & _);
    [done|unfold qint_ok in H2; lia|done|]. fold l2 in E0.
  rewrite load_app_r, Z.sub_diag, E0 by lia. replace (Z.to_nat (zlen l1)) with (length l1) by (unfold zlen; lia). rewrite drop_app_length.
  destruct (int_decode_dspec _ _ P2 H2 post) as (v & Ev2 & <-). { fold l2. rewrite zlen_app in Hl. pose proof (zlen_nonneg l1). lia. }
  cbn [pfx_bits] in Ev2. fold l2 in Ev2. rewrite Ev2. cbn [pfx_bits pfx_pattern] in *.
  change (prefix_join (zlen l1) (zlen l2)) with (join (zlen l1) (zlen l2)). rewrite join_pos by apply qint_wire_pos.
  rewrite zlen_app. f_equal. f_equal. rewrite (land_mask 7) by (done || by destruct Hs as [-> | ->]).
  destruct p as [r s d]. cbn [required_insert_count pf_sign delta_base] in *. f_equal. by destruct Hs as [-> | ->].
Qed.

(** The leading byte of an instruction selects it. *)
Lemma enc_classify k s x :
  load enc_specs (enc_kind_index k) = Some s -> 0 <= x < 2 ^ is_prefix_bits s ->
  spec_classify enc_specs (is_pattern s + x) = enc_kind_index k.
Proof.
  intros E Hx. assert (is_u8 x) as H8 by (unfold is_u8; destruct k; injection E as <-; cbn in Hx; lia).
  apply (u8_check (fun x => negb (x <? 2 ^ is_prefix_bits s) || (spec_classify enc_specs (is_pattern s + x) =? enc_kind_index k))) in H8;
    [|destruct k; injection E as <-; vm_compute; reflexivity].
  lia.
Qed.

Lemma dec_classify k s x :
  load dec_specs (dec_kind_index k) = Some s -> 0 <= x < 2 ^ is_prefix_bits s ->
  spec_classify dec_specs (is_pattern s + x) = dec_kind_index k.
Proof.
  intros E Hx. assert (is_u8 x) as H8 by (unfold is_u8; destruct k; injection E as <-; cbn in Hx; lia).
  apply (u8_check (fun x => negb (x <? 2 ^ is_prefix_bits s) || (spec_classify dec_specs (is_pattern s + x) =? dec_kind_index k))) in H8;
    [|destruct k; injection E as <-; vm_compute; reflexivity].
  lia.
Qed.

Lemma instr_decode_reads specs kind s v post :
  load specs kind = Some s -> pfx_ok (mk_pfx (is_prefix_bits s) (is_pattern s)) -> qint_ok v ->
  (forall x, 0 <= x < 2 ^ is_prefix_bits s -> spec_classify specs (is_pattern s + x) = kind) ->
  let l := qint_wire (mk_pfx (is_prefix_bits s) (is_pattern s)) v in
  zlen (l ++ post) < span_max -> instr_decode (l ++ post) specs = Ok (kind, v, zlen l).
Proof.
  intros Es Hp Hv Hk l Hl. unfold instr_decode. destruct (int_decode_dspec _ v Hp Hv post Hl) as (v' & Ev & <-). cbn [pfx_bits] in Ev.
  destruct (qint_first (mk_pfx (is_prefix_bits s) (is_pattern s)) v post (fun _ => true)) as (x & Hx & E0 & _);
    [apply Hp|unfold qint_ok in Hv; lia|done|]. fold l in E0, Ev. rewrite E0. apply load_Some in E0.
  replace (zlen (l ++ post) =? 0) with false by lia. cbn [pfx_bits pfx_pattern] in *. rewrite Hk by done. cbv zeta.
  pose proof (load_Some _ _ _ Es). replace (zlen specs <=? kind) with false by lia. by rewrite Es, Ev.
Qed.

Lemma enc_instr_codec k v : qint_ok v -> qcodec (fun buf => qpack_enc_instr_encode buf k v) qpack_enc_instr_decode (k, v).
Proof.
  intros Hv. destruct (load enc_specs (enc_kind_index k)) as [s|] eqn:Es; [|by destruct k].
  assert (pfx_ok (mk_pfx (is_prefix_bits s) (is_pattern s))) as Hp by (destruct k; injection Es as <-; pfx_solve).
  exists (qint_wire (mk_pfx (is_prefix_bits s) (is_pattern s)) v). split.
  { eapply espec_ext; [|apply int_encode_espec; [exact Hp|by apply qint_u64]]. intros buf. unfold qpack_enc_instr_encode. by rewrite Es. }
  intros post Hl. exists (k, v). split; [|done]. unfold qpack_enc_instr_decode.
  rewrite (instr_decode_reads enc_specs (enc_kind_index k) s v post Es Hp Hv (fun x => enc_classify k s x Es) Hl). by destruct k.
Qed.

Lemma dec_instr_codec k v : qint_ok v -> qcodec (fun buf => qpack_dec_instr_encode buf k v) qpack_dec_instr_decode (k, v).
Proof.
  intros Hv. destruct (load dec_specs (dec_kind_index k)) as [s|] eqn:Es; [|by destruct k].
  assert (pfx_ok (mk_pfx (is_prefix_bits s) (is_pattern s))) as Hp by (destruct k; injection Es as <-; pfx_solve).
  exists (qint_wire (mk_pfx (is_prefix_bits s) (is_pattern s)) v). split.
  { eapply espec_ext; [|apply int_encode_espec; [exact Hp|by apply qint_u64]]. intros buf. unfold qpack_dec_instr_encode. by rewrite Es. }
  intros post Hl. exists (k, v). split; [|done]. unfold qpack_dec_instr_decode.
  rewrite (instr_decode_reads dec_specs (dec_kind_index k) s v post Es Hp Hv (fun x => dec_classify k s x Es) Hl). by destruct k.
Qed.

(** ** The decoders on arbitrary bytes *)

Lemma prefix_oob buf :
  span_ok buf -> (qpack_prefix_decode buf = Oob <-> exists ric, qpack_int_decode buf 8 = Ok (ric, zlen buf)).
Proof.
  intros Hb. unfold qpack_prefix_decode. pose proof (int_decode_dsafe 8 ltac:(lia) buf Hb) as Hi. cbv beta in Hi.
  destruct (qpack_int_decode buf 8) as [[ric off]| |]; [|split; [done|intros (? & [=])]|done].
  destruct Hi as [Ho _]. destruct (Z.eq_dec off (zlen buf)) as [->|Hne].
  - rewrite load_out by lia. split; eauto.
  - destruct (load_is_Some buf off) as [b Eb]; [lia|]. rewrite Eb. destruct Hb as [Hb Hz].
    assert (span_ok (drop (Z.to_nat off) buf)) as Hd by (split; [by apply bytes_ok_drop|rewrite zlen_drop; lia]).
    pose proof (int_decode_dsafe 7 ltac:(lia) _ Hd) as Hi2. cbv beta in Hi2.
    destruct (qpack_int_decode (drop (Z.to_nat off) buf) 7) as [[db w]| |]; [|split; [done|intros (? & [=]); lia]|done].
    split; [done|intros (? & [=]); lia].
Qed.

Lemma dsafe_value {A} (head : list Z -> res (A * Z)) P val :
  dsafe head P -> dsafe (fun buf => decode_value buf (head buf) val) (fun a => P a.1 /\ fits_obuf val a.2).
Proof.
  intros Hh buf Hb. specialize (Hh buf Hb). unfold decode_value, tail_span. destruct (head buf) as [[a off]| |]; [|done|done].
  destruct Hh as [Ho HP]. destruct Hb as [Hb Hz].
  assert (span_ok (drop (Z.to_nat off) buf)) as Hd by (split; [by apply bytes_ok_drop|rewrite zlen_drop; lia]).
  pose proof (string_decode_dsafe 7 val ltac:(lia) _ Hd) as Hs. cbv beta in Hs. fold (qpack_string_decode (drop (Z.to_nat off) buf) val) in Hs.
  destruct (qpack_string_decode _ val) as [[v w]| |]; [|done|done]. destruct Hs as [Hw Hv]. rewrite zlen_drop in Hw by lia.
  rewrite join_pos by lia. split; [lia|done].
Qed.

(** A first-byte test before an integer decoder. *)
Lemma first_byte_load buf test : first_byte buf test = true -> exists b rest, buf = b :: rest.
Proof. destruct buf; [done|eauto]. Qed.

Lemma dsafe_head {A} buf test n (k : Z -> Z -> A) P :
  1 <= n <= 8 -> span_ok buf -> (forall b v, 0 <= v < 2 ^ 63 + 2 ^ n -> P (k b v)) ->
  match (if negb (first_byte buf test) then Fail
         else match load buf 0 with
              | None => Oob
              | Some b => match qpack_int_decode buf n with Ok (i, m) => Ok (k b i, m) | Fail => Fail | Oob => Oob end
              end) with
  | Ok (a, m) => 1 <= m <= zlen buf /\ P a | Fail => True | Oob => False end.
Proof.
  intros Hn Hb HP. destruct (first_byte buf test) eqn:E; [|done]. cbn [negb]. apply first_byte_load in E as (b & rest & E).
  assert (load buf 0 = Some b) as -> by (by rewrite E). pose proof (int_decode_dsafe n Hn buf Hb) as Hi. cbv beta in Hi.
  destruct (qpack_int_decode buf n) as [[i m]| |]; try done. destruct Hi. split; [done|auto].
Qed.

Lemma instr_decode_dsafe specs : Forall (fun s => 1 <= is_prefix_bits s <= 8) specs ->
  forall buf, span_ok buf -> match instr_decode buf specs with Ok (k, v, n) => 1 <= n <= zlen buf | Fail => True | Oob => False end.
Proof.
  intros Hs buf Hb. unfold instr_decode. pose proof (zlen_nonneg buf). destruct (zlen buf =? 0) eqn:E0; [done|].
  destruct (load_is_Some buf 0) as [b Eb]; [lia|]. rewrite Eb. cbv zeta. set (k := spec_classify specs b).
  assert (0 <= k) by (subst k; clear; induction specs as [|s l IH]; cbn; [lia|]; destruct (spec_matches s b); lia).
  destruct (zlen specs <=? k) eqn:E; [done|]. destruct (load_is_Some specs k) as [s Es]; [lia|]. rewrite Es.
  assert (1 <= is_prefix_bits s <= 8) as Hn.
  { unfold load in Es. bcase in Es; [|done]. by apply (Forall_lookup_1 _ _ _ _ Hs) in Es. }
  pose proof (int_decode_dsafe _ Hn buf Hb) as Hi. cbv beta in Hi. destruct (qpack_int_decode buf _) as [[v n]| |]; tauto.
Qed.

Lemma val_u64 n v : 1 <= n <= 8 -> 0 <= v < 2 ^ 63 + 2 ^ n -> 0 <= v < 2 ^ 64.
Proof. intros Hn Hv. pose proof (pow_bound n Hn). change (2 ^ 64) with (2 ^ 63 + 2 ^ 63). lia. Qed.

Lemma indexed_dsafe : dsafe qpack_indexed_decode (fun a => 0 <= a.1 < 2 ^ 64).
Proof.
  intros buf Hb. apply (dsafe_head buf _ 6 (fun b i => (i, negb (Z.land b QPACK_STATIC =? 0)))); [lia|done|].
  intros b v. apply val_u64. lia.
Qed.

Lemma postbase_dsafe : dsafe qpack_indexed_postbase_decode (fun i => 0 <= i < 2 ^ 64).
Proof.
  intros buf Hb. unfold qpack_indexed_postbase_decode. destruct (negb _); [done|]. pose proof (int_decode_dsafe 4 ltac:(lia) buf Hb) as Hi.
  cbv beta in Hi. destruct (qpack_int_decode buf 4) as [[v m]| |]; try done. destruct Hi as [H1 H2]. split; [done|]. apply (val_u64 4); [lia|done].
Qed.

Lemma namref_head_dsafe : dsafe qpack_literal_namref_head (fun r => 0 <= nr_index r < 2 ^ 64).
Proof.
  intros buf Hb. apply (dsafe_head buf _ 4 (fun b i => mk_nameref i (flag b QPACK_NAMREF_T) (flag b QPACK_NAMREF_N))); [lia|done|].
  intros b v. apply val_u64. lia.
Qed.

Lemma postbase_head_dsafe : dsafe qpack_literal_postbase_head (fun r => 0 <= pr_index r < 2 ^ 64).
Proof.
  intros buf Hb. apply (dsafe_head buf _ 3 (fun b i => mk_postbaseref i (flag b QPACK_POSTBASEREF_N))); [lia|done|].
  intros b v. apply val_u64. lia.
Qed.

Lemma litname_dsafe out :
  dsafe (fun buf => qpack_literal_name_decode buf out)
    (fun a => fits_obuf (fb_name out) (fb_name a.2) /\ fits_obuf (fb_value out) (fb_value a.2)).
Proof.
  intros buf Hb. unfold qpack_literal_name_decode, is_litname. destruct (first_byte buf _) eqn:E; [|done]. cbn [negb].
  apply first_byte_load in E as (b & rest & E). assert (load buf 0 = Some b) as E0 by (by rewrite E). rewrite E0.
  rewrite litname_is_string by (done || by apply (bytes_ok_lookup buf 0); [apply Hb|]).
  pose proof (dsafe_value _ _ (fb_value out) (string_decode_dsafe 3 (fb_name out) ltac:(lia)) buf Hb) as H. cbv beta in H.
  destruct (decode_value buf _ (fb_value out)) as [[[nm v] m]| |]; [|done|done]. destruct H as (H1 & H2 & H3). by split.
Qed.

Lemma enc_instr_dsafe : dsafe qpack_enc_instr_decode (fun _ => True).
Proof.
  intros buf Hb. unfold qpack_enc_instr_decode. pose proof (instr_decode_dsafe enc_specs ltac:(repeat constructor; cbn; lia) buf Hb) as H.
  by destruct (instr_decode buf enc_specs) as [[[k v] m]| |].
Qed.

Lemma dec_instr_dsafe : dsafe qpack_dec_instr_decode (fun _ => True).
Proof.
  intros buf Hb. unfold qpack_dec_instr_decode. pose proof (instr_decode_dsafe dec_specs ltac:(repeat constructor; cbn; lia) buf Hb) as H.
  by destruct (instr_decode buf dec_specs) as [[[k v] m]| |].
Qed.

(** C39: the QPACK encoders and decoders agree.  For integers under any prefix, strings (Huffman-coded exactly when that
    is shorter), the field section prefix, the five field line representations and the encoder and decoder stream
    instructions: the encoder writes the whole representation when it fits its buffer and otherwise returns 0 without
    leaving it, and the decoder, given the representation followed by anything, returns what was encoded and its exact
    length. *)
Theorem qpack_representations_roundtrip :
  (forall p v, pfx_ok p -> qint_ok v ->
     qcodec (fun buf => qpack_int_encode buf p v) (fun buf => qpack_int_decode buf (pfx_bits p)) v) /\
  (forall p s dst, spfx_ok p -> bytes_ok s -> zlen s < span_max -> zlen s <= ocap dst ->
     qcodec (fun buf => qpack_string_encode_pfx buf s p) (fun buf => qpack_string_decode_pfx buf (pfx_bits p) dst)
       (mk_obuf (splice (op dst) 0 s) (zlen s))) /\
  (forall p, qint_ok (required_insert_count p) -> qint_ok (delta_base p) -> pf_sign p = 0 \/ pf_sign p = 1 ->
     qcodec (fun buf => qpack_prefix_encode buf p) qpack_prefix_decode p) /\
  (forall i st, qint_ok i -> qcodec (fun buf => qpack_indexed_encode buf i st) qpack_indexed_decode (i, st)) /\
  (forall i, qint_ok i -> qcodec (fun buf => qpack_indexed_postbase_encode buf i) qpack_indexed_postbase_decode i) /\
  (forall r s val, qint_ok (nr_index r) -> bytes_ok s -> zlen s <= ocap val -> zlen s < span_max ->
     qcodec (fun buf => qpack_literal_namref_encode buf r s) (fun buf => qpack_literal_namref_decode buf val)
       (r, mk_obuf (splice (op val) 0 s) (zlen s))) /\
  (forall r s val, qint_ok (pr_index r) -> bytes_ok s -> zlen s <= ocap val -> zlen s < span_max ->
     qcodec (fun buf => qpack_literal_postbase_encode buf r s) (fun buf => qpack_literal_postbase_decode buf val)
       (r, mk_obuf (splice (op val) 0 s) (zlen s))) /\
  (forall never f out, bytes_ok (f_name f) -> bytes_ok (f_value f) -> zlen (f_name f) < span_max -> zlen (f_value f) < span_max ->
     zlen (f_name f) <= ocap (fb_name out) -> zlen (f_value f) <= ocap (fb_value out) ->
     qcodec (fun buf => qpack_literal_name_encode buf never f) (fun buf => qpack_literal_name_decode buf out)
       (never, mk_fieldbuf (mk_obuf (splice (op (fb_name out)) 0 (f_name f)) (zlen (f_name f)))
                           (mk_obuf (splice (op (fb_value out)) 0 (f_value f)) (zlen (f_value f))))) /\
  (forall k v, qint_ok v -> qcodec (fun buf => qpack_enc_instr_encode buf k v) qpack_enc_instr_decode (k, v)) /\
  (forall k v, qint_ok v -> qcodec (fun buf => qpack_dec_instr_encode buf k v) qpack_dec_instr_decode (k, v)).
Proof.
  repeat apply conj; auto using qint_codec, prefix_codec, indexed_codec, postbase_codec, namref_codec, postbaseref_codec, litname_codec,
    enc_instr_codec, dec_instr_codec.
  intros p s dst Hp Hs Hz Hc. exists (qstr_wire p s). split; [by apply string_encode_espec|by apply string_decode_dspec].
Qed.

(** The theorem's parts at concrete inputs: an integer over the prefix, a string that Huffman coding shortens, a name
    reference. *)
Lemma qpack_representations_roundtrip_witness :
  qcodec (fun buf => qpack_int_encode buf (mk_pfx 5 0x20) 1337) (fun buf => qpack_int_decode buf 5) 1337 /\
  qcodec (fun buf => qpack_string_encode_pfx buf [119; 119; 119] (mk_pfx 7 0))
    (fun buf => qpack_string_decode_pfx buf 7 (mk_obuf [0; 0; 0; 0] 0)) (mk_obuf [119; 119; 119; 0] 3) /\
  qcodec (fun buf => qpack_indexed_encode buf 70 true) qpack_indexed_decode (70, true).
Proof.
  destruct qpack_representations_roundtrip as (H1 & H2 & _ & H4 & _).
  split; [apply (H1 (mk_pfx 5 32)); [pfx_solve|unfold qint_ok; lia]|].
  split; [|apply H4; unfold qint_ok; lia].
  apply (H2 (mk_pfx 7 0) [119; 119; 119] (mk_obuf [0; 0; 0; 0] 0)); [repeat split; vm_compute; congruence| |reflexivity|vm_compute; congruence].
  repeat constructor; vm_compute; congruence.
Defined.

(** C40: whatever bytes a peer sends, the QPACK decoders stay inside their input and their output buffers, and a value
    they accept consumed between one and all of the bytes and did not wrap; the only read past the input is the field
    section prefix's read of its sign bit, which happens exactly when the Required Insert Count ends the input. *)
Theorem qpack_decoders_safe (n : Z) (dst : obuf) (out : qpack_fieldbuf) :
  1 <= n <= 7 ->
  dsafe (fun buf => qpack_int_decode buf n) (fun v => 0 <= v < 2 ^ 63 + 2 ^ n) /\
  dsafe (fun buf => qpack_string_decode_pfx buf n dst) (fits_obuf dst) /\
  dsafe qpack_indexed_decode (fun a => 0 <= a.1 < 2 ^ 64) /\
  dsafe qpack_indexed_postbase_decode (fun i => 0 <= i < 2 ^ 64) /\
  dsafe (fun buf => qpack_literal_namref_decode buf dst) (fun a => 0 <= nr_index a.1 < 2 ^ 64 /\ fits_obuf dst a.2) /\
  dsafe (fun buf => qpack_literal_postbase_decode buf dst) (fun a => 0 <= pr_index a.1 < 2 ^ 64 /\ fits_obuf dst a.2) /\
  dsafe (fun buf => qpack_literal_name_decode buf out)
    (fun a => fits_obuf (fb_name out) (fb_name a.2) /\ fits_obuf (fb_value out) (fb_value a.2)) /\
  dsafe qpack_enc_instr_decode (fun _ => True) /\
  dsafe qpack_dec_instr_decode (fun _ => True) /\
  (forall buf, span_ok buf -> (qpack_prefix_decode buf = Oob <-> exists ric, qpack_int_decode buf 8 = Ok (ric, zlen buf))).
Proof.
  intros Hn. split; [apply int_decode_dsafe; lia|]. split; [by apply string_decode_dsafe|]. split; [apply indexed_dsafe|].
  split; [apply postbase_dsafe|]. split; [apply (dsafe_value _ _ dst namref_head_dsafe)|].
  split; [apply (dsafe_value _ _ dst postbase_head_dsafe)|]. split; [apply litname_dsafe|].
  split; [apply enc_instr_dsafe|]. split; [apply dec_instr_dsafe|]. apply prefix_oob.
Qed.

Lemma qpack_decoders_safe_witness :
  match qpack_string_decode_pfx [0x82; 0xff; 0xff] 7 (mk_obuf [0; 0] 0) with Ok (d, m) => 1 <= m <= 3 /\ fits_obuf (mk_obuf [0; 0] 0) d | Fail => True | Oob => False end /\
  qpack_prefix_decode [3] = Oob.
Proof.
  destruct (qpack_decoders_safe 7 (mk_obuf [0; 0] 0) (mk_fieldbuf (mk_obuf [] 0) (mk_obuf [] 0))) as (_ & Hs & _ & _ & _ & _ & _ & _ & _ & Hp); [lia|].
  split.
  - apply (Hs [0x82; 0xff; 0xff]). split; [|reflexivity]. repeat constructor; vm_compute; congruence.
  - apply Hp; [split; [|reflexivity]; repeat constructor; vm_compute; congruence|]. exists 3. reflexivity.
Defined.
