(* ===== verification/QpackTable.v ===== *)
(** * The QPACK static and dynamic tables

    src/src/app/qpack/qpack/static_table.c, dyntable.c, dynget.c, dynfind.c,
    relindex.c, base.c, insertcount.c (RFC 9204 3).  The dynamic table keeps
    the bytes of its entries in a mirrored byte ring and their positions in a
    ring of slots; it is proved to refine the list of its live entries. *)

From Stdlib Require Import String Ascii.
From stdpp Require Import base numbers list option.
From Stdlib Require Import ZArith Lia.
From S2P Require Import Prelude Bytes QpackHuff QpackStr ConnTable.

(** ** Static table *)

(** A C string literal: its octets and the terminating NUL. *)
Fixpoint string_octets (s : string) : list Z :=
  match s with EmptyString => [] | String c s' => Z.of_N (N_of_ascii c) :: string_octets s' end.
Definition cstr (s : string) : list Z := (string_octets s ++ [0])%list.

Open Scope string_scope.
(* src/src/app/qpack/qpack/static_table.c : table@9-111 *)
Definition static_table : list (list Z * list Z) :=
  [(cstr ":authority", [0]);
   (cstr ":path", cstr "/");
   (cstr "age", cstr "0");
   (cstr "content-disposition", [0]);
   (cstr "content-length", cstr "0");
   (cstr "cookie", [0]);
   (cstr "date", [0]);
   (cstr "etag", [0]);
   (cstr "if-modified-since", [0]);
   (cstr "if-none-match", [0]);
   (cstr "last-modified", [0]);
   (cstr "link", [0]);
   (cstr "location", [0]);
   (cstr "referer", [0]);
   (cstr "set-cookie", [0]);
   (cstr ":method", cstr "CONNECT");
   (cstr ":method", cstr "DELETE");
   (cstr ":method", cstr "GET");
   (cstr ":method", cstr "HEAD");
   (cstr ":method", cstr "OPTIONS");
   (cstr ":method", cstr "POST");
   (cstr ":method", cstr "PUT");
   (cstr ":scheme", cstr "http");
   (cstr ":scheme", cstr "https");
   (cstr ":status", cstr "103");
   (cstr ":status", cstr "200");
   (cstr ":status", cstr "304");
   (cstr ":status", cstr "404");
   (cstr ":status", cstr "503");
   (cstr "accept", cstr "*/*");
   (cstr "accept", cstr "application/dns-message");
   (cstr "accept-encoding", cstr "gzip, deflate, br");
   (cstr "accept-ranges", cstr "bytes");
   (cstr "access-control-allow-headers", cstr "cache-control");
   (cstr "access-control-allow-headers", cstr "content-type");
   (cstr "access-control-allow-origin", cstr "*");
   (cstr "cache-control", cstr "max-age=0");
   (cstr "cache-control", cstr "max-age=2592000");
   (cstr "cache-control", cstr "max-age=604800");
   (cstr "cache-control", cstr "no-cache");
   (cstr "cache-control", cstr "no-store");
   (cstr "cache-control", cstr "public, max-age=31536000");
   (cstr "content-encoding", cstr "br");
   (cstr "content-encoding", cstr "gzip");
   (cstr "content-type", cstr "application/dns-message");
   (cstr "content-type", cstr "application/javascript");
   (cstr "content-type", cstr "application/json");
   (cstr "content-type", cstr "application/x-www-form-urlencoded");
   (cstr "content-type", cstr "image/gif");
   (cstr "content-type", cstr "image/jpeg");
   (cstr "content-type", cstr "image/png");
   (cstr "content-type", cstr "text/css");
   (cstr "content-type", cstr "text/html; charset=utf-8");
   (cstr "content-type", cstr "text/plain");
   (cstr "content-type", cstr "text/plain;charset=utf-8");
   (cstr "range", cstr "bytes=0-");
   (cstr "strict-transport-security", cstr "max-age=31536000");
   (cstr "strict-transport-security", cstr "max-age=31536000; includesubdomains");
   (cstr "strict-transport-security", cstr "max-age=31536000; includesubdomains; preload");
   (cstr "vary", cstr "accept-encoding");
   (cstr "vary", cstr "origin");
   (cstr "x-content-type-options", cstr "nosniff");
   (cstr "x-xss-protection", cstr "1; mode=block");
   (cstr ":status", cstr "100");
   (cstr ":status", cstr "204");
   (cstr ":status", cstr "206");
   (cstr ":status", cstr "302");
   (cstr ":status", cstr "400");
   (cstr ":status", cstr "403");
   (cstr ":status", cstr "421");
   (cstr ":status", cstr "425");
   (cstr ":status", cstr "500");
   (cstr "accept-language", [0]);
   (cstr "access-control-allow-credentials", cstr "FALSE");
   (cstr "access-control-allow-credentials", cstr "TRUE");
   (cstr "access-control-allow-headers", cstr "*");
   (cstr "access-control-allow-methods", cstr "get");
   (cstr "access-control-allow-methods", cstr "get, post, options");
   (cstr "access-control-allow-methods", cstr "options");
   (cstr "access-control-expose-headers", cstr "content-length");
   (cstr "access-control-request-headers", cstr "content-type");
   (cstr "access-control-request-method", cstr "get");
   (cstr "access-control-request-method", cstr "post");
   (cstr "alt-svc", cstr "clear");
   (cstr "authorization", [0]);
   (cstr "content-security-policy", cstr "script-src 'none'; object-src 'none'; base-uri 'none'");
   (cstr "early-data", cstr "1");
   (cstr "expect-ct", [0]);
   (cstr "forwarded", [0]);
   (cstr "if-range", [0]);
   (cstr "origin", [0]);
   (cstr "purpose", cstr "prefetch");
   (cstr "server", [0]);
   (cstr "timing-allow-origin", cstr "*");
   (cstr "upgrade-insecure-requests", cstr "1");
   (cstr "user-agent", [0]);
   (cstr "x-forwarded-for", [0]);
   (cstr "x-frame-options", cstr "deny");
   (cstr "x-frame-options", cstr "sameorigin")].
Close Scope string_scope.

(* src/src/app/qpack/qpack/static_table.h : QPACK_STATIC_COUNT *)
Definition QPACK_STATIC_COUNT : Z := 99.

(* src/src/app/qpack/qpack/static_table.c : qpack_static_get *)
Definition qpack_static_get (index : Z) : res (list Z * list Z) :=
  if QPACK_STATIC_COUNT <=? index then Fail
  else match load static_table index with Some e => Ok e | None => Oob end.

(* src/src/app/qpack/qpack/static_table.c : str_eq *)
Fixpoint str_eq (a b : list Z) : option bool :=
  match a, b with
  | x :: a', y :: b' => if x =? y then if x =? 0 then Some true else str_eq a' b' else Some false
  | _, _ => None
  end.

(* src/src/app/qpack/qpack/static_table.c : entry_eq *)
Definition entry_eq (i : Z) (name value : list Z) : option bool :=
  e ← load static_table i;
  n ← str_eq e.1 name;
  if (n : bool) then str_eq e.2 value else Some false.

Fixpoint static_find_loop (n : nat) (i : Z) (name value : list Z) : option Z :=
  match n with
  | O => Some (-1)
  | S n' => h ← entry_eq i name value; if (h : bool) then Some i else static_find_loop n' (i + 1) name value
  end.

(* src/src/app/qpack/qpack/static_table.c : qpack_static_find *)
Definition qpack_static_find (name value : list Z) : option Z :=
  static_find_loop (Z.to_nat QPACK_STATIC_COUNT) 0 name value.

(* src/src/app/qpack/qpackdyn/cstr.h : qdyn_cstr_len *)
Fixpoint qdyn_cstr_len (s : list Z) : option Z :=
  match s with
  | [] => None
  | c :: s' => if c =? 0 then Some 0 else n ← qdyn_cstr_len s'; Some (n + 1)
  end.

(** ** Indices *)

(* src/src/app/qpack/qpack/base.c : qpack_base *)
Definition qpack_base (ric sign delta_base : Z) : Z :=
  if sign =? 0 then u64 (ric + delta_base) else u64 (u64 (ric - delta_base) - 1).

(* src/src/app/qpack/qpack/base.c : qpack_base_valid *)
Definition qpack_base_valid (ric sign delta_base : Z) : bool := if sign =? 0 then true else delta_base <? ric.

(* src/src/app/qpack/qpack/relindex.c : qpack_rel_to_abs *)
Definition qpack_rel_to_abs (base rel : Z) : Z := u64 (u64 (base - rel) - 1).

(* src/src/app/qpack/qpack/relindex.c : qpack_postbase_to_abs *)
Definition qpack_postbase_to_abs (base postbase : Z) : Z := u64 (base + postbase).

(** ** Required Insert Count *)

(** [None] is a division by zero. *)
(* src/src/app/qpack/qpack/insertcount.c : qpack_ric_encode *)
Definition qpack_ric_encode (ric max_entries : Z) : option Z :=
  if ric =? 0 then Some 0
  else
    let full := u64 (2 * max_entries) in
    if full =? 0 then None else Some (u64 (ric mod full + 1)).

(* src/src/app/qpack/qpack/insertcount.h : qpack_ric_ctx *)
Record qpack_ric_ctx := mk_ric_ctx { max_entries : Z; total_inserts : Z }.

(* src/src/app/qpack/qpack/insertcount.c : ric_candidate *)
Definition ric_candidate (encoded full_range max_value : Z) : option Z :=
  if full_range =? 0 then None
  else
    let max_wrapped := u64 (max_value / full_range * full_range) in
    Some (u64 (u64 (max_wrapped + encoded) - 1)).

(* src/src/app/qpack/qpack/insertcount.c : ric_correct *)
Definition ric_correct (ric max_value full_range : Z) : option Z :=
  if ric <=? max_value then Some ric
  else if ric <=? full_range then None
  else Some (u64 (ric - full_range)).

(* src/src/app/qpack/qpack/insertcount.c : ric_resolve *)
Definition ric_resolve (encoded : Z) (c : qpack_ric_ctx) : res Z :=
  let full_range := u64 (2 * max_entries c) in
  let max_value := u64 (total_inserts c + max_entries c) in
  if full_range <? encoded then Fail
  else
    match ric_candidate encoded full_range max_value with
    | None => Oob
    | Some ric =>
        match ric_correct ric max_value full_range with
        | None => Fail
        | Some ric => if ric =? 0 then Fail else Ok ric
        end
    end.

(* src/src/app/qpack/qpack/insertcount.c : qpack_ric_decode *)
Definition qpack_ric_decode (encoded : Z) (c : qpack_ric_ctx) : res Z :=
  if encoded =? 0 then Ok 0 else ric_resolve encoded c.

(* src/src/app/qpack/qpack/insertcount.c : qpack_ric_min_ok *)
Definition qpack_ric_min_ok (ric : Z) (has_dynamic_ref : bool) (max_abs_ref : Z) : bool :=
  let expected := if has_dynamic_ref then u64 (max_abs_ref + 1) else 0 in expected <=? ric.

(* src/src/app/qpack/qpack/insertcount.c : qpack_incr_valid *)
Definition qpack_incr_valid (known_received increment total : Z) : bool :=
  negb (increment =? 0) && (u64 (known_received + increment) <=? total).

(* src/src/app/qpack/qpack/insertcount.c : qpack_section_ack_valid *)
Definition qpack_section_ack_valid (pending_acks : Z) : bool := 0 <? pending_acks.

(** ** dyntable.c *)

(* src/src/app/qpack/qpack/dyntable.h : QPACK_DYN_MAX_CAPACITY *)
Definition QPACK_DYN_MAX_CAPACITY : Z := 2016.
(* src/src/app/qpack/qpack/dyntable.h : QPACK_DYN_MAX_ENTRIES *)
Definition QPACK_DYN_MAX_ENTRIES : Z := 63.

(* src/src/app/qpack/qpack/dyntable.h : qpack_dyn_entry *)
Record qpack_dyn_entry := mk_entry { e_off : Z; e_name_len : Z; e_value_len : Z }.

(* src/src/app/qpack/qpack/dyntable.h : qpack_dyn *)
Record qpack_dyn := mk_dyn {
  d_bytes : list Z; d_ring : list qpack_dyn_entry; d_head : Z; d_count : Z; d_tail : Z; d_dropped : Z;
  d_size : Z; d_capacity : Z; d_max_capacity : Z }.

(* src/src/app/qpack/qpack/dyntable.c : entry_size *)
Definition entry_size (name_len value_len : Z) : Z := u64 (u64 (name_len + value_len) + 32).

(* src/src/app/qpack/qpack/dyntable.c : clamp_capacity *)
Definition clamp_capacity (capacity : Z) : Z :=
  if capacity <? QPACK_DYN_MAX_CAPACITY then capacity else QPACK_DYN_MAX_CAPACITY.

(* src/src/app/qpack/qpack/dyntable.c : qpack_dyn_init *)
Definition qpack_dyn_init (t : qpack_dyn) (capacity : Z) : qpack_dyn :=
  mk_dyn (d_bytes t) (d_ring t) 0 0 0 0 0 (clamp_capacity capacity) (clamp_capacity capacity).

(* src/src/app/qpack/qpack/dyntable.c : qpack_dyn_size *)
Definition qpack_dyn_size (t : qpack_dyn) : Z := d_size t.

(* src/src/app/qpack/qpack/dyntable.c : evict_oldest *)
Definition evict_oldest (t : qpack_dyn) : option qpack_dyn :=
  e ← load (d_ring t) (d_head t);
  Some (mk_dyn (d_bytes t) (d_ring t) ((d_head t + 1) mod QPACK_DYN_MAX_ENTRIES) (d_count t - 1) (d_tail t)
          (u64 (d_dropped t + 1)) (u64 (d_size t - entry_size (e_name_len e) (e_value_len e)))
          (d_capacity t) (d_max_capacity t)).

(* src/src/app/qpack/qpack/dyntable.c : over_capacity *)
Definition over_capacity (t : qpack_dyn) (need : Z) : bool := d_capacity t <? u64 (d_size t + need).

(* src/src/app/qpack/qpack/dyntable.c : qpack_dyn_fits *)
Definition qpack_dyn_fits (t : qpack_dyn) (f : qpack_field) : bool :=
  negb (over_capacity t (entry_size (zlen (f_name f)) (zlen (f_value f)))).

(* src/src/app/qpack/qpack/dyntable.c : qpack_dyn_storable *)
Definition qpack_dyn_storable (t : qpack_dyn) (f : qpack_field) : bool :=
  entry_size (zlen (f_name f)) (zlen (f_value f)) <=? d_capacity t.

Fixpoint make_room_loop (fuel : nat) (t : qpack_dyn) (need : Z) : option qpack_dyn :=
  if (0 <? d_count t) && over_capacity t need then
    match fuel with O => None | S f => t ← evict_oldest t; make_room_loop f t need end
  else Some t.

(* src/src/app/qpack/qpack/dyntable.c : make_room *)
Definition make_room (t : qpack_dyn) (need : Z) : option qpack_dyn := make_room_loop (Z.to_nat (d_count t)) t need.

(* src/src/app/qpack/qpack/dyntable.c : ring_put *)
Fixpoint ring_put (t : qpack_dyn) (src : list Z) : option qpack_dyn :=
  match src with
  | [] => Some t
  | b :: src' =>
      bytes ← store (d_bytes t) (d_tail t) b;
      bytes ← store bytes (d_tail t + QPACK_DYN_MAX_CAPACITY) b;
      ring_put (mk_dyn bytes (d_ring t) (d_head t) (d_count t) ((d_tail t + 1) mod QPACK_DYN_MAX_CAPACITY)
                  (d_dropped t) (d_size t) (d_capacity t) (d_max_capacity t)) src'
  end.

(* src/src/app/qpack/qpack/dyntable.c : store_entry *)
Definition store_entry (t : qpack_dyn) (f : qpack_field) : option qpack_dyn :=
  let slot := (d_head t + d_count t) mod QPACK_DYN_MAX_ENTRIES in
  ring ← store (d_ring t) slot (mk_entry (u16 (d_tail t)) (u16 (zlen (f_name f))) (u16 (zlen (f_value f))));
  t ← ring_put (mk_dyn (d_bytes t) ring (d_head t) (d_count t) (d_tail t) (d_dropped t) (d_size t)
                  (d_capacity t) (d_max_capacity t)) (f_name f);
  t ← ring_put t (f_value f);
  Some (mk_dyn (d_bytes t) (d_ring t) (d_head t) (d_count t + 1) (d_tail t) (d_dropped t)
          (u64 (d_size t + entry_size (zlen (f_name f)) (zlen (f_value f)))) (d_capacity t) (d_max_capacity t)).

(* src/src/app/qpack/qpack/dyntable.c : qpack_dyn_insert *)
Definition qpack_dyn_insert (t : qpack_dyn) (f : qpack_field) : option (bool * qpack_dyn) :=
  let need := entry_size (zlen (f_name f)) (zlen (f_value f)) in
  if d_capacity t <? need then Some (false, t)
  else t ← make_room t need; t ← store_entry t f; Some (true, t).

(** A view of [n] bytes at [off]. *)
Definition view (bytes : list Z) (off n : Z) : option (list Z) :=
  if (0 <=? off) && (0 <=? n) && (off + n <=? zlen bytes) then Some (take (Z.to_nat n) (drop (Z.to_nat off) bytes)) else None.

(* src/src/app/qpack/qpack/dyntable.c : qpack_dyn_entry_at *)
Definition qpack_dyn_entry_at (t : qpack_dyn) (off : Z) : option qpack_field :=
  e ← load (d_ring t) ((d_head t + off) mod QPACK_DYN_MAX_ENTRIES);
  name ← view (d_bytes t) (e_off e) (e_name_len e);
  value ← view (d_bytes t) (e_off e + e_name_len e) (e_value_len e);
  Some (mk_field name value).

(* src/src/app/qpack/qpack/dyntable.c : qpack_dyn_set_capacity *)
Definition qpack_dyn_set_capacity (t : qpack_dyn) (new_capacity : Z) : option qpack_dyn :=
  make_room (mk_dyn (d_bytes t) (d_ring t) (d_head t) (d_count t) (d_tail t) (d_dropped t) (d_size t)
               (clamp_capacity new_capacity) (d_max_capacity t)) 0.

(* src/src/app/qpack/qpack/dyntable.c : qpack_capacity_within_limit *)
Definition qpack_capacity_within_limit (capacity max_table_capacity : Z) : bool := capacity <=? max_table_capacity.

(** ** dynget.c *)

(* src/src/app/qpack/qpack/dynget.c : dyn_in_range *)
Definition dyn_in_range (t : qpack_dyn) (abs_index : Z) : bool :=
  (d_dropped t <=? abs_index) && (abs_index <? u64 (d_dropped t + d_count t)).

(* src/src/app/qpack/qpack/dynget.c : is_live *)
Definition is_live (t : option qpack_dyn) (abs_index : Z) : bool :=
  match t with Some t => dyn_in_range t abs_index | None => false end.

(* src/src/app/qpack/qpack/dynget.c : qpack_dyn_get *)
Definition qpack_dyn_get (t : option qpack_dyn) (abs_index : Z) : res qpack_field :=
  if negb (is_live t abs_index) then Fail
  else
    match t with
    | None => Fail
    | Some t => match qpack_dyn_entry_at t (u64 (abs_index - d_dropped t)) with Some f => Ok f | None => Oob end
    end.

(* src/src/app/qpack/qpack/dynget.c : qpack_dyn_get_enc_rel *)
Definition qpack_dyn_get_enc_rel (t : qpack_dyn) (rel : Z) : res qpack_field :=
  qpack_dyn_get (Some t) (qpack_rel_to_abs (u64 (d_dropped t + d_count t)) rel).

(** ** dynfind.c *)

(* src/src/app/qpack/qpack/dynfind.h : qpack_match *)
Record qpack_match := mk_match { m_abs_index : Z; m_value_matched : bool }.

(* src/src/app/qpack/qpack/dynfind.c : df_bytes_eq *)
Definition df_bytes_eq (a b : list Z) : option bool :=
  if negb (zlen a =? zlen b) then Some false else diff ← ct_loop 0 a b 0 (length a); Some (diff =? 0).

(* src/src/app/qpack/qpack/dynfind.c : classify *)
Definition df_classify (t : qpack_dyn) (off : Z) (f : qpack_field) : option Z :=
  e ← qpack_dyn_entry_at t off;
  n ← df_bytes_eq (f_name e) (f_name f);
  if negb n then Some 0
  else v ← df_bytes_eq (f_value e) (f_value f); Some (if (v : bool) then 2 else 1).

(* src/src/app/qpack/qpack/dynfind.c : want_name_only *)
Definition want_name_only (m : Z) (found : bool) : bool := (m =? 1) && negb found.

(** The best match so far; [found] is whether there is one. *)
(* src/src/app/qpack/qpack/dynfind.c : scan_one *)
Definition scan_one (t : qpack_dyn) (f : qpack_field) (m : option qpack_match) (off : Z)
    : option (bool * option qpack_match) :=
  c ← df_classify t off f;
  Some (if c =? 2 then (true, Some (mk_match (u64 (d_dropped t + off)) true))
        else if want_name_only c (bool_decide (is_Some m)) then (false, Some (mk_match (u64 (d_dropped t + off)) false))
        else (false, m)).

Fixpoint dyn_find_loop (n : nat) (t : qpack_dyn) (f : qpack_field) (m : option qpack_match) (off : Z)
    : option (option qpack_match) :=
  match n with
  | O => Some m
  | S n' => '(stop, m) ← scan_one t f m off; if (stop : bool) then Some m else dyn_find_loop n' t f m (off + 1)
  end.

(* src/src/app/qpack/qpack/dynfind.c : qpack_dyn_find *)
Definition qpack_dyn_find (t : qpack_dyn) (f : qpack_field) : option (option qpack_match) :=
  dyn_find_loop (Z.to_nat (d_count t)) t f None 0.

(** ** The table as a list of entries

    The live entries, oldest first, with the absolute index of the oldest and
    the capacities. *)

Record dtable := mk_dtable { a_dropped : Z; a_ents : list qpack_field; a_cap : Z; a_max : Z }.

Definition ebytes (e : qpack_field) : list Z := f_name e ++ f_value e.
Definition flat (ents : list qpack_field) : list Z := concat (map ebytes ents).

(** RFC 9204 3.2.1: the size of the entries. *)
Definition cost (ents : list qpack_field) : Z := zlen (flat ents) + 32 * zlen ents.

(** RFC 9204 3.2.2: evict the oldest entries until [need] more bytes fit. *)
Fixpoint drop_until (cap need : Z) (ents : list qpack_field) : list qpack_field :=
  match ents with
  | [] => []
  | _ :: rest => if cap <? cost ents + need then drop_until cap need rest else ents
  end.

Definition a_room (a : dtable) (cap need : Z) : dtable :=
  let ents := drop_until cap need (a_ents a) in
  mk_dtable (a_dropped a + (zlen (a_ents a) - zlen ents)) ents cap (a_max a).

Definition a_insert (a : dtable) (f : qpack_field) : bool * dtable :=
  let need := zlen (ebytes f) + 32 in
  if a_cap a <? need then (false, a)
  else let a := a_room a (a_cap a) need in (true, mk_dtable (a_dropped a) (a_ents a ++ [f]) (a_cap a) (a_max a)).

Definition a_set_capacity (a : dtable) (c : Z) : dtable := a_room a (Z.min c QPACK_DYN_MAX_CAPACITY) 0.

(** *** The byte ring *)

(** The bytes [D] from ring offset [base], in both halves of the buffer. *)
Definition ring_has (bytes : list Z) (base : Z) (D : list Z) : Prop :=
  forall j b, load D j = Some b ->
    load bytes ((base + j) mod 2016) = Some b /\ load bytes ((base + j) mod 2016 + 2016) = Some b.

Lemma mod2016_range x : 0 <= x mod 2016 < 2016.
Proof. apply Z.mod_pos_bound. lia. Qed.
Lemma mod63_range x : 0 <= x mod 63 < 63.
Proof. apply Z.mod_pos_bound. lia. Qed.

Lemma mod2016_ne b i j : 0 <= i -> i < j -> j - i < 2016 -> (b + i) mod 2016 <> (b + j) mod 2016.
Proof.
  intros Hi Hj Hd E. assert ((j - i) mod 2016 = 0) as H.
  { replace (j - i) with ((b + j) - (b + i)) by lia. rewrite Zminus_mod, <- E, Z.sub_diag. done. }
  rewrite Z.mod_small in H; lia.
Qed.

Lemma load_snoc {A} (l : list A) x j y : load (l ++ [x]) j = Some y -> (j < zlen l /\ load l j = Some y) \/ (j = zlen l /\ y = x).
Proof.
  intros H. pose proof (load_Some _ _ _ H) as Hj. assert (zlen (l ++ [x]) = zlen l + 1) as Hl by zl. rewrite Hl in Hj.
  destruct (Z_lt_ge_dec j (zlen l)).
  - left. rewrite load_app_l in H by done. done.
  - right. assert (j = zlen l) as -> by lia. rewrite load_app_r, Z.sub_diag in H by lia. injection H as <-. done.
Qed.

Lemma ring_has_snoc bytes base D b :
  zlen bytes = 4032 -> zlen D < 2016 -> ring_has bytes base D ->
  let q := (base + zlen D) mod 2016 in
  ring_has (<[Z.to_nat (q + 2016) := b]> (<[Z.to_nat q := b]> bytes)) base (D ++ [b]).
Proof.
  intros Hz HD Hr q j y Hj. pose proof (mod2016_range (base + zlen D)) as Hq. fold q in Hq.
  rewrite !load_insert by (rewrite ?zlen_insert; lia). pose proof (mod2016_range (base + j)) as Hm.
  apply load_snoc in Hj as [[Hlt Hj]|[-> ->]].
  - pose proof (load_Some _ _ _ Hj). pose proof (mod2016_ne base j (zlen D) ltac:(lia) ltac:(lia) ltac:(lia)) as Hne. fold q in Hne.
    replace ((base + j) mod 2016 =? q + 2016) with false by lia. replace ((base + j) mod 2016 =? q) with false by lia.
    replace ((base + j) mod 2016 + 2016 =? q + 2016) with false by lia. replace ((base + j) mod 2016 + 2016 =? q) with false by lia.
    by apply Hr.
  - fold q. replace (q =? q + 2016) with false by lia. rewrite !Z.eqb_refl. done.
Qed.

Lemma ring_put_spec src : forall t base D,
  zlen (d_bytes t) = 4032 -> ring_has (d_bytes t) base D -> d_tail t = (base + zlen D) mod 2016 -> zlen D + zlen src <= 2016 ->
  exists bytes, ring_put t src =
    Some (mk_dyn bytes (d_ring t) (d_head t) (d_count t) ((base + zlen (D ++ src)) mod 2016) (d_dropped t) (d_size t)
            (d_capacity t) (d_max_capacity t)) /\
    zlen bytes = 4032 /\ ring_has bytes base (D ++ src).
Proof.
  induction src as [|b src IH]; intros t base D Hz Hr Ht Hl; cbn [ring_put].
  { exists (d_bytes t). rewrite app_nil_r, <- Ht. by destruct t. }
  rewrite zlen_cons in Hl. pose proof (zlen_nonneg src). pose proof (zlen_nonneg D).
  pose proof (mod2016_range (base + zlen D)) as Hq. rewrite <- Ht in Hq. unfold QPACK_DYN_MAX_CAPACITY.
  rewrite store_in by lia. osimpl. rewrite store_in by (rewrite zlen_insert; lia). osimpl.
  pose proof (ring_has_snoc (d_bytes t) base D b Hz ltac:(lia) Hr) as Hs. cbv zeta in Hs. rewrite <- Ht in Hs.
  set (bytes := <[_ := b]> (<[_ := b]> _)) in *. assert (zlen bytes = 4032) as Hzb by (unfold bytes; by rewrite !zlen_insert).
  destruct (IH (mk_dyn bytes (d_ring t) (d_head t) (d_count t) ((d_tail t + 1) mod 2016) (d_dropped t) (d_size t) (d_capacity t)
                  (d_max_capacity t)) base (D ++ [b])) as (bytes' & E & Hz' & Hr'); [done|done| |zl|].
  { cbn. rewrite Ht, Zplus_mod_idemp_l. f_equal. zl. }
  exists bytes'. rewrite <- app_assoc in *. cbn in E. cbn [app] in *. done.
Qed.

Lemma view_ring bytes base D s k n :
  zlen bytes = 4032 -> ring_has bytes base D -> zlen D <= 2016 -> 0 <= s -> 0 <= k -> 0 <= n -> s + k + n <= zlen D ->
  view bytes ((base + s) mod 2016 + k) n = Some (take (Z.to_nat n) (drop (Z.to_nat (s + k)) D)).
Proof.
  intros Hz Hr HD Hs Hk Hn Hl. pose proof (mod2016_range (base + s)) as Hq. unfold view.
  replace (_ && _) with true by lia. f_equal.
  assert (zlen (take (Z.to_nat n) (drop (Z.to_nat ((base + s) mod 2016 + k)) bytes)) = n) as Hz1 by (rewrite zlen_take; rewrite ?zlen_drop; lia).
  assert (zlen (take (Z.to_nat n) (drop (Z.to_nat (s + k)) D)) = n) as Hz2 by (rewrite zlen_take; rewrite ?zlen_drop; lia).
  apply load_ext; [lia|]. intros j Hj. rewrite !load_take, !load_skip by lia.
  destruct (load_is_Some D (s + k + j)) as [b Hb]; [lia|]. destruct (Hr _ _ Hb) as [H1 H2]. rewrite Hb.
  assert ((base + (s + k + j)) mod 2016 = ((base + s) mod 2016 + (k + j)) mod 2016) as Em.
  { rewrite Zplus_mod_idemp_l. f_equal. lia. }
  destruct (Z_lt_ge_dec ((base + s) mod 2016 + (k + j)) 2016) as [Hlt|Hge].
  - rewrite Em, (Z.mod_small ((base + s) mod 2016 + (k + j))) in H1 by lia. rewrite <- H1. f_equal. lia.
  - assert ((base + (s + k + j)) mod 2016 = (base + s) mod 2016 + (k + j) - 2016) as Em'.
    { rewrite Em. rewrite <- (Z.mod_add _ (-1)) by lia. rewrite Z.mod_small by lia. lia. }
    rewrite Em' in H2. rewrite <- H2. f_equal. lia.
Qed.

(** *** The representation *)

(** The slots hold the positions and lengths of the entries. *)
Definition slots_of (ring : list qpack_dyn_entry) (head base : Z) (ents : list qpack_field) : Prop :=
  forall i e, load ents i = Some e ->
    load ring ((head + i) mod 63) =
      Some (mk_entry ((base + zlen (flat (take (Z.to_nat i) ents))) mod 2016) (zlen (f_name e)) (zlen (f_value e))).

Record dyn_rep (t : qpack_dyn) (base : Z) (a : dtable) : Prop := {
  dr_bytes : zlen (d_bytes t) = 4032;
  dr_ring : zlen (d_ring t) = 63;
  dr_head : 0 <= d_head t < 63;
  dr_count : d_count t = zlen (a_ents a);
  dr_slots : slots_of (d_ring t) (d_head t) base (a_ents a);
  dr_has : ring_has (d_bytes t) base (flat (a_ents a));
  dr_tail : d_tail t = (base + zlen (flat (a_ents a))) mod 2016;
  dr_size : d_size t = cost (a_ents a);
  dr_cost : cost (a_ents a) <= 2016;
  dr_cap : d_capacity t = a_cap a;
  dr_cap_le : 0 <= a_cap a <= 2016;
  dr_max : d_max_capacity t = a_max a;
  dr_dropped : d_dropped t = a_dropped a;
  dr_dropped_nonneg : 0 <= a_dropped a }.

Lemma flat_cons e r : flat (e :: r) = ebytes e ++ flat r.
Proof. done. Qed.
Lemma flat_app l l' : flat (l ++ l') = flat l ++ flat l'.
Proof. unfold flat. by rewrite map_app, concat_app. Qed.
Lemma flat_one e : flat [e] = ebytes e.
Proof. unfold flat. cbn. apply app_nil_r. Qed.
Lemma zlen_ebytes e : zlen (ebytes e) = zlen (f_name e) + zlen (f_value e).
Proof. apply zlen_app. Qed.
Lemma cost_cons e r : cost (e :: r) = zlen (ebytes e) + 32 + cost r.
Proof. unfold cost. rewrite flat_cons, zlen_app, zlen_cons. lia. Qed.
Lemma cost_snoc l e : cost (l ++ [e]) = cost l + (zlen (ebytes e) + 32).
Proof. unfold cost. rewrite flat_app, flat_one, !zlen_app, zlen_cons. change (zlen (@nil qpack_field)) with 0. lia. Qed.
Lemma cost_nonneg l : 0 <= cost l.
Proof. unfold cost. pose proof (zlen_nonneg (flat l)). pose proof (zlen_nonneg l). lia. Qed.
Lemma cost_count l : cost l <= 2016 -> zlen l <= 63.
Proof. unfold cost. pose proof (zlen_nonneg (flat l)). lia. Qed.

Lemma entry_size_eq a b : 0 <= a < span_max -> 0 <= b < span_max -> entry_size a b = a + b + 32.
Proof. unfold entry_size, span_max. intros. rewrite (u64_small (a + b)), u64_small; lia. Qed.

Lemma slots_tail ring head base e r :
  slots_of ring head base (e :: r) -> slots_of ring ((head + 1) mod 63) ((base + zlen (ebytes e)) mod 2016) r.
Proof.
  intros H i x Hx. pose proof (load_Some _ _ _ Hx) as Hi. specialize (H (i + 1) x).
  rewrite load_cons_pos in H by lia. replace (i + 1 - 1) with i in H by lia. specialize (H Hx).
  rewrite Zplus_mod_idemp_l. replace (head + 1 + i) with (head + (i + 1)) by lia. rewrite H. f_equal. f_equal.
  rewrite Zplus_mod_idemp_l. f_equal. replace (Z.to_nat (i + 1)) with (S (Z.to_nat i)) by lia. cbn [take].
  rewrite flat_cons, zlen_app. lia.
Qed.

Lemma has_tail bytes base e r : ring_has bytes base (ebytes e ++ flat r) -> ring_has bytes ((base + zlen (ebytes e)) mod 2016) (flat r).
Proof.
  intros H j b Hb. pose proof (load_Some _ _ _ Hb). specialize (H (zlen (ebytes e) + j) b).
  rewrite load_app_r in H by lia. replace (zlen (ebytes e) + j - zlen (ebytes e)) with j in H by lia.
  rewrite Zplus_mod_idemp_l, <- Z.add_assoc. by apply H.
Qed.

Ltac dsimp := cbn [d_bytes d_ring d_head d_count d_tail d_dropped d_size d_capacity d_max_capacity a_ents a_cap a_max a_dropped].

(** RFC 9204 3.2.2: dropping the oldest entry. *)
Lemma evict_spec t base a e r :
  dyn_rep t base a -> a_ents a = e :: r -> a_dropped a < span_max ->
  exists t' base', evict_oldest t = Some t' /\ dyn_rep t' base' (mk_dtable (a_dropped a + 1) r (a_cap a) (a_max a)).
Proof.
  intros [H1 H2 H3 H4 H5 H6 H7 H8 H9 H10 H11 H12 H13 H14] Ee Hd. rewrite Ee in *. unfold evict_oldest.
  pose proof (H5 0 e eq_refl) as H0. rewrite Z.add_0_r, Z.mod_small in H0 by lia. rewrite H0. osimpl. cbn [e_name_len e_value_len].
  rewrite cost_cons, zlen_ebytes in H8, H9. pose proof (zlen_nonneg (f_name e)); pose proof (zlen_nonneg (f_value e)). pose proof (cost_nonneg r).
  rewrite entry_size_eq by (unfold span_max; lia). rewrite flat_cons in *. rewrite zlen_cons in H4. unfold span_max in Hd.
  eexists _, ((base + zlen (ebytes e)) mod 2016). split; [reflexivity|]. split; dsimp; try done; try lia.
  - apply mod63_range.
  - by apply slots_tail.
  - by apply has_tail.
  - rewrite H7, Zplus_mod_idemp_l. f_equal. rewrite zlen_app. lia.
  - rewrite u64_small; lia.
  - rewrite u64_small; lia.
Qed.

Lemma a_room_step a cap need e r :
  a_ents a = e :: r -> cap < cost (e :: r) + need ->
  a_room a cap need = a_room (mk_dtable (a_dropped a + 1) r (a_cap a) (a_max a)) cap need.
Proof.
  intros E Hc. unfold a_room. rewrite E. cbn [drop_until a_ents a_dropped a_max].
  replace (cap <? cost (e :: r) + need) with true by lia. rewrite zlen_cons. f_equal. lia.
Qed.

Lemma make_room_spec n : forall t base a need,
  length (a_ents a) = n -> dyn_rep t base a -> 0 <= need < span_max -> a_dropped a + zlen (a_ents a) < span_max ->
  exists t' base', make_room_loop n t need = Some t' /\ dyn_rep t' base' (a_room a (a_cap a) need).
Proof.
  induction n as [|n IH]; intros t base a need Hn Hr Hneed Hd; cbn [make_room_loop]; unfold over_capacity;
    pose proof (cost_nonneg (a_ents a)); rewrite (dr_size t base a Hr), (dr_cap t base a Hr), (dr_count t base a Hr);
    pose proof (dr_cost t base a Hr); unfold span_max in *; rewrite u64_small by lia.
  - destruct (a_ents a) as [|e r] eqn:E; [|done]. change (zlen (@nil qpack_field)) with 0. cbn [andb Z.ltb Z.compare].
    exists t, base. split; [done|]. unfold a_room. rewrite E. cbn [drop_until]. rewrite Z.sub_diag, Z.add_0_r, <- E. by destruct a.
  - destruct (a_ents a) as [|e r] eqn:E; [done|]. rewrite zlen_cons in *. pose proof (zlen_nonneg r).
    replace (0 <? 1 + zlen r) with true by lia. cbn [andb]. destruct (a_cap a <? cost (e :: r) + need) eqn:Ec.
    + destruct (evict_spec t base a e r Hr E) as (t1 & b1 & -> & Hr1); [unfold span_max; lia|]. osimpl.
      rewrite (a_room_step a _ need e r E) by lia.
      apply (IH t1 b1 (mk_dtable (a_dropped a + 1) r (a_cap a) (a_max a)) need); [by injection Hn|done|lia|cbn; lia].
    + exists t, base. split; [done|]. unfold a_room. rewrite E. cbn [drop_until]. rewrite Ec, Z.sub_diag, Z.add_0_r, <- E. by destruct a.
Qed.

Lemma drop_until_fits cap need ents : 0 <= need <= cap -> cost (drop_until cap need ents) + need <= cap.
Proof.
  intros Hn. induction ents as [|e r IH]; cbn [drop_until]; [change (cost []) with 0; lia|].
  destruct (cap <? cost (e :: r) + need) eqn:E; [done|lia].
Qed.

Lemma slots_snoc ring head base ents f slot :
  zlen ring = 63 -> zlen ents < 63 -> slots_of ring head base ents -> slot = (head + zlen ents) mod 63 ->
  slots_of (<[Z.to_nat slot := mk_entry ((base + zlen (flat ents)) mod 2016) (zlen (f_name f)) (zlen (f_value f))]> ring) head base (ents ++ [f]).
Proof.
  intros Hz Hl Hs -> i e He. pose proof (mod63_range (head + zlen ents)). pose proof (zlen_nonneg ents). rewrite load_insert by lia.
  apply load_snoc in He as [[Hi He]|[-> ->]].
  - pose proof (load_Some _ _ _ He). replace (_ =? _) with false.
    + rewrite (Hs i e He). rewrite take_app_le by (unfold zlen in Hi; lia). done.
    + symmetry. apply Z.eqb_neq. intros E. assert ((zlen ents - i) mod 63 = 0) as Hm.
      { replace (zlen ents - i) with ((head + zlen ents) - (head + i)) by lia. rewrite Zminus_mod, E, Z.sub_diag. done. }
      rewrite Z.mod_small in Hm; lia.
  - rewrite Z.eqb_refl. replace (Z.to_nat (zlen ents)) with (length ents) by (unfold zlen; lia). by rewrite take_app_length.
Qed.

Definition field_ok (f : qpack_field) : Prop :=
  bytes_ok (f_name f) /\ bytes_ok (f_value f) /\ zlen (f_name f) < span_max /\ zlen (f_value f) < span_max.

Lemma store_spec t base a f :
  dyn_rep t base a -> field_ok f -> cost (a_ents a) + (zlen (ebytes f) + 32) <= a_cap a ->
  exists t', store_entry t f = Some t' /\ dyn_rep t' base (mk_dtable (a_dropped a) (a_ents a ++ [f]) (a_cap a) (a_max a)).
Proof.
  intros [H1 H2 H3 H4 H5 H6 H7 H8 H9 H10 H11 H12 H13 H14] (_ & _ & Hn & Hv) Hc. unfold store_entry. rewrite zlen_ebytes in Hc.
  pose proof (zlen_nonneg (f_name f)); pose proof (zlen_nonneg (f_value f)). pose proof (zlen_nonneg (a_ents a)).
  pose proof (zlen_nonneg (flat (a_ents a))). assert (zlen (a_ents a) < 63) by (unfold cost in *; lia).
  assert (zlen (flat (a_ents a)) + (zlen (f_name f) + zlen (f_value f)) <= 2016) by (unfold cost in *; lia).
  rewrite entry_size_eq by lia. rewrite H4. pose proof (mod63_range (d_head t + zlen (a_ents a))) as Hslot. unfold QPACK_DYN_MAX_ENTRIES.
  pose proof (mod2016_range (base + zlen (flat (a_ents a)))) as Htl. rewrite <- H7 in Htl. unfold u16.
  rewrite (Z.mod_small (d_tail t)), (Z.mod_small (zlen (f_name f))), (Z.mod_small (zlen (f_value f))) by lia. rewrite store_in by lia. osimpl.
  set (ring := <[_ := _]> _). set (t1 := mk_dyn _ ring _ _ _ _ _ _ _).
  destruct (ring_put_spec (f_name f) t1 base (flat (a_ents a)) H1 H6 H7 ltac:(lia)) as (b2 & -> & Hz2 & Hr2). osimpl. subst t1. dsimp.
  set (t2 := mk_dyn b2 _ _ _ _ _ _ _ _).
  destruct (ring_put_spec (f_value f) t2 base (flat (a_ents a) ++ f_name f) Hz2 Hr2 eq_refl ltac:(zl)) as (b3 & -> & Hz3 & Hr3). osimpl.
  subst t2. dsimp. eexists. split; [reflexivity|].
  assert (flat (a_ents a ++ [f]) = (flat (a_ents a) ++ f_name f) ++ f_value f) as Ef.
  { rewrite flat_app, flat_one, <- app_assoc. done. }
  split; dsimp; try done.
  - subst ring. by rewrite zlen_insert.
  - zl.
  - subst ring. rewrite H7. by apply slots_snoc.
  - by rewrite Ef.
  - by rewrite Ef.
  - rewrite cost_snoc, zlen_ebytes, u64_small; pose proof (cost_nonneg (a_ents a)); lia.
  - rewrite cost_snoc, zlen_ebytes. lia.
Qed.

(** *** Operations refine the list *)

(** The invariant of a table in use: its entries are within its capacity. *)
Definition dyn_ok (t : qpack_dyn) (a : dtable) : Prop := (exists base, dyn_rep t base a) /\ cost (a_ents a) <= a_cap a.

Lemma drop_until_le cap need ents : zlen (drop_until cap need ents) <= zlen ents.
Proof.
  induction ents as [|e r IH]; cbn [drop_until]; [done|]. destruct (_ <? _); rewrite ?zlen_cons; lia.
Qed.

Lemma a_room_bound a cap need : zlen (a_ents (a_room a cap need)) + a_dropped (a_room a cap need) = zlen (a_ents a) + a_dropped a.
Proof. unfold a_room. cbn. lia. Qed.

Lemma insert_spec t a f :
  dyn_ok t a -> field_ok f -> a_dropped a + zlen (a_ents a) < span_max ->
  exists t', qpack_dyn_insert t f = Some ((a_insert a f).1, t') /\ dyn_ok t' (a_insert a f).2.
Proof.
  intros [(base & Hr) Hc] Hf Hd. pose proof Hf as (_ & _ & Hn & Hv). unfold qpack_dyn_insert, a_insert.
  pose proof (zlen_nonneg (f_name f)); pose proof (zlen_nonneg (f_value f)).
  rewrite entry_size_eq, (dr_cap t base a Hr), zlen_ebytes by lia. pose proof (dr_cap_le t base a Hr).
  destruct (a_cap a <? zlen (f_name f) + zlen (f_value f) + 32) eqn:E.
  { exists t. split; [done|]. split; [by exists base|done]. }
  unfold make_room. rewrite (dr_count t base a Hr). replace (Z.to_nat (zlen (a_ents a))) with (length (a_ents a)) by (unfold zlen; lia).
  destruct (make_room_spec _ t base a (zlen (f_name f) + zlen (f_value f) + 32) eq_refl Hr ltac:(unfold span_max; lia) Hd) as (t1 & b1 & -> & Hr1). osimpl.
  set (a1 := a_room a (a_cap a) _) in *. assert (cost (a_ents a1) + (zlen (ebytes f) + 32) <= a_cap a1) as Hfit.
  { subst a1. unfold a_room. dsimp. rewrite zlen_ebytes. apply drop_until_fits. lia. }
  destruct (store_spec t1 b1 a1 f Hr1 Hf Hfit) as (t2 & -> & Hr2). osimpl. exists t2. split; [done|]. split; [by exists b1|].
  cbn [snd a_ents a_cap]. rewrite cost_snoc. exact Hfit.
Qed.

Lemma set_capacity_spec t a c :
  dyn_ok t a -> 0 <= c -> a_dropped a + zlen (a_ents a) < span_max ->
  exists t', qpack_dyn_set_capacity t c = Some t' /\ dyn_ok t' (a_set_capacity a c).
Proof.
  intros [(base & Hr) Hc] Hc0 Hd. unfold qpack_dyn_set_capacity, make_room. dsimp.
  set (cap := clamp_capacity c). assert (cap = Z.min c 2016) as Ecap by (subst cap; unfold clamp_capacity, QPACK_DYN_MAX_CAPACITY; bcases).
  assert (dyn_rep (mk_dyn (d_bytes t) (d_ring t) (d_head t) (d_count t) (d_tail t) (d_dropped t) (d_size t) cap (d_max_capacity t)) base
            (mk_dtable (a_dropped a) (a_ents a) cap (a_max a))) as Hr'.
  { destruct Hr as [H1 H2 H3 H4 H5 H6 H7 H8 H9 H10 H11 H12 H13 H14]. split; dsimp; try done; lia. }
  pose proof (dr_count _ _ _ Hr') as Ec. cbn [d_count a_ents] in Ec.
  replace (Z.to_nat (d_count t)) with (length (a_ents a)) by (rewrite Ec; unfold zlen; lia).
  destruct (make_room_spec _ _ base _ 0 eq_refl Hr' ltac:(unfold span_max; lia) Hd) as (t1 & b1 & E & Hr1).
  cbn [a_ents a_cap] in E, Hr1. rewrite E. exists t1. split; [done|].
  assert (a_set_capacity a c = a_room (mk_dtable (a_dropped a) (a_ents a) cap (a_max a)) cap 0) as ->.
  { unfold a_set_capacity, QPACK_DYN_MAX_CAPACITY. rewrite <- Ecap. done. }
  split; [by exists b1|]. unfold a_room. dsimp. pose proof (drop_until_fits cap 0 (a_ents a)). lia.
Qed.

Lemma init_spec t c :
  zlen (d_bytes t) = 4032 -> zlen (d_ring t) = 63 -> 0 <= c ->
  dyn_ok (qpack_dyn_init t c) (mk_dtable 0 [] (Z.min c 2016) (Z.min c 2016)).
Proof.
  intros Hb Hr Hc. assert (clamp_capacity c = Z.min c 2016) as Ecap by (unfold clamp_capacity, QPACK_DYN_MAX_CAPACITY; bcases).
  unfold qpack_dyn_init. rewrite Ecap. split; [|dsimp; change (cost []) with 0; lia].
  exists 0. split; dsimp; try done; try lia.
  - intros i e H. by rewrite load_nil in H.
  - intros j b H. change (flat []) with (@nil Z) in H. by rewrite load_nil in H.
Qed.

(** *** Lookups *)

Lemma flat_take_drop ents i e :
  load ents i = Some e -> flat ents = flat (take (Z.to_nat i) ents) ++ ebytes e ++ flat (drop (S (Z.to_nat i)) ents).
Proof.
  intros He. unfold load in He. bcase in He; [|done]. rewrite <- (take_drop_middle ents (Z.to_nat i) e He) at 1.
  by rewrite flat_app, flat_cons.
Qed.

Lemma entry_at_spec t a i e : dyn_ok t a -> load (a_ents a) i = Some e -> qpack_dyn_entry_at t i = Some e.
Proof.
  intros [(base & [H1 H2 H3 H4 H5 H6 H7 H8 H9 H10 H11 H12 H13 H14]) Hc] He. unfold qpack_dyn_entry_at, QPACK_DYN_MAX_ENTRIES.
  rewrite (H5 i e He). osimpl. cbn [e_off e_name_len e_value_len]. set (pre := flat (take (Z.to_nat i) (a_ents a))).
  pose proof (flat_take_drop _ _ _ He) as Ef. fold pre in Ef. set (post := flat (drop _ _)) in Ef.
  pose proof (zlen_nonneg pre); pose proof (zlen_nonneg post); pose proof (zlen_nonneg (f_name e)); pose proof (zlen_nonneg (f_value e)).
  assert (zlen (flat (a_ents a)) = zlen pre + (zlen (f_name e) + zlen (f_value e)) + zlen post) as Hz by (rewrite Ef; unfold ebytes; zl).
  assert (zlen (flat (a_ents a)) <= 2016) by (unfold cost in *; pose proof (zlen_nonneg (a_ents a)); lia).
  pose proof (view_ring (d_bytes t) base (flat (a_ents a)) (zlen pre) 0 (zlen (f_name e)) H1 H6 ltac:(lia) ltac:(lia) ltac:(lia) ltac:(lia) ltac:(lia)) as V1.
  pose proof (view_ring (d_bytes t) base (flat (a_ents a)) (zlen pre) (zlen (f_name e)) (zlen (f_value e)) H1 H6 ltac:(lia) ltac:(lia) ltac:(lia) ltac:(lia) ltac:(lia)) as V2.
  rewrite !Z.add_0_r in V1. rewrite V1, V2. osimpl. rewrite Ef. unfold ebytes. rewrite <- app_assoc.
  replace (Z.to_nat (zlen pre)) with (length pre) by (unfold zlen; lia). rewrite drop_app_length.
  replace (Z.to_nat (zlen pre + zlen (f_name e))) with (length (pre ++ f_name e)) by (rewrite length_app; unfold zlen; lia).
  rewrite (app_assoc pre (f_name e)), drop_app_length. unfold zlen. rewrite !Nat2Z.id, !take_app_length. by destruct e.
Qed.

Definition a_get (a : dtable) (i : Z) : option qpack_field := if a_dropped a <=? i then load (a_ents a) (i - a_dropped a) else None.

Definition res_of {A} (o : option A) : res A := match o with Some x => Ok x | None => Fail end.

Lemma get_spec t a i :
  dyn_ok t a -> a_dropped a + zlen (a_ents a) < span_max -> is_u64 i -> qpack_dyn_get (Some t) i = res_of (a_get a i).
Proof.
  intros Hok Hd Hi. pose proof Hok as [(base & Hr) _]. unfold qpack_dyn_get, is_live, dyn_in_range, a_get, is_u64 in *.
  rewrite (dr_dropped t base a Hr), (dr_count t base a Hr). pose proof (dr_dropped_nonneg t base a Hr). pose proof (zlen_nonneg (a_ents a)).
  unfold span_max in Hd. rewrite (u64_small (a_dropped a + _)) by lia. destruct (a_dropped a <=? i) eqn:E; [|done]. cbn [andb].
  destruct (i <? a_dropped a + zlen (a_ents a)) eqn:E2; cbn [negb].
  - destruct (load_is_Some (a_ents a) (i - a_dropped a)) as [e He]; [lia|]. rewrite u64_small by lia. by rewrite (entry_at_spec t a _ e Hok He), He.
  - rewrite load_out by lia. done.
Qed.

Lemma enc_rel_spec t a rel :
  dyn_ok t a -> a_dropped a + zlen (a_ents a) < span_max -> is_u64 rel ->
  qpack_dyn_get_enc_rel t rel = res_of (load (a_ents a) (zlen (a_ents a) - 1 - rel)).
Proof.
  intros Hok Hd Hi. pose proof Hok as [(base & Hr) _]. unfold qpack_dyn_get_enc_rel, qpack_rel_to_abs, is_u64 in *.
  rewrite (get_spec t a); [|done|done|apply u64_range]. unfold a_get. rewrite (dr_dropped t base a Hr), (dr_count t base a Hr).
  pose proof (dr_dropped_nonneg t base a Hr). pose proof (zlen_nonneg (a_ents a)). unfold span_max in Hd.
  rewrite (u64_small (a_dropped a + _)), u64_sub_l by lia. f_equal. unfold u64.
  destruct (Z_lt_ge_dec rel (a_dropped a + zlen (a_ents a))) as [Hlt|Hge].
  - rewrite Z.mod_small by lia. bcase; [f_equal; lia|]. rewrite load_out by lia. done.
  - set (x := a_dropped a + zlen (a_ents a) - rel - 1). assert (x mod 18446744073709551616 = x + 18446744073709551616) as ->.
    { rewrite <- (Z.mod_add x 1) by lia. rewrite Z.mod_small; subst x; lia. }
    bcase; rewrite !load_out by (subst x; lia); done.
Qed.

(** *** Search *)

#[global] Instance qpack_field_eq_dec : EqDecision qpack_field.
Proof. solve_decision. Defined.

(** The scan on the list, from absolute index [i] with the best match so far. *)
Fixpoint a_scan (l : list qpack_field) (i : Z) (f : qpack_field) (m : option qpack_match) : option qpack_match :=
  match l with
  | [] => m
  | e :: l' =>
      if decide (e = f) then Some (mk_match i true)
      else a_scan l' (i + 1) f
             (if decide (f_name e = f_name f) then match m with None => Some (mk_match i false) | _ => m end else m)
  end.

(** An exact match is the oldest one; a name match is the oldest one and there is no exact match. *)
Definition find_result (a : dtable) (f : qpack_field) (r : option qpack_match) : Prop :=
  match r with
  | Some (mk_match k true) =>
      load (a_ents a) (k - a_dropped a) = Some f /\ forall j, j < k - a_dropped a -> load (a_ents a) j <> Some f
  | Some (mk_match k false) =>
      (exists e, load (a_ents a) (k - a_dropped a) = Some e /\ f_name e = f_name f) /\ (f ∉ a_ents a) /\
      forall j e, j < k - a_dropped a -> load (a_ents a) j = Some e -> f_name e <> f_name f
  | None => forall e, e ∈ a_ents a -> f_name e <> f_name f
  end.

(** What the scan of a prefix has found. *)
Definition scan_ok (a : dtable) (pre : list qpack_field) (f : qpack_field) (m : option qpack_match) : Prop :=
  (f ∉ pre) /\
  match m with
  | None => forall e, e ∈ pre -> f_name e <> f_name f
  | Some (mk_match k v) => v = false /\ k - a_dropped a < zlen pre /\
      (exists e, load pre (k - a_dropped a) = Some e /\ f_name e = f_name f) /\
      forall j e, j < k - a_dropped a -> load pre j = Some e -> f_name e <> f_name f
  end.

Lemma elem_of_load {A} (l : list A) x : x ∈ l <-> exists j, load l j = Some x.
Proof.
  rewrite list_elem_of_lookup. split.
  - intros [i Hi]. exists (Z.of_nat i). unfold load. rewrite Nat2Z.id, (proj2 (Z.leb_le 0 (Z.of_nat i))) by lia. done.
  - intros [j Hj]. unfold load in Hj. bcase in Hj; [eauto|done].
Qed.

Lemma scan_snoc a pre e f m :
  scan_ok a pre f m -> e <> f ->
  scan_ok a (pre ++ [e]) f
    (if decide (f_name e = f_name f) then match m with None => Some (mk_match (a_dropped a + zlen pre) false) | _ => m end else m).
Proof.
  intros [Hn Hm] Hne. split; [rewrite elem_of_app, list_elem_of_singleton; intuition congruence|].
  assert (forall j x, load pre j = Some x -> load (pre ++ [e]) j = Some x) as Hkeep.
  { intros j x H. rewrite load_app_l; [done|]. apply load_Some in H. lia. }
  destruct m as [[k v]|].
  - destruct Hm as (-> & Hk & (x & Hx & Hnx) & Hbefore).
    assert ((if decide (f_name e = f_name f) then Some (mk_match k false) else Some (mk_match k false)) = Some (mk_match k false)) as -> by (by destruct (decide _)).
    split; [done|]. split; [zl|]. split; [eauto|]. intros j y Hj Hy. apply load_snoc in Hy as [[_ Hy]|[-> ->]]; [eauto|lia].
  - destruct (decide (f_name e = f_name f)) as [En|En].
    + split; [done|]. split; [zl|]. replace (a_dropped a + zlen pre - a_dropped a) with (zlen pre) by lia. split.
      * exists e. split; [|done]. rewrite load_app_r, Z.sub_diag by lia. done.
      * intros j y Hj Hy. rewrite load_app_l in Hy by done. apply Hm. apply elem_of_load. eauto.
    + intros y. rewrite elem_of_app, list_elem_of_singleton. intros [Hy| ->]; [by apply Hm|done].
Qed.

Lemma scan_result a l : forall pre f m,
  a_ents a = pre ++ l -> scan_ok a pre f m -> find_result a f (a_scan l (a_dropped a + zlen pre) f m).
Proof.
  induction l as [|e l IH]; intros pre f m E Hs; cbn [a_scan].
  - rewrite app_nil_r in E. destruct Hs as [Hn Hm]. destruct m as [[k v]|]; [|by rewrite E || (unfold find_result; by rewrite E)].
    destruct Hm as (-> & Hk & He & Hb). unfold find_result. rewrite E. done.
  - destruct (decide (e = f)) as [->|Hne].
    + unfold find_result. replace (a_dropped a + zlen pre - a_dropped a) with (zlen pre) by lia. rewrite E. split.
      * rewrite load_app_r, Z.sub_diag by lia. done.
      * intros j Hj Hl. rewrite load_app_l in Hl by done. apply (proj1 Hs). apply elem_of_load. eauto.
    + specialize (IH (pre ++ [e]) f _ ltac:(by rewrite <- app_assoc) (scan_snoc a pre e f m Hs Hne)).
      assert (zlen (pre ++ [e]) = zlen pre + 1) as Hz by zl. rewrite Hz, Z.add_assoc in IH. exact IH.
Qed.

Lemma df_eq_spec a b : bytes_ok a -> bytes_ok b -> df_bytes_eq a b = Some (bool_decide (a = b)).
Proof. apply demux_match_spec. Qed.

Lemma dyn_find_loop_spec n : forall t a f m off,
  dyn_ok t a -> Forall field_ok (a_ents a) -> field_ok f -> a_dropped a + zlen (a_ents a) < span_max ->
  0 <= off -> off + Z.of_nat n = zlen (a_ents a) ->
  dyn_find_loop n t f m off = Some (a_scan (drop (Z.to_nat off) (a_ents a)) (a_dropped a + off) f m).
Proof.
  induction n as [|n IH]; intros t a f m off Hok Hall Hf Hd Ho Hn; cbn [dyn_find_loop].
  { rewrite drop_ge by (unfold zlen in Hn; lia). done. }
  destruct (load_is_Some (a_ents a) off) as [e He]; [lia|].
  assert (drop (Z.to_nat off) (a_ents a) = e :: drop (Z.to_nat (off + 1)) (a_ents a)) as Ed.
  { unfold load in He. bcase in He; [|done]. rewrite (drop_S _ _ _ He). f_equal. f_equal. lia. }
  assert (field_ok e) as (He1 & He2 & _) by (unfold load in He; bcase in He; [|done]; by apply (Forall_lookup_1 _ _ _ _ Hall) in He).
  pose proof Hf as (Hf1 & Hf2 & Hf3). rewrite Ed. cbn [a_scan]. unfold scan_one, df_classify.
  rewrite (entry_at_spec t a off e Hok He). osimpl. rewrite (df_eq_spec (f_name e)) by done. osimpl.
  pose proof Hok as [(base & Hr) _]. rewrite (dr_dropped t base a Hr). pose proof (dr_dropped_nonneg t base a Hr). unfold span_max in Hd.
  rewrite u64_small by lia. rewrite <- Z.add_assoc.
  destruct (decide (f_name e = f_name f)) as [En|En].
  - rewrite (bool_decide_eq_true_2 (f_name e = f_name f)) by done. cbn [negb]. rewrite (df_eq_spec (f_value e)) by done. osimpl.
    destruct (decide (f_value e = f_value f)) as [Ev|Ev].
    + rewrite (bool_decide_eq_true_2 (f_value e = f_value f)) by done. rewrite decide_True by (destruct e, f; cbn in *; congruence). done.
    + rewrite (bool_decide_eq_false_2 (f_value e = f_value f)) by done. rewrite decide_False by congruence. cbn [Z.eqb Pos.eqb]. unfold want_name_only. cbn [Z.eqb Pos.eqb andb].
      destruct m as [m|]; [rewrite bool_decide_eq_true_2 by eauto|rewrite bool_decide_eq_false_2 by (intros [? [=]])];
        cbn [negb]; osimpl; apply IH; auto; lia.
  - rewrite (bool_decide_eq_false_2 (f_name e = f_name f)) by done. cbn [negb]. osimpl. rewrite decide_False by congruence. cbn. apply IH; auto; lia.
Qed.

Lemma dyn_find_spec t a f :
  dyn_ok t a -> Forall field_ok (a_ents a) -> field_ok f -> a_dropped a + zlen (a_ents a) < span_max ->
  exists r, qpack_dyn_find t f = Some r /\ find_result a f r.
Proof.
  intros Hok Hall Hf Hd. pose proof Hok as [(base & Hr) _]. unfold qpack_dyn_find. rewrite (dr_count t base a Hr).
  pose proof (zlen_nonneg (a_ents a)). eexists. split; [apply (dyn_find_loop_spec _ t a); auto; lia|]. cbn [Z.to_nat]. rewrite drop_0.
  apply (scan_result a (a_ents a) [] f None); [done|]. split; [apply not_elem_of_nil|]. intros e. by rewrite elem_of_nil.
Qed.

(** *** Any sequence of operations *)

Inductive dyn_op := DInsert (f : qpack_field) | DCapacity (c : Z).

Definition dyn_op_ok (o : dyn_op) : Prop := match o with DInsert f => field_ok f | DCapacity c => 0 <= c end.

Definition dyn_step (t : qpack_dyn) (o : dyn_op) : option (bool * qpack_dyn) :=
  match o with
  | DInsert f => qpack_dyn_insert t f
  | DCapacity c => t ← qpack_dyn_set_capacity t c; Some (true, t)
  end.

Fixpoint dyn_run (t : qpack_dyn) (ops : list dyn_op) : option (list bool * qpack_dyn) :=
  match ops with
  | [] => Some ([], t)
  | o :: ops' => '(r, t) ← dyn_step t o; '(rs, t) ← dyn_run t ops'; Some (r :: rs, t)
  end.

Definition a_step (a : dtable) (o : dyn_op) : bool * dtable :=
  match o with DInsert f => a_insert a f | DCapacity c => (true, a_set_capacity a c) end.

Fixpoint a_run (a : dtable) (ops : list dyn_op) : list bool * dtable :=
  match ops with
  | [] => ([], a)
  | o :: ops' => let (r, a) := a_step a o in let (rs, a) := a_run a ops' in (r :: rs, a)
  end.

Lemma drop_until_Forall (P : qpack_field -> Prop) cap need ents : Forall P ents -> Forall P (drop_until cap need ents).
Proof.
  induction 1 as [|e r He Hr IH]; cbn [drop_until]; [constructor|]. destruct (_ <? _); [done|by constructor].
Qed.

Lemma a_room_ok a cap need : Forall field_ok (a_ents a) -> Forall field_ok (a_ents (a_room a cap need)).
Proof. apply drop_until_Forall. Qed.

Lemma a_step_ok a o :
  Forall field_ok (a_ents a) -> dyn_op_ok o ->
  Forall field_ok (a_ents (a_step a o).2) /\
  a_dropped (a_step a o).2 + zlen (a_ents (a_step a o).2) <= a_dropped a + zlen (a_ents a) + 1.
Proof.
  intros Ha Ho. destruct o as [f|c]; cbn [a_step].
  - unfold a_insert. destruct (_ <? _); cbn [snd]; [split; [done|lia]|]. dsimp. split.
    + apply Forall_app. split; [by apply a_room_ok|by apply Forall_singleton].
    + pose proof (a_room_bound a (a_cap a) (zlen (ebytes f) + 32)). zl.
  - cbn [snd]. unfold a_set_capacity. split; [by apply a_room_ok|]. pose proof (a_room_bound a (Z.min c QPACK_DYN_MAX_CAPACITY) 0). lia.
Qed.

Lemma dyn_step_spec t a o :
  dyn_ok t a -> dyn_op_ok o -> a_dropped a + zlen (a_ents a) < span_max ->
  exists t', dyn_step t o = Some ((a_step a o).1, t') /\ dyn_ok t' (a_step a o).2.
Proof.
  intros Ht Ho Hd. destruct o as [f|c]; cbn [dyn_step a_step]; [by apply insert_spec|].
  destruct (set_capacity_spec t a c Ht Ho Hd) as (t' & -> & Ht'). osimpl. eauto.
Qed.

Lemma dyn_run_spec ops : forall t a,
  dyn_ok t a -> Forall field_ok (a_ents a) -> Forall dyn_op_ok ops -> a_dropped a + zlen (a_ents a) + zlen ops < span_max ->
  exists t', dyn_run t ops = Some ((a_run a ops).1, t') /\ dyn_ok t' (a_run a ops).2 /\
    Forall field_ok (a_ents (a_run a ops).2) /\ a_dropped (a_run a ops).2 + zlen (a_ents (a_run a ops).2) < span_max.
Proof.
  induction ops as [|o ops IH]; intros t a Ht Ha Ho Hd; cbn [dyn_run a_run].
  { exists t. change (zlen (@nil dyn_op)) with 0 in Hd. do 3 (split; [done|]). cbn. lia. }
  rewrite zlen_cons in Hd. pose proof (zlen_nonneg ops). apply Forall_cons_1 in Ho as [Ho1 Ho].
  destruct (dyn_step_spec t a o Ht Ho1 ltac:(lia)) as (t1 & -> & Ht1). osimpl.
  destruct (a_step_ok a o Ha Ho1) as [Ha1 Hd1]. destruct (a_step a o) as [r a1]. cbn [fst snd] in *.
  destruct (IH t1 a1 Ht1 Ha1 Ho ltac:(lia)) as (t2 & -> & Ht2). osimpl. destruct (a_run a1 ops) as [rs a2]. eauto.
Qed.

Lemma fits_spec t a f :
  dyn_ok t a -> field_ok f -> qpack_dyn_fits t f = (cost (a_ents a) + (zlen (ebytes f) + 32) <=? a_cap a).
Proof.
  intros [(base & Hr) Hc] (_ & _ & Hn & Hv). unfold qpack_dyn_fits, over_capacity. pose proof (zlen_nonneg (f_name f)).
  pose proof (zlen_nonneg (f_value f)). pose proof (cost_nonneg (a_ents a)). pose proof (dr_cost t base a Hr).
  rewrite entry_size_eq, (dr_size t base a Hr), (dr_cap t base a Hr), zlen_ebytes by lia. unfold span_max in *.
  rewrite u64_small by lia. destruct (_ <? _) eqn:E; cbn [negb]; lia.
Qed.

Lemma storable_spec t a f :
  dyn_ok t a -> field_ok f -> qpack_dyn_storable t f = (zlen (ebytes f) + 32 <=? a_cap a).
Proof.
  intros [(base & Hr) Hc] (_ & _ & Hn & Hv). unfold qpack_dyn_storable. pose proof (zlen_nonneg (f_name f)).
  pose proof (zlen_nonneg (f_value f)). by rewrite entry_size_eq, (dr_cap t base a Hr), zlen_ebytes by lia.
Qed.

(** C21: the dynamic table refines the list of its live entries.  After any sequence of insertions and capacity changes,
    whatever the byte ring and slots held before, the table has returned what the list returns, its size is the RFC 9204
    size of the live entries and within the capacity, an absolute or encoder-relative index reads exactly the entry's
    name and value when it is live and fails otherwise, a search finds the oldest exact match or else the oldest name
    match, and nothing outside the rings is ever accessed. *)
Theorem dyn_table_refines_entries (t0 : qpack_dyn) (c : Z) (ops : list dyn_op) :
  zlen (d_bytes t0) = 4032 -> zlen (d_ring t0) = 63 -> 0 <= c -> Forall dyn_op_ok ops -> zlen ops < span_max ->
  exists t a rs, a_run (mk_dtable 0 [] (Z.min c 2016) (Z.min c 2016)) ops = (rs, a) /\
    dyn_run (qpack_dyn_init t0 c) ops = Some (rs, t) /\
    qpack_dyn_size t = cost (a_ents a) /\ cost (a_ents a) <= a_cap a <= 2016 /\ d_count t = zlen (a_ents a) /\
    (forall i, is_u64 i -> qpack_dyn_get (Some t) i = res_of (a_get a i)) /\
    (forall rel, is_u64 rel -> qpack_dyn_get_enc_rel t rel = res_of (load (a_ents a) (zlen (a_ents a) - 1 - rel))) /\
    (forall f, field_ok f ->
       qpack_dyn_fits t f = (cost (a_ents a) + (zlen (ebytes f) + 32) <=? a_cap a) /\
       qpack_dyn_storable t f = (zlen (ebytes f) + 32 <=? a_cap a) /\
       exists r, qpack_dyn_find t f = Some r /\ find_result a f r).
Proof.
  intros Hb Hr Hc Ho Hl. pose proof (init_spec t0 c Hb Hr Hc) as Hi.
  destruct (dyn_run_spec ops _ _ Hi (Forall_nil_2 _) Ho) as (t & E & Ht & Hall & Hd); [exact Hl|].
  destruct (a_run _ ops) as [rs a] eqn:Ea. cbn [fst snd] in *. exists t, a, rs. split; [done|]. split; [done|].
  pose proof Ht as [(base & Hrep) Hcost]. split; [apply (dr_size t base a Hrep)|]. split; [split; [done|apply (dr_cap_le t base a Hrep)]|].
  split; [apply (dr_count t base a Hrep)|]. split; [intros i Hi'; by apply get_spec|]. split; [intros rel Hrel; by apply enc_rel_spec|].
  intros f Hf. split; [by apply fits_spec|]. split; [by apply storable_spec|by apply dyn_find_spec].
Qed.

Lemma dyn_table_refines_entries_witness :
  exists t a, dyn_run (qpack_dyn_init (mk_dyn (replicate 4032 7) (replicate 63 (mk_entry 9 9 9)) 5 5 5 5 5 5 5) 100)
                [DInsert (mk_field [1; 2] [3]); DInsert (mk_field [4] [5; 6]); DInsert (mk_field [7] [8]); DCapacity 40] = Some ([true; true; true; true], t) /\
    a_ents a = [mk_field [7] [8]] /\ qpack_dyn_get (Some t) 2 = Ok (mk_field [7] [8]) /\ qpack_dyn_get (Some t) 1 = Fail.
Proof.
  destruct (dyn_table_refines_entries (mk_dyn (replicate 4032 7) (replicate 63 (mk_entry 9 9 9)) 5 5 5 5 5 5 5) 100
    [DInsert (mk_field [1; 2] [3]); DInsert (mk_field [4] [5; 6]); DInsert (mk_field [7] [8]); DCapacity 40])
    as (t & a & rs & Ea & E & _ & _ & _ & Hget & _).
  - vm_compute. reflexivity.
  - vm_compute. reflexivity.
  - lia.
  - repeat constructor; vm_compute; congruence.
  - vm_compute. reflexivity.
  - vm_compute in Ea. injection Ea as <- <-. exists t, (mk_dtable 2 [mk_field [7] [8]] 40 100). split; [exact E|]. split; [reflexivity|].
    split; [apply (Hget 2)|apply (Hget 1)]; split; vm_compute; congruence.
Defined.

(** ** Required Insert Count *)

Lemma ric_decode_range M T e :
  0 < M < 4611686018427387904 -> 0 <= T < 4611686018427387904 -> is_u64 e ->
  match qpack_ric_decode e (mk_ric_ctx M T) with Ok r => 0 <= r <= T + M | Fail => True | Oob => False end.
Proof.
  intros Hm Ht He. unfold is_u64 in He. unfold qpack_ric_decode, ric_resolve. cbn [max_entries total_inserts]. destruct (e =? 0) eqn:E0; [lia|].
    rewrite !(u64_small (2 * M)), (u64_small (T + M)) by lia. destruct (2 * M <? e) eqn:E1; [done|]. unfold ric_candidate.
    replace (2 * M =? 0) with false by lia. pose proof (Z.mul_div_le (T + M) (2 * M) ltac:(lia)) as Hq. rewrite (Z.mul_comm (2 * M)) in Hq.
    assert (0 <= (T + M) / (2 * M) * (2 * M)) by (apply Z.mul_nonneg_nonneg; [apply Z.div_pos; lia|lia]).
    rewrite (u64_small (_ * _)), (u64_small (_ + e)), u64_small by lia. unfold ric_correct. bcase; [bcase; [done|lia]|].
    bcase; [done|]. rewrite u64_small by lia. bcase; [done|]. lia.
Qed.

Lemma ric_code ric M T :
  0 < M < 4611686018427387904 -> 0 <= T < 4611686018427387904 -> T - M < ric <= T + M -> 0 <= ric ->
  exists enc, qpack_ric_encode ric M = Some enc /\ qpack_ric_decode enc (mk_ric_ctx M T) = Ok ric.
Proof.
  intros Hm Ht Hr H0. unfold qpack_ric_encode. destruct (ric =? 0) eqn:E; [exists 0; split; [done|]; cbn; f_equal; lia|].
    rewrite u64_small by lia. replace (2 * M =? 0) with false by lia. pose proof (Z.mod_pos_bound ric (2 * M) ltac:(lia)) as Hmod.
    rewrite u64_small by lia. eexists. split; [reflexivity|]. unfold qpack_ric_decode, ric_resolve. cbn [max_entries total_inserts].
    replace (ric mod (2 * M) + 1 =? 0) with false by lia. rewrite !(u64_small (2 * M)), (u64_small (T + M)) by lia.
    replace (2 * M <? ric mod (2 * M) + 1) with false by lia. unfold ric_candidate. replace (2 * M =? 0) with false by lia.
    pose proof (Z.div_mod ric (2 * M) ltac:(lia)) as D1. pose proof (Z.div_mod (T + M) (2 * M) ltac:(lia)) as D2.
    pose proof (Z.mod_pos_bound (T + M) (2 * M) ltac:(lia)) as Hmod2. pose proof (Z.div_pos (T + M) (2 * M) ltac:(lia) ltac:(lia)) as HQ.
    pose proof (Z.div_pos ric (2 * M) ltac:(lia) ltac:(lia)) as Hq0.
    set (Q := (T + M) / (2 * M)) in *. set (q := ric / (2 * M)) in *. set (r := ric mod (2 * M)) in *. set (R := (T + M) mod (2 * M)) in *.
    assert (q = Q \/ q = Q - 1) as Hcase by nia. rewrite (Z.mul_comm Q). 
    rewrite (u64_small (2 * M * Q)), (u64_small (_ + (r + 1))), u64_small by nia. replace (2 * M * Q + (r + 1) - 1) with (2 * M * Q + r) by lia.
    unfold ric_correct. destruct Hcase as [-> | ->].
    - replace (_ <=? T + M) with true by lia. rewrite <- D1, E. done.
    - assert (1 <= Q) by lia. replace (2 * M * Q + r <=? T + M) with false by nia. replace (2 * M * Q + r <=? 2 * M) with false by nia.
      rewrite u64_small by nia. replace (2 * M * Q + r - 2 * M) with ric by lia. by rewrite E.
Qed.

(** The Required Insert Count survives its encoding: a count within MaxEntries of the decoder's insert count is
    decoded to itself (RFC 9204 4.5.1.1), no count decodes to one above the decoder's insert count plus MaxEntries, and
    neither direction divides by zero. *)
Theorem ric_roundtrip (ric : Z) (c : qpack_ric_ctx) :
  0 < max_entries c < 4611686018427387904 -> 0 <= total_inserts c < 4611686018427387904 ->
  total_inserts c - max_entries c < ric <= total_inserts c + max_entries c -> 0 <= ric ->
  exists enc, qpack_ric_encode ric (max_entries c) = Some enc /\ qpack_ric_decode enc c = Ok ric /\
    (forall e r, is_u64 e -> qpack_ric_decode e c = Ok r -> 0 <= r <= total_inserts c + max_entries c) /\
    (forall e, is_u64 e -> qpack_ric_decode e c <> Oob).
Proof.
  intros Hm Ht Hr H0. destruct c as [M T]. cbn [max_entries total_inserts] in *.
  destruct (ric_code ric M T Hm Ht Hr H0) as (enc & E1 & E2). exists enc. split; [done|]. split; [done|]. split.
  - intros e r He Er. pose proof (ric_decode_range M T e Hm Ht He) as H. by rewrite Er in H.
  - intros e He Er. pose proof (ric_decode_range M T e Hm Ht He) as H. by rewrite Er in H.
Qed.

Lemma ric_roundtrip_witness :
  exists enc, qpack_ric_encode 70 63 = Some enc /\ qpack_ric_decode enc (mk_ric_ctx 63 72) = Ok 70.
Proof. destruct (ric_roundtrip 70 (mk_ric_ctx 63 72)) as (e & H1 & H2 & _); [cbn; lia|cbn; lia|cbn; lia|lia|]. exists e. split; [exact H1|exact H2]. Defined.
