(* ===== verification/QpackDyn.v ===== *)
(** * QPACK encoder stream instructions and field line resolution

    src/src/app/qpack/qpackdyn: the instructions of the peer's encoder stream
    applied to the dynamic table (enc_stream.c, enc_stream_qdyn_enc.c), the
    encoder of the insert instruction (insert_encode.c), field line resolution
    against the tables (field_decode.c, field_encode.c) and the decoder stream
    output (dec_stream.c). *)

From Stdlib Require Import String.
From stdpp Require Import base numbers list option.
From Stdlib Require Import ZArith Lia.
From S2P Require Import Prelude Bytes Varint QpackHuff QpackStr ConnTable QpackTable.

(** ** Errors (error.h) *)

(* src/src/app/qpack/qpack/error.h : QPACK_ENCODER_STREAM_ERROR *)
Definition QPACK_ENCODER_STREAM_ERROR : Z := 0x0201.
(* src/src/app/qpack/qpack/error.h : QPACK_DECODER_STREAM_ERROR *)
Definition QPACK_DECODER_STREAM_ERROR : Z := 0x0202.
(* src/src/app/qpack/qpack/error.h : QPACK_DECOMPRESSION_FAILED *)
Definition QPACK_DECOMPRESSION_FAILED : Z := 0x0200.

(** ** Framing an instruction *)

(* src/src/app/qpack/qpackdyn/enc_stream_impl.h : enc_ins *)
Record enc_ins := mk_ins { i_b : list Z; i_n : Z; i_v : Z; i_kind : qpack_enc_kind }.

(* src/src/app/qpack/qpackdyn/enc_stream_impl.h : QPACK_ENC_NAMEREF_T *)
Definition QPACK_ENC_NAMEREF_T : Z := 0x40.
(* src/src/app/qpack/qpackdyn/enc_stream_impl.h : QDYN_ENC_STREAM_TYPE *)
Definition QDYN_ENC_STREAM_TYPE : Z := 0x02.

(** An end offset; 0 while the bytes are not all there; [None] a fault. *)
(* src/src/app/qpack/qpackdyn/enc_stream.c : qdyn_enc_str_end *)
Definition qdyn_enc_str_end (b : list Z) (off bits : Z) : option Z :=
  match qpack_int_decode (drop (Z.to_nat off) b) bits with
  | Ok (len, n) => Some (if len <=? u64 (u64 (zlen b - off) - n) then u64 (u64 (off + n) + len) else 0)
  | Fail => Some 0
  | Oob => None
  end.

(* src/src/app/qpack/qpackdyn/enc_stream.c : end_int *)
Definition end_int (b : list Z) (n : Z) : option Z := Some n.
(* src/src/app/qpack/qpackdyn/enc_stream.c : end_nameref *)
Definition end_nameref (b : list Z) (n : Z) : option Z := qdyn_enc_str_end b n 7.
(* src/src/app/qpack/qpackdyn/enc_stream.c : end_literal *)
Definition end_literal (b : list Z) (n : Z) : option Z :=
  e ← qdyn_enc_str_end b 0 5; if negb (e =? 0) then qdyn_enc_str_end b e 7 else Some 0.

(* src/src/app/qpack/qpackdyn/enc_stream.c : enc_ends@36-41 *)
Definition enc_ends (k : qpack_enc_kind) : list Z -> Z -> option Z :=
  match k with
  | QPACK_ENC_SET_CAPACITY => end_int
  | QPACK_ENC_INSERT_NAME_REF => end_nameref
  | QPACK_ENC_INSERT_LITERAL => end_literal
  | QPACK_ENC_DUPLICATE => end_int
  end.

(* src/src/app/qpack/qpackdyn/enc_stream_qdyn_enc.c : frame_ins *)
Definition frame_ins (buf : list Z) : option (option enc_ins) :=
  match qpack_enc_instr_decode buf with
  | Ok (kind, v, n) =>
      e ← enc_ends kind buf n;
      Some (if e =? 0 then None else Some (mk_ins (take (Z.to_nat e) buf) n v kind))
  | Fail => Some None
  | Oob => None
  end.

(** ** Applying an instruction

    The scratch buffer an entry is built in, and the table.  A result is C's
    1/0 with the table; [None] is a fault. *)

(** [u8 sb[QPACK_DYN_MAX_CAPACITY]]: its bytes are written before they are read. *)
Definition scratch : obuf := mk_obuf (replicate (Z.to_nat QPACK_DYN_MAX_CAPACITY) 0) 0.

(* src/src/app/qpack/qpackdyn/enc_stream.c : qdyn_enc_keep *)
Definition qdyn_enc_keep (sc : obuf) (src : list Z) : option (bool * obuf) := bytes_put src (zlen src) sc.

(* src/src/app/qpack/qpackdyn/enc_stream.c : qdyn_enc_insert_value *)
Definition qdyn_enc_insert_value (t : qpack_dyn) (sc : obuf) (b : list Z) (off : Z) : option (bool * qpack_dyn) :=
  let v := mk_obuf (drop (Z.to_nat (olen sc)) (op sc)) 0 in
  match qpack_string_decode (drop (Z.to_nat off) b) v with
  | Ok (v, _) => qpack_dyn_insert t (mk_field (take (Z.to_nat (olen sc)) (op sc)) (take (Z.to_nat (olen v)) (op v)))
  | Fail => Some (false, t)
  | Oob => None
  end.

(* src/src/app/qpack/qpackdyn/enc_stream.c : qdyn_enc_capacity *)
Definition qdyn_enc_capacity (i : enc_ins) (t : qpack_dyn) (max : Z) : option (bool * qpack_dyn) :=
  if negb (qpack_capacity_within_limit (i_v i) max) then Some (false, t)
  else t ← qpack_dyn_set_capacity t (i_v i); Some (true, t).

(* src/src/app/qpack/qpackdyn/enc_stream.c : qdyn_enc_static_name *)
Definition qdyn_enc_static_name (t : qpack_dyn) (idx : Z) (sc : obuf) : option (bool * obuf) :=
  match qpack_static_get idx with
  | Ok (n, _) => l ← qdyn_cstr_len n; qdyn_enc_keep sc (take (Z.to_nat l) n)
  | Fail => Some (false, sc)
  | Oob => None
  end.

(* src/src/app/qpack/qpackdyn/enc_stream.c : qdyn_enc_dynamic_name *)
Definition qdyn_enc_dynamic_name (t : qpack_dyn) (rel : Z) (sc : obuf) : option (bool * obuf) :=
  match qpack_dyn_get_enc_rel t rel with
  | Ok f => qdyn_enc_keep sc (f_name f)
  | Fail => Some (false, sc)
  | Oob => None
  end.

(* src/src/app/qpack/qpackdyn/enc_stream.c : qdyn_do_nameref *)
Definition qdyn_do_nameref (i : enc_ins) (t : qpack_dyn) (max : Z) : option (bool * qpack_dyn) :=
  b0 ← load (i_b i) 0;
  let is_static := negb (Z.land b0 QPACK_ENC_NAMEREF_T =? 0) in
  '(ok, sc) ← (if is_static then qdyn_enc_static_name t (i_v i) scratch else qdyn_enc_dynamic_name t (i_v i) scratch);
  if (ok : bool) then qdyn_enc_insert_value t sc (i_b i) (i_n i) else Some (false, t).

(* src/src/app/qpack/qpackdyn/enc_stream_qdyn_enc.c : do_literal *)
Definition do_literal (i : enc_ins) (t : qpack_dyn) (max : Z) : option (bool * qpack_dyn) :=
  match qpack_string_decode_pfx (i_b i) 5 scratch with
  | Ok (sc, off) => qdyn_enc_insert_value t sc (i_b i) off
  | Fail => Some (false, t)
  | Oob => None
  end.

(* src/src/app/qpack/qpackdyn/enc_stream_qdyn_enc.c : qdyn_enc_insert_copy *)
Definition qdyn_enc_insert_copy (t : qpack_dyn) (f : qpack_field) : option (bool * qpack_dyn) :=
  '(_, sc) ← qdyn_enc_keep scratch (f_name f);
  '(_, sc) ← qdyn_enc_keep sc (f_value f);
  name ← view (op sc) 0 (zlen (f_name f));
  value ← view (op sc) (zlen (f_name f)) (zlen (f_value f));
  qpack_dyn_insert t (mk_field name value).

(* src/src/app/qpack/qpackdyn/enc_stream_qdyn_enc.c : do_duplicate *)
Definition do_duplicate (i : enc_ins) (t : qpack_dyn) (max : Z) : option (bool * qpack_dyn) :=
  match qpack_dyn_get_enc_rel t (i_v i) with
  | Ok f => qdyn_enc_insert_copy t f
  | Fail => Some (false, t)
  | Oob => None
  end.

(* src/src/app/qpack/qpackdyn/enc_stream_qdyn_enc.c : enc_applies@37-42 *)
Definition enc_applies (k : qpack_enc_kind) : enc_ins -> qpack_dyn -> Z -> option (bool * qpack_dyn) :=
  match k with
  | QPACK_ENC_SET_CAPACITY => qdyn_enc_capacity
  | QPACK_ENC_INSERT_NAME_REF => qdyn_do_nameref
  | QPACK_ENC_INSERT_LITERAL => do_literal
  | QPACK_ENC_DUPLICATE => do_duplicate
  end.

(** The bytes consumed, the table, and the error code ([err] when untouched). *)
(* src/src/app/qpack/qpackdyn/enc_stream_qdyn_enc.c : qdyn_enc_apply *)
Definition qdyn_enc_apply (buf : list Z) (t : qpack_dyn) (max err : Z) : option (Z * qpack_dyn * Z) :=
  f ← frame_ins buf;
  match f with
  | None => Some (0, t, err)
  | Some i =>
      '(ok, t) ← enc_applies (i_kind i) i t max;
      if (ok : bool) then Some (zlen (i_b i), t, err) else Some (0, t, QPACK_ENCODER_STREAM_ERROR)
  end.

(** ** insert_encode.c *)

(* src/src/app/qpack/qpackdyn/insert_encode.c : QPACK_INSERT_LITNAME *)
Definition QPACK_INSERT_LITNAME : Z := 0x40.

(* src/src/app/qpack/qpackdyn/insert_encode.c : encode_name *)
Definition encode_name (out name : list Z) : option (Z * list Z) :=
  qpack_string_encode_pfx out name (mk_pfx 5 QPACK_INSERT_LITNAME).

(** The length written (0: it does not fit) and the buffer. *)
(* src/src/app/qpack/qpackdyn/insert_encode.c : qdyn_insert_literal *)
Definition qdyn_insert_literal (f : qpack_field) (out : list Z) : option (Z * list Z) :=
  '(off, out) ← encode_name out (f_name f);
  '(w, out) ← (if negb (off =? 0) then enc_at off (fun b => qpack_string_encode b (f_value f)) out else Some (0, out));
  Some (if w =? 0 then 0 else off + w, out).

(** ** field_encode.c *)

(* src/src/app/qpack/qpackdyn/field_encode.c : qdyn_indexed_dynamic *)
Definition qdyn_indexed_dynamic (rel_index : Z) (out : list Z) : option (Z * list Z) := qpack_indexed_encode out rel_index false.

(** ** field_decode.c *)

(* src/src/app/qpack/qpackdyn/field_decode.h : qdyn_src *)
Record qdyn_src := mk_qsrc { s_table : option qpack_dyn; s_base : Z; s_fs : list Z; s_ric : Z }.

(* src/src/app/qpack/qpackdyn/field_decode.c : resolve_static *)
Definition resolve_static (index : Z) : res qpack_field :=
  match qpack_static_get index with
  | Ok (n, v) =>
      match qdyn_cstr_len n, qdyn_cstr_len v with
      | Some ln, Some lv => Ok (mk_field (take (Z.to_nat ln) n) (take (Z.to_nat lv) v))
      | _, _ => Oob
      end
  | Fail => Fail
  | Oob => Oob
  end.

(* src/src/app/qpack/qpackdyn/field_decode.c : qdyn_ref_get *)
Definition qdyn_ref_get (s : qdyn_src) (abs : Z) : res qpack_field :=
  if qpack_ric_min_ok (s_ric s) true abs then qpack_dyn_get (s_table s) abs else Fail.

(* src/src/app/qpack/qpackdyn/field_decode.c : resolve_dynamic *)
Definition resolve_dynamic (s : qdyn_src) (rel : Z) : res qpack_field := qdyn_ref_get s (qpack_rel_to_abs (s_base s) rel).

(* src/src/app/qpack/qpackdyn/field_decode.c : resolve_postbase *)
Definition resolve_postbase (s : qdyn_src) (postbase : Z) : res qpack_field :=
  qdyn_ref_get s (qpack_postbase_to_abs (s_base s) postbase).

(* src/src/app/qpack/qpackdyn/field_decode.c : try_indexed *)
Definition try_indexed (src : qdyn_src) : res (qpack_field * Z) :=
  match qpack_indexed_decode (s_fs src) with
  | Ok (index, is_static, used) =>
      match (if (is_static : bool) then resolve_static index else resolve_dynamic src index) with
      | Ok f => Ok (f, used)
      | Fail => Fail
      | Oob => Oob
      end
  | Fail => Fail
  | Oob => Oob
  end.

(* src/src/app/qpack/qpackdyn/field_decode.c : try_postbase *)
Definition try_postbase (src : qdyn_src) : res (qpack_field * Z) :=
  match qpack_indexed_postbase_decode (s_fs src) with
  | Ok (postbase, used) =>
      match resolve_postbase src postbase with Ok f => Ok (f, used) | Fail => Fail | Oob => Oob end
  | Fail => Fail
  | Oob => Oob
  end.

(* src/src/app/qpack/qpackdyn/field_decode.c : qdyn_decode_field *)
Definition qdyn_decode_field (src : qdyn_src) : res (qpack_field * Z) :=
  match try_indexed src with Ok r => Ok r | Fail => try_postbase src | Oob => Oob end.

(* src/src/app/qpack/qpackdyn/field_decode.c : qdyn_resolve_postbase_name *)
Definition qdyn_resolve_postbase_name (src : qdyn_src) (postbase : Z) : res (list Z) :=
  match resolve_postbase src postbase with Ok f => Ok (f_name f) | Fail => Fail | Oob => Oob end.

(* src/src/app/qpack/qpackdyn/field_decode.c : qdyn_resolve_name *)
Definition qdyn_resolve_name (src : qdyn_src) (is_static : bool) (index : Z) : res (list Z) :=
  match (if is_static then resolve_static index else resolve_dynamic src index) with
  | Ok f => Ok (f_name f)
  | Fail => Fail
  | Oob => Oob
  end.

(** ** dec_stream.c *)

(* src/src/app/qpack/qpackdyn/dec_stream.h : QDYN_DEC_ACKS_MAX *)
Definition QDYN_DEC_ACKS_MAX : Z := 512.

(* src/src/app/qpack/qpackdyn/dec_stream.h : qdyn_dec *)
Record qdyn_dec := mk_qdec { qd_acks : list Z; qd_acks_len : Z; qd_acked : Z }.

(* src/src/app/qpack/qpackdyn/dec_stream.c : raise_acked *)
Definition raise_acked (d : qdyn_dec) (ric : Z) : qdyn_dec :=
  if qd_acked d <? ric then mk_qdec (qd_acks d) (qd_acks_len d) ric else d.

(* src/src/app/qpack/qpackdyn/dec_stream.c : qdyn_dec_queue *)
Definition qdyn_dec_queue (d : qdyn_dec) (kind : qpack_dec_kind) (v : Z) : option (Z * qdyn_dec) :=
  '(n, acks) ← enc_at (qd_acks_len d) (fun b => qpack_dec_instr_encode b kind v) (qd_acks d);
  Some (n, mk_qdec acks (qd_acks_len d + n) (qd_acked d)).

(* src/src/app/qpack/qpackdyn/dec_stream.c : qdyn_dec_section_ack *)
Definition qdyn_dec_section_ack (d : qdyn_dec) (stream_id ric : Z) : option qdyn_dec :=
  if ric =? 0 then Some d
  else '(n, d) ← qdyn_dec_queue d QPACK_DEC_SECTION_ACK stream_id; Some (if negb (n =? 0) then raise_acked d ric else d).

(* src/src/app/qpack/qpackdyn/dec_stream.c : qdyn_dec_stream_cancel *)
Definition qdyn_dec_stream_cancel (d : qdyn_dec) (stream_id : Z) : option qdyn_dec :=
  '(_, d) ← qdyn_dec_queue d QPACK_DEC_STREAM_CANCEL stream_id; Some d.

(* src/src/app/qpack/qpackdyn/dec_stream.c : put_increment *)
Definition put_increment (d : qdyn_dec) (inserts : Z) (b : list Z) : option (Z * list Z) :=
  if inserts <=? qd_acked d then Some (0, b) else qpack_dec_instr_encode b QPACK_DEC_INSERT_COUNT (u64 (inserts - qd_acked d)).

(* src/src/app/qpack/qpackdyn/dec_stream.c : qdyn_dec_pending *)
Definition qdyn_dec_pending (d : qdyn_dec) (inserts : Z) (out : list Z) : option (Z * list Z) :=
  '(_, o) ← bytes_put (qd_acks d) (qd_acks_len d) (mk_obuf out 0);
  '(w, p) ← enc_at (olen o) (put_increment d inserts) (op o);
  Some (olen o + w, p).

(* src/src/app/qpack/qpackdyn/dec_stream.c : qdyn_dec_sent *)
Definition qdyn_dec_sent (d : qdyn_dec) (inserts : Z) : qdyn_dec := raise_acked (mk_qdec (qd_acks d) 0 (qd_acked d)) inserts.

(** ** The meaning of an encoder stream instruction *)

Inductive qins :=
  | ISetCapacity (c : Z) | INameRef (static : bool) (idx : Z) (value : list Z) | ILiteral (f : qpack_field) | IDuplicate (idx : Z).

Definition ref_pfx (static : bool) : qpack_pfx := mk_pfx 6 (if static then 0xc0 else 0x80).

Definition qins_wire (i : qins) : list Z :=
  match i with
  | ISetCapacity c => qint_wire (mk_pfx 5 0x20) c
  | INameRef static idx value => qint_wire (ref_pfx static) idx ++ qstr_wire (mk_pfx 7 0) value
  | ILiteral f => qstr_wire (mk_pfx 5 0x40) (f_name f) ++ qstr_wire (mk_pfx 7 0) (f_value f)
  | IDuplicate idx => qint_wire (mk_pfx 5 0) idx
  end.

Definition qins_ok (i : qins) : Prop :=
  match i with
  | ISetCapacity c => qint_ok c
  | INameRef _ idx value => qint_ok idx /\ bytes_ok value
  | ILiteral f => bytes_ok (f_name f) /\ bytes_ok (f_value f)
  | IDuplicate idx => qint_ok idx
  end.

(** The name of a static entry. *)
Definition static_name (idx : Z) : option (list Z) :=
  match resolve_static idx with Ok f => Some (f_name f) | _ => None end.

Definition a_ins (a : dtable) (f : qpack_field) : option dtable := let (ok, a) := a_insert a f in if ok then Some a else None.

(** RFC 9204 4.3: what the instruction does to the list of entries; [None] is an encoder stream error. *)
Definition a_apply (a : dtable) (max : Z) (i : qins) : option dtable :=
  match i with
  | ISetCapacity c => if c <=? max then Some (a_set_capacity a c) else None
  | INameRef static idx value =>
      name ← (if static then static_name idx else f_name <$> load (a_ents a) (zlen (a_ents a) - 1 - idx));
      a_ins a (mk_field name value)
  | ILiteral f => a_ins a f
  | IDuplicate idx => f ← load (a_ents a) (zlen (a_ents a) - 1 - idx); a_ins a f
  end.

(** *** Static entries *)

Definition static_checks : bool :=
  forallb (fun e : list Z * list Z =>
    match qdyn_cstr_len e.1, qdyn_cstr_len e.2 with
    | Some a, Some b => (a <=? 100) && (b <=? 100) && forallb (fun c => (0 <=? c) && (c <? 256)) (e.1 ++ e.2)
    | _, _ => false
    end) static_table.

Lemma static_checked : static_checks = true.
Proof. vm_compute. reflexivity. Qed.

Lemma cstr_len_bound s n : qdyn_cstr_len s = Some n -> 0 <= n < zlen s.
Proof.
  revert n. induction s as [|c s IH]; intros n H; cbn in H; [done|]. rewrite zlen_cons. pose proof (zlen_nonneg s).
  destruct (c =? 0); [injection H as <-; lia|]. destruct (qdyn_cstr_len s) as [m|]; [|done]. cbn in H. injection H as <-.
  specialize (IH m eq_refl). lia.
Qed.

Lemma static_get_spec idx :
  0 <= idx -> if idx <? 99
  then exists n v ln lv, qpack_static_get idx = Ok (n, v) /\ qdyn_cstr_len n = Some ln /\ qdyn_cstr_len v = Some lv /\
         0 <= ln <= 100 /\ ln < zlen n /\ 0 <= lv <= 100 /\ lv < zlen v /\ bytes_ok n /\ bytes_ok v
  else qpack_static_get idx = Fail.
Proof.
  intros H0. unfold qpack_static_get, QPACK_STATIC_COUNT. destruct (idx <? 99) eqn:E; [|by replace (99 <=? idx) with true by lia].
  replace (99 <=? idx) with false by lia.
  destruct (load_is_Some static_table idx) as [e He]; [change (zlen static_table) with 99; lia|]. rewrite He.
  pose proof static_checked as Hc. unfold static_checks in Hc. rewrite forallb_forall in Hc. specialize (Hc e).
  assert (In e static_table) as Hin by (apply list_elem_of_In, elem_of_load; eauto). specialize (Hc Hin). destruct e as [n v]. cbn [fst snd] in Hc.
  destruct (qdyn_cstr_len n) as [ln|] eqn:E1; [|done]. destruct (qdyn_cstr_len v) as [lv|] eqn:E2; [|done].
  rewrite !andb_true_iff in Hc. destruct Hc as [[H1 H2] Ha].
  pose proof (cstr_len_bound n ln E1). pose proof (cstr_len_bound v lv E2).
  exists n, v, ln, lv. do 3 (split; [done|]). split; [lia|]. split; [lia|]. split; [lia|]. split; [lia|].
  rewrite forallb_app in Ha. apply andb_true_iff in Ha as [Ha Hb]. rewrite forallb_forall in Ha, Hb.
  unfold bytes_ok. rewrite !List.Forall_forall. split; intros c Hc; [specialize (Ha c Hc)|specialize (Hb c Hc)]; unfold is_u8; lia.
Qed.

(** *** Framing *)

Lemma take_zlen_app {A} (l l' : list A) : take (Z.to_nat (zlen l)) (l ++ l') = l.
Proof. unfold zlen. by rewrite Nat2Z.id, take_app_length. Qed.
Lemma drop_zlen_app {A} (l l' : list A) : drop (Z.to_nat (zlen l)) (l ++ l') = l'.
Proof. unfold zlen. by rewrite Nat2Z.id, drop_app_length. Qed.

Lemma qstr_wire_split p s : spfx_ok p -> exists h (E : list Z), qstr_wire p s = qint_wire (spfx p h) (zlen E) ++ E.
Proof.
  intros Hp. unfold qstr_wire. destruct (_ <? _); [exists true, (henc s)|exists false, s]; done.
Qed.

Lemma zlen_qint (E : list Z) : zlen E < span_max -> qint_ok (zlen E).
Proof. unfold qint_ok, span_max. pose proof (zlen_nonneg E). change (2 ^ 63) with 9223372036854775808. lia. Qed.

(** The integer at the head of a string literal, and what follows it. *)
Lemma str_int_decode p s post :
  spfx_ok p -> zlen (qstr_wire p s ++ post) < span_max ->
  exists h (E : list Z), qstr_wire p s = qint_wire (spfx p h) (zlen E) ++ E /\
    qpack_int_decode (qstr_wire p s ++ post) (pfx_bits p) = Ok (zlen E, zlen (qint_wire (spfx p h) (zlen E))).
Proof.
  intros Hp Hl. destruct (qstr_wire_split p s Hp) as (h & E & Ew). exists h, E. split; [done|]. rewrite Ew in *. rewrite <- app_assoc in *.
  destruct (spfx_pfx p Hp) as (Hp1 & Hp2 & _). assert (pfx_ok (spfx p h)) as Hs by (by destruct h).
  assert (zlen E < span_max) as HE by (rewrite !zlen_app in Hl; pose proof (zlen_nonneg (qint_wire (spfx p h) (zlen E))); pose proof (zlen_nonneg post); lia).
  destruct (int_decode_dspec (spfx p h) (zlen E) Hs (zlen_qint E HE) (E ++ post) Hl) as (v & Ev & <-). by rewrite spfx_bits in Ev.
Qed.

Lemma str_end_spec p s pre post :
  spfx_ok p -> zlen (pre ++ qstr_wire p s ++ post) < span_max ->
  qdyn_enc_str_end (pre ++ qstr_wire p s ++ post) (zlen pre) (pfx_bits p) = Some (zlen pre + zlen (qstr_wire p s)).
Proof.
  intros Hp Hl. unfold qdyn_enc_str_end. rewrite drop_zlen_app. pose proof (zlen_nonneg pre) as Hpre.
  assert (zlen (qstr_wire p s ++ post) < span_max) as Hl' by (rewrite zlen_app in Hl; lia).
  destruct (str_int_decode p s post Hp Hl') as (h & E & Ew & ->). rewrite Ew in *. unfold span_max in *. rewrite !zlen_app in *.
  pose proof (zlen_nonneg (qint_wire (spfx p h) (zlen E))); pose proof (zlen_nonneg E); pose proof (zlen_nonneg post).
  rewrite (u64_small (_ - zlen pre)), (u64_small (_ - zlen (qint_wire _ _))) by lia. replace (_ <=? _) with true by lia.
  rewrite (u64_small (zlen pre + _)), u64_small by lia. f_equal. lia.
Qed.

Lemma instr_first specs kind s buf b v n :
  load specs kind = Some s -> load buf 0 = Some b -> spec_classify specs b = kind ->
  qpack_int_decode buf (is_prefix_bits s) = Ok (v, n) -> instr_decode buf specs = Ok (kind, v, n).
Proof.
  intros Es Eb Ek Ei. unfold instr_decode. rewrite Eb. pose proof (load_Some _ _ _ Eb). replace (zlen buf =? 0) with false by lia.
  cbv zeta. rewrite Ek. pose proof (load_Some _ _ _ Es). replace (zlen specs <=? kind) with false by lia. by rewrite Es, Ei.
Qed.

(** The first byte of an instruction, by its pattern. *)
Lemma enc_class_byte b :
  is_u8 b -> spec_classify enc_specs b = if 128 <=? b then 1 else if 64 <=? b then 2 else if 32 <=? b then 0 else 3.
Proof.
  intros Hb. apply (u8_check (fun b => spec_classify enc_specs b =? (if 128 <=? b then 1 else if 64 <=? b then 2 else if 32 <=? b then 0 else 3))) in Hb;
    [|vm_compute; reflexivity]. by apply Z.eqb_eq in Hb.
Qed.

(** An integer instruction: the kind of its first byte, its value and length. *)
Lemma enc_int_instr p v post kind :
  pfx_ok p -> qint_ok v -> zlen (qint_wire p v ++ post) < span_max ->
  (exists s, load enc_specs (enc_kind_index kind) = Some s /\ is_prefix_bits s = pfx_bits p) ->
  (forall x, 0 <= x < 2 ^ pfx_bits p -> is_u8 (pfx_pattern p + x) /\ spec_classify enc_specs (pfx_pattern p + x) = enc_kind_index kind) ->
  qpack_enc_instr_decode (qint_wire p v ++ post) = Ok (kind, v, zlen (qint_wire p v)).
Proof.
  intros Hp Hv Hl (s & Es & Eb) Hx. unfold qpack_enc_instr_decode.
  destruct (int_decode_dspec p v Hp Hv post Hl) as (v' & Ev & <-).
  destruct (qint_wire_head p v) as (x & rest & Ew & Hxr); [apply Hp|unfold qint_ok in Hv; lia|].
  rewrite (instr_first enc_specs (enc_kind_index kind) s _ (pfx_pattern p + x) v (zlen (qint_wire p v))); [by destruct kind|done|by rewrite Ew|by apply Hx|by rewrite Eb].
Qed.

Lemma frame_int i p v kind post :
  qins_wire i = qint_wire p v -> qpack_enc_instr_decode (qins_wire i ++ post) = Ok (kind, v, zlen (qins_wire i)) ->
  enc_ends kind = end_int -> frame_ins (qins_wire i ++ post) = Some (Some (mk_ins (qins_wire i) (zlen (qins_wire i)) v kind)).
Proof.
  intros Ew Ed Ek. unfold frame_ins. rewrite Ed, Ek. unfold end_int. osimpl. rewrite Ew at 1. pose proof (qint_wire_pos p v).
  replace (zlen (qint_wire p v) =? 0) with false by lia. by rewrite take_zlen_app.
Qed.

Lemma spfx7 : spfx_ok (mk_pfx 7 0).
Proof. repeat split; vm_compute; congruence. Qed.
Lemma spfx5 : spfx_ok (mk_pfx 5 0x40).
Proof. repeat split; vm_compute; congruence. Qed.

Lemma frame_nameref static idx value post :
  qint_ok idx -> zlen (qins_wire (INameRef static idx value) ++ post) < span_max ->
  frame_ins (qins_wire (INameRef static idx value) ++ post) =
    Some (Some (mk_ins (qins_wire (INameRef static idx value)) (zlen (qint_wire (ref_pfx static) idx)) idx QPACK_ENC_INSERT_NAME_REF)).
Proof.
  intros Hi Hl. cbn [qins_wire] in *. rewrite <- app_assoc in *. unfold frame_ins.
  assert (pfx_ok (ref_pfx static)) as Hp by (destruct static; pfx_solve).
  rewrite (enc_int_instr (ref_pfx static) idx _ QPACK_ENC_INSERT_NAME_REF Hp Hi Hl).
  - cbn [enc_ends]. unfold end_nameref.
    pose proof (str_end_spec (mk_pfx 7 0) value (qint_wire (ref_pfx static) idx) post spfx7 Hl) as He. cbn [pfx_bits] in He.
    rewrite He. osimpl.
    pose proof (qint_wire_pos (ref_pfx static) idx). pose proof (qstr_wire_pos (mk_pfx 7 0) value).
    replace (_ =? 0) with false by lia. do 3 f_equal. rewrite <- zlen_app, app_assoc. apply take_zlen_app.
  - eexists. split; [reflexivity|]. by destruct static.
  - intros x Hx. assert (0 <= x < 64) as Hx' by (by destruct static). assert (is_u8 (pfx_pattern (ref_pfx static) + x)) as H8
      by (unfold is_u8; destruct static; cbn [ref_pfx pfx_pattern]; lia).
    split; [done|]. rewrite enc_class_byte by done. cbn [enc_kind_index]. by replace (128 <=? _) with true by (destruct static; cbn [ref_pfx pfx_pattern]; lia).
Qed.

Lemma frame_literal f post :
  zlen (qins_wire (ILiteral f) ++ post) < span_max ->
  exists n v, frame_ins (qins_wire (ILiteral f) ++ post) = Some (Some (mk_ins (qins_wire (ILiteral f)) n v QPACK_ENC_INSERT_LITERAL)).
Proof.
  intros Hl. cbn [qins_wire] in *. rewrite <- app_assoc in *. unfold frame_ins. set (wn := qstr_wire (mk_pfx 5 64) (f_name f)) in *.
  set (wv := qstr_wire (mk_pfx 7 0) (f_value f)) in *.
  destruct (str_int_decode (mk_pfx 5 64) (f_name f) (wv ++ post) spfx5 Hl) as (h & E & Ew & Ed). fold wn in Ew, Ed.
  assert (exists x, 0 <= x < 64 /\ load (wn ++ wv ++ post) 0 = Some (64 + x)) as (x & Hx & E0).
  { rewrite Ew. destruct (qint_wire_head (spfx (mk_pfx 5 64) h) (zlen E)) as (x & rest & -> & Hx);
      [by destruct h|apply zlen_nonneg|].
    destruct h; cbn in Hx; [exists (32 + x)|exists x]; (split; [lia|]); cbn [app]; rewrite load_cons_0; f_equal; cbn; lia. }
  unfold qpack_enc_instr_decode.
  rewrite (instr_first enc_specs 2 (mk_spec 0x40 0xc0 5) (wn ++ wv ++ post) (64 + x) (zlen E) (zlen (qint_wire (spfx (mk_pfx 5 64) h) (zlen E)))); [|done|done| |done].
  - cbn [enc_kind_of Z.eqb Pos.eqb enc_ends]. change (enc_kind_of 2) with QPACK_ENC_INSERT_LITERAL. cbn [enc_ends]. unfold end_literal.
    pose proof (str_end_spec (mk_pfx 5 64) (f_name f) [] (wv ++ post) spfx5 Hl) as H1. cbn [app pfx_bits] in H1. fold wn in H1.
    change (zlen (@nil Z)) with 0 in H1. rewrite Z.add_0_l in H1. rewrite H1. osimpl.
    pose proof (qstr_wire_pos (mk_pfx 5 64) (f_name f)) as P1. fold wn in P1. pose proof (qstr_wire_pos (mk_pfx 7 0) (f_value f)) as P2. fold wv in P2.
    replace (zlen wn =? 0) with false by lia. cbn [negb].
    pose proof (str_end_spec (mk_pfx 7 0) (f_value f) wn post spfx7 Hl) as H2. cbn [pfx_bits] in H2. fold wv in H2. rewrite H2. osimpl.
    replace (zlen wn + zlen wv =? 0) with false by lia. do 2 eexists. do 3 f_equal. rewrite <- zlen_app, app_assoc. apply take_zlen_app.
  - rewrite enc_class_byte by (unfold is_u8; lia). replace (128 <=? 64 + x) with false by lia. by replace (64 <=? 64 + x) with true by lia.
Qed.

(** *** Applying *)

(** The scratch holds a name. *)
Definition holds_name (sc : obuf) (name : list Z) : Prop :=
  zlen (op sc) = 2016 /\ olen sc = zlen name /\ take (Z.to_nat (zlen name)) (op sc) = name /\ zlen name <= 2016.

Lemma zlen_scratch : zlen (op scratch) = 2016.
Proof. unfold scratch, zlen. cbn [op]. by rewrite length_replicate. Qed.

Lemma insert_big a f : a_cap a <= 2016 -> 2016 < zlen (f_name f) + zlen (f_value f) -> a_insert a f = (false, a).
Proof. intros Hc Hf. unfold a_insert. rewrite zlen_ebytes. by replace (_ <? _) with true by lia. Qed.

Lemma insert_value_spec t a sc name value b off post :
  dyn_ok t a -> holds_name sc name -> bytes_ok name -> bytes_ok value -> drop (Z.to_nat off) b = qstr_wire (mk_pfx 7 0) value ++ post ->
  zlen (qstr_wire (mk_pfx 7 0) value ++ post) < span_max -> a_dropped a + zlen (a_ents a) < span_max ->
  exists t', qdyn_enc_insert_value t sc b off = Some ((a_insert a (mk_field name value)).1, t') /\
    dyn_ok t' (a_insert a (mk_field name value)).2.
Proof.
  intros Hok (Hz & Hl & Ht & Hn) Hbn Hbv Ed Hlen Hd. unfold qdyn_enc_insert_value, qpack_string_decode. rewrite Ed, Hl.
  pose proof (string_decode_exact (mk_pfx 7 0) value (mk_obuf (drop (Z.to_nat (zlen name)) (op sc)) 0) post spfx7 Hbv Hlen) as E.
  cbn [pfx_bits] in E. rewrite E. pose proof (zlen_nonneg name). unfold ocap. cbn [op]. rewrite zlen_drop, Hz by lia.
  destruct (zlen value <=? 2016 - zlen name) eqn:Ef.
  - cbn [op olen]. rewrite splice_0_take, Ht by (rewrite zlen_drop; lia). apply insert_spec; [done| |done].
    pose proof (zlen_nonneg value). unfold field_ok, span_max. cbn. repeat split; (done || lia).
  - exists t. pose proof Hok as [(base & Hr) _]. rewrite insert_big; [done|apply (dr_cap_le t base a Hr)|cbn; lia].
Qed.

Lemma keep_scratch name :
  zlen name <= 2016 -> exists sc, qdyn_enc_keep scratch name = Some (true, sc) /\ holds_name sc name.
Proof.
  intros Hn. unfold qdyn_enc_keep. pose proof zlen_scratch as Hz. pose proof (zlen_nonneg name).
  destruct (bytes_put_all name ltac:(unfold span_max; lia) scratch) as [(bs & [= <-] & Hf & ->)|(Hno & o' & -> & _)].
  - unfold obuf_ok, ocap. rewrite Hz. unfold span_max. cbn. lia.
  - eexists. split; [reflexivity|]. unfold obuf_app. unfold holds_name. cbn [op olen].
    split; [rewrite zlen_splice; cbn [olen scratch]; lia|]. split; [done|]. split; [|done]. apply splice_0_take. lia.
  - specialize (Hno name eq_refl). unfold ofits, ocap in Hno. cbn [olen scratch] in Hno. rewrite Hz in Hno. lia.
Qed.

Lemma static_name_spec idx t :
  0 <= idx -> match static_name idx with
  | Some name => zlen name <= 100 /\ bytes_ok name /\ exists sc, qdyn_enc_static_name t idx scratch = Some (true, sc) /\ holds_name sc name
  | None => qdyn_enc_static_name t idx scratch = Some (false, scratch)
  end.
Proof.
  intros H0. unfold static_name, resolve_static, qdyn_enc_static_name. pose proof (static_get_spec idx H0) as H.
  destruct (idx <? 99); [|by rewrite H]. destruct H as (n & v & ln & lv & -> & -> & -> & H1 & H2 & H3 & H4 & H5 & H6). cbn [f_name]. osimpl.
  assert (zlen (take (Z.to_nat ln) n) = ln) as Hz by (apply zlen_take; lia). split; [lia|]. split; [by apply bytes_ok_take|].
  apply keep_scratch. lia.
Qed.

Lemma dyn_entry_fits t a i e : dyn_ok t a -> Forall field_ok (a_ents a) -> load (a_ents a) i = Some e ->
  zlen (f_name e) + zlen (f_value e) <= 1984 /\ field_ok e.
Proof.
  intros [(base & Hr) Hc] Hall He. split; [|unfold load in He; bcase in He; [|done]; by apply (Forall_lookup_1 _ _ _ _ Hall) in He].
  pose proof (dr_cap_le t base a Hr). pose proof (flat_take_drop _ _ _ He) as Ef. unfold cost in Hc. rewrite Ef, !zlen_app in Hc.
  pose proof (zlen_nonneg (flat (take (Z.to_nat i) (a_ents a)))). pose proof (zlen_nonneg (flat (drop (S (Z.to_nat i)) (a_ents a)))).
  pose proof (load_Some _ _ _ He). rewrite zlen_ebytes in Hc. lia.
Qed.

Lemma insert_copy_eq t f :
  zlen (f_name f) + zlen (f_value f) <= 2016 -> qdyn_enc_insert_copy t f = qpack_dyn_insert t f.
Proof.
  intros Hl. unfold qdyn_enc_insert_copy. pose proof (zlen_nonneg (f_name f)). pose proof (zlen_nonneg (f_value f)).
  destruct (keep_scratch (f_name f)) as (sc & -> & Hz & Hol & Ht & _); [lia|]. osimpl. unfold qdyn_enc_keep.
  destruct (bytes_put_all (f_value f) ltac:(unfold span_max; lia) sc) as [(bs & [= <-] & Hfit & ->)|(Hno & _)].
  - unfold obuf_ok, ocap, span_max. lia.
  - osimpl. unfold obuf_app. cbn [op]. rewrite Hol.
    assert (zlen (splice (op sc) (zlen (f_name f)) (f_value f)) = 2016) as Hzs by (rewrite zlen_splice; lia).
    assert (view (splice (op sc) (zlen (f_name f)) (f_value f)) 0 (zlen (f_name f)) = Some (f_name f)) as ->.
    { unfold view. rewrite Hzs. replace (_ && _) with true by lia. f_equal. unfold splice. cbn [Z.to_nat]. rewrite drop_0.
      rewrite Ht. apply take_zlen_app. }
    assert (view (splice (op sc) (zlen (f_name f)) (f_value f)) (zlen (f_name f)) (zlen (f_value f)) = Some (f_value f)) as ->.
    { unfold view. rewrite Hzs. replace (_ && _) with true by lia. f_equal. unfold splice. rewrite Ht, drop_zlen_app. apply take_zlen_app. }
    osimpl. by destruct f.
  - exfalso. apply (Hno (f_value f) eq_refl). unfold ofits, ocap. lia.
Qed.

(** What the code does with an instruction of the wire. *)
Definition apply_result (a : dtable) (max err : Z) (i : qins) (r : option (Z * qpack_dyn * Z)) : Prop :=
  match a_apply a max i with
  | Some a' => exists t', r = Some (zlen (qins_wire i), t', err) /\ dyn_ok t' a'
  | None => exists t', r = Some (0, t', QPACK_ENCODER_STREAM_ERROR) /\ dyn_ok t' a
  end.

Lemma a_insert_false a f : (a_insert a f).1 = false -> (a_insert a f).2 = a.
Proof. unfold a_insert. by destruct (_ <? _). Qed.

(** The common end of the insert instructions. *)
Lemma ins_result a f max err i t' (r : option (bool * qpack_dyn)) :
  a_apply a max i = a_ins a f -> r = Some ((a_insert a f).1, t') -> dyn_ok t' (a_insert a f).2 ->
  apply_result a max err i
    ('(ok, t) ← r; if (ok : bool) then Some (zlen (qins_wire i), t, err) else Some (0, t, QPACK_ENCODER_STREAM_ERROR)).
Proof.
  intros Ea -> Ht. unfold apply_result. rewrite Ea. unfold a_ins. pose proof (a_insert_false a f) as Hf. osimpl.
  destruct (a_insert a f) as [[] a']; cbn [fst snd] in *; [eauto|]. rewrite Hf in Ht by done. eauto.
Qed.

Lemma a_apply_cap a max c : a_apply a max (ISetCapacity c) = if c <=? max then Some (a_set_capacity a c) else None.
Proof. done. Qed.

Section apply.
Context (t : qpack_dyn) (a : dtable) (max err : Z) (post : list Z).
Hypothesis Hok : dyn_ok t a.
Hypothesis Hall : Forall field_ok (a_ents a).
Hypothesis Hd : a_dropped a + zlen (a_ents a) < span_max.

Lemma apply_capacity c :
  qint_ok c -> zlen (qins_wire (ISetCapacity c) ++ post) < span_max ->
  apply_result a max err (ISetCapacity c) (qdyn_enc_apply (qins_wire (ISetCapacity c) ++ post) t max err).
Proof using All.
  intros Hi Hl. unfold qdyn_enc_apply. assert (pfx_ok (mk_pfx 5 0x20)) as Hp by pfx_solve.
  rewrite (frame_int (ISetCapacity c) (mk_pfx 5 0x20) c QPACK_ENC_SET_CAPACITY post eq_refl);
    [|apply enc_int_instr; [done|done|done|eexists; split; reflexivity|]|done].
  - osimpl. cbn [i_kind enc_applies i_b]. unfold qdyn_enc_capacity, qpack_capacity_within_limit. cbn [i_v]. unfold apply_result.
    rewrite a_apply_cap. destruct (c <=? max); cbn [negb]; [|osimpl; eauto].
    destruct (set_capacity_spec t a c Hok (proj1 Hi) Hd) as (t' & -> & Ht'). osimpl. eauto.
  - cbn [pfx_pattern pfx_bits enc_kind_index]. intros x Hx. change (2 ^ 5) with 32 in Hx.
    assert (is_u8 (32 + x)) by (unfold is_u8; lia). split; [done|]. rewrite enc_class_byte by done.
    replace (128 <=? 32 + x) with false by lia. replace (64 <=? 32 + x) with false by lia. by replace (32 <=? 32 + x) with true by lia.
Qed.

(** The name an insert refers to. *)
Definition ref_name (static : bool) (idx : Z) : option (list Z) :=
  if static then static_name idx else f_name <$> load (a_ents a) (zlen (a_ents a) - 1 - idx).

Lemma ref_name_spec static idx :
  qint_ok idx ->
  match ref_name static idx with
  | Some name => bytes_ok name /\ exists sc, (if static then qdyn_enc_static_name t idx scratch else qdyn_enc_dynamic_name t idx scratch) = Some (true, sc) /\ holds_name sc name
  | None => (if static then qdyn_enc_static_name t idx scratch else qdyn_enc_dynamic_name t idx scratch) = Some (false, scratch)
  end.
Proof using All.
  intros Hi. destruct static; cbn [ref_name].
  - pose proof (static_name_spec idx t ltac:(unfold qint_ok in Hi; lia)) as Hs. destruct (static_name idx); [|done].
    destruct Hs as (_ & ? & ?). eauto.
  - unfold qdyn_enc_dynamic_name. rewrite (enc_rel_spec t a idx Hok Hd) by (by apply qint_u64).
    destruct (load (a_ents a) (zlen (a_ents a) - 1 - idx)) as [e|] eqn:Ee; cbn [res_of fmap option_fmap option_map]; [|done].
    destruct (dyn_entry_fits t a _ e Hok Hall Ee) as [Hfit (He1 & _)]. pose proof (zlen_nonneg (f_value e)). split; [done|]. apply keep_scratch. lia.
Qed.

Lemma apply_nameref static idx value :
  qint_ok idx -> bytes_ok value -> zlen (qins_wire (INameRef static idx value) ++ post) < span_max ->
  apply_result a max err (INameRef static idx value) (qdyn_enc_apply (qins_wire (INameRef static idx value) ++ post) t max err).
Proof using All.
  intros Hidx Hv Hl. unfold qdyn_enc_apply. rewrite frame_nameref by done. osimpl. cbn [i_kind enc_applies i_b].
  unfold qdyn_do_nameref. cbn [i_b i_v i_n].
  assert (exists b0, load (qins_wire (INameRef static idx value)) 0 = Some b0 /\ negb (Z.land b0 QPACK_ENC_NAMEREF_T =? 0) = static) as (b0 & E0 & ET).
  { cbn [qins_wire]. destruct (qint_wire_head (ref_pfx static) idx) as (x & rest & -> & Hx); [by destruct static|unfold qint_ok in Hidx; lia|].
    exists (pfx_pattern (ref_pfx static) + x). split; [done|]. change (pfx_bits (ref_pfx static)) with 6 in Hx.
    rewrite (land_mask 6) by (done || by destruct static). by destruct static. }
  rewrite E0. osimpl. rewrite ET. pose proof (ref_name_spec static idx Hidx) as Hname.
  assert (a_apply a max (INameRef static idx value) = name ← ref_name static idx; a_ins a (mk_field name value)) as Ea by done.
  destruct (ref_name static idx) as [name|].
  - destruct Hname as (Hbn & sc & E & Hsc). rewrite E. osimpl.
    assert (drop (Z.to_nat (zlen (qint_wire (ref_pfx static) idx))) (qins_wire (INameRef static idx value)) = qstr_wire (mk_pfx 7 0) value ++ []) as Edrop
      by (cbn [qins_wire]; by rewrite drop_zlen_app, app_nil_r).
    assert (zlen (qstr_wire (mk_pfx 7 0) value ++ []) < span_max) as Hlv.
    { rewrite app_nil_r. cbn [qins_wire] in Hl. rewrite !zlen_app in Hl. pose proof (zlen_nonneg (qint_wire (ref_pfx static) idx)). pose proof (zlen_nonneg post). lia. }
    destruct (insert_value_spec t a sc name value _ _ [] Hok Hsc Hbn Hv Edrop Hlv Hd) as (t' & Ei & Ht').
    eapply ins_result; [exact Ea|exact Ei|exact Ht'].
  - rewrite Hname. osimpl. unfold apply_result. rewrite Ea. cbn. eauto.
Qed.

Lemma apply_literal f :
  bytes_ok (f_name f) -> bytes_ok (f_value f) -> zlen (qins_wire (ILiteral f) ++ post) < span_max ->
  apply_result a max err (ILiteral f) (qdyn_enc_apply (qins_wire (ILiteral f) ++ post) t max err).
Proof using All.
  intros Hn Hv Hl. unfold qdyn_enc_apply. destruct (frame_literal f post Hl) as (n & v & ->). osimpl. cbn [i_kind enc_applies i_b].
  unfold do_literal. cbn [i_b].
  assert (zlen (qstr_wire (mk_pfx 7 0) (f_value f) ++ []) < span_max /\ zlen (qins_wire (ILiteral f)) < span_max) as [Hlv Hlw].
  { rewrite app_nil_r. cbn [qins_wire] in *. rewrite !zlen_app in *. pose proof (zlen_nonneg (qstr_wire (mk_pfx 5 64) (f_name f))). pose proof (zlen_nonneg post).
    pose proof (zlen_nonneg (qstr_wire (mk_pfx 7 0) (f_value f))). lia. }
  pose proof (string_decode_exact (mk_pfx 5 64) (f_name f) scratch (qstr_wire (mk_pfx 7 0) (f_value f)) spfx5 Hn Hlw) as E.
  cbn [pfx_bits] in E. change (qins_wire (ILiteral f)) with (qstr_wire (mk_pfx 5 64) (f_name f) ++ qstr_wire (mk_pfx 7 0) (f_value f)).
  rewrite E. unfold ocap. rewrite zlen_scratch. destruct (zlen (f_name f) <=? 2016) eqn:Ef.
  - assert (holds_name (mk_obuf (splice (op scratch) 0 (f_name f)) (zlen (f_name f))) (f_name f)) as Hsc.
    { split; [cbn [op]; rewrite zlen_splice, zlen_scratch; [done|lia|rewrite zlen_scratch; lia]|]. split; [done|]. split; [|lia].
      cbn [op]. apply splice_0_take. rewrite zlen_scratch. lia. }
    destruct (insert_value_spec t a _ (f_name f) (f_value f)
                (qstr_wire (mk_pfx 5 64) (f_name f) ++ qstr_wire (mk_pfx 7 0) (f_value f)) (zlen (qstr_wire (mk_pfx 5 64) (f_name f))) []
                Hok Hsc Hn Hv ltac:(by rewrite drop_zlen_app, app_nil_r) Hlv Hd) as (t' & Ei & Ht').
    destruct f as [fn fv]. cbn [f_name f_value] in *. eapply (ins_result a (mk_field fn fv) max err (ILiteral (mk_field fn fv)) t'); [done|exact Ei|exact Ht'].
  - osimpl. unfold apply_result. cbn [a_apply]. unfold a_ins. pose proof Hok as [(base & Hr) _].
    pose proof (zlen_nonneg (f_value f)). rewrite insert_big; [eauto|apply (dr_cap_le t base a Hr)|lia].
Qed.

Lemma apply_duplicate idx :
  qint_ok idx -> zlen (qins_wire (IDuplicate idx) ++ post) < span_max ->
  apply_result a max err (IDuplicate idx) (qdyn_enc_apply (qins_wire (IDuplicate idx) ++ post) t max err).
Proof using All.
  intros Hi Hl. unfold qdyn_enc_apply. assert (pfx_ok (mk_pfx 5 0)) as Hp by pfx_solve.
  rewrite (frame_int (IDuplicate idx) (mk_pfx 5 0) idx QPACK_ENC_DUPLICATE post eq_refl);
    [|apply enc_int_instr; [done|done|done|eexists; split; reflexivity|]|done].
  - osimpl. cbn [i_kind enc_applies i_b]. unfold do_duplicate. cbn [i_v]. rewrite (enc_rel_spec t a idx Hok Hd) by (by apply qint_u64).
    destruct (load (a_ents a) (zlen (a_ents a) - 1 - idx)) as [e|] eqn:Ee; cbn [res_of].
    + destruct (dyn_entry_fits t a _ e Hok Hall Ee) as [Hfit Hef].
      rewrite insert_copy_eq by lia. destruct (insert_spec t a e Hok Hef Hd) as (t' & E & Ht').
      eapply (ins_result a e max err (IDuplicate idx) t'); [cbn [a_apply]; by rewrite Ee|exact E|exact Ht'].
    + osimpl. unfold apply_result. cbn [a_apply]. rewrite Ee. cbn. eauto.
  - cbn [pfx_pattern pfx_bits enc_kind_index]. intros x Hx. change (2 ^ 5) with 32 in Hx.
    assert (is_u8 (0 + x)) by (unfold is_u8; lia). split; [done|]. rewrite enc_class_byte by done.
    replace (128 <=? 0 + x) with false by lia. replace (64 <=? 0 + x) with false by lia. by replace (32 <=? 0 + x) with false by lia.
Qed.

Lemma enc_apply_spec i :
  qins_ok i -> zlen (qins_wire i ++ post) < span_max -> apply_result a max err i (qdyn_enc_apply (qins_wire i ++ post) t max err).
Proof using All.
  destruct i as [c|static idx value|f|idx]; intros Hi; [by apply apply_capacity| | |by apply apply_duplicate];
    destruct Hi; [by apply apply_nameref|by apply apply_literal].
Qed.
End apply.

(** *** Any bytes at all *)

Lemma str_end_safe b off n :
  span_ok b -> 0 <= off <= zlen b -> 1 <= n <= 7 ->
  exists e, qdyn_enc_str_end b off n = Some e /\ (e = 0 \/ off < e <= zlen b).
Proof.
  intros [Hb Hz] Ho Hn. unfold qdyn_enc_str_end.
  assert (span_ok (drop (Z.to_nat off) b)) as Hd by (split; [by apply bytes_ok_drop|rewrite zlen_drop; lia]).
  pose proof (int_decode_dsafe n ltac:(lia) _ Hd) as Hi. cbv beta in Hi. destruct (qpack_int_decode _ n) as [[len m]| |]; [|eauto|done].
  destruct Hi as [Hm Hl]. rewrite zlen_drop in Hm by lia. unfold span_max in Hz. pose proof (pow_bound n ltac:(lia)).
  change (2 ^ 63) with 9223372036854775808 in Hl.
  rewrite (u64_small (zlen b - off)), (u64_small (zlen b - off - m)) by lia. eexists. split; [reflexivity|].
  destruct (len <=? _) eqn:E; [right|by left]. rewrite (u64_small (off + m)), u64_small by lia. lia.
Qed.

Lemma instr_decode_inv buf specs k v n :
  instr_decode buf specs = Ok (k, v, n) -> exists s, load specs k = Some s /\ qpack_int_decode buf (is_prefix_bits s) = Ok (v, n).
Proof.
  unfold instr_decode. destruct (zlen buf =? 0); [done|]. destruct (load buf 0) as [b|]; [|done]. cbv zeta.
  generalize (spec_classify specs b) as kk. intros kk. destruct (zlen specs <=? kk); [done|]. destruct (load specs kk) as [s|] eqn:Es; [|done].
  destruct (qpack_int_decode buf _) as [[v' n']| |] eqn:Ei; [|done|done]. intros [= <- <- <-]. eauto.
Qed.

Lemma enc_spec_bits k s : load enc_specs k = Some s -> 1 <= is_prefix_bits s <= 7.
Proof.
  intros Es. unfold load in Es. bcase in Es; [|done]. apply list_elem_of_lookup_2 in Es. unfold enc_specs in Es.
  repeat (apply elem_of_cons in Es as [->|Es]; [cbn; lia|]). by apply elem_of_nil in Es.
Qed.

(** The end of the instruction lies past its leading integer and within the buffer. *)
Lemma enc_ends_safe buf k v n :
  span_ok buf -> instr_decode buf enc_specs = Ok (k, v, n) ->
  1 <= n <= zlen buf /\ 0 <= v < 2 ^ 64 /\ exists e, enc_ends (enc_kind_of k) buf n = Some e /\ (e = 0 \/ n <= e <= zlen buf).
Proof.
  intros Hb Ei. pose proof Hb as [_ Hz]. apply instr_decode_inv in Ei as (s & Es & Eint). pose proof (enc_spec_bits _ _ Es) as Hs.
  pose proof (int_decode_dsafe (is_prefix_bits s) ltac:(lia) buf Hb) as Hi. cbv beta in Hi. rewrite Eint in Hi. destruct Hi as [Hn Hv].
  split; [done|]. split; [apply (val_u64 (is_prefix_bits s)); [lia|done]|]. destruct (enc_kind_of k) eqn:Ek; cbn [enc_ends].
  - exists n. split; [done|lia].
  - destruct (str_end_safe buf n 7 Hb ltac:(lia) ltac:(lia)) as (e & E & He). exists e. split; [done|]. destruct He as [->|He]; [by left|right; lia].
  - assert (k = 2) as -> by (revert Ek; unfold enc_kind_of; bcases; done).
    unfold end_literal. destruct (str_end_safe buf 0 5 Hb ltac:(lia) ltac:(lia)) as (e & E & He). rewrite E. osimpl.
    destruct (e =? 0) eqn:E0; cbn [negb]; [exists 0; split; [done|by left]|].
    destruct (str_end_safe buf e 7 Hb ltac:(lia) ltac:(lia)) as (e2 & E2 & He2). exists e2. split; [done|].
    assert (n <= e); [|lia]. injection Es as <-. cbn [is_prefix_bits] in *. unfold qdyn_enc_str_end in E. cbn [Z.to_nat] in E.
    rewrite drop_0, Eint in E. injection E as E. destruct (v <=? _) eqn:Ele in E; [|lia]. unfold span_max in Hz.
    rewrite (u64_small (zlen buf - 0)), (u64_small (zlen buf - 0 - n)) in Ele by lia. rewrite (u64_small (0 + n)), u64_small in E by lia. lia.
  - exists n. split; [done|lia].
Qed.

Lemma frame_ins_safe buf :
  span_ok buf -> exists r, frame_ins buf = Some r /\
    match r with
    | None => True
    | Some i => exists e, 1 <= e <= zlen buf /\ i_b i = take (Z.to_nat e) buf /\ 0 <= i_v i < 2 ^ 64 /\ 1 <= i_n i <= e
    end.
Proof.
  intros Hb. unfold frame_ins, qpack_enc_instr_decode. destruct (instr_decode buf enc_specs) as [[[k v] n]| |] eqn:Ei.
  - destruct (enc_ends_safe buf k v n Hb Ei) as (Hn & Hv & e & -> & He). osimpl. eexists. split; [reflexivity|].
    destruct (e =? 0) eqn:E0; [done|]. exists e. cbn [i_b i_v i_n]. split; [lia|]. split; [done|]. split; [done|lia].
  - eexists. split; [reflexivity|]. done.
  - exfalso. pose proof (instr_decode_dsafe enc_specs ltac:(repeat constructor; cbn; lia) buf Hb) as H. by rewrite Ei in H.
Qed.

(** The effect of applying any instruction: a table that still represents some entries. *)
Definition tbl_ok (t : qpack_dyn) (n : Z) : Prop :=
  exists a, dyn_ok t a /\ Forall field_ok (a_ents a) /\ a_dropped a + zlen (a_ents a) <= n.

Lemma insert_tbl_ok t n f : tbl_ok t n -> n < span_max -> field_ok f ->
  exists ok t', qpack_dyn_insert t f = Some (ok, t') /\ tbl_ok t' (n + 1) /\ (ok = false -> t' = t).
Proof.
  intros (a & Hok & Hall & Hd) Hn Hf. destruct (insert_spec t a f Hok Hf ltac:(lia)) as (t' & E & Ht').
  exists (a_insert a f).1, t'. split; [done|]. split.
  - destruct (a_step_ok a (DInsert f) Hall Hf) as [H1 H2]. exists (a_insert a f).2. split; [done|]. split; [done|]. cbn [a_step] in H2. lia.
  - intros Hfalse. unfold qpack_dyn_insert in E. destruct (d_capacity t <? _) eqn:Ec in E; [by injection E as _ <-|].
    destruct (make_room t _); [|done]. cbn in E. destruct (store_entry _ f); [|done]. cbn in E. injection E as E _. congruence.
Qed.

(** What a string literal decodes to, whatever its bytes. *)
Lemma string_decode_value n dst buf :
  1 <= n <= 7 -> span_ok buf ->
  match qpack_string_decode_pfx buf n dst with
  | Ok (d, used) => 1 <= used <= zlen buf /\ exists s, bytes_ok s /\ zlen s <= ocap dst /\ d = mk_obuf (splice (op dst) 0 s) (zlen s)
  | Fail => True
  | Oob => False
  end.
Proof.
  intros Hn Hb. pose proof (string_decode_dsafe n dst Hn buf Hb) as Hs. cbv beta in Hs.
  destruct (qpack_string_decode_pfx buf n dst) as [[d used]| |] eqn:E; [|done|done]. split; [apply Hs|]. destruct Hs as [Hu _].
  unfold qpack_string_decode_pfx in E. destruct (take_header buf n) as [h| |]; [|done|done]. destruct Hb as [Hb Hz].
  unfold str_value in E. destruct (_ <? _) eqn:Ef in E; [done|]. set (oct := take _ _) in E. assert (bytes_ok oct) as Ho by (by apply bytes_ok_take, bytes_ok_drop).
  assert (zlen oct < span_max) as Hoz.
  { subst oct. unfold zlen in *. rewrite length_take, length_drop. lia. }
  destruct (qh_huff h).
  - pose proof (huffman_decode_sound oct dst Ho) as Hh. destruct (qpack_huffman_decode oct dst) as [d'| |]; [|done|done]. injection E as -> _.
    destruct Hh as (s & H1 & _ & H2 & H3). eauto.
  - rewrite str_raw_ok in E by done. destruct (zlen oct <=? ocap dst) eqn:El in E; [|done]. injection E as <- _.
    exists oct. split; [done|]. split; [lia|done].
Qed.

(** An apply function never faults, keeps the table sound, and leaves it alone when it refuses. *)
Definition applies_safe (t : qpack_dyn) (n : Z) (r : option (bool * qpack_dyn)) : Prop :=
  exists ok t', r = Some (ok, t') /\ tbl_ok t' (n + 1) /\ (ok = false -> t' = t).

Lemma tbl_ok_mono t n m : tbl_ok t n -> n <= m -> tbl_ok t m.
Proof. intros (a & H1 & H2 & H3) Hm. exists a. split; [done|]. split; [done|lia]. Qed.

Lemma applies_refused t n : tbl_ok t n -> applies_safe t n (Some (false, t)).
Proof. intros Ht. exists false, t. split; [done|]. split; [apply (tbl_ok_mono t n); [done|lia]|done]. Qed.

Lemma insert_value_safe t n sc name b off :
  tbl_ok t n -> n < span_max -> holds_name sc name -> bytes_ok name -> span_ok b -> 0 <= off <= zlen b ->
  applies_safe t n (qdyn_enc_insert_value t sc b off).
Proof.
  intros Ht Hn (Hz & Hl & Et & Hle) Hbn [Hb Hzb] Ho. unfold qdyn_enc_insert_value, qpack_string_decode.
  assert (span_ok (drop (Z.to_nat off) b)) as Hd by (split; [by apply bytes_ok_drop|rewrite zlen_drop; lia]).
  rewrite Hl. set (v := mk_obuf (drop (Z.to_nat (zlen name)) (op sc)) 0). pose proof (zlen_nonneg name).
  assert (ocap v = 2016 - zlen name) as Hv by (unfold ocap; subst v; cbn [op]; rewrite zlen_drop; lia).
  pose proof (string_decode_value 7 v _ ltac:(lia) Hd) as Hs.
  destruct (qpack_string_decode_pfx _ 7 v) as [[d used]| |]; [|by apply applies_refused|done].
  destruct Hs as (_ & s & Hs & Hsz & ->). cbn [op olen]. rewrite Et, splice_0_take by (by unfold ocap in Hsz).
  pose proof (zlen_nonneg s). apply insert_tbl_ok; [done|done|]. unfold field_ok, span_max. cbn [f_name f_value]. repeat split; (done || lia).
Qed.

(** The hypotheses every instruction's safety shares. *)
Section ins_safe.
Context (t : qpack_dyn) (n : Z) (i : enc_ins) (max : Z).
Hypothesis Ht : tbl_ok t n.
Hypothesis Hn : n < span_max.
Hypothesis Hb : span_ok (i_b i).
Hypothesis Hv : 0 <= i_v i < 2 ^ 64.
Hypothesis Hin : 1 <= i_n i <= zlen (i_b i).

Lemma capacity_safe : applies_safe t n (qdyn_enc_capacity i t max).
Proof using All.
  unfold qdyn_enc_capacity. destruct (negb _); [by apply applies_refused|]. destruct Ht as (a & Hok & Hall & Hd).
  destruct (set_capacity_spec t a (i_v i) Hok ltac:(lia) ltac:(lia)) as (t' & -> & Ht'). osimpl. exists true, t'. split; [done|]. split; [|done].
  destruct (a_step_ok a (DCapacity (i_v i)) Hall ltac:(cbn; lia)) as [H1 H2]. exists (a_set_capacity a (i_v i)).
  split; [done|]. split; [done|]. cbn [a_step snd] in H2. lia.
Qed.

Lemma nameref_safe : applies_safe t n (qdyn_do_nameref i t max).
Proof using All.
  pose proof Ht as (a & Hok & Hall & Hd). unfold qdyn_do_nameref. destruct (load_is_Some (i_b i) 0 ltac:(lia)) as [b0 ->]. osimpl.
  destruct (negb _).
  - pose proof (static_name_spec (i_v i) t ltac:(lia)) as Hs. destruct (static_name (i_v i)) as [name|]; [|rewrite Hs; osimpl; by apply applies_refused].
    destruct Hs as (_ & Hbn & sc & -> & Hsc). osimpl. apply (insert_value_safe t n sc name); try done. lia.
  - unfold qdyn_enc_dynamic_name. rewrite (enc_rel_spec t a (i_v i) Hok ltac:(lia)) by (by unfold is_u64; change 18446744073709551616 with (2 ^ 64)).
    destruct (load (a_ents a) _) as [e|] eqn:Ee; cbn [res_of]; [|osimpl; by apply applies_refused].
    destruct (dyn_entry_fits t a _ e Hok Hall Ee) as [Hfit (He1 & _)]. pose proof (zlen_nonneg (f_value e)).
    destruct (keep_scratch (f_name e) ltac:(lia)) as (sc & -> & Hsc). osimpl. apply (insert_value_safe t n sc (f_name e)); try done. lia.
Qed.

Lemma literal_safe : applies_safe t n (do_literal i t max).
Proof using All.
  unfold do_literal. pose proof (string_decode_value 5 scratch (i_b i) ltac:(lia) Hb) as Hs.
  destruct (qpack_string_decode_pfx (i_b i) 5 scratch) as [[sc off]| |]; [|by apply applies_refused|done].
  destruct Hs as (Ho & s & Hs & Hsz & ->). unfold ocap in Hsz. rewrite zlen_scratch in Hsz. pose proof (zlen_nonneg s).
  apply (insert_value_safe t n _ s); try done; [|lia]. unfold holds_name. cbn [op olen].
  split; [rewrite zlen_splice, zlen_scratch; [done|lia|rewrite zlen_scratch; lia]|]. split; [done|]. split; [|lia]. apply splice_0_take. rewrite zlen_scratch. lia.
Qed.

Lemma duplicate_safe : applies_safe t n (do_duplicate i t max).
Proof using All.
  pose proof Ht as (a & Hok & Hall & Hd). unfold do_duplicate.
  rewrite (enc_rel_spec t a (i_v i) Hok ltac:(lia)) by (by unfold is_u64; change 18446744073709551616 with (2 ^ 64)).
  destruct (load (a_ents a) _) as [e|] eqn:Ee; cbn [res_of]; [|by apply applies_refused].
  destruct (dyn_entry_fits t a _ e Hok Hall Ee) as [Hfit Hef].
  rewrite insert_copy_eq by lia. by apply insert_tbl_ok.
Qed.
End ins_safe.

(** The outcome of one call: bytes consumed, the table, the error code. *)
Definition apply_outcome (buf : list Z) (t : qpack_dyn) (n err : Z) (r : option (Z * qpack_dyn * Z)) : Prop :=
  exists used t' err', r = Some (used, t', err') /\ tbl_ok t' (n + 1) /\ 0 <= used <= zlen buf /\
    (used = 0 -> t' = t /\ (err' = err \/ err' = QPACK_ENCODER_STREAM_ERROR)) /\ (0 < used -> err' = err).

Lemma enc_apply_safe buf t max err n :
  span_ok buf -> tbl_ok t n -> n < span_max -> apply_outcome buf t n err (qdyn_enc_apply buf t max err).
Proof.
  intros Hb Ht Hn. unfold qdyn_enc_apply. destruct (frame_ins_safe buf Hb) as (r & -> & Hr). osimpl. pose proof (zlen_nonneg buf).
  destruct r as [i|].
  2: { exists 0, t, err. split; [done|]. split; [apply (tbl_ok_mono t n); [done|lia]|]. split; [lia|]. split; [by auto|lia]. }
  destruct Hr as (e & He & Eb & Hv & Hin). destruct Hb as [Hb Hz].
  assert (zlen (i_b i) = e) as Hzb by (rewrite Eb; apply zlen_take; lia).
  assert (span_ok (i_b i)) as Hib by (split; [rewrite Eb; by apply bytes_ok_take|lia]). rewrite <- Hzb in Hin.
  assert (applies_safe t n (enc_applies (i_kind i) i t max)) as (ok & t' & -> & Ht' & Hf).
  { destruct (i_kind i); cbn [enc_applies]; [by apply capacity_safe|by apply nameref_safe|by apply literal_safe|by apply duplicate_safe]. }
  osimpl. destruct ok; (do 3 eexists; split; [reflexivity|]; split; [done|]; split; [lia|]); (split; [|lia]); [lia|]. intros _. auto.
Qed.

(** C20: applying the peer's encoder stream does what RFC 9204 4.3 says.  For a table that represents a list of entries, an
    instruction followed by any bytes is applied exactly: Set Dynamic Table Capacity, Insert with Name Reference
    (static or dynamic), Insert with Literal Name and Duplicate take the list of entries to the one the specification
    gives, consuming exactly the instruction; when the specification refuses it (capacity above the limit, a reference
    to no entry, an entry larger than the table) the code reports QPACK_ENCODER_STREAM_ERROR, consumes nothing and the
    entries stay.  The wire form is [qins_wire]: integers below 2^63 in their shortest encoding, strings Huffman coded
    exactly when that is shorter. *)
Theorem encoder_stream_exact (t : qpack_dyn) (a : dtable) (max err : Z) (i : qins) (post : list Z) :
  dyn_ok t a -> Forall field_ok (a_ents a) -> a_dropped a + zlen (a_ents a) < span_max ->
  qins_ok i -> zlen (qins_wire i ++ post) < span_max ->
  match a_apply a max i with
  | Some a' => exists t', qdyn_enc_apply (qins_wire i ++ post) t max err = Some (zlen (qins_wire i), t', err) /\ dyn_ok t' a'
  | None => exists t', qdyn_enc_apply (qins_wire i ++ post) t max err = Some (0, t', QPACK_ENCODER_STREAM_ERROR) /\ dyn_ok t' a
  end.
Proof. intros Hok Hall Hd Hi Hl. exact (enc_apply_spec t a max err post Hok Hall Hd i Hi Hl). Qed.

Definition dyn_demo : qpack_dyn := qpack_dyn_init (mk_dyn (replicate 4032 7) (replicate 63 (mk_entry 9 9 9)) 5 5 5 5 5 5 5) 100.

Lemma dyn_demo_ok : dyn_ok dyn_demo (mk_dtable 0 [] 100 100).
Proof. apply (init_spec _ 100); [vm_compute; reflexivity|vm_compute; reflexivity|lia]. Qed.

Lemma encoder_stream_exact_witness :
  exists t', qdyn_enc_apply (qins_wire (INameRef true 24 [50; 48; 50]) ++ [9]) dyn_demo 100 0 = Some (4, t', 0) /\
    dyn_ok t' (mk_dtable 0 [mk_field (string_octets ":status") [50; 48; 50]] 100 100).
Proof.
  apply (encoder_stream_exact dyn_demo (mk_dtable 0 [] 100 100) 100 0 (INameRef true 24 [50; 48; 50]) [9] dyn_demo_ok (Forall_nil_2 _)).
  - vm_compute. reflexivity.
  - split; [split; vm_compute; congruence|]. repeat constructor; vm_compute; congruence.
  - vm_compute. reflexivity.
Defined.

(** Whatever bytes the peer puts on its encoder stream, applying them never reads or writes outside the input, the
    scratch buffer or the table, consumes at most the input, leaves a table that still represents a list of entries
    (one insertion more at most); when it consumes nothing the table is as it was and the error code is either left
    alone or QPACK_ENCODER_STREAM_ERROR, and when it consumes an instruction the error code is left alone. *)
Theorem encoder_stream_safe (buf : list Z) (t : qpack_dyn) (a : dtable) (max err : Z) :
  span_ok buf -> dyn_ok t a -> Forall field_ok (a_ents a) -> a_dropped a + zlen (a_ents a) < span_max ->
  exists used t' err' a', qdyn_enc_apply buf t max err = Some (used, t', err') /\
    dyn_ok t' a' /\ Forall field_ok (a_ents a') /\ a_dropped a' + zlen (a_ents a') <= a_dropped a + zlen (a_ents a) + 1 /\
    0 <= used <= zlen buf /\
    (used = 0 -> t' = t /\ (err' = err \/ err' = QPACK_ENCODER_STREAM_ERROR)) /\ (0 < used -> err' = err).
Proof.
  intros Hb Hok Hall Hd.
  destruct (enc_apply_safe buf t max err (a_dropped a + zlen (a_ents a)) Hb) as (used & t' & err' & E & (a' & H1 & H2 & H3) & Hrest);
    [exists a; split; [done|]; split; [done|lia]|done|].
  exists used, t', err', a'. by repeat (split; [done|]).
Qed.

Lemma encoder_stream_safe_witness :
  exists used t' err', qdyn_enc_apply [0x81; 0x03] dyn_demo 100 7 = Some (used, t', err') /\ 0 <= used <= 2.
Proof.
  destruct (encoder_stream_safe [0x81; 0x03] dyn_demo (mk_dtable 0 [] 100 100) 100 7) as (used & t' & err' & a' & E & _ & _ & _ & H & _).
  - split; [repeat constructor; vm_compute; congruence|vm_compute; reflexivity].
  - exact dyn_demo_ok.
  - exact (Forall_nil_2 _).
  - vm_compute. reflexivity.
  - exists used, t', err'. split; [exact E|exact H].
Defined.
