(* ===== verification/QpackEnc.v ===== *)
(** * The QPACK encoder

    src/src/app/qpack/qpackenc: the encoder-side table and its acknowledgement
    bookkeeping (qpackenc.c), the peer's decoder stream (qpackenc_decrx.c) and
    the :status field line (status_line.c). *)

From Stdlib Require Import String.
From stdpp Require Import base numbers list option.
From Stdlib Require Import ZArith Lia.
From S2P Require Import Prelude Bytes Varint QpackHuff QpackStr ConnTable QpackTable QpackDyn.

(** ** qpackenc.c *)

(* src/src/app/qpack/qpackenc/qpackenc.h : qpackenc_state *)
Record qpackenc_state := mk_qes {
  qe_dyn : qpack_dyn; qe_total_inserts : Z; qe_known_received : Z; qe_pending_acks : Z; qe_cap_pending : bool }.

(* src/src/app/qpack/qpackenc/qpackenc.h : QPACKENC_LOCAL_CAP *)
Definition QPACKENC_LOCAL_CAP : Z := QPACK_DYN_MAX_CAPACITY.

(* src/src/app/qpack/qpackenc/qpackenc.h : qpackenc_plan *)
Record qpackenc_plan := mk_plan { pl_instr : list Z; pl_insert_len : Z; pl_abs_index : Z; pl_used_dynamic : bool }.

(* src/src/app/qpack/qpackenc/qpackenc.c : qpackenc_init *)
Definition qpackenc_init (st : qpackenc_state) (capacity : Z) : qpackenc_state :=
  mk_qes (qpack_dyn_init (qe_dyn st) capacity) 0 0 0 false.

(* src/src/app/qpack/qpackenc/qpackenc.c : qpackenc_peer_capacity *)
Definition qpackenc_peer_capacity (st : qpackenc_state) (peer_max : Z) : option qpackenc_state :=
  t ← qpack_dyn_set_capacity (qe_dyn st) (u64_min peer_max QPACKENC_LOCAL_CAP);
  Some (mk_qes (mk_dyn (d_bytes t) (d_ring t) (d_head t) (d_count t) (d_tail t) (d_dropped t) (d_size t) (d_capacity t) peer_max)
          (qe_total_inserts st) (qe_known_received st) (qe_pending_acks st) (negb (d_capacity t =? 0))).

(* src/src/app/qpack/qpackenc/qpackenc.c : find_exact *)
Definition find_exact (st : qpackenc_state) (f : qpack_field) : option (option qpack_match) :=
  r ← qpack_dyn_find (qe_dyn st) f;
  Some (match r with Some m => if m_value_matched m then Some m else None | None => None end).

(** The reference when the entry is acknowledged, and whether there is an entry. *)
(* src/src/app/qpack/qpackenc/qpackenc.c : plan_existing *)
Definition plan_existing (st : qpackenc_state) (f : qpack_field) : option (option Z * bool) :=
  r ← find_exact st f;
  Some (match r with
        | None => (None, false)
        | Some m => if qe_known_received st <=? m_abs_index m then (None, true) else (Some (m_abs_index m), true)
        end).

(* src/src/app/qpack/qpackenc/qpackenc.c : evict_free *)
Definition evict_free (st : qpackenc_state) : bool :=
  (qe_pending_acks st =? 0) && (qe_known_received st =? qe_total_inserts st).

(* src/src/app/qpack/qpackenc/qpackenc.c : insert_safe *)
Definition insert_safe (st : qpackenc_state) (f : qpack_field) : bool :=
  qpack_dyn_fits (qe_dyn st) f || (evict_free st && qpack_dyn_storable (qe_dyn st) f).

(** The first 8 bytes of the instruction buffer. *)
(* src/src/app/qpack/qpackenc/qpackenc.c : put_capacity *)
Definition put_capacity (st : qpackenc_state) (buf : list Z) : option (Z * list Z) :=
  if qe_cap_pending st
  then '(n, b) ← qpack_int_encode (take 8 buf) (mk_pfx 5 0x20) (d_capacity (qe_dyn st)); Some (n, b ++ drop 8 buf)
  else Some (0, buf).

(* src/src/app/qpack/qpackenc/qpackenc.c : plan_insert *)
Definition plan_insert (st : qpackenc_state) (f : qpack_field) (out : qpackenc_plan) : option qpackenc_plan :=
  '(cap, instr) ← put_capacity st (pl_instr out);
  if insert_safe st f then
    '(len, instr) ← enc_at cap (qdyn_insert_literal f) instr;
    Some (mk_plan instr (if negb (len =? 0) then cap + len else pl_insert_len out) (pl_abs_index out) (pl_used_dynamic out))
  else Some (mk_plan instr (pl_insert_len out) (pl_abs_index out) (pl_used_dynamic out)).

(* src/src/app/qpack/qpackenc/qpackenc.c : qpackenc_commit_field *)
Definition qpackenc_commit_field (st : qpackenc_state) (f : qpack_field) : option qpackenc_state :=
  '(_, t) ← qpack_dyn_insert (qe_dyn st) f;
  Some (mk_qes t (u64 (qe_total_inserts st + 1)) (qe_known_received st) (qe_pending_acks st) false).

(* src/src/app/qpack/qpackenc/qpackenc.c : qpackenc_plan_field *)
Definition qpackenc_plan_field (st : qpackenc_state) (f : qpack_field) (out : qpackenc_plan) : option qpackenc_plan :=
  let out := mk_plan (pl_instr out) 0 (pl_abs_index out) false in
  '(ref, found) ← plan_existing st f;
  match ref with
  | Some abs => Some (mk_plan (pl_instr out) 0 abs true)
  | None => if (found : bool) then Some out else plan_insert st f out
  end.

(* src/src/app/qpack/qpackenc/qpackenc.c : qpackenc_note_sent *)
Definition qpackenc_note_sent (st : qpackenc_state) (ric : Z) : qpackenc_state :=
  if negb (ric =? 0)
  then mk_qes (qe_dyn st) (qe_total_inserts st) (qe_known_received st) (u64 (qe_pending_acks st + 1)) (qe_cap_pending st)
  else st.

(* src/src/app/qpack/qpackenc/qpackenc.c : qpackenc_on_increment *)
Definition qpackenc_on_increment (st : qpackenc_state) (increment : Z) : bool * qpackenc_state :=
  if negb (qpack_incr_valid (qe_known_received st) increment (qe_total_inserts st)) then (false, st)
  else (true, mk_qes (qe_dyn st) (qe_total_inserts st) (u64 (qe_known_received st + increment)) (qe_pending_acks st) (qe_cap_pending st)).

(* src/src/app/qpack/qpackenc/qpackenc.c : qpackenc_on_section_ack *)
Definition qpackenc_on_section_ack (st : qpackenc_state) : bool * qpackenc_state :=
  if negb (qpack_section_ack_valid (qe_pending_acks st)) then (false, st)
  else (true, mk_qes (qe_dyn st) (qe_total_inserts st) (qe_known_received st) (qe_pending_acks st - 1) (qe_cap_pending st)).

(** ** qpackenc_decrx.c *)

(* src/src/app/qpack/qpackenc/qpackenc.h : QPACKENC_DECRX_PART *)
Definition QPACKENC_DECRX_PART : Z := 11.

(* src/src/app/qpack/qpackenc/qpackenc.h : qpackenc_decrx *)
Record qpackenc_decrx := mk_decrx { rx_stream_id : Z; rx_off : Z; rx_part : list Z; rx_part_len : Z }.

(* src/src/app/qpack/qpackenc/qpackenc_decrx.c : decrx_ack *)
Definition decrx_ack (st : qpackenc_state) (stream_id : Z) : bool * qpackenc_state := qpackenc_on_section_ack st.
(* src/src/app/qpack/qpackenc/qpackenc_decrx.c : decrx_cancel *)
Definition decrx_cancel (st : qpackenc_state) (stream_id : Z) : bool * qpackenc_state := (true, st).

(* src/src/app/qpack/qpackenc/qpackenc_decrx.c : decrx_apply@18-22 *)
Definition decrx_apply (k : qpack_dec_kind) : qpackenc_state -> Z -> bool * qpackenc_state :=
  match k with
  | QPACK_DEC_SECTION_ACK => decrx_ack
  | QPACK_DEC_STREAM_CANCEL => decrx_cancel
  | QPACK_DEC_INSERT_COUNT => qpackenc_on_increment
  end.

(* src/src/app/qpack/qpackenc/qpackenc_decrx.c : qpackenc_decrx_take *)
Definition qpackenc_decrx_take (rx : qpackenc_decrx) (stream_id type_len : Z) : qpackenc_decrx :=
  mk_decrx stream_id type_len (rx_part rx) 0.

(* src/src/app/qpack/qpackenc/qpackenc_decrx.c : decrx_byte *)
Definition decrx_byte (rx : qpackenc_decrx) (st : qpackenc_state) (b : Z) : option (bool * qpackenc_decrx * qpackenc_state) :=
  part ← store (rx_part rx) (rx_part_len rx) b;
  let rx := mk_decrx (rx_stream_id rx) (u64 (rx_off rx + 1)) part (rx_part_len rx + 1) in
  match qpack_dec_instr_decode (take (Z.to_nat (rx_part_len rx)) (rx_part rx)) with
  | Oob => None
  | Fail => Some (rx_part_len rx <? QPACKENC_DECRX_PART, rx, st)
  | Ok (kind, v, _) =>
      let '(ok, st) := decrx_apply kind st v in
      Some (ok, mk_decrx (rx_stream_id rx) (rx_off rx) (rx_part rx) 0, st)
  end.

(** The bytes of [d] from offset [skip] on. *)
(* src/src/app/qpack/qpackenc/qpackenc_decrx.c : decrx_bytes *)
Fixpoint decrx_bytes (rx : qpackenc_decrx) (st : qpackenc_state) (d : list Z) : option (bool * qpackenc_decrx * qpackenc_state) :=
  match d with
  | [] => Some (true, rx, st)
  | b :: d' =>
      '(ok, rx, st) ← decrx_byte rx st b;
      if (ok : bool) then decrx_bytes rx st d' else Some (false, rx, st)
  end.

(* src/src/app/qpack/qpackenc/qpackenc_decrx.c : qpackenc_decrx_feed *)
Definition qpackenc_decrx_feed (rx : qpackenc_decrx) (st : qpackenc_state) (off : Z) (d : list Z)
    : option (bool * qpackenc_decrx * qpackenc_state) :=
  if rx_off rx <? off then Some (true, rx, st)
  else decrx_bytes rx st (drop (Z.to_nat (rx_off rx - off)) d).

(** ** status_line.c *)

(* src/src/app/qpack/qpackenc/status_line.h : qpackenc_status_result *)
Record qpackenc_status_result := mk_sres {
  sr_field : list Z; sr_field_len : Z; sr_required_insert_count : Z; sr_insert_instr : list Z; sr_insert_len : Z; sr_status : Z }.

(* src/src/app/qpack/qpackenc/status_line.c : QPACK_STATUS_NAME_INDEX *)
Definition QPACK_STATUS_NAME_INDEX : Z := 24.

(* src/src/app/qpack/qpackenc/status_line.c : status_digits *)
Definition status_digits (status : Z) : list Z :=
  [u8 (48 + (status / 100) mod 10); u8 (48 + (status / 10) mod 10); u8 (48 + status mod 10); 0].

(* src/src/app/qpack/qpackenc/status_line.c : result_static *)
Definition result_static (field : list Z) (w : Z) (out : qpackenc_status_result) : qpackenc_status_result :=
  mk_sres field w 0 (sr_insert_instr out) (sr_insert_len out) (sr_status out).

Definition status_name : list Z := string_octets ":status".

(** C's 1/0 and the result. *)
(* src/src/app/qpack/qpackenc/status_line.c : try_static *)
Definition try_static (digits : list Z) (out : qpackenc_status_result) : option (bool * qpackenc_status_result) :=
  idx ← qpack_static_find (status_name ++ [0]) digits;
  if idx <? 0 then Some (false, out)
  else
    '(w, field) ← qpack_indexed_encode (sr_field out) idx true;
    if w =? 0 then Some (false, mk_sres field (sr_field_len out) (sr_required_insert_count out) (sr_insert_instr out) (sr_insert_len out) (sr_status out))
    else Some (true, result_static field w out).

(* src/src/app/qpack/qpackenc/status_line.c : max_entries_of *)
Definition max_entries_of (st : qpackenc_state) : Z := d_max_capacity (qe_dyn st) / 32.

(* src/src/app/qpack/qpackenc/status_line.c : carry_insert *)
Definition carry_insert (plan : qpackenc_plan) (out : qpackenc_status_result) : option qpackenc_status_result :=
  '(_, o) ← bytes_put (pl_instr plan) (pl_insert_len plan) (mk_obuf (sr_insert_instr out) 0);
  Some (mk_sres (sr_field out) (sr_field_len out) (sr_required_insert_count out) (op o) (pl_insert_len plan) (sr_status out)).

(* src/src/app/qpack/qpackenc/status_line.c : status_field *)
Definition status_field (digits : list Z) : qpack_field := mk_field status_name (take 3 digits).

(* src/src/app/qpack/qpackenc/status_line.c : try_dynamic *)
Definition try_dynamic (digits : list Z) (st : qpackenc_state) (plan0 : qpackenc_plan) (out : qpackenc_status_result)
    : option (bool * qpackenc_status_result) :=
  plan ← qpackenc_plan_field st (status_field digits) plan0;
  out ← carry_insert plan out;
  if negb (pl_used_dynamic plan) then Some (false, out)
  else
    '(w, field) ← qdyn_indexed_dynamic 0 (sr_field out);
    let out := mk_sres field (sr_field_len out) (sr_required_insert_count out) (sr_insert_instr out) (sr_insert_len out) (sr_status out) in
    if w =? 0 then Some (false, out)
    else
      ric ← qpack_ric_encode (u64 (pl_abs_index plan + 1)) (max_entries_of st);
      Some (true, mk_sres field w ric (sr_insert_instr out) (sr_insert_len out) (sr_status out)).

(* src/src/app/qpack/qpackenc/status_line.c : fallback_literal *)
Definition fallback_literal (digits : list Z) (out : qpackenc_status_result) : option (bool * qpackenc_status_result) :=
  '(w, field) ← qpack_literal_namref_encode (sr_field out) (mk_nameref QPACK_STATUS_NAME_INDEX true false) (take 3 digits);
  if w =? 0 then Some (false, mk_sres field (sr_field_len out) (sr_required_insert_count out) (sr_insert_instr out) (sr_insert_len out) (sr_status out))
  else Some (true, result_static field w out).

(** [plan0] is the plan on the stack before it is written. *)
(* src/src/app/qpack/qpackenc/status_line.c : qpackenc_status_line *)
Definition qpackenc_status_line (status : Z) (st : qpackenc_state) (plan0 : qpackenc_plan) (out : qpackenc_status_result)
    : option (bool * qpackenc_status_result) :=
  let digits := status_digits status in
  let out := mk_sres (sr_field out) (sr_field_len out) (sr_required_insert_count out) (sr_insert_instr out) 0 status in
  '(ok, out) ← try_static digits out;
  if (ok : bool) then Some (true, out)
  else
    '(ok, out) ← try_dynamic digits st plan0 out;
    if (ok : bool) then Some (true, out) else fallback_literal digits out.

(* src/src/app/qpack/qpackenc/status_line.c : qpackenc_status_commit *)
Definition qpackenc_status_commit (st : qpackenc_state) (r : qpackenc_status_result) : option qpackenc_state :=
  if sr_insert_len r =? 0 then Some st else qpackenc_commit_field st (status_field (status_digits (sr_status r))).

(** ** What a plan is *)

Lemma insert_literal_espec f : field_ok f -> espec (qdyn_insert_literal f) (qins_wire (ILiteral f)).
Proof.
  intros (Hn & Hv & Hnz & Hvz). cbn [qins_wire].
  pose proof (espec_join (fun b => qpack_string_encode_pfx b (f_name f) (mk_pfx 5 64)) (fun b => qpack_string_encode b (f_value f)) _ _
    (string_encode_espec (mk_pfx 5 64) (f_name f) spfx5 Hn Hnz) (string_encode_espec (mk_pfx 7 0) (f_value f) spfx7 Hv Hvz)) as [Hp He].
  split; [done|]. intros buf Hb. specialize (He buf Hb). unfold qdyn_insert_literal, encode_name, QPACK_INSERT_LITNAME.
  change 0x40 with 64. revert He. destruct (qpack_string_encode_pfx buf (f_name f) (mk_pfx 5 64)) as [[off b1]|]; cbn [mbind option_bind fst snd]; [|done].
  unfold join. destruct (off =? 0); cbn [negb andb mbind option_bind]; [done|].
  destruct (enc_at off _ b1) as [[w b2]|]; cbn [mbind option_bind]; [|done]. by destruct (w =? 0).
Qed.

(** The Set Dynamic Table Capacity owed, as instructions. *)
Definition owed (st : qpackenc_state) (a : dtable) : list qins := if qe_cap_pending st then [ISetCapacity (a_cap a)] else [].

Definition ins_wires (l : list qins) : list Z := concat (map qins_wire l).

Lemma cap_wire_short c : 0 <= c <= 2016 -> zlen (qint_wire (mk_pfx 5 0x20) c) <= 4.
Proof.
  intros Hc. unfold qint_wire. cbn [pfx_bits pfx_pattern]. change (2 ^ 5 - 1) with 31. destruct (c <? 31); [done|].
  rewrite zlen_cons. cbn [qgroups]. destruct (c - 31 <? 128); [done|]. rewrite zlen_cons.
  replace ((c - 31) / 128 <? 128) with true; [done|]. symmetry. apply Z.ltb_lt. apply Z.div_lt_upper_bound; lia.
Qed.

Lemma put_capacity_spec st a buf :
  dyn_ok (qe_dyn st) a -> zlen buf = 2024 ->
  put_capacity st buf = Some (zlen (ins_wires (owed st a)), splice buf 0 (ins_wires (owed st a))) /\ zlen (ins_wires (owed st a)) <= 4.
Proof.
  intros [(base & Hr) _] Hz. unfold put_capacity, owed. pose proof (dr_cap_le _ base a Hr) as Hc. rewrite (dr_cap _ base a Hr).
  destruct (qe_cap_pending st); [|split; [|done]; unfold splice; cbn; by rewrite drop_0].
  unfold ins_wires. cbn [map concat qins_wire]. rewrite app_nil_r. pose proof (cap_wire_short (a_cap a) Hc) as Hs. split; [|done].
  destruct (int_encode_espec (mk_pfx 5 0x20) (a_cap a)) as [_ He]; [pfx_solve|unfold is_u64; lia|].
  assert (zlen (take 8 buf) = 8) as Ht by (unfold zlen in *; rewrite length_take; lia).
  specialize (He (take 8 buf) ltac:(rewrite Ht; done)). rewrite Ht in He. replace (_ <=? 8) with true in He by lia. rewrite He. osimpl.
  do 2 f_equal. unfold splice. change (take (Z.to_nat 0) buf) with (@nil Z). change (take (Z.to_nat 0) (take 8 buf)) with (@nil Z). cbn [app].
  rewrite <- app_assoc. f_equal. set (n := (_ + _)%nat). assert ((n <= 8)%nat) as Hn by (subst n; unfold zlen in Hs; lia).
  transitivity (drop n (take 8 buf ++ drop 8 buf)); [|by rewrite take_drop]. rewrite drop_app_le; [done|]. unfold zlen in Ht. lia.
Qed.

(** The three outcomes of a plan. *)
Inductive plan_result (st : qpackenc_state) (a : dtable) (f : qpack_field) (p : qpackenc_plan) : Prop :=
  | plan_ref : pl_insert_len p = 0 -> pl_used_dynamic p = true -> load (a_ents a) (pl_abs_index p - a_dropped a) = Some f ->
      pl_abs_index p < qe_known_received st -> plan_result st a f p
  | plan_none : pl_insert_len p = 0 -> pl_used_dynamic p = false -> plan_result st a f p
  | plan_ins : pl_used_dynamic p = false ->
      take (Z.to_nat (pl_insert_len p)) (pl_instr p) = ins_wires (owed st a ++ [ILiteral f]) ->
      0 < pl_insert_len p <= zlen (pl_instr p) ->
      zlen (ebytes f) + 32 <= a_cap a ->
      cost (a_ents a) + (zlen (ebytes f) + 32) <= a_cap a \/ (qe_pending_acks st = 0 /\ qe_known_received st = qe_total_inserts st) ->
      plan_result st a f p.

Lemma ins_wires_app l l' : ins_wires (l ++ l') = ins_wires l ++ ins_wires l'.
Proof. unfold ins_wires. by rewrite map_app, concat_app. Qed.

Lemma insert_safe_spec st a f :
  dyn_ok (qe_dyn st) a -> field_ok f -> insert_safe st f = true ->
  zlen (ebytes f) + 32 <= a_cap a /\
  (cost (a_ents a) + (zlen (ebytes f) + 32) <= a_cap a \/ (qe_pending_acks st = 0 /\ qe_known_received st = qe_total_inserts st)).
Proof.
  intros Hok Hf. unfold insert_safe, evict_free. rewrite (fits_spec _ a) by done. rewrite (storable_spec _ a) by done. pose proof (cost_nonneg (a_ents a)).
  intros E. destruct (cost (a_ents a) + (zlen (ebytes f) + 32) <=? a_cap a) eqn:E1; [split; [lia|left; lia]|]. cbn [orb] in E.
  rewrite !andb_true_iff in E. destruct E as [[E2 E3] E4]. split; [lia|right; lia].
Qed.

Lemma plan_field_spec st a f out :
  dyn_ok (qe_dyn st) a -> Forall field_ok (a_ents a) -> field_ok f -> a_dropped a + zlen (a_ents a) < span_max ->
  zlen (pl_instr out) = 2024 ->
  exists p, qpackenc_plan_field st f out = Some p /\ zlen (pl_instr p) = 2024 /\ plan_result st a f p.
Proof.
  intros Hok Hall Hf Hd Hz. unfold qpackenc_plan_field, plan_existing, find_exact.
  destruct (dyn_find_spec _ a f Hok Hall Hf Hd) as (r & -> & Hr). osimpl.
  assert (exists p, plan_insert st f (mk_plan (pl_instr out) 0 (pl_abs_index out) false) = Some p /\ zlen (pl_instr p) = 2024 /\ plan_result st a f p) as Hins.
  { unfold plan_insert. cbn [pl_instr]. destruct (put_capacity_spec st a _ Hok Hz) as [-> Hs]. osimpl. set (w := ins_wires (owed st a)) in *.
    pose proof (zlen_nonneg w) as Hw. assert (zlen (splice (pl_instr out) 0 w) = 2024) as Hzs by (rewrite zlen_splice; lia).
    destruct (insert_safe st f) eqn:Ei; [|eexists; split; [reflexivity|]; split; [done|by apply plan_none]].
    destruct (insert_safe_spec st a f Hok Hf Ei) as [Hs1 Hs2].
    pose proof (enc_at_spec _ _ (pl_instr out) w (insert_literal_espec f Hf) ltac:(rewrite Hz; done) ltac:(lia)) as He.
    set (l := qins_wire (ILiteral f)) in *. destruct (insert_literal_espec f Hf) as [Hl _]. fold l in Hl.
    destruct (zlen w + zlen l <=? zlen (pl_instr out)) eqn:Efit.
    - rewrite He. osimpl. replace (zlen l =? 0) with false by lia. cbn [negb]. eexists. split; [reflexivity|]. cbn [pl_instr].
      assert (zlen (splice (pl_instr out) 0 (w ++ l)) = 2024) as Hz2 by (rewrite zlen_splice; rewrite ?zlen_app; lia).
      split; [done|]. apply plan_ins; cbn [pl_used_dynamic pl_insert_len pl_instr]; [done| |lia|done|done].
      rewrite ins_wires_app. replace (ins_wires [ILiteral f]) with l by (unfold ins_wires; cbn [map concat]; by rewrite app_nil_r).
      fold w. rewrite <- zlen_app. apply splice_0_take. rewrite zlen_app. lia.
    - destruct He as (b & -> & Hb). osimpl. eexists. split; [reflexivity|]. split; [cbn; lia|by apply plan_none]. }
  destruct r as [[k []]|]; cbn [m_value_matched]; [|exact Hins|exact Hins]. destruct Hr as [Hr _].
  cbn [m_abs_index]. destruct (qe_known_received st <=? k) eqn:Ek; eexists; (split; [reflexivity|]); (split; [done|]).
  - by apply plan_none.
  - apply plan_ref; cbn; try done. lia.
Qed.

(** ** The decoder stream *)

(** Cutting an integer short leaves nothing to decode. *)
Lemma take_groups_cut f : forall m acc buf post off v u,
  take_groups_loop f m acc (buf ++ post) off = Ok (v, u) -> 0 <= off <= zlen buf -> zlen buf < u -> take_groups_loop f m acc buf off = Fail.
Proof.
  induction f as [|f IH]; intros m acc buf post off v u E Ho Hu; [done|]. cbn [take_groups_loop] in *. unfold take_group in *.
  destruct (zlen buf <=? off) eqn:E1; [done|]. rewrite zlen_app in E. pose proof (zlen_nonneg post).
  replace (zlen buf + zlen post <=? off) with false in E by lia. cbn [orb] in *. destruct (56 <? m); [done|].
  rewrite load_app_l in E by lia. destruct (load buf off) as [b|] eqn:Eb; [|done]. pose proof (load_Some _ _ _ Eb).
  destruct (negb _); [|injection E as _ <-; lia]. apply (IH _ _ _ post _ v u); [done|lia|done].
Qed.

Lemma int_decode_cut buf post n v u :
  qpack_int_decode (buf ++ post) n = Ok (v, u) -> zlen buf < u -> 0 < zlen buf -> qpack_int_decode buf n = Fail.
Proof.
  intros E Hu Hp. unfold qpack_int_decode in *. rewrite zlen_app in E. pose proof (zlen_nonneg post).
  replace (_ + _ =? 0) with false in E by lia. replace (zlen buf =? 0) with false by lia. rewrite load_app_l in E by lia.
  destruct (load buf 0) as [b|]; [|done]. unfold decode_body in *. destruct (_ <? _); [injection E as _ <-; lia|].
  by apply (take_groups_cut 10 _ _ buf post 1 v u); [|lia|].
Qed.

Lemma instr_decode_cut specs buf post k v u :
  instr_decode (buf ++ post) specs = Ok (k, v, u) -> zlen buf < u -> 0 < zlen buf -> instr_decode buf specs = Fail.
Proof.
  intros E Hu Hp. unfold instr_decode in *. rewrite zlen_app in E. pose proof (zlen_nonneg post).
  replace (_ + _ =? 0) with false in E by lia. replace (zlen buf =? 0) with false by lia. rewrite load_app_l in E by lia.
  destruct (load buf 0) as [b|]; [|done]. cbv zeta in *. destruct (zlen specs <=? _); [done|]. destruct (load specs _) as [s|]; [|done].
  destruct (qpack_int_decode (buf ++ post) _) as [[v' u']| |] eqn:Ei; [|done|done]. injection E as _ _ ->.
  by rewrite (int_decode_cut buf post _ v' u).
Qed.

Lemma dec_instr_cut buf post k v u :
  qpack_dec_instr_decode (buf ++ post) = Ok (k, v, u) -> zlen buf < u -> 0 < zlen buf -> qpack_dec_instr_decode buf = Fail.
Proof.
  intros E Hu Hp. unfold qpack_dec_instr_decode in *. destruct (instr_decode (buf ++ post) dec_specs) as [[[k' v'] u']| |] eqn:Ei; [|done|done].
  injection E as _ _ ->. by rewrite (instr_decode_cut dec_specs buf post k' v' u).
Qed.

(** A decoder instruction, its octets and what it does. *)
Record dins := mk_dins { di_kind : qpack_dec_kind; di_v : Z }.

Definition dins_wire (i : dins) : list Z :=
  match load dec_specs (dec_kind_index (di_kind i)) with
  | Some s => qint_wire (mk_pfx (is_prefix_bits s) (is_pattern s)) (di_v i)
  | None => []
  end.

Definition dins_wires (l : list dins) : list Z := concat (map dins_wire l).

Fixpoint apply_all (l : list dins) (st : qpackenc_state) : bool * qpackenc_state :=
  match l with
  | [] => (true, st)
  | i :: l' => let '(ok, st) := decrx_apply (di_kind i) st (di_v i) in if ok then apply_all l' st else (false, st)
  end.

Lemma dins_wire_decode i post :
  qint_ok (di_v i) -> zlen (dins_wire i ++ post) < span_max ->
  qpack_dec_instr_decode (dins_wire i ++ post) = Ok (di_kind i, di_v i, zlen (dins_wire i)).
Proof.
  intros Hv Hl. unfold dins_wire in *. destruct i as [k v]. cbn [di_kind di_v] in *.
  destruct (load dec_specs (dec_kind_index k)) as [s|] eqn:Es; [|by destruct k].
  assert (pfx_ok (mk_pfx (is_prefix_bits s) (is_pattern s))) as Hp by (destruct k; injection Es as <-; pfx_solve).
  unfold qpack_dec_instr_decode.
  rewrite (instr_decode_reads dec_specs (dec_kind_index k) s v post Es Hp Hv (fun x => dec_classify k s x Es) Hl). by destruct k.
Qed.

Lemma zlen_qgroups f v : 1 <= zlen (qgroups f v) <= Z.of_nat f + 1.
Proof.
  revert v. induction f as [|f IH]; intros v; cbn [qgroups]; [done|]. destruct (v <? 128); [split; [done|rewrite zlen_cons, zlen_nil; lia]|].
  rewrite zlen_cons. specialize (IH (v / 128)). lia.
Qed.

(** No instruction overflows the partial instruction buffer. *)
Lemma dins_wire_len i : qint_ok (di_v i) -> 1 <= zlen (dins_wire i) <= 10.
Proof.
  intros Hv. unfold dins_wire. destruct i as [k v]. cbn [di_kind di_v] in *. destruct (load dec_specs (dec_kind_index k)) as [s|] eqn:Es; [|by destruct k].
  unfold qint_wire. cbn [pfx_bits pfx_pattern]. set (pm := 2 ^ is_prefix_bits s - 1). destruct (v <? pm) eqn:E; [done|].
  assert (0 <= pm) as Hpm by (subst pm; destruct k; injection Es as <-; cbn; lia).
  rewrite zlen_cons. change 10%nat with (8 + 2)%nat. unfold qint_ok in Hv.
  rewrite (qgroups_fuel 2 8) by (change (128 ^ (Z.of_nat 8 + 1)) with (2 ^ 63); lia). pose proof (zlen_qgroups 8 (v - pm)). lia.
Qed.

Definition rx_holds (rx : qpackenc_decrx) (pre : list Z) : Prop :=
  zlen (rx_part rx) = 11 /\ rx_part_len rx = zlen pre /\ take (Z.to_nat (zlen pre)) (rx_part rx) = pre.

Lemma store_snoc (part pre : list Z) b : zlen pre < zlen part -> take (Z.to_nat (zlen pre)) part = pre ->
  exists part', store part (zlen pre) b = Some part' /\ zlen part' = zlen part /\ take (Z.to_nat (zlen pre + 1)) part' = pre ++ [b].
Proof.
  intros Hz Ht. pose proof (zlen_nonneg pre). rewrite store_in by lia. eexists. split; [done|]. split; [apply zlen_insert|].
  rewrite Z2Nat.inj_add by lia. change (Z.to_nat 1) with 1%nat. rewrite Nat.add_1_r.
  rewrite (take_S_r _ _ b) by (apply list_lookup_insert_eq; unfold zlen in *; lia). by rewrite take_insert_ge, Ht by lia.
Qed.

Lemma decrx_one i : forall rest pre rx st,
  qint_ok (di_v i) -> dins_wire i = pre ++ rest -> 0 < zlen rest -> rx_holds rx pre -> 0 <= rx_off rx -> rx_off rx + zlen rest < span_max ->
  exists part', zlen part' = 11 /\
    decrx_bytes rx st rest = Some ((decrx_apply (di_kind i) st (di_v i)).1,
      mk_decrx (rx_stream_id rx) (rx_off rx + zlen rest) part' 0, (decrx_apply (di_kind i) st (di_v i)).2).
Proof.
  induction rest as [|b rest IH]; intros pre rx st Hv Ew Hpos (Hz & Hl & Ht) Ho0 Ho; [done|].
  pose proof (dins_wire_len i Hv) as Hlen. rewrite Ew, zlen_app, zlen_cons in Hlen. pose proof (zlen_nonneg rest) as Hr. pose proof (zlen_nonneg pre).
  rewrite zlen_cons in Ho. cbn [decrx_bytes]. unfold decrx_byte. rewrite Hl.
  destruct (store_snoc (rx_part rx) pre b ltac:(lia) Ht) as (part' & -> & Hz' & Ht'). osimpl. cbn [rx_part rx_part_len]. rewrite Ht'.
  unfold span_max in Ho. rewrite u64_small by lia.
  assert (dins_wire i = (pre ++ [b]) ++ rest) as Ew' by (by rewrite <- app_assoc).
  assert (zlen (dins_wire i) = zlen pre + 1 + zlen rest) as Hwl by (rewrite Ew'; zl).
  pose proof (dins_wire_decode i [] Hv) as Hd. rewrite app_nil_r in Hd. specialize (Hd ltac:(unfold span_max; lia)).
  destruct rest as [|b' rest].
  - rewrite app_nil_r in Ew'. rewrite Ew' in Hd. rewrite Hd. destruct (decrx_apply (di_kind i) st (di_v i)) as [ok st'] eqn:Ea. osimpl.
    cbn [fst snd rx_stream_id rx_off rx_part]. exists part'. split; [lia|].
    destruct ok; cbn [decrx_bytes]; done.
  - rewrite zlen_cons in Hlen, Ho, Hwl, Hr. pose proof (zlen_nonneg rest). rewrite Ew' in Hd. rewrite (dec_instr_cut (pre ++ [b]) (b' :: rest) _ _ _ Hd) by zl.
    osimpl. replace (zlen pre + 1 <? QPACKENC_DECRX_PART) with true by (unfold QPACKENC_DECRX_PART; lia). cbn [rx_part_len].
    destruct (IH (pre ++ [b]) (mk_decrx (rx_stream_id rx) (rx_off rx + 1) part' (zlen pre + 1)) st Hv Ew') as (p2 & Hp2 & E2).
    + rewrite zlen_cons. lia.
    + split; [cbn; lia|]. split; [cbn; zl|]. cbn [rx_part]. by rewrite zlen_app.
    + cbn. lia.
    + cbn [rx_off]. rewrite zlen_cons. unfold span_max. lia.
    + exists p2. split; [done|]. rewrite E2. cbn [rx_stream_id rx_off]. rewrite !zlen_cons. do 4 f_equal. lia.
Qed.

Lemma decrx_bytes_app a : forall rx st b,
  decrx_bytes rx st (a ++ b) =
    '(ok, rx', st') ← decrx_bytes rx st a; if (ok : bool) then decrx_bytes rx' st' b else Some (false, rx', st').
Proof.
  induction a as [|x a IH]; intros rx st b; [done|]. cbn [app decrx_bytes]. destruct (decrx_byte rx st x) as [[[[] rx'] st']|]; cbn [mbind option_bind]; [|done|done].
  apply IH.
Qed.

(** Octets that do not complete an instruction change no state. *)
Lemma decrx_some i : forall a pre rest rx st,
  qint_ok (di_v i) -> dins_wire i = pre ++ a ++ rest -> 0 < zlen rest -> rx_holds rx pre -> 0 <= rx_off rx -> rx_off rx + zlen a < span_max ->
  exists rx', decrx_bytes rx st a = Some (true, rx', st).
Proof.
  induction a as [|b a IH]; intros pre rest rx st Hv Ew Hpos (Hz & Hl & Ht) Ho0 Ho; [by exists rx|].
  pose proof (dins_wire_len i Hv) as Hlen. rewrite Ew, !zlen_app, zlen_cons in Hlen. pose proof (zlen_nonneg a) as Hr. pose proof (zlen_nonneg pre).
  rewrite zlen_cons in Ho. cbn [decrx_bytes]. unfold decrx_byte. rewrite Hl.
  destruct (store_snoc (rx_part rx) pre b ltac:(lia) Ht) as (part' & -> & Hz' & Ht'). osimpl. cbn [rx_part rx_part_len]. rewrite Ht'.
  unfold span_max in Ho. rewrite u64_small by lia.
  assert (dins_wire i = (pre ++ [b]) ++ a ++ rest) as Ew' by (by rewrite <- app_assoc).
  pose proof (dins_wire_decode i [] Hv) as Hd. rewrite app_nil_r in Hd. specialize (Hd ltac:(rewrite Ew, !zlen_app, zlen_cons; unfold span_max; lia)).
  rewrite Ew' in Hd. rewrite (dec_instr_cut (pre ++ [b]) (a ++ rest) _ _ _ Hd) by zl.
  osimpl. replace (zlen pre + 1 <? QPACKENC_DECRX_PART) with true by (unfold QPACKENC_DECRX_PART; lia).
  apply (IH (pre ++ [b]) rest (mk_decrx (rx_stream_id rx) (rx_off rx + 1) part' (zlen pre + 1)) st Hv Ew' Hpos).
  - split; [cbn; lia|]. split; [cbn; zl|]. cbn [rx_part]. by rewrite zlen_app.
  - cbn. lia.
  - cbn [rx_off]. unfold span_max. lia.
Qed.

(** The instructions whose octets all lie in the first [r] octets of the stream. *)
Fixpoint whole_in (l : list dins) (r : Z) : list dins :=
  match l with
  | [] => []
  | i :: l' => if zlen (dins_wire i) <=? r then i :: whole_in l' (r - zlen (dins_wire i)) else []
  end.

Lemma whole_in_all l : whole_in l (zlen (dins_wires l)) = l.
Proof.
  induction l as [|i l IH]; [done|]. cbn [whole_in]. unfold dins_wires in *. cbn [map concat]. rewrite zlen_app. pose proof (zlen_nonneg (concat (map dins_wire l))).
  replace (_ <=? _) with true by lia. f_equal. replace (_ - _) with (zlen (concat (map dins_wire l))) by lia. apply IH.
Qed.

Lemma decrx_prefix l : forall r rx st,
  Forall (fun i => qint_ok (di_v i)) l -> rx_holds rx [] -> 0 <= rx_off rx -> rx_off rx + zlen (dins_wires l) < span_max -> 0 <= r ->
  exists rx', decrx_bytes rx st (take (Z.to_nat r) (dins_wires l)) = Some ((apply_all (whole_in l r) st).1, rx', (apply_all (whole_in l r) st).2).
Proof.
  induction l as [|i l IH]; intros r rx st Hall Hh H0 Ho Hr; [exists rx; change (dins_wires []) with (@nil Z); by rewrite take_nil|]. apply Forall_cons_1 in Hall as [Hi Hall]. cbn [dins_wires map concat whole_in] in *.
  change (concat (map dins_wire l)) with (dins_wires l) in *. rewrite zlen_app in Ho. pose proof (zlen_nonneg (dins_wires l)). pose proof (dins_wire_len i Hi).
  destruct (zlen (dins_wire i) <=? r) eqn:Er.
  - replace (Z.to_nat r) with (length (dins_wire i) + Z.to_nat (r - zlen (dins_wire i)))%nat by (unfold zlen in *; lia). rewrite take_app_add.
    destruct (decrx_one i (dins_wire i) [] rx st Hi eq_refl ltac:(lia) Hh H0 ltac:(lia)) as (p & Hp & E).
    rewrite decrx_bytes_app, E. osimpl. cbn [apply_all]. destruct (decrx_apply (di_kind i) st (di_v i)) as [ok st']. cbn [fst snd].
    destruct ok; [|eauto]. apply IH; [done| |cbn; lia|cbn; lia|lia]. split; [done|]. by split.
  - rewrite take_app_le by (unfold zlen in *; lia). cbn [apply_all fst snd].
    apply (decrx_some i (take (Z.to_nat r) (dins_wire i)) [] (drop (Z.to_nat r) (dins_wire i)) rx st Hi); [cbn [app]; by rewrite take_drop | | done | done |].
    + unfold zlen in *. rewrite length_drop. lia.
    + unfold zlen in *. rewrite length_take. lia.
Qed.

(** RFC 9204 4.4 on the encoder's counts: the inserts sent [T], the Known Received
    Count [K] and the field sections not yet acknowledged [P]. An acknowledgment
    needs such a section, an increment is at least 1 and names no insert that was
    not sent, and a cancellation is always valid. *)
Definition rfc_dec (i : dins) (T : Z) (KP : Z * Z) : option (Z * Z) :=
  match di_kind i with
  | QPACK_DEC_SECTION_ACK => if decide (1 <= KP.2) then Some (KP.1, KP.2 - 1) else None
  | QPACK_DEC_STREAM_CANCEL => Some KP
  | QPACK_DEC_INSERT_COUNT => if decide (1 <= di_v i /\ KP.1 + di_v i <= T) then Some (KP.1 + di_v i, KP.2) else None
  end.
(** In order, up to the first invalid one; whether there was none. *)
Fixpoint rfc_dec_all (l : list dins) (T : Z) (KP : Z * Z) : bool * (Z * Z) :=
  match l with
  | [] => (true, KP)
  | i :: l' => match rfc_dec i T KP with Some KP' => rfc_dec_all l' T KP' | None => (false, KP) end
  end.

Definition counts_ok (st : qpackenc_state) : Prop :=
  0 <= qe_known_received st <= qe_total_inserts st /\ qe_total_inserts st < 2 ^ 62 /\ 0 <= qe_pending_acks st.
Definition with_counts (st : qpackenc_state) (KP : Z * Z) : qpackenc_state := mk_qes (qe_dyn st) (qe_total_inserts st) KP.1 KP.2 (qe_cap_pending st).

Lemma apply_all_rfc l : forall st, counts_ok st -> Forall (fun i => qint_ok (di_v i)) l ->
  let r := rfc_dec_all l (qe_total_inserts st) (qe_known_received st, qe_pending_acks st) in
  apply_all l st = (r.1, with_counts st r.2).
Proof.
  induction l as [|[k v] l IH]; intros st (HK & HT & HP) Hall; [by destruct st|]. apply Forall_cons_1 in Hall as [Hv Hall]. cbn [di_v] in Hv. unfold qint_ok in Hv.
  cbn [apply_all rfc_dec_all di_kind di_v rfc_dec fst snd]. destruct k; cbn [decrx_apply rfc_dec di_kind di_v fst snd].
  - unfold decrx_ack, qpackenc_on_section_ack, qpack_section_ack_valid. case_decide; destruct (0 <? qe_pending_acks st) eqn:E; try lia; cbn [negb].
    + rewrite IH; [done | | done]. split; [done|]. cbn. lia.
    + by destruct st.
  - unfold decrx_cancel. rewrite IH; [by destruct st | done | done].
  - unfold qpackenc_on_increment, qpack_incr_valid. rewrite u64_small by lia. case_decide; destruct (negb (v =? 0) && _) eqn:E; try lia; cbn [negb].
    + rewrite IH; [done | | done]. split; cbn; lia.
    + by destruct st.
Qed.

(** Frames of the stream [W] whose first octet is at offset [o]: (position, length) pairs, in order of arrival. *)
Fixpoint feed_frames (rx : qpackenc_decrx) (st : qpackenc_state) (o : Z) (W : list Z) (frames : list (Z * Z))
    : option (bool * qpackenc_decrx * qpackenc_state) :=
  match frames with
  | [] => Some (true, rx, st)
  | (a, n) :: frames' =>
      '(ok, rx, st) ← qpackenc_decrx_feed rx st (o + a) (take (Z.to_nat n) (drop (Z.to_nat a) W));
      if (ok : bool) then feed_frames rx st o W frames' else Some (false, rx, st)
  end.

(** The end of the octets read: a frame that starts past it when it arrives is
    dropped, the shortcut of qpackenc.h. *)
Fixpoint reach (k : Z) (frames : list (Z * Z)) : Z :=
  match frames with
  | [] => k
  | (a, n) :: frames' => reach (if a <=? k then Z.max k (a + n) else k) frames'
  end.

Definition frame_in (W : list Z) (fr : Z * Z) : Prop := 0 <= fr.1 /\ 0 <= fr.2 /\ fr.1 + fr.2 <= zlen W.

Lemma decrx_byte_off rx st b rx' st' ok : decrx_byte rx st b = Some (ok, rx', st') -> rx_off rx' = u64 (rx_off rx + 1).
Proof.
  unfold decrx_byte. destruct (store _ _ _); [|done]. cbn [mbind option_bind]. destruct (qpack_dec_instr_decode _) as [[[k v] m]| |]; [| |done].
  - destruct (decrx_apply k st v). intros [= _ <- _]. done.
  - intros [= _ <- _]. done.
Qed.

Lemma decrx_bytes_off d : forall rx st rx' st',
  0 <= rx_off rx -> rx_off rx + zlen d < span_max -> decrx_bytes rx st d = Some (true, rx', st') -> rx_off rx' = rx_off rx + zlen d.
Proof.
  induction d as [|b d IH]; intros rx st rx' st' H0 Hs E; [injection E as <- _; zl|]. cbn [decrx_bytes] in E. rewrite zlen_cons in *.
  pose proof (zlen_nonneg d). destruct (decrx_byte rx st b) as [[[[] r] s]|] eqn:Eb; cbn [mbind option_bind] in E; [|done|done].
  apply decrx_byte_off in Eb. unfold span_max in Hs. rewrite u64_small in Eb by lia. rewrite (IH r s rx' st'); [lia|lia|unfold span_max; lia|done].
Qed.

Lemma reach_ge frames : forall k, k <= reach k frames.
Proof. induction frames as [|[a n] frames IH]; intros k; cbn [reach]; [lia|]. specialize (IH (if a <=? k then Z.max k (a + n) else k)). bcases; lia. Qed.

Lemma reach_le W frames : forall k, Forall (frame_in W) frames -> k <= zlen W -> reach k frames <= zlen W.
Proof.
  induction frames as [|[a n] frames IH]; intros k Hall Hk; cbn [reach]; [done|]. apply Forall_cons_1 in Hall as [(H1 & H2 & H3) Hall]. cbn in *.
  apply IH; [done|]. bcases; lia.
Qed.

(** The octets from [k] on, up to [k']. *)
Definition slice (W : list Z) (k k' : Z) : list Z := take (Z.to_nat (k' - k)) (drop (Z.to_nat k) W).

Lemma slice_split (W : list Z) k m k' : 0 <= k <= m -> m <= k' -> slice W k k' = slice W k m ++ slice W m k'.
Proof.
  intros H1 H2. unfold slice. replace (Z.to_nat (k' - k)) with (Z.to_nat (m - k) + Z.to_nat (k' - m))%nat by lia.
  rewrite <- take_take_drop. rewrite drop_drop. by replace (Z.to_nat k + Z.to_nat (m - k))%nat with (Z.to_nat m) by lia.
Qed.

Lemma zlen_slice (W : list Z) k k' : 0 <= k <= k' -> k' <= zlen W -> zlen (slice W k k') = k' - k.
Proof. intros H1 H2. unfold slice. rewrite zlen_take; [lia|]. rewrite zlen_drop; lia. Qed.

(** One frame: the octets it adds to what has arrived. *)
Lemma feed_one rx st o W a n k :
  rx_off rx = o + k -> 0 <= o -> 0 <= k <= zlen W -> frame_in W (a, n) ->
  qpackenc_decrx_feed rx st (o + a) (take (Z.to_nat n) (drop (Z.to_nat a) W)) =
    decrx_bytes rx st (slice W k (if a <=? k then Z.max k (a + n) else k)).
Proof.
  intros Eo Ho Hk (Ha & Hn & Hw). cbn in *. unfold qpackenc_decrx_feed. rewrite Eo. destruct (a <=? k) eqn:E.
  - replace (o + k <? o + a) with false by lia. f_equal. unfold slice. replace (o + k - (o + a)) with (k - a) by lia.
    rewrite skipn_firstn_comm, drop_drop. replace (Z.to_nat a + Z.to_nat (k - a))%nat with (Z.to_nat k) by lia. f_equal. lia.
  - replace (o + k <? o + a) with true by lia. unfold slice. rewrite Z.sub_diag. done.
Qed.

Lemma feed_frames_spec o W frames : forall k rx st,
  0 <= o -> o + zlen W < span_max -> rx_off rx = o + k -> 0 <= k <= zlen W -> Forall (frame_in W) frames ->
  feed_frames rx st o W frames = decrx_bytes rx st (slice W k (reach k frames)).
Proof.
  induction frames as [|[a n] frames IH]; intros k rx st Ho Hs Eo Hk Hall.
  - cbn [feed_frames reach]. unfold slice. by rewrite Z.sub_diag.
  - pose proof Hall as Hall0. apply Forall_cons_1 in Hall as [Hf Hall]. cbn [feed_frames reach]. rewrite (feed_one rx st o W a n k) by done.
    set (k1 := if a <=? k then Z.max k (a + n) else k). destruct Hf as (H1 & H2 & H3). cbn in H1, H2, H3.
    assert (k <= k1 <= zlen W) as Hk1 by (subst k1; bcases; lia).
    pose proof (reach_ge frames k1). rewrite (slice_split W k k1 (reach k1 frames)) by lia. rewrite decrx_bytes_app.
    destruct (decrx_bytes rx st (slice W k k1)) as [[[[] rx'] st']|] eqn:E; cbn [mbind option_bind]; [|done|done].
    apply decrx_bytes_off in E; [|lia|rewrite zlen_slice by lia; lia]. rewrite zlen_slice in E by lia. apply IH; [done|done|lia|lia|done].
Qed.



(** ** The :status line *)

(** How a decoder reads one field line of a section that refers to the tables. *)
Definition decode_line (src : qdyn_src) (val : obuf) : res (qpack_field * Z) :=
  match qdyn_decode_field src with
  | Ok r => Ok r
  | Oob => Oob
  | Fail =>
      match qpack_literal_namref_decode (s_fs src) val with
      | Ok (r, v, used) =>
          match qdyn_resolve_name src (nr_static r) (nr_index r) with
          | Ok name => Ok (mk_field name (owritten v), used)
          | Fail => Fail
          | Oob => Oob
          end
      | Fail => Fail
      | Oob => Oob
      end
  end.

Definition status_index (status : Z) : Z :=
  match qpack_static_find (status_name ++ [0]) (status_digits status) with Some i => i | None => -1 end.

(** The line of a status that needs no dynamic entry. *)
Definition static_line (status : Z) : list Z :=
  if status_index status <? 0
  then qint_wire (mk_pfx 4 (namref_prefix (mk_nameref QPACK_STATUS_NAME_INDEX true false))) QPACK_STATUS_NAME_INDEX ++
       qstr_wire (mk_pfx 7 0) (take 3 (status_digits status))
  else qint_wire (mk_pfx 6 (indexed_prefix true)) (status_index status).

Definition status_one (t : option qpack_dyn) (base ric s : Z) : bool :=
  let line := static_line s in
  match qpack_static_find (status_name ++ [0]) (status_digits s) with Some i => (-1 <=? i) && (i <? 99) | None => false end &&
  (zlen line <=? 64) && forallb (fun c => (0 <=? c) && (c <? 256)) (status_digits s) &&
  match decode_line (mk_qsrc t base line ric) (mk_obuf (replicate 8 0) 0) with
  | Ok (f, used) => bool_decide (f_name f = status_name) && bool_decide (f_value f = take 3 (status_digits s)) && (used =? zlen line)
  | _ => false
  end.

Lemma status_checked t base ric : forallb (fun n => status_one t base ric (Z.of_nat n)) (seq 0 1000) = true.
Proof. vm_compute. reflexivity. Qed.

Lemma status_one_true t base ric s : 0 <= s <= 999 -> status_one t base ric s = true.
Proof.
  intros Hs. rewrite <- (Z2Nat.id s) by lia.
  apply (proj1 (forallb_forall (fun n => status_one t base ric (Z.of_nat n)) (seq 0 1000)) (status_checked t base ric)). apply in_seq. lia.
Qed.

Lemma status_check t base ric s :
  0 <= s <= 999 ->
  qpack_static_find (status_name ++ [0]) (status_digits s) = Some (status_index s) /\ status_index s < 99 /\
  zlen (static_line s) <= 64 /\ bytes_ok (status_digits s) /\
  decode_line (mk_qsrc t base (static_line s) ric) (mk_obuf (replicate 8 0) 0) = Ok (status_field (status_digits s), zlen (static_line s)).
Proof.
  intros Hs. pose proof (status_one_true t base ric s Hs) as Hc. unfold status_one in Hc. cbv zeta in Hc. rewrite !andb_true_iff in Hc.
  destruct Hc as [[[H1 H2] H3] H4]. split; [|split; [|split; [|split]]].
  - unfold status_index. by destruct (qpack_static_find _ _).
  - unfold status_index. destruct (qpack_static_find _ _) as [i|]; [lia|done].
  - lia.
  - rewrite forallb_forall in H3. unfold bytes_ok. rewrite List.Forall_forall. intros c Hc. specialize (H3 c Hc). unfold is_u8. lia.
  - destruct (decode_line _ _) as [[f used]| |]; [|done|done]. rewrite !andb_true_iff, !bool_decide_eq_true in H4. destruct H4 as [[H5 H6] H7].
    unfold status_field. destruct f as [fn fv]. cbn [f_name f_value] in *. rewrite H5, H6. f_equal. f_equal. lia.
Qed.

Lemma status_field_ok s : 0 <= s <= 999 -> field_ok (status_field (status_digits s)).
Proof.
  intros Hs. destruct (status_check None 0 0 s Hs) as (_ & _ & _ & Hb & _). split; [repeat constructor; vm_compute; congruence|].
  split; [cbn [f_value status_field]; by apply bytes_ok_take|]. by split.
Qed.

Lemma static_line_espec s : 0 <= s <= 999 ->
  (0 <= status_index s -> espec (fun b => qpack_indexed_encode b (status_index s) true) (static_line s)) /\
  (status_index s < 0 ->
   espec (fun b => qpack_literal_namref_encode b (mk_nameref QPACK_STATUS_NAME_INDEX true false) (take 3 (status_digits s))) (static_line s)).
Proof.
  intros Hs. destruct (status_check None 0 0 s Hs) as (_ & Hi & _ & Hb & _). unfold static_line. split; intros Hx.
  - replace (status_index s <? 0) with false by lia. apply int_encode_espec; [pfx_solve|]. unfold is_u64. lia.
  - replace (status_index s <? 0) with true by lia.
    apply (espec_value (fun buf => qpack_int_encode buf (mk_pfx 4 (namref_prefix (mk_nameref QPACK_STATUS_NAME_INDEX true false))) QPACK_STATUS_NAME_INDEX)).
    + apply int_encode_espec; [pfx_solve|]. unfold is_u64, QPACK_STATUS_NAME_INDEX. lia.
    + by apply bytes_ok_take.
    + done.
Qed.

Lemma carry_insert_spec p out :
  0 <= pl_insert_len p <= zlen (pl_instr p) -> zlen (pl_instr p) = 2024 -> zlen (sr_insert_instr out) = 2024 ->
  exists instr, carry_insert p out = Some (mk_sres (sr_field out) (sr_field_len out) (sr_required_insert_count out) instr (pl_insert_len p) (sr_status out)) /\
    zlen instr = 2024 /\ take (Z.to_nat (pl_insert_len p)) instr = take (Z.to_nat (pl_insert_len p)) (pl_instr p).
Proof.
  intros Hl Hz Ho. unfold carry_insert. assert (zlen (take (Z.to_nat (pl_insert_len p)) (pl_instr p)) = pl_insert_len p) as Ht by (apply zlen_take; lia).
  destruct (bytes_put_wspec (pl_instr p) (pl_insert_len p) ltac:(lia) ltac:(unfold span_max; lia) (mk_obuf (sr_insert_instr out) 0)) as [(bs & [= <-] & Hf & ->)|(Hno & _)].
  - unfold obuf_ok, ocap, span_max. cbn. lia.
  - osimpl. unfold obuf_app. cbn [op olen]. eexists. split; [reflexivity|]. rewrite zlen_splice by lia. split; [done|].
    rewrite <- Ht at 1. apply splice_0_take. lia.
  - exfalso. apply (Hno _ eq_refl). unfold ofits, ocap. cbn. lia.
Qed.

(** What the caller of [qpackenc_status_line] gets. *)
Definition status_result_ok (st : qpackenc_state) (a : dtable) (s : Z) (out : qpackenc_status_result) : Prop :=
  let f := status_field (status_digits s) in
  let line := take (Z.to_nat (sr_field_len out)) (sr_field out) in
  sr_status out = s /\ 1 <= sr_field_len out <= 64 /\
  ((sr_required_insert_count out = 0 /\
    forall t base ric, decode_line (mk_qsrc t base line ric) (mk_obuf (replicate 8 0) 0) = Ok (f, sr_field_len out)) \/
   (exists abs, line = [128] /\ load (a_ents a) (abs - a_dropped a) = Some f /\ abs < qe_known_received st /\
      qpack_ric_encode (abs + 1) (a_max a / 32) = Some (sr_required_insert_count out))) /\
  (sr_insert_len out = 0 \/
   (take (Z.to_nat (sr_insert_len out)) (sr_insert_instr out) = ins_wires (owed st a ++ [ILiteral f]) /\ zlen (ebytes f) + 32 <= a_cap a)).

(** A static line written at the front of the field buffer. *)
Lemma static_result st a s field w fl out :
  0 <= s <= 999 -> zlen field = 64 -> w = zlen (static_line s) -> fl = splice field 0 (static_line s) -> 0 < zlen (static_line s) -> sr_status out = s ->
  (sr_insert_len out = 0 \/
   (take (Z.to_nat (sr_insert_len out)) (sr_insert_instr out) = ins_wires (owed st a ++ [ILiteral (status_field (status_digits s))]) /\
    zlen (ebytes (status_field (status_digits s))) + 32 <= a_cap a)) ->
  status_result_ok st a s (result_static fl w out).
Proof.
  intros Hs Hz -> -> Hp Est Hins. pose proof (status_check None 0 0 s Hs) as (_ & _ & Hl & _). unfold status_result_ok, result_static.
  cbn [sr_status sr_field sr_field_len sr_required_insert_count sr_insert_len sr_insert_instr]. split; [done|]. split; [lia|]. split; [|done].
  left. split; [done|]. intros t base ric. rewrite splice_0_take by lia. by destruct (status_check t base ric s Hs) as (_ & _ & _ & _ & ->).
Qed.

Lemma plan_result_len st a f p : plan_result st a f p -> zlen (pl_instr p) = 2024 -> 0 <= pl_insert_len p <= zlen (pl_instr p).
Proof. intros [H _ _ _|H _|_ _ H _ _] Hz; lia. Qed.

(** The :status line of a response decodes to the status.  For a status of up to three digits the encoder always
    produces a line of at most 64 octets that is either read back as (:status, its digits) from the static table alone,
    with Required Insert Count 0 and whatever the decoder's table is, or a reference to an acknowledged entry of the
    dynamic table that is that field, under the encoded Required Insert Count one above its index; an insert
    instruction carried along is the pending capacity and the literal of that very field. *)
Theorem status_line_exact (s : Z) (st : qpackenc_state) (a : dtable) (plan0 : qpackenc_plan) (out : qpackenc_status_result) :
  0 <= s <= 999 -> dyn_ok (qe_dyn st) a -> Forall field_ok (a_ents a) -> a_dropped a + zlen (a_ents a) < span_max ->
  a_cap a <= a_max a -> is_u64 (a_max a) ->
  zlen (sr_field out) = 64 -> zlen (sr_insert_instr out) = 2024 -> zlen (pl_instr plan0) = 2024 ->
  exists out', qpackenc_status_line s st plan0 out = Some (true, out') /\ status_result_ok st a s out'.
Proof.
  intros Hs Hok Hall Hd Hcm Hum Hzf Hzi Hzp. destruct (status_check None 0 0 s Hs) as (Efind & Hi & Hl64 & Hb & _).
  destruct (static_line_espec s Hs) as [Hind Hlit]. unfold qpackenc_status_line, try_static. cbv zeta.
  cbn [sr_field sr_field_len sr_required_insert_count sr_insert_instr sr_insert_len sr_status]. rewrite Efind. osimpl.
  destruct (status_index s <? 0) eqn:Ei.
  2: { destruct (Hind ltac:(lia)) as [Hp He]. specialize (He (sr_field out) ltac:(rewrite Hzf; done)). rewrite Hzf in He.
       replace (_ <=? 64) with true in He by lia. rewrite He. osimpl. replace (zlen (static_line s) =? 0) with false by lia. osimpl.
       eexists. split; [reflexivity|]. apply (static_result st a s (sr_field out)); auto. }
  osimpl. unfold try_dynamic. pose proof (status_field_ok s Hs) as Hf. set (f := status_field (status_digits s)) in *.
  destruct (plan_field_spec st a f plan0 Hok Hall Hf Hd Hzp) as (p & Ep & Hzpi & Hpr). rewrite Ep. osimpl.
  destruct (carry_insert_spec p (mk_sres (sr_field out) (sr_field_len out) (sr_required_insert_count out) (sr_insert_instr out) 0 s)
    (plan_result_len st a f p Hpr Hzpi) Hzpi Hzi) as (instr & Ec & Hzin & Ht). rewrite Ec. osimpl. cbn [sr_field sr_field_len sr_required_insert_count sr_insert_instr sr_insert_len sr_status].
  destruct (pl_used_dynamic p) eqn:Eu; cbn [negb].
  - destruct Hpr as [H0 _ Hld Hkn| |]; [|congruence|congruence]. destruct (int_encode_espec (mk_pfx 6 (indexed_prefix false)) 0) as [_ He]; [pfx_solve|done|].
    specialize (He (sr_field out) ltac:(rewrite Hzf; done)). rewrite Hzf in He. change (qint_wire (mk_pfx 6 (indexed_prefix false)) 0) with [128] in He.
    change (zlen [128] <=? 64) with true in He. cbn iota in He. unfold qdyn_indexed_dynamic.
    change (qpack_indexed_encode (sr_field out) 0 false) with (qpack_int_encode (sr_field out) (mk_pfx 6 (indexed_prefix false)) 0). rewrite He. osimpl.
    change (zlen [128] =? 0) with false. cbn iota. pose proof Hok as [(base & Hr) Hcost]. unfold max_entries_of. rewrite (dr_max _ base a Hr).
    pose proof (load_Some _ _ _ Hld) as Hab. pose proof (dr_dropped_nonneg _ base a Hr). unfold span_max, is_u64, cost in *.
    pose proof (zlen_nonneg (flat (a_ents a))).
    assert (1 <= a_max a / 32 < 4611686018427387904) as HM by (split; [apply Z.div_le_lower_bound|apply Z.div_lt_upper_bound]; lia).
    rewrite u64_small by lia.
    destruct (ric_code (pl_abs_index p + 1) (a_max a / 32) (pl_abs_index p + 1) ltac:(lia) ltac:(lia) ltac:(lia) ltac:(lia)) as (ric & Eric & _).
    rewrite Eric. osimpl. eexists. split; [reflexivity|]. unfold status_result_ok. cbn [sr_status sr_field sr_field_len sr_required_insert_count sr_insert_len sr_insert_instr].
    split; [done|]. split; [done|]. split; [|left; exact H0]. right. exists (pl_abs_index p). split; [|by split].
    apply (splice_0_take (sr_field out) [128]). rewrite Hzf. done.
  - osimpl. unfold fallback_literal. cbn [sr_field sr_field_len sr_required_insert_count sr_insert_instr sr_insert_len sr_status].
    destruct (Hlit ltac:(lia)) as [Hp He]. specialize (He (sr_field out) ltac:(rewrite Hzf; done)). rewrite Hzf in He.
    replace (_ <=? 64) with true in He by lia. rewrite He. osimpl. replace (zlen (static_line s) =? 0) with false by lia.
    eexists. split; [reflexivity|]. apply (static_result st a s (sr_field out)); auto. cbn [sr_insert_len sr_insert_instr].
    destruct Hpr as [H0 _ _ _|H0 _|_ Ew _ Hc _]; [by left|by left|]. right. by rewrite Ht.
Qed.

Lemma status_line_exact_witness :
  exists out', qpackenc_status_line 299 (mk_qes dyn_demo 0 0 0 false) (mk_plan (replicate 2024 3) 3 3 true) (mk_sres (replicate 64 5) 5 5 (replicate 2024 5) 5 5)
    = Some (true, out') /\ sr_required_insert_count out' = 0 /\ sr_insert_len out' = 10.
Proof.
  destruct (status_line_exact 299 (mk_qes dyn_demo 0 0 0 false) (mk_dtable 0 [] 100 100) (mk_plan (replicate 2024 3) 3 3 true)
    (mk_sres (replicate 64 5) 5 5 (replicate 2024 5) 5 5)) as (o & E & _).
  - lia.
  - exact dyn_demo_ok.
  - exact (Forall_nil_2 _).
  - vm_compute. reflexivity.
  - cbn. lia.
  - vm_compute. split; congruence.
  - reflexivity.
  - reflexivity.
  - reflexivity.
  - exists o. split; [exact E|]. vm_compute in E. injection E as <-. split; reflexivity.
Defined.
