(* ===== verification/QpackSync.v ===== *)
(** * The two ends of a QPACK connection

    The server's encoder (src/src/app/qpack/qpackenc/qpackenc.c, status_line.c)
    and a decoder that keeps its table with src/src/app/qpack/qpackdyn
    (enc_stream.c, field_decode.c), joined by an encoder stream, a stream of
    acknowledgements and the field sections in flight.  The theorem is that
    whatever the order in which these are delivered, no instruction is refused,
    no section blocks and every reference decodes to the field it was planned
    for. *)

From Stdlib Require Import String.
From stdpp Require Import base numbers list option.
From Stdlib Require Import ZArith Lia.
From S2P Require Import Prelude Bytes Varint QpackHuff QpackStr ConnTable QpackTable QpackDyn QpackEnc.

(** ** The system *)

(** A field section in flight: its encoded Required Insert Count, its field
    line, and the field it stands for. *)
Record section := mk_sec { sc_ric : Z; sc_line : list Z; sc_field : qpack_field }.

(** The encoder, the octets on the encoder stream, the decoder's table, the
    insertions it has reported, the increments in flight, the sections in
    flight and the number of section acknowledgements in flight. *)
Record qsys := mk_qsys {
  y_enc : qpackenc_state; y_wire : list Z; y_dec : qpack_dyn; y_reported : Z; y_incs : list Z; y_secs : list section; y_acks : nat }.

Inductive qop :=
  | QField (f : qpack_field) (p0 : qpackenc_plan)  (** the encoder codes a field *)
  | QDeliver                                       (** the decoder reads the next encoder stream instruction *)
  | QReport                                        (** the decoder sends an Insert Count Increment *)
  | QIncrement                                     (** the oldest increment reaches the encoder *)
  | QDecode (k : nat)                              (** the decoder decodes a section in flight *)
  | QCancel (k : nat)                              (** the decoder drops a section *)
  | QAck.                                          (** a Section Acknowledgment reaches the encoder *)

Definition inserts (t : qpack_dyn) : Z := d_dropped t + d_count t.

Section sys.
Context (peer_max : Z).

(** Plan, send the instructions and commit the insertion, or send a section that refers to the entry. *)
Definition sys_field (y : qsys) (f : qpack_field) (p0 : qpackenc_plan) : option qsys :=
  p ← qpackenc_plan_field (y_enc y) f p0;
  if pl_used_dynamic p then
    '(w, line) ← qdyn_indexed_dynamic 0 (replicate 64 0);
    ric ← qpack_ric_encode (u64 (pl_abs_index p + 1)) (max_entries_of (y_enc y));
    Some (mk_qsys (qpackenc_note_sent (y_enc y) ric) (y_wire y) (y_dec y) (y_reported y) (y_incs y)
            (y_secs y ++ [mk_sec ric (take (Z.to_nat w) line) f]) (y_acks y))
  else if pl_insert_len p =? 0 then Some y
  else
    st ← qpackenc_commit_field (y_enc y) f;
    Some (mk_qsys st (y_wire y ++ take (Z.to_nat (pl_insert_len p)) (pl_instr p)) (y_dec y) (y_reported y) (y_incs y) (y_secs y) (y_acks y)).

(** [None]: the decoder refuses the instruction. *)
Definition sys_deliver (y : qsys) : option qsys :=
  if zlen (y_wire y) =? 0 then Some y
  else
    '(used, t, _) ← qdyn_enc_apply (y_wire y) (y_dec y) peer_max 0;
    if used =? 0 then None
    else Some (mk_qsys (y_enc y) (drop (Z.to_nat used) (y_wire y)) t (y_reported y) (y_incs y) (y_secs y) (y_acks y)).

Definition sys_report (y : qsys) : qsys :=
  let n := inserts (y_dec y) in
  if n <=? y_reported y then y
  else mk_qsys (y_enc y) (y_wire y) (y_dec y) n (y_incs y ++ [n - y_reported y]) (y_secs y) (y_acks y).

(** [None]: the encoder refuses the increment. *)
Definition sys_increment (y : qsys) : option qsys :=
  match y_incs y with
  | [] => Some y
  | inc :: rest =>
      let '(ok, st) := qpackenc_on_increment (y_enc y) inc in
      if ok then Some (mk_qsys st (y_wire y) (y_dec y) (y_reported y) rest (y_secs y) (y_acks y)) else None
  end.

(** The field of a section: its Required Insert Count must be decoded and
    reached, and the line resolved with the base it gives. *)
Definition section_decodes (t : qpack_dyn) (s : section) : bool :=
  match qpack_ric_decode (sc_ric s) (mk_ric_ctx (peer_max / 32) (inserts t)) with
  | Ok ric =>
      if inserts t <? ric then false
      else match qdyn_decode_field (mk_qsrc (Some t) (qpack_base ric 0 0) (sc_line s) ric) with
           | Ok (f, used) => bool_decide (f_name f = f_name (sc_field s)) && bool_decide (f_value f = f_value (sc_field s)) && (used =? zlen (sc_line s))
           | _ => false
           end
  | _ => false
  end.

Definition without {A} (k : nat) (l : list A) : list A := take k l ++ drop (S k) l.

(** [None]: the section blocks, or decodes to something else. *)
Definition sys_decode (y : qsys) (k : nat) : option qsys :=
  match y_secs y !! k with
  | None => Some y
  | Some s =>
      if section_decodes (y_dec y) s
      then Some (mk_qsys (y_enc y) (y_wire y) (y_dec y) (y_reported y) (y_incs y) (without k (y_secs y)) (S (y_acks y)))
      else None
  end.

Definition sys_cancel (y : qsys) (k : nat) : qsys :=
  match y_secs y !! k with
  | None => y
  | Some s => mk_qsys (y_enc y) (y_wire y) (y_dec y) (y_reported y) (y_incs y) (without k (y_secs y)) (y_acks y)
  end.

(** [None]: the encoder refuses the acknowledgement. *)
Definition sys_ack (y : qsys) : option qsys :=
  match y_acks y with
  | O => Some y
  | S n =>
      let '(ok, st) := qpackenc_on_section_ack (y_enc y) in
      if ok then Some (mk_qsys st (y_wire y) (y_dec y) (y_reported y) (y_incs y) (y_secs y) n) else None
  end.

Definition sys_step (y : qsys) (o : qop) : option qsys :=
  match o with
  | QField f p0 => sys_field y f p0
  | QDeliver => sys_deliver y
  | QReport => Some (sys_report y)
  | QIncrement => sys_increment y
  | QDecode k => sys_decode y k
  | QCancel k => Some (sys_cancel y k)
  | QAck => sys_ack y
  end.

Fixpoint sys_run (y : qsys) (ops : list qop) : option qsys :=
  match ops with [] => Some y | o :: ops' => y ← sys_step y o; sys_run y ops' end.
End sys.

(** The state when the peer's SETTINGS have arrived. *)
Definition sys_init (st0 : qpackenc_state) (t0 : qpack_dyn) (peer_max c : Z) : option qsys :=
  st ← qpackenc_peer_capacity (qpackenc_init st0 0) peer_max;
  Some (mk_qsys st [] (qpack_dyn_init t0 c) 0 [] [] 0).

(** ** A table as a window on the history of insertions *)

Definition hist (a : dtable) (n : Z) (H : list qpack_field) : Prop :=
  0 <= a_dropped a /\ a_dropped a + zlen (a_ents a) = n /\ n <= zlen H /\
  a_ents a = drop (Z.to_nat (a_dropped a)) (take (Z.to_nat n) H).

Lemma drop_until_drop cap need ents : drop_until cap need ents = drop (Z.to_nat (zlen ents - zlen (drop_until cap need ents))) ents.
Proof.
  induction ents as [|e ents IH]; [done|]. cbn [drop_until]. pose proof (drop_until_le cap need ents).
  destruct (_ <? _); [|rewrite Z.sub_diag; done]. rewrite zlen_cons. replace (Z.to_nat _) with (S (Z.to_nat (zlen ents - zlen (drop_until cap need ents)))) by lia.
  cbn [drop]. exact IH.
Qed.

Lemma hist_room a n H cap need : hist a n H -> hist (a_room a cap need) n H.
Proof.
  intros (H0 & Hn & Hle & He). pose proof (drop_until_le cap need (a_ents a)) as Hd. unfold a_room. repeat split; cbn [a_dropped a_ents]; [lia|lia|done|].
  rewrite drop_until_drop at 1. set (m := zlen (a_ents a) - zlen (drop_until cap need (a_ents a))) in *. rewrite He. rewrite drop_drop. f_equal. lia.
Qed.

Lemma hist_insert a n H f : hist a n H -> load H n = Some f -> (a_insert a f).1 = true -> hist (a_insert a f).2 (n + 1) H.
Proof.
  intros Hh Hl. unfold a_insert. destruct (_ <? _); [done|]. intros _. cbn [snd]. apply (hist_room _ _ _ (a_cap a) (zlen (ebytes f) + 32)) in Hh.
  set (r := a_room _ _ _) in *. destruct Hh as (H0 & Hn & Hle & He). pose proof (load_Some _ _ _ Hl). pose proof (zlen_nonneg (a_ents r)).
  repeat split; cbn [a_dropped a_ents]; [lia|rewrite zlen_app, zlen_cons; change (zlen (@nil qpack_field)) with 0; lia|lia|].
  unfold load in Hl. bcase in Hl; [|done]. rewrite Z2Nat.inj_add by lia. change (Z.to_nat 1) with 1%nat. rewrite Nat.add_1_r, (take_S_r _ _ f) by done.
  rewrite drop_app_le; [by rewrite <- He|]. rewrite length_take. unfold zlen in *. lia.
Qed.

Lemma hist_ext a n H H' : hist a n H -> hist a n (H ++ H').
Proof.
  intros (H0 & Hn & Hle & He). repeat split; [done|done|rewrite zlen_app; pose proof (zlen_nonneg H'); lia|].
  rewrite take_app_le; [done|]. unfold zlen in Hle. lia.
Qed.

Lemma hist_load a n H i : hist a n H -> a_dropped a <= i < n -> load (a_ents a) (i - a_dropped a) = load H i.
Proof.
  intros (H0 & Hn & Hle & He) Hi. rewrite He. unfold load. rewrite (proj2 (Z.leb_le 0 (i - a_dropped a))), (proj2 (Z.leb_le 0 i)) by lia.
  rewrite lookup_drop, lookup_take_lt by lia. f_equal. lia.
Qed.

Lemma hist_fields a n H : hist a n H -> Forall field_ok H -> Forall field_ok (a_ents a).
Proof. intros (_ & _ & _ & ->) Hf. by apply Forall_drop, Forall_take. Qed.

(** ** The instructions on their way *)

Fixpoint a_run (a : dtable) (max : Z) (l : list qins) : option dtable :=
  match l with [] => Some a | i :: l' => a ← a_apply a max i; a_run a max l' end.

Lemma a_run_app l l' : forall a max, a_run a max (l ++ l') = a ← a_run a max l; a_run a max l'.
Proof. induction l as [|i l IH]; intros a max; [done|]. cbn [app a_run]. destruct (a_apply a max i); cbn [mbind option_bind]; [apply IH|done]. Qed.

(** What the encoder sends. *)
Definition plain (i : qins) : Prop := qins_ok i /\ match i with ISetCapacity _ | ILiteral _ => True | _ => False end.

Fixpoint lits (l : list qins) : list qpack_field :=
  match l with [] => [] | ILiteral f :: l' => f :: lits l' | _ :: l' => lits l' end.

Lemma lits_app l l' : lits (l ++ l') = lits l ++ lits l'.
Proof. induction l as [|[] l IH]; cbn; [done|exact IH|exact IH|by rewrite IH|exact IH]. Qed.

Lemma room_dropped a cap need : a_dropped a <= a_dropped (a_room a cap need).
Proof. unfold a_room. cbn. pose proof (drop_until_le cap need (a_ents a)). lia. Qed.

Lemma a_ins_inv a f a' : a_ins a f = Some a' -> (a_insert a f).1 = true /\ a' = (a_insert a f).2 /\ a_dropped a <= a_dropped a'.
Proof.
  unfold a_ins. intros E. destruct (a_insert a f) as [[] a1] eqn:Ei; [|done]. injection E as <-. split; [done|]. split; [done|].
  unfold a_insert in Ei. destruct (_ <? _); [done|]. injection Ei as <-. cbn [a_dropped]. pose proof (room_dropped a (a_cap a) (zlen (ebytes f) + 32)). exact H.
Qed.

(** One instruction moves the window over the history. *)
Lemma plain_apply a n H max i l a' :
  plain i -> hist a n H -> lits (i :: l) = drop (Z.to_nat n) H -> a_apply a max i = Some a' ->
  exists n', n <= n' /\ hist a' n' H /\ lits l = drop (Z.to_nat n') H /\ a_dropped a <= a_dropped a'.
Proof.
  intros [_ Hp] Hh El Ea. destruct i as [c| |f|]; try done; cbn [a_apply lits] in *.
  - destruct (c <=? max); [|done]. injection Ea as <-. exists n. split; [lia|]. split; [by apply hist_room|]. split; [done|]. apply room_dropped.
  - apply a_ins_inv in Ea as (H1 & -> & H2). pose proof Hh as (H0 & Hn & Hle & _). pose proof (zlen_nonneg (a_ents a)). exists (n + 1). split; [lia|].
    assert (load H n = Some f) as Hl.
    { unfold load. rewrite (proj2 (Z.leb_le 0 n)) by lia. rewrite <- (Nat.add_0_r (Z.to_nat n)), <- lookup_drop, <- El. done. }
    split; [by apply hist_insert|]. split; [|done]. rewrite Z2Nat.inj_add by lia. rewrite <- drop_drop, <- El. done.
Qed.

Lemma plain_run l : forall a n H max a',
  Forall plain l -> hist a n H -> lits l = drop (Z.to_nat n) H -> a_run a max l = Some a' -> a_dropped a <= a_dropped a'.
Proof.
  induction l as [|i l IH]; intros a n H max a' Hp Hh El Ea; [injection Ea as <-; lia|]. apply Forall_cons_1 in Hp as [Hi Hp]. cbn [a_run] in Ea.
  destruct (a_apply a max i) as [a1|] eqn:E1; [|done]. cbn [mbind option_bind] in Ea.
  destruct (plain_apply a n H max i l a1 Hi Hh El E1) as (n' & _ & Hh' & El' & Hd). specialize (IH a1 n' H max a' Hp Hh' El' Ea). lia.
Qed.

Definition same_tab (a b : dtable) : Prop := a_dropped a = a_dropped b /\ a_ents a = a_ents b /\ a_cap a = a_cap b.

Lemma insert_same a b f : same_tab a b -> (a_insert a f).1 = (a_insert b f).1 /\ same_tab (a_insert a f).2 (a_insert b f).2.
Proof.
  intros (H1 & H2 & H3). unfold a_insert, a_room. rewrite H1, H2, H3. destruct (_ <? _); cbn [fst snd]; [by repeat split|]. split; [done|].
  done.
Qed.

Lemma insert_true a f : zlen (ebytes f) + 32 <= a_cap a -> (a_insert a f).1 = true.
Proof. intros H. unfold a_insert. by replace (_ <? _) with false by lia. Qed.

Lemma insert_no_evict a f : cost (a_ents a) + (zlen (ebytes f) + 32) <= a_cap a -> a_dropped (a_insert a f).2 = a_dropped a.
Proof.
  intros H. unfold a_insert. pose proof (cost_nonneg (a_ents a)). replace (_ <? _) with false by lia. cbn [snd a_dropped]. unfold a_room. cbn [a_dropped].
  assert (drop_until (a_cap a) (zlen (ebytes f) + 32) (a_ents a) = a_ents a) as ->; [|lia].
  destruct (a_ents a) as [|e r]; [done|]. cbn [drop_until]. by replace (_ <? _) with false by lia.
Qed.

Lemma insert_cap a f : a_cap (a_insert a f).2 = a_cap a /\ a_max (a_insert a f).2 = a_max a.
Proof. unfold a_insert. by destruct (_ <? _). Qed.

(** ** The invariant *)

Fixpoint zsum (l : list Z) : Z := match l with [] => 0 | x :: l' => x + zsum l' end.

Lemma zsum_app l l' : zsum (l ++ l') = zsum l + zsum l'.
Proof. induction l as [|x l IH]; cbn; [done|]. rewrite IH. lia. Qed.

(** A section in flight refers to an acknowledged entry of the encoder's table. *)
Definition sec_ok (peer_max : Z) (a : dtable) (known : Z) (H : list qpack_field) (s : section) : Prop :=
  exists abs, qpack_ric_encode (abs + 1) (peer_max / 32) = Some (sc_ric s) /\ sc_line s = [128] /\
    load H abs = Some (sc_field s) /\ a_dropped a <= abs < known.

Record sys_inv (peer_max k : Z) (y : qsys) (a ad : dtable) (pend : list qins) (H : list qpack_field) : Prop := {
  iv_enc : dyn_ok (qe_dyn (y_enc y)) a;
  iv_dec : dyn_ok (y_dec y) ad;
  iv_fields : Forall field_ok H;
  iv_a : hist a (zlen H) H;
  iv_ad : hist ad (inserts (y_dec y)) H;
  iv_wire : y_wire y = ins_wires pend;
  iv_plain : Forall plain pend;
  iv_lits : lits pend = drop (Z.to_nat (inserts (y_dec y))) H;
  iv_run : exists a1, a_run ad peer_max pend = Some a1 /\ a_dropped a1 = a_dropped a /\ a_ents a1 = a_ents a /\
             (qe_cap_pending (y_enc y) = false -> a_cap a <> 0 -> a_cap a1 = a_cap a);
  iv_first : qe_cap_pending (y_enc y) = true -> a_ents a = [];
  iv_cap : a_cap a <= peer_max;
  iv_dcap : a_cap ad <= peer_max;
  iv_max : a_max a = peer_max;
  iv_total : qe_total_inserts (y_enc y) = zlen H;
  iv_known : 0 <= qe_known_received (y_enc y);
  iv_incs : qe_known_received (y_enc y) + zsum (y_incs y) = y_reported y;
  iv_incs_pos : Forall (fun i => 0 < i) (y_incs y);
  iv_reported : y_reported y <= inserts (y_dec y);
  iv_secs : Forall (sec_ok peer_max a (qe_known_received (y_enc y)) H) (y_secs y);
  iv_pending : zlen (y_secs y) + Z.of_nat (y_acks y) <= qe_pending_acks (y_enc y) <= k;
  iv_history : zlen H <= k;
  iv_wire_len : zlen (y_wire y) <= 2024 * k }.

Arguments iv_enc {_ _ _ _ _ _ _} _.
Arguments iv_dec {_ _ _ _ _ _ _} _.
Arguments iv_fields {_ _ _ _ _ _ _} _.
Arguments iv_a {_ _ _ _ _ _ _} _.
Arguments iv_ad {_ _ _ _ _ _ _} _.
Arguments iv_wire {_ _ _ _ _ _ _} _.
Arguments iv_plain {_ _ _ _ _ _ _} _.
Arguments iv_lits {_ _ _ _ _ _ _} _.
Arguments iv_run {_ _ _ _ _ _ _} _.
Arguments iv_first {_ _ _ _ _ _ _} _.
Arguments iv_cap {_ _ _ _ _ _ _} _.
Arguments iv_dcap {_ _ _ _ _ _ _} _.
Arguments iv_max {_ _ _ _ _ _ _} _.
Arguments iv_total {_ _ _ _ _ _ _} _.
Arguments iv_known {_ _ _ _ _ _ _} _.
Arguments iv_incs {_ _ _ _ _ _ _} _.
Arguments iv_incs_pos {_ _ _ _ _ _ _} _.
Arguments iv_reported {_ _ _ _ _ _ _} _.
Arguments iv_secs {_ _ _ _ _ _ _} _.
Arguments iv_pending {_ _ _ _ _ _ _} _.
Arguments iv_history {_ _ _ _ _ _ _} _.
Arguments iv_wire_len {_ _ _ _ _ _ _} _.

Definition sys_ok (peer_max k : Z) (y : qsys) : Prop := exists a ad pend H, sys_inv peer_max k y a ad pend H.

Lemma inserts_eq t a : dyn_ok t a -> inserts t = a_dropped a + zlen (a_ents a).
Proof. intros [(base & Hr) _]. unfold inserts. by rewrite (dr_dropped t base a Hr), (dr_count t base a Hr). Qed.

(** The entries of a table of capacity at most [m] number at most [m / 32]. *)
Lemma ents_max t a m : dyn_ok t a -> a_cap a <= m -> zlen (a_ents a) <= m / 32.
Proof.
  intros [_ Hc] Hm. apply Z.div_le_lower_bound; [lia|]. unfold cost in Hc. pose proof (zlen_nonneg (flat (a_ents a))). lia.
Qed.

Lemma ric_encode_pos r M e : 0 < r -> 0 < M < span_max -> qpack_ric_encode r M = Some e -> e <> 0.
Proof.
  unfold span_max. intros Hr HM E. unfold qpack_ric_encode in E. replace (r =? 0) with false in E by lia. rewrite (u64_small (2 * M)) in E by lia.
  replace (2 * M =? 0) with false in E by lia. pose proof (Z.mod_pos_bound r (2 * M) ltac:(lia)). rewrite u64_small in E by lia. injection E as <-. lia.
Qed.

Section steps.
Context (peer_max k : Z).
Hypothesis Hpm : is_u64 peer_max.
Hypothesis Hk : 0 <= k.
Hypothesis Hbound : 4096 * (k + 1) < span_max.

Section inv.
Context (y : qsys) (a ad : dtable) (pend : list qins) (H : list qpack_field).
Hypothesis I : sys_inv peer_max k y a ad pend H.

Lemma dropped_le : a_dropped ad <= a_dropped a.
Proof using I.
  destruct (iv_run I) as (a1 & Er & <- & _).
  exact (plain_run pend ad _ H peer_max a1 (iv_plain I) (iv_ad I) (iv_lits I) Er).
Qed.

Lemma known_le : qe_known_received (y_enc y) <= y_reported y <= inserts (y_dec y) /\ inserts (y_dec y) <= zlen H.
Proof using I.
  pose proof (iv_incs I) as E. pose proof (iv_reported I). pose proof (iv_ad I) as (_ & _ & ? & _).
  pose proof (iv_incs_pos I) as Hp. assert (0 <= zsum (y_incs y)); [|lia].
  clear E. induction Hp as [|x l Hx Hl IH]; cbn; lia.
Qed.

Lemma max_entries_pos : 0 < zlen (a_ents a) -> 0 < peer_max / 32 < 4611686018427387904 /\ peer_max / 32 < span_max.
Proof using I Hpm.
  intros Hp. pose proof (ents_max _ a peer_max (iv_enc I) (iv_cap I)). unfold is_u64, span_max in *.
  assert (peer_max / 32 < 4611686018427387904) by (apply Z.div_lt_upper_bound; lia). lia.
Qed.

(** Every section in flight can be decoded at once. *)
Lemma section_in_flight s : s ∈ y_secs y -> section_decodes peer_max (y_dec y) s = true.
Proof using All.
  intros Hs. pose proof (iv_secs I) as Hall. rewrite List.Forall_forall in Hall.
  destruct (Hall s) as (abs & Eric & Eline & Hl & Habs); [by apply list_elem_of_In|]. pose proof dropped_le. pose proof known_le as [Hkn Hin].
  pose proof (iv_dec I) as Hdec. pose proof (iv_history I). pose proof (inserts_eq _ ad Hdec) as Ei.
  pose proof (iv_ad I) as Hh. pose proof Hh as (Hd0 & _). pose proof (iv_a I) as (Ha0 & Han & _).
  assert (0 < zlen (a_ents a)) as Hpos by lia. destruct (max_entries_pos Hpos) as [HM _]. unfold span_max in Hbound.
  pose proof (ents_max _ ad peer_max Hdec (iv_dcap I)) as Hmax. pose proof (zlen_nonneg (a_ents ad)).
  unfold section_decodes. destruct (ric_code (abs + 1) (peer_max / 32) (inserts (y_dec y)) ltac:(lia) ltac:(lia) ltac:(lia) ltac:(lia)) as (e & E1 & E2).
  rewrite Eric in E1. injection E1 as <-. rewrite E2. replace (_ <? _) with false by lia. unfold qpack_base. cbn [Z.eqb]. rewrite u64_small by lia.
  unfold qdyn_decode_field, try_indexed. cbn [s_fs]. rewrite Eline. change (qpack_indexed_decode [128]) with (Ok (0, false, 1)). cbn beta iota.
  unfold resolve_dynamic, qdyn_ref_get, qpack_rel_to_abs, qpack_ric_min_ok. cbn [s_base s_ric s_table]. rewrite (u64_small (abs + 1 + 0 - 0)), (u64_small (_ - 1)) by lia.
  replace (abs + 1 + 0 - 0 - 1) with abs by lia. rewrite u64_small by lia. rewrite Z.leb_refl.
  rewrite (get_spec _ ad) by (done || unfold span_max, is_u64; lia). unfold a_get. rewrite (proj2 (Z.leb_le _ _)) by lia.
  rewrite (hist_load ad _ H abs Hh) by lia. rewrite Hl. cbn [res_of]. by rewrite !bool_decide_true.
Qed.
End inv.

Lemma deliver_step y a ad pend H : sys_inv peer_max k y a ad pend H -> exists y', sys_deliver peer_max y = Some y' /\ sys_ok peer_max (k + 1) y'.
Proof using All.
  intros I. unfold sys_deliver. pose proof (iv_wire I) as Ew. pose proof (iv_plain I) as Hpl. pose proof (iv_run I) as (a1 & Er & E1 & E2 & E3).
  pose proof (iv_wire_len I) as Hwl. destruct pend as [|i rest].
  { rewrite Ew. cbn. exists y. split; [done|]. exists a, ad, [], H. destruct I. split; auto; lia. }
  apply Forall_cons_1 in Hpl as [Hi Hrest]. cbn [a_run] in Er. destruct (a_apply ad peer_max i) as [ad'|] eqn:Ea; [|done]. cbn [mbind option_bind] in Er.
  assert (ins_wires (i :: rest) = qins_wire i ++ ins_wires rest) as Ews by done. rewrite Ews in Ew. unfold span_max in Hbound.
  pose proof (inserts_eq _ ad (iv_dec I)) as Ei. pose proof (known_le y a ad (i :: rest) H I) as [_ Hle]. pose proof (iv_history I).
  pose proof (enc_apply_spec (y_dec y) ad peer_max 0 (ins_wires rest) (iv_dec I) (hist_fields _ _ H (iv_ad I) (iv_fields I))
    ltac:(unfold span_max; lia) i (proj1 Hi) ltac:(rewrite <- Ew; unfold span_max; lia)) as Hap. unfold apply_result in Hap. rewrite Ea in Hap.
  destruct Hap as (t' & Ha & Ht'). rewrite Ew, Ha. osimpl.
  destruct (plain_apply ad _ H peer_max i rest ad' Hi (iv_ad I) (iv_lits I) Ea) as (n' & Hn' & Hh' & El' & _).
  assert (inserts t' = n') as Ein' by (rewrite (inserts_eq t' ad' Ht'); apply Hh').
  assert (0 < zlen (qins_wire i)) as Hpos.
  { destruct Hi as [Hok Hp]. destruct i as [c| |f|]; try done; cbn [qins_wire]; [apply qint_wire_pos|].
    rewrite zlen_app. pose proof (qstr_wire_pos (mk_pfx 5 64) (f_name f)). pose proof (zlen_nonneg (qstr_wire (mk_pfx 7 0) (f_value f))). lia. }
  rewrite zlen_app. pose proof (zlen_nonneg (ins_wires rest)). replace (zlen (qins_wire i) + _ =? 0) with false by lia.
  replace (zlen (qins_wire i) =? 0) with false by lia. eexists. split; [reflexivity|]. rewrite drop_zlen_app.
  exists a, ad', rest, H. rewrite Ew, zlen_app in Hwl.
  destruct I. split; cbn [y_enc y_wire y_dec y_reported y_incs y_secs y_acks]; auto; rewrite ?Ein'; try done; try lia.
  - exists a1. auto.
  - destruct Hi as [_ Hp]. destruct i as [c| |f|]; try done; cbn [a_apply] in Ea.
    + destruct (c <=? peer_max) eqn:Ec; [|done]. injection Ea as <-. cbn. unfold QPACK_DYN_MAX_CAPACITY. lia.
    + apply a_ins_inv in Ea as (_ & -> & _). by rewrite (proj1 (insert_cap ad f)).
Qed.

Lemma report_step y a ad pend H : sys_inv peer_max k y a ad pend H -> sys_ok peer_max (k + 1) (sys_report y).
Proof using All.
  intros I. unfold sys_report. pose proof (known_le y a ad pend H I) as [Hkn Hin]. destruct (_ <=? _) eqn:E.
  - exists a, ad, pend, H. destruct I. split; auto; lia.
  - exists a, ad, pend, H. destruct I. split; cbn [y_enc y_wire y_dec y_reported y_incs y_secs y_acks]; auto; try lia.
    + rewrite zsum_app. cbn. lia.
    + apply Forall_app. split; [done|]. constructor; [lia|constructor].
Qed.

Lemma increment_step y a ad pend H : sys_inv peer_max k y a ad pend H -> exists y', sys_increment y = Some y' /\ sys_ok peer_max (k + 1) y'.
Proof using All.
  intros I. unfold sys_increment. pose proof (known_le y a ad pend H I) as [Hkn Hin]. pose proof (iv_incs I) as Esum. pose proof (iv_incs_pos I) as Hpos.
  pose proof (iv_history I). unfold span_max in Hbound. destruct (y_incs y) as [|inc rest] eqn:Ey.
  { exists y. split; [done|]. exists a, ad, pend, H. destruct I. split; auto; lia. }
  apply Forall_cons_1 in Hpos as [Hinc Hrest]. cbn [zsum] in Esum. pose proof (iv_known I). pose proof (iv_reported I).
  assert (0 <= zsum rest) as Hz by (clear -Hrest; induction Hrest; cbn; lia).
  unfold qpackenc_on_increment, qpack_incr_valid. rewrite (iv_total I). rewrite (u64_small (_ + inc)) by lia.
  replace (inc =? 0) with false by lia. replace (_ <=? zlen H) with true by lia. cbn [negb andb]. eexists. split; [reflexivity|].
  exists a, ad, pend, H. destruct I. split; cbn [y_enc y_wire y_dec y_reported y_incs y_secs y_acks qe_dyn qe_total_inserts qe_known_received qe_pending_acks qe_cap_pending]; auto; try lia.
  revert iv_secs0. apply List.Forall_impl. intros s (abs & ? & ? & ? & ?). exists abs. do 3 (split; [done|]). lia.
Qed.

Lemma zlen_without {A} (l : list A) j x : l !! j = Some x -> zlen (without j l) = zlen l - 1.
Proof. intros E. apply lookup_lt_Some in E. unfold without, zlen. rewrite length_app, length_take, length_drop. lia. Qed.

Lemma secs_without a known H (l : list section) j :
  Forall (sec_ok peer_max a known H) l -> Forall (sec_ok peer_max a known H) (without j l).
Proof using. intros Hl. apply Forall_app. split; [by apply Forall_take|by apply Forall_drop]. Qed.

Lemma decode_step y a ad pend H j : sys_inv peer_max k y a ad pend H -> exists y', sys_decode peer_max y j = Some y' /\ sys_ok peer_max (k + 1) y'.
Proof using All.
  intros I. unfold sys_decode. destruct (y_secs y !! j) as [s|] eqn:Es.
  2: { exists y. split; [done|]. exists a, ad, pend, H. destruct I. split; auto; lia. }
  rewrite (section_in_flight y a ad pend H I s) by (by apply (list_elem_of_lookup_2 _ j)). eexists. split; [reflexivity|].
  exists a, ad, pend, H. pose proof (zlen_without _ _ _ Es). destruct I.
  split; cbn [y_enc y_wire y_dec y_reported y_incs y_secs y_acks]; auto using secs_without; lia.
Qed.

Lemma cancel_step y a ad pend H j : sys_inv peer_max k y a ad pend H -> sys_ok peer_max (k + 1) (sys_cancel y j).
Proof using All.
  intros I. unfold sys_cancel. destruct (y_secs y !! j) as [s|] eqn:Es; exists a, ad, pend, H.
  2: { destruct I. split; auto; lia. }
  pose proof (zlen_without _ _ _ Es). destruct I.
  split; cbn [y_enc y_wire y_dec y_reported y_incs y_secs y_acks]; auto using secs_without; lia.
Qed.

Lemma ack_step y a ad pend H : sys_inv peer_max k y a ad pend H -> exists y', sys_ack y = Some y' /\ sys_ok peer_max (k + 1) y'.
Proof using All.
  intros I. unfold sys_ack. destruct (y_acks y) as [|n] eqn:Ea.
  { exists y. split; [done|]. exists a, ad, pend, H. destruct I. split; auto; lia. }
  pose proof (iv_pending I) as Hp. rewrite Ea in Hp. pose proof (zlen_nonneg (y_secs y)). unfold qpackenc_on_section_ack, qpack_section_ack_valid.
  replace (0 <? _) with true by lia. cbn [negb]. eexists. split; [reflexivity|]. exists a, ad, pend, H. destruct I.
  split; cbn [y_enc y_wire y_dec y_reported y_incs y_secs y_acks qe_dyn qe_total_inserts qe_known_received qe_pending_acks qe_cap_pending]; auto; lia.
Qed.

(** The instructions of a planned insertion bring the decoder where the commit brings the encoder. *)
Lemma insert_run y a ad pend H f :
  sys_inv peer_max k y a ad pend H -> field_ok f -> zlen (ebytes f) + 32 <= a_cap a ->
  exists a1, a_run ad peer_max (pend ++ owed (y_enc y) a ++ [ILiteral f]) = Some a1 /\ same_tab a1 (a_insert a f).2.
Proof using All.
  intros I Hf Hc. destruct (iv_run I) as (a1 & Er & E1 & E2 & E3). rewrite a_run_app, Er. cbn [mbind option_bind].
  pose proof (iv_enc I) as [(base & Hr) _]. pose proof (dr_cap_le _ base a Hr) as Hcap. pose proof (zlen_nonneg (ebytes f)).
  enough (exists a2, a_run a1 peer_max (owed (y_enc y) a) = Some a2 /\ same_tab a2 a) as (a2 & E & Hs).
  { rewrite a_run_app, E. cbn [mbind option_bind a_run a_apply]. unfold a_ins. destruct (insert_same a2 a f Hs) as [Hb Ht].
    rewrite (insert_true a f Hc) in Hb. destruct (a_insert a2 f) as [ok a3]. cbn [fst snd] in *. subst ok. eauto. }
  unfold owed. destruct (qe_cap_pending (y_enc y)) eqn:Ep.
  - pose proof (iv_first I Ep) as Ee. cbn [a_run a_apply]. pose proof (iv_cap I). replace (_ <=? peer_max) with true by lia. cbn [mbind option_bind].
    eexists. split; [reflexivity|]. unfold a_set_capacity, a_room, same_tab. cbn [a_dropped a_ents a_cap]. rewrite E2, Ee. cbn [drop_until].
    split; [lia|]. split; [done|]. unfold QPACK_DYN_MAX_CAPACITY. lia.
  - exists a1. split; [done|]. split; [done|]. split; [done|]. apply E3; [done|lia].
Qed.

Lemma owed_plain y a ad pend H : sys_inv peer_max k y a ad pend H -> Forall plain (owed (y_enc y) a) /\ lits (owed (y_enc y) a) = [].
Proof using.
  intros I. pose proof (iv_enc I) as [(base & Hr) _]. pose proof (dr_cap_le _ base a Hr). unfold owed.
  destruct (qe_cap_pending (y_enc y)); [|by split]. split; [|done]. constructor; [|constructor]. split; [|done]. cbn. unfold qint_ok.
  change (2 ^ 63) with 9223372036854775808. lia.
Qed.

Lemma insert_step y a ad pend H f p :
  sys_inv peer_max k y a ad pend H -> field_ok f -> zlen (pl_instr p) = 2024 -> 0 < pl_insert_len p <= zlen (pl_instr p) ->
  take (Z.to_nat (pl_insert_len p)) (pl_instr p) = ins_wires (owed (y_enc y) a ++ [ILiteral f]) -> zlen (ebytes f) + 32 <= a_cap a ->
  cost (a_ents a) + (zlen (ebytes f) + 32) <= a_cap a \/ (qe_pending_acks (y_enc y) = 0 /\ qe_known_received (y_enc y) = qe_total_inserts (y_enc y)) ->
  exists st, qpackenc_commit_field (y_enc y) f = Some st /\
    sys_ok peer_max (k + 1) (mk_qsys st (y_wire y ++ take (Z.to_nat (pl_insert_len p)) (pl_instr p)) (y_dec y) (y_reported y) (y_incs y) (y_secs y) (y_acks y)).
Proof using All.
  intros I Hf Hz Hlen Ew Hc Hevict. unfold qpackenc_commit_field. pose proof (inserts_eq _ a (iv_enc I)) as Ei. pose proof (iv_a I) as Hh.
  pose proof Hh as (Ha0 & Han & _). pose proof (iv_history I). unfold span_max in Hbound.
  destruct (insert_spec _ a f (iv_enc I) Hf ltac:(unfold span_max; lia)) as (t' & E & Ht'). rewrite E. osimpl.
  eexists. split; [reflexivity|]. destruct (insert_run y a ad pend H f I Hf Hc) as (a1 & Er & E1 & E2 & E3).
  destruct (owed_plain y a ad pend H I) as [Hop Hol]. pose proof (known_le y a ad pend H I) as [Hkn Hin]. pose proof (zlen_nonneg H).
  assert (zlen (H ++ [f]) = zlen H + 1) as HzH by (rewrite zlen_app, zlen_cons; change (zlen (@nil qpack_field)) with 0; lia).
  assert (hist (a_insert a f).2 (zlen H + 1) (H ++ [f])) as Hh'.
  { apply hist_insert; [by apply hist_ext| |by apply insert_true]. rewrite load_app_r, Z.sub_diag by lia. done. }
  exists (a_insert a f).2, ad, (pend ++ owed (y_enc y) a ++ [ILiteral f]), (H ++ [f]). destruct (insert_cap a f) as [Ec Em].
  pose proof (iv_wire_len I). pose proof (iv_pending I) as Hpend. pose proof (zlen_nonneg (y_secs y)).
  split; cbn [y_enc y_wire y_dec y_reported y_incs y_secs y_acks qe_dyn qe_total_inserts qe_known_received qe_pending_acks qe_cap_pending];
    rewrite ?Ec, ?Em, ?HzH; try (destruct I; auto; done); try (destruct I; lia).
  - destruct I. apply Forall_app. split; [done|]. by constructor.
  - destruct I. by apply hist_ext.
  - rewrite Ew, (iv_wire I). by rewrite !ins_wires_app.
  - apply Forall_app. split; [by destruct I|]. apply Forall_app. split; [done|]. constructor; [|constructor]. split; [|done]. destruct Hf as (? & ? & _). by split.
  - rewrite !lits_app, Hol, (iv_lits I). cbn. rewrite drop_app_le; [done|]. unfold zlen in *. lia.
  - exists a1. split; [done|]. split; [done|]. split; [done|]. intros _ _. by rewrite E3.
  - rewrite (iv_total I). rewrite u64_small; lia.
  - destruct Hevict as [Hfit|[Hp0 _]].
    + rewrite (insert_no_evict a f Hfit) in *. pose proof (iv_secs I) as Hsec. revert Hsec. apply List.Forall_impl. intros s (abs & ? & ? & Hl & ?).
      exists abs. do 2 (split; [done|]). split; [|by rewrite insert_no_evict]. pose proof (load_Some _ _ _ Hl). by rewrite load_app_l by lia.
    + assert (y_secs y = []) as ->; [|constructor]. destruct (y_secs y); [done|]. rewrite zlen_cons in Hpend. pose proof (zlen_nonneg l). lia.
  - rewrite zlen_app, zlen_take by lia. lia.
Qed.

(** A section that refers to an acknowledged entry. *)
Lemma ref_step y a ad pend H f p :
  sys_inv peer_max k y a ad pend H -> load (a_ents a) (pl_abs_index p - a_dropped a) = Some f -> pl_abs_index p < qe_known_received (y_enc y) ->
  exists ric, qpack_ric_encode (u64 (pl_abs_index p + 1)) (max_entries_of (y_enc y)) = Some ric /\
    sys_ok peer_max (k + 1) (mk_qsys (qpackenc_note_sent (y_enc y) ric) (y_wire y) (y_dec y) (y_reported y) (y_incs y)
            (y_secs y ++ [mk_sec ric [128] f]) (y_acks y)).
Proof using All.
  intros I Hl Hknown. set (abs := pl_abs_index p) in *. pose proof (known_le y a ad pend H I) as [Hkn Hin]. pose proof (iv_a I) as Hh.
  pose proof Hh as (Ha0 & Han & _). pose proof (load_Some _ _ _ Hl) as Hab. pose proof (iv_history I). unfold span_max in Hbound.
  destruct (max_entries_pos y a ad pend H I ltac:(lia)) as [HM HM2]. pose proof (iv_enc I) as [(base & Hr) _].
  unfold max_entries_of. rewrite (dr_max _ base a Hr), (iv_max I), u64_small by lia.
  destruct (ric_code (abs + 1) (peer_max / 32) (abs + 1) ltac:(lia) ltac:(lia) ltac:(lia) ltac:(lia)) as (ric & E & _). exists ric. split; [done|].
  pose proof (ric_encode_pos (abs + 1) (peer_max / 32) ric ltac:(lia) ltac:(lia) E) as Hnz. unfold qpackenc_note_sent. replace (ric =? 0) with false by lia. cbn [negb].
  rewrite (hist_load a _ H abs Hh) in Hl by lia. pose proof (iv_pending I).
  exists a, ad, pend, H. rewrite u64_small by (pose proof (zlen_nonneg (y_secs y)); lia).
  destruct I. split; cbn [y_enc y_wire y_dec y_reported y_incs y_secs y_acks qe_dyn qe_total_inserts qe_known_received qe_pending_acks qe_cap_pending]; auto; try lia.
  - apply Forall_app. split; [done|]. constructor; [|constructor]. exists abs. cbn [sc_ric sc_line sc_field]. do 3 (split; [done|]). lia.
  - rewrite zlen_app, zlen_cons. change (zlen (@nil section)) with 0. lia.
Qed.

Lemma field_step y a ad pend H f p0 :
  sys_inv peer_max k y a ad pend H -> field_ok f -> zlen (pl_instr p0) = 2024 ->
  exists y', sys_field y f p0 = Some y' /\ sys_ok peer_max (k + 1) y'.
Proof using All.
  intros I Hf Hz. pose proof (iv_a I) as Hh. pose proof Hh as (_ & Han & _). pose proof (iv_history I).
  destruct (plan_field_spec (y_enc y) a f p0 (iv_enc I) (hist_fields _ _ H Hh (iv_fields I)) Hf ltac:(unfold span_max in *; lia) Hz) as (p & Ep & Hzp & Hp).
  unfold sys_field. rewrite Ep. cbn [mbind option_bind]. destruct Hp as [_ Hu Hl Hk2|Hp0 Hu|Hu Ew Hlen Hc Hev]; rewrite Hu.
  - change (qdyn_indexed_dynamic 0 (replicate 64 0)) with (Some (1, 128 :: replicate 63 0)). cbn [mbind option_bind].
    destruct (ref_step y a ad pend H f p I Hl Hk2) as (ric & -> & Hok). cbn [mbind option_bind]. eexists. split; [reflexivity|exact Hok].
  - rewrite Hp0. exists y. split; [done|]. exists a, ad, pend, H. destruct I. split; auto; lia.
  - replace (pl_insert_len p =? 0) with false by lia. destruct (insert_step y a ad pend H f p I Hf Hzp Hlen Ew Hc Hev) as (st & -> & Hok).
    cbn [mbind option_bind]. eauto.
Qed.

Definition qop_ok (o : qop) : Prop := match o with QField f p0 => field_ok f /\ zlen (pl_instr p0) = 2024 | _ => True end.

Lemma step_ok y o : sys_ok peer_max k y -> qop_ok o -> exists y', sys_step peer_max y o = Some y' /\ sys_ok peer_max (k + 1) y'.
Proof using All.
  intros (a & ad & pend & H & I) Ho. destruct o as [f p0| | | |j|j|]; cbn [sys_step].
  - destruct Ho as [Hf Hz]. by apply (field_step y a ad pend H).
  - by apply (deliver_step y a ad pend H).
  - eexists. split; [reflexivity|]. by apply (report_step y a ad pend H).
  - by apply (increment_step y a ad pend H).
  - by apply (decode_step y a ad pend H).
  - eexists. split; [reflexivity|]. by apply (cancel_step y a ad pend H).
  - by apply (ack_step y a ad pend H).
Qed.
End steps.

Lemma run_ok peer_max ops : is_u64 peer_max -> forall k y, 0 <= k -> 4096 * (k + zlen ops) < span_max ->
  Forall qop_ok ops -> sys_ok peer_max k y -> exists y', sys_run peer_max y ops = Some y' /\ sys_ok peer_max (k + zlen ops) y'.
Proof.
  intros Hpm. induction ops as [|o ops IH]; intros k y Hk Hb Hops Hy; [exists y; split; [done|]; by rewrite Z.add_0_r|].
  apply Forall_cons_1 in Hops as [Ho Hops]. rewrite zlen_cons in *. pose proof (zlen_nonneg ops).
  destruct (step_ok peer_max k Hpm Hk ltac:(lia) y o Hy Ho) as (y' & E & Hy'). cbn [sys_run]. rewrite E. cbn [mbind option_bind].
  replace (k + (1 + zlen ops)) with ((k + 1) + zlen ops) by lia. apply IH; [lia|lia|done|done].
Qed.

Lemma init_ok st0 t0 peer_max c :
  zlen (d_bytes (qe_dyn st0)) = 4032 -> zlen (d_ring (qe_dyn st0)) = 63 -> zlen (d_bytes t0) = 4032 -> zlen (d_ring t0) = 63 ->
  is_u64 peer_max -> 0 <= c <= peer_max -> exists y, sys_init st0 t0 peer_max c = Some y /\ sys_ok peer_max 0 y.
Proof.
  intros H1 H2 H3 H4 Hpm Hc. unfold is_u64 in Hpm. unfold sys_init, qpackenc_peer_capacity. cbn [qpackenc_init qe_dyn qe_total_inserts qe_known_received qe_pending_acks].
  assert (u64_min peer_max QPACKENC_LOCAL_CAP = Z.min peer_max 2016) as Emin by (unfold u64_min, QPACKENC_LOCAL_CAP, QPACK_DYN_MAX_CAPACITY; bcases; lia).
  destruct (set_capacity_spec _ _ (u64_min peer_max QPACKENC_LOCAL_CAP) (init_spec (qe_dyn st0) 0 H1 H2 ltac:(lia))) as (t & E & (base & Hr) & Hcost);
    [rewrite Emin; lia|done|]. unfold qpackenc_init. cbn [qe_dyn]. rewrite E. cbn [mbind option_bind]. rewrite Emin in *. unfold a_set_capacity, a_room in *. cbn [a_ents a_dropped a_max drop_until] in *.
  set (cap := Z.min (Z.min peer_max 2016) QPACK_DYN_MAX_CAPACITY) in *. assert (cap <= peer_max) as Hcap by (subst cap; lia).
  eexists. split; [reflexivity|]. pose proof (init_spec t0 c H3 H4 ltac:(lia)) as Hd.
  exists (mk_dtable 0 [] cap peer_max), (mk_dtable 0 [] (Z.min c 2016) (Z.min c 2016)), [], [].
  assert (dyn_ok (mk_dyn (d_bytes t) (d_ring t) (d_head t) (d_count t) (d_tail t) (d_dropped t) (d_size t) (d_capacity t) peer_max) (mk_dtable 0 [] cap peer_max)) as He.
  { split; [|exact Hcost]. exists base. destruct Hr. split; auto. }
  split; cbn [y_enc y_wire y_dec y_reported y_incs y_secs y_acks qe_dyn qe_total_inserts qe_known_received qe_pending_acks qe_cap_pending]; try done; try lia.
  - exists (mk_dtable 0 [] (Z.min c 2016) (Z.min c 2016)). split; [done|]. split; [done|]. split; [done|]. rewrite (dr_cap t base _ Hr). cbn [a_cap].
    destruct (cap =? 0) eqn:E0; [lia|done].
  - cbn. lia.
Qed.

Lemma plain_wire_pos i : plain i -> 0 < zlen (qins_wire i).
Proof.
  intros [_ Hp]. destruct i as [c| |f|]; try done; cbn [qins_wire]; [apply qint_wire_pos|].
  rewrite zlen_app. pose proof (qstr_wire_pos (mk_pfx 5 64) (f_name f)). pose proof (zlen_nonneg (qstr_wire (mk_pfx 7 0) (f_value f))). lia.
Qed.

(** Once the encoder stream is drained, both tables answer alike. *)
Lemma drained_agree peer_max k y : sys_ok peer_max k y -> k < span_max -> y_wire y = [] ->
  forall i, is_u64 i -> qpack_dyn_get (Some (y_dec y)) i = qpack_dyn_get (Some (qe_dyn (y_enc y))) i.
Proof.
  intros (a & ad & pend & H & I) Hk Ew i Hi. pose proof (iv_wire I) as Ep. rewrite Ew in Ep. pose proof (iv_history I).
  assert (pend = []) as Epend.
  { destruct pend as [|j rest]; [done|]. pose proof (iv_plain I) as Hp. apply Forall_cons_1 in Hp as [Hj _]. apply plain_wire_pos in Hj.
    apply (f_equal zlen) in Ep. unfold ins_wires in Ep. cbn [map concat] in Ep. rewrite zlen_app in Ep. change (zlen (@nil Z)) with 0 in Ep. pose proof (zlen_nonneg (concat (map qins_wire rest))). lia. }
  subst pend. destruct (iv_run I) as (a1 & [= <-] & E1 & E2 & _). pose proof (iv_a I) as (_ & Ha & _). pose proof (known_le _ _ y a ad [] H I) as [_ Hin].
  rewrite (get_spec _ ad), (get_spec _ a); [|apply I|lia|done|apply I|rewrite E1, E2; lia|done]. unfold a_get. by rewrite E1, E2.
Qed.

(** C11: the server's QPACK encoder and a decoder never fall out of step.  Start with the peer's SETTINGS applied to the
    encoder and an empty decoder table, and let the encoder code fields (inserting them or referring to entries) while
    encoder stream instructions, Insert Count Increments, field sections, cancellations and Section Acknowledgments are
    delivered in any order, sections out of order included: no step faults or fails, so the decoder accepts every
    instruction, every increment and acknowledgement is valid, and every section in flight decodes at once, to the
    field it was coded from, because the entry it refers to is acknowledged and stays in the decoder's table until the
    section is.  The counts stay ordered, and when the encoder stream is drained the two tables hold the same entries. *)
Theorem qpack_ends_in_step (st0 : qpackenc_state) (t0 : qpack_dyn) (peer_max c : Z) (ops : list qop) :
  zlen (d_bytes (qe_dyn st0)) = 4032 -> zlen (d_ring (qe_dyn st0)) = 63 -> zlen (d_bytes t0) = 4032 -> zlen (d_ring t0) = 63 ->
  is_u64 peer_max -> 0 <= c <= peer_max -> Forall qop_ok ops -> 8192 * zlen ops < span_max ->
  exists y0 y, sys_init st0 t0 peer_max c = Some y0 /\ sys_run peer_max y0 ops = Some y /\
    qe_known_received (y_enc y) <= inserts (y_dec y) <= qe_total_inserts (y_enc y) /\
    (forall s, s ∈ y_secs y -> section_decodes peer_max (y_dec y) s = true) /\
    (y_wire y = [] -> forall i, is_u64 i -> qpack_dyn_get (Some (y_dec y)) i = qpack_dyn_get (Some (qe_dyn (y_enc y))) i).
Proof.
  intros H1 H2 H3 H4 Hpm Hc Hops Hlen. pose proof (zlen_nonneg ops) as Hnn. destruct (init_ok st0 t0 peer_max c H1 H2 H3 H4 Hpm Hc) as (y0 & E0 & Hy0).
  destruct (run_ok peer_max ops Hpm 0 y0 ltac:(lia) ltac:(lia) Hops Hy0) as (y & E & Hy). exists y0, y. split; [done|]. split; [done|].
  pose proof Hy as (a & ad & pend & H & I). pose proof (known_le _ _ y a ad pend H I) as [Hk1 Hk2]. rewrite (iv_total I). split; [lia|]. split.
  - intros s Hs. apply (section_in_flight peer_max (0 + zlen ops) Hpm ltac:(lia) ltac:(unfold span_max in *; lia) y a ad pend H I s Hs).
  - apply (drained_agree peer_max (0 + zlen ops)); [done|unfold span_max in *; lia].
Qed.

Definition sync_field : qpack_field := mk_field [120] [50; 48; 49].
Definition sync_ops : list qop :=
  let p := mk_plan (replicate 2024 0) 9 9 true in
  [QField sync_field p; QDeliver; QField sync_field p; QReport; QDeliver; QReport; QIncrement; QField sync_field p;
   QField (mk_field [121] []) p; QDecode 0; QDeliver; QAck].

Lemma qpack_ends_in_step_witness :
  let d := mk_dyn (replicate 4032 7) (replicate 63 (mk_entry 9 9 9)) 5 5 5 5 5 5 5 in
  exists y0 y, sys_init (mk_qes d 5 5 5 true) d 4096 0 = Some y0 /\ sys_run 4096 y0 sync_ops = Some y /\ qe_known_received (y_enc y) = 1.
Proof.
  intros d. destruct (qpack_ends_in_step (mk_qes d 5 5 5 true) d 4096 0 sync_ops) as (y0 & y & E0 & E & _).
  - reflexivity.
  - reflexivity.
  - reflexivity.
  - reflexivity.
  - vm_compute. split; congruence.
  - lia.
  - repeat (constructor; [repeat split; try (repeat constructor); vm_compute; congruence|]). constructor.
  - vm_compute. reflexivity.
  - exists y0, y. split; [exact E0|]. split; [exact E|]. vm_compute in E0. injection E0 as <-. vm_compute in E. injection E as <-. reflexivity.
Defined.
