(* ===== verification/QpackRx.v ===== *)
(** * The peer's QPACK encoder stream, reassembled

    src/src/app/qpack/qpackdyn/enc_stream_rx.c and enc_stream_qdyn.c: a window
    of the stream's octets with a bitmap of those received, the identification
    of the stream by its leading type, and the application of every whole
    instruction that has become contiguous. *)

From Stdlib Require Import String.
From stdpp Require Import base numbers list option.
From Stdlib Require Import ZArith Lia.
From S2P Require Import Prelude Bytes Varint QpackHuff QpackStr ConnTable QpackTable QpackDyn QpackEnc.

(** ** The window *)

(* src/src/app/qpack/qpackdyn/enc_stream.h : QDYN_ENCRX_CAP *)
Definition QDYN_ENCRX_CAP : Z := 49152.

(* src/src/app/qpack/qpackdyn/enc_stream.h : qdyn_encrx *)
Record qdyn_encrx := mk_encrx { er_buf : list Z; er_have : list Z; er_base : Z; er_hi : Z; er_stream_id : Z; er_type_len : Z }.

(* src/src/common/bytes/util/bytes.h : bytes_move_down *)
Fixpoint bytes_move_down (buf : list Z) (d s : Z) (n : nat) : option (list Z) :=
  match n with
  | O => Some buf
  | S n' => v ← load buf s; buf ← store buf d v; bytes_move_down buf (d + 1) (s + 1) n'
  end.

(** The part of the data not yet consumed. *)
(* src/src/app/qpack/qpackdyn/enc_stream_rx.c : rx_trim *)
Definition rx_trim (rx : qdyn_encrx) (off : Z) (d : list Z) : option (Z * list Z) :=
  let drp := if off <? er_base rx then er_base rx - off else 0 in
  if zlen d <=? drp then None else Some (u64 (off + drp), drop (Z.to_nat drp) d).

(* src/src/app/qpack/qpackdyn/enc_stream_rx.c : qdyn_rx_has *)
Definition qdyn_rx_has (have : list Z) (i : Z) : option bool :=
  b ← load have (i / 8); Some (negb (Z.land (Z.shiftr b (i mod 8)) 1 =? 0)).

(* src/src/app/qpack/qpackdyn/enc_stream_rx.c : rx_mark *)
Definition rx_mark (have : list Z) (i : Z) (v : bool) : option (list Z) :=
  let m := u8 (Z.shiftl 1 (i mod 8)) in
  b ← load have (i / 8);
  store have (i / 8) (u8 (Z.lor (Z.land b (Z.lnot m)) (if v then m else 0))).

Fixpoint mark_from (have : list Z) (i : Z) (n : nat) : option (list Z) :=
  match n with
  | O => Some have
  | S n' => have ← rx_mark have i true; mark_from have (i + 1) n'
  end.

(** C's 1/0 with the window. *)
(* src/src/app/qpack/qpackdyn/enc_stream_rx.c : rx_store *)
Definition rx_store (rx : qdyn_encrx) (off : Z) (d : list Z) : option (bool * qdyn_encrx) :=
  let at_ := u64 (off - er_base rx) in
  if QDYN_ENCRX_CAP <? u64 (at_ + zlen d) then Some (false, rx)
  else
    buf ← copy (er_buf rx) at_ d 0 (length d);
    have ← mark_from (er_have rx) at_ (length d);
    Some (true, mk_encrx buf have (er_base rx) (u64_max (er_hi rx) (u64 (at_ + zlen d))) (er_stream_id rx) (er_type_len rx)).

(* src/src/app/qpack/qpackdyn/enc_stream_rx.c : qdyn_rx_land *)
Definition qdyn_rx_land (rx : qdyn_encrx) (off : Z) (d : list Z) : option (bool * qdyn_encrx) :=
  match rx_trim rx off d with None => Some (true, rx) | Some (off, d) => rx_store rx off d end.

(** ** The contiguous octets *)

Fixpoint ready_loop (fuel : nat) (rx : qdyn_encrx) (n : Z) : option Z :=
  if n <? er_hi rx then
    h ← qdyn_rx_has (er_have rx) n;
    if (h : bool) then match fuel with O => None | S f => ready_loop f rx (n + 1) end else Some n
  else Some n.

(** The count stops at [hi], so that many rounds suffice. *)
(* src/src/app/qpack/qpackdyn/enc_stream_qdyn.c : qdyn_encrx_ready *)
Definition qdyn_encrx_ready (rx : qdyn_encrx) : option Z := ready_loop (Z.to_nat (er_hi rx)) rx 0.

(** The do loop: octets consumed, the table, the error code. *)
Fixpoint rx_apply_loop (fuel : nat) (bytes : list Z) (used : Z) (t : qpack_dyn) (max err : Z) : option (Z * qpack_dyn * Z) :=
  match fuel with
  | O => None
  | S f =>
      '(n, t, err) ← qdyn_enc_apply (drop (Z.to_nat used) bytes) t max err;
      if n =? 0 then Some (used, t, err) else rx_apply_loop f bytes (used + n) t max err
  end.

(** Each round but the last consumes an octet. *)
(* src/src/app/qpack/qpackdyn/enc_stream_qdyn.c : rx_apply *)
Definition rx_apply (rx : qdyn_encrx) (t : qpack_dyn) (max err : Z) : option (Z * qpack_dyn * Z) :=
  ready ← qdyn_encrx_ready rx;
  bytes ← view (er_buf rx) 0 ready;
  rx_apply_loop (S (Z.to_nat ready)) bytes 0 t max err.

(* src/src/app/qpack/qpackdyn/enc_stream_qdyn.c : rx_have_byte *)
Definition rx_have_byte (have : list Z) (i bytes : Z) : option Z := if i <? bytes then load have i else Some 0.

Fixpoint shift_loop (n : nat) (have : list Z) (i q r bytes : Z) : option (list Z) :=
  match n with
  | O => Some have
  | S n' =>
      a ← rx_have_byte have (i + q) bytes;
      b ← rx_have_byte have (i + q + 1) bytes;
      have ← store have i (u8 (Z.lor (Z.shiftr a r) (Z.shiftl b (8 - r))));
      shift_loop n' have (i + 1) q r bytes
  end.

(* src/src/app/qpack/qpackdyn/enc_stream_qdyn.c : rx_shift_marks *)
Definition rx_shift_marks (have : list Z) (hi n : Z) : option (list Z) :=
  let bytes := (hi + 7) / 8 in shift_loop (Z.to_nat bytes) have 0 (n / 8) (n mod 8) bytes.

(* src/src/app/qpack/qpackdyn/enc_stream_qdyn.c : rx_slide *)
Definition rx_slide (rx : qdyn_encrx) (n : Z) : option qdyn_encrx :=
  if n =? 0 then Some rx
  else
    buf ← bytes_move_down (er_buf rx) 0 n (Z.to_nat (er_hi rx - n));
    have ← rx_shift_marks (er_have rx) (er_hi rx) n;
    Some (mk_encrx buf have (u64 (er_base rx + n)) (er_hi rx - n) (er_stream_id rx) (er_type_len rx)).

(* src/src/app/qpack/qpackdyn/enc_stream_qdyn.c : qdyn_encrx_take *)
Definition qdyn_encrx_take (rx : qdyn_encrx) (stream_id : Z) : option qdyn_encrx :=
  have ← bytes_memset (er_have rx) 0 0 ((er_hi rx + 7) / 8);
  Some (mk_encrx (er_buf rx) have 0 0 stream_id 0).

(** ** Identification and feeding *)

(* src/src/app/qpack/qpackdyn/enc_stream_qdyn.c : qdyn_encrx_identify *)
Definition qdyn_encrx_identify (rx : qdyn_encrx) : option qdyn_encrx :=
  ready ← qdyn_encrx_ready rx;
  bytes ← view (er_buf rx) 0 ready;
  match varint_take bytes 0 with
  | Oob => None
  | Fail => Some rx
  | Ok (v, n) =>
      if negb (v =? QDYN_ENC_STREAM_TYPE) then qdyn_encrx_take rx 0
      else rx_slide (mk_encrx (er_buf rx) (er_have rx) (er_base rx) (er_hi rx) (er_stream_id rx) n) n
  end.

(* src/src/app/qpack/qpackdyn/enc_stream_qdyn.c : qdyn_encrx_settle *)
Definition qdyn_encrx_settle (rx : qdyn_encrx) (t : qpack_dyn) (max err : Z) : option (qdyn_encrx * qpack_dyn * Z) :=
  rx ← (if er_type_len rx =? 0 then qdyn_encrx_identify rx else Some rx);
  if negb (er_type_len rx =? 0) then
    '(used, t, err) ← rx_apply rx t max err;
    rx ← rx_slide rx used;
    Some (rx, t, err)
  else Some (rx, t, err).

(* src/src/app/qpack/qpackdyn/enc_stream_qdyn.c : qdyn_encrx_overflow *)
Definition qdyn_encrx_overflow (rx : qdyn_encrx) : Z := if negb (er_type_len rx =? 0) then QPACK_ENCODER_STREAM_ERROR else 0.

(** C's 1/0, the window, the table and the error code. *)
(* src/src/app/qpack/qpackdyn/enc_stream_qdyn.c : qdyn_encrx_feed *)
Definition qdyn_encrx_feed (rx : qdyn_encrx) (off : Z) (d : list Z) (t : qpack_dyn) (max err : Z)
    : option (bool * qdyn_encrx * qpack_dyn * Z) :=
  '(ok, rx) ← qdyn_rx_land rx off d;
  '(rx, t, e) ← (if (ok : bool) then qdyn_encrx_settle rx t max 0 else Some (rx, t, qdyn_encrx_overflow rx));
  Some (e =? 0, rx, t, if negb (e =? 0) then e else err).

(* src/src/app/qpack/qpackdyn/enc_stream_qdyn.c : qdyn_encrx_credit *)
Definition qdyn_encrx_credit (rx : qdyn_encrx) : Z := u64 (er_base rx + QDYN_ENCRX_CAP).

(** ** The bitmap *)

Definition bit_at (have : list Z) (i : Z) : bool := match load have (i / 8) with Some b => Z.testbit b (i mod 8) | None => false end.

Lemma land_1_bit x : (Z.land x 1 =? 0) = negb (Z.testbit x 0).
Proof.
  change 1 with (Z.ones 1). rewrite Z.land_ones, Z.bit0_odd by lia. change (2 ^ 1) with 2. rewrite Zmod_odd. by destruct (Z.odd x).
Qed.

Lemma u8_testbit x k : 0 <= k < 8 -> Z.testbit (u8 x) k = Z.testbit x k.
Proof. intros Hk. unfold u8. change 256 with (2 ^ 8). apply Z.mod_pow2_bits_low. lia. Qed.

Lemma u8_high b k : is_u8 b -> 8 <= k -> Z.testbit b k = false.
Proof.
  intros Hb Hk. unfold is_u8 in Hb. destruct (Z.eq_dec b 0) as [->|Hnz]; [apply Z.bits_0|]. apply Z.bits_above_log2; [lia|].
  assert (Z.log2 b < 8); [|lia]. apply Z.log2_lt_pow2; [lia|]. change (2 ^ 8) with 256. lia.
Qed.

Lemma has_spec have i : 0 <= i < 8 * zlen have -> qdyn_rx_has have i = Some (bit_at have i).
Proof.
  intros Hi. unfold qdyn_rx_has, bit_at. destruct (load_is_Some have (i / 8)) as [b ->].
  { split; [apply Z.div_pos; lia|apply Z.div_lt_upper_bound; lia]. }
  cbn [mbind option_bind]. pose proof (Z.mod_pos_bound i 8 ltac:(lia)). rewrite land_1_bit, Z.shiftr_spec, negb_involutive by lia. do 2 f_equal.
Qed.

Lemma mark_byte b k j : 0 <= k < 8 -> 0 <= j < 8 ->
  Z.testbit (u8 (Z.lor (Z.land b (Z.lnot (u8 (Z.shiftl 1 k)))) (u8 (Z.shiftl 1 k)))) j = Z.testbit b j || (j =? k).
Proof.
  intros Hk Hj. rewrite u8_testbit, Z.lor_spec, Z.land_spec, Z.lnot_spec, !u8_testbit by lia. rewrite !Z.shiftl_spec by lia.
  replace (Z.testbit 1 (j - k)) with (j =? k).
  - destruct (Z.testbit b j), (j =? k); done.
  - destruct (j =? k) eqn:E; [replace (j - k) with 0 by lia; done|]. destruct (Z.ltb_spec (j - k) 0); [by rewrite Z.testbit_neg_r by lia|].
    symmetry. change 1 with (2 ^ 0). apply Z.pow2_bits_false. lia.
Qed.

Lemma div_mod_8 i j : 0 <= i -> 0 <= j -> (i / 8 = j / 8 /\ i mod 8 = j mod 8) <-> i = j.
Proof. intros Hi Hj. split; [intros [H1 H2]; rewrite (Z.div_mod i 8), (Z.div_mod j 8) by lia; lia|by intros ->]. Qed.

Lemma mark_spec have i :
  0 <= i < 8 * zlen have ->
  exists have', rx_mark have i true = Some have' /\ zlen have' = zlen have /\ (bytes_ok have -> bytes_ok have') /\
    forall j, 0 <= j -> bit_at have' j = bit_at have j || (j =? i).
Proof.
  intros Hi. unfold rx_mark. assert (0 <= i / 8 < zlen have) as Hd by (split; [apply Z.div_pos; lia|apply Z.div_lt_upper_bound; lia]).
  destruct (load_is_Some have (i / 8) Hd) as [b Hb]. rewrite Hb. cbn [mbind option_bind]. rewrite store_in by lia. eexists. split; [reflexivity|].
  split; [apply zlen_insert|]. split; [intros Hok; apply Forall_insert; [done|apply u8_range]|].
  intros j Hj. unfold bit_at. pose proof (Z.mod_pos_bound i 8 ltac:(lia)). pose proof (Z.mod_pos_bound j 8 ltac:(lia)).
  rewrite load_insert by lia. destruct (decide (j / 8 = i / 8)) as [E|E].
  - rewrite E. replace (i / 8 =? i / 8) with true by lia. rewrite Hb. rewrite mark_byte by lia. f_equal.
    destruct (Z.eqb_spec (j mod 8) (i mod 8)), (Z.eqb_spec j i); try done; exfalso; [apply n; apply (proj1 (div_mod_8 j i ltac:(lia) ltac:(lia))); done|congruence].
  - replace (j / 8 =? i / 8) with false by lia. destruct (Z.eqb_spec j i); [congruence|]. by rewrite orb_false_r.
Qed.

Lemma mark_from_spec n : forall have i,
  0 <= i -> i + Z.of_nat n <= 8 * zlen have ->
  exists have', mark_from have i n = Some have' /\ zlen have' = zlen have /\ (bytes_ok have -> bytes_ok have') /\
    forall j, 0 <= j -> bit_at have' j = bit_at have j || ((i <=? j) && (j <? i + Z.of_nat n)).
Proof.
  induction n as [|n IH]; intros have i Hi Hn.
  { exists have. split; [done|]. split; [done|]. split; [done|]. intros j Hj. change (Z.of_nat 0) with 0. replace (_ && _) with false by lia. by rewrite orb_false_r. }
  cbn [mark_from]. destruct (mark_spec have i ltac:(lia)) as (h1 & -> & Hz1 & Hb1 & H1). cbn [mbind option_bind].
  destruct (IH h1 (i + 1) ltac:(lia) ltac:(lia)) as (h2 & -> & Hz2 & Hb2 & H2). exists h2. split; [done|]. split; [lia|]. split; [auto|]. intros j Hj.
  rewrite H2, H1, <- orb_assoc by lia. f_equal. rewrite Nat2Z.inj_succ. pose proof (Zle_0_nat n).
  apply eq_true_iff_eq. rewrite orb_true_iff, !andb_true_iff, Z.eqb_eq, !Z.leb_le, !Z.ltb_lt. lia.
Qed.

(** The mark byte [k] of the first [bytes]. *)
Definition mbyte (have : list Z) (k bytes : Z) : Z := if k <? bytes then match load have k with Some b => b | None => 0 end else 0.

Lemma have_byte_spec have k bytes : 0 <= k -> bytes <= zlen have -> rx_have_byte have k bytes = Some (mbyte have k bytes).
Proof.
  intros Hk Hb. unfold rx_have_byte, mbyte. destruct (k <? bytes) eqn:E; [|done]. by destruct (load_is_Some have k ltac:(lia)) as [b ->].
Qed.

Definition shifted (have : list Z) (k q r bytes : Z) : Z :=
  u8 (Z.lor (Z.shiftr (mbyte have (k + q) bytes) r) (Z.shiftl (mbyte have (k + q + 1) bytes) (8 - r))).

Lemma shift_loop_spec n : forall have i q r bytes,
  0 <= i -> 0 <= q -> i + Z.of_nat n = bytes -> bytes <= zlen have ->
  exists have', shift_loop n have i q r bytes = Some have' /\ zlen have' = zlen have /\
    forall k, 0 <= k -> load have' k = if (i <=? k) && (k <? bytes) then Some (shifted have k q r bytes) else load have k.
Proof.
  induction n as [|n IH]; intros have i q r bytes Hi Hq Hn Hb.
  { exists have. split; [done|]. split; [done|]. intros k Hk. by replace (_ && _) with false by lia. }
  cbn [shift_loop]. rewrite !have_byte_spec by lia. cbn [mbind option_bind]. rewrite store_in by lia. cbn [mbind option_bind].
  set (h1 := <[Z.to_nat i := _]> have). assert (zlen h1 = zlen have) as Hz1 by apply zlen_insert.
  destruct (IH h1 (i + 1) q r bytes ltac:(lia) ltac:(lia) ltac:(lia) ltac:(lia)) as (h2 & -> & Hz2 & H2). exists h2. split; [done|]. split; [lia|].
  intros k Hk. rewrite H2 by lia. assert (forall m, i < m -> load h1 m = load have m) as Hlater.
  { intros m Hm. subst h1. rewrite load_insert by lia. by replace (m =? i) with false by lia. }
  destruct ((i + 1 <=? k) && (k <? bytes)) eqn:E.
  - replace ((i <=? k) && (k <? bytes)) with true by lia. f_equal. unfold shifted, mbyte. by rewrite !Hlater by lia.
  - destruct (decide (k = i)) as [->|Hne].
    + replace ((i <=? i) && (i <? bytes)) with true by lia. subst h1. rewrite load_insert by lia. by rewrite Z.eqb_refl.
    + replace ((i <=? k) && (k <? bytes)) with false by lia. subst h1. rewrite load_insert by lia. by replace (k =? i) with false by lia.
Qed.

Lemma shifted_bit a b r j : is_u8 a -> 0 <= r < 8 -> 0 <= j < 8 ->
  Z.testbit (u8 (Z.lor (Z.shiftr a r) (Z.shiftl b (8 - r)))) j = if j + r <? 8 then Z.testbit a (j + r) else Z.testbit b (j + r - 8).
Proof.
  intros Ha Hr Hj. rewrite u8_testbit, Z.lor_spec, Z.shiftr_spec, Z.shiftl_spec by lia. destruct (j + r <? 8) eqn:E.
  - rewrite (Z.testbit_neg_r b) by lia. apply orb_false_r.
  - rewrite (u8_high a) by (done || lia). cbn [orb]. f_equal. lia.
Qed.

Definition have_ok (have : list Z) : Prop := bytes_ok have /\ zlen have = 6144.

(** The marks move down by [n], those above [hi] being clear. *)
Lemma shift_marks_spec have hi n :
  have_ok have -> 0 <= n <= hi -> hi <= 49152 -> (forall i, hi <= i < 49152 -> bit_at have i = false) ->
  exists have', rx_shift_marks have hi n = Some have' /\ have_ok have' /\
    forall i, 0 <= i < 49152 -> bit_at have' i = (i <? hi - n) && bit_at have (i + n).
Proof.
  intros [Hb Hz] Hn Hhi Hclear. unfold rx_shift_marks. set (bytes := (hi + 7) / 8).
  assert (0 <= bytes <= 6144 /\ hi <= 8 * bytes <= hi + 7) as [Hby Hby2].
  { pose proof (Z.div_mod (hi + 7) 8 ltac:(lia)). pose proof (Z.mod_pos_bound (hi + 7) 8 ltac:(lia)). subst bytes. lia. }
  pose proof (Z.mod_pos_bound n 8 ltac:(lia)) as Hr. pose proof (Z.div_mod n 8 ltac:(lia)) as Hnd. assert (0 <= n / 8) as Hq by (apply Z.div_pos; lia).
  destruct (shift_loop_spec (Z.to_nat bytes) have 0 (n / 8) (n mod 8) bytes ltac:(lia) Hq ltac:(lia) ltac:(lia)) as (h' & -> & Hz' & Hl').
  exists h'. split; [done|].
  assert (forall k, is_u8 (mbyte have k bytes)) as Hu8.
  { intros k. unfold mbyte. bcase; [|unfold is_u8; lia]. destruct (load have k) as [b|] eqn:Eb; [|unfold is_u8; lia]. by apply (bytes_ok_lookup have k). }
  assert (forall k j, 0 <= k -> 0 <= j < 8 -> Z.testbit (mbyte have k bytes) j = (k <? bytes) && bit_at have (8 * k + j)) as Hmb.
  { intros k j Hk Hj. unfold mbyte, bit_at. replace ((8 * k + j) / 8) with k by (apply (Z.div_unique _ 8 k j); lia).
    replace ((8 * k + j) mod 8) with j by (apply (Z.mod_unique _ 8 k j); lia).
    destruct (k <? bytes); [|by rewrite Z.bits_0]. cbn [andb]. destruct (load have k); [done|apply Z.bits_0]. }
  split.
  { split; [|lia]. apply Forall_forall. intros x Hx. apply list_elem_of_In, elem_of_load in Hx as (k & Hk). pose proof (load_Some _ _ _ Hk).
    rewrite Hl' in Hk by lia. destruct (_ && _) in Hk; [injection Hk as <-; apply u8_range|]. by apply (bytes_ok_lookup have k). }
  intros i Hi. pose proof (Z.div_mod i 8 ltac:(lia)) as Hid. pose proof (Z.mod_pos_bound i 8 ltac:(lia)) as Him.
  set (k := i / 8) in *. set (j := i mod 8) in *. assert (0 <= k < 6144) as Hk by lia.
  unfold bit_at at 1. fold k j. rewrite Hl' by lia.
  destruct ((0 <=? k) && (k <? bytes)) eqn:Ek.
  - unfold shifted. rewrite shifted_bit by (done || lia). destruct (j + n mod 8 <? 8) eqn:Ec; rewrite Hmb by lia.
    + replace (8 * (k + n / 8) + (j + n mod 8)) with (i + n) by lia. destruct (i <? hi - n) eqn:Eh; [by replace (_ <? bytes) with true by lia|].
      cbn [andb]. destruct (k + n / 8 <? bytes) eqn:Eb; [|done]. apply Hclear. lia.
    + replace (8 * (k + n / 8 + 1) + (j + n mod 8 - 8)) with (i + n) by lia. destruct (i <? hi - n) eqn:Eh; [by replace (_ <? bytes) with true by lia|].
      cbn [andb]. destruct (k + n / 8 + 1 <? bytes) eqn:Eb; [|done]. apply Hclear. lia.
  - replace (i <? hi - n) with false by lia. cbn [andb]. change (bit_at have i = false). apply Hclear. lia.
Qed.

Lemma move_down_spec n : forall buf d s,
  0 <= d <= s -> s + Z.of_nat n <= zlen buf ->
  exists buf', bytes_move_down buf d s n = Some buf' /\ zlen buf' = zlen buf /\
    forall k, 0 <= k -> load buf' k = if (d <=? k) && (k <? d + Z.of_nat n) then load buf (k - d + s) else load buf k.
Proof.
  induction n as [|n IH]; intros buf d s Hd Hn.
  { exists buf. split; [done|]. split; [done|]. intros k Hk. change (Z.of_nat 0) with 0. by replace (_ && _) with false by lia. }
  rewrite Nat2Z.inj_succ in *. unfold Z.succ in *. cbn [bytes_move_down]. destruct (load_is_Some buf s ltac:(lia)) as [v Hv]. rewrite Hv. cbn [mbind option_bind].
  rewrite store_in by lia. cbn [mbind option_bind]. set (b1 := <[Z.to_nat d := v]> buf). assert (zlen b1 = zlen buf) as Hz1 by apply zlen_insert.
  destruct (IH b1 (d + 1) (s + 1) ltac:(lia) ltac:(lia)) as (b2 & -> & Hz2 & H2). exists b2. split; [done|]. split; [lia|]. intros k Hk.
  assert (forall m, load b1 m = if m =? d then Some v else load buf m) as H1 by (intros m; subst b1; by rewrite load_insert by lia).
  rewrite H2, !H1 by lia. pose proof (Zle_0_nat n). remember (Z.of_nat n) as m eqn:Em. destruct ((d + 1 <=? k) && (k <? d + 1 + m)) eqn:E.
  - replace ((d <=? k) && (k <? d + (m + 1))) with true by lia. replace (k - (d + 1) + (s + 1) =? d) with false by lia. f_equal. lia.
  - destruct (decide (k = d)) as [->|Hne].
    + rewrite Z.eqb_refl. replace ((d <=? d) && (d <? d + (m + 1))) with true by lia. rewrite Z.sub_diag, Z.add_0_l. done.
    + replace (k =? d) with false by lia. by replace ((d <=? k) && (k <? d + (m + 1))) with false by lia.
Qed.

(** ** What the window represents

    [S] is the whole stream and [got] the octets of it that have arrived. *)
Record rx_rep (S : list Z) (rx : qdyn_encrx) (got : Z -> bool) : Prop := {
  rp_buf : zlen (er_buf rx) = 49152;
  rp_have : have_ok (er_have rx);
  rp_base : 0 <= er_base rx <= zlen S;
  rp_hi : 0 <= er_hi rx <= 49152;
  rp_bits : forall i, 0 <= i < 49152 -> bit_at (er_have rx) i = got (er_base rx + i);
  rp_data : forall i, 0 <= i < 49152 -> got (er_base rx + i) = true -> load (er_buf rx) i = load S (er_base rx + i);
  rp_clear : forall p, er_base rx + er_hi rx <= p -> got p = false;
  rp_below : forall p, 0 <= p < er_base rx -> got p = true;
  rp_in : forall p, got p = true -> 0 <= p < zlen S }.

Definition add_slice (got : Z -> bool) (off n : Z) : Z -> bool := fun p => got p || ((off <=? p) && (p <? off + n)).

Definition sub (S : list Z) (off n : Z) : list Z := take (Z.to_nat n) (drop (Z.to_nat off) S).

Lemma zlen_sub S off n : 0 <= off -> 0 <= n -> off + n <= zlen S -> zlen (sub S off n) = n.
Proof. intros H1 H2 H3. unfold sub. rewrite zlen_take; [done|]. rewrite zlen_drop; lia. Qed.

Lemma load_sub S off n i : 0 <= off -> 0 <= i < n -> off + n <= zlen S -> load (sub S off n) i = load S (off + i).
Proof.
  intros H1 H2 H3. unfold sub, load. rewrite (proj2 (Z.leb_le 0 i)), (proj2 (Z.leb_le 0 (off + i))) by lia.
  rewrite lookup_take_lt, lookup_drop by lia. f_equal. lia.
Qed.

Lemma sub_drop S off n k : 0 <= off -> 0 <= k <= n -> drop (Z.to_nat k) (sub S off n) = sub S (off + k) (n - k).
Proof.
  intros H1 H2. unfold sub. rewrite skipn_firstn_comm, drop_drop. f_equal; [lia|]. f_equal. lia.
Qed.

(** Octets within the window's credit land. *)
Lemma land_spec S rx got off n :
  rx_rep S rx got -> zlen S < span_max -> 0 <= off -> 0 <= n -> off + n <= zlen S -> off + n <= er_base rx + 49152 ->
  exists rx', qdyn_rx_land rx off (sub S off n) = Some (true, rx') /\ rx_rep S rx' (add_slice got off n) /\
    er_base rx' = er_base rx /\ er_type_len rx' = er_type_len rx /\ er_stream_id rx' = er_stream_id rx.
Proof.
  intros R HS Ho Hn Hs Hc. unfold qdyn_rx_land, rx_trim. rewrite zlen_sub by lia. unfold span_max in HS. pose proof (rp_base _ _ _ R) as Hb.
  set (drp := if off <? er_base rx then er_base rx - off else 0). assert (0 <= drp) as Hdrp by (subst drp; bcases; lia).
  destruct (n <=? drp) eqn:E.
  { exists rx. split; [done|]. split; [|done]. destruct R. assert (forall p, add_slice got off n p = got p) as Hg.
    { intros p. unfold add_slice. destruct ((off <=? p) && (p <? off + n)) eqn:Ep; [|by rewrite orb_false_r].
      rewrite rp_below0; [done|]. subst drp. destruct (off <? er_base rx) eqn:E2; lia. }
    split; auto; intros; rewrite ?Hg in *; auto. }
  rewrite (u64_small (off + drp)) by lia. rewrite sub_drop by lia. unfold rx_store. rewrite zlen_sub by lia.
  rewrite (u64_small (off + drp - er_base rx)) by (subst drp; bcases; lia). set (at_ := off + drp - er_base rx).
  assert (0 <= at_) as Hat by (subst at_ drp; bcases; lia). rewrite u64_small by lia. unfold QDYN_ENCRX_CAP. replace (49152 <? _) with false by lia.
  pose proof (rp_buf _ _ _ R) as Hzb. pose proof (rp_have _ _ _ R) as [Hbh Hzh].
  assert (Z.of_nat (length (sub S (off + drp) (n - drp))) = n - drp) as Hlen by (change (zlen (sub S (off + drp) (n - drp)) = n - drp); apply zlen_sub; lia).
  rewrite copy_spec by (rewrite ?Hlen; try (change (zlen (sub S (off + drp) (n - drp))) with (Z.of_nat (length (sub S (off + drp) (n - drp))))); lia).
  cbn [mbind option_bind]. change (Z.to_nat 0) with 0%nat. rewrite drop_0, firstn_all.
  destruct (mark_from_spec (length (sub S (off + drp) (n - drp))) (er_have rx) at_ Hat ltac:(lia)) as (h' & -> & Hzh' & Hbh' & Hbits). cbn [mbind option_bind].
  eexists. split; [reflexivity|]. split; [|done]. rewrite Hlen in Hbits. set (ds := sub S (off + drp) (n - drp)) in *.
  assert (zlen ds = n - drp) as Hzd by exact Hlen. pose proof (rp_hi _ _ _ R) as Hhi.
  assert (u64_max (er_hi rx) (at_ + (n - drp)) = Z.max (er_hi rx) (at_ + (n - drp))) as Emax by (unfold u64_max; bcases; lia).
  assert (forall p, er_base rx <= p -> add_slice got off n p = got p || ((at_ <=? p - er_base rx) && (p - er_base rx <? at_ + (n - drp)))) as Hadd.
  { intros p Hp. unfold add_slice. f_equal. subst at_ drp. destruct (off <? er_base rx) eqn:E2; apply eq_true_iff_eq; rewrite !andb_true_iff, !Z.leb_le, !Z.ltb_lt; lia. }
  split; cbn [er_buf er_have er_base er_hi]; rewrite ?Emax.
  - rewrite zlen_splice by lia. done.
  - split; [auto|lia].
  - lia.
  - lia.
  - intros i Hi. rewrite Hbits, (rp_bits _ _ _ R), Hadd by lia. by replace (er_base rx + i - er_base rx) with i by lia.
  - intros i Hi Hg. rewrite load_splice by lia. rewrite Hzd. destruct ((at_ <=? i) && (i <? at_ + (n - drp))) eqn:Ei.
    + subst ds. rewrite load_sub by lia. f_equal. subst at_. lia.
    + apply (rp_data _ _ _ R); [lia|]. rewrite Hadd in Hg by lia. replace (er_base rx + i - er_base rx) with i in Hg by lia. by rewrite Ei, orb_false_r in Hg.
  - intros p Hp. rewrite Hadd, (rp_clear _ _ _ R) by lia. cbn [orb]. apply andb_false_intro2. lia.
  - intros p Hp. unfold add_slice. by rewrite (rp_below _ _ _ R) by lia.
  - intros p Hp. unfold add_slice in Hp. apply orb_true_iff in Hp as [Hp|Hp]; [by apply (rp_in _ _ _ R)|lia].
Qed.

(** The octets from the base that are all there. *)
Definition ready_at (rx : qdyn_encrx) (got : Z -> bool) (n : Z) : Prop :=
  0 <= n <= er_hi rx /\ (forall i, 0 <= i < n -> got (er_base rx + i) = true) /\ got (er_base rx + n) = false.

Lemma ready_loop_spec S rx got f : rx_rep S rx got -> forall n,
  0 <= n <= er_hi rx -> er_hi rx - n <= Z.of_nat f -> (forall i, 0 <= i < n -> got (er_base rx + i) = true) ->
  exists m, ready_loop f rx n = Some m /\ ready_at rx got m.
Proof.
  intros R. pose proof (rp_hi _ _ _ R) as Hhi. pose proof (rp_have _ _ _ R) as [_ Hz].
  assert (forall n, 0 <= n < er_hi rx -> qdyn_rx_has (er_have rx) n = Some (got (er_base rx + n))) as Hhas.
  { intros n Hn. rewrite has_spec by lia. by rewrite (rp_bits _ _ _ R) by lia. }
  assert (forall n, 0 <= n <= er_hi rx -> er_hi rx <= n -> (forall i, 0 <= i < n -> got (er_base rx + i) = true) -> ready_at rx got n) as Hend.
  { intros n H1 H2 H3. split; [lia|]. split; [done|]. apply (rp_clear _ _ _ R). lia. }
  induction f as [|f IH]; intros n Hn Hf Hg; cbn [ready_loop].
  - replace (n <? er_hi rx) with false by lia. exists n. split; [done|]. apply Hend; auto; lia.
  - destruct (n <? er_hi rx) eqn:E; [|exists n; split; [done|]; apply Hend; auto; lia]. rewrite Hhas by lia. cbn [mbind option_bind].
    destruct (got (er_base rx + n)) eqn:Eg; [|exists n; split; [done|]; split; [lia|by split]].
    apply IH; [lia|lia|]. intros i Hi. destruct (decide (i = n)) as [->|]; [done|]. apply Hg. lia.
Qed.

Lemma ready_spec S rx got : rx_rep S rx got -> exists n, qdyn_encrx_ready rx = Some n /\ ready_at rx got n /\ view (er_buf rx) 0 n = Some (sub S (er_base rx) n) /\ er_base rx + n <= zlen S.
Proof.
  intros R. pose proof (rp_hi _ _ _ R) as Hhi. destruct (ready_loop_spec S rx got (Z.to_nat (er_hi rx)) R 0 ltac:(lia) ltac:(lia) ltac:(intros; lia)) as (n & E & Hn).
  exists n. split; [done|]. split; [done|]. destruct Hn as (H1 & H2 & H3). pose proof (rp_buf _ _ _ R) as Hz. pose proof (rp_base _ _ _ R) as Hb.
  assert (er_base rx + n <= zlen S) as Hle.
  { destruct (decide (n = 0)) as [->|]; [lia|]. specialize (H2 (n - 1) ltac:(lia)). apply (rp_in _ _ _ R) in H2. lia. }
  split; [|done]. unfold view. rewrite Hz. replace (_ && _) with true by lia. f_equal. change (Z.to_nat 0) with 0%nat. rewrite drop_0.
  assert (zlen (take (Z.to_nat n) (er_buf rx)) = n) as Ht by (apply zlen_take; lia).
  apply load_ext; [rewrite Ht, zlen_sub; lia|]. rewrite Ht. intros i Hi. rewrite load_take, load_sub by lia. apply (rp_data _ _ _ R); [lia|]. apply H2. lia.
Qed.

Lemma slide_spec S rx got n m :
  rx_rep S rx got -> zlen S < span_max -> ready_at rx got m -> 0 <= n <= m -> er_base rx + n <= zlen S ->
  exists rx', rx_slide rx n = Some rx' /\ rx_rep S rx' got /\ er_base rx' = er_base rx + n /\ er_type_len rx' = er_type_len rx /\ er_stream_id rx' = er_stream_id rx.
Proof.
  intros R HS (Hm & Hg & Hno) Hn Hle. unfold rx_slide, span_max in *. destruct (n =? 0) eqn:E0.
  { replace n with 0 by lia. exists rx. split; [done|]. split; [done|]. split; [lia|done]. }
  pose proof (rp_hi _ _ _ R) as Hhi. pose proof (rp_buf _ _ _ R) as Hz. pose proof (rp_base _ _ _ R) as Hb.
  destruct (move_down_spec (Z.to_nat (er_hi rx - n)) (er_buf rx) 0 n ltac:(lia) ltac:(lia)) as (b' & -> & Hzb & Hlb). cbn [mbind option_bind].
  destruct (shift_marks_spec (er_have rx) (er_hi rx) n (rp_have _ _ _ R) ltac:(lia) ltac:(lia)) as (h' & -> & Hh' & Hbits).
  { intros i Hi. rewrite (rp_bits _ _ _ R) by lia. apply (rp_clear _ _ _ R). lia. }
  cbn [mbind option_bind]. rewrite u64_small by lia. eexists. split; [reflexivity|]. split; [|done].
  rewrite Z2Nat.id in Hlb by lia.
  split; cbn [er_buf er_have er_base er_hi]; [lia|done|lia|lia| | | | |apply (rp_in _ _ _ R)].
  - intros i Hi. rewrite Hbits by lia. destruct (i <? er_hi rx - n) eqn:Ei.
    + rewrite (rp_bits _ _ _ R) by lia. cbn [andb]. f_equal. lia.
    + cbn [andb]. symmetry. apply (rp_clear _ _ _ R). lia.
  - intros i Hi Hgi. destruct (decide (i < er_hi rx - n)) as [Hlt|Hge].
    + rewrite Hlb by lia. replace (_ && _) with true by lia. rewrite (rp_data _ _ _ R) by (try lia; rewrite <- Hgi; f_equal; lia). f_equal. lia.
    + rewrite (rp_clear _ _ _ R) in Hgi by lia. done.
  - intros p Hp. apply (rp_clear _ _ _ R). lia.
  - intros p Hp. destruct (decide (p < er_base rx)) as [|]; [apply (rp_below _ _ _ R); lia|]. replace p with (er_base rx + (p - er_base rx)) by lia. apply Hg. lia.
Qed.

(** ** An instruction cut short *)

Lemma enc_instr_cut buf post k v u :
  qpack_enc_instr_decode (buf ++ post) = Ok (k, v, u) -> zlen buf < u -> qpack_enc_instr_decode buf = Fail.
Proof.
  intros E Hu. unfold qpack_enc_instr_decode in *. destruct buf as [|b buf]; [done|]. pose proof (zlen_nonneg buf).
  destruct (instr_decode ((b :: buf) ++ post) enc_specs) as [[[k' v'] u']| |] eqn:Ei; [|done|done].
  injection E as _ _ ->. rewrite (instr_decode_cut enc_specs (b :: buf) post k' v' u); [done|done|done|]. rewrite zlen_cons. lia.
Qed.

Lemma int_cut buf post n v u : qpack_int_decode (buf ++ post) n = Ok (v, u) -> zlen buf < u -> qpack_int_decode buf n = Fail.
Proof.
  intros E Hu. destruct buf as [|b buf]; [done|]. pose proof (zlen_nonneg buf). apply (int_decode_cut _ post _ v u); [done|done|]. rewrite zlen_cons. lia.
Qed.

(** A prefix of one of two parts. *)
Lemma prefix_split {A} (c c' l1 l2 : list A) : c ++ c' = l1 ++ l2 -> (exists r, l1 = c ++ r /\ zlen c < zlen l1) \/ (exists r, c = l1 ++ r /\ r ++ c' = l2).
Proof.
  intros E. destruct (decide (zlen c < zlen l1)) as [Hlt|Hge].
  - left. exists (drop (length c) l1). split; [|done]. assert (take (length c) l1 = c) as Ht; [|by rewrite <- Ht at 1; rewrite take_drop].
    unfold zlen in Hlt. rewrite <- (take_app_le l1 l2) by lia. by rewrite <- E, take_app_length.
  - right. unfold zlen in Hge. assert (take (length l1) c = l1) as Ht.
    { rewrite <- (take_app_le c c') by lia. by rewrite E, take_app_length. }
    exists (drop (length l1) c). split; [by rewrite <- Ht at 1; rewrite take_drop|].
    apply (app_inv_head l1). rewrite <- E, app_assoc. f_equal. by rewrite <- Ht at 1; rewrite take_drop.
Qed.

Lemma str_end_cut p s pre c c' :
  spfx_ok p -> c ++ c' = qstr_wire p s -> 0 < zlen c' -> zlen (pre ++ qstr_wire p s) < span_max ->
  qdyn_enc_str_end (pre ++ c) (zlen pre) (pfx_bits p) = Some 0.
Proof.
  intros Hp Ec Hc Hl. unfold qdyn_enc_str_end. rewrite drop_zlen_app. pose proof (zlen_nonneg pre). pose proof (zlen_nonneg c).
  destruct (str_int_decode p s [] Hp) as (h & E & Ew & Ed); [rewrite app_nil_r; rewrite zlen_app in Hl; lia|]. rewrite app_nil_r in Ed.
  rewrite <- Ec in Hl. rewrite !zlen_app in Hl. unfold span_max in Hl. rewrite Ew in Ec.
  apply prefix_split in Ec as [(r & Er & Hr)|(r & -> & Er)].
  - rewrite Ew, Er, <- app_assoc in Ed. rewrite (int_cut c (r ++ E) _ _ _ Ed); [done|]. by rewrite <- Er.
  - destruct (spfx_pfx p Hp) as (Hp1 & Hp2 & _). assert (pfx_ok (spfx p h)) as Hs by (by destruct h).
    pose proof (zlen_nonneg r). rewrite zlen_app in *. pose proof (zlen_nonneg (qint_wire (spfx p h) (zlen E))).
    assert (zlen E = zlen r + zlen c') as HE by (rewrite <- Er; apply zlen_app).
    destruct (int_decode_dspec (spfx p h) (zlen E) Hs ltac:(apply zlen_qint; unfold span_max; lia) r) as (v & Ev & <-); [rewrite zlen_app; unfold span_max; lia|].
    rewrite spfx_bits in Ev. rewrite Ev, !zlen_app. rewrite (u64_small (_ - zlen pre)), (u64_small (_ - zlen (qint_wire _ _))) by lia.
    by replace (_ <=? _) with false by lia.
Qed.

(** The leading integer of an instruction. *)
Lemma ins_head i post :
  qins_ok i -> zlen (qins_wire i ++ post) < span_max ->
  exists k v h rest, qins_wire i = h ++ rest /\ 0 < zlen h /\
    (forall post', zlen (h ++ post') < span_max -> qpack_enc_instr_decode (h ++ post') = Ok (k, v, zlen h)) /\
    match i with
    | INameRef static idx value => k = QPACK_ENC_INSERT_NAME_REF /\ rest = qstr_wire (mk_pfx 7 0) value
    | ILiteral f => k = QPACK_ENC_INSERT_LITERAL
    | _ => rest = []
    end.
Proof.
  intros Hi Hl. destruct i as [c|static idx value|f|idx]; cbn [qins_wire] in *.
  - exists QPACK_ENC_SET_CAPACITY, c, (qint_wire (mk_pfx 5 32) c), []. split; [by rewrite app_nil_r|]. split; [apply qint_wire_pos|]. split; [|done].
    intros post' Hp. apply enc_int_instr; [pfx_solve|done|done|by eexists; split|].
    cbn [pfx_pattern pfx_bits enc_kind_index]. intros x Hx. change (2 ^ 5) with 32 in Hx. assert (is_u8 (32 + x)) by (unfold is_u8; lia). split; [done|].
    rewrite enc_class_byte by done. replace (128 <=? 32 + x) with false by lia. replace (64 <=? 32 + x) with false by lia. by replace (32 <=? 32 + x) with true by lia.
  - destruct Hi as [Hx Hv]. exists QPACK_ENC_INSERT_NAME_REF, idx, (qint_wire (ref_pfx static) idx), (qstr_wire (mk_pfx 7 0) value). split; [done|].
    split; [apply qint_wire_pos|]. split; [|done]. intros post' Hp. apply enc_int_instr; [destruct static; pfx_solve|done|done|eexists; split; [reflexivity|by destruct static]|].
    intros x Hxx. assert (0 <= x < 64) as Hx' by (by destruct static). assert (is_u8 (pfx_pattern (ref_pfx static) + x)) as H8
      by (unfold is_u8; destruct static; cbn [ref_pfx pfx_pattern]; lia).
    split; [done|]. rewrite enc_class_byte by done. cbn [enc_kind_index]. by replace (128 <=? _) with true by (destruct static; cbn [ref_pfx pfx_pattern]; lia).
  - destruct (qstr_wire_split (mk_pfx 5 64) (f_name f) spfx5) as (h & E & Ew). rewrite <- app_assoc in Hl. rewrite Ew, <- app_assoc in Hl.
    assert (zlen E < span_max) as HE.
    { rewrite !zlen_app in Hl. pose proof (zlen_nonneg (qint_wire (spfx (mk_pfx 5 64) h) (zlen E))). pose proof (zlen_nonneg post). pose proof (zlen_nonneg (qstr_wire (mk_pfx 7 0) (f_value f))). lia. }
    assert (pfx_ok (spfx (mk_pfx 5 64) h)) as Hs by (destruct (spfx_pfx _ spfx5) as (Hp1 & Hp2 & _); by destruct h).
    exists QPACK_ENC_INSERT_LITERAL, (zlen E), (qint_wire (spfx (mk_pfx 5 64) h) (zlen E)), (E ++ qstr_wire (mk_pfx 7 0) (f_value f)).
    split; [by rewrite Ew, <- app_assoc|]. split; [apply qint_wire_pos|]. split; [|done]. intros post' Hp.
    apply enc_int_instr; [done|by apply zlen_qint|done|eexists; split; [reflexivity|by rewrite spfx_bits]|].
    rewrite spfx_bits. cbn [pfx_bits]. intros x Hx. change (2 ^ 5) with 32 in Hx.
    assert (pfx_pattern (spfx (mk_pfx 5 64) h) = if h then 96 else 64) as -> by (by destruct h).
    assert (is_u8 ((if h then 96 else 64) + x)) by (unfold is_u8; destruct h; lia). split; [done|]. rewrite enc_class_byte by done.
    replace (128 <=? _) with false by (destruct h; lia). by replace (64 <=? _) with true by (destruct h; lia).
  - exists QPACK_ENC_DUPLICATE, idx, (qint_wire (mk_pfx 5 0) idx), []. split; [by rewrite app_nil_r|]. split; [apply qint_wire_pos|]. split; [|done].
    intros post' Hp. apply enc_int_instr; [pfx_solve|done|done|by eexists; split|].
    cbn [pfx_pattern pfx_bits enc_kind_index]. intros x Hx. change (2 ^ 5) with 32 in Hx. assert (is_u8 (0 + x)) by (unfold is_u8; lia). split; [done|].
    rewrite enc_class_byte by done. replace (128 <=? 0 + x) with false by lia. replace (64 <=? 0 + x) with false by lia. by replace (32 <=? 0 + x) with false by lia.
Qed.

(** An instruction that has not arrived whole changes nothing. *)
Lemma frame_cut i c c' :
  qins_ok i -> c ++ c' = qins_wire i -> 0 < zlen c' -> zlen (qins_wire i) < span_max -> frame_ins c = Some None.
Proof.
  intros Hi Ec Hc Hl. destruct (ins_head i [] Hi) as (k & v & h & rest & Ew & Hh & Hd & Hk); [by rewrite app_nil_r|]. unfold frame_ins.
  pose proof (zlen_nonneg c). pose proof (zlen_nonneg rest). assert (zlen (qins_wire i) = zlen c + zlen c') as Hz by (rewrite <- Ec; apply zlen_app).
  pose proof Ec as Ec'. rewrite Ew in Ec'. apply prefix_split in Ec' as [(r & Er & Hr)|(r & Er & Er')].
  - specialize (Hd []). rewrite app_nil_r in Hd. specialize (Hd ltac:(rewrite Ew, zlen_app in Hl; lia)). rewrite Er in Hd at 1.
    by rewrite (enc_instr_cut c r _ _ _ Hd).
  - rewrite Er. pose proof (zlen_nonneg r). rewrite (Hd r) by (rewrite <- Er; lia).
    destruct i as [cc|static idx value|f|idx]; cbn [qins_wire] in *.
    + subst rest. destruct r; [|done]. cbn in Er'. subst c'. done.
    + destruct Hk as [-> ->]. cbn [enc_ends]. unfold end_nameref.
      pose proof (str_end_cut (mk_pfx 7 0) value h r c' spfx7 Er' Hc ltac:(rewrite <- Ew; done)) as Hse. cbn [pfx_bits] in Hse. by rewrite Hse.
    + subst k. cbn [enc_ends]. unfold end_literal. rewrite <- Er. apply prefix_split in Ec as [(q & Eq & Hq)|(q & Eq & Eq')].
      * pose proof (str_end_cut (mk_pfx 5 64) (f_name f) [] c q spfx5 (eq_sym Eq)) as Hse. cbn [app pfx_bits] in Hse. change (zlen (@nil Z)) with 0 in Hse.
        rewrite Hse; [done| |]; [rewrite Eq, zlen_app in Hq; lia|]. rewrite zlen_app in Hl. pose proof (zlen_nonneg (qstr_wire (mk_pfx 7 0) (f_value f))). lia.
      * rewrite zlen_app in Hl, Hz. pose proof (zlen_nonneg (qstr_wire (mk_pfx 7 0) (f_value f))). pose proof (qstr_wire_pos (mk_pfx 5 64) (f_name f)).
        rewrite Eq. pose proof (str_end_spec (mk_pfx 5 64) (f_name f) [] q spfx5) as Hs1. cbn [app pfx_bits] in Hs1. change (zlen (@nil Z)) with 0 in Hs1.
        rewrite Hs1, Z.add_0_l by (rewrite <- Eq; lia). cbn [mbind option_bind]. replace (_ =? 0) with false by lia. cbn [negb].
        pose proof (str_end_cut (mk_pfx 7 0) (f_value f) (qstr_wire (mk_pfx 5 64) (f_name f)) q c' spfx7 Eq' Hc ltac:(rewrite zlen_app; done)) as Hs2.
        cbn [pfx_bits] in Hs2. by rewrite Hs2.
    + subst rest. destruct r; [|done]. cbn in Er'. subst c'. done.
Qed.

(** ** Applying the contiguous octets *)

(** The instructions whole within [n] octets. *)
Fixpoint whole (n : Z) (l : list qins) : list qins :=
  match l with
  | [] => []
  | i :: l' => if zlen (qins_wire i) <=? n then i :: whole (n - zlen (qins_wire i)) l' else []
  end.

(** Applying a list until one is refused: success, the entries, and the instructions applied. *)
Fixpoint a_feed (a : dtable) (max : Z) (l : list qins) : bool * dtable * list qins :=
  match l with
  | [] => (true, a, [])
  | i :: l' =>
      match a_apply a max i with
      | None => (false, a, [])
      | Some a' => let '(ok, a'', applied) := a_feed a' max l' in (ok, a'', i :: applied)
      end
  end.

Lemma a_ins_ok t a f a' :
  dyn_ok t a -> Forall field_ok (a_ents a) -> bytes_ok (f_name f) -> bytes_ok (f_value f) -> a_ins a f = Some a' ->
  Forall field_ok (a_ents a') /\ a_dropped a' + zlen (a_ents a') <= a_dropped a + zlen (a_ents a) + 1.
Proof.
  intros [(base & Hr) _] Hall Hn Hv E. pose proof (dr_cap_le t base a Hr) as Hc. unfold a_ins in E. destruct (a_insert a f) as [[] a1] eqn:Ei; [|done].
  injection E as <-. assert (zlen (ebytes f) <= 2016) as Hz by (unfold a_insert in Ei; destruct (_ <? _) eqn:El in Ei; [done|lia]).
  rewrite zlen_ebytes in Hz. pose proof (zlen_nonneg (f_name f)). pose proof (zlen_nonneg (f_value f)).
  pose proof (a_step_ok a (DInsert f) Hall) as Hs. cbn [a_step] in Hs. rewrite Ei in Hs. apply Hs. unfold dyn_op_ok, field_ok, span_max. repeat split; (done || lia).
Qed.

Lemma a_apply_ok t a max i a' :
  dyn_ok t a -> Forall field_ok (a_ents a) -> qins_ok i -> a_apply a max i = Some a' ->
  Forall field_ok (a_ents a') /\ a_dropped a' + zlen (a_ents a') <= a_dropped a + zlen (a_ents a) + 1.
Proof.
  intros Hok Hall Hi E. assert (forall j e, load (a_ents a) j = Some e -> field_ok e) as Hent.
  { intros j e He. unfold load in He. bcase in He; [|done]. by apply (Forall_lookup_1 _ _ _ _ Hall He). }
  destruct i as [c|static idx value|f|idx]; cbn [a_apply] in E.
  - destruct (c <=? max); [|done]. injection E as <-. apply (a_step_ok a (DCapacity c) Hall). cbn. apply Hi.
  - destruct Hi as [Hx Hv]. destruct static.
    + pose proof (static_name_spec idx t ltac:(unfold qint_ok in Hx; lia)) as Hs. destruct (static_name idx) as [name|]; [|done]. cbn [mbind option_bind] in E.
      destruct Hs as (_ & Hb & _). by apply (a_ins_ok t a (mk_field name value)).
    + destruct (load (a_ents a) _) as [e|] eqn:Ee; [|done]. cbn [fmap option_fmap option_map mbind option_bind] in E.
      destruct (Hent _ _ Ee) as (Hb & _). by apply (a_ins_ok t a (mk_field (f_name e) value)).
  - destruct Hi. by apply (a_ins_ok t a f).
  - destruct (load (a_ents a) _) as [e|] eqn:Ee; [|done]. cbn [mbind option_bind] in E. destruct (Hent _ _ Ee) as (Hb & Hb2 & _). by apply (a_ins_ok t a e).
Qed.

Lemma qins_wire_pos i : 0 < zlen (qins_wire i).
Proof.
  destruct i as [c|st idx v|f|idx]; cbn [qins_wire]; [apply qint_wire_pos| | |apply qint_wire_pos]; rewrite zlen_app.
  - pose proof (qint_wire_pos (ref_pfx st) idx). pose proof (zlen_nonneg (qstr_wire (mk_pfx 7 0) v)). lia.
  - pose proof (qstr_wire_pos (mk_pfx 5 64) (f_name f)). pose proof (zlen_nonneg (qstr_wire (mk_pfx 7 0) (f_value f))). lia.
Qed.

Lemma apply_loop_spec max err l : forall fuel c c' bytes used t a,
  dyn_ok t a -> Forall field_ok (a_ents a) -> a_dropped a + zlen (a_ents a) + zlen l < span_max -> Forall qins_ok l ->
  c ++ c' = ins_wires l -> zlen (ins_wires l) < span_max -> drop (Z.to_nat used) bytes = c -> 0 <= used -> zlen c < Z.of_nat fuel ->
  let '(ok, a', applied) := a_feed a max (whole (zlen c) l) in
  exists t', rx_apply_loop fuel bytes used t max err = Some (used + zlen (ins_wires applied), t', if ok then err else QPACK_ENCODER_STREAM_ERROR) /\
    dyn_ok t' a' /\ Forall field_ok (a_ents a') /\ a_dropped a' + zlen (a_ents a') <= a_dropped a + zlen (a_ents a) + zlen applied.
Proof.
  induction l as [|i l IH]; intros fuel c c' bytes used t a Hok Hall Hins Hl Ec Hsz Ed Hu Hf; (destruct fuel as [|fuel]; [pose proof (zlen_nonneg c); lia|]); cbn [rx_apply_loop].
  { cbn [whole a_feed]. destruct c; [|done]. rewrite Ed. exists t. change (zlen (ins_wires [])) with 0; change (zlen (@nil qins)) with 0; cbn iota; rewrite Z.add_0_r. split; [done|]. split; [done|]. split; [done|lia]. }
  apply Forall_cons_1 in Hl as [Hi Hl]. assert (ins_wires (i :: l) = qins_wire i ++ ins_wires l) as Ew by done. rewrite Ew in *. rewrite zlen_app in Hsz.
  pose proof (zlen_nonneg (ins_wires l)). pose proof (qins_wire_pos i) as Hpos. rewrite zlen_cons in Hins. pose proof (zlen_nonneg l). cbn [whole]. rewrite Ed.
  apply prefix_split in Ec as [(r & Er & Hr)|(r & Er & Er')].
  - replace (_ <=? zlen c) with false by lia. cbn [a_feed]. unfold qdyn_enc_apply.
    rewrite (frame_cut i c r Hi (eq_sym Er)); [|rewrite Er, zlen_app in Hr; lia|lia]. cbn [mbind option_bind]. rewrite Z.eqb_refl.
    exists t. change (zlen (ins_wires [])) with 0; change (zlen (@nil qins)) with 0; cbn iota; rewrite Z.add_0_r. split; [done|]. split; [done|]. split; [done|lia].
  - assert (zlen c = zlen (qins_wire i) + zlen r) as Hzc by (rewrite Er; apply zlen_app). pose proof (zlen_nonneg r).
    assert (zlen r <= zlen (ins_wires l)) as Hrl by (rewrite <- Er', zlen_app; pose proof (zlen_nonneg c'); lia).
    replace (_ <=? zlen c) with true by lia. cbn [a_feed].
    pose proof (enc_apply_spec t a max err r Hok Hall ltac:(lia) i Hi ltac:(rewrite zlen_app; lia)) as Ha. unfold apply_result in Ha. rewrite <- Er in Ha.
    destruct (a_apply a max i) as [a1|] eqn:Ea; destruct Ha as (t1 & Ha & Ht1); rewrite Ha; cbn [mbind option_bind].
    + replace (zlen (qins_wire i) =? 0) with false by lia. destruct (a_apply_ok t a max i a1 Hok Hall Hi Ea) as [Hf1 Hd1].
      specialize (IH fuel r c' bytes (used + zlen (qins_wire i)) t1 a1 Ht1 Hf1 ltac:(lia) Hl Er' ltac:(lia)).
      replace (zlen c - zlen (qins_wire i)) with (zlen r) by lia. destruct (a_feed a1 max (whole (zlen r) l)) as [[ok a2] applied].
      destruct IH as (t2 & E2 & Ht2).
      * rewrite Z2Nat.inj_add, <- drop_drop, Ed, Er by lia. by rewrite drop_zlen_app.
      * lia.
      * lia.
      * exists t2. destruct Ht2 as (Ht2 & Hf2 & Hd2). rewrite zlen_cons. split; [|split; [done|split; [done|lia]]]. rewrite E2. do 3 f_equal. unfold ins_wires. cbn [map concat]. rewrite zlen_app. lia.
    + exists t1. change (zlen (ins_wires [])) with 0; change (zlen (@nil qins)) with 0; cbn iota; rewrite Z.add_0_r. split; [done|]. split; [done|]. split; [done|lia].
Qed.

Lemma a_feed_inv max l : forall a,
  let '(ok, a', ap) := a_feed a max l in
  a_feed a max ap = (true, a', ap) /\ (if ok then ap = l else exists i rest, l = ap ++ i :: rest /\ a_apply a' max i = None).
Proof.
  induction l as [|i l IH]; intros a; cbn [a_feed]; [done|]. destruct (a_apply a max i) as [a1|] eqn:E.
  - specialize (IH a1). destruct (a_feed a1 max l) as [[ok a'] ap]. destruct IH as [H1 H2]. split; [cbn [a_feed]; by rewrite E, H1|].
    destruct ok; [by subst|]. destruct H2 as (j & rest & -> & Hj). eauto.
  - split; [done|]. exists i, l. done.
Qed.

Lemma a_feed_app max l1 l2 : forall a a1, a_feed a max l1 = (true, a1, l1) ->
  a_feed a max (l1 ++ l2) = let '(ok, a2, ap) := a_feed a1 max l2 in (ok, a2, l1 ++ ap).
Proof.
  induction l1 as [|i l1 IH]; intros a a1 E; [injection E as <-; cbn; by destruct (a_feed a max l2) as [[? ?] ?]|].
  cbn [app a_feed] in *. destruct (a_apply a max i) as [a'|]; [|done]. destruct (a_feed a' max l1) as [[ok a''] ap] eqn:E1. injection E as -> -> ->.
  rewrite (IH a' a1 E1). by destruct (a_feed a1 max l2) as [[? ?] ?].
Qed.

Lemma whole_spec l : forall n, 0 <= n -> exists rest, l = whole n l ++ rest /\ zlen (ins_wires (whole n l)) <= n /\
  match rest with [] => True | i :: _ => n < zlen (ins_wires (whole n l)) + zlen (qins_wire i) end.
Proof.
  induction l as [|i l IH]; intros n Hn; [exists []; by split|]. cbn [whole]. destruct (zlen (qins_wire i) <=? n) eqn:E.
  - destruct (IH (n - zlen (qins_wire i)) ltac:(lia)) as (rest & El & Hle & Hr). exists rest. split; [cbn [app]; by rewrite <- El|].
    unfold ins_wires in *. cbn [map concat]. rewrite zlen_app. split; [lia|]. destruct rest; [done|]. lia.
  - exists (i :: l). split; [done|]. change (zlen (ins_wires [])) with 0. split; [done|]. lia.
Qed.

(** ** The state between frames *)

(** The forms of the stream type, RFC 9000 16 allowing longer ones. *)
Definition type_forms : list (list Z) := [[2]; [64; 2]; [128; 0; 0; 2]; [192; 0; 0; 0; 0; 0; 0; 2]].

Lemma type_take ty post n :
  ty ∈ type_forms -> 0 <= n <= zlen (ty ++ post) ->
  varint_take (take (Z.to_nat n) (ty ++ post)) 0 = if n <? zlen ty then Fail else Ok (2, zlen ty).
Proof.
  intros Hty Hn. assert (1 <= zlen ty <= 8) as Hz.
  { unfold type_forms in Hty. repeat (apply elem_of_cons in Hty as [->|Hty]; [vm_compute; split; congruence|]). by apply elem_of_nil in Hty. }
  destruct (n <? zlen ty) eqn:E.
  - rewrite take_app_le by (unfold zlen in *; lia).
    assert (n = 0 \/ n = 1 \/ n = 2 \/ n = 3 \/ n = 4 \/ n = 5 \/ n = 6 \/ n = 7) as Hcases by lia.
    unfold type_forms in Hty. repeat (apply elem_of_cons in Hty as [->|Hty]; [|]); [| | | |by apply elem_of_nil in Hty];
      (repeat destruct Hcases as [->|Hcases]); subst; (reflexivity || discriminate E).
  - replace (take (Z.to_nat n) (ty ++ post)) with (ty ++ take (Z.to_nat (n - zlen ty)) post).
    2: { unfold zlen in *. rewrite take_app_ge by lia. f_equal. f_equal. lia. }
    set (p := take _ post). pose proof (zlen_nonneg p). clearbody p. clear E Hn n post.
    unfold type_forms in Hty. repeat (apply elem_of_cons in Hty as [->|Hty]; [|]); [| | | |by apply elem_of_nil in Hty];
      unfold varint_take, varint_decode; cbn [app]; rewrite !zlen_cons; (replace (_ <=? 0) with false by lia); (replace (_ =? 0) with false by lia);
      rewrite load_cons_0; cbn [Z.shiftr Z.shiftl Z.div2 Pos.div2 Z.to_nat Z.opp]; (match goal with |- context [[1; 2; 4; 8] !! ?k] => let v := eval vm_compute in ([1; 2; 4; 8] !! k) in change ([1; 2; 4; 8] !! k) with v end);
      cbn iota; (replace (_ <? _) with false by lia); reflexivity.
Qed.

(** What the stream must be for the theorems: the type and whole instructions. *)
Section stream.
Context (ty : list Z) (l : list qins) (a0 : dtable) (max : Z).
Hypothesis Hty : ty ∈ type_forms.
Hypothesis Hl : Forall qins_ok l.
Hypothesis Hsz : zlen (ty ++ ins_wires l) < span_max.
Hypothesis Ha0 : Forall field_ok (a_ents a0).
Hypothesis Hins : a_dropped a0 + zlen (a_ents a0) + zlen l < span_max.

Definition stream : list Z := ty ++ ins_wires l.

(** Some octet of the next [n] is missing. *)
Definition gap (got : Z -> bool) (from n : Z) : Prop := exists p, from <= p < from + n /\ got p = false.

Definition next_missing (got : Z -> bool) (base : Z) (rest : list qins) : Prop :=
  match rest with [] => True | i :: _ => gap got base (zlen (qins_wire i)) end.

(** Not yet claimed: the type is not all there. *)
Definition unclaimed (rx : qdyn_encrx) (t : qpack_dyn) (got : Z -> bool) : Prop :=
  er_type_len rx = 0 /\ er_base rx = 0 /\ dyn_ok t a0 /\ gap got 0 (zlen ty).

(** Claimed: the instructions before the base are applied, the next one is not all there. *)
Definition claimed (rx : qdyn_encrx) (t : qpack_dyn) (l1 l2 : list qins) (a1 : dtable) : Prop :=
  er_type_len rx = zlen ty /\ l = l1 ++ l2 /\ er_base rx = zlen ty + zlen (ins_wires l1) /\ a_feed a0 max l1 = (true, a1, l1) /\
  dyn_ok t a1 /\ Forall field_ok (a_ents a1) /\ a_dropped a1 + zlen (a_ents a1) <= a_dropped a0 + zlen (a_ents a0) + zlen l1.

Definition rx_state (rx : qdyn_encrx) (t : qpack_dyn) (got : Z -> bool) : Prop :=
  rx_rep stream rx got /\
  (unclaimed rx t got \/ exists l1 l2 a1, claimed rx t l1 l2 a1 /\ next_missing got (er_base rx) l2).

(** The first instruction the specification refuses has arrived, and is refused. *)
Definition rx_refused (t : qpack_dyn) (got : Z -> bool) : Prop :=
  exists l1 i l2 a1, l = l1 ++ i :: l2 /\ a_feed a0 max l1 = (true, a1, l1) /\ a_apply a1 max i = None /\ dyn_ok t a1 /\
    forall p, 0 <= p < zlen ty + zlen (ins_wires (l1 ++ [i])) -> got p = true.

Lemma type_len : 1 <= zlen ty <= 8.
Proof using Hty.
  unfold type_forms in Hty. revert Hty. clear. intros Hty. repeat (apply elem_of_cons in Hty as [->|Hty]; [vm_compute; split; congruence|]). by apply elem_of_nil in Hty.
Qed.

Lemma stream_split l1 l2 : l = l1 ++ l2 -> forall n, sub stream (zlen ty + zlen (ins_wires l1)) n = take (Z.to_nat n) (ins_wires l2).
Proof using.
  intros El n. unfold sub, stream. rewrite El, ins_wires_app. f_equal. rewrite app_assoc, <- zlen_app. apply drop_zlen_app.
Qed.

(** Applying what is contiguous, on a claimed stream. *)
Lemma apply_claimed rx t got l1 l2 a1 :
  rx_rep stream rx got -> claimed rx t l1 l2 a1 ->
  exists rx' t' e, (exists used, rx_apply rx t max 0 = Some (used, t', e) /\ rx_slide rx used = Some rx') /\
    rx_rep stream rx' got /\ er_type_len rx' = zlen ty /\
    ((e = 0 /\ rx_state rx' t' got) \/ (e = QPACK_ENCODER_STREAM_ERROR /\ rx_refused t' got)).
Proof using All.
  intros R (Etl & El & Eb & Efd & Hok & Hf & Hd). pose proof type_len as Htl. destruct (ready_spec stream rx got R) as (n & En & Hn & Hv & Hle). unfold rx_apply. rewrite En. cbn [mbind option_bind].
  rewrite Hv. cbn [mbind option_bind]. rewrite Eb, (stream_split l1 l2 El). destruct Hn as (Hn0 & Hgot & Hno).
  assert (zlen stream = zlen ty + zlen (ins_wires l1) + zlen (ins_wires l2)) as Ezs by (unfold stream; rewrite El, ins_wires_app, !zlen_app; lia).
  set (c := take (Z.to_nat n) (ins_wires l2)). assert (zlen c = n) as Hc by (apply zlen_take; lia). pose proof Hl as Hl'. rewrite El in Hl'. apply Forall_app in Hl' as [Hl1 Hl2].
  pose proof Hsz as Hsz'. fold stream in Hsz'. rewrite El, zlen_app in Hins. pose proof (zlen_nonneg (ins_wires l1)).
  pose proof (apply_loop_spec max 0 l2 (S (Z.to_nat n)) c (drop (Z.to_nat n) (ins_wires l2)) c 0 t a1 Hok Hf ltac:(lia) Hl2 (take_drop _ _) ltac:(lia) (drop_0 c) ltac:(lia) ltac:(lia)) as Hloop.
  pose proof (a_feed_inv max (whole (zlen c) l2) a1) as Hinv. destruct (a_feed a1 max (whole (zlen c) l2)) as [[ok a2] ap] eqn:Eaf.
  destruct Hloop as (t' & -> & Ht' & Hf' & Hd'). rewrite Z.add_0_l. destruct Hinv as [Hap Hcase]. rewrite Hc in *.
  destruct (whole_spec l2 n ltac:(lia)) as (rest & Erest & Hwle & Hnext).
  assert (exists rest', l2 = ap ++ rest' /\ zlen (ins_wires ap) <= n /\ (ok = true -> rest' = rest /\ ap = whole n l2) /\
    (ok = false -> exists i r, rest' = i :: r /\ a_apply a2 max i = None /\ zlen (ins_wires ap) + zlen (qins_wire i) <= n)) as (rest' & Er' & Hapn & Htrue & Hfalse).
  { destruct ok; [subst ap; exists rest; split; [done|]; split; [done|]; split; [by split|done]|]. destruct Hcase as (i & r & Ew & Hi). exists (i :: r ++ rest).
    rewrite Ew in Erest, Hwle. rewrite ins_wires_app in Hwle. change (ins_wires (i :: r)) with (qins_wire i ++ ins_wires r) in Hwle. rewrite !zlen_app in Hwle.
    pose proof (zlen_nonneg (ins_wires r)). pose proof (qins_wire_pos i). split; [by rewrite Erest, <- app_assoc|]. split; [lia|]. split; [done|]. intros _. exists i, (r ++ rest). split; [done|]. split; [done|lia]. }
  pose proof (zlen_nonneg (ins_wires ap)).
  destruct (slide_spec stream rx got (zlen (ins_wires ap)) n R Hsz' (conj Hn0 (conj Hgot Hno)) ltac:(lia) ltac:(lia)) as (rx' & Es & R' & Eb' & Etl' & _).
  exists rx', t', (if ok then 0 else QPACK_ENCODER_STREAM_ERROR). split; [eexists; split; [reflexivity|exact Es]|]. split; [done|]. split; [congruence|].
  assert (a_feed a0 max (l1 ++ ap) = (true, a2, l1 ++ ap)) as Hfd2 by (rewrite (a_feed_app max l1 ap a0 a1 Efd), Hap; done).
  assert (l = (l1 ++ ap) ++ rest') as El2 by (rewrite <- app_assoc, <- Er'; done).
  assert (zlen (ins_wires (l1 ++ ap)) = zlen (ins_wires l1) + zlen (ins_wires ap)) as Ezap by (rewrite ins_wires_app; apply zlen_app).
  destruct ok.
  - left. split; [done|]. split; [done|]. right. exists (l1 ++ ap), rest', a2. destruct (Htrue eq_refl) as [-> Eap]. split.
    + split; [congruence|]. split; [done|]. split; [lia|]. split; [done|]. split; [done|]. split; [done|]. rewrite zlen_app. lia.
    + unfold next_missing. destruct rest as [|i r]; [done|]. rewrite <- Eap in Hnext. exists (er_base rx + n). split; [lia|done].
  - right. split; [done|]. destruct (Hfalse eq_refl) as (i & r & -> & Hi & Hwi). exists (l1 ++ ap), i, r, a2. split; [done|]. split; [done|]. split; [done|]. split; [done|].
    intros p Hp. rewrite ins_wires_app, zlen_app, Ezap in Hp. replace (zlen (ins_wires [i])) with (zlen (qins_wire i)) in Hp by (unfold ins_wires; cbn [map concat]; by rewrite app_nil_r).
    destruct (decide (p < er_base rx)); [apply (rp_below _ _ _ R); lia|]. replace p with (er_base rx + (p - er_base rx)) by lia. apply Hgot. lia.
Qed.

Definition fed (r : option (qdyn_encrx * qpack_dyn * Z)) (got : Z -> bool) : Prop :=
  exists rx' t' e, r = Some (rx', t', e) /\ ((e = 0 /\ rx_state rx' t' got) \/ (e = QPACK_ENCODER_STREAM_ERROR /\ rx_refused t' got)).

Lemma settle_claimed rx t got l1 l2 a1 :
  rx_rep stream rx got -> claimed rx t l1 l2 a1 -> fed (qdyn_encrx_settle rx t max 0) got.
Proof using All.
  intros R C. pose proof type_len. pose proof C as (Etl & _). unfold qdyn_encrx_settle. rewrite Etl. replace (zlen ty =? 0) with false by lia.
  cbn [mbind option_bind]. rewrite Etl. replace (zlen ty =? 0) with false by lia. cbn [negb].
  destruct (apply_claimed rx t got l1 l2 a1 R C) as (rx' & t' & e & (used & -> & Es) & _ & _ & Hr). cbn [mbind option_bind]. rewrite Es. cbn [mbind option_bind].
  exists rx', t', e. by split.
Qed.

Lemma settle_unclaimed rx t got :
  rx_rep stream rx got -> er_type_len rx = 0 -> er_base rx = 0 -> dyn_ok t a0 -> fed (qdyn_encrx_settle rx t max 0) got.
Proof using All.
  intros R Etl Eb Hok. pose proof type_len as Htl. destruct (ready_spec stream rx got R) as (n & En & Hn & Hv & Hle). rewrite Eb in Hv, Hle. pose proof Hn as (Hn0 & Hgot & Hno).
  assert (qdyn_encrx_identify rx = if n <? zlen ty then Some rx
          else rx_slide (mk_encrx (er_buf rx) (er_have rx) (er_base rx) (er_hi rx) (er_stream_id rx) (zlen ty)) (zlen ty)) as Eid.
  { unfold qdyn_encrx_identify. rewrite En. cbn [mbind option_bind]. rewrite Hv. cbn [mbind option_bind]. unfold sub. change (Z.to_nat 0) with 0%nat. rewrite drop_0.
    unfold stream in *. rewrite (type_take ty (ins_wires l) n Hty) by lia. by destruct (n <? zlen ty). }
  destruct (n <? zlen ty) eqn:E.
  - unfold qdyn_encrx_settle. rewrite Etl, Z.eqb_refl, Eid. cbn [mbind option_bind]. rewrite Etl. cbn [Z.eqb negb]. exists rx, t, 0. split; [done|]. left. split; [done|].
    split; [done|]. left. split; [done|]. split; [done|]. split; [done|]. exists n. split; [lia|]. by rewrite Eb, Z.add_0_l in Hno.
  - set (rx1 := mk_encrx _ _ _ _ _ _) in Eid. assert (rx_rep stream rx1 got) as R1 by (destruct R; by split).
    assert (ready_at rx1 got n) as Hr1 by (split; [exact Hn0|split; [exact Hgot|exact Hno]]). assert (er_base rx1 = 0) as Eb1 by exact Eb.
    pose proof Hsz as Hsz'. fold stream in Hsz'. assert (zlen stream = zlen ty + zlen (ins_wires l)) as Ezs by apply zlen_app. pose proof (zlen_nonneg (ins_wires l)).
    destruct (slide_spec stream rx1 got (zlen ty) n R1 Hsz' Hr1 ltac:(lia) ltac:(lia)) as (rx2 & Es & R2 & Eb2 & Etl2 & _).
    assert (claimed rx2 t [] l a0) as C.
    { split; [by rewrite Etl2|]. split; [done|]. change (zlen (ins_wires [])) with 0. change (zlen (@nil qins)) with 0. split; [lia|]. split; [done|]. split; [done|]. split; [done|lia]. }
    unfold qdyn_encrx_settle. rewrite Etl, Z.eqb_refl, Eid, Es. cbn [mbind option_bind].
    pose proof (settle_claimed rx2 t got [] l a0 R2 C) as Hf. unfold qdyn_encrx_settle in Hf. pose proof C as (Etl3 & _). rewrite Etl3 in *.
    replace (zlen ty =? 0) with false in * by lia. cbn [mbind option_bind negb] in *. rewrite Etl3 in Hf. replace (zlen ty =? 0) with false in Hf by lia. exact Hf.
Qed.

(** One frame within the stream's credit. *)
Lemma rx_feed_spec rx t got off n err :
  rx_state rx t got -> 0 <= off -> 0 <= n -> off + n <= zlen stream -> off + n <= qdyn_encrx_credit rx ->
  exists ok rx' t' err', qdyn_encrx_feed rx off (sub stream off n) t max err = Some (ok, rx', t', err') /\
    if ok then err' = err /\ rx_state rx' t' (add_slice got off n)
    else err' = QPACK_ENCODER_STREAM_ERROR /\ rx_refused t' (add_slice got off n).
Proof using All.
  intros [R Hst] Ho Hn Hs Hc. pose proof Hsz as Hsz'. fold stream in Hsz'. pose proof (rp_base _ _ _ R) as Hb.
  unfold qdyn_encrx_credit, QDYN_ENCRX_CAP in Hc. unfold span_max in *. rewrite u64_small in Hc by lia.
  destruct (land_spec stream rx got off n R ltac:(unfold span_max; lia) Ho Hn Hs Hc) as (rx1 & E1 & R1 & Eb1 & Etl1 & _).
  unfold qdyn_encrx_feed. rewrite E1. cbn [mbind option_bind].
  assert (fed (qdyn_encrx_settle rx1 t max 0) (add_slice got off n)) as (rx2 & t2 & e & -> & He).
  { destruct Hst as [(Etl & Eb & Hok & _)|(l1 & l2 & a1 & (Etl & El & Eb & Hr) & _)]; [apply settle_unclaimed; congruence || done|].
    apply (settle_claimed rx1 t _ l1 l2 a1 R1). split; [congruence|]. split; [done|]. split; [congruence|done]. }
  cbn [mbind option_bind]. exists (e =? 0), rx2, t2, (if negb (e =? 0) then e else err). split; [done|].
  destruct He as [[-> He]|[-> He]]; [done|]. by split.
Qed.
End stream.

(** Frames of the stream in order of arrival, as (offset, length); one past the stream's credit at its turn is not sent.
    The last result is the set of octets that have arrived. *)
Fixpoint rx_feed_all (S : list Z) (rx : qdyn_encrx) (t : qpack_dyn) (max err : Z) (got : Z -> bool) (frames : list (Z * Z))
    : option (bool * qdyn_encrx * qpack_dyn * Z * (Z -> bool)) :=
  match frames with
  | [] => Some (true, rx, t, err, got)
  | (off, n) :: frames' =>
      if qdyn_encrx_credit rx <? off + n then rx_feed_all S rx t max err got frames'
      else
        '(ok, rx, t, err) ← qdyn_encrx_feed rx off (sub S off n) t max err;
        if (ok : bool) then rx_feed_all S rx t max err (add_slice got off n) frames' else Some (false, rx, t, err, add_slice got off n)
  end.

Definition empty_encrx (buf : list Z) : qdyn_encrx := mk_encrx buf (replicate (Z.to_nat 6144) 0) 0 0 0 0.

Lemma bit_at_zeros i : bit_at (replicate (Z.to_nat 6144) 0) i = false.
Proof.
  unfold bit_at, load. destruct (0 <=? i / 8); [|done]. destruct (replicate (Z.to_nat 6144) 0 !! _) as [b|] eqn:E; [|done].
  apply lookup_replicate in E as [-> _]. apply Z.bits_0.
Qed.

Lemma empty_rep S buf sid : zlen buf = 49152 -> exists rx, qdyn_encrx_take (empty_encrx buf) sid = Some rx /\ rx_rep S rx (fun _ => false) /\
  er_type_len rx = 0 /\ er_base rx = 0.
Proof.
  intros Hz. unfold qdyn_encrx_take, bytes_memset. cbn [er_have empty_encrx er_hi]. change ((0 + 7) / 8) with 0. cbn [Z.to_nat fill mbind option_bind].
  eexists. split; [reflexivity|]. split; [|done]. pose proof (zlen_nonneg S).
  split; cbn [er_buf er_have er_base er_hi empty_encrx]; [done| |lia|lia| |done|done|lia|done].
  - split; [by apply Forall_replicate|unfold zlen; by rewrite length_replicate].
  - intros i _. apply bit_at_zeros.
Qed.

Lemma feed_all_spec ty l a0 max frames :
  ty ∈ type_forms -> Forall qins_ok l -> zlen (ty ++ ins_wires l) < span_max -> Forall field_ok (a_ents a0) ->
  a_dropped a0 + zlen (a_ents a0) + zlen l < span_max -> Forall (frame_in (stream ty l)) frames ->
  forall rx t err got, rx_state ty l a0 max rx t got ->
  exists ok rx' t' err' got', rx_feed_all (stream ty l) rx t max err got frames = Some (ok, rx', t', err', got') /\
    if ok then err' = err /\ rx_state ty l a0 max rx' t' got' else err' = QPACK_ENCODER_STREAM_ERROR /\ rx_refused ty l a0 max t' got'.
Proof.
  intros H1 H2 H3 H4 H5. induction frames as [|[off n] frames IH]; intros Hfr rx t err got Hst.
  { exists true, rx, t, err, got. by split. }
  apply Forall_cons_1 in Hfr as [(F1 & F2 & F3) Hfr]. cbn in F1, F2, F3. cbn [rx_feed_all].
  destruct (qdyn_encrx_credit rx <? off + n) eqn:Ec; [by apply IH|].
  destruct (rx_feed_spec ty l a0 max H1 H2 H3 H4 H5 rx t got off n err Hst F1 F2 F3 ltac:(lia)) as (ok & rx' & t' & err' & -> & Hok). cbn [mbind option_bind].
  destruct ok; [destruct Hok as [-> Hok]; by apply IH|]. by exists false, rx', t', err', (add_slice got off n).
Qed.

(** C37: the peer's encoder stream is reassembled exactly.  Take any stream made of its type (in any varint form) and whole
    instructions, and deliver it in frames in any order, overlapping and repeated, none past the flow-control credit at
    its turn.  Nothing faults.  Either the code refuses a frame with QPACK_ENCODER_STREAM_ERROR, and then exactly the
    instructions before the first one RFC 9204 refuses have been applied, and that one has arrived whole; or the table is
    where the maximal run of instructions that has arrived without a gap leaves it, which is all of them once every
    octet has arrived.  Instructions are in the wire form [qins_wire]: integers below 2^63 in their shortest encoding,
    strings Huffman coded exactly when that is shorter. *)
Theorem encoder_stream_reassembled (ty : list Z) (l : list qins) (t : qpack_dyn) (a0 : dtable) (max err sid : Z) (buf : list Z) (frames : list (Z * Z)) :
  ty ∈ type_forms -> Forall qins_ok l -> zlen (ty ++ ins_wires l) < span_max -> dyn_ok t a0 -> Forall field_ok (a_ents a0) ->
  a_dropped a0 + zlen (a_ents a0) + zlen l < span_max -> zlen buf = 49152 -> Forall (frame_in (stream ty l)) frames ->
  exists rx0 ok rx t' err' got, qdyn_encrx_take (empty_encrx buf) sid = Some rx0 /\
    rx_feed_all (stream ty l) rx0 t max err (fun _ => false) frames = Some (ok, rx, t', err', got) /\
    if ok then
      err' = err /\ rx_state ty l a0 max rx t' got /\
      ((forall p, 0 <= p < zlen (stream ty l) -> got p = true) ->
       exists a1, a_feed a0 max l = (true, a1, l) /\ dyn_ok t' a1 /\ qdyn_encrx_credit rx = zlen (stream ty l) + QDYN_ENCRX_CAP)
    else err' = QPACK_ENCODER_STREAM_ERROR /\ rx_refused ty l a0 max t' got.
Proof.
  intros H1 H2 H3 Hok H4 H5 Hz Hfr. destruct (empty_rep (stream ty l) buf sid Hz) as (rx0 & E0 & R & Etl & Eb). pose proof (type_len ty H1) as Htl.
  assert (rx_state ty l a0 max rx0 t (fun _ => false)) as Hst.
  { split; [done|]. left. split; [done|]. split; [done|]. split; [done|]. exists 0. split; [lia|done]. }
  destruct (feed_all_spec ty l a0 max frames H1 H2 H3 H4 H5 Hfr rx0 t err _ Hst) as (ok & rx & t' & err' & got & E & Hr).
  exists rx0, ok, rx, t', err', got. split; [done|]. split; [done|]. destruct ok; [|done]. destruct Hr as [-> Hr]. split; [done|]. split; [done|]. intros Hall.
  assert (zlen (stream ty l) = zlen ty + zlen (ins_wires l)) as Ezs by apply zlen_app. pose proof (zlen_nonneg (ins_wires l)).
  destruct Hr as [R' [(_ & _ & _ & p & Hp & Hg)|(l1 & l2 & a1 & (_ & El & Eb1 & Ef & Ht' & _) & Hnext)]]; [rewrite Hall in Hg by lia; done|].
  destruct l2 as [|i l2].
  - rewrite app_nil_r in El. subst l1. exists a1. split; [done|]. split; [done|]. unfold qdyn_encrx_credit, QDYN_ENCRX_CAP. unfold stream, span_max in *. rewrite u64_small; lia.
  - destruct Hnext as (p & Hp & Hg). assert (zlen (ins_wires l) = zlen (ins_wires l1) + (zlen (qins_wire i) + zlen (ins_wires l2))) as Ez
      by (rewrite El, ins_wires_app; change (ins_wires (i :: l2)) with (qins_wire i ++ ins_wires l2); by rewrite !zlen_app).
    pose proof (zlen_nonneg (ins_wires l2)). pose proof (zlen_nonneg (ins_wires l1)). rewrite Hall in Hg by lia. done.
Qed.

Lemma encoder_stream_reassembled_witness :
  exists rx0 rx t' got, qdyn_encrx_take (empty_encrx (replicate (Z.to_nat 49152) 7)) 0 = Some rx0 /\
    rx_feed_all (stream [2] [ILiteral (mk_field [120] [49]); IDuplicate 0]) rx0 dyn_demo 100 0 (fun _ => false) [(3, 3); (0, 2); (1, 4)]
    = Some (true, rx, t', 0, got).
Proof.
  destruct (encoder_stream_reassembled [2] [ILiteral (mk_field [120] [49]); IDuplicate 0] dyn_demo (mk_dtable 0 [] 100 100) 100 0 0 (replicate (Z.to_nat 49152) 7) [(3, 3); (0, 2); (1, 4)])
    as (rx0 & ok & rx & t' & err' & got & E0 & E & Hr).
  - apply elem_of_cons. by left.
  - constructor; [split; constructor; [vm_compute; split; congruence|constructor|vm_compute; split; congruence|constructor]|constructor; [split; vm_compute; congruence|constructor]].
  - vm_compute. reflexivity.
  - exact dyn_demo_ok.
  - exact (Forall_nil_2 _).
  - vm_compute. reflexivity.
  - unfold zlen. rewrite length_replicate. reflexivity.
  - repeat (constructor; [split; [vm_compute; congruence|split; vm_compute; congruence]|]). constructor.
  - exists rx0, rx, t', got. split; [exact E0|]. rewrite E. clear E0 E.
    destruct ok; [by destruct Hr as [-> _]|]. exfalso. destruct Hr as [_ (l1 & i & l2 & a1 & El & Ef & Ei & _)].
    destruct l1 as [|i1 [|i2 [|? ?]]]; [| |by destruct l2|done].
    + injection El as <- <-. injection Ef as <-. vm_compute in Ei. discriminate.
    + injection El as <- <- <-. vm_compute in Ef. injection Ef as <-. vm_compute in Ei. discriminate.
Defined.
